(* ===== verification/_CoqProject ===== *)
-Q . S2P
Prelude.v
Util.v
JsonChecker.v
EngineState.v
Assoc.v
Slabs.v
Items.v
Lru.v
Cache.v
Refs.v
Store.v
Flush.v
Arith.v
DefaultEngine.v
Bitfield.v
ViewCodec.v
Snappy.v
ViewIdValue.v
Bitmap.v
SortedList.v
NodeTypes.v
IndexHeader.v
IndexDecode.v
GenHash.v
TopKeys.v
Protocol.v
Conn.v
Daemon.v
Serve.v
Reply.v
Handlers.v
Updates.v
Phases.v
Steps.v
Tick.v
Dispatch.v
Refine.v
Service.v
Wire.v
Faults.v
Crc.v
CouchFile.v
Btree.v
BtreeSpec.v
BtreeRep.v
BtreeWrite.v
BtreeModify.v
BtreeRoot.v
BtreeCorrect.v
Reduces.v
BtreeLookup.v
BtreeDb.v
BtreeAppend.v
BtreeFaults.v
