(* ===== verification/Prelude.v ===== *)
(** * Verification of the C core of the Couchbase server repository

    The repository assembles a document database from many projects. The
    development models the parts written in C that hold state or a data format
    of their own, with the operating system as a parameter where they need it.

    ** The program's parts and how they interact

    The memcached daemon ([src/memcached/daemon/memcached.c]) answers clients and
    keeps the data in an engine. A connection is a state machine: [event_handler]
    calls the function of its state until one waits for the network; the header of
    a request is parsed, its body is read, a handler calls the engine through the
    table [ENGINE_HANDLE_V1] and the response is sent. The default engine ([src/memcached/engines/default_engine]) is
    the in-memory one: [default_engine.c] implements the engine interface and
    the guards of the vbuckets, calls [items.c] for every operation on items,
    which takes chunks from the slab allocator ([slabs.c]), finds items by key
    with the hash table ([assoc.c]) and orders them in one LRU queue for each
    slab class. Integers in requests and counters are parsed by
    [utilities/util.c]. The bucket engine ([src/memcached/engines/bucket_engine])
    forwards the calls of the daemon to the engine of a bucket and counts the
    operations on each key in [topkeys.c], over the hash table of [genhash.c].
    The storage library ([src/couchstore]) encodes
    the nodes of the view indexes: [bitfield.c] are the big-endian integers,
    [views/keys.c], [views/values.c] and [views/reductions.c] the keys, values
    and reductions of the B+trees, [views/bitmap.c] the sets of partitions and
    [views/sorted_list.c] an ordered list; [views/index_header.c] puts lists,
    bitmaps and the roots of the trees ([node_types.cc]) into the header of an
    index. The data itself is in B+trees of append-only files: [btree_modify.cc]
    writes new nodes from the leaves up and returns the pointer to a new root,
    [btree_read.cc] looks keys up and folds over ranges, both through chunks with
    a length and a checksum ([couch_file_write.cc], [couch_file_read.cc],
    [crc32.c]); [util.cc] and [reduces.cc] have the comparisons and reductions of
    the trees of a database. The daemon marks the values that are JSON with the checker of the
    platform library ([src/platform/src/JSON_checker.c]).

    ** How C is modelled

    A machine integer is a [Z] that the operations reduce to its width ([u8] to
    [u64], [swrap]) wherever the result can leave it; a byte is a [Z] below 256.
    Code with effects is a value of the state monad with failure [M S A]:
    [crash] is a failed [cb_assert], a null or dangling access or an access
    outside an array, so that the theorems of the form [runs m s Q] say that
    none of these happens. The state of the default engine is the record
    [engine] of [EngineState], one field for each field of
    [struct default_engine], with the memory of the items as a finite map from
    addresses to [hash_item]s, so that items shared between the hash table, the
    LRU queues and the clients are one object. Code outside the repository's C
    sources (the hash function, [malloc], [realloc], [calloc], the creation of
    threads, the clock) is the class [Env]; its laws are [EnvOk]. In the
    couchstore files [malloc] may fail at every call ([Alloc]), the set of the
    live blocks is the state, and an uninitialised pointer is a value of its
    own whose use crashes. Locks: [item_get], [item_release], [store_item] and the
    other functions that [items.c] offers to [default_engine.c] take [cache_lock]
    around one body, and those of [slabs.c] take [slabs.lock], so that a concurrent
    run is a sequence of these bodies. A function that calls several of them, such as
    [default_item_delete] (a lookup, an unlink and a release under three acquisitions
    of the lock), or the scrubber, which takes the lock for every 200 items, is
    modelled as the run in which no other thread comes in between: the theorems on
    requests are about one client at a time. The maintenance thread of the hash table
    takes the lock for each bucket, and [assoc_interleaving] is about the sequences
    that result.

    ** Files

    - [Prelude]: integers of a width, byte strings, the monad, its [runs]
      predicate and the tactic [run], list access by [Z] index.
    - [Util]: [utilities/util.c].
    - [JsonChecker]: [platform/src/JSON_checker.c], a pushdown automaton that is
      proved to accept exactly the texts of a grammar, which is JSON up to two kinds of
      numbers; it stands alone.
    - [EngineState]: the records of [items.h], [assoc.h], [slabs.h] and
      [default_engine.h], the environment, access to the memory of items.
    - [Assoc]: [assoc.c]. [assoc_rep] relates a table, also one that is being
      expanded, to the set of its items. The class [KeyIndex] is what the rest
      of the engine assumes of the table; [assoc_rep_index] discharges it.
    - [Slabs]: [slabs.c]. [slab_inv] is the invariant of the allocator: the
      chunks in use, on the free lists and at the end of pages are disjoint and
      lie in areas that were allocated.
    - [Items]: [items.c], all operations on items.
    - [Lru]: the doubly linked queues of [items.c] as lists.
    - [Cache]: [wf], the invariant of the engine, over any [KeyIndex], and its
      preservation by the operations of [items.c].
      It also says that every queue is ordered by the time of the last use.
    - [Refs]: the account of the reference counts: [since e0 A0 l e A] says that
      since the state [e0] the references in [l] were taken and not given back.
    - [Store]: the abstract cache, a map from keys to values, and the theorems
      that the operations implement it.
    - [Flush], [Arith]: the same for [item_flush_expired] and for [arithmetic].
    - [DefaultEngine]: [default_engine.c].
    - [Bitfield], [ViewCodec], [Bitmap], [SortedList]: [bitfield.c],
      [views/keys.c], [views/values.c] and [views/reductions.c],
      [views/bitmap.c], [views/sorted_list.c]. [ViewIdValue] has the theorems on
      the values and reductions of the id B+tree.
    - [NodeTypes]: [node_types.cc], lengths and roots of B+tree nodes.
    - [IndexHeader]: [views/index_header.c] and the proof that the encoder writes
      the bytes of a header; [IndexDecode]: that the decoder reads them back. The
      class [Snappy] stands for the compressor, [SnappyOk] for what its
      documentation promises.
    - [Protocol]: [protocol_binary.h], the validators of the daemon and the texts
      of its errors. [Conn]: [struct conn] of [memcached.h], the operating system
      ([Sys]), the settings and the interface of an engine ([EngineV1]). [Daemon]:
      [memcached.c], the functions of a connection in the order of the source:
      events, messages, responses, handlers, dispatch, network, state functions
      and [event_handler].
    - [Serve]: the reference: [serve I] is what a client that sends the bytes [I]
      receives, one request after the other, without buffers, states or partial
      reads. [Reply], [Handlers], [Updates]: the handlers leave the response of
      the reference in the messages of the connection. [Phases]: what is left to
      do in each state, and the progress of a state function ([ticked]). [Steps],
      [Tick], [Dispatch]: each state function makes such a step. [Refine]: runs of
      a connection. [Service]: the default engine as an [EngineV1], the theorems on
      connections and a run of them. The theorems are about the runs in which no
      [realloc] of up to 64 MB and no [event_add] fails ([ample_memory],
      [events_accepted]; together the class [Provided]). These are conditions on a run,
      not promises of the libraries: when memory is short for a response the daemon
      loses it, and after a failed [event_add] an assertion fails. They are also about
      inputs for which the reference is defined: each call of the engine returns, no
      request makes the daemon read behind its body, a packet that is read as a whole
      has at most 32 MB ([packet_limit]), and no command outside the model is sent.
      [EngineV1Ok] is what an engine promises; [default_engine_ok] discharges it. [Wire]: a SET and a GET request on a connection, down to the cache of
      the default engine. [Faults]: two requests that the daemon should refuse.
    - [GenHash]: [engines/bucket_engine/genhash.c], a hash table with a stack of
      values for each key; [HashOk] is what it needs of the operations on keys.
    - [TopKeys]: [engines/bucket_engine/topkeys.c], the keys of a bucket that were
      used last, a ring of items and a [GenHash] table.
    - [Crc]: [crc32.c], with the polynomial division it computes. [CouchFile]:
      [couch_file_write.cc] and [couch_file_read.cc] over the operations of a file
      ([FileOps]; [FileOpsOk] are their laws: reads and writes may be short and may
      fail). [stored d p bs] says that the bytes [d] of a file hold [bs] from [p] on,
      between the marks of the blocks; [node_at] is a compressed chunk.
    - [Btree]: [btree_modify.cc], [btree_read.cc] and [couch_btree.h], every
      function. [BtreeSpec]: the contents of a tree as a sorted list and what the
      actions of a request do to it ([apply_actions], [fetches]). [BtreeRep]:
      [tree d lim h pos l], the bytes of a file hold a tree with the contents [l];
      the class [ReduceOk] is what a tree needs of its reduction. [BtreeWrite]:
      results that grow and are flushed ([mr_ok]); the class [TreeEnv] collects what
      the modification relies on. [BtreeModify]: leaves and inner nodes take their
      actions. [BtreeRoot]: [modify_node] by induction on the height, and the levels
      above the old root. [BtreeCorrect]: [modify_btree] and [complete_new_btree].
      [Reduces]: [ebin_cmp], [seq_cmp] and the four reductions, which are instances
      of [CompareOk] and [ReduceOk]. [BtreeLookup]: [btree_lookup] with one key, with
      and without a fold. [BtreeDb]: the theorems on trees and their witnesses.
      [BtreeAppend]: an operation on a tree that returns has not changed what the file
      held. [BtreeFaults]:
      lookups of several keys, the quota of a partial flush, errors that are ignored.

    ** Bounds and fuel

    A walk along a hash chain or a queue has as fuel the number of items in
    memory plus one: in a state that satisfies the invariant the chains are
    acyclic, so the fuel suffices, and the theorems prove that the operations
    return. The maintenance thread has the number of buckets of the old table
    ([assoc_maintenance_terminates]). The loops over size classes are bounded by
    [POWER_LARGEST]. The loops of the decoders consume at least one byte in each
    round and have the number of bytes as fuel. [serve] has the number of bytes of
    the input as fuel ([serve_unfold]); an event and a whole connection make at
    most [enough] calls of state functions, a product of the sizes of the input
    and the output, and three more to close the connection. The daemon's loops that double a buffer have 64 rounds as
    fuel, the number of bits of a size. The loops that read and write a file have
    the number of bytes as fuel; [modify_node], [purge_node] and
    [btree_lookup_inner] the height of the tree, and the loops over a node the
    number of its bytes. A level above the root has at most half as many nodes,
    rounded up, as the one below ([flushed_count]), so the number of items is
    enough for [root_loop]. The theorems on modification are for contents of less
    than 2^30 bytes, so that no node exceeds the 31 bits of a chunk length, and
    positions of 48 bits, the width of pointers.

    ** Not modelled

    Of the daemon: listening sockets and threads, SSL, SASL, the TAP and DCP
    commands and connections, STAT, the timings, and engines that answer later
    ([ENGINE_EWOULDBLOCK]): the state machine has the branches of the last, but the
    reference does not. Further the buckets and connections of [bucket_engine.c], ep-engine; of
    couchstore the documents and headers of databases ([couch_db.cc], [couch_save.cc],
    [db_compact.cc]), the buffers and system calls below the trees ([iobuffer.cc],
    [os.c]) and the chunks of arenas ([arena.cc]: an allocation in an arena is one
    allocation of the model), the view updater with V8; moxi, the Erlang code, the
    vendored runtimes and libraries, and the tests: they are input and output, another language, or
    third-party code. Of the modelled files, the formatting of
    [item_cachedump], log lines and DTrace probes are left out. *)

From Stdlib Require Import ZArith Lia.
From stdpp Require Import strings gmap prelude.

#[global] Open Scope Z_scope.

(** * Machine integers *)

(** The value of [z] kept in an unsigned integer of [w] bits. *)
Definition wrap (w z : Z) : Z := z mod 2 ^ w.

Definition u8 (z : Z) : Z := wrap 8 z.
Definition u16 (z : Z) : Z := wrap 16 z.
Definition u32 (z : Z) : Z := wrap 32 z.
Definition u64 (z : Z) : Z := wrap 64 z.

(** The value of [z] kept in a two's complement integer of [w] bits. *)
Definition swrap (w z : Z) : Z :=
  let m := z mod 2 ^ w in if m <? 2 ^ (w - 1) then m else m - 2 ^ w.

Definition fits (w z : Z) : Prop := 0 <= z < 2 ^ w.

Lemma wrap_fits w z : 0 <= w -> fits w (wrap w z).
Proof. intros Hw. apply Z.mod_pos_bound. apply Z.pow_pos_nonneg; lia. Qed.

Lemma wrap_small w z : fits w z -> wrap w z = z.
Proof. intros Hz. apply Z.mod_small, Hz. Qed.

Lemma swrap_small z : 0 <= z < 2 ^ 31 -> swrap 32 z = z.
Proof.
  intros Hz. unfold swrap. rewrite Z.mod_small by lia.
  rewrite (proj2 (Z.ltb_lt z (2 ^ (32 - 1)))) by lia. reflexivity.
Qed.

Lemma swrap_range z : - 2 ^ 31 <= swrap 32 z < 2 ^ 31.
Proof.
  unfold swrap. pose proof (Z.mod_pos_bound z (2 ^ 32) ltac:(lia)).
  destruct (Z.ltb_spec (z mod 2 ^ 32) (2 ^ (32 - 1))); lia.
Qed.

Lemma u16_small z : 0 <= z < 65536 -> u16 z = z.
Proof. apply (wrap_small 16). Qed.

Lemma u32_small z : 0 <= z < 4294967296 -> u32 z = z.
Proof. apply (wrap_small 32). Qed.

Lemma u64_small z : 0 <= z < 18446744073709551616 -> u64 z = z.
Proof. apply (wrap_small 64). Qed.

(** * Bytes *)

Definition byte_ok (b : Z) : Prop := 0 <= b < 256.
Definition bytes_ok (bs : list Z) : Prop := Forall byte_ok bs.

#[global] Instance byte_ok_dec b : Decision (byte_ok b).
Proof. unfold byte_ok. apply _. Defined.

(** Big-endian encoding of [v] on [n] bytes, and the value of a big-endian
    byte string. *)
Fixpoint be_bytes (n : nat) (v : Z) : list Z :=
  match n with
  | O => []
  | S n' => (v / 2 ^ (8 * Z.of_nat n')) mod 256 :: be_bytes n' v
  end.

Fixpoint be_val_acc (acc : Z) (bs : list Z) : Z :=
  match bs with
  | [] => acc
  | b :: r => be_val_acc (acc * 256 + b) r
  end.

Definition be_val (bs : list Z) : Z := be_val_acc 0 bs.

Lemma be_bytes_length n v : length (be_bytes n v) = n.
Proof. induction n as [|n IH]; simpl; auto. Qed.

Lemma be_bytes_ok n v : bytes_ok (be_bytes n v).
Proof.
  induction n as [|n IH]; simpl; constructor; auto.
  unfold byte_ok. apply Z.mod_pos_bound. lia.
Qed.

Lemma be_val_acc_shift acc bs :
  be_val_acc acc bs = acc * 256 ^ Z.of_nat (length bs) + be_val bs.
Proof.
  unfold be_val. revert acc.
  induction bs as [|b bs IH]; intros acc; cbn [be_val_acc length]; [lia|].
  rewrite IH, (IH (0 * 256 + b)), Nat2Z.inj_succ, Z.pow_succ_r by lia. ring.
Qed.

Lemma be_val_cons b bs :
  be_val (b :: bs) = b * 256 ^ Z.of_nat (length bs) + be_val bs.
Proof.
  unfold be_val at 1. cbn [be_val_acc]. rewrite be_val_acc_shift. reflexivity.
Qed.

Lemma be_val_app xs ys :
  be_val (xs ++ ys) = be_val xs * 256 ^ Z.of_nat (length ys) + be_val ys.
Proof.
  induction xs as [|x xs IH]; simpl; [unfold be_val at 2; simpl; lia|].
  rewrite !be_val_cons, IH, length_app, Nat2Z.inj_add, Z.pow_add_r by lia. ring.
Qed.

Lemma pow_256 n : 0 <= n -> 256 ^ n = 2 ^ (8 * n).
Proof. intros Hn. rewrite Z.pow_mul_r by lia. reflexivity. Qed.

(** Decoding what was encoded gives the value back, reduced to the width. *)
Lemma be_val_bytes n v : be_val (be_bytes n v) = v mod 2 ^ (8 * Z.of_nat n).
Proof.
  induction n as [|n IH]; cbn [be_bytes].
  - rewrite Z.mul_0_r, Z.mod_1_r. reflexivity.
  - rewrite be_val_cons, IH, be_bytes_length, pow_256, Nat2Z.inj_succ by lia.
    replace (8 * Z.succ (Z.of_nat n)) with (8 * Z.of_nat n + 8) by lia.
    rewrite Z.pow_add_r by lia. change (2 ^ 8) with 256.
    rewrite (Z.rem_mul_r v) by (try apply Z.pow_nonzero; lia). ring.
Qed.

Lemma be_val_bound bs :
  bytes_ok bs -> 0 <= be_val bs < 2 ^ (8 * Z.of_nat (length bs)).
Proof.
  induction 1 as [|b bs Hb _ IH]; [unfold be_val; simpl; lia|].
  rewrite be_val_cons. cbn [length].
  rewrite pow_256, Nat2Z.inj_succ by lia.
  replace (8 * Z.succ (Z.of_nat (length bs)))
    with (8 + 8 * Z.of_nat (length bs)) by lia.
  rewrite Z.pow_add_r by lia. change (2 ^ 8) with 256.
  unfold byte_ok in Hb. nia.
Qed.

(** Only the low-order bytes of the value matter. *)
Lemma be_bytes_add_high m k c v :
  (m <= k)%nat -> be_bytes m (c * 2 ^ (8 * Z.of_nat k) + v) = be_bytes m v.
Proof.
  induction m as [|m IH]; intros Hk; simpl; [reflexivity|].
  rewrite IH by lia. f_equal.
  replace (8 * Z.of_nat k)
    with ((8 * Z.of_nat k - 8 * Z.of_nat m - 8) + 8 + 8 * Z.of_nat m) by lia.
  rewrite !Z.pow_add_r by lia. change (2 ^ 8) with 256.
  rewrite !Z.mul_assoc, Z.div_add_l by (apply Z.pow_nonzero; lia).
  rewrite Z.add_comm, Z.mod_add by lia. reflexivity.
Qed.

(** Encoding what was decoded gives the bytes back. *)
Lemma be_bytes_val bs :
  bytes_ok bs -> be_bytes (length bs) (be_val bs) = bs.
Proof.
  induction 1 as [|b bs Hb Hbs IH]; simpl; [reflexivity|].
  pose proof (be_val_bound bs Hbs) as Hv. unfold byte_ok in Hb.
  rewrite be_val_cons, pow_256 by lia. f_equal.
  - rewrite Z.div_add_l, Z.div_small by lia. rewrite Z.add_0_r.
    apply Z.mod_small. lia.
  - rewrite be_bytes_add_high by lia. exact IH.
Qed.

(** * State with abnormal termination

    A C function that reads and writes a state of type [S] is a function of
    type [M S A]: it either returns a value and the new state, or it ends the
    process ([None]): a failed [cb_assert] or [assert], a call of [abort], a
    null dereference or an access outside an object. *)

Definition M (S A : Type) : Type := S -> option (A * S).

#[global] Instance M_ret S : MRet (M S) := fun A a s => Some (a, s).
#[global] Instance M_bind S : MBind (M S) := fun A B f m s =>
  match m s with
  | Some (a, s') => f a s'
  | None => None
  end.

Definition crash {S A} : M S A := fun _ => None.
Definition gets {S A} (f : S -> A) : M S A := fun s => Some (f s, s).
Definition modify {S} (f : S -> S) : M S unit := fun s => Some (tt, f s).
Definition cassert {S} (b : bool) : M S unit :=
  fun s => if b then Some (tt, s) else None.
Definition of_option {S A} (o : option A) : M S A :=
  fun s => match o with Some a => Some (a, s) | None => None end.

(** [when b m] is [if (b) { m }]. *)
Definition when {S} (b : bool) (m : M S unit) : M S unit :=
  if b then m else mret tt.

(** Total correctness: [m] started in [s] returns, and its result satisfies
    [Q]. *)
Definition runs {S A} (m : M S A) (s : S) (Q : A -> S -> Prop) : Prop :=
  exists a s', m s = Some (a, s') /\ Q a s'.

Lemma runs_ret {S A} (a : A) (s : S) (Q : A -> S -> Prop) :
  Q a s -> runs (mret a) s Q.
Proof. intros HQ. exists a, s. split; [reflexivity|exact HQ]. Qed.

Lemma runs_bind {S A B} (m : M S A) (f : A -> M S B) s (Q : B -> S -> Prop) :
  runs m s (fun a s' => runs (f a) s' Q) -> runs (mbind f m) s Q.
Proof.
  intros (a & s' & Hm & b & s'' & Hf & HQ). exists b, s''.
  unfold mbind, M_bind. rewrite Hm. auto.
Qed.

Lemma runs_mono {S A} (m : M S A) s (P Q : A -> S -> Prop) :
  runs m s P -> (forall a s', P a s' -> Q a s') -> runs m s Q.
Proof. intros (a & s' & Hm & HP) HPQ. exists a, s'. auto. Qed.

Lemma runs_gets {S A} (f : S -> A) s (Q : A -> S -> Prop) :
  Q (f s) s -> runs (gets f) s Q.
Proof. intros HQ. exists (f s), s. auto. Qed.

Lemma runs_modify {S} (f : S -> S) s (Q : unit -> S -> Prop) :
  Q tt (f s) -> runs (modify f) s Q.
Proof. intros HQ. exists tt, (f s). auto. Qed.

Lemma runs_cassert {S} (b : bool) (s : S) (Q : unit -> S -> Prop) :
  b = true -> Q tt s -> runs (cassert b) s Q.
Proof. intros -> HQ. exists tt, s. auto. Qed.

Lemma runs_of_option {S A} (o : option A) a (s : S) (Q : A -> S -> Prop) :
  o = Some a -> Q a s -> runs (of_option o) s Q.
Proof. intros -> HQ. exists a, s. auto. Qed.

Lemma runs_when {S} (b : bool) (m : M S unit) s (Q : unit -> S -> Prop) :
  (b = true -> runs m s Q) -> (b = false -> Q tt s) -> runs (when b m) s Q.
Proof.
  intros Ht Hf. destruct b; simpl; [auto|apply runs_ret; auto].
Qed.

(** What a run that is known to have returned did. *)
Lemma run_bind_Some {S A B} (m : M S A) (f : A -> M S B) s b s'' :
  mbind f m s = Some (b, s'') <->
  exists a s', m s = Some (a, s') /\ f a s' = Some (b, s'').
Proof.
  unfold mbind, M_bind. split.
  - destruct (m s) as [[a s']|] eqn:Hm; [|discriminate]. eauto.
  - intros (a & s' & -> & Hf). exact Hf.
Qed.

Lemma runs_bind_inv {S A B} (m : M S A) (f : A -> M S B) s (Q : B -> S -> Prop) :
  runs (mbind f m) s Q -> runs m s (fun a s' => runs (f a) s' Q).
Proof.
  intros (b & s'' & Hm & HQ). apply run_bind_Some in Hm as (a & s' & Hm & Hf).
  exists a, s'. split; [exact Hm|]. by exists b, s''.
Qed.

Lemma runs_ret_inv {S A} (a : A) (s : S) (Q : A -> S -> Prop) : runs (mret a) s Q -> Q a s.
Proof. by intros (a' & s' & [= <- <-] & HQ). Qed.

Lemma runs_Some {S A} (m : M S A) s a s' (Q : A -> S -> Prop) :
  runs m s Q -> m s = Some (a, s') -> Q a s'.
Proof. intros (a' & s'' & Hm & HQ) Hm'. congruence. Qed.

(** One step of a symbolic execution of a [runs] goal; a component extends it
    with the primitives of its state. *)
Ltac run_hook := fail.
Ltac run1 :=
  lazymatch goal with
  | |- runs (mbind _ _) _ _ => apply runs_bind
  | |- runs (mret _) _ _ => apply runs_ret
  | |- runs (gets _) _ _ => apply runs_gets
  | |- runs (modify _) _ _ => apply runs_modify
  | |- runs (cassert _) _ _ => apply runs_cassert
  | |- runs (of_option _) _ _ => eapply runs_of_option
  | |- _ => run_hook
  end.
Ltac run := repeat (run1; cbn beta).

(** Boolean tests of the code, as propositions. *)
Create HintDb cb discriminated.
Ltac boolify :=
  repeat match goal with
  | H : (_ =? _) = true |- _ => apply Z.eqb_eq in H
  | H : (_ =? _) = false |- _ => apply Z.eqb_neq in H
  | H : (_ <? _) = true |- _ => apply Z.ltb_lt in H
  | H : (_ <? _) = false |- _ => apply Z.ltb_ge in H
  | H : (_ <=? _) = true |- _ => apply Z.leb_le in H
  | H : (_ <=? _) = false |- _ => apply Z.leb_gt in H
  | H : negb _ = true |- _ => apply negb_true_iff in H
  | H : negb _ = false |- _ => apply negb_false_iff in H
  | H : andb _ _ = true |- _ => apply andb_true_iff in H as [? ?]
  | H : orb _ _ = false |- _ => apply orb_false_iff in H as [? ?]
  end.

(** * Finite maps and lists *)

(** A projection of the values of a map does not see an update that keeps it. *)
Lemma fmap_insert_same `{Countable K} {A B} (f : A -> B) (m : gmap K A) k x y :
  m !! k = Some x -> f y = f x -> f <$> <[k := y]> m = f <$> m.
Proof.
  intros Hk Hf. rewrite fmap_insert, Hf. apply insert_id.
  rewrite lookup_fmap, Hk. reflexivity.
Qed.

(** [replaceN l i x]: the assignment [l[i] = x] with a [Z] index, which ends the
    process outside the array. *)
Definition zlookup {A} (l : list A) (i : Z) : option A :=
  if (0 <=? i) then l !! Z.to_nat i else None.

Definition zupdate {A} (l : list A) (i : Z) (x : A) : option (list A) :=
  if (0 <=? i) && (i <? Z.of_nat (length l))
  then Some (<[Z.to_nat i := x]> l) else None.

Lemma zlookup_Some {A} (l : list A) i x :
  zlookup l i = Some x <-> 0 <= i /\ l !! Z.to_nat i = Some x.
Proof.
  unfold zlookup. destruct (Z.leb_spec 0 i); split; intros Hx;
    [split; auto|tauto|discriminate|lia].
Qed.

Lemma zlookup_lt {A} (l : list A) i :
  0 <= i < Z.of_nat (length l) -> exists x, zlookup l i = Some x.
Proof.
  intros Hi. destruct (lookup_lt_is_Some_2 l (Z.to_nat i)) as [x Hx]; [lia|].
  exists x. apply zlookup_Some. split; [lia|exact Hx].
Qed.

Lemma zlookup_range {A} (l : list A) i x :
  zlookup l i = Some x -> 0 <= i < Z.of_nat (length l).
Proof.
  intros [Hi Hx]%zlookup_Some. apply lookup_lt_Some in Hx. lia.
Qed.

Lemma zupdate_lt {A} (l : list A) i x :
  0 <= i < Z.of_nat (length l) -> zupdate l i x = Some (<[Z.to_nat i := x]> l).
Proof.
  intros Hi. unfold zupdate.
  destruct (Z.leb_spec 0 i), (Z.ltb_spec i (Z.of_nat (length l))); simpl; [auto|lia..].
Qed.

Lemma zlookup_insert {A} (l : list A) i j x :
  0 <= i < Z.of_nat (length l) -> 0 <= j ->
  zlookup (<[Z.to_nat i := x]> l) j = if decide (i = j) then Some x else zlookup l j.
Proof.
  intros Hi Hj. unfold zlookup. destruct (Z.leb_spec 0 j); [|lia].
  destruct (decide (i = j)) as [->|Hne].
  - apply list_lookup_insert_eq. lia.
  - apply list_lookup_insert_ne. lia.
Qed.
