(* ===== verification/Util.v ===== *)
(** * Number parsing ([utilities/util.c])

    The wrappers of [strtoull] and its kin that the server uses for numbers in
    commands and for the values of incr and decr. A C string is the list of its
    bytes, without the final zero. *)
From Stdlib Require Import ZArith Lia.
From stdpp Require Import strings gmap prelude.
From S2P Require Import Prelude.

(** [isspace] of the C locale: tab, newline, vertical tab, form feed, carriage
    return and space. *)
Definition isspace (c : Z) : bool := ((9 <=? c) && (c <=? 13)) || (c =? 32).
Definition isdigit (c : Z) : bool := (48 <=? c) && (c <=? 57).

Fixpoint skip_spaces (s : list Z) : list Z :=
  match s with
  | c :: s' => if isspace c then skip_spaces s' else s
  | [] => []
  end.

(** The value of the digits at the start of [s], after [acc], and what follows. *)
Fixpoint scan_digits (acc : Z) (s : list Z) : Z * list Z :=
  match s with
  | c :: s' => if isdigit c then scan_digits (acc * 10 + (c - 48)) s' else (acc, s)
  | [] => (acc, [])
  end.

Definition scan_sign (s : list Z) : bool * list Z :=
  match s with
  | c :: s' => if c =? 45 then (true, s') else if c =? 43 then (false, s') else (false, s)
  | [] => (false, [])
  end.

(** The subject sequence of the [strto] functions in base 10: its sign, its
    magnitude and the rest of the string; [None] when there is no digit. *)
Definition scan_number (s : list Z) : option (bool * Z * list Z) :=
  let (neg, s1) := scan_sign (skip_spaces s) in
  match s1 with
  | c :: _ => if isdigit c then let (v, r) := scan_digits 0 s1 in Some (neg, v, r) else None
  | [] => None
  end.

(** What [strtoull] and [strtoll] return: the value, whether [errno] is
    [ERANGE], the string at [endptr] and whether [endptr] differs from [str]. *)
Record strto := mk_strto {
  sv_val : Z;
  sv_erange : bool;
  sv_end : list Z;
  sv_conv : bool
}.

Definition strtoull (s : list Z) : strto :=
  match scan_number s with
  | None => mk_strto 0 false s false
  | Some (neg, v, r) =>
      if 2 ^ 64 <=? v then mk_strto (2 ^ 64 - 1) true r true
      else mk_strto (if neg then u64 (- v) else v) false r true
  end.

Definition strtoll (s : list Z) : strto :=
  match scan_number s with
  | None => mk_strto 0 false s false
  | Some (neg, v, r) =>
      if (neg : bool) then
        if 2 ^ 63 <? v then mk_strto (- 2 ^ 63) true r true else mk_strto (- v) false r true
      else
        if 2 ^ 63 <=? v then mk_strto (2 ^ 63 - 1) true r true else mk_strto v false r true
  end.

(** [xisspace( *endptr) || ( *endptr == 0 && endptr != str)] *)
Definition end_ok (r : strto) : bool :=
  match r.(sv_end) with
  | c :: _ => isspace c
  | [] => r.(sv_conv)
  end.

Definition strchr (s : list Z) (c : Z) : bool := existsb (Z.eqb c) s.

(** The functions return whether the conversion succeeded, with [*out]. [long] has
    64 bits, and the assignment to the 32-bit [*out] keeps its low half. *)
Definition safe_strtoull (s : list Z) : bool * Z :=
  let r := strtoull s in
  if r.(sv_erange) then (false, 0)
  else if end_ok r then
    if (swrap 64 r.(sv_val) <? 0) && strchr s 45 then (false, 0) else (true, r.(sv_val))
  else (false, 0).

Definition safe_strtoll (s : list Z) : bool * Z :=
  let r := strtoll s in
  if r.(sv_erange) then (false, 0)
  else if end_ok r then (true, r.(sv_val)) else (false, 0).

Definition safe_strtoul (s : list Z) : bool * Z :=
  let r := strtoull s in
  if r.(sv_erange) then (false, 0)
  else if end_ok r then
    if (swrap 64 r.(sv_val) <? 0) && strchr s 45 then (false, 0) else (true, u32 r.(sv_val))
  else (false, 0).

Definition safe_strtol (s : list Z) : bool * Z :=
  let r := strtoll s in
  if r.(sv_erange) then (false, 0)
  else if end_ok r then (true, swrap 32 r.(sv_val)) else (false, 0).

(** [snprintf(buf, n, "%" PRIu64, v)]: at most twenty digits. *)
Fixpoint dec_digits (fuel : nat) (v : Z) : list Z :=
  match fuel with
  | O => []
  | S n => (if v <? 10 then [] else dec_digits n (v / 10)) ++ [48 + v mod 10]
  end.

Definition print_u64 (v : Z) : list Z := dec_digits 20 v.

(** The bytes of a string literal, without the final zero. *)
Definition bytes_of (s : string) : list Z :=
  (fun a => Z.of_N (Ascii.N_of_ascii a)) <$> String.list_ascii_of_string s.

(** * Round trip *)

Lemma isdigit_code d : 0 <= d < 10 -> isdigit (48 + d) = true.
Proof. intros Hd. unfold isdigit. apply andb_true_iff. lia. Qed.

Lemma scan_digits_app xs ys acc :
  Forall (fun c => isdigit c = true) xs ->
  scan_digits acc (xs ++ ys) = scan_digits (scan_digits acc xs).1 ys.
Proof.
  intros Hx. revert acc. induction Hx as [|c xs Hc _ IH]; intros acc; simpl; [done|].
  rewrite Hc. apply IH.
Qed.

Lemma dec_digits_spec n v :
  0 <= v < 10 ^ Z.of_nat n -> (0 < n)%nat ->
  Forall (fun c => isdigit c = true) (dec_digits n v) /\ dec_digits n v <> [] /\
  forall ys, scan_digits 0 (dec_digits n v ++ ys) = scan_digits v ys.
Proof.
  revert v. induction n as [|n IH]; intros v Hv Hn; [lia|]. cbn [dec_digits].
  pose proof (Z.mod_pos_bound v 10 ltac:(lia)) as Hm.
  pose proof (isdigit_code _ Hm) as Hd.
  destruct (Z.ltb_spec v 10) as [Hlt|Hge]; simpl.
  - split; [by constructor|]. split; [done|]. intros ys. simpl. rewrite Hd.
    f_equal. rewrite Z.mod_small by lia. lia.
  - assert (Hq : 0 <= v / 10 < 10 ^ Z.of_nat n).
    { rewrite Nat2Z.inj_succ, Z.pow_succ_r in Hv by lia.
      split; [apply Z.div_pos; lia|apply Z.div_lt_upper_bound; lia]. }
    assert (Hn' : (0 < n)%nat).
    { destruct n; [|lia]. change (10 ^ Z.of_nat 0) with 1 in Hq.
      assert (1 <= v / 10) by (apply Z.div_le_lower_bound; lia). lia. }
    destruct (IH (v / 10) Hq Hn') as (Hall & Hne & Hscan).
    split; [apply Forall_app; auto|]. split; [by destruct (dec_digits n (v / 10))|].
    intros ys. rewrite <- app_assoc, Hscan. simpl. rewrite Hd. f_equal.
    rewrite (Z.div_mod v 10) at 3 by lia. lia.
Qed.

Lemma digit_not_space c : isdigit c = true -> isspace c = false.
Proof. unfold isdigit, isspace. intros Hc. boolify. apply orb_false_iff. lia. Qed.

Lemma scan_number_print v ys :
  0 <= v < 2 ^ 64 ->
  (match ys with c :: _ => isdigit c = false | [] => True end) ->
  scan_number (print_u64 v ++ ys) = Some (false, v, ys).
Proof.
  intros Hv Hys. unfold print_u64. destruct (dec_digits_spec 20 v) as (Hall & Hne & Hscan);
    [lia|lia|].
  specialize (Hscan ys). destruct (dec_digits 20 v) as [|c l]; [done|].
  apply Forall_cons_1 in Hall as [Hc _]. unfold scan_number. simpl app in *.
  cbn [skip_spaces]. rewrite (digit_not_space c Hc). unfold scan_sign.
  assert (c <> 45 /\ c <> 43) as [H1 H2] by (unfold isdigit in Hc; boolify; lia).
  rewrite (proj2 (Z.eqb_neq _ _) H1), (proj2 (Z.eqb_neq _ _) H2), Hc, Hscan.
  destruct ys as [|y ys]; simpl; [done|]. by rewrite Hys.
Qed.

Lemma print_no_minus v : 0 <= v < 2 ^ 64 -> strchr (print_u64 v) 45 = false.
Proof.
  intros Hv. unfold print_u64. destruct (dec_digits_spec 20 v) as (Hall & _ & _); [lia|lia|].
  induction Hall as [|c l Hc _ IH]; [done|].
  unfold strchr in *. cbn [existsb]. rewrite IH, orb_false_r.
  unfold isdigit in Hc. boolify. apply Z.eqb_neq. lia.
Qed.

Lemma strchr_spaces s n : strchr (s ++ replicate n 32) 45 = strchr s 45.
Proof.
  unfold strchr. rewrite existsb_app. induction n as [|n IH]; simpl; [apply orb_false_r|done].
Qed.

Lemma strtoull_print_pad v n :
  0 <= v < 2 ^ 64 -> safe_strtoull (print_u64 v ++ replicate n 32) = (true, v).
Proof.
  intros Hv. unfold safe_strtoull, strtoull.
  rewrite scan_number_print; [|done|by destruct n]. rewrite (proj2 (Z.leb_gt _ _)) by lia.
  simpl. rewrite strchr_spaces, print_no_minus, andb_false_r by done.
  by destruct n.
Qed.

Lemma dec_digits_length n v : (length (dec_digits n v) <= n)%nat.
Proof.
  revert v. induction n as [|n IH]; intros v; simpl; [lia|]. rewrite length_app. simpl.
  destruct (v <? 10); simpl; [lia|]. specialize (IH (v / 10)). lia.
Qed.

Lemma dec_digits_ascii n v : 0 <= v -> Forall (fun c => 48 <= c < 58) (dec_digits n v).
Proof.
  revert v. induction n as [|n IH]; intros v Hv; simpl; [constructor|].
  apply Forall_app. split.
  - destruct (v <? 10); [constructor|]. apply IH. apply Z.div_pos; lia.
  - constructor; [|constructor]. pose proof (Z.mod_pos_bound v 10). lia.
Qed.

(** Printing a 64-bit value and parsing it gives the value back, also when
    spaces follow it, as in an item that an in-place incr padded: the value of a
    counter survives every store. *)
Theorem safe_strtoull_print v n :
  0 <= v < 2 ^ 64 -> safe_strtoull (print_u64 v ++ replicate n 32) = (true, v).
Proof. apply strtoull_print_pad. Qed.

Lemma safe_strtoull_print_witness :
  safe_strtoull (print_u64 18446744073709551615 ++ replicate 3 32) = (true, 18446744073709551615).
Proof. apply safe_strtoull_print. lia. Defined.

(** The result of a conversion is a value of the type. *)
Lemma scan_digits_pos l acc : 0 <= acc -> 0 <= (scan_digits acc l).1.
Proof.
  revert acc. induction l as [|c l IH]; intros acc Ha; simpl; [done|].
  destruct (isdigit c) eqn:Hc; [|done]. apply IH. unfold isdigit in Hc. boolify. lia.
Qed.

Lemma strtoull_range s : 0 <= (strtoull s).(sv_val) < 2 ^ 64.
Proof.
  unfold strtoull. destruct (scan_number s) as [[[neg v] r]|] eqn:Hs; [|simpl; lia].
  assert (Hv : 0 <= v).
  { unfold scan_number in Hs. destruct (scan_sign _) as [? [|c l]]; [done|].
    destruct (isdigit c); [|done]. pose proof (scan_digits_pos (c :: l) 0 ltac:(lia)) as Hp.
    destruct (scan_digits 0 (c :: l)). by injection Hs as <- <- <-. }
  destruct (Z.leb_spec (2 ^ 64) v); simpl; [lia|].
  destruct neg; [apply (wrap_fits 64); lia|lia].
Qed.

Lemma safe_strtoull_range s v : safe_strtoull s = (true, v) -> 0 <= v < 2 ^ 64.
Proof.
  unfold safe_strtoull. pose proof (strtoull_range s).
  destruct (sv_erange _); [done|]. destruct (end_ok _); [|done].
  destruct (_ && _); [done|]. by intros [= <-].
Qed.

(** The tests of [tests/testapp.c]. *)
Example strtoull_tests :
  safe_strtoull (bytes_of "123") = (true, 123) /\ safe_strtoull (bytes_of "+123") = (true, 123) /\
  safe_strtoull (bytes_of "") = (false, 0) /\ safe_strtoull (bytes_of "123BOGUS") = (false, 0) /\
  safe_strtoull (bytes_of "18446744073709551616") = (false, 0) /\
  safe_strtoull (bytes_of "-1") = (false, 0) /\
  safe_strtoll (bytes_of "-123") = (true, -123) /\
  safe_strtoll (bytes_of "-9223372036854775809") = (false, 0) /\
  safe_strtoll (bytes_of " 123 foo") = (true, 123).
Proof. vm_compute. repeat split. Qed.

(** a string of white space only is accepted as the number 0 although it has
    no digit: with no conversion [endptr] is [str] itself, and the test of the
    white space at [endptr] comes first. *)
Theorem safe_strtoull_blank n : safe_strtoull (replicate (S n) 32) = (true, 0).
Proof.
  unfold safe_strtoull, strtoull, scan_number.
  replace (skip_spaces (replicate (S n) 32)) with (@nil Z); [done|].
  induction n as [|n IH]; [done|]. exact IH.
Qed.

(** [safe_strtoul] accepts every value below 2^63 and stores its low 32 bits:
    a number that does not fit [uint32_t] is not rejected. *)
Theorem safe_strtoul_truncates v :
  0 <= v < 2 ^ 63 -> safe_strtoul (print_u64 v) = (true, v mod 2 ^ 32).
Proof.
  intros Hv. unfold safe_strtoul, strtoull. rewrite <- (app_nil_r (print_u64 v)).
  rewrite scan_number_print; [|lia|done]. rewrite (proj2 (Z.leb_gt _ _)) by lia. simpl.
  rewrite app_nil_r, print_no_minus, andb_false_r by lia. done.
Qed.

Lemma safe_strtoul_truncates_witness : safe_strtoul (print_u64 4294967296) = (true, 0).
Proof. apply (safe_strtoul_truncates 4294967296). lia. Defined.
