(* ===== verification/JsonChecker.v ===== *)
(** * The JSON checker ([platform/src/JSON_checker.c])

    The daemon marks the values that are JSON. [checkUTF8JSON] runs a pushdown
    automaton, a table of 30 states and 31 character classes with a stack of modes,
    and a check of the UTF-8 encoding over the bytes in one pass. The two allocations
    of a checker, whose results the code does not test, are taken to succeed. The
    automaton is proved to accept exactly the texts of a grammar, and the stack of
    [size/2 + 1] modes to be deep enough for all of them. *)
From Stdlib Require Import ZArith Lia.
From stdpp Require Import strings gmap prelude.
From S2P Require Import Prelude.

#[local] Set Warnings "-clear-no-such-hyp".

(** ** The tables *)

Module Tables.
Definition __ : Z := -1.

Definition C_SPACE : Z := 0.
Definition C_WHITE : Z := 1.
Definition C_LCURB : Z := 2.
Definition C_RCURB : Z := 3.
Definition C_LSQRB : Z := 4.
Definition C_RSQRB : Z := 5.
Definition C_COLON : Z := 6.
Definition C_COMMA : Z := 7.
Definition C_QUOTE : Z := 8.
Definition C_BACKS : Z := 9.
Definition C_SLASH : Z := 10.
Definition C_PLUS : Z := 11.
Definition C_MINUS : Z := 12.
Definition C_POINT : Z := 13.
Definition C_ZERO : Z := 14.
Definition C_DIGIT : Z := 15.
Definition C_LOW_A : Z := 16.
Definition C_LOW_B : Z := 17.
Definition C_LOW_C : Z := 18.
Definition C_LOW_D : Z := 19.
Definition C_LOW_E : Z := 20.
Definition C_LOW_F : Z := 21.
Definition C_LOW_L : Z := 22.
Definition C_LOW_N : Z := 23.
Definition C_LOW_R : Z := 24.
Definition C_LOW_S : Z := 25.
Definition C_LOW_T : Z := 26.
Definition C_LOW_U : Z := 27.
Definition C_ABCDF : Z := 28.
Definition C_E : Z := 29.
Definition C_ETC : Z := 30.
Definition NR_CLASSES : Z := 31.

Definition GO : Z := 0.
Definition OK : Z := 1.
Definition OB : Z := 2.
Definition KE : Z := 3.
Definition CO : Z := 4.
Definition VA : Z := 5.
Definition AR : Z := 6.
Definition ST : Z := 7.
Definition ES : Z := 8.
Definition U1 : Z := 9.
Definition U2 : Z := 10.
Definition U3 : Z := 11.
Definition U4 : Z := 12.
Definition MI : Z := 13.
Definition ZE : Z := 14.
Definition IN : Z := 15.
Definition FR : Z := 16.
Definition E1 : Z := 17.
Definition E2 : Z := 18.
Definition E3 : Z := 19.
Definition T1 : Z := 20.
Definition T2 : Z := 21.
Definition T3 : Z := 22.
Definition F1 : Z := 23.
Definition F2 : Z := 24.
Definition F3 : Z := 25.
Definition F4 : Z := 26.
Definition N1 : Z := 27.
Definition N2 : Z := 28.
Definition N3 : Z := 29.
Definition NR_STATES : Z := 30.

Definition ascii_class : list Z :=
  [__; __; __; __; __; __; __; __;
   __; C_WHITE; C_WHITE; __; __; C_WHITE; __; __;
   __; __; __; __; __; __; __; __;
   __; __; __; __; __; __; __; __;
   C_SPACE; C_ETC; C_QUOTE; C_ETC; C_ETC; C_ETC; C_ETC; C_ETC;
   C_ETC; C_ETC; C_ETC; C_PLUS; C_COMMA; C_MINUS; C_POINT; C_SLASH;
   C_ZERO; C_DIGIT; C_DIGIT; C_DIGIT; C_DIGIT; C_DIGIT; C_DIGIT; C_DIGIT;
   C_DIGIT; C_DIGIT; C_COLON; C_ETC; C_ETC; C_ETC; C_ETC; C_ETC;
   C_ETC; C_ABCDF; C_ABCDF; C_ABCDF; C_ABCDF; C_E; C_ABCDF; C_ETC;
   C_ETC; C_ETC; C_ETC; C_ETC; C_ETC; C_ETC; C_ETC; C_ETC;
   C_ETC; C_ETC; C_ETC; C_ETC; C_ETC; C_ETC; C_ETC; C_ETC;
   C_ETC; C_ETC; C_ETC; C_LSQRB; C_BACKS; C_RSQRB; C_ETC; C_ETC;
   C_ETC; C_LOW_A; C_LOW_B; C_LOW_C; C_LOW_D; C_LOW_E; C_LOW_F; C_ETC;
   C_ETC; C_ETC; C_ETC; C_ETC; C_LOW_L; C_ETC; C_LOW_N; C_ETC;
   C_ETC; C_ETC; C_LOW_R; C_LOW_S; C_LOW_T; C_LOW_U; C_ETC; C_ETC;
   C_ETC; C_ETC; C_ETC; C_LCURB; C_ETC; C_RCURB; C_ETC; C_ETC].

Definition state_transition_table : list (list Z) :=
  [[GO; GO; -6; __; -5; __; __; __; __; __; __; __; __; __; __; __; __; __; __; __; __; __; __; __; __; __; __; __; __; __; __];
   [OK; OK; __; -8; __; -7; __; -3; __; __; __; __; __; __; __; __; __; __; __; __; __; __; __; __; __; __; __; __; __; __; __];
   [OB; OB; __; -9; __; __; __; __; ST; __; __; __; __; __; __; __; __; __; __; __; __; __; __; __; __; __; __; __; __; __; __];
   [KE; KE; __; __; __; __; __; __; ST; __; __; __; __; __; __; __; __; __; __; __; __; __; __; __; __; __; __; __; __; __; __];
   [CO; CO; __; __; __; __; -2; __; __; __; __; __; __; __; __; __; __; __; __; __; __; __; __; __; __; __; __; __; __; __; __];
   [VA; VA; -6; __; -5; __; __; __; ST; __; __; __; MI; __; ZE; IN; __; __; __; __; __; F1; __; N1; __; __; T1; __; __; __; __];
   [AR; AR; -6; __; -5; -7; __; __; ST; __; __; __; MI; __; ZE; IN; __; __; __; __; __; F1; __; N1; __; __; T1; __; __; __; __];
   [ST; __; ST; ST; ST; ST; ST; ST; -4; ES; ST; ST; ST; ST; ST; ST; ST; ST; ST; ST; ST; ST; ST; ST; ST; ST; ST; ST; ST; ST; ST];
   [__; __; __; __; __; __; __; __; ST; ST; ST; __; __; __; __; __; __; ST; __; __; __; ST; __; ST; ST; __; ST; U1; __; __; __];
   [__; __; __; __; __; __; __; __; __; __; __; __; __; __; U2; U2; U2; U2; U2; U2; U2; U2; __; __; __; __; __; __; U2; U2; __];
   [__; __; __; __; __; __; __; __; __; __; __; __; __; __; U3; U3; U3; U3; U3; U3; U3; U3; __; __; __; __; __; __; U3; U3; __];
   [__; __; __; __; __; __; __; __; __; __; __; __; __; __; U4; U4; U4; U4; U4; U4; U4; U4; __; __; __; __; __; __; U4; U4; __];
   [__; __; __; __; __; __; __; __; __; __; __; __; __; __; ST; ST; ST; ST; ST; ST; ST; ST; __; __; __; __; __; __; ST; ST; __];
   [__; __; __; __; __; __; __; __; __; __; __; __; __; __; ZE; IN; __; __; __; __; __; __; __; __; __; __; __; __; __; __; __];
   [OK; OK; __; -8; __; -7; __; -3; __; __; __; __; __; FR; __; __; __; __; __; __; __; __; __; __; __; __; __; __; __; __; __];
   [OK; OK; __; -8; __; -7; __; -3; __; __; __; __; __; FR; IN; IN; __; __; __; __; E1; __; __; __; __; __; __; __; __; E1; __];
   [OK; OK; __; -8; __; -7; __; -3; __; __; __; __; __; __; FR; FR; __; __; __; __; E1; __; __; __; __; __; __; __; __; E1; __];
   [__; __; __; __; __; __; __; __; __; __; __; E2; E2; __; E3; E3; __; __; __; __; __; __; __; __; __; __; __; __; __; __; __];
   [__; __; __; __; __; __; __; __; __; __; __; __; __; __; E3; E3; __; __; __; __; __; __; __; __; __; __; __; __; __; __; __];
   [OK; OK; __; -8; __; -7; __; -3; __; __; __; __; __; __; E3; E3; __; __; __; __; __; __; __; __; __; __; __; __; __; __; __];
   [__; __; __; __; __; __; __; __; __; __; __; __; __; __; __; __; __; __; __; __; __; __; __; __; T2; __; __; __; __; __; __];
   [__; __; __; __; __; __; __; __; __; __; __; __; __; __; __; __; __; __; __; __; __; __; __; __; __; __; __; T3; __; __; __];
   [__; __; __; __; __; __; __; __; __; __; __; __; __; __; __; __; __; __; __; __; OK; __; __; __; __; __; __; __; __; __; __];
   [__; __; __; __; __; __; __; __; __; __; __; __; __; __; __; __; F2; __; __; __; __; __; __; __; __; __; __; __; __; __; __];
   [__; __; __; __; __; __; __; __; __; __; __; __; __; __; __; __; __; __; __; __; __; __; F3; __; __; __; __; __; __; __; __];
   [__; __; __; __; __; __; __; __; __; __; __; __; __; __; __; __; __; __; __; __; __; __; __; __; __; F4; __; __; __; __; __];
   [__; __; __; __; __; __; __; __; __; __; __; __; __; __; __; __; __; __; __; __; OK; __; __; __; __; __; __; __; __; __; __];
   [__; __; __; __; __; __; __; __; __; __; __; __; __; __; __; __; __; __; __; __; __; __; __; __; __; __; __; N2; __; __; __];
   [__; __; __; __; __; __; __; __; __; __; __; __; __; __; __; __; __; __; __; __; __; __; N3; __; __; __; __; __; __; __; __];
   [__; __; __; __; __; __; __; __; __; __; __; __; __; __; __; __; __; __; __; __; __; __; OK; __; __; __; __; __; __; __; __]].

Definition MODE_ARRAY : Z := 0.
Definition MODE_DONE : Z := 1.
Definition MODE_KEY : Z := 2.
Definition MODE_OBJECT : Z := 3.
End Tables.
Import Tables.

(** ** The checker *)

Record JSON_checker := mk_jc {
  jc_state : Z;
  jc_depth : Z;
  jc_top : Z;
  jc_stack : list Z
}.

Definition set_jc_state (v : Z) (x : JSON_checker) : JSON_checker :=
  mk_jc v x.(jc_depth) x.(jc_top) x.(jc_stack).
Definition set_jc_top (v : Z) (x : JSON_checker) : JSON_checker :=
  mk_jc x.(jc_state) x.(jc_depth) v x.(jc_stack).
Definition set_jc_stack (v : list Z) (x : JSON_checker) : JSON_checker :=
  mk_jc x.(jc_state) x.(jc_depth) x.(jc_top) v.

Abbreviation J := (M JSON_checker).

(** [reject] frees the checker, which is not used afterwards. *)
Definition reject : J bool := mret false.

Definition push (mode : Z) : J bool :=
  modify (fun jc => set_jc_top (jc.(jc_top) + 1) jc);;
  jc ← gets id;
  if jc.(jc_depth) <=? jc.(jc_top) then mret false else
  l ← of_option (zupdate jc.(jc_stack) jc.(jc_top) mode);
  modify (set_jc_stack l);;
  mret true.

Definition pop (mode : Z) : J bool :=
  jc ← gets id;
  if jc.(jc_top) <? 0 then mret false else
  m ← of_option (zlookup jc.(jc_stack) jc.(jc_top));
  if negb (m =? mode) then mret false else
  modify (set_jc_top (jc.(jc_top) - 1));;
  mret true.

(** The checker that [new_JSON_checker] returns. *)
Definition new_JSON_checker (depth : Z) : option JSON_checker :=
  snd <$> push MODE_DONE (mk_jc VA depth (-1) (replicate (Z.to_nat depth) 0)).

Definition set_state (st : Z) : J bool := modify (set_jc_state st);; mret true.

(** The mode on the top of the stack. *)
Definition top_mode : J Z :=
  jc ← gets id;
  of_option (zlookup jc.(jc_stack) jc.(jc_top)).

(** The actions of the transition table. *)
Definition action (next_state : Z) : J bool :=
  if next_state =? -9 then ok ← pop MODE_KEY; if negb ok then reject else set_state OK
  else if next_state =? -8 then ok ← pop MODE_OBJECT; if negb ok then reject else set_state OK
  else if next_state =? -7 then ok ← pop MODE_ARRAY; if negb ok then reject else set_state OK
  else if next_state =? -6 then ok ← push MODE_KEY; if negb ok then reject else set_state OB
  else if next_state =? -5 then ok ← push MODE_ARRAY; if negb ok then reject else set_state AR
  else if next_state =? -4 then
    m ← top_mode;
    if m =? MODE_KEY then set_state CO
    else if (m =? MODE_ARRAY) || (m =? MODE_OBJECT) || (m =? MODE_DONE) then set_state OK
    else reject
  else if next_state =? -3 then
    m ← top_mode;
    if m =? MODE_OBJECT then
      popped ← pop MODE_OBJECT;
      ok ← (if negb popped then mret false else push MODE_KEY);
      if negb ok then reject else set_state KE
    else if m =? MODE_ARRAY then set_state VA
    else reject
  else if next_state =? -2 then
    popped ← pop MODE_KEY;
    ok ← (if negb popped then mret false else push MODE_OBJECT);
    if negb ok then reject else set_state VA
  else reject.

Definition JSON_checker_char (next_char : Z) : J bool :=
  if next_char <? 0 then reject else
  next_class ← (if 128 <=? next_char then mret C_ETC else of_option (zlookup ascii_class next_char));
  if next_class <=? __ then reject else
  jc ← gets id;
  row ← of_option (zlookup state_transition_table jc.(jc_state));
  next_state ← of_option (zlookup row next_class);
  if 0 <=? next_state then set_state next_state else action next_state.

Definition JSON_checker_done : J bool :=
  jc ← gets id;
  if negb (jc.(jc_state) =? OK) then mret false else pop MODE_DONE.

(** How many bytes follow the first byte of a UTF-8 sequence; [None] when the bits
    of the count are not ended by a zero. *)
Definition utf8_expect (b : Z) : option Z :=
  let e1 := if Z.land b 32 =? 0 then 1 else 2 in
  let e2 := if negb (Z.land b 16 =? 0) && (e1 =? 2) then 3 else e1 in
  if (e2 =? 3) && negb (Z.land b 8 =? 0) then None else Some e2.

(** The loop of [checkUTF8JSON]: the values of [badjson] and [badutf] after it. *)
Fixpoint check_loop (data : list Z) (expect : Z) : J (bool * bool) :=
  match data with
  | [] => mret (false, false)
  | b :: data' =>
      ok ← JSON_checker_char b;
      if negb ok then mret (true, false)
      else if b <=? 127 then
        if negb (expect =? 0) then mret (false, true) else check_loop data' expect
      else if Z.land b 192 =? 192 then
        if negb (expect =? 0) then mret (false, true) else
        match utf8_expect b with
        | None => mret (false, true)
        | Some n => check_loop data' n
        end
      else if negb (expect =? 0) then check_loop data' (expect - 1)
      else mret (false, true)
  end.

(** What follows the loop: a space ends a number. *)
Definition check_end : J bool :=
  jc ← gets id;
  bad ← (if negb (jc.(jc_state) =? OK) then ok ← JSON_checker_char 32; mret (negb ok)
         else mret false);
  if (bad : bool) then mret false else JSON_checker_done.

Definition checkUTF8JSON (data : list Z) : option bool :=
  match new_JSON_checker (swrap 32 (Z.of_nat (length data) / 2) + 1) with
  | None => None
  | Some jc =>
      fst <$> (bad ← check_loop data 0;
               json ← (if (bad.1 : bool) then mret false else check_end);
               mret (json && negb bad.2)) jc
  end.

(** ** The grammar

    The language that the checker decides. It is not exactly JSON: it is the language of
    RFC 7159 with white space around a text, except for two kinds of numbers, for which it
    follows the transition table of the code. A point need not be followed by a digit
    ([1.] is a number here and not in JSON), and the number 0 has no exponent ([0e1] is a
    number in JSON and not here). The productions are written from left to right, as [arr_open], an
    array up to the place of its next value. *)

Module Grammar.
Definition is_ws (c : Z) : bool := (c =? 32) || (c =? 9) || (c =? 10) || (c =? 13).
Definition is_digit (c : Z) : bool := (48 <=? c) && (c <=? 57).
Definition is_hex (c : Z) : bool :=
  is_digit c || ((65 <=? c) && (c <=? 70)) || ((97 <=? c) && (c <=? 102)).
(** A character of a string that stands for itself. *)
Definition is_plain (c : Z) : bool := (32 <=? c) && negb (c =? 34) && negb (c =? 92).
(** What may follow a backslash, apart from [u] and four hexadecimal digits. *)
Definition is_escape (c : Z) : bool := bool_decide (c ∈ [34; 92; 47; 98; 102; 110; 114; 116]).

Definition ws (l : list Z) : Prop := Forall (fun c => is_ws c = true) l.
Definition digits (l : list Z) : Prop := Forall (fun c => is_digit c = true) l.

(** A digit from 1 to 9 and more digits. *)
Definition positive (l : list Z) : Prop := exists d ds, l = d :: ds /\ 49 <= d <= 57 /\ digits ds.

Definition sgn (l : list Z) : Prop := l = [] \/ l = [45].

Definition fraction (l : list Z) : Prop :=
  exists i ds, l = i ++ 46 :: ds /\ (i = [48] \/ positive i) /\ digits ds.

Definition exponent (l : list Z) : Prop :=
  l = [] \/ exists e s ds, l = e :: s ++ ds /\ (e = 101 \/ e = 69) /\
    (s = [] \/ s = [43] \/ s = [45]) /\ ds <> [] /\ digits ds.

Definition json_number (l : list Z) : Prop :=
  exists s, sgn s /\ (l = s ++ [48] \/
    exists i x, l = s ++ i ++ x /\ (positive i \/ fraction i) /\ exponent x).

Inductive str_body : list Z -> Prop :=
| sb_nil : str_body []
| sb_plain l c : str_body l -> is_plain c = true -> str_body (l ++ [c])
| sb_escape l c : str_body l -> is_escape c = true -> str_body (l ++ [92; c])
| sb_unicode l h1 h2 h3 h4 : str_body l -> is_hex h1 = true -> is_hex h2 = true ->
    is_hex h3 = true -> is_hex h4 = true -> str_body (l ++ [92; 117; h1; h2; h3; h4]).

Definition json_string (l : list Z) : Prop := exists b, l = 34 :: b ++ [34] /\ str_body b.

Definition text_true : list Z := [116; 114; 117; 101].
Definition text_false : list Z := [102; 97; 108; 115; 101].
Definition text_null : list Z := [110; 117; 108; 108].

Inductive json_value : list Z -> Prop :=
| jv_literal l : l = text_true \/ l = text_false \/ l = text_null -> json_value l
| jv_number l : json_number l -> json_value l
| jv_string l : json_string l -> json_value l
| jv_array_empty w : ws w -> json_value (91 :: w ++ [93])
| jv_array b v w : arr_open b -> json_value v -> ws w -> json_value (b ++ v ++ w ++ [93])
| jv_object_empty w : ws w -> json_value (123 :: w ++ [125])
| jv_object b v w : obj_open b -> json_value v -> ws w -> json_value (b ++ v ++ w ++ [125])
(** [ '[' ] and values, each followed by a comma *)
with arr_open : list Z -> Prop :=
| ao_first w : ws w -> arr_open (91 :: w)
| ao_next b v w w' : arr_open b -> json_value v -> ws w -> ws w' ->
    arr_open (b ++ v ++ w ++ 44 :: w')
(** [ '{' ] and members, each followed by a comma *)
with obj_key : list Z -> Prop :=
| ok_first w : ws w -> obj_key (123 :: w)
| ok_next b v w w' : obj_open b -> json_value v -> ws w -> ws w' ->
    obj_key (b ++ v ++ w ++ 44 :: w')
(** ... and then a name and a colon *)
with obj_open : list Z -> Prop :=
| oo_name b k w w' : obj_key b -> json_string k -> ws w -> ws w' ->
    obj_open (b ++ k ++ w ++ 58 :: w').

Scheme json_value_mind := Induction for json_value Sort Prop
  with arr_open_mind := Induction for arr_open Sort Prop
  with obj_key_mind := Induction for obj_key Sort Prop
  with obj_open_mind := Induction for obj_open Sort Prop.
Combined Scheme json_mutind from json_value_mind, arr_open_mind, obj_key_mind, obj_open_mind.

Definition json_text (l : list Z) : Prop :=
  exists w v w', l = w ++ v ++ w' /\ ws w /\ json_value v /\ ws w'.

(** The byte structure of UTF-8: a byte below 128, or a first byte and as many bytes from
    128 to 191 as it asks for. Unlike RFC 3629 this admits overlong forms, surrogates
    and numbers above 10FFFF, as the code does. *)
Inductive utf8 : list Z -> Prop :=
| utf8_nil : utf8 []
| utf8_ascii b l : b < 128 -> utf8 l -> utf8 (b :: l)
| utf8_long b n bs l : 192 <= b < 248 ->
    n = (if b <? 224 then 1 else if b <? 240 then 2 else 3) ->
    Z.of_nat (length bs) = n -> Forall (fun c => 128 <= c < 192) bs -> utf8 l -> utf8 (b :: bs ++ l).
End Grammar.
Import Grammar.

(** ** The automaton *)

(** The entry of the transition table; -1 for a character without a class. *)
Definition tr (st c : Z) : Z :=
  let cls := if 128 <=? c then C_ETC else default (-1) (zlookup ascii_class c) in
  default (-1) (zlookup (default [] (zlookup state_transition_table st)) cls).

(** An action on the stack of modes, the top first. *)
Definition act (a : Z) (S : list Z) : option (Z * list Z) :=
  match S with
  | [] => None
  | m :: S' =>
      if (a =? -9) && (m =? MODE_KEY) then Some (OK, S')
      else if (a =? -8) && (m =? MODE_OBJECT) then Some (OK, S')
      else if (a =? -7) && (m =? MODE_ARRAY) then Some (OK, S')
      else if a =? -6 then Some (OB, MODE_KEY :: S)
      else if a =? -5 then Some (AR, MODE_ARRAY :: S)
      else if a =? -4 then Some (if m =? MODE_KEY then CO else OK, S)
      else if (a =? -3) && (m =? MODE_OBJECT) then Some (KE, MODE_KEY :: S')
      else if (a =? -3) && (m =? MODE_ARRAY) then Some (VA, S)
      else if (a =? -2) && (m =? MODE_KEY) then Some (VA, MODE_OBJECT :: S')
      else None
  end.

Definition pstep (c : Z) (cfg : Z * list Z) : option (Z * list Z) :=
  let a := tr cfg.1 c in if 0 <=? a then Some (a, cfg.2) else act a cfg.2.

Fixpoint prun (l : list Z) (cfg : Z * list Z) : option (Z * list Z) :=
  match l with
  | [] => Some cfg
  | c :: l' => pstep c cfg ≫= prun l'
  end.

(** A text is accepted if it, or it and a space, leads to the state [OK]. *)
Definition paccepts (cfg : Z * list Z) : bool :=
  match (if cfg.1 =? OK then Some cfg else pstep 32 cfg) with
  | Some (st, m :: _) => (st =? OK) && (m =? MODE_DONE)
  | _ => false
  end.

Lemma prun_app l1 l2 cfg : prun (l1 ++ l2) cfg = prun l1 cfg ≫= prun l2.
Proof.
  revert cfg. induction l1 as [|c l1 IH]; intros cfg; [done|]. simpl.
  destruct (pstep c cfg) as [cfg'|]; [apply IH|done].
Qed.

(** A fact about all the bytes, checked by evaluation. *)
Lemma bytes_all (P : Z -> bool) c :
  forallb (fun n => P (Z.of_nat n)) (seq 0 256) = true -> byte_ok c -> P c = true.
Proof.
  intros HP Hc. rewrite forallb_forall in HP. unfold byte_ok in Hc.
  rewrite <- (Z2Nat.id c) by lia. apply HP, in_seq. lia.
Qed.

Ltac by_bytes c :=
  let Hc := fresh in
  intros Hc; apply Z.eqb_eq;
  match goal with |- ?b = true =>
    match eval pattern c in b with ?g _ =>
      apply (bytes_all g c); [vm_compute; reflexivity|exact Hc] end end.

(** The rows of the table. *)
Definition row_ok (c : Z) : Z :=
  if is_ws c then OK else if c =? 125 then -8 else if c =? 93 then -7 else if c =? 44 then -3 else -1.
Definition row_value (st c : Z) : Z :=
  if is_ws c then st else if c =? 123 then -6 else if c =? 91 then -5 else if c =? 34 then ST
  else if c =? 45 then MI else if c =? 48 then ZE else if is_digit c then IN
  else if c =? 102 then F1 else if c =? 110 then N1 else if c =? 116 then T1 else -1.

Lemma tr_OK c : byte_ok c -> tr OK c = row_ok c.
Proof. by_bytes c. Qed.
Lemma tr_OB c : byte_ok c ->
  tr OB c = if is_ws c then OB else if c =? 125 then -9 else if c =? 34 then ST else -1.
Proof. by_bytes c. Qed.
Lemma tr_KE c : byte_ok c -> tr KE c = if is_ws c then KE else if c =? 34 then ST else -1.
Proof. by_bytes c. Qed.
Lemma tr_CO c : byte_ok c -> tr CO c = if is_ws c then CO else if c =? 58 then -2 else -1.
Proof. by_bytes c. Qed.
Lemma tr_VA c : byte_ok c -> tr VA c = row_value VA c.
Proof. by_bytes c. Qed.
Lemma tr_AR c : byte_ok c -> tr AR c = if c =? 93 then -7 else row_value AR c.
Proof. by_bytes c. Qed.
Lemma tr_ST c : 0 <= c ->
  tr ST c = if c =? 34 then -4 else if c =? 92 then ES else if is_plain c then ST else -1.
Proof.
  intros H0. destruct (Z.leb_spec 128 c) as [Hc|Hc].
  - unfold tr. rewrite (proj2 (Z.leb_le _ _) Hc). unfold is_plain.
    rewrite (proj2 (Z.eqb_neq c 34)), (proj2 (Z.eqb_neq c 92)), (proj2 (Z.leb_le 32 c)) by lia. done.
  - assert (byte_ok c) as Hb by (unfold byte_ok; lia). revert Hb. by_bytes c.
Qed.
Lemma tr_ES c : byte_ok c ->
  tr ES c = if is_escape c then ST else if c =? 117 then U1 else -1.
Proof. by_bytes c. Qed.
Lemma tr_U1 c : byte_ok c -> tr U1 c = if is_hex c then U2 else -1.
Proof. by_bytes c. Qed.
Lemma tr_U2 c : byte_ok c -> tr U2 c = if is_hex c then U3 else -1.
Proof. by_bytes c. Qed.
Lemma tr_U3 c : byte_ok c -> tr U3 c = if is_hex c then U4 else -1.
Proof. by_bytes c. Qed.
Lemma tr_U4 c : byte_ok c -> tr U4 c = if is_hex c then ST else -1.
Proof. by_bytes c. Qed.
Lemma tr_MI c : byte_ok c -> tr MI c = if c =? 48 then ZE else if is_digit c then IN else -1.
Proof. by_bytes c. Qed.
Lemma tr_ZE c : byte_ok c -> tr ZE c = if c =? 46 then FR else row_ok c.
Proof. by_bytes c. Qed.
Lemma tr_IN c : byte_ok c ->
  tr IN c = if c =? 46 then FR else if is_digit c then IN
            else if (c =? 101) || (c =? 69) then E1 else row_ok c.
Proof. by_bytes c. Qed.
Lemma tr_FR c : byte_ok c ->
  tr FR c = if is_digit c then FR else if (c =? 101) || (c =? 69) then E1 else row_ok c.
Proof. by_bytes c. Qed.
Lemma tr_E1 c : byte_ok c ->
  tr E1 c = if (c =? 43) || (c =? 45) then E2 else if is_digit c then E3 else -1.
Proof. by_bytes c. Qed.
Lemma tr_E2 c : byte_ok c -> tr E2 c = if is_digit c then E3 else -1.
Proof. by_bytes c. Qed.
Lemma tr_E3 c : byte_ok c -> tr E3 c = if is_digit c then E3 else row_ok c.
Proof. by_bytes c. Qed.
Lemma tr_T1 c : byte_ok c -> tr T1 c = if c =? 114 then T2 else -1.
Proof. by_bytes c. Qed.
Lemma tr_T2 c : byte_ok c -> tr T2 c = if c =? 117 then T3 else -1.
Proof. by_bytes c. Qed.
Lemma tr_T3 c : byte_ok c -> tr T3 c = if c =? 101 then OK else -1.
Proof. by_bytes c. Qed.
Lemma tr_F1 c : byte_ok c -> tr F1 c = if c =? 97 then F2 else -1.
Proof. by_bytes c. Qed.
Lemma tr_F2 c : byte_ok c -> tr F2 c = if c =? 108 then F3 else -1.
Proof. by_bytes c. Qed.
Lemma tr_F3 c : byte_ok c -> tr F3 c = if c =? 115 then F4 else -1.
Proof. by_bytes c. Qed.
Lemma tr_F4 c : byte_ok c -> tr F4 c = if c =? 101 then OK else -1.
Proof. by_bytes c. Qed.
Lemma tr_N1 c : byte_ok c -> tr N1 c = if c =? 117 then N2 else -1.
Proof. by_bytes c. Qed.
Lemma tr_N2 c : byte_ok c -> tr N2 c = if c =? 108 then N3 else -1.
Proof. by_bytes c. Qed.
Lemma tr_N3 c : byte_ok c -> tr N3 c = if c =? 108 then OK else -1.
Proof. by_bytes c. Qed.

(** ** Every text of the grammar is accepted *)

Lemma ws_byte c : is_ws c = true -> byte_ok c.
Proof. unfold is_ws, byte_ok. rewrite !orb_true_iff, !Z.eqb_eq. lia. Qed.

Lemma digit_byte c : is_digit c = true -> byte_ok c.
Proof. unfold is_digit, byte_ok. intros H. boolify. lia. Qed.

Lemma hex_byte c : is_hex c = true -> byte_ok c.
Proof.
  unfold is_hex, is_digit, byte_ok. rewrite !orb_true_iff, !andb_true_iff, !Z.leb_le. lia.
Qed.

Lemma escape_byte c : is_escape c = true -> byte_ok c.
Proof.
  unfold is_escape. intros H%bool_decide_eq_true. unfold byte_ok.
  repeat (apply elem_of_cons in H as [->|H]; [lia|]). by apply elem_of_nil in H.
Qed.

(** A transition to a state. *)
Lemma pstep_to c st S st' : tr st c = st' -> 0 <= st' -> pstep c (st, S) = Some (st', S).
Proof. intros Ht H0. unfold pstep. simpl. rewrite Ht. by rewrite (proj2 (Z.leb_le _ _) H0). Qed.

Lemma pstep_act c st S a : tr st c = a -> a < 0 -> pstep c (st, S) = act a S.
Proof. intros Ht H0. unfold pstep. simpl. rewrite Ht. by rewrite (proj2 (Z.leb_gt _ _) H0). Qed.

(** Characters that do not leave a state. *)
Lemma prun_stay (P : Z -> bool) st S l :
  (forall c, P c = true -> tr st c = st) -> 0 <= st -> Forall (fun c => P c = true) l ->
  prun l (st, S) = Some (st, S).
Proof.
  intros HP H0. induction 1 as [|c l Hc _ IH]; [done|]. simpl.
  by rewrite (pstep_to c st S st (HP c Hc) H0).
Qed.

Definition skips_ws (st : Z) : Prop := st ∈ [OK; OB; KE; CO; VA; AR].

Lemma tr_ws st c : skips_ws st -> is_ws c = true -> tr st c = st.
Proof.
  intros Hst Hc. pose proof (ws_byte _ Hc) as Hb. revert Hst. unfold skips_ws.
  assert (Hne : c <> 93) by (intros ->; discriminate).
  rewrite !elem_of_cons, elem_of_nil. intros [->|[->|[->|[->|[->|[->|[]]]]]]].
  - rewrite tr_OK by done. unfold row_ok. by rewrite Hc.
  - rewrite tr_OB by done. by rewrite Hc.
  - rewrite tr_KE by done. by rewrite Hc.
  - rewrite tr_CO by done. by rewrite Hc.
  - rewrite tr_VA by done. unfold row_value. by rewrite Hc.
  - rewrite tr_AR by done. rewrite (proj2 (Z.eqb_neq _ _) Hne). unfold row_value. by rewrite Hc.
Qed.

Lemma run_ws w st S : ws w -> skips_ws st -> prun w (st, S) = Some (st, S).
Proof.
  intros Hw Hst. apply (prun_stay is_ws); [|destruct_or?|done].
  - intros c. by apply tr_ws.
  - revert Hst. unfold skips_ws. rewrite !elem_of_cons, elem_of_nil.
    intros [->|[->|[->|[->|[->|[->|[]]]]]]]; done.
Qed.

Lemma digit_not c d : is_digit c = true -> (d < 48 \/ 57 < d) -> (c =? d) = false.
Proof. unfold is_digit. intros H Hd. boolify. apply Z.eqb_neq. lia. Qed.

Lemma run_digits st S l : st = IN \/ st = FR \/ st = E3 -> digits l -> prun l (st, S) = Some (st, S).
Proof.
  intros Hst Hl. apply (prun_stay is_digit); [|by destruct Hst as [->|[->| ->]]|done].
  intros c Hc. pose proof (digit_byte _ Hc) as Hb. destruct Hst as [->|[->| ->]].
  - rewrite tr_IN, Hc, (digit_not c 46) by (done || lia). done.
  - rewrite tr_FR, Hc by done. done.
  - rewrite tr_E3, Hc by done. done.
Qed.

Lemma run_str_body b S : str_body b -> prun b (ST, S) = Some (ST, S).
Proof.
  induction 1 as [|l c _ IH Hc|l c _ IH Hc|l h1 h2 h3 h4 _ IH H1 H2 H3 H4]; [done|..];
    rewrite prun_app, IH; cbn [mbind option_bind prun].
  - unfold is_plain in Hc. boolify. rewrite (pstep_to c ST S ST); [done| |done].
    rewrite tr_ST by lia. rewrite !(proj2 (Z.eqb_neq _ _)) by done.
    unfold is_plain. rewrite (proj2 (Z.leb_le 32 c)), !(proj2 (Z.eqb_neq _ _)) by done. done.
  - change (pstep 92 (ST, S)) with (Some (ES, S)). cbn [mbind option_bind prun].
    rewrite (pstep_to c ES S ST); [done| |done]. by rewrite tr_ES, Hc by by apply escape_byte.
  - change (pstep 92 (ST, S)) with (Some (ES, S)). cbn [mbind option_bind prun].
    change (pstep 117 (ES, S)) with (Some (U1, S)). cbn [mbind option_bind prun].
    rewrite (pstep_to h1 U1 S U2) by (try done; by rewrite tr_U1, H1 by by apply hex_byte).
    cbn [mbind option_bind prun].
    rewrite (pstep_to h2 U2 S U3) by (try done; by rewrite tr_U2, H2 by by apply hex_byte).
    cbn [mbind option_bind prun].
    rewrite (pstep_to h3 U3 S U4) by (try done; by rewrite tr_U3, H3 by by apply hex_byte).
    cbn [mbind option_bind prun].
    rewrite (pstep_to h4 U4 S ST) by (try done; by rewrite tr_U4, H4 by by apply hex_byte). done.
Qed.

(** A string, as a value or as a name. *)
Lemma run_string k st m S :
  json_string k -> tr st 34 = ST ->
  prun k (st, m :: S) = Some (if m =? MODE_KEY then CO else OK, m :: S).
Proof.
  intros (b & -> & Hb) Hst. cbn [prun]. rewrite (pstep_to 34 st _ ST) by done.
  cbn [mbind option_bind]. rewrite prun_app, run_str_body by done. cbn [mbind option_bind prun].
  rewrite (pstep_act 34 ST _ (-4)) by done. done.
Qed.

(** The states in which a value may be complete. *)
Definition value_end (st : Z) : Prop := st ∈ [OK; ZE; IN; FR; E3].

Definition value_start (st : Z) : Prop := st = VA \/ st = AR.

Lemma value_end_row st c :
  value_end st -> c ∈ [32; 9; 10; 13; 44; 93; 125] -> tr st c = row_ok c.
Proof.
  unfold value_end. rewrite !elem_of_cons, !elem_of_nil.
  intros [->|[->|[->|[->|[->|[]]]]]] [->|[->|[->|[->|[->|[->|[->|[]]]]]]]]; reflexivity.
Qed.

(** White space and a delimiter after a value. *)
Lemma run_delim w c st S :
  value_end st -> ws w -> c ∈ [44; 93; 125] ->
  prun (w ++ [c]) (st, S) = act (row_ok c) S.
Proof.
  intros Hst Hw Hc. assert (Hneg : row_ok c < 0).
  { rewrite !elem_of_cons, !elem_of_nil in Hc. by destruct Hc as [->|[->|[->|[]]]]. }
  assert (Hlast : forall st', value_end st' -> prun [c] (st', S) = act (row_ok c) S).
  { intros st' Hst'. cbn [prun]. rewrite (pstep_act c st' S (row_ok c)); [by destruct (act _ _)| |done].
    apply value_end_row; [done|]. set_solver. }
  destruct Hw as [|x w Hx Hw]; [by apply Hlast|].
  rewrite prun_app. assert (Hr : prun (x :: w) (st, S) = Some (OK, S)).
  { cbn [prun]. rewrite (pstep_to x st S OK); [|rewrite value_end_row|done].
    - cbn [mbind option_bind]. apply run_ws; [done|]. set_solver.
    - unfold row_ok. by rewrite Hx.
    - done.
    - unfold is_ws in Hx. rewrite !orb_true_iff, !Z.eqb_eq in Hx. set_solver. }
  rewrite Hr. cbn [mbind option_bind]. apply Hlast. set_solver.
Qed.

Lemma start_tr st c : value_start st -> byte_ok c -> c <> 93 -> tr st c = row_value st c.
Proof.
  intros [->| ->] Hc Hn; [by rewrite tr_VA|]. rewrite tr_AR by done.
  by rewrite (proj2 (Z.eqb_neq _ _) Hn).
Qed.

(** A number from its first digit on. *)
Lemma run_positive st S i :
  (forall d, 49 <= d <= 57 -> tr st d = IN) -> positive i -> prun i (st, S) = Some (IN, S).
Proof.
  intros Hst (d & ds & -> & Hd & Hds). cbn [prun]. rewrite (pstep_to d st S IN) by (try done; auto).
  cbn [mbind option_bind]. by apply run_digits; [left|].
Qed.

Lemma run_fraction st S i :
  tr st 48 = ZE -> (forall d, 49 <= d <= 57 -> tr st d = IN) -> fraction i ->
  prun i (st, S) = Some (FR, S).
Proof.
  intros Hz Hst (i0 & ds & -> & Hi & Hds). rewrite prun_app.
  assert (Hi' : exists st', (st' = ZE \/ st' = IN) /\ prun i0 (st, S) = Some (st', S)).
  { destruct Hi as [->|Hi]; [exists ZE|exists IN]; (split; [auto|]).
    - cbn [prun]. by rewrite (pstep_to 48 st S ZE).
    - by apply run_positive. }
  destruct Hi' as (st' & Hst' & ->). cbn [mbind option_bind prun].
  rewrite (pstep_to 46 st' S FR) by (try done; by destruct Hst' as [->| ->]).
  cbn [mbind option_bind]. apply run_digits; auto.
Qed.

Lemma run_exponent st S x :
  st = IN \/ st = FR -> exponent x -> exists st', prun x (st, S) = Some (st', S) /\ value_end st'.
Proof.
  intros Hst [->|(e & s & ds & -> & He & Hs & Hne & Hds)].
  { exists st. split; [done|]. unfold value_end. destruct Hst as [->| ->]; by repeat constructor. }
  exists E3. split; [|by repeat constructor]. cbn [prun].
  rewrite (pstep_to e st S E1) by (try done; by destruct Hst as [->| ->], He as [->| ->]).
  cbn [mbind option_bind]. rewrite prun_app. destruct ds as [|d ds]; [done|].
  apply Forall_cons in Hds as [Hd Hds]. pose proof (digit_byte _ Hd) as Hb.
  assert (Hs' : exists st', (st' = E1 \/ st' = E2) /\ prun s (E1, S) = Some (st', S)).
  { destruct Hs as [->|[->| ->]]; [exists E1|exists E2|exists E2]; auto. }
  destruct Hs' as (st' & Hst' & ->). cbn [mbind option_bind prun].
  rewrite (pstep_to d st' S E3); [|destruct Hst' as [->| ->]|done].
  - cbn [mbind option_bind]. apply run_digits; auto.
  - rewrite tr_E1, (digit_not d 43), (digit_not d 45), Hd by (done || lia). done.
  - by rewrite tr_E2, Hd by done.
Qed.

Lemma run_number st S l :
  value_start st -> json_number l -> exists st', prun l (st, S) = Some (st', S) /\ value_end st'.
Proof.
  intros Hst (s & Hs & Hl).
  assert (Hdig : forall d, 49 <= d <= 57 -> is_digit d = true).
  { intros d Hd. unfold is_digit. by rewrite !(proj2 (Z.leb_le _ _)) by lia. }
  assert (Hs' : exists st', prun s (st, S) = Some (st', S) /\ tr st' 48 = ZE /\
    forall d, 49 <= d <= 57 -> tr st' d = IN).
  { destruct Hs as [->| ->]; [exists st|exists MI].
    - split; [done|]. split; [by destruct Hst as [->| ->]|]. intros d Hd.
      rewrite start_tr by (try done; unfold byte_ok; lia). unfold row_value, is_ws.
      rewrite !(proj2 (Z.eqb_neq d _)), (Hdig d Hd) by lia. done.
    - split; [cbn [prun]; by rewrite (pstep_to 45 st S MI) by (by destruct Hst as [->| ->])|].
      split; [done|]. intros d Hd. rewrite tr_MI by (unfold byte_ok; lia).
      rewrite (proj2 (Z.eqb_neq d _)), (Hdig d Hd) by lia. done. }
  destruct Hs' as (st' & Hrun & Hz & Hd). destruct Hl as [->|(i & x & -> & Hi & Hx)].
  - exists ZE. rewrite prun_app, Hrun. split; [|by repeat constructor]. cbn [mbind option_bind prun].
    by rewrite (pstep_to 48 st' S ZE).
  - rewrite !prun_app, Hrun. cbn [mbind option_bind]. rewrite prun_app. destruct Hi as [Hi|Hi].
    + rewrite (run_positive st' S i Hd Hi). cbn [mbind option_bind]. apply run_exponent; auto.
    + rewrite (run_fraction st' S i Hz Hd Hi). cbn [mbind option_bind]. apply run_exponent; auto.
Qed.

(** The modes in which a value may stand. *)
Definition value_mode (m : Z) : Prop := m = MODE_ARRAY \/ m = MODE_OBJECT \/ m = MODE_DONE.

Definition opens (l : list Z) (ends : list Z) (mode : Z) : Prop := forall st m S,
  value_start st -> value_mode m ->
  exists st', prun l (st, m :: S) = Some (st', mode :: m :: S) /\ st' ∈ ends.

(** A value and a delimiter after what opens an array or an object. *)
Lemma run_closed b v w c ends mode st m S :
  opens b ends mode -> (forall st', st' ∈ ends -> value_start st') -> value_mode mode ->
  (forall st' m S, value_start st' -> value_mode m ->
     exists st'', prun v (st', m :: S) = Some (st'', m :: S) /\ value_end st'') ->
  ws w -> c ∈ [44; 93; 125] -> value_start st -> value_mode m ->
  prun (b ++ v ++ w ++ [c]) (st, m :: S) = act (row_ok c) (mode :: m :: S).
Proof.
  intros Hb Hends Hmode Hv Hw Hc Hst Hm. rewrite prun_app.
  destruct (Hb st m S Hst Hm) as (st1 & -> & H1). cbn [mbind option_bind]. rewrite prun_app.
  destruct (Hv st1 mode (m :: S) (Hends st1 H1) Hmode) as (st2 & -> & H2). cbn [mbind option_bind].
  by apply run_delim.
Qed.

Lemma json_runs :
  (forall v, json_value v -> forall st m S, value_start st -> value_mode m ->
     exists st', prun v (st, m :: S) = Some (st', m :: S) /\ value_end st') /\
  (forall b, arr_open b -> opens b [VA; AR] MODE_ARRAY) /\
  (forall b, obj_key b -> opens b [OB; KE] MODE_KEY) /\
  (forall b, obj_open b -> opens b [VA] MODE_OBJECT).
Proof.
  assert (Hend : value_end OK) by by repeat constructor.
  assert (Hva : forall st', st' ∈ [VA; AR] -> value_start st')
    by (intros st'; rewrite !elem_of_cons, elem_of_nil; intros [->|[->|[]]]; by constructor).
  assert (Hva1 : forall st', st' ∈ [VA] -> value_start st')
    by (intros st' ->%list_elem_of_singleton; by left).
  apply json_mutind.
  - intros l Hl st m S Hst Hm. exists OK. split; [|done].
    destruct Hl as [->|[->| ->]], Hst as [->| ->]; reflexivity.
  - intros l Hl st m S Hst Hm. by apply run_number.
  - intros l Hl st m S Hst Hm. exists OK. split; [|done].
    rewrite (run_string l st m S Hl); [|by destruct Hst as [->| ->]].
    by destruct Hm as [->|[->| ->]].
  - intros w Hw st m S Hst Hm. exists OK. split; [|done]. cbn [prun].
    rewrite (pstep_act 91 st _ (-5)) by (by destruct Hst as [->| ->]).
    change (act (-5) (m :: S)) with (Some (AR, MODE_ARRAY :: m :: S)).
    cbn [mbind option_bind]. rewrite prun_app, run_ws by (done || by repeat constructor). done.
  - intros b v w _ Hb _ Hv Hw st m S Hst Hm. exists OK. split; [|done].
    rewrite (run_closed b v w 93 [VA; AR] MODE_ARRAY) by (done || by repeat constructor). done.
  - intros w Hw st m S Hst Hm. exists OK. split; [|done]. cbn [prun].
    rewrite (pstep_act 123 st _ (-6)) by (by destruct Hst as [->| ->]).
    change (act (-6) (m :: S)) with (Some (OB, MODE_KEY :: m :: S)).
    cbn [mbind option_bind]. rewrite prun_app, run_ws by (done || by repeat constructor). done.
  - intros b v w _ Hb _ Hv Hw st m S Hst Hm. exists OK. split; [|done].
    rewrite (run_closed b v w 125 [VA] MODE_OBJECT) by (done || (right; by left) || by repeat constructor). done.
  - intros w Hw st m S Hst Hm. exists AR. split; [|by repeat constructor]. cbn [prun].
    rewrite (pstep_act 91 st _ (-5)) by (by destruct Hst as [->| ->]).
    change (act (-5) (m :: S)) with (Some (AR, MODE_ARRAY :: m :: S)).
    cbn [mbind option_bind]. rewrite run_ws by (done || by repeat constructor). done.
  - intros b v w w' _ Hb _ Hv Hw Hw' st m S Hst Hm. exists VA. split; [|by repeat constructor].
    replace (b ++ v ++ w ++ 44 :: w') with ((b ++ v ++ w ++ [44]) ++ w') by (by rewrite <- !app_assoc).
    rewrite prun_app, (run_closed b v w 44 [VA; AR] MODE_ARRAY) by (done || by repeat constructor).
    change (act (row_ok 44) (MODE_ARRAY :: m :: S)) with (Some (VA, MODE_ARRAY :: m :: S)).
    cbn [mbind option_bind]. apply run_ws; [done|by repeat constructor].
  - intros w Hw st m S Hst Hm. exists OB. split; [|by repeat constructor]. cbn [prun].
    rewrite (pstep_act 123 st _ (-6)) by (by destruct Hst as [->| ->]).
    change (act (-6) (m :: S)) with (Some (OB, MODE_KEY :: m :: S)).
    cbn [mbind option_bind]. rewrite run_ws by (done || by repeat constructor). done.
  - intros b v w w' _ Hb _ Hv Hw Hw' st m S Hst Hm. exists KE. split; [|by repeat constructor].
    replace (b ++ v ++ w ++ 44 :: w') with ((b ++ v ++ w ++ [44]) ++ w') by (by rewrite <- !app_assoc).
    rewrite prun_app, (run_closed b v w 44 [VA] MODE_OBJECT) by (done || (right; by left) || by repeat constructor).
    change (act (row_ok 44) (MODE_OBJECT :: m :: S)) with (Some (KE, MODE_KEY :: m :: S)).
    cbn [mbind option_bind]. apply run_ws; [done|by repeat constructor].
  - intros b k w w' _ Hb Hk Hw Hw' st m S Hst Hm. exists VA. split; [|by repeat constructor].
    rewrite prun_app. destruct (Hb st m S Hst Hm) as (st1 & -> & H1). cbn [mbind option_bind].
    rewrite prun_app, (run_string k st1 MODE_KEY (m :: S) Hk).
    2:{ rewrite !elem_of_cons, elem_of_nil in H1. by destruct H1 as [->|[->|[]]]. }
    change (if MODE_KEY =? MODE_KEY then CO else OK) with CO. cbn [mbind option_bind].
    rewrite prun_app, run_ws by (done || by repeat constructor). cbn [mbind option_bind prun].
    rewrite (pstep_act 58 CO _ (-2)) by done.
    change (act (-2) (MODE_KEY :: m :: S)) with (Some (VA, MODE_OBJECT :: m :: S)).
    cbn [mbind option_bind]. apply run_ws; [done|by repeat constructor].
Qed.

Lemma json_accepted l :
  json_text l -> exists cfg, prun l (VA, [MODE_DONE]) = Some cfg /\ paccepts cfg = true.
Proof.
  intros (w & v & w' & -> & Hw & Hv & Hw'). destruct json_runs as [Hrun _].
  rewrite prun_app, run_ws by (done || by repeat constructor). cbn [mbind option_bind].
  destruct (Hrun v Hv VA MODE_DONE [] ltac:(by left) ltac:(by right; right)) as (st & Hst & He).
  rewrite prun_app, Hst. cbn [mbind option_bind].
  destruct Hw' as [|x w' Hx Hw'].
  - exists (st, [MODE_DONE]). split; [done|]. unfold value_end in He.
    rewrite !elem_of_cons, elem_of_nil in He. by destruct He as [->|[->|[->|[->|[->|[]]]]]].
  - exists (OK, [MODE_DONE]). split; [|done]. cbn [prun]. rewrite (pstep_to x st _ OK); [| |done].
    + cbn [mbind option_bind]. apply run_ws; [done|by repeat constructor].
    + rewrite value_end_row; [|done|].
      * unfold row_ok. by rewrite Hx.
      * unfold is_ws in Hx. rewrite !orb_true_iff, !Z.eqb_eq in Hx.
        destruct Hx as [[[->| ->]| ->]| ->]; by repeat constructor.
Qed.

(** ** Every text that is accepted is a text of the grammar *)

(** After the text [l] a value is expected, inside what the modes [S] say. *)
Fixpoint before (S l : list Z) : Prop :=
  match S with
  | [] => False
  | m :: S' =>
      if m =? MODE_DONE then S' = [] /\ ws l
      else exists l0 b, l = l0 ++ b /\ before S' l0 /\
        (if m =? MODE_ARRAY then arr_open b else if m =? MODE_OBJECT then obj_open b else False)
  end.

(** Inside a string, a number or a literal. *)
Inductive str_at : Z -> list Z -> Prop :=
| sa_ST p : str_body p -> str_at ST p
| sa_ES p : str_body p -> str_at ES (p ++ [92])
| sa_U1 p : str_body p -> str_at U1 (p ++ [92; 117])
| sa_U2 p h1 : str_body p -> is_hex h1 = true -> str_at U2 (p ++ [92; 117; h1])
| sa_U3 p h1 h2 : str_body p -> is_hex h1 = true -> is_hex h2 = true -> str_at U3 (p ++ [92; 117; h1; h2])
| sa_U4 p h1 h2 h3 : str_body p -> is_hex h1 = true -> is_hex h2 = true -> is_hex h3 = true ->
    str_at U4 (p ++ [92; 117; h1; h2; h3]).

Inductive num_at : Z -> list Z -> Prop :=
| na_MI : num_at MI [45]
| na_ZE s : sgn s -> num_at ZE (s ++ [48])
| na_IN s i : sgn s -> positive i -> num_at IN (s ++ i)
| na_FR s i : sgn s -> fraction i -> num_at FR (s ++ i)
| na_E1 s i e : sgn s -> positive i \/ fraction i -> e = 101 \/ e = 69 -> num_at E1 (s ++ i ++ [e])
| na_E2 s i e x : sgn s -> positive i \/ fraction i -> e = 101 \/ e = 69 -> x = 43 \/ x = 45 ->
    num_at E2 (s ++ i ++ [e; x])
| na_E3 s i x : sgn s -> positive i \/ fraction i -> exponent x -> x <> [] -> num_at E3 (s ++ i ++ x).

Inductive lit_at : Z -> list Z -> Prop :=
| la_T1 : lit_at T1 [116] | la_T2 : lit_at T2 [116; 114] | la_T3 : lit_at T3 [116; 114; 117]
| la_F1 : lit_at F1 [102] | la_F2 : lit_at F2 [102; 97] | la_F3 : lit_at F3 [102; 97; 108]
| la_F4 : lit_at F4 [102; 97; 108; 115]
| la_N1 : lit_at N1 [110] | la_N2 : lit_at N2 [110; 117] | la_N3 : lit_at N3 [110; 117; 108].

(** A string may follow: as a value, or as a name. *)
Definition str_place (S l : list Z) : Prop :=
  before S l \/ exists l0 b S0, S = MODE_KEY :: S0 /\ l = l0 ++ b /\ before S0 l0 /\ obj_key b.

(** What the text before a configuration looks like. *)
Inductive reach : Z -> list Z -> list Z -> Prop :=
| r_value l S : before S l -> reach VA S l
| r_array l w S : before S l -> ws w -> reach AR (MODE_ARRAY :: S) (l ++ 91 :: w)
| r_object l w S : before S l -> ws w -> reach OB (MODE_KEY :: S) (l ++ 123 :: w)
| r_key l b S : before S l -> obj_key b -> reach KE (MODE_KEY :: S) (l ++ b)
| r_colon l b k w S : before S l -> obj_key b -> json_string k -> ws w ->
    reach CO (MODE_KEY :: S) (l ++ b ++ k ++ w)
| r_ok l v w S : before S l -> json_value v -> ws w -> reach OK S (l ++ v ++ w)
| r_string l p S st : str_place S l -> str_at st p -> reach st S (l ++ 34 :: p)
| r_number l n S st : before S l -> num_at st n -> reach st S (l ++ n)
| r_literal l n S st : before S l -> lit_at st n -> reach st S (l ++ n).

Lemma ws_snoc w c : ws w -> is_ws c = true -> ws (w ++ [c]).
Proof. intros Hw Hc. apply Forall_app. split; [done|]. by repeat constructor. Qed.

Lemma arr_open_ws b c : arr_open b -> is_ws c = true -> arr_open (b ++ [c]).
Proof.
  intros Hb Hc. destruct Hb as [w Hw|b v w w' Hb Hv Hw Hw'].
  - apply (ao_first (w ++ [c])). by apply ws_snoc.
  - rewrite <- !app_assoc. apply (ao_next b v w (w' ++ [c])); try done. by apply ws_snoc.
Qed.

Lemma obj_open_ws b c : obj_open b -> is_ws c = true -> obj_open (b ++ [c]).
Proof.
  intros Hb Hc. destruct Hb as [b k w w' Hb Hk Hw Hw'].
  rewrite <- !app_assoc. apply (oo_name b k w (w' ++ [c])); try done. by apply ws_snoc.
Qed.

Lemma obj_key_ws b c : obj_key b -> is_ws c = true -> obj_key (b ++ [c]).
Proof.
  intros Hb Hc. destruct Hb as [w Hw|b v w w' Hb Hv Hw Hw'].
  - apply (ok_first (w ++ [c])). by apply ws_snoc.
  - rewrite <- !app_assoc. apply (ok_next b v w (w' ++ [c])); try done. by apply ws_snoc.
Qed.

Lemma before_ws S l c : before S l -> is_ws c = true -> before S (l ++ [c]).
Proof.
  destruct S as [|m S]; [done|]. simpl. intros Hb Hc. destruct (m =? MODE_DONE).
  - destruct Hb as [-> Hl]. split; [done|]. by apply ws_snoc.
  - destruct Hb as (l0 & b & -> & Hl0 & Hb). exists l0, (b ++ [c]). rewrite <- app_assoc.
    split; [done|]. split; [done|]. destruct (m =? MODE_ARRAY); [by apply arr_open_ws|].
    destruct (m =? MODE_OBJECT); [by apply obj_open_ws|done].
Qed.

Lemma before_array S l b : before S l -> arr_open b -> before (MODE_ARRAY :: S) (l ++ b).
Proof. intros Hl Hb. exists l, b. auto. Qed.

Lemma before_object S l b : before S l -> obj_open b -> before (MODE_OBJECT :: S) (l ++ b).
Proof. intros Hl Hb. exists l, b. auto. Qed.

(** A value begins. *)
Lemma start_step st S l c st' S' :
  before S l -> value_start st -> byte_ok c -> c <> 93 -> is_ws c = false ->
  pstep c (st, S) = Some (st', S') -> reach st' S' (l ++ [c]).
Proof.
  intros Hl Hst Hc Hn Hws. unfold pstep. cbn [fst snd]. rewrite start_tr by done. unfold row_value.
  rewrite Hws. destruct S as [|m S]; [done|].
  destruct (Z.eqb_spec c 123) as [->|_].
  { intros [= <- <-]. apply (r_object l []); [done|by constructor]. }
  destruct (Z.eqb_spec c 91) as [->|_].
  { intros [= <- <-]. apply (r_array l []); [done|by constructor]. }
  destruct (Z.eqb_spec c 34) as [->|_].
  { intros [= <- <-]. apply (r_string l []); [by left|]. constructor. constructor. }
  destruct (Z.eqb_spec c 45) as [->|_].
  { intros [= <- <-]. apply r_number; [done|constructor]. }
  destruct (Z.eqb_spec c 48) as [->|H48].
  { intros [= <- <-]. apply r_number; [done|]. apply (na_ZE []). by left. }
  destruct (is_digit c) eqn:Hd.
  { intros [= <- <-]. apply r_number; [done|]. apply (na_IN []); [by left|].
    exists c, []. unfold is_digit in Hd. boolify. split; [done|]. split; [lia|by constructor]. }
  destruct (Z.eqb_spec c 102) as [->|_].
  { intros [= <- <-]. apply r_literal; [done|constructor]. }
  destruct (Z.eqb_spec c 110) as [->|_].
  { intros [= <- <-]. apply r_literal; [done|constructor]. }
  destruct (Z.eqb_spec c 116) as [->|_].
  { intros [= <- <-]. apply r_literal; [done|constructor]. }
  done.
Qed.

(** A character after a complete value. *)
Lemma end_step S l v w c a st' S' :
  before S l -> json_value v -> ws w -> row_ok c = a ->
  (if 0 <=? a then Some (a, S) else act a S) = Some (st', S') -> reach st' S' (l ++ (v ++ w) ++ [c]).
Proof.
  intros Hl Hv Hw <-. unfold row_ok. destruct (is_ws c) eqn:Hc.
  { intros [= <- <-]. rewrite <- app_assoc. apply r_ok; [done|done|by apply ws_snoc]. }
  destruct S as [|m S]; [done|]. simpl in Hl.
  destruct (Z.eqb_spec c 125) as [->|_].
  { simpl. destruct (Z.eqb_spec m MODE_OBJECT) as [->|_]; [|done].
    intros [= <- <-]. destruct Hl as (l0 & b & -> & Hl0 & Hb).
    rewrite <- (app_nil_r [125]), <- !app_assoc.
    rewrite (app_assoc w), (app_assoc v), (app_assoc b). apply (r_ok l0 _ []); [done| |by constructor].
    by apply jv_object. }
  destruct (Z.eqb_spec c 93) as [->|_].
  { simpl. destruct (Z.eqb_spec m MODE_ARRAY) as [->|_]; [|done].
    intros [= <- <-]. destruct Hl as (l0 & b & -> & Hl0 & Hb).
    rewrite <- (app_nil_r [93]), <- !app_assoc.
    rewrite (app_assoc w), (app_assoc v), (app_assoc b). apply (r_ok l0 _ []); [done| |by constructor].
    by apply jv_array. }
  destruct (Z.eqb_spec c 44) as [->|_]; [|done].
  simpl. destruct (Z.eqb_spec m MODE_OBJECT) as [->|_].
  { intros [= <- <-]. destruct Hl as (l0 & b & -> & Hl0 & Hb). rewrite <- !app_assoc.
    apply r_key; [done|]. apply ok_next; [done|done|done|by constructor]. }
  destruct (Z.eqb_spec m MODE_ARRAY) as [->|_]; [|done].
  intros [= <- <-]. destruct Hl as (l0 & b & -> & Hl0 & Hb). rewrite <- !app_assoc.
  apply r_value, before_array; [done|]. apply ao_next; [done|done|done|by constructor].
Qed.

(** Inside a string. *)
Lemma string_step st S l p c st' S' :
  str_place S l -> str_at st p -> byte_ok c -> pstep c (st, S) = Some (st', S') ->
  reach st' S' (l ++ (34 :: p) ++ [c]).
Proof.
  intros Hl Hp Hc. unfold pstep. cbn [fst snd].
  assert (Hstay : forall st1 p', str_at st1 p' -> S' = S -> p' = p ++ [c] ->
    reach st1 S' (l ++ (34 :: p) ++ [c])).
  { intros st1 p' Hp' -> ->. by apply (r_string l (p ++ [c])). }
  destruct Hp as [p Hp|p Hp|p Hp|p h1 Hp H1|p h1 h2 Hp H1 H2|p h1 h2 h3 Hp H1 H2 H3].
  - rewrite tr_ST by (unfold byte_ok in Hc; lia). destruct (Z.eqb_spec c 34) as [->|_].
    + destruct S as [|m S]; [done|]. simpl. intros [= <- <-].
      assert (Hk : json_string (34 :: p ++ [34])) by (by exists p).
      destruct Hl as [Hl|(l0 & b & S0 & [= -> ->] & -> & Hl0 & Hb)].
      * destruct (Z.eqb_spec m MODE_KEY) as [->|_].
        { simpl in Hl. by destruct Hl as (? & ? & _ & _ & []). }
        rewrite <- (app_nil_r (34 :: p ++ [34])). apply r_ok; [done|by apply jv_string|by constructor].
      * change (MODE_KEY =? MODE_KEY) with true. cbn match.
        rewrite <- app_assoc, <- (app_nil_r (34 :: p ++ [34])).
        apply r_colon; [done|done|done|by constructor].
    + destruct (Z.eqb_spec c 92) as [->|_].
      * intros [= <- <-]. by eapply Hstay; [apply sa_ES|..].
      * destruct (is_plain c) eqn:Hpl; [|by destruct S].
        intros [= <- <-]. by eapply Hstay; [apply sa_ST, sb_plain|..].
  - rewrite tr_ES by done. destruct (is_escape c) eqn:He.
    + intros [= <- <-]. eapply Hstay; [apply sa_ST; by apply (sb_escape p c)|done|by rewrite <- app_assoc].
    + destruct (Z.eqb_spec c 117) as [->|_]; [|by destruct S].
      intros [= <- <-]. eapply Hstay; [by apply (sa_U1 p)|done|by rewrite <- app_assoc].
  - rewrite tr_U1 by done. destruct (is_hex c) eqn:He; [|by destruct S].
    intros [= <- <-]. eapply Hstay; [by apply (sa_U2 p c)|done|by rewrite <- app_assoc].
  - rewrite tr_U2 by done. destruct (is_hex c) eqn:He; [|by destruct S].
    intros [= <- <-]. eapply Hstay; [by apply (sa_U3 p h1 c)|done|by rewrite <- app_assoc].
  - rewrite tr_U3 by done. destruct (is_hex c) eqn:He; [|by destruct S].
    intros [= <- <-]. eapply Hstay; [by apply (sa_U4 p h1 h2 c)|done|by rewrite <- app_assoc].
  - rewrite tr_U4 by done. destruct (is_hex c) eqn:He; [|by destruct S].
    intros [= <- <-]. eapply Hstay; [apply sa_ST; by apply (sb_unicode p h1 h2 h3 c)|done|by rewrite <- app_assoc].
Qed.

(** Inside a literal. *)
Lemma literal_step st S l n c st' S' :
  before S l -> lit_at st n -> byte_ok c -> pstep c (st, S) = Some (st', S') ->
  reach st' S' (l ++ n ++ [c]).
Proof.
  intros Hl Hn Hc. unfold pstep. cbn [fst snd].
  assert (Hok : json_value (n ++ [c]) -> Some (OK, S) = Some (st', S') -> reach st' S' (l ++ n ++ [c])).
  { intros Hv [= <- <-]. rewrite <- (app_nil_r (n ++ [c])). apply r_ok; [done|done|by constructor]. }
  destruct Hn;
    first [rewrite tr_T1 by done|rewrite tr_T2 by done|rewrite tr_T3 by done|rewrite tr_F1 by done
          |rewrite tr_F2 by done|rewrite tr_F3 by done|rewrite tr_F4 by done|rewrite tr_N1 by done
          |rewrite tr_N2 by done|rewrite tr_N3 by done];
    match goal with |- context [?x =? ?y] => destruct (Z.eqb_spec x y) as [->|_] end;
    try (by destruct S);
    first [apply Hok; apply jv_literal; unfold text_true, text_false, text_null; by auto
          |intros [= <- <-]; apply r_literal; [done|constructor]].
Qed.

Lemma digits_snoc ds c : digits ds -> is_digit c = true -> digits (ds ++ [c]).
Proof. intros Hd Hc. apply Forall_app. split; [done|]. by repeat constructor. Qed.

Lemma positive_snoc i c : positive i -> is_digit c = true -> positive (i ++ [c]).
Proof.
  intros (d & ds & -> & Hd & Hds) Hc. exists d, (ds ++ [c]). split; [done|]. split; [done|].
  by apply digits_snoc.
Qed.

Lemma fraction_snoc i c : fraction i -> is_digit c = true -> fraction (i ++ [c]).
Proof.
  intros (i0 & ds & -> & Hi & Hds) Hc. exists i0, (ds ++ [c]). rewrite <- app_assoc. split; [done|].
  split; [done|]. by apply digits_snoc.
Qed.

(** A number that is complete. *)
Lemma num_at_number st n : num_at st n -> value_end st -> json_number n.
Proof.
  intros Hn He. unfold value_end in He. rewrite !elem_of_cons, elem_of_nil in He.
  destruct Hn as [|s Hs|s i Hs Hi|s i Hs Hi|s i e Hs _ _|s i e x Hs _ _ _|s i x Hs Hi Hx _];
    try (by destruct He as [?|[?|[?|[?|[?|[]]]]]]); exists s; (split; [done|]).
  - by left.
  - right. exists i, []. rewrite app_nil_r. split; [done|]. split; [by left|by left].
  - right. exists i, []. rewrite app_nil_r. split; [done|]. split; [by right|by left].
  - right. by exists i, x.
Qed.

(** Inside a number; what ends it is handled as after any value. *)
Lemma number_step st S l n c st' S' :
  before S l -> num_at st n -> byte_ok c -> pstep c (st, S) = Some (st', S') ->
  reach st' S' (l ++ n ++ [c]).
Proof.
  intros Hl Hn Hc. unfold pstep. cbn [fst snd].
  assert (Hend : value_end st -> (if 0 <=? row_ok c then Some (row_ok c, S) else act (row_ok c) S)
    = Some (st', S') -> reach st' S' (l ++ n ++ [c])).
  { intros He Hs. pose proof (end_step S l n [] c (row_ok c) st' S' Hl) as Hstep. rewrite app_nil_r in Hstep.
    eapply Hstep; [|by constructor|done|exact Hs]. by eapply jv_number, num_at_number. }
  assert (Hgo : forall st1, num_at st1 (n ++ [c]) -> Some (st1, S) = Some (st', S') ->
    reach st' S' (l ++ n ++ [c])).
  { intros st1 Hn1 [= <- <-]. by apply r_number. }
  destruct Hn as [|s Hs|s i Hs Hi|s i Hs Hi|s i e Hs Hi He|s i e x Hs Hi He Hx|s i x Hs Hi Hx Hne].
  - rewrite tr_MI by done. destruct (Z.eqb_spec c 48) as [->|H48].
    { apply Hgo. apply (na_ZE [45]). by right. }
    destruct (is_digit c) eqn:Hd; [|by destruct S]. apply Hgo, (na_IN [45]); [by right|].
    exists c, []. unfold is_digit in Hd. boolify. split; [done|]. split; [lia|by constructor].
  - rewrite tr_ZE by done. destruct (Z.eqb_spec c 46) as [->|_]; [|apply Hend; by repeat constructor].
    rewrite <- app_assoc. rewrite <- app_assoc in Hgo. apply Hgo, na_FR; [done|].
    exists [48], []. split; [done|]. split; [by left|by constructor].
  - rewrite tr_IN by done. rewrite <- app_assoc in Hgo, Hend |- *.
    destruct (Z.eqb_spec c 46) as [->|_].
    { apply Hgo, na_FR; [done|]. exists i, []. split; [done|]. split; [by right|by constructor]. }
    destruct (is_digit c) eqn:Hd; [by apply Hgo, na_IN; [|apply positive_snoc]|].
    destruct ((c =? 101) || (c =? 69)) eqn:He.
    { apply orb_true_iff in He. rewrite !Z.eqb_eq in He. apply Hgo, na_E1; auto. }
    apply Hend. by repeat constructor.
  - rewrite tr_FR by done. rewrite <- app_assoc in Hgo, Hend |- *.
    destruct (is_digit c) eqn:Hd; [by apply Hgo, na_FR; [|apply fraction_snoc]|].
    destruct ((c =? 101) || (c =? 69)) eqn:He.
    { apply orb_true_iff in He. rewrite !Z.eqb_eq in He. apply Hgo, na_E1; auto. }
    apply Hend. by repeat constructor.
  - rewrite tr_E1 by done. rewrite <- !app_assoc in Hgo |- *. destruct ((c =? 43) || (c =? 45)) eqn:Hx.
    { apply orb_true_iff in Hx. rewrite !Z.eqb_eq in Hx. by apply Hgo, na_E2. }
    destruct (is_digit c) eqn:Hd; [|by destruct S]. apply Hgo, na_E3; [done|done| |done].
    right. exists e, [], [c]. split; [done|]. split; [done|]. split; [by left|]. split; [done|].
    by repeat constructor.
  - rewrite tr_E2 by done. rewrite <- !app_assoc in Hgo |- *. destruct (is_digit c) eqn:Hd; [|by destruct S].
    apply Hgo, na_E3; [done|done| |done]. right. exists e, [x], [c]. split; [done|]. split; [done|].
    split; [destruct Hx as [->| ->]; auto|]. split; [done|]. by repeat constructor.
  - rewrite tr_E3 by done. destruct (is_digit c) eqn:Hd; [|apply Hend; by repeat constructor].
    rewrite <- !app_assoc in Hgo |- *. apply Hgo, na_E3; [done|done| |by destruct x].
    destruct Hx as [->|(e & sg & ds & -> & He & Hsg & Hds & Hd')]; [done|].
    right. exists e, sg, (ds ++ [c]). simpl. rewrite <- app_assoc. split; [done|]. split; [done|].
    split; [done|]. split; [by destruct ds|]. by apply digits_snoc.
Qed.

Lemma reach_step st S l c st' S' :
  reach st S l -> byte_ok c -> pstep c (st, S) = Some (st', S') -> reach st' S' (l ++ [c]).
Proof.
  intros Hr Hc Hp. destruct Hr as [l S Hl|l w S Hl Hw|l w S Hl Hw|l b S Hl Hb|l b k w S Hl Hb Hk Hw
    |l v w S Hl Hv Hw|l p S st Hl Hs|l n S st Hl Hn|l n S st Hl Hn].
  - destruct (is_ws c) eqn:Hws.
    + unfold pstep in Hp. cbn [fst snd] in Hp. rewrite tr_VA in Hp by done. unfold row_value in Hp.
      rewrite Hws in Hp. injection Hp as <- <-. by apply r_value, before_ws.
    + destruct (decide (c = 93)) as [->|Hn]; [by destruct S|].
      eapply start_step; [exact Hl|by left|done|done|done|exact Hp].
  - unfold pstep in Hp. cbn [fst snd] in Hp. rewrite tr_AR in Hp by done.
    destruct (Z.eqb_spec c 93) as [->|Hn].
    { injection Hp as <- <-. rewrite <- app_assoc, <- (app_nil_r ((91 :: w) ++ [93])).
      apply r_ok; [done|by apply jv_array_empty|by constructor]. }
    destruct (is_ws c) eqn:Hws.
    + unfold row_value in Hp. rewrite Hws in Hp. injection Hp as <- <-. rewrite <- app_assoc.
      apply (r_array l (w ++ [c])); [done|by apply ws_snoc].
    + eapply (start_step AR); [|by right|done|done|done|].
      * apply before_array; [exact Hl|by apply ao_first].
      * unfold pstep. cbn [fst snd]. rewrite tr_AR, (proj2 (Z.eqb_neq _ _) Hn) by done. exact Hp.
  - unfold pstep in Hp. cbn [fst snd] in Hp. rewrite tr_OB in Hp by done.
    destruct (is_ws c) eqn:Hws.
    { injection Hp as <- <-. rewrite <- app_assoc. apply (r_object l (w ++ [c])); [done|by apply ws_snoc]. }
    destruct (Z.eqb_spec c 125) as [->|_].
    { injection Hp as <- <-. rewrite <- app_assoc, <- (app_nil_r ((123 :: w) ++ [125])).
      apply r_ok; [done|by apply jv_object_empty|by constructor]. }
    destruct (Z.eqb_spec c 34) as [->|_]; [|done]. injection Hp as <- <-.
    apply (r_string _ []); [|by do 2 constructor]. right. exists l, (123 :: w), S.
    split; [done|]. split; [done|]. split; [done|by constructor].
  - unfold pstep in Hp. cbn [fst snd] in Hp. rewrite tr_KE in Hp by done.
    destruct (is_ws c) eqn:Hws.
    { injection Hp as <- <-. rewrite <- app_assoc. apply r_key; [done|by apply obj_key_ws]. }
    destruct (Z.eqb_spec c 34) as [->|_]; [|done]. injection Hp as <- <-.
    apply (r_string _ []); [|by do 2 constructor]. right. by exists l, b, S.
  - unfold pstep in Hp. cbn [fst snd] in Hp. rewrite tr_CO in Hp by done.
    destruct (is_ws c) eqn:Hws.
    { injection Hp as <- <-. rewrite <- !app_assoc. apply r_colon; try done. by apply ws_snoc. }
    destruct (Z.eqb_spec c 58) as [->|_]; [|done]. injection Hp as <- <-. rewrite <- !app_assoc.
    apply r_value, before_object; [done|]. apply oo_name; [done|done|done|by constructor].
  - unfold pstep in Hp. cbn [fst snd] in Hp. rewrite tr_OK in Hp by done.
    rewrite <- app_assoc. by eapply end_step.
  - rewrite <- app_assoc. by eapply string_step.
  - rewrite <- app_assoc. by eapply number_step.
  - rewrite <- app_assoc. by eapply literal_step.
Qed.

Lemma reach_run l : forall st S l0 st' S', bytes_ok l ->
  reach st S l0 -> prun l (st, S) = Some (st', S') -> reach st' S' (l0 ++ l).
Proof.
  induction l as [|c l IH]; intros st S l0 st' S' Hb Hr Hp.
  - injection Hp as <- <-. by rewrite app_nil_r.
  - apply Forall_cons in Hb as [Hc Hb]. cbn [prun] in Hp.
    destruct (pstep c (st, S)) as [[st1 S1]|] eqn:Hs; [|done]. cbn [mbind option_bind] in Hp.
    change (c :: l) with ([c] ++ l). rewrite app_assoc. eapply (IH st1 S1); [done|by eapply reach_step|done].
Qed.

Lemma reach_OK st S l : reach st S l -> st = OK ->
  exists l0 v w, l = l0 ++ v ++ w /\ before S l0 /\ json_value v /\ ws w.
Proof.
  intros Hr Hst. destruct Hr as [| | | | |l v w S Hl Hv Hw|l p S st Hl Hs|l n S st Hl Hn|l n S st Hl Hn];
    try done; [by exists l, v, w|by subst st; inversion Hs|by subst st; inversion Hn|by subst st; inversion Hn].
Qed.

(** A space only completes numbers. *)
Lemma reach_space st S l S' : reach st S l -> st <> OK -> pstep 32 (st, S) = Some (OK, S') ->
  S' = S /\ exists l0 v, l = l0 ++ v /\ before S l0 /\ json_value v.
Proof.
  intros Hr Hst Hp. destruct Hr as [| | | | | |l p S st Hl Hs|l n S st Hl Hn|l n S st Hl Hn];
    try done.
  - destruct Hs; destruct S; done.
  - assert (He : S' = S /\ value_end st).
    { destruct Hn; (try by destruct S); unfold pstep in Hp; cbn in Hp; injection Hp as <-;
        (split; [done|by repeat constructor]). }
    destruct He as [-> He]. split; [done|]. exists l, n. split; [done|]. split; [done|].
    by eapply jv_number, num_at_number.
  - destruct Hn; destruct S; done.
Qed.

Lemma json_sound l st S :
  bytes_ok l -> prun l (VA, [MODE_DONE]) = Some (st, S) -> paccepts (st, S) = true ->
  json_text l /\ S = [MODE_DONE].
Proof.
  intros Hb Hp Ha.
  assert (Hr : reach st S l).
  { rewrite <- (app_nil_l l). eapply reach_run; [done| |exact Hp]. apply r_value. split; [done|by constructor]. }
  unfold paccepts in Ha. cbn [fst] in Ha. destruct (Z.eqb_spec st OK) as [Hst|Hst].
  - destruct (reach_OK _ _ _ Hr Hst) as (l0 & v & w & -> & Hl & Hv & Hw).
    destruct S as [|m S]; [done|]. apply andb_true_iff in Ha as [_ Ha%Z.eqb_eq]. subst m.
    destruct Hl as [-> Hl]. split; [by exists l0, v, w|done].
  - destruct (pstep 32 (st, S)) as [[st' S']|] eqn:Hs; [|done]. destruct S' as [|m S']; [done|].
    apply andb_true_iff in Ha as [->%Z.eqb_eq Ha%Z.eqb_eq]. subst m.
    destruct (reach_space _ _ _ _ Hr Hst Hs) as (HS & l0 & v & -> & Hl & Hv). subst S.
    destruct Hl as [-> Hl]. split; [|done]. exists l0, v, []. rewrite app_nil_r.
    split; [done|]. split; [done|]. split; [done|by constructor].
Qed.

(** ** The stack is deep enough *)

Lemma act_height a S st' S' : act a S = Some (st', S') ->
  (length S' <= length S + 1 /\ length S <= length S' + 1)%nat.
Proof.
  unfold act. destruct S as [|m S]; [done|].
  repeat match goal with |- context [if ?b then _ else _] => destruct b end; intros [= <- <-]; simpl; lia.
Qed.

Lemma prun_height l : forall cfg cfg', prun l cfg = Some cfg' ->
  (length cfg'.2 <= length cfg.2 + length l /\ length cfg.2 <= length cfg'.2 + length l)%nat.
Proof.
  induction l as [|c l IH]; intros [st S] cfg' Hp; [injection Hp as <-; simpl; lia|].
  cbn [prun] in Hp. destruct (pstep c (st, S)) as [[st1 S1]|] eqn:Hs; [|done].
  specialize (IH _ _ Hp). unfold pstep in Hs. cbn [fst snd] in *.
  destruct (0 <=? tr st c); [injection Hs as <- <-|apply act_height in Hs]; simpl; lia.
Qed.

(** The configurations of an accepted text fit into half of its length and one. *)
Lemma accepted_fits l1 l2 st S cfg :
  prun l1 (VA, [MODE_DONE]) = Some (st, S) -> prun l2 (st, S) = Some cfg -> length cfg.2 = 1%nat ->
  Z.of_nat (length S) <= Z.of_nat (length (l1 ++ l2)) / 2 + 1.
Proof.
  intros H1 H2 Hc. apply prun_height in H1, H2. rewrite length_app. simpl in *. 
  pose proof (Z.div_le_lower_bound (Z.of_nat (length l1 + length l2)) 2 (Z.of_nat (length S) - 1)). lia.
Qed.

(** ** The checker runs the automaton *)

(** The array holds the modes, the bottom of the stack first. *)
Record jc_rep (jc : JSON_checker) (st : Z) (S : list Z) : Prop := {
  jr_state : jc.(jc_state) = st;
  jr_range : 0 <= st < NR_STATES;
  jr_top : jc.(jc_top) = Z.of_nat (length S) - 1;
  jr_depth : jc.(jc_depth) = Z.of_nat (length jc.(jc_stack));
  jr_fits : (length S <= length jc.(jc_stack))%nat;
  jr_stack : take (length S) jc.(jc_stack) = reverse S;
  jr_modes : Forall (fun m => 0 <= m <= 3) S
}.

Lemma jr_lookup jc st m S :
  jc_rep jc st (m :: S) -> zlookup jc.(jc_stack) jc.(jc_top) = Some m.
Proof.
  intros []. apply zlookup_Some. rewrite jr_top0. simpl length in *. split; [lia|].
  rewrite <- (lookup_take_lt _ (Datatypes.S (length S))) by lia. rewrite jr_stack0, reverse_cons.
  apply list_lookup_middle. rewrite length_reverse. lia.
Qed.

Lemma push_run jc st S mode (Q : bool -> JSON_checker -> Prop) :
  jc_rep jc st S -> 0 <= mode <= 3 ->
  (forall jc', jc_rep jc' st (mode :: S) -> jc'.(jc_depth) = jc.(jc_depth) -> Q true jc') ->
  (forall jc', Z.of_nat (length S) >= jc.(jc_depth) -> Q false jc') ->
  runs (push mode) jc Q.
Proof.
  intros [] Hm HQ1 HQ0. unfold push. run. simpl. rewrite jr_top0.
  destruct (Z.leb_spec (jc_depth jc) (Z.of_nat (length S) - 1 + 1)) as [Hle|Hlt].
  { run. apply HQ0. lia. }
  run. { apply zupdate_lt. simpl. lia. }
  apply HQ1; [|done]. constructor; simpl; try done; rewrite ?length_insert; try lia.
  - rewrite reverse_cons. replace (Z.to_nat (Z.of_nat (length S) - 1 + 1)) with (length S) by lia.
    rewrite insert_take_drop by lia. rewrite <- jr_stack0.
    rewrite take_app, length_take. rewrite take_take.
    replace (Datatypes.S (length S) `min` length S)%nat with (length S) by lia.
    f_equal. replace (Datatypes.S (length S) - length S `min` length (jc_stack jc))%nat with 1%nat by lia. done.
  - by constructor.
Qed.

Lemma pop_run jc st m S mode (Q : bool -> JSON_checker -> Prop) :
  jc_rep jc st (m :: S) ->
  (m = mode -> forall jc', jc_rep jc' st S -> jc'.(jc_depth) = jc.(jc_depth) -> Q true jc') ->
  (m <> mode -> Q false jc) ->
  runs (pop mode) jc Q.
Proof.
  intros HR HQ1 HQ0. pose proof (jr_lookup _ _ _ _ HR) as Hl. destruct HR. unfold pop. run.
  simpl in jr_top0. rewrite (proj2 (Z.ltb_ge _ _)) by (simpl; lia). run; [exact Hl|].
  destruct (Z.eqb_spec m mode) as [->|Hn]; simpl; run; [|by apply HQ0].
  apply HQ1; [done| |done]. simpl length in *. constructor; simpl; try done; try lia.
  - apply (f_equal (take (length S))) in jr_stack0. rewrite take_take in jr_stack0.
    replace (length S `min` Datatypes.S (length S))%nat with (length S) in jr_stack0 by lia.
    rewrite jr_stack0, reverse_cons. rewrite <- (length_reverse S) at 1. apply take_app_length.
  - by apply Forall_cons in jr_modes0 as [_ ?].
Qed.

Lemma set_state_run jc st st' S (Q : bool -> JSON_checker -> Prop) :
  jc_rep jc st S -> 0 <= st' < NR_STATES ->
  (forall jc', jc_rep jc' st' S -> jc'.(jc_depth) = jc.(jc_depth) -> Q true jc') ->
  runs (set_state st') jc Q.
Proof. intros [] Hst HQ. unfold set_state. run. apply HQ; [|done]. by constructor. Qed.

(** What a step of the checker does, given the step of the automaton. *)
Definition char_post (jc : JSON_checker) (next : option (Z * list Z)) (ok : bool)
    (jc' : JSON_checker) : Prop :=
  match next with
  | None => ok = false
  | Some (st', S') =>
      if decide (Z.of_nat (length S') <= jc.(jc_depth))
      then ok = true /\ jc_rep jc' st' S' /\ jc'.(jc_depth) = jc.(jc_depth)
      else ok = false
  end.

Lemma char_post_ok jc st' S' jc' :
  jc_rep jc' st' S' -> jc'.(jc_depth) = jc.(jc_depth) -> char_post jc (Some (st', S')) true jc'.
Proof.
  intros HR Hd. unfold char_post. rewrite decide_True; [done|]. rewrite <- Hd.
  destruct HR. lia.
Qed.

(** Popping a mode and changing the state, or pushing one. *)
Lemma pop_state_run jc st m S mode st' :
  jc_rep jc st (m :: S) -> 0 <= st' < NR_STATES ->
  runs (ok ← pop mode; if negb ok then reject else set_state st') jc
    (char_post jc (if m =? mode then Some (st', S) else None)).
Proof.
  intros HR Hst. run. eapply pop_run; [exact HR|..].
  - intros -> jc1 HR1 Hd1. rewrite Z.eqb_refl. simpl.
    eapply set_state_run; [exact HR1|done|]. intros jc2 HR2 Hd2. apply char_post_ok; [done|congruence].
  - intros Hn. rewrite (proj2 (Z.eqb_neq _ _) Hn). cbn [negb]. unfold reject. by run.
Qed.

Lemma push_state_run jc st S mode st' :
  jc_rep jc st S -> 0 <= mode <= 3 -> 0 <= st' < NR_STATES ->
  runs (ok ← push mode; if negb ok then reject else set_state st') jc
    (char_post jc (Some (st', mode :: S))).
Proof.
  intros HR Hm Hst. run. eapply push_run; [exact HR|done|..].
  - intros jc1 HR1 Hd1. simpl. eapply set_state_run; [exact HR1|done|].
    intros jc2 HR2 Hd2. apply char_post_ok; [done|congruence].
  - intros jc' Hfull. simpl. unfold reject. run. unfold char_post. simpl length. rewrite decide_False by lia. done.
Qed.

(** The colon and the comma replace the mode on the top. *)
Lemma flip_run jc st m S mode mode' st' :
  jc_rep jc st (m :: S) -> 0 <= mode' <= 3 -> 0 <= st' < NR_STATES ->
  runs (popped ← pop mode;
        ok ← (if negb popped then mret false else push mode');
        if negb ok then reject else set_state st') jc
    (char_post jc (if m =? mode then Some (st', mode' :: S) else None)).
Proof.
  intros HR Hm Hst. run. eapply pop_run; [exact HR|..].
  - intros -> jc1 HR1 Hd1. rewrite Z.eqb_refl. simpl. run.
    pose proof (jr_fits _ _ _ HR) as Hfit. pose proof (jr_depth _ _ _ HR) as Hd. simpl length in Hfit.
    eapply push_run; [exact HR1|done|..].
    + intros jc2 HR2 Hd2. simpl. eapply set_state_run; [exact HR2|done|].
      intros jc3 HR3 Hd3. apply char_post_ok; [done|congruence].
    + intros jc' Hfull. exfalso. lia.
  - intros Hn. rewrite (proj2 (Z.eqb_neq _ _) Hn). cbn [negb]. run. cbn [negb]. unfold reject. by run.
Qed.

Lemma action_run jc st S a :
  jc_rep jc st S -> a < 0 -> S <> [] -> runs (action a) jc (char_post jc (act a S)).
Proof.
  intros HR Ha HS. destruct S as [|m S]; [done|]. pose proof (jr_lookup _ _ _ _ HR) as Hl.
  pose proof (jr_modes _ _ _ HR) as [Hm _]%Forall_cons.
  unfold action, act. destruct (Z.eqb_spec a (-9)) as [->|H9].
  { by apply (pop_state_run jc st m S MODE_KEY OK). }
  destruct (Z.eqb_spec a (-8)) as [->|H8]; [by apply (pop_state_run jc st m S MODE_OBJECT OK)|].
  destruct (Z.eqb_spec a (-7)) as [->|H7]; [by apply (pop_state_run jc st m S MODE_ARRAY OK)|].
  destruct (Z.eqb_spec a (-6)) as [->|H6]; [by apply (push_state_run jc st (m :: S) MODE_KEY OB)|].
  destruct (Z.eqb_spec a (-5)) as [->|H5]; [by apply (push_state_run jc st (m :: S) MODE_ARRAY AR)|].
  destruct (Z.eqb_spec a (-4)) as [->|H4].
  { unfold top_mode. run; [exact Hl|]. cbn [andb Z.eqb].
    destruct (Z.eqb_spec m MODE_KEY) as [->|Hk].
    - eapply set_state_run; [exact HR|done|]. intros jc' HR' Hd'. by apply char_post_ok.
    - replace (_ || _) with true.
      + eapply set_state_run; [exact HR|done|]. intros jc' HR' Hd'. by apply char_post_ok.
      + symmetry. unfold MODE_KEY, MODE_ARRAY, MODE_OBJECT, MODE_DONE in *.
        assert (m = 0 \/ m = 1 \/ m = 3) as [->|[->| ->]] by lia; done. }
  destruct (Z.eqb_spec a (-3)) as [->|H3].
  { unfold top_mode. run; [exact Hl|]. cbn [andb Z.eqb].
    destruct (Z.eqb_spec m MODE_OBJECT) as [->|Ho]; [by apply (flip_run jc st MODE_OBJECT S MODE_OBJECT MODE_KEY KE)|].
    destruct (Z.eqb_spec m MODE_ARRAY) as [->|Har].
    - eapply set_state_run; [exact HR|done|]. intros jc' HR' Hd'. by apply char_post_ok.
    - unfold reject. by run. }
  destruct (Z.eqb_spec a (-2)) as [->|H2]; [by apply (flip_run jc st m S MODE_KEY MODE_OBJECT VA)|].
  cbn [andb]. unfold reject. by run.
Qed.

(** The lookups in the tables succeed and agree with [tr]. *)
Definition table_ok (st c : Z) : bool :=
  let cls := if 128 <=? c then C_ETC else default (-1) (zlookup ascii_class c) in
  (if 128 <=? c then true else bool_decide (is_Some (zlookup ascii_class c))) &&
  (if cls <=? -1 then tr st c =? -1
   else match zlookup state_transition_table st with
        | None => false
        | Some row => match zlookup row cls with
                      | None => false
                      | Some a => (a =? tr st c) && (a <? NR_STATES)
                      end
        end).

Lemma tables_ok st c : 0 <= st < NR_STATES -> byte_ok c -> table_ok st c = true.
Proof.
  intros Hst Hc.
  assert (Hall : forallb (fun n => forallb (fun k => table_ok (Z.of_nat n) (Z.of_nat k)) (seq 0 256)) (seq 0 30) = true)
    by (vm_compute; reflexivity).
  rewrite forallb_forall in Hall. specialize (Hall (Z.to_nat st)). rewrite Z2Nat.id in Hall by lia.
  apply (bytes_all (table_ok st) c); [|done]. apply Hall, in_seq. unfold NR_STATES in Hst. lia.
Qed.

Lemma char_run jc st S c :
  jc_rep jc st S -> S <> [] -> byte_ok c -> runs (JSON_checker_char c) jc (char_post jc (pstep c (st, S))).
Proof.
  intros HR HS Hc. pose proof (tables_ok st c (jr_range _ _ _ HR) Hc) as Ht. unfold table_ok in Ht.
  apply andb_true_iff in Ht as [Hcls Ht]. unfold JSON_checker_char, pstep. cbn [fst snd].
  unfold byte_ok in Hc. rewrite (proj2 (Z.ltb_ge c 0)) by lia.
  set (cls := if 128 <=? c then C_ETC else default (-1) (zlookup ascii_class c)) in *.
  assert (Hrun : forall Q : Z -> JSON_checker -> Prop, Q cls jc ->
    runs (if 128 <=? c then mret C_ETC else of_option (zlookup ascii_class c)) jc Q).
  { intros Q HQ. subst cls. destruct (128 <=? c); [by apply runs_ret|].
    apply bool_decide_eq_true in Hcls as [x Hx]. eapply runs_of_option; [exact Hx|].
    by rewrite Hx in HQ. }
  run. apply Hrun. unfold __. destruct (cls <=? -1).
  { unfold reject. run. apply Z.eqb_eq in Ht. rewrite Ht. destruct S as [|m S]; [done|]. done. }
  destruct (zlookup state_transition_table st) as [row|] eqn:Hrow; [|done].
  destruct (zlookup row cls) as [a|] eqn:Ha; [|done].
  run; [unfold id; by rewrite (jr_state _ _ _ HR)|exact Ha|].
  apply andb_true_iff in Ht as [<-%Z.eqb_eq Hlt%Z.ltb_lt]. destruct (Z.leb_spec 0 a) as [H0|H0].
  - eapply set_state_run; [exact HR|done|]. intros jc' HR' Hd'. by apply char_post_ok.
  - by apply (action_run jc st).
Qed.

(** The mode at the bottom of the stack is never removed by a character. *)
Definition grounded (S : list Z) : Prop := last S = Some MODE_DONE.

Lemma grounded_nonempty S : grounded S -> S <> [].
Proof. by intros H ->. Qed.

Lemma grounded_pop m S : grounded (m :: S) -> m <> MODE_DONE -> grounded S.
Proof. unfold grounded. destruct S as [|m' S]; [|done]. intros [= ->]. done. Qed.

Lemma grounded_push m S : grounded S -> grounded (m :: S).
Proof. unfold grounded. by destruct S. Qed.

Lemma act_grounded a S st' S' : act a S = Some (st', S') -> grounded S -> grounded S'.
Proof.
  intros Ha HS. destruct S as [|m S]; [done|].
  assert (Hpop : m = MODE_KEY \/ m = MODE_OBJECT \/ m = MODE_ARRAY -> grounded S)
    by (intros Hm; apply (grounded_pop m); [done|by destruct Hm as [->|[->| ->]]]).
  unfold act in Ha. repeat match type of Ha with
    | (if ?b then _ else _) = _ => destruct b eqn:?; [injection Ha as <- <-|]
    end; try done; boolify; auto using grounded_push.
Qed.

Lemma pstep_grounded c st S st' S' : pstep c (st, S) = Some (st', S') -> grounded S -> grounded S'.
Proof.
  unfold pstep. cbn [fst snd]. destruct (0 <=? tr st c); [by intros [= <- <-]|apply act_grounded].
Qed.

(** The counting of the bytes of a sequence. *)
Fixpoint uscan (l : list Z) (expect : Z) : option Z :=
  match l with
  | [] => Some expect
  | b :: l' =>
      if b <=? 127 then if expect =? 0 then uscan l' expect else None
      else if Z.land b 192 =? 192 then
        if expect =? 0 then utf8_expect b ≫= uscan l' else None
      else if expect =? 0 then None else uscan l' (expect - 1)
  end.

(** All the stacks of the run over [l] fit. *)
Definition run_fits (l : list Z) (cfg : Z * list Z) (depth : Z) : Prop :=
  forall l1 l2 st S, l = l1 ++ l2 -> prun l1 cfg = Some (st, S) -> Z.of_nat (length S) <= depth.

Lemma run_fits_cons c l cfg cfg' depth :
  run_fits (c :: l) cfg depth -> pstep c cfg = Some cfg' -> run_fits l cfg' depth.
Proof.
  intros Hf Hs l1 l2 st S -> Hp. apply (Hf (c :: l1) l2 st S); [done|]. cbn [prun]. by rewrite Hs.
Qed.

Definition loop_post (l : list Z) (expect : Z) (st : Z) (S : list Z) (depth : Z)
    (bad : bool * bool) (jc' : JSON_checker) : Prop :=
  (bad.1 = false -> exists st' S', jc_rep jc' st' S' /\ grounded S') /\
  (bad = (false, false) -> is_Some (uscan l expect) /\ exists st' S',
     prun l (st, S) = Some (st', S') /\ jc_rep jc' st' S' /\ grounded S') /\
  (is_Some (uscan l expect) -> is_Some (prun l (st, S)) -> run_fits l (st, S) depth ->
   bad = (false, false)).

Lemma loop_run l : forall jc st S e,
  jc_rep jc st S -> grounded S -> bytes_ok l ->
  runs (check_loop l e) jc (loop_post l e st S jc.(jc_depth)).
Proof.
  induction l as [|c l IH]; intros jc st S e HR HS Hb; cbn [check_loop].
  { run. split; [intros _; by exists st, S|]. split; [|done]. intros _. split; [by eexists|]. by exists st, S. }
  apply Forall_cons in Hb as [Hc Hb]. run. eapply runs_mono; [by apply char_run, Hc; [|apply grounded_nonempty]|].
  intros ok jc1 Hpost. unfold char_post in Hpost.
  assert (Hstop : forall bad, bad <> (false, false) ->
    (bad.1 = false -> exists st' S', jc_rep jc1 st' S' /\ grounded S') ->
    (uscan (c :: l) e = None \/ prun (c :: l) (st, S) = None \/ ~ run_fits (c :: l) (st, S) jc.(jc_depth)) ->
    runs (mret bad) jc1 (loop_post (c :: l) e st S jc.(jc_depth))).
  { intros bad Hbad Hrep Hno. run. split; [done|]. split; [done|]. intros [? Hu] [? Hp] Hf.
    destruct Hno as [Hno|[Hno|Hno]]; [congruence|congruence|done]. }
  assert (Hcrash : pstep c (st, S) = None -> prun (c :: l) (st, S) = None)
    by (intros Hs; cbn [prun]; by rewrite Hs).
  destruct (pstep c (st, S)) as [[st1 S1]|] eqn:Hs.
  2:{ subst ok. cbn [negb]. apply Hstop; [done|done|auto]. }
  destruct (decide (Z.of_nat (length S1) <= jc.(jc_depth))) as [Hfit|Hfit].
  2:{ subst ok. cbn [negb]. apply Hstop; [done|done|]. right; right. intros Hf.
      apply Hfit, (Hf [c] l st1 S1); [done|]. cbn [prun]. by rewrite Hs. }
  destruct Hpost as (-> & HR1 & Hd1). cbn [negb].
  pose proof (pstep_grounded _ _ _ _ _ Hs HS) as HS1.
  assert (Hgo : forall e', uscan (c :: l) e = uscan l e' ->
    runs (check_loop l e') jc1 (loop_post (c :: l) e st S jc.(jc_depth))).
  { intros e' He. eapply runs_mono; [by apply (IH jc1 st1 S1 e')|]. rewrite Hd1.
    intros bad jc2 (H0 & H1 & H2). unfold loop_post. rewrite He. cbn [prun]. rewrite Hs. cbn [mbind option_bind].
    split; [exact H0|]. split; [exact H1|]. intros Hu Hp Hf. apply H2; [done|done|]. by eapply run_fits_cons. }
  cbn [uscan] in Hstop, Hgo.
  destruct (c <=? 127).
  { destruct (e =? 0); cbn [negb]; [by apply Hgo|apply Hstop; [done|by exists st1, S1|auto]]. }
  destruct (Z.land c 192 =? 192).
  { destruct (e =? 0); cbn [negb]; [|apply Hstop; [done|by exists st1, S1|auto]].
    destruct (utf8_expect c) as [n|]; [by apply Hgo|apply Hstop; [done|by exists st1, S1|auto]]. }
  destruct (e =? 0); cbn [negb]; [apply Hstop; [done|by exists st1, S1|auto]|by apply Hgo].
Qed.

(** A space moves to a state and leaves the stack alone. *)
Lemma pstep_space st S st' S' : 0 <= st < NR_STATES -> pstep 32 (st, S) = Some (st', S') -> S' = S.
Proof.
  intros Hst. unfold pstep. cbn [fst snd].
  assert (Hall : forallb (fun n => -1 <=? tr (Z.of_nat n) 32) (seq 0 30) = true) by (vm_compute; reflexivity).
  rewrite forallb_forall in Hall. specialize (Hall (Z.to_nat st)).
  rewrite Z2Nat.id in Hall by lia. rewrite in_seq in Hall. unfold NR_STATES in Hst.
  specialize (Hall ltac:(lia)). boolify.
  destruct (Z.leb_spec 0 (tr st 32)); [by intros [= <- <-]|].
  replace (tr st 32) with (-1) by lia. by destruct S.
Qed.

Lemma done_run jc st S (Q : bool -> JSON_checker -> Prop) :
  jc_rep jc st S ->
  (forall jc', Q match S with m :: _ => (st =? OK) && (m =? MODE_DONE) | [] => false end jc') ->
  S <> [] -> runs JSON_checker_done jc Q.
Proof.
  intros HR HQ HS. destruct S as [|m S]; [done|]. unfold JSON_checker_done. run. unfold id.
  rewrite (jr_state _ _ _ HR). destruct (st =? OK); cbn [negb andb] in *; [|by run].
  eapply pop_run; [exact HR|..].
  - intros -> jc' _ _. apply HQ.
  - intros Hn. by rewrite (proj2 (Z.eqb_neq _ _) Hn) in HQ.
Qed.

Lemma end_run jc st S :
  jc_rep jc st S -> grounded S -> runs check_end jc (fun r _ => r = paccepts (st, S)).
Proof.
  intros HR HS. pose proof (grounded_nonempty _ HS) as Hne. unfold check_end, paccepts. run. unfold id.
  rewrite (jr_state _ _ _ HR). cbn [fst]. destruct (st =? OK) eqn:Hst; cbn [negb].
  { run. eapply done_run; [exact HR| |done]. intros _. rewrite Hst. by destruct S. }
  run. eapply runs_mono; [apply (char_run jc st S 32); [done|done|unfold byte_ok; lia]|].
  intros ok jc1 Hpost. unfold char_post in Hpost.
  destruct (pstep 32 (st, S)) as [[st1 S1]|] eqn:Hs; [|subst ok; run; cbn [negb]; by run].
  pose proof (pstep_space _ _ _ _ (jr_range _ _ _ HR) Hs) as ->.
  rewrite decide_True in Hpost by (destruct HR; lia). destruct Hpost as (-> & HR1 & _). run. cbn [negb].
  eapply done_run; [exact HR1| |done]. intros _. by destruct S.
Qed.

(** ** UTF-8 *)

Definition cont (c : Z) : Prop := 128 <= c < 192.

(** The tests of [check_loop] on a byte. *)
Definition expected (b : Z) : Z := if b <? 224 then 1 else if b <? 240 then 2 else if b <? 248 then 3 else 0.

Definition byte_kindb (b : Z) : bool :=
  Bool.eqb (b <=? 127) (b <? 128)
  && implb (128 <=? b) (Bool.eqb (Z.land b 192 =? 192) (192 <=? b))
  && implb (192 <=? b) (match utf8_expect b with Some n => negb (n =? 0) && (n =? expected b)
                        | None => expected b =? 0 end).

Lemma byte_kind b : byte_ok b ->
  (b <=? 127) = (b <? 128) /\
  (128 <= b -> (Z.land b 192 =? 192) = (192 <=? b)) /\
  (192 <= b -> utf8_expect b = if b <? 224 then Some 1 else if b <? 240 then Some 2
                               else if b <? 248 then Some 3 else None).
Proof.
  intros Hb.
  assert (Hall : byte_kindb b = true) by (apply (bytes_all byte_kindb); [vm_compute; reflexivity|done]).
  unfold byte_kindb in Hall.
  apply andb_true_iff in Hall as [[H1 H2]%andb_true_iff H3]. split; [by apply eqb_prop|]. split.
  - intros Hge. rewrite (proj2 (Z.leb_le _ _) Hge) in H2. by apply eqb_prop.
  - intros Hge. rewrite (proj2 (Z.leb_le _ _) Hge) in H3. cbn [implb] in H3. unfold expected in H3.
    destruct (utf8_expect b) as [n|], (b <? 224), (b <? 240), (b <? 248); boolify; subst; try done; lia.
Qed.

Lemma uscan_conts bs l e :
  Forall cont bs -> uscan (bs ++ l) (e + Z.of_nat (length bs)) = uscan l e \/ e < 0.
Proof.
  intros Hbs. destruct (Z.ltb_spec e 0) as [?|He]; [by right|]. left.
  induction Hbs as [|b bs Hb _ IH]; [simpl; f_equal; lia|]. unfold cont in Hb. cbn [app uscan length].
  destruct (byte_kind b) as (H1 & H2 & _); [unfold byte_ok; lia|].
  rewrite H1, (proj2 (Z.ltb_ge b 128)), H2, (proj2 (Z.leb_gt 192 b)) by lia.
  rewrite (proj2 (Z.eqb_neq _ _)) by lia. rewrite <- IH. f_equal. lia.
Qed.

Lemma utf8_scanned l : bytes_ok l -> utf8 l -> uscan l 0 = Some 0.
Proof.
  intros Hb Hu. induction Hu as [|b l Hlt _ IH|b n bs l Hr Hn Hlen Hbs _ IH]; [done|..];
    apply Forall_cons in Hb as [Hb Hl]; destruct (byte_kind b Hb) as (H1 & H2 & H3); cbn [uscan].
  - rewrite H1, (proj2 (Z.ltb_lt _ _) Hlt). by apply IH.
  - apply Forall_app in Hl as [_ Hl].
    rewrite H1, (proj2 (Z.ltb_ge b 128)), H2, (proj2 (Z.leb_le 192 b)), H3 by lia. cbn [Z.eqb].
    assert (Hn' : 0 <= n) by lia.
    destruct (uscan_conts bs l 0 Hbs) as [Hs|]; [|lia]. rewrite Hlen in Hs.
    assert (He : (if b <? 224 then Some 1 else if b <? 240 then Some 2 else if b <? 248 then Some 3 else None)
                 = Some n).
    { rewrite Hn, (proj2 (Z.ltb_lt b 248)) by lia. by destruct (b <? 224), (b <? 240). }
    rewrite He. cbn [mbind option_bind]. rewrite Z.add_0_l in Hs. rewrite Hs. by apply IH.
Qed.

Lemma scanned_utf8 l : forall e, bytes_ok l -> 0 <= e -> uscan l e = Some 0 ->
  exists bs l', l = bs ++ l' /\ Z.of_nat (length bs) = e /\ Forall cont bs /\ utf8 l'.
Proof.
  induction l as [|b l IH]; intros e Hb He Hs.
  { injection Hs as ->. exists [], []. split; [done|]. split; [done|]. split; constructor. }
  apply Forall_cons in Hb as [Hb Hl]. destruct (byte_kind b Hb) as (H1 & H2 & H3). cbn [uscan] in Hs.
  rewrite H1 in Hs. destruct (Z.ltb_spec b 128) as [Hlt|Hge].
  { destruct (Z.eqb_spec e 0) as [->|]; [|done].
    destruct (IH 0 Hl ltac:(lia) Hs) as (bs & l' & -> & Hlen & _ & Hu).
    destruct bs; [|simpl in Hlen; lia]. exists [], (b :: l'). split; [done|]. split; [done|].
    split; [constructor|by constructor]. }
  rewrite H2 in Hs by lia. destruct (Z.leb_spec 192 b) as [H192|H192].
  { destruct (Z.eqb_spec e 0) as [->|]; [|done]. rewrite H3 in Hs by lia.
    assert (Hn : exists n, (if b <? 224 then Some 1 else if b <? 240 then Some 2 else if b <? 248 then Some 3 else None)
      = Some n /\ n = (if b <? 224 then 1 else if b <? 240 then 2 else 3) /\ b < 248 /\ 0 <= n).
    { destruct (Z.ltb_spec b 224); [exists 1; repeat split; lia|].
      destruct (Z.ltb_spec b 240); [exists 2; repeat split; lia|].
      destruct (Z.ltb_spec b 248); [exists 3; repeat split; lia|done]. }
    destruct Hn as (n & Hn & Hneq & Hb248 & Hn0). rewrite Hn in Hs. cbn [mbind option_bind] in Hs.
    destruct (IH n Hl Hn0 Hs) as (bs & l' & -> & Hlen & Hbs & Hu).
    exists [], (b :: bs ++ l'). split; [done|]. split; [done|]. split; [constructor|].
    by apply (utf8_long b n bs l'). }
  destruct (Z.eqb_spec e 0) as [->|Hne]; [done|].
  destruct (IH (e - 1) Hl ltac:(lia) Hs) as (bs & l' & -> & Hlen & Hbs & Hu).
  exists (b :: bs), l'. split; [done|]. split; [simpl length; lia|]. split; [|done].
  constructor; [unfold cont; lia|done].
Qed.

(** A text that ends inside a sequence ends inside a string. *)
Lemma uscan_open l : forall e e', uscan l e = Some e' -> e' <> 0 -> bytes_ok l ->
  l = [] \/ exists l1 c, l = l1 ++ [c] /\ 128 <= c.
Proof.
  induction l as [|b l IH]; intros e e' Hs He Hb; [by left|]. right.
  apply Forall_cons in Hb as [Hb Hl]. destruct (byte_kind b Hb) as (H1 & _).
  assert (Hnext : exists e1, uscan l e1 = Some e' /\ (l = [] -> 128 <= b)).
  { cbn [uscan] in Hs. rewrite H1 in Hs. destruct (Z.ltb_spec b 128) as [Hlt|Hge].
    - destruct (Z.eqb_spec e 0) as [->|]; [|done]. exists 0. split; [done|]. intros ->. injection Hs as <-. done.
    - destruct (Z.land b 192 =? 192).
      + destruct (e =? 0); [|done]. destruct (utf8_expect b) as [n|]; [|done]. by exists n.
      + destruct (e =? 0); [done|]. by exists (e - 1). }
  destruct Hnext as (e1 & Hs1 & Hlast). destruct (IH e1 e' Hs1 He Hl) as [->|(l1 & c & -> & Hc)].
  - exists [], b. auto.
  - by exists (b :: l1), c.
Qed.

Lemma high_in_string l1 c st S :
  128 <= c -> prun (l1 ++ [c]) (VA, [MODE_DONE]) = Some (st, S) -> paccepts (st, S) = false.
Proof.
  intros Hc Hp. rewrite prun_app in Hp. destruct (prun l1 _) as [[st1 S1]|]; [|done].
  cbn [mbind option_bind prun] in Hp.
  assert (Htr : tr st1 c = ST \/ tr st1 c = -1).
  { unfold tr. rewrite (proj2 (Z.leb_le _ _) Hc).
    destruct (zlookup state_transition_table st1) as [row|] eqn:Hrow; [|by right].
    apply zlookup_Some in Hrow as [_ Hrow]. cbn [default from_option id].
    apply list_elem_of_lookup_2, list_elem_of_In in Hrow.
    assert (Hall : forallb (fun row => let n := default (-1) (zlookup row C_ETC) in (n =? ST) || (n =? -1))
      state_transition_table = true) by (vm_compute; reflexivity).
    rewrite forallb_forall in Hall. specialize (Hall row Hrow). cbv beta zeta in Hall.
    apply orb_true_iff in Hall as [Hall|Hall]; apply Z.eqb_eq in Hall; auto. }
  unfold pstep in Hp. cbn [fst snd] in Hp. destruct Htr as [Ht|Ht]; rewrite Ht in Hp.
  - cbn in Hp. injection Hp as <- <-. by destruct S1.
  - cbn in Hp. by destruct S1.
Qed.

(** ** The whole check *)

Lemma new_checker depth :
  1 <= depth -> exists jc, new_JSON_checker depth = Some jc /\ jc_rep jc VA [MODE_DONE] /\ jc.(jc_depth) = depth.
Proof.
  intros Hd. unfold new_JSON_checker.
  set (jc0 := mk_jc VA depth (-1) (replicate (Z.to_nat depth) 0)).
  assert (H0 : jc_rep jc0 VA []).
  { constructor; try done; simpl; rewrite ?length_replicate; try lia. }
  assert (Hrun : runs (push MODE_DONE) jc0 (fun _ jc => jc_rep jc VA [MODE_DONE] /\ jc.(jc_depth) = depth)).
  { eapply push_run; [exact H0|..].
    - done.
    - intros jc' Hr Hdep. by split.
    - intros jc' Hbig. simpl in Hbig. lia. }
  destruct Hrun as (ok & jc & -> & HR & Hdep). by exists jc.
Qed.

Lemma jc_rep_unique jc st S st' S' : jc_rep jc st S -> jc_rep jc st' S' -> S' = S /\ st' = st.
Proof.
  intros [] []. split; [|congruence]. assert (Hl : length S' = length S) by lia.
  apply (inj reverse). rewrite Hl in *. congruence.
Qed.

(** What the checker answers, in terms of the automaton and of [uscan]. *)
Lemma check_run l :
  bytes_ok l -> Z.of_nat (length l) < 2 ^ 31 -> exists r, checkUTF8JSON l = Some r /\
  (r = true <-> is_Some (uscan l 0) /\ exists cfg, prun l (VA, [MODE_DONE]) = Some cfg /\ paccepts cfg = true).
Proof.
  intros Hb Hlen. unfold checkUTF8JSON.
  assert (Hhalf : 0 <= Z.of_nat (length l) / 2 < 2 ^ 31).
  { split; [apply Z.div_pos; lia|]. apply Z.div_lt_upper_bound; lia. }
  rewrite swrap_small by lia.
  destruct (new_checker (Z.of_nat (length l) / 2 + 1)) as (jc & -> & HR & Hd); [lia|].
  assert (Hrun : runs (bad ← check_loop l 0; json ← (if (bad.1 : bool) then mret false else check_end);
      mret (json && negb bad.2)) jc (fun r _ => r = true <-> is_Some (uscan l 0) /\
      exists cfg, prun l (VA, [MODE_DONE]) = Some cfg /\ paccepts cfg = true)).
  2:{ destruct Hrun as (r & jc' & -> & Hr). by exists r. }
  run. eapply runs_mono; [by apply (loop_run l jc VA [MODE_DONE] 0)|]. intros [badjson badutf] jc1 (H0 & H1 & H2).
  rewrite Hd in H2. cbn [fst snd].
  assert (Hbad : (badjson, badutf) <> (false, false) ->
    ~ (is_Some (uscan l 0) /\ exists cfg, prun l (VA, [MODE_DONE]) = Some cfg /\ paccepts cfg = true)).
  { intros Hne (Hu & [st S] & Hp & Ha). destruct (json_sound l st S Hb Hp Ha) as [_ ->]. apply Hne, H2; [done|by eexists|].
    intros l1 l2 st1 S1 -> Hp1. rewrite prun_app, Hp1 in Hp. by eapply accepted_fits. }
  destruct badjson.
  { run. split; [done|]. intros Hyes. exfalso. by apply Hbad. }
  destruct (H0 eq_refl) as (st & S & HR1 & HS). run.
  eapply runs_mono; [by eapply end_run|]. cbv beta. intros json jc2 ->. run.
  destruct badutf; cbn [negb]; [rewrite andb_false_r|rewrite andb_true_r].
  { split; [done|]. intros Hyes. exfalso. by apply Hbad. }
  destruct (H1 eq_refl) as (Hu & st' & S' & Hp & HR2 & _).
  assert (S' = S /\ st' = st) as [-> ->] by (by eapply jc_rep_unique).
  split; [intros Ha; split; [done|by eexists]|]. intros (_ & cfg & Hp' & Ha). by rewrite Hp in Hp'; injection Hp' as <-.
Qed.

(** C27: the checker answers for every text shorter than 2^31 bytes, without reading or
    writing outside its tables and its stack of [size / 2 + 1] modes, and the answer is yes
    exactly for the texts of the grammar [json_text] that have the byte structure [utf8].
    This grammar is the one of RFC 7159 with two differences in numbers (a point needs no
    digit after it, a lone 0 takes no exponent), and the byte structure is that of UTF-8
    without the exclusion of overlong forms, surrogates and large numbers; nesting, objects, arrays,
    strings with their escapes and literals are those of JSON. *)
Theorem checkUTF8JSON_correct l :
  bytes_ok l -> Z.of_nat (length l) < 2 ^ 31 ->
  exists r, checkUTF8JSON l = Some r /\ (r = true <-> json_text l /\ utf8 l).
Proof.
  intros Hb Hlen. destruct (check_run l Hb Hlen) as (r & Hr & Hiff). exists r. split; [done|]. rewrite Hiff. split.
  - intros ([e Hu] & [st S] & Hp & Ha). destruct (json_sound l st S Hb Hp Ha) as [Hj _]. split; [done|].
    destruct (decide (e = 0)) as [->|He].
    { destruct (scanned_utf8 l 0 Hb ltac:(lia) Hu) as (bs & l' & -> & Hlen' & _ & Hu').
      destruct bs; [done|simpl in Hlen'; lia]. }
    destruct (uscan_open l 0 e Hu He Hb) as [->|(l1 & c & -> & Hc)]; [by injection Hu as <-|].
    by rewrite (high_in_string _ _ _ _ Hc Hp) in Ha.
  - intros [Hj Hu]. split; [rewrite utf8_scanned by done; by eexists|]. by apply json_accepted.
Qed.

(** The text of an array of the numbers 1 and -0.5. *)
Lemma checkUTF8JSON_correct_witness :
  exists r, checkUTF8JSON [91; 49; 44; 32; 45; 48; 46; 53; 93] = Some r /\
    (r = true <-> json_text [91; 49; 44; 32; 45; 48; 46; 53; 93] /\ utf8 [91; 49; 44; 32; 45; 48; 46; 53; 93]).
Proof. apply (checkUTF8JSON_correct [91; 49; 44; 32; 45; 48; 46; 53; 93]); [repeat constructor; unfold byte_ok; lia|reflexivity]. Defined.
