(* ===== verification/EngineState.v ===== *)
(** * The state of the default engine

    The structures of [src/memcached/engines/default_engine]: [items.h],
    [assoc.h], [slabs.h] and [default_engine.h], the heap of chunks the item
    pointers point into, and the services the engine calls. Every field keeps
    the name it has in C, with a prefix for its structure; [set_x_f] is the
    assignment of the field [f]. *)
From Stdlib Require Import ZArith Lia SpecFloat.
From stdpp Require Import strings gmap prelude.
From S2P Require Import Prelude.

(** A pointer is an address; [NULL] is 0. *)
Definition NULL : Z := 0.

(** [hash_item] ([items.h]). [it_cas] is the eight bytes that follow the
    header when [ITEM_WITH_CAS] is set, [it_body] the rest of the chunk: the key
    and then the data. *)
Record hash_item := mk_item {
  it_next : Z;
  it_prev : Z;
  it_h_next : Z;
  it_time : Z;
  it_exptime : Z;
  it_nbytes : Z;
  it_flags : Z;
  it_nkey : Z;
  it_iflag : Z;
  it_refcount : Z;
  it_slabs_clsid : Z;
  it_datatype : Z;
  it_cas : Z;
  it_body : list Z
}.

Definition set_it_next (v : Z) (x : hash_item) : hash_item :=
  mk_item v x.(it_prev) x.(it_h_next) x.(it_time) x.(it_exptime) x.(it_nbytes) x.(it_flags) x.(it_nkey) x.(it_iflag) x.(it_refcount) x.(it_slabs_clsid) x.(it_datatype) x.(it_cas) x.(it_body).
Definition set_it_prev (v : Z) (x : hash_item) : hash_item :=
  mk_item x.(it_next) v x.(it_h_next) x.(it_time) x.(it_exptime) x.(it_nbytes) x.(it_flags) x.(it_nkey) x.(it_iflag) x.(it_refcount) x.(it_slabs_clsid) x.(it_datatype) x.(it_cas) x.(it_body).
Definition set_it_h_next (v : Z) (x : hash_item) : hash_item :=
  mk_item x.(it_next) x.(it_prev) v x.(it_time) x.(it_exptime) x.(it_nbytes) x.(it_flags) x.(it_nkey) x.(it_iflag) x.(it_refcount) x.(it_slabs_clsid) x.(it_datatype) x.(it_cas) x.(it_body).
Definition set_it_time (v : Z) (x : hash_item) : hash_item :=
  mk_item x.(it_next) x.(it_prev) x.(it_h_next) v x.(it_exptime) x.(it_nbytes) x.(it_flags) x.(it_nkey) x.(it_iflag) x.(it_refcount) x.(it_slabs_clsid) x.(it_datatype) x.(it_cas) x.(it_body).
Definition set_it_exptime (v : Z) (x : hash_item) : hash_item :=
  mk_item x.(it_next) x.(it_prev) x.(it_h_next) x.(it_time) v x.(it_nbytes) x.(it_flags) x.(it_nkey) x.(it_iflag) x.(it_refcount) x.(it_slabs_clsid) x.(it_datatype) x.(it_cas) x.(it_body).
Definition set_it_nbytes (v : Z) (x : hash_item) : hash_item :=
  mk_item x.(it_next) x.(it_prev) x.(it_h_next) x.(it_time) x.(it_exptime) v x.(it_flags) x.(it_nkey) x.(it_iflag) x.(it_refcount) x.(it_slabs_clsid) x.(it_datatype) x.(it_cas) x.(it_body).
Definition set_it_flags (v : Z) (x : hash_item) : hash_item :=
  mk_item x.(it_next) x.(it_prev) x.(it_h_next) x.(it_time) x.(it_exptime) x.(it_nbytes) v x.(it_nkey) x.(it_iflag) x.(it_refcount) x.(it_slabs_clsid) x.(it_datatype) x.(it_cas) x.(it_body).
Definition set_it_nkey (v : Z) (x : hash_item) : hash_item :=
  mk_item x.(it_next) x.(it_prev) x.(it_h_next) x.(it_time) x.(it_exptime) x.(it_nbytes) x.(it_flags) v x.(it_iflag) x.(it_refcount) x.(it_slabs_clsid) x.(it_datatype) x.(it_cas) x.(it_body).
Definition set_it_iflag (v : Z) (x : hash_item) : hash_item :=
  mk_item x.(it_next) x.(it_prev) x.(it_h_next) x.(it_time) x.(it_exptime) x.(it_nbytes) x.(it_flags) x.(it_nkey) v x.(it_refcount) x.(it_slabs_clsid) x.(it_datatype) x.(it_cas) x.(it_body).
Definition set_it_refcount (v : Z) (x : hash_item) : hash_item :=
  mk_item x.(it_next) x.(it_prev) x.(it_h_next) x.(it_time) x.(it_exptime) x.(it_nbytes) x.(it_flags) x.(it_nkey) x.(it_iflag) v x.(it_slabs_clsid) x.(it_datatype) x.(it_cas) x.(it_body).
Definition set_it_slabs_clsid (v : Z) (x : hash_item) : hash_item :=
  mk_item x.(it_next) x.(it_prev) x.(it_h_next) x.(it_time) x.(it_exptime) x.(it_nbytes) x.(it_flags) x.(it_nkey) x.(it_iflag) x.(it_refcount) v x.(it_datatype) x.(it_cas) x.(it_body).
Definition set_it_datatype (v : Z) (x : hash_item) : hash_item :=
  mk_item x.(it_next) x.(it_prev) x.(it_h_next) x.(it_time) x.(it_exptime) x.(it_nbytes) x.(it_flags) x.(it_nkey) x.(it_iflag) x.(it_refcount) x.(it_slabs_clsid) v x.(it_cas) x.(it_body).
Definition set_it_cas (v : Z) (x : hash_item) : hash_item :=
  mk_item x.(it_next) x.(it_prev) x.(it_h_next) x.(it_time) x.(it_exptime) x.(it_nbytes) x.(it_flags) x.(it_nkey) x.(it_iflag) x.(it_refcount) x.(it_slabs_clsid) x.(it_datatype) v x.(it_body).
Definition set_it_body (v : list Z) (x : hash_item) : hash_item :=
  mk_item x.(it_next) x.(it_prev) x.(it_h_next) x.(it_time) x.(it_exptime) x.(it_nbytes) x.(it_flags) x.(it_nkey) x.(it_iflag) x.(it_refcount) x.(it_slabs_clsid) x.(it_datatype) x.(it_cas) v.

(** [struct assoc] ([assoc.h]). *)
Record assoc := mk_assoc {
  a_hashpower : Z;
  a_primary_hashtable : list Z;
  a_old_hashtable : list Z;
  a_hash_items : Z;
  a_expanding : bool;
  a_expand_bucket : Z
}.

Definition set_a_hashpower (v : Z) (x : assoc) : assoc :=
  mk_assoc v x.(a_primary_hashtable) x.(a_old_hashtable) x.(a_hash_items) x.(a_expanding) x.(a_expand_bucket).
Definition set_a_primary_hashtable (v : list Z) (x : assoc) : assoc :=
  mk_assoc x.(a_hashpower) v x.(a_old_hashtable) x.(a_hash_items) x.(a_expanding) x.(a_expand_bucket).
Definition set_a_old_hashtable (v : list Z) (x : assoc) : assoc :=
  mk_assoc x.(a_hashpower) x.(a_primary_hashtable) v x.(a_hash_items) x.(a_expanding) x.(a_expand_bucket).
Definition set_a_hash_items (v : Z) (x : assoc) : assoc :=
  mk_assoc x.(a_hashpower) x.(a_primary_hashtable) x.(a_old_hashtable) v x.(a_expanding) x.(a_expand_bucket).
Definition set_a_expanding (v : bool) (x : assoc) : assoc :=
  mk_assoc x.(a_hashpower) x.(a_primary_hashtable) x.(a_old_hashtable) x.(a_hash_items) v x.(a_expand_bucket).
Definition set_a_expand_bucket (v : Z) (x : assoc) : assoc :=
  mk_assoc x.(a_hashpower) x.(a_primary_hashtable) x.(a_old_hashtable) x.(a_hash_items) x.(a_expanding) v.

(** [slabclass_t] ([slabs.h]); the field [killing] is never used. *)
Record slabclass_t := mk_slabclass {
  p_size : Z;
  p_perslab : Z;
  p_slots : list Z;
  p_sl_total : Z;
  p_sl_curr : Z;
  p_end_page_ptr : Z;
  p_end_page_free : Z;
  p_slabs : Z;
  p_slab_list : list Z;
  p_list_size : Z;
  p_requested : Z
}.

Definition set_p_size (v : Z) (x : slabclass_t) : slabclass_t :=
  mk_slabclass v x.(p_perslab) x.(p_slots) x.(p_sl_total) x.(p_sl_curr) x.(p_end_page_ptr) x.(p_end_page_free) x.(p_slabs) x.(p_slab_list) x.(p_list_size) x.(p_requested).
Definition set_p_perslab (v : Z) (x : slabclass_t) : slabclass_t :=
  mk_slabclass x.(p_size) v x.(p_slots) x.(p_sl_total) x.(p_sl_curr) x.(p_end_page_ptr) x.(p_end_page_free) x.(p_slabs) x.(p_slab_list) x.(p_list_size) x.(p_requested).
Definition set_p_slots (v : list Z) (x : slabclass_t) : slabclass_t :=
  mk_slabclass x.(p_size) x.(p_perslab) v x.(p_sl_total) x.(p_sl_curr) x.(p_end_page_ptr) x.(p_end_page_free) x.(p_slabs) x.(p_slab_list) x.(p_list_size) x.(p_requested).
Definition set_p_sl_total (v : Z) (x : slabclass_t) : slabclass_t :=
  mk_slabclass x.(p_size) x.(p_perslab) x.(p_slots) v x.(p_sl_curr) x.(p_end_page_ptr) x.(p_end_page_free) x.(p_slabs) x.(p_slab_list) x.(p_list_size) x.(p_requested).
Definition set_p_sl_curr (v : Z) (x : slabclass_t) : slabclass_t :=
  mk_slabclass x.(p_size) x.(p_perslab) x.(p_slots) x.(p_sl_total) v x.(p_end_page_ptr) x.(p_end_page_free) x.(p_slabs) x.(p_slab_list) x.(p_list_size) x.(p_requested).
Definition set_p_end_page_ptr (v : Z) (x : slabclass_t) : slabclass_t :=
  mk_slabclass x.(p_size) x.(p_perslab) x.(p_slots) x.(p_sl_total) x.(p_sl_curr) v x.(p_end_page_free) x.(p_slabs) x.(p_slab_list) x.(p_list_size) x.(p_requested).
Definition set_p_end_page_free (v : Z) (x : slabclass_t) : slabclass_t :=
  mk_slabclass x.(p_size) x.(p_perslab) x.(p_slots) x.(p_sl_total) x.(p_sl_curr) x.(p_end_page_ptr) v x.(p_slabs) x.(p_slab_list) x.(p_list_size) x.(p_requested).
Definition set_p_slabs (v : Z) (x : slabclass_t) : slabclass_t :=
  mk_slabclass x.(p_size) x.(p_perslab) x.(p_slots) x.(p_sl_total) x.(p_sl_curr) x.(p_end_page_ptr) x.(p_end_page_free) v x.(p_slab_list) x.(p_list_size) x.(p_requested).
Definition set_p_slab_list (v : list Z) (x : slabclass_t) : slabclass_t :=
  mk_slabclass x.(p_size) x.(p_perslab) x.(p_slots) x.(p_sl_total) x.(p_sl_curr) x.(p_end_page_ptr) x.(p_end_page_free) x.(p_slabs) v x.(p_list_size) x.(p_requested).
Definition set_p_list_size (v : Z) (x : slabclass_t) : slabclass_t :=
  mk_slabclass x.(p_size) x.(p_perslab) x.(p_slots) x.(p_sl_total) x.(p_sl_curr) x.(p_end_page_ptr) x.(p_end_page_free) x.(p_slabs) x.(p_slab_list) v x.(p_requested).
Definition set_p_requested (v : Z) (x : slabclass_t) : slabclass_t :=
  mk_slabclass x.(p_size) x.(p_perslab) x.(p_slots) x.(p_sl_total) x.(p_sl_curr) x.(p_end_page_ptr) x.(p_end_page_free) x.(p_slabs) x.(p_slab_list) x.(p_list_size) v.

(** [struct slabs] ([slabs.h]). *)
Record slabs := mk_slabs {
  s_slabclass : list slabclass_t;
  s_mem_limit : Z;
  s_mem_malloced : Z;
  s_power_largest : Z;
  s_mem_base : Z;
  s_mem_current : Z;
  s_mem_avail : Z;
  s_allocs_ptrs : list Z;
  s_allocs_next : Z;
  s_allocs_size : Z
}.

Definition set_s_slabclass (v : list slabclass_t) (x : slabs) : slabs :=
  mk_slabs v x.(s_mem_limit) x.(s_mem_malloced) x.(s_power_largest) x.(s_mem_base) x.(s_mem_current) x.(s_mem_avail) x.(s_allocs_ptrs) x.(s_allocs_next) x.(s_allocs_size).
Definition set_s_mem_limit (v : Z) (x : slabs) : slabs :=
  mk_slabs x.(s_slabclass) v x.(s_mem_malloced) x.(s_power_largest) x.(s_mem_base) x.(s_mem_current) x.(s_mem_avail) x.(s_allocs_ptrs) x.(s_allocs_next) x.(s_allocs_size).
Definition set_s_mem_malloced (v : Z) (x : slabs) : slabs :=
  mk_slabs x.(s_slabclass) x.(s_mem_limit) v x.(s_power_largest) x.(s_mem_base) x.(s_mem_current) x.(s_mem_avail) x.(s_allocs_ptrs) x.(s_allocs_next) x.(s_allocs_size).
Definition set_s_power_largest (v : Z) (x : slabs) : slabs :=
  mk_slabs x.(s_slabclass) x.(s_mem_limit) x.(s_mem_malloced) v x.(s_mem_base) x.(s_mem_current) x.(s_mem_avail) x.(s_allocs_ptrs) x.(s_allocs_next) x.(s_allocs_size).
Definition set_s_mem_base (v : Z) (x : slabs) : slabs :=
  mk_slabs x.(s_slabclass) x.(s_mem_limit) x.(s_mem_malloced) x.(s_power_largest) v x.(s_mem_current) x.(s_mem_avail) x.(s_allocs_ptrs) x.(s_allocs_next) x.(s_allocs_size).
Definition set_s_mem_current (v : Z) (x : slabs) : slabs :=
  mk_slabs x.(s_slabclass) x.(s_mem_limit) x.(s_mem_malloced) x.(s_power_largest) x.(s_mem_base) v x.(s_mem_avail) x.(s_allocs_ptrs) x.(s_allocs_next) x.(s_allocs_size).
Definition set_s_mem_avail (v : Z) (x : slabs) : slabs :=
  mk_slabs x.(s_slabclass) x.(s_mem_limit) x.(s_mem_malloced) x.(s_power_largest) x.(s_mem_base) x.(s_mem_current) v x.(s_allocs_ptrs) x.(s_allocs_next) x.(s_allocs_size).
Definition set_s_allocs_ptrs (v : list Z) (x : slabs) : slabs :=
  mk_slabs x.(s_slabclass) x.(s_mem_limit) x.(s_mem_malloced) x.(s_power_largest) x.(s_mem_base) x.(s_mem_current) x.(s_mem_avail) v x.(s_allocs_next) x.(s_allocs_size).
Definition set_s_allocs_next (v : Z) (x : slabs) : slabs :=
  mk_slabs x.(s_slabclass) x.(s_mem_limit) x.(s_mem_malloced) x.(s_power_largest) x.(s_mem_base) x.(s_mem_current) x.(s_mem_avail) x.(s_allocs_ptrs) v x.(s_allocs_size).
Definition set_s_allocs_size (v : Z) (x : slabs) : slabs :=
  mk_slabs x.(s_slabclass) x.(s_mem_limit) x.(s_mem_malloced) x.(s_power_largest) x.(s_mem_base) x.(s_mem_current) x.(s_mem_avail) x.(s_allocs_ptrs) x.(s_allocs_next) v.

(** [itemstats_t] ([items.h]). *)
Record itemstats_t := mk_itemstats {
  is_evicted : Z;
  is_evicted_nonzero : Z;
  is_evicted_time : Z;
  is_outofmemory : Z;
  is_tailrepairs : Z;
  is_reclaimed : Z
}.

Definition set_is_evicted (v : Z) (x : itemstats_t) : itemstats_t :=
  mk_itemstats v x.(is_evicted_nonzero) x.(is_evicted_time) x.(is_outofmemory) x.(is_tailrepairs) x.(is_reclaimed).
Definition set_is_evicted_nonzero (v : Z) (x : itemstats_t) : itemstats_t :=
  mk_itemstats x.(is_evicted) v x.(is_evicted_time) x.(is_outofmemory) x.(is_tailrepairs) x.(is_reclaimed).
Definition set_is_evicted_time (v : Z) (x : itemstats_t) : itemstats_t :=
  mk_itemstats x.(is_evicted) x.(is_evicted_nonzero) v x.(is_outofmemory) x.(is_tailrepairs) x.(is_reclaimed).
Definition set_is_outofmemory (v : Z) (x : itemstats_t) : itemstats_t :=
  mk_itemstats x.(is_evicted) x.(is_evicted_nonzero) x.(is_evicted_time) v x.(is_tailrepairs) x.(is_reclaimed).
Definition set_is_tailrepairs (v : Z) (x : itemstats_t) : itemstats_t :=
  mk_itemstats x.(is_evicted) x.(is_evicted_nonzero) x.(is_evicted_time) x.(is_outofmemory) v x.(is_reclaimed).
Definition set_is_reclaimed (v : Z) (x : itemstats_t) : itemstats_t :=
  mk_itemstats x.(is_evicted) x.(is_evicted_nonzero) x.(is_evicted_time) x.(is_outofmemory) x.(is_tailrepairs) v.

(** [struct items] ([items.h]): one LRU queue for each slab class. *)
Record items := mk_items {
  q_heads : list Z;
  q_tails : list Z;
  q_itemstats : list itemstats_t;
  q_sizes : list Z
}.

Definition set_q_heads (v : list Z) (x : items) : items :=
  mk_items v x.(q_tails) x.(q_itemstats) x.(q_sizes).
Definition set_q_tails (v : list Z) (x : items) : items :=
  mk_items x.(q_heads) v x.(q_itemstats) x.(q_sizes).
Definition set_q_itemstats (v : list itemstats_t) (x : items) : items :=
  mk_items x.(q_heads) x.(q_tails) v x.(q_sizes).
Definition set_q_sizes (v : list Z) (x : items) : items :=
  mk_items x.(q_heads) x.(q_tails) x.(q_itemstats) v.

(** [struct config] ([default_engine.h]). *)
Record config := mk_config {
  c_use_cas : bool;
  c_verbose : Z;
  c_oldest_live : Z;
  c_evict_to_free : bool;
  c_maxbytes : Z;
  c_preallocate : bool;
  c_factor : spec_float;
  c_chunk_size : Z;
  c_item_size_max : Z;
  c_ignore_vbucket : bool;
  c_vb0 : bool;
  c_uuid : option (list Z)
}.

Definition set_c_use_cas (v : bool) (x : config) : config :=
  mk_config v x.(c_verbose) x.(c_oldest_live) x.(c_evict_to_free) x.(c_maxbytes) x.(c_preallocate) x.(c_factor) x.(c_chunk_size) x.(c_item_size_max) x.(c_ignore_vbucket) x.(c_vb0) x.(c_uuid).
Definition set_c_verbose (v : Z) (x : config) : config :=
  mk_config x.(c_use_cas) v x.(c_oldest_live) x.(c_evict_to_free) x.(c_maxbytes) x.(c_preallocate) x.(c_factor) x.(c_chunk_size) x.(c_item_size_max) x.(c_ignore_vbucket) x.(c_vb0) x.(c_uuid).
Definition set_c_oldest_live (v : Z) (x : config) : config :=
  mk_config x.(c_use_cas) x.(c_verbose) v x.(c_evict_to_free) x.(c_maxbytes) x.(c_preallocate) x.(c_factor) x.(c_chunk_size) x.(c_item_size_max) x.(c_ignore_vbucket) x.(c_vb0) x.(c_uuid).
Definition set_c_evict_to_free (v : bool) (x : config) : config :=
  mk_config x.(c_use_cas) x.(c_verbose) x.(c_oldest_live) v x.(c_maxbytes) x.(c_preallocate) x.(c_factor) x.(c_chunk_size) x.(c_item_size_max) x.(c_ignore_vbucket) x.(c_vb0) x.(c_uuid).
Definition set_c_maxbytes (v : Z) (x : config) : config :=
  mk_config x.(c_use_cas) x.(c_verbose) x.(c_oldest_live) x.(c_evict_to_free) v x.(c_preallocate) x.(c_factor) x.(c_chunk_size) x.(c_item_size_max) x.(c_ignore_vbucket) x.(c_vb0) x.(c_uuid).
Definition set_c_preallocate (v : bool) (x : config) : config :=
  mk_config x.(c_use_cas) x.(c_verbose) x.(c_oldest_live) x.(c_evict_to_free) x.(c_maxbytes) v x.(c_factor) x.(c_chunk_size) x.(c_item_size_max) x.(c_ignore_vbucket) x.(c_vb0) x.(c_uuid).
Definition set_c_factor (v : spec_float) (x : config) : config :=
  mk_config x.(c_use_cas) x.(c_verbose) x.(c_oldest_live) x.(c_evict_to_free) x.(c_maxbytes) x.(c_preallocate) v x.(c_chunk_size) x.(c_item_size_max) x.(c_ignore_vbucket) x.(c_vb0) x.(c_uuid).
Definition set_c_chunk_size (v : Z) (x : config) : config :=
  mk_config x.(c_use_cas) x.(c_verbose) x.(c_oldest_live) x.(c_evict_to_free) x.(c_maxbytes) x.(c_preallocate) x.(c_factor) v x.(c_item_size_max) x.(c_ignore_vbucket) x.(c_vb0) x.(c_uuid).
Definition set_c_item_size_max (v : Z) (x : config) : config :=
  mk_config x.(c_use_cas) x.(c_verbose) x.(c_oldest_live) x.(c_evict_to_free) x.(c_maxbytes) x.(c_preallocate) x.(c_factor) x.(c_chunk_size) v x.(c_ignore_vbucket) x.(c_vb0) x.(c_uuid).
Definition set_c_ignore_vbucket (v : bool) (x : config) : config :=
  mk_config x.(c_use_cas) x.(c_verbose) x.(c_oldest_live) x.(c_evict_to_free) x.(c_maxbytes) x.(c_preallocate) x.(c_factor) x.(c_chunk_size) x.(c_item_size_max) v x.(c_vb0) x.(c_uuid).
Definition set_c_vb0 (v : bool) (x : config) : config :=
  mk_config x.(c_use_cas) x.(c_verbose) x.(c_oldest_live) x.(c_evict_to_free) x.(c_maxbytes) x.(c_preallocate) x.(c_factor) x.(c_chunk_size) x.(c_item_size_max) x.(c_ignore_vbucket) v x.(c_uuid).
Definition set_c_uuid (v : option (list Z)) (x : config) : config :=
  mk_config x.(c_use_cas) x.(c_verbose) x.(c_oldest_live) x.(c_evict_to_free) x.(c_maxbytes) x.(c_preallocate) x.(c_factor) x.(c_chunk_size) x.(c_item_size_max) x.(c_ignore_vbucket) x.(c_vb0) v.

(** [struct engine_stats] ([default_engine.h]). *)
Record engine_stats := mk_stats {
  st_evictions : Z;
  st_reclaimed : Z;
  st_curr_bytes : Z;
  st_curr_items : Z;
  st_total_items : Z
}.

Definition set_st_evictions (v : Z) (x : engine_stats) : engine_stats :=
  mk_stats v x.(st_reclaimed) x.(st_curr_bytes) x.(st_curr_items) x.(st_total_items).
Definition set_st_reclaimed (v : Z) (x : engine_stats) : engine_stats :=
  mk_stats x.(st_evictions) v x.(st_curr_bytes) x.(st_curr_items) x.(st_total_items).
Definition set_st_curr_bytes (v : Z) (x : engine_stats) : engine_stats :=
  mk_stats x.(st_evictions) x.(st_reclaimed) v x.(st_curr_items) x.(st_total_items).
Definition set_st_curr_items (v : Z) (x : engine_stats) : engine_stats :=
  mk_stats x.(st_evictions) x.(st_reclaimed) x.(st_curr_bytes) v x.(st_total_items).
Definition set_st_total_items (v : Z) (x : engine_stats) : engine_stats :=
  mk_stats x.(st_evictions) x.(st_reclaimed) x.(st_curr_bytes) x.(st_curr_items) v.

(** [struct engine_scrubber] ([default_engine.h]). *)
Record engine_scrubber := mk_scrubber {
  sc_running : bool;
  sc_visited : Z;
  sc_cleaned : Z;
  sc_started : Z;
  sc_stopped : Z
}.

Definition set_sc_running (v : bool) (x : engine_scrubber) : engine_scrubber :=
  mk_scrubber v x.(sc_visited) x.(sc_cleaned) x.(sc_started) x.(sc_stopped).
Definition set_sc_visited (v : Z) (x : engine_scrubber) : engine_scrubber :=
  mk_scrubber x.(sc_running) v x.(sc_cleaned) x.(sc_started) x.(sc_stopped).
Definition set_sc_cleaned (v : Z) (x : engine_scrubber) : engine_scrubber :=
  mk_scrubber x.(sc_running) x.(sc_visited) v x.(sc_started) x.(sc_stopped).
Definition set_sc_started (v : Z) (x : engine_scrubber) : engine_scrubber :=
  mk_scrubber x.(sc_running) x.(sc_visited) x.(sc_cleaned) v x.(sc_stopped).
Definition set_sc_stopped (v : Z) (x : engine_scrubber) : engine_scrubber :=
  mk_scrubber x.(sc_running) x.(sc_visited) x.(sc_cleaned) x.(sc_started) v.

(** [struct default_engine] ([default_engine.h]). [e_heap] holds the chunks,
    [e_cas_id] is the static counter of [get_cas_id], [e_now] what
    [get_current_time] returns, [e_calls] counts the calls of the system
    allocator and [e_spawns] those of [cb_create_thread]. *)
Record engine := mk_engine {
  e_initialized : bool;
  e_heap : gmap Z hash_item;
  e_assoc : assoc;
  e_slabs : slabs;
  e_items : items;
  e_config : config;
  e_stats : engine_stats;
  e_scrubber : engine_scrubber;
  e_tap_clients : list Z;
  e_vbucket_infos : list Z;
  e_cas_id : Z;
  e_now : Z;
  e_calls : nat;
  e_spawns : nat
}.

Definition set_e_initialized (v : bool) (x : engine) : engine :=
  mk_engine v x.(e_heap) x.(e_assoc) x.(e_slabs) x.(e_items) x.(e_config) x.(e_stats) x.(e_scrubber) x.(e_tap_clients) x.(e_vbucket_infos) x.(e_cas_id) x.(e_now) x.(e_calls) x.(e_spawns).
Definition set_e_heap (v : gmap Z hash_item) (x : engine) : engine :=
  mk_engine x.(e_initialized) v x.(e_assoc) x.(e_slabs) x.(e_items) x.(e_config) x.(e_stats) x.(e_scrubber) x.(e_tap_clients) x.(e_vbucket_infos) x.(e_cas_id) x.(e_now) x.(e_calls) x.(e_spawns).
Definition set_e_assoc (v : assoc) (x : engine) : engine :=
  mk_engine x.(e_initialized) x.(e_heap) v x.(e_slabs) x.(e_items) x.(e_config) x.(e_stats) x.(e_scrubber) x.(e_tap_clients) x.(e_vbucket_infos) x.(e_cas_id) x.(e_now) x.(e_calls) x.(e_spawns).
Definition set_e_slabs (v : slabs) (x : engine) : engine :=
  mk_engine x.(e_initialized) x.(e_heap) x.(e_assoc) v x.(e_items) x.(e_config) x.(e_stats) x.(e_scrubber) x.(e_tap_clients) x.(e_vbucket_infos) x.(e_cas_id) x.(e_now) x.(e_calls) x.(e_spawns).
Definition set_e_items (v : items) (x : engine) : engine :=
  mk_engine x.(e_initialized) x.(e_heap) x.(e_assoc) x.(e_slabs) v x.(e_config) x.(e_stats) x.(e_scrubber) x.(e_tap_clients) x.(e_vbucket_infos) x.(e_cas_id) x.(e_now) x.(e_calls) x.(e_spawns).
Definition set_e_config (v : config) (x : engine) : engine :=
  mk_engine x.(e_initialized) x.(e_heap) x.(e_assoc) x.(e_slabs) x.(e_items) v x.(e_stats) x.(e_scrubber) x.(e_tap_clients) x.(e_vbucket_infos) x.(e_cas_id) x.(e_now) x.(e_calls) x.(e_spawns).
Definition set_e_stats (v : engine_stats) (x : engine) : engine :=
  mk_engine x.(e_initialized) x.(e_heap) x.(e_assoc) x.(e_slabs) x.(e_items) x.(e_config) v x.(e_scrubber) x.(e_tap_clients) x.(e_vbucket_infos) x.(e_cas_id) x.(e_now) x.(e_calls) x.(e_spawns).
Definition set_e_scrubber (v : engine_scrubber) (x : engine) : engine :=
  mk_engine x.(e_initialized) x.(e_heap) x.(e_assoc) x.(e_slabs) x.(e_items) x.(e_config) x.(e_stats) v x.(e_tap_clients) x.(e_vbucket_infos) x.(e_cas_id) x.(e_now) x.(e_calls) x.(e_spawns).
Definition set_e_tap_clients (v : list Z) (x : engine) : engine :=
  mk_engine x.(e_initialized) x.(e_heap) x.(e_assoc) x.(e_slabs) x.(e_items) x.(e_config) x.(e_stats) x.(e_scrubber) v x.(e_vbucket_infos) x.(e_cas_id) x.(e_now) x.(e_calls) x.(e_spawns).
Definition set_e_vbucket_infos (v : list Z) (x : engine) : engine :=
  mk_engine x.(e_initialized) x.(e_heap) x.(e_assoc) x.(e_slabs) x.(e_items) x.(e_config) x.(e_stats) x.(e_scrubber) x.(e_tap_clients) v x.(e_cas_id) x.(e_now) x.(e_calls) x.(e_spawns).
Definition set_e_cas_id (v : Z) (x : engine) : engine :=
  mk_engine x.(e_initialized) x.(e_heap) x.(e_assoc) x.(e_slabs) x.(e_items) x.(e_config) x.(e_stats) x.(e_scrubber) x.(e_tap_clients) x.(e_vbucket_infos) v x.(e_now) x.(e_calls) x.(e_spawns).
Definition set_e_now (v : Z) (x : engine) : engine :=
  mk_engine x.(e_initialized) x.(e_heap) x.(e_assoc) x.(e_slabs) x.(e_items) x.(e_config) x.(e_stats) x.(e_scrubber) x.(e_tap_clients) x.(e_vbucket_infos) x.(e_cas_id) v x.(e_calls) x.(e_spawns).
Definition set_e_calls (v : nat) (x : engine) : engine :=
  mk_engine x.(e_initialized) x.(e_heap) x.(e_assoc) x.(e_slabs) x.(e_items) x.(e_config) x.(e_stats) x.(e_scrubber) x.(e_tap_clients) x.(e_vbucket_infos) x.(e_cas_id) x.(e_now) v x.(e_spawns).
Definition set_e_spawns (v : nat) (x : engine) : engine :=
  mk_engine x.(e_initialized) x.(e_heap) x.(e_assoc) x.(e_slabs) x.(e_items) x.(e_config) x.(e_stats) x.(e_scrubber) x.(e_tap_clients) x.(e_vbucket_infos) x.(e_cas_id) x.(e_now) x.(e_calls) v.

(** The services the engine calls: the hash function and the conversion of
    expiry times of the server API, the system allocator ([sys_malloc n size] is
    the address the allocation call number [n] returns if it is a [malloc] of
    [size] bytes, 0 when it fails; [sys_realloc] and [sys_calloc] tell whether a
    [realloc] or a [calloc] succeeds) and the result of the [n]-th call of
    [cb_create_thread] (0 for success). *)
Class Env := {
  hash : list Z -> Z;
  realtime : Z -> Z -> Z;
  sys_malloc : nat -> Z -> Z;
  sys_realloc : nat -> Z -> bool;
  sys_calloc : nat -> Z -> bool;
  create_thread : nat -> Z
}.

(** What the engine relies on: [hash] returns a [uint32_t], and two areas that
    [malloc] returned do not overlap (the engine keeps all of them until it is
    destroyed). *)
Class EnvOk `{Env} : Prop := {
  hash_u32 : forall k, 0 <= hash k < 2 ^ 32;
  malloc_addr : forall n s, 0 <= sys_malloc n s;
  malloc_disjoint : forall n n' s s', n <> n' ->
    sys_malloc n s <> NULL -> sys_malloc n' s' <> NULL ->
    sys_malloc n s + s <= sys_malloc n' s' \/ sys_malloc n' s' + s' <= sys_malloc n s
}.

(** Constants of [default_engine.h] and [items.c]. *)
Definition POWER_SMALLEST : Z := 1.
Definition POWER_LARGEST : Z := 200.
Definition CHUNK_ALIGN_BYTES : Z := 8.
Definition MAX_NUMBER_OF_SLAB_CLASSES : Z := POWER_LARGEST + 1.
Definition TAIL_REPAIR_TIME : Z := 3 * 3600.
Definition ITEM_WITH_CAS : Z := 1.
Definition ITEM_LINKED : Z := Z.shiftl 1 8.
Definition ITEM_SLABBED : Z := Z.shiftl 2 8.
Definition NUM_VBUCKETS : Z := 65536.

(** [sizeof(hash_item)] on a 64-bit platform: three pointers, four 32-bit, three
    16-bit and two 8-bit integers. *)
Definition sizeof_hash_item : Z := 48.

(** [ENGINE_ERROR_CODE] and [ENGINE_STORE_OPERATION] ([types.h]). *)
Inductive ENGINE_ERROR_CODE :=
| ENGINE_SUCCESS | ENGINE_KEY_ENOENT | ENGINE_KEY_EEXISTS | ENGINE_ENOMEM
| ENGINE_NOT_STORED | ENGINE_EINVAL | ENGINE_ENOTSUP | ENGINE_EWOULDBLOCK
| ENGINE_E2BIG | ENGINE_WANT_MORE | ENGINE_DISCONNECT | ENGINE_EACCESS
| ENGINE_NOT_MY_VBUCKET | ENGINE_TMPFAIL | ENGINE_ERANGE | ENGINE_ROLLBACK
| ENGINE_FAILED.

Inductive ENGINE_STORE_OPERATION :=
| OPERATION_ADD | OPERATION_SET | OPERATION_REPLACE | OPERATION_APPEND
| OPERATION_PREPEND | OPERATION_CAS.

#[global] Instance ENGINE_ERROR_CODE_eq_dec : EqDecision ENGINE_ERROR_CODE.
Proof. solve_decision. Defined.

#[global] Instance ENGINE_STORE_OPERATION_eq_dec : EqDecision ENGINE_STORE_OPERATION.
Proof. solve_decision. Defined.

Abbreviation E := (M engine).

(** A name and a value, as they are passed to the callback of the server. *)
Abbreviation stat := (prod (list Z) (list Z)).

(** * Memory *)

(** Reading and writing the item a pointer points to. *)
Definition load (p : Z) : E hash_item :=
  fun e => match e.(e_heap) !! p with Some it => Some (it, e) | None => None end.

Definition upd_heap (f : gmap Z hash_item -> gmap Z hash_item) (e : engine) : engine :=
  set_e_heap (f e.(e_heap)) e.

Definition store (p : Z) (f : hash_item -> hash_item) : E unit :=
  fun e => match e.(e_heap) !! p with
           | Some it => Some (tt, upd_heap (insert p (f it)) e)
           | None => None
           end.

(** Calls of the system allocator. *)
Definition do_malloc `{Env} (size : Z) : E Z :=
  fun e => Some (sys_malloc e.(e_calls) size, set_e_calls (S e.(e_calls)) e).

Definition do_realloc `{Env} (size : Z) : E bool :=
  fun e => Some (sys_realloc e.(e_calls) size, set_e_calls (S e.(e_calls)) e).

Definition do_calloc `{Env} (size : Z) : E bool :=
  fun e => Some (sys_calloc e.(e_calls) size, set_e_calls (S e.(e_calls)) e).

Definition do_create_thread `{Env} : E Z :=
  fun e => Some (create_thread e.(e_spawns), set_e_spawns (S e.(e_spawns)) e).

Definition upd_assoc (f : assoc -> assoc) : E unit :=
  modify (fun e => set_e_assoc (f e.(e_assoc)) e).

Definition upd_slabs (f : slabs -> slabs) : E unit :=
  modify (fun e => set_e_slabs (f e.(e_slabs)) e).

Definition upd_items (f : items -> items) : E unit :=
  modify (fun e => set_e_items (f e.(e_items)) e).

Definition upd_stats (f : engine_stats -> engine_stats) : E unit :=
  modify (fun e => set_e_stats (f e.(e_stats)) e).

(** [memcpy(dst + off, src, n)] into the bytes [dst], where [src] has [n]
    bytes: it ends the process when it writes outside [dst]. *)
Definition splice (dst : list Z) (off : Z) (src : list Z) : option (list Z) :=
  if (0 <=? off) && (off + Z.of_nat (length src) <=? Z.of_nat (length dst))
  then Some (take (Z.to_nat off) dst ++ src
               ++ drop (Z.to_nat off + length src) dst)
  else None.

(** * Fields of an item ([default_engine.c]) *)

Definition has_flag (it : hash_item) (f : Z) : bool :=
  negb (Z.land it.(it_iflag) f =? 0).

Definition item_get_cas (it : hash_item) : Z :=
  if has_flag it ITEM_WITH_CAS then it.(it_cas) else 0.

Definition item_set_cas (p val : Z) : E unit :=
  store p (fun it => if has_flag it ITEM_WITH_CAS then set_it_cas val it else it).

(** The [nkey] bytes at [item_get_key(it)], and the [n] bytes at
    [item_get_data(it)]. *)
Definition item_get_key (it : hash_item) : list Z :=
  take (Z.to_nat it.(it_nkey)) it.(it_body).

Definition item_get_data (it : hash_item) (n : Z) : list Z :=
  take (Z.to_nat n) (drop (Z.to_nat it.(it_nkey)) it.(it_body)).

(** [memcpy(item_get_key(it), src, n)] and
    [memcpy(item_get_data(it) + off, src, n)]. *)
Definition write_key (p : Z) (src : list Z) : E unit :=
  it ← load p;
  b ← of_option (splice it.(it_body) 0 src);
  store p (set_it_body b).

Definition write_data (p off : Z) (src : list Z) : E unit :=
  it ← load p;
  b ← of_option (splice it.(it_body) (it.(it_nkey) + off) src);
  store p (set_it_body b).

(** ** Symbolic execution *)

Lemma runs_load p it e (Q : hash_item -> engine -> Prop) :
  e.(e_heap) !! p = Some it -> Q it e -> runs (load p) e Q.
Proof. intros Hp HQ. exists it, e. unfold load. rewrite Hp. auto. Qed.

Lemma runs_store p it f e (Q : unit -> engine -> Prop) :
  e.(e_heap) !! p = Some it -> Q tt (upd_heap (insert p (f it)) e) ->
  runs (store p f) e Q.
Proof. intros Hp HQ. eexists tt, _. unfold store. rewrite Hp. auto. Qed.

Lemma runs_malloc `{Env} n e (Q : Z -> engine -> Prop) :
  Q (sys_malloc e.(e_calls) n) (set_e_calls (S e.(e_calls)) e) ->
  runs (do_malloc n) e Q.
Proof. intros HQ. by eexists _, _. Qed.

Lemma runs_realloc `{Env} n e (Q : bool -> engine -> Prop) :
  Q (sys_realloc e.(e_calls) n) (set_e_calls (S e.(e_calls)) e) ->
  runs (do_realloc n) e Q.
Proof. intros HQ. by eexists _, _. Qed.

Lemma runs_calloc `{Env} n e (Q : bool -> engine -> Prop) :
  Q (sys_calloc e.(e_calls) n) (set_e_calls (S e.(e_calls)) e) ->
  runs (do_calloc n) e Q.
Proof. intros HQ. by eexists _, _. Qed.

Lemma runs_create_thread `{Env} e (Q : Z -> engine -> Prop) :
  Q (create_thread e.(e_spawns)) (set_e_spawns (S e.(e_spawns)) e) ->
  runs do_create_thread e Q.
Proof. intros HQ. by eexists _, _. Qed.

Lemma runs_upd_assoc f e (Q : unit -> engine -> Prop) :
  Q tt (set_e_assoc (f e.(e_assoc)) e) -> runs (upd_assoc f) e Q.
Proof. intros HQ. by eexists _, _. Qed.

Lemma runs_upd_slabs f e (Q : unit -> engine -> Prop) :
  Q tt (set_e_slabs (f e.(e_slabs)) e) -> runs (upd_slabs f) e Q.
Proof. intros HQ. by eexists _, _. Qed.

Lemma runs_upd_items f e (Q : unit -> engine -> Prop) :
  Q tt (set_e_items (f e.(e_items)) e) -> runs (upd_items f) e Q.
Proof. intros HQ. by eexists _, _. Qed.

Lemma runs_upd_stats f e (Q : unit -> engine -> Prop) :
  Q tt (set_e_stats (f e.(e_stats)) e) -> runs (upd_stats f) e Q.
Proof. intros HQ. by eexists _, _. Qed.

Ltac run_hook ::=
  lazymatch goal with
  | |- runs (do_malloc _) _ _ => apply runs_malloc
  | |- runs (do_realloc _) _ _ => apply runs_realloc
  | |- runs (do_calloc _) _ _ => apply runs_calloc
  | |- runs do_create_thread _ _ => apply runs_create_thread
  | |- runs (upd_slabs _) _ _ => apply runs_upd_slabs
  | |- runs (upd_items _) _ _ => apply runs_upd_items
  | |- runs (upd_stats _) _ _ => apply runs_upd_stats
  | |- runs (upd_assoc _) _ _ => apply runs_upd_assoc
  end.

(** ** A concrete configuration

    A small engine for examples: [hash] is the big-endian value of the key, the
    allocator returns fresh 1 MB areas and threads can be created. *)
#[local] Instance demo_env : Env := {
  hash k := u32 (be_val k);
  realtime now t := if t =? 0 then 0 else now + t;
  sys_malloc n size := if size <=? 1048576 then 1048576 * (Z.of_nat n + 1) else 0;
  sys_realloc n size := true;
  sys_calloc n size := true;
  create_thread n := 0
}.

#[local] Instance demo_env_ok : EnvOk.
Proof.
  constructor.
  - intros k. apply wrap_fits. lia.
  - intros n s. simpl. destruct (s <=? 1048576); lia.
  - intros n n' s s' Hn. simpl.
    destruct (Z.leb_spec s 1048576), (Z.leb_spec s' 1048576); unfold NULL; lia.
Qed.

Definition no_itemstats : itemstats_t := mk_itemstats 0 0 0 0 0 0.
Definition no_slabclass : slabclass_t := mk_slabclass 0 0 [] 0 0 0 0 0 [] 0 0.

(** What [calloc] leaves in a [struct default_engine]. *)
Definition blank_engine : engine :=
  mk_engine false ∅ (mk_assoc 0 [] [] 0 false 0)
    (mk_slabs (replicate 201 no_slabclass) 0 0 0 0 0 0 [] 0 0)
    (mk_items (replicate 200 NULL) (replicate 200 NULL) (replicate 200 no_itemstats)
       (replicate 200 0))
    (mk_config false 0 0 false 0 false (S754_zero false) 0 0 false false None)
    (mk_stats 0 0 0 0 0) (mk_scrubber false 0 0 0 0) [] (replicate (Z.to_nat NUM_VBUCKETS) 0)
    0 0 0 0.

(** A chunk of [n] bytes after the header and the CAS, all zero. *)
Definition zero_item (n : Z) : hash_item :=
  mk_item 0 0 0 0 0 0 0 0 0 0 0 0 0 (replicate (Z.to_nat n) 0).
