(* ===== verification/Assoc.v ===== *)
(** * The hash table of the default engine ([assoc.c])

    The table of chains through [h_next], its incremental expansion and the
    maintenance thread that moves one bucket of the old table at a time, and the
    proof that the table is a finite index of the linked items by key whatever
    the progress of an expansion. *)
From Stdlib Require Import ZArith Lia.
From stdpp Require Import strings gmap prelude.
From S2P Require Import Prelude EngineState.

#[local] Set Warnings "-clear-no-such-hyp".

Definition hashsize (n : Z) : Z := u32 (Z.shiftl 1 n).
Definition hashmask (n : Z) : Z := u32 (hashsize n - 1).

Inductive table := Primary | Old.

#[global] Instance table_eq_dec : EqDecision table.
Proof. solve_decision. Defined.

Definition get_table (a : assoc) (t : table) : list Z :=
  match t with Primary => a.(a_primary_hashtable) | Old => a.(a_old_hashtable) end.

Definition set_table (t : table) (l : list Z) (a : assoc) : assoc :=
  match t with
  | Primary => set_a_primary_hashtable l a
  | Old => set_a_old_hashtable l a
  end.

(** The bucket a hash value selects: the test every operation starts with. *)
Definition bucket_ref (a : assoc) (hv : Z) : table * Z :=
  let oldbucket := Z.land hv (hashmask (a.(a_hashpower) - 1)) in
  if a.(a_expanding) && (a.(a_expand_bucket) <=? oldbucket)
  then (Old, oldbucket)
  else (Primary, Z.land hv (hashmask a.(a_hashpower))).

Definition read_bucket (s : table * Z) : E Z :=
  fun e => match zlookup (get_table e.(e_assoc) s.1) s.2 with
           | Some p => Some (p, e) | None => None end.

Definition write_bucket (s : table * Z) (p : Z) : E unit :=
  fun e => match zupdate (get_table e.(e_assoc) s.1) s.2 p with
           | Some l => Some (tt, set_e_assoc (set_table s.1 l e.(e_assoc)) e)
           | None => None end.

(** [table[i] = p] for the bucket [s], inside the table. *)
Definition upd_bucket (s : table * Z) (p : Z) (a : assoc) : assoc :=
  set_table s.1 (<[Z.to_nat s.2 := p]> (get_table a s.1)) a.

Section model.
Context `{Env}.

Definition calloc_table (n : Z) : list Z := replicate (Z.to_nat n) NULL.

Definition assoc_init : E ENGINE_ERROR_CODE :=
  a ← gets e_assoc;
  ok ← do_calloc (hashsize a.(a_hashpower) * 8);
  if negb ok
  then upd_assoc (set_a_primary_hashtable []);; mret ENGINE_ENOMEM
  else upd_assoc (set_a_primary_hashtable (calloc_table (hashsize a.(a_hashpower))));;
       mret ENGINE_SUCCESS.

(** [(nkey == it->nkey) && (memcmp(key, item_get_key(it), nkey) == 0)] *)
Definition key_matches (key : list Z) (it : hash_item) : bool :=
  (Z.of_nat (length key) =? it.(it_nkey)) && bool_decide (key = item_get_key it).

(** The loop of [assoc_find] down a chain. A chain without a cycle has at most
    one node for each chunk of the heap, which bounds the fuel. *)
Fixpoint find_loop (fuel : nat) (h : gmap Z hash_item) (it : Z) (key : list Z) : option Z :=
  match fuel with
  | O => None
  | S n =>
      if it =? NULL then Some NULL else
      x ← h !! it;
      if key_matches key x then Some it else find_loop n h x.(it_h_next) key
  end.

Definition chain_fuel (h : gmap Z hash_item) : nat := S (size h).

Definition assoc_find (hv : Z) (key : list Z) : E Z :=
  a ← gets e_assoc;
  it ← read_bucket (bucket_ref a hv);
  h ← gets e_heap;
  of_option (find_loop (chain_fuel h) h it key).

(** The address [_hashitem_before] returns: a bucket or the [h_next] of an
    item. *)
Inductive item_ref := InTable (s : table * Z) | InItem (p : Z).

Definition read_ref (r : item_ref) : E Z :=
  match r with
  | InTable s => read_bucket s
  | InItem p => it ← load p; mret it.(it_h_next)
  end.

Definition write_ref (r : item_ref) (q : Z) : E unit :=
  match r with
  | InTable s => write_bucket s q
  | InItem p => store p (set_it_h_next q)
  end.

Fixpoint before_loop (fuel : nat) (h : gmap Z hash_item) (pos : item_ref) (cur : Z)
    (key : list Z) : option item_ref :=
  match fuel with
  | O => None
  | S n =>
      if cur =? NULL then Some pos else
      x ← h !! cur;
      if key_matches key x then Some pos
      else before_loop n h (InItem cur) x.(it_h_next) key
  end.

Definition _hashitem_before (hv : Z) (key : list Z) : E item_ref :=
  a ← gets e_assoc;
  cur ← read_bucket (bucket_ref a hv);
  h ← gets e_heap;
  of_option (before_loop (chain_fuel h) h (InTable (bucket_ref a hv)) cur key).

(** A successful [cb_create_thread] leaves [expanding] set: the maintenance
    thread is running, and takes its steps with [assoc_move_bucket]. *)
Definition assoc_expand : E unit :=
  a ← gets e_assoc;
  upd_assoc (set_a_old_hashtable a.(a_primary_hashtable));;
  ok ← do_calloc (hashsize (a.(a_hashpower) + 1) * 8);
  if (ok : bool) then
    upd_assoc (fun a' =>
      set_a_expand_bucket 0 (set_a_expanding true
        (set_a_hashpower (a.(a_hashpower) + 1)
          (set_a_primary_hashtable (calloc_table (hashsize (a.(a_hashpower) + 1))) a'))));;
    ret ← do_create_thread;
    when (negb (ret =? 0))
      (upd_assoc (fun a' =>
         set_a_primary_hashtable a'.(a_old_hashtable)
           (set_a_expanding false (set_a_hashpower (a'.(a_hashpower) - 1) a'))))
  else
    upd_assoc (fun a' => set_a_primary_hashtable a'.(a_old_hashtable) a').

Definition assoc_insert (hv : Z) (it : Z) : E Z :=
  x ← load it;
  f ← assoc_find hv (item_get_key x);
  cassert (f =? NULL);;
  a ← gets e_assoc;
  let s := bucket_ref a hv in
  nxt ← read_bucket s;
  store it (set_it_h_next nxt);;
  write_bucket s it;;
  upd_assoc (fun a' => set_a_hash_items (u32 (a'.(a_hash_items) + 1)) a');;
  a' ← gets e_assoc;
  when (negb a'.(a_expanding)
        && (u32 (hashsize a'.(a_hashpower) * 3) / 2 <? a'.(a_hash_items)))
    assoc_expand;;
  mret 1.

Definition assoc_delete (hv : Z) (key : list Z) : E unit :=
  before ← _hashitem_before hv key;
  cur ← read_ref before;
  if negb (cur =? NULL) then
    upd_assoc (fun a => set_a_hash_items (u32 (a.(a_hash_items) - 1)) a);;
    x ← load cur;
    store cur (set_it_h_next NULL);;
    write_ref before x.(it_h_next)
  else crash.

(** The inner loop of [assoc_maintenance_thread]: pushes every item of the old
    chain on the chain of its bucket in the primary table. *)
Fixpoint move_chain (fuel : nat) (it : Z) : E unit :=
  match fuel with
  | O => crash
  | S n =>
      if it =? NULL then mret tt else
      x ← load it;
      a ← gets e_assoc;
      let s := (Primary, Z.land (hash (item_get_key x)) (hashmask a.(a_hashpower))) in
      hd ← read_bucket s;
      store it (set_it_h_next hd);;
      write_bucket s it;;
      move_chain n x.(it_h_next)
  end.

(** One round of the maintenance thread under the cache lock
    ([hash_bulk_move] is 1); the result is [done]. *)
Definition assoc_move_bucket : E bool :=
  a ← gets e_assoc;
  when a.(a_expanding)
    (let s := (Old, a.(a_expand_bucket)) in
     it ← read_bucket s;
     h ← gets e_heap;
     move_chain (chain_fuel h) it;;
     write_bucket s NULL;;
     upd_assoc (fun a' => set_a_expand_bucket (u32 (a'.(a_expand_bucket) + 1)) a');;
     a' ← gets e_assoc;
     when (a'.(a_expand_bucket) =? hashsize (a'.(a_hashpower) - 1))
       (upd_assoc (fun b => set_a_old_hashtable [] (set_a_expanding false b))));;
  a' ← gets e_assoc;
  mret (negb a'.(a_expanding)).

(** The whole thread: the old table has at most [2 ^ (hashpower - 1)] buckets
    left to move. *)
Fixpoint maintenance_loop (fuel : nat) : E unit :=
  match fuel with
  | O => crash
  | S n => done ← assoc_move_bucket; if (done : bool) then mret tt else maintenance_loop n
  end.

Definition assoc_maintenance_thread : E unit :=
  a ← gets e_assoc;
  maintenance_loop (S (length a.(a_old_hashtable))).

(** [assoc_destroy] waits for the maintenance thread, then frees the table. *)
Definition assoc_destroy : E unit :=
  assoc_maintenance_thread;;
  upd_assoc (set_a_primary_hashtable []).
End model.

(** * Chains *)

Definition hnexts (h : gmap Z hash_item) : gmap Z Z := it_h_next <$> h.

(** [l] is the list of the nodes reached from [p] through [h_next]. *)
Fixpoint chain (hn : gmap Z Z) (p : Z) (l : list Z) : Prop :=
  match l with
  | [] => p = NULL
  | x :: xs => p = x /\ x <> NULL /\ exists q, hn !! x = Some q /\ chain hn q xs
  end.

Lemma chain_unique hn p l l' : chain hn p l -> chain hn p l' -> l = l'.
Proof.
  revert p l'. induction l as [|x xs IH]; intros p [|y ys]; simpl.
  - done.
  - intros -> (<- & ? & _). congruence.
  - intros (-> & ? & _) ->. congruence.
  - intros (-> & _ & q & Hq & Hc) (<- & _ & q' & Hq' & Hc').
    f_equal. replace q' with q in Hc' by congruence. eauto.
Qed.

Lemma chain_app hn p l1 x l2 :
  chain hn p (l1 ++ x :: l2) ->
  x <> NULL /\ exists q, hn !! x = Some q /\ chain hn x (x :: l2) /\ chain hn q l2.
Proof.
  revert p. induction l1 as [|y l1 IH]; intros p; simpl.
  - intros (-> & Hx & q & Hq & Hc). split; [done|]. exists q. eauto 10.
  - intros (_ & _ & q & _ & Hc). eauto.
Qed.

Lemma chain_nodup hn p l : chain hn p l -> NoDup l.
Proof.
  revert p. induction l as [|x xs IH]; intros p; [constructor|].
  intros Hc. pose proof Hc as (-> & Hx & q & Hq & Hc').
  constructor; [|eauto].
  intros (l1 & l2 & ->)%list_elem_of_split.
  pose proof (chain_app _ _ _ _ _ Hc') as (_ & _ & _ & Hc2 & _).
  pose proof (chain_unique _ _ _ _ Hc Hc2) as [= Heq].
  apply (f_equal length) in Heq. rewrite length_app in Heq. simpl in Heq. lia.
Qed.

Lemma chain_insert_notin hn p l x q :
  x ∉ l -> chain hn p l -> chain (<[x := q]> hn) p l.
Proof.
  revert p. induction l as [|y ys IH]; intros p Hx; simpl; [auto|].
  rewrite not_elem_of_cons in Hx. destruct Hx as [Hxy Hx].
  intros (-> & Hy & q' & Hq' & Hc). split; [done|]. split; [done|].
  exists q'. rewrite lookup_insert_ne by congruence. auto.
Qed.

Lemma chain_dom hn p l x : chain hn p l -> x ∈ l -> is_Some (hn !! x) /\ x <> NULL.
Proof.
  intros Hc (l1 & l2 & ->)%list_elem_of_split.
  apply chain_app in Hc as (Hx & q & Hq & _). eauto.
Qed.

(** A chain visits each chunk of the heap at most once. *)
Lemma chain_fuel_enough h p l :
  chain (hnexts h) p l -> (length l < chain_fuel h)%nat.
Proof.
  intros Hc. unfold chain_fuel.
  assert (Hsub : (list_to_set l : gset Z) ⊆ dom h).
  { intros x Hx. rewrite elem_of_list_to_set in Hx.
    destruct (chain_dom _ _ _ _ Hc Hx) as [[q Hq] _].
    unfold hnexts in Hq. rewrite lookup_fmap in Hq.
    apply elem_of_dom. destruct (h !! x); [eauto|discriminate]. }
  apply subseteq_size in Hsub.
  rewrite size_list_to_set, size_dom in Hsub by (eapply chain_nodup; eauto). lia.
Qed.

(** Removing a node: its predecessor is given its successor. *)
Lemma chain_remove hn p l1 y x l2 q :
  chain hn p (l1 ++ y :: x :: l2) -> hn !! x = Some q ->
  forall z, chain (<[y := q]> (<[x := z]> hn)) p (l1 ++ y :: l2).
Proof.
  intros Hc Hq z. pose proof (chain_nodup _ _ _ Hc) as Hnd.
  revert p Hc Hnd. induction l1 as [|w l1 IH]; intros p; simpl.
  - intros (-> & Hy & q1 & Hq1 & -> & Hx & q2 & Hq2 & Hc) Hnd.
    rewrite !NoDup_cons, not_elem_of_cons in Hnd. destruct Hnd as ((Hyx & Hyl) & Hxl & _).
    replace q2 with q in Hc by congruence.
    split; [done|]. split; [done|]. exists q. rewrite lookup_insert_eq.
    split; [done|]. apply chain_insert_notin; [done|].
    apply chain_insert_notin; done.
  - intros (-> & Hw & q1 & Hq1 & Hc) Hnd.
    rewrite NoDup_cons in Hnd. destruct Hnd as [Hwl Hnd].
    rewrite elem_of_app, !elem_of_cons in Hwl.
    split; [done|]. split; [done|]. exists q1.
    rewrite !lookup_insert_ne by (intros ->; tauto). auto.
Qed.

(** * The representation invariant *)

(** What the table sees of an item besides [h_next]. *)
Definition kview (it : hash_item) : Z * list Z := (it.(it_nkey), item_get_key it).
Definition kviews (h : gmap Z hash_item) : gmap Z (Z * list Z) := kview <$> h.

Definition has_key (h : gmap Z hash_item) (p : Z) (k : list Z) : Prop :=
  kviews h !! p = Some (Z.of_nat (length k), k).

Lemma has_key_item h p k :
  has_key h p k <->
  exists it, h !! p = Some it /\ item_get_key it = k /\ it.(it_nkey) = Z.of_nat (length k).
Proof.
  unfold has_key, kviews. rewrite lookup_fmap. split.
  - destruct (h !! p) as [it|]; [|discriminate]. intros [= Hn Hk]. exists it. auto.
  - intros (it & -> & Hk & Hn). simpl. unfold kview. rewrite Hk, Hn. reflexivity.
Qed.

Lemma has_key_inj h p k k' : has_key h p k -> has_key h p k' -> k = k'.
Proof. unfold has_key. congruence. Qed.

(** [find_result h D k p]: [p] is the item of [D] that has the key [k], or
    [NULL] when there is none. *)
Definition find_result (h : gmap Z hash_item) (D : gset Z) (k : list Z) (p : Z) : Prop :=
  (p = NULL /\ forall q, q ∈ D -> ~ has_key h q k) \/ (p ∈ D /\ has_key h p k).

Section rep.
Context `{EnvOk}.

Definition live (a : assoc) (t : table) : Prop :=
  match t with Primary => True | Old => a.(a_expanding) = true end.

(** The table [a] over the heap [h] indexes exactly the items of [D]: [G] gives
    the items on the chain of each bucket, every item is on the chain that
    [bucket_ref] selects for its key, and keys are distinct. *)
Record assoc_repG (h : gmap Z hash_item) (a : assoc) (D : gset Z)
    (G : table * Z -> list Z) : Prop := {
  ar_power : 0 < a.(a_hashpower) < 32;
  ar_primary : Z.of_nat (length a.(a_primary_hashtable)) = 2 ^ a.(a_hashpower);
  ar_old : a.(a_expanding) = true ->
    Z.of_nat (length a.(a_old_hashtable)) = 2 ^ (a.(a_hashpower) - 1)
    /\ 0 <= a.(a_expand_bucket) < 2 ^ (a.(a_hashpower) - 1);
  ar_chain : forall s p, live a s.1 -> zlookup (get_table a s.1) s.2 = Some p ->
    chain (hnexts h) p (G s);
  ar_home : forall s p, p ∈ G s -> p ∈ D;
  ar_key : forall p, p ∈ D -> exists k, has_key h p k /\
    forall s, p ∈ G s <-> s = bucket_ref a (hash k);
  ar_uniq : forall p q k, p ∈ D -> q ∈ D -> has_key h p k -> has_key h q k -> p = q;
  ar_null : NULL ∉ D;
  ar_count : a.(a_hash_items) = u32 (Z.of_nat (size D))
}.

Definition assoc_rep h a D : Prop := exists G, assoc_repG h a D G.

(** ** Buckets *)

Lemma hashsize_pow n : 0 <= n < 32 -> hashsize n = 2 ^ n.
Proof.
  intros Hn. unfold hashsize. rewrite Z.shiftl_mul_pow2, Z.mul_1_l by lia.
  apply wrap_small. split; [apply Z.pow_nonneg; lia|apply Z.pow_lt_mono_r; lia].
Qed.

Lemma land_hashmask hv n : 0 <= n < 32 -> Z.land hv (hashmask n) = hv mod 2 ^ n.
Proof.
  intros Hn. unfold hashmask. rewrite hashsize_pow by lia.
  assert (0 < 2 ^ n < 2 ^ 32)
    by (split; [apply Z.pow_pos_nonneg|apply Z.pow_lt_mono_r]; lia).
  unfold u32. rewrite wrap_small by (unfold fits; lia).
  replace (2 ^ n - 1) with (Z.ones n) by (rewrite Z.ones_equiv; lia).
  apply Z.land_ones. lia.
Qed.

Definition bucket_mod (a : assoc) (hv : Z) : table * Z :=
  if a.(a_expanding) && (a.(a_expand_bucket) <=? hv mod 2 ^ (a.(a_hashpower) - 1))
  then (Old, hv mod 2 ^ (a.(a_hashpower) - 1))
  else (Primary, hv mod 2 ^ a.(a_hashpower)).

Lemma bucket_ref_mod a hv :
  0 < a.(a_hashpower) < 32 -> bucket_ref a hv = bucket_mod a hv.
Proof.
  intros Ha. unfold bucket_ref, bucket_mod. rewrite !land_hashmask by lia. reflexivity.
Qed.

Lemma bucket_slot h a D G hv :
  assoc_repG h a D G ->
  live a (bucket_ref a hv).1 /\
  0 <= (bucket_ref a hv).2
     < Z.of_nat (length (get_table a (bucket_ref a hv).1)).
Proof.
  intros HG. pose proof (ar_power _ _ _ _ HG) as Hp.
  rewrite bucket_ref_mod by done. unfold bucket_mod.
  destruct (a_expanding a) eqn:Hx; simpl.
  - destruct (ar_old _ _ _ _ HG Hx) as [Hl Hb].
    destruct (Z.leb_spec (a_expand_bucket a) (hv mod 2 ^ (a_hashpower a - 1))); simpl.
    + split; [done|]. rewrite Hl. apply Z.mod_pos_bound. apply Z.pow_pos_nonneg; lia.
    + split; [done|]. rewrite (ar_primary _ _ _ _ HG).
      apply Z.mod_pos_bound. apply Z.pow_pos_nonneg; lia.
  - split; [done|]. rewrite (ar_primary _ _ _ _ HG).
    apply Z.mod_pos_bound. apply Z.pow_pos_nonneg; lia.
Qed.

Lemma bucket_chain h a D G hv :
  assoc_repG h a D G ->
  exists p, zlookup (get_table a (bucket_ref a hv).1) (bucket_ref a hv).2 = Some p
         /\ chain (hnexts h) p (G (bucket_ref a hv)).
Proof.
  intros HG. destruct (bucket_slot _ _ _ _ hv HG) as [Hl Hr].
  destruct (zlookup_lt _ _ Hr) as [p Hp]. exists p. split; [done|].
  eapply ar_chain; eauto.
Qed.

Lemma runs_read_bucket s p e (Q : Z -> engine -> Prop) :
  zlookup (get_table e.(e_assoc) s.1) s.2 = Some p -> Q p e ->
  runs (read_bucket s) e Q.
Proof. intros Hp HQ. exists p, e. unfold read_bucket. rewrite Hp. auto. Qed.

Lemma runs_write_bucket s p e (Q : unit -> engine -> Prop) :
  0 <= s.2 < Z.of_nat (length (get_table e.(e_assoc) s.1)) ->
  Q tt (set_e_assoc (upd_bucket s p e.(e_assoc)) e) ->
  runs (write_bucket s p) e Q.
Proof.
  intros Hs HQ. eexists tt, _. unfold write_bucket.
  rewrite zupdate_lt by done. auto.
Qed.

(** ** Lookup *)

Lemma key_matches_spec h p it k :
  h !! p = Some it -> (exists k', has_key h p k') ->
  key_matches k it = true <-> has_key h p k.
Proof.
  intros Hp [k' Hk']. apply has_key_item in Hk' as (it' & Hp' & Hk' & Hn').
  replace it' with it in * by congruence.
  unfold key_matches. rewrite andb_true_iff, Z.eqb_eq, bool_decide_eq_true.
  rewrite has_key_item. split.
  - intros [Hlen ->]. exists it. auto.
  - intros (it2 & Hp2 & Hk2 & Hn2). replace it2 with it in * by congruence.
    split; congruence.
Qed.

Lemma find_loop_spec h k l : forall fuel p,
  chain (hnexts h) p l -> (forall x, x ∈ l -> exists k', has_key h x k') ->
  (length l < fuel)%nat ->
  exists r, find_loop fuel h p k = Some r /\
    ((r = NULL /\ forall q, q ∈ l -> ~ has_key h q k) \/ (r ∈ l /\ has_key h r k)).
Proof.
  induction l as [|x xs IH]; intros [|fuel] p Hc Hk Hf; simpl in *; try lia.
  - rewrite Hc. exists NULL. split; [done|]. left. split; [done|].
    intros q Hq. by apply not_elem_of_nil in Hq.
  - destruct Hc as (-> & Hx & q & Hq & Hc).
    destruct (Z.eqb_spec x NULL) as [?|_]; [done|].
    unfold hnexts in Hq. rewrite lookup_fmap in Hq.
    destruct (h !! x) as [it|] eqn:Hit; [|discriminate]. simpl in Hq.
    injection Hq as Hq. simpl.
    pose proof (key_matches_spec h x it k Hit (Hk x ltac:(set_solver))) as Hm.
    destruct (key_matches k it) eqn:Hkm.
    + exists x. split; [done|]. right. split; [set_solver|]. by apply Hm.
    + rewrite Hq. destruct (IH fuel q) as (r & Hr & Hres); [done|set_solver|lia|].
      exists r. split; [done|]. destruct Hres as [[-> Hno]|[Hin Hhk]].
      * left. split; [done|]. intros y [->|Hy]%elem_of_cons; [|auto].
        intros Hy. apply Hm in Hy. discriminate.
      * right. split; [set_solver|done].
Qed.

Lemma assoc_find_loop h a D G k :
  assoc_repG h a D G ->
  exists p r,
    zlookup (get_table a (bucket_ref a (hash k)).1) (bucket_ref a (hash k)).2 = Some p
    /\ find_loop (chain_fuel h) h p k = Some r /\ find_result h D k r.
Proof.
  intros HG. destruct (bucket_chain _ _ _ _ (hash k) HG) as (p & Hp & Hc).
  destruct (find_loop_spec h k _ (chain_fuel h) p Hc) as (r & Hr & Hres).
  - intros x Hx. destruct (ar_key _ _ _ _ HG x) as (k' & Hk' & _);
      [eapply ar_home; eauto|eauto].
  - by eapply chain_fuel_enough.
  - exists p, r. split; [done|]. split; [done|].
    destruct Hres as [[-> Hno]|[Hin Hk]].
    + left. split; [done|]. intros q Hq Hqk.
      destruct (ar_key _ _ _ _ HG q Hq) as (k' & Hk' & Hs).
      rewrite (has_key_inj _ _ _ _ Hk' Hqk) in Hs.
      eapply Hno; [|exact Hqk]. by apply Hs.
    + right. split; [|done]. eapply ar_home; eauto.
Qed.

Lemma assoc_find_run e D k (Q : Z -> engine -> Prop) :
  assoc_rep e.(e_heap) e.(e_assoc) D ->
  (forall p, find_result e.(e_heap) D k p -> Q p e) ->
  runs (assoc_find (hash k) k) e Q.
Proof.
  intros [G HG] HQ. destruct (assoc_find_loop _ _ _ _ k HG) as (p & r & Hp & Hr & Hres).
  unfold assoc_find. run. eapply runs_read_bucket; [exact Hp|].
  run; [exact Hr|]. auto.
Qed.

(** ** Frames *)

Definition erase_hn : hash_item -> hash_item := set_it_h_next NULL.

(** The table operations change the chains, the table and the counters of the
    system calls; nothing else. *)
Definition assoc_frame (e e' : engine) : Prop :=
  erase_hn <$> e'.(e_heap) = erase_hn <$> e.(e_heap) /\
  e' = set_e_spawns e'.(e_spawns) (set_e_calls e'.(e_calls)
         (set_e_assoc e'.(e_assoc) (set_e_heap e'.(e_heap) e))) /\
  (e.(e_calls) <= e'.(e_calls))%nat.

Lemma assoc_frame_refl e : assoc_frame e e.
Proof. split; [done|]. split; [by destruct e|done]. Qed.

Lemma assoc_frame_trans e1 e2 e3 :
  assoc_frame e1 e2 -> assoc_frame e2 e3 -> assoc_frame e1 e3.
Proof.
  intros (H1 & H1' & Hc1) (H2 & H2' & Hc2). split; [congruence|]. split; [|lia].
  rewrite H2' at 1. by rewrite H1'.
Qed.

Lemma erase_hn_store (h : gmap Z hash_item) p it q :
  h !! p = Some it ->
  erase_hn <$> (<[p := set_it_h_next q it]> h) = erase_hn <$> h.
Proof. intros Hp. eapply fmap_insert_same; [exact Hp|done]. Qed.

Lemma erase_kviews h h' : erase_hn <$> h' = erase_hn <$> h -> kviews h' = kviews h.
Proof.
  intros He. unfold kviews.
  transitivity (kview <$> (erase_hn <$> h')).
  - rewrite <- map_fmap_compose. done.
  - rewrite He, <- map_fmap_compose. done.
Qed.

(** The table looks only at the chain and the key of the items it indexes. *)
Lemma chain_local hn hn' l : forall p,
  (forall x, x ∈ l -> hn' !! x = hn !! x) -> chain hn p l -> chain hn' p l.
Proof.
  induction l as [|x l IH]; intros p Heq; simpl; [done|].
  intros (-> & Hx & q & Hq & Hc). split; [done|]. split; [done|]. exists q.
  rewrite Heq by set_solver. split; [done|]. apply IH; [set_solver|done].
Qed.

Definition same_index (D : gset Z) (h h' : gmap Z hash_item) : Prop :=
  forall p, p ∈ D -> hnexts h' !! p = hnexts h !! p /\ kviews h' !! p = kviews h !! p.

Lemma assoc_rep_local h h' a D : same_index D h h' -> assoc_rep h a D -> assoc_rep h' a D.
Proof.
  intros Heq [G HG]. exists G.
  assert (Hk : forall p k, p ∈ D -> has_key h' p k <-> has_key h p k).
  { intros p k Hp. unfold has_key. by rewrite (proj2 (Heq p Hp)). }
  destruct HG. constructor; auto.
  - intros s p Hl Hs. eapply chain_local; [|by eapply ar_chain0].
    intros x Hx. apply Heq. eauto.
  - intros p Hp. destruct (ar_key0 p Hp) as (k & Hpk & Hs). exists k. by rewrite Hk.
  - intros p q k Hp Hq. rewrite !Hk by done. eauto.
Qed.

(** ** Updating a bucket *)

Lemma bucket_ref_upd s p a hv : bucket_ref (upd_bucket s p a) hv = bucket_ref a hv.
Proof. by destruct s as [[] ?]. Qed.

Lemma upd_bucket_fields s p a :
  (upd_bucket s p a).(a_hashpower) = a.(a_hashpower) /\
  (upd_bucket s p a).(a_expanding) = a.(a_expanding) /\
  (upd_bucket s p a).(a_expand_bucket) = a.(a_expand_bucket) /\
  (upd_bucket s p a).(a_hash_items) = a.(a_hash_items).
Proof. by destruct s as [[] ?]. Qed.

Lemma live_upd s p a t : live (upd_bucket s p a) t <-> live a t.
Proof. by destruct s as [[] ?], t. Qed.

Lemma length_upd s p a t :
  length (get_table (upd_bucket s p a) t) = length (get_table a t).
Proof.
  destruct s as [t' i], t, t'; unfold upd_bucket; simpl; by rewrite ?length_insert.
Qed.

Lemma lookup_upd s s' p a q :
  0 <= s.2 < Z.of_nat (length (get_table a s.1)) ->
  zlookup (get_table (upd_bucket s p a) s'.1) s'.2 = Some q ->
  (s' = s /\ q = p) \/ (s' <> s /\ zlookup (get_table a s'.1) s'.2 = Some q).
Proof.
  destruct s as [t i], s' as [t' i']; simpl. intros Hr Hz.
  pose proof (zlookup_range _ _ _ Hz) as Hr'.
  destruct (decide (t = t')) as [<-|Ht].
  - assert (Hz' : zlookup (<[Z.to_nat i := p]> (get_table a t)) i' = Some q)
      by (by destruct t).
    rewrite zlookup_insert in Hz' by lia. destruct (decide (i = i')) as [->|Hi].
    + left. split; congruence.
    + right. split; [congruence|done].
  - right. split; [congruence|]. rewrite <- Hz. by destruct t, t'.
Qed.

(** ** Insertion *)

Definition push_chain (G : table * Z -> list Z) (s : table * Z) (p : Z) :=
  fun s' => if decide (s' = s) then p :: G s else G s'.

Lemma elem_of_push_chain G s p s' q :
  q ∈ push_chain G s p s' <-> (q = p /\ s' = s) \/ q ∈ G s'.
Proof.
  unfold push_chain. destruct (decide (s' = s)) as [->|].
  - rewrite elem_of_cons. tauto.
  - tauto.
Qed.

(** Pushing a node on the chain of its bucket keeps every chain. *)
Lemma push_chain_chain h a D G p it nx s :
  assoc_repG h a D G -> h !! p = Some it -> p <> NULL -> p ∉ D -> live a s.1 ->
  zlookup (get_table a s.1) s.2 = Some nx ->
  forall s' q, live a s'.1 ->
    zlookup (get_table (upd_bucket s p a) s'.1) s'.2 = Some q ->
    chain (hnexts (<[p := set_it_h_next nx it]> h)) q (push_chain G s p s').
Proof.
  intros HG Hit Hp HpD Hls Hnx s' q Hl Hz.
  assert (HpG : forall s0, p ∉ G s0) by (intros s0 Hin; apply HpD; by eapply ar_home).
  unfold hnexts. rewrite fmap_insert. simpl. unfold push_chain.
  destruct (lookup_upd s s' p a q) as [[-> ->]|[Hne Hz']];
    [by apply zlookup_range in Hnx|done| |].
  - rewrite decide_True by done. simpl. split; [done|]. split; [done|].
    exists nx. rewrite lookup_insert_eq. split; [done|].
    apply chain_insert_notin; [done|]. by eapply ar_chain.
  - rewrite decide_False by done. apply chain_insert_notin; [done|].
    by eapply ar_chain.
Qed.

Lemma assoc_insert_repG h a D G p it k nx :
  assoc_repG h a D G -> h !! p = Some it -> p <> NULL -> p ∉ D -> has_key h p k ->
  (forall q, q ∈ D -> ~ has_key h q k) ->
  let s := bucket_ref a (hash k) in
  zlookup (get_table a s.1) s.2 = Some nx ->
  assoc_repG (<[p := set_it_h_next nx it]> h)
    (set_a_hash_items (u32 ((upd_bucket s p a).(a_hash_items) + 1)) (upd_bucket s p a))
    ({[p]} ∪ D) (push_chain G s p).
Proof.
  intros HG Hit Hp HpD Hk Hnew s Hnx.
  assert (Hkey : forall q k', has_key (<[p := set_it_h_next nx it]> h) q k'
    <-> has_key h q k').
  { intros. unfold has_key, kviews. by erewrite fmap_insert_same. }
  destruct (bucket_slot _ _ _ _ (hash k) HG) as [Hlive _].
  pose proof (length_upd s p a) as Hlen.
  constructor.
  - destruct HG, s as [[] ?]; simpl; auto.
  - pose proof (ar_primary _ _ _ _ HG) as Hl. specialize (Hlen Primary).
    destruct s as [[] ?]; simpl in *; congruence.
  - intros Hx. specialize (Hlen Old).
    destruct (ar_old _ _ _ _ HG) as [Hl Hb]; [by destruct s as [[] ?]|].
    destruct s as [[] ?]; simpl in *; rewrite ?Hlen; auto.
  - intros s' q Hl Hz. eapply push_chain_chain; eauto.
    by destruct s as [[] ?], s' as [[] ?].
  - intros s' q [[-> ->]|Hq]%elem_of_push_chain; [set_solver|].
    apply (ar_home _ _ _ _ HG) in Hq. set_solver.
  - intros q Hq. setoid_rewrite Hkey. setoid_rewrite elem_of_push_chain.
    rewrite elem_of_union, elem_of_singleton in Hq.
    destruct Hq as [->|Hq].
    + exists k. split; [done|]. intros s'.
      change (bucket_ref (set_a_hash_items _ ?x) ?v) with (bucket_ref x v).
      rewrite bucket_ref_upd. fold s. split; [|auto]. intros [[_ ?]|Hin]; [done|].
      by destruct HpD; eapply ar_home.
    + destruct (ar_key _ _ _ _ HG q Hq) as (k' & Hk' & Hs). exists k'. split; [done|].
      intros s'. change (bucket_ref (set_a_hash_items _ ?x) ?v) with (bucket_ref x v).
      rewrite bucket_ref_upd, <- Hs. split; [|auto]. intros [[-> _]|?]; done.
  - intros q1 q2 k'. rewrite !Hkey, !elem_of_union, !elem_of_singleton.
    intros [->|H1] [->|H2] Hk1 Hk2; [done| | |by eapply ar_uniq].
    + rewrite (has_key_inj _ _ _ _ Hk1 Hk) in Hk2. by destruct (Hnew _ H2).
    + rewrite (has_key_inj _ _ _ _ Hk2 Hk) in Hk1. by destruct (Hnew _ H1).
  - pose proof (ar_null _ _ _ _ HG). set_solver.
  - simpl. destruct (upd_bucket_fields s p a) as (_ & _ & _ & ->).
    rewrite (ar_count _ _ _ _ HG), size_union, size_singleton by set_solver.
    unfold u32, wrap. rewrite Zplus_mod_idemp_l. f_equal. lia.
Qed.

(** ** Expansion *)

Definition expanded (a : assoc) : assoc :=
  set_a_expand_bucket 0 (set_a_expanding true
    (set_a_hashpower (a.(a_hashpower) + 1)
      (set_a_primary_hashtable (calloc_table (hashsize (a.(a_hashpower) + 1)))
        (set_a_old_hashtable a.(a_primary_hashtable) a)))).

Definition old_chains (G : table * Z -> list Z) (s : table * Z) : list Z :=
  match s.1 with Old => G (Primary, s.2) | Primary => [] end.

Lemma bucket_ref_expanded a hv :
  0 < a.(a_hashpower) < 31 -> a.(a_expanding) = false ->
  exists i, bucket_ref (expanded a) hv = (Old, i) /\ bucket_ref a hv = (Primary, i).
Proof.
  intros Hp Hx. exists (hv mod 2 ^ a.(a_hashpower)).
  rewrite !bucket_ref_mod by (simpl; lia). unfold bucket_mod. rewrite Hx. simpl.
  rewrite Z.add_simpl_r.
  destruct (Z.leb_spec 0 (hv mod 2 ^ a_hashpower a)) as [|Hneg]; [done|].
  pose proof (Z.mod_pos_bound hv (2 ^ a_hashpower a)).
  assert (0 < 2 ^ a_hashpower a) by (apply Z.pow_pos_nonneg; lia). lia.
Qed.

Lemma zlookup_calloc n i p : zlookup (calloc_table n) i = Some p -> p = NULL.
Proof. intros [_ Hi]%zlookup_Some. by apply lookup_replicate in Hi as [-> _]. Qed.

Lemma expand_repG h a D G :
  assoc_repG h a D G -> a.(a_expanding) = false -> a.(a_hashpower) < 31 ->
  assoc_repG h (expanded a) D (old_chains G).
Proof.
  intros HG Hx Hlt. pose proof (ar_power _ _ _ _ HG) as Hp.
  assert (Hpos : 0 < 2 ^ a_hashpower a) by (apply Z.pow_pos_nonneg; lia).
  constructor; simpl; try apply HG.
  - lia.
  - unfold calloc_table. rewrite length_replicate, hashsize_pow by lia.
    rewrite Z2Nat.id by (apply Z.pow_nonneg; lia). done.
  - intros _. rewrite Z.add_simpl_r. split; [apply (ar_primary _ _ _ _ HG)|lia].
  - intros [[] i] p Hl Hz; unfold old_chains; simpl in *.
    + by apply zlookup_calloc in Hz.
    + by apply (ar_chain _ _ _ _ HG (Primary, i)).
  - intros [[] i] p; unfold old_chains; simpl; [by intros ?%not_elem_of_nil|].
    apply (ar_home _ _ _ _ HG).
  - intros p Hin. destruct (ar_key _ _ _ _ HG p Hin) as (k & Hk & Hs). exists k.
    split; [done|]. destruct (bucket_ref_expanded a (hash k)) as (i & -> & Hi);
      [lia|done|]. rewrite Hi in Hs.
    intros [[] j]; unfold old_chains; simpl.
    + split; [by intros ?%not_elem_of_nil|discriminate].
    + rewrite Hs. split; congruence.
Qed.

(** Only the tables in use count. *)
Lemma assoc_repG_ext h a a' D G :
  a.(a_expanding) = false -> a'.(a_expanding) = false ->
  a'.(a_hashpower) = a.(a_hashpower) ->
  a'.(a_primary_hashtable) = a.(a_primary_hashtable) ->
  a'.(a_hash_items) = a.(a_hash_items) ->
  assoc_repG h a D G -> assoc_repG h a' D G.
Proof.
  intros Hx Hx' Hp Ht Hn HG.
  assert (Hb : forall hv, bucket_ref a' hv = bucket_ref a hv).
  { intros hv. unfold bucket_ref. by rewrite Hx, Hx', Hp. }
  destruct HG as [G1 G2 G3 G4 G5 G6 G7 G8 G9].
  constructor; rewrite ?Hp, ?Ht, ?Hn, ?Hx'; auto; [discriminate| |].
  - intros [[] i] q Hl; simpl in *; [|congruence]. rewrite Ht. intros Hz.
    by apply (G4 (Primary, i)).
  - intros q Hq. setoid_rewrite Hb. auto.
Qed.

Lemma assoc_expand_run e D (Q : unit -> engine -> Prop) :
  assoc_rep e.(e_heap) e.(e_assoc) D -> e.(e_assoc).(a_expanding) = false ->
  e.(e_assoc).(a_hashpower) < 31 ->
  (forall e', assoc_rep e'.(e_heap) e'.(e_assoc) D -> assoc_frame e e' ->
              e'.(e_heap) = e.(e_heap) -> Q tt e') ->
  runs assoc_expand e Q.
Proof.
  intros [G HG] Hx Hp HQ. unfold assoc_expand. run.
  destruct (sys_calloc _ _); simpl.
  - run. apply runs_when; intros _; [run|]; (apply HQ; [|split; [done|split; [done|simpl; lia]]|done]).
    + exists G. eapply assoc_repG_ext; [..|exact HG]; simpl; try done. lia.
    + exists (old_chains G). by apply (expand_repG _ (e_assoc e)).
  - run. apply HQ; [|split; [done|split; [done|simpl; lia]]|done].
    exists G. by eapply assoc_repG_ext; [..|exact HG].
Qed.

(** An expansion is started only while there is room for a larger table. *)
Lemma expand_threshold p n :
  0 < p < 32 -> u32 (hashsize p * 3) / 2 < n -> n <= 2 ^ 30 -> p < 31.
Proof.
  intros Hp Hn Hle. destruct (decide (p = 31)) as [->|]; [|lia].
  change (u32 (hashsize 31 * 3) / 2) with 1073741824 in Hn. lia.
Qed.

Lemma assoc_insert_run e D p it k (Q : Z -> engine -> Prop) :
  assoc_rep e.(e_heap) e.(e_assoc) D -> e.(e_heap) !! p = Some it -> p <> NULL ->
  p ∉ D -> has_key e.(e_heap) p k -> (forall q, q ∈ D -> ~ has_key e.(e_heap) q k) ->
  Z.of_nat (size D) < 2 ^ 30 ->
  (forall e', assoc_rep e'.(e_heap) e'.(e_assoc) ({[p]} ∪ D) ->
              assoc_frame e e' -> Q 1 e') ->
  runs (assoc_insert (hash k) p) e Q.
Proof.
  intros HG Hit Hp HpD Hk Hnew Hsz HQ. unfold assoc_insert.
  assert (Hkit : item_get_key it = k).
  { apply has_key_item in Hk as (it' & ? & ? & _). congruence. }
  run. eapply runs_load; [exact Hit|]. run. rewrite Hkit.
  eapply assoc_find_run; [exact HG|]. intros f Hf. run.
  { destruct Hf as [[-> _]|[Hf1 Hf2]]; [done|]. by destruct (Hnew f). }
  destruct HG as [G HG].
  destruct (bucket_chain _ _ _ _ (hash k) HG) as (nx & Hnx & _).
  destruct (bucket_slot _ _ _ _ (hash k) HG) as [_ Hr].
  eapply runs_read_bucket; [exact Hnx|]. run. eapply runs_store; [exact Hit|].
  run. apply runs_write_bucket; [exact Hr|]. run.
  pose proof (assoc_insert_repG _ _ _ _ p it k nx HG Hit Hp HpD Hk Hnew Hnx) as HG'.
  pose proof (erase_hn_store _ _ _ nx Hit) as He.
  apply runs_when.
  - intros Hc. boolify. simpl in *. eapply assoc_expand_run with (D := {[p]} ∪ D).
    + eexists. exact HG'.
    + by destruct (bucket_ref _ _) as [[] ?].
    + pose proof (ar_power _ _ _ _ HG') as Hpw. pose proof (ar_count _ _ _ _ HG') as Hcnt.
      rewrite size_union, size_singleton in Hcnt by set_solver.
      rewrite (u32_small (Z.of_nat _)) in Hcnt by lia.
      eapply expand_threshold; [exact Hpw|simpl in *; eassumption|].
      simpl in *. lia.
    + intros e' Hrep Hfr Hh. apply runs_ret. apply HQ; [exact Hrep|].
      eapply assoc_frame_trans; [|exact Hfr]. split; [exact He|done].
  - intros _. apply runs_ret. apply HQ; [by eexists|]. split; [exact He|done].
Qed.

(** ** Deletion *)

Definition drop_chain (G : table * Z -> list Z) (p : Z) (s : table * Z) : list Z :=
  filter (fun q => q <> p) (G s).

Lemma filter_ne_notin (p : Z) (l : list Z) : p ∉ l -> filter (fun q => q <> p) l = l.
Proof.
  induction l as [|x l IH]; [done|]. rewrite not_elem_of_cons. intros [Hx Hl].
  rewrite filter_cons_True by congruence. by rewrite IH.
Qed.

Lemma filter_ne_split (p : Z) (l1 l2 : list Z) :
  NoDup (l1 ++ p :: l2) -> filter (fun q => q <> p) (l1 ++ p :: l2) = l1 ++ l2.
Proof.
  intros Hnd. rewrite filter_app, filter_cons_False by congruence.
  apply NoDup_app in Hnd as (_ & H1 & H2%NoDup_cons). destruct H2 as [H2 _].
  rewrite !filter_ne_notin; [done|done|]. intros Hin. by apply (H1 p); [|left].
Qed.

Lemma before_loop_spec h k l1 x l2 : forall fuel pos cur,
  chain (hnexts h) cur (l1 ++ x :: l2) ->
  (forall y, y ∈ l1 ++ x :: l2 -> exists k', has_key h y k') ->
  has_key h x k -> (forall y, y ∈ l1 -> ~ has_key h y k) ->
  (length (l1 ++ x :: l2) < fuel)%nat ->
  before_loop fuel h pos cur k
    = Some (match last l1 with Some y => InItem y | None => pos end).
Proof.
  induction l1 as [|y l1 IH]; intros [|fuel] pos cur Hc Hk Hx Hno Hf; simpl in *; try lia;
    destruct Hc as (-> & Hnn & q & Hq & Hc);
    (match goal with |- context [?z =? NULL] => destruct (Z.eqb_spec z NULL); [done|] end);
    unfold hnexts in Hq; rewrite lookup_fmap in Hq.
  - destruct (h !! x) as [it|] eqn:Hit; [|discriminate]. simpl.
    apply (key_matches_spec h x it k Hit) in Hx; [|eauto]. by rewrite Hx.
  - destruct (h !! y) as [it|] eqn:Hit; [|discriminate]. simpl in *.
    destruct (key_matches k it) eqn:Hm.
    + apply (key_matches_spec h y it k Hit) in Hm; [|apply Hk; set_solver].
      by destruct (Hno y); [set_solver|].
    + injection Hq as ->. rewrite (IH fuel (InItem y) q); auto; try lia.
      * rewrite last_cons. by destruct (last l1).
      * intros z Hz. apply Hk. set_solver.
      * intros z Hz. apply Hno. set_solver.
Qed.

(** Dropping [p] keeps the invariant, once its chain is closed up. *)
Lemma assoc_delete_repG h h' a a' D G p :
  assoc_repG h a D G -> kviews h' = kviews h -> p ∈ D ->
  a'.(a_hashpower) = a.(a_hashpower) -> a'.(a_expanding) = a.(a_expanding) ->
  a'.(a_expand_bucket) = a.(a_expand_bucket) ->
  (forall t, length (get_table a' t) = length (get_table a t)) ->
  a'.(a_hash_items) = u32 (a.(a_hash_items) - 1) ->
  (forall s q, live a s.1 -> zlookup (get_table a' s.1) s.2 = Some q ->
     chain (hnexts h') q (drop_chain G p s)) ->
  assoc_repG h' a' (D ∖ {[p]}) (drop_chain G p).
Proof.
  intros HG Hk HpD Hp Hx Hb Hlen Hn Hch.
  assert (Hbr : forall hv, bucket_ref a' hv = bucket_ref a hv)
    by (intros; unfold bucket_ref; by rewrite Hp, Hx, Hb).
  assert (Hkey : forall q k, has_key h' q k <-> has_key h q k)
    by (intros; unfold has_key; by rewrite Hk).
  pose proof (Hlen Primary) as HlP. pose proof (Hlen Old) as HlO. simpl in HlP, HlO.
  constructor; rewrite ?Hp, ?Hx, ?Hb, ?HlP, ?HlO; try apply HG.
  - intros [t i] q Hl. apply (Hch (t, i)). destruct t; simpl in *; [done|congruence].
  - intros s q. unfold drop_chain. rewrite list_elem_of_filter. intros [Hne Hq].
    apply (ar_home _ _ _ _ HG) in Hq. set_solver.
  - intros q [Hq Hne]%elem_of_difference. apply not_elem_of_singleton in Hne.
    destruct (ar_key _ _ _ _ HG q Hq) as (k & Hqk & Hs). exists k. rewrite Hkey.
    split; [done|]. intros s. rewrite Hbr, <- Hs. unfold drop_chain.
    rewrite list_elem_of_filter. tauto.
  - intros q1 q2 k. rewrite !Hkey, !elem_of_difference. intros [? _] [? _].
    by apply (ar_uniq _ _ _ _ HG).
  - pose proof (ar_null _ _ _ _ HG). set_solver.
  - rewrite Hn, (ar_count _ _ _ _ HG), size_difference, size_singleton by set_solver.
    assert (size D <> 0%nat) by (intros ?%size_empty_inv; set_solver).
    unfold u32, wrap. rewrite Zminus_mod_idemp_l. f_equal. lia.
Qed.

(** The two ways to close up the chain of [p]: through the bucket when [p] is
    first, through its predecessor otherwise. *)
Lemma delete_head_chain h a D G p it l2 s :
  assoc_repG h a D G -> h !! p = Some it -> live a s.1 ->
  zlookup (get_table a s.1) s.2 = Some p -> G s = p :: l2 ->
  (forall s', p ∈ G s' -> s' = s) ->
  forall s' q, live a s'.1 ->
    zlookup (get_table (upd_bucket s it.(it_h_next) a) s'.1) s'.2 = Some q ->
    chain (hnexts (<[p := set_it_h_next NULL it]> h)) q (drop_chain G p s').
Proof.
  intros HG Hit Hls Hz HGs Honly s' q Hl Hzq. unfold hnexts. rewrite fmap_insert. simpl.
  destruct (lookup_upd s s' (it_h_next it) a q) as [[-> ->]|[Hne Hz']];
    [by apply zlookup_range in Hz|done| |]; unfold drop_chain.
  - pose proof (ar_chain _ _ _ _ HG s p Hls Hz) as Hc. rewrite HGs in *.
    pose proof (chain_nodup _ _ _ Hc) as Hnd.
    change (filter (fun q => q <> p) (p :: l2)) with
      (filter (fun q => q <> p) ([] ++ p :: l2)).
    rewrite filter_ne_split by done. simpl.
    apply NoDup_cons in Hnd as [Hnd _]. apply chain_insert_notin; [done|].
    destruct Hc as (_ & _ & q & Hq & Hc). unfold hnexts in Hq.
    rewrite lookup_fmap, Hit in Hq. by injection Hq as <-.
  - assert (p ∉ G s') by (intros ?%Honly; done).
    rewrite filter_ne_notin by done. apply chain_insert_notin; [done|].
    by eapply ar_chain.
Qed.

Lemma delete_mid_chain h a D G p it l1 y yt l2 s :
  assoc_repG h a D G -> h !! p = Some it -> h !! y = Some yt ->
  G s = l1 ++ y :: p :: l2 -> (forall s', p ∈ G s' -> s' = s) ->
  (forall s', y ∈ G s' -> s' = s) ->
  forall s' q, live a s'.1 -> zlookup (get_table a s'.1) s'.2 = Some q ->
    chain (hnexts (<[y := set_it_h_next it.(it_h_next) yt]>
                     (<[p := set_it_h_next NULL it]> h))) q (drop_chain G p s').
Proof.
  intros HG Hit Hyt HGs Honly Honly2 s' q Hl Hz.
  unfold hnexts. rewrite !fmap_insert. simpl.
  pose proof (ar_chain _ _ _ _ HG s' q Hl Hz) as Hc. unfold drop_chain.
  destruct (decide (s' = s)) as [->|Hne].
  - rewrite HGs in *. pose proof (chain_nodup _ _ _ Hc) as Hnd.
    replace (l1 ++ y :: p :: l2) with ((l1 ++ [y]) ++ p :: l2) in Hnd |- *
      by (by rewrite <- app_assoc).
    rewrite filter_ne_split by done. rewrite <- app_assoc. simpl.
    apply chain_remove; [done|]. unfold hnexts. by rewrite lookup_fmap, Hit.
  - rewrite filter_ne_notin by (intros ?%Honly; done).
    apply chain_insert_notin; [intros ?%Honly2; done|].
    apply chain_insert_notin; [intros ?%Honly; done|done].
Qed.

Lemma chain_next hn p l1 y x l2 :
  chain hn p (l1 ++ y :: x :: l2) -> hn !! y = Some x.
Proof.
  intros Hc. apply chain_app in Hc as (_ & q & Hq & _ & Hc).
  destruct Hc as (-> & _). exact Hq.
Qed.

Lemma hnexts_lookup h x q :
  hnexts h !! x = Some q -> exists it, h !! x = Some it /\ it.(it_h_next) = q.
Proof.
  unfold hnexts. rewrite lookup_fmap. destruct (h !! x) as [it|]; [|discriminate].
  intros [= <-]. eauto.
Qed.

(** The chain of an indexed item, split at the item, and that no other item of
    the chain has its key. *)
Lemma indexed_split h a D G p k :
  assoc_repG h a D G -> p ∈ D -> has_key h p k ->
  exists l1 l2, G (bucket_ref a (hash k)) = l1 ++ p :: l2 /\
    (forall s, p ∈ G s -> s = bucket_ref a (hash k)) /\
    (forall y, y ∈ l1 -> ~ has_key h y k).
Proof.
  intros HG HpD Hk. destruct (ar_key _ _ _ _ HG p HpD) as (k' & Hk' & Hs).
  rewrite (has_key_inj _ _ _ _ Hk' Hk) in Hs.
  assert (Hin : p ∈ G (bucket_ref a (hash k))) by (by apply Hs).
  destruct (bucket_chain _ _ _ _ (hash k) HG) as (p0 & _ & Hc).
  apply chain_nodup in Hc. apply list_elem_of_split in Hin as (l1 & l2 & Heq).
  exists l1, l2. split; [done|]. split; [intros s ?; by apply Hs|].
  intros y Hy Hyk. rewrite Heq in Hc. apply NoDup_app in Hc as (_ & Hd & _).
  apply (Hd y Hy). replace y with p; [by left|].
  apply (ar_uniq _ _ _ _ HG p y k); [done| |done|done].
  eapply (ar_home _ _ _ _ HG). rewrite Heq. set_solver.
Qed.

Lemma assoc_delete_run e D p k (Q : unit -> engine -> Prop) :
  assoc_rep e.(e_heap) e.(e_assoc) D -> p ∈ D -> has_key e.(e_heap) p k ->
  (forall e', assoc_rep e'.(e_heap) e'.(e_assoc) (D ∖ {[p]}) -> assoc_frame e e' ->
              Q tt e') ->
  runs (assoc_delete (hash k) k) e Q.
Proof.
  intros [G HG] HpD Hk HQ.
  destruct (indexed_split _ _ _ _ _ _ HG HpD Hk) as (l1 & l2 & HGs & Honly & Hno).
  destruct (bucket_chain _ _ _ _ (hash k) HG) as (p0 & Hp0 & Hc).
  destruct (bucket_slot _ _ _ _ (hash k) HG) as [Hlive Hr].
  set (s := bucket_ref (e_assoc e) (hash k)) in *.
  pose proof Hk as (it & Hit & _)%has_key_item.
  assert (Hpn : p <> NULL) by (intros ->; by apply (ar_null _ _ _ _ HG)).
  unfold assoc_delete, _hashitem_before. run.
  eapply runs_read_bucket; [exact Hp0|]. run.
  { rewrite HGs in Hc. eapply before_loop_spec; eauto.
    - intros y Hy. rewrite <- HGs in Hy. apply (ar_home _ _ _ _ HG) in Hy.
      destruct (ar_key _ _ _ _ HG y Hy) as (k' & ? & _). eauto.
    - by eapply chain_fuel_enough. }
  destruct l1 as [|y l1 _] using rev_ind; [|rewrite last_snoc]; simpl.
  - rewrite HGs in Hc. destruct Hc as (-> & _).
    eapply runs_read_bucket; [exact Hp0|].
    destruct (Z.eqb_spec p NULL); [done|]. simpl. run. eapply runs_load; [exact Hit|].
    run. eapply runs_store; [exact Hit|]. apply runs_write_bucket.
    { unfold s in *. by destruct (bucket_ref _ _) as [[] ?]. }
    apply HQ; [|split; [by apply erase_hn_store|done]].
    eexists. eapply assoc_delete_repG; [exact HG|..]; simpl; fold s;
      try (by destruct s as [[] ?]); try done.
    + by eapply fmap_insert_same.
    + intros t. destruct s as [[] ?], t; simpl; by rewrite ?length_insert.
    + intros s' q Hl Hz.
      apply (delete_head_chain _ _ _ _ p it l2 s HG Hit Hlive Hp0 HGs Honly); [done|].
      rewrite <- Hz. by destruct s as [[] ?], s' as [[] ?].
  - rewrite <- app_assoc in HGs. simpl in HGs. rewrite HGs in Hc.
    apply chain_next, hnexts_lookup in Hc as (yt & Hyt & Hynx).
    run. eapply runs_load; [exact Hyt|]. run. rewrite Hynx.
    destruct (Z.eqb_spec p NULL); [done|]. simpl. run. eapply runs_load; [exact Hit|].
    run. eapply runs_store; [exact Hit|].
    assert (HyD : y ∈ D) by (eapply (ar_home _ _ _ _ HG); rewrite HGs; set_solver).
    assert (Hyp : y <> p) by (intros ->; by apply (Hno p); [set_solver|]).
    eapply runs_store; [simpl; by rewrite lookup_insert_ne|].
    apply HQ; [|split; [simpl; rewrite erase_hn_store;
      [by apply erase_hn_store|by rewrite lookup_insert_ne]|done]].
    eexists. eapply assoc_delete_repG; [exact HG|..]; simpl; try done.
    + unfold kviews. erewrite fmap_insert_same;
        [by eapply fmap_insert_same|by rewrite lookup_insert_ne|done].
    + intros s' q Hl Hz.
      eapply (delete_mid_chain _ _ _ _ p it l1 y yt l2 s HG Hit Hyt HGs Honly); [|done|].
      * intros s0 Hy. destruct (ar_key _ _ _ _ HG y HyD) as (k' & _ & Hs).
        apply Hs in Hy as ->. symmetry. apply Hs. rewrite HGs. set_solver.
      * rewrite <- Hz. by destruct s' as [[] ?].
Qed.

(** ** The maintenance thread *)

(** The table after the bucket [expand_bucket] of the old table was emptied. *)
Definition advance (a : assoc) : assoc :=
  let a1 := set_a_expand_bucket (a.(a_expand_bucket) + 1)
              (upd_bucket (Old, a.(a_expand_bucket)) NULL a) in
  if a.(a_expand_bucket) + 1 =? 2 ^ (a.(a_hashpower) - 1)
  then set_a_old_hashtable [] (set_a_expanding false a1) else a1.

Lemma advance_push i p a :
  advance (upd_bucket (Primary, i) p a) = upd_bucket (Primary, i) p (advance a).
Proof. unfold advance. simpl. by destruct (_ =? _). Qed.

Lemma advance_items n a :
  advance (set_a_hash_items n a) = set_a_hash_items n (advance a).
Proof. unfold advance. simpl. by destruct (_ =? _). Qed.

Lemma advance_fields a :
  (advance a).(a_hashpower) = a.(a_hashpower) /\
  (advance a).(a_primary_hashtable) = a.(a_primary_hashtable) /\
  (advance a).(a_hash_items) = a.(a_hash_items).
Proof. unfold advance. simpl. by destruct (_ =? _). Qed.

Lemma bucket_ref_advance a hv :
  0 < a.(a_hashpower) < 32 -> a.(a_expanding) = true ->
  0 <= a.(a_expand_bucket) < 2 ^ (a.(a_hashpower) - 1) ->
  bucket_ref (advance a) hv =
    if decide (hv mod 2 ^ (a.(a_hashpower) - 1) = a.(a_expand_bucket))
    then (Primary, hv mod 2 ^ a.(a_hashpower)) else bucket_ref a hv.
Proof.
  intros Hp Hx Hb. destruct (advance_fields a) as (Hp' & _ & _).
  rewrite !bucket_ref_mod by lia. unfold bucket_mod. rewrite Hp', Hx. simpl.
  pose proof (Z.mod_pos_bound hv (2 ^ (a_hashpower a - 1)) ltac:(lia)) as Hm.
  unfold advance. destruct (Z.eqb_spec (a_expand_bucket a + 1) (2 ^ (a_hashpower a - 1)));
    simpl; rewrite ?Hx; simpl;
    repeat case_match; try done; boolify; lia.
Qed.

Definition clear_chain (G : table * Z -> list Z) (s s' : table * Z) : list Z :=
  if decide (s' = s) then [] else G s'.

(** Without the items of the bucket being moved, the table has advanced. *)
Lemma advance_repG h a D G :
  assoc_repG h a D G -> a.(a_expanding) = true ->
  let s := (Old, a.(a_expand_bucket)) in
  let D0 := D ∖ list_to_set (G s) in
  assoc_repG h (set_a_hash_items (u32 (Z.of_nat (size D0))) (advance a)) D0
    (clear_chain G s).
Proof.
  intros HG Hx s D0. pose proof (ar_power _ _ _ _ HG) as Hp.
  destruct (ar_old _ _ _ _ HG Hx) as [Hlen Hb].
  destruct (advance_fields a) as (Hp' & Ht' & _).
  constructor; simpl; rewrite ?Hp', ?Ht'; try apply HG; try done.
  - unfold advance. destruct (Z.eqb_spec (a_expand_bucket a + 1) (2 ^ (a_hashpower a - 1)));
      simpl; [discriminate|]. intros _. rewrite length_insert. lia.
  - intros s' p Hl Hz. unfold clear_chain. destruct (decide (s' = s)) as [->|Hne].
    + unfold advance in Hz. simpl in *.
      destruct (_ =? _); simpl in Hz; [apply zlookup_range in Hz; simpl in Hz; lia|].
      apply zlookup_Some in Hz as [_ Hz].
      rewrite list_lookup_insert_eq in Hz by lia. congruence.
    + apply (ar_chain _ _ _ _ HG); [by destruct s' as [[] ?]|].
      destruct s' as [[] i]; simpl in *; [by rewrite <- Ht'|].
      unfold advance in Hz. destruct (_ =? _); simpl in Hz;
        [by apply zlookup_range in Hz; simpl in Hz; lia|].
      pose proof (zlookup_range _ _ _ Hz) as Hr. rewrite length_insert in Hr.
      rewrite zlookup_insert, decide_False in Hz; [done|..]; try lia.
      intros He. apply Hne. unfold s. by rewrite He.
  - intros s' p. unfold clear_chain. destruct (decide (s' = s)) as [->|Hne];
      [by intros ?%not_elem_of_nil|].
    intros Hin. apply elem_of_difference. split; [by eapply ar_home|].
    rewrite elem_of_list_to_set. intros Hin'. apply Hne.
    destruct (ar_key _ _ _ _ HG p) as (k & _ & Hs); [by eapply ar_home|].
    apply Hs in Hin, Hin'. congruence.
  - intros p [HpD Hnin]%elem_of_difference. rewrite elem_of_list_to_set in Hnin.
    destruct (ar_key _ _ _ _ HG p HpD) as (k & Hk & Hs). exists k. split; [done|].
    change (bucket_ref (set_a_hash_items _ ?x) ?v) with (bucket_ref x v).
    rewrite bucket_ref_advance by done. rewrite decide_False.
    + intros s'. unfold clear_chain. destruct (decide (s' = s)) as [->|]; [|by apply Hs].
      rewrite <- Hs. split; [by intros ?%not_elem_of_nil|by intros ?%Hnin].
    + intros He. apply Hnin, Hs. rewrite bucket_ref_mod by done. unfold bucket_mod.
      rewrite Hx, He. simpl. by rewrite Z.leb_refl.
  - intros p q k [? _]%elem_of_difference [? _]%elem_of_difference.
    by apply (ar_uniq _ _ _ _ HG).
  - pose proof (ar_null _ _ _ _ HG). set_solver.
Qed.

(** The table seen while a chain is moved: advanced, and indexing [D]. *)
Definition moving (h : gmap Z hash_item) (a : assoc) (D : gset Z) : Prop :=
  exists G, assoc_repG h (set_a_hash_items (u32 (Z.of_nat (size D))) (advance a)) D G.

Lemma moving_push h a D x it k hd :
  moving h a D -> 0 < a.(a_hashpower) < 32 -> a.(a_expanding) = true ->
  0 <= a.(a_expand_bucket) < 2 ^ (a.(a_hashpower) - 1) ->
  h !! x = Some it -> x <> NULL -> x ∉ D -> has_key h x k ->
  hash k mod 2 ^ (a.(a_hashpower) - 1) = a.(a_expand_bucket) ->
  (forall q, q ∈ D -> ~ has_key h q k) ->
  zlookup a.(a_primary_hashtable) (hash k mod 2 ^ a.(a_hashpower)) = Some hd ->
  moving (<[x := set_it_h_next hd it]> h)
    (upd_bucket (Primary, hash k mod 2 ^ a.(a_hashpower)) x a) ({[x]} ∪ D).
Proof.
  intros [G HG] Hp Hx Hb Hit Hxn HxD Hk Heb Hnew Hhd.
  pose proof (bucket_ref_advance a (hash k) Hp Hx Hb) as Hbr.
  rewrite decide_True in Hbr by done.
  pose proof (assoc_insert_repG _ _ _ _ x it k hd HG Hit Hxn HxD Hk Hnew) as HG'.
  cbv zeta in HG'.
  change (bucket_ref (set_a_hash_items _ ?y) ?v) with (bucket_ref y v) in HG'.
  rewrite Hbr in HG'. simpl in HG'. destruct (advance_fields a) as (_ & Ht & _).
  rewrite Ht in HG'. specialize (HG' Hhd).
  eexists. rewrite advance_push.
  pose proof (ar_count _ _ _ _ HG') as Hc. simpl in Hc. rewrite <- Hc. exact HG'.
Qed.

Lemma move_chain_run l : forall fuel it e D (Q : unit -> engine -> Prop),
  let a := e.(e_assoc) in
  moving e.(e_heap) a D -> 0 < a.(a_hashpower) < 32 -> a.(a_expanding) = true ->
  0 <= a.(a_expand_bucket) < 2 ^ (a.(a_hashpower) - 1) ->
  Z.of_nat (length a.(a_primary_hashtable)) = 2 ^ a.(a_hashpower) ->
  chain (hnexts e.(e_heap)) it l ->
  (forall p, p ∈ l -> (p ∉ D) /\ exists k, has_key e.(e_heap) p k /\
      hash k mod 2 ^ (a.(a_hashpower) - 1) = a.(a_expand_bucket)) ->
  (forall p q k, p ∈ l -> (q ∈ l \/ q ∈ D) ->
      has_key e.(e_heap) p k -> has_key e.(e_heap) q k -> p = q) ->
  (length l < fuel)%nat ->
  (forall e' t, moving e'.(e_heap) e'.(e_assoc) (list_to_set l ∪ D) ->
      assoc_frame e e' -> e'.(e_assoc) = set_a_primary_hashtable t a -> Q tt e') ->
  runs (move_chain fuel it) e Q.
Proof.
  induction l as [|x xs IH]; intros [|fuel] p e D Q a Hmv Hp Hx Hb Hlen Hc Hl Hu Hf HQ;
    simpl in Hf; try lia; cbn [move_chain].
  - simpl in Hc. rewrite Hc. simpl. apply runs_ret.
    apply (HQ e a.(a_primary_hashtable)); [|by apply assoc_frame_refl|
      unfold a; by destruct (e_assoc e)].
    replace (list_to_set [] ∪ D) with D by set_solver. done.
  - pose proof (chain_nodup _ _ _ Hc) as [Hxs _]%NoDup_cons.
    destruct Hc as (-> & Hxn & q & Hq & Hc). destruct (Z.eqb_spec x NULL); [done|].
    destruct (Hl x) as [HxD (k & Hk & Heb)]; [by left|].
    apply hnexts_lookup in Hq as (it & Hit & Hnx).
    assert (Hki : item_get_key it = k).
    { apply has_key_item in Hk as (it' & ? & ? & _). congruence. }
    run. eapply runs_load; [exact Hit|]. run. rewrite Hki, land_hashmask by (fold a; lia).
    assert (Hpos : 0 < 2 ^ a.(a_hashpower)) by (apply Z.pow_pos_nonneg; lia).
    pose proof (Z.mod_pos_bound (hash k) (2 ^ a.(a_hashpower)) Hpos) as Hm.
    destruct (zlookup_lt a.(a_primary_hashtable) (hash k mod 2 ^ a.(a_hashpower)))
      as [hd Hhd]; [lia|].
    fold a. eapply (runs_read_bucket (Primary, _)); [exact Hhd|].
    run. eapply runs_store; [exact Hit|].
    run. apply (runs_write_bucket (Primary, _)); [simpl; fold a; lia|]. rewrite Hnx.
    assert (Hkey : forall q0 k0, has_key (<[x:=set_it_h_next hd it]> (e_heap e)) q0 k0
      <-> has_key (e_heap e) q0 k0).
    { intros. unfold has_key, kviews. by erewrite fmap_insert_same. }
    eapply (IH _ _ _ ({[x]} ∪ D)); simpl; fold a; try done.
    + eapply moving_push; eauto. intros y Hy Hyk.
      apply HxD. replace x with y; [done|]. symmetry. eapply Hu; eauto. by left.
    + by rewrite length_insert.
    + unfold hnexts. rewrite fmap_insert. by apply chain_insert_notin.
    + intros y Hy. destruct (Hl y) as [HyD (ky & Hky & He)]; [by right|].
      split; [intros [->%elem_of_singleton|]%elem_of_union; done|].
      exists ky. by rewrite Hkey.
    + intros y z ky Hy Hz. rewrite !Hkey. apply Hu; [by right|].
      rewrite elem_of_union, elem_of_singleton in Hz. rewrite elem_of_cons. tauto.
    + lia.
    + intros e' t Hmv' Hfr Ha'. eapply (HQ e' t).
      * replace (list_to_set (x :: xs) ∪ D) with (list_to_set xs ∪ ({[x]} ∪ D))
          by set_solver. done.
      * eapply assoc_frame_trans; [|exact Hfr]. split; [by apply erase_hn_store|done].
      * rewrite Ha'. done.
Qed.

(** The number of buckets the maintenance thread has still to move. *)
Definition remaining (a : assoc) : Z :=
  if a.(a_expanding) then 2 ^ (a.(a_hashpower) - 1) - a.(a_expand_bucket) else 0.

Lemma remaining_advance h a D G :
  assoc_repG h a D G -> a.(a_expanding) = true ->
  remaining (advance a) = remaining a - 1 /\
  ((advance a).(a_expanding) = false <-> remaining (advance a) = 0).
Proof.
  intros HG Hx. destruct (ar_old _ _ _ _ HG Hx) as [_ Hb].
  unfold remaining, advance. rewrite Hx. simpl.
  destruct (Z.eqb_spec (a_expand_bucket a + 1) (2 ^ (a_hashpower a - 1))); simpl;
    rewrite ?Hx; split; try lia; done.
Qed.

(** The end of a round: the code's assignments give the advanced table. *)
Lemma finish_round e a D (Q : unit -> engine -> Prop) :
  moving e.(e_heap) e.(e_assoc) D -> e.(e_assoc) = a ->
  a.(a_expanding) = true -> 0 < a.(a_hashpower) < 32 ->
  0 <= a.(a_expand_bucket) < 2 ^ (a.(a_hashpower) - 1) ->
  Z.of_nat (length a.(a_old_hashtable)) = 2 ^ (a.(a_hashpower) - 1) ->
  Q tt (set_e_assoc (advance a) e) ->
  runs (write_bucket (Old, a.(a_expand_bucket)) NULL;;
        upd_assoc (fun a' => set_a_expand_bucket (u32 (a'.(a_expand_bucket) + 1)) a');;
        a' ← gets e_assoc;
        when (a'.(a_expand_bucket) =? hashsize (a'.(a_hashpower) - 1))
          (upd_assoc (fun b => set_a_old_hashtable [] (set_a_expanding false b)))) e Q.
Proof.
  intros Hmv Ha Hx Hp Hb Hlen HQ. run. apply runs_write_bucket; [simpl; rewrite Ha; lia|].
  run. simpl. rewrite Ha, hashsize_pow by (simpl; lia). simpl.
  assert (2 ^ (a_hashpower a - 1) < 2 ^ 32) by (apply Z.pow_lt_mono_r; lia).
  rewrite u32_small by lia. unfold advance in HQ. simpl in HQ. unfold when.
  destruct (_ =? _); run; simpl; rewrite ?Ha; destruct e; exact HQ.
Qed.

Lemma assoc_move_bucket_run e D (Q : bool -> engine -> Prop) :
  assoc_rep e.(e_heap) e.(e_assoc) D ->
  (forall e', assoc_rep e'.(e_heap) e'.(e_assoc) D -> assoc_frame e e' ->
     remaining e'.(e_assoc) = Z.max 0 (remaining e.(e_assoc) - 1) ->
     Q (remaining e'.(e_assoc) =? 0) e') ->
  runs assoc_move_bucket e Q.
Proof.
  intros [G HG] HQ. unfold assoc_move_bucket. run. apply runs_when; intros Hx.
  - pose proof (ar_power _ _ _ _ HG) as Hp.
    destruct (ar_old _ _ _ _ HG Hx) as [Hlen Hb].
    set (a := e_assoc e) in *. set (s := (Old, a.(a_expand_bucket))).
    destruct (zlookup_lt a.(a_old_hashtable) a.(a_expand_bucket)) as [it Hit]; [lia|].
    pose proof (ar_chain _ _ _ _ HG s it Hx Hit) as Hc.
    pose proof (advance_repG _ _ _ _ HG Hx) as HG0.
    run. eapply runs_read_bucket; [exact Hit|]. run.
    assert (HGD : forall p, p ∈ G s -> p ∈ D) by (by apply (ar_home _ _ _ _ HG)).
    assert (HDD : list_to_set (G s) ∪ D ∖ list_to_set (G s) = D).
    { apply set_eq. intros p. rewrite elem_of_union, elem_of_difference.
      rewrite elem_of_list_to_set. destruct (decide (p ∈ G s)); naive_solver. }
    eapply (move_chain_run (G s) _ _ _ (D ∖ list_to_set (G s))); fold a; try done.
    + by eexists.
    + apply (ar_primary _ _ _ _ HG).
    + intros p Hin. split; [set_solver|].
      destruct (ar_key _ _ _ _ HG p (HGD _ Hin)) as (k & Hk & Hs). exists k.
      split; [done|]. apply Hs in Hin. rewrite bucket_ref_mod in Hin by done.
      unfold bucket_mod in Hin. destruct (_ && _) in Hin; [|discriminate].
      by injection Hin as ->.
    + intros p q k Hin Hq. apply (ar_uniq _ _ _ _ HG); [auto|].
      destruct Hq as [|[? _]%elem_of_difference]; auto.
    + by eapply chain_fuel_enough.
    + intros e' t Hmv Hfr Ha. rewrite HDD in Hmv.
      apply (finish_round _ (set_a_primary_hashtable t a) D); [done|done|done..|].
      destruct Hmv as [G' HG']. run.
      pose proof (ar_count _ _ _ _ HG) as Hcnt. rewrite <- Hcnt in HG'.
      destruct (remaining_advance _ _ _ _ HG Hx) as [Hrem Hrem0].
      assert (Hr1 : remaining a - 1 >= 0) by (unfold remaining; rewrite Hx; lia).
      assert (Hadv : advance (set_a_primary_hashtable t a)
                     = set_a_primary_hashtable t (advance a))
        by (unfold advance; simpl; by destruct (_ =? _)).
      replace (negb _) with (remaining (advance (set_a_primary_hashtable t a)) =? 0).
      * apply (HQ (set_e_assoc (advance (set_a_primary_hashtable t a)) e')); simpl.
        -- exists G'. rewrite <- Ha. replace (advance (e_assoc e')) with
             (set_a_hash_items (a_hash_items a) (advance (e_assoc e'))); [exact HG'|].
           rewrite Ha, Hadv. unfold advance. simpl. by destruct (_ =? _), a.
        -- eapply assoc_frame_trans; [exact Hfr|]. split; [done|by destruct e'].
        -- rewrite Hadv. fold a. change (remaining (set_a_primary_hashtable t ?b))
             with (remaining b). lia.
      * simpl. rewrite Hadv. change (remaining (set_a_primary_hashtable t ?b))
          with (remaining b). simpl.
        destruct (a_expanding (advance a)); simpl.
        -- apply Z.eqb_neq. intros ?%Hrem0. discriminate.
        -- apply Z.eqb_eq. by apply Hrem0.
  - run. rewrite Hx. simpl.
    replace true with (remaining (e_assoc e) =? 0)
      by (unfold remaining; by rewrite Hx).
    apply HQ; [by exists G|apply assoc_frame_refl|].
    unfold remaining. rewrite Hx. lia.
Qed.

(** The thread stops, after as many rounds as there are buckets left. *)
Lemma maintenance_loop_run n : forall e D (Q : unit -> engine -> Prop),
  assoc_rep e.(e_heap) e.(e_assoc) D -> remaining e.(e_assoc) <= Z.of_nat n ->
  (forall e', assoc_rep e'.(e_heap) e'.(e_assoc) D -> assoc_frame e e' ->
     e'.(e_assoc).(a_expanding) = false -> Q tt e') ->
  runs (maintenance_loop (S n)) e Q.
Proof.
  assert (Hnx : forall a h D, assoc_rep h a D -> remaining a = 0 -> a.(a_expanding) = false).
  { intros a h D [G HG]. unfold remaining. destruct (a_expanding a) eqn:Hx; [|done].
    destruct (ar_old _ _ _ _ HG Hx) as [_ Hb]. lia. }
  induction n as [|n IH]; intros e D Q Hrep Hrem HQ; cbn [maintenance_loop];
    apply runs_bind; eapply assoc_move_bucket_run; [exact Hrep| |exact Hrep|];
    intros e' Hrep' Hfr Hrem'; destruct (Z.eqb_spec (remaining (e_assoc e')) 0) as [Hz|Hz].
  - run. apply HQ; eauto.
  - lia.
  - run. apply HQ; eauto.
  - apply (IH e' D); [done|lia|]. intros e'' Hr2 Hf2 Hx2. apply HQ; [done| |done].
    by eapply assoc_frame_trans.
Qed.
End rep.

(** ** The table of a new engine *)

Lemma assoc_rep_empty `{EnvOk} h a :
  0 < a.(a_hashpower) < 32 -> a.(a_expanding) = false -> a.(a_hash_items) = 0 ->
  a.(a_primary_hashtable) = calloc_table (hashsize a.(a_hashpower)) ->
  assoc_rep h a ∅.
Proof.
  intros Hp Hx Hn Ht. exists (fun _ => []).
  constructor; rewrite ?Hx, ?Hn; try done; try set_solver.
  - rewrite Ht. unfold calloc_table. rewrite length_replicate, hashsize_pow by lia.
    rewrite Z2Nat.id; [done|apply Z.pow_nonneg; lia].
  - intros [[] i] p; simpl; [|congruence]. rewrite Ht. intros _. apply zlookup_calloc.
Qed.

(** * The interface to the items

    What the item layer relies on: an index of a set of items by key, with
    [assoc_find], [assoc_insert] and [assoc_delete]. *)
Class KeyIndex `{EnvOk}
    (rep : gmap Z hash_item -> assoc -> gset Z -> Prop) : Prop := {
  ki_find : forall e D k (Q : Z -> engine -> Prop),
    rep e.(e_heap) e.(e_assoc) D ->
    (forall p, find_result e.(e_heap) D k p -> Q p e) ->
    runs (assoc_find (hash k) k) e Q;
  ki_insert : forall e D p it k (Q : Z -> engine -> Prop),
    rep e.(e_heap) e.(e_assoc) D -> e.(e_heap) !! p = Some it -> p <> NULL ->
    p ∉ D -> has_key e.(e_heap) p k -> (forall q, q ∈ D -> ~ has_key e.(e_heap) q k) ->
    Z.of_nat (size D) < 2 ^ 30 ->
    (forall e', rep e'.(e_heap) e'.(e_assoc) ({[p]} ∪ D) -> assoc_frame e e' -> Q 1 e') ->
    runs (assoc_insert (hash k) p) e Q;
  ki_delete : forall e D p k (Q : unit -> engine -> Prop),
    rep e.(e_heap) e.(e_assoc) D -> p ∈ D -> has_key e.(e_heap) p k ->
    (forall e', rep e'.(e_heap) e'.(e_assoc) (D ∖ {[p]}) -> assoc_frame e e' -> Q tt e') ->
    runs (assoc_delete (hash k) k) e Q;
  ki_local : forall h h' a D, same_index D h h' -> rep h a D -> rep h' a D;
  ki_uniq : forall h a D p q k,
    rep h a D -> p ∈ D -> q ∈ D -> has_key h p k -> has_key h q k -> p = q;
  ki_null : forall h a D, rep h a D -> NULL ∉ D
}.

#[global] Instance assoc_rep_index `{EnvOk} : KeyIndex assoc_rep.
Proof.
  constructor.
  - apply assoc_find_run.
  - apply assoc_insert_run.
  - apply assoc_delete_run.
  - apply assoc_rep_local.
  - intros h a D p q k [G HG]. apply (ar_uniq _ _ _ _ HG).
  - intros h a D [G HG]. apply (ar_null _ _ _ _ HG).
Qed.

(** * Interleavings

    The operations on the table take the cache lock, so an execution is a
    sequence of them: insertions and deletions of items by the request
    threads, and rounds of the maintenance thread at arbitrary places. *)

Inductive assoc_op := OpInsert (p : Z) | OpDelete (p : Z) | OpMove.

Definition run_op `{Env} (o : assoc_op) : E unit :=
  match o with
  | OpInsert p => it ← load p; assoc_insert (hash (item_get_key it)) p;; mret tt
  | OpDelete p => it ← load p; assoc_delete (hash (item_get_key it)) (item_get_key it)
  | OpMove => assoc_move_bucket;; mret tt
  end.

Fixpoint run_ops `{Env} (os : list assoc_op) : E unit :=
  match os with [] => mret tt | o :: os' => run_op o;; run_ops os' end.

(** The abstract table is a set of items. *)
Definition spec_op (o : assoc_op) (D : gset Z) : gset Z :=
  match o with OpInsert p => {[p]} ∪ D | OpDelete p => D ∖ {[p]} | OpMove => D end.

Definition spec_ops (os : list assoc_op) (D : gset Z) : gset Z :=
  foldl (fun D o => spec_op o D) D os.

(** Callers insert an item whose key is not indexed and delete an item that
    is. *)
Definition op_ok (h : gmap Z hash_item) (o : assoc_op) (D : gset Z) : Prop :=
  match o with
  | OpInsert p => p <> NULL /\ (p ∉ D) /\ Z.of_nat (size D) < 2 ^ 30 /\
      exists k, has_key h p k /\ forall q, q ∈ D -> ~ has_key h q k
  | OpDelete p => p ∈ D /\ exists k, has_key h p k
  | OpMove => True
  end.

Fixpoint ops_ok (h : gmap Z hash_item) (os : list assoc_op) (D : gset Z) : Prop :=
  match os with
  | [] => True
  | o :: os' => op_ok h o D /\ ops_ok h os' (spec_op o D)
  end.

Lemma has_key_frame e e' p k :
  assoc_frame e e' -> has_key e'.(e_heap) p k <-> has_key e.(e_heap) p k.
Proof. intros (He & _). unfold has_key. by rewrite (erase_kviews _ _ He). Qed.

Lemma op_ok_frame e e' o D :
  assoc_frame e e' -> op_ok e.(e_heap) o D -> op_ok e'.(e_heap) o D.
Proof.
  intros Hfr. pose proof (fun p k => has_key_frame e e' p k Hfr) as Hk.
  destruct o; simpl; try setoid_rewrite Hk; done.
Qed.

Lemma ops_ok_frame e e' os : forall D,
  assoc_frame e e' -> ops_ok e.(e_heap) os D -> ops_ok e'.(e_heap) os D.
Proof.
  induction os as [|o os IH]; intros D Hfr; simpl; [done|].
  intros [? ?]. split; [by eapply op_ok_frame|by apply IH].
Qed.

Lemma run_op_ok `{EnvOk} e o D (Q : unit -> engine -> Prop) :
  assoc_rep e.(e_heap) e.(e_assoc) D -> op_ok e.(e_heap) o D ->
  (forall e', assoc_rep e'.(e_heap) e'.(e_assoc) (spec_op o D) -> assoc_frame e e' ->
              Q tt e') ->
  runs (run_op o) e Q.
Proof.
  intros Hrep Hok HQ. destruct o as [p|p|]; simpl in *; run.
  - destruct Hok as (Hp & HpD & Hsz & k & Hk & Hnew).
    pose proof Hk as (it & Hit & Hki & _)%has_key_item.
    eapply runs_load; [exact Hit|]. run. rewrite Hki.
    eapply assoc_insert_run; eauto. intros e' Hr Hf. run. auto.
  - destruct Hok as (HpD & k & Hk). pose proof Hk as (it & Hit & Hki & _)%has_key_item.
    eapply runs_load; [exact Hit|]. rewrite Hki. eapply assoc_delete_run; eauto.
  - eapply assoc_move_bucket_run; [exact Hrep|]. intros e' Hr Hf _. run. auto.
Qed.

Lemma run_ops_ok `{EnvOk} os : forall e D (Q : unit -> engine -> Prop),
  assoc_rep e.(e_heap) e.(e_assoc) D -> ops_ok e.(e_heap) os D ->
  (forall e', assoc_rep e'.(e_heap) e'.(e_assoc) (spec_ops os D) -> assoc_frame e e' ->
              Q tt e') ->
  runs (run_ops os) e Q.
Proof.
  induction os as [|o os IH]; intros e D Q Hrep Hok HQ; simpl.
  - run. apply HQ; [done|apply assoc_frame_refl].
  - destruct Hok as [Ho Hos]. run. eapply run_op_ok; [done|done|].
    intros e' Hr Hf. eapply IH; [done|by eapply ops_ok_frame|].
    intros e'' Hr' Hf'. apply HQ; [done|]. by eapply assoc_frame_trans.
Qed.

(** * Properties *)

(** C24: every interleaving of insertions, deletions and rounds of the maintenance
    thread that respects the callers' obligations runs without a failed
    assertion, leaves the table representing exactly the set of items the
    abstract operations give, touches nothing but the table and the [h_next]
    links, and afterwards [assoc_find] returns for each key the item of that set
    with this key, or [NULL], whatever the progress of an expansion. *)
Theorem assoc_interleaving `{EnvOk} e D os :
  assoc_rep e.(e_heap) e.(e_assoc) D -> ops_ok e.(e_heap) os D ->
  runs (run_ops os) e (fun _ e' =>
    assoc_rep e'.(e_heap) e'.(e_assoc) (spec_ops os D) /\ assoc_frame e e' /\
    forall k, runs (assoc_find (hash k) k) e' (fun p e'' =>
      e'' = e' /\ find_result e.(e_heap) (spec_ops os D) k p)).
Proof.
  intros Hrep Hok. eapply run_ops_ok; [done..|]. intros e' Hr Hf.
  split; [done|]. split; [done|]. intros k. eapply assoc_find_run; [done|].
  intros p Hp. split; [done|]. unfold find_result in *.
  by setoid_rewrite <- (has_key_frame _ _ _ _ Hf).
Qed.

(** C25: the maintenance thread terminates within as many rounds as the old table has
    buckets and one more (the fuel of [assoc_maintenance_thread]), whatever bucket it
    starts from; it ends the expansion, and the items in the table are the same. *)
Theorem assoc_maintenance_terminates `{EnvOk} e D :
  assoc_rep e.(e_heap) e.(e_assoc) D ->
  runs assoc_maintenance_thread e (fun _ e' =>
    assoc_rep e'.(e_heap) e'.(e_assoc) D /\ e'.(e_assoc).(a_expanding) = false /\
    assoc_frame e e').
Proof.
  intros Hrep. unfold assoc_maintenance_thread. run.
  eapply maintenance_loop_run; [exact Hrep| |auto].
  destruct Hrep as [G HG]. unfold remaining. destruct (a_expanding _) eqn:Hx; [|lia].
  destruct (ar_old _ _ _ _ HG Hx). lia.
Qed.

(** [assoc_init] either reports [ENGINE_ENOMEM] when the allocation fails or
    returns [ENGINE_SUCCESS] with an empty table of [2 ^ hashpower] buckets. *)
Theorem assoc_init_empty `{EnvOk} e :
  0 < e.(e_assoc).(a_hashpower) < 32 -> e.(e_assoc).(a_expanding) = false ->
  e.(e_assoc).(a_hash_items) = 0 ->
  runs assoc_init e (fun r e' =>
    if sys_calloc e.(e_calls) (hashsize e.(e_assoc).(a_hashpower) * 8)
    then r = ENGINE_SUCCESS /\ assoc_rep e'.(e_heap) e'.(e_assoc) ∅ /\
         Z.of_nat (length e'.(e_assoc).(a_primary_hashtable))
           = 2 ^ e.(e_assoc).(a_hashpower)
    else r = ENGINE_ENOMEM).
Proof.
  intros Hp Hx Hn. unfold assoc_init. run. destruct (sys_calloc _ _); simpl; run;
    [|done]. split; [done|].
  assert (Hrep : assoc_rep (e_heap e) (set_a_primary_hashtable
    (calloc_table (hashsize (a_hashpower (e_assoc e)))) (e_assoc e)) ∅)
    by (by apply assoc_rep_empty).
  split; [done|]. destruct Hrep as [G HG]. apply (ar_primary _ _ _ _ HG).
Qed.

(** ** Witnesses *)

Definition demo_item (key : list Z) : hash_item :=
  mk_item 0 0 0 0 0 0 0 (Z.of_nat (length key)) 0 0 0 0 0 key.

(** Five items and a table of two buckets, so that the insertions start an
    expansion that the moves complete. *)
Definition demo_assoc_engine : engine :=
  set_e_assoc (mk_assoc 1 [0; 0] [] 0 false 0)
    (set_e_heap (list_to_map (imap (fun i k => (Z.of_nat i + 1, demo_item k))
       [[97]; [98]; [99]; [100]; [97; 98]])) blank_engine).

Definition demo_assoc_ops : list assoc_op :=
  [OpInsert 1; OpInsert 2; OpMove; OpInsert 3; OpInsert 4; OpMove; OpInsert 5;
   OpDelete 2; OpMove; OpMove].

#[local] Existing Instance demo_env.
#[local] Existing Instance demo_env_ok.

Lemma demo_assoc_rep :
  assoc_rep demo_assoc_engine.(e_heap) demo_assoc_engine.(e_assoc) ∅.
Proof. by apply assoc_rep_empty. Qed.

(** A test for [ops_ok]. *)
Definition own_key (h : gmap Z hash_item) (p : Z) : option (list Z) :=
  it ← h !! p;
  if it.(it_nkey) =? Z.of_nat (length (item_get_key it)) then Some (item_get_key it) else None.

Definition op_okb (h : gmap Z hash_item) (o : assoc_op) (D : gset Z) : bool :=
  match o with
  | OpInsert p =>
      negb (p =? NULL) && bool_decide (p ∉ D) && (Z.of_nat (size D) <? 2 ^ 30) &&
      match own_key h p with
      | Some k => forallb (fun q => negb (bool_decide
          (kviews h !! q = Some (Z.of_nat (length k), k)))) (elements D)
      | None => false
      end
  | OpDelete p => bool_decide (p ∈ D) && bool_decide (is_Some (own_key h p))
  | OpMove => true
  end.

Fixpoint ops_okb (h : gmap Z hash_item) (os : list assoc_op) (D : gset Z) : bool :=
  match os with [] => true | o :: os' => op_okb h o D && ops_okb h os' (spec_op o D) end.

Lemma own_key_has_key h p k : own_key h p = Some k -> has_key h p k.
Proof.
  unfold own_key. intros (it & Hit & Hk)%bind_Some. apply has_key_item. exists it.
  destruct (Z.eqb_spec (it_nkey it) (Z.of_nat (length (item_get_key it))));
    [|discriminate]. injection Hk as <-. auto.
Qed.

Lemma op_okb_ok h o D : op_okb h o D = true -> op_ok h o D.
Proof.
  destruct o as [p|p|]; simpl; [| |done].
  - destruct (own_key h p) as [k|] eqn:Hk; [|rewrite andb_false_r; discriminate].
    intros Hb. boolify. repeat split; try done; [by eapply bool_decide_eq_true|].
    exists k. split; [by apply own_key_has_key|]. intros q Hq Hqk.
    rewrite forallb_forall in H0. apply elem_of_elements, list_elem_of_In, H0 in Hq.
    by apply negb_true_iff, bool_decide_eq_false in Hq.
  - intros Hb. boolify. rewrite bool_decide_eq_true in H, H0. split; [done|].
    destruct H0 as [k Hk]. exists k. by apply own_key_has_key.
Qed.

Lemma ops_okb_ok h os : forall D, ops_okb h os D = true -> ops_ok h os D.
Proof.
  induction os as [|o os IH]; intros D; simpl; [done|].
  intros [? ?]%andb_true_iff. split; [by apply op_okb_ok|by apply IH].
Qed.

Lemma assoc_interleaving_witness :
  ops_ok demo_assoc_engine.(e_heap) demo_assoc_ops ∅ /\
  runs (run_ops demo_assoc_ops) demo_assoc_engine (fun _ e' =>
    assoc_rep e'.(e_heap) e'.(e_assoc) (spec_ops demo_assoc_ops ∅) /\
    assoc_frame demo_assoc_engine e' /\
    forall k, runs (assoc_find (hash k) k) e' (fun p e'' => e'' = e' /\
      find_result demo_assoc_engine.(e_heap) (spec_ops demo_assoc_ops ∅) k p)).
Proof.
  assert (Hok : ops_ok demo_assoc_engine.(e_heap) demo_assoc_ops ∅)
    by (apply ops_okb_ok; vm_compute; reflexivity).
  split; [exact Hok|]. apply assoc_interleaving; [apply demo_assoc_rep|exact Hok].
Defined.

(** Four items are inserted into the table of two buckets, and the fourth starts an
    expansion: no bucket has been moved. *)
Definition expanding_ops : list assoc_op := [OpInsert 1; OpInsert 2; OpInsert 3; OpInsert 4].
Definition expanding_engine : engine :=
  match run_ops expanding_ops demo_assoc_engine with Some (_, e) => e | None => demo_assoc_engine end.

Lemma expanding_rep : assoc_rep expanding_engine.(e_heap) expanding_engine.(e_assoc) {[1; 2; 3; 4]}.
Proof.
  assert (Hok : ops_ok demo_assoc_engine.(e_heap) expanding_ops ∅) by (apply ops_okb_ok; vm_compute; reflexivity).
  destruct (run_ops_ok expanding_ops _ _ (fun _ e' => assoc_rep e'.(e_heap) e'.(e_assoc) (spec_ops expanding_ops ∅))
    demo_assoc_rep Hok) as ([] & e' & Hr & Hrep); [done|].
  unfold expanding_engine. rewrite Hr. replace {[1; 2; 3; 4]} with (spec_ops expanding_ops ∅) by (vm_compute; reflexivity). exact Hrep.
Qed.

(** The thread moves both buckets: the items 1 to 4 are in the old table before and in
    the new one of four buckets afterwards. *)
Lemma assoc_maintenance_terminates_witness :
  expanding_engine.(e_assoc).(a_expanding) = true /\ length expanding_engine.(e_assoc).(a_old_hashtable) = 2%nat /\
  runs assoc_maintenance_thread expanding_engine (fun _ e' =>
    assoc_rep e'.(e_heap) e'.(e_assoc) {[1; 2; 3; 4]} /\ e'.(e_assoc).(a_expanding) = false /\
    assoc_frame expanding_engine e') /\
  fst <$> (a ← gets e_assoc; assoc_maintenance_thread;; a' ← gets e_assoc;
           mret (a.(a_primary_hashtable), a'.(a_primary_hashtable))) expanding_engine = Some ([0; 0; 0; 0], [4; 1; 2; 3]).
Proof.
  split; [vm_compute; reflexivity|]. split; [vm_compute; reflexivity|]. split; [|vm_compute; reflexivity].
  apply assoc_maintenance_terminates, expanding_rep.
Defined.

Lemma assoc_init_empty_witness :
  runs assoc_init demo_assoc_engine (fun r e' =>
    if sys_calloc 0 16 then r = ENGINE_SUCCESS /\ assoc_rep e'.(e_heap) e'.(e_assoc) ∅ /\
         Z.of_nat (length e'.(e_assoc).(a_primary_hashtable)) = 2 ^ 1
    else r = ENGINE_ENOMEM).
Proof. apply (assoc_init_empty demo_assoc_engine); done. Defined.

(** The operations evaluate: after the sequence the expansion is over, and the
    item 4 is found by its key while the deleted item 2 is not. *)
Example demo_assoc_run :
  fst <$> (run_ops demo_assoc_ops;;
           a ← gets e_assoc;
           p ← assoc_find (hash [100]) [100];
           q ← assoc_find (hash [98]) [98];
           mret (a.(a_hashpower), a.(a_expanding), p, q)) demo_assoc_engine
  = Some (2, false, 4, 0).
Proof. vm_compute. reflexivity. Qed.
