(* ===== verification/Slabs.v ===== *)
(** * The slab allocator of the default engine ([slabs.c])

    Slab classes of increasing chunk size, pages carved into chunks, and the free
    list of each class; the proof that a chunk is never handed out twice and that
    the chunk of a class is large enough for what was asked. The code is built
    with [DONT_PREALLOC_SLABS] and without [USE_SYSTEM_MALLOC]. *)
From Stdlib Require Import ZArith Lia SpecFloat.
From stdpp Require Import strings gmap prelude.
From S2P Require Import Prelude Util EngineState.

#[local] Set Warnings "-clear-no-such-hyp".
#[local] Arguments replicate : simpl never.

(** ** Classes *)

Definition get_class (id : Z) : E slabclass_t :=
  s ← gets e_slabs; of_option (zlookup s.(s_slabclass) id).

Definition upd_class (id : Z) (f : slabclass_t -> slabclass_t) : E unit :=
  s ← gets e_slabs;
  c ← of_option (zlookup s.(s_slabclass) id);
  l ← of_option (zupdate s.(s_slabclass) id (f c));
  upd_slabs (set_s_slabclass l).

(** The loop of [slabs_clsid]; [res] grows up to [power_largest], so that the
    number of classes bounds the fuel. *)
Fixpoint clsid_loop (fuel : nat) (s : slabs) (size res : Z) : option Z :=
  match fuel with
  | O => None
  | S n =>
      c ← zlookup s.(s_slabclass) res;
      if c.(p_size) <? size then
        if res =? s.(s_power_largest) then Some 0 else clsid_loop n s size (res + 1)
      else Some res
  end.

Definition slabs_clsid (size : Z) : E Z :=
  s ← gets e_slabs;
  if size =? 0 then mret 0
  else of_option (clsid_loop (length s.(s_slabclass)) s size POWER_SMALLEST).

(** ** Double precision arithmetic of the growth factor *)

Definition SF_of_Z (z : Z) : spec_float := binary_normalize 53 1024 z 0 false.

(** [(unsigned int)] of a double. *)
Definition u32_of_SF (x : spec_float) : Z :=
  match x with
  | S754_finite false m e => u32 (if 0 <=? e then Zpos m * 2 ^ e else Zpos m / 2 ^ (- e))
  | S754_finite true m e => u32 (- (if 0 <=? e then Zpos m * 2 ^ e else Zpos m / 2 ^ (- e)))
  | _ => 0
  end.

(** [size <= item_size_max / factor] and [(unsigned int)(size * factor)]. *)
Definition below_limit (size limit : Z) (factor : spec_float) : bool :=
  SFleb (SF_of_Z size) (SFdiv 53 1024 (SF_of_Z limit) factor).

Definition scale (size : Z) (factor : spec_float) : Z :=
  u32_of_SF (SFmul 53 1024 (SF_of_Z size) factor).

(** [if (size % CHUNK_ALIGN_BYTES) size += CHUNK_ALIGN_BYTES - (size % CHUNK_ALIGN_BYTES)] *)
Definition align (size : Z) : Z :=
  if size mod CHUNK_ALIGN_BYTES =? 0 then size
  else size + (CHUNK_ALIGN_BYTES - size mod CHUNK_ALIGN_BYTES).

Section model.
Context `{Env}.

(** ** Memory *)

Definition my_allocate (size : Z) : E Z :=
  s ← gets e_slabs;
  ok ← (if s.(s_allocs_next) =? s.(s_allocs_size) then
          let n := s.(s_allocs_size) + 1024 in
          r ← do_realloc (n * 8);
          if (r : bool) then
            upd_slabs (fun s' => set_s_allocs_size n
              (set_s_allocs_ptrs (s'.(s_allocs_ptrs) ++ replicate 1024 NULL) s'));;
            mret true
          else mret false
        else mret true);
  if negb ok then mret NULL else
  ptr ← do_malloc size;
  when (negb (ptr =? NULL))
    (s' ← gets e_slabs;
     l ← of_option (zupdate s'.(s_allocs_ptrs) s'.(s_allocs_next) ptr);
     upd_slabs (fun s'' => set_s_allocs_next (s''.(s_allocs_next) + 1)
                  (set_s_allocs_ptrs l s'')));;
  mret ptr.

Definition memory_allocate (size : Z) : E Z :=
  s ← gets e_slabs;
  if s.(s_mem_base) =? NULL then my_allocate size
  else if s.(s_mem_avail) <? size then mret NULL
  else
    let size' := align size in
    upd_slabs (fun s' => set_s_mem_avail
      (if size' <? s'.(s_mem_avail) then s'.(s_mem_avail) - size' else 0)
      (set_s_mem_current (s'.(s_mem_current) + size') s'));;
    mret s.(s_mem_current).

(** ** Initialisation *)

(** The loop of [slabs_init] over the classes: [i] and [size] at its end. *)
Fixpoint init_loop (fuel : nat) (item_size_max : Z) (factor : spec_float) (i size : Z)
    : E Z :=
  match fuel with
  | O => crash
  | S n =>
      let i' := i + 1 in
      if (i' <? POWER_LARGEST) && below_limit size item_size_max factor then
        let size' := u32 (align size) in
        cassert (negb (size' =? 0));; (* the division by the size *)
        upd_class i' (fun c => set_p_perslab (u32 item_size_max / size') (set_p_size size' c));;
        init_loop n item_size_max factor i' (scale size' factor)
      else mret i'
  end.

(** [t_initial_malloc] is the value of the variable [T_MEMD_INITIAL_MALLOC] of
    the environment, when it is set. *)
Definition slabs_init (limit : Z) (factor : spec_float) (prealloc : bool)
    (t_initial_malloc : option Z) : E ENGINE_ERROR_CODE :=
  cfg ← gets e_config;
  upd_slabs (set_s_mem_limit limit);;
  ok ← (if prealloc then
          base ← my_allocate limit;
          upd_slabs (set_s_mem_base base);;
          if negb (base =? NULL) then
            upd_slabs (fun s => set_s_mem_avail s.(s_mem_limit)
                         (set_s_mem_current base s));;
            mret true
          else mret false
        else mret true);
  if negb ok then mret ENGINE_ENOMEM else
  upd_slabs (set_s_slabclass (replicate (Z.to_nat MAX_NUMBER_OF_SLAB_CLASSES) no_slabclass));;
  i ← init_loop (Z.to_nat POWER_LARGEST) cfg.(c_item_size_max) factor (POWER_SMALLEST - 1)
        (u32 (sizeof_hash_item + u32 cfg.(c_chunk_size)));
  upd_slabs (set_s_power_largest i);;
  upd_class i (fun c => set_p_perslab 1 (set_p_size (u32 cfg.(c_item_size_max)) c));;
  match t_initial_malloc with
  | Some v => upd_slabs (set_s_mem_malloced (u64 v))
  | None => mret tt
  end;;
  mret ENGINE_SUCCESS.

(** ** Pages and chunks *)

Definition grow_slab_list (id : Z) : E Z :=
  p ← get_class id;
  if p.(p_slabs) =? p.(p_list_size) then
    let new_size := if negb (p.(p_list_size) =? 0) then u32 (p.(p_list_size) * 2) else 16 in
    ok ← do_realloc (new_size * 8);
    if negb ok then mret 0
    else upd_class id (fun c => set_p_list_size new_size
           (set_p_slab_list (c.(p_slab_list)
              ++ replicate (Z.to_nat (new_size - p.(p_list_size))) NULL) c));;
         mret 1
  else mret 1.

(** The bytes of a chunk of [size] bytes after the header and the CAS. *)
Definition body_size (use_cas : bool) (size : Z) : Z :=
  size - sizeof_hash_item - (if use_cas then 8 else 0).

Definition page_chunks (ptr size perslab : Z) : list Z :=
  (fun i : nat => ptr + Z.of_nat i * size) <$> seq 0 (Z.to_nat perslab).

(** [memset(ptr, 0, len)]: the chunks of the page hold zeros. *)
Definition zero_page (use_cas : bool) (ptr size perslab : Z) (h : gmap Z hash_item)
    : gmap Z hash_item :=
  list_to_map ((fun x => (x, zero_item (body_size use_cas size)))
                 <$> page_chunks ptr size perslab) ∪ h.

Definition do_slabs_newslab (id : Z) : E Z :=
  p ← get_class id;
  let len := swrap 32 (p.(p_size) * p.(p_perslab)) in
  s ← gets e_slabs;
  if negb (s.(s_mem_limit) =? 0)
     && (s.(s_mem_limit) <? u64 (s.(s_mem_malloced) + len)) && (0 <? p.(p_slabs))
  then mret 0 else
  g ← grow_slab_list id;
  if g =? 0 then mret 0 else
  ptr ← memory_allocate (u64 len);
  if ptr =? NULL then mret 0 else
  cfg ← gets e_config;
  modify (upd_heap (zero_page cfg.(c_use_cas) ptr p.(p_size) p.(p_perslab)));;
  p' ← get_class id;
  l ← of_option (zupdate p'.(p_slab_list) p'.(p_slabs) ptr);
  upd_class id (fun c => set_p_slabs (u32 (c.(p_slabs) + 1)) (set_p_slab_list l
                 (set_p_end_page_free c.(p_perslab) (set_p_end_page_ptr ptr c))));;
  upd_slabs (fun s' => set_s_mem_malloced (u64 (s'.(s_mem_malloced) + len)) s');;
  mret 1.

(** The two parts of [do_slabs_alloc]: [ok] says whether the class has a chunk,
    after [do_slabs_newslab] when it had none. *)
Definition do_slabs_take (size id : Z) (ok : bool) : E Z :=
  p ← get_class id;
  ret ← (if negb ok then mret NULL
         else if negb (p.(p_sl_curr) =? 0) then
           upd_class id (set_p_sl_curr (p.(p_sl_curr) - 1));;
           of_option (zlookup p.(p_slots) (p.(p_sl_curr) - 1))
         else
           cassert (negb (p.(p_end_page_ptr) =? NULL));;
           let free := u32 (p.(p_end_page_free) - 1) in
           upd_class id (fun c => set_p_end_page_ptr
             (if negb (free =? 0) then p.(p_end_page_ptr) + p.(p_size) else NULL)
             (set_p_end_page_free free c));;
           mret p.(p_end_page_ptr));
  when (negb (ret =? NULL))
    (upd_class id (fun c => set_p_requested (u64 (c.(p_requested) + size)) c));;
  mret ret.

Definition do_slabs_alloc (size id : Z) : E Z :=
  s ← gets e_slabs;
  if (id <? POWER_SMALLEST) || (s.(s_power_largest) <? id) then mret NULL else
  p ← get_class id;
  ok ← (if negb (p.(p_end_page_ptr) =? NULL) then mret true
        else if negb (p.(p_sl_curr) =? 0) then mret true
        else r ← do_slabs_newslab id; mret (negb (r =? 0)));
  do_slabs_take size id ok.

Definition do_slabs_free (ptr size id : Z) : E unit :=
  s ← gets e_slabs;
  if (id <? POWER_SMALLEST) || (s.(s_power_largest) <? id) then mret tt else
  p ← get_class id;
  ok ← (if p.(p_sl_curr) =? p.(p_sl_total) then
          let new_size := if negb (p.(p_sl_total) =? 0)
                          then swrap 32 (p.(p_sl_total) * 2) else 16 in
          r ← do_realloc (u64 (new_size * 8));
          if negb r then mret false
          else upd_class id (fun c => set_p_sl_total (u32 new_size)
                 (set_p_slots (c.(p_slots)
                    ++ replicate (Z.to_nat (new_size - p.(p_sl_total))) NULL) c));;
               mret true
        else mret true);
  if negb ok then mret tt else
  p ← get_class id;
  l ← of_option (zupdate p.(p_slots) p.(p_sl_curr) ptr);
  upd_class id (fun c => set_p_requested (u64 (c.(p_requested) - size))
                 (set_p_sl_curr (u32 (c.(p_sl_curr) + 1)) (set_p_slots l c))).

(** The functions of the interface take [slabs.lock] around these. *)
Definition slabs_alloc (size id : Z) : E Z := do_slabs_alloc size id.
Definition slabs_free (ptr size id : Z) : E unit := do_slabs_free ptr size id.

Definition slabs_adjust_mem_requested (id old ntotal : Z) : E unit :=
  s ← gets e_slabs;
  if (id <? POWER_SMALLEST) || (s.(s_power_largest) <? id) then crash
  else upd_class id (fun p => set_p_requested (u64 (p.(p_requested) - old + ntotal)) p).

(** The areas [slabs_destroy] frees: those of [allocs], the array of [allocs]
    itself, and the two arrays of each class. *)
Fixpoint destroy_classes (n : nat) (jj : Z) : E unit :=
  match n with
  | O => mret tt
  | S n' => upd_class jj (fun c => set_p_slots [] (set_p_slab_list [] c));;
            destroy_classes n' (jj + 1)
  end.

Definition slabs_destroy : E (list Z) :=
  s ← gets e_slabs;
  let freed := take (Z.to_nat s.(s_allocs_next)) s.(s_allocs_ptrs) in
  upd_slabs (set_s_allocs_ptrs []);;
  destroy_classes (Z.to_nat (s.(s_power_largest) - POWER_SMALLEST + 1)) POWER_SMALLEST;;
  mret freed.

(** ** Statistics *)

(** What [add_statistics] passes to the callback: the name, with the prefix and the
    number of the class when they are given, and the printed value. The names and
    values are shorter than the buffers. *)
Definition add_statistics (prefix : option string) (num : Z) (key : string) (val : Z) : stat :=
  ((match prefix with Some s => bytes_of s ++ [58] | None => [] end)
     ++ (if negb (num =? -1) then print_u64 num ++ [58] else []) ++ bytes_of key,
   print_u64 val).

Definition class_stats (i : Z) (p : slabclass_t) : list stat :=
  [add_statistics None i "chunk_size" p.(p_size);
   add_statistics None i "chunks_per_page" p.(p_perslab);
   add_statistics None i "total_pages" p.(p_slabs);
   add_statistics None i "total_chunks" (u32 (p.(p_slabs) * p.(p_perslab)));
   add_statistics None i "used_chunks"
     (u32 (p.(p_slabs) * p.(p_perslab) - p.(p_sl_curr) - p.(p_end_page_free)));
   add_statistics None i "free_chunks" p.(p_sl_curr);
   add_statistics None i "free_chunks_end" p.(p_end_page_free);
   add_statistics None i "mem_requested" p.(p_requested)].

(** The loop over the classes: the statistics of those that have a page, and how
    many these are. *)
Fixpoint slabs_stats_loop (n : nat) (i total : Z) : E (list stat * Z) :=
  match n with
  | O => mret ([], total)
  | S n' =>
      p ← get_class i;
      let active := negb (p.(p_slabs) =? 0) in
      r ← slabs_stats_loop n' (i + 1) (if active then u32 (total + 1) else total);
      mret ((if active then class_stats i p else []) ++ r.1, r.2)
  end.

Definition do_slabs_stats : E (list stat) :=
  s ← gets e_slabs;
  r ← slabs_stats_loop (Z.to_nat (s.(s_power_largest) - POWER_SMALLEST + 1)) POWER_SMALLEST 0;
  mret (r.1 ++ [add_statistics None (-1) "active_slabs" r.2;
                add_statistics None (-1) "total_malloced" s.(s_mem_malloced)]).

Definition slabs_stats : E (list stat) := do_slabs_stats.
End model.

(** * The invariant of the allocator *)

Definition end_chunks (c : slabclass_t) : list Z :=
  if c.(p_end_page_ptr) =? NULL then []
  else page_chunks c.(p_end_page_ptr) c.(p_size) c.(p_end_page_free).

Definition list_chunks (c : slabclass_t) : list Z :=
  take (Z.to_nat c.(p_sl_curr)) c.(p_slots).

(** The free chunks of a class: those of its free list and those of the end of
    its last page. *)
Definition free_chunks (c : slabclass_t) : list Z := list_chunks c ++ end_chunks c.

Definition all_free (cs : list slabclass_t) : list Z := mjoin (free_chunks <$> cs).

(** The number of chunks of the class [id] in use. *)
Definition used_count (U : gmap Z Z) (id : Z) : Z :=
  Z.of_nat (size (filter (fun x => x.2 = id) U)).

Record class_ok (U : gmap Z Z) (id : Z) (c : slabclass_t) : Prop := {
  co_curr : 0 <= c.(p_sl_curr) <= c.(p_sl_total);
  co_slots : Z.of_nat (length c.(p_slots)) = c.(p_sl_total);
  co_end : c.(p_end_page_ptr) = NULL <-> c.(p_end_page_free) = 0;
  co_free : 0 <= c.(p_end_page_free);
  co_perslab : c.(p_size) <> 0 -> 0 < c.(p_size) /\ 0 < c.(p_perslab) < 2 ^ 31 /\
    c.(p_size) * c.(p_perslab) < 2 ^ 31;
  co_list : 0 <= c.(p_slabs) <= c.(p_list_size) /\
    Z.of_nat (length c.(p_slab_list)) = c.(p_list_size);
  (* free chunks and used chunks are chunks of the pages of the class *)
  co_count : Z.of_nat (length (free_chunks c)) + used_count U id
             <= c.(p_slabs) * c.(p_perslab)
}.

(** A free chunk carries no class and is not linked. *)
Definition chunk_free (it : hash_item) : Prop :=
  it.(it_slabs_clsid) = 0 /\ has_flag it ITEM_LINKED = false.

Section rep.
Context `{EnvOk}.

(** [x] lies in an area that one of the first [n] allocations returned. *)
Definition in_area (n : nat) (x : Z) : Prop :=
  exists m s, (m < n)%nat /\ sys_malloc m s <> NULL /\
              sys_malloc m s <= x < sys_malloc m s + s.

Record slab_rep (h : gmap Z hash_item) (use_cas : bool) (s : slabs) (calls : nat)
    (U : gmap Z Z) : Prop := {
  sr_len : length s.(s_slabclass) = Z.to_nat MAX_NUMBER_OF_SLAB_CLASSES;
  sr_largest : POWER_SMALLEST <= s.(s_power_largest) <= POWER_LARGEST;
  sr_class : forall id c, zlookup s.(s_slabclass) id = Some c -> class_ok U id c;
  sr_sized : forall id c, POWER_SMALLEST <= id <= s.(s_power_largest) ->
    zlookup s.(s_slabclass) id = Some c -> c.(p_size) <> 0;
  sr_nodup : NoDup (all_free s.(s_slabclass));
  sr_used : forall x, x ∈ all_free s.(s_slabclass) -> x <> NULL /\ U !! x = None;
  sr_chunk : forall id c x, zlookup s.(s_slabclass) id = Some c -> x ∈ free_chunks c ->
    exists it, h !! x = Some it /\ chunk_free it /\
      length it.(it_body) = Z.to_nat (body_size use_cas c.(p_size));
  sr_dom : forall x, is_Some (U !! x) -> is_Some (h !! x) /\ x <> NULL;
  sr_area : forall x, is_Some (h !! x) -> in_area calls x;
  sr_base : s.(s_mem_base) <> NULL ->
    (forall x, is_Some (h !! x) ->
       x < s.(s_mem_current) \/ s.(s_mem_current) + s.(s_mem_avail) <= x) /\
    (s.(s_mem_avail) = 0 \/
     0 < s.(s_mem_current) /\
     forall x, s.(s_mem_current) <= x < s.(s_mem_current) + s.(s_mem_avail) ->
       in_area calls x);
  sr_allocs : 0 <= s.(s_allocs_next) <= s.(s_allocs_size) /\
    Z.of_nat (length s.(s_allocs_ptrs)) = s.(s_allocs_size)
}.
End rep.

(** What an operation of the allocator may change: the allocator, the counter of
    the system calls, and chunks that it adds to the heap. *)
Definition slab_frame (e e' : engine) : Prop :=
  e' = set_e_calls e'.(e_calls) (set_e_slabs e'.(e_slabs) (set_e_heap e'.(e_heap) e)) /\
  e.(e_heap) ⊆ e'.(e_heap) /\
  (forall x it, e.(e_heap) !! x = None -> e'.(e_heap) !! x = Some it ->
     exists n, it = zero_item n) /\
  e'.(e_slabs).(s_power_largest) = e.(e_slabs).(s_power_largest) /\
  p_size <$> e'.(e_slabs).(s_slabclass) = p_size <$> e.(e_slabs).(s_slabclass).

Lemma slab_frame_refl e : slab_frame e e.
Proof. split; [by destruct e|]. split; [done|]. split; [congruence|done]. Qed.

Lemma slab_frame_trans e1 e2 e3 :
  slab_frame e1 e2 -> slab_frame e2 e3 -> slab_frame e1 e3.
Proof.
  intros (H1 & Hs1 & Hz1 & Hp1 & Hc1) (H2 & Hs2 & Hz2 & Hp2 & Hc2). split; [|split; [|split]].
  - rewrite H2 at 1. by rewrite H1.
  - by transitivity (e_heap e2).
  - intros x it Hn Hx. destruct (e_heap e2 !! x) as [it'|] eqn:Hx2; [|eauto].
    pose proof (lookup_weaken _ _ _ _ Hx2 Hs2). replace it with it' by congruence. eauto.
  - split; congruence.
Qed.

(** ** Lists of chunks *)

Lemma all_free_elem cs x :
  x ∈ all_free cs <-> exists (i : nat) c, cs !! i = Some c /\ x ∈ free_chunks c.
Proof.
  unfold all_free. rewrite list_elem_of_join. split.
  - intros (l & Hx & Hl). apply list_elem_of_fmap in Hl as (c & -> & Hc).
    apply list_elem_of_lookup in Hc as [i Hi]. eauto.
  - intros (i & c & Hi & Hx). exists (free_chunks c). split; [done|].
    apply list_elem_of_fmap_2. by eapply list_elem_of_lookup_2.
Qed.

(** Replacing the free chunks of one class by a permutation, a sublist or an
    extension of them. *)
Lemma all_free_split cs (i : nat) c :
  cs !! i = Some c -> exists l1 l2,
    all_free cs = l1 ++ free_chunks c ++ l2 /\
    forall c', all_free (<[i := c']> cs) = l1 ++ free_chunks c' ++ l2.
Proof.
  intros Hi. exists (all_free (take i cs)), (all_free (drop (S i) cs)).
  pose proof (lookup_lt_Some _ _ _ Hi) as Hlt. unfold all_free. split.
  - rewrite <- (take_drop_middle cs i c Hi) at 1.
    rewrite fmap_app, join_app. reflexivity.
  - intros c'. rewrite insert_take_drop by done.
    rewrite fmap_app, join_app. reflexivity.
Qed.

(** ** Symbolic execution *)

Lemma runs_get_class id c e (Q : slabclass_t -> engine -> Prop) :
  zlookup e.(e_slabs).(s_slabclass) id = Some c -> Q c e -> runs (get_class id) e Q.
Proof. intros Hc HQ. unfold get_class. run; eauto. Qed.

Definition put_class (id : Z) (c : slabclass_t) (s : slabs) : slabs :=
  set_s_slabclass (<[Z.to_nat id := c]> s.(s_slabclass)) s.

Lemma runs_upd_class id c f e (Q : unit -> engine -> Prop) :
  zlookup e.(e_slabs).(s_slabclass) id = Some c ->
  Q tt (set_e_slabs (put_class id (f c) e.(e_slabs)) e) ->
  runs (upd_class id f) e Q.
Proof.
  intros Hc HQ. unfold upd_class.
  run; [exact Hc|apply zupdate_lt; by eapply zlookup_range|exact HQ].
Qed.

Lemma lookup_put_class id c s j c0 :
  zlookup s.(s_slabclass) id = Some c0 -> 0 <= j ->
  zlookup (put_class id c s).(s_slabclass) j
    = if decide (id = j) then Some c else zlookup s.(s_slabclass) j.
Proof. intros Hc Hj. apply zlookup_insert; [by eapply zlookup_range|done]. Qed.

(** ** Choice of the class *)

Lemma clsid_loop_spec s size fuel : forall res,
  POWER_SMALLEST <= res <= s.(s_power_largest) ->
  s.(s_power_largest) < Z.of_nat (length s.(s_slabclass)) ->
  s.(s_power_largest) - res < Z.of_nat fuel ->
  (forall j c, POWER_SMALLEST <= j < res -> zlookup s.(s_slabclass) j = Some c ->
     c.(p_size) < size) ->
  exists r, clsid_loop fuel s size res = Some r /\
    ((r = 0 /\ forall j c, POWER_SMALLEST <= j <= s.(s_power_largest) ->
        zlookup s.(s_slabclass) j = Some c -> c.(p_size) < size) \/
     (POWER_SMALLEST <= r <= s.(s_power_largest) /\
      (exists c, zlookup s.(s_slabclass) r = Some c /\ size <= c.(p_size)) /\
      forall j c, POWER_SMALLEST <= j < r -> zlookup s.(s_slabclass) j = Some c ->
        c.(p_size) < size)).
Proof.
  induction fuel as [|n IH]; intros res Hres Hlen Hf Hlt; [lia|]. simpl.
  unfold POWER_SMALLEST in *.
  destruct (zlookup_lt s.(s_slabclass) res) as [c Hc]; [lia|]. rewrite Hc. simpl.
  destruct (Z.ltb_spec (p_size c) size) as [Hs|Hs].
  - destruct (Z.eqb_spec res (s_power_largest s)) as [He|He].
    + exists 0. split; [done|]. left. split; [done|]. intros j c' Hj Hc'.
      destruct (decide (j = res)) as [->|]; [congruence|]. apply (Hlt j); [lia|done].
    + apply IH; [lia|done|lia|]. intros j c' Hj Hc'.
      destruct (decide (j = res)) as [->|]; [congruence|]. apply (Hlt j); [lia|done].
  - exists res. split; [done|]. right. split; [done|]. eauto.
Qed.

(** [slabs_clsid] is the first class that is large enough, 0 when there is none. *)
Definition first_fit (s : slabs) (size r : Z) : Prop :=
  (r = 0 /\ (size = 0 \/ forall j c, POWER_SMALLEST <= j <= s.(s_power_largest) ->
     zlookup s.(s_slabclass) j = Some c -> c.(p_size) < size)) \/
  (POWER_SMALLEST <= r <= s.(s_power_largest) /\
   (exists c, zlookup s.(s_slabclass) r = Some c /\ size <= c.(p_size)) /\
   forall j c, POWER_SMALLEST <= j < r -> zlookup s.(s_slabclass) j = Some c ->
     c.(p_size) < size).

Lemma slabs_clsid_run size e (Q : Z -> engine -> Prop) :
  POWER_SMALLEST <= e.(e_slabs).(s_power_largest)
    < Z.of_nat (length e.(e_slabs).(s_slabclass)) ->
  (forall r, first_fit e.(e_slabs) size r -> Q r e) ->
  runs (slabs_clsid size) e Q.
Proof.
  intros Hl HQ. unfold slabs_clsid. run.
  destruct (Z.eqb_spec size 0) as [->|Hs].
  - run. apply HQ. left. auto.
  - destruct (clsid_loop_spec e.(e_slabs) size (length e.(e_slabs).(s_slabclass))
      POWER_SMALLEST) as (r & Hr & Hres); unfold POWER_SMALLEST in *; try lia.
    eapply runs_of_option; [exact Hr|]. apply HQ. unfold first_fit.
    destruct Hres as [[? ?]|?]; auto.
Qed.

(** ** The memory limit *)

(** The number of classes that have a page. *)
Definition started (cs : list slabclass_t) : Z :=
  Z.of_nat (length (filter (fun c => c.(p_slabs) <> 0) cs)).

(** The allocator keeps to its limit: a class takes more than one page only
    within it, and its first page whatever the limit. The bounds keep the
    counters of a class, which are 32-bit integers, from wrapping. *)
Record mem_ok (s : slabs) : Prop := {
  mo_limit : 0 < s.(s_mem_limit) <= 2 ^ 35;
  mo_malloced : 0 <= s.(s_mem_malloced)
    <= s.(s_mem_limit) + 2 ^ 31 * started s.(s_slabclass);
  mo_len : length s.(s_slabclass) = Z.to_nat MAX_NUMBER_OF_SLAB_CLASSES;
  mo_class : forall id c, zlookup s.(s_slabclass) id = Some c -> c.(p_size) <> 0 ->
    sizeof_hash_item <= c.(p_size) /\
    0 <= c.(p_slabs) /\ c.(p_slabs) * (c.(p_size) * c.(p_perslab)) <= s.(s_mem_malloced) /\
    (c.(p_slabs) <= 1 \/ c.(p_slabs) * (c.(p_size) * c.(p_perslab)) <= s.(s_mem_limit))
}.

Lemma started_split cs (i : nat) c :
  cs !! i = Some c -> exists k,
    started cs = k + (if c.(p_slabs) =? 0 then 0 else 1) /\
    forall c', started (<[i := c']> cs) = k + (if c'.(p_slabs) =? 0 then 0 else 1).
Proof.
  intros Hi. pose proof (lookup_lt_Some _ _ _ Hi) as Hlt.
  exists (started (take i cs) + started (drop (S i) cs)).
  assert (Hg : forall c', started (take i cs ++ c' :: drop (S i) cs)
    = started (take i cs) + started (drop (S i) cs) + (if c'.(p_slabs) =? 0 then 0 else 1)).
  { intros c'. unfold started. rewrite filter_app, filter_cons.
    destruct (Z.eqb_spec (p_slabs c') 0);
      [rewrite decide_False by tauto|rewrite decide_True by done];
      rewrite length_app; simpl; lia. }
  split; [rewrite <- Hg; by rewrite take_drop_middle|].
  intros c'. rewrite insert_take_drop by done. apply Hg.
Qed.

Lemma started_bound cs : 0 <= started cs <= Z.of_nat (length cs).
Proof.
  unfold started. pose proof (length_filter (fun c => p_slabs c <> 0) cs). lia.
Qed.

(** [mem_ok] looks only at these parts of a class. *)
Lemma mem_ok_put s id c c' :
  mem_ok s -> zlookup s.(s_slabclass) id = Some c ->
  c'.(p_size) = c.(p_size) -> c'.(p_perslab) = c.(p_perslab) ->
  c'.(p_slabs) = c.(p_slabs) -> mem_ok (put_class id c' s).
Proof.
  intros [Hl Hm Hn Hc] Hid Hs Hp Hb. pose proof Hid as [Hid0 Hi]%zlookup_Some.
  pose proof (zlookup_range _ _ _ Hid) as Hr.
  destruct (started_split _ _ _ Hi) as (k & Hk & Hk'). constructor; simpl.
  - done.
  - rewrite Hk', Hb, <- Hk. done.
  - by rewrite length_insert.
  - intros j cj Hj. pose proof (zlookup_range _ _ _ Hj) as Hrj.
    rewrite length_insert in Hrj. rewrite zlookup_insert in Hj by lia.
    destruct (decide (id = j)) as [<-|]; [|by eauto].
    injection Hj as <-. rewrite Hs, Hp, Hb. by apply (Hc id).
Qed.

(** A new page of a class. *)
Lemma mem_ok_page s id c c' :
  mem_ok s -> zlookup s.(s_slabclass) id = Some c -> c.(p_size) <> 0 ->
  0 < c.(p_size) * c.(p_perslab) < 2 ^ 31 ->
  c.(p_slabs) = 0 \/ s.(s_mem_malloced) + c.(p_size) * c.(p_perslab) <= s.(s_mem_limit) ->
  c'.(p_size) = c.(p_size) -> c'.(p_perslab) = c.(p_perslab) ->
  c'.(p_slabs) = c.(p_slabs) + 1 ->
  mem_ok (set_s_mem_malloced (s.(s_mem_malloced) + c.(p_size) * c.(p_perslab))
            (put_class id c' s)).
Proof.
  intros [Hl Hm Hn Hc] Hid Hsz Hlen Hgo Hs Hp Hb. pose proof Hid as [Hid0 Hi]%zlookup_Some.
  pose proof (zlookup_range _ _ _ Hid) as Hr.
  destruct (started_split _ _ _ Hi) as (k & Hk & Hk').
  pose proof (started_bound (<[Z.to_nat id := c']> s.(s_slabclass))) as Hsb.
  destruct (Hc id c Hid Hsz) as (Hc1 & Hc2 & Hc3 & Hc4). constructor; simpl.
  - done.
  - destruct Hgo as [Hgo|Hgo]; [|lia]. rewrite Hk', Hb.
    rewrite Hk, Hgo in Hm. rewrite Hgo. simpl in *. lia.
  - by rewrite length_insert.
  - intros j cj Hj Hszj. pose proof (zlookup_range _ _ _ Hj) as Hrj.
    rewrite length_insert in Hrj. rewrite zlookup_insert in Hj by lia.
    destruct (decide (id = j)) as [<-|].
    + injection Hj as <-. rewrite Hs, Hp, Hb. split; [done|]. split; [lia|]. split; [lia|].
      destruct Hgo; [left; lia|right; lia].
    + destruct (Hc j cj Hj Hszj) as (? & ? & ? & ?). repeat split; try done. lia.
Qed.

(** The number of pages and chunks of a class fits its counters. *)
Lemma mem_ok_chunks s id c :
  mem_ok s -> zlookup s.(s_slabclass) id = Some c -> c.(p_size) <> 0 ->
  0 < c.(p_perslab) -> c.(p_size) * c.(p_perslab) < 2 ^ 31 ->
  0 <= c.(p_slabs) <= 2 ^ 30 - 1 /\ c.(p_slabs) * c.(p_perslab) < 2 ^ 30.
Proof.
  intros Hm Hid Hsz Hpos Hlt. destruct (mo_class _ Hm id c Hid Hsz) as (H1 & H2 & H3 & H4).
  pose proof (mo_limit _ Hm). unfold sizeof_hash_item in *.
  assert (Hk : c.(p_slabs) * c.(p_perslab) * 48 <= 2 ^ 35).
  { destruct H4 as [H4|H4]; nia. }
  nia.
Qed.


Section proofs.
Context `{EnvOk}.

(** ** Changing one class *)

Lemma slab_rep_put h uc s calls U U' id c c' :
  slab_rep h uc s calls U -> zlookup s.(s_slabclass) id = Some c ->
  c'.(p_size) = c.(p_size) -> class_ok U' id c' ->
  (forall j, j <> id -> used_count U' j = used_count U j) ->
  NoDup (free_chunks c') ->
  (forall x, x ∈ free_chunks c' ->
     (x ∈ free_chunks c \/ x ∉ all_free s.(s_slabclass)) /\ x <> NULL /\ U' !! x = None /\
     exists it, h !! x = Some it /\ chunk_free it /\
       length it.(it_body) = Z.to_nat (body_size uc c.(p_size))) ->
  (forall x, x ∈ all_free s.(s_slabclass) -> x ∉ free_chunks c -> U' !! x = None) ->
  (forall x, is_Some (U' !! x) -> is_Some (h !! x) /\ x <> NULL) ->
  slab_rep h uc (put_class id c' s) calls U'.
Proof.
  intros HS Hc Hsz Hok Hoth Hnd Hfc HU Hdom. pose proof Hc as [Hid Hi]%zlookup_Some.
  pose proof (zlookup_range _ _ _ Hc) as Hr.
  destruct (all_free_split _ _ _ Hi) as (l1 & l2 & Heq & Hins). specialize (Hins c').
  pose proof (sr_nodup _ _ _ _ _ HS) as HndA. rewrite Heq in HndA.
  apply NoDup_app in HndA as (Hn1 & Hd1 & HndA). apply NoDup_app in HndA as (Hn2 & Hd2 & Hn3).
  assert (Hnew : forall x, x ∈ free_chunks c' -> (x ∉ l1) /\ x ∉ l2).
  { intros x Hx. destruct (Hfc x Hx) as ([Hin|Hin] & _).
    - split; [intros Hl; apply (Hd1 x Hl); set_solver|by apply Hd2].
    - rewrite Heq in Hin. set_solver. }
  constructor; simpl; try apply HS.
  - rewrite length_insert. apply HS.
  - intros j cj Hj. pose proof (zlookup_range _ _ _ Hj) as Hrj.
    rewrite length_insert in Hrj. rewrite zlookup_insert in Hj by lia.
    destruct (decide (id = j)) as [<-|Hne]; [by injection Hj as <-|].
    destruct (sr_class _ _ _ _ _ HS j cj Hj). constructor; try done.
    by rewrite Hoth by done.
  - intros j cj Hjr Hj. rewrite zlookup_insert in Hj by (unfold POWER_SMALLEST in *; lia).
    destruct (decide (id = j)) as [<-|Hne]; [injection Hj as <-; rewrite Hsz|];
      by eapply (sr_sized _ _ _ _ _ HS).
  - rewrite Hins. apply NoDup_app. split; [done|]. split.
    + intros x Hx1. rewrite elem_of_app. intros [Hx|Hx].
      * by destruct (Hnew x Hx).
      * apply (Hd1 x Hx1). set_solver.
    + apply NoDup_app. split; [done|]. split; [|done]. intros x Hx. by apply Hnew.
  - intros x. rewrite Hins, !elem_of_app. intros Hx.
    destruct (decide (x ∈ free_chunks c')) as [Hin|Hin];
      [by destruct (Hfc x Hin) as (_ & ? & ? & _)|].
    assert (Hxa : x ∈ all_free s.(s_slabclass)) by (rewrite Heq; set_solver).
    split; [by apply (sr_used _ _ _ _ _ HS)|]. apply HU; [done|].
    intros Hxc. destruct Hx as [Hx|[Hx|Hx]]; [|done|by apply (Hd2 x)].
    apply (Hd1 x Hx). set_solver.
  - intros j cj x Hj Hx. pose proof (zlookup_range _ _ _ Hj) as Hrj.
    rewrite length_insert in Hrj. rewrite zlookup_insert in Hj by lia.
    destruct (decide (id = j)) as [<-|Hne].
    + injection Hj as <-. rewrite Hsz. by destruct (Hfc x Hx) as (_ & _ & _ & ?).
    + by eapply (sr_chunk _ _ _ _ _ HS).
  - done.
Qed.

(** A change of a class that keeps its free chunks. *)
Lemma slab_rep_put_same h uc s calls U id c c' :
  slab_rep h uc s calls U -> zlookup s.(s_slabclass) id = Some c ->
  c'.(p_size) = c.(p_size) -> class_ok U id c' -> free_chunks c' = free_chunks c ->
  slab_rep h uc (put_class id c' s) calls U.
Proof.
  intros HS Hc Hsz Hok Hfc. pose proof Hc as [_ Hi]%zlookup_Some.
  destruct (all_free_split _ _ _ Hi) as (l1 & l2 & Heq & _).
  assert (Hin : forall x, x ∈ free_chunks c -> x ∈ all_free s.(s_slabclass))
    by (intros x Hx; rewrite Heq; set_solver).
  eapply slab_rep_put; eauto; rewrite ?Hfc.
  - pose proof (sr_nodup _ _ _ _ _ HS) as Hnd. rewrite Heq in Hnd.
    apply NoDup_app in Hnd as (_ & _ & Hnd). by apply NoDup_app in Hnd as (? & _).
  - intros x Hx. destruct (sr_used _ _ _ _ _ HS x (Hin x Hx)). split; [by left|].
    split; [done|]. split; [done|]. by eapply (sr_chunk _ _ _ _ _ HS).
  - intros x Hx _. by apply (sr_used _ _ _ _ _ HS).
  - apply HS.
Qed.

(** ** Taking and giving back a chunk *)

Lemma used_count_insert U x id j :
  U !! x = None ->
  used_count (<[x := id]> U) j = used_count U j + (if decide (j = id) then 1 else 0).
Proof.
  intros Hx. unfold used_count. destruct (decide (j = id)) as [->|Hne].
  - rewrite map_filter_insert_True by done.
    rewrite map_size_insert_None by (apply map_lookup_filter_None; auto). lia.
  - rewrite map_filter_insert_False by (simpl; congruence).
    rewrite delete_id by done. lia.
Qed.

Lemma used_count_delete U x id j :
  U !! x = Some id ->
  used_count (delete x U) j = used_count U j - (if decide (j = id) then 1 else 0).
Proof.
  intros Hx. rewrite <- (insert_delete_id U x id Hx) at 2.
  rewrite used_count_insert by apply lookup_delete_eq. lia.
Qed.

(** The parts of [class_ok] that do not speak of the free chunks. *)
Definition same_pages (c c' : slabclass_t) : Prop :=
  c'.(p_size) = c.(p_size) /\ c'.(p_perslab) = c.(p_perslab) /\
  c'.(p_slabs) = c.(p_slabs) /\ c'.(p_list_size) = c.(p_list_size) /\
  c'.(p_slab_list) = c.(p_slab_list).

Definition lists_ok (c : slabclass_t) : Prop :=
  0 <= c.(p_sl_curr) <= c.(p_sl_total) /\
  Z.of_nat (length c.(p_slots)) = c.(p_sl_total) /\
  (c.(p_end_page_ptr) = NULL <-> c.(p_end_page_free) = 0) /\ 0 <= c.(p_end_page_free).

Lemma class_ok_same U U' id c c' :
  class_ok U id c -> same_pages c c' -> lists_ok c' ->
  Z.of_nat (length (free_chunks c')) + used_count U' id
    <= Z.of_nat (length (free_chunks c)) + used_count U id ->
  class_ok U' id c'.
Proof.
  intros Hok (Hs & Hp & Hn & Hl & Hsl) (? & ? & ? & ?) Hcnt.
  destruct Hok. constructor; rewrite ?Hs, ?Hp, ?Hn, ?Hl, ?Hsl; auto. lia.
Qed.

Lemma slab_rep_take h uc s calls U id c c' x :
  slab_rep h uc s calls U -> zlookup s.(s_slabclass) id = Some c ->
  same_pages c c' -> lists_ok c' -> free_chunks c ≡ₚ x :: free_chunks c' ->
  slab_rep h uc (put_class id c' s) calls (<[x := id]> U) /\ U !! x = None /\ x <> NULL /\
  exists it, h !! x = Some it /\ chunk_free it /\
    length it.(it_body) = Z.to_nat (body_size uc c.(p_size)).
Proof.
  intros HS Hc Hpg Hls Hperm. pose proof Hc as [_ Hi]%zlookup_Some.
  assert (Hin : forall y, y ∈ free_chunks c -> y ∈ all_free s.(s_slabclass)).
  { intros y Hy. apply all_free_elem. eauto. }
  assert (Hxc : x ∈ free_chunks c) by (rewrite Hperm; by left).
  destruct (sr_used _ _ _ _ _ HS x (Hin x Hxc)) as [Hx0 HxU].
  pose proof (sr_chunk _ _ _ _ _ HS id c x Hc Hxc) as Hit.
  assert (Hnd : NoDup (x :: free_chunks c')).
  { rewrite <- Hperm. destruct (all_free_split _ _ _ Hi) as (l1 & l2 & Heq & _).
    pose proof (sr_nodup _ _ _ _ _ HS) as Hn. rewrite Heq in Hn.
    apply NoDup_app in Hn as (_ & _ & Hn). by apply NoDup_app in Hn as (? & _). }
  apply NoDup_cons in Hnd as [Hxn Hnd].
  split; [|auto]. eapply slab_rep_put; eauto.
  - apply Hpg.
  - eapply class_ok_same; [by eapply (sr_class _ _ _ _ _ HS)|done|done|].
    rewrite used_count_insert, decide_True, Hperm by done. simpl. lia.
  - intros j Hj. rewrite used_count_insert, decide_False by done. lia.
  - intros y Hy. assert (Hyc : y ∈ free_chunks c) by (rewrite Hperm; by right).
    destruct (sr_used _ _ _ _ _ HS y (Hin y Hyc)) as [Hy0 HyU].
    split; [by left|]. split; [done|]. split.
    + rewrite lookup_insert_ne; [done|]. intros ->. done.
    + by eapply (sr_chunk _ _ _ _ _ HS).
  - intros y Hy Hyc. rewrite lookup_insert_ne; [by apply (sr_used _ _ _ _ _ HS)|].
    intros ->. done.
  - intros y. rewrite lookup_insert. destruct (decide (x = y)) as [<-|]; [|apply HS].
    destruct Hit as (it & ? & _). eauto.
Qed.

Lemma slab_rep_give h uc s calls U id c c' x it :
  slab_rep h uc s calls U -> zlookup s.(s_slabclass) id = Some c ->
  same_pages c c' -> lists_ok c' -> free_chunks c' ≡ₚ x :: free_chunks c ->
  U !! x = Some id -> h !! x = Some it -> chunk_free it ->
  length it.(it_body) = Z.to_nat (body_size uc c.(p_size)) ->
  slab_rep h uc (put_class id c' s) calls (delete x U).
Proof.
  intros HS Hc Hpg Hls Hperm HxU Hit Hfree Hbody. pose proof Hc as [_ Hi]%zlookup_Some.
  assert (Hxa : x ∉ all_free s.(s_slabclass)).
  { intros Hx. apply (sr_used _ _ _ _ _ HS) in Hx as [_ Hx]. congruence. }
  assert (Hin : forall y, y ∈ free_chunks c -> y ∈ all_free s.(s_slabclass)).
  { intros y Hy. apply all_free_elem. eauto. }
  destruct (all_free_split _ _ _ Hi) as (l1 & l2 & Heq & _).
  pose proof (sr_nodup _ _ _ _ _ HS) as Hn. rewrite Heq in Hn.
  apply NoDup_app in Hn as (_ & _ & Hn). apply NoDup_app in Hn as (Hn & _).
  eapply slab_rep_put; eauto.
  - apply Hpg.
  - eapply class_ok_same; [by eapply (sr_class _ _ _ _ _ HS)|done|done|].
    rewrite (used_count_delete _ _ _ _ HxU), decide_True, Hperm by done. simpl. lia.
  - intros j Hj. rewrite (used_count_delete _ _ _ _ HxU), decide_False by done. lia.
  - rewrite Hperm. apply NoDup_cons. auto.
  - intros y. rewrite Hperm, elem_of_cons. intros [->|Hy].
    + split; [by right|]. split; [by apply (sr_dom _ _ _ _ _ HS); eauto|].
      split; [apply lookup_delete_eq|]. eauto.
    + destruct (sr_used _ _ _ _ _ HS y (Hin y Hy)) as [Hy0 HyU].
      split; [by left|]. split; [done|]. split.
      * rewrite lookup_delete_ne; [done|]. intros ->. auto.
      * by eapply (sr_chunk _ _ _ _ _ HS).
  - intros y Hy _. rewrite lookup_delete_ne; [by apply (sr_used _ _ _ _ _ HS)|].
    intros ->. auto.
  - intros y. rewrite lookup_delete. destruct (decide (x = y)); [by intros [? [=]]|].
    apply HS.
Qed.

(** ** Memory *)

Lemma in_area_le n m x : (n <= m)%nat -> in_area n x -> in_area m x.
Proof. intros Hle (k & sz & Hk & Hx). exists k, sz. split; [lia|exact Hx]. Qed.

(** A change of the bookkeeping of the areas. *)
Lemma slab_rep_allocs h uc s s' calls calls' U :
  slab_rep h uc s calls U -> (calls <= calls')%nat ->
  s'.(s_slabclass) = s.(s_slabclass) -> s'.(s_power_largest) = s.(s_power_largest) ->
  s'.(s_mem_base) = s.(s_mem_base) -> s'.(s_mem_current) = s.(s_mem_current) ->
  s'.(s_mem_avail) = s.(s_mem_avail) ->
  (0 <= s'.(s_allocs_next) <= s'.(s_allocs_size) /\
   Z.of_nat (length s'.(s_allocs_ptrs)) = s'.(s_allocs_size)) ->
  slab_rep h uc s' calls' U.
Proof.
  intros [] Hle Hc Hp Hb Hcur Hav Hal.
  constructor; rewrite ?Hc, ?Hp, ?Hb, ?Hcur, ?Hav; auto.
  - intros x Hx. eapply in_area_le; eauto.
  - intros Hn. destruct (sr_base0 Hn) as [? [?|[? Hin]]]; (split; [done|]); [by left|].
    right. split; [done|]. intros x Hx. eapply in_area_le; eauto.
Qed.

(** An area for [size] bytes at [r]: it is allocated, no chunk lies in it, and
    it is no longer part of the preallocated memory. *)
Record fresh_area (h : gmap Z hash_item) (s : slabs) (calls : nat) (r size : Z) : Prop := {
  fa_pos : 0 < r;
  fa_fresh : forall x, r <= x < r + size -> h !! x = None;
  fa_area : forall x, r <= x < r + size -> in_area calls x;
  fa_base : s.(s_mem_base) = NULL \/ r + size <= s.(s_mem_current)
}.

Lemma my_allocate_run size e uc U (Q : Z -> engine -> Prop) :
  slab_rep e.(e_heap) uc e.(e_slabs) e.(e_calls) U -> e.(e_slabs).(s_mem_base) = NULL ->
  (forall r s calls, (e.(e_calls) <= calls)%nat ->
     s = set_s_allocs_ptrs s.(s_allocs_ptrs) (set_s_allocs_next s.(s_allocs_next)
           (set_s_allocs_size s.(s_allocs_size) e.(e_slabs))) ->
     slab_rep e.(e_heap) uc s calls U ->
     r = NULL \/ fresh_area e.(e_heap) s calls r size ->
     Q r (set_e_calls calls (set_e_slabs s e))) ->
  runs (my_allocate size) e Q.
Proof.
  intros HS Hb HQ. unfold my_allocate. run.
  destruct (sr_allocs _ _ _ _ _ HS) as [Hal Hlen].
  assert (Hm : forall s calls, (e.(e_calls) <= calls)%nat ->
     s = set_s_allocs_ptrs s.(s_allocs_ptrs) (set_s_allocs_next s.(s_allocs_next)
           (set_s_allocs_size s.(s_allocs_size) e.(e_slabs))) ->
     slab_rep e.(e_heap) uc s calls U -> s.(s_allocs_next) < s.(s_allocs_size) ->
     runs (ptr ← do_malloc size;
           when (negb (ptr =? NULL))
             (s' ← gets e_slabs;
              l ← of_option (zupdate s'.(s_allocs_ptrs) s'.(s_allocs_next) ptr);
              upd_slabs (fun s'' => set_s_allocs_next (s''.(s_allocs_next) + 1)
                           (set_s_allocs_ptrs l s'')));;
           mret ptr) (set_e_calls calls (set_e_slabs s e)) Q).
  { intros s calls Hle Hs HSs Hlt. destruct (sr_allocs _ _ _ _ _ HSs) as [Hals Hlens].
    run. simpl. apply runs_when; intros Hp; boolify.
    - run; [apply zupdate_lt; simpl; lia|]. simpl.
      apply (HQ _ (set_s_allocs_next _ (set_s_allocs_ptrs _ s)) (S calls)); [lia|..].
      + by rewrite Hs.
      + eapply slab_rep_allocs; [exact HSs|lia|done..|]. simpl. rewrite length_insert. lia.
      + right. constructor; simpl.
        * pose proof (malloc_addr calls size). unfold NULL in *. lia.
        * intros x Hx. destruct (e.(e_heap) !! x) as [it|] eqn:Hxh; [|done]. exfalso.
          destruct (sr_area _ _ _ _ _ HSs x) as (m & sz & Hm & Hn & Hin); [eauto|].
          destruct (malloc_disjoint calls m size sz); [lia|done|done|lia|lia].
        * intros x Hx. exists calls, size. split; [lia|auto].
        * left. rewrite Hs. exact Hb.
    - run. rewrite Hp. apply (HQ NULL s (S calls)); [lia|done| |by left].
      eapply slab_rep_allocs; [exact HSs|lia|done..|]. by apply HSs. }
  destruct (Z.eqb_spec (s_allocs_next (e_slabs e)) (s_allocs_size (e_slabs e))) as [Hf|Hf].
  - run. simpl. destruct (sys_realloc _ _); simpl; run; simpl.
    + eapply (Hm (set_s_allocs_size _ (set_s_allocs_ptrs _ (e_slabs e))));
        simpl; [lia|by destruct (e_slabs e)| |lia].
      eapply slab_rep_allocs; [exact HS|lia|done..|]. simpl.
      rewrite length_app, length_replicate. lia.
    + run. enough (Q NULL (set_e_calls (S (e_calls e)) (set_e_slabs (e_slabs e) e)))
        by (by destruct e).
      apply (HQ NULL (e_slabs e) (S (e_calls e))); [lia|by destruct (e_slabs e)| |by left].
      eapply slab_rep_allocs; [exact HS|lia|done..|]. by apply HS.
  - run. simpl. replace e with (set_e_calls (e_calls e) (set_e_slabs (e_slabs e) e)) at 1
      by (by destruct e).
    apply Hm; [lia|by destruct (e_slabs e)|done|lia].
Qed.

Lemma align_le size : 0 <= size -> size <= align size.
Proof.
  intros Hs. unfold align, CHUNK_ALIGN_BYTES.
  pose proof (Z.mod_pos_bound size 8). destruct (_ =? _); lia.
Qed.

Lemma memory_allocate_run size e uc U (Q : Z -> engine -> Prop) :
  slab_rep e.(e_heap) uc e.(e_slabs) e.(e_calls) U -> 0 < size ->
  (forall r s calls, (e.(e_calls) <= calls)%nat ->
     s.(s_slabclass) = e.(e_slabs).(s_slabclass) ->
     s.(s_mem_limit) = e.(e_slabs).(s_mem_limit) ->
     s.(s_mem_malloced) = e.(e_slabs).(s_mem_malloced) ->
     s.(s_power_largest) = e.(e_slabs).(s_power_largest) ->
     slab_rep e.(e_heap) uc s calls U ->
     r = NULL \/ fresh_area e.(e_heap) s calls r size ->
     Q r (set_e_calls calls (set_e_slabs s e))) ->
  runs (memory_allocate size) e Q.
Proof.
  intros HS Hsz HQ. unfold memory_allocate. run.
  destruct (Z.eqb_spec (s_mem_base (e_slabs e)) NULL) as [Hb|Hb].
  - eapply my_allocate_run; [exact HS|done|]. intros r s calls Hle -> HSs Hr.
    by apply HQ.
  - destruct (sr_base _ _ _ _ _ HS Hb) as [Hout Hav].
    destruct (Z.ltb_spec (s_mem_avail (e_slabs e)) size) as [Hlt|Hge].
    + run. replace e with (set_e_calls (e_calls e) (set_e_slabs (e_slabs e) e)) by (by destruct e).
      apply HQ; auto.
    + destruct Hav as [Hav|[Hcur Hav]]; [lia|]. run.
      pose proof (align_le size ltac:(lia)) as Hal.
      match goal with |- Q ?r (set_e_slabs ?s _) =>
        enough (Q r (set_e_calls (e_calls e) (set_e_slabs s e))) by (by destruct e) end.
      apply HQ; simpl; auto.
      * destruct HS. constructor; simpl; auto. intros _.
        destruct (Z.ltb_spec (align size) (s_mem_avail (e_slabs e))); (split; [|auto]);
          [..|right; split; [lia|]; intros x Hx; apply Hav; lia|].
        -- intros x Hx. destruct (Hout x Hx); lia.
        -- intros x Hx. destruct (Hout x Hx); lia.
      * right. constructor; simpl; [lia|..].
        -- intros x Hx. destruct (e_heap e !! x) eqn:Hxh; [|done].
           destruct (Hout x); [eauto|lia|lia].
        -- intros x Hx. apply Hav. lia.
        -- right. lia.
Qed.

(** ** Pages *)

Definition slab_inv (h : gmap Z hash_item) (uc : bool) (s : slabs) (calls : nat)
    (U : gmap Z Z) : Prop := slab_rep h uc s calls U /\ mem_ok s.

Lemma slab_rep_calls h uc s calls calls' U :
  slab_rep h uc s calls U -> (calls <= calls')%nat -> slab_rep h uc s calls' U.
Proof. intros HS Hle. eapply slab_rep_allocs; [exact HS|done..|apply HS]. Qed.

Lemma class_pages h uc s calls U id c :
  slab_inv h uc s calls U -> POWER_SMALLEST <= id <= s.(s_power_largest) ->
  zlookup s.(s_slabclass) id = Some c ->
  0 < c.(p_size) /\ 0 < c.(p_perslab) < 2 ^ 31 /\
  0 < c.(p_size) * c.(p_perslab) < 2 ^ 31 /\
  0 <= c.(p_slabs) <= 2 ^ 30 - 1 /\ c.(p_slabs) * c.(p_perslab) < 2 ^ 30.
Proof.
  intros [HS Hm] Hid Hc. pose proof (sr_sized _ _ _ _ _ HS id c Hid Hc) as Hsz.
  destruct (co_perslab _ _ _ (sr_class _ _ _ _ _ HS id c Hc) Hsz) as (? & ? & ?).
  destruct (mem_ok_chunks s id c Hm Hc Hsz) as (? & ?); [lia|lia|]. repeat split; try lia; nia.
Qed.

Lemma grow_slab_list_run id c e uc U (Q : Z -> engine -> Prop) :
  slab_inv e.(e_heap) uc e.(e_slabs) e.(e_calls) U ->
  POWER_SMALLEST <= id <= e.(e_slabs).(s_power_largest) ->
  zlookup e.(e_slabs).(s_slabclass) id = Some c ->
  (forall calls, (e.(e_calls) <= calls)%nat -> Q 0 (set_e_calls calls e)) ->
  (forall calls c', (e.(e_calls) <= calls)%nat ->
     c' = set_p_list_size c'.(p_list_size) (set_p_slab_list c'.(p_slab_list) c) ->
     c.(p_slabs) < c'.(p_list_size) -> class_ok U id c' ->
     Q 1 (set_e_calls calls (set_e_slabs (put_class id c' e.(e_slabs)) e))) ->
  runs (grow_slab_list id) e Q.
Proof.
  intros [HS Hm] Hid Hc HQ0 HQ1. unfold grow_slab_list.
  destruct (class_pages _ _ _ _ _ id c (conj HS Hm) Hid Hc) as (_ & _ & _ & Hn & _).
  pose proof (sr_class _ _ _ _ _ HS id c Hc) as Hok. destruct (co_list _ _ _ Hok) as [Hl Hlen].
  apply runs_bind. eapply runs_get_class; [done|].
  destruct (Z.eqb_spec (p_slabs c) (p_list_size c)) as [Hf|Hf].
  - set (n := if negb (p_list_size c =? 0) then _ else _).
    assert (Hnn : p_list_size c < n).
    { subst n. destruct (Z.eqb_spec (p_list_size c) 0); simpl; [lia|].
      rewrite u32_small by lia. lia. }
    apply runs_bind. run. destruct (sys_realloc _ _); simpl.
    + apply runs_bind. eapply runs_upd_class; [exact Hc|]. run. simpl.
      apply (HQ1 _ (set_p_list_size n _)); simpl; [lia|by destruct c|lia|].
      destruct Hok. constructor; simpl; auto. rewrite length_app, length_replicate. lia.
    + run. apply HQ0. lia.
  - run. enough (Q 1 (set_e_calls (e_calls e) (set_e_slabs (put_class id c (e_slabs e)) e))) as HQ.
    { replace (put_class id c (e_slabs e)) with (e_slabs e) in HQ; [by destruct e|].
      unfold put_class. rewrite list_insert_id by (by apply zlookup_Some).
      by destruct (e_slabs e). }
    apply HQ1; [lia|by destruct c|lia|done].
Qed.

Lemma elem_of_page_chunks ptr size n x :
  x ∈ page_chunks ptr size n <-> exists i, 0 <= i < n /\ x = ptr + i * size.
Proof.
  unfold page_chunks. rewrite list_elem_of_fmap. split.
  - intros (i & -> & Hi%elem_of_seq). exists (Z.of_nat i). split; [lia|done].
  - intros (i & Hi & ->). exists (Z.to_nat i). split; [by rewrite Z2Nat.id by lia|]. apply elem_of_seq. lia.
Qed.

Lemma page_chunks_NoDup ptr size n : 0 < size -> NoDup (page_chunks ptr size n).
Proof.
  intros Hs. unfold page_chunks. apply NoDup_fmap_2_strong; [|apply NoDup_seq].
  intros i j _ _ Hij. nia.
Qed.

Lemma page_chunks_length ptr size n : 0 <= n -> Z.of_nat (length (page_chunks ptr size n)) = n.
Proof. intros Hn. unfold page_chunks. rewrite length_fmap, length_seq. lia. Qed.

Lemma zero_page_lookup uc ptr size n h x :
  zero_page uc ptr size n h !! x
    = if decide (x ∈ page_chunks ptr size n) then Some (zero_item (body_size uc size))
      else h !! x.
Proof.
  unfold zero_page. rewrite lookup_union.
  assert (Hl : forall l : list Z,
    (list_to_map ((fun x => (x, zero_item (body_size uc size))) <$> l) : gmap Z hash_item) !! x
    = if decide (x ∈ l) then Some (zero_item (body_size uc size)) else None).
  { induction l as [|y l IH]; [done|]. cbn [fmap list_fmap list_to_map foldr]. simpl.
    rewrite lookup_insert, IH.
    destruct (decide (y = x)) as [->|]; [by rewrite decide_True by set_solver|].
    destruct (decide (x ∈ l)); [rewrite decide_True by set_solver|
      rewrite decide_False by set_solver]; done. }
  rewrite Hl. destruct (decide _); [|by rewrite (left_id None _)].
  by destruct (h !! x).
Qed.

Lemma page_bounds ptr size n x :
  0 < size -> x ∈ page_chunks ptr size n -> ptr <= x < ptr + size * n.
Proof. intros Hs (i & Hi & ->)%elem_of_page_chunks. nia. Qed.

Lemma zero_page_sub uc ptr size n h :
  (forall x, x ∈ page_chunks ptr size n -> h !! x = None) -> h ⊆ zero_page uc ptr size n h.
Proof.
  intros Hf. apply map_subseteq_spec. intros x it Hx. rewrite zero_page_lookup.
  destruct (decide _) as [Hin|]; [|done]. rewrite (Hf x Hin) in Hx. discriminate.
Qed.

Lemma zero_chunk_free uc size :
  chunk_free (zero_item (body_size uc size)) /\
  length (zero_item (body_size uc size)).(it_body) = Z.to_nat (body_size uc size).
Proof. split; [by split|apply length_replicate]. Qed.

(** A page of fresh chunks can be added to the heap. *)
Lemma slab_rep_page h uc s calls U ptr size n :
  slab_rep h uc s calls U -> 0 < size -> fresh_area h s calls ptr (size * n) ->
  slab_rep (zero_page uc ptr size n h) uc s calls U.
Proof.
  intros HS Hs Hfa.
  assert (Hfresh : forall x, x ∈ page_chunks ptr size n -> h !! x = None).
  { intros x Hx. apply (fa_fresh _ _ _ _ _ Hfa). by apply page_bounds in Hx. }
  pose proof (zero_page_sub uc _ _ _ _ Hfresh) as Hsub.
  destruct HS. constructor; auto.
  - intros id c x Hc Hx. destruct (sr_chunk0 id c x Hc Hx) as (it & Hit & ?).
    exists it. split; [by eapply lookup_weaken|done].
  - intros x Hx. destruct (sr_dom0 x Hx) as [[it Hit] ?]. split; [|done].
    exists it. by eapply lookup_weaken.
  - intros x. rewrite zero_page_lookup. destruct (decide _) as [Hin|]; [|apply sr_area0].
    intros _. apply (fa_area _ _ _ _ _ Hfa). by apply page_bounds.
  - intros Hb. destruct (sr_base0 Hb) as [Hout Hav]. split; [|done].
    intros x. rewrite zero_page_lookup. destruct (decide _) as [Hin|]; [|apply Hout].
    intros _. left. destruct (fa_base _ _ _ _ _ Hfa); [done|].
    apply page_bounds in Hin; [lia|done].
Qed.

(** ... and given to a class that has no free chunk. *)
Lemma slab_rep_new_page h uc s calls U id c c' ptr :
  slab_rep h uc s calls U -> zlookup s.(s_slabclass) id = Some c ->
  0 < c.(p_size) -> 0 < c.(p_perslab) -> c.(p_slabs) < c.(p_list_size) ->
  c.(p_end_page_ptr) = NULL ->
  fresh_area h s calls ptr (c.(p_size) * c.(p_perslab)) ->
  c' = set_p_slabs (c.(p_slabs) + 1) (set_p_slab_list c'.(p_slab_list)
         (set_p_end_page_free c.(p_perslab) (set_p_end_page_ptr ptr c))) ->
  length c'.(p_slab_list) = length c.(p_slab_list) ->
  free_chunks c = [] ->
  slab_rep (zero_page uc ptr c.(p_size) c.(p_perslab) h) uc (put_class id c' s) calls U.
Proof.
  intros HS Hc Hs Hp Hl Hend Hfa Hc' Hlen Hnil. pose proof (fa_pos _ _ _ _ _ Hfa) as Hpos.
  assert (Hfc : free_chunks c' = page_chunks ptr c.(p_size) c.(p_perslab)).
  { unfold free_chunks in *. apply app_eq_nil in Hnil as [Hnil _]. rewrite Hc'.
    unfold list_chunks, end_chunks in *. simpl. rewrite Hnil. simpl.
    destruct (Z.eqb_spec ptr NULL); [unfold NULL in *; lia|done]. }
  assert (Hold : forall x, x ∈ page_chunks ptr c.(p_size) c.(p_perslab) -> h !! x = None).
  { intros x Hx. apply (fa_fresh _ _ _ _ _ Hfa). by apply page_bounds in Hx. }
  pose proof (slab_rep_page _ _ _ _ _ _ _ _ HS Hs Hfa) as HS'.
  eapply slab_rep_put; [exact HS'|done|by rewrite Hc'|..].
  - destruct (sr_class _ _ _ _ _ HS id c Hc). rewrite Hnil in co_count0. simpl in *.
    constructor; rewrite ?Hfc, ?page_chunks_length by lia; rewrite ?Hlen, Hc'; simpl; auto;
      unfold NULL in *; try lia.
  - done.
  - rewrite Hfc. by apply page_chunks_NoDup.
  - intros x Hx. rewrite Hfc in Hx. split; [right; intros Hin|split; [|split]].
    + apply all_free_elem in Hin as (j & cj & Hj & Hx').
      destruct (sr_chunk _ _ _ _ _ HS (Z.of_nat j) cj x) as (it & Hit & _); [|done|].
      { apply zlookup_Some. rewrite Nat2Z.id. split; [lia|done]. }
      rewrite Hold in Hit; done.
    + apply page_bounds in Hx; unfold NULL; lia.
    + destruct (U !! x) eqn:HU; [|done]. destruct (sr_dom _ _ _ _ _ HS x) as [[it Hit] _]; [eauto|].
      rewrite Hold in Hit; done.
    + rewrite zero_page_lookup, decide_True by done. eexists. split; [done|].
      apply zero_chunk_free.
  - intros x Hx _. by apply (sr_used _ _ _ _ _ HS).
  - apply HS'.
Qed.

Lemma put_class_sizes id c c' s :
  zlookup s.(s_slabclass) id = Some c -> c'.(p_size) = c.(p_size) ->
  p_size <$> (put_class id c' s).(s_slabclass) = p_size <$> s.(s_slabclass).
Proof.
  intros [_ Hi]%zlookup_Some Hsz. simpl. rewrite list_fmap_insert. apply list_insert_id.
  by rewrite list_lookup_fmap, Hi, Hsz.
Qed.

Lemma put_class_put id c c' s : put_class id c' (put_class id c s) = put_class id c' s.
Proof. unfold put_class. simpl. by rewrite list_insert_insert_eq. Qed.

Lemma lookup_put_same id c c0 s :
  zlookup s.(s_slabclass) id = Some c0 -> zlookup (put_class id c s).(s_slabclass) id = Some c.
Proof.
  intros Hc. rewrite (lookup_put_class _ _ _ _ _ Hc) by (apply zlookup_range in Hc; lia).
  by rewrite decide_True.
Qed.

Lemma len_small x : 0 < x < 2 ^ 31 -> swrap 32 x = x /\ u64 x = x.
Proof.
  intros Hx. split; [|apply u64_small; lia].
  unfold swrap. rewrite Z.mod_small by lia. destruct (Z.ltb_spec x (2 ^ (32 - 1))); lia.
Qed.

Lemma malloced_small s x :
  mem_ok s -> 0 < x < 2 ^ 31 -> u64 (s.(s_mem_malloced) + x) = s.(s_mem_malloced) + x.
Proof.
  intros [Hl Hm Hn _] Hx. pose proof (started_bound s.(s_slabclass)).
  rewrite Hn in *. apply u64_small.
  change (Z.of_nat (Z.to_nat MAX_NUMBER_OF_SLAB_CLASSES)) with 201 in *. lia.
Qed.

(** What the guard of [do_slabs_newslab] lets through. *)
Lemma page_allowed s x n :
  0 < s.(s_mem_limit) -> 0 <= n ->
  negb (s.(s_mem_limit) =? 0) && (s.(s_mem_limit) <? s.(s_mem_malloced) + x) && (0 <? n) = false ->
  n = 0 \/ s.(s_mem_malloced) + x <= s.(s_mem_limit).
Proof.
  intros Hl Hn. destruct (Z.eqb_spec (s_mem_limit s) 0); [lia|].
  destruct (Z.ltb_spec (s_mem_limit s) (s_mem_malloced s + x)), (Z.ltb_spec 0 n); simpl;
    intros; try discriminate; lia.
Qed.

Lemma do_slabs_newslab_run id c e U (Q : Z -> engine -> Prop) :
  slab_inv e.(e_heap) e.(e_config).(c_use_cas) e.(e_slabs) e.(e_calls) U ->
  POWER_SMALLEST <= id <= e.(e_slabs).(s_power_largest) ->
  zlookup e.(e_slabs).(s_slabclass) id = Some c ->
  c.(p_end_page_ptr) = NULL -> c.(p_sl_curr) = 0 ->
  (forall r e' c', slab_frame e e' ->
     slab_inv e'.(e_heap) e'.(e_config).(c_use_cas) e'.(e_slabs) e'.(e_calls) U ->
     zlookup e'.(e_slabs).(s_slabclass) id = Some c' ->
     r = 0 \/ (r = 1 /\ c'.(p_end_page_ptr) <> NULL) ->
     Q r e') ->
  runs (do_slabs_newslab id) e Q.
Proof.
  intros Hinv Hid Hc Hend Hcurr HQ. destruct (Hinv) as [HS Hm].
  destruct (class_pages _ _ _ _ _ id c Hinv Hid Hc) as (Hs & Hp & Hlen & Hn & Hch).
  destruct (len_small _ Hlen) as [Hl1 Hl2]. unfold do_slabs_newslab.
  apply runs_bind. eapply runs_get_class; [exact Hc|]. rewrite Hl1, Hl2. run.
  rewrite (malloced_small _ _ Hm Hlen).
  destruct (_ && _ && _) eqn:Hlim.
  { run. eapply HQ; [apply slab_frame_refl|done|done|by left]. }
  apply runs_bind. eapply grow_slab_list_run; [done|done|exact Hc|..]; simpl.
  { intros calls Hle. run. simpl. eapply HQ; [| |done|by left].
    - split; [by destruct e|]. split; [done|]. split; [simpl; congruence|done].
    - split; [by eapply slab_rep_calls|done]. }
  intros calls c1 Hle Hc1 Hlt Hok1. simpl. run.
  assert (Hsz1 : c1.(p_size) = c.(p_size)) by (by rewrite Hc1).
  assert (Hps1 : c1.(p_perslab) = c.(p_perslab)) by (by rewrite Hc1).
  assert (Hn1 : c1.(p_slabs) = c.(p_slabs)) by (by rewrite Hc1).
  assert (He1 : c1.(p_end_page_ptr) = NULL) by (by rewrite Hc1).
  assert (Hfc1 : free_chunks c1 = free_chunks c) by (by rewrite Hc1).
  assert (Hnil : free_chunks c = []).
  { unfold free_chunks, list_chunks, end_chunks. by rewrite Hcurr, Hend. }
  set (s1 := put_class id c1 (e_slabs e)).
  assert (HS1 : slab_rep (e_heap e) (c_use_cas (e_config e)) s1 calls U).
  { eapply slab_rep_put_same; eauto. by eapply slab_rep_calls. }
  assert (Hm1 : mem_ok s1) by (by eapply mem_ok_put).
  assert (Hl : zlookup s1.(s_slabclass) id = Some c1) by (by eapply lookup_put_same).
  eapply memory_allocate_run; [exact HS1|lia|]. simpl.
  intros r s calls2 Hle2 Hcls Hlimit Hmall Hpow HS2 Hr.
  assert (Hm2 : mem_ok s).
  { destruct Hm1. constructor; rewrite ?Hlimit, ?Hmall, ?Hcls; done. }
  destruct (Z.eqb_spec r NULL) as [Hr0|Hr0].
  { run. eapply HQ; [| |simpl; by rewrite Hcls|by left].
    - split; [by destruct e|]. split; [done|]. split; [simpl; congruence|].
      split; [done|]. simpl. rewrite Hcls. by eapply put_class_sizes.
    - by split. }
  destruct Hr as [Hr|Hfa]; [done|]. run.
  assert (Hlk : zlookup s.(s_slabclass) id = Some c1) by (by rewrite Hcls).
  eapply runs_get_class; [exact Hlk|]. run.
  { apply zupdate_lt. destruct (co_list _ _ _ Hok1) as [? ->]. lia. }
  eapply runs_upd_class; [exact Hlk|]. run. simpl.
  rewrite u32_small, (malloced_small _ _ Hm2 Hlen) by lia.
  eapply HQ; [| |simpl; by eapply lookup_put_same|right; split; [done|exact Hr0]].
  - split; [by destruct e|]. split; [|split; [|split; [exact Hpow|]]].
    + apply zero_page_sub. intros x Hx. apply (fa_fresh _ _ _ _ _ Hfa). by apply page_bounds in Hx.
    + intros x it Hx. simpl. rewrite zero_page_lookup. destruct (decide _); [|congruence].
      intros [= <-]. eauto.
    + simpl. etransitivity; [by eapply (put_class_sizes id c1)|]. rewrite Hcls.
      by eapply put_class_sizes.
  - split; simpl.
    + rewrite <- Hsz1, <- Hps1 in *.
      match goal with |- slab_rep _ _ (set_s_mem_malloced _ ?t) _ _ =>
        apply (slab_rep_allocs _ _ t _ calls2); [|done..|apply HS2] end.
      eapply (slab_rep_new_page _ _ s calls2 U id c1); try done; try lia.
      * simpl. apply length_insert.
      * by rewrite Hfc1.
    + rewrite <- Hsz1, <- Hps1 in *. apply (mem_ok_page s id c1); try done; try lia.
      rewrite Hlimit, Hmall, Hn1. apply page_allowed; [apply Hm|lia|exact Hlim].
Qed.
(** ** Allocation *)

(** The first chunk of the end of a page. *)
Lemma page_chunks_S ptr size n :
  0 < n -> page_chunks ptr size n = ptr :: page_chunks (ptr + size) size (n - 1).
Proof.
  intros Hn. unfold page_chunks. replace (Z.to_nat n) with (S (Z.to_nat (n - 1))) by lia.
  cbn [seq fmap list_fmap]. f_equal; [simpl; lia|].
  rewrite <- fmap_S_seq, <- list_fmap_compose. apply list_fmap_ext. intros i x _. simpl. lia.
Qed.

(** The last chunk of the free list. *)
Lemma list_chunks_pop c x :
  0 < c.(p_sl_curr) -> zlookup c.(p_slots) (c.(p_sl_curr) - 1) = Some x ->
  list_chunks c = take (Z.to_nat (c.(p_sl_curr) - 1)) c.(p_slots) ++ [x].
Proof.
  intros Hc [_ Hx]%zlookup_Some. unfold list_chunks.
  replace (Z.to_nat c.(p_sl_curr)) with (S (Z.to_nat (c.(p_sl_curr) - 1))) by lia.
  by apply take_S_r.
Qed.

Lemma free_chunk_pos h uc s calls U id c x :
  slab_rep h uc s calls U -> zlookup s.(s_slabclass) id = Some c -> x ∈ free_chunks c -> 0 <= x.
Proof.
  intros HS Hc Hx. destruct (sr_chunk _ _ _ _ _ HS id c x Hc Hx) as (it & Hit & _).
  destruct (sr_area _ _ _ _ _ HS x) as (m & sz & _ & _ & Hin); [eauto|].
  pose proof (malloc_addr m sz). lia.
Qed.

Definition alloc_post (e : engine) (U : gmap Z Z) (id r : Z) (e' : engine) : Prop :=
  slab_frame e e' /\
  ((r = NULL /\ slab_inv e'.(e_heap) e'.(e_config).(c_use_cas) e'.(e_slabs) e'.(e_calls) U) \/
   (r <> NULL /\ U !! r = None /\ POWER_SMALLEST <= id <= e.(e_slabs).(s_power_largest) /\
    slab_inv e'.(e_heap) e'.(e_config).(c_use_cas) e'.(e_slabs) e'.(e_calls) (<[r := id]> U) /\
    exists c it, zlookup e.(e_slabs).(s_slabclass) id = Some c /\
      e'.(e_heap) !! r = Some it /\ chunk_free it /\
      length it.(it_body) = Z.to_nat (body_size e.(e_config).(c_use_cas) c.(p_size)))).

(** Taking the chunk [x] of the class [id] in the state [e1]. *)
Lemma alloc_take e e1 U id c c' x :
  slab_frame e e1 -> POWER_SMALLEST <= id <= e.(e_slabs).(s_power_largest) ->
  slab_inv e1.(e_heap) e1.(e_config).(c_use_cas) e1.(e_slabs) e1.(e_calls) U ->
  zlookup e1.(e_slabs).(s_slabclass) id = Some c ->
  same_pages c c' -> lists_ok c' -> free_chunks c ≡ₚ x :: free_chunks c' ->
  alloc_post e U id x (set_e_slabs (put_class id c' e1.(e_slabs)) e1).
Proof.
  intros Hfr Hid [HS Hm] Hc Hpg Hls Hperm.
  destruct (slab_rep_take _ _ _ _ _ _ _ _ _ HS Hc Hpg Hls Hperm)
    as (HS' & HU & Hx & it & Hit & Hfree & Hb).
  destruct Hpg as (Hsz & Hps & Hn & _).
  assert (Hcs : p_size <$> (put_class id c' e1.(e_slabs)).(s_slabclass)
    = p_size <$> e.(e_slabs).(s_slabclass)).
  { rewrite (put_class_sizes id c) by done. apply Hfr. }
  split.
  - eapply slab_frame_trans; [exact Hfr|]. split; [by destruct e1|]. split; [done|].
    split; [simpl; congruence|]. split; [done|]. by eapply put_class_sizes.
  - right. split; [done|]. split; [done|]. split; [done|]. split; [|].
    { split; [done|]. by eapply mem_ok_put. }
    destruct Hfr as (He1 & _ & _ & _ & Hcs1). pose proof Hc as [Hid0 Hi]%zlookup_Some.
    assert (Hi' : (p_size <$> e.(e_slabs).(s_slabclass)) !! Z.to_nat id = Some c.(p_size)).
    { rewrite <- Hcs1, list_lookup_fmap, Hi. done. }
    apply list_lookup_fmap_Some in Hi' as (c0 & Hi' & Hc0).
    exists c0, it. split; [by apply zlookup_Some|]. split; [done|]. split; [done|].
    rewrite <- Hi', Hb. f_equal. f_equal. by rewrite He1.
Qed.

Lemma do_slabs_take_run size id ok e e1 c U (Q : Z -> engine -> Prop) :
  slab_frame e e1 -> POWER_SMALLEST <= id <= e.(e_slabs).(s_power_largest) ->
  slab_inv e1.(e_heap) e1.(e_config).(c_use_cas) e1.(e_slabs) e1.(e_calls) U ->
  zlookup e1.(e_slabs).(s_slabclass) id = Some c ->
  ok = false \/ c.(p_sl_curr) <> 0 \/ c.(p_end_page_ptr) <> NULL ->
  (forall r e', alloc_post e U id r e' -> Q r e') ->
  runs (do_slabs_take size id ok) e1 Q.
Proof.
  intros Hfr Hid Hinv Hc Hok HQ. unfold do_slabs_take.
  pose proof (sr_class _ _ _ _ _ (proj1 Hinv) id c Hc) as Hcl.
  destruct (class_pages _ _ _ _ _ id c Hinv) as (Hs & Hp & _ & _ & Hch); [|done|].
  { destruct Hfr as (_ & _ & _ & -> & _). done. }
  apply runs_bind. eapply runs_get_class; [exact Hc|]. apply runs_bind.
  destruct ok; simpl.
  2:{ run. apply runs_when; intros Hn; [done|]. run. apply HQ. split; [done|by left]. }
  (* the requested bytes are counted when the chunk is not NULL *)
  assert (Hend : forall c' x, same_pages c c' -> lists_ok c' ->
    free_chunks c ≡ₚ x :: free_chunks c' ->
    runs (when (negb (x =? NULL))
            (upd_class id (fun c => set_p_requested (u64 (c.(p_requested) + size)) c)))
         (set_e_slabs (put_class id c' e1.(e_slabs)) e1) (fun _ s => runs (mret x) s Q)).
  { intros c' x Hpg Hls Hperm.
    assert (Hx : x <> NULL).
    { apply (sr_used _ _ _ _ _ (proj1 Hinv)). apply all_free_elem.
      apply zlookup_Some in Hc as [_ Hc]. do 2 eexists. split; [exact Hc|].
      rewrite Hperm. by left. }
    apply runs_when; intros Hn; boolify; [|done].
    eapply runs_upd_class; [by eapply lookup_put_same|]. run. simpl.
    rewrite put_class_put. apply HQ.
    match goal with |- alloc_post _ _ _ _ (set_e_slabs ?s (set_e_slabs _ _)) =>
      enough (alloc_post e U id x (set_e_slabs s e1)) by (by destruct e1) end.
    by apply (alloc_take e e1 U id c). }
  destruct Hok as [?|Hok]; [done|].
  destruct (Z.eqb_spec (p_sl_curr c) 0) as [Hcur|Hcur]; simpl.
  - destruct Hok as [?|Hep]; [done|].
    assert (Hfree : 0 < c.(p_end_page_free) < 2 ^ 30).
    { pose proof (co_free _ _ _ Hcl). pose proof (co_end _ _ _ Hcl) as Hce.
      pose proof (co_count _ _ _ Hcl) as Hcnt. unfold free_chunks, end_chunks in Hcnt.
      rewrite (proj2 (Z.eqb_neq _ _) Hep), length_app, Nat2Z.inj_add,
        page_chunks_length in Hcnt by lia. unfold used_count in Hcnt.
      assert (c.(p_end_page_free) <> 0) by tauto. lia. }
    assert (Hpos : 0 <= c.(p_end_page_ptr)).
    { eapply (free_chunk_pos _ _ _ _ _ id c); [apply Hinv|exact Hc|].
      unfold free_chunks, end_chunks. rewrite (proj2 (Z.eqb_neq _ _) Hep), page_chunks_S by lia.
      set_solver. }
    run; [by apply negb_true_iff, Z.eqb_neq|].
    eapply runs_upd_class; [exact Hc|]. rewrite u32_small by lia. run.
    apply Hend; [done|..]; simpl.
    + destruct Hcl. split; [done|]. split; [done|].
      destruct (Z.eqb_spec (p_end_page_free c - 1) 0); simpl; unfold NULL in *.
      * split; [tauto|lia].
      * split; lia.
    + unfold free_chunks, list_chunks, end_chunks. simpl.
      rewrite (proj2 (Z.eqb_neq _ _) Hep), page_chunks_S by lia.
      destruct (Z.eqb_spec (p_end_page_free c - 1) 0) as [Hz|Hz]; simpl.
      * rewrite Hz. rewrite app_nil_r. by rewrite Permutation_app_comm.
      * destruct (Z.eqb_spec (p_end_page_ptr c + p_size c) NULL); [unfold NULL in *; lia|].
        by rewrite <- Permutation_middle.
  - assert (Hpos : 0 < c.(p_sl_curr)) by (destruct Hcl; lia).
    destruct (zlookup_lt c.(p_slots) (c.(p_sl_curr) - 1)) as [x Hx]; [destruct Hcl; lia|].
    apply runs_bind. eapply runs_upd_class; [exact Hc|]. run; [exact Hx|].
    apply Hend; [done|..].
    + destruct Hcl. split; simpl; [lia|done].
    + unfold free_chunks. rewrite (list_chunks_pop _ _ Hpos Hx).
      unfold list_chunks. simpl. rewrite <- app_assoc. symmetry. apply Permutation_middle.
Qed.

Lemma do_slabs_alloc_run size id e U (Q : Z -> engine -> Prop) :
  slab_inv e.(e_heap) e.(e_config).(c_use_cas) e.(e_slabs) e.(e_calls) U ->
  (forall r e', alloc_post e U id r e' -> Q r e') ->
  runs (do_slabs_alloc size id) e Q.
Proof.
  intros Hinv HQ. unfold do_slabs_alloc. run.
  destruct (_ || _) eqn:Hrange.
  { run. apply HQ. split; [apply slab_frame_refl|]. by left. }
  boolify. assert (Hid : POWER_SMALLEST <= id <= e.(e_slabs).(s_power_largest)) by lia.
  pose proof (sr_largest _ _ _ _ _ (proj1 Hinv)) as Hlg.
  destruct (zlookup_lt e.(e_slabs).(s_slabclass) id) as [c Hc].
  { rewrite (sr_len _ _ _ _ _ (proj1 Hinv)).
    unfold MAX_NUMBER_OF_SLAB_CLASSES, POWER_SMALLEST, POWER_LARGEST in *. lia. }
  apply runs_bind. eapply runs_get_class; [exact Hc|]. apply runs_bind.
  destruct (Z.eqb_spec (p_end_page_ptr c) NULL) as [Hep|Hep]; simpl.
  - destruct (Z.eqb_spec (p_sl_curr c) 0) as [Hcur|Hcur]; simpl.
    + apply runs_bind. eapply do_slabs_newslab_run; [done|done|exact Hc|done|done|].
      intros r e' c' Hfr Hinv' Hc' Hr. run.
      eapply do_slabs_take_run; [exact Hfr|done|done|exact Hc'| |done].
      destruct Hr as [->|[-> Hr]]; simpl; auto.
    + run. eapply do_slabs_take_run; [apply slab_frame_refl|done|done|exact Hc|by auto|done].
  - run. eapply do_slabs_take_run; [apply slab_frame_refl|done|done|exact Hc|by auto|done].
Qed.
(** ** Freeing *)

Lemma sl_curr_bound h uc s calls U id c :
  slab_inv h uc s calls U -> POWER_SMALLEST <= id <= s.(s_power_largest) ->
  zlookup s.(s_slabclass) id = Some c -> 0 <= c.(p_sl_curr) < 2 ^ 30.
Proof.
  intros Hinv Hid Hc. pose proof (sr_class _ _ _ _ _ (proj1 Hinv) id c Hc) as Hcl.
  destruct (class_pages _ _ _ _ _ id c Hinv Hid Hc) as (_ & _ & _ & _ & Hch).
  destruct Hcl. unfold free_chunks, list_chunks, used_count in *.
  rewrite length_app, length_take in *. lia.
Qed.

Definition free_post (e : engine) (U : gmap Z Z) (p : Z) (e' : engine) : Prop :=
  slab_frame e e' /\ e'.(e_heap) = e.(e_heap) /\
  exists U', (U' = U \/ U' = delete p U) /\
    slab_inv e'.(e_heap) e'.(e_config).(c_use_cas) e'.(e_slabs) e'.(e_calls) U'.

(** Giving the chunk [p] of the class [id] back, where there is room for it. *)
Lemma free_give e U id c c1 calls p it size :
  slab_inv e.(e_heap) e.(e_config).(c_use_cas) e.(e_slabs) e.(e_calls) U ->
  POWER_SMALLEST <= id <= e.(e_slabs).(s_power_largest) ->
  zlookup e.(e_slabs).(s_slabclass) id = Some c -> (e.(e_calls) <= calls)%nat ->
  same_pages c c1 -> lists_ok c1 -> free_chunks c1 = free_chunks c ->
  c1.(p_sl_curr) = c.(p_sl_curr) -> c1.(p_sl_curr) < c1.(p_sl_total) ->
  U !! p = Some id -> e.(e_heap) !! p = Some it -> chunk_free it ->
  length it.(it_body) = Z.to_nat (body_size e.(e_config).(c_use_cas) c.(p_size)) ->
  let c2 := set_p_requested (u64 (c1.(p_requested) - size))
              (set_p_sl_curr (u32 (c1.(p_sl_curr) + 1))
                 (set_p_slots (<[Z.to_nat c1.(p_sl_curr) := p]> c1.(p_slots)) c1)) in
  free_post e U p (set_e_calls calls (set_e_slabs (put_class id c2 e.(e_slabs)) e)).
Proof.
  intros Hinv Hid Hc Hle Hpg Hls Hfc Hcur Hlt HU Hit Hfree Hb c2.
  pose proof (sl_curr_bound _ _ _ _ _ id c Hinv Hid Hc) as Hbound. rewrite <- Hcur in Hbound.
  destruct Hls as (Hl1 & Hl2 & Hl3).
  assert (Hpg2 : same_pages c c2) by exact Hpg.
  assert (Hls2 : lists_ok c2).
  { split; simpl; [rewrite u32_small by lia; lia|]. by rewrite length_insert. }
  assert (Hperm : free_chunks c2 ≡ₚ p :: free_chunks c).
  { rewrite <- Hfc. unfold free_chunks, list_chunks, end_chunks. subst c2. simpl.
    rewrite u32_small by lia. rewrite Permutation_middle.
    replace (Z.to_nat (p_sl_curr c1 + 1)) with (S (Z.to_nat (p_sl_curr c1))) by lia.
    rewrite (take_S_r _ _ p) by (apply list_lookup_insert_eq; lia).
    rewrite take_insert_ge by lia. rewrite <- app_assoc. done. }
  split; [|split; [done|exists (delete p U); split; [by right|split]]].
  - split; [by destruct e|]. split; [done|]. split; [simpl; congruence|]. split; [done|].
    eapply put_class_sizes; [exact Hc|]. apply Hpg2.
  - eapply (slab_rep_calls _ _ _ e.(e_calls)); [|done].
    eapply slab_rep_give; [apply Hinv|exact Hc|done..].
  - destruct Hpg2 as (? & ? & ? & _). eapply mem_ok_put; [apply Hinv|exact Hc|done..].
Qed.

Lemma do_slabs_free_run p size id c it e U (Q : unit -> engine -> Prop) :
  slab_inv e.(e_heap) e.(e_config).(c_use_cas) e.(e_slabs) e.(e_calls) U ->
  POWER_SMALLEST <= id <= e.(e_slabs).(s_power_largest) ->
  zlookup e.(e_slabs).(s_slabclass) id = Some c ->
  U !! p = Some id -> e.(e_heap) !! p = Some it -> chunk_free it ->
  length it.(it_body) = Z.to_nat (body_size e.(e_config).(c_use_cas) c.(p_size)) ->
  (forall e', free_post e U p e' -> Q tt e') ->
  runs (do_slabs_free p size id) e Q.
Proof.
  intros Hinv Hid Hc HU Hit Hfree Hb HQ. unfold do_slabs_free. run.
  pose proof (sl_curr_bound _ _ _ _ _ id c Hinv Hid Hc) as Hbound.
  pose proof (sr_class _ _ _ _ _ (proj1 Hinv) id c Hc) as Hcl.
  destruct (Z.ltb_spec id POWER_SMALLEST), (Z.ltb_spec (s_power_largest (e_slabs e)) id);
    try lia. simpl. apply runs_bind. eapply runs_get_class; [exact Hc|]. apply runs_bind.
  destruct (Z.eqb_spec (p_sl_curr c) (p_sl_total c)) as [Hfull|Hfull].
  - set (n := if negb (p_sl_total c =? 0) then _ else 16).
    assert (Hn : p_sl_total c < n < 2 ^ 31).
    { subst n. destruct (Z.eqb_spec (p_sl_total c) 0); simpl; [lia|].
      rewrite (proj1 (len_small (p_sl_total c * 2) ltac:(lia))). lia. }
    apply runs_bind. run. destruct (sys_realloc _ _); simpl.
    + apply runs_bind. eapply runs_upd_class; [exact Hc|]. run. simpl.
      apply runs_bind. eapply runs_get_class; [by eapply lookup_put_same|]. run.
      { apply zupdate_lt. simpl. rewrite length_app, length_replicate. destruct Hcl. lia. }
      eapply runs_upd_class; [by eapply lookup_put_same|]. simpl. rewrite put_class_put.
      apply HQ.
      enough (Hg : free_post e U p (set_e_calls (S (e_calls e)) (set_e_slabs (put_class id
        (let c1 := set_p_sl_total (u32 n) (set_p_slots
           (p_slots c ++ replicate (Z.to_nat (n - p_sl_total c)) NULL) c) in
         set_p_requested (u64 (c1.(p_requested) - size))
              (set_p_sl_curr (u32 (c1.(p_sl_curr) + 1))
                 (set_p_slots (<[Z.to_nat c1.(p_sl_curr) := p]> c1.(p_slots)) c1)))
        (e_slabs e)) e))) by (by destruct e).
      eapply free_give; try done; simpl; try lia.
      * destruct Hcl. split; simpl; [rewrite u32_small by lia; lia|].
        rewrite length_app, length_replicate, u32_small by lia. split; [lia|done].
      * unfold free_chunks, list_chunks, end_chunks. simpl. destruct Hcl.
        by rewrite take_app_le by lia.
      * rewrite u32_small by lia. lia.
    + run. simpl. run. apply HQ. split; [|split; [done|exists U; split; [by left|]]].
      * split; [by destruct e|]. split; [done|]. split; [simpl; congruence|done].
      * split; [|apply Hinv]. eapply slab_rep_calls; [apply Hinv|simpl; lia].
  - run. simpl. apply runs_bind. eapply runs_get_class; [exact Hc|]. run.
    { apply zupdate_lt. destruct Hcl. lia. }
    eapply runs_upd_class; [exact Hc|]. apply HQ.
    match goal with |- free_post _ _ _ (set_e_slabs ?s _) =>
      enough (free_post e U p (set_e_calls (e_calls e) (set_e_slabs s e))) by (by destruct e) end.
    destruct Hcl. by eapply free_give; try done; try lia.
Qed.

(** ** The table of classes *)

(** A class after [slabs_init]: its size, and no page. *)
Definition fresh_class (c : slabclass_t) : Prop :=
  c = set_p_perslab c.(p_perslab) (set_p_size c.(p_size) no_slabclass) /\
  (c.(p_size) = 0 \/
   sizeof_hash_item <= c.(p_size) /\ 0 < c.(p_perslab) < 2 ^ 31 /\
   c.(p_size) * c.(p_perslab) < 2 ^ 31).

Lemma fresh_class_free c : fresh_class c -> free_chunks c = [].
Proof. intros [-> _]. done. Qed.

Lemma fresh_all_free cs : Forall fresh_class cs -> all_free cs = [].
Proof.
  induction 1 as [|c cs Hc _ IH]; [done|]. unfold all_free in *. simpl.
  by rewrite (fresh_class_free c Hc).
Qed.

Lemma fresh_class_ok id c : fresh_class c -> class_ok ∅ id c.
Proof.
  intros Hc. pose proof (fresh_class_free c Hc) as Hnil. destruct Hc as [Hc Hsz].
  assert (Hu : used_count ∅ id = 0).
  { unfold used_count. rewrite map_filter_empty. done. }
  unfold sizeof_hash_item in *.
  constructor; rewrite ?Hnil, ?Hu; try (rewrite Hc; simpl; lia); simpl.
  all: rewrite Hc; done.
Qed.

Lemma slab_inv_fresh uc s calls :
  length s.(s_slabclass) = Z.to_nat MAX_NUMBER_OF_SLAB_CLASSES ->
  POWER_SMALLEST <= s.(s_power_largest) <= POWER_LARGEST ->
  Forall fresh_class s.(s_slabclass) ->
  (forall id c, POWER_SMALLEST <= id <= s.(s_power_largest) ->
     zlookup s.(s_slabclass) id = Some c -> c.(p_size) <> 0) ->
  s.(s_mem_base) = NULL -> s.(s_allocs_next) = 0 -> s.(s_allocs_size) = 0 ->
  s.(s_allocs_ptrs) = [] -> 0 < s.(s_mem_limit) <= 2 ^ 35 -> s.(s_mem_malloced) = 0 ->
  slab_inv ∅ uc s calls ∅.
Proof.
  intros Hlen Hlg Hall Hsz Hb Hn Hs Hp Hlim Hmal.
  pose proof (fresh_all_free _ Hall) as Hnil.
  assert (Hcls : forall id c, zlookup s.(s_slabclass) id = Some c -> fresh_class c).
  { intros id c [_ Hc]%zlookup_Some. by eapply Forall_lookup_1 in Hall. }
  split; constructor; rewrite ?Hnil, ?Hn, ?Hs, ?Hp, ?Hmal; try done.
  - intros id c Hc. apply fresh_class_ok. eauto.
  - apply NoDup_nil_2.
  - intros x Hx. set_solver.
  - intros id c x Hc Hx. rewrite (fresh_class_free c) in Hx by eauto. set_solver.
  - by intros x [? Hx].
  - by intros x [? Hx].
  - pose proof (started_bound s.(s_slabclass)). lia.
  - intros id c Hc Hnz. destruct (Hcls id c Hc) as [-> [?|?]]; simpl in *; [done|]. lia.
Qed.

(** ** Histories of the allocator *)

(** The calls of a client: it allocates, writes the chunks it holds and frees
    them, as [item_free] does, with the class and the flags of the header reset. *)
Inductive slab_op :=
| SAlloc (size id : Z)
| SWrite (p : Z) (it : hash_item)
| SFree (p size : Z).

(** [V] is the ledger of the client: the chunks it holds, with their classes; the
    run says whether some call returned a chunk that the client already held. *)
Definition slab_step (op : slab_op) (V : gmap Z Z) : E (gmap Z Z * bool) :=
  match op with
  | SAlloc size id =>
      r ← slabs_alloc size id;
      if r =? NULL then mret (V, false)
      else mret (<[r := id]> V, bool_decide (is_Some (V !! r)))
  | SWrite p it => store p (fun _ => it);; mret (V, false)
  | SFree p size =>
      id ← of_option (V !! p);
      store p (fun it => set_it_slabs_clsid 0 (set_it_iflag ITEM_SLABBED it));;
      slabs_free p size id;;
      mret (delete p V, false)
  end.

Fixpoint slab_run (ops : list slab_op) (V : gmap Z Z) : E (gmap Z Z * bool) :=
  match ops with
  | [] => mret (V, false)
  | op :: ops' => x ← slab_step op V; y ← slab_run ops' x.1; mret (y.1, x.2 || y.2)
  end.

(** The client keeps to the chunks it holds and to their size. *)
Definition slab_op_ok (op : slab_op) (V : gmap Z Z) (h : gmap Z hash_item) : Prop :=
  match op with
  | SAlloc _ _ => True
  | SWrite p it => is_Some (V !! p) /\
      forall it0, h !! p = Some it0 -> length it.(it_body) = length it0.(it_body)
  | SFree p _ => is_Some (V !! p)
  end.

Fixpoint slab_ops_ok (ops : list slab_op) (V : gmap Z Z) (e : engine) : Prop :=
  match ops with
  | [] => True
  | op :: ops' => slab_op_ok op V e.(e_heap) /\
      forall x e', slab_step op V e = Some (x, e') -> slab_ops_ok ops' x.1 e'
  end.

(** The chunks of the ledger are in use, and as large as their class says. *)
Definition ledger (e : engine) (V U : gmap Z Z) : Prop :=
  V ⊆ U /\ forall p id, V !! p = Some id ->
    POWER_SMALLEST <= id <= e.(e_slabs).(s_power_largest) /\
    exists c it, zlookup e.(e_slabs).(s_slabclass) id = Some c /\ e.(e_heap) !! p = Some it /\
      length it.(it_body) = Z.to_nat (body_size e.(e_config).(c_use_cas) c.(p_size)).

Definition slab_state (e : engine) (V : gmap Z Z) : Prop :=
  exists U, slab_inv e.(e_heap) e.(e_config).(c_use_cas) e.(e_slabs) e.(e_calls) U /\
            ledger e V U.

Lemma frame_class e e' id c :
  slab_frame e e' -> zlookup e.(e_slabs).(s_slabclass) id = Some c ->
  exists c', zlookup e'.(e_slabs).(s_slabclass) id = Some c' /\ c'.(p_size) = c.(p_size).
Proof.
  intros (_ & _ & _ & _ & Hcs) [Hid Hc]%zlookup_Some.
  assert (Hc' : (p_size <$> e'.(e_slabs).(s_slabclass)) !! Z.to_nat id = Some c.(p_size)).
  { by rewrite Hcs, list_lookup_fmap, Hc. }
  apply list_lookup_fmap_Some in Hc' as (c' & Hsz & Hc'). exists c'.
  split; [by apply zlookup_Some|done].
Qed.

Lemma ledger_frame e e' V V' U U' :
  slab_frame e e' -> ledger e V U -> V' ⊆ V -> V' ⊆ U' -> ledger e' V' U'.
Proof.
  intros Hfr [_ HV] Hsub Hsub'. split; [done|]. intros p id Hp.
  destruct (HV p id) as (Hid & c & it & Hc & Hit & Hb); [by eapply lookup_weaken|].
  destruct (frame_class e e' id c Hfr Hc) as (c' & Hc' & Hsz).
  destruct Hfr as (He' & Hh & _ & Hp' & _). rewrite Hp'. split; [done|].
  exists c', it. split; [done|]. split; [by eapply lookup_weaken|].
  rewrite Hb, Hsz. by rewrite He'.
Qed.

(** A client may write the chunks that are in use; of the free chunks the allocator
    looks only at these parts. *)
Definition chunk_view (it : hash_item) : Z * bool * nat :=
  (it.(it_slabs_clsid), has_flag it ITEM_LINKED, length it.(it_body)).

Lemma slab_inv_write h h' uc s calls U :
  slab_inv h uc s calls U ->
  (forall x, is_Some (h' !! x) <-> is_Some (h !! x)) ->
  (forall x, U !! x = None -> chunk_view <$> (h' !! x) = chunk_view <$> (h !! x)) ->
  slab_inv h' uc s calls U.
Proof.
  intros [HS Hm] Hd Hw. split; [|done]. destruct HS. constructor; auto.
  - intros id c x Hc Hx. destruct (sr_chunk0 id c x Hc Hx) as (it & Hit & [Hf1 Hf2] & Hb).
    assert (Hv : chunk_view <$> (h' !! x) = Some (chunk_view it)).
    { rewrite (Hw x); [by rewrite Hit|]. apply sr_used0, all_free_elem.
      apply zlookup_Some in Hc as [_ Hc]. eauto. }
    destruct (h' !! x) as [it'|] eqn:Hit'; [|discriminate]. injection Hv as H1 H2 H3.
    exists it'. unfold chunk_free. rewrite H1, H2, H3. done.
  - intros x Hx. rewrite (Hd x). auto.
  - intros x Hx. apply sr_area0. by apply Hd.
  - intros Hb. destruct (sr_base0 Hb) as [Hout ?]. split; [|done].
    intros x Hx. apply Hout. by apply Hd.
Qed.

Lemma slab_inv_insert h uc s calls U p it :
  slab_inv h uc s calls U -> is_Some (U !! p) -> slab_inv (<[p := it]> h) uc s calls U.
Proof.
  intros Hinv Hp. pose proof Hinv as [HS Hm]. eapply slab_inv_write; [exact Hinv|..].
  - intros x. rewrite lookup_insert. destruct (decide (p = x)) as [->|]; [|done].
    split; [intros _|by eauto]. by apply (sr_dom _ _ _ _ _ HS).
  - intros x Hx. rewrite lookup_insert_ne; [done|]. intros ->. rewrite Hx in Hp. by destruct Hp.
Qed.

Lemma slab_step_run op e V :
  slab_state e V -> slab_op_ok op V e.(e_heap) ->
  runs (slab_step op V) e (fun x e' => slab_state e' x.1 /\ x.2 = false).
Proof.
  intros (U & Hinv & HL) Hok. destruct op as [size id|p it|p size]; simpl in *.
  - apply runs_bind. eapply do_slabs_alloc_run; [exact Hinv|]. intros r e' [Hfr Hpost].
    destruct Hpost as [[-> Hinv']|(Hr & HU & Hid & Hinv' & c & it & Hc & Hit & _ & Hb)].
    + simpl. run. simpl. split; [|done]. exists U. split; [done|].
      eapply ledger_frame; [done|exact HL|done|apply HL].
    + rewrite (proj2 (Z.eqb_neq _ _) Hr). run. simpl. split.
      * exists (<[r := id]> U). split; [done|].
        destruct (ledger_frame e e' V V U (<[r := id]> U) Hfr HL) as [Hs HV']; [done|..].
        { transitivity U; [apply HL|by apply insert_subseteq]. }
        split; [by apply insert_mono, HL|]. intros p i. rewrite lookup_insert.
        destruct (decide (r = p)) as [<-|]; [|apply HV']. intros [= <-].
        destruct (frame_class e e' id c Hfr Hc) as (c' & Hc' & Hsz).
        split; [by destruct Hfr as (_ & _ & _ & -> & _)|]. exists c', it.
        split; [done|]. split; [done|]. rewrite Hb, Hsz. destruct Hfr as (-> & _). done.
      * apply bool_decide_eq_false. intros [i Hi].
        apply (lookup_weaken _ U) in Hi; [congruence|apply HL].
  - destruct Hok as [[id Hp] Hlen]. destruct HL as [Hsub HV].
    destruct (HV p id Hp) as (Hid & c & it0 & Hc & Hit0 & Hb).
    apply runs_bind. eapply runs_store; [exact Hit0|]. run. simpl. split; [|done].
    exists U. split; [apply slab_inv_insert; [done|]; exists id; by eapply lookup_weaken|].
    split; [done|]. intros q i Hq. destruct (HV q i Hq) as (Hqi & cq & iq & Hcq & Hiq & Hbq).
    split; [done|]. exists cq. simpl. rewrite lookup_insert.
    destruct (decide (p = q)) as [<-|]; [|by eauto]. exists it. split; [done|].
    split; [done|]. rewrite (Hlen _ Hit0). replace it0 with iq by congruence. done.
  - destruct Hok as [id Hp]. destruct (HL) as [Hsub HV].
    destruct (HV p id Hp) as (Hid & c & it0 & Hc & Hit0 & Hb).
    rewrite Hp. run; [done|]. eapply runs_store; [exact Hit0|]. apply runs_bind.
    set (it1 := set_it_slabs_clsid 0 _).
    assert (HpU : U !! p = Some id) by (by eapply lookup_weaken).
    eapply (do_slabs_free_run p size id c it1 (upd_heap (insert p it1) e) U); try done.
    + apply slab_inv_insert; eauto.
    + apply lookup_insert_eq.
    + intros e' (Hfr & _ & U' & HU' & Hinv'). run. simpl. split; [|done].
      exists U'. split; [done|]. eapply (ledger_frame _ e' V (delete p V) U).
      * exact Hfr.
      * split; [done|]. intros q i Hq. destruct (HV q i Hq) as (Hqi & cq & iq & Hcq & Hiq & Hbq).
        split; [done|]. exists cq. simpl. rewrite lookup_insert.
        destruct (decide (p = q)) as [<-|]; [|by eauto]. exists it1. split; [done|].
        split; [done|]. replace iq with it0 in * by congruence. done.
      * apply delete_subseteq.
      * destruct HU' as [->| ->]; [|by apply delete_mono].
        transitivity V; [apply delete_subseteq|done].
Qed.
End proofs.

Section claims.
Context `{EnvOk}.

(** C26: The allocator never hands out a chunk twice: from a state that satisfies
    its invariant, every history of allocations, writes and frees by a client that
    keeps to its chunks runs without a failed assertion or an access outside an
    array, no allocation returns a chunk that the client holds at that point, the
    chunk is as large as its class, and the invariant holds at the end. *)
Theorem slabs_no_double_allocation ops V e :
  slab_state e V -> slab_ops_ok ops V e ->
  runs (slab_run ops V) e (fun x e' => slab_state e' x.1 /\ x.2 = false).
Proof.
  revert V e. induction ops as [|op ops IH]; intros V e Hst Hok; simpl; [by run|].
  destruct Hok as [Hop Hrest]. apply runs_bind.
  destruct (slab_step_run op e V Hst Hop) as (x & e1 & Hx & Hst1 & Hx2).
  exists x, e1. split; [done|]. apply runs_bind.
  destruct (IH x.1 e1 Hst1 (Hrest x e1 Hx)) as (y & e2 & Hy & Hst2 & Hy2).
  exists y, e2. split; [done|]. run. simpl. split; [done|]. by rewrite Hx2, Hy2.
Qed.

(** [slabs_clsid] returns the first class whose chunks hold [size] bytes,
    and 0 exactly when [size] is 0 or when no class does. *)
Theorem slabs_clsid_first_fit size e :
  POWER_SMALLEST <= e.(e_slabs).(s_power_largest)
    < Z.of_nat (length e.(e_slabs).(s_slabclass)) ->
  runs (slabs_clsid size) e (fun r e' => e' = e /\ first_fit e.(e_slabs) size r).
Proof. intros Hl. apply slabs_clsid_run; [done|]. auto. Qed.


(** The defaults of [create_instance]: items of at most 1 MB, a factor of 1.25 and
    48 bytes of chunk for the smallest item. *)
Definition default_factor : spec_float := Eval vm_compute in
  SFdiv 53 1024 (SF_of_Z 5) (SF_of_Z 4).

Definition default_sizes (cfg : config) : Prop :=
  cfg.(c_item_size_max) = 1024 * 1024 /\ cfg.(c_chunk_size) = 48.

(** What [calloc] leaves in the [struct slabs] of a new engine. *)
Definition no_slabs : slabs := blank_engine.(e_slabs).

Definition class_sizes (s : slabs) : list Z :=
  p_size <$> take (Z.to_nat s.(s_power_largest)) (drop 1 s.(s_slabclass)).

Fixpoint increasing (l : list Z) : bool :=
  match l with
  | x :: (y :: _) as l' => (x <? y) && increasing l'
  | _ => true
  end.

Lemma sized_prefix s :
  Forall (fun c => c.(p_size) <> 0)
    (take (Z.to_nat s.(s_power_largest)) (drop 1 s.(s_slabclass))) ->
  forall id c, POWER_SMALLEST <= id <= s.(s_power_largest) ->
    zlookup s.(s_slabclass) id = Some c -> c.(p_size) <> 0.
Proof.
  intros Hall id c Hid [_ Hc]%zlookup_Some. unfold POWER_SMALLEST in *.
  apply (Forall_lookup_1 _ _ (Z.to_nat (id - 1)) _ Hall).
  rewrite lookup_take_lt, lookup_drop by lia. rewrite <- Hc. f_equal. lia.
Qed.

(** [slabs_init] with the defaults of the engine builds the table of the
    42 size classes: sizes that increase strictly from 96 bytes to 1 MB and are
    multiples of the alignment, each class but the last within the growth factor
    of the one before up to the alignment, and the invariant of the allocator holds
    with no chunk in use. *)
Theorem slabs_init_default limit e :
  default_sizes e.(e_config) -> e.(e_slabs) = no_slabs -> e.(e_heap) = ∅ ->
  0 < limit <= 2 ^ 35 ->
  runs (slabs_init limit default_factor false None) e (fun r e' =>
    r = ENGINE_SUCCESS /\ slab_state e' ∅ /\
    let l := class_sizes e'.(e_slabs) in
    length l = 42%nat /\ increasing l = true /\ head l = Some 96 /\
    last l = Some (1024 * 1024) /\ forallb (fun x => x mod CHUNK_ALIGN_BYTES =? 0) l = true /\
    forallb (fun xy => (4 * xy.2 <=? 5 * xy.1 + 4 * 7) || (xy.2 =? 1024 * 1024))
      (zip l (tail l)) = true).
Proof.
  intros [Hmax Hchunk] Hs Hh Hlim. destruct e as [i h a sl q cf st sc tc vb cas now calls spn].
  destruct cf as [uc vb' ol ev mb pre fac chunk smax ign vb0 uu]. simpl in *. subst.
  eexists ENGINE_SUCCESS, _. split; [vm_compute; reflexivity|].
  split; [done|]. split; [|vm_compute; repeat split].
  exists ∅. split; [|split; [done|intros p id Hp; by rewrite lookup_empty in Hp]].
  apply slab_inv_fresh; try done.
  - apply Forall_forall. intros c Hc. revert c Hc. apply Forall_forall.
    cbn [e_slabs s_slabclass].
    repeat (apply Forall_cons_2; [split; [reflexivity|cbn; unfold sizeof_hash_item; lia]|]).
    apply Forall_nil_2.
  - apply sized_prefix. vm_compute. repeat (apply Forall_cons_2; [done|]). apply Forall_nil_2.
Qed.
End claims.

(** ** Witnesses *)

#[local] Existing Instance demo_env.
#[local] Existing Instance demo_env_ok.

Definition default_engine_blank : engine :=
  set_e_config (mk_config true 0 0 true 67108864 false default_factor 48 1048576 false false None)
    blank_engine.

Lemma slabs_init_default_witness :
  exists e, slabs_init 67108864 default_factor false None default_engine_blank
              = Some (ENGINE_SUCCESS, e) /\ slab_state e ∅.
Proof.
  destruct (slabs_init_default 67108864 default_engine_blank)
    as (r & e & He & -> & Hst & _); [done|done|done|lia|].
  exists e. split; [exact He|exact Hst].
Defined.

(** A small engine, with items of at most 1000 bytes. *)
Definition small_engine_blank : engine :=
  set_e_config (mk_config true 0 0 true 8192 false default_factor 48 1000 false false None)
    (set_e_vbucket_infos [] blank_engine).

Definition small_slabs : engine := Eval vm_compute in
  match slabs_init 8192 default_factor false None small_engine_blank with
  | Some (_, e) => e
  | None => blank_engine
  end.

Lemma small_slab_inv calls : slab_inv ∅ true small_slabs.(e_slabs) calls ∅.
Proof.
  apply slab_inv_fresh; try done.
  - cbn [small_slabs e_slabs s_slabclass].
    repeat (apply Forall_cons_2; [split; [reflexivity|cbn; unfold sizeof_hash_item; lia]|]).
    apply Forall_nil_2.
  - apply sized_prefix. vm_compute. repeat (apply Forall_cons_2; [done|]). apply Forall_nil_2.
Qed.

Lemma small_slab_state : slab_state small_slabs ∅.
Proof.
  exists ∅. split; [apply small_slab_inv|].
  split; [done|intros p id Hp; by rewrite lookup_empty in Hp].
Qed.

Lemma slabs_clsid_first_fit_witness :
  slabs_clsid 121 small_slabs = Some (3, small_slabs) /\
  first_fit small_slabs.(e_slabs) 121 3.
Proof.
  destruct (slabs_clsid_first_fit 121 small_slabs) as (r & e & Hr & -> & Hf).
  - vm_compute. split; [discriminate|reflexivity].
  - assert (Hc : slabs_clsid 121 small_slabs = Some (3, small_slabs)) by reflexivity.
    split; [exact Hc|]. rewrite Hc in Hr. injection Hr as <-. exact Hf.
Defined.

(** Two chunks of 96 bytes from one page, one of them freed and handed out again. *)
Definition demo_slab_ops : list slab_op :=
  [SAlloc 90 1; SAlloc 96 1; SFree 3145728 90; SAlloc 80 1].

Example demo_slab_run :
  exists V e, slab_run demo_slab_ops ∅ small_slabs = Some ((V, false), e) /\
    V = {[3145728 := 1; 3145824 := 1]}.
Proof. eexists _, _. split; vm_compute; reflexivity. Qed.

Lemma slabs_no_double_allocation_witness :
  exists x e', slab_run demo_slab_ops ∅ small_slabs = Some (x, e') /\ x.2 = false.
Proof.
  destruct (slabs_no_double_allocation demo_slab_ops ∅ small_slabs)
    as (x & e' & Hr & _ & Hx).
  - apply small_slab_state.
  - do 4 (split; [vm_compute; eauto|
      intros ? ? Hs; vm_compute in Hs; injection Hs as <- <-; cbn [fst]]). exact I.
  - exists x, e'. split; [exact Hr|exact Hx].
Defined.
