(* ===== verification/Items.v ===== *)
(** * The items of the default engine ([items.c])

    Allocation with reclaiming, eviction and tail repair, the LRU queues, linking
    and unlinking, lookup with lazy expiry, the store operations, incr/decr, touch,
    flush, and the cursors that the scrubber and the TAP and DCP streams move
    through the queues. The functions of the interface take [cache_lock] around one of
    these bodies each (the scrubber for every 200 items); log messages are left out, and the
    functions that report statistics return what they pass to the callback. *)
From Stdlib Require Import ZArith Lia SpecFloat.
From stdpp Require Import strings gmap prelude.
From S2P Require Import Prelude Util EngineState Assoc Slabs.

Definition ITEM_UPDATE_INTERVAL : Z := 60.
Definition search_items : nat := 50.

Definition item_stats_reset : E unit :=
  upd_items (set_q_itemstats (replicate (Z.to_nat POWER_LARGEST) no_itemstats)).

Definition ITEM_ntotal (use_cas : bool) (it : hash_item) : Z :=
  sizeof_hash_item + it.(it_nkey) + it.(it_nbytes) + (if use_cas then 8 else 0).

Definition get_cas_id : E Z :=
  modify (fun e => set_e_cas_id (u64 (e.(e_cas_id) + 1)) e);;
  gets e_cas_id.

Definition get_current_time : E Z := gets e_now.

(** ** The arrays of the queues *)

Definition get_head (id : Z) : E Z := q ← gets e_items; of_option (zlookup q.(q_heads) id).
Definition get_tail (id : Z) : E Z := q ← gets e_items; of_option (zlookup q.(q_tails) id).

Definition put_head (id p : Z) : E unit :=
  q ← gets e_items; l ← of_option (zupdate q.(q_heads) id p); upd_items (set_q_heads l).

Definition put_tail (id p : Z) : E unit :=
  q ← gets e_items; l ← of_option (zupdate q.(q_tails) id p); upd_items (set_q_tails l).

(** [engine->items.sizes[id] += d] *)
Definition add_size (id d : Z) : E unit :=
  q ← gets e_items;
  n ← of_option (zlookup q.(q_sizes) id);
  l ← of_option (zupdate q.(q_sizes) id (u32 (n + d)));
  upd_items (set_q_sizes l).

Definition upd_itemstats (id : Z) (f : itemstats_t -> itemstats_t) : E unit :=
  q ← gets e_items;
  s ← of_option (zlookup q.(q_itemstats) id);
  l ← of_option (zupdate q.(q_itemstats) id (f s));
  upd_items (set_q_itemstats l).

(** ** Queues *)

Definition item_link_q (p : Z) : E unit :=
  it ← load p;
  let id := it.(it_slabs_clsid) in
  cassert (id <? POWER_LARGEST);;
  cassert (negb (has_flag it ITEM_SLABBED));;
  head ← get_head id;
  tail ← get_tail id;
  cassert (negb (p =? head));;
  cassert ((negb (head =? NULL) && negb (tail =? NULL)) || ((head =? NULL) && (tail =? NULL)));;
  store p (fun x => set_it_next head (set_it_prev NULL x));;
  when (negb (head =? NULL)) (store head (set_it_prev p));;
  put_head id p;;
  when (tail =? NULL) (put_tail id p);;
  add_size id 1.

Definition item_unlink_q (p : Z) : E unit :=
  it ← load p;
  let id := it.(it_slabs_clsid) in
  cassert (id <? POWER_LARGEST);;
  head ← get_head id;
  when (head =? p) (cassert (it.(it_prev) =? NULL);; put_head id it.(it_next));;
  tail ← get_tail id;
  when (tail =? p) (cassert (it.(it_next) =? NULL);; put_tail id it.(it_prev));;
  cassert (negb (it.(it_next) =? p));;
  cassert (negb (it.(it_prev) =? p));;
  when (negb (it.(it_next) =? NULL)) (store it.(it_next) (set_it_prev it.(it_prev)));;
  when (negb (it.(it_prev) =? NULL)) (store it.(it_prev) (set_it_next it.(it_next)));;
  add_size id (-1).

(** The searches from the tail of a queue: the first of at most [tries] items that
    passes the test, [NULL] when there is none. *)
Fixpoint search_lru (tries : nat) (h : gmap Z hash_item) (search : Z)
    (test : hash_item -> bool) : option Z :=
  match tries with
  | O => Some NULL
  | S n =>
      if search =? NULL then Some NULL else
      it ← h !! search;
      if test it then Some search else search_lru n h it.(it_prev) test
  end.

Definition search_tail (id : Z) (test : hash_item -> bool) : E Z :=
  tail ← get_tail id;
  h ← gets e_heap;
  of_option (search_lru search_items h tail test).

Section model.
Context `{Env}.

(** ** Freeing, linking and unlinking *)

Definition item_free (p : Z) : E unit :=
  it ← load p;
  cfg ← gets e_config;
  let ntotal := ITEM_ntotal cfg.(c_use_cas) it in
  cassert (negb (has_flag it ITEM_LINKED));;
  head ← get_head it.(it_slabs_clsid);
  cassert (negb (p =? head));;
  tail ← get_tail it.(it_slabs_clsid);
  cassert (negb (p =? tail));;
  cassert (it.(it_refcount) =? 0);;
  let clsid := it.(it_slabs_clsid) in
  store p (fun x => set_it_iflag (Z.lor x.(it_iflag) ITEM_SLABBED) (set_it_slabs_clsid 0 x));;
  slabs_free p ntotal clsid.

Definition do_item_link (p : Z) : E Z :=
  it ← load p;
  cassert (Z.land it.(it_iflag) (Z.lor ITEM_LINKED ITEM_SLABBED) =? 0);;
  cassert (it.(it_nbytes) <? 1024 * 1024);;
  now ← get_current_time;
  store p (fun x => set_it_time now (set_it_iflag (Z.lor x.(it_iflag) ITEM_LINKED) x));;
  assoc_insert (hash (item_get_key it)) p;;
  cfg ← gets e_config;
  upd_stats (fun s => set_st_curr_bytes
      (u64 (s.(st_curr_bytes) + ITEM_ntotal cfg.(c_use_cas) it))
      (set_st_curr_items (u64 (s.(st_curr_items) + 1))
        (set_st_total_items (u64 (s.(st_total_items) + 1)) s)));;
  cas ← get_cas_id;
  item_set_cas p cas;;
  item_link_q p;;
  mret 1.

Definition do_item_unlink (p : Z) : E unit :=
  it ← load p;
  when (has_flag it ITEM_LINKED)
    (store p (fun x => set_it_iflag (Z.ldiff x.(it_iflag) ITEM_LINKED) x);;
     cfg ← gets e_config;
     upd_stats (fun s => set_st_curr_bytes
        (u64 (s.(st_curr_bytes) - ITEM_ntotal cfg.(c_use_cas) it))
        (set_st_curr_items (u64 (s.(st_curr_items) - 1)) s));;
     assoc_delete (hash (item_get_key it)) (item_get_key it);;
     item_unlink_q p;;
     it' ← load p;
     when (it'.(it_refcount) =? 0) (item_free p)).

Definition do_item_release (p : Z) : E unit :=
  it ← load p;
  when (negb (it.(it_refcount) =? 0)) (store p (set_it_refcount (u16 (it.(it_refcount) - 1))));;
  it' ← load p;
  when ((it'.(it_refcount) =? 0) && negb (has_flag it' ITEM_LINKED)) (item_free p).

Definition do_item_update (p : Z) : E unit :=
  now ← get_current_time;
  it ← load p;
  when (it.(it_time) <? u32 (now - ITEM_UPDATE_INTERVAL))
    (cassert (negb (has_flag it ITEM_SLABBED));;
     when (has_flag it ITEM_LINKED)
       (item_unlink_q p;; store p (set_it_time now);; item_link_q p)).

Definition do_item_replace (p new_p : Z) : E Z :=
  it ← load p;
  cassert (negb (has_flag it ITEM_SLABBED));;
  do_item_unlink p;;
  do_item_link new_p.

(** ** Allocation *)

(** The item that the first loop of [do_item_alloc] takes over, [NULL] when it
    finds none. *)
Definition alloc_reclaim (id ntotal : Z) : E Z :=
  cfg ← gets e_config;
  let oldest_live := cfg.(c_oldest_live) in
  now ← get_current_time;
  p ← search_tail id (fun s => (s.(it_refcount) =? 0) &&
        ((s.(it_time) <? oldest_live) ||
         (negb (s.(it_exptime) =? 0) && (s.(it_exptime) <? now))));
  when (negb (p =? NULL))
    (upd_stats (fun s => set_st_reclaimed (u64 (s.(st_reclaimed) + 1)) s);;
     upd_itemstats id (fun s => set_is_reclaimed (u32 (s.(is_reclaimed) + 1)) s);;
     store p (set_it_refcount 1);;
     it ← load p;
     slabs_adjust_mem_requested it.(it_slabs_clsid) (ITEM_ntotal cfg.(c_use_cas) it) ntotal;;
     do_item_unlink p;;
     store p (fun x => set_it_refcount 0 (set_it_slabs_clsid 0 x)));;
  mret p.

(** The loop that evicts the first unreferenced item of the tail. *)
Definition alloc_evict (id : Z) : E unit :=
  now ← get_current_time;
  p ← search_tail id (fun s => s.(it_refcount) =? 0);
  when (negb (p =? NULL))
    (it ← load p;
     (if (it.(it_exptime) =? 0) || (now <? it.(it_exptime)) then
        upd_itemstats id (fun s =>
          set_is_evicted_time (u32 (now - it.(it_time)))
            (set_is_evicted (u32 (s.(is_evicted) + 1)) s));;
        when (negb (it.(it_exptime) =? 0))
          (upd_itemstats id (fun s => set_is_evicted_nonzero (u32 (s.(is_evicted_nonzero) + 1)) s));;
        upd_stats (fun s => set_st_evictions (u64 (s.(st_evictions) + 1)) s)
      else
        upd_itemstats id (fun s => set_is_reclaimed (u32 (s.(is_reclaimed) + 1)) s);;
        upd_stats (fun s => set_st_reclaimed (u64 (s.(st_reclaimed) + 1)) s));;
     do_item_unlink p).

(** The loop that frees an item that stayed referenced for three hours. *)
Definition alloc_tail_repair (id : Z) : E unit :=
  now ← get_current_time;
  p ← search_tail id (fun s => negb (s.(it_refcount) =? 0) &&
        (u32 (s.(it_time) + TAIL_REPAIR_TIME) <? now));
  when (negb (p =? NULL))
    (upd_itemstats id (fun s => set_is_tailrepairs (u32 (s.(is_tailrepairs) + 1)) s);;
     store p (set_it_refcount 0);;
     do_item_unlink p).

(** Where the chunk comes from: a dead item of the tail, the allocator, or the
    allocator after an eviction or a repair. *)
Definition alloc_chunk (id ntotal : Z) : E Z :=
  it ← alloc_reclaim id ntotal;
  if negb (it =? NULL) then mret it else
  it ← slabs_alloc ntotal id;
  if negb (it =? NULL) then mret it else
  cfg ← gets e_config;
  let outofmemory := upd_itemstats id (fun s => set_is_outofmemory (u32 (s.(is_outofmemory) + 1)) s) in
  if negb cfg.(c_evict_to_free) then outofmemory;; mret NULL else
  tail ← get_tail id;
  if tail =? NULL then outofmemory;; mret NULL else
  alloc_evict id;;
  it ← slabs_alloc ntotal id;
  if negb (it =? NULL) then mret it else
  outofmemory;;
  alloc_tail_repair id;;
  slabs_alloc ntotal id.

(** [key] holds the [nkey] bytes of the key. *)
Definition do_item_alloc (key : list Z) (flags exptime nbytes datatype : Z) : E Z :=
  cfg ← gets e_config;
  let nkey := Z.of_nat (length key) in
  let ntotal := u64 (sizeof_hash_item + nkey + nbytes + (if cfg.(c_use_cas) then 8 else 0)) in
  id ← slabs_clsid ntotal;
  if id =? 0 then mret NULL else
  it ← alloc_chunk id ntotal;
  if it =? NULL then mret NULL else
  x ← load it;
  cassert (x.(it_slabs_clsid) =? 0);;
  store it (set_it_slabs_clsid (u8 id));;
  head ← get_head (u8 id);
  cassert (negb (it =? head));;
  store it (fun x =>
    set_it_datatype datatype (set_it_flags (u32 flags) (set_it_nbytes (u32 nbytes)
      (set_it_nkey (u16 nkey) (set_it_iflag (if cfg.(c_use_cas) then ITEM_WITH_CAS else 0)
        (set_it_refcount 1 (set_it_h_next NULL (set_it_prev NULL (set_it_next NULL x)))))))));;
  write_key it key;;
  store it (set_it_exptime exptime);;
  mret it.

(** ** Lookup *)

(** The two tests of [do_item_get]: dead by a flush, and expired. *)
Definition flushed (oldest_live now : Z) (it : hash_item) : bool :=
  negb (oldest_live =? 0) && (oldest_live <=? now) && (it.(it_time) <=? oldest_live).

Definition expired (now : Z) (it : hash_item) : bool :=
  negb (it.(it_exptime) =? 0) && (it.(it_exptime) <=? now).

Definition do_item_get (key : list Z) : E Z :=
  now ← get_current_time;
  it ← assoc_find (hash key) key;
  cfg ← gets e_config;
  it ← (if it =? NULL then mret NULL else
        x ← load it;
        if flushed cfg.(c_oldest_live) now x then do_item_unlink it;; mret NULL
        else mret it);
  it ← (if it =? NULL then mret NULL else
        x ← load it;
        if expired now x then do_item_unlink it;; mret NULL else mret it);
  when (negb (it =? NULL))
    (store it (fun x => set_it_refcount (u16 (x.(it_refcount) + 1)) x);; do_item_update it);;
  mret it.

(** ** Stores *)

Definition is_concat (op : ENGINE_STORE_OPERATION) : bool :=
  match op with OPERATION_APPEND | OPERATION_PREPEND => true | _ => false end.

(** The new item of an append or a prepend: the two values one after the other. *)
Definition store_concat (op : ENGINE_STORE_OPERATION) (it old_it new_it : Z) : E unit :=
  x ← load it;
  o ← load old_it;
  let data := item_get_data x x.(it_nbytes) in
  let old_data := item_get_data o o.(it_nbytes) in
  match op with
  | OPERATION_APPEND =>
      write_data new_it 0 old_data;; write_data new_it o.(it_nbytes) data
  | _ => write_data new_it 0 data;; write_data new_it x.(it_nbytes) old_data
  end.

(** What [do_store_item] does after the branches: it releases its references, and
    [*cas] gets the CAS of the stored item. *)
Definition store_finish (stored : ENGINE_ERROR_CODE) (it old_it new_it cas : Z)
    : E (ENGINE_ERROR_CODE * Z) :=
  when (negb (old_it =? NULL)) (do_item_release old_it);;
  when (negb (new_it =? NULL)) (do_item_release new_it);;
  match stored with
  | ENGINE_SUCCESS => x ← load it; mret (stored, item_get_cas x)
  | _ => mret (stored, cas)
  end.

(** [do_item_replace] or [do_item_link], whichever the old item calls for. *)
Definition store_link (it old_it : Z) : E unit :=
  (if negb (old_it =? NULL) then do_item_replace old_it it else do_item_link it);; mret tt.

(** Returns the code and [*cas], which starts as [cas]. *)
Definition do_store_item (it : Z) (op : ENGINE_STORE_OPERATION) (cas : Z)
    : E (ENGINE_ERROR_CODE * Z) :=
  x ← load it;
  let key := item_get_key x in
  old_it ← do_item_get key;
  if negb (old_it =? NULL) && bool_decide (op = OPERATION_ADD) then
    do_item_update old_it;; store_finish ENGINE_NOT_STORED it old_it NULL cas
  else if (old_it =? NULL) && (bool_decide (op = OPERATION_REPLACE) || is_concat op) then
    store_finish ENGINE_NOT_STORED it old_it NULL cas
  else if bool_decide (op = OPERATION_CAS) then
    if old_it =? NULL then store_finish ENGINE_KEY_ENOENT it old_it NULL cas
    else
      o ← load old_it;
      if item_get_cas x =? item_get_cas o then
        do_item_replace old_it it;; store_finish ENGINE_SUCCESS it old_it NULL cas
      else store_finish ENGINE_KEY_EEXISTS it old_it NULL cas
  else if is_concat op then
    o ← load old_it;
    if negb (item_get_cas x =? 0) && negb (item_get_cas x =? item_get_cas o) then
      store_finish ENGINE_KEY_EEXISTS it old_it NULL cas
    else
      cfg ← gets e_config;
      let total := u32 (x.(it_nbytes) + o.(it_nbytes)) in
      if cfg.(c_item_size_max) <? total then mret (ENGINE_E2BIG, cas) else
      new_it ← do_item_alloc key o.(it_flags) o.(it_exptime) (swrap 32 total) x.(it_datatype);
      if new_it =? NULL then do_item_release old_it;; mret (ENGINE_NOT_STORED, cas) else
      store_concat op it old_it new_it;;
      store_link new_it old_it;;
      y ← load new_it;
      store_finish ENGINE_SUCCESS new_it old_it new_it (item_get_cas y)
  else
    store_link it old_it;;
    y ← load it;
    store_finish ENGINE_SUCCESS it old_it NULL (item_get_cas y).

(** ** Arithmetic *)

Definition add_delta_value (incr : bool) (value delta : Z) : Z :=
  if incr then u64 (value + delta)
  else if value <? delta then 0 else value - delta.

(** The bytes before the first zero: what a string function sees of a buffer. *)
Fixpoint c_string (l : list Z) : list Z :=
  match l with
  | c :: l' => if c =? 0 then [] else c :: c_string l'
  | [] => []
  end.

(** Returns the code with [*rcas] and [*result]. *)
Definition do_add_delta (it : Z) (incr : bool) (delta rcas result : Z)
    : E (ENGINE_ERROR_CODE * Z * Z) :=
  x ← load it;
  if 79 <=? x.(it_nbytes) then mret (ENGINE_EINVAL, rcas, result) else
  match safe_strtoull (c_string (item_get_data x x.(it_nbytes))) with
  | (false, _) => mret (ENGINE_EINVAL, rcas, result)
  | (true, value) =>
      let value' := add_delta_value incr value delta in
      let buf := print_u64 value' in
      let res := Z.of_nat (length buf) in
      if (x.(it_refcount) =? 1) && (res <=? x.(it_nbytes)) then
        write_data it 0 buf;;
        write_data it res (replicate (Z.to_nat (x.(it_nbytes) - res)) 32);;
        cas ← get_cas_id;
        item_set_cas it cas;;
        y ← load it;
        mret (ENGINE_SUCCESS, item_get_cas y, value')
      else
        new_it ← do_item_alloc (item_get_key x) x.(it_flags) x.(it_exptime) res x.(it_datatype);
        if new_it =? NULL then
          do_item_unlink it;; mret (ENGINE_ENOMEM, rcas, value')
        else
          write_data new_it 0 buf;;
          do_item_replace it new_it;;
          y ← load new_it;
          do_item_release new_it;;
          mret (ENGINE_SUCCESS, item_get_cas y, value')
  end.

Definition do_arithmetic (key : list Z) (increment create : bool)
    (delta initial exptime cas datatype result : Z) : E (ENGINE_ERROR_CODE * Z * Z) :=
  item ← do_item_get key;
  if item =? NULL then
    if negb create then mret (ENGINE_KEY_ENOENT, cas, result) else
    let buffer := print_u64 initial in
    item ← do_item_alloc key 0 exptime (Z.of_nat (length buffer)) datatype;
    if item =? NULL then mret (ENGINE_ENOMEM, cas, result) else
    write_data item 0 buffer;;
    r ← do_store_item item OPERATION_ADD cas;
    x ← load item;
    let r' := match r.1 with
              | ENGINE_SUCCESS => (r.1, item_get_cas x, initial)
              | _ => (r.1, r.2, result)
              end in
    do_item_release item;;
    mret r'
  else
    r ← do_add_delta item increment delta cas result;
    do_item_release item;;
    mret r.

Definition do_touch_item (key : list Z) (exptime : Z) : E Z :=
  item ← do_item_get key;
  when (negb (item =? NULL)) (store item (set_it_exptime exptime));;
  mret item.

(** ** Flush *)

(** The loop of [item_flush_expired] down one queue. An item that it unlinks
    leaves the queue, so that the length of the queue bounds the fuel. *)
Fixpoint flush_queue (fuel : nat) (oldest_live iter : Z) : E unit :=
  match fuel with
  | O => crash
  | S n =>
      if iter =? NULL then mret tt else
      it ← load iter;
      if oldest_live <=? it.(it_time) then
        when (negb (has_flag it ITEM_SLABBED)) (do_item_unlink iter);;
        flush_queue n oldest_live it.(it_next)
      else mret tt
  end.

Fixpoint flush_queues (n : nat) (i oldest_live : Z) : E unit :=
  match n with
  | O => mret tt
  | S n' =>
      head ← get_head i;
      h ← gets e_heap;
      flush_queue (S (size h)) oldest_live head;;
      flush_queues n' (i + 1) oldest_live
  end.

Definition item_flush_expired (wh : Z) : E unit :=
  now ← get_current_time;
  let oldest_live := u32 ((if wh =? 0 then now else realtime now wh) - 1) in
  modify (fun e => set_e_config (set_c_oldest_live oldest_live e.(e_config)) e);;
  when (negb (oldest_live =? 0))
    (flush_queues (Z.to_nat POWER_LARGEST) 0 oldest_live).

(** ** Statistics *)

(** The loop of [do_item_stats] that drops the dead items of a tail. *)
Fixpoint stats_trim (search : nat) (i : Z) : E unit :=
  match search with
  | O => mret tt
  | S n =>
      cfg ← gets e_config;
      now ← get_current_time;
      tail ← get_tail i;
      if tail =? NULL then mret tt else
      it ← load tail;
      if flushed cfg.(c_oldest_live) now it
         || (negb (it.(it_exptime) =? 0) && (it.(it_exptime) <? now)) then
        if it.(it_refcount) =? 0 then do_item_unlink tail;; stats_trim n i else mret tt
      else mret tt
  end.

Definition queue_stats (i sz age : Z) (st : itemstats_t) : list stat :=
  let prefix := Some "items" in
  [add_statistics prefix i "number" sz;
   add_statistics prefix i "age" age;
   add_statistics prefix i "evicted" st.(is_evicted);
   add_statistics prefix i "evicted_nonzero" st.(is_evicted_nonzero);
   add_statistics prefix i "evicted_time" st.(is_evicted_time);
   add_statistics prefix i "outofmemory" st.(is_outofmemory);
   add_statistics prefix i "tailrepairs" st.(is_tailrepairs);
   add_statistics prefix i "reclaimed" st.(is_reclaimed)].

Fixpoint item_stats_loop (n : nat) (i : Z) : E (list stat) :=
  match n with
  | O => mret []
  | S n' =>
      tail ← get_tail i;
      r ← (if tail =? NULL then mret [] else
           stats_trim search_items i;;
           tail' ← get_tail i;
           if tail' =? NULL then mret [] else
           it ← load tail';
           q ← gets e_items;
           sz ← of_option (zlookup q.(q_sizes) i);
           st ← of_option (zlookup q.(q_itemstats) i);
           mret (queue_stats i sz it.(it_time) st));
      rest ← item_stats_loop n' (i + 1);
      mret (r ++ rest)
  end.

Definition do_item_stats : E (list stat) :=
  item_stats_loop (Z.to_nat POWER_LARGEST) 0.

Definition num_buckets : Z := 32768.

Definition size_bucket (ntotal : Z) : Z :=
  ntotal / 32 + (if negb (ntotal mod 32 =? 0) then 1 else 0).

(** The histogram, as a map from the buckets that are not empty. *)
Fixpoint sizes_queue (fuel : nat) (use_cas : bool) (h : gmap Z hash_item) (iter : Z)
    (histogram : gmap Z Z) : option (gmap Z Z) :=
  match fuel with
  | O => None
  | S n =>
      if iter =? NULL then Some histogram else
      it ← h !! iter;
      let bucket := size_bucket (ITEM_ntotal use_cas it) in
      sizes_queue n use_cas h it.(it_next)
        (if bucket <? num_buckets
         then <[bucket := u32 (default 0 (histogram !! bucket) + 1)]> histogram
         else histogram)
  end.

Fixpoint sizes_queues (n : nat) (i : Z) (histogram : gmap Z Z) : E (gmap Z Z) :=
  match n with
  | O => mret histogram
  | S n' =>
      head ← get_head i;
      h ← gets e_heap;
      cfg ← gets e_config;
      hist ← of_option (sizes_queue (S (size h)) cfg.(c_use_cas) h head histogram);
      sizes_queues n' (i + 1) hist
  end.

(** The pairs passed to [add_stats]: the size, in increasing order, and the count. *)
Definition do_item_stats_sizes : E (list stat) :=
  ok ← do_calloc (num_buckets * 4);
  if negb ok then mret [] else
  hist ← sizes_queues (Z.to_nat POWER_LARGEST) 0 ∅;
  mret (omap (fun i => v ← hist !! Z.of_nat i;
                       if (v : Z) =? 0 then None
                       else Some (print_u64 (Z.of_nat i * 32), print_u64 v))
          (seq 0 (Z.to_nat num_buckets))).

(** ** Cursors *)

Definition do_item_link_cursor (cursor ii : Z) : E unit :=
  tail ← get_tail ii;
  store cursor (fun x => set_it_prev tail (set_it_next NULL (set_it_slabs_clsid (u8 ii) x)));;
  store tail (set_it_next cursor);;
  put_tail ii cursor;;
  add_size ii 1.

(** [itemfunc] with its [itemdata], which is threaded through the walk; the result
    is the value returned, [*error] and the data. The cursor moves up by one item
    in each round, so that the number of items bounds the fuel. *)
Fixpoint walk_cursor {C} (fuel : nat) (cursor ii steplength : Z)
    (itemfunc : Z -> C -> E (ENGINE_ERROR_CODE * C)) (err : ENGINE_ERROR_CODE) (d : C)
    : E (bool * ENGINE_ERROR_CODE * C) :=
  match fuel with
  | O => crash
  | S n =>
      c ← load cursor;
      let ptr := c.(it_prev) in
      if negb (ptr =? NULL) && (ii <? steplength) then
        item_unlink_q cursor;;
        head ← get_head c.(it_slabs_clsid);
        let done := ptr =? head in
        (if done then store cursor (set_it_prev NULL)
         else
           x ← load ptr;
           store cursor (fun y => set_it_prev x.(it_prev) (set_it_next ptr y));;
           store x.(it_prev) (set_it_next cursor);;
           store ptr (set_it_prev cursor));;
        x ← load ptr;
        if (x.(it_nkey) =? 0) && (x.(it_nbytes) =? 0) then
          if done then mret (false, err, d)
          else walk_cursor n cursor ii steplength itemfunc err d
        else
          r ← itemfunc ptr d;
          match r.1 with
          | ENGINE_SUCCESS =>
              if done then mret (false, r.1, r.2)
              else walk_cursor n cursor (ii + 1) steplength itemfunc r.1 r.2
          | _ => mret (false, r.1, r.2)
          end
      else
        mret (negb (ptr =? NULL), err, d)
  end.

Definition do_item_walk_cursor {C} (cursor steplength : Z)
    (itemfunc : Z -> C -> E (ENGINE_ERROR_CODE * C)) (d : C) : E (bool * ENGINE_ERROR_CODE * C) :=
  h ← gets e_heap;
  walk_cursor (S (S (size h))) cursor 0 steplength itemfunc ENGINE_SUCCESS d.

Definition item_scrub (p : Z) (d : unit) : E (ENGINE_ERROR_CODE * unit) :=
  now ← get_current_time;
  modify (fun e => set_e_scrubber (set_sc_visited (u64 (e.(e_scrubber).(sc_visited) + 1))
                                     e.(e_scrubber)) e);;
  it ← load p;
  when ((it.(it_refcount) =? 0) && negb (it.(it_exptime) =? 0) && (it.(it_exptime) <? now))
    (do_item_unlink p;;
     modify (fun e => set_e_scrubber (set_sc_cleaned (u64 (e.(e_scrubber).(sc_cleaned) + 1))
                                        e.(e_scrubber)) e));;
  mret (ENGINE_SUCCESS, d).

(** One round of [item_scrub_class], under the cache lock; the result is whether
    the loop goes on. *)
Definition scrub_round (cursor : Z) : E bool :=
  r ← do_item_walk_cursor cursor 200 item_scrub tt;
  match r.1.2 with ENGINE_SUCCESS => mret r.1.1 | _ => mret false end.

Fixpoint item_scrub_class (fuel : nat) (cursor : Z) : E unit :=
  match fuel with
  | O => crash
  | S n => more ← scrub_round cursor; if (more : bool) then item_scrub_class n cursor else mret tt
  end.

Fixpoint scrub_classes (n : nat) (ii cursor : Z) : E unit :=
  match n with
  | O => mret tt
  | S n' =>
      head ← get_head ii;
      when (negb (head =? NULL))
        (do_item_link_cursor cursor ii;;
         h ← gets e_heap;
         item_scrub_class (S (size h)) cursor);;
      scrub_classes n' (ii + 1) cursor
  end.

(** The scrubber thread; [cursor] is the address of its cursor and [clock] what
    [time(NULL)] returns at the end. *)
Definition item_scubber_main (cursor clock : Z) : E unit :=
  modify (upd_heap (insert cursor (set_it_refcount 1 (zero_item 0))));;
  scrub_classes (Z.to_nat POWER_LARGEST) 0 cursor;;
  modify (fun e => set_e_scrubber (set_sc_running false (set_sc_stopped clock e.(e_scrubber))) e).

Definition item_start_scrub (clock : Z) : E bool :=
  sc ← gets e_scrubber;
  if sc.(sc_running) then mret false else
  modify (set_e_scrubber (mk_scrubber true 0 0 clock 0));;
  r ← do_create_thread;
  if negb (r =? 0) then
    modify (fun e => set_e_scrubber (set_sc_running false e.(e_scrubber)) e);; mret false
  else mret true.

(** [struct tap_client] and [struct dcp_connection]: the cursor of a stream and the
    item it holds. *)
Record stream := mk_stream { sm_cursor : Z; sm_it : Z }.

Definition item_tap_iterfunc (p : Z) (c : stream) : E (ENGINE_ERROR_CODE * stream) :=
  store p (fun x => set_it_refcount (u16 (x.(it_refcount) + 1)) x);;
  mret (ENGINE_SUCCESS, mk_stream c.(sm_cursor) p).

Definition item_dcp_iterfunc := item_tap_iterfunc.

(** Links the cursor at the tail of the first queue from [ii] that is not empty. *)
Fixpoint link_next_queue (n : nat) (ii cursor : Z) : E bool :=
  match n with
  | O => mret false
  | S n' =>
      if ii <? POWER_LARGEST then
        head ← get_head ii;
        if negb (head =? NULL) then do_item_link_cursor cursor ii;; mret true
        else link_next_queue n' (ii + 1) cursor
      else mret false
  end.

(** The loop of [do_item_tap_walker] and of [do_item_dcp_step]: moves the cursor
    until it holds an item or all the queues are done. Each round but the last of a
    queue moves over an item, and each queue ends once. *)
Fixpoint walk_stream (fuel : nat) (c : stream) : E stream :=
  match fuel with
  | O => crash
  | S n =>
      r ← do_item_walk_cursor c.(sm_cursor) 1 item_tap_iterfunc c;
      let c' := r.2 in
      more ← (if (r.1.1 : bool) then mret true
              else
                x ← load c'.(sm_cursor);
                link_next_queue (Z.to_nat POWER_LARGEST) (x.(it_slabs_clsid) + 1) c'.(sm_cursor));
      if negb more then mret c'
      else if negb (c'.(sm_it) =? NULL) then mret c'
      else walk_stream n c'
  end.

(** [tap_event_t] ([engine.h]). *)
Inductive tap_event :=
| TAP_MUTATION | TAP_DELETION | TAP_FLUSH | TAP_OPAQUE | TAP_VBUCKET_SET | TAP_ACK
| TAP_DISCONNECT | TAP_NOOP | TAP_PAUSE | TAP_CHECKPOINT_START | TAP_CHECKPOINT_END.

Definition stream_fuel (h : gmap Z hash_item) : nat := Z.to_nat POWER_LARGEST + S (size h).

(** [client] is what [get_engine_specific] returns for the cookie; the other
    results are constants. *)
Definition do_item_tap_walker (client : option stream) : E (tap_event * Z * option stream) :=
  match client with
  | None => mret (TAP_DISCONNECT, NULL, None)
  | Some c =>
      h ← gets e_heap;
      c' ← walk_stream (stream_fuel h) (mk_stream c.(sm_cursor) NULL);
      mret (if c'.(sm_it) =? NULL then TAP_DISCONNECT else TAP_MUTATION, c'.(sm_it), Some c')
  end.

(** [cursor] is the address of the cursor in the client that [calloc] returns. *)
Definition initialize_item_tap_walker (cursor : Z) : E (option stream) :=
  ok ← do_calloc 56;
  if negb ok then mret None else
  modify (upd_heap (insert cursor (set_it_refcount 1 (zero_item 0))));;
  link_next_queue (Z.to_nat POWER_LARGEST) 0 cursor;;
  mret (Some (mk_stream cursor NULL)).

Definition link_dcp_walker (cursor : Z) : E unit :=
  store cursor (set_it_refcount 1);;
  link_next_queue (Z.to_nat POWER_LARGEST) 0 cursor;;
  mret tt.

(** [producers->expiration] and [producers->mutation] send a message for the
    item. *)
Record dcp_message_producers := mk_producers {
  dp_expiration : hash_item -> ENGINE_ERROR_CODE;
  dp_mutation : hash_item -> ENGINE_ERROR_CODE
}.

Definition do_item_dcp_step (c : stream) (producers : dcp_message_producers)
    : E (ENGINE_ERROR_CODE * stream) :=
  h ← gets e_heap;
  c' ← (if negb (c.(sm_it) =? NULL) then mret c else walk_stream (stream_fuel h) c);
  let p := c'.(sm_it) in
  if p =? NULL then mret (ENGINE_DISCONNECT, c') else
  now ← get_current_time;
  it ← load p;
  if negb (it.(it_exptime) =? 0) && (it.(it_exptime) <? now) then
    match producers.(dp_expiration) it with
    | ENGINE_SUCCESS =>
        do_item_unlink p;; do_item_release p;; mret (ENGINE_SUCCESS, mk_stream c'.(sm_cursor) NULL)
    | ret => mret (ret, c')
    end
  else
    match producers.(dp_mutation) it with
    | ENGINE_SUCCESS => mret (ENGINE_SUCCESS, mk_stream c'.(sm_cursor) NULL)
    | ret => mret (ret, c')
    end.

(** ** The interface *)

Definition item_alloc := do_item_alloc.
Definition item_get := do_item_get.
Definition item_release := do_item_release.
Definition item_unlink := do_item_unlink.
Definition arithmetic := do_arithmetic.
Definition store_item := do_store_item.
Definition touch_item := do_touch_item.
Definition item_stats := do_item_stats.
Definition item_stats_sizes := do_item_stats_sizes.
Definition item_tap_walker := do_item_tap_walker.
Definition item_dcp_step := do_item_dcp_step.
End model.
