(* ===== verification/Lru.v ===== *)
(** * The LRU queues of the default engine ([items.c])

    Each slab class has a doubly linked queue through [next] and [prev] with a head
    and a tail; the proof that [item_link_q] pushes at the head, [item_unlink_q]
    removes an item wherever it is and the search from the tail visits the queue
    backwards, without a failed assertion. *)
From Stdlib Require Import ZArith Lia SpecFloat.
From stdpp Require Import strings gmap prelude.
From S2P Require Import Prelude EngineState Assoc Slabs Items.

#[local] Set Warnings "-clear-no-such-hyp".

(** ** Doubly linked segments *)

Definition lview (it : hash_item) : Z * Z := (it.(it_prev), it.(it_next)).
Definition lviews (h : gmap Z hash_item) : gmap Z (Z * Z) := lview <$> h.

Definition hdd (nx : Z) (l : list Z) : Z := match l with [] => nx | x :: _ => x end.
Definition lastd (pr : Z) (l : list Z) : Z := default pr (last l).

(** [l] is a segment: the first item has [pr] before it, the last [nx] after it. *)
Fixpoint dseg (lv : gmap Z (Z * Z)) (pr : Z) (l : list Z) (nx : Z) : Prop :=
  match l with
  | [] => True
  | x :: xs => lv !! x = Some (pr, hdd nx xs) /\ dseg lv x xs nx
  end.

Lemma lastd_cons pr x l : lastd pr (x :: l) = lastd x l.
Proof. unfold lastd. destruct l; [done|]. rewrite last_cons_cons. by destruct (last_is_Some (z :: l)) as [_ [y ->]]. Qed.

Lemma lastd_snoc pr l x : lastd pr (l ++ [x]) = x.
Proof. unfold lastd. by rewrite last_snoc. Qed.

Lemma dseg_app lv l1 : forall pr l2 nx,
  dseg lv pr (l1 ++ l2) nx <-> dseg lv pr l1 (hdd nx l2) /\ dseg lv (lastd pr l1) l2 nx.
Proof.
  induction l1 as [|x l1 IH]; intros pr l2 nx; simpl; [tauto|].
  rewrite IH, lastd_cons. replace (hdd nx (l1 ++ l2)) with (hdd (hdd nx l2) l1) by (by destruct l1).
  tauto.
Qed.

Lemma dseg_frame lv lv' l : forall pr nx,
  (forall x, x ∈ l -> lv' !! x = lv !! x) -> dseg lv pr l nx -> dseg lv' pr l nx.
Proof.
  induction l as [|x l IH]; intros pr nx Heq; simpl; [done|]. intros [Hx Hl].
  split; [rewrite Heq; set_solver|]. apply IH; [set_solver|done].
Qed.

Lemma dseg_insert lv x v pr l nx : x ∉ l -> dseg lv pr l nx -> dseg (<[x := v]> lv) pr l nx.
Proof.
  intros Hx. apply dseg_frame. intros y Hy. apply lookup_insert_ne. set_solver.
Qed.

Lemma dseg_lookup lv pr l1 x l2 nx :
  dseg lv pr (l1 ++ x :: l2) nx -> lv !! x = Some (lastd pr l1, hdd nx l2).
Proof. intros [_ [Hx _]]%dseg_app. exact Hx. Qed.

(** Changing what is before a segment, or after it. *)
Lemma dseg_set_prev lv pr pr' y l nx n :
  dseg lv pr (y :: l) nx -> y ∉ l -> lv !! y = Some (pr, n) ->
  dseg (<[y := (pr', n)]> lv) pr' (y :: l) nx.
Proof.
  intros [Hy Hl] Hn Hv. simpl. rewrite lookup_insert_eq. split; [congruence|].
  by apply dseg_insert.
Qed.

Lemma dseg_set_next lv pr l z nx nx' p :
  dseg lv pr (l ++ [z]) nx -> z ∉ l -> lv !! z = Some (p, nx) ->
  dseg (<[z := (p, nx')]> lv) pr (l ++ [z]) nx'.
Proof.
  intros [Hl [Hz _]]%dseg_app Hn Hv. apply dseg_app. simpl in *. split.
  - by apply dseg_insert.
  - rewrite lookup_insert_eq. split; [congruence|done].
Qed.

(** ** The queues *)

Record lru_rep (lv : gmap Z (Z * Z)) (q : items) (L : list (list Z)) : Prop := {
  lr_len : length L = Z.to_nat POWER_LARGEST;
  lr_heads : q.(q_heads) = hdd NULL <$> L;
  lr_tails : q.(q_tails) = lastd NULL <$> L;
  lr_sizes : q.(q_sizes) = (fun l => u32 (Z.of_nat (length l))) <$> L;
  lr_stats : length q.(q_itemstats) = Z.to_nat POWER_LARGEST;
  lr_seg : forall i l, L !! i = Some l -> dseg lv NULL l NULL;
  lr_nodup : forall i l, L !! i = Some l -> NoDup l;
  lr_null : forall i l, L !! i = Some l -> NULL ∉ l;
  lr_disj : forall i j l l' x, L !! i = Some l -> L !! j = Some l' -> x ∈ l -> x ∈ l' -> i = j
}.

(** What the operations on the queues leave alone: everything of the items but
    [next] and [prev], and the counters. *)
Definition erase_lru (it : hash_item) : hash_item := set_it_next NULL (set_it_prev NULL it).

Definition lru_frame (e e' : engine) : Prop :=
  e' = set_e_items e'.(e_items) (set_e_heap e'.(e_heap) e) /\
  erase_lru <$> e'.(e_heap) = erase_lru <$> e.(e_heap) /\
  e'.(e_items).(q_itemstats) = e.(e_items).(q_itemstats).

Lemma lru_frame_refl e : lru_frame e e.
Proof. split; [by destruct e as [? ? ? ? [] ? ? ? ? ? ? ? ? ?]|done]. Qed.

Lemma lru_frame_trans e1 e2 e3 : lru_frame e1 e2 -> lru_frame e2 e3 -> lru_frame e1 e3.
Proof.
  intros (H1 & Hh1 & Hs1) (H2 & Hh2 & Hs2). split; [|split; congruence].
  rewrite H2, H1. done.
Qed.

Lemma lru_lookup_Z (L : list (list Z)) i :
  length L = Z.to_nat POWER_LARGEST -> 0 <= i < POWER_LARGEST ->
  exists l, L !! Z.to_nat i = Some l.
Proof. intros Hl Hi. apply lookup_lt_is_Some_2. unfold POWER_LARGEST in *. lia. Qed.

Lemma runs_get_head lv e L id l (Q : Z -> engine -> Prop) :
  lru_rep lv e.(e_items) L -> 0 <= id -> L !! Z.to_nat id = Some l ->
  Q (hdd NULL l) e -> runs (get_head id) e Q.
Proof.
  intros HL Hid Hl HQ. unfold get_head. run; [|exact HQ].
  apply zlookup_Some. split; [done|]. by rewrite (lr_heads _ _ _ HL), list_lookup_fmap, Hl.
Qed.

Lemma runs_get_tail lv e L id l (Q : Z -> engine -> Prop) :
  lru_rep lv e.(e_items) L -> 0 <= id -> L !! Z.to_nat id = Some l ->
  Q (lastd NULL l) e -> runs (get_tail id) e Q.
Proof.
  intros HL Hid Hl HQ. unfold get_tail. run; [|exact HQ].
  apply zlookup_Some. split; [done|]. by rewrite (lr_tails _ _ _ HL), list_lookup_fmap, Hl.
Qed.

(** The arrays after a queue has changed from [l] to [l']. *)
Definition set_queue (id : Z) (l l' : list Z) (q : items) : items :=
  mk_items (<[Z.to_nat id := hdd NULL l']> q.(q_heads))
           (<[Z.to_nat id := lastd NULL l']> q.(q_tails))
           q.(q_itemstats)
           (<[Z.to_nat id := u32 (Z.of_nat (length l'))]> q.(q_sizes)).

Lemma lru_rep_set lv lv' q L id l l' :
  lru_rep lv q L -> 0 <= id -> L !! Z.to_nat id = Some l ->
  (forall x i k, L !! i = Some k -> i <> Z.to_nat id -> x ∈ k -> (x ∉ l') /\ lv' !! x = lv !! x) ->
  dseg lv' NULL l' NULL -> NoDup l' -> NULL ∉ l' ->
  lru_rep lv' (set_queue id l l' q) (<[Z.to_nat id := l']> L).
Proof.
  intros HL Hid Hl Hoth Hseg Hnd Hnull.
  assert (Hlt : (Z.to_nat id < length L)%nat) by (by eapply lookup_lt_Some).
  constructor; simpl; rewrite ?length_insert; try apply HL.
  - by rewrite (lr_heads _ _ _ HL), list_fmap_insert.
  - by rewrite (lr_tails _ _ _ HL), list_fmap_insert.
  - by rewrite (lr_sizes _ _ _ HL), list_fmap_insert.
  - intros i k. rewrite list_lookup_insert_Some. intros [(<- & <- & _)|(Hi & Hk)]; [done|].
    eapply dseg_frame; [|by eapply (lr_seg _ _ _ HL)]. intros x Hx.
    eapply Hoth; [exact Hk|congruence|done].
  - intros i k. rewrite list_lookup_insert_Some.
    intros [(<- & <- & _)|(Hi & Hk)]; [done|by eapply (lr_nodup _ _ _ HL)].
  - intros i k. rewrite list_lookup_insert_Some.
    intros [(<- & <- & _)|(Hi & Hk)]; [done|by eapply (lr_null _ _ _ HL)].
  - intros i j k k' x. rewrite !list_lookup_insert_Some.
    intros [(<- & <- & _)|(Hi & Hk)] [(<- & <- & _)|(Hj & Hk')] Hx Hx'; [done|..].
    + by destruct (Hoth x j k' Hk' (fun H => Hj (eq_sym H)) Hx').
    + by destruct (Hoth x i k Hk (fun H => Hi (eq_sym H)) Hx).
    + by eapply (lr_disj _ _ _ HL i j k k' x).
Qed.

Lemma lviews_store h p it : lviews (<[p := it]> h) = <[p := lview it]> (lviews h).
Proof. unfold lviews. by rewrite fmap_insert. Qed.

Lemma lviews_lookup h x v :
  lviews h !! x = Some v -> exists it, h !! x = Some it /\ lview it = v.
Proof.
  unfold lviews. rewrite lookup_fmap. destruct (h !! x) as [it|]; [|discriminate].
  intros [= <-]. eauto.
Qed.

Lemma runs_put_head id p e (Q : unit -> engine -> Prop) :
  0 <= id < Z.of_nat (length e.(e_items).(q_heads)) ->
  Q tt (set_e_items (set_q_heads (<[Z.to_nat id := p]> e.(e_items).(q_heads)) e.(e_items)) e) ->
  runs (put_head id p) e Q.
Proof. intros Hid HQ. unfold put_head. run; [by apply zupdate_lt|exact HQ]. Qed.

Lemma runs_put_tail id p e (Q : unit -> engine -> Prop) :
  0 <= id < Z.of_nat (length e.(e_items).(q_tails)) ->
  Q tt (set_e_items (set_q_tails (<[Z.to_nat id := p]> e.(e_items).(q_tails)) e.(e_items)) e) ->
  runs (put_tail id p) e Q.
Proof. intros Hid HQ. unfold put_tail. run; [by apply zupdate_lt|exact HQ]. Qed.

Lemma runs_add_size id d n e (Q : unit -> engine -> Prop) :
  zlookup e.(e_items).(q_sizes) id = Some n ->
  Q tt (set_e_items (set_q_sizes (<[Z.to_nat id := u32 (n + d)]> e.(e_items).(q_sizes))
                       e.(e_items)) e) ->
  runs (add_size id d) e Q.
Proof.
  intros Hn HQ. unfold add_size. run; [exact Hn|apply zupdate_lt; by eapply zlookup_range|exact HQ].
Qed.

(** The lengths of the arrays. *)
Lemma lru_lengths lv q L :
  lru_rep lv q L -> Z.of_nat (length q.(q_heads)) = POWER_LARGEST /\
  Z.of_nat (length q.(q_tails)) = POWER_LARGEST /\ Z.of_nat (length q.(q_sizes)) = POWER_LARGEST.
Proof.
  intros HL. rewrite (lr_heads _ _ _ HL), (lr_tails _ _ _ HL), (lr_sizes _ _ _ HL).
  rewrite !length_fmap, (lr_len _ _ _ HL). unfold POWER_LARGEST. lia.
Qed.

Lemma lru_size lv q L id l :
  lru_rep lv q L -> 0 <= id -> L !! Z.to_nat id = Some l ->
  zlookup q.(q_sizes) id = Some (u32 (Z.of_nat (length l))).
Proof.
  intros HL Hid Hl. apply zlookup_Some. split; [done|].
  by rewrite (lr_sizes _ _ _ HL), list_lookup_fmap, Hl.
Qed.

Lemma lru_head lv q L id l :
  lru_rep lv q L -> L !! Z.to_nat id = Some l -> q.(q_heads) !! Z.to_nat id = Some (hdd NULL l).
Proof. intros HL Hl. by rewrite (lr_heads _ _ _ HL), list_lookup_fmap, Hl. Qed.

Lemma lru_tail lv q L id l :
  lru_rep lv q L -> L !! Z.to_nat id = Some l -> q.(q_tails) !! Z.to_nat id = Some (lastd NULL l).
Proof. intros HL Hl. by rewrite (lr_tails _ _ _ HL), list_lookup_fmap, Hl. Qed.

Lemma u32_add x y : u32 (u32 x + y) = u32 (x + y).
Proof. unfold u32, wrap. by rewrite Zplus_mod_idemp_l. Qed.

Lemma erase_lru_store (h : gmap Z hash_item) p it it' :
  h !! p = Some it -> erase_lru it' = erase_lru it -> erase_lru <$> <[p := it']> h = erase_lru <$> h.
Proof. apply fmap_insert_same. Qed.

(** *** Pushing at the head *)

(** The old head gets [p] before it. *)
Lemma push_head_heap e p it l :
  e.(e_heap) !! p = Some it -> dseg (lviews e.(e_heap)) NULL l NULL -> NoDup l ->
  NULL ∉ l -> p ∉ l ->
  let it1 := set_it_next (hdd NULL l) (set_it_prev NULL it) in
  exists h',
    runs (when (negb (hdd NULL l =? NULL)) (store (hdd NULL l) (set_it_prev p)))
      (upd_heap (insert p it1) e) (fun _ e' => e' = set_e_heap h' e) /\
    erase_lru <$> h' = erase_lru <$> e.(e_heap) /\
    dseg (lviews h') NULL (p :: l) NULL /\
    forall x, x ∉ p :: l -> lviews h' !! x = lviews e.(e_heap) !! x.
Proof.
  intros Hp Hseg Hnd Hn0 Hpl it1. destruct l as [|x xs].
  - exists (<[p := it1]> e.(e_heap)). split; [by apply runs_when; [|]|].
    split; [by eapply erase_lru_store|]. rewrite lviews_store. split.
    + simpl. by rewrite lookup_insert_eq.
    + intros y Hy. apply lookup_insert_ne. set_solver.
  - destruct Hseg as [Hx Hseg]. destruct (lviews_lookup _ _ _ Hx) as (xt & Hxt & Hxv).
    assert (Hxp : p <> x) by set_solver. assert (Hx0 : x <> NULL) by set_solver.
    apply NoDup_cons in Hnd as [Hxn Hnd].
    exists (<[x := set_it_prev p xt]> (<[p := it1]> e.(e_heap))). split; [|split; [|split]].
    + apply runs_when; intros Hb; boolify; [|done]. simpl.
      eapply runs_store; [simpl; rewrite lookup_insert_ne; [exact Hxt|done]|]. by destruct e.
    + transitivity (erase_lru <$> <[p := it1]> e.(e_heap)); [|by eapply erase_lru_store].
      eapply erase_lru_store; [by rewrite lookup_insert_ne|done].
    + rewrite !lviews_store. simpl. rewrite lookup_insert_ne, lookup_insert_eq by done.
      split; [done|]. rewrite lookup_insert_eq. split.
      * unfold lview. simpl. by injection Hxv as _ ->.
      * apply dseg_insert; [done|]. apply dseg_insert; [set_solver|done].
    + intros y Hy. rewrite !lviews_store, !lookup_insert_ne by set_solver. done.
Qed.

Lemma item_link_q_run e L p it l (Q : unit -> engine -> Prop) :
  lru_rep (lviews e.(e_heap)) e.(e_items) L -> e.(e_heap) !! p = Some it -> p <> NULL ->
  0 <= it.(it_slabs_clsid) < POWER_LARGEST -> has_flag it ITEM_SLABBED = false ->
  (forall i k, L !! i = Some k -> p ∉ k) -> L !! Z.to_nat it.(it_slabs_clsid) = Some l ->
  (forall e', lru_rep (lviews e'.(e_heap)) e'.(e_items)
                (<[Z.to_nat it.(it_slabs_clsid) := p :: l]> L) ->
     lru_frame e e' -> Q tt e') ->
  runs (item_link_q p) e Q.
Proof.
  intros HL Hp Hp0 Hid Hs Hnew Hl HQ. unfold item_link_q. set (id := it_slabs_clsid it) in *.
  destruct (lru_lengths _ _ _ HL) as (Hlh & Hlt & Hls).
  apply runs_bind. eapply runs_load; [exact Hp|]. fold id. run.
  { apply Z.ltb_lt. lia. } { by rewrite Hs. }
  eapply runs_get_head; [exact HL|lia|exact Hl|].
  apply runs_bind. eapply runs_get_tail; [exact HL|lia|exact Hl|].
  assert (Hpl : p ∉ l) by (by eapply Hnew). run.
  { apply negb_true_iff, Z.eqb_neq. destruct l; simpl; [done|]. set_solver. }
  { pose proof (lr_null _ _ _ HL _ _ Hl) as Hn0. destruct l as [|x xs]; [done|].
    rewrite lastd_cons. simpl.
    assert (x <> NULL) by set_solver.
    assert (lastd x xs <> NULL).
    { destruct xs as [|y ys _] using rev_ind; [done|]. rewrite lastd_snoc. set_solver. }
    by rewrite !(proj2 (Z.eqb_neq _ _)). }
  eapply runs_store; [exact Hp|]. apply runs_bind.
  set (it1 := set_it_next _ _).
  destruct (push_head_heap e p it l) as (h' & (u & e1 & Hr & ->) & Her & Hseg & Hout);
    [done|by eapply (lr_seg _ _ _ HL)|by eapply (lr_nodup _ _ _ HL)|by eapply (lr_null _ _ _ HL)|done|].
  exists u, (set_e_heap h' e). split; [exact Hr|]. apply runs_bind.
  apply runs_put_head; [simpl; lia|]. apply runs_bind.
  assert (Hfin : forall tails,
    tails = <[Z.to_nat id := lastd NULL (p :: l)]> e.(e_items).(q_tails) ->
    runs (add_size id 1) (set_e_items (set_q_tails tails (set_q_heads
      (<[Z.to_nat id := p]> e.(e_items).(q_heads)) e.(e_items))) (set_e_heap h' e)) Q).
  { intros tails ->. eapply runs_add_size; [simpl; by eapply lru_size; [|lia|]|]. simpl.
    apply HQ; [|split; [by destruct e|done]]. simpl.
    enough (Hgo : lru_rep (lviews h') (set_queue id l (p :: l) e.(e_items))
                    (<[Z.to_nat id := p :: l]> L)).
    { unfold set_queue in Hgo. rewrite u32_add. cbn [length] in Hgo.
      replace (Z.of_nat (length l) + 1) with (Z.of_nat (S (length l))) by lia. exact Hgo. }
    eapply lru_rep_set; [exact HL|lia|exact Hl| |done|..].
    - intros x i k Hk Hi Hx. assert (x ∉ p :: l).
      { intros [->|Hxl]%elem_of_cons; [by eapply (Hnew i k)|].
        apply Hi. by eapply (lr_disj _ _ _ HL i (Z.to_nat id) k l x). }
      auto.
    - apply NoDup_cons. split; [done|by eapply (lr_nodup _ _ _ HL)].
    - apply not_elem_of_cons. split; [done|by eapply (lr_null _ _ _ HL)]. }
  apply runs_when; intros Hb; boolify.
  - apply runs_put_tail; [simpl; lia|]. simpl. apply (Hfin (<[Z.to_nat id := p]> _)).
    destruct l as [|x xs _] using rev_ind; [done|]. exfalso.
    rewrite lastd_snoc in Hb. pose proof (lr_null _ _ _ HL _ _ Hl). set_solver.
  - simpl. specialize (Hfin e.(e_items).(q_tails)).
    match goal with |- runs _ ?x _ => match type of Hfin with _ -> runs _ ?y _ =>
      replace x with y by (by destruct e as [? ? ? ? [] ? ? ? ? ? ? ? ? ?]) end end.
    apply Hfin. symmetry. apply list_insert_id. rewrite (lru_tail _ _ _ _ _ HL Hl).
    rewrite lastd_cons. destruct l as [|x xs]; [done|]. by rewrite !lastd_cons.
Qed.

(** *** Removing an item *)

(** What is after the removed item gets a new [prev]. *)
Lemma fix_next_heap e p pr l2 :
  dseg (lviews e.(e_heap)) p l2 NULL -> NoDup l2 -> NULL ∉ l2 ->
  exists h',
    runs (when (negb (hdd NULL l2 =? NULL)) (store (hdd NULL l2) (set_it_prev pr))) e
      (fun _ e' => e' = set_e_heap h' e) /\
    erase_lru <$> h' = erase_lru <$> e.(e_heap) /\
    dseg (lviews h') pr l2 NULL /\
    forall x, x ∉ l2 -> lviews h' !! x = lviews e.(e_heap) !! x.
Proof.
  intros Hseg Hnd Hn0. destruct l2 as [|y l2].
  - exists e.(e_heap). split; [|done]. apply runs_when; [done|]. by destruct e.
  - pose proof Hseg as [Hy _]. destruct (lviews_lookup _ _ _ Hy) as (yt & Hyt & Hyv).
    apply NoDup_cons in Hnd as [Hyn Hnd]. assert (y <> NULL) by set_solver.
    exists (<[y := set_it_prev pr yt]> e.(e_heap)). split; [|split; [|split]].
    + apply runs_when; intros Hb; boolify; [|done]. eapply runs_store; [exact Hyt|]. by destruct e.
    + by eapply erase_lru_store.
    + rewrite lviews_store. replace (lview (set_it_prev pr yt)) with (pr, hdd NULL l2)
        by (unfold lview in *; simpl; congruence).
      by eapply dseg_set_prev.
    + intros x Hx. rewrite lviews_store. apply lookup_insert_ne. set_solver.
Qed.

(** What is before it gets a new [next]. *)
Lemma fix_prev_heap e p nx l1 :
  dseg (lviews e.(e_heap)) NULL l1 p -> NoDup l1 -> NULL ∉ l1 ->
  exists h',
    runs (when (negb (lastd NULL l1 =? NULL)) (store (lastd NULL l1) (set_it_next nx))) e
      (fun _ e' => e' = set_e_heap h' e) /\
    erase_lru <$> h' = erase_lru <$> e.(e_heap) /\
    dseg (lviews h') NULL l1 nx /\
    forall x, x ∉ l1 -> lviews h' !! x = lviews e.(e_heap) !! x.
Proof.
  intros Hseg Hnd Hn0. destruct l1 as [|z l1 _] using rev_ind.
  - exists e.(e_heap). split; [|done]. apply runs_when; [done|]. by destruct e.
  - rewrite lastd_snoc. pose proof (dseg_lookup _ _ _ _ _ _ Hseg) as Hz.
    destruct (lviews_lookup _ _ _ Hz) as (zt & Hzt & Hzv).
    apply NoDup_app in Hnd as (_ & Hzn & _). assert (z <> NULL) by set_solver.
    exists (<[z := set_it_next nx zt]> e.(e_heap)). split; [|split; [|split]].
    + apply runs_when; intros Hb; boolify; [|done]. eapply runs_store; [exact Hzt|]. by destruct e.
    + by eapply erase_lru_store.
    + rewrite lviews_store. replace (lview (set_it_next nx zt)) with (lastd NULL l1, nx)
        by (unfold lview in *; simpl; congruence).
      eapply dseg_set_next; [exact Hseg|set_solver|done].
    + intros x Hx. rewrite lviews_store. apply lookup_insert_ne. set_solver.
Qed.

Lemma remove_heap e p l1 l2 :
  dseg (lviews e.(e_heap)) NULL (l1 ++ p :: l2) NULL -> NoDup (l1 ++ p :: l2) ->
  NULL ∉ l1 ++ p :: l2 ->
  exists h',
    runs (when (negb (hdd NULL l2 =? NULL)) (store (hdd NULL l2) (set_it_prev (lastd NULL l1)));;
          when (negb (lastd NULL l1 =? NULL)) (store (lastd NULL l1) (set_it_next (hdd NULL l2))))
      e (fun _ e' => e' = set_e_heap h' e) /\
    erase_lru <$> h' = erase_lru <$> e.(e_heap) /\
    dseg (lviews h') NULL (l1 ++ l2) NULL /\
    forall x, x ∉ l1 ++ l2 -> lviews h' !! x = lviews e.(e_heap) !! x.
Proof.
  intros Hseg Hnd Hn0. apply dseg_app in Hseg as [Hs1 [_ Hs2]]. simpl in Hs1.
  apply NoDup_app in Hnd as (Hn1 & Hd & Hn2). apply NoDup_cons in Hn2 as [Hp2 Hn2].
  destruct (fix_next_heap e p (lastd NULL l1) l2)
    as (h1 & (u1 & e1 & Hr1 & ->) & He1 & Hs2' & Ho1); [done|done|set_solver|].
  destruct (fix_prev_heap (set_e_heap h1 e) p (hdd NULL l2) l1)
    as (h2 & (u2 & e2 & Hr2 & ->) & He2 & Hs1' & Ho2); [|done|set_solver|].
  { eapply dseg_frame; [|exact Hs1]. intros x Hx. simpl. apply Ho1. set_solver. }
  exists h2. split; [|split; [|split]].
  - apply runs_bind. eexists u1, _. split; [exact Hr1|]. eexists u2, _. split; [exact Hr2|].
    by destruct e.
  - simpl in *. congruence.
  - apply dseg_app. split; [done|]. eapply dseg_frame; [|exact Hs2']. intros x Hx.
    simpl in Ho2. apply Ho2. intros Hx1. apply (Hd x Hx1). set_solver.
  - intros x Hx. simpl in Ho2. rewrite Ho2, Ho1 by set_solver. done.
Qed.

Lemma hdd_app_ne nx l1 l2 : l1 <> [] -> hdd nx (l1 ++ l2) = hdd nx l1.
Proof. by destruct l1. Qed.

Lemma lastd_app_ne pr l1 x l2 : lastd pr (l1 ++ x :: l2) = lastd x l2.
Proof. unfold lastd. rewrite last_app_cons. destruct l2; [done|].
  rewrite last_cons_cons. by destruct (last_is_Some (z :: l2)) as [_ [y ->]].
Qed.

Lemma hdd_notin p l : p ∉ l -> p <> NULL -> hdd NULL l <> p.
Proof. intros Hp H0. destruct l; simpl; [done|set_solver]. Qed.

Lemma lastd_notin p l : p ∉ l -> p <> NULL -> lastd NULL l <> p.
Proof.
  intros Hp H0. destruct l as [|z l _] using rev_ind; [done|]. rewrite lastd_snoc. set_solver.
Qed.

(** The head and the tail after the removal of [p]. *)
Lemma unlink_head_run lv e L id p l1 l2 (Q : unit -> engine -> Prop) :
  lru_rep lv e.(e_items) L -> 0 <= id < POWER_LARGEST ->
  L !! Z.to_nat id = Some (l1 ++ p :: l2) ->
  Q tt (set_e_items (set_q_heads (<[Z.to_nat id := hdd NULL (l1 ++ l2)]> e.(e_items).(q_heads))
                       e.(e_items)) e) ->
  runs (when (hdd NULL (l1 ++ p :: l2) =? p)
          (cassert (lastd NULL l1 =? NULL);; put_head id (hdd NULL l2))) e Q.
Proof.
  intros HL Hid Hl HQ. destruct (lru_lengths _ _ _ HL) as (Hlh & _ & _).
  apply runs_when; intros Hb; boolify.
  - assert (l1 = []) as ->.
    { destruct l1 as [|x l1]; [done|]. simpl in Hb. subst x.
      pose proof (lr_nodup _ _ _ HL _ _ Hl) as Hnd. simpl in Hnd.
      apply NoDup_cons in Hnd as [Hnd _]. set_solver. }
    run; [done|]. apply runs_put_head; [lia|]. exact HQ.
  - rewrite list_insert_id in HQ; [by destruct e as [? ? ? ? [] ? ? ? ? ? ? ? ? ?]|].
    rewrite (lru_head _ _ _ _ _ HL Hl). by destruct l1.
Qed.

Lemma unlink_tail_run lv e q L id p l1 l2 (Q : unit -> engine -> Prop) :
  lru_rep lv q L -> e.(e_items).(q_tails) = q.(q_tails) -> 0 <= id < POWER_LARGEST ->
  L !! Z.to_nat id = Some (l1 ++ p :: l2) ->
  Q tt (set_e_items (set_q_tails (<[Z.to_nat id := lastd NULL (l1 ++ l2)]> q.(q_tails))
                       e.(e_items)) e) ->
  runs (when (lastd NULL (l1 ++ p :: l2) =? p)
          (cassert (hdd NULL l2 =? NULL);; put_tail id (lastd NULL l1))) e Q.
Proof.
  intros HL Hq Hid Hl HQ. destruct (lru_lengths _ _ _ HL) as (_ & Hlt & _).
  rewrite lastd_app_ne. apply runs_when; intros Hb; boolify.
  - assert (l2 = []) as ->.
    { destruct l2 as [|z l2 _] using rev_ind; [done|]. rewrite lastd_snoc in Hb. subst z.
      pose proof (lr_nodup _ _ _ HL _ _ Hl) as Hnd. apply NoDup_app in Hnd as (_ & _ & Hnd).
      apply NoDup_cons in Hnd as [Hnd _]. set_solver. }
    run; [done|]. rewrite app_nil_r in HQ. apply runs_put_tail; rewrite Hq; [lia|]. exact HQ.
  - rewrite list_insert_id in HQ; [rewrite <- Hq in HQ; by destruct e as [? ? ? ? [] ? ? ? ? ? ? ? ? ?]|].
    rewrite (lru_tail _ _ _ _ _ HL Hl), lastd_app_ne.
    destruct l2 as [|y l2]; [done|]. by rewrite lastd_app_ne, lastd_cons.
Qed.

Lemma runs_seq2 {A} (m1 m2 : E unit) (k : E A) e (P : unit -> engine -> Prop)
    (Q : A -> engine -> Prop) :
  runs (m1;; m2) e P -> (forall e', P tt e' -> runs k e' Q) ->
  runs m1 e (fun _ e1 => runs (m2;; k) e1 Q).
Proof.
  intros (u & e2 & Hr & HP) Hk. apply run_bind_Some in Hr as (u1 & e1 & H1 & H2).
  exists u1, e1. split; [done|]. apply runs_bind. exists u, e2. split; [done|].
  destruct u. auto.
Qed.

(** The state after the removal, before the count is updated. *)
Lemma unlink_finish e L id p l1 l2 h' (Q : unit -> engine -> Prop) :
  lru_rep (lviews e.(e_heap)) e.(e_items) L -> 0 <= id < POWER_LARGEST ->
  L !! Z.to_nat id = Some (l1 ++ p :: l2) ->
  erase_lru <$> h' = erase_lru <$> e.(e_heap) -> dseg (lviews h') NULL (l1 ++ l2) NULL ->
  (forall x, x ∉ l1 ++ l2 -> lviews h' !! x = lviews e.(e_heap) !! x) ->
  (forall e', lru_rep (lviews e'.(e_heap)) e'.(e_items) (<[Z.to_nat id := l1 ++ l2]> L) ->
     lru_frame e e' -> Q tt e') ->
  runs (add_size id (-1))
    (set_e_heap h' (set_e_items (set_q_tails (<[Z.to_nat id := lastd NULL (l1 ++ l2)]>
       e.(e_items).(q_tails)) (set_q_heads (<[Z.to_nat id := hdd NULL (l1 ++ l2)]>
       e.(e_items).(q_heads)) e.(e_items))) e)) Q.
Proof.
  intros HL Hid Hl Her Hseg Hout HQ.
  eapply runs_add_size; [simpl; by eapply lru_size; [|lia|]|]. simpl.
  apply HQ; [|split; [by destruct e|done]]. simpl.
  enough (Hgo : lru_rep (lviews h') (set_queue id (l1 ++ p :: l2) (l1 ++ l2) e.(e_items))
                  (<[Z.to_nat id := l1 ++ l2]> L)).
  { unfold set_queue in Hgo. rewrite u32_add. rewrite length_app in *. cbn [length].
    replace (Z.of_nat (length l1 + S (length l2)) + -1)
      with (Z.of_nat (length l1 + length l2)) by lia. exact Hgo. }
  pose proof (lr_nodup _ _ _ HL _ _ Hl) as Hnd. pose proof (lr_null _ _ _ HL _ _ Hl) as Hn0.
  eapply lru_rep_set; [exact HL|lia|exact Hl| |done|..].
  - intros x i k Hk Hi Hx. assert (x ∉ l1 ++ l2).
    { intros Hxl. apply Hi. eapply (lr_disj _ _ _ HL i (Z.to_nat id) k _ x); eauto. set_solver. }
    auto.
  - rewrite <- Permutation_middle in Hnd. by apply NoDup_cons in Hnd as [_ ?].
  - set_solver.
Qed.

Lemma item_unlink_q_run e L p it l1 l2 (Q : unit -> engine -> Prop) :
  lru_rep (lviews e.(e_heap)) e.(e_items) L -> e.(e_heap) !! p = Some it ->
  0 <= it.(it_slabs_clsid) < POWER_LARGEST ->
  L !! Z.to_nat it.(it_slabs_clsid) = Some (l1 ++ p :: l2) ->
  (forall e', lru_rep (lviews e'.(e_heap)) e'.(e_items)
                (<[Z.to_nat it.(it_slabs_clsid) := l1 ++ l2]> L) ->
     lru_frame e e' -> Q tt e') ->
  runs (item_unlink_q p) e Q.
Proof.
  intros HL Hp Hid Hl HQ. unfold item_unlink_q. set (id := it_slabs_clsid it) in *.
  pose proof (lr_seg _ _ _ HL _ _ Hl) as Hseg. pose proof (lr_nodup _ _ _ HL _ _ Hl) as Hnd.
  pose proof (lr_null _ _ _ HL _ _ Hl) as Hn0.
  assert (Hp0 : p <> NULL) by set_solver.
  assert (Hpn : it.(it_prev) = lastd NULL l1 /\ it.(it_next) = hdd NULL l2).
  { pose proof (dseg_lookup _ _ _ _ _ _ Hseg) as Hv.
    unfold lviews in Hv. rewrite lookup_fmap, Hp in Hv. by injection Hv as -> ->. }
  destruct Hpn as [Hpr Hnx].
  assert (Hpl : p ∉ l1 ++ l2).
  { rewrite <- Permutation_middle in Hnd. by apply NoDup_cons in Hnd as [? _]. }
  apply runs_bind. eapply runs_load; [exact Hp|]. fold id. rewrite Hpr, Hnx. run.
  { apply Z.ltb_lt. lia. }
  eapply runs_get_head; [exact HL|lia|exact Hl|]. apply runs_bind.
  eapply unlink_head_run; [exact HL|done|done|]. apply runs_bind. unfold get_tail at 1. run.
  { apply zlookup_Some. split; [lia|]. simpl. by eapply (lru_tail _ _ _ _ _ HL). }
  eapply unlink_tail_run; [exact HL|done|done|done|]. run.
  { apply negb_true_iff, Z.eqb_neq, hdd_notin; [set_solver|done]. }
  { apply negb_true_iff, Z.eqb_neq, lastd_notin; [set_solver|done]. }
  match goal with |- runs _ ?st _ =>
    destruct (remove_heap st p l1 l2 Hseg Hnd Hn0) as (h' & Hr & Her & Hs' & Hout) end.
  eapply runs_seq2; [exact Hr|]. intros e' ->. simpl in *.
  pose proof (unlink_finish e L id p l1 l2 h' Q HL Hid Hl Her Hs' Hout HQ) as Hfin.
  by destruct e.
Qed.

(** ** Searching from the tail *)

(** The search visits the last [tries] items of the queue, from the tail; the item
    it returns is in the queue and passes the test. *)
Lemma search_lru_run h l test : forall tries nx,
  dseg (lviews h) NULL l nx -> NULL ∉ l ->
  exists p, search_lru tries h (lastd NULL l) test = Some p /\
    (p = NULL \/ p ∈ l /\ exists it, h !! p = Some it /\ test it = true).
Proof.
  induction l as [|z l IH] using rev_ind; intros [|n] nx Hseg Hn0; simpl.
  - exists NULL. auto.
  - exists NULL. auto.
  - exists NULL. auto.
  - rewrite lastd_snoc. pose proof (dseg_lookup _ _ _ _ _ _ Hseg) as Hz.
    destruct (lviews_lookup _ _ _ Hz) as (zt & Hzt & Hzv).
    assert (z <> NULL) by set_solver. rewrite (proj2 (Z.eqb_neq _ _)) by done.
    rewrite Hzt. simpl. destruct (test zt) eqn:Ht.
    + exists z. split; [done|]. right. split; [set_solver|eauto].
    + injection Hzv as Hzp _. rewrite Hzp. apply dseg_app in Hseg as [Hseg _].
      destruct (IH n _ Hseg) as (p & Hp & Hres); [set_solver|]. exists p. split; [done|].
      destruct Hres as [?|[? ?]]; [by left|right; split; [set_solver|done]].
Qed.

Lemma search_tail_run e L id l test (Q : Z -> engine -> Prop) :
  lru_rep (lviews e.(e_heap)) e.(e_items) L -> 0 <= id -> L !! Z.to_nat id = Some l ->
  (forall p, p = NULL \/ p ∈ l /\ (exists it, e.(e_heap) !! p = Some it /\ test it = true) ->
     Q p e) ->
  runs (search_tail id test) e Q.
Proof.
  intros HL Hid Hl HQ. unfold search_tail.
  apply runs_bind. eapply runs_get_tail; [exact HL|done|exact Hl|].
  destruct (search_lru_run e.(e_heap) l test search_items NULL) as (p & Hp & Hres);
    [by eapply (lr_seg _ _ _ HL)|by eapply (lr_null _ _ _ HL)|].
  run; [exact Hp|by apply HQ].
Qed.
