(* ===== verification/Cache.v ===== *)
(** * The cache the items implement

    The invariant that ties the hash table, the queues and the allocator together,
    the abstract cache (a finite map from keys to values) that an engine
    represents, and the effect of the operations of [items.c] on it. *)
From Stdlib Require Import ZArith Lia SpecFloat.
From stdpp Require Import strings gmap prelude.
From S2P Require Import Prelude Util EngineState Assoc Slabs Items Lru.

#[local] Set Warnings "-clear-no-such-hyp".

(** ** Values *)

(** What the cache holds for a key. *)
Record value := mk_value {
  v_time : Z;
  v_exptime : Z;
  v_flags : Z;
  v_datatype : Z;
  v_cas : Z;
  v_data : list Z
}.

Definition item_value (it : hash_item) : value :=
  mk_value it.(it_time) it.(it_exptime) it.(it_flags) it.(it_datatype) (item_get_cas it)
    (item_get_data it it.(it_nbytes)).

(** An item without its links. *)
Definition core (it : hash_item) : hash_item :=
  set_it_h_next NULL (set_it_next NULL (set_it_prev NULL it)).

(** The flags of an item that is not free. *)
Definition iflags (use_cas linked : bool) : Z :=
  (if use_cas then ITEM_WITH_CAS else 0) + (if linked then ITEM_LINKED else 0).

(** ** The invariant of an item

    [sizes] are the sizes of the classes and [largest] the last of them. *)
Record item_ok (uc : bool) (sizes : list Z) (largest : Z) (U : gmap Z Z) (p : Z)
    (linked : bool) (it : hash_item) : Prop := {
  io_used : U !! p = Some it.(it_slabs_clsid);
  io_class : POWER_SMALLEST <= it.(it_slabs_clsid) <= largest;
  io_body : exists sz, sizes !! Z.to_nat it.(it_slabs_clsid) = Some sz /\
    length it.(it_body) = Z.to_nat (body_size uc sz);
  io_nkey : 0 <= it.(it_nkey) < 2 ^ 16;
  io_nbytes : 0 <= it.(it_nbytes) < 2 ^ 32;
  io_fit : it.(it_nkey) + it.(it_nbytes) <= Z.of_nat (length it.(it_body));
  io_flags : it.(it_iflag) = iflags uc linked;
  io_ref : 0 <= it.(it_refcount) < 2 ^ 16
}.

Definition sizes_of (e : engine) : list Z := p_size <$> e.(e_slabs).(s_slabclass).
Definition uses_cas (e : engine) : bool := e.(e_config).(c_use_cas).

Definition items_ok (e : engine) (U : gmap Z Z) (A D : gset Z) : Prop :=
  forall p, p ∈ A -> exists it, e.(e_heap) !! p = Some it /\
    item_ok (uses_cas e) (sizes_of e) e.(e_slabs).(s_power_largest) U p
      (bool_decide (p ∈ D)) it.

(** The items of the queues are those of [D], each in the queue of its class. *)
Definition queues_ok (h : gmap Z hash_item) (D : gset Z) (L : list (list Z)) : Prop :=
  (forall p, p ∈ D <-> exists i l, L !! i = Some l /\ p ∈ l) /\
  forall i l p, L !! i = Some l -> p ∈ l ->
    it_slabs_clsid <$> (h !! p) = Some (Z.of_nat i).

(** The times of the items of a queue decrease from the head on, and none is later
    than [t]. *)
Fixpoint recent (h : gmap Z hash_item) (t : Z) (l : list Z) : Prop :=
  match l with
  | [] => True
  | p :: l' => exists it, h !! p = Some it /\ it.(it_time) <= t /\ recent h it.(it_time) l'
  end.

Definition lru_times (h : gmap Z hash_item) (now : Z) (L : list (list Z)) : Prop :=
  forall i l, L !! i = Some l -> recent h now l.

(** The whole engine: [A] are the allocated items and [D] those that are linked, in
    the index [rep] and in the queues [L]; [U] are the chunks in use. *)
Record wf (rep : gmap Z hash_item -> assoc -> gset Z -> Prop) `{EnvOk} (e : engine)
    (A D : gset Z) (U : gmap Z Z) (L : list (list Z)) : Prop := {
  wf_index : rep e.(e_heap) e.(e_assoc) D;
  wf_lru : lru_rep (lviews e.(e_heap)) e.(e_items) L;
  wf_slab : slab_inv e.(e_heap) (uses_cas e) e.(e_slabs) e.(e_calls) U;
  wf_items : items_ok e U A D;
  wf_queues : queues_ok e.(e_heap) D L;
  wf_sub : D ⊆ A;
  wf_largest : e.(e_slabs).(s_power_largest) < POWER_LARGEST;
  wf_count : e.(e_stats).(st_curr_items) = u64 (Z.of_nat (size D));
  wf_times : lru_times e.(e_heap) e.(e_now) L
}.

(** The abstract cache. *)
Definition abs (h : gmap Z hash_item) (D : gset Z) (m : gmap (list Z) value) : Prop :=
  forall k v, m !! k = Some v <->
    exists p it, p ∈ D /\ h !! p = Some it /\ item_get_key it = k /\ item_value it = v.

(** What the operations of [items.c] leave alone. *)
Definition rest (e : engine) :=
  (e.(e_initialized), e.(e_config), e.(e_scrubber), e.(e_tap_clients), e.(e_vbucket_infos),
   e.(e_now), e.(e_cas_id)).

Definition fixed (e e' : engine) : Prop :=
  rest e' = rest e /\ sizes_of e' = sizes_of e /\
  e'.(e_slabs).(s_power_largest) = e.(e_slabs).(s_power_largest).

(** The items of [X] keep their contents. *)
Definition keeps (X : Z -> Prop) (e e' : engine) : Prop :=
  forall p, X p -> core <$> (e'.(e_heap) !! p) = core <$> (e.(e_heap) !! p).

(** ** Projections *)

Lemma fmap_through {A B} (f : hash_item -> A) (g : hash_item -> B) (r : B -> A)
    (h h' : gmap Z hash_item) :
  (forall it, f it = r (g it)) -> g <$> h' = g <$> h -> f <$> h' = f <$> h.
Proof.
  intros Hf Hg. assert (Hc : forall k : gmap Z hash_item, f <$> k = r <$> (g <$> k)).
  { intros k. rewrite <- map_fmap_compose. apply map_fmap_ext. intros. apply Hf. }
  by rewrite !Hc, Hg.
Qed.

Lemma core_assoc (h h' : gmap Z hash_item) : erase_hn <$> h' = erase_hn <$> h -> core <$> h' = core <$> h.
Proof. by apply (fmap_through core erase_hn core). Qed.

Lemma core_lru (h h' : gmap Z hash_item) : erase_lru <$> h' = erase_lru <$> h -> core <$> h' = core <$> h.
Proof. by apply (fmap_through core erase_lru core). Qed.

Lemma lviews_assoc (h h' : gmap Z hash_item) : erase_hn <$> h' = erase_hn <$> h -> lviews h' = lviews h.
Proof. by apply (fmap_through lview erase_hn lview). Qed.

Lemma hnexts_lru (h h' : gmap Z hash_item) : erase_lru <$> h' = erase_lru <$> h -> hnexts h' = hnexts h.
Proof. by apply (fmap_through it_h_next erase_lru it_h_next). Qed.

Lemma kviews_core (h h' : gmap Z hash_item) : core <$> h' = core <$> h -> kviews h' = kviews h.
Proof. by apply (fmap_through kview core kview). Qed.

Lemma core_lookup {h h' : gmap Z hash_item} p it :
  core <$> h' = core <$> h -> h !! p = Some it ->
  exists it', h' !! p = Some it' /\ core it' = core it.
Proof.
  intros Hc Hp. assert (Hx : (core <$> h') !! p = Some (core it)).
  { by rewrite Hc, lookup_fmap, Hp. }
  rewrite lookup_fmap in Hx. destruct (h' !! p) as [it'|]; [|discriminate].
  exists it'. split; [done|]. by apply (inj Some).
Qed.

Lemma core_is_Some (h h' : gmap Z hash_item) p :
  core <$> h' = core <$> h -> is_Some (h' !! p) <-> is_Some (h !! p).
Proof. intros Hc. rewrite <- (fmap_is_Some core), <- (fmap_is_Some core (h !! p)).
  rewrite <- !lookup_fmap. by rewrite Hc. Qed.

Lemma item_ok_core uc sizes lg U p b it it' :
  core it' = core it -> item_ok uc sizes lg U p b it -> item_ok uc sizes lg U p b it'.
Proof.
  intros Hc []. unfold core in Hc. destruct it, it'. simpl in *. injection Hc as ? ? ? ? ? ? ? ? ? ? ?.
  subst. by constructor.
Qed.

Lemma core_fields it it' :
  core it' = core it ->
  it'.(it_refcount) = it.(it_refcount) /\ it'.(it_iflag) = it.(it_iflag) /\
  it'.(it_slabs_clsid) = it.(it_slabs_clsid) /\ it'.(it_time) = it.(it_time) /\
  it'.(it_exptime) = it.(it_exptime) /\ it'.(it_nkey) = it.(it_nkey) /\
  it'.(it_nbytes) = it.(it_nbytes) /\ it'.(it_body) = it.(it_body).
Proof. unfold core. destruct it, it'. simpl. by intros [=]. Qed.

Lemma core_value it it' :
  core it' = core it -> item_value it' = item_value it /\ item_get_key it' = item_get_key it /\
  ITEM_ntotal true it' = ITEM_ntotal true it.
Proof. unfold core. destruct it, it'. simpl. intros [=]. subst. done. Qed.

Lemma has_flag_iflags uc b it f :
  it.(it_iflag) = iflags uc b -> has_flag it f = negb (Z.land (iflags uc b) f =? 0).
Proof. intros Hf. unfold has_flag. by rewrite Hf. Qed.

(** ** Times of the queues *)

Lemma recent_weaken h t t' l : t <= t' -> recent h t l -> recent h t' l.
Proof. destruct l as [|p l]; [done|]. intros Ht (it & Hp & Hle & Hl). exists it. split; [done|]. split; [lia|done]. Qed.

Lemma recent_ext (h h' : gmap Z hash_item) t l :
  (forall p, p ∈ l -> it_time <$> (h' !! p) = it_time <$> (h !! p)) -> recent h t l -> recent h' t l.
Proof.
  revert t. induction l as [|p l IH]; [done|]. intros t Heq (it & Hp & Hle & Hl). simpl.
  pose proof (Heq p ltac:(left)) as Hx. rewrite Hp in Hx. simpl in Hx.
  destruct (h' !! p) as [it'|]; [|discriminate]. simpl in Hx. injection Hx as Hx.
  exists it'. split; [done|]. rewrite Hx. split; [done|]. apply IH; [|done].
  intros q Hq. apply Heq. by right.
Qed.

Lemma recent_remove h t l1 p l2 : recent h t (l1 ++ p :: l2) -> recent h t (l1 ++ l2).
Proof.
  revert t. induction l1 as [|q l1 IH]; simpl.
  - intros t (it & _ & Hle & Hl). by eapply recent_weaken.
  - intros t (it & Hq & Hle & Hl). exists it. eauto.
Qed.

Lemma recent_all h t l p : recent h t l -> p ∈ l -> exists it, h !! p = Some it /\ it.(it_time) <= t.
Proof.
  revert t. induction l as [|q l IH]; intros t; [set_solver|]. simpl.
  intros (it & Hq & Hle & Hl) [->|Hin]%elem_of_cons; [eauto|].
  destruct (IH _ Hl Hin) as (jt & Hp & Hjt). exists jt. split; [done|lia].
Qed.

Lemma core_time (h h' : gmap Z hash_item) p :
  core <$> (h' !! p) = core <$> (h !! p) -> it_time <$> (h' !! p) = it_time <$> (h !! p).
Proof.
  intros Hc. destruct (h' !! p), (h !! p); try discriminate; [|done]. simpl in *.
  injection Hc as Hc. f_equal. congruence.
Qed.

Lemma lru_times_ext (h h' : gmap Z hash_item) now L :
  (forall i l p, L !! i = Some l -> p ∈ l -> it_time <$> (h' !! p) = it_time <$> (h !! p)) ->
  lru_times h now L -> lru_times h' now L.
Proof. intros Heq HT i l Hl. eapply recent_ext; [|by apply (HT i)]. eauto. Qed.

Lemma lru_times_core (h h' : gmap Z hash_item) now L :
  core <$> h' = core <$> h -> lru_times h now L -> lru_times h' now L.
Proof.
  intros Hc. apply lru_times_ext. intros i l p _ _. apply core_time. by rewrite <- !lookup_fmap, Hc.
Qed.

Lemma lru_times_remove h now L i l1 p l2 :
  L !! i = Some (l1 ++ p :: l2) -> lru_times h now L -> lru_times h now (<[i := l1 ++ l2]> L).
Proof.
  intros Hl HT j l Hj. apply list_lookup_insert_Some in Hj as [(_ & <- & _)|(_ & Hj)];
    [|by apply (HT j)]. eapply recent_remove, HT, Hl.
Qed.

Lemma lru_times_add h now L i l p it :
  L !! i = Some l -> h !! p = Some it -> it.(it_time) = now -> lru_times h now L ->
  lru_times h now (<[i := p :: l]> L).
Proof.
  intros Hl Hp Ht HT j l' Hj. apply list_lookup_insert_Some in Hj as [(_ & <- & _)|(_ & Hj)];
    [|by apply (HT j)]. exists it. split; [done|]. split; [lia|]. rewrite Ht. by apply (HT i).
Qed.

(** ** Frames *)

Lemma fixed_refl e : fixed e e.
Proof. done. Qed.

Lemma fixed_trans e1 e2 e3 : fixed e1 e2 -> fixed e2 e3 -> fixed e1 e3.
Proof. intros (?&?&?) (?&?&?). split; [congruence|]. split; congruence. Qed.

Lemma keeps_trans X e1 e2 e3 : keeps X e1 e2 -> keeps X e2 e3 -> keeps X e1 e3.
Proof. intros H1 H2 p Hp. by rewrite (H2 p Hp), (H1 p Hp). Qed.

Lemma keeps_weaken (X Y : Z -> Prop) e e' : (forall p, Y p -> X p) -> keeps X e e' -> keeps Y e e'.
Proof. intros HXY HX p Hp. apply HX. auto. Qed.

Lemma keeps_core (e e' : engine) X : core <$> e'.(e_heap) = core <$> e.(e_heap) -> keeps X e e'.
Proof. intros Hc p _. by rewrite <- !lookup_fmap, Hc. Qed.

Lemma keeps_insert e p it X : ~ X p -> keeps X e (upd_heap (insert p it) e).
Proof. intros HX q Hq. simpl. rewrite lookup_insert_ne; [done|]. intros ->. done. Qed.

Lemma fixed_assoc e e' : assoc_frame e e' -> fixed e e'.
Proof. intros (_ & -> & _). done. Qed.

Lemma fixed_lru e e' : lru_frame e e' -> fixed e e'.
Proof. intros (-> & _). done. Qed.

Lemma fixed_slab e e' : slab_frame e e' -> fixed e e'.
Proof. intros (He & _ & _ & Hp & Hs). split; [by rewrite He|]. split; [exact Hs|exact Hp]. Qed.

Lemma fixed_cas e e' : fixed e e' -> uses_cas e' = uses_cas e.
Proof. intros [Hr _]. unfold rest in Hr. unfold uses_cas. by injection Hr as _ -> _ _ _ _ _. Qed.

Lemma fixed_now e e' : fixed e e' -> e'.(e_now) = e.(e_now) /\ e'.(e_config) = e.(e_config).
Proof. intros [Hr _]. unfold rest in Hr. by injection Hr as _ -> _ _ _ -> _. Qed.

Lemma lru_rep_local lv lv' q L :
  lru_rep lv q L -> (forall i l x, L !! i = Some l -> x ∈ l -> lv' !! x = lv !! x) ->
  lru_rep lv' q L.
Proof.
  intros HL Heq. destruct HL. constructor; auto.
  intros i l Hl. eapply dseg_frame; [|by eapply lr_seg].
  intros x Hx. by eapply Heq.
Qed.

Section proofs.
Context `{EnvOk}.

Lemma slab_inv_core h h' uc s calls U :
  slab_inv h uc s calls U -> core <$> h' = core <$> h -> slab_inv h' uc s calls U.
Proof.
  intros Hinv Hc. eapply slab_inv_write; [exact Hinv|..].
  - intros x. by apply core_is_Some.
  - intros x _. rewrite <- !lookup_fmap.
    by rewrite (fmap_through chunk_view core chunk_view h h').
Qed.

Lemma slab_inv_calls h uc s calls calls' U :
  slab_inv h uc s calls U -> (calls <= calls')%nat -> slab_inv h uc s calls' U.
Proof. intros [HS Hm] Hle. split; [by eapply slab_rep_calls|done]. Qed.

Context (rep : gmap Z hash_item -> assoc -> gset Z -> Prop) `{!KeyIndex rep}.

Lemma lru_times_unlinked h now D L p it :
  queues_ok h D L -> p ∉ D -> lru_times h now L -> lru_times (<[p := it]> h) now L.
Proof.
  intros [Hq _] HpD. apply lru_times_ext. intros i l q Hl Hin. rewrite lookup_insert_ne; [done|].
  intros ->. apply HpD, Hq. eauto.
Qed.

Lemma lru_times_same (h : gmap Z hash_item) now L p it it' :
  h !! p = Some it -> it'.(it_time) = it.(it_time) -> lru_times h now L ->
  lru_times (<[p := it']> h) now L.
Proof.
  intros Hp Ht. apply lru_times_ext. intros i l q _ _. rewrite lookup_insert.
  destruct (decide (p = q)) as [<-|]; [|done]. rewrite Hp. simpl. by rewrite Ht.
Qed.

Lemma wf_nonnull e A D U L p : wf rep e A D U L -> p ∈ A -> p <> NULL.
Proof.
  intros HW Hp. destruct (wf_items _ _ _ _ _ _ HW p Hp) as (it & _ & Hok).
  apply (sr_dom _ _ _ _ _ (proj1 (wf_slab _ _ _ _ _ _ HW))). rewrite (io_used _ _ _ _ _ _ _ Hok). eauto.
Qed.

(** An item that is not linked may be written freely. *)
Lemma wf_store_unlinked e A D U L p it it' :
  wf rep e A D U L -> p ∈ A -> p ∉ D -> e.(e_heap) !! p = Some it ->
  item_ok (uses_cas e) (sizes_of e) e.(e_slabs).(s_power_largest) U p false it' ->
  wf rep (upd_heap (insert p it') e) A D U L.
Proof.
  intros HW HpA HpD Hp Hok. pose proof (wf_queues _ _ _ _ _ _ HW) as [Hq1 Hq2].
  assert (Hne : forall q, q ∈ D -> p <> q) by (intros q Hq ->; done).
  destruct HW. constructor; simpl; try done.
  - eapply ki_local; [|exact wf_index0]. intros q Hq. unfold hnexts, kviews.
    rewrite !fmap_insert, !lookup_insert_ne by auto. done.
  - eapply lru_rep_local; [exact wf_lru0|]. intros i l x Hl Hx. rewrite lviews_store.
    apply lookup_insert_ne. apply Hne. apply Hq1. eauto.
  - apply slab_inv_insert; [done|]. destruct Hok. eauto.
  - intros q Hq. simpl. rewrite lookup_insert. destruct (decide (p = q)) as [<-|].
    + exists it'. split; [done|]. by rewrite bool_decide_eq_false_2.
    + by apply wf_items0.
  - split; [done|]. intros i l q Hl Hin. rewrite lookup_insert_ne; [by eapply Hq2|].
    apply Hne. apply Hq1. eauto.
  - by eapply lru_times_unlinked.
Qed.

(** What remains of the invariant when a linked item is written but for its key and
    its links: all but the order of the times. *)
Lemma store_linked_parts e A D U L p it it' :
  wf rep e A D U L -> p ∈ D -> e.(e_heap) !! p = Some it ->
  lview it' = lview it -> it'.(it_h_next) = it.(it_h_next) -> kview it' = kview it ->
  item_ok (uses_cas e) (sizes_of e) e.(e_slabs).(s_power_largest) U p true it' ->
  let h' := <[p := it']> e.(e_heap) in
  rep h' e.(e_assoc) D /\ lru_rep (lviews h') e.(e_items) L /\
  slab_inv h' (uses_cas e) e.(e_slabs) e.(e_calls) U /\
  items_ok (set_e_heap h' e) U A D /\ queues_ok h' D L.
Proof.
  intros HW HpD Hp Hl Hh Hk Hok h'. pose proof (wf_queues _ _ _ _ _ _ HW) as [Hq1 Hq2].
  assert (Hcls : it_slabs_clsid it' = it_slabs_clsid it).
  { destruct (wf_items _ _ _ _ _ _ HW p) as (it0 & Hit0 & Hok0); [by apply (wf_sub _ _ _ _ _ _ HW)|].
    destruct Hok, Hok0. congruence. }
  destruct HW. split_and!.
  - eapply ki_local; [|exact wf_index0]. intros q Hq. unfold h', hnexts, kviews.
    rewrite !(fmap_insert_same _ _ p it it'); done.
  - unfold h'. rewrite (lviews_store _ _ it'). unfold lviews. rewrite Hl, <- (fmap_insert lview).
    by rewrite insert_id.
  - apply slab_inv_insert; [done|]. destruct Hok. eauto.
  - intros q Hq. simpl. unfold h'. rewrite lookup_insert. destruct (decide (p = q)) as [<-|].
    + exists it'. split; [done|]. by rewrite bool_decide_eq_true_2.
    + by apply wf_items0.
  - split; [done|]. intros i l q Hil Hin. unfold h'. rewrite lookup_insert.
    destruct (decide (p = q)) as [<-|]; [|by eapply Hq2].
    simpl. rewrite Hcls. specialize (Hq2 i l p Hil Hin). by rewrite Hp in Hq2.
Qed.

(** A linked item may be written but for its key, its links and its time. *)
Lemma wf_store_linked e A D U L p it it' :
  wf rep e A D U L -> p ∈ D -> e.(e_heap) !! p = Some it ->
  lview it' = lview it -> it'.(it_h_next) = it.(it_h_next) -> kview it' = kview it ->
  it'.(it_time) = it.(it_time) ->
  item_ok (uses_cas e) (sizes_of e) e.(e_slabs).(s_power_largest) U p true it' ->
  wf rep (upd_heap (insert p it') e) A D U L.
Proof.
  intros HW HpD Hp Hl Hh Hk Ht Hok.
  destruct (store_linked_parts _ _ _ _ _ _ _ _ HW HpD Hp Hl Hh Hk Hok) as (?&?&?&?&?).
  destruct HW. constructor; simpl; try done. by eapply lru_times_same.
Qed.

(** ** Freeing *)

Lemma unlinked_not_end h D L p i l :
  queues_ok h D L -> p ∉ D -> p <> NULL -> L !! i = Some l ->
  (p =? hdd NULL l) = false /\ (p =? lastd NULL l) = false.
Proof.
  intros [Hq _] HpD Hp0 Hl. assert (Hpl : p ∉ l) by (intros Hin; apply HpD, Hq; eauto).
  split; apply Z.eqb_neq, not_eq_sym; [by apply hdd_notin|by apply lastd_notin].
Qed.

(** The queue of an item. *)
Lemma item_queue e A D U L p it :
  wf rep e A D U L -> p ∈ A -> e.(e_heap) !! p = Some it ->
  0 <= it.(it_slabs_clsid) < POWER_LARGEST /\
  exists l, L !! Z.to_nat it.(it_slabs_clsid) = Some l.
Proof.
  intros HW HpA Hp. destruct (wf_items _ _ _ _ _ _ HW p HpA) as (it0 & Hit0 & Hok).
  replace it0 with it in * by congruence. destruct Hok.
  pose proof (wf_largest _ _ _ _ _ _ HW). unfold POWER_SMALLEST in *.
  split; [lia|]. apply lru_lookup_Z; [apply (wf_lru _ _ _ _ _ _ HW)|lia].
Qed.

Lemma item_class e A D U L p it b :
  wf rep e A D U L ->
  item_ok (uses_cas e) (sizes_of e) e.(e_slabs).(s_power_largest) U p b it ->
  exists c, zlookup e.(e_slabs).(s_slabclass) it.(it_slabs_clsid) = Some c /\
    length it.(it_body) = Z.to_nat (body_size (uses_cas e) c.(p_size)).
Proof.
  intros HW []. destruct io_body0 as (sz & Hsz & Hb).
  unfold sizes_of in Hsz. apply list_lookup_fmap_Some in Hsz as (c & -> & Hc).
  exists c. split; [|done]. apply zlookup_Some. unfold POWER_SMALLEST in *. split; [lia|done].
Qed.

(** The invariant when [p] is no longer an item. *)
Lemma wf_drop_item e e' A D U U' L p it' :
  wf rep e A D U L -> p ∉ D -> e'.(e_heap) = <[p := it']> e.(e_heap) ->
  e'.(e_assoc) = e.(e_assoc) -> e'.(e_items) = e.(e_items) -> e'.(e_stats) = e.(e_stats) ->
  fixed e e' -> slab_inv e'.(e_heap) (uses_cas e') e'.(e_slabs) e'.(e_calls) U' ->
  (forall q, q <> p -> U' !! q = U !! q) ->
  wf rep e' (A ∖ {[p]}) D U' L.
Proof.
  intros HW HpD Hh Ha Hi Hst Hfix Hinv HU. pose proof (wf_queues _ _ _ _ _ _ HW) as [Hq1 Hq2].
  assert (Hne : forall q, q ∈ D -> p <> q) by (intros q Hq ->; done).
  pose proof (fixed_cas _ _ Hfix) as Huc. pose proof (proj1 (fixed_now _ _ Hfix)) as Hnow.
  destruct Hfix as (_ & Hsz & Hlg). destruct HW. constructor; rewrite ?Ha, ?Hi, ?Hst, ?Hlg; try done.
  - eapply ki_local; [|exact wf_index0]. intros q Hq. unfold hnexts, kviews.
    rewrite Hh, !fmap_insert, !lookup_insert_ne by auto. done.
  - eapply lru_rep_local; [exact wf_lru0|]. intros i l x Hl Hx. rewrite Hh, lviews_store.
    apply lookup_insert_ne. apply Hne. apply Hq1. eauto.
  - intros q [Hq Hqp]%elem_of_difference. destruct (wf_items0 q Hq) as (it & Hit & []).
    exists it. rewrite Hh, lookup_insert_ne by set_solver. split; [done|].
    rewrite Huc, Hsz, Hlg. constructor; auto. rewrite HU by set_solver. done.
  - split; [done|]. intros i l q Hl Hin. rewrite Hh, lookup_insert_ne; [by eapply Hq2|].
    apply Hne. apply Hq1. eauto.
  - intros q Hq. apply elem_of_difference. split; [by apply wf_sub0|].
    apply not_elem_of_singleton. apply not_eq_sym. by apply Hne.
  - rewrite Hh, Hnow. by eapply lru_times_unlinked.
Qed.

Lemma item_free_run e A D U L p it (Q : unit -> engine -> Prop) :
  wf rep e A D U L -> p ∈ A -> p ∉ D -> e.(e_heap) !! p = Some it -> it.(it_refcount) = 0 ->
  (forall e' U', wf rep e' (A ∖ {[p]}) D U' L -> fixed e e' -> keeps (fun q => q <> p) e e' ->
     Q tt e') ->
  runs (item_free p) e Q.
Proof.
  intros HW HpA HpD Hp Href HQ. unfold item_free.
  pose proof (wf_nonnull _ _ _ _ _ _ HW HpA) as Hp0.
  destruct (item_queue _ _ _ _ _ _ _ HW HpA Hp) as (Hid & l & Hl).
  destruct (unlinked_not_end _ _ _ _ _ _ (wf_queues _ _ _ _ _ _ HW) HpD Hp0 Hl) as [Hhd Htl].
  destruct (wf_items _ _ _ _ _ _ HW p HpA) as (it0 & Hit0 & Hok).
  replace it0 with it in * by congruence. rewrite bool_decide_eq_false_2 in Hok by done.
  destruct (item_class _ _ _ _ _ _ _ _ HW Hok) as (c & Hc & Hb).
  assert (Hnl : has_flag it ITEM_LINKED = false).
  { rewrite (has_flag_iflags _ _ _ _ (io_flags _ _ _ _ _ _ _ Hok)). by destruct (uses_cas e). }
  run. eapply runs_load; [exact Hp|]. run; [by rewrite Hnl|].
  eapply runs_get_head; [apply HW|lia|exact Hl|]. run; [by rewrite Hhd|].
  eapply runs_get_tail; [apply HW|lia|exact Hl|]. run; [by rewrite Htl|by apply Z.eqb_eq|].
  eapply runs_store; [exact Hp|]. set (it1 := set_it_iflag _ _).
  assert (Hflag1 : has_flag it1 ITEM_LINKED = false).
  { unfold has_flag. simpl. rewrite (io_flags _ _ _ _ _ _ _ Hok). by destruct (uses_cas e). }
  destruct (wf_queues _ _ _ _ _ _ HW) as [Hq1 Hq2].
  assert (Hne : forall q, q ∈ D -> p <> q) by (intros q Hq ->; done).
  eapply (do_slabs_free_run p _ _ c it1 (upd_heap (insert p it1) e) U); simpl; try done.
  - apply slab_inv_insert; [apply HW|]. destruct Hok. eauto.
  - by destruct Hok.
  - by destruct Hok.
  - apply lookup_insert_eq.
  - intros e' (Hfr & Hh & U' & HU' & Hinv).
    assert (Hfix : fixed e e').
    { eapply fixed_trans; [|by apply fixed_slab]. done. }
    apply (HQ e' U'); [|done|].
    + destruct Hfr as (He' & _). simpl in He', Hh.
      eapply wf_drop_item; [exact HW|done|exact Hh|by rewrite He'..|done|done|].
      intros q Hq. destruct HU' as [->| ->]; [done|]. by apply lookup_delete_ne.
    + intros q Hq. rewrite Hh. simpl. by rewrite lookup_insert_ne.
Qed.


(** ** Unlinking *)

Lemma key_length uc sizes lg U p b it :
  item_ok uc sizes lg U p b it -> Z.of_nat (length (item_get_key it)) = it.(it_nkey).
Proof. intros []. unfold item_get_key. rewrite length_take. lia. Qed.

Lemma item_has_key uc sizes lg U h p b it :
  h !! p = Some it -> item_ok uc sizes lg U p b it -> has_key h p (item_get_key it).
Proof.
  intros Hp Hok. apply has_key_item. exists it. split; [done|]. split; [done|].
  by rewrite (key_length _ _ _ _ _ _ _ Hok).
Qed.

Lemma items_ok_core e e' U A D :
  items_ok e U A D -> fixed e e' -> core <$> e'.(e_heap) = core <$> e.(e_heap) ->
  items_ok e' U A D.
Proof.
  intros Hok Hfix Hc p Hp. destruct (Hok p Hp) as (it & Hit & Hi).
  destruct (core_lookup _ _ Hc Hit) as (it' & Hit' & Hcore). exists it'. split; [done|].
  rewrite (fixed_cas _ _ Hfix). destruct Hfix as (_ & -> & ->). by eapply item_ok_core.
Qed.

Lemma queues_ok_core h h' D L :
  queues_ok h D L -> core <$> h' = core <$> h -> queues_ok h' D L.
Proof.
  intros [Hq1 Hq2] Hc. split; [done|]. intros i l p Hl Hp.
  rewrite <- (Hq2 i l p Hl Hp), <- !lookup_fmap.
  by rewrite (fmap_through it_slabs_clsid core it_slabs_clsid h h').
Qed.

(** Where [p] is in its queue. *)
Lemma linked_split e A D U L p it :
  wf rep e A D U L -> p ∈ D -> e.(e_heap) !! p = Some it ->
  exists l1 l2, L !! Z.to_nat it.(it_slabs_clsid) = Some (l1 ++ p :: l2).
Proof.
  intros HW HpD Hp. destruct (wf_queues _ _ _ _ _ _ HW) as [Hq1 Hq2].
  destruct (proj1 (Hq1 p) HpD) as (i & l & Hl & Hin). specialize (Hq2 i l p Hl Hin).
  rewrite Hp in Hq2. injection Hq2 as ->. rewrite Nat2Z.id.
  apply list_elem_of_split in Hin as (l1 & l2 & ->). eauto.
Qed.

Lemma queues_remove h D L p i l1 l2 lv q :
  queues_ok h D L -> lru_rep lv q L -> L !! i = Some (l1 ++ p :: l2) ->
  queues_ok h (D ∖ {[p]}) (<[i := l1 ++ l2]> L).
Proof.
  intros [Hq1 Hq2] HL Hl. pose proof (lr_nodup _ _ _ HL _ _ Hl) as Hnd.
  rewrite <- Permutation_middle in Hnd. apply NoDup_cons in Hnd as [Hpn Hnd].
  pose proof (lookup_lt_Some _ _ _ Hl) as Hlt. split.
  - intros x. rewrite elem_of_difference, elem_of_singleton, Hq1. split.
    + intros [(j & l & Hj & Hx) Hxp]. destruct (decide (i = j)) as [<-|Hij].
      * exists i, (l1 ++ l2). rewrite list_lookup_insert_eq by done. split; [done|]. set_solver.
      * exists j, l. by rewrite list_lookup_insert_ne.
    + intros (j & l & Hj & Hx). apply list_lookup_insert_Some in Hj as [(<- & <- & _)|(Hij & Hj)].
      * split; [exists i; eexists; split; [exact Hl|set_solver]|]. intros ->. done.
      * split; [eauto|]. intros ->. apply Hij.
        eapply (lr_disj _ _ _ HL i j _ l p Hl Hj); [set_solver|done].
  - intros j l x Hj Hx. apply list_lookup_insert_Some in Hj as [(<- & <- & _)|(Hij & Hj)];
      [eapply Hq2; [exact Hl|set_solver]|by eapply Hq2].
Qed.

Lemma size_remove (D : gset Z) p :
  p ∈ D -> Z.of_nat (size (D ∖ {[p]})) = Z.of_nat (size D) - 1.
Proof.
  intros Hp. rewrite size_difference by set_solver. rewrite size_singleton.
  assert (size D <> 0%nat) by (intros Hz; apply size_empty_inv in Hz; set_solver). lia.
Qed.

Lemma u64_add x y : u64 (u64 x + y) = u64 (x + y).
Proof. unfold u64, wrap. by rewrite Zplus_mod_idemp_l. Qed.

Definition unlink_post (e : engine) (A D : gset Z) (p : Z) (it : hash_item) (e' : engine)
    (A' : gset Z) : Prop :=
  fixed e e' /\ keeps (fun q => q <> p) e e' /\
  (it.(it_refcount) = 0 -> A' = A ∖ {[p]}) /\
  (it.(it_refcount) <> 0 -> A' = A /\
     core <$> (e'.(e_heap) !! p) = Some (core (set_it_iflag (iflags (uses_cas e) false) it))).

(** The state between the removal from the queue and the test of the count. *)
Lemma unlink_wf e e1 e4 A D U L p it l1 l2 :
  wf rep e A D U L -> p ∈ D -> e.(e_heap) !! p = Some it ->
  L !! Z.to_nat it.(it_slabs_clsid) = Some (l1 ++ p :: l2) ->
  e1.(e_heap) = <[p := set_it_iflag (iflags (uses_cas e) false) it]> e.(e_heap) ->
  rep e4.(e_heap) e4.(e_assoc) (D ∖ {[p]}) ->
  lru_rep (lviews e4.(e_heap)) e4.(e_items) (<[Z.to_nat it.(it_slabs_clsid) := l1 ++ l2]> L) ->
  core <$> e4.(e_heap) = core <$> e1.(e_heap) ->
  fixed e e4 -> e4.(e_slabs) = e.(e_slabs) -> (e.(e_calls) <= e4.(e_calls))%nat ->
  e4.(e_stats).(st_curr_items) = u64 (e.(e_stats).(st_curr_items) - 1) ->
  wf rep e4 A (D ∖ {[p]}) U (<[Z.to_nat it.(it_slabs_clsid) := l1 ++ l2]> L).
Proof.
  intros HW HpD Hp Hl Hh1 Hrep Hlru Hcore Hfix Hslabs Hcalls Hcnt.
  pose proof (wf_sub _ _ _ _ _ _ HW) as HDA. pose proof (wf_items _ _ _ _ _ _ HW) as Hit.
  destruct (Hit p (HDA p HpD)) as (it0 & Hit0 & Hok).
  replace it0 with it in * by congruence. rewrite bool_decide_eq_true_2 in Hok by done.
  constructor; try done.
  - rewrite (fixed_cas _ _ Hfix), Hslabs. eapply slab_inv_calls; [|done].
    eapply slab_inv_core; [|exact Hcore]. rewrite Hh1. apply slab_inv_insert; [apply HW|].
    destruct Hok. eauto.
  - intros q Hq. rewrite (fixed_cas _ _ Hfix). destruct Hfix as (_ & -> & ->).
    assert (Hq1 : exists itq, e1.(e_heap) !! q = Some itq /\ item_ok (uses_cas e) (sizes_of e)
      (s_power_largest (e_slabs e)) U q (bool_decide (q ∈ D ∖ {[p]})) itq).
    { rewrite Hh1, lookup_insert. destruct (decide (p = q)) as [<-|Hne].
      - eexists. split; [done|]. rewrite bool_decide_eq_false_2 by set_solver.
        destruct Hok. by constructor.
      - destruct (Hit q Hq) as (itq & Hitq & Hokq). exists itq. split; [done|].
        by rewrite (bool_decide_ext (q ∈ D ∖ {[p]}) (q ∈ D)) by set_solver. }
    destruct Hq1 as (itq & Hitq & Hokq). destruct (core_lookup _ _ Hcore Hitq) as (it' & Hit' & Hc').
    exists it'. split; [done|]. by eapply item_ok_core.
  - eapply queues_ok_core; [|exact Hcore]. eapply queues_remove; [|apply HW|done].
    destruct (wf_queues _ _ _ _ _ _ HW) as [Hq1 Hq2]. split; [done|]. intros i l q Hil Hin.
    rewrite Hh1, lookup_insert. destruct (decide (p = q)) as [<-|]; [|by eapply Hq2].
    simpl. specialize (Hq2 i l p Hil Hin). by rewrite Hp in Hq2.
  - set_solver.
  - rewrite Hslabs. apply HW.
  - rewrite Hcnt, (wf_count _ _ _ _ _ _ HW), size_remove by done.
    change (u64 (u64 ?x - 1)) with (u64 (u64 x + -1)). by rewrite u64_add.
  - rewrite (proj1 (fixed_now _ _ Hfix)). apply (lru_times_core _ _ _ _ Hcore). rewrite Hh1.
    eapply lru_times_remove; [exact Hl|]. eapply lru_times_same; [exact Hp|done|apply HW].
Qed.

Lemma linked_flag uc sizes lg U p b it :
  item_ok uc sizes lg U p b it -> has_flag it ITEM_LINKED = b /\ has_flag it ITEM_SLABBED = false.
Proof.
  intros Hok. rewrite !(has_flag_iflags _ _ _ _ (io_flags _ _ _ _ _ _ _ Hok)).
  by destruct uc, b.
Qed.

Lemma do_item_unlink_at e A D U L p it l1 l2 (Q : unit -> engine -> Prop) :
  wf rep e A D U L -> p ∈ D -> e.(e_heap) !! p = Some it ->
  L !! Z.to_nat it.(it_slabs_clsid) = Some (l1 ++ p :: l2) ->
  (forall e' A' U', wf rep e' A' (D ∖ {[p]}) U' (<[Z.to_nat it.(it_slabs_clsid) := l1 ++ l2]> L) ->
     unlink_post e A D p it e' A' -> Q tt e') ->
  runs (do_item_unlink p) e Q.
Proof.
  intros HW HpD Hp Hl HQ. unfold do_item_unlink.
  pose proof (wf_sub _ _ _ _ _ _ HW p HpD) as HpA.
  destruct (wf_items _ _ _ _ _ _ HW p HpA) as (it0 & Hit0 & Hok).
  replace it0 with it in * by congruence. rewrite bool_decide_eq_true_2 in Hok by done.
  destruct (linked_flag _ _ _ _ _ _ _ Hok) as [Hlf _].
  destruct (item_queue _ _ _ _ _ _ _ HW HpA Hp) as (Hid & _).
  run. eapply runs_load; [exact Hp|]. rewrite Hlf. simpl when. run.
  eapply runs_store; [exact Hp|].
  assert (Hfl : Z.ldiff it.(it_iflag) ITEM_LINKED = iflags (uses_cas e) false).
  { rewrite (io_flags _ _ _ _ _ _ _ Hok). by destruct (uses_cas e). }
  rewrite Hfl. set (it1 := set_it_iflag _ it). run. simpl.
  match goal with |- runs _ ?st _ => set (e2 := st) end.
  assert (Hk1 : has_key e2.(e_heap) p (item_get_key it)).
  { apply (item_has_key (uses_cas e) (sizes_of e) e.(e_slabs).(s_power_largest) U _ _ false it1);
      [apply lookup_insert_eq|]. destruct Hok. by constructor. }
  assert (Hrep2 : rep e2.(e_heap) e2.(e_assoc) D).
  { eapply ki_local; [|apply HW]. intros q _. simpl. unfold hnexts, kviews.
    by rewrite !(fmap_insert_same _ _ p it it1). }
  eapply (ki_delete e2 D p); [exact Hrep2|done|exact Hk1|].
  intros e3 Hrep3 (He3 & Hst3 & Hc3). apply runs_bind.
  destruct (core_lookup p it1 (core_assoc _ _ He3)) as (it3 & Hit3 & Hcore3);
    [apply lookup_insert_eq|]. pose proof (core_fields _ _ Hcore3) as (_ & _ & Hcls & _).
  assert (Hlru3 : lru_rep (lviews e3.(e_heap)) e3.(e_items) L).
  { rewrite Hst3. simpl. rewrite (lviews_assoc _ _ He3). simpl.
    rewrite lviews_store. change (lview it1) with (lview it).
    unfold lviews. rewrite <- fmap_insert, insert_id by done. apply HW. }
  simpl in Hcls. eapply (item_unlink_q_run e3 L p it3 l1 l2); [exact Hlru3|exact Hit3|lia|by rewrite Hcls|].
  intros e4 Hlru4 (Hst4 & He4 & _). rewrite Hcls in Hlru4.
  assert (Hcore : core <$> e4.(e_heap) = core <$> e2.(e_heap)).
  { rewrite (core_lru _ _ He4). by apply core_assoc. }
  assert (Hfix : fixed e e4) by (rewrite Hst4, Hst3; done).
  assert (Hkeep : keeps (fun q => q <> p) e e4).
  { apply (keeps_trans _ _ e2); [|by apply keeps_core]. intros q Hq. simpl.
    by rewrite lookup_insert_ne. }
  assert (HW4 : wf rep e4 A (D ∖ {[p]}) U (<[Z.to_nat (it_slabs_clsid it) := l1 ++ l2]> L)).
  { eapply (unlink_wf e e2); try done.
    - eapply ki_local; [|rewrite Hst4; exact Hrep3]. intros q _.
      rewrite (hnexts_lru _ _ He4), (kviews_core _ _ (core_lru _ _ He4)). done.
    - by rewrite Hst4, Hst3.
    - rewrite Hst4. simpl. exact Hc3.
    - by rewrite Hst4, Hst3. }
  destruct (core_lookup p it1 Hcore) as (it4 & Hit4 & Hcore4); [apply lookup_insert_eq|].
  pose proof (core_fields _ _ Hcore4) as (Href4 & _). simpl in Href4.
  run. eapply runs_load; [exact Hit4|]. rewrite Href4. apply runs_when; intros Hz; boolify.
  - eapply item_free_run; [exact HW4|done|set_solver|exact Hit4|by rewrite Href4|].
    intros e5 U5 HW5 Hfix5 Hkeep5. eapply (HQ e5 _ U5); [exact HW5|].
    split; [by eapply fixed_trans|]. split; [by eapply keeps_trans|]. split; [done|lia].
  - eapply (HQ e4 A U HW4). split; [done|]. split; [done|]. split; [lia|].
    intros _. split; [done|]. rewrite Hit4. simpl. by f_equal.
Qed.

Lemma do_item_unlink_run e A D U L p it (Q : unit -> engine -> Prop) :
  wf rep e A D U L -> p ∈ D -> e.(e_heap) !! p = Some it ->
  (forall e' A' U' L', wf rep e' A' (D ∖ {[p]}) U' L' -> unlink_post e A D p it e' A' ->
     Q tt e') ->
  runs (do_item_unlink p) e Q.
Proof.
  intros HW HpD Hp HQ. destruct (linked_split _ _ _ _ _ _ _ HW HpD Hp) as (l1 & l2 & Hl).
  eapply do_item_unlink_at; eauto.
Qed.


(** ** Linking *)

Lemma queues_add h D L p it l :
  queues_ok h D L -> p ∉ D -> h !! p = Some it -> 0 <= it.(it_slabs_clsid) ->
  L !! Z.to_nat it.(it_slabs_clsid) = Some l ->
  queues_ok h ({[p]} ∪ D) (<[Z.to_nat it.(it_slabs_clsid) := p :: l]> L).
Proof.
  intros [Hq1 Hq2] HpD Hp H0' Hl. pose proof (lookup_lt_Some _ _ _ Hl) as Hlt.
  set (i := Z.to_nat _) in *. split.
  - intros x. rewrite elem_of_union, elem_of_singleton, Hq1. split.
    + intros [->|(j & l' & Hj & Hx)].
      * exists i, (p :: l). rewrite list_lookup_insert_eq by done. set_solver.
      * destruct (decide (i = j)) as [<-|Hij].
        -- exists i, (p :: l). rewrite list_lookup_insert_eq by done. set_solver.
        -- exists j, l'. by rewrite list_lookup_insert_ne.
    + intros (j & l' & Hj & Hx). apply list_lookup_insert_Some in Hj as [(<- & <- & _)|(Hij & Hj)].
      * apply elem_of_cons in Hx as [->|Hx]; eauto.
      * eauto.
  - intros j l' x Hj Hx. apply list_lookup_insert_Some in Hj as [(<- & <- & _)|(Hij & Hj)];
      [|by eapply Hq2].
    apply elem_of_cons in Hx as [->|Hx]; [|by eapply Hq2].
    rewrite Hp. simpl. f_equal. subst i. lia.
Qed.

(** The item that [do_item_link] leaves: linked, with the time and a new CAS. *)
Definition linked_item (e : engine) (it : hash_item) : hash_item :=
  let it1 := set_it_time e.(e_now) (set_it_iflag (iflags (uses_cas e) true) it) in
  if uses_cas e then set_it_cas (u64 (e.(e_cas_id) + 1)) it1 else it1.

Definition link_post (e : engine) (p : Z) (it : hash_item) (e' : engine) : Prop :=
  fixed (set_e_cas_id (u64 (e.(e_cas_id) + 1)) e) e' /\ keeps (fun q => q <> p) e e' /\
  core <$> (e'.(e_heap) !! p) = Some (core (linked_item e it)).

Lemma linked_item_ok e U p it b :
  item_ok (uses_cas e) (sizes_of e) e.(e_slabs).(s_power_largest) U p b it ->
  item_ok (uses_cas e) (sizes_of e) e.(e_slabs).(s_power_largest) U p true (linked_item e it).
Proof. intros []. unfold linked_item. destruct (uses_cas e); by constructor. Qed.

(** The invariant after the link. *)
Lemma link_wf e e1 e4 A D U L p it l :
  wf rep e A D U L -> p ∈ A -> p ∉ D -> e.(e_heap) !! p = Some it ->
  L !! Z.to_nat it.(it_slabs_clsid) = Some l ->
  e1.(e_heap) = <[p := linked_item e it]> e.(e_heap) ->
  rep e4.(e_heap) e4.(e_assoc) ({[p]} ∪ D) ->
  lru_rep (lviews e4.(e_heap)) e4.(e_items) (<[Z.to_nat it.(it_slabs_clsid) := p :: l]> L) ->
  core <$> e4.(e_heap) = core <$> e1.(e_heap) ->
  fixed (set_e_cas_id (u64 (e.(e_cas_id) + 1)) e) e4 -> e4.(e_slabs) = e.(e_slabs) ->
  (e.(e_calls) <= e4.(e_calls))%nat ->
  e4.(e_stats).(st_curr_items) = u64 (e.(e_stats).(st_curr_items) + 1) ->
  wf rep e4 A ({[p]} ∪ D) U (<[Z.to_nat it.(it_slabs_clsid) := p :: l]> L).
Proof.
  intros HW HpA HpD Hp Hl Hh1 Hrep Hlru Hcore Hfix Hslabs Hcalls Hcnt.
  pose proof (wf_sub _ _ _ _ _ _ HW) as HDA. pose proof (wf_items _ _ _ _ _ _ HW) as Hit.
  destruct (item_queue _ _ _ _ _ _ _ HW HpA Hp) as (Hid & _).
  destruct (Hit p HpA) as (it0 & Hit0 & Hok). replace it0 with it in * by congruence.
  pose proof (fixed_cas _ _ Hfix) as Huc. change (uses_cas (set_e_cas_id _ e)) with (uses_cas e) in Huc.
  assert (Hcls : it_slabs_clsid (linked_item e it) = it_slabs_clsid it).
  { unfold linked_item. by destruct (uses_cas e). }
  constructor; try done.
  - rewrite Huc, Hslabs. eapply slab_inv_calls; [|done].
    eapply slab_inv_core; [|exact Hcore]. rewrite Hh1. apply slab_inv_insert; [apply HW|].
    destruct Hok. eauto.
  - intros q Hq. rewrite Huc. destruct Hfix as (_ & -> & ->).
    assert (Hq1 : exists itq, e1.(e_heap) !! q = Some itq /\ item_ok (uses_cas e) (sizes_of e)
      (s_power_largest (e_slabs e)) U q (bool_decide (q ∈ {[p]} ∪ D)) itq).
    { rewrite Hh1, lookup_insert. destruct (decide (p = q)) as [<-|Hne].
      - eexists. split; [done|]. rewrite bool_decide_eq_true_2 by set_solver.
        by eapply linked_item_ok.
      - destruct (Hit q Hq) as (itq & Hitq & Hokq). exists itq. split; [done|].
        by rewrite (bool_decide_ext (q ∈ {[p]} ∪ D) (q ∈ D)) by set_solver. }
    destruct Hq1 as (itq & Hitq & Hokq). destruct (core_lookup _ _ Hcore Hitq) as (it' & Hit' & Hc').
    exists it'. split; [done|]. by eapply item_ok_core.
  - eapply queues_ok_core; [|exact Hcore]. rewrite <- Hcls in *. rewrite Hh1.
    eapply queues_add; [|done|by apply lookup_insert_eq|lia|done].
    destruct (wf_queues _ _ _ _ _ _ HW) as [Hq1 Hq2]. split; [done|]. intros i l' q Hil Hin.
    rewrite lookup_insert_ne; [by eapply Hq2|]. intros ->. apply HpD, Hq1. eauto.
  - set_solver.
  - rewrite Hslabs. apply HW.
  - rewrite Hcnt, (wf_count _ _ _ _ _ _ HW), u64_add, size_union, size_singleton by set_solver.
    f_equal. lia.
  - rewrite (proj1 (fixed_now _ _ Hfix)). simpl. apply (lru_times_core _ _ _ _ Hcore). rewrite Hh1.
    eapply lru_times_add; [exact Hl|apply lookup_insert_eq| |].
    + unfold linked_item. by destruct (uses_cas e).
    + eapply lru_times_unlinked; [apply HW|done|apply HW].
Qed.

Lemma has_key_other h p it' q k :
  p <> q -> has_key (<[p := it']> h) q k <-> has_key h q k.
Proof. intros Hne. unfold has_key, kviews. by rewrite fmap_insert, lookup_insert_ne. Qed.

Lemma set_cas_core e it it3 :
  core it3 = core (set_it_time e.(e_now) (set_it_iflag (iflags (uses_cas e) true) it)) ->
  core (if has_flag it3 ITEM_WITH_CAS then set_it_cas (u64 (e.(e_cas_id) + 1)) it3 else it3)
    = core (linked_item e it).
Proof.
  intros Hc. pose proof (core_fields _ _ Hc) as (_ & Hf & _). simpl in Hf.
  unfold has_flag, linked_item. rewrite Hf. destruct (uses_cas e); simpl; [|exact Hc].
  destruct it3, it. unfold core in *. simpl in *. by injection Hc as -> -> -> -> -> -> -> -> -> _ ->.
Qed.

Lemma do_item_link_run e A D U L p it (Q : Z -> engine -> Prop) :
  wf rep e A D U L -> p ∈ A -> p ∉ D -> e.(e_heap) !! p = Some it ->
  it.(it_nbytes) < 1024 * 1024 -> Z.of_nat (size D) < 2 ^ 30 ->
  (forall q, q ∈ D -> ~ has_key e.(e_heap) q (item_get_key it)) ->
  (forall e' L', wf rep e' A ({[p]} ∪ D) U L' -> link_post e p it e' -> Q 1 e') ->
  runs (do_item_link p) e Q.
Proof.
  intros HW HpA HpD Hp Hnb Hsz Hnew HQ. unfold do_item_link.
  pose proof (wf_nonnull _ _ _ _ _ _ HW HpA) as Hp0.
  destruct (wf_items _ _ _ _ _ _ HW p HpA) as (it0 & Hit0 & Hok).
  replace it0 with it in * by congruence. rewrite bool_decide_eq_false_2 in Hok by done.
  pose proof (io_flags _ _ _ _ _ _ _ Hok) as Hfl.
  destruct (item_queue _ _ _ _ _ _ _ HW HpA Hp) as (Hid & l & Hl).
  destruct (wf_queues _ _ _ _ _ _ HW) as [Hq1 _].
  assert (Hne : forall q, q ∈ D -> p <> q) by (intros q Hq ->; done).
  run. eapply runs_load; [exact Hp|]. run.
  { rewrite Hfl. by destruct (uses_cas e). } { by apply Z.ltb_lt. }
  unfold get_current_time. run. eapply runs_store; [exact Hp|].
  assert (Hlor : Z.lor it.(it_iflag) ITEM_LINKED = iflags (uses_cas e) true).
  { rewrite Hfl. by destruct (uses_cas e). }
  rewrite Hlor. set (it1 := set_it_time _ _). apply runs_bind.
  match goal with |- runs _ ?st _ => set (e1 := st) end.
  assert (Hok1 : item_ok (uses_cas e) (sizes_of e) e.(e_slabs).(s_power_largest) U p true it1)
    by (destruct Hok; by constructor).
  eapply (ki_insert e1 D p it1 (item_get_key it)).
  { eapply ki_local; [|apply HW]. intros q Hq. simpl. unfold hnexts, kviews.
    rewrite !fmap_insert, !lookup_insert_ne by auto. done. }
  { apply lookup_insert_eq. } { done. } { done. }
  { change (item_get_key it) with (item_get_key it1).
    eapply item_has_key; [apply lookup_insert_eq|exact Hok1]. }
  { intros q Hq. simpl. rewrite has_key_other by auto. by apply Hnew. } { done. }
  intros e2 Hrep2 (He2 & Hst2 & Hc2). run. unfold get_cas_id. run. simpl.
  destruct (core_lookup p it1 (core_assoc _ _ He2)) as (it2 & Hit2 & Hcore2);
    [apply lookup_insert_eq|]. unfold item_set_cas. eapply runs_store; [exact Hit2|].
  replace (e_cas_id e2) with (e_cas_id e) by (by rewrite Hst2).
  set (it3 := if has_flag it2 ITEM_WITH_CAS then _ else _).
  assert (Hcore3 : core it3 = core (linked_item e it)) by (by apply set_cas_core).
  apply runs_bind. match goal with |- runs _ ?st _ => set (e3 := st) end.
  assert (Hok3 : item_ok (uses_cas e) (sizes_of e) e.(e_slabs).(s_power_largest) U p true it3).
  { eapply item_ok_core; [exact Hcore3|]. by eapply linked_item_ok. }
  assert (Hcls : it_slabs_clsid it3 = it_slabs_clsid it).
  { destruct (core_fields _ _ Hcore3) as (_ & _ & -> & _). unfold linked_item.
    by destruct (uses_cas e). }
  assert (Hsame : forall {A} (f : hash_item -> A), f it3 = f it2 ->
    f <$> e3.(e_heap) = f <$> e2.(e_heap)).
  { intros B f Hf. by eapply fmap_insert_same. }
  assert (Hlk : lview it3 = lview it2 /\ it_h_next it3 = it_h_next it2 /\ kview it3 = kview it2)
    by (subst it3; by destruct (has_flag it2 ITEM_WITH_CAS)).
  destruct Hlk as (Hlv3 & Hhn3 & Hkv3).
  eapply (item_link_q_run e3 L p it3 l).
  { unfold lviews. rewrite (Hsame _ lview) by done. simpl. rewrite Hst2. simpl.
    eapply lru_rep_local; [apply HW|]. intros i k x Hk Hx.
    fold (lviews (e_heap e2)). rewrite (lviews_assoc _ _ He2). simpl. rewrite lviews_store.
    apply lookup_insert_ne. apply Hne, Hq1. eauto. }
  { apply lookup_insert_eq. } { done. } { rewrite Hcls. lia. }
  { by destruct (linked_flag _ _ _ _ _ _ _ Hok3). }
  { intros i k Hk Hin. apply HpD, Hq1. eauto. } { by rewrite Hcls. }
  rewrite Hcls. intros e4 Hlru4 (Hst4 & He4 & _). run.
  assert (Hcore4 : core <$> e4.(e_heap) = core <$> <[p := linked_item e it]> e.(e_heap)).
  { rewrite (core_lru _ _ He4). simpl. rewrite fmap_insert, (core_assoc _ _ He2). simpl.
    by rewrite !fmap_insert, insert_insert_eq, Hcore3. }
  assert (Hfix : fixed (set_e_cas_id (u64 (e.(e_cas_id) + 1)) e) e4).
  { rewrite Hst4. unfold e3. rewrite Hst2. done. }
  eapply (HQ e4 (<[Z.to_nat (it_slabs_clsid it) := p :: l]> L)).
  - eapply (link_wf e (set_e_heap (<[p := linked_item e it]> e.(e_heap)) e)); try done.
    + eapply ki_local; [|rewrite Hst4; exact Hrep2]. intros q _.
      rewrite (hnexts_lru _ _ He4), (kviews_core _ _ (core_lru _ _ He4)).
      unfold hnexts, kviews. by rewrite !Hsame.
    + rewrite Hst4. unfold e3. by rewrite Hst2.
    + rewrite Hst4. exact Hc2.
    + rewrite Hst4. unfold e3. by rewrite Hst2.
  - split; [done|]. split.
    + intros q Hq. rewrite <- lookup_fmap, Hcore4, lookup_fmap, lookup_insert_ne by done. done.
    + rewrite <- lookup_fmap, Hcore4, lookup_fmap, lookup_insert_eq. done.
Qed.


(** ** References *)

Lemma item_ok_ref uc sizes lg U p b it r :
  item_ok uc sizes lg U p b it -> 0 <= r < 2 ^ 16 ->
  item_ok uc sizes lg U p b (set_it_refcount r it).
Proof. intros [] Hr. by constructor. Qed.

(** Changing a part of an item that is neither its key, its flags nor its size. *)
Lemma wf_store_same e A D U L p it it' :
  wf rep e A D U L -> p ∈ A -> e.(e_heap) !! p = Some it ->
  lview it' = lview it -> it'.(it_h_next) = it.(it_h_next) -> kview it' = kview it ->
  it'.(it_time) = it.(it_time) ->
  item_ok (uses_cas e) (sizes_of e) e.(e_slabs).(s_power_largest) U p (bool_decide (p ∈ D)) it' ->
  wf rep (upd_heap (insert p it') e) A D U L.
Proof.
  intros HW HpA Hp Hl Hh Hk Ht Hok. destruct (decide (p ∈ D)) as [HpD|HpD].
  - rewrite bool_decide_eq_true_2 in Hok by done. by eapply wf_store_linked.
  - rewrite bool_decide_eq_false_2 in Hok by done. by eapply wf_store_unlinked.
Qed.

Lemma wf_get e A D U L p :
  wf rep e A D U L -> p ∈ A -> exists it, e.(e_heap) !! p = Some it /\
    item_ok (uses_cas e) (sizes_of e) e.(e_slabs).(s_power_largest) U p (bool_decide (p ∈ D)) it.
Proof. intros HW. apply (wf_items _ _ _ _ _ _ HW). Qed.

Definition released (it : hash_item) : Z :=
  if it.(it_refcount) =? 0 then 0 else it.(it_refcount) - 1.

Definition release_post (e : engine) (A D : gset Z) (p : Z) (it : hash_item) (e' : engine)
    (A' : gset Z) : Prop :=
  fixed e e' /\ keeps (fun q => q <> p) e e' /\
  if decide (released it = 0 /\ p ∉ D) then A' = A ∖ {[p]}
  else A' = A /\ core <$> (e'.(e_heap) !! p) = Some (core (set_it_refcount (released it) it)).

Lemma do_item_release_run e A D U L p it (Q : unit -> engine -> Prop) :
  wf rep e A D U L -> p ∈ A -> e.(e_heap) !! p = Some it ->
  (forall e' A' U', wf rep e' A' D U' L -> release_post e A D p it e' A' -> Q tt e') ->
  runs (do_item_release p) e Q.
Proof.
  intros HW HpA Hp HQ. unfold do_item_release.
  destruct (wf_get _ _ _ _ _ _ HW HpA) as (it0 & Hit0 & Hok).
  replace it0 with it in * by congruence. pose proof (io_ref _ _ _ _ _ _ _ Hok) as Href.
  run. eapply runs_load; [exact Hp|]. apply runs_bind.
  set (it1 := set_it_refcount (released it) it).
  assert (Hok1 : item_ok (uses_cas e) (sizes_of e) e.(e_slabs).(s_power_largest) U p
    (bool_decide (p ∈ D)) it1).
  { apply item_ok_ref; [done|]. unfold released. destruct (Z.eqb_spec (it_refcount it) 0); lia. }
  set (e1 := upd_heap (insert p it1) e).
  assert (HW1 : wf rep e1 A D U L) by (by eapply wf_store_same).
  assert (Hp1 : e1.(e_heap) !! p = Some it1) by apply lookup_insert_eq.
  assert (Hstep : forall Q', Q' tt e1 -> runs (when (negb (it_refcount it =? 0))
    (store p (set_it_refcount (u16 (it_refcount it - 1))))) e Q').
  { intros Q' HQ'. unfold e1, it1, released in HQ'. apply runs_when; intros Hz; boolify.
    - rewrite (proj2 (Z.eqb_neq _ _) Hz) in HQ'. eapply runs_store; [exact Hp|].
      rewrite u16_small by lia. exact HQ'.
    - rewrite Hz in HQ'. unfold upd_heap in HQ'. rewrite insert_id in HQ'; [by destruct e|].
      rewrite Hp. f_equal. destruct it. simpl in *. by subst. }
  apply Hstep. run. eapply runs_load; [exact Hp1|].
  destruct (linked_flag _ _ _ _ _ _ _ Hok1) as [-> _]. change (it_refcount it1) with (released it).
  assert (Hkeep1 : keeps (fun q => q <> p) e e1) by (apply keeps_insert; intros Hx; by apply Hx).
  apply runs_when; intros Hb.
  - boolify. rewrite bool_decide_eq_false in H2.
    eapply (item_free_run e1 A D U L p it1); try done.
    intros e' U' HW' Hfix Hkeep. apply (HQ e' _ U' HW'). split; [done|].
    split; [by eapply keeps_trans|]. by rewrite decide_True.
  - apply (HQ e1 A U HW1). split; [done|]. split; [done|]. rewrite decide_False.
    + split; [done|]. rewrite Hp1. done.
    + intros [Hz HpD]. rewrite Hz, bool_decide_eq_false_2 in Hb by done. done.
Qed.


(** ** Lookup *)

Definition stale (now : Z) (it : hash_item) : bool :=
  it.(it_time) <? u32 (now - ITEM_UPDATE_INTERVAL).

(** What [do_item_update] makes of a linked item. *)
Definition touched (now : Z) (it : hash_item) : hash_item :=
  if stale now it then set_it_time now it else it.

Lemma set_time_core now it it' :
  core it' = core it -> core (set_it_time now it') = core (set_it_time now it).
Proof. unfold core. destruct it, it'. simpl. intros [=]. by subst. Qed.

(** The invariant after an item was moved to the head of its queue. *)
Lemma requeue_wf e e' A D U L L' p it now :
  wf rep e A D U L -> p ∈ D -> e.(e_heap) !! p = Some it -> queues_ok e.(e_heap) D L' ->
  lru_times (<[p := set_it_time now it]> e.(e_heap)) e.(e_now) L' ->
  lru_rep (lviews e'.(e_heap)) e'.(e_items) L' ->
  core <$> e'.(e_heap) = core <$> <[p := set_it_time now it]> e.(e_heap) ->
  hnexts e'.(e_heap) = hnexts e.(e_heap) -> fixed e e' ->
  (e'.(e_assoc), e'.(e_slabs), e'.(e_calls), e'.(e_stats))
    = (e.(e_assoc), e.(e_slabs), e.(e_calls), e.(e_stats)) ->
  wf rep e' A D U L'.
Proof.
  intros HW HpD Hp Hq HT Hlru Hcore Hhn Hfix Heq. injection Heq as Ha Hs Hc Hst.
  pose proof (wf_sub _ _ _ _ _ _ HW p HpD) as HpA.
  destruct (wf_get _ _ _ _ _ _ HW HpA) as (it0 & Hit0 & Hok).
  replace it0 with it in * by congruence. rewrite bool_decide_eq_true_2 in Hok by done.
  destruct (store_linked_parts e A D U L p it (set_it_time now it)) as (Hrep & _ & Hinv & Hits & _);
    try done; [destruct Hok; by constructor|].
  constructor; rewrite ?Ha, ?Hst; try done.
  - eapply ki_local; [|exact Hrep]. intros q _. rewrite (kviews_core _ _ Hcore), Hhn. split; [|done].
    unfold hnexts. simpl. by rewrite (fmap_insert_same it_h_next _ p it).
  - rewrite (fixed_cas _ _ Hfix), Hs, Hc. eapply slab_inv_core; [exact Hinv|exact Hcore].
  - eapply items_ok_core; [exact Hits|exact Hfix|exact Hcore].
  - eapply queues_ok_core; [|exact Hcore]. destruct Hq as [Hq1 Hq2]. split; [done|].
    intros i l q Hl Hin. rewrite lookup_insert. destruct (decide (p = q)) as [<-|]; [|by eapply Hq2].
    simpl. specialize (Hq2 i l p Hl Hin). by rewrite Hp in Hq2.
  - apply HW.
  - rewrite Hs. apply HW.
  - apply HW.
  - rewrite (proj1 (fixed_now _ _ Hfix)). by apply (lru_times_core _ _ _ _ Hcore).
Qed.

(** Moving an item to the head of its queue. *)
Lemma requeue_run e A D U L p it now (Q : unit -> engine -> Prop) :
  wf rep e A D U L -> p ∈ D -> e.(e_heap) !! p = Some it -> now = e.(e_now) ->
  (forall e' L', wf rep e' A D U L' -> fixed e e' -> keeps (fun q => q <> p) e e' ->
     core <$> (e'.(e_heap) !! p) = Some (core (set_it_time now it)) -> Q tt e') ->
  runs (item_unlink_q p;; store p (set_it_time now);; item_link_q p) e Q.
Proof.
  intros HW HpD Hp Hnow HQ. pose proof (wf_sub _ _ _ _ _ _ HW p HpD) as HpA.
  destruct (wf_get _ _ _ _ _ _ HW HpA) as (it0 & Hit0 & Hok).
  replace it0 with it in * by congruence. rewrite bool_decide_eq_true_2 in Hok by done.
  destruct (linked_split _ _ _ _ _ _ _ HW HpD Hp) as (l1 & l2 & Hl).
  destruct (item_queue _ _ _ _ _ _ _ HW HpA Hp) as (Hid & _).
  pose proof (lr_nodup _ _ _ (wf_lru _ _ _ _ _ _ HW) _ _ Hl) as Hnd.
  rewrite <- Permutation_middle in Hnd. apply NoDup_cons in Hnd as [Hpn _].
  pose proof (lookup_lt_Some _ _ _ Hl) as Hlt. set (i := Z.to_nat (it_slabs_clsid it)) in *.
  pose proof (queues_remove _ _ _ _ _ _ _ _ _ (wf_queues _ _ _ _ _ _ HW) (wf_lru _ _ _ _ _ _ HW) Hl)
    as Hq1.
  run. eapply item_unlink_q_run; [apply HW|exact Hp|done|exact Hl|]. fold i.
  intros e1 Hlru1 (Hst1 & He1 & _). run.
  destruct (core_lookup p it (core_lru _ _ He1) Hp) as (it1 & Hit1 & Hcore1).
  pose proof (core_fields _ _ Hcore1) as (_ & _ & Hcls1 & _).
  eapply runs_store; [exact Hit1|]. set (it2 := set_it_time now it1).
  set (e2 := upd_heap (insert p it2) e1).
  assert (Hok2 : item_ok (uses_cas e) (sizes_of e) e.(e_slabs).(s_power_largest) U p true it2).
  { apply (item_ok_core _ _ _ _ _ _ _ _ Hcore1) in Hok. destruct Hok. by constructor. }
  assert (Hlv2 : lviews e2.(e_heap) = lviews e1.(e_heap)) by (by eapply fmap_insert_same).
  assert (Hcore2 : core <$> e2.(e_heap) = core <$> <[p := set_it_time now it]> e.(e_heap)).
  { simpl. rewrite !fmap_insert, (core_lru _ _ He1). unfold it2.
    by rewrite (set_time_core _ _ _ Hcore1). }
  eapply (item_link_q_run e2 (<[i := l1 ++ l2]> L) p it2 (l1 ++ l2)).
  { rewrite Hlv2. exact Hlru1. } { apply lookup_insert_eq. }
  { by eapply wf_nonnull. } { simpl. by rewrite Hcls1. }
  { by destruct (linked_flag _ _ _ _ _ _ _ Hok2). }
  { intros j k Hj Hin. assert (p ∈ D ∖ {[p]}) by (apply Hq1; eauto). set_solver. }
  { simpl. rewrite Hcls1. fold i. by rewrite list_lookup_insert_eq. }
  simpl. rewrite Hcls1. fold i. rewrite list_insert_insert_eq. intros e3 Hlru3 (Hst3 & He3 & _).
  assert (Hcore3 : core <$> e3.(e_heap) = core <$> <[p := set_it_time now it]> e.(e_heap)).
  { by rewrite (core_lru _ _ He3). }
  assert (Hfix : fixed e e3) by (rewrite Hst3; unfold e2; rewrite Hst1; done).
  apply (HQ e3 (<[i := p :: l1 ++ l2]> L)); [|done|..].
  - eapply (requeue_wf e); [done|done|exact Hp| | |exact Hlru3|exact Hcore3| |done|].
    + replace D with ({[p]} ∪ D ∖ {[p]}) by (by rewrite <- union_difference_singleton_L).
      rewrite <- (list_insert_insert_eq L i (p :: l1 ++ l2) (l1 ++ l2)).
      eapply queues_add; [exact Hq1|set_solver|exact Hp|lia|by apply list_lookup_insert_eq].
    + rewrite <- (list_insert_insert_eq L i (p :: l1 ++ l2) (l1 ++ l2)).
      eapply lru_times_add; [by apply list_lookup_insert_eq|apply lookup_insert_eq|done|].
      eapply lru_times_unlinked; [exact Hq1|set_solver|]. eapply lru_times_remove; [exact Hl|apply HW].
    + rewrite (hnexts_lru _ _ He3). simpl. unfold hnexts at 1.
      rewrite (fmap_insert_same _ _ p it1 it2) by done. by apply hnexts_lru.
    + rewrite Hst3. unfold e2. by rewrite Hst1.
  - intros q Hq. by rewrite <- lookup_fmap, Hcore3, lookup_fmap, lookup_insert_ne.
  - by rewrite <- lookup_fmap, Hcore3, lookup_fmap, lookup_insert_eq.
Qed.


Lemma do_item_update_run e A D U L p it (Q : unit -> engine -> Prop) :
  wf rep e A D U L -> p ∈ D -> e.(e_heap) !! p = Some it ->
  (forall e' L', wf rep e' A D U L' -> fixed e e' -> keeps (fun q => q <> p) e e' ->
     core <$> (e'.(e_heap) !! p) = Some (core (touched e.(e_now) it)) -> Q tt e') ->
  runs (do_item_update p) e Q.
Proof.
  intros HW HpD Hp HQ. pose proof (wf_sub _ _ _ _ _ _ HW p HpD) as HpA.
  destruct (wf_get _ _ _ _ _ _ HW HpA) as (it0 & Hit0 & Hok).
  replace it0 with it in * by congruence. rewrite bool_decide_eq_true_2 in Hok by done.
  destruct (linked_flag _ _ _ _ _ _ _ Hok) as [Hlf Hsf].
  unfold do_item_update, get_current_time. run. eapply runs_load; [exact Hp|].
  fold (stale e.(e_now) it). unfold touched in HQ. apply runs_when; intros Hs; rewrite Hs in HQ.
  - run; [by rewrite Hsf|]. rewrite Hlf. simpl when. by eapply requeue_run.
  - apply (HQ e L); try done. by rewrite Hp.
Qed.

(** An item that [do_item_get] no longer returns. *)
Definition dead (e : engine) (it : hash_item) : bool :=
  flushed e.(e_config).(c_oldest_live) e.(e_now) it || expired e.(e_now) it.

(** ... and what it makes of one that it returns. *)
Definition got (now : Z) (it : hash_item) : hash_item :=
  touched now (set_it_refcount (u16 (it.(it_refcount) + 1)) it).

Inductive get_post (e : engine) (A D : gset Z) (k : list Z)
    : Z -> engine -> gset Z -> gset Z -> Prop :=
| get_miss :
    (forall q, q ∈ D -> ~ has_key e.(e_heap) q k) -> get_post e A D k NULL e A D
| get_dead p it e' A' :
    p ∈ D -> e.(e_heap) !! p = Some it -> item_get_key it = k -> dead e it = true ->
    unlink_post e A D p it e' A' -> get_post e A D k NULL e' A' (D ∖ {[p]})
| get_hit p it e' :
    p ∈ D -> e.(e_heap) !! p = Some it -> item_get_key it = k -> dead e it = false ->
    fixed e e' -> keeps (fun q => q <> p) e e' ->
    core <$> (e'.(e_heap) !! p) = Some (core (got e.(e_now) it)) ->
    get_post e A D k p e' A D.

Lemma do_item_get_run e A D U L k (Q : Z -> engine -> Prop) :
  wf rep e A D U L ->
  (forall r e' A' D' U' L', wf rep e' A' D' U' L' -> get_post e A D k r e' A' D' -> Q r e') ->
  runs (do_item_get k) e Q.
Proof.
  intros HW HQ. unfold do_item_get, get_current_time. run.
  eapply ki_find; [apply HW|]. intros p Hp. run.
  destruct Hp as [[-> Hmiss]|[HpD Hkey]].
  { simpl. run. simpl. run. simpl. run. eapply HQ; [exact HW|by apply get_miss]. }
  pose proof (wf_sub _ _ _ _ _ _ HW p HpD) as HpA.
  pose proof (wf_nonnull _ _ _ _ _ _ HW HpA) as Hp0.
  destruct (wf_get _ _ _ _ _ _ HW HpA) as (it & Hit & Hok).
  rewrite bool_decide_eq_true_2 in Hok by done.
  assert (Hk : item_get_key it = k).
  { apply has_key_item in Hkey as (it' & Hit' & Hk & _). congruence. }
  assert (Hunl : dead e it = true -> forall Q' : Z -> engine -> Prop,
    (forall e', (exists A' U' L', wf rep e' A' (D ∖ {[p]}) U' L' /\
       get_post e A D k NULL e' A' (D ∖ {[p]})) -> Q' NULL e') ->
    runs (do_item_unlink p;; mret NULL) e Q').
  { intros Hd Q' HQ'. run. eapply do_item_unlink_run; [done|done|exact Hit|].
    intros e' A' U' L' HW' Hpost. run. apply HQ'. exists A', U', L'. split; [done|].
    by eapply get_dead. }
  rewrite (proj2 (Z.eqb_neq _ _) Hp0). run. eapply runs_load; [exact Hit|].
  destruct (flushed _ _ it) eqn:Hfl.
  { apply Hunl; [unfold dead; by rewrite Hfl|].
    intros e' (A' & U' & L' & HW' & Hg). run. simpl. run. simpl. run. by eapply HQ. }
  run. rewrite (proj2 (Z.eqb_neq _ _) Hp0). run. eapply runs_load; [exact Hit|].
  destruct (expired _ it) eqn:Hex.
  { apply Hunl; [unfold dead; by rewrite Hfl, Hex|].
    intros e' (A' & U' & L' & HW' & Hg). run. simpl. run. by eapply HQ. }
  run. rewrite (proj2 (Z.eqb_neq _ _) Hp0). simpl when. run.
  eapply runs_store; [exact Hit|]. set (it1 := set_it_refcount _ it).
  assert (Hok1 : item_ok (uses_cas e) (sizes_of e) e.(e_slabs).(s_power_largest) U p true it1).
  { apply item_ok_ref; [done|]. apply (wrap_fits 16). lia. }
  eapply (do_item_update_run (upd_heap (insert p it1) e) A D U L p it1);
    [by eapply wf_store_linked|done|apply lookup_insert_eq|].
  intros e' L' HW' Hfix Hkeep Hcore. run. eapply HQ; [exact HW'|].
  eapply (get_hit _ _ _ _ p it); try done.
  - unfold dead. by rewrite Hfl, Hex.
  - eapply keeps_trans; [|exact Hkeep]. apply keeps_insert. intros Hx. by apply Hx.
Qed.


(** ** Counters *)

Lemma wf_set_stats e A D U L st :
  wf rep e A D U L -> st.(st_curr_items) = e.(e_stats).(st_curr_items) ->
  wf rep (set_e_stats st e) A D U L.
Proof. intros [] Hst. constructor; try done. simpl. congruence. Qed.

Lemma upd_itemstats_run id f e A D U L (Q : unit -> engine -> Prop) :
  wf rep e A D U L -> 0 <= id < POWER_LARGEST ->
  (forall e', wf rep e' A D U L -> fixed e e' -> e'.(e_heap) = e.(e_heap) -> Q tt e') ->
  runs (upd_itemstats id f) e Q.
Proof.
  intros HW Hid HQ. unfold upd_itemstats.
  pose proof (lr_stats _ _ _ (wf_lru _ _ _ _ _ _ HW)) as Hlen.
  destruct (zlookup_lt e.(e_items).(q_itemstats) id) as [s Hs];
    [rewrite Hlen; unfold POWER_LARGEST in *; lia|].
  run; [exact Hs|apply zupdate_lt; by eapply zlookup_range|].
  apply HQ; [|done|done]. destruct HW. constructor; try done. simpl.
  destruct wf_lru0. constructor; try done. simpl. by rewrite length_insert.
Qed.

Lemma upd_stats_run f e A D U L (Q : unit -> engine -> Prop) :
  wf rep e A D U L -> (forall s, (f s).(st_curr_items) = s.(st_curr_items)) ->
  (forall e', wf rep e' A D U L -> fixed e e' -> e'.(e_heap) = e.(e_heap) -> Q tt e') ->
  runs (upd_stats f) e Q.
Proof. intros HW Hf HQ. run. apply HQ; [by apply wf_set_stats|done|done]. Qed.

Lemma adjust_requested_run id old ntotal e A D U L (Q : unit -> engine -> Prop) :
  wf rep e A D U L -> POWER_SMALLEST <= id <= e.(e_slabs).(s_power_largest) ->
  (forall e', wf rep e' A D U L -> fixed e e' -> e'.(e_heap) = e.(e_heap) -> Q tt e') ->
  runs (slabs_adjust_mem_requested id old ntotal) e Q.
Proof.
  intros HW Hid HQ. unfold slabs_adjust_mem_requested. run.
  destruct (Z.ltb_spec id POWER_SMALLEST), (Z.ltb_spec (s_power_largest (e_slabs e)) id);
    try lia. simpl. destruct (wf_slab _ _ _ _ _ _ HW) as [HS Hm].
  destruct (zlookup_lt e.(e_slabs).(s_slabclass) id) as [c Hc].
  { rewrite (sr_len _ _ _ _ _ HS). pose proof (sr_largest _ _ _ _ _ HS).
    unfold MAX_NUMBER_OF_SLAB_CLASSES, POWER_SMALLEST, POWER_LARGEST in *. lia. }
  eapply runs_upd_class; [exact Hc|]. set (c' := set_p_requested _ c).
  assert (Hsz : sizes_of (set_e_slabs (put_class id c' e.(e_slabs)) e) = sizes_of e).
  { by eapply put_class_sizes. }
  apply HQ; [|by split|done]. destruct HW. constructor; try done.
  - split; simpl; [|by eapply mem_ok_put]. eapply slab_rep_put_same; try done.
    pose proof (sr_class _ _ _ _ _ HS id c Hc) as []. by constructor.
  - intros p Hp. rewrite Hsz. by apply wf_items0.
Qed.

(** ** Allocation *)

(** An item that the search for memory does not take: it is not linked, or it is
    referenced and was used in the last three hours. *)
Definition protected (e : engine) (D : gset Z) (p : Z) (it : hash_item) : Prop :=
  p ∉ D \/ (it.(it_refcount) <> 0 /\
            (u32 (it.(it_time) + TAIL_REPAIR_TIME) <? e.(e_now)) = false).

Record shrink (e : engine) (A D : gset Z) (e' : engine) (A' D' : gset Z) : Prop := {
  sh_fixed : fixed e e';
  sh_sub : A' ⊆ A;
  sh_linked : D' = D ∩ A';
  sh_keeps : keeps (fun p => p ∈ A') e e';
  sh_protected : forall p it, p ∈ A -> e.(e_heap) !! p = Some it -> protected e D p it -> p ∈ A'
}.

Lemma shrink_same e e' A D :
  D ⊆ A -> fixed e e' -> keeps (fun p => p ∈ A) e e' -> shrink e A D e' A D.
Proof. intros HDA Hf Hk. constructor; try done. set_solver. Qed.

Lemma shrink_trans e1 A1 D1 e2 A2 D2 e3 A3 D3 :
  shrink e1 A1 D1 e2 A2 D2 -> shrink e2 A2 D2 e3 A3 D3 -> shrink e1 A1 D1 e3 A3 D3.
Proof.
  intros [Hf1 Hs1 Hl1 Hk1 Hp1] [Hf2 Hs2 Hl2 Hk2 Hp2]. constructor.
  - by eapply fixed_trans.
  - set_solver.
  - set_solver.
  - intros p Hp. rewrite (Hk2 p Hp). apply Hk1. set_solver.
  - intros p it Hp Hit Hprot. pose proof (Hp1 p it Hp Hit Hprot) as Hp'.
    specialize (Hk1 p Hp'). simpl in Hk1. rewrite Hit in Hk1.
    destruct (e_heap e2 !! p) as [it2|] eqn:Hit2; [|discriminate].
    apply (inj Some), core_fields in Hk1 as (Hr & _ & _ & Ht & _).
    apply (Hp2 p it2 Hp' Hit2). unfold protected in *. rewrite Hr, Ht.
    rewrite (proj1 (fixed_now _ _ Hf1)). set_solver.
Qed.

(** Freeing one item that is not protected. *)
Lemma shrink_one e A D e' p it :
  e.(e_heap) !! p = Some it -> p ∈ D -> D ⊆ A -> ~ protected e D p it ->
  fixed e e' -> keeps (fun q => q <> p) e e' -> shrink e A D e' (A ∖ {[p]}) (D ∖ {[p]}).
Proof.
  intros Hit HpD HDA Hnp Hf Hk. constructor; try done.
  - set_solver.
  - set_solver.
  - intros q Hq. apply Hk. set_solver.
  - intros q it' Hq Hit' Hprot. apply elem_of_difference. split; [done|].
    apply not_elem_of_singleton. intros ->. apply Hnp. by replace it with it' by congruence.
Qed.

(** A chunk of the class [id] without an item in it. *)
Definition raw_chunk (e : engine) (U : gmap Z Z) (A : gset Z) (id p : Z) : Prop :=
  p <> NULL /\ (p ∉ A) /\ U !! p = Some id /\
  POWER_SMALLEST <= id <= e.(e_slabs).(s_power_largest) /\
  exists it sz, e.(e_heap) !! p = Some it /\ it.(it_slabs_clsid) = 0 /\
    sizes_of e !! Z.to_nat id = Some sz /\
    length it.(it_body) = Z.to_nat (body_size (uses_cas e) sz).


(** The queue of a class, and the items of it. *)
Lemma class_queue e A D U L id :
  wf rep e A D U L -> POWER_SMALLEST <= id <= e.(e_slabs).(s_power_largest) ->
  0 <= id < POWER_LARGEST /\ exists l, L !! Z.to_nat id = Some l.
Proof.
  intros HW Hid. pose proof (wf_largest _ _ _ _ _ _ HW). unfold POWER_SMALLEST in *.
  split; [lia|]. apply lru_lookup_Z; [apply (wf_lru _ _ _ _ _ _ HW)|lia].
Qed.

Lemma queue_item e A D U L id l p :
  wf rep e A D U L -> 0 <= id -> L !! Z.to_nat id = Some l -> p ∈ l ->
  p ∈ D /\ forall it, e.(e_heap) !! p = Some it -> it.(it_slabs_clsid) = id.
Proof.
  intros HW Hid Hl Hp. destruct (wf_queues _ _ _ _ _ _ HW) as [Hq1 Hq2].
  split; [apply Hq1; eauto|]. intros it Hit. specialize (Hq2 _ _ _ Hl Hp).
  rewrite Hit in Hq2. simpl in Hq2. injection Hq2 as ->. lia.
Qed.

Lemma keeps_heap e e' X : e'.(e_heap) = e.(e_heap) -> keeps X e e'.
Proof. intros Hh p _. by rewrite Hh. Qed.

Lemma shrink_heap e A D U L e' :
  wf rep e A D U L -> fixed e e' -> e'.(e_heap) = e.(e_heap) -> shrink e A D e' A D.
Proof. intros HW Hf Hh. apply shrink_same; [apply HW|done|by apply keeps_heap]. Qed.

(** Taking over the chunk of a linked item without references. *)
Lemma steal_run e A D U L p it ntotal (Q : unit -> engine -> Prop) :
  wf rep e A D U L -> p ∈ D -> e.(e_heap) !! p = Some it -> it.(it_refcount) = 0 ->
  (forall e' U' L', wf rep e' (A ∖ {[p]}) (D ∖ {[p]}) U' L' ->
     shrink e A D e' (A ∖ {[p]}) (D ∖ {[p]}) ->
     raw_chunk e' U' (A ∖ {[p]}) it.(it_slabs_clsid) p -> Q tt e') ->
  runs (store p (set_it_refcount 1);;
        it ← load p;
        slabs_adjust_mem_requested it.(it_slabs_clsid) (ITEM_ntotal (uses_cas e) it) ntotal;;
        do_item_unlink p;;
        store p (fun x => set_it_refcount 0 (set_it_slabs_clsid 0 x))) e Q.
Proof.
  intros HW HpD Hp Href HQ. pose proof (wf_sub _ _ _ _ _ _ HW p HpD) as HpA.
  destruct (wf_get _ _ _ _ _ _ HW HpA) as (it0 & Hit0 & Hok).
  replace it0 with it in * by congruence. rewrite bool_decide_eq_true_2 in Hok by done.
  set (it1 := set_it_refcount 1 it). run. eapply runs_store; [exact Hp|]. fold it1.
  set (e1 := upd_heap (insert p it1) e).
  assert (HW1 : wf rep e1 A D U L).
  { eapply wf_store_linked; try done. by apply item_ok_ref. }
  run. eapply runs_load; [apply lookup_insert_eq|]. run.
  eapply adjust_requested_run; [exact HW1|by destruct Hok|]. intros e2 HW2 Hfix2 Hh2. run.
  assert (Hp2 : e2.(e_heap) !! p = Some it1) by (rewrite Hh2; apply lookup_insert_eq).
  eapply do_item_unlink_run; [exact HW2|done|exact Hp2|].
  intros e3 A3 U3 L3 HW3 (Hfix3 & Hkeep3 & _ & Hpost).
  destruct Hpost as [-> Hcore3]; [done|].
  destruct (e_heap e3 !! p) as [it3|] eqn:Hp3; [|discriminate].
  apply (inj Some) in Hcore3. pose proof (core_fields _ _ Hcore3) as (_ & _ & Hcls3 & _ & _ & _ & _ & Hb3).
  simpl in Hcls3, Hb3. eapply runs_store; [exact Hp3|]. set (it4 := set_it_refcount 0 _).
  set (e4 := upd_heap (insert p it4) e3).
  assert (Hfix : fixed e e4) by (eapply fixed_trans; [exact Hfix2|exact Hfix3]).
  destruct (wf_get _ _ _ _ _ _ HW3 HpA) as (it' & Hit' & Hok3).
  replace it' with it3 in * by congruence.
  pose proof (io_used _ _ _ _ _ _ _ Hok3) as HU3. rewrite Hcls3 in HU3.
  apply (HQ e4 U3 L3).
  - eapply (wf_drop_item e3 e4); [exact HW3|set_solver|done|done|done|done|done| |done].
    apply slab_inv_insert; [apply HW3|eauto].
  - eapply shrink_one; try done; [apply HW| |].
    + unfold protected. rewrite Href. intros [?|[? _]]; [|done]. set_solver.
    + intros q Hq. simpl. rewrite lookup_insert_ne by done. rewrite (Hkeep3 q Hq), Hh2. simpl.
      by rewrite lookup_insert_ne.
  - split; [by eapply wf_nonnull|]. split; [set_solver|]. split; [done|].
    pose proof (fixed_cas _ _ Hfix) as Huc.
    destruct Hfix as (_ & Hsz & Hlg). rewrite Hsz, Hlg, Huc. split; [apply Hok|].
    destruct (io_body _ _ _ _ _ _ _ Hok) as (sz & Hsz' & Hb).
    exists it4, sz. split; [apply lookup_insert_eq|]. split; [done|]. split; [done|].
    simpl. by rewrite Hb3, Hb.
Qed.

Lemma alloc_reclaim_run e A D U L id ntotal (Q : Z -> engine -> Prop) :
  wf rep e A D U L -> POWER_SMALLEST <= id <= e.(e_slabs).(s_power_largest) ->
  (forall r e' A' D' U' L', wf rep e' A' D' U' L' -> shrink e A D e' A' D' ->
     r = NULL \/ raw_chunk e' U' A' id r -> Q r e') ->
  runs (alloc_reclaim id ntotal) e Q.
Proof.
  intros HW Hid HQ. unfold alloc_reclaim, get_current_time.
  destruct (class_queue _ _ _ _ _ _ HW Hid) as (Hid' & l & Hl). run.
  eapply search_tail_run; [apply HW|lia|exact Hl|]. intros p [->|(Hpl & it & Hit & Htest)].
  { simpl when. run. eapply HQ; [exact HW|by eapply shrink_heap|by left]. }
  boolify. destruct (queue_item _ _ _ _ _ _ _ _ HW (proj1 Hid') Hl Hpl) as [HpD Hcls].
  specialize (Hcls it Hit). pose proof (wf_sub _ _ _ _ _ _ HW p HpD) as HpA.
  rewrite (proj2 (Z.eqb_neq _ _) (wf_nonnull _ _ _ _ _ _ HW HpA)). simpl when. apply runs_bind.
  apply runs_bind. eapply upd_stats_run; [exact HW|done|]. intros e1 HW1 Hf1 Hh1. apply runs_bind.
  eapply upd_itemstats_run; [exact HW1|done|]. intros e2 HW2 Hf2 Hh2.
  assert (Hf : fixed e e2) by (by eapply fixed_trans).
  rewrite <- (fixed_cas e e2 Hf : c_use_cas _ = c_use_cas _).
  eapply steal_run; [exact HW2|done|rewrite Hh2, Hh1; exact Hit|done|].
  intros e3 U3 L3 HW3 Hsh Hraw. rewrite Hcls in Hraw. run. eapply HQ; [exact HW3| |by right].
  eapply shrink_trans; [|exact Hsh]. eapply shrink_heap; [exact HW|done|congruence].
Qed.

(** Memory from the allocator. *)
Lemma slabs_alloc_wf e A D U L id size (Q : Z -> engine -> Prop) :
  wf rep e A D U L ->
  (forall r e' U', wf rep e' A D U' L -> shrink e A D e' A D ->
     r = NULL \/ raw_chunk e' U' A id r -> Q r e') ->
  runs (slabs_alloc size id) e Q.
Proof.
  intros HW HQ. eapply do_slabs_alloc_run; [apply HW|]. intros r e' [Hfr Hpost].
  pose proof (fixed_slab _ _ Hfr) as Hfix. pose proof Hfix as (_ & Hsz & Hlg).
  pose proof (fixed_cas _ _ Hfix) as Huc.
  destruct Hfr as (He' & Hsub & _ & _ & _).
  assert (Hin : forall p, p ∈ A -> e'.(e_heap) !! p = e.(e_heap) !! p).
  { intros p Hp. destruct (wf_get _ _ _ _ _ _ HW Hp) as (it & Hit & _). rewrite Hit.
    by eapply lookup_weaken. }
  assert (HDA : D ⊆ A) by apply HW.
  assert (Hgen : forall U', slab_inv e'.(e_heap) (uses_cas e') e'.(e_slabs) e'.(e_calls) U' ->
    (forall p, p ∈ A -> U' !! p = U !! p) -> wf rep e' A D U' L).
  { intros U' Hinv HU'. destruct (wf_queues _ _ _ _ _ _ HW) as [Hq1 Hq2].
    destruct HW. constructor; try done.
    - rewrite He'. simpl. eapply ki_local; [|exact wf_index0]. intros p Hp.
      unfold hnexts, kviews. rewrite !lookup_fmap, Hin by auto. done.
    - rewrite He'. simpl. eapply lru_rep_local; [exact wf_lru0|]. intros i l x Hl Hx.
      unfold lviews. rewrite !lookup_fmap, Hin; [done|]. apply HDA, Hq1. eauto.
    - intros p Hp. destruct (wf_items0 p Hp) as (it & Hit & []). exists it.
      rewrite Hin by done. split; [done|]. rewrite Huc, Hsz, Hlg. constructor; auto.
      by rewrite HU'.
    - split; [done|]. intros i l p Hl Hp. rewrite Hin; [by eapply Hq2|]. apply HDA, Hq1. eauto.
    - by rewrite Hlg.
    - by rewrite He'.
    - rewrite He'. simpl. eapply lru_times_ext; [|exact wf_times0]. intros i l p Hl Hp.
      rewrite Hin; [done|]. apply HDA, Hq1. eauto. }
  assert (Hsh : shrink e A D e' A D).
  { apply shrink_same; [done|done|]. intros p Hp. by rewrite Hin. }
  destruct Hpost as [[-> Hinv]|(Hr & HU & Hid & Hinv & c & it & Hc & Hit & [Hc0 _] & Hb)].
  - apply (HQ NULL e' U); [by apply Hgen|done|by left].
  - assert (HrA : r ∉ A).
    { intros HrA. destruct (wf_get _ _ _ _ _ _ HW HrA) as (it' & _ & []). congruence. }
    apply (HQ r e' (<[r := id]> U)); [|done|right].
    + apply Hgen; [done|]. intros p Hp. apply lookup_insert_ne. intros ->. done.
    + split; [done|]. split; [done|]. split; [apply lookup_insert_eq|]. rewrite Hlg. split; [done|].
      exists it, c.(p_size). split; [done|]. split; [done|]. rewrite Hsz, Huc. split; [|done].
      unfold sizes_of. apply zlookup_Some in Hc as [_ Hc]. by rewrite list_lookup_fmap, Hc.
Qed.

(** Updates of counters do not disturb the cache. *)
Definition quiet (m : E unit) : Prop := forall e A D U L, wf rep e A D U L ->
  runs m e (fun _ e' => wf rep e' A D U L /\ fixed e e' /\ e'.(e_heap) = e.(e_heap)).

Lemma quiet_seq m1 m2 : quiet m1 -> quiet m2 -> quiet (m1;; m2).
Proof.
  intros H1 H2 e A D U L HW. apply runs_bind. eapply runs_mono; [by apply H1|].
  intros _ e1 (HW1 & Hf1 & Hh1). eapply runs_mono; [by apply H2|].
  intros _ e2 (HW2 & Hf2 & Hh2). split; [done|]. split; [by eapply fixed_trans|congruence].
Qed.

Lemma quiet_when b m : quiet m -> quiet (when b m).
Proof. intros Hm e A D U L HW. apply runs_when; intros _; [by apply Hm|done]. Qed.

Lemma quiet_itemstats id f : 0 <= id < POWER_LARGEST -> quiet (upd_itemstats id f).
Proof. intros Hid e A D U L HW. eapply upd_itemstats_run; [exact HW|done|auto]. Qed.

Lemma quiet_stats f : (forall s, (f s).(st_curr_items) = s.(st_curr_items)) -> quiet (upd_stats f).
Proof. intros Hf e A D U L HW. eapply upd_stats_run; [exact HW|done|auto]. Qed.

Lemma alloc_evict_run e A D U L id (Q : unit -> engine -> Prop) :
  wf rep e A D U L -> POWER_SMALLEST <= id <= e.(e_slabs).(s_power_largest) ->
  (forall e' A' D' U' L', wf rep e' A' D' U' L' -> shrink e A D e' A' D' -> Q tt e') ->
  runs (alloc_evict id) e Q.
Proof.
  intros HW Hid HQ. unfold alloc_evict, get_current_time.
  destruct (class_queue _ _ _ _ _ _ HW Hid) as (Hid' & l & Hl). run.
  eapply search_tail_run; [apply HW|lia|exact Hl|]. intros p [->|(Hpl & it & Hit & Htest)].
  { simpl when. run. eapply HQ; [exact HW|by eapply shrink_heap]. }
  boolify. destruct (queue_item _ _ _ _ _ _ _ _ HW (proj1 Hid') Hl Hpl) as [HpD Hcls].
  pose proof (wf_sub _ _ _ _ _ _ HW p HpD) as HpA.
  rewrite (proj2 (Z.eqb_neq _ _) (wf_nonnull _ _ _ _ _ _ HW HpA)). simpl when. run.
  eapply runs_load; [exact Hit|]. apply runs_bind. eapply runs_mono.
  { match goal with |- runs ?m _ _ => assert (Hq : quiet m) end.
    { destruct (_ || _); repeat (apply quiet_seq || apply quiet_when ||
        apply quiet_itemstats || apply quiet_stats); done. }
    by apply Hq. }
  intros _ e1 (HW1 & Hf1 & Hh1).
  assert (Hit1 : e1.(e_heap) !! p = Some it) by (by rewrite Hh1).
  eapply do_item_unlink_run; [exact HW1|done|exact Hit1|].
  intros e2 A2 U2 L2 HW2 (Hf2 & Hk2 & HA2 & _). rewrite HA2 in HW2 by done.
  eapply HQ; [exact HW2|]. eapply shrink_trans; [by eapply (shrink_heap e A D U L e1)|].
  eapply shrink_one; try done; [apply HW|]. unfold protected. rewrite Htest.
  intros [?|[? _]]; done.
Qed.

Lemma alloc_tail_repair_run e A D U L id (Q : unit -> engine -> Prop) :
  wf rep e A D U L -> POWER_SMALLEST <= id <= e.(e_slabs).(s_power_largest) ->
  (forall e' A' D' U' L', wf rep e' A' D' U' L' -> shrink e A D e' A' D' -> Q tt e') ->
  runs (alloc_tail_repair id) e Q.
Proof.
  intros HW Hid HQ. unfold alloc_tail_repair, get_current_time.
  destruct (class_queue _ _ _ _ _ _ HW Hid) as (Hid' & l & Hl). run.
  eapply search_tail_run; [apply HW|lia|exact Hl|]. intros p [->|(Hpl & it & Hit & Htest)].
  { simpl when. run. eapply HQ; [exact HW|by eapply shrink_heap]. }
  apply andb_true_iff in Htest as [Href Htime].
  destruct (queue_item _ _ _ _ _ _ _ _ HW (proj1 Hid') Hl Hpl) as [HpD Hcls].
  pose proof (wf_sub _ _ _ _ _ _ HW p HpD) as HpA.
  rewrite (proj2 (Z.eqb_neq _ _) (wf_nonnull _ _ _ _ _ _ HW HpA)). simpl when. run.
  eapply upd_itemstats_run; [exact HW|done|]. intros e1 HW1 Hf1 Hh1. run.
  assert (Hit1 : e1.(e_heap) !! p = Some it) by (by rewrite Hh1).
  eapply runs_store; [exact Hit1|]. set (it2 := set_it_refcount 0 it).
  destruct (wf_get _ _ _ _ _ _ HW1 HpA) as (it' & Hit' & Hok).
  replace it' with it in * by congruence. rewrite bool_decide_eq_true_2 in Hok by done.
  set (e2 := upd_heap (insert p it2) e1).
  assert (HW2 : wf rep e2 A D U L).
  { eapply wf_store_linked; try done. by apply item_ok_ref. }
  eapply do_item_unlink_run; [exact HW2|done|apply lookup_insert_eq|].
  intros e3 A3 U3 L3 HW3 (Hf3 & Hk3 & HA3 & _). rewrite HA3 in HW3 by done.
  eapply HQ; [exact HW3|]. eapply shrink_trans; [by eapply (shrink_heap e A D U L e1)|].
  eapply shrink_one; try done; [apply HW| |].
  - unfold protected. rewrite (proj1 (fixed_now _ _ Hf1)), Htime.
    intros [?|[_ ?]]; done.
  - eapply keeps_trans; [|exact Hk3]. apply keeps_insert. intros Hx. by apply Hx.
Qed.

Lemma alloc_chunk_run e A D U L id ntotal (Q : Z -> engine -> Prop) :
  wf rep e A D U L -> POWER_SMALLEST <= id <= e.(e_slabs).(s_power_largest) ->
  (forall r e' A' D' U' L', wf rep e' A' D' U' L' -> shrink e A D e' A' D' ->
     r = NULL \/ raw_chunk e' U' A' id r -> Q r e') ->
  runs (alloc_chunk id ntotal) e Q.
Proof.
  intros HW Hid HQ. unfold alloc_chunk. run.
  destruct (class_queue _ _ _ _ _ _ HW Hid) as (Hid' & _).
  eapply alloc_reclaim_run; [exact HW|done|]. intros r1 e1 A1 D1 U1 L1 HW1 Hsh1 Hr1.
  destruct (Z.eqb_spec r1 NULL) as [->|Hr1n]; simpl; run; [|by eapply HQ].
  eapply slabs_alloc_wf; [exact HW1|]. intros r2 e2 U2 HW2 Hsh2 Hr2.
  pose proof (shrink_trans _ _ _ _ _ _ _ _ _ Hsh1 Hsh2) as Hsh12.
  destruct (Z.eqb_spec r2 NULL) as [->|Hr2n]; simpl; run; [|by eapply HQ].
  assert (Hid2 : POWER_SMALLEST <= id <= e2.(e_slabs).(s_power_largest)).
  { destruct (sh_fixed _ _ _ _ _ _ Hsh12) as (_ & _ & ->). done. }
  destruct (class_queue _ _ _ _ _ _ HW2 Hid2) as (_ & l & Hl).
  assert (Hoom : runs (upd_itemstats id (fun s => set_is_outofmemory (u32 (is_outofmemory s + 1)) s);;
    mret NULL) e2 Q).
  { run. eapply upd_itemstats_run; [exact HW2|done|]. intros e3 HW3 Hf3 Hh3. run.
    eapply HQ; [exact HW3| |by left]. eapply shrink_trans; [exact Hsh12|by eapply shrink_heap]. }
  destruct (negb _); [exact Hoom|]. apply runs_bind.
  eapply runs_get_tail; [apply HW2|lia|exact Hl|].
  destruct (lastd NULL l =? NULL); [exact Hoom|]. clear Hoom. run.
  eapply alloc_evict_run; [exact HW2|done|]. intros e3 A3 D3 U3 L3 HW3 Hsh3. run.
  pose proof (shrink_trans _ _ _ _ _ _ _ _ _ Hsh12 Hsh3) as Hsh13.
  eapply slabs_alloc_wf; [exact HW3|]. intros r4 e4 U4 HW4 Hsh4 Hr4.
  pose proof (shrink_trans _ _ _ _ _ _ _ _ _ Hsh13 Hsh4) as Hsh14.
  destruct (Z.eqb_spec r4 NULL) as [->|Hr4n]; simpl; run; [|by eapply HQ].
  eapply upd_itemstats_run; [exact HW4|done|]. intros e5 HW5 Hf5 Hh5. run.
  pose proof (shrink_trans _ _ _ _ _ _ _ _ _ Hsh14 (shrink_heap _ _ _ _ _ _ HW4 Hf5 Hh5)) as Hsh15.
  eapply alloc_tail_repair_run; [exact HW5| |].
  { destruct (sh_fixed _ _ _ _ _ _ Hsh15) as (_ & _ & ->). done. }
  intros e6 A6 D6 U6 L6 HW6 Hsh6.
  eapply slabs_alloc_wf; [exact HW6|]. intros r7 e7 U7 HW7 Hsh7 Hr7.
  eapply HQ; [exact HW7| |done].
  eapply shrink_trans; [exact Hsh15|]. by eapply shrink_trans.
Qed.


(** The fields [do_item_alloc] sets. *)
Record new_item (key : list Z) (flags exptime nbytes datatype : Z) (it : hash_item) : Prop := {
  ni_key : item_get_key it = key;
  ni_nkey : it.(it_nkey) = Z.of_nat (length key);
  ni_flags : it.(it_flags) = u32 flags;
  ni_exptime : it.(it_exptime) = exptime;
  ni_nbytes : it.(it_nbytes) = nbytes;
  ni_datatype : it.(it_datatype) = datatype;
  ni_ref : it.(it_refcount) = 1
}.

Lemma splice_prefix (dst src : list Z) :
  (length src <= length dst)%nat ->
  splice dst 0 src = Some (src ++ drop (length src) dst).
Proof.
  intros Hl. unfold splice. simpl. rewrite (proj2 (Z.leb_le _ _)) by lia. done.
Qed.

(** A raw chunk can be made an item. *)
Lemma wf_add_item e e' A D U L p it' :
  wf rep e A D U L -> p ∉ A -> e'.(e_heap) = <[p := it']> e.(e_heap) ->
  e' = set_e_heap e'.(e_heap) e ->
  item_ok (uses_cas e) (sizes_of e) e.(e_slabs).(s_power_largest) U p false it' ->
  wf rep e' ({[p]} ∪ A) D U L.
Proof.
  intros HW HpA Hh He' Hok. pose proof (wf_queues _ _ _ _ _ _ HW) as [Hq1 Hq2].
  assert (HDA : D ⊆ A) by apply HW.
  assert (Hne : forall q, q ∈ D -> p <> q) by (intros q Hq ->; set_solver).
  rewrite He', Hh. destruct HW. constructor; simpl; try done.
  - eapply ki_local; [|exact wf_index0]. intros q Hq. unfold hnexts, kviews.
    rewrite !fmap_insert, !lookup_insert_ne by auto. done.
  - eapply lru_rep_local; [exact wf_lru0|]. intros i l x Hl Hx. rewrite lviews_store.
    apply lookup_insert_ne. apply Hne. apply Hq1. eauto.
  - apply slab_inv_insert; [done|]. destruct Hok. eauto.
  - intros q Hq. simpl. rewrite lookup_insert. destruct (decide (p = q)) as [<-|].
    + exists it'. split; [done|]. by rewrite bool_decide_eq_false_2 by set_solver.
    + apply wf_items0. set_solver.
  - split; [done|]. intros i l q Hl Hin. rewrite lookup_insert_ne; [by eapply Hq2|].
    apply Hne. apply Hq1. eauto.
  - set_solver.
  - eapply lru_times_unlinked; [done| |done]. set_solver.
Qed.

Lemma first_fit_body e size id c :
  first_fit e.(e_slabs) size id -> id <> 0 -> zlookup e.(e_slabs).(s_slabclass) id = Some c ->
  POWER_SMALLEST <= id <= e.(e_slabs).(s_power_largest) /\ size <= c.(p_size).
Proof.
  intros [[? _]|(Hid & (c' & Hc' & Hsz) & _)] Hn Hc; [done|]. split; [done|]. congruence.
Qed.

Lemma shrink_write e A D e1 A1 D1 e' p :
  shrink e A D e1 A1 D1 -> p ∉ A1 -> fixed e1 e' -> keeps (fun q => q <> p) e1 e' ->
  shrink e A D e' A1 D1.
Proof.
  intros [Hf Hs Hl Hk Hp] HpA Hf' Hk'. constructor; try done; [by eapply fixed_trans|].
  intros q Hq. rewrite (Hk' q); [by apply Hk|]. intros ->. done.
Qed.

(** The part of [do_item_alloc] that fills the chunk [p]. *)
Lemma fill_item_run e A D U L id p key flags exptime nbytes datatype sz (Q : Z -> engine -> Prop) :
  wf rep e A D U L -> raw_chunk e U A id p -> sizes_of e !! Z.to_nat id = Some sz ->
  Z.of_nat (length key) < 2 ^ 16 -> 0 <= nbytes < 2 ^ 31 ->
  sizeof_hash_item + Z.of_nat (length key) + nbytes + (if uses_cas e then 8 else 0) <= sz ->
  (forall e' it, wf rep e' ({[p]} ∪ A) D U L -> fixed e e' -> keeps (fun q => q <> p) e e' ->
     e'.(e_heap) !! p = Some it -> new_item key flags exptime nbytes datatype it -> Q p e') ->
  runs (x ← load p;
        cassert (x.(it_slabs_clsid) =? 0);;
        store p (set_it_slabs_clsid (u8 id));;
        head ← get_head (u8 id);
        cassert (negb (p =? head));;
        store p (fun x =>
          set_it_datatype datatype (set_it_flags (u32 flags) (set_it_nbytes (u32 nbytes)
            (set_it_nkey (u16 (Z.of_nat (length key)))
              (set_it_iflag (if uses_cas e then ITEM_WITH_CAS else 0)
              (set_it_refcount 1 (set_it_h_next NULL (set_it_prev NULL (set_it_next NULL x)))))))));;
        write_key p key;;
        store p (set_it_exptime exptime);;
        mret p) e Q.
Proof.
  intros HW (Hp0 & HpA & HU & Hid & it & sz' & Hit & Hc0 & Hsz' & Hb) Hsz Hkey Hnb Hfit HQ.
  replace sz' with sz in * by congruence. clear sz' Hsz'.
  destruct (class_queue _ _ _ _ _ _ HW Hid) as (Hid' & l & Hl).
  assert (Hpl : p ∉ l).
  { intros Hin. apply HpA. apply (wf_sub _ _ _ _ _ _ HW).
    apply (wf_queues _ _ _ _ _ _ HW). eauto. }
  assert (Hu8 : u8 id = id) by (apply (wrap_small 8); unfold fits, POWER_LARGEST in *; lia).
  assert (Hlen : Z.of_nat (length key) + nbytes <= Z.of_nat (length (it_body it))).
  { rewrite Hb. unfold body_size. destruct (uses_cas e); lia. }
  rewrite Hu8, (u32_small nbytes), (u16_small (Z.of_nat _)) by lia.
  run. eapply runs_load; [exact Hit|]. run; [by apply Z.eqb_eq|].
  eapply runs_store; [exact Hit|]. unfold get_head at 1. run.
  { apply zlookup_Some. split; [lia|]. simpl. by eapply (lru_head _ _ _ _ _ (wf_lru _ _ _ _ _ _ HW)). }
  { apply negb_true_iff, Z.eqb_neq, not_eq_sym. by apply hdd_notin. }
  eapply runs_store; [apply lookup_insert_eq|]. unfold write_key. run.
  eapply runs_load; [apply lookup_insert_eq|]. run; [simpl; apply splice_prefix; lia|].
  eapply runs_store; [apply lookup_insert_eq|]. run.
  eapply runs_store; [apply lookup_insert_eq|]. run.
  match goal with |- Q _ (upd_heap (insert p ?i) _) => set (it' := i) end.
  eapply (HQ _ it').
  - eapply (wf_add_item e); [exact HW|done| |by destruct e|].
    { simpl. by rewrite !insert_insert_eq. }
    constructor; simpl; try done; try lia.
    + exists sz. split; [done|]. rewrite <- Hb, length_app, length_drop. lia.
    + rewrite length_app, length_drop. lia.
    + unfold iflags. by destruct (uses_cas e).
  - done.
  - intros q Hq. simpl. by rewrite !lookup_insert_ne.
  - apply lookup_insert_eq.
  - constructor; try done. unfold item_get_key. simpl. by rewrite Nat2Z.id, take_app_length.
Qed.


Lemma do_item_alloc_run e A D U L key flags exptime nbytes datatype (Q : Z -> engine -> Prop) :
  wf rep e A D U L -> Z.of_nat (length key) < 2 ^ 16 -> 0 <= nbytes < 2 ^ 31 ->
  (forall e' A' D' U' L', wf rep e' A' D' U' L' -> shrink e A D e' A' D' -> Q NULL e') ->
  (forall r e' A' D' U' L' it, wf rep e' ({[r]} ∪ A') D' U' L' -> shrink e A D e' A' D' ->
     r <> NULL -> r ∉ A' -> e'.(e_heap) !! r = Some it ->
     new_item key flags exptime nbytes datatype it -> Q r e') ->
  runs (do_item_alloc key flags exptime nbytes datatype) e Q.
Proof.
  intros HW Hkey Hnb HQ0 HQ. unfold do_item_alloc. run.
  destruct (wf_slab _ _ _ _ _ _ HW) as [HS Hm].
  pose proof (sr_largest _ _ _ _ _ HS) as Hlg. pose proof (sr_len _ _ _ _ _ HS) as Hlen.
  fold (uses_cas e). rewrite u64_small by (unfold sizeof_hash_item; destruct (uses_cas e); lia).
  apply slabs_clsid_run.
  { rewrite Hlen. unfold MAX_NUMBER_OF_SLAB_CLASSES, POWER_SMALLEST, POWER_LARGEST in *. lia. }
  intros id Hff. destruct (Z.eqb_spec id 0) as [->|Hid0].
  { run. eapply HQ0; [exact HW|by eapply shrink_heap]. }
  assert (Hid : POWER_SMALLEST <= id <= e.(e_slabs).(s_power_largest)).
  { destruct Hff as [[? _]|[? _]]; done. }
  destruct (class_queue _ _ _ _ _ _ HW Hid) as (Hid' & _).
  run. eapply alloc_chunk_run; [exact HW|done|]. intros p e1 A1 D1 U1 L1 HW1 Hsh Hp.
  destruct (Z.eqb_spec p NULL) as [->|Hp0]; [run; by eapply HQ0|].
  destruct Hp as [?|Hraw]; [done|].
  pose proof (sh_fixed _ _ _ _ _ _ Hsh) as Hfix. pose proof (fixed_cas _ _ Hfix) as Huc.
  destruct (zlookup_lt e.(e_slabs).(s_slabclass) id) as [c Hc].
  { rewrite Hlen. unfold MAX_NUMBER_OF_SLAB_CLASSES, POWER_SMALLEST, POWER_LARGEST in *. lia. }
  destruct (first_fit_body _ _ _ _ Hff Hid0 Hc) as [_ Hsz].
  rewrite <- Huc. eapply (fill_item_run e1 A1 D1 U1 L1 id p); [exact HW1|done| |done|done| |].
  { destruct Hfix as (_ & -> & _). unfold sizes_of. apply zlookup_Some in Hc as [_ Hc].
    by rewrite list_lookup_fmap, Hc. }
  { rewrite Huc. exact Hsz. }
  intros e2 it HW2 Hfix2 Hkeep2 Hit Hnew.
  eapply HQ; [exact HW2| |done|apply Hraw|exact Hit|exact Hnew].
  eapply shrink_write; [exact Hsh|apply Hraw|done|done].
Qed.

(** ** The abstract cache *)

Lemma keys_unique e A D U L p q it it' :
  wf rep e A D U L -> p ∈ D -> q ∈ D -> e.(e_heap) !! p = Some it -> e.(e_heap) !! q = Some it' ->
  item_get_key it = item_get_key it' -> p = q.
Proof.
  intros HW Hp Hq Hit Hit' Hk. pose proof (wf_sub _ _ _ _ _ _ HW) as HDA.
  destruct (wf_get _ _ _ _ _ _ HW (HDA _ Hp)) as (it1 & Hit1 & Hok1).
  destruct (wf_get _ _ _ _ _ _ HW (HDA _ Hq)) as (it2 & Hit2 & Hok2).
  replace it1 with it in * by congruence. replace it2 with it' in * by congruence.
  eapply (ki_uniq _ _ _ p q (item_get_key it) (wf_index _ _ _ _ _ _ HW)); try done.
  - by eapply item_has_key.
  - rewrite Hk. by eapply item_has_key.
Qed.

(** There is an entry for each linked item. *)
Lemma abs_size (e : engine) (A D : gset Z) (U : gmap Z Z) (L : list (list Z)) (m : gmap (list Z) value) :
  wf rep e A D U L -> abs e.(e_heap) D m -> (size D <= size m)%nat.
Proof.
  intros HW Habs. set (key := fun p => default [] (item_get_key <$> (e.(e_heap) !! p))).
  assert (Hitem : forall p, p ∈ D -> exists it, e.(e_heap) !! p = Some it /\ key p = item_get_key it).
  { intros p Hp. destruct (wf_get _ _ _ _ _ _ HW (wf_sub _ _ _ _ _ _ HW p Hp)) as (it & Hit & _).
    exists it. unfold key. by rewrite Hit. }
  assert (Hnd : NoDup (key <$> elements D)).
  { apply NoDup_fmap_2_strong; [|apply NoDup_elements]. intros p q Hp%elem_of_elements Hq%elem_of_elements Hpq.
    destruct (Hitem p Hp) as (it & Hit & Hk), (Hitem q Hq) as (it' & Hit' & Hk').
    apply (keys_unique e A D U L p q it it' HW Hp Hq Hit Hit'). congruence. }
  assert (Hsub : (key <$> elements D) ⊆+ elements (dom m)).
  { apply NoDup_submseteq; [done|]. intros k (p & -> & Hp)%list_elem_of_fmap.
    apply elem_of_elements in Hp. destruct (Hitem p Hp) as (it & Hit & ->).
    apply elem_of_elements, elem_of_dom. exists (item_value it). apply Habs. eauto 10. }
  apply submseteq_length in Hsub. rewrite length_fmap in Hsub. rewrite <- size_dom. exact Hsub.
Qed.

Lemma keeps_item (X : Z -> Prop) e e' p it :
  keeps X e e' -> X p -> e.(e_heap) !! p = Some it ->
  exists it', e'.(e_heap) !! p = Some it' /\ core it' = core it.
Proof.
  intros Hk HX Hp. specialize (Hk p HX). rewrite Hp in Hk.
  destruct (e'.(e_heap) !! p) as [it'|]; [|discriminate]. apply (inj Some) in Hk. eauto.
Qed.

Lemma keeps_item_inv (X : Z -> Prop) e e' p it' :
  keeps X e e' -> X p -> e'.(e_heap) !! p = Some it' ->
  exists it, e.(e_heap) !! p = Some it /\ core it' = core it.
Proof.
  intros Hk HX Hp. specialize (Hk p HX). rewrite Hp in Hk.
  destruct (e.(e_heap) !! p) as [it|]; [|discriminate]. apply (inj Some) in Hk. eauto.
Qed.

(** Only what happens to the linked items matters. *)
Lemma abs_iff (e e' : engine) D m :
  abs e.(e_heap) D m -> keeps (fun p => p ∈ D) e e' -> abs e'.(e_heap) D m.
Proof.
  intros Habs Hk k v. rewrite (Habs k v). split.
  - intros (p & it & Hp & Hit & Hki & Hv).
    destruct (keeps_item _ _ _ _ _ Hk Hp Hit) as (it' & Hit' & Hc).
    destruct (core_value _ _ Hc) as (Hv' & Hk' & _). exists p, it'. repeat split; congruence.
  - intros (p & it' & Hp & Hit' & Hki & Hv).
    destruct (keeps_item_inv _ _ _ _ _ Hk Hp Hit') as (it & Hit & Hc).
    destruct (core_value _ _ Hc) as (Hv' & Hk' & _). exists p, it. repeat split; congruence.
Qed.

Lemma abs_remove e A D U L e' m p it :
  wf rep e A D U L -> abs e.(e_heap) D m -> p ∈ D -> e.(e_heap) !! p = Some it ->
  keeps (fun q => q <> p) e e' ->
  abs e'.(e_heap) (D ∖ {[p]}) (delete (item_get_key it) m).
Proof.
  intros HW Habs HpD Hp Hk.
  assert (Habs1 : abs e.(e_heap) (D ∖ {[p]}) (delete (item_get_key it) m)).
  { intros k v. rewrite lookup_delete_Some, (Habs k v). split.
    - intros [Hne (q & itq & Hq & Hitq & Hkq & Hv)]. exists q, itq. split; [|done].
      apply elem_of_difference. split; [done|]. apply not_elem_of_singleton. intros ->. congruence.
    - intros (q & itq & [Hq Hqp]%elem_of_difference & Hitq & Hkq & Hv). split.
      + intros Heq. apply Hqp, elem_of_singleton.
        by eapply (keys_unique e A D U L q p); [done|done|done|exact Hitq|exact Hp|congruence].
      + eauto 10. }
  eapply abs_iff; [exact Habs1|]. eapply keeps_weaken; [|exact Hk]. intros q. set_solver.
Qed.

Lemma abs_add e A D U L e' m p it' :
  wf rep e A D U L -> abs e.(e_heap) D m -> p ∉ D -> m !! item_get_key it' = None ->
  keeps (fun q => q <> p) e e' -> core <$> (e'.(e_heap) !! p) = Some (core it') ->
  abs e'.(e_heap) ({[p]} ∪ D) (<[item_get_key it' := item_value it']> m).
Proof.
  intros HW Habs HpD Hnone Hk Hcore. destruct (e'.(e_heap) !! p) as [it''|] eqn:Hp; [|discriminate].
  apply (inj Some) in Hcore. destruct (core_value _ _ Hcore) as (Hv' & Hk' & _).
  assert (HabsD : abs e'.(e_heap) D m).
  { eapply abs_iff; [exact Habs|]. eapply keeps_weaken; [|exact Hk]. intros q Hq ->. done. }
  intros k v. rewrite lookup_insert_Some, (HabsD k v). split.
  - intros [[<- <-]|[Hne (q & itq & Hq & Hrest)]].
    + exists p, it''. split; [set_solver|]. auto.
    + exists q, itq. split; [set_solver|done].
  - intros (q & itq & [->%elem_of_singleton|Hq]%elem_of_union & Hitq & Hkq & Hvq).
    + left. split; congruence.
    + right. split; [|eauto 10]. intros Heq.
      assert (Hin : m !! k = Some v) by (apply HabsD; eauto 10). congruence.
Qed.

Lemma abs_update e A D U L e' m p it it' :
  wf rep e A D U L -> abs e.(e_heap) D m -> p ∈ D -> e.(e_heap) !! p = Some it ->
  item_get_key it' = item_get_key it ->
  keeps (fun q => q <> p) e e' -> core <$> (e'.(e_heap) !! p) = Some (core it') ->
  abs e'.(e_heap) D (<[item_get_key it := item_value it']> m).
Proof.
  intros HW Habs HpD Hp Hkey Hk Hcore.
  pose proof (abs_remove e A D U L e m p it HW Habs HpD Hp) as Hrem.
  destruct (e'.(e_heap) !! p) as [it''|] eqn:Hp'; [|discriminate].
  apply (inj Some) in Hcore. destruct (core_value _ _ Hcore) as (Hv' & Hk' & _).
  assert (HabsD : abs e'.(e_heap) (D ∖ {[p]}) (delete (item_get_key it) m)).
  { eapply abs_remove; eauto. }
  intros k v. rewrite <- insert_delete_eq, lookup_insert_Some, (HabsD k v). split.
  - intros [[<- <-]|[Hne (q & itq & Hq & Hrest)]].
    + exists p, it''. split; [done|]. split; [done|]. split; congruence.
    + exists q, itq. split; [set_solver|done].
  - intros (q & itq & Hq & Hitq & Hkq & Hvq). destruct (decide (q = p)) as [->|Hne].
    + left. split; congruence.
    + assert (Hin : delete (item_get_key it) m !! k = Some v).
      { apply HabsD. exists q, itq. split; [set_solver|done]. }
      right. split; [|by apply HabsD]. intros <-. by rewrite lookup_delete_eq in Hin.
Qed.


(** Allocation may make the cache forget entries, and nothing else. *)
Definition live_keys (h : gmap Z hash_item) (D : gset Z) : gset (list Z) :=
  list_to_set (omap (fun p => item_get_key <$> (h !! p)) (elements D)).

Lemma elem_of_live_keys h D k :
  k ∈ live_keys h D <-> exists p it, p ∈ D /\ h !! p = Some it /\ item_get_key it = k.
Proof.
  unfold live_keys. rewrite elem_of_list_to_set, list_elem_of_omap. split.
  - intros (p & Hp%elem_of_elements & Hk). destruct (h !! p) as [it|] eqn:Hit; [|discriminate].
    injection Hk as Hk. eauto.
  - intros (p & it & Hp & Hit & Hk). exists p. rewrite elem_of_elements, Hit. simpl. by rewrite Hk.
Qed.

Lemma abs_shrink e A D U L e' A' D' m :
  wf rep e A D U L -> abs e.(e_heap) D m -> shrink e A D e' A' D' ->
  exists m', abs e'.(e_heap) D' m' /\ m' ⊆ m.
Proof.
  intros HW Habs [Hf Hs -> Hk Hp]. exists (filter (fun kv => kv.1 ∈ live_keys e.(e_heap) (D ∩ A')) m).
  split; [|apply map_filter_subseteq].
  apply (abs_iff e); [|eapply keeps_weaken; [|exact Hk]; intros q; set_solver].
  intros k v. rewrite map_lookup_filter_Some, (Habs k v), elem_of_live_keys. simpl. split.
  - intros [(p & it & HpD & Hit & Hki & Hv) (q & itq & Hq & Hitq & Hkq)].
    assert (p = q) as -> by (eapply (keys_unique e A D U L p q); eauto; [set_solver|congruence]).
    exists q, it. auto.
  - intros (p & it & HpD & Hit & Hki & Hv). split; [exists p, it; set_solver|]. eauto 10.
Qed.

(** ** Replacing *)

Lemma unlink_value uc it :
  item_get_key (set_it_iflag (iflags uc false) it) = item_get_key it.
Proof. done. Qed.

Lemma linked_item_value e it :
  it.(it_iflag) = iflags (uses_cas e) false ->
  item_get_key (linked_item e it) = item_get_key it /\
  item_value (linked_item e it)
    = mk_value e.(e_now) it.(it_exptime) it.(it_flags) it.(it_datatype)
        (if uses_cas e then u64 (e.(e_cas_id) + 1) else 0) (item_get_data it it.(it_nbytes)).
Proof.
  intros Hf. unfold linked_item, item_value, item_get_cas, has_flag. destruct (uses_cas e); done.
Qed.

Lemma no_other_key e A D U L p it :
  wf rep e A D U L -> p ∈ D -> e.(e_heap) !! p = Some it ->
  forall q, q ∈ D ∖ {[p]} -> ~ has_key e.(e_heap) q (item_get_key it).
Proof.
  intros HW Hp Hit q [Hq Hqp]%elem_of_difference Hk.
  apply has_key_item in Hk as (itq & Hitq & Hkq & _). apply Hqp, elem_of_singleton.
  by eapply (keys_unique e A D U L q p).
Qed.

Lemma has_key_core e e' p k :
  core <$> (e'.(e_heap) !! p) = core <$> (e.(e_heap) !! p) ->
  has_key e'.(e_heap) p k -> has_key e.(e_heap) p k.
Proof.
  intros Hc (it' & Hit' & Hk & Hn)%has_key_item. rewrite Hit' in Hc.
  destruct (e.(e_heap) !! p) as [it|] eqn:Hit; [|discriminate]. apply (inj Some) in Hc.
  destruct (core_value _ _ Hc) as (_ & Hk' & _). destruct (core_fields _ _ Hc) as (_&_&_&_&_&Hn'&_).
  apply has_key_item. exists it. split; [done|]. split; congruence.
Qed.

Definition replace_post (e : engine) (p q : Z) (it itq : hash_item) (e' : engine) : Prop :=
  fixed (set_e_cas_id (u64 (e.(e_cas_id) + 1)) e) e' /\
  keeps (fun x => x <> p /\ x <> q) e e' /\
  core <$> (e'.(e_heap) !! p) = Some (core (set_it_iflag (iflags (uses_cas e) false) it)) /\
  core <$> (e'.(e_heap) !! q) = Some (core (linked_item e itq)).

Lemma fixed_linked e e1 it it1 :
  fixed e e1 -> core it1 = core it -> core (linked_item e1 it1) = core (linked_item e it).
Proof.
  intros Hf Hc. pose proof (fixed_cas _ _ Hf) as Huc. destruct (fixed_now _ _ Hf) as [Hn _].
  assert (Hcas : e_cas_id e1 = e_cas_id e).
  { destruct Hf as [Hr _]. unfold rest in Hr. by injection Hr as _ _ _ _ _ _ ->. }
  unfold linked_item. rewrite Huc, Hn, Hcas. unfold core in *. destruct it, it1. simpl in *.
  injection Hc as ? ? ? ? ? ? ? ? ? ? ?. subst. by destruct (uses_cas e).
Qed.

Lemma do_item_replace_run e A D U L p q it itq m (Q : Z -> engine -> Prop) :
  wf rep e A D U L -> abs e.(e_heap) D m ->
  p ∈ D -> e.(e_heap) !! p = Some it -> it.(it_refcount) <> 0 ->
  q ∈ A -> q ∉ D -> e.(e_heap) !! q = Some itq -> item_get_key itq = item_get_key it ->
  itq.(it_nbytes) < 1024 * 1024 -> Z.of_nat (size D) < 2 ^ 30 ->
  (forall e' U' L', wf rep e' A ({[q]} ∪ D ∖ {[p]}) U' L' ->
     abs e'.(e_heap) ({[q]} ∪ D ∖ {[p]})
       (<[item_get_key itq := item_value (linked_item e itq)]> m) ->
     replace_post e p q it itq e' -> Q 1 e') ->
  runs (do_item_replace p q) e Q.
Proof.
  intros HW Habs HpD Hp Href HqA HqD Hq Hkey Hnb Hsz HQ. unfold do_item_replace.
  pose proof (wf_sub _ _ _ _ _ _ HW) as HDA. assert (Hpq : q <> p) by (intros ->; done).
  destruct (wf_get _ _ _ _ _ _ HW (HDA p HpD)) as (it0 & Hit0 & Hok).
  replace it0 with it in * by congruence. destruct (linked_flag _ _ _ _ _ _ _ Hok) as [_ Hsf].
  destruct (wf_get _ _ _ _ _ _ HW HqA) as (itq0 & Hitq0 & Hokq).
  replace itq0 with itq in * by congruence. rewrite bool_decide_eq_false_2 in Hokq by done.
  run. eapply runs_load; [exact Hp|]. run; [by rewrite Hsf|].
  eapply do_item_unlink_run; [exact HW|done|exact Hp|].
  intros e1 A1 U1 L1 HW1 (Hf1 & Hk1 & _ & Hpost). destruct Hpost as [-> Hcp]; [done|].
  pose proof (abs_remove _ _ _ _ _ _ _ _ _ HW Habs HpD Hp Hk1) as Habs1.
  destruct (keeps_item _ _ _ _ _ Hk1 Hpq Hq) as (itq1 & Hq1 & Hcq1).
  destruct (core_value _ _ Hcq1) as (_ & Hkq1 & _).
  destruct (core_fields _ _ Hcq1) as (_&_&_&_&_&_&Hnb1&_).
  eapply do_item_link_run; [exact HW1|done|set_solver|exact Hq1|by rewrite Hnb1|..].
  { assert (size (D ∖ {[p]}) <= size D)%nat by (apply subseteq_size; set_solver). lia. }
  { intros x Hx Hxk. rewrite Hkq1, Hkey in Hxk. apply (no_other_key e A D U L p it HW HpD Hp x Hx).
    eapply has_key_core; [|exact Hxk]. apply Hk1. set_solver. }
  intros e2 L2 HW2 (Hf2 & Hk2 & Hcq2).
  assert (Hlq : core (linked_item e1 itq1) = core (linked_item e itq)) by (by apply fixed_linked).
  rewrite Hlq in Hcq2.
  assert (Hcas : e_cas_id e1 = e_cas_id e).
  { destruct Hf1 as [Hr _]. unfold rest in Hr. by injection Hr as _ _ _ _ _ _ ->. }
  apply (HQ e2 U1 L2 HW2).
  - destruct (linked_item_value e itq (io_flags _ _ _ _ _ _ _ Hokq)) as [Hkl _].
    rewrite <- Hkl. replace (<[_ := _]> m)
      with (<[item_get_key (linked_item e itq) := item_value (linked_item e itq)]>
              (delete (item_get_key it) m)) by (rewrite Hkl, Hkey; apply insert_delete_eq).
    eapply abs_add; [exact HW1|exact Habs1|set_solver| |exact Hk2|exact Hcq2].
    rewrite Hkl, Hkey. apply lookup_delete_eq.
  - split; [|split; [|split]].
    + eapply fixed_trans; [|exact Hf2]. rewrite Hcas.
      destruct Hf1 as (Hr & Hs & Hl). split; [|by split]. unfold rest in *. simpl. congruence.
    + intros x [Hx1 Hx2]. rewrite (Hk2 x Hx2). by apply Hk1.
    + rewrite (Hk2 p) by congruence. done.
    + done.
Qed.

End proofs.
