(* ===== verification/Refs.v ===== *)
(** * Reference counts

    What an operation of [items.c] does to the reference counts of the items. A
    history is described by the list of the references that were taken and not given
    back, so that a request that gives back all it took is one whose list is empty. *)
From Stdlib Require Import ZArith Lia SpecFloat.
From stdpp Require Import strings gmap prelude.
From S2P Require Import Prelude Util EngineState Assoc Slabs Items Lru Cache.

#[local] Set Warnings "-clear-no-such-hyp".

(** ** Bounds on the counts *)

(** No item [q] of [A] has more than [b q] references. *)
Definition refs_at (e : engine) (A : gset Z) (b : Z -> nat) : Prop :=
  forall q it, q ∈ A -> e.(e_heap) !! q = Some it -> it.(it_refcount) <= Z.of_nat (b q).

(** One more reference to [p]. *)
Definition bump (p : Z) (b : Z -> nat) : Z -> nat :=
  fun q => if decide (q = p) then S (b q) else b q.

Definition more (l : list Z) (b : Z -> nat) : Z -> nat := foldr bump b l.

Lemma bump_le p b q : (b q <= bump p b q)%nat.
Proof. unfold bump. destruct (decide _); lia. Qed.

Lemma more_app l1 l2 b : more (l1 ++ l2) b = more l1 (more l2 b).
Proof. apply foldr_app. Qed.

Lemma more_perm l l' b q : l ≡ₚ l' -> more l b q = more l' b q.
Proof.
  intros Hp. induction Hp as [|x l l' _ IH|x y l|l1 l2 l3 _ IH1 _ IH2]; simpl; [done| | |congruence].
  - unfold bump. by rewrite IH.
  - unfold bump. by destruct (decide (q = x)), (decide (q = y)).
Qed.

(** A bound that is the same for all the items. *)
Lemma more_const l n q : (more l (fun _ => n) q <= n + length l)%nat.
Proof.
  induction l as [|p l IH]; simpl; [lia|]. unfold bump at 1. destruct (decide _); lia.
Qed.

Lemma refs_at_weaken e A (b b' : Z -> nat) :
  (forall q, (b q <= b' q)%nat) -> refs_at e A b -> refs_at e A b'.
Proof. intros Hb Hr q it Hq Hit. specialize (Hr q it Hq Hit). specialize (Hb q). lia. Qed.

(** ** Histories *)

(** From the state [e0] with the items [A0] to [e] with [A], with the references [l]
    taken in between; what no operation of [items.c] changes is the same. *)
Record since (e0 : engine) (A0 : gset Z) (l : list Z) (e : engine) (A : gset Z) : Prop := {
  since_fixed : fixed e0 e;
  since_refs : forall b, refs_at e0 A0 b -> refs_at e A (more l b)
}.

Lemma since_refl e A : since e A [] e A.
Proof. split; [apply fixed_refl|done]. Qed.

Lemma since_trans e0 A0 l0 e1 A1 l1 e2 A2 :
  since e0 A0 l0 e1 A1 -> since e1 A1 l1 e2 A2 -> since e0 A0 (l1 ++ l0) e2 A2.
Proof.
  intros [Hf1 Hr1] [Hf2 Hr2]. split; [by eapply fixed_trans|]. intros b Hb. rewrite more_app. auto.
Qed.

Lemma since_perm e0 A0 l l' e A : l ≡ₚ l' -> since e0 A0 l e A -> since e0 A0 l' e A.
Proof.
  intros Hp [Hf Hr]. split; [done|]. intros b Hb. eapply refs_at_weaken; [|by apply Hr].
  intros q. by rewrite (more_perm _ _ _ _ Hp).
Qed.

(** The items that remain have no more references than before. *)
Lemma since_less e A e' A' :
  fixed e e' -> A' ⊆ A ->
  (forall q it', q ∈ A' -> e'.(e_heap) !! q = Some it' ->
     exists it, e.(e_heap) !! q = Some it /\ it'.(it_refcount) <= it.(it_refcount)) ->
  since e A [] e' A'.
Proof.
  intros Hf HA Hle. split; [done|]. intros b Hb q it' Hq Hit'.
  destruct (Hle q it' Hq Hit') as (it & Hit & Hr). specialize (Hb q it (HA q Hq) Hit). simpl. lia.
Qed.

(** The counter of the CAS values is not part of the history of the references. *)
Definition bump_cas (e : engine) : engine := set_e_cas_id (u64 (e.(e_cas_id) + 1)) e.

Lemma fixed_bump e e' : fixed e e' -> fixed (bump_cas e) (bump_cas e').
Proof.
  intros (Hr & Hs & Hl). split; [|done]. unfold rest in *. injection Hr as H1 H2 H3 H4 H5 H6 H7. simpl.
  by rewrite H1, H2, H3, H4, H5, H6, H7.
Qed.

Lemma since_bump e0 A0 l e A : since e0 A0 l e A -> since (bump_cas e0) A0 l (bump_cas e) A.
Proof. intros [Hf Hr]. split; [by apply fixed_bump|done]. Qed.

(** Changing one item. *)
Lemma since_one e A e' A' p :
  fixed e e' -> A' ⊆ A -> keeps (fun q => q <> p) e e' ->
  (forall it', p ∈ A' -> e'.(e_heap) !! p = Some it' ->
     exists it, e.(e_heap) !! p = Some it /\ it'.(it_refcount) <= it.(it_refcount)) ->
  since e A [] e' A'.
Proof.
  intros Hf HA Hk Hp. apply since_less; [done..|]. intros q it' Hq Hit'.
  destruct (decide (q = p)) as [->|Hne]; [by apply Hp|].
  destruct (keeps_item_inv _ _ _ _ _ Hk Hne Hit') as (it & Hit & Hc).
  apply core_fields in Hc as (Hr & _). exists it. split; [done|]. lia.
Qed.

Section proofs.
Context `{EnvOk}.

(** ** The operations *)

Lemma since_unlink e A D p it e' A' :
  e.(e_heap) !! p = Some it -> unlink_post e A D p it e' A' -> since e A [] e' A'.
Proof.
  intros Hp (Hf & Hk & Hz & Hnz). destruct (decide (it.(it_refcount) = 0)) as [Hr|Hr].
  - rewrite (Hz Hr). eapply since_one; [done|set_solver|exact Hk|]. set_solver.
  - destruct (Hnz Hr) as [-> Hc]. eapply since_one; [done|done|exact Hk|]. intros it' _ Hit'.
    exists it. split; [done|]. rewrite Hit' in Hc. apply (inj Some), core_fields in Hc as (Hr' & _).
    simpl in Hr'. lia.
Qed.

Lemma since_link e A p it e' :
  e.(e_heap) !! p = Some it -> link_post e p it e' -> since (bump_cas e) A [] e' A.
Proof.
  intros Hp (Hf & Hk & Hc). eapply since_one; [done|done|exact Hk|]. intros it' _ Hit'.
  exists it. split; [done|]. rewrite Hit' in Hc. apply (inj Some), core_fields in Hc as (Hr & _).
  unfold linked_item in Hr. destruct (uses_cas e); simpl in Hr; lia.
Qed.

Lemma since_replace e A p q it itq e' :
  e.(e_heap) !! p = Some it -> e.(e_heap) !! q = Some itq -> replace_post e p q it itq e' ->
  since (bump_cas e) A [] e' A.
Proof.
  intros Hp Hq (Hf & Hk & Hcp & Hcq). apply since_less; [done..|]. intros x x' _ Hx'.
  destruct (decide (x = q)) as [->|Hxq].
  { exists itq. split; [done|]. rewrite Hx' in Hcq. apply (inj Some), core_fields in Hcq as (Hr & _).
    unfold linked_item in Hr. destruct (uses_cas e); simpl in Hr; lia. }
  destruct (decide (x = p)) as [->|Hxp].
  { exists it. split; [done|]. rewrite Hx' in Hcp. apply (inj Some), core_fields in Hcp as (Hr & _).
    simpl in Hr. lia. }
  destruct (keeps_item_inv _ _ _ _ _ Hk (conj Hxp Hxq) Hx') as (y & Hy & Hc).
  apply core_fields in Hc as (Hr & _). exists y. split; [done|]. lia.
Qed.

(** A reference to the item that a lookup returns. *)
Lemma since_take e A e' p it :
  fixed e e' -> keeps (fun q => q <> p) e e' -> e.(e_heap) !! p = Some it -> 0 <= it.(it_refcount) ->
  it_refcount <$> (e'.(e_heap) !! p) = Some (u16 (it.(it_refcount) + 1)) -> since e A [p] e' A.
Proof.
  intros Hf Hk Hp Hr0 Hp'. split; [done|]. intros b Hb q it' Hq Hit'. simpl. unfold bump.
  destruct (decide (q = p)) as [->|Hne].
  - specialize (Hb p it Hq Hp). rewrite Hit' in Hp'. injection Hp' as ->.
    pose proof (Z.mod_le (it.(it_refcount) + 1) (2 ^ 16)). unfold u16, wrap. lia.
  - destruct (keeps_item_inv _ _ _ _ _ Hk Hne Hit') as (y & Hy & Hc).
    apply core_fields in Hc as (Hr & _). specialize (Hb q y Hq Hy). lia.
Qed.

(** Giving a reference back. *)
Lemma since_release e0 A0 l e A D e' A' p it :
  since e0 A0 (p :: l) e A -> e.(e_heap) !! p = Some it -> release_post e A D p it e' A' ->
  since e0 A0 l e' A'.
Proof.
  intros [Hf0 Hr0] Hp (Hf & Hk & Hcase). split; [by eapply fixed_trans|].
  intros b Hb q it' Hq Hit'. specialize (Hr0 b Hb). simpl in Hr0. unfold bump in Hr0.
  assert (HA : A' ⊆ A) by (destruct (decide _); [|destruct Hcase]; set_solver).
  destruct (decide (q = p)) as [->|Hne].
  - destruct (decide _) as [_|_]; [set_solver|]. destruct Hcase as [-> Hc].
    rewrite Hit' in Hc. apply (inj Some), core_fields in Hc as (Hr & _). simpl in Hr. rewrite Hr.
    specialize (Hr0 p it Hq Hp). cbn beta in Hr0. rewrite decide_True in Hr0 by done.
    unfold released. destruct (Z.eqb_spec (it_refcount it) 0); lia.
  - destruct (keeps_item_inv _ _ _ _ _ Hk Hne Hit') as (y & Hy & Hc).
    apply core_fields in Hc as (Hr & _). specialize (Hr0 q y (HA q Hq) Hy).
    cbn beta in Hr0. rewrite decide_False in Hr0 by done. lia.
Qed.

(** The search for memory. *)
Lemma since_shrink e A D e' A' D' : shrink e A D e' A' D' -> since e A [] e' A'.
Proof.
  intros [Hf HA _ Hk _]. apply since_less; [done..|]. intros q it' Hq Hit'.
  destruct (keeps_item_inv _ _ _ _ _ Hk Hq Hit') as (it & Hit & Hc).
  apply core_fields in Hc as (Hr & _). exists it. split; [done|]. lia.
Qed.

Lemma since_alloc e A D e' A' D' r it key flags exptime nbytes datatype :
  shrink e A D e' A' D' -> e'.(e_heap) !! r = Some it ->
  new_item key flags exptime nbytes datatype it -> since e A [r] e' ({[r]} ∪ A').
Proof.
  intros Hsh Hr Hnew. pose proof (since_shrink _ _ _ _ _ _ Hsh) as [Hf Hs]. split; [done|].
  intros b Hb q it' Hq Hit'. specialize (Hs b Hb). simpl in *. unfold bump.
  destruct (decide (q = r)) as [->|Hne].
  - replace it' with it by congruence. rewrite (ni_ref _ _ _ _ _ _ Hnew). lia.
  - apply Hs; [set_solver|done].
Qed.

(** Writing into an item that is kept otherwise. *)
Lemma since_write e A p it it' :
  e.(e_heap) !! p = Some it -> it'.(it_refcount) = it.(it_refcount) ->
  since e A [] (upd_heap (insert p it') e) A.
Proof.
  intros Hp Hr. eapply (since_one e A _ A p); [by destruct e|done| |].
  - intros q Hq. simpl. by rewrite lookup_insert_ne.
  - intros x _ Hx. simpl in Hx. rewrite lookup_insert_eq in Hx. injection Hx as <-.
    exists it. split; [done|]. lia.
Qed.
End proofs.
