(* ===== verification/Store.v ===== *)
(** * The commands of the default engine as operations on a map

    An abstract cache is a finite map from keys to values. This file states what
    lookup, the store commands, unlinking and touching do to it, and proves that
    the functions of [items.c] implement that, with their results, error codes and
    CAS values. *)
From Stdlib Require Import ZArith Lia SpecFloat.
From stdpp Require Import strings gmap prelude.
From S2P Require Import Prelude Util EngineState Assoc Slabs Items Lru Cache Refs.

#[local] Set Warnings "-clear-no-such-hyp".

(** ** The abstract commands *)

Definition v_dead (oldest_live now : Z) (v : value) : bool :=
  (negb (oldest_live =? 0) && (oldest_live <=? now) && (v.(v_time) <=? oldest_live))
  || (negb (v.(v_exptime) =? 0) && (v.(v_exptime) <=? now)).

Definition v_set_time (t : Z) (v : value) : value :=
  mk_value t v.(v_exptime) v.(v_flags) v.(v_datatype) v.(v_cas) v.(v_data).

(** The access time is refreshed when it is older than a minute. *)
Definition v_touch (now : Z) (v : value) : value :=
  if v.(v_time) <? u32 (now - ITEM_UPDATE_INTERVAL) then v_set_time now v else v.

Abbreviation cache := (gmap (list Z) value).

(** A lookup forgets an entry that is dead and refreshes one that is not. *)
Definition spec_get (oldest_live now : Z) (k : list Z) (m : cache) : option value * cache :=
  match m !! k with
  | None => (None, m)
  | Some v => if v_dead oldest_live now v then (None, delete k m)
              else (Some (v_touch now v), <[k := v_touch now v]> m)
  end.

(** The entry that a store makes of the item [v]. *)
Definition v_stored (now cas : Z) (v : value) : value :=
  mk_value now v.(v_exptime) v.(v_flags) v.(v_datatype) cas v.(v_data).

(** SET, ADD, REPLACE and CAS of the item [v] under the key [k], where [cas] is the
    CAS value it would get: the code and the new map. *)
Definition spec_store (op : ENGINE_STORE_OPERATION) (oldest_live now cas : Z) (k : list Z)
    (v : value) (m : cache) : ENGINE_ERROR_CODE * cache :=
  let (old, m1) := spec_get oldest_live now k m in
  let stored := (ENGINE_SUCCESS, <[k := v_stored now cas v]> m1) in
  match op, old with
  | OPERATION_ADD, Some _ => (ENGINE_NOT_STORED, m1)
  | OPERATION_REPLACE, None => (ENGINE_NOT_STORED, m1)
  | OPERATION_CAS, None => (ENGINE_KEY_ENOENT, m1)
  | OPERATION_CAS, Some o =>
      if v.(v_cas) =? o.(v_cas) then stored else (ENGINE_KEY_EEXISTS, m1)
  | _, _ => stored
  end.

(** ** The representation *)

Definition cache_rep `{EnvOk} (e : engine) (A : gset Z) (m : cache) : Prop :=
  exists D U L, wf assoc_rep e A D U L /\ abs e.(e_heap) D m.

Definition oldest (e : engine) : Z := e.(e_config).(c_oldest_live).

Section proofs.
Context `{EnvOk}.

Lemma dead_value e it : dead e it = v_dead (oldest e) e.(e_now) (item_value it).
Proof. done. Qed.

Lemma touch_value now it : item_value (touched now it) = v_touch now (item_value it).
Proof.
  unfold touched, v_touch, stale. simpl. by destruct (it_time it <? _).
Qed.

Lemma got_value now it :
  item_value (got now it) = v_touch now (item_value it) /\
  item_get_key (got now it) = item_get_key it /\
  (got now it).(it_refcount) = u16 (it.(it_refcount) + 1).
Proof.
  unfold got. rewrite touch_value. split; [done|]. unfold touched. by destruct (stale _ _).
Qed.

Lemma v_touch_idem now v : v_touch now (v_touch now v) = v_touch now v.
Proof.
  unfold v_touch. destruct (v_time v <? _) eqn:Ht; [|by rewrite Ht].
  simpl. by destruct (now <? _).
Qed.

Lemma abs_lookup e A D U L m p it :
  wf assoc_rep e A D U L -> abs e.(e_heap) D m -> p ∈ D -> e.(e_heap) !! p = Some it ->
  m !! item_get_key it = Some (item_value it).
Proof. intros HW Habs Hp Hit. apply Habs. eauto 10. Qed.

Lemma abs_none e A D U L m k :
  wf assoc_rep e A D U L -> abs e.(e_heap) D m ->
  (forall q, q ∈ D -> ~ has_key e.(e_heap) q k) -> m !! k = None.
Proof.
  intros HW Habs Hno. destruct (m !! k) as [v|] eqn:Hk; [|done]. exfalso.
  apply Habs in Hk as (p & it & Hp & Hit & Hki & _). apply (Hno p Hp).
  destruct (wf_get _ _ _ _ _ _ _ HW (wf_sub _ _ _ _ _ _ HW p Hp)) as (it' & Hit' & Hok).
  replace it' with it in * by congruence. rewrite <- Hki. by eapply item_has_key.
Qed.

(** *** Lookup *)

Lemma do_item_get_abs e A D U L m k (Q : Z -> engine -> Prop) :
  wf assoc_rep e A D U L -> abs e.(e_heap) D m ->
  let sp := spec_get (oldest e) e.(e_now) k m in
  (forall e' A' D' U' L', wf assoc_rep e' A' D' U' L' -> abs e'.(e_heap) D' sp.2 ->
     sp.1 = None -> fixed e e' -> A' ⊆ A -> D' ⊆ D ->
     (forall q, q ∈ A -> q ∉ D -> q ∈ A') -> keeps (fun q => q ∉ D) e e' ->
     since e A [] e' A' -> Q NULL e') ->
  (forall p it0 it e' U' L', wf assoc_rep e' A D U' L' -> abs e'.(e_heap) D sp.2 ->
     sp.1 = Some (item_value it) -> fixed e e' -> keeps (fun q => q <> p) e e' ->
     p ∈ D -> e.(e_heap) !! p = Some it0 -> e'.(e_heap) !! p = Some it ->
     item_get_key it = k -> it.(it_refcount) = u16 (it0.(it_refcount) + 1) ->
     core it = core (got e.(e_now) it0) -> since e A [p] e' A -> Q p e') ->
  runs (do_item_get k) e Q.
Proof.
  intros HW Habs sp HQ0 HQ1. eapply (do_item_get_run assoc_rep); [exact HW|].
  intros r e' A' D' U' L' HW' Hpost. destruct Hpost as
    [Hno|p it e' A' HpD Hp Hk Hdead (Hf & Hkeep & Hz & Hnz)|p it e' HpD Hp Hk Hdead Hf Hkeep Hcore].
  - pose proof (abs_none _ _ _ _ _ _ _ HW Habs Hno) as Hm.
    assert (Hsp : sp = (None, m)) by (unfold sp, spec_get; by rewrite Hm).
    rewrite Hsp in HQ0. by eapply HQ0.
  - pose proof (abs_lookup _ _ _ _ _ _ _ _ HW Habs HpD Hp) as Hm.
    assert (Hsp : sp = (None, delete k m)).
    { unfold sp, spec_get. rewrite <- Hk, Hm, <- dead_value, Hdead. done. }
    rewrite Hsp in HQ0. eapply HQ0; [exact HW'| |done|done|..].
    + rewrite <- Hk. by eapply (abs_remove assoc_rep e A D).
    + destruct (decide (it_refcount it = 0)) as [Hr|Hr]; [rewrite (Hz Hr)|destruct (Hnz Hr) as [-> _]]; set_solver.
    + set_solver.
    + intros q Hq HqD. destruct (decide (it_refcount it = 0)) as [Hr|Hr];
        [rewrite (Hz Hr)|destruct (Hnz Hr) as [-> _]]; set_solver.
    + eapply keeps_weaken; [|exact Hkeep]. intros q Hq ->. done.
    + by eapply (since_unlink e A D).
  - pose proof (abs_lookup _ _ _ _ _ _ _ _ HW Habs HpD Hp) as Hm.
    destruct (got_value e.(e_now) it) as (Hv & Hkg & Hrg).
    assert (Hsp : sp = (Some (v_touch e.(e_now) (item_value it)),
                        <[k := v_touch e.(e_now) (item_value it)]> m)).
    { unfold sp, spec_get. rewrite <- Hk, Hm, <- dead_value, Hdead. done. }
    destruct (e_heap e' !! p) as [it'|] eqn:Hp'; [|discriminate].
    pose proof Hcore as Hcore'. apply (inj Some) in Hcore.
    destruct (core_value _ _ Hcore) as (Hv' & Hk' & _).
    destruct (core_fields _ _ Hcore) as (Hr' & _).
    rewrite Hsp in HQ1. eapply (HQ1 p it it'); try done.
    + simpl. rewrite <- Hk, <- Hv.
      eapply (abs_update assoc_rep e A D U L); try done. by rewrite Hp'.
    + simpl. congruence.
    + congruence.
    + congruence.
    + eapply since_take; [done|done|exact Hp| |].
      * destruct (wf_get _ _ _ _ _ _ _ HW (wf_sub _ _ _ _ _ _ HW p HpD)) as (i & Hi & Hok).
        replace it with i by congruence. apply Hok.
      * rewrite Hp'. simpl. congruence.
Qed.

(** *** Releasing a reference *)

Lemma do_item_release_abs e A D U L m p it (Q : unit -> engine -> Prop) :
  wf assoc_rep e A D U L -> abs e.(e_heap) D m -> p ∈ A -> e.(e_heap) !! p = Some it ->
  (forall e' A' U', wf assoc_rep e' A' D U' L -> abs e'.(e_heap) D m -> fixed e e' ->
     keeps (fun q => q <> p) e e' -> A' ⊆ A -> A ∖ {[p]} ⊆ A' ->
     (p ∈ D \/ released it <> 0 -> A' = A /\
        core <$> (e'.(e_heap) !! p) = Some (core (set_it_refcount (released it) it))) ->
     (forall e0 A0 l, since e0 A0 (p :: l) e A -> since e0 A0 l e' A') -> Q tt e') ->
  runs (do_item_release p) e Q.
Proof.
  intros HW Habs HpA Hp HQ. eapply (do_item_release_run assoc_rep); [exact HW|done|exact Hp|].
  intros e' A' U' HW' Hpost.
  assert (Hsince : forall e0 A0 l, since e0 A0 (p :: l) e A -> since e0 A0 l e' A')
    by (intros e0 A0 l Hs; by eapply since_release).
  destruct Hpost as (Hf & Hk & Hcase).
  destruct (decide (released it = 0 /\ p ∉ D)) as [[Hz HpD]|Hn].
  - apply (HQ e' A' U' HW'); [|done|done|set_solver|set_solver|intros [?|?]; done|done].
    eapply abs_iff; [exact Habs|]. eapply keeps_weaken; [|exact Hk]. intros q Hq ->. done.
  - destruct Hcase as [-> Hc]. apply (HQ e' A U' HW'); [|done|done|done|set_solver|done|done].
    destruct (decide (p ∈ D)) as [HpD|HpD].
    + pose proof (abs_lookup _ _ _ _ _ _ _ _ HW Habs HpD Hp) as Hm.
      rewrite <- (insert_id m (item_get_key it) (item_value it) Hm).
      change (item_value it) with (item_value (set_it_refcount (released it) it)).
      by eapply (abs_update assoc_rep e A D U L).
    + eapply abs_iff; [exact Habs|]. eapply keeps_weaken; [|exact Hk]. intros q Hq ->. done.
Qed.

(** *** Storing *)

Definition next_cas (e : engine) : Z := if uses_cas e then u64 (e.(e_cas_id) + 1) else 0.

(** The entry of the item [it] once it is linked. *)
Lemma stored_value e it :
  it.(it_iflag) = iflags (uses_cas e) false ->
  item_value (linked_item e it) = v_stored e.(e_now) (next_cas e) (item_value it).
Proof. intros Hf. by destruct (linked_item_value e it Hf) as [_ ->]. Qed.

Lemma fixed_eq e e' : fixed e e' ->
  e'.(e_now) = e.(e_now) /\ oldest e' = oldest e /\ next_cas e' = next_cas e /\
  e'.(e_config) = e.(e_config).
Proof.
  intros Hf. destruct (fixed_now _ _ Hf) as [Hn Hc]. pose proof (fixed_cas _ _ Hf) as Hu.
  unfold oldest, next_cas. rewrite Hc, Hu, Hn. destruct Hf as [Hr _]. unfold rest in Hr.
  by injection Hr as _ _ _ _ _ _ ->.
Qed.

(** The end of a store that linked the item [p] in the place of [old]: the
    reference of [old] is released. *)
Definition after_store (code : ENGINE_ERROR_CODE) (e : engine) : engine :=
  if decide (code = ENGINE_SUCCESS) then bump_cas e else e.

(** An append that is too large keeps the reference to the old item. *)
Definition store_leaks (code : ENGINE_ERROR_CODE) : nat :=
  if decide (code = ENGINE_E2BIG) then 1 else 0.

Definition store_post (e : engine) (A : gset Z) (p : Z) (cas0 : Z) (sp : ENGINE_ERROR_CODE * cache)
    (r : ENGINE_ERROR_CODE * Z) (e' : engine) : Prop :=
  r.1 = sp.1 /\ r.2 = (if decide (sp.1 = ENGINE_SUCCESS) then next_cas e else cas0) /\
  exists A' l, cache_rep e' A' sp.2 /\ p ∈ A' /\ since (after_store sp.1 e) A l e' A' /\
    (length l <= store_leaks sp.1)%nat.

Lemma linked_cas e it :
  it.(it_iflag) = iflags (uses_cas e) false -> item_get_cas (linked_item e it) = next_cas e.
Proof.
  intros Hf. pose proof (stored_value e it Hf) as Hv.
  by apply (f_equal v_cas) in Hv.
Qed.

Lemma core_cas it it' : core it' = core it -> item_get_cas it' = item_get_cas it.
Proof.
  intros Hc. destruct (core_value _ _ Hc) as (Hv & _). by apply (f_equal v_cas) in Hv.
Qed.

(** The references that a lookup which returned [old] took. *)
Definition got_refs (old : Z) : list Z := if decide (old = NULL) then [] else [old].

Lemma finish_failed e A D U L m p old it e0 A0 stored cas0 :
  wf assoc_rep e A D U L -> abs e.(e_heap) D m -> p ∈ A -> p ∉ D ->
  (old = NULL \/ old ∈ D /\ e.(e_heap) !! old = Some it) ->
  since e0 A0 (got_refs old) e A -> stored <> ENGINE_SUCCESS ->
  runs (store_finish stored p old NULL cas0) e (store_post e0 A0 p cas0 (stored, m)).
Proof.
  intros HW Habs HpA HpD Hold Hs Hst. unfold store_finish.
  assert (Hend : forall e' A' U' L', wf assoc_rep e' A' D U' L' -> abs e'.(e_heap) D m ->
    p ∈ A' -> since e0 A0 [] e' A' ->
    runs (when (negb (NULL =? NULL)) (do_item_release NULL);;
          match stored with
          | ENGINE_SUCCESS => x ← load p; mret (stored, item_get_cas x)
          | _ => mret (stored, cas0)
          end) e' (store_post e0 A0 p cas0 (stored, m))).
  { intros e' A' U' L' HW' Habs' Hp' Hs'. simpl when. apply runs_bind, runs_ret.
    assert (Hpost : store_post e0 A0 p cas0 (stored, m) (stored, cas0) e').
    { split; [done|]. unfold after_store. simpl. rewrite !decide_False by done. split; [done|].
      exists A', []. split; [by exists D, U', L'|]. split; [done|]. split; [done|]. simpl. lia. }
    destruct stored; try done; by apply runs_ret. }
  apply runs_bind. unfold got_refs in Hs. destruct Hold as [->|[HoD Hoi]].
  - simpl when. apply runs_ret. by eapply Hend.
  - pose proof (wf_sub _ _ _ _ _ _ HW old HoD) as HoA.
    pose proof (wf_nonnull _ _ _ _ _ _ _ HW HoA) as Hn. rewrite decide_False in Hs by done.
    rewrite (proj2 (Z.eqb_neq _ _) Hn). simpl when.
    eapply do_item_release_abs; [exact HW|exact Habs|done|exact Hoi|].
    intros e' A' U' HW' Habs' Hf _ _ _ Hkept Hrel. destruct Hkept as [-> _]; [by left|].
    eapply Hend; [exact HW'|exact Habs'|done|]. by apply Hrel.
Qed.

Lemma finish_stored e A D U L m p old it e0 A0 c cas0 :
  wf assoc_rep e A D U L -> abs e.(e_heap) D m -> p ∈ D ->
  item_get_cas <$> (e.(e_heap) !! p) = Some (next_cas e0) ->
  (old = NULL \/ old ∈ A /\ e.(e_heap) !! old = Some it /\ old <> p) ->
  since (bump_cas e0) A0 (got_refs old) e A ->
  runs (store_finish ENGINE_SUCCESS p old NULL c) e (store_post e0 A0 p cas0 (ENGINE_SUCCESS, m)).
Proof.
  intros HW Habs HpD Hcas Hold Hs. unfold store_finish.
  assert (Hend : forall e' A' U' L', wf assoc_rep e' A' D U' L' -> abs e'.(e_heap) D m ->
    item_get_cas <$> (e'.(e_heap) !! p) = Some (next_cas e0) -> since (bump_cas e0) A0 [] e' A' ->
    runs (when (negb (NULL =? NULL)) (do_item_release NULL);;
          x ← load p; mret (ENGINE_SUCCESS, item_get_cas x))
      e' (store_post e0 A0 p cas0 (ENGINE_SUCCESS, m))).
  { intros e' A' U' L' HW' Habs' Hc' Hs'. simpl when. run.
    destruct (e_heap e' !! p) as [x|] eqn:Hx; [|discriminate]. injection Hc' as Hc'.
    eapply runs_load; [exact Hx|]. run. split; [done|]. simpl. split; [done|].
    exists A', []. split; [by exists D, U', L'|]. split; [by apply (wf_sub _ _ _ _ _ _ HW')|].
    split; [done|]. simpl. lia. }
  apply runs_bind. unfold got_refs in Hs. destruct Hold as [->|(HoA & Hoi & Hne)].
  - simpl when. apply runs_ret. by eapply Hend.
  - pose proof (wf_nonnull _ _ _ _ _ _ _ HW HoA) as Hn. rewrite decide_False in Hs by done.
    rewrite (proj2 (Z.eqb_neq _ _) Hn). simpl when.
    eapply do_item_release_abs; [exact HW|exact Habs|done|exact Hoi|].
    intros e' A' U' HW' Habs' Hf Hk _ _ _ Hrel.
    eapply Hend; [exact HW'|exact Habs'| |by apply Hrel].
    destruct (e_heap e !! p) as [x|] eqn:Hx; [|discriminate]. injection Hcas as Hcas.
    destruct (keeps_item _ _ _ _ _ Hk (not_eq_sym Hne) Hx) as (x' & Hx' & Hc).
    rewrite Hx'. simpl. by rewrite (core_cas _ _ Hc), Hcas.
Qed.

(** The fields of the item that do not depend on its links. *)
Lemma keeps_self (X : Z -> Prop) e e' A D U L p it :
  wf assoc_rep e A D U L -> keeps X e e' -> X p -> e.(e_heap) !! p = Some it ->
  exists it', e'.(e_heap) !! p = Some it' /\ core it' = core it /\
    item_value it' = item_value it /\ item_get_key it' = item_get_key it /\
    it'.(it_nbytes) = it.(it_nbytes) /\ it'.(it_iflag) = it.(it_iflag).
Proof.
  intros HW Hk HX Hp. destruct (keeps_item _ _ _ _ _ Hk HX Hp) as (it' & Hit' & Hc).
  destruct (core_value _ _ Hc) as (? & ? & _). destruct (core_fields _ _ Hc) as (?&?&?&?&?&?&?&?).
  exists it'. auto 10.
Qed.

Lemma fixed_bump_eq e e' : fixed (set_e_cas_id (u64 (e.(e_cas_id) + 1)) e) e' ->
  e'.(e_now) = e.(e_now) /\ e'.(e_config) = e.(e_config).
Proof. intros Hf. by destruct (fixed_now _ _ Hf) as [-> ->]. Qed.

(** Linking a new item when the key is not cached. *)
Lemma store_new_run e A D U L m p it e0 A0 cas0 :
  wf assoc_rep e A D U L -> abs e.(e_heap) D m -> p ∈ A -> p ∉ D ->
  e.(e_heap) !! p = Some it -> m !! item_get_key it = None ->
  it.(it_nbytes) < 1024 * 1024 -> Z.of_nat (size D) < 2 ^ 30 -> since e0 A0 [] e A ->
  runs (store_link p NULL;; y ← load p; store_finish ENGINE_SUCCESS p NULL NULL (item_get_cas y)) e
    (store_post e0 A0 p cas0
       (ENGINE_SUCCESS, <[item_get_key it := v_stored e.(e_now) (next_cas e) (item_value it)]> m)).
Proof.
  intros HW Habs HpA HpD Hp Hnone Hnb Hsz Hs. unfold store_link. simpl. run.
  destruct (fixed_eq _ _ (since_fixed _ _ _ _ _ Hs)) as (Hnow & _ & Hnc & Hcfg).
  destruct (wf_get _ _ _ _ _ _ _ HW HpA) as (it0 & Hit0 & Hok).
  replace it0 with it in * by congruence. rewrite bool_decide_eq_false_2 in Hok by done.
  pose proof (io_flags _ _ _ _ _ _ _ Hok) as Hfl.
  eapply (do_item_link_run assoc_rep); [exact HW|done|done|exact Hp|done|done|..].
  { intros q Hq Hqk. apply has_key_item in Hqk as (itq & Hitq & Hkq & _).
    pose proof (abs_lookup _ _ _ _ _ _ _ _ HW Habs Hq Hitq) as Hm. congruence. }
  intros e1 L1 HW1 Hpost. pose proof (since_link _ A _ _ _ Hp Hpost) as Hl.
  pose proof (since_trans _ _ _ _ _ _ _ _ (since_bump _ _ _ _ _ Hs) Hl) as Hs1.
  destruct Hpost as (Hf1 & Hk1 & Hc1). run.
  destruct (linked_item_value e it Hfl) as [Hkl _].
  pose proof (abs_add assoc_rep e A D U L e1 m p (linked_item e it) HW Habs HpD) as Habs1.
  rewrite Hkl, stored_value in Habs1 by done. specialize (Habs1 Hnone Hk1 Hc1).
  destruct (e_heap e1 !! p) as [y|] eqn:Hy; [|discriminate]. apply (inj Some) in Hc1.
  eapply runs_load; [exact Hy|].
  eapply (finish_stored e1 A _ U L1 _ p NULL y e0 A0); [exact HW1|exact Habs1|set_solver| |by left|exact Hs1].
  rewrite Hy. simpl. by rewrite (core_cas _ _ Hc1), linked_cas, Hnc.
Qed.

(** Replacing the item [old] that [do_item_get] returned. *)
Lemma store_over_run e A D U L m p it old o e0 A0 cas0 :
  wf assoc_rep e A D U L -> abs e.(e_heap) D m -> p ∈ A -> p ∉ D ->
  e.(e_heap) !! p = Some it -> old ∈ D -> e.(e_heap) !! old = Some o ->
  o.(it_refcount) <> 0 -> item_get_key it = item_get_key o ->
  it.(it_nbytes) < 1024 * 1024 -> Z.of_nat (size D) < 2 ^ 30 -> since e0 A0 [old] e A ->
  runs (do_item_replace old p) e (fun _ e1 => is_Some (e1.(e_heap) !! p) /\ forall c,
    runs (store_finish ENGINE_SUCCESS p old NULL c) e1
      (store_post e0 A0 p cas0 (ENGINE_SUCCESS,
         <[item_get_key it := v_stored e.(e_now) (next_cas e) (item_value it)]> m))).
Proof.
  intros HW Habs HpA HpD Hp HoD Ho Href Hkey Hnb Hsz Hs.
  destruct (fixed_eq _ _ (since_fixed _ _ _ _ _ Hs)) as (Hnow & _ & Hnc & Hcfg).
  destruct (wf_get _ _ _ _ _ _ _ HW HpA) as (it0 & Hit0 & Hok).
  replace it0 with it in * by congruence. rewrite bool_decide_eq_false_2 in Hok by done.
  pose proof (io_flags _ _ _ _ _ _ _ Hok) as Hfl.
  eapply (do_item_replace_run assoc_rep e A D U L old p); try done.
  intros e1 U1 L1 HW1 Habs1 Hpost.
  pose proof (since_trans _ _ _ _ _ _ _ _ (since_bump _ _ _ _ _ Hs)
    (since_replace _ A _ _ _ _ _ Ho Hp Hpost)) as Hs1.
  destruct Hpost as (Hf1 & Hk1 & Hco & Hcp).
  rewrite stored_value in Habs1 by done.
  destruct (e_heap e1 !! p) as [y|] eqn:Hy; [|discriminate]. apply (inj Some) in Hcp.
  destruct (e_heap e1 !! old) as [o1|] eqn:Ho1; [|discriminate].
  assert (Hcas : item_get_cas <$> (e1.(e_heap) !! p) = Some (next_cas e0)).
  { rewrite Hy. simpl. by rewrite (core_cas _ _ Hcp), linked_cas, Hnc. }
  split; [by eexists|]. intros c.
  pose proof (wf_sub _ _ _ _ _ _ HW old HoD) as HoA.
  eapply (finish_stored e1 A _ U1 L1 _ p old o1 e0 A0); [exact HW1|exact Habs1|set_solver|done| |].
  - right. split; [done|]. split; [done|]. intros ->. done.
  - unfold got_refs. rewrite decide_False; [done|]. by apply (wf_nonnull _ _ _ _ _ _ _ HW).
Qed.


Lemma spec_get_None (oldest_live now : Z) (k : list Z) (m : cache) :
  (spec_get oldest_live now k m).1 = None -> (spec_get oldest_live now k m).2 !! k = None.
Proof.
  unfold spec_get. destruct (m !! k) as [v|] eqn:Hk; [|done].
  destruct (v_dead _ _ v); [|done]. intros _. apply lookup_delete_eq.
Qed.

Lemma spec_get_Some (oldest_live now : Z) (k : list Z) (m : cache) v :
  (spec_get oldest_live now k m).1 = Some v ->
  (spec_get oldest_live now k m).2 !! k = Some v /\ v_touch now v = v.
Proof.
  unfold spec_get. destruct (m !! k) as [w|] eqn:Hk; [|done].
  destruct (v_dead _ _ w); [done|]. intros [= <-]. simpl. rewrite lookup_insert_eq.
  split; [done|apply v_touch_idem].
Qed.

(** Looking a key up makes no entry. *)
Lemma spec_get_size (oldest_live now : Z) (k : list Z) (m : cache) :
  (size (spec_get oldest_live now k m).2 <= size m)%nat.
Proof.
  unfold spec_get. destruct (m !! k) as [v|] eqn:Hk; [|done]. destruct (v_dead _ _ v); simpl.
  - apply map_subseteq_size, delete_subseteq.
  - rewrite map_size_insert_Some by (by eexists). done.
Qed.

(** A second [do_item_update] changes nothing that the cache shows. *)
Lemma update_again e A D U L m p it (Q : unit -> engine -> Prop) :
  wf assoc_rep e A D U L -> abs e.(e_heap) D m -> p ∈ D -> e.(e_heap) !! p = Some it ->
  v_touch e.(e_now) (item_value it) = item_value it ->
  (forall e' it' L', wf assoc_rep e' A D U L' -> abs e'.(e_heap) D m ->
     since e A [] e' A -> e'.(e_heap) !! p = Some it' -> Q tt e') ->
  runs (do_item_update p) e Q.
Proof.
  intros HW Habs HpD Hp Hidem HQ. eapply (do_item_update_run assoc_rep); [exact HW|done|exact Hp|].
  intros e' L' HW' Hf Hk Hc. pose proof (abs_lookup _ _ _ _ _ _ _ _ HW Habs HpD Hp) as Hm.
  assert (Habs' : abs e'.(e_heap) D m).
  { rewrite <- (insert_id m (item_get_key it) (item_value it) Hm), <- Hidem, <- touch_value.
    eapply (abs_update assoc_rep e A D U L); try done. unfold touched. by destruct (stale _ _). }
  destruct (e_heap e' !! p) as [it'|] eqn:Hp'; [|discriminate]. eapply HQ; try done.
  eapply since_one; [done|done|exact Hk|]. intros x _ Hx. replace x with it' by congruence.
  exists it. split; [done|]. apply (inj Some), core_fields in Hc as (Hr & _). rewrite Hr.
  unfold touched. destruct (stale _ _); simpl; lia.
Qed.

Definition plain_store (op : ENGINE_STORE_OPERATION) : Prop :=
  op <> OPERATION_APPEND /\ op <> OPERATION_PREPEND.

(** A held item: allocated and not linked. *)
Definition held (e : engine) (A : gset Z) (p : Z) (it : hash_item) : Prop :=
  p ∈ A /\ e.(e_heap) !! p = Some it /\ has_flag it ITEM_LINKED = false.

Lemma held_unlinked e A D U L p it :
  wf assoc_rep e A D U L -> held e A p it -> (p ∉ D) /\
  item_ok (uses_cas e) (sizes_of e) e.(e_slabs).(s_power_largest) U p false it.
Proof.
  intros HW (HpA & Hp & Hf). destruct (wf_get _ _ _ _ _ _ _ HW HpA) as (it0 & Hit0 & Hok).
  replace it0 with it in * by congruence. destruct (linked_flag _ _ _ _ _ _ _ Hok) as [Hb _].
  rewrite Hf in Hb. symmetry in Hb. apply bool_decide_eq_false in Hb.
  split; [done|]. by rewrite bool_decide_eq_false_2 in Hok.
Qed.

Definition refs_ok (e : engine) (A : gset Z) : Prop :=
  forall q it, q ∈ A -> e.(e_heap) !! q = Some it -> it.(it_refcount) < 65535.

(** ... of the item that is linked under the key [k]. *)
Definition key_ref_ok (e : engine) (A : gset Z) (k : list Z) : Prop :=
  forall q it, q ∈ A -> e.(e_heap) !! q = Some it -> has_flag it ITEM_LINKED = true ->
    item_get_key it = k -> it.(it_refcount) < 65535.

Lemma refs_key e A k : refs_ok e A -> key_ref_ok e A k.
Proof. intros Hr q it Hq Hit _ _. by apply (Hr q). Qed.

Lemma key_ref_none e A D U L m k :
  wf assoc_rep e A D U L -> abs e.(e_heap) D m -> m !! k = None -> key_ref_ok e A k.
Proof.
  intros HW Habs Hk q it Hq Hit Hf Hki. exfalso.
  destruct (wf_get _ _ _ _ _ _ _ HW Hq) as (it0 & Hit0 & Hok). replace it0 with it in * by congruence.
  destruct (linked_flag _ _ _ _ _ _ _ Hok) as [Hb _]. rewrite Hf in Hb.
  symmetry in Hb. apply bool_decide_eq_true in Hb.
  rewrite (proj2 (Habs k (item_value it))) in Hk; [done|]. eauto 10.
Qed.

Lemma ref_incr it it0 :
  0 <= it0.(it_refcount) < 65535 -> it.(it_refcount) = u16 (it0.(it_refcount) + 1) ->
  it.(it_refcount) = it0.(it_refcount) + 1.
Proof. intros Hr ->. apply u16_small. lia. Qed.

(** The item that a lookup of [k] returned has a reference. *)
Lemma got_counted e A D U L q it0 o k :
  wf assoc_rep e A D U L -> key_ref_ok e A k -> q ∈ D -> e.(e_heap) !! q = Some it0 ->
  item_get_key o = k -> o.(it_refcount) = u16 (it0.(it_refcount) + 1) ->
  core o = core (got e.(e_now) it0) -> o.(it_refcount) <> 0.
Proof.
  intros HW Hrefs HqD Hq0 Hkq Hrq Hcq. pose proof (wf_sub _ _ _ _ _ _ HW q HqD) as HqA.
  destruct (wf_get _ _ _ _ _ _ _ HW HqA) as (i & Hi & Hok). replace i with it0 in * by congruence.
  rewrite bool_decide_eq_true_2 in Hok by done. destruct (linked_flag _ _ _ _ _ _ _ Hok) as [Hlf _].
  assert (Hki : item_get_key it0 = k).
  { destruct (core_value _ _ Hcq) as (_ & Hkk & _). rewrite <- Hkq, Hkk. symmetry. apply got_value. }
  pose proof (io_ref _ _ _ _ _ _ _ Hok) as Hr. pose proof (Hrefs q it0 HqA Hq0 Hlf Hki) as Hlt.
  pose proof (ref_incr _ _ (conj (proj1 Hr) Hlt) Hrq). lia.
Qed.

Lemma do_store_plain e A m p it op cas0 :
  cache_rep e A m -> held e A p it -> plain_store op -> it.(it_nbytes) < 1024 * 1024 ->
  Z.of_nat (size m) < 2 ^ 30 -> key_ref_ok e A (item_get_key it) ->
  runs (do_store_item p op cas0) e (store_post e A p cas0
    (spec_store op (oldest e) e.(e_now) (next_cas e) (item_get_key it) (item_value it) m)).
Proof.
  intros (D & U & L & HW & Habs) Hheld [Hop1 Hop2] Hnb Hsz Hrefs.
  destruct (held_unlinked _ _ _ _ _ _ _ HW Hheld) as [HpD Hok]. destruct Hheld as (HpA & Hp & _).
  pose proof (wf_nonnull _ _ _ _ _ _ _ HW HpA) as Hp0.
  unfold do_store_item, spec_store. run. eapply runs_load; [exact Hp|]. run.
  set (k := item_get_key it).
  destruct (spec_get (oldest e) (e_now e) k m) as [old m1] eqn:Hsp.
  pose proof (f_equal fst Hsp) as Hsp1. pose proof (f_equal snd Hsp) as Hsp2. simpl in Hsp1, Hsp2.
  eapply do_item_get_abs; [exact HW|exact Habs|..].
  - intros e1 A1 D1 U1 L1 HW1 Habs1 Hnone Hf1 HA HD Hkeep Hk1 Hs1.
    pose proof (spec_get_None _ _ _ _ Hnone) as Hmk. rewrite Hnone in Hsp1. subst old.
    rewrite Hsp2 in *.
    destruct (keeps_self _ _ _ _ _ _ _ _ _ HW Hk1 HpD Hp) as (it1 & Hp1 & Hc1 & Hv1 & Hki1 & Hn1 & _).
    destruct (fixed_eq _ _ Hf1) as (Hnow1 & Hold1 & Hnc1 & Hcfg1).
    assert (Hp1A : p ∈ A1) by auto. assert (Hp1D : p ∉ D1) by set_solver.
    pose proof (subseteq_size D1 D HD). pose proof (abs_size assoc_rep _ _ _ _ _ _ HW Habs).
    assert (HszA : Z.of_nat (size D1) < 2 ^ 30) by lia.
    pose proof (store_new_run e1 A1 D1 U1 L1 m1 p it1 e A cas0 HW1 Habs1 Hp1A Hp1D Hp1) as Hnew.
    rewrite Hki1, Hn1, Hv1, Hnow1, Hnc1 in Hnew. fold k in Hnew.
    destruct op; try done; simpl.
    + by apply Hnew.
    + by apply Hnew.
    + by eapply (finish_failed e1 A1 D1 U1 L1 m1 p NULL it); [exact HW1|exact Habs1|done|done|left|..].
    + by eapply (finish_failed e1 A1 D1 U1 L1 m1 p NULL it); [exact HW1|exact Habs1|done|done|left|..].
  - intros q it0 o e1 U1 L1 HW1 Habs1 Hsome Hf1 Hk1 HqD Hq0 Hq Hkq Hrq Hcq Hs1.
    rewrite Hsome in Hsp1. subst old. destruct (spec_get_Some _ _ _ _ _ Hsome) as [Hmk Hidem].
    rewrite Hsp2 in *.
    pose proof (wf_sub _ _ _ _ _ _ HW q HqD) as HqA.
    assert (Hgot : since e A (got_refs q) e1 A).
    { unfold got_refs. rewrite decide_False; [done|]. by apply (wf_nonnull _ _ _ _ _ _ _ HW). }
    rewrite (proj2 (Z.eqb_neq _ _) (wf_nonnull _ _ _ _ _ _ _ HW HqA)). simpl negb.
    assert (Hpq : p <> q) by (intros ->; done).
    destruct (keeps_self _ _ _ _ _ _ _ _ _ HW Hk1 Hpq Hp) as (it1 & Hp1 & Hc1 & Hv1 & Hki1 & Hn1 & _).
    destruct (fixed_eq _ _ Hf1) as (Hnow1 & Hold1 & Hnc1 & Hcfg1).
    pose proof (got_counted e A D U L q it0 o k HW Hrefs HqD Hq0 Hkq Hrq Hcq) as Hrn.
    pose proof (abs_size assoc_rep _ _ _ _ _ _ HW Habs).
    pose proof (store_over_run e1 A D U1 L1 m1 p it1 q o e A cas0 HW1 Habs1 HpA HpD Hp1 HqD Hq Hrn) as Hover.
    rewrite Hki1, Hn1, Hv1, Hnow1, Hnc1 in Hover. fold k in Hover. rewrite Hkq in Hover.
    specialize (Hover eq_refl Hnb ltac:(lia) Hs1).
    assert (Hover2 : runs (store_link p q;; y ← load p;
        store_finish ENGINE_SUCCESS p q NULL (item_get_cas y)) e1
      (store_post e A p cas0 (ENGINE_SUCCESS, <[k := v_stored (e_now e) (next_cas e) (item_value it)]> m1))).
    { unfold store_link. rewrite (proj2 (Z.eqb_neq _ _) (wf_nonnull _ _ _ _ _ _ _ HW HqA)).
      simpl. run. eapply runs_mono; [exact Hover|]. intros _ e2 [[y Hy] Hfin]. run.
      eapply runs_load; [exact Hy|]. apply Hfin. }
    destruct op; try done; simpl.
    + run. eapply update_again; [exact HW1|exact Habs1|done|exact Hq|by rewrite Hnow1|].
      intros e2 it2 L2 HW2 Habs2 Hs2 Hq2.
      eapply finish_failed; [exact HW2|exact Habs2|done|done|by right| |done].
      exact (since_trans _ _ _ _ _ _ _ _ Hgot Hs2).
    + run. eapply runs_load; [exact Hq|]. destruct (item_get_cas it =? item_get_cas o) eqn:Hcas.
      * run. eapply runs_mono; [exact Hover|]. intros _ e2 [_ Hfin]. apply Hfin.
      * by eapply finish_failed; [exact HW1|exact Habs1|done|done|by right|..].
Qed.


(** *** Append and prepend *)

Definition concat_data (op : ENGINE_STORE_OPERATION) (old new : list Z) : list Z :=
  match op with OPERATION_APPEND => old ++ new | _ => new ++ old end.

(** The entry that an append or prepend of [v] to [o] makes. *)
Definition v_concat (op : ENGINE_STORE_OPERATION) (now cas : Z) (o v : value) : value :=
  mk_value now o.(v_exptime) (u32 o.(v_flags)) v.(v_datatype) cas
    (concat_data op o.(v_data) v.(v_data)).

(** What an append or prepend may do: the memory for the new value may cost other
    entries, but not the one that is extended. *)
Definition concat_spec (op : ENGINE_STORE_OPERATION) (oldest_live now cas size_max : Z)
    (k : list Z) (v : value) (m : cache) (r : ENGINE_ERROR_CODE * cache) : Prop :=
  let (old, m1) := spec_get oldest_live now k m in
  match old with
  | None => r = (ENGINE_NOT_STORED, m1)
  | Some o =>
      if negb (v.(v_cas) =? 0) && negb (v.(v_cas) =? o.(v_cas)) then r = (ENGINE_KEY_EEXISTS, m1)
      else if size_max <? Z.of_nat (length o.(v_data) + length v.(v_data))
      then r = (ENGINE_E2BIG, m1)
      else exists m2, m2 ⊆ m1 /\ m2 !! k = Some o /\
        (r = (ENGINE_NOT_STORED, m2) \/
         r = (ENGINE_SUCCESS, <[k := v_concat op now cas o v]> m2))
  end.

Lemma concat_lookup (op : ENGINE_STORE_OPERATION) (oldest_live now cas size_max : Z) (k : list Z) (v : value) (m : cache)
    (r : ENGINE_ERROR_CODE * cache) :
  concat_spec op oldest_live now cas size_max k v m r -> r.1 = ENGINE_SUCCESS ->
  exists o, m !! k = Some o /\ r.2 !! k = Some (v_concat op now cas (v_touch now o) v).
Proof.
  unfold concat_spec, spec_get. destruct (m !! k) as [o|]; [|by intros ->].
  destruct (v_dead _ _ o); [by intros ->|].
  destruct (_ && _); [by intros ->|]. destruct (_ <? _); [by intros ->|].
  intros (m2 & _ & _ & [->| ->]); [done|]. intros _. exists o. split; [done|]. apply lookup_insert_eq.
Qed.

Lemma splice_at (dst src : list Z) off :
  0 <= off -> off + Z.of_nat (length src) <= Z.of_nat (length dst) ->
  splice dst off src = Some (take (Z.to_nat off) dst ++ src ++ drop (Z.to_nat off + length src) dst).
Proof.
  intros Ho Hl. unfold splice. rewrite (proj2 (Z.leb_le 0 off)) by lia.
  by rewrite (proj2 (Z.leb_le _ _)) by lia.
Qed.

Lemma data_length e A D U L p it :
  wf assoc_rep e A D U L -> p ∈ A -> e.(e_heap) !! p = Some it ->
  Z.of_nat (length (item_get_data it it.(it_nbytes))) = it.(it_nbytes) /\ 0 <= it.(it_nbytes).
Proof.
  intros HW HpA Hp. destruct (wf_get _ _ _ _ _ _ _ HW HpA) as (it0 & Hit0 & Hok).
  replace it0 with it in * by congruence. destruct Hok. unfold item_get_data.
  rewrite length_take, length_drop. lia.
Qed.

(** Writing two pieces of data one after the other into the chunk of an item. *)
Definition with_data (it : hash_item) (d : list Z) : hash_item :=
  set_it_body (take (Z.to_nat it.(it_nkey)) it.(it_body) ++ d
                 ++ drop (Z.to_nat it.(it_nkey) + length d) it.(it_body)) it.

Lemma with_data_facts it d :
  0 <= it.(it_nkey) -> it.(it_nkey) + Z.of_nat (length d) <= Z.of_nat (length it.(it_body)) ->
  item_get_key (with_data it d) = item_get_key it /\
  item_get_data (with_data it d) (Z.of_nat (length d)) = d /\
  length (with_data it d).(it_body) = length it.(it_body).
Proof.
  intros Hn Hl. unfold with_data, item_get_key, item_get_data. simpl.
  assert (Hk : length (take (Z.to_nat (it_nkey it)) (it_body it)) = Z.to_nat (it_nkey it)).
  { rewrite length_take. lia. }
  split; [|split].
  - rewrite take_app_le by lia. by rewrite take_take, Nat.min_id.
  - rewrite Nat2Z.id, drop_app_length' by done. apply take_app_length.
  - rewrite !length_app, Hk, length_drop. lia.
Qed.

Lemma write_data_run e p it d (Q : unit -> engine -> Prop) :
  e.(e_heap) !! p = Some it -> 0 <= it.(it_nkey) ->
  it.(it_nkey) + Z.of_nat (length d) <= Z.of_nat (length it.(it_body)) ->
  Q tt (upd_heap (insert p (with_data it d)) e) -> runs (write_data p 0 d) e Q.
Proof.
  intros Hp Hn Hl HQ. unfold write_data. run. eapply runs_load; [exact Hp|]. run.
  { apply splice_at; lia. }
  eapply runs_store; [exact Hp|]. rewrite Z.add_0_r. exact HQ.
Qed.

Lemma write_two_run e r it d1 d2 off (Q : unit -> engine -> Prop) :
  e.(e_heap) !! r = Some it -> 0 <= it.(it_nkey) -> off = Z.of_nat (length d1) ->
  it.(it_nkey) + Z.of_nat (length d1) + Z.of_nat (length d2) <= Z.of_nat (length it.(it_body)) ->
  Q tt (upd_heap (insert r (with_data it (d1 ++ d2))) e) ->
  runs (write_data r 0 d1;; write_data r off d2) e Q.
Proof.
  intros Hr Hn -> Hl HQ. unfold write_data. run. eapply runs_load; [exact Hr|]. run.
  { apply splice_at; lia. }
  eapply runs_store; [exact Hr|]. run. eapply runs_load; [apply lookup_insert_eq|].
  rewrite Z.add_0_r in *. run.
  { apply splice_at; simpl; [lia|]. rewrite !length_app, length_take, length_drop. lia. }
  eapply runs_store; [apply lookup_insert_eq|].
  match goal with |- Q _ (upd_heap (insert r ?i) _) => replace i with (with_data it (d1 ++ d2)) end.
  { unfold upd_heap in *. simpl. rewrite insert_insert_eq. by destruct e. }
  unfold with_data. simpl. assert (Hk : length (take (Z.to_nat (it_nkey it)) (it_body it))
    = Z.to_nat (it_nkey it)) by (rewrite length_take; lia).
  replace (Z.to_nat (it_nkey it + Z.of_nat (length d1)))
    with (length (take (Z.to_nat (it_nkey it)) (it_body it) ++ d1)) by (rewrite length_app; lia).
  rewrite (app_assoc (take _ _) d1), take_app_length, drop_app_ge by lia.
  destruct it. unfold set_it_body. simpl. f_equal. rewrite <- !app_assoc. do 3 f_equal.
  rewrite drop_drop, !length_app. f_equal. simpl in *. lia.
Qed.


(** The end of an append: both references are released; the new item stays. *)
Lemma finish_concat e A D U L m p r old o e0 A0 c cas0 :
  wf assoc_rep e A D U L -> abs e.(e_heap) D m -> p ∈ A -> p <> old -> r ∈ D -> r <> old ->
  item_get_cas <$> (e.(e_heap) !! r) = Some (next_cas e0) ->
  old ∈ A -> e.(e_heap) !! old = Some o -> since (bump_cas e0) A0 [old; r] e A ->
  runs (store_finish ENGINE_SUCCESS r old r c) e (store_post e0 A0 p cas0 (ENGINE_SUCCESS, m)).
Proof.
  intros HW Habs HpA Hpo HrD Hro Hcas HoA Ho Hs. unfold store_finish.
  pose proof (wf_sub _ _ _ _ _ _ HW r HrD) as HrA.
  rewrite (proj2 (Z.eqb_neq _ _) (wf_nonnull _ _ _ _ _ _ _ HW HoA)).
  rewrite (proj2 (Z.eqb_neq _ _) (wf_nonnull _ _ _ _ _ _ _ HW HrA)). simpl when. run.
  eapply do_item_release_abs; [exact HW|exact Habs|done|exact Ho|].
  intros e1 A1 U1 HW1 Habs1 Hf1 Hk1 _ Hsub1 _ Hrel1. run.
  destruct (e_heap e !! r) as [x|] eqn:Hx; [|discriminate]. injection Hcas as Hcas.
  destruct (keeps_item _ _ _ _ _ Hk1 Hro Hx) as (x1 & Hx1 & Hc1).
  pose proof (wf_sub _ _ _ _ _ _ HW1 r HrD) as HrA1.
  eapply do_item_release_abs; [exact HW1|exact Habs1|done|exact Hx1|].
  intros e2 A2 U2 HW2 Habs2 Hf2 Hk2 _ _ Hkept Hrel2. destruct Hkept as [-> Hcr]; [by left|].
  destruct (e_heap e2 !! r) as [x2|] eqn:Hx2; [|discriminate]. apply (inj Some) in Hcr.
  run. eapply runs_load; [exact Hx2|]. run.
  split; [done|]. simpl. split.
  - rewrite (core_cas _ _ Hcr). change (item_get_cas (set_it_refcount _ x1)) with (item_get_cas x1).
    by rewrite (core_cas _ _ Hc1).
  - exists A1, []. split; [by exists D, U2, L|]. split; [set_solver|].
    split; [by apply Hrel2, Hrel1|simpl; lia].
Qed.

(** The times are those of an unsigned clock, and the classes hold less than 1 MB. *)
Definition times_ok (m : cache) : Prop := map_Forall (fun _ v => 0 <= v.(v_time)) m.

Definition classes_ok (e : engine) : Prop := Forall (fun sz => sz <= 1024 * 1024) (sizes_of e).

Lemma small_item e A D U L p it :
  wf assoc_rep e A D U L -> classes_ok e -> p ∈ A -> e.(e_heap) !! p = Some it ->
  0 <= it.(it_nbytes) < 1024 * 1024 /\ Z.of_nat (length (item_get_key it)) < 2 ^ 16.
Proof.
  intros HW Hcl HpA Hp. destruct (wf_get _ _ _ _ _ _ _ HW HpA) as (it0 & Hit0 & Hok).
  replace it0 with it in * by congruence. rewrite (key_length _ _ _ _ _ _ _ Hok).
  destruct Hok. split; [|lia]. destruct io_body as (sz & Hsz & Hb).
  eapply Forall_lookup_1 in Hcl; [|exact Hsz]. unfold body_size, sizeof_hash_item in *.
  destruct (uses_cas e); lia.
Qed.

Lemma linked_time (e : engine) (A D : gset Z) (U : gmap Z Z) (L : list (list Z)) (m : cache) (q : Z) (it : hash_item) :
  wf assoc_rep e A D U L -> abs e.(e_heap) D m -> times_ok m -> q ∈ D ->
  e.(e_heap) !! q = Some it -> 0 <= it.(it_time) <= e.(e_now).
Proof.
  intros HW Habs Ht HqD Hq. split.
  - by apply (Ht _ _ (abs_lookup _ _ _ _ _ _ _ _ HW Habs HqD Hq)).
  - apply (wf_queues _ _ _ _ _ _ HW) in HqD as (i & l & Hl & Hin).
    destruct (recent_all _ _ _ _ (wf_times _ _ _ _ _ _ HW i l Hl) Hin) as (it' & Hit' & Hle).
    by replace it with it' by congruence.
Qed.

(** An item that a lookup just returned is not taken by the search for memory. *)
Lemma got_protected e D p it0 it :
  0 <= it0.(it_time) <= e.(e_now) -> e.(e_now) < 2 ^ 31 -> it.(it_refcount) <> 0 ->
  core it = core (got e.(e_now) it0) -> protected e D p it.
Proof.
  intros Ht Hnow Hr Hc. right. split; [done|]. destruct (core_fields _ _ Hc) as (_&_&_&Htm&_).
  rewrite Htm. unfold got, touched, stale. simpl.
  assert (Hb : e.(e_now) < 60 -> u32 (e.(e_now) - ITEM_UPDATE_INTERVAL) = 2 ^ 32 + e.(e_now) - 60).
  { intros. unfold u32, wrap, ITEM_UPDATE_INTERVAL.
    rewrite <- (Z.mod_add _ 1) by lia. rewrite Z.mod_small by lia. lia. }
  assert (Hb' : 60 <= e.(e_now) -> u32 (e.(e_now) - ITEM_UPDATE_INTERVAL) = e.(e_now) - 60).
  { intros. apply u32_small. unfold ITEM_UPDATE_INTERVAL. lia. }
  apply Z.ltb_ge. unfold TAIL_REPAIR_TIME.
  destruct (Z.ltb_spec (it_time it0) (u32 (e.(e_now) - ITEM_UPDATE_INTERVAL))); simpl;
    rewrite u32_small by lia; lia.
Qed.

Lemma store_concat_run e A D U L p old r x o it op (Q : unit -> engine -> Prop) :
  wf assoc_rep e A D U L -> p ∈ A -> old ∈ A -> e.(e_heap) !! p = Some x ->
  e.(e_heap) !! old = Some o -> e.(e_heap) !! r = Some it -> op = OPERATION_APPEND \/ op = OPERATION_PREPEND ->
  0 <= it.(it_nkey) ->
  it.(it_nkey) + x.(it_nbytes) + o.(it_nbytes) <= Z.of_nat (length it.(it_body)) ->
  Q tt (upd_heap (insert r (with_data it (concat_data op (item_value o).(v_data) (item_value x).(v_data)))) e) ->
  runs (store_concat op p old r) e Q.
Proof.
  intros HW HpA HoA Hp Ho Hr Hop Hn Hfit HQ. unfold store_concat.
  destruct (data_length _ _ _ _ _ _ _ HW HpA Hp) as [Hlx Hx0].
  destruct (data_length _ _ _ _ _ _ _ HW HoA Ho) as [Hlo Ho0].
  run. eapply runs_load; [exact Hp|]. run. eapply runs_load; [exact Ho|].
  destruct Hop as [-> | ->]; (eapply write_two_run; [exact Hr|done|lia|lia|exact HQ]).
Qed.

(** The part of [do_store_item] that links the extended item. *)
Lemma concat_link_run e A D U L m p old r o it op e0 A0 cas0 v :
  wf assoc_rep e ({[r]} ∪ A) D U L -> abs e.(e_heap) D m -> r ∉ A -> p ∈ A -> p <> old ->
  old ∈ D -> e.(e_heap) !! old = Some o -> o.(it_refcount) <> 0 ->
  e.(e_heap) !! r = Some it -> item_get_key it = item_get_key o -> r ∉ D ->
  it.(it_nbytes) < 1024 * 1024 -> Z.of_nat (size D) < 2 ^ 30 ->
  since e0 A0 [r; old] e ({[r]} ∪ A) ->
  v_stored e.(e_now) (next_cas e) (item_value it) = v_concat op e0.(e_now) (next_cas e0) (item_value o) v ->
  runs (store_link r old;; y ← load r; store_finish ENGINE_SUCCESS r old r (item_get_cas y)) e
    (store_post e0 A0 p cas0 (ENGINE_SUCCESS,
       <[item_get_key o := v_concat op e0.(e_now) (next_cas e0) (item_value o) v]> m)).
Proof.
  intros HW Habs HrA HpA Hpo HoD Ho Href Hr Hkey HrD Hnb Hsz Hs Hv.
  destruct (fixed_eq _ _ (since_fixed _ _ _ _ _ Hs)) as (_ & _ & Hnc & _).
  pose proof (wf_sub _ _ _ _ _ _ HW) as HDA. unfold store_link.
  rewrite (proj2 (Z.eqb_neq _ _) (wf_nonnull _ _ _ _ _ _ _ HW (HDA _ HoD))). simpl. run.
  destruct (wf_get assoc_rep _ _ _ _ _ r HW ltac:(set_solver)) as (it0 & Hit0 & Hok).
  replace it0 with it in * by congruence. rewrite bool_decide_eq_false_2 in Hok by done.
  pose proof (io_flags _ _ _ _ _ _ _ Hok) as Hfl.
  eapply (do_item_replace_run assoc_rep e ({[r]} ∪ A) D U L old r); try done; [set_solver|].
  intros e1 U1 L1 HW1 Habs1 Hpost. run.
  pose proof (since_trans _ _ _ _ _ _ _ _ (since_bump _ _ _ _ _ Hs)
    (since_replace _ ({[r]} ∪ A) _ _ _ _ _ Ho Hr Hpost)) as Hs1.
  destruct Hpost as (Hf1 & Hk1 & Hco & Hcr).
  rewrite stored_value, Hv, Hkey in Habs1 by done.
  destruct (e_heap e1 !! r) as [y|] eqn:Hy; [|discriminate]. apply (inj Some) in Hcr.
  destruct (e_heap e1 !! old) as [o1|] eqn:Ho1; [|discriminate].
  eapply runs_load; [exact Hy|].
  eapply (finish_concat e1 _ _ U1 L1 _ p r old o1 e0 A0); [exact HW1|exact Habs1|set_solver|done|
    set_solver|intros ->; set_solver| |by apply HDA|done|
    eapply since_perm; [|exact Hs1]; apply Permutation_swap].
  rewrite Hy. simpl. by rewrite (core_cas _ _ Hcr), linked_cas, Hnc.
Qed.

(** Filling the new item and linking it. *)
Lemma concat_fill_run e A D U L m p q r x o it op e0 A0 cas0 :
  wf assoc_rep e ({[r]} ∪ A) D U L -> abs e.(e_heap) D m -> r ∉ A -> r ∉ D ->
  p ∈ A -> p <> q -> e.(e_heap) !! p = Some x -> q ∈ D -> e.(e_heap) !! q = Some o ->
  item_get_key x = item_get_key o -> o.(it_refcount) <> 0 -> e.(e_heap) !! r = Some it ->
  new_item (item_get_key x) o.(it_flags) o.(it_exptime) (x.(it_nbytes) + o.(it_nbytes))
    x.(it_datatype) it ->
  op = OPERATION_APPEND \/ op = OPERATION_PREPEND ->
  x.(it_nbytes) + o.(it_nbytes) < 1024 * 1024 -> Z.of_nat (size D) < 2 ^ 30 ->
  since e0 A0 [r; q] e ({[r]} ∪ A) ->
  runs (store_concat op p q r;;
        store_link r q;;
        y ← load r;
        store_finish ENGINE_SUCCESS r q r (item_get_cas y)) e
    (store_post e0 A0 p cas0 (ENGINE_SUCCESS, <[item_get_key o :=
       v_concat op e0.(e_now) (next_cas e0) (item_value o) (item_value x)]> m)).
Proof.
  intros HW Habs HrA HrD HpA Hpq Hp HqD Hq Hkey Href Hr Hnew Hop Hnb Hsz Hs.
  destruct (fixed_eq _ _ (since_fixed _ _ _ _ _ Hs)) as (Hnow & _ & Hnc & _).
  pose proof (wf_sub _ _ _ _ _ _ HW q HqD) as HqA.
  destruct (wf_get assoc_rep _ _ _ _ _ r HW ltac:(set_solver)) as (it0 & Hit0 & Hok).
  replace it0 with it in * by congruence. rewrite bool_decide_eq_false_2 in Hok by done.
  destruct (data_length e _ _ _ _ p x HW ltac:(set_solver) Hp) as [Hlx Hx0].
  destruct (data_length _ _ _ _ _ _ _ HW HqA Hq) as [Hlo Ho0].
  set (d := concat_data op (v_data (item_value o)) (v_data (item_value x))).
  assert (Hld : Z.of_nat (length d) = it.(it_nbytes)).
  { rewrite (ni_nbytes _ _ _ _ _ _ Hnew). unfold d.
    destruct Hop as [-> | ->]; simpl; rewrite length_app; lia. }
  pose proof (io_fit _ _ _ _ _ _ _ Hok) as Hfit. pose proof (io_nkey _ _ _ _ _ _ _ Hok) as Hnk.
  destruct (with_data_facts it d) as (Hkd & Hdd & Hbd); [lia|lia|].
  run. eapply store_concat_run; [exact HW|set_solver|exact HqA|exact Hp|exact Hq|exact Hr|exact Hop|lia| |].
  { rewrite (ni_nbytes _ _ _ _ _ _ Hnew) in Hfit. lia. }
  fold d. apply (concat_link_run (upd_heap (insert r (with_data it d)) e) A D U L m p q r o
    (with_data it d) op e0 A0 cas0 (item_value x)); try done.
  - eapply (wf_store_unlinked assoc_rep); [exact HW|set_solver|done|exact Hr|].
    destruct Hok. constructor; try done. by rewrite Hbd. by rewrite Hbd.
  - eapply abs_iff; [exact Habs|]. by apply keeps_insert.
  - simpl. rewrite lookup_insert_ne; [done|]. intros ->. done.
  - apply lookup_insert_eq.
  - rewrite Hkd, (ni_key _ _ _ _ _ _ Hnew). done.
  - simpl. rewrite (ni_nbytes _ _ _ _ _ _ Hnew). done.
  - eapply (since_trans _ _ _ _ _ []); [exact Hs|]. by eapply since_write.
  - unfold v_stored, v_concat, item_value at 1 2 3 4. simpl v_exptime. simpl v_flags. simpl v_datatype.
    simpl v_data. simpl it_nbytes. rewrite <- Hld, Hdd. simpl e_now. rewrite Hnow, <- Hnc.
    f_equal; apply Hnew.
Qed.

Lemma concat_alloc_run e A D U L m p x q o op e0 A0 cas0 :
  wf assoc_rep e A D U L -> abs e.(e_heap) D m -> classes_ok e ->
  p ∈ A -> p ∉ D -> e.(e_heap) !! p = Some x -> q ∈ D -> e.(e_heap) !! q = Some o ->
  item_get_key x = item_get_key o -> o.(it_refcount) <> 0 -> protected e D q o ->
  op = OPERATION_APPEND \/ op = OPERATION_PREPEND -> Z.of_nat (size D) < 2 ^ 30 ->
  since e0 A0 [q] e A ->
  runs (new_it ← do_item_alloc (item_get_key x) o.(it_flags) o.(it_exptime)
                   (x.(it_nbytes) + o.(it_nbytes)) x.(it_datatype);
        if new_it =? NULL then do_item_release q;; mret (ENGINE_NOT_STORED, cas0) else
        store_concat op p q new_it;;
        store_link new_it q;;
        y ← load new_it;
        store_finish ENGINE_SUCCESS new_it q new_it (item_get_cas y)) e
    (fun r e' => exists m2, m2 ⊆ m /\ m2 !! item_get_key o = Some (item_value o) /\
       (store_post e0 A0 p cas0 (ENGINE_NOT_STORED, m2) r e' \/
        store_post e0 A0 p cas0 (ENGINE_SUCCESS, <[item_get_key o :=
          v_concat op e0.(e_now) (next_cas e0) (item_value o) (item_value x)]> m2) r e')).
Proof.
  intros HW Habs Hcl HpA HpD Hp HqD Hq Hkey Href Hprot Hop Hsz Hs.
  pose proof (wf_sub _ _ _ _ _ _ HW q HqD) as HqA.
  destruct (small_item _ _ _ _ _ _ _ HW Hcl HpA Hp) as [Hnx Hkx].
  destruct (small_item _ _ _ _ _ _ _ HW Hcl HqA Hq) as [Hno _].
  assert (Hpq : p <> q) by (intros ->; done).
  assert (Hcommon : forall e2 A2 D2, shrink e A D e2 A2 D2 -> p ∈ A2 /\ q ∈ A2 /\ q ∈ D2 /\ (p ∉ D2) /\
    (exists o2, e2.(e_heap) !! q = Some o2 /\ core o2 = core o) /\
    (exists x2, e2.(e_heap) !! p = Some x2 /\ core x2 = core x) /\
    exists m2, abs e2.(e_heap) D2 m2 /\ m2 ⊆ m /\ m2 !! item_get_key o = Some (item_value o)).
  { intros e2 A2 D2 Hsh. pose proof Hsh as [Hf Hsb Hl Hk Hpr].
    assert (Hp2 : p ∈ A2) by (apply (Hpr p x HpA Hp); by left).
    assert (Hq2 : q ∈ A2) by (by apply (Hpr q o HqA Hq)).
    destruct (keeps_item _ _ _ _ _ Hk Hq2 Hq) as (o2 & Ho2 & Hco).
    destruct (keeps_item _ _ _ _ _ Hk Hp2 Hp) as (x2 & Hx2 & Hcx).
    destruct (abs_shrink assoc_rep _ _ _ _ _ _ _ _ _ HW Habs Hsh) as (m2 & Habs2 & Hsub).
    split; [done|]. split; [done|]. split; [set_solver|]. split; [set_solver|].
    split; [eauto|]. split; [eauto|]. exists m2. split; [done|]. split; [done|].
    destruct (core_value _ _ Hco) as (Hvo & Hko & _). rewrite <- Hvo, <- Hko.
    apply Habs2. exists q, o2. set_solver. }
  run. eapply (do_item_alloc_run assoc_rep); [exact HW|done|lia|..].
  - intros e2 A2 D2 U2 L2 HW2 Hsh.
    destruct (Hcommon _ _ _ Hsh) as (Hp2 & Hq2A & Hq2 & HpD2 & (o2 & Ho2 & _) & _ & m2 & Habs2 & Hsub & Hm2).
    simpl. run. eapply do_item_release_abs; [exact HW2|exact Habs2|exact Hq2A|exact Ho2|].
    intros e3 A3 U3 HW3 Habs3 Hf3 _ _ _ Hkept Hrel. destruct Hkept as [-> _]; [by left|]. run.
    exists m2. split; [done|]. split; [done|]. left. split; [done|]. simpl. split; [done|].
    exists A2, []. split; [by exists D2, U3, L2|]. split; [done|]. split; [|simpl; lia].
    apply Hrel. eapply (since_trans _ _ _ _ _ []); [exact Hs|]. by eapply since_shrink.
  - intros r e2 A2 D2 U2 L2 it HW2 Hsh Hr0 HrA Hr Hnew.
    destruct (Hcommon _ _ _ Hsh) as (Hp2 & Hq2A & Hq2 & HpD2 & (o2 & Ho2 & Hco) & (x2 & Hx2 & Hcx)
      & m2 & Habs2 & Hsub & Hm2).
    rewrite (proj2 (Z.eqb_neq _ _) Hr0).
    destruct (core_value _ _ Hco) as (Hvo & Hko & _), (core_value _ _ Hcx) as (Hvx & Hkx2 & _).
    destruct (core_fields _ _ Hco) as (Hro & _ & _ & _ & _ & _ & Hno2 & _).
    destruct (core_fields _ _ Hcx) as (_ & _ & _ & _ & _ & _ & Hnx2 & _).
    pose proof Hsh as [Hf2 Hs2 Hl2 _ _]. destruct (fixed_eq _ _ Hf2) as (Hn2 & _ & Hc2 & Hcf2).
    eapply runs_mono.
    { eapply (concat_fill_run e2 A2 D2 U2 L2 m2 p q r x2 o2 it op e0 A0 cas0); try done; try congruence.
      - set_solver.
      - rewrite Hno2, Hnx2, Hkx2.
        replace (it_flags o2) with (it_flags o) by (by apply (f_equal v_flags) in Hvo).
        replace (it_exptime o2) with (it_exptime o) by (by apply (f_equal v_exptime) in Hvo).
        replace (it_datatype x2) with (it_datatype x) by (by apply (f_equal v_datatype) in Hvx). done.
      - assert (Hcl2 : classes_ok e2) by (destruct Hf2 as (_ & Hsz2 & _); unfold classes_ok; by rewrite Hsz2).
        destruct (small_item e2 _ _ _ _ r it HW2 Hcl2 ltac:(set_solver) Hr) as [Hnb _].
        rewrite (ni_nbytes _ _ _ _ _ _ Hnew) in Hnb. lia.
      - assert (size D2 <= size D)%nat by (apply subseteq_size; set_solver). lia.
      - eapply (since_trans _ _ _ _ _ [r]); [exact Hs|]. by eapply since_alloc. }
    intros res e3 Hpost. exists m2. split; [done|]. split; [done|]. right.
    by rewrite Hko, Hvo, Hvx in Hpost.
Qed.


Lemma do_store_concat e A m p it op cas0 :
  cache_rep e A m -> held e A p it -> op = OPERATION_APPEND \/ op = OPERATION_PREPEND ->
  classes_ok e -> Z.of_nat (size m) < 2 ^ 30 -> key_ref_ok e A (item_get_key it) -> times_ok m ->
  e.(e_now) < 2 ^ 31 ->
  runs (do_store_item p op cas0) e (fun r e' => exists sp, store_post e A p cas0 sp r e' /\
    concat_spec op (oldest e) e.(e_now) (next_cas e) e.(e_config).(c_item_size_max)
      (item_get_key it) (item_value it) m sp).
Proof.
  intros (D & U & L & HW & Habs) Hheld Hop Hcl Hsz Hrefs Htimes Hnow.
  destruct (held_unlinked _ _ _ _ _ _ _ HW Hheld) as [HpD Hok]. destruct Hheld as (HpA & Hp & _).
  unfold do_store_item, concat_spec. run. eapply runs_load; [exact Hp|]. run.
  set (k := item_get_key it).
  destruct (spec_get (oldest e) (e_now e) k m) as [old m1] eqn:Hsp.
  pose proof (f_equal fst Hsp) as Hsp1. pose proof (f_equal snd Hsp) as Hsp2. simpl in Hsp1, Hsp2.
  assert (Hconcat : is_concat op = true) by (by destruct Hop as [-> | ->]).
  eapply do_item_get_abs; [exact HW|exact Habs|..].
  - intros e1 A1 D1 U1 L1 HW1 Habs1 Hnone Hf1 HA HD Hkeep Hk1 Hs1.
    rewrite Hnone in Hsp1. subst old. rewrite Hsp2 in *.
    rewrite Hconcat, orb_true_r. simpl. eapply runs_mono.
    { eapply (finish_failed e1 A1 D1 U1 L1 m1 p NULL it e A); [exact HW1|exact Habs1|auto|set_solver|by left|done|done]. }
    intros r e2 Hpost. eauto.
  - intros q it0 o e1 U1 L1 HW1 Habs1 Hsome Hf1 Hk1 HqD Hq0 Hq Hkq Hrq Hcq Hs1.
    rewrite Hsome in Hsp1. subst old. destruct (spec_get_Some _ _ _ _ _ Hsome) as [Hmk Hidem].
    rewrite Hsp2 in *. pose proof (wf_sub _ _ _ _ _ _ HW q HqD) as HqA.
    rewrite (proj2 (Z.eqb_neq _ _) (wf_nonnull _ _ _ _ _ _ _ HW HqA)).
    assert (Hpq : p <> q) by (intros ->; done).
    destruct (keeps_self _ _ _ _ _ _ _ _ _ HW Hk1 Hpq Hp) as (it1 & Hp1 & Hc1 & Hv1 & Hki1 & Hn1 & _).
    destruct (fixed_eq _ _ Hf1) as (Hnow1 & _ & Hnc1 & Hcfg1).
    assert (Hcl1 : classes_ok e1) by (destruct Hf1 as (_ & Hz1 & _); unfold classes_ok; by rewrite Hz1).
    pose proof (got_counted e A D U L q it0 o k HW Hrefs HqD Hq0 Hkq Hrq Hcq) as Hrn.
    assert (Hprot : protected e1 D q o).
    { apply (got_protected e1 D q it0 o); rewrite ?Hnow1; [|done..].
      by eapply (linked_time e A D U L m). }
    destruct (small_item _ _ _ _ _ _ _ HW1 Hcl1 HqA Hq) as [Hno _].
    destruct (small_item _ _ _ _ _ _ _ HW Hcl HpA Hp) as [Hnx _].
    destruct (data_length _ _ _ _ _ _ _ HW HpA Hp) as [Hlx _].
    destruct (data_length _ _ _ _ _ _ _ HW1 HqA Hq) as [Hlo _].
    replace (negb false && bool_decide (op = OPERATION_ADD)) with false
      by (by destruct Hop as [-> | ->]).
    replace (bool_decide (op = OPERATION_CAS)) with false by (by destruct Hop as [-> | ->]).
    rewrite Hconcat, orb_true_r. simpl. run. eapply runs_load; [exact Hq|].
    change (item_get_cas it) with (v_cas (item_value it)).
    change (item_get_cas o) with (v_cas (item_value o)).
    destruct (negb _ && negb _) eqn:Hcas; [|].
    { eapply runs_mono.
      { eapply (finish_failed e1 A D U1 L1 m1 p q o e A); [exact HW1|exact Habs1|done|done|by right| |done].
        unfold got_refs. rewrite decide_False; [done|]. by apply (wf_nonnull _ _ _ _ _ _ _ HW). }
      intros r e2 Hpost. eauto. }
    run. rewrite u32_small, swrap_small by lia.
    rewrite Hcfg1. rewrite Nat2Z.inj_add, Hlx, Hlo, (Z.add_comm (it_nbytes o)).
    destruct (Z.ltb_spec (c_item_size_max (e_config e)) (it_nbytes it + it_nbytes o)).
    { run. exists (ENGINE_E2BIG, m1). split; [|done]. split; [done|]. split; [done|].
      exists A, [q]. split; [by exists D, U1, L1|]. done. }
    eapply runs_mono.
    { rewrite <- Hn1. replace k with (item_get_key it1).
      replace (it_datatype it) with (it_datatype it1) by (by apply (f_equal v_datatype) in Hv1).
      eapply (concat_alloc_run e1 A D U1 L1 m1 p it1 q o op e A cas0); try done.
      - by rewrite Hki1, Hkq.
      - pose proof (abs_size assoc_rep _ _ _ _ _ _ HW Habs). lia. }
    intros r e2 (m2 & Hsub & Hm2 & Hpost). rewrite Hv1, Hkq in Hpost. rewrite Hkq in Hm2.
    destruct Hpost as [Hpost|Hpost]; eexists; (split; [exact Hpost|]); exists m2; auto.
Qed.


(** ** A new engine *)

Lemma wf_empty e :
  assoc_rep e.(e_heap) e.(e_assoc) ∅ ->
  slab_inv e.(e_heap) (uses_cas e) e.(e_slabs) e.(e_calls) ∅ ->
  e.(e_items) = mk_items (replicate 200 NULL) (replicate 200 NULL) (replicate 200 no_itemstats)
                  (replicate 200 0) ->
  e.(e_slabs).(s_power_largest) < POWER_LARGEST -> e.(e_stats).(st_curr_items) = 0 ->
  cache_rep e ∅ ∅.
Proof.
  intros Hrep Hinv Hq Hlg Hst. exists ∅, ∅, (replicate 200 []). split.
  - assert (Hr : forall i l, replicate 200 (@nil Z) !! i = Some l -> l = []).
    { intros i l Hl. by apply lookup_replicate_1 in Hl as [-> _]. }
    constructor; try done.
    + rewrite Hq. constructor; try done; intros i l; try intros l' k x; intros Hl%Hr;
        subst; try done; try apply NoDup_nil_2; set_solver.
    + split.
      * intros p. split; [set_solver|]. intros (i & l & Hl%Hr & Hp). subst. set_solver.
      * intros i l p Hl%Hr Hp. subst. set_solver.
    + intros i l Hl%Hr. by subst.
  - intros k v. rewrite lookup_empty. split; [done|]. intros (p & it & Hp & _). set_solver.
Qed.
End proofs.

(** * Properties *)

Section claims.
Context `{EnvOk}.

(** What [item_alloc] promises. *)
Definition alloc_promise (key : list Z) (flags exptime nbytes datatype : Z) (e : engine)
    (A : gset Z) (m : cache) (r : Z) (e' : engine) (A' : gset Z) (m' : cache) : Prop :=
  m' ⊆ m /\ A' ⊆ A /\ e'.(e_config) = e.(e_config) /\ e'.(e_now) = e.(e_now) /\
  (forall q it, q ∈ A -> e.(e_heap) !! q = Some it ->
     has_flag it ITEM_LINKED = false \/ (it.(it_refcount) <> 0 /\
       (u32 (it.(it_time) + TAIL_REPAIR_TIME) <? e.(e_now)) = false) ->
     q ∈ A' /\ core <$> (e'.(e_heap) !! q) = Some (core it)) /\
  if decide (r = NULL) then cache_rep e' A' m' /\ since e A [] e' A'
  else (r ∉ A') /\ cache_rep e' ({[r]} ∪ A') m' /\ since e A [r] e' ({[r]} ∪ A') /\ exists it, held e' ({[r]} ∪ A') r it /\
    new_item key flags exptime nbytes datatype it /\
    it.(it_nkey) + it.(it_nbytes) <= Z.of_nat (length it.(it_body)).

Lemma do_item_alloc_abs e A m key flags exptime nbytes datatype :
  cache_rep e A m -> Z.of_nat (length key) < 2 ^ 16 -> 0 <= nbytes < 2 ^ 31 ->
  runs (do_item_alloc key flags exptime nbytes datatype) e (fun r e' => exists A' m',
    alloc_promise key flags exptime nbytes datatype e A m r e' A' m').
Proof.
  intros (D & U & L & HW & Habs) Hkey Hnb.
  assert (Hprot : forall e' A' D', shrink e A D e' A' D' -> forall q it, q ∈ A ->
    e.(e_heap) !! q = Some it -> has_flag it ITEM_LINKED = false \/ (it.(it_refcount) <> 0 /\
      (u32 (it.(it_time) + TAIL_REPAIR_TIME) <? e.(e_now)) = false) ->
    q ∈ A' /\ core <$> (e'.(e_heap) !! q) = Some (core it)).
  { intros e' A' D' Hsh q it Hq Hit Hp.
    assert (HqA : q ∈ A').
    { apply (sh_protected _ _ _ _ _ _ Hsh q it Hq Hit). destruct Hp as [Hf|Hp]; [|by right].
      left. by apply (held_unlinked e A D U L q it HW). }
    split; [done|]. rewrite (sh_keeps _ _ _ _ _ _ Hsh q HqA). by rewrite Hit. }
  eapply (do_item_alloc_run assoc_rep); [exact HW|done|done|..].
  - intros e' A' D' U' L' HW' Hsh.
    destruct (abs_shrink assoc_rep _ _ _ _ _ _ _ _ _ HW Habs Hsh) as (m' & Habs' & Hsub).
    destruct (fixed_eq _ _ (sh_fixed _ _ _ _ _ _ Hsh)) as (Hn & _ & _ & Hc).
    exists A', m'. split; [done|]. split; [apply Hsh|]. split; [done|]. split; [done|].
    split; [by eapply Hprot|]. simpl. split; [by exists D', U', L'|]. by eapply since_shrink.
  - intros r e' A' D' U' L' it HW' Hsh Hr0 HrA Hr Hnew.
    destruct (abs_shrink assoc_rep _ _ _ _ _ _ _ _ _ HW Habs Hsh) as (m' & Habs' & Hsub).
    destruct (fixed_eq _ _ (sh_fixed _ _ _ _ _ _ Hsh)) as (Hn & _ & _ & Hc).
    destruct (wf_get assoc_rep _ _ _ _ _ r HW' ltac:(set_solver)) as (it0 & Hit0 & Hok).
    replace it0 with it in * by congruence.
    assert (HrD : r ∉ D') by (rewrite (sh_linked _ _ _ _ _ _ Hsh); set_solver).
    rewrite bool_decide_eq_false_2 in Hok by done.
    exists A', m'. split; [done|]. split; [apply Hsh|]. split; [done|]. split; [done|].
    split; [by eapply Hprot|]. rewrite decide_False by done. split; [done|].
    split; [by exists D', U', L'|]. split; [by eapply since_alloc|].
    exists it. split; [|split; [done|apply Hok]].
    split; [set_solver|]. split; [done|]. by destruct (linked_flag _ _ _ _ _ _ _ Hok).
Qed.

(** A client that holds an item writes its data: the cache does not change. *)
Lemma write_data_abs e A m p it d :
  cache_rep e A m -> held e A p it -> Z.of_nat (length d) = it.(it_nbytes) ->
  runs (write_data p 0 d) e (fun _ e' =>
    cache_rep e' A m /\ held e' A p (with_data it d) /\ since e A [] e' A).
Proof.
  intros (D & U & L & HW & Habs) Hheld Hl.
  destruct (held_unlinked _ _ _ _ _ _ _ HW Hheld) as [HpD Hok].
  destruct Hheld as (HpA & Hp & Hf).
  pose proof (io_nkey _ _ _ _ _ _ _ Hok) as Hn. pose proof (io_fit _ _ _ _ _ _ _ Hok) as Hfit.
  destruct (with_data_facts it d) as (Hkd & Hdd & Hbd); [lia|lia|].
  eapply write_data_run; [exact Hp|lia|lia|]. split; [|split; [|by eapply since_write]].
  - exists D, U, L. split.
    + eapply (wf_store_unlinked assoc_rep); [exact HW|done|done|exact Hp|].
      destruct Hok. constructor; try done. by rewrite Hbd. by rewrite Hbd.
    + eapply abs_iff; [exact Habs|]. by apply keeps_insert.
  - split; [done|]. split; [apply lookup_insert_eq|done].
Qed.

(** C14: [item_alloc] always returns. The item that it returns, if any, is not linked and
    is none of the items that stay allocated: its chunk was free, or it belonged to an
    entry that was reclaimed or evicted by this call. It has the key, flags, expiry time,
    size and type that were asked for and one reference, and its chunk has room for the
    key and the data. To find memory the call may only forget cached entries; an item
    that is not linked, or that is referenced and was used in the last three hours, stays
    allocated with its contents. *)
Theorem item_alloc_correct e A m key flags exptime nbytes datatype :
  cache_rep e A m -> Z.of_nat (length key) < 2 ^ 16 -> 0 <= nbytes < 2 ^ 31 ->
  runs (item_alloc key flags exptime nbytes datatype) e (fun r e' => exists A' m',
    alloc_promise key flags exptime nbytes datatype e A m r e' A' m').
Proof. apply do_item_alloc_abs. Qed.

(** C11: [item_get] implements the lookup of the abstract cache: it returns [NULL]
    exactly when the key is not cached, or was flushed or has expired, and then the
    entry is gone, the other entries are as before and so are the items that are not
    linked. Otherwise it returns the item with the cached value: the item has one
    reference more and, when its access time is older than the update interval, the
    current time as its access time; apart from the links of the queues and of the hash
    chains nothing else of it changes, and nothing of any other item. *)
Theorem item_get_correct e A m k :
  cache_rep e A m ->
  runs (item_get k) e (fun r e' =>
    let sp := spec_get (oldest e) e.(e_now) k m in
    e'.(e_config) = e.(e_config) /\ e'.(e_now) = e.(e_now) /\
    exists A', A' ⊆ A /\ cache_rep e' A' sp.2 /\
    match sp.1 with
    | None => r = NULL /\ forall q it, q ∈ A -> e.(e_heap) !! q = Some it -> has_flag it ITEM_LINKED = false ->
        q ∈ A' /\ core <$> (e'.(e_heap) !! q) = Some (core it)
    | Some v => A' = A /\ exists it0 it, r ∈ A /\ e.(e_heap) !! r = Some it0 /\
        e'.(e_heap) !! r = Some it /\ item_get_key it = k /\ item_value it = v /\
        core it = core (set_it_refcount (u16 (it0.(it_refcount) + 1))
                          (set_it_time (if it0.(it_time) <? u32 (e.(e_now) - ITEM_UPDATE_INTERVAL)
                                        then e.(e_now) else it0.(it_time)) it0)) /\
        forall q, q <> r -> core <$> (e'.(e_heap) !! q) = core <$> (e.(e_heap) !! q)
    end).
Proof.
  intros (D & U & L & HW & Habs). eapply do_item_get_abs; [exact HW|exact Habs|..].
  - intros e' A' D' U' L' HW' Habs' Hnone Hf HA HD Hstay Hk _.
    destruct (fixed_eq _ _ Hf) as (Hn & _ & _ & Hc). split; [done|]. split; [done|].
    exists A'. split; [done|]. split; [by exists D', U', L'|]. rewrite Hnone. split; [done|]. intros q it HqA Hq Hfl.
    destruct (held_unlinked _ _ _ _ _ _ _ HW (conj HqA (conj Hq Hfl))) as [HqD _]. split; [auto|]. by rewrite (Hk q HqD), Hq.
  - intros p it0 it e' U' L' HW' Habs' Hsome Hf Hk HpD Hp0 Hp Hkey Href Hcore _.
    destruct (fixed_eq _ _ Hf) as (Hn & _ & _ & Hc). split; [done|]. split; [done|].
    exists A. split; [done|]. split; [by exists D, U', L'|]. rewrite Hsome. split; [done|].
    exists it0, it. split; [by apply (wf_sub _ _ _ _ _ _ HW)|]. split; [done|]. split; [done|]. split; [done|]. split; [done|].
    split; [|exact Hk]. rewrite Hcore. unfold got, touched, stale. cbn [it_time set_it_refcount]. by destruct (_ <? _), it0.
Qed.

(** C10: [store_item] with SET, ADD, REPLACE or CAS implements the abstract store:
    the code, the map of the entries and the CAS value are those of [spec_store], for
    every state of the key (absent, flushed, expired, present) and both outcomes of
    the comparison of the CAS values; no assertion fails, and the item of the caller
    stays allocated. *)
Theorem store_item_correct e A m p it op cas0 :
  cache_rep e A m -> held e A p it -> plain_store op -> it.(it_nbytes) < 1024 * 1024 ->
  Z.of_nat (size m) < 2 ^ 30 -> refs_ok e A ->
  runs (store_item p op cas0) e (fun r e' =>
    let sp := spec_store op (oldest e) e.(e_now) (next_cas e) (item_get_key it)
                (item_value it) m in
    r.1 = sp.1 /\ r.2 = (if decide (sp.1 = ENGINE_SUCCESS) then next_cas e else cas0) /\
    exists A', cache_rep e' A' sp.2 /\ p ∈ A' /\ since (after_store sp.1 e) A [] e' A').
Proof.
  intros Hrep Hheld Hop Hnb Hsz Hrefs. eapply runs_mono.
  { apply (do_store_plain e A m p it op cas0); try done. by apply refs_key. }
  intros r e' (Hr1 & Hr2 & A' & l & Hrep' & Hp & Hs & Hl). cbv zeta. split; [done|]. split; [done|].
  exists A'. split; [done|]. split; [done|]. replace [] with l; [done|].
  apply nil_length_inv. unfold store_leaks in Hl. rewrite decide_False in Hl; [lia|].
  unfold spec_store. destruct (spec_get _ _ _ _) as [[?|] ?], op; simpl; try done. by destruct (_ =? _).
Qed.

(** The item is not dead once it is stored. *)
Definition stays (e : engine) (it : hash_item) : Prop :=
  (it.(it_exptime) = 0 \/ e.(e_now) < it.(it_exptime)) /\ (oldest e = 0 \/ oldest e <> e.(e_now)) /\
  ITEM_UPDATE_INTERVAL <= e.(e_now) < 2 ^ 32.

Lemma spec_set_ok (oldest_live now cas : Z) (k : list Z) (v : value) (m : cache) :
  (spec_store OPERATION_SET oldest_live now cas k v m).1 = ENGINE_SUCCESS.
Proof. unfold spec_store. by destruct (spec_get _ _ _ _) as [[?|] ?]. Qed.

(** A lookup in the map that a successful store leaves. *)
Lemma stored_found (op : ENGINE_STORE_OPERATION) (e : engine) (m : cache) (it : hash_item) :
  stays e it ->
  let k := item_get_key it in
  let sp := spec_store op (oldest e) e.(e_now) (next_cas e) k (item_value it) m in
  sp.1 = ENGINE_SUCCESS ->
  (spec_get (oldest e) e.(e_now) k sp.2).1 = Some (v_stored e.(e_now) (next_cas e) (item_value it)).
Proof.
  intros (Hexp & Hold & Hnow) k sp Hs.
  assert (Hm : sp.2 !! k = Some (v_stored e.(e_now) (next_cas e) (item_value it))).
  { unfold sp, spec_store in *. destruct (spec_get _ _ _ m) as [old m1].
    destruct op, old; simpl in *; try done; try apply lookup_insert_eq.
    destruct (_ =? _); [apply lookup_insert_eq|done]. }
  assert (Hdead : v_dead (oldest e) e.(e_now) (v_stored e.(e_now) (next_cas e) (item_value it)) = false).
  { unfold v_dead. simpl. apply orb_false_iff. split.
    - destruct Hold as [->|Hne]; [done|]. destruct (Z.leb_spec (oldest e) e.(e_now)),
        (Z.leb_spec e.(e_now) (oldest e)); try lia; by rewrite ?andb_false_r.
    - destruct Hexp as [->|Hlt]; [done|]. rewrite (proj2 (Z.leb_gt _ _) Hlt). apply andb_false_r. }
  unfold spec_get. rewrite Hm, Hdead. simpl. unfold v_touch. simpl.
  rewrite u32_small by (unfold ITEM_UPDATE_INTERVAL in *; lia).
  destruct (Z.ltb_spec e.(e_now) (e.(e_now) - ITEM_UPDATE_INTERVAL)) as [Hlt|]; [|done].
  unfold ITEM_UPDATE_INTERVAL in *. lia.
Qed.

(** C12: what was stored is found again: after a SET, an ADD, a REPLACE or a CAS that
    returned [ENGINE_SUCCESS], and in the same second, a lookup of the key returns an
    item with the key, the data, the flags and the type of the item stored and with
    the CAS value that the store returned; a SET always succeeds. The item must not
    be dead on arrival (expired, or stored in the very second a flush is due). *)
Theorem store_get_roundtrip e A m p it op cas0 :
  cache_rep e A m -> held e A p it -> plain_store op -> it.(it_nbytes) < 1024 * 1024 ->
  Z.of_nat (size m) < 2 ^ 30 -> refs_ok e A -> stays e it ->
  runs (c ← store_item p op cas0; q ← item_get (item_get_key it); mret (c, q)) e (fun r e' =>
    (op = OPERATION_SET -> r.1.1 = ENGINE_SUCCESS) /\
    (r.1.1 = ENGINE_SUCCESS -> exists it', e'.(e_heap) !! r.2 = Some it' /\
       item_get_key it' = item_get_key it /\
       item_value it' = v_stored e.(e_now) r.1.2 (item_value it))).
Proof.
  intros Hrep Hheld Hop Hnb Hsz Hrefs%(refs_key _ _ (item_get_key it)) Hstay. run.
  eapply runs_mono; [by apply (do_store_plain e A m p it op cas0)|].
  intros r e1 (Hr1 & Hr2 & A1 & l & (D & U & L & HW & Habs) & _ & Hs1 & _). run.
  assert (Hcn : e1.(e_config) = e.(e_config) /\ e1.(e_now) = e.(e_now)).
  { apply since_fixed, fixed_eq in Hs1 as (-> & _ & _ & ->). unfold after_store. by destruct (decide _). }
  destruct Hcn as [Hc Hn]. pose proof (stored_found op e m it Hstay) as Hfound. cbv zeta in Hfound.
  rewrite <- Hr1 in Hfound.
  assert (Ho : oldest e1 = oldest e) by (unfold oldest; by rewrite Hc).
  eapply do_item_get_abs; [exact HW|exact Habs|..].
  - intros e2 A2 D2 U2 L2 _ _ Hnone _ _ _ _ _ _. run. rewrite Ho, Hn in Hnone. simpl.
    split; [intros ->; rewrite Hr1; apply spec_set_ok|].
    intros Hs. rewrite (Hfound Hs) in Hnone. discriminate.
  - intros q it0 it' e2 U2 L2 _ _ Hsome _ _ _ _ Hq Hk _ _ _. run. rewrite Ho, Hn in Hsome. simpl.
    split; [intros ->; rewrite Hr1; apply spec_set_ok|].
    intros Hs. exists it'. split; [done|]. split; [done|]. rewrite (Hfound Hs) in Hsome.
    apply (inj Some) in Hsome. rewrite <- Hsome, Hr2, decide_True; [done|by rewrite <- Hr1].
Qed.

(** C13: [store_item] with APPEND or PREPEND extends the entry of the key by the data
    of the item, after or before the old data, with the flags and the expiry time of
    the old entry and a new CAS value; it returns [ENGINE_NOT_STORED] when the key is
    not cached or memory is short, [ENGINE_KEY_EEXISTS] on a CAS mismatch and
    [ENGINE_E2BIG] when the result would be larger than the limit; the search for
    memory never takes the entry that is being extended. *)
Theorem store_item_concat e A m p it op cas0 :
  cache_rep e A m -> held e A p it -> op = OPERATION_APPEND \/ op = OPERATION_PREPEND ->
  classes_ok e -> Z.of_nat (size m) < 2 ^ 30 -> refs_ok e A -> times_ok m ->
  e.(e_now) < 2 ^ 31 ->
  runs (store_item p op cas0) e (fun r e' => exists sp,
    concat_spec op (oldest e) e.(e_now) (next_cas e) e.(e_config).(c_item_size_max)
      (item_get_key it) (item_value it) m sp /\
    r.1 = sp.1 /\ r.2 = (if decide (sp.1 = ENGINE_SUCCESS) then next_cas e else cas0) /\
    exists A', cache_rep e' A' sp.2 /\ p ∈ A').
Proof.
  intros Hrep Hheld Hop Hcl Hsz Hrefs%(refs_key _ _ (item_get_key it)) Ht Hnow.
  eapply runs_mono; [by apply (do_store_concat e A m p it op cas0)|].
  intros r e' (sp & (Hr1 & Hr2 & A' & l & Hrep' & Hp & _) & Hsp). exists sp. eauto 10.
Qed.

End claims.

(** ** Witnesses *)

#[local] Existing Instance demo_env.
#[local] Existing Instance demo_env_ok.

(** The small engine with a table of four buckets, at the time 100. *)
Definition small_cache : engine := Eval vm_compute in
  set_e_now 100 (set_e_assoc (mk_assoc 2 [0; 0; 0; 0] [] 0 false 0) small_slabs).

Lemma small_cache_rep : cache_rep small_cache ∅ ∅.
Proof.
  apply wf_empty; try done.
  - by apply assoc_rep_empty.
  - apply (small_slab_inv 0).
Qed.

Lemma item_alloc_correct_witness :
  exists r e' A' m', item_alloc [97; 98] 5 0 3 0 small_cache = Some (r, e') /\ r = 3145728 /\
    alloc_promise [97; 98] 5 0 3 0 small_cache ∅ ∅ r e' A' m'.
Proof.
  destruct (item_alloc_correct small_cache ∅ ∅ [97; 98] 5 0 3 0) as (r & e' & Hr & A' & m' & Hp);
    [apply small_cache_rep|simpl; lia|lia|].
  exists r, e', A', m'. split; [exact Hr|]. split; [|exact Hp].
  vm_compute in Hr. by injection Hr as <- _.
Defined.

(** The state an operation ends in; witnesses build their engines with it. *)
Definition final {A} (m : E A) (e : engine) : engine :=
  match m e with Some (_, e') => e' | None => e end.

Lemma final_eq {A} (m : E A) e (a : A) e' : m e = Some (a, e') -> final m e = e'.
Proof. unfold final. by intros ->. Qed.

(** The map that a represented cache holds, by evaluation. *)
Ltac map_is H m' :=
  match type of H with
  | cache_rep _ _ ?m0 => replace m0 with m' in H by (vm_compute; reflexivity)
  end.

(** The items of an engine, checked by evaluation. *)
Lemma heap_checked e A m (P : hash_item -> Prop) `{forall it, Decision (P it)} :
  cache_rep e A m ->
  bool_decide (map_Forall (fun _ it => P it) e.(e_heap)) = true ->
  forall q it, q ∈ A -> e.(e_heap) !! q = Some it -> P it.
Proof. intros _ Hb%bool_decide_eq_true q it _ Hq. by apply (Hb q). Qed.

(** A client holds an item [ab] with the data [xyz], and stores it. *)
Definition item_a : Z := 3145728.
Definition item_b : Z := 3145824.

Definition alloc_cache : engine := final (do_item_alloc [97; 98] 5 0 3 0) small_cache.
Definition held_cache : engine := final (write_data item_a 0 [120; 121; 122]) alloc_cache.
Definition held_item : hash_item := Eval vm_compute in
  default (zero_item 0) (held_cache.(e_heap) !! item_a).
Definition stored_cache : engine := final (do_store_item item_a OPERATION_SET 0) held_cache.
Definition stored_map : cache := {[ [97; 98] := mk_value 100 0 5 0 1 [120; 121; 122] ]}.

(** The same client then holds a second item, [ab] with the data [12]. *)
Definition alloc2_cache : engine := final (do_item_alloc [97; 98] 9 0 2 0) stored_cache.
Definition held2_cache : engine := final (write_data item_b 0 [49; 50]) alloc2_cache.
Definition held2_item : hash_item := Eval vm_compute in
  default (zero_item 0) (held2_cache.(e_heap) !! item_b).

Lemma alloc_cache_held : exists it, held alloc_cache {[item_a]} item_a it /\
  cache_rep alloc_cache {[item_a]} ∅ /\ new_item [97; 98] 5 0 3 0 it /\
  it.(it_nkey) + it.(it_nbytes) <= Z.of_nat (length it.(it_body)).
Proof.
  destruct (do_item_alloc_abs small_cache ∅ ∅ [97; 98] 5 0 3 0)
    as (r & e' & Hr & A' & m' & Hm & HA & _ & _ & _ & Hc); [apply small_cache_rep|simpl; lia|lia|].
  assert (r = item_a) as ->.
  { assert (Hr' : fst <$> do_item_alloc [97; 98] 5 0 3 0 small_cache = Some item_a)
      by (vm_compute; reflexivity). rewrite Hr in Hr'. simpl in Hr'. congruence. }
  unfold alloc_cache. rewrite (final_eq _ _ _ _ Hr). rewrite decide_False in Hc by done.
  destruct Hc as (HrA & Hrep & _ & it & Hheld & Hnew & Hb).
  clear Hr. assert (A' = ∅) as -> by (clear -HA; set_solver). assert (m' = ∅) as ->.
  { clear -Hm. apply map_empty. intros k. by apply (lookup_weaken_None m' ∅ k). }
  rewrite (right_id_L ∅ (∪)) in Hrep, Hheld. by exists it.
Qed.

(** A state reached by evaluation, given that the operation runs. *)
Lemma final_runs {A} (m : E A) e (Q : A -> engine -> Prop) :
  runs m e Q -> exists a, fst <$> m e = Some a /\ Q a (final m e).
Proof. intros (a & e' & Hm & HQ). exists a. by rewrite (final_eq _ _ _ _ Hm), Hm. Qed.

Lemma held_is e A p it it' : held e A p it -> e.(e_heap) !! p = Some it' -> held e A p it'.
Proof. intros (HA & Hp & Hf) Hp'. rewrite Hp in Hp'. injection Hp' as <-. done. Qed.

Lemma held_cache_rep : cache_rep held_cache {[item_a]} ∅ /\ held held_cache {[item_a]} item_a held_item.
Proof.
  destruct alloc_cache_held as (it & Hheld & Hrep & Hnew & Hb).
  destruct (final_runs _ _ _ (write_data_abs _ _ _ _ _ [120; 121; 122] Hrep Hheld
    ltac:(rewrite (ni_nbytes _ _ _ _ _ _ Hnew); reflexivity))) as (a & _ & Hr & Hh & _).
  split; [exact Hr|]. eapply held_is; [exact Hh|]. vm_compute. reflexivity.
Qed.

Lemma held_refs_ok : refs_ok held_cache {[item_a]}.
Proof.
  refine (heap_checked held_cache _ ∅ (fun it => it.(it_refcount) < 65535) _ _); [apply held_cache_rep|].
  vm_compute. reflexivity.
Qed.

Lemma store_item_correct_witness :
  exists r e', store_item item_a OPERATION_SET 0 held_cache = Some (r, e') /\
    r = (ENGINE_SUCCESS, 1) /\ exists A', cache_rep e' A' stored_map.
Proof.
  destruct (store_item_correct held_cache {[item_a]} ∅ item_a held_item OPERATION_SET 0)
    as (r & e' & Hr & H1 & H2 & A' & HA & _);
    [apply held_cache_rep|apply held_cache_rep|done|vm_compute; reflexivity|
     vm_compute; reflexivity|apply held_refs_ok|].
  exists r, e'. split; [exact Hr|]. split.
  - rewrite (surjective_pairing r), H1, H2. vm_compute. reflexivity.
  - exists A'. by map_is HA stored_map.
Defined.

Lemma store_get_roundtrip_witness :
  exists c q e' it', (c ← store_item item_a OPERATION_SET 0; q ← item_get [97; 98]; mret (c, q))
      held_cache = Some ((c, q), e') /\
    e'.(e_heap) !! q = Some it' /\ item_get_data it' it'.(it_nbytes) = [120; 121; 122].
Proof.
  destruct held_cache_rep as [Hrep Hheld].
  destruct (store_get_roundtrip held_cache {[item_a]} ∅ item_a held_item OPERATION_SET 0 Hrep Hheld)
    as (r & e' & Hr & Hset & Hp);
    [done|vm_compute; reflexivity|vm_compute; reflexivity|apply held_refs_ok|..].
  - split; [by left|]. split; [by left|]. split; vm_compute; [discriminate|reflexivity].
  - destruct (Hp (Hset eq_refl)) as (it' & Hit' & Hk & Hv). exists r.1, r.2, e', it'.
    split; [rewrite <- surjective_pairing; exact Hr|]. split; [exact Hit'|].
    exact (f_equal v_data Hv).
Defined.

(** The engine after the store, and the client's second item. *)
Lemma stored_cache_rep : exists A, cache_rep stored_cache A stored_map /\ item_a ∈ A.
Proof.
  destruct held_cache_rep as [Hrep Hheld].
  destruct (final_runs _ _ _ (do_store_plain held_cache {[item_a]} ∅ item_a held_item
    OPERATION_SET 0 Hrep Hheld ltac:(done) ltac:(reflexivity) ltac:(vm_compute; reflexivity)
    (refs_key _ _ _ held_refs_ok)))
    as (a & _ & _ & _ & A' & l & HA & Hin & _).
  exists A'. split; [by map_is HA stored_map|exact Hin].
Qed.

Lemma item_get_correct_witness :
  exists e' A', item_get [97; 98] stored_cache = Some (item_a, e') /\
    cache_rep e' A' stored_map /\ cache_rep stored_cache A' stored_map.
Proof.
  destruct stored_cache_rep as (A & Hrep & _).
  destruct (item_get_correct stored_cache A stored_map [97; 98] Hrep)
    as (r & e' & Hr & _ & _ & A' & _ & HA & Hm).
  assert (Hr' : fst <$> item_get [97; 98] stored_cache = Some item_a) by (vm_compute; reflexivity).
  rewrite Hr in Hr'. simpl in Hr'. injection Hr' as ->. exists e', A'.
  assert (Hs : spec_get (oldest stored_cache) stored_cache.(e_now) [97; 98] stored_map
               = (Some (mk_value 100 0 5 0 1 [120; 121; 122]), stored_map)) by (vm_compute; reflexivity).
  rewrite Hs in HA, Hm. split; [exact Hr|]. destruct Hm as [-> _]. split; [exact HA|exact Hrep].
Defined.

Lemma held2_cache_rep : exists A m, cache_rep held2_cache A m /\ held held2_cache A item_b held2_item
  /\ m ⊆ stored_map.
Proof.
  destruct stored_cache_rep as (A & Hrep & _).
  destruct (final_runs _ _ _ (do_item_alloc_abs stored_cache A stored_map [97; 98] 9 0 2 0 Hrep
    ltac:(simpl; lia) ltac:(lia))) as (r & Hr & A' & m' & Hm & _ & _ & _ & _ & Hc).
  assert (r = item_b) as ->.
  { assert (Hr' : fst <$> do_item_alloc [97; 98] 9 0 2 0 stored_cache = Some item_b)
      by (vm_compute; reflexivity). rewrite Hr in Hr'. congruence. }
  rewrite decide_False in Hc by done. destruct Hc as (_ & Hrep' & _ & it & Hheld & Hnew & _).
  destruct (final_runs _ _ _ (write_data_abs _ _ _ _ _ [49; 50] Hrep' Hheld
    ltac:(rewrite (ni_nbytes _ _ _ _ _ _ Hnew); reflexivity))) as (a & _ & Hr2 & Hh & _).
  exists ({[item_b]} ∪ A'), m'. split; [exact Hr2|]. split; [|exact Hm].
  eapply held_is; [exact Hh|]. vm_compute. reflexivity.
Qed.

Lemma store_item_concat_witness :
  exists r e', store_item item_b OPERATION_APPEND 0 held2_cache = Some (r, e') /\
    r = (ENGINE_SUCCESS, 2) /\
    exists A' m', cache_rep e' A' m' /\
      m' !! [97; 98] = Some (mk_value 100 0 5 0 2 [120; 121; 122; 49; 50]).
Proof.
  destruct held2_cache_rep as (A & m & Hrep & Hheld & Hm).
  destruct (store_item_concat held2_cache A m item_b held2_item OPERATION_APPEND 0 Hrep Hheld)
    as (r & e' & Hr & sp & Hsp & H1 & H2 & A' & HA & _).
  - by left.
  - unfold classes_ok. refine (bool_decide_eq_true_1 _ _). vm_compute. reflexivity.
  - pose proof (map_subseteq_size _ _ Hm) as Hs. assert (Hs1 : size stored_map = 1%nat) by reflexivity. lia.
  - refine (heap_checked _ _ _ (fun it => it.(it_refcount) < 65535) Hrep _). vm_compute. reflexivity.
  - intros k v Hk. eapply lookup_weaken in Hk; [|exact Hm].
    unfold stored_map in Hk. apply lookup_singleton_Some in Hk as [_ <-]. vm_compute. discriminate.
  - vm_compute. reflexivity.
  - assert (Hr' : fst <$> store_item item_b OPERATION_APPEND 0 held2_cache = Some (ENGINE_SUCCESS, 2))
      by (vm_compute; reflexivity).
    rewrite Hr in Hr'. injection Hr' as ->. exists (ENGINE_SUCCESS, 2), e'.
    split; [exact Hr|]. split; [done|]. exists A', sp.2. split; [exact HA|].
    destruct (concat_lookup _ _ _ _ _ _ _ _ _ Hsp (eq_sym H1)) as (o & Ho & Hl).
    change (item_get_key held2_item) with [97; 98] in *. rewrite Hl.
    assert (Ho' : stored_map !! [97; 98] = Some o) by (by eapply lookup_weaken).
    vm_compute in Ho'. injection Ho' as <-. vm_compute. reflexivity.
Defined.
