(* ===== verification/Flush.v ===== *)
(** * Flushing the cache

    [item_flush_expired] of [items.c] against the abstract cache: it walks each
    queue from its head and stops at the first item that is older than the flush,
    which is right because the times of a queue decrease ([wf_times]); what is
    left is dead for every lookup from the time of the flush on. *)
From Stdlib Require Import ZArith Lia SpecFloat.
From stdpp Require Import strings gmap prelude.
From S2P Require Import Prelude Util EngineState Assoc Slabs Items Lru Cache Refs Store.

#[local] Set Warnings "-clear-no-such-hyp".

(** The entries that a flush at the time [t] leaves to the lookups to drop. *)
Definition older (t : Z) (m : cache) : cache := filter (fun kv => v_time kv.2 < t) m.

(** A flush takes no item from a client that has a reference to it. *)
Definition held_stay (e : engine) (A : gset Z) (e' : engine) (A' : gset Z) : Prop :=
  forall p it, p ∈ A -> e.(e_heap) !! p = Some it -> it.(it_refcount) <> 0 ->
    p ∈ A' /\ exists it', e'.(e_heap) !! p = Some it' /\ item_value it' = item_value it /\
      item_get_key it' = item_get_key it /\ it'.(it_refcount) = it.(it_refcount).

(** Some of the entries of [m] with a time of at least [t] are gone in [m']. *)
Definition thinned (t : Z) (m m' : cache) : Prop :=
  m' ⊆ m /\ older t m ⊆ m'.

Definition queue_old (h : gmap Z hash_item) (t : Z) (l : list Z) : Prop :=
  forall p it, p ∈ l -> h !! p = Some it -> it.(it_time) < t.

Lemma held_stay_refl e A : held_stay e A e A.
Proof. intros p it Hp Hit _. split; [done|]. eauto. Qed.

Lemma held_stay_trans e1 A1 e2 A2 e3 A3 :
  held_stay e1 A1 e2 A2 -> held_stay e2 A2 e3 A3 -> held_stay e1 A1 e3 A3.
Proof.
  intros H1 H2 p it Hp Hit Hr. destruct (H1 p it Hp Hit Hr) as (Hp2 & it2 & Hit2 & Hv & Hk & Hr2).
  destruct (H2 p it2 Hp2 Hit2) as (Hp3 & it3 & Hit3 & ? & ? & ?); [congruence|].
  split; [done|]. exists it3. split_and!; congruence.
Qed.

Lemma thinned_refl t m : thinned t m m.
Proof. split; [done|]. apply map_filter_subseteq. Qed.

Lemma thinned_trans t m1 m2 m3 : thinned t m1 m2 -> thinned t m2 m3 -> thinned t m1 m3.
Proof.
  intros [Hs1 Ho1] [Hs2 Ho2]. split; [by transitivity m2|].
  apply map_subseteq_spec. intros k v Hk. eapply lookup_weaken; [|exact Ho2].
  apply map_lookup_filter_Some. split; [by eapply lookup_weaken|].
  by apply map_lookup_filter_Some in Hk as [_ ?].
Qed.

Lemma thinned_delete t m k v : m !! k = Some v -> t <= v_time v -> thinned t m (delete k m).
Proof.
  intros Hk Ht. split; [apply delete_subseteq|]. apply map_subseteq_spec. intros k' v' Hk'.
  apply map_lookup_filter_Some in Hk' as [Hk' Hlt]. simpl in Hlt.
  rewrite lookup_delete_ne; [done|]. intros ->. rewrite Hk in Hk'. injection Hk' as ->. lia.
Qed.

(** What is left when every entry is old. *)
Lemma thinned_older t m m' :
  thinned t m m' -> (forall k v, m' !! k = Some v -> v_time v < t) -> m' = older t m.
Proof.
  intros [Hs Ho] Hold. apply map_eq. intros k. destruct (m' !! k) as [v|] eqn:Hk.
  - symmetry. apply map_lookup_filter_Some. split; [by eapply lookup_weaken|]. by eapply Hold.
  - destruct (older t m !! k) as [v|] eqn:Hk'; [|done].
    rewrite (lookup_weaken _ _ _ _ Hk' Ho) in Hk. discriminate.
Qed.

Lemma recent_old h t t' l : recent h t' l -> t' < t -> queue_old h t l.
Proof.
  intros Hr Ht p it Hp Hit. destruct (recent_all _ _ _ _ Hr Hp) as (it' & Hit' & Hle).
  replace it' with it in * by congruence. lia.
Qed.

Section proofs.
Context `{EnvOk}.

Lemma unlink_held e A D p it e' A' :
  unlink_post e A D p it e' A' -> e.(e_heap) !! p = Some it ->
  has_flag it ITEM_WITH_CAS = uses_cas e -> held_stay e A e' A'.
Proof.
  intros (Hf & Hk & Hz & Hnz) Hp Hc q jt Hq Hjt Hr. destruct (decide (q = p)) as [->|Hne].
  - replace jt with it in * by congruence. destruct (Hnz Hr) as [-> Hcore]. split; [done|].
    destruct (e_heap e' !! p) as [it'|]; [|discriminate]. apply (inj Some) in Hcore.
    destruct (core_value _ _ Hcore) as (Hv & Hkey & _), (core_fields _ _ Hcore) as (Href & _).
    exists it'. split_and!; [done| |done|done]. rewrite Hv. unfold item_value, item_get_cas. simpl.
    rewrite Hc. unfold has_flag. simpl. by destruct (uses_cas e).
  - destruct (keeps_item _ _ _ _ _ Hk Hne Hjt) as (jt' & Hjt' & Hc').
    destruct (core_value _ _ Hc') as (Hv & Hkey & _), (core_fields _ _ Hc') as (Href & _).
    split; [|by exists jt']. destruct (decide (it_refcount it = 0)) as [Hi|Hi];
      [rewrite (Hz Hi); set_solver|by destruct (Hnz Hi) as [-> _]].
Qed.

Lemma cas_flag uc sizes lg U p b it :
  item_ok uc sizes lg U p b it -> has_flag it ITEM_WITH_CAS = uc.
Proof.
  intros Hok. rewrite (has_flag_iflags _ _ _ _ (io_flags _ _ _ _ _ _ _ Hok)). by destruct uc, b.
Qed.

(** One queue: its items from the time [t] on are unlinked, and the other queues
    are as before. *)
Lemma flush_queue_run t l : forall fuel e A D U L m i (Q : unit -> engine -> Prop),
  wf assoc_rep e A D U L -> abs e.(e_heap) D m -> L !! i = Some l -> (length l < fuel)%nat ->
  (forall e' A' D' U' l' m', wf assoc_rep e' A' D' U' (<[i := l']> L) -> abs e'.(e_heap) D' m' ->
     queue_old e'.(e_heap) t l' -> D' ⊆ D -> keeps (fun q => q ∈ D') e e' ->
     thinned t m m' -> since e A [] e' A' -> A' ⊆ A -> held_stay e A e' A' -> Q tt e') ->
  runs (flush_queue fuel t (hdd NULL l)) e Q.
Proof.
  induction l as [|p l IH]; intros [|n] e A D U L m i Q HW Habs Hl Hfuel HQ; simpl in Hfuel; try lia.
  { apply runs_ret. apply (HQ e A D U [] m); rewrite ?list_insert_id by done; try done;
      [by intros ? ? ?%elem_of_nil|apply thinned_refl|apply held_stay_refl]. }
  destruct (wf_queues _ _ _ _ _ _ HW) as [Hq1 Hq2].
  assert (HpD : p ∈ D) by (apply Hq1; exists i, (p :: l); split; [done|left]).
  pose proof (wf_sub _ _ _ _ _ _ HW p HpD) as HpA.
  destruct (wf_get _ _ _ _ _ _ _ HW HpA) as (it & Hit & Hok).
  rewrite bool_decide_eq_true_2 in Hok by done.
  destruct (linked_flag _ _ _ _ _ _ _ Hok) as [_ Hsl].
  specialize (Hq2 i _ p Hl ltac:(left)). rewrite Hit in Hq2. injection Hq2 as Hcls.
  assert (Hi : Z.to_nat (it_slabs_clsid it) = i) by lia.
  destruct (wf_times _ _ _ _ _ _ HW i _ Hl) as (it0 & Hit0 & Hle & Hrec).
  replace it0 with it in * by congruence. clear Hit0 it0.
  assert (Hnext : it_next it = hdd NULL l).
  { pose proof (lr_seg _ _ _ (wf_lru _ _ _ _ _ _ HW) i _ Hl) as [Hv _].
    apply lviews_lookup in Hv as (it' & Hit' & Hv). replace it' with it in * by congruence.
    by injection Hv. }
  simpl. rewrite (proj2 (Z.eqb_neq _ _) (wf_nonnull _ _ _ _ _ _ _ HW HpA)). run.
  eapply runs_load; [exact Hit|]. destruct (Z.leb_spec t (it_time it)) as [Ht|Ht].
  2:{ run. apply (HQ e A D U (p :: l) m); rewrite ?list_insert_id by done; try done;
        [|apply thinned_refl|apply held_stay_refl].
      intros q jt [->|Hq]%elem_of_cons Hjt; [congruence|]. by eapply recent_old. }
  rewrite Hsl. simpl when. run.
  eapply (do_item_unlink_at assoc_rep e A D U L p it [] l); [exact HW|done|exact Hit|by rewrite Hi|].
  intros e1 A1 U1 HW1 Hpost. rewrite Hi in HW1. simpl in HW1. rewrite Hnext.
  pose proof Hpost as (Hf & Hk & Hz & Hnz).
  pose proof (abs_lookup _ _ _ _ _ _ _ _ HW Habs HpD Hit) as Hm.
  eapply (IH n e1 A1 (D ∖ {[p]}) U1 (<[i := l]> L) (delete (item_get_key it) m) i).
  - exact HW1.
  - by eapply (abs_remove assoc_rep e A D U L).
  - apply list_lookup_insert_eq. by eapply lookup_lt_Some.
  - lia.
  - intros e' A' D' U' l' m'. rewrite list_insert_insert_eq. intros HW' Habs' Hold HD Hk' Hth Hs' HA Hh.
    apply (HQ e' A' D' U' l' m'); try done.
    + set_solver.
    + eapply keeps_trans; [|exact Hk']. eapply keeps_weaken; [|exact Hk]. set_solver.
    + eapply thinned_trans; [|exact Hth]. eapply thinned_delete; [exact Hm|done].
    + eapply (since_trans _ _ [] _ _ []); [|exact Hs']. by eapply (since_unlink e A D).
    + transitivity A1; [done|]. destruct (decide (it_refcount it = 0)) as [Hr|Hr];
        [rewrite (Hz Hr); set_solver|by destruct (Hnz Hr) as [-> _]].
    + eapply held_stay_trans; [|exact Hh]. eapply unlink_held; [exact Hpost|exact Hit|].
      by eapply cas_flag.
Qed.

Lemma queue_length e A D U L i l :
  wf assoc_rep e A D U L -> L !! i = Some l -> (length l <= size e.(e_heap))%nat.
Proof.
  intros HW Hl. pose proof (lr_nodup _ _ _ (wf_lru _ _ _ _ _ _ HW) i l Hl) as Hnd.
  rewrite <- (size_list_to_set (C := gset Z) l Hnd), <- size_dom. apply subseteq_size.
  intros p Hp%elem_of_list_to_set. apply elem_of_dom.
  destruct (wf_queues _ _ _ _ _ _ HW) as [Hq _].
  assert (HpD : p ∈ D) by (apply Hq; eauto).
  destruct (wf_get _ _ _ _ _ _ _ HW (wf_sub _ _ _ _ _ _ HW p HpD)) as (it & Hit & _). eauto.
Qed.

Lemma queue_old_keeps e e' t (j : gset Z) l :
  queue_old e.(e_heap) t l ->
  keeps (fun q => q ∈ j) e e' -> (forall p, p ∈ l -> p ∈ j) -> queue_old e'.(e_heap) t l.
Proof.
  intros Hold Hk Hin p it Hp Hit.
  destruct (keeps_item_inv _ _ _ _ _ Hk (Hin p Hp) Hit) as (it0 & Hit0 & Hc).
  destruct (core_fields _ _ Hc) as (_ & _ & _ & Ht & _). rewrite Ht. by eapply Hold.
Qed.

(** All queues from the [i]-th on. *)
Lemma flush_queues_run t n : forall e A D U L m i (Q : unit -> engine -> Prop),
  wf assoc_rep e A D U L -> abs e.(e_heap) D m -> 0 <= i -> Z.of_nat n + i = POWER_LARGEST ->
  (forall j l, (j < Z.to_nat i)%nat -> L !! j = Some l -> queue_old e.(e_heap) t l) ->
  (forall e' A' D' U' L' m', wf assoc_rep e' A' D' U' L' -> abs e'.(e_heap) D' m' ->
     (forall j l, L' !! j = Some l -> queue_old e'.(e_heap) t l) ->
     thinned t m m' -> since e A [] e' A' -> A' ⊆ A -> held_stay e A e' A' -> Q tt e') ->
  runs (flush_queues n i t) e Q.
Proof.
  induction n as [|n IH]; intros e A D U L m i Q HW Habs Hi Hn Hold HQ; cbn [flush_queues].
  { run. apply (HQ e A D U L m); try done; [|apply thinned_refl|apply held_stay_refl].
    intros j l Hj. eapply Hold; [|exact Hj]. apply lookup_lt_Some in Hj.
    rewrite (lr_len _ _ _ (wf_lru _ _ _ _ _ _ HW)) in Hj. lia. }
  destruct (lru_lookup_Z L i) as [l Hl]; [apply (wf_lru _ _ _ _ _ _ HW)|lia|].
  run. eapply runs_get_head; [apply HW|lia|exact Hl|]. run.
  eapply (flush_queue_run t l); [exact HW|exact Habs|exact Hl| |].
  { pose proof (queue_length _ _ _ _ _ _ _ HW Hl). lia. }
  intros e1 A1 D1 U1 l1 m1 HW1 Habs1 Hold1 HD1 Hk1 Hth1 Hf1 HA1 Hh1.
  eapply (IH e1 A1 D1 U1 _ m1); [exact HW1|exact Habs1|lia|lia| |].
  - intros j k Hj Hjk. destruct (decide (j = Z.to_nat i)) as [->|Hne].
    + rewrite list_lookup_insert_eq in Hjk by (by eapply lookup_lt_Some). by injection Hjk as <-.
    + rewrite list_lookup_insert_ne in Hjk by done.
      eapply (queue_old_keeps e e1 t D1); [|exact Hk1|].
      * apply (Hold j); [lia|done].
      * intros p Hp. destruct (wf_queues _ _ _ _ _ _ HW1) as [Hq _]. apply Hq.
        exists j, k. by rewrite list_lookup_insert_ne.
  - intros e2 A2 D2 U2 L2 m2 HW2 Habs2 Hold2 Hth2 Hf2 HA2 Hh2.
    apply (HQ e2 A2 D2 U2 L2 m2); try done; [by eapply thinned_trans|by eapply (since_trans _ _ [] _ _ [])|
      by transitivity A1|by eapply held_stay_trans].
Qed.

Definition with_oldest (t : Z) (e : engine) : engine :=
  set_e_config (set_c_oldest_live t e.(e_config)) e.

Lemma wf_set_oldest e A D U L t :
  wf assoc_rep e A D U L -> wf assoc_rep (with_oldest t e) A D U L.
Proof. intros []. by constructor. Qed.

(** The time a flush takes effect. *)
Definition flush_time (now wh : Z) : Z := u32 ((if wh =? 0 then now else realtime now wh) - 1).

Lemma item_flush_run e A m wh (Q : unit -> engine -> Prop) :
  cache_rep e A m ->
  let t := flush_time e.(e_now) wh in
  (forall e' A', cache_rep e' A' (if t =? 0 then m else older t m) ->
     since (with_oldest t e) A [] e' A' -> A' ⊆ A -> held_stay e A e' A' -> Q tt e') ->
  runs (item_flush_expired wh) e Q.
Proof.
  intros (D & U & L & HW & Habs) t HQ. unfold item_flush_expired, get_current_time. run.
  change (u32 _) with t. pose proof (wf_set_oldest _ _ _ _ _ t HW) as HW0.
  fold (with_oldest t e). set (e0 := with_oldest t e) in *. destruct (Z.eqb_spec t 0) as [Ht|Ht]; cbn [when negb].
  { apply runs_ret, (HQ e0 A); try done; [by exists D, U, L|]. exact (held_stay_refl e A). }
  eapply (flush_queues_run t _ e0 A D U L m 0); [exact HW0|exact Habs|lia|done|lia|].
  intros e' A' D' U' L' m' HW' Habs' Hold Hth Hs HA Hh.
  apply (HQ e' A'); try done. exists D', U', L'. split; [done|].
  rewrite <- (thinned_older t m m'); [done|done|]. intros k v Hk.
  apply Habs' in Hk as (p & it & Hp & Hit & _ & <-). apply (wf_queues _ _ _ _ _ _ HW') in Hp as (j & l & Hj & Hin).
  by apply (Hold j l Hj p it).
Qed.

(** Every entry that a flush leaves is dead from its time on. *)
Lemma older_dead t now k m : t <> 0 -> t <= now -> (spec_get t now k (older t m)).1 = None.
Proof.
  intros Ht Hle. unfold spec_get. destruct (older t m !! k) as [v|] eqn:Hk; [|done].
  apply map_lookup_filter_Some in Hk as [_ Hlt]. simpl in Hlt. unfold v_dead.
  rewrite (proj2 (Z.eqb_neq t 0) Ht), (proj2 (Z.leb_le t now) Hle), (proj2 (Z.leb_le _ t)) by lia.
  done.
Qed.
End proofs.

(** * Properties *)

Section claims.
Context `{EnvOk}.

(** C16: a flush drops the entries that were used at or after the time of the flush,
    and only these, although it stops in each queue at the first item that is
    older: the rest is dead for every lookup from that time on. So after a flush
    without a delay no key is found any more, and nothing that a client holds is
    taken from it. *)
Theorem item_flush_correct e A m wh :
  cache_rep e A m -> 2 <= e.(e_now) < 2 ^ 32 ->
  runs (item_flush_expired wh) e (fun _ e' => exists A',
    let t := flush_time e.(e_now) wh in
    cache_rep e' A' (if t =? 0 then m else older t m) /\ oldest e' = t /\
    e'.(e_now) = e.(e_now) /\ A' ⊆ A /\ held_stay e A e' A' /\
    (t <> 0 -> forall now k, t <= now -> (spec_get (oldest e') now k (older t m)).1 = None) /\
    (wh = 0 -> t = e.(e_now) - 1)).
Proof.
  intros Hrep Hnow. eapply item_flush_run; [exact Hrep|].
  intros e' A' Hrep' Hs HA Hh. destruct (fixed_eq _ _ (since_fixed _ _ _ _ _ Hs)) as (Hn & Ho & _).
  exists A'. split_and!; try done.
  - intros Ht now k Hle. rewrite Ho. by apply older_dead.
  - intros ->. unfold flush_time. simpl. apply u32_small. lia.
Qed.
End claims.

(** ** Witness *)

#[local] Existing Instance demo_env.
#[local] Existing Instance demo_env_ok.

Lemma item_flush_correct_witness :
  exists e' A', item_flush_expired 0 stored_cache = Some (tt, e') /\ cache_rep e' A' ∅ /\
    oldest e' = 99.
Proof.
  destruct stored_cache_rep as (A & Hrep & _).
  destruct (item_flush_correct stored_cache A stored_map 0 Hrep) as
    ([] & e' & Hr & A' & Hrep' & Ho & _); [vm_compute; split; [discriminate|reflexivity]|].
  exists e', A'. split; [exact Hr|]. split; [|rewrite Ho; vm_compute; reflexivity].
  map_is Hrep' (∅ : cache). exact Hrep'.
Defined.
