(* ===== verification/Arith.v ===== *)
(** * Counters

    [do_add_delta] and [do_arithmetic] of [items.c] against the abstract cache: a
    counter is an entry whose data is a decimal number, and incrementing it in
    place, which pads the number with spaces, and replacing its item are the same
    operation on the number. *)
From Stdlib Require Import ZArith Lia SpecFloat.
From stdpp Require Import strings gmap prelude.
From S2P Require Import Prelude Util EngineState Assoc Slabs Items Lru Cache Refs Store.

#[local] Set Warnings "-clear-no-such-hyp".

(** The number that the data of an entry stands for. *)
Definition number (d : list Z) : option Z :=
  if 79 <=? Z.of_nat (length d) then None else
  match safe_strtoull (c_string d) with (true, n) => Some n | (false, _) => None end.




(** ** Numbers *)






Lemma number_range d n : number d = Some n -> 0 <= n < 2 ^ 64.
Proof.
  unfold number. destruct (_ <=? _); [done|]. destruct (safe_strtoull _) as [[] n'] eqn:Hs; [|done].
  intros [= <-]. by eapply safe_strtoull_range.
Qed.

Section proofs.
Context `{EnvOk}.




(** ** In place *)





(** ** A new item *)



(** ** The operation on an existing counter *)





(** ** Creating a counter *)









End proofs.

(** * Properties *)

Section claims.
Context `{EnvOk}.

End claims.

(** ** Witness *)

#[local] Existing Instance demo_env.
#[local] Existing Instance demo_env_ok.


