(* ===== verification/DefaultEngine.v ===== *)
(** * The engine interface ([default_engine.c])

    The functions that the server calls: creation, configuration and destruction,
    the vbucket states and the guard on them, allocation, lookup, removal, store and
    arithmetic, statistics, the commands of the binary protocol that the server does
    not know, TAP and DCP. What the server stores for a connection
    ([get_engine_specific], [store_engine_specific]) is an argument and a result of
    the functions that use it; [engine_info] is constant and left out. A function that
    calls several functions of [items.c], each of which takes [cache_lock], is modelled as
    the run in which no other thread comes in between. *)
From Stdlib Require Import ZArith Lia SpecFloat.
From stdpp Require Import strings gmap prelude.
From S2P Require Import Prelude Util EngineState Assoc Slabs Items Cache Refs Store.

#[local] Set Warnings "-clear-no-such-hyp".

(** [vbucket_state_t] ([vbucket.h]). *)
Definition vbucket_state_active : Z := 1.
Definition vbucket_state_replica : Z := 2.
Definition vbucket_state_pending : Z := 3.
Definition vbucket_state_dead : Z := 4.

Definition is_valid_vbucket_state_t (state : Z) : bool :=
  (state =? vbucket_state_active) || (state =? vbucket_state_replica)
  || (state =? vbucket_state_pending) || (state =? vbucket_state_dead).

(** The bytes of an integer in memory, on a little-endian host. *)
Definition le_bytes (n : nat) (v : Z) : list Z := reverse (be_bytes n v).

(** [ntohs] or [ntohl] of the [n] bytes of a packet at [off]; reading outside the
    packet ends the process. *)
Definition packet_field (pkt : list Z) (off n : nat) : option Z :=
  if (off + n <=? length pkt)%nat then Some (be_val (take n (drop off pkt))) else None.

Definition packet_bytes (pkt : list Z) (off n : nat) : option (list Z) :=
  if (off + n <=? length pkt)%nat then Some (take n (drop off pkt)) else None.

(** The fields of [protocol_binary_request_header]. *)
Definition rq_opcode (pkt : list Z) : option Z := packet_field pkt 1 1.
Definition rq_keylen (pkt : list Z) : option Z := packet_field pkt 2 2.
Definition rq_extlen (pkt : list Z) : option Z := packet_field pkt 4 1.
Definition rq_vbucket (pkt : list Z) : option Z := packet_field pkt 6 2.
Definition rq_bodylen (pkt : list Z) : option Z := packet_field pkt 8 4.

Definition PROTOCOL_BINARY_CMD_TOUCH : Z := 28.
Definition PROTOCOL_BINARY_CMD_GAT : Z := 29.
Definition PROTOCOL_BINARY_CMD_GATQ : Z := 30.
Definition PROTOCOL_BINARY_CMD_SET_VBUCKET : Z := 61.
Definition PROTOCOL_BINARY_CMD_GET_VBUCKET : Z := 62.
Definition PROTOCOL_BINARY_CMD_DEL_VBUCKET : Z := 63.
Definition PROTOCOL_BINARY_CMD_SCRUB : Z := 240.

(** [protocol_binary_response_status], the values the engine uses. *)
Inductive response_status :=
| RESPONSE_SUCCESS | RESPONSE_KEY_ENOENT | RESPONSE_EINVAL | RESPONSE_EBUSY
| RESPONSE_UNKNOWN_COMMAND.

(** What is passed to the callback [response]. *)
Record reply := mk_reply {
  r_ext : list Z;
  r_body : list Z;
  r_status : response_status;
  r_cas : Z
}.

(** [struct dcp_connection] ([items.h]); the cursor and the item are the stream. *)
Record dcp_connection := mk_dcp {
  dc_flags : Z;
  dc_opaque : Z;
  dc_vbucket : Z;
  dc_start_seqno : Z;
  dc_end_seqno : Z;
  dc_vbucket_uuid : Z;
  dc_snap_start_seqno : Z;
  dc_snap_end_seqno : Z;
  dc_stream : stream
}.

(** The pointer kept for a connection: to an item (TAP consumer), a TAP client or a
    DCP connection. *)
Inductive specific :=
| NoSpecific
| SpItem (p : Z)
| SpTap (c : stream)
| SpDcp (c : dcp_connection).

(** [item_info] ([types.h]); the key and the data in place of their addresses. *)
Record item_info := mk_info {
  ii_cas : Z;
  ii_exptime : Z;
  ii_nbytes : Z;
  ii_flags : Z;
  ii_clsid : Z;
  ii_nkey : Z;
  ii_nvalue : Z;
  ii_key : list Z;
  ii_value : list Z;
  ii_datatype : Z
}.

Section model.
Context `{Env}.

(** ** Vbuckets *)

(** The two low-order bits of the byte are the field [state]. *)
Definition put_state (c to : Z) : Z := Z.lor (Z.land c 252) (Z.land to 3).

Definition set_vbucket_state (vbid to : Z) : E unit :=
  l ← gets e_vbucket_infos;
  c ← of_option (zlookup l vbid);
  l' ← of_option (zupdate l vbid (put_state c to));
  modify (set_e_vbucket_infos l').

(** [state] is a signed field of two bits; its value is converted to
    [vbucket_state_t], an unsigned type. *)
Definition get_state (c : Z) : Z := u32 (swrap 2 c).

Definition get_vbucket_state (vbid : Z) : E Z :=
  l ← gets e_vbucket_infos;
  c ← of_option (zlookup l vbid);
  mret (get_state c).

Definition handled_vbucket (vbid : Z) : E bool :=
  cfg ← gets e_config;
  if cfg.(c_ignore_vbucket) then mret true
  else st ← get_vbucket_state vbid; mret (st =? vbucket_state_active).

(** [other] is what the function returns for a vbucket it does not handle. *)
Definition VBUCKET_GUARD {A} (v : Z) (other : A) (m : E A) : E A :=
  ok ← handled_vbucket v;
  if negb ok then mret other else m.

(** ** Creation, configuration, destruction *)

(** The engine that [create_instance] builds; the clock and the counters of the
    process go on. *)
Definition fresh_engine (e : engine) : engine :=
  set_e_initialized true
  (set_e_assoc (mk_assoc 16 [] [] 0 false 0)
  (set_e_config (mk_config true 0 0 true (64 * 1024 * 1024) false default_factor 48
                   (1024 * 1024) false false None)
  (set_e_tap_clients (replicate 10 NULL)
  (set_e_cas_id e.(e_cas_id)
  (set_e_now e.(e_now)
  (set_e_calls e.(e_calls)
  (set_e_spawns e.(e_spawns) blank_engine))))))).

(** [api] tells whether [get_server_api] returned an interface. *)
Definition create_instance (interface : Z) (api : bool) : E ENGINE_ERROR_CODE :=
  if negb (interface =? 1) || negb api then mret ENGINE_ENOTSUP else
  ok ← do_calloc 70000;
  if negb ok then mret ENGINE_ENOMEM else
  clients ← do_calloc 80;
  if negb clients then mret ENGINE_ENOMEM else
  modify fresh_engine;;
  mret ENGINE_SUCCESS.

(** [parse_config] is the parser of the server; its result is converted to an
    [ENGINE_ERROR_CODE], and it updates the configuration. *)
Definition initalize_configuration
    (parse_config : list Z -> config -> ENGINE_ERROR_CODE * config) (cfg_str : option (list Z))
    : E ENGINE_ERROR_CODE :=
  modify (fun e => set_e_config (set_c_vb0 true e.(e_config)) e);;
  ret ← match cfg_str with
        | Some s =>
            cfg ← gets e_config;
            let r := parse_config s cfg in
            modify (set_e_config r.2);;
            mret r.1
        | None => mret ENGINE_SUCCESS
        end;
  cfg ← gets e_config;
  when cfg.(c_vb0) (set_vbucket_state 0 vbucket_state_active);;
  mret ret.

(** [t_initial_malloc] is the variable of the environment that [slabs_init] reads. *)
Definition default_initialize
    (parse_config : list Z -> config -> ENGINE_ERROR_CODE * config) (cfg_str : option (list Z))
    (t_initial_malloc : option Z) : E ENGINE_ERROR_CODE :=
  ret ← initalize_configuration parse_config cfg_str;
  if decide (ret <> ENGINE_SUCCESS) then mret ret else
  ret ← assoc_init;
  if decide (ret <> ENGINE_SUCCESS) then mret ret else
  cfg ← gets e_config;
  slabs_init cfg.(c_maxbytes) cfg.(c_factor) cfg.(c_preallocate) t_initial_malloc.

(** Returns the areas of the slab allocator that are freed. *)
Definition default_destroy : E (list Z) :=
  e ← gets id;
  if e.(e_initialized) then
    assoc_destroy;;
    freed ← slabs_destroy;
    modify (fun e => set_e_config (set_c_uuid None e.(e_config)) e);;
    modify (set_e_initialized false);;
    modify (set_e_tap_clients []);;
    mret freed
  else mret [].

(** ** Items *)

(** [nbytes] is a [size_t], which the call of [item_alloc] converts to a [uint32_t]
    and to an [int]. Returns the code with the item. *)
Definition default_item_allocate (key : list Z) (nbytes flags exptime datatype : Z)
    : E (ENGINE_ERROR_CODE * Z) :=
  cfg ← gets e_config;
  let ntotal := u64 (sizeof_hash_item + Z.of_nat (length key) + nbytes
                     + (if cfg.(c_use_cas) then 8 else 0)) in
  id ← slabs_clsid ntotal;
  if id =? 0 then mret (ENGINE_E2BIG, NULL) else
  now ← get_current_time;
  it ← item_alloc key flags (realtime now exptime) (swrap 32 nbytes) datatype;
  if negb (it =? NULL) then mret (ENGINE_SUCCESS, it) else mret (ENGINE_ENOMEM, NULL).

Definition default_item_delete (key : list Z) (cas vbucket : Z) : E ENGINE_ERROR_CODE :=
  VBUCKET_GUARD vbucket ENGINE_NOT_MY_VBUCKET
  (it ← item_get key;
   if it =? NULL then mret ENGINE_KEY_ENOENT else
   x ← load it;
   if (cas =? 0) || (cas =? item_get_cas x) then
     item_unlink it;;
     item_release it;;
     mret ENGINE_SUCCESS
   else mret ENGINE_KEY_EEXISTS).

Definition default_item_release (item : Z) : E unit := item_release item.

Definition default_get (key : list Z) (vbucket item0 : Z) : E (ENGINE_ERROR_CODE * Z) :=
  VBUCKET_GUARD vbucket (ENGINE_NOT_MY_VBUCKET, item0)
  (item ← item_get key;
   mret (if negb (item =? NULL) then ENGINE_SUCCESS else ENGINE_KEY_ENOENT, item)).

Definition default_store (item cas : Z) (operation : ENGINE_STORE_OPERATION) (vbucket : Z)
    : E (ENGINE_ERROR_CODE * Z) :=
  VBUCKET_GUARD vbucket (ENGINE_NOT_MY_VBUCKET, cas) (store_item item operation cas).

Definition default_arithmetic (key : list Z) (increment create : bool)
    (delta initial exptime cas datatype result vbucket : Z) : E (ENGINE_ERROR_CODE * Z * Z) :=
  VBUCKET_GUARD vbucket (ENGINE_NOT_MY_VBUCKET, cas, result)
  (now ← get_current_time;
   arithmetic key increment create delta initial (realtime now exptime) cas datatype result).

Definition default_flush (wh : Z) : E ENGINE_ERROR_CODE :=
  item_flush_expired wh;;
  mret ENGINE_SUCCESS.

Definition item_get_clsid (item : Z) : Z := 0.

Definition get_item_info (item nvalue : Z) : E (option item_info) :=
  if nvalue <? 1 then mret None else
  it ← load item;
  mret (Some (mk_info (item_get_cas it) it.(it_exptime) it.(it_nbytes) it.(it_flags)
                it.(it_slabs_clsid) it.(it_nkey) 1 (item_get_key it)
                (item_get_data it it.(it_nbytes)) it.(it_datatype))).

Definition set_item_info (item : Z) (info : item_info) : E bool :=
  if item =? NULL then mret false else
  store item (set_it_datatype info.(ii_datatype));;
  mret true.

(** ** Statistics *)

Definition default_reset_stats : E unit :=
  item_stats_reset;;
  upd_stats (fun st => set_st_total_items 0 (set_st_reclaimed 0 (set_st_evictions 0 st))).

(** [strncmp(s, lit, n) == 0] for a literal of [n] characters. *)
Definition starts_with (s : list Z) (lit : string) : bool :=
  bool_decide (bytes_of lit `prefix_of` s).

Definition scrubber_stats (sc : engine_scrubber) : list stat :=
  (bytes_of "scrubber:status", bytes_of (if sc.(sc_running) then "running" else "stopped"))
  :: (if negb (sc.(sc_started) =? 0) then
        (if negb (sc.(sc_stopped) =? 0) then
           [(bytes_of "scrubber:last_run", print_u64 (u64 (sc.(sc_started) - sc.(sc_stopped))))]
         else [])
        ++ [(bytes_of "scrubber:visited", print_u64 sc.(sc_visited));
            (bytes_of "scrubber:cleaned", print_u64 sc.(sc_cleaned))]
      else []).

Definition general_stats (st : engine_stats) (cfg : config) : list stat :=
  [(bytes_of "evictions", print_u64 st.(st_evictions));
   (bytes_of "curr_items", print_u64 st.(st_curr_items));
   (bytes_of "total_items", print_u64 st.(st_total_items));
   (bytes_of "bytes", print_u64 st.(st_curr_bytes));
   (bytes_of "reclaimed", print_u64 st.(st_reclaimed));
   (bytes_of "engine_maxbytes", print_u64 cfg.(c_maxbytes))].

Definition default_get_stats (stat_key : option (list Z)) : E (ENGINE_ERROR_CODE * list stat) :=
  cfg ← gets e_config;
  match stat_key with
  | None => st ← gets e_stats; mret (ENGINE_SUCCESS, general_stats st cfg)
  | Some key =>
      if starts_with key "slabs" then l ← slabs_stats; mret (ENGINE_SUCCESS, l)
      else if starts_with key "items" then l ← item_stats; mret (ENGINE_SUCCESS, l)
      else if starts_with key "sizes" then l ← item_stats_sizes; mret (ENGINE_SUCCESS, l)
      else if starts_with key "uuid" then
        mret (ENGINE_SUCCESS, [(bytes_of "uuid", default [] cfg.(c_uuid))])
      else if starts_with key "scrub" then
        sc ← gets e_scrubber; mret (ENGINE_SUCCESS, scrubber_stats sc)
      else mret (ENGINE_KEY_ENOENT, [])
  end.

(** ** Commands of the binary protocol

    A handler returns the reply that it passes to [response], or [None] when it
    stays silent. *)

Definition set_vbucket (req : list Z) : E (option reply) :=
  total ← of_option (rq_bodylen req);
  keylen ← of_option (rq_keylen req);
  if negb (u32 (total - keylen) =? 4) then
    mret (Some (mk_reply [] (bytes_of "Incorrect packet format") RESPONSE_EINVAL 0))
  else
    state ← of_option (packet_field req 24 4);
    if negb (is_valid_vbucket_state_t state) then
      mret (Some (mk_reply [] (bytes_of "Invalid vbucket state") RESPONSE_EINVAL 0))
    else
      vb ← of_option (rq_vbucket req);
      set_vbucket_state vb state;;
      mret (Some (mk_reply [] (le_bytes 4 state) RESPONSE_SUCCESS 0)).

Definition get_vbucket (req : list Z) : E (option reply) :=
  vb ← of_option (rq_vbucket req);
  state ← get_vbucket_state vb;
  mret (Some (mk_reply [] (be_bytes 4 state) RESPONSE_SUCCESS 0)).

Definition rm_vbucket (req : list Z) : E (option reply) :=
  vb ← of_option (rq_vbucket req);
  set_vbucket_state vb vbucket_state_dead;;
  mret (Some (mk_reply [] [] RESPONSE_SUCCESS 0)).

(** [clock] is what [time(NULL)] returns. *)
Definition scrub_cmd (clock : Z) : E (option reply) :=
  ok ← item_start_scrub clock;
  mret (Some (mk_reply [] [] (if (ok : bool) then RESPONSE_SUCCESS else RESPONSE_EBUSY) 0)).

Definition touch (req : list Z) : E (option reply) :=
  extlen ← of_option (rq_extlen req);
  nkey ← of_option (rq_keylen req);
  opcode ← of_option (rq_opcode req);
  if negb (extlen =? 4) || (nkey =? 0) then mret (Some (mk_reply [] [] RESPONSE_EINVAL 0)) else
  exptime ← of_option (packet_field req 24 4);
  key ← of_option (packet_bytes req 28 (Z.to_nat nkey));
  now ← get_current_time;
  item ← touch_item key (realtime now exptime);
  if item =? NULL then
    if opcode =? PROTOCOL_BINARY_CMD_GATQ then mret None
    else mret (Some (mk_reply [] [] RESPONSE_KEY_ENOENT 0))
  else
    it ← load item;
    let r := if opcode =? PROTOCOL_BINARY_CMD_TOUCH then mk_reply [] [] RESPONSE_SUCCESS 0
             else mk_reply (le_bytes 4 it.(it_flags)) (item_get_data it it.(it_nbytes))
                    RESPONSE_SUCCESS (item_get_cas it) in
    item_release item;;
    mret (Some r).

Definition is_touch (opcode : Z) : bool :=
  (opcode =? PROTOCOL_BINARY_CMD_TOUCH) || (opcode =? PROTOCOL_BINARY_CMD_GAT)
  || (opcode =? PROTOCOL_BINARY_CMD_GATQ).

(** [sent] is what the callback [response] returns for a reply. *)
Definition default_unknown_command (req : list Z) (sent : reply -> bool) (clock : Z)
    : E (ENGINE_ERROR_CODE * option reply) :=
  opcode ← of_option (rq_opcode req);
  r ← (if opcode =? PROTOCOL_BINARY_CMD_SCRUB then scrub_cmd clock
       else if opcode =? PROTOCOL_BINARY_CMD_DEL_VBUCKET then rm_vbucket req
       else if opcode =? PROTOCOL_BINARY_CMD_SET_VBUCKET then set_vbucket req
       else if opcode =? PROTOCOL_BINARY_CMD_GET_VBUCKET then get_vbucket req
       else if is_touch opcode then touch req
       else mret (Some (mk_reply [] [] RESPONSE_UNKNOWN_COMMAND 0)));
  mret (match r with
        | Some rep => if sent rep then ENGINE_SUCCESS else ENGINE_FAILED
        | None => ENGINE_SUCCESS
        end, r).

(** ** TAP *)

(** The item a TAP consumer fills: the one kept for the connection, or a new one. *)
Definition tap_item (sp : specific) (key : list Z) (ndata flags exptime datatype : Z)
    : E (ENGINE_ERROR_CODE * Z) :=
  match sp with
  | SpItem p => mret (ENGINE_SUCCESS, p)
  | NoSpecific => default_item_allocate key ndata flags exptime datatype
  | _ => crash
  end.

(** Returns the code and what is kept for the connection. [ENGINE_EWOULDBLOCK] is
    never returned by [default_store], but the code provides for it. *)
Definition default_tap_notify (sp : specific) (engine_specific : list Z) (event : tap_event)
    (key : list Z) (flags exptime cas datatype : Z) (data : list Z) (vbucket : Z)
    : E (ENGINE_ERROR_CODE * specific) :=
  match event with
  | TAP_ACK => crash
  | TAP_FLUSH => r ← default_flush 0; mret (r, sp)
  | TAP_DELETION => r ← default_item_delete key cas vbucket; mret (r, sp)
  | TAP_MUTATION =>
      a ← tap_item sp key (Z.of_nat (length data)) flags exptime datatype;
      match a.1 with
      | ENGINE_SUCCESS =>
          write_data a.2 0 data;;
          item_set_cas a.2 cas;;
          r ← default_store a.2 cas OPERATION_SET vbucket;
          match r.1 with
          | ENGINE_EWOULDBLOCK => mret (ENGINE_EWOULDBLOCK, SpItem a.2)
          | ret => item_release a.2;; mret (ret, NoSpecific)
          end
      | ENGINE_ENOMEM => mret (ENGINE_TMPFAIL, sp)
      | ret => mret (ret, sp)
      end
  | TAP_VBUCKET_SET =>
      if negb (Z.of_nat (length engine_specific) =? 4) then mret (ENGINE_DISCONNECT, sp) else
      let state := be_val engine_specific in
      if negb (is_valid_vbucket_state_t state) then mret (ENGINE_DISCONNECT, sp) else
      set_vbucket_state vbucket state;;
      mret (ENGINE_SUCCESS, sp)
  | _ => mret (ENGINE_SUCCESS, sp)
  end.

Definition TAP_CONNECT_FLAG_TAKEOVER_VBUCKETS : Z := 8.

(** The index of the first free slot. *)
Fixpoint free_slot (clients : list Z) (ii : nat) : option nat :=
  match clients with
  | [] => None
  | c :: cs => if c =? NULL then Some ii else free_slot cs (S ii)
  end.

(** Returns whether there is an iterator, and what is kept for the connection;
    [cursor] is the address of the cursor of the new client. *)
Definition default_get_tap_iterator (cookie flags cursor : Z) (sp : specific)
    : E (bool * specific) :=
  if negb (Z.land flags TAP_CONNECT_FLAG_TAKEOVER_VBUCKETS =? 0) then mret (false, sp) else
  clients ← gets e_tap_clients;
  match free_slot clients 0 with
  | None => mret (false, sp)
  | Some ii =>
      modify (set_e_tap_clients (<[ii := cookie]> clients));;
      c ← initialize_item_tap_walker cursor;
      match c with
      | None => modify (fun e => set_e_tap_clients (<[ii := NULL]> e.(e_tap_clients)) e);;
                mret (false, sp)
      | Some c => mret (true, SpTap c)
      end
  end.

(** What the engine keeps for a TAP connection is freed, and the cursor with it. *)
Definition default_handle_disconnect (cookie : Z) (sp : specific) : E unit :=
  clients ← gets e_tap_clients;
  when (existsb (Z.eqb cookie) clients)
    (match sp with
     | SpTap c => modify (upd_heap (delete c.(sm_cursor)))
     | SpItem p => modify (upd_heap (delete p))
     | SpDcp c => modify (upd_heap (delete c.(dc_stream).(sm_cursor)))
     | NoSpecific => mret tt
     end).

(** ** DCP *)

Definition dcp_step (sp : specific) (producers : dcp_message_producers)
    : E (ENGINE_ERROR_CODE * specific) :=
  match sp with
  | NoSpecific => mret (ENGINE_EINVAL, sp)
  | SpDcp c =>
      r ← item_dcp_step c.(dc_stream) producers;
      mret (r.1, SpDcp (mk_dcp c.(dc_flags) c.(dc_opaque) c.(dc_vbucket) c.(dc_start_seqno)
                          c.(dc_end_seqno) c.(dc_vbucket_uuid) c.(dc_snap_start_seqno)
                          c.(dc_snap_end_seqno) r.2))
  | _ => crash
  end.

Definition dcp_open : E ENGINE_ERROR_CODE := mret ENGINE_ENOTSUP.

(** The messages that the engine does not support, on a vbucket it handles. *)
Definition dcp_unsupported (vbucket : Z) : E ENGINE_ERROR_CODE :=
  VBUCKET_GUARD vbucket ENGINE_NOT_MY_VBUCKET (mret ENGINE_ENOTSUP).

Definition dcp_add_stream := dcp_unsupported.
Definition dcp_close_stream := dcp_unsupported.
Definition dcp_stream_end := dcp_unsupported.
Definition dcp_snapshot_marker := dcp_unsupported.
Definition dcp_mutation := dcp_unsupported.
Definition dcp_deletion := dcp_unsupported.
Definition dcp_expiration := dcp_unsupported.
Definition dcp_flush := dcp_unsupported.
Definition dcp_set_vbucket_state := dcp_unsupported.

Definition vbucket_uuid_default : Z := 4277001930.

(** [failover_log] is the callback, for the one entry (uuid and sequence number) of
    the log. *)
Definition dcp_get_failover_log (vbucket : Z) (failover_log : Z * Z -> ENGINE_ERROR_CODE)
    : E ENGINE_ERROR_CODE :=
  VBUCKET_GUARD vbucket ENGINE_NOT_MY_VBUCKET (mret (failover_log (vbucket_uuid_default, 0))).

(** [cursor] is the address of the cursor in the connection that [calloc] returns.
    The results are the code, [*rollback_seqno] and what is kept for the
    connection. *)
Definition dcp_stream_req (sp : specific) (flags opaque vbucket start_seqno end_seqno
    vbucket_uuid snap_start_seqno snap_end_seqno rollback_seqno cursor : Z)
    (callback : Z * Z -> ENGINE_ERROR_CODE) : E (ENGINE_ERROR_CODE * Z * specific) :=
  VBUCKET_GUARD vbucket (ENGINE_NOT_MY_VBUCKET, rollback_seqno, sp)
  (if negb (vbucket_uuid =? vbucket_uuid_default)
   then mret (ENGINE_KEY_ENOENT, rollback_seqno, sp)
   else if negb (start_seqno =? 0) then mret (ENGINE_ROLLBACK, 0, sp)
   else match sp with
   | NoSpecific =>
       ok ← do_calloc 136;
       if negb ok then mret (ENGINE_ENOMEM, rollback_seqno, sp) else
       modify (upd_heap (insert cursor (zero_item 0)));;
       link_dcp_walker cursor;;
       mret (callback (vbucket_uuid_default, 0), rollback_seqno,
             SpDcp (mk_dcp flags opaque vbucket start_seqno end_seqno vbucket_uuid
                      snap_start_seqno snap_end_seqno (mk_stream cursor NULL)))
   | _ => mret (ENGINE_TMPFAIL, rollback_seqno, sp)
   end).
End model.

(** * Vbuckets *)

(** Whether requests for [vb] are served. *)
Definition handles (e : engine) (vb : Z) : bool :=
  e.(e_config).(c_ignore_vbucket) ||
  (default 0 (get_state <$> e.(e_vbucket_infos) !! Z.to_nat vb) =? vbucket_state_active).

Definition vb_ok (e : engine) (vb : Z) : Prop :=
  Z.of_nat (length e.(e_vbucket_infos)) = NUM_VBUCKETS /\ 0 <= vb < NUM_VBUCKETS.

(** What a new state of a vbucket makes of the engine. *)
Definition with_state (vb st : Z) (e : engine) : engine :=
  set_e_vbucket_infos (<[Z.to_nat vb :=
    put_state (default 0 (e.(e_vbucket_infos) !! Z.to_nat vb)) st]> e.(e_vbucket_infos)) e.

(** A SET_VBUCKET request for [vb] with the state [st]. *)
Definition set_vbucket_request (pkt : list Z) (vb st : Z) : Prop :=
  rq_opcode pkt = Some PROTOCOL_BINARY_CMD_SET_VBUCKET /\ rq_vbucket pkt = Some vb /\
  packet_field pkt 24 4 = Some st /\
  exists total keylen, rq_bodylen pkt = Some total /\ rq_keylen pkt = Some keylen /\
    u32 (total - keylen) = 4.

(** What GET_VBUCKET reports for a vbucket that was set to [st]. *)
Definition reported_state (st : Z) : Z :=
  if st =? vbucket_state_active then 1
  else if st =? vbucket_state_replica then 2 ^ 32 - 2
  else if st =? vbucket_state_pending then 2 ^ 32 - 1
  else 0.

Lemma valid_states st : is_valid_vbucket_state_t st = true ->
  st = 1 \/ st = 2 \/ st = 3 \/ st = 4.
Proof.
  unfold is_valid_vbucket_state_t, vbucket_state_active, vbucket_state_replica,
    vbucket_state_pending, vbucket_state_dead. intros H.
  destruct (Z.eqb_spec st 1), (Z.eqb_spec st 2), (Z.eqb_spec st 3), (Z.eqb_spec st 4);
    auto; discriminate.
Qed.

(** The other bits of the byte do not matter. *)
Lemma put_state_low c st : (put_state c st) mod 4 = st mod 4.
Proof.
  unfold put_state. change 4 with (2 ^ 2). rewrite <- !Z.land_ones by lia.
  rewrite Z.land_lor_distr_l, <- !Z.land_assoc. change (Z.land 252 (Z.ones 2)) with 0.
  change (Z.land 3 (Z.ones 2)) with (Z.ones 2). by rewrite Z.land_0_r, Z.lor_0_l.
Qed.

Lemma get_put_state c st :
  is_valid_vbucket_state_t st = true -> get_state (put_state c st) = reported_state st.
Proof.
  intros Hv. unfold get_state, swrap. change (2 ^ 2) with 4. rewrite put_state_low.
  by destruct (valid_states _ Hv) as [->|[->|[->| ->]]].
Qed.

Lemma reported_active st :
  is_valid_vbucket_state_t st = true ->
  (reported_state st =? vbucket_state_active) = (st =? vbucket_state_active).
Proof. intros Hv. by destruct (valid_states _ Hv) as [->|[->|[->| ->]]]. Qed.

Section vbuckets.
Context `{Env}.

Lemma vb_lookup e vb : vb_ok e vb ->
  exists c, zlookup e.(e_vbucket_infos) vb = Some c /\ e.(e_vbucket_infos) !! Z.to_nat vb = Some c.
Proof.
  intros [Hl Hv]. destruct (zlookup_lt e.(e_vbucket_infos) vb) as [c Hc]; [lia|].
  exists c. split; [done|]. by apply zlookup_Some in Hc as [_ ?].
Qed.

Lemma guard_run {A} vb (other : A) m e (Q : A -> engine -> Prop) :
  vb_ok e vb -> (handles e vb = true -> runs m e Q) -> (handles e vb = false -> Q other e) ->
  runs (VBUCKET_GUARD vb other m) e Q.
Proof.
  intros Hvb. destruct (vb_lookup _ _ Hvb) as (c & Hz & Hc). unfold handles. rewrite Hc. simpl.
  intros Ht Hf. unfold VBUCKET_GUARD, handled_vbucket. run.
  destruct (c_ignore_vbucket (e_config e)); simpl in *; run; [by apply Ht|].
  unfold get_vbucket_state. run; [exact Hz|]. destruct (get_state c =? vbucket_state_active); simpl.
  - by apply Ht.
  - run. by apply Hf.
Qed.

Lemma set_vbucket_state_run vb st e (Q : unit -> engine -> Prop) :
  vb_ok e vb -> Q tt (with_state vb st e) -> runs (set_vbucket_state vb st) e Q.
Proof.
  intros Hvb HQ. destruct (vb_lookup _ _ Hvb) as (c & Hz & Hc). unfold set_vbucket_state.
  unfold with_state in HQ. rewrite Hc in HQ.
  run; [exact Hz| |exact HQ]. apply zupdate_lt. destruct Hvb. lia.
Qed.

Lemma with_state_ok vb vb' st e : vb_ok e vb' -> vb_ok (with_state vb st e) vb'.
Proof. intros [Hl Hv]. split; [|done]. simpl. by rewrite length_insert. Qed.

Lemma with_state_infos e vb vb' st :
  vb_ok e vb -> vb_ok e vb' ->
  (with_state vb st e).(e_vbucket_infos) !! Z.to_nat vb' =
  if decide (vb' = vb) then Some (put_state (default 0 (e.(e_vbucket_infos) !! Z.to_nat vb)) st)
  else e.(e_vbucket_infos) !! Z.to_nat vb'.
Proof.
  intros [Hl Hv] [_ Hv']. simpl. destruct (decide (vb' = vb)) as [->|Hne].
  - apply list_lookup_insert_eq. lia.
  - apply list_lookup_insert_ne. lia.
Qed.

(** Executing a valid SET_VBUCKET request. *)
Lemma set_vbucket_run pkt sent clock e vb st (Q : ENGINE_ERROR_CODE * option reply -> engine -> Prop) :
  set_vbucket_request pkt vb st -> is_valid_vbucket_state_t st = true -> vb_ok e vb ->
  (forall code, Q (code, Some (mk_reply [] (le_bytes 4 st) RESPONSE_SUCCESS 0)) (with_state vb st e)) ->
  runs (default_unknown_command pkt sent clock) e Q.
Proof.
  intros (Hop & Hvbf & Hst & total & keylen & Ht & Hk & Hlen) Hv Hvb HQ.
  unfold default_unknown_command. run; [exact Hop|]. simpl. unfold set_vbucket.
  run; [exact Ht|exact Hk|]. rewrite Hlen. simpl. run; [exact Hst|]. rewrite Hv. simpl.
  run; [exact Hvbf|]. eapply set_vbucket_state_run; [exact Hvb|]. run. apply HQ.
Qed.

(** A SET_VBUCKET request with a valid state succeeds and changes the state of
    that vbucket only: from then on the engine serves requests for it exactly when
    the state is active (or when it ignores vbuckets), and serves the same other
    vbuckets as before. *)
Theorem set_vbucket_guards pkt sent clock e vb st :
  set_vbucket_request pkt vb st -> is_valid_vbucket_state_t st = true -> vb_ok e vb ->
  runs (default_unknown_command pkt sent clock) e (fun r e' =>
    r.2 = Some (mk_reply [] (le_bytes 4 st) RESPONSE_SUCCESS 0) /\
    e' = with_state vb st e /\
    forall vb', vb_ok e vb' -> handles e' vb' =
      if decide (vb' = vb) then e.(e_config).(c_ignore_vbucket) || (st =? vbucket_state_active)
      else handles e vb').
Proof.
  intros Hreq Hv Hvb. eapply set_vbucket_run; [exact Hreq|done|done|]. intros code.
  split; [done|]. split; [done|].
  intros vb' Hvb'. unfold handles. rewrite with_state_infos by done. simpl.
  destruct (decide (vb' = vb)) as [->|]; [|done]. simpl. by rewrite get_put_state, reported_active.
Qed.

(** C38: what GET_VBUCKET then reports is not the state that was set unless it is
    active: the state is kept in a signed field of two bits, so that replica is
    reported as [0xfffffffe], pending as [0xffffffff] and dead as [0]. *)
Theorem get_vbucket_reports pkt pkt' sent clock e vb st :
  set_vbucket_request pkt vb st -> is_valid_vbucket_state_t st = true -> vb_ok e vb ->
  rq_vbucket pkt' = Some vb ->
  runs (default_unknown_command pkt sent clock;; get_vbucket pkt') e (fun r e' =>
    r = Some (mk_reply [] (be_bytes 4 (reported_state st)) RESPONSE_SUCCESS 0) /\
    (st <> vbucket_state_active -> reported_state st <> st)).
Proof.
  intros Hreq Hv Hvb Hvb'. run. eapply set_vbucket_run; [exact Hreq|done|done|]. intros code.
  unfold get_vbucket.
  run; [exact Hvb'|]. unfold get_vbucket_state. run.
  { apply zlookup_Some. split; [apply Hvb|]. rewrite with_state_infos by done.
    by rewrite decide_True. }
  rewrite get_put_state by done. split; [done|].
  by destruct (valid_states _ Hv) as [->|[->|[->| ->]]].
Qed.
End vbuckets.

(** * Removal *)

(** What a removal does to the abstract cache. *)
Definition spec_delete (oldest_live now cas : Z) (k : list Z) (m : cache)
    : ENGINE_ERROR_CODE * cache :=
  let (old, m1) := spec_get oldest_live now k m in
  match old with
  | None => (ENGINE_KEY_ENOENT, m1)
  | Some v => if (cas =? 0) || (cas =? v.(v_cas)) then (ENGINE_SUCCESS, delete k m1)
              else (ENGINE_KEY_EEXISTS, m1)
  end.

Section removal.
Context `{EnvOk}.

(** Removing an entry that was just looked up. *)
Lemma unlink_release_run {B} e A D U L m p it e0 A0 (k : E B) (Q : B -> engine -> Prop) :
  wf assoc_rep e A D U L -> abs e.(e_heap) D m -> p ∈ D -> e.(e_heap) !! p = Some it ->
  it.(it_refcount) <> 0 -> since e0 A0 [p] e A ->
  (forall e' A', cache_rep e' A' (delete (item_get_key it) m) -> since e0 A0 [] e' A' -> runs k e' Q) ->
  runs (item_unlink p;; item_release p;; k) e Q.
Proof.
  intros HW Habs HpD Hp Hr Hs HQ. apply runs_bind.
  eapply (do_item_unlink_run assoc_rep); [exact HW|done|exact Hp|].
  intros e1 A1 U1 L1 HW1 Hpost. pose proof (since_unlink _ _ D _ _ _ _ Hp Hpost) as Hs1.
  destruct Hpost as (Hf1 & Hk1 & _ & Hnz). destruct (Hnz Hr) as [-> Hc1].
  destruct (e_heap e1 !! p) as [it1|] eqn:Hp1; [|discriminate].
  apply runs_bind. eapply (do_item_release_abs e1 A _ U1 L1 (delete (item_get_key it) m) p it1);
    [exact HW1|by eapply (abs_remove assoc_rep e A D U L)|by apply (wf_sub _ _ _ _ _ _ HW)|done|].
  intros e2 A2 U2 HW2 Habs2 Hf2 _ _ _ _ Hrel. apply (HQ e2 A2); [by exists (D ∖ {[p]}), U2, L1|].
  apply Hrel. eapply (since_trans _ _ _ _ _ []); [exact Hs|exact Hs1].
Qed.

(** The states of the vbuckets are not part of the cache. *)
Lemma cache_rep_infos e A m l : cache_rep e A m -> cache_rep (set_e_vbucket_infos l e) A m.
Proof. intros (D & U & L & HW & Habs). exists D, U, L. split; [|done]. by destruct HW. Qed.

(** A removal that finds another CAS value keeps the reference it took to the item [p] of
    the key. *)
Definition delete_leaves (e : engine) (A : gset Z) (k : list Z) (code : ENGINE_ERROR_CODE) (e' : engine) (A' : gset Z) : Prop :=
  if decide (code = ENGINE_KEY_EEXISTS) then
    exists p it0 it, e.(e_heap) !! p = Some it0 /\ p ∈ A' /\ e'.(e_heap) !! p = Some it /\ item_get_key it = k /\
      it.(it_refcount) = u16 (it0.(it_refcount) + 1) /\ since e A [p] e' A' /\ keeps (fun q => q <> p) e e'
  else since e A [] e' A'.

Definition delete_post (e : engine) (A : gset Z) (k : list Z) (sp : ENGINE_ERROR_CODE * cache)
    (r : ENGINE_ERROR_CODE) (e' : engine) : Prop :=
  r = sp.1 /\ exists A', cache_rep e' A' sp.2 /\ delete_leaves e A k sp.1 e' A'.

Lemma item_delete_run e A m k cas vb :
  cache_rep e A m -> vb_ok e vb -> key_ref_ok e A k ->
  runs (default_item_delete k cas vb) e (fun r e' =>
    if handles e vb then delete_post e A k (spec_delete (oldest e) e.(e_now) cas k m) r e'
    else r = ENGINE_NOT_MY_VBUCKET /\ e' = e).
Proof.
  intros (D & U & L & HW & Habs) Hvb Hrefs.
  apply guard_run; [done| |intros ->; done]. intros ->. run.
  unfold spec_delete. destruct (spec_get (oldest e) (e_now e) k m) as [old m1] eqn:Hsp.
  pose proof (f_equal fst Hsp) as Hsp1. pose proof (f_equal snd Hsp) as Hsp2. simpl in Hsp1, Hsp2.
  eapply do_item_get_abs; [exact HW|exact Habs|..].
  - intros e1 A1 D1 U1 L1 HW1 Habs1 Hnone Hf1 _ _ _ _ Hs1. rewrite Hnone in Hsp1. subst old. simpl.
    run. split; [done|]. rewrite Hsp2 in Habs1. exists A1. split; [by exists D1, U1, L1|]. done.
  - intros p it0 it e1 U1 L1 HW1 Habs1 Hsome Hf1 Hk1 HpD Hp0 Hp Hkey Href Hcore Hs1.
    rewrite Hsome in Hsp1. subst old. rewrite Hsp2 in Habs1.
    pose proof (wf_sub _ _ _ _ _ _ HW p HpD) as HpA.
    rewrite (proj2 (Z.eqb_neq _ _) (wf_nonnull _ _ _ _ _ _ _ HW HpA)). run.
    eapply runs_load; [exact Hp|]. change (v_cas (item_value it)) with (item_get_cas it).
    destruct ((cas =? 0) || (cas =? item_get_cas it)).
    + eapply (unlink_release_run e1 A D U1 L1 m1 p it e A); [exact HW1|exact Habs1|done|exact Hp|..].
      { by eapply (got_counted e A D U L p it0 it k). }
      { exact Hs1. }
      intros e2 A2 Hrep2 Hs2. run. rewrite Hkey in Hrep2. split; [done|].
      by exists A2.
    + run. split; [done|]. exists A. split; [by exists D, U1, L1|]. by exists p, it0, it.
Qed.

(** C17: the removal of a key from a vbucket that is not active changes nothing and
    returns [ENGINE_NOT_MY_VBUCKET]; otherwise it implements the abstract removal: a
    key that is not cached (or is dead) gives [ENGINE_KEY_ENOENT], a CAS value that
    differs from the one of the entry [ENGINE_KEY_EEXISTS] without removing it, and a
    CAS value of 0 or the right one removes the entry. The reference that the lookup
    took is given back, with one exception: after [ENGINE_KEY_EEXISTS] the item of the key
    is still allocated and has exactly one reference more than before, while no other item
    is changed. *)
Theorem default_item_delete_correct e A m k cas vb :
  cache_rep e A m -> vb_ok e vb -> refs_ok e A ->
  runs (default_item_delete k cas vb) e (fun r e' =>
    if handles e vb then
      let sp := spec_delete (oldest e) e.(e_now) cas k m in
      r = sp.1 /\ exists A', cache_rep e' A' sp.2 /\
        if decide (r = ENGINE_KEY_EEXISTS) then
          exists p it0 it, e.(e_heap) !! p = Some it0 /\ p ∈ A' /\ e'.(e_heap) !! p = Some it /\ item_get_key it = k /\
            it.(it_refcount) = u16 (it0.(it_refcount) + 1) /\ since e A [p] e' A' /\ keeps (fun q => q <> p) e e'
        else since e A [] e' A'
    else r = ENGINE_NOT_MY_VBUCKET /\ e' = e).
Proof.
  intros Hrep Hvb Hrefs. eapply runs_mono; [apply item_delete_run; [done|done|by apply refs_key]|].
  intros r e' Hpost. destruct (handles e vb); [|done]. destruct Hpost as (-> & HA). by split.
Qed.
End removal.

(** ** Witnesses *)

#[local] Existing Instance demo_env.
#[local] Existing Instance demo_env_ok.

(** SET_VBUCKET for vbucket 5 and the state [st], and GET_VBUCKET for it. *)
Definition set_packet (st : Z) : list Z :=
  [128; 61; 0; 0; 0; 0; 0; 5; 0; 0; 0; 4; 0; 0; 0; 0; 0; 0; 0; 0; 0; 0; 0; 0; 0; 0; 0; st].
Definition get_packet : list Z :=
  [128; 62; 0; 0; 0; 0; 0; 5; 0; 0; 0; 0; 0; 0; 0; 0; 0; 0; 0; 0; 0; 0; 0; 0].

(** The small engine of [Store], with all the vbuckets. *)
Definition with_vbuckets (e : engine) : engine :=
  set_e_vbucket_infos (replicate (Z.to_nat NUM_VBUCKETS) 0) e.
Definition vb_cache : engine := with_vbuckets small_cache.

Lemma small_vb_ok vb : (0 <=? vb) && (vb <? NUM_VBUCKETS) = true -> vb_ok vb_cache vb.
Proof.
  intros [H1 H2]%andb_true_iff. boolify. split; [vm_compute; reflexivity|lia].
Qed.

Lemma set_vbucket_guards_witness :
  exists r e', default_unknown_command (set_packet 1) (fun _ => true) 0 vb_cache = Some (r, e') /\
    handles vb_cache 5 = false /\ handles e' 5 = true /\ handles e' 6 = false.
Proof.
  destruct (set_vbucket_guards (set_packet 1) (fun _ => true) 0 vb_cache 5 1)
    as (r & e' & Hr & _ & _ & Hh).
  - repeat split; try reflexivity. exists 4, 0. repeat split; reflexivity.
  - reflexivity.
  - by apply small_vb_ok.
  - exists r, e'. split; [exact Hr|]. split; [vm_compute; reflexivity|].
    split; [rewrite (Hh 5) by (by apply small_vb_ok); vm_compute; reflexivity|].
    rewrite (Hh 6) by (by apply small_vb_ok). vm_compute. reflexivity.
Defined.

Lemma get_vbucket_reports_witness :
  runs (default_unknown_command (set_packet 2) (fun _ => true) 0;; get_vbucket get_packet)
    vb_cache (fun r e' => r = Some (mk_reply [] [255; 255; 255; 254] RESPONSE_SUCCESS 0)).
Proof.
  eapply runs_mono; [apply (get_vbucket_reports (set_packet 2) get_packet _ _ vb_cache 5 2)|].
  - repeat split; try reflexivity. exists 4, 0. repeat split; reflexivity.
  - reflexivity.
  - by apply small_vb_ok.
  - reflexivity.
  - intros r e' [-> _]. reflexivity.
Defined.

(** The engine of [Store] that holds one item, with vbucket 0 active. *)
Definition active_cache : engine := with_state 0 vbucket_state_active (with_vbuckets stored_cache).

Lemma active_cache_rep : exists A, cache_rep active_cache A stored_map /\ refs_ok active_cache A.
Proof.
  destruct stored_cache_rep as (A & Hrep & _). exists A.
  assert (Hrep' : cache_rep active_cache A stored_map)
    by exact (cache_rep_infos _ _ _ _ (cache_rep_infos _ _ _ _ Hrep)).
  split; [exact Hrep'|].
  refine (heap_checked active_cache _ _ (fun it => it.(it_refcount) < 65535) Hrep' _).
  vm_compute. reflexivity.
Qed.

Lemma default_item_delete_correct_witness :
  exists e' A', default_item_delete [97; 98] 1 0 active_cache = Some (ENGINE_SUCCESS, e') /\
    cache_rep e' A' ∅.
Proof.
  destruct active_cache_rep as (A & Hrep & Hrefs).
  destruct (default_item_delete_correct active_cache A stored_map [97; 98] 1 0 Hrep)
    as (r & e' & Hr & Hp); [split; [vm_compute; reflexivity|unfold NUM_VBUCKETS; lia]|done|].
  assert (Hh : handles active_cache 0 = true) by (vm_compute; reflexivity). rewrite Hh in Hp.
  destruct Hp as (-> & A' & HA & _). exists e', A'. rewrite Hr. split.
  - repeat f_equal.
  - by map_is HA (∅ : cache).
Defined.
