(* ===== verification/Bitfield.v ===== *)
(** * Integers in the couchstore file format ([couchstore/src/bitfield.c])

    The fields of the file format are big-endian integers of 1 to 8 bytes; the
    functions copy them to or from the end of a native integer that is byte-swapped.
    The host is little-endian or big-endian: only the bytes in memory order, which
    [FLIP_FN] makes big-endian, are modelled. *)
From Stdlib Require Import ZArith Lia.
From stdpp Require Import strings gmap prelude.
From S2P Require Import Prelude.

#[local] Set Warnings "-clear-no-such-hyp".

(** [DECODE_RAW] and [DECODE_RAW_POINTER]: the raw bytes go to the last bytes of a
    zeroed integer of [width] bytes, which is then converted from network order. *)
Definition DECODE_RAW (width : nat) (raw : list Z) : Z :=
  be_val (replicate (width - length raw) 0 ++ raw).

(** [ENCODE_RAW] and [ENCODE_RAW_POINTER]: the last [size] bytes of the value in
    network order. *)
Definition ENCODE_RAW (width size : nat) (value : Z) : list Z :=
  drop (width - size) (be_bytes width value).

Definition couchstore_decode_raw08 (raw : list Z) : Z := be_val (take 1 raw).
Definition couchstore_decode_raw16 : list Z -> Z := DECODE_RAW 2.
Definition couchstore_decode_raw24p : list Z -> Z := DECODE_RAW 4.
Definition couchstore_decode_raw32 : list Z -> Z := DECODE_RAW 4.
Definition couchstore_decode_raw40p : list Z -> Z := DECODE_RAW 8.
Definition couchstore_decode_raw48p : list Z -> Z := DECODE_RAW 8.
Definition couchstore_decode_raw64 : list Z -> Z := DECODE_RAW 8.

Definition couchstore_encode_raw08 (value : Z) : list Z := ENCODE_RAW 1 1 value.
Definition couchstore_encode_raw16 (value : Z) : list Z := ENCODE_RAW 2 2 value.
Definition couchstore_encode_raw24 (value : Z) : list Z := ENCODE_RAW 4 3 value.
Definition couchstore_encode_raw32 (value : Z) : list Z := ENCODE_RAW 4 4 value.
Definition couchstore_encode_raw40 (value : Z) : list Z := ENCODE_RAW 8 5 value.
Definition couchstore_encode_raw48 (value : Z) : list Z := ENCODE_RAW 8 6 value.
Definition couchstore_encode_raw64 (value : Z) : list Z := ENCODE_RAW 8 8 value.

(** The sizes of the raw types with the size of the native type, the encoder and the
    decoder. *)
Definition raw_types : list (nat * (Z -> list Z) * (list Z -> Z)) :=
  [(1%nat, couchstore_encode_raw08, couchstore_decode_raw08);
   (2%nat, couchstore_encode_raw16, couchstore_decode_raw16);
   (3%nat, couchstore_encode_raw24, couchstore_decode_raw24p);
   (4%nat, couchstore_encode_raw32, couchstore_decode_raw32);
   (5%nat, couchstore_encode_raw40, couchstore_decode_raw40p);
   (6%nat, couchstore_encode_raw48, couchstore_decode_raw48p);
   (8%nat, couchstore_encode_raw64, couchstore_decode_raw64)].

Lemma be_val_zeros n raw : be_val (replicate n 0 ++ raw) = be_val raw.
Proof.
  induction n as [|n IH]; [done|]. simpl. by rewrite be_val_cons, IH.
Qed.

Lemma DECODE_RAW_val width raw : DECODE_RAW width raw = be_val raw.
Proof. apply be_val_zeros. Qed.

Lemma drop_be_bytes k n v : drop k (be_bytes (k + n) v) = be_bytes n v.
Proof. induction k as [|k IH]; [by rewrite drop_0|]. exact IH. Qed.

Lemma ENCODE_RAW_bytes width size value :
  (size <= width)%nat -> ENCODE_RAW width size value = be_bytes size value.
Proof.
  intros Hs. unfold ENCODE_RAW. replace width with ((width - size) + size)%nat at 2 by lia.
  apply drop_be_bytes.
Qed.

Lemma encode16 v : couchstore_encode_raw16 v = be_bytes 2 v.
Proof. by apply ENCODE_RAW_bytes. Qed.

Lemma encode24 v : couchstore_encode_raw24 v = be_bytes 3 v.
Proof. apply ENCODE_RAW_bytes. lia. Qed.

Lemma encode40 v : couchstore_encode_raw40 v = be_bytes 5 v.
Proof. apply ENCODE_RAW_bytes. lia. Qed.

Lemma raw_type_spec n enc dec : (n, enc, dec) ∈ raw_types ->
  (forall v, enc v = be_bytes n v) /\ (forall raw, length raw = n -> dec raw = be_val raw).
Proof.
  intros Hin. unfold raw_types in Hin. split.
  - intros v. repeat (apply elem_of_cons in Hin as [[= -> -> ->]|Hin]);
      try (apply ENCODE_RAW_bytes; lia). by apply not_elem_of_nil in Hin.
  - intros raw Hl. repeat (apply elem_of_cons in Hin as [[= -> -> ->]|Hin]);
      try apply DECODE_RAW_val; [|by apply not_elem_of_nil in Hin].
    unfold couchstore_decode_raw08. by rewrite take_ge by lia.
Qed.

(** C34: for each of the seven raw types, decoding what was encoded gives the value
    back, reduced to the number of bits of the type (a 24-, 40- or 48-bit field drops
    the high-order bits of the native integer), encoding what was decoded gives the
    bytes back, and encoded values are bytes of the right number. *)
Theorem raw_roundtrip n enc dec v raw :
  (n, enc, dec) ∈ raw_types -> bytes_ok raw -> length raw = n ->
  dec (enc v) = v mod 2 ^ (8 * Z.of_nat n) /\ enc (dec raw) = raw /\
  length (enc v) = n /\ bytes_ok (enc v).
Proof.
  intros Hin Hraw Hl. destruct (raw_type_spec _ _ _ Hin) as [He Hd].
  rewrite !He, Hd, (Hd raw) by (rewrite ?be_bytes_length; done).
  rewrite be_val_bytes, <- Hl, be_bytes_val, be_bytes_length by done. auto using be_bytes_ok.
Qed.

Lemma raw_roundtrip_witness :
  couchstore_decode_raw24p (couchstore_encode_raw24 4294967295) = 16777215 /\
  couchstore_encode_raw24 (couchstore_decode_raw24p [1; 2; 3]) = [1; 2; 3].
Proof.
  destruct (raw_roundtrip 3 couchstore_encode_raw24 couchstore_decode_raw24p 4294967295 [1; 2; 3])
    as (H1 & H2 & _).
  - do 2 right. left.
  - repeat constructor; discriminate.
  - reflexivity.
  - split; [exact H1|exact H2].
Defined.

(** * Memory of the view codecs

    A pointer is [NULL], an uninitialised value or the block that an allocation call
    returned. [malloc_ok n size] tells whether the [n]-th call of [malloc] succeeds.
    Freeing a block that is not live, or an uninitialised pointer, ends the process. *)
Inductive ptr := Null | Uninit | Block (n : nat).

#[global] Instance ptr_eq_dec : EqDecision ptr.
Proof. solve_decision. Defined.

Record mem := mk_mem { m_calls : nat; m_live : gset nat }.

Class Alloc := malloc_ok : nat -> Z -> bool.

Definition malloc `{Alloc} (size : Z) : M mem ptr := fun s =>
  let n := s.(m_calls) in
  if malloc_ok n size then Some (Block n, mk_mem (S n) ({[n]} ∪ s.(m_live)))
  else Some (Null, mk_mem (S n) s.(m_live)).

Definition free (p : ptr) : M mem unit := fun s =>
  match p with
  | Null => Some (tt, s)
  | Uninit => None
  | Block n => if decide (n ∈ s.(m_live))
               then Some (tt, mk_mem s.(m_calls) (s.(m_live) ∖ {[n]})) else None
  end.

Fixpoint free_all (ps : list ptr) : M mem unit :=
  match ps with
  | [] => mret tt
  | p :: ps' => free p;; free_all ps'
  end.

(** The live blocks were returned by earlier calls. *)
Definition mem_ok (s : mem) : Prop := forall n, n ∈ s.(m_live) -> (n < s.(m_calls))%nat.

(** The blocks of a list of pointers. *)
Definition blocks (ps : list ptr) : list nat :=
  omap (fun p => match p with Block n => Some n | _ => None end) ps.

(** [s'] has the blocks [bs], which are new, in addition to those of [s]. *)
Definition grown (s s' : mem) (bs : list nat) : Prop :=
  mem_ok s' /\ s'.(m_live) = s.(m_live) ∪ list_to_set bs /\
  NoDup bs /\ (forall n, n ∈ bs -> n ∉ s.(m_live)).

(** Nothing was leaked or freed. *)
Definition balanced (s s' : mem) : Prop := mem_ok s' /\ s'.(m_live) = s.(m_live).

Section memory.
Context `{Alloc}.

Lemma malloc_run size s (Q : ptr -> mem -> Prop) :
  mem_ok s ->
  (forall s', balanced s s' -> Q Null s') ->
  (forall n s', grown s s' [n] -> Q (Block n) s') ->
  runs (malloc size) s Q.
Proof.
  intros Hs H0 H1. unfold malloc, runs. destruct (malloc_ok (m_calls s) size).
  - eexists _, _. split; [done|]. apply H1. split; [|split; [|split]].
    + intros n Hn. simpl in *. apply elem_of_union in Hn as [->%elem_of_singleton|Hn]; [lia|].
      specialize (Hs n Hn). lia.
    + simpl. set_solver.
    + apply NoDup_singleton.
    + intros n ->%list_elem_of_singleton Hn. specialize (Hs _ Hn). lia.
  - eexists _, _. split; [done|]. apply H0. split; [|done]. intros n Hn. specialize (Hs n Hn).
    simpl. lia.
Qed.

Lemma grown_trans s1 s2 s3 bs cs :
  grown s1 s2 bs -> grown s2 s3 cs -> grown s1 s3 (bs ++ cs).
Proof.
  intros (_ & Hl & Hn & Hd) (Ho & Hl' & Hn' & Hd'). split; [done|].
  split; [rewrite Hl', Hl, list_to_set_app_L; set_solver|]. split.
  - apply NoDup_app. split; [done|]. split; [|done]. intros n Hb Hc. apply (Hd' n Hc).
    rewrite Hl. set_solver.
  - intros n [Hb|Hc]%elem_of_app; [by apply Hd|]. specialize (Hd' n Hc). set_solver.
Qed.

Lemma grown_balanced s1 s2 s3 bs : grown s1 s2 bs -> balanced s2 s3 -> grown s1 s3 bs.
Proof. intros (_ & Hl & Hn & Hd) (Ho & Hl'). split; [done|]. by rewrite Hl', Hl. Qed.

Lemma balanced_refl s : mem_ok s -> balanced s s.
Proof. by split. Qed.

Lemma balanced_grown s1 s2 s3 bs : balanced s1 s2 -> grown s2 s3 bs -> grown s1 s3 bs.
Proof. intros (_ & Hl) (Ho & Hl' & Hn & Hd). split; [done|]. by rewrite <- Hl. Qed.

Lemma grown_nil s s' : grown s s' [] -> balanced s s'.
Proof. intros (Ho & Hl & _). split; [done|]. rewrite Hl. set_solver. Qed.

(** Freeing blocks that were allocated, in any order, brings the memory back. *)
Lemma free_all_run ps s0 s bs (Q : unit -> mem -> Prop) :
  grown s0 s bs -> Uninit ∉ ps -> blocks ps ≡ₚ bs ->
  (forall s', balanced s0 s' -> Q tt s') -> runs (free_all ps) s Q.
Proof.
  revert s bs. induction ps as [|p ps IH]; intros s bs Hg Hu Hp HQ.
  - simpl in *. apply Permutation_nil_l in Hp as <-. run. apply HQ. by apply grown_nil.
  - apply not_elem_of_cons in Hu as [Hu1 Hu]. simpl. apply runs_bind. destruct p as [| |n]; [|done|].
    + exists tt, s. split; [done|]. by eapply IH.
    + simpl in Hp. destruct Hg as (Ho & Hl & Hn & Hd). rewrite <- Hp in Hn.
      assert (Hd' : forall x, x ∈ n :: blocks ps -> x ∉ m_live s0)
        by (intros x Hx; apply Hd; by rewrite <- Hp). clear Hd. rename Hd' into Hd.
      apply NoDup_cons in Hn as [Hnn Hn].
      assert (Hlive : m_live s = m_live s0 ∪ ({[n]} ∪ list_to_set (blocks ps))).
      { rewrite Hl. apply set_eq. intros x. rewrite !elem_of_union, !elem_of_list_to_set, <- Hp.
        set_solver. }
      assert (Hn0 : n ∉ m_live s0) by (apply Hd; left).
      eexists tt, _. split.
      { unfold free. rewrite decide_True; [reflexivity|]. set_solver. }
      eapply (IH _ (blocks ps)); [|done|done|done].
      split; [|split; [|split; [done|]]].
      * intros x Hx. simpl in *. apply Ho. set_solver.
      * simpl. rewrite Hlive. apply set_eq. intros x.
        rewrite elem_of_difference, !elem_of_union, elem_of_list_to_set, elem_of_singleton. 
        split; [set_solver|]. intros [Hx|Hx]; (split; [auto|intros ->; done]).
      * intros x Hx. apply Hd. by right.
Qed.

Lemma free_block_run b bs s0 s (Q : unit -> mem -> Prop) :
  grown s0 s (b :: bs) -> (forall s', grown s0 s' bs -> Q tt s') -> runs (free (Block b)) s Q.
Proof.
  intros (Ho & Hl & Hn & Hd) HQ. apply NoDup_cons in Hn as [Hb Hn]. eexists tt, _. split.
  { unfold free. rewrite decide_True; [reflexivity|]. rewrite Hl. set_solver. }
  apply HQ. assert (Hb0 : b ∉ m_live s0) by (apply Hd; left). split; [|split; [|split; [done|]]].
  - intros x Hx. apply Ho. simpl in Hx. set_solver.
  - simpl. rewrite Hl. apply set_eq. intros x.
    rewrite elem_of_difference, !elem_of_union, !elem_of_list_to_set, elem_of_cons, elem_of_singleton.
    split; [naive_solver|]. intros [Hx|Hx]; (split; [auto|intros ->; done]).
  - intros x Hx. apply Hd. by right.
Qed.

End memory.
