(* ===== verification/ViewCodec.v ===== *)
(** * Keys, values and reductions of the view B+trees
    ([couchstore/src/views/keys.c], [values.c], [reductions.c])

    The encoders and decoders, with the allocations they make: what is decoded is what
    was encoded, and whatever call of [malloc] fails, the memory allocated so far is
    freed. A failed [assert] and an access outside an array end the process. *)
From Stdlib Require Import ZArith Lia.
From stdpp Require Import strings gmap prelude.
From S2P Require Import Prelude Bitfield.

#[local] Set Warnings "-clear-no-such-hyp".

(** [couchstore_error_t], the values the codecs return. *)
Inductive couchstore_error_t :=
| COUCHSTORE_SUCCESS
| COUCHSTORE_ERROR_OPEN_FILE
| COUCHSTORE_ERROR_CORRUPT
| COUCHSTORE_ERROR_ALLOC_FAIL
| COUCHSTORE_ERROR_READ
| COUCHSTORE_ERROR_DOC_NOT_FOUND
| COUCHSTORE_ERROR_NO_HEADER
| COUCHSTORE_ERROR_WRITE
| COUCHSTORE_ERROR_HEADER_VERSION
| COUCHSTORE_ERROR_CHECKSUM_FAIL
| COUCHSTORE_ERROR_INVALID_ARGUMENTS
| COUCHSTORE_ERROR_NO_SUCH_FILE
| COUCHSTORE_ERROR_CANCEL
| COUCHSTORE_ERROR_REDUCTION_TOO_LARGE
| COUCHSTORE_ERROR_REDUCER_FAILURE
| COUCHSTORE_ERROR_FILE_CLOSED
| COUCHSTORE_ERROR_DB_NO_LONGER_VALID.

#[global] Instance couchstore_error_t_eq_dec : EqDecision couchstore_error_t.
Proof. solve_decision. Defined.

(** [sized_buf]: the address and the bytes there, [size] being their number. *)
Record sized_buf := mk_buf { sb_buf : ptr; sb_data : list Z }.

Definition sb_size (b : sized_buf) : Z := Z.of_nat (length b.(sb_data)).

Record view_btree_key_t := mk_key { json_key : sized_buf; doc_id : sized_buf }.

Record view_id_btree_key_t := mk_id_key { ik_partition : Z; ik_doc_id : sized_buf }.

Record view_btree_value_t := mk_btree_value {
  vv_partition : Z;
  vv_num_values : Z;
  vv_array : ptr;
  vv_values : list sized_buf
}.

Record view_keys_mapping_t := mk_mapping {
  km_view_id : Z;
  km_num_keys : Z;
  km_array : ptr;
  km_json_keys : list sized_buf
}.

Record view_id_btree_value_t := mk_id_value {
  iv_partition : Z;
  iv_num_view_keys_map : Z;
  iv_array : ptr;
  iv_view_keys_map : list view_keys_mapping_t
}.

Record view_btree_reduction_t := mk_reduction {
  rd_kv_count : Z;
  rd_partitions_bitmap : list Z;
  rd_num_values : Z;
  rd_array : ptr;
  rd_reduce_values : list sized_buf
}.

Record view_id_btree_reduction_t := mk_id_reduction {
  ir_kv_count : Z;
  ir_partitions_bitmap : list Z
}.

Definition sizeof_ptr_pair : Z := 16.
Definition BITMASK_BYTE_SIZE : nat := 128.
Definition MAX_REDUCTION_SIZE : Z := 65535.

Definition dec_uint16 (b : list Z) : Z := couchstore_decode_raw16 (take 2 b).
Definition dec_raw24 (b : list Z) : Z := couchstore_decode_raw24p (take 3 b).
Definition dec_uint40 (b : list Z) : Z := couchstore_decode_raw40p (take 5 b).
Definition enc_uint16 (u : Z) : list Z := couchstore_encode_raw16 (u16 u).
Definition enc_raw24 (u : Z) : list Z := couchstore_encode_raw24 (u32 u).
Definition enc_raw40 (u : Z) : list Z := couchstore_encode_raw40 u.

Definition len (bytes : list Z) : Z := Z.of_nat (length bytes).

Section model.
Context `{Alloc}.

(** What a function returns through [*key], [*value] or [*reduction]: the structure
    and its address. *)
Abbreviation decoded T := (prod couchstore_error_t (option (prod ptr T))).

(** What an encoder returns: the buffer and the bytes written there. Writing more
    than the [sz] bytes of the buffer ends the process. *)
Abbreviation encoded := (prod couchstore_error_t (option (prod ptr (list Z)))).

Definition fill_buffer (sz : Z) (bytes : list Z) : M mem encoded :=
  buf ← malloc sz;
  match buf with
  | Null => free buf;; mret (COUCHSTORE_ERROR_ALLOC_FAIL, None)
  | _ => cassert (len bytes <=? sz);; mret (COUCHSTORE_SUCCESS, Some (buf, bytes))
  end.

(** ** Keys *)

Definition free_view_btree_key (k json doc : ptr) : M mem unit :=
  match k with
  | Null => mret tt
  | _ => free json;; free doc;; free k
  end.

Definition decode_view_btree_key (bytes : list Z) : M mem (decoded view_btree_key_t) :=
  k ← malloc 32;
  if decide (k = Null) then mret (COUCHSTORE_ERROR_ALLOC_FAIL, None) else
  cassert (2 <=? len bytes);;
  let sz := dec_uint16 bytes in
  let bytes1 := drop 2 bytes in
  json ← malloc sz;
  if decide (json = Null) then
    free_view_btree_key k Null Uninit;; mret (COUCHSTORE_ERROR_ALLOC_FAIL, None) else
  cassert (sz <=? len bytes1);;
  let json_data := take (Z.to_nat sz) bytes1 in
  let bytes2 := drop (Z.to_nat sz) bytes1 in
  doc ← malloc (len bytes2);
  if decide (doc = Null) then
    free_view_btree_key k json Null;; mret (COUCHSTORE_ERROR_ALLOC_FAIL, None) else
  mret (COUCHSTORE_SUCCESS, Some (k, mk_key (mk_buf json json_data) (mk_buf doc bytes2))).

Definition encode_view_btree_key (key : view_btree_key_t) : M mem encoded :=
  fill_buffer (u64 (2 + sb_size key.(json_key) + sb_size key.(doc_id)))
    (enc_uint16 (sb_size key.(json_key)) ++ key.(json_key).(sb_data) ++ key.(doc_id).(sb_data)).

Definition free_view_id_btree_key (k doc : ptr) : M mem unit :=
  match k with
  | Null => mret tt
  | _ => free doc;; free k
  end.

Definition decode_view_id_btree_key (bytes : list Z) : M mem (decoded view_id_btree_key_t) :=
  k ← malloc 24;
  if decide (k = Null) then mret (COUCHSTORE_ERROR_ALLOC_FAIL, None) else
  cassert (2 <=? len bytes);;
  let partition := dec_uint16 bytes in
  let bytes1 := drop 2 bytes in
  doc ← malloc (len bytes1);
  if decide (doc = Null) then
    free_view_id_btree_key k Null;; mret (COUCHSTORE_ERROR_ALLOC_FAIL, None) else
  mret (COUCHSTORE_SUCCESS, Some (k, mk_id_key partition (mk_buf doc bytes1))).

Definition encode_view_id_btree_key (key : view_id_btree_key_t) : M mem encoded :=
  fill_buffer (u64 (2 + sb_size key.(ik_doc_id)))
    (enc_uint16 key.(ik_partition) ++ key.(ik_doc_id).(sb_data)).

(** ** Sequences of sized buffers

    [values.c] and [reductions.c] have the same two loops over a sequence of buffers,
    each after its size: [dec] reads the size from [w] bytes and [wr] is the width of
    the counter. Each round consumes at least [w] bytes, so that the number of bytes
    bounds the fuel. *)

(** The first loop checks the sizes and counts the buffers. *)
Fixpoint count_sized (w : nat) (dec : list Z -> Z) (wr : Z -> Z) (fuel : nat) (bs : list Z)
    (num : Z) : M mem Z :=
  match fuel with
  | O => crash
  | S n =>
      if negb (0 <? len bs) then mret num else
      cassert (Z.of_nat w <=? len bs);;
      let sz := dec bs in
      let bs1 := drop w bs in
      cassert (sz <=? len bs1);;
      count_sized w dec wr n (drop (Z.to_nat sz) bs1) (wr (num + 1))
  end.

(** The second loop copies the buffers into the array, from index [i]; the result is
    the array, and whether no allocation failed. *)
Fixpoint fill_sized (w : nat) (dec : list Z -> Z) (wr : Z -> Z) (fuel : nat) (bytes : list Z)
    (i : Z) (vals : list sized_buf) : M mem (bool * list sized_buf) :=
  match fuel with
  | O => crash
  | S n =>
      if negb (0 <? len bytes) then mret (true, vals) else
      let sz := dec bytes in
      let bytes1 := drop w bytes in
      buf ← malloc sz;
      let data := match buf with Null => [] | _ => take (Z.to_nat sz) bytes1 end in
      vals' ← of_option (zupdate vals i (mk_buf buf data));
      if decide (buf = Null) then mret (false, vals')
      else fill_sized w dec wr n (drop (Z.to_nat sz) bytes1) (wr (i + 1)) vals'
  end.

Definition no_bufs (n : Z) : list sized_buf := replicate (Z.to_nat n) (mk_buf Null []).

Definition enc_sized (enc : Z -> list Z) (b : sized_buf) : list Z :=
  enc (sb_size b) ++ b.(sb_data).

(** ** Values of the view B+tree *)

(** [num] elements of the array are freed: all of those it has. *)
Definition free_view_btree_value (v arr : ptr) (num : Z) (vals : list sized_buf) : M mem unit :=
  match v with
  | Null => mret tt
  | _ => (if decide (arr = Null) then mret tt
          else free_all (sb_buf <$> take (Z.to_nat num) vals);; free arr);;
         free v
  end.

Definition decode_view_btree_value (bytes : list Z) : M mem (decoded view_btree_value_t) :=
  v ← malloc 16;
  if decide (v = Null) then mret (COUCHSTORE_ERROR_ALLOC_FAIL, None) else
  cassert (2 <=? len bytes);;
  let partition := dec_uint16 bytes in
  let bytes1 := drop 2 bytes in
  num ← count_sized 3 dec_raw24 u16 (S (length bytes1)) bytes1 0;
  arr ← malloc (num * sizeof_ptr_pair);
  if decide (arr = Null) then
    free_view_btree_value v arr num [];; mret (COUCHSTORE_ERROR_ALLOC_FAIL, None) else
  r ← fill_sized 3 dec_raw24 u16 (S (length bytes1)) bytes1 0 (no_bufs num);
  if (r.1 : bool)
  then mret (COUCHSTORE_SUCCESS, Some (v, mk_btree_value partition num arr r.2))
  else free_view_btree_value v arr num r.2;; mret (COUCHSTORE_ERROR_ALLOC_FAIL, None).

Definition encode_view_btree_value (value : view_btree_value_t) : M mem encoded :=
  let vals := take (Z.to_nat value.(vv_num_values)) value.(vv_values) in
  fill_buffer (u64 (2 + foldr (fun b sz => 3 + sb_size b + sz) 0 vals))
    (enc_uint16 value.(vv_partition) ++ mjoin (enc_sized enc_raw24 <$> vals)).

(** ** Reductions *)

Definition free_view_btree_reduction (r arr : ptr) (num : Z) (vals : list sized_buf) : M mem unit :=
  match r with
  | Null => mret tt
  | _ => (if decide (arr = Null) then mret tt
          else free_all (sb_buf <$> take (Z.to_nat num) vals);; free arr);;
         free r
  end.

Definition decode_view_btree_reduction (bytes : list Z)
    : M mem (decoded view_btree_reduction_t) :=
  r ← malloc 160;
  if decide (r = Null) then mret (COUCHSTORE_ERROR_ALLOC_FAIL, None) else
  cassert (5 <=? len bytes);;
  let kv_count := dec_uint40 bytes in
  let bytes1 := drop 5 bytes in
  cassert (Z.of_nat BITMASK_BYTE_SIZE <=? len bytes1);;
  let bitmap := take BITMASK_BYTE_SIZE bytes1 in
  let bytes2 := drop BITMASK_BYTE_SIZE bytes1 in
  num ← count_sized 2 dec_uint16 u8 (S (length bytes2)) bytes2 0;
  arr ← (if 0 <? num then malloc (num * sizeof_ptr_pair) else mret Null);
  if decide (0 < num /\ arr = Null) then
    free_view_btree_reduction r arr num [];; mret (COUCHSTORE_ERROR_ALLOC_FAIL, None) else
  f ← fill_sized 2 dec_uint16 u8 (S (length bytes2)) bytes2 0 (no_bufs num);
  if (f.1 : bool)
  then mret (COUCHSTORE_SUCCESS, Some (r, mk_reduction kv_count bitmap num arr f.2))
  else free_view_btree_reduction r arr num f.2;; mret (COUCHSTORE_ERROR_ALLOC_FAIL, None).

(** The caller provides a buffer of [cap] bytes. *)
Definition encode_view_btree_reduction (reduction : view_btree_reduction_t) (cap : Z)
    : M mem (couchstore_error_t * option (list Z)) :=
  let vals := take (Z.to_nat reduction.(rd_num_values)) reduction.(rd_reduce_values) in
  let sz := u64 (5 + Z.of_nat BITMASK_BYTE_SIZE + foldr (fun b sz => 2 + sb_size b + sz) 0 vals) in
  if MAX_REDUCTION_SIZE <? sz then mret (COUCHSTORE_ERROR_REDUCTION_TOO_LARGE, None) else
  let bytes := enc_raw40 reduction.(rd_kv_count) ++ reduction.(rd_partitions_bitmap)
                 ++ mjoin (enc_sized enc_uint16 <$> vals) in
  cassert (len bytes <=? cap);;
  mret (COUCHSTORE_SUCCESS, Some bytes).

Definition free_view_id_btree_reduction (r : ptr) : M mem unit :=
  match r with Null => mret tt | _ => free r end.

(** The function has no length: reading outside the bytes ends the process. *)
Definition decode_view_id_btree_reduction (bytes : list Z)
    : M mem (decoded view_id_btree_reduction_t) :=
  r ← malloc 136;
  if decide (r = Null) then mret (COUCHSTORE_ERROR_ALLOC_FAIL, None) else
  cassert (5 + Z.of_nat BITMASK_BYTE_SIZE <=? len bytes);;
  mret (COUCHSTORE_SUCCESS,
        Some (r, mk_id_reduction (dec_uint40 bytes) (take BITMASK_BYTE_SIZE (drop 5 bytes)))).

Definition encode_view_id_btree_reduction (reduction : view_id_btree_reduction_t) (cap : Z)
    : M mem (couchstore_error_t * option (list Z)) :=
  let sz := 5 + Z.of_nat BITMASK_BYTE_SIZE in
  if MAX_REDUCTION_SIZE <? sz then mret (COUCHSTORE_ERROR_REDUCTION_TOO_LARGE, None) else
  let bytes := enc_raw40 reduction.(ir_kv_count) ++ reduction.(ir_partitions_bitmap) in
  cassert (len bytes <=? cap);;
  mret (COUCHSTORE_SUCCESS, Some bytes).

(** ** Values of the id B+tree *)

Fixpoint skip_keys (n : nat) (bs : list Z) : M mem (list Z) :=
  match n with
  | O => mret bs
  | S n' =>
      cassert (2 <=? len bs);;
      let sz := dec_uint16 bs in
      let bs1 := drop 2 bs in
      cassert (sz <=? len bs1);;
      skip_keys n' (drop (Z.to_nat sz) bs1)
  end.

Fixpoint count_mappings (fuel : nat) (bs : list Z) (num : Z) : M mem Z :=
  match fuel with
  | O => crash
  | S n =>
      if negb (0 <? len bs) then mret num else
      cassert (1 <=? len bs);;
      let bs1 := drop 1 bs in
      cassert (2 <=? len bs1);;
      bs2 ← skip_keys (Z.to_nat (dec_uint16 bs1)) (drop 2 bs1);
      count_mappings n bs2 (u16 (num + 1))
  end.

(** The inner loop over the [n] keys of one view, from index [j]; the results are
    whether no allocation failed, the keys and the bytes left. *)
Fixpoint fill_keys (n : nat) (bytes : list Z) (j : Z) (keys : list sized_buf)
    : M mem (bool * list sized_buf * list Z) :=
  match n with
  | O => mret (true, keys, bytes)
  | S n' =>
      let sz := dec_uint16 bytes in
      let bytes1 := drop 2 bytes in
      buf ← malloc sz;
      let data := match buf with Null => [] | _ => take (Z.to_nat sz) bytes1 end in
      keys' ← of_option (zupdate keys j (mk_buf buf data));
      if decide (buf = Null) then mret (false, keys', bytes1)
      else fill_keys n' (drop (Z.to_nat sz) bytes1) (u16 (j + 1)) keys'
  end.

Definition no_mapping : view_keys_mapping_t := mk_mapping 0 0 Null [].

Fixpoint fill_mappings (fuel : nat) (bytes : list Z) (i : Z) (maps : list view_keys_mapping_t)
    : M mem (bool * list view_keys_mapping_t) :=
  match fuel with
  | O => crash
  | S n =>
      if negb (0 <? len bytes) then mret (true, maps) else
      let view_id := be_val (take 1 bytes) in
      let num_keys := dec_uint16 (drop 1 bytes) in
      arr ← malloc (num_keys * sizeof_ptr_pair);
      if decide (arr = Null) then
        maps' ← of_option (zupdate maps i (mk_mapping view_id num_keys Null []));
        mret (false, maps')
      else
        r ← fill_keys (Z.to_nat num_keys) (drop 3 bytes) 0 (no_bufs num_keys);
        maps' ← of_option (zupdate maps i (mk_mapping view_id num_keys arr r.1.2));
        if (r.1.1 : bool) then fill_mappings n r.2 (u16 (i + 1)) maps'
        else mret (false, maps')
  end.

(** The blocks of one mapping, in the order they are freed. *)
Definition mapping_ptrs (m : view_keys_mapping_t) : list ptr :=
  if decide (m.(km_array) = Null) then []
  else (sb_buf <$> take (Z.to_nat m.(km_num_keys)) m.(km_json_keys)) ++ [m.(km_array)].

Definition free_view_id_btree_value (v arr : ptr) (num : Z) (maps : list view_keys_mapping_t)
    : M mem unit :=
  match v with
  | Null => mret tt
  | _ => (if decide (arr = Null) then mret tt
          else free_all (mjoin (mapping_ptrs <$> take (Z.to_nat num) maps));; free arr);;
         free v
  end.

Definition decode_view_id_btree_value (bytes : list Z) : M mem (decoded view_id_btree_value_t) :=
  v ← malloc 16;
  if decide (v = Null) then mret (COUCHSTORE_ERROR_ALLOC_FAIL, None) else
  cassert (2 <=? len bytes);;
  let partition := dec_uint16 bytes in
  let bytes1 := drop 2 bytes in
  num ← count_mappings (S (length bytes1)) bytes1 0;
  arr ← malloc (num * sizeof_ptr_pair);
  if decide (arr = Null) then
    free_view_id_btree_value v arr num [];; mret (COUCHSTORE_ERROR_ALLOC_FAIL, None) else
  r ← fill_mappings (S (length bytes1)) bytes1 0 (replicate (Z.to_nat num) no_mapping);
  if (r.1 : bool)
  then mret (COUCHSTORE_SUCCESS, Some (v, mk_id_value partition num arr r.2))
  else free_view_id_btree_value v arr num r.2;; mret (COUCHSTORE_ERROR_ALLOC_FAIL, None).

(** The keys of a mapping that are encoded, and their encoding. *)
Definition mapping_keys (m : view_keys_mapping_t) : list sized_buf :=
  take (Z.to_nat m.(km_num_keys)) m.(km_json_keys).

Definition enc_mapping (m : view_keys_mapping_t) : list Z :=
  u8 m.(km_view_id) :: enc_uint16 m.(km_num_keys)
    ++ mjoin (enc_sized enc_uint16 <$> mapping_keys m).

Definition mapping_size (m : view_keys_mapping_t) : Z :=
  3 + foldr (fun b sz => 2 + sb_size b + sz) 0 (mapping_keys m).

Definition encode_view_id_btree_value (value : view_id_btree_value_t) : M mem encoded :=
  let maps := take (Z.to_nat value.(iv_num_view_keys_map)) value.(iv_view_keys_map) in
  fill_buffer (u64 (2 + foldr (fun m sz => mapping_size m + sz) 0 maps))
    (enc_uint16 value.(iv_partition) ++ mjoin (enc_mapping <$> maps)).
End model.

(** * Decoding sequences of sized buffers *)

(** The state of the array when [done] buffers are copied and [n] are to come. *)
Definition partly (dn : list sized_buf) (n : nat) : list sized_buf :=
  dn ++ replicate n (mk_buf Null []).

Lemma zupdate_partly dn n b :
  zupdate (partly dn (S n)) (Z.of_nat (length dn)) b = Some (partly (dn ++ [b]) n).
Proof.
  unfold partly. rewrite zupdate_lt by (rewrite length_app, length_replicate; lia).
  rewrite Nat2Z.id. rewrite insert_app_r_alt, Nat.sub_diag by lia. simpl. by rewrite <- app_assoc.
Qed.

Lemma blocks_nulls n : blocks (replicate n Null) = [].
Proof. by induction n. Qed.

Lemma balanced_nil s s' : balanced s s' -> grown s s' [].
Proof.
  intros [Ho Hl]. split; [done|]. split; [rewrite Hl; set_solver|]. split; [constructor|].
  intros n Hn. by apply not_elem_of_nil in Hn.
Qed.

Lemma blocks_app ps qs : blocks (ps ++ qs) = blocks ps ++ blocks qs.
Proof. apply omap_app. Qed.

(** Buffers that are all allocated or [NULL]. *)
Definition no_uninit (bs : list sized_buf) : Prop := Forall (fun b => b.(sb_buf) <> Uninit) bs.

Definition bufs (bs : list sized_buf) : list nat := blocks (sb_buf <$> bs).

Section sized.
Context `{Alloc}.
Context (w : nat) (dec : list Z -> Z) (enc : Z -> list Z) (wr : Z -> Z) (bound : Z).
Context (Hw : (0 < w)%nat).
Context (Henc : forall sz, length (enc sz) = w).
Context (Hdec : forall sz rest, 0 <= sz < 2 ^ (8 * Z.of_nat w) -> dec (enc sz ++ rest) = sz).
Context (Hwr : forall i, 0 <= i < bound -> wr i = i).

(** The encoding of a sequence of buffers with the contents [ds]. *)
Definition flat (ds : list (list Z)) : list Z := mjoin ((fun d => enc (len d) ++ d) <$> ds).

Definition sizes_ok (ds : list (list Z)) : Prop :=
  Forall (fun d => len d < 2 ^ (8 * Z.of_nat w)) ds.

Lemma flat_cons d ds : flat (d :: ds) = enc (len d) ++ d ++ flat ds.
Proof. unfold flat. simpl. by rewrite app_assoc. Qed.

(** The head of a sequence, as the loops read it. *)
Lemma flat_head d ds : sizes_ok (d :: ds) ->
  let bs := flat (d :: ds) in
  (0 <? len bs) = true /\ (Z.of_nat w <=? len bs) = true /\ dec bs = len d /\
  drop w bs = d ++ flat ds /\ (len d <=? len (drop w bs)) = true /\
  take (Z.to_nat (len d)) (drop w bs) = d /\ drop (Z.to_nat (len d)) (drop w bs) = flat ds /\
  (length (flat ds) < length bs)%nat.
Proof.
  intros Hok bs. inversion Hok as [|? ? Hd _]; subst. unfold bs. rewrite flat_cons.
  assert (Hdrop : drop w (enc (len d) ++ d ++ flat ds) = d ++ flat ds)
    by (apply drop_app_length'; by rewrite Henc).
  rewrite Hdrop, Hdec by (unfold len in *; lia). unfold len. rewrite Nat2Z.id.
  rewrite take_app_length, drop_app_length, !length_app, Henc.
  repeat split; try apply Z.ltb_lt; try apply Z.leb_le; lia.
Qed.

Lemma count_sized_run ds fuel num s (Q : Z -> mem -> Prop) :
  sizes_ok ds -> (length (flat ds) < fuel)%nat -> 0 <= num -> num + Z.of_nat (length ds) < bound ->
  Q (num + Z.of_nat (length ds)) s -> runs (count_sized w dec wr fuel (flat ds) num) s Q.
Proof.
  revert fuel num. induction ds as [|d ds IH]; intros [|fuel] num Hok Hf Hn Hb HQ; try lia.
  - simpl. run. by rewrite Z.add_0_r in HQ.
  - destruct (flat_head d ds Hok) as (H1 & H2 & H3 & H4 & H5 & _ & H7 & H8).
    cbn [count_sized]. rewrite H1, H2, H3, H5, H7. cbn [negb]. run; [done|done|].
    inversion Hok; subst. rewrite length_cons in *. apply IH; [done|lia|..].
    + rewrite Hwr by lia. lia.
    + rewrite Hwr by lia. lia.
    + rewrite Hwr by lia. by replace (num + 1 + Z.of_nat (length ds)) with (num + Z.of_nat (S (length ds))) by lia.
Qed.

Lemma fill_sized_run ds fuel dn s (Q : bool * list sized_buf -> mem -> Prop) :
  sizes_ok ds -> (length (flat ds) < fuel)%nat ->
  Z.of_nat (length dn) + Z.of_nat (length ds) < bound -> mem_ok s ->
  (forall new s', sb_data <$> new = ds -> no_uninit new -> grown s s' (bufs new) ->
     Q (true, dn ++ new) s') ->
  (forall new s', length new = length ds -> no_uninit new -> grown s s' (bufs new) ->
     Q (false, dn ++ new) s') ->
  runs (fill_sized w dec wr fuel (flat ds) (Z.of_nat (length dn)) (partly dn (length ds))) s Q.
Proof.
  revert fuel dn s Q. induction ds as [|d ds IH]; intros [|fuel] dn s Q Hok Hf Hb Hs Ht Hfail; try lia.
  - simpl. run. unfold partly. simpl. apply Ht; [done|constructor|].
    by apply balanced_nil, balanced_refl.
  - destruct (flat_head d ds Hok) as (H1 & H2 & H3 & H4 & H5 & H6 & H7 & H8).
    cbn [fill_sized length]. rewrite H1, H3. cbn [negb]. apply runs_bind. apply malloc_run; [done|..].
    + intros s1 Hbal. run; [apply zupdate_partly|]. rewrite decide_True by done. run. unfold partly.
      rewrite <- app_assoc.
      apply Hfail.
      * simpl. by rewrite length_replicate.
      * constructor; [done|]. by apply Forall_replicate.
      * unfold bufs. rewrite fmap_app, fmap_replicate, blocks_app, blocks_nulls. by apply balanced_nil.
    + intros n s1 Hg. run; [apply zupdate_partly|]. rewrite decide_False, H6, H7 by done.
      inversion Hok; subst. rewrite length_cons in *. rewrite Hwr by lia.
      replace (Z.of_nat (length dn) + 1) with (Z.of_nat (length (dn ++ [mk_buf (Block n) d])))
        by (rewrite length_app; simpl; lia).
      apply IH; [done|lia|rewrite length_app; simpl; lia|apply Hg|..].
      * intros new s2 Hnew Hu Hg2. rewrite <- app_assoc. apply Ht; [by rewrite fmap_app, Hnew|by constructor|].
        by apply (grown_trans s s1 s2 [n] (bufs new)).
      * intros new s2 Hnew Hu Hg2. rewrite <- app_assoc. apply Hfail; [by rewrite length_app, Hnew|by constructor|].
        by apply (grown_trans s s1 s2 [n] (bufs new)).
Qed.
End sized.

(** * Round trips *)

(** Encoding, then decoding the bytes; the buffer of the encoder is freed. *)
Definition roundtrip {T} (enc : M mem (couchstore_error_t * option (ptr * list Z)))
    (dec : list Z -> M mem (couchstore_error_t * option (ptr * T)))
    : M mem (couchstore_error_t * option (ptr * T)) :=
  r ← enc;
  match r.2 with
  | Some (buf, bytes) => d ← dec bytes; free buf;; mret d
  | None => mret (r.1, None)
  end.

(** Either a structure [t] with [P t], whose blocks [ptrs] are the only new ones, or
    an allocation failed and nothing is leaked. *)
Definition decoded_or_failed {T} (s : mem) (P : T -> Prop) (ptrs : T -> list ptr)
    (r : couchstore_error_t * option (ptr * T)) (s' : mem) : Prop :=
  match r with
  | (COUCHSTORE_SUCCESS, Some (p, t)) =>
      P t /\ exists bs, grown s s' bs /\ bs ≡ₚ blocks (p :: ptrs t)
  | (COUCHSTORE_ERROR_ALLOC_FAIL, None) => balanced s s'
  | _ => False
  end.

Lemma len_app xs ys : len (xs ++ ys) = len xs + len ys.
Proof. unfold len. rewrite length_app. lia. Qed.

Lemma enc16_length sz : length (enc_uint16 sz) = 2%nat.
Proof. unfold enc_uint16. by rewrite encode16, be_bytes_length. Qed.

Lemma enc24_length sz : length (enc_raw24 sz) = 3%nat.
Proof. unfold enc_raw24. by rewrite encode24, be_bytes_length. Qed.

Lemma enc40_length v : length (enc_raw40 v) = 5%nat.
Proof. unfold enc_raw40. by rewrite encode40, be_bytes_length. Qed.

Lemma dec16_enc v rest : 0 <= v < 2 ^ (8 * Z.of_nat 2) -> dec_uint16 (enc_uint16 v ++ rest) = v.
Proof.
  intros Hv. unfold dec_uint16, enc_uint16, couchstore_decode_raw16.
  rewrite encode16, take_app_length', DECODE_RAW_val, be_val_bytes by (by rewrite be_bytes_length).
  rewrite u16_small by (simpl in *; lia). by apply Z.mod_small.
Qed.

Lemma dec24_enc v rest : 0 <= v < 2 ^ (8 * Z.of_nat 3) -> dec_raw24 (enc_raw24 v ++ rest) = v.
Proof.
  intros Hv. unfold dec_raw24, enc_raw24, couchstore_decode_raw24p.
  rewrite encode24, take_app_length', DECODE_RAW_val, be_val_bytes by (by rewrite be_bytes_length).
  rewrite u32_small by (simpl in *; lia). by apply Z.mod_small.
Qed.

Lemma dec40_enc v rest : 0 <= v < 2 ^ 40 -> dec_uint40 (enc_raw40 v ++ rest) = v.
Proof.
  intros Hv. unfold dec_uint40, enc_raw40, couchstore_decode_raw40p.
  rewrite encode40, take_app_length', DECODE_RAW_val, be_val_bytes by (by rewrite be_bytes_length).
  by apply Z.mod_small.
Qed.

Section roundtrips.
Context `{Alloc}.

Lemma malloc_all size s (Q : ptr -> mem -> Prop) :
  (forall n sz, malloc_ok n sz = true) -> mem_ok s ->
  (forall n s', grown s s' [n] -> Q (Block n) s') -> runs (malloc size) s Q.
Proof.
  intros Hall Hs HQ. apply (malloc_run size s (fun p s' => p = Null \/ Q p s')) in Hs; [|by left|by right; auto].
  destruct Hs as (p & s' & Hm & Hp). exists p, s'. split; [done|]. destruct Hp as [->|]; [|done].
  unfold malloc in Hm. rewrite Hall in Hm. discriminate.
Qed.

(** A round trip, from a property of the decoder on the bytes that are encoded. *)
Lemma roundtrip_run {T} sz bytes (dec : list Z -> M mem (couchstore_error_t * option (ptr * T)))
    P ptrs s :
  mem_ok s -> len bytes <= sz ->
  (forall s1, mem_ok s1 -> runs (dec bytes) s1 (decoded_or_failed s1 P ptrs)) ->
  runs (roundtrip (fill_buffer sz bytes) dec) s (decoded_or_failed s P ptrs).
Proof.
  intros Hs Hsz Hdec. unfold roundtrip, fill_buffer. run. apply malloc_run; [done|..].
  - intros s1 Hb. run. exists tt, s1. split; [done|]. run. simpl. run. exact Hb.
  - intros n s1 Hg. rewrite (proj2 (Z.leb_le _ _) Hsz). run; [done|]. simpl. run.
    eapply runs_mono; [apply Hdec, Hg|]. intros [[] [[p t]|]] s2 Hd; try done; run.
    + destruct Hd as (HP & bs & Hg2 & Hperm).
      eapply free_block_run; [exact (grown_trans _ _ _ _ _ Hg Hg2)|]. intros s3 Hg3. run.
      split; [done|]. by exists bs.
    + eapply free_block_run; [exact (grown_balanced _ _ _ _ Hg Hd)|]. intros s3 Hg3. run.
      by apply grown_nil.
Qed.

(** a key of the id B+tree that is encoded and decoded is the same key, whatever
    the calls of [malloc] do: when one fails the codec reports it and leaks
    nothing, otherwise only the blocks of the decoded key stay allocated. *)
Theorem view_id_btree_key_roundtrip key s :
  mem_ok s -> 0 <= key.(ik_partition) < 2 ^ 16 -> sb_size key.(ik_doc_id) < 2 ^ 63 ->
  runs (roundtrip (encode_view_id_btree_key key) decode_view_id_btree_key) s
    (decoded_or_failed s
       (fun k => k.(ik_partition) = key.(ik_partition) /\
                 k.(ik_doc_id).(sb_data) = key.(ik_doc_id).(sb_data))
       (fun k => [k.(ik_doc_id).(sb_buf)])).
Proof.
  intros Hs Hp Hd. unfold encode_view_id_btree_key. apply roundtrip_run; [done|..].
  { rewrite len_app. unfold len, sb_size in *. rewrite enc16_length, u64_small by lia. lia. }
  intros s1 Hs1. unfold decode_view_id_btree_key. run. apply malloc_run; [done|..].
  { intros s2 Hb. rewrite decide_True by done. by run. }
  intros n s2 Hg. rewrite decide_False by done. run.
  { apply Z.leb_le. rewrite len_app. unfold len. rewrite enc16_length. lia. }
  apply malloc_run; [apply Hg|..].
  - intros s3 Hb. rewrite decide_True by done. unfold free_view_id_btree_key. run.
    exists tt, s3. split; [done|].
    eapply free_block_run; [exact (grown_balanced _ _ _ _ Hg Hb)|]. intros s4 Hg4. run.
    by apply grown_nil.
  - intros n2 s3 Hg2. rewrite decide_False by done.
    rewrite dec16_enc, drop_app_length' by (rewrite ?enc16_length; simpl; lia). run.
    split; [done|]. exists [n; n2]. split; [exact (grown_trans _ _ _ _ _ Hg Hg2)|done].
Qed.
(** A key of the view B+tree whose JSON part is shorter than 64 KB is the same
    key after encoding and decoding, when memory is available. *)
Theorem view_btree_key_roundtrip key s :
  (forall n sz, malloc_ok n sz = true) -> mem_ok s -> sb_size key.(json_key) < 2 ^ 16 ->
  sb_size key.(doc_id) < 2 ^ 63 ->
  runs (roundtrip (encode_view_btree_key key) decode_view_btree_key) s (fun r s' =>
    exists p k, r = (COUCHSTORE_SUCCESS, Some (p, k)) /\
      k.(json_key).(sb_data) = key.(json_key).(sb_data) /\
      k.(doc_id).(sb_data) = key.(doc_id).(sb_data)).
Proof.
  intros Hall Hs Hj Hd. unfold sb_size in *.
  unfold roundtrip, encode_view_btree_key, fill_buffer, sb_size. run. eapply malloc_all; [done|done|].
  intros n s1 Hg. run.
  { apply Z.leb_le. rewrite !len_app. unfold len. rewrite enc16_length, u64_small by lia. lia. }
  cbn [snd]. unfold decode_view_btree_key.
  rewrite dec16_enc by (simpl; lia). rewrite (drop_app_length' (enc_uint16 _)) by (by rewrite enc16_length).
  rewrite Nat2Z.id, take_app_length, drop_app_length. run.
  eapply malloc_all; [done|apply Hg|]. intros n1 s2 Hg1. rewrite decide_False by done. run.
  { apply Z.leb_le. rewrite len_app. unfold len. rewrite enc16_length. lia. }
  eapply malloc_all; [done|apply Hg1|]. intros n2 s3 Hg2. rewrite decide_False by done. run.
  { apply Z.leb_le. rewrite len_app. unfold len. lia. }
  eapply malloc_all; [done|apply Hg2|]. intros n3 s4 Hg3. rewrite decide_False by done. run.
  eapply free_block_run.
  { exact (grown_trans _ _ _ _ _ Hg (grown_trans _ _ _ _ _ Hg1 (grown_trans _ _ _ _ _ Hg2 Hg3))). }
  intros s5 _. run. by eexists _, _.
Qed.

(** C39: when the allocation of the JSON key fails, the decoder of a view B+tree key
    frees the pointer to the document id, which is not initialised yet, instead of
    reporting the failure. *)
Theorem decode_view_btree_key_bad_free bytes s :
  2 <= len bytes -> malloc_ok s.(m_calls) 32 = true ->
  malloc_ok (S s.(m_calls)) (dec_uint16 bytes) = false ->
  decode_view_btree_key bytes s = None.
Proof.
  intros Hl H1 H2. unfold decode_view_btree_key, malloc, mbind, M_bind. cbv zeta. rewrite H1.
  rewrite decide_False by done. unfold cassert. rewrite (proj2 (Z.leb_le _ _) Hl). cbn [m_calls].
  rewrite H2, decide_True by done. done.
Qed.

(** Freeing what a structure points to, its array and the structure itself. *)
Lemma free_ptrs_run v arr ps s0 s (Q : unit -> mem -> Prop) :
  Uninit ∉ ps -> grown s0 s ([v; arr] ++ blocks ps) ->
  (forall s', balanced s0 s' -> Q tt s') ->
  runs ((free_all ps;; free (Block arr));; free (Block v)) s Q.
Proof.
  intros Hu Hg HQ.
  assert (Hall : runs (free_all (ps ++ [Block arr; Block v])) s Q).
  { eapply free_all_run; [exact Hg|..].
    - rewrite elem_of_app. intros [Hin|Hin]; [done|].
      by repeat (apply elem_of_cons in Hin as [Hin|Hin]; [done|]); apply not_elem_of_nil in Hin.
    - rewrite blocks_app. simpl. rewrite Permutation_app_comm. simpl. apply Permutation_swap.
    - done. }
  apply runs_bind, runs_bind. clear Hg HQ Hu. revert s Hall.
  induction ps as [|b ps IH]; intros s Hall; simpl in *.
  - run. apply runs_bind_inv in Hall. eapply runs_mono; [exact Hall|]. intros [] s1 H1.
    apply runs_bind_inv in H1. eapply runs_mono; [exact H1|]. intros [] s2 H2. by apply runs_ret_inv in H2.
  - apply runs_bind. apply runs_bind_inv in Hall. eapply runs_mono; [exact Hall|].
    intros [] s1 H1. by apply IH.
Qed.

Lemma no_uninit_ptrs vals : no_uninit vals -> Uninit ∉ sb_buf <$> vals.
Proof.
  intros Hu Hin. apply list_elem_of_fmap in Hin as (b & Hb & Hin). unfold no_uninit in Hu.
  rewrite Forall_forall in Hu. by apply (Hu b Hin).
Qed.

Lemma free_struct_run v arr vals s0 s (Q : unit -> mem -> Prop) :
  no_uninit vals -> grown s0 s ([v; arr] ++ bufs vals) ->
  (forall s', balanced s0 s' -> Q tt s') ->
  runs ((free_all (sb_buf <$> vals);; free (Block arr));; free (Block v)) s Q.
Proof. intros Hu%no_uninit_ptrs Hg HQ. by eapply free_ptrs_run. Qed.

Lemma decode_view_btree_value_run partition ds s :
  mem_ok s -> 0 <= partition < 2 ^ 16 -> Z.of_nat (length ds) < 2 ^ 16 -> sizes_ok 3 ds ->
  runs (decode_view_btree_value (enc_uint16 partition ++ flat enc_raw24 ds)) s
    (decoded_or_failed s
       (fun v => v.(vv_partition) = partition /\ v.(vv_num_values) = Z.of_nat (length ds) /\
                 sb_data <$> v.(vv_values) = ds)
       (fun v => v.(vv_array) :: (sb_buf <$> v.(vv_values)))).
Proof.
  intros Hs Hp Hn Hok. unfold decode_view_btree_value. run. apply malloc_run; [done|..].
  { intros s1 Hb. rewrite decide_True by done. by run. }
  intros n s1 Hg. rewrite decide_False by done.
  rewrite dec16_enc, drop_app_length' by (rewrite ?enc16_length; simpl; lia). run.
  { apply Z.leb_le. rewrite len_app. unfold len. rewrite enc16_length. lia. }
  apply (count_sized_run 3 dec_raw24 enc_raw24 u16 65536 ltac:(lia) enc24_length dec24_enc);
    [by apply u16_small|done|lia|lia|lia|].
  rewrite Z.add_0_l. run. apply malloc_run; [apply Hg|..].
  { intros s2 Hb. rewrite decide_True by done. unfold free_view_btree_value. run.
    rewrite decide_True by done. run. eapply free_block_run; [exact (grown_balanced _ _ _ _ Hg Hb)|]. intros s3 Hg3. run.
    by apply grown_nil. }
  intros n2 s2 Hg2. rewrite decide_False by done. run.
  pose proof (grown_trans _ _ _ _ _ Hg Hg2) as Hg12. unfold no_bufs. rewrite Nat2Z.id.
  apply (fill_sized_run 3 dec_raw24 enc_raw24 u16 65536 ltac:(lia) enc24_length dec24_enc u16_small
           ds _ []); [done|lia|simpl; lia|apply Hg2|..].
  - intros new s3 Hnew Hu Hg3. cbn [fst snd]. run. split; [done|].
    eexists. split; [exact (grown_trans _ _ _ _ _ Hg12 Hg3)|done].
  - intros new s3 Hnew Hu Hg3. unfold free_view_btree_value. cbn [fst snd]. apply runs_bind.
    rewrite decide_False, take_ge by (try done; simpl; lia).
    eapply free_struct_run; [exact Hu|exact (grown_trans _ _ _ _ _ Hg12 Hg3)|]. intros s4 Hb. by run.
Qed.

(** The contents of the first [num] buffers. *)
Definition contents (num : Z) (bs : list sized_buf) : list (list Z) :=
  sb_data <$> take (Z.to_nat num) bs.

(** Encoding a sequence of buffers. *)
Lemma enc_sized_flat (enc : Z -> list Z) bs :
  mjoin (enc_sized enc <$> bs) = flat enc (sb_data <$> bs).
Proof. unfold flat. by rewrite <- list_fmap_compose. Qed.

Lemma sized_total (enc : Z -> list Z) w k bs :
  (forall sz, length (enc sz) = w) -> k = Z.of_nat w ->
  foldr (fun b sz => k + sb_size b + sz) 0 bs = len (mjoin (enc_sized enc <$> bs)).
Proof.
  intros Henc ->. induction bs as [|b bs IH]; [done|]. cbn [foldr]. rewrite IH, fmap_cons.
  change (mjoin (?x :: ?l)) with (x ++ mjoin l). rewrite len_app.
  unfold enc_sized at 2. rewrite len_app. unfold sb_size, len. rewrite Henc. lia.
Qed.

(** C32: a value of the view B+tree (a partition and up to 65,535 JSON values of less
    than 16 MB) is the same after encoding and decoding, whatever the calls of
    [malloc] do: when one fails, also in the middle of the values, everything that
    was allocated is freed and the failure is reported. *)
Theorem view_btree_value_roundtrip value s :
  let ds := contents value.(vv_num_values) value.(vv_values) in
  mem_ok s -> 0 <= value.(vv_partition) < 2 ^ 16 -> Z.of_nat (length ds) < 2 ^ 16 ->
  sizes_ok 3 ds -> len (flat enc_raw24 ds) < 2 ^ 63 ->
  runs (roundtrip (encode_view_btree_value value) decode_view_btree_value) s
    (decoded_or_failed s
       (fun v => v.(vv_partition) = value.(vv_partition) /\
                 v.(vv_num_values) = Z.of_nat (length ds) /\ sb_data <$> v.(vv_values) = ds)
       (fun v => v.(vv_array) :: (sb_buf <$> v.(vv_values)))).
Proof.
  intros ds Hs Hp Hn Hok Hl. unfold encode_view_btree_value.
  rewrite (sized_total enc_raw24 3) by (done || apply enc24_length). rewrite enc_sized_flat.
  fold (contents value.(vv_num_values) value.(vv_values)). fold ds. apply roundtrip_run; [done|..].
  - rewrite len_app. unfold len at 1. rewrite enc16_length.
    rewrite u64_small by (unfold len in *; lia). lia.
  - intros s1 Hs1. by apply decode_view_btree_value_run.
Qed.

(** The second half of the decoder of reductions: [arr] is the array, which is not
    allocated when there are no values. *)
Lemma reduction_fill_run n arr count bitmap ds s s2 :
  Z.of_nat (length ds) < 2 ^ 8 -> sizes_ok 2 ds -> grown s s2 (n :: blocks [arr]) -> arr <> Uninit ->
  (0 < Z.of_nat (length ds) -> arr <> Null) ->
  runs (f ← fill_sized 2 dec_uint16 u8 (S (length (flat enc_uint16 ds))) (flat enc_uint16 ds) 0
              (no_bufs (Z.of_nat (length ds)));
        if (f.1 : bool)
        then mret (COUCHSTORE_SUCCESS,
                   Some (Block n, mk_reduction count bitmap (Z.of_nat (length ds)) arr f.2))
        else free_view_btree_reduction (Block n) arr (Z.of_nat (length ds)) f.2;;
             mret (COUCHSTORE_ERROR_ALLOC_FAIL, None)) s2
    (decoded_or_failed s
       (fun r => r.(rd_kv_count) = count /\ r.(rd_partitions_bitmap) = bitmap /\
                 r.(rd_num_values) = Z.of_nat (length ds) /\ sb_data <$> r.(rd_reduce_values) = ds)
       (fun r => r.(rd_array) :: (sb_buf <$> r.(rd_reduce_values)))).
Proof.
  intros Hn Hok Hg Hu0 Hnull. run. unfold no_bufs. rewrite Nat2Z.id.
  apply (fill_sized_run 2 dec_uint16 enc_uint16 u8 256 ltac:(lia) enc16_length dec16_enc
    (fun i Hi => wrap_small 8 i Hi) ds _ []); [done|lia|simpl; lia|apply Hg|..].
  - intros new s3 Hnew Hu Hg3. cbn [fst snd]. run. split; [done|].
    eexists. split; [exact (grown_trans _ _ _ _ _ Hg Hg3)|by destruct arr].
  - intros new s3 Hnew Hu Hg3. unfold free_view_btree_reduction. cbn [fst snd]. apply runs_bind.
    pose proof (grown_trans _ _ _ _ _ Hg Hg3) as Hg'. destruct arr as [| |a]; [|done|].
    + rewrite decide_True by done. run. assert (new = []) as ->.
      { apply length_zero_iff_nil. destruct (Z.lt_ge_cases 0 (Z.of_nat (length ds))) as [Hp|]; [|lia].
        by specialize (Hnull Hp). }
      eapply free_block_run; [exact Hg'|]. intros s4 Hg4. run. by apply grown_nil.
    + rewrite decide_False, take_ge by (try done; simpl; lia).
      eapply free_struct_run; [exact Hu|exact Hg'|]. intros s4 Hb. by run.
Qed.

Lemma decode_view_btree_reduction_run count bitmap ds s :
  mem_ok s -> 0 <= count < 2 ^ 40 -> length bitmap = BITMASK_BYTE_SIZE ->
  Z.of_nat (length ds) < 2 ^ 8 -> sizes_ok 2 ds ->
  runs (decode_view_btree_reduction (enc_raw40 count ++ bitmap ++ flat enc_uint16 ds)) s
    (decoded_or_failed s
       (fun r => r.(rd_kv_count) = count /\ r.(rd_partitions_bitmap) = bitmap /\
                 r.(rd_num_values) = Z.of_nat (length ds) /\ sb_data <$> r.(rd_reduce_values) = ds)
       (fun r => r.(rd_array) :: (sb_buf <$> r.(rd_reduce_values)))).
Proof.
  intros Hs Hc Hbm Hn Hok. unfold decode_view_btree_reduction. run. apply malloc_run; [done|..].
  { intros s1 Hb. rewrite decide_True by done. by run. }
  intros n s1 Hg. rewrite decide_False by done.
  rewrite dec40_enc, (drop_app_length' (enc_raw40 count)) by (rewrite ?enc40_length; lia).
  rewrite take_app_length', drop_app_length' by done. run.
  { apply Z.leb_le. rewrite len_app. unfold len. rewrite enc40_length. lia. }
  { apply Z.leb_le. rewrite len_app. unfold len. lia. }
  apply (count_sized_run 2 dec_uint16 enc_uint16 u8 256 ltac:(lia) enc16_length dec16_enc);
    [intros i Hi; by apply (wrap_small 8)|done|lia|lia|lia|].
  rewrite Z.add_0_l. run.
  destruct (Z.ltb_spec 0 (Z.of_nat (length ds))) as [Hpos|Hzero].
  - apply malloc_run; [apply Hg|..].
    + intros s2 Hb. rewrite decide_True by done. unfold free_view_btree_reduction. run.
      rewrite decide_True by done. run. eapply free_block_run; [exact (grown_balanced _ _ _ _ Hg Hb)|].
      intros s3 Hg3. run. by apply grown_nil.
    + intros a s2 Hg2. rewrite decide_False by (intros [_ ?]; done).
      apply reduction_fill_run; try done. exact (grown_trans _ _ _ _ _ Hg Hg2).
  - run. rewrite decide_False by (intros [? _]; lia). apply reduction_fill_run; try done. lia.
Qed.

(** A reduction of the view B+tree (a count of less than 2^40, the bitmap of the
    partitions and up to 255 reduce values of less than 64 KB) is the same after
    encoding and decoding whatever the calls of [malloc] do, unless it is longer than
    64 KB, which the encoder reports. *)
Theorem view_btree_reduction_roundtrip red cap s :
  let ds := contents red.(rd_num_values) red.(rd_reduce_values) in
  mem_ok s -> 0 <= red.(rd_kv_count) < 2 ^ 40 ->
  length red.(rd_partitions_bitmap) = BITMASK_BYTE_SIZE -> Z.of_nat (length ds) < 2 ^ 8 ->
  sizes_ok 2 ds -> len (flat enc_uint16 ds) < 2 ^ 63 -> MAX_REDUCTION_SIZE <= cap ->
  runs (r ← encode_view_btree_reduction red cap;
        match r.2 with
        | Some bytes => decode_view_btree_reduction bytes
        | None => mret (r.1, None)
        end) s (fun r s' =>
    if MAX_REDUCTION_SIZE <? 133 + len (flat enc_uint16 ds)
    then r = (COUCHSTORE_ERROR_REDUCTION_TOO_LARGE, None) /\ s' = s
    else decoded_or_failed s
       (fun r => r.(rd_kv_count) = red.(rd_kv_count) /\
                 r.(rd_partitions_bitmap) = red.(rd_partitions_bitmap) /\
                 r.(rd_num_values) = Z.of_nat (length ds) /\ sb_data <$> r.(rd_reduce_values) = ds)
       (fun r => r.(rd_array) :: (sb_buf <$> r.(rd_reduce_values))) r s').
Proof.
  intros ds Hs Hc Hbm Hn Hok Hl Hcap. unfold encode_view_btree_reduction.
  rewrite (sized_total enc_uint16 2) by (done || apply enc16_length). rewrite enc_sized_flat.
  fold (contents red.(rd_num_values) red.(rd_reduce_values)). fold ds.
  change (5 + Z.of_nat BITMASK_BYTE_SIZE) with 133. rewrite u64_small by (unfold len in *; lia).
  destruct (Z.ltb_spec MAX_REDUCTION_SIZE (133 + len (flat enc_uint16 ds))) as [Hbig|Hsmall]; run.
  - simpl. by run.
  - apply Z.leb_le. rewrite !len_app. unfold len at 1 2. rewrite enc40_length, Hbm.
    change (Z.of_nat BITMASK_BYTE_SIZE) with 128. lia.
  - simpl snd. cbv iota. by apply decode_view_btree_reduction_run.
Qed.
End roundtrips.

(** ** Witnesses *)

(** Allocators that never fail, and that fail at the call number [k]. *)
Definition all_ok : Alloc := fun _ _ => true.
Definition fail_at (k : nat) : Alloc := fun n _ => negb (n =? k)%nat.

Definition no_mem : mem := mk_mem 0 ∅.

Lemma no_mem_ok : mem_ok no_mem.
Proof. intros n Hn. set_solver. Qed.

(** The first call is for the buffer of the encoder, the second for the key. *)
Lemma view_id_btree_key_roundtrip_witness :
  exists r s', @roundtrip view_id_btree_key_t
      (@encode_view_id_btree_key (fail_at 2) (mk_id_key 513 (mk_buf Null [100; 111; 99])))
      (@decode_view_id_btree_key (fail_at 2)) no_mem = Some (r, s') /\
    r = (COUCHSTORE_ERROR_ALLOC_FAIL, None) /\ s'.(m_live) = ∅.
Proof.
  destruct (@view_id_btree_key_roundtrip (fail_at 2) (mk_id_key 513 (mk_buf Null [100; 111; 99])) no_mem)
    as (r & s' & Hr & Hp); [apply no_mem_ok|simpl; lia|vm_compute; reflexivity|].
  assert (Hr' := Hr). vm_compute in Hr'. injection Hr' as <- _. exists (COUCHSTORE_ERROR_ALLOC_FAIL, None), s'.
  split; [exact Hr|]. split; [done|]. apply Hp.
Defined.

Lemma view_btree_key_roundtrip_witness :
  exists p k s', @roundtrip view_btree_key_t
      (@encode_view_btree_key all_ok (mk_key (mk_buf Null [34; 97; 34]) (mk_buf Null [100])))
      (@decode_view_btree_key all_ok) no_mem = Some ((COUCHSTORE_SUCCESS, Some (p, k)), s') /\
    k.(json_key).(sb_data) = [34; 97; 34] /\ k.(doc_id).(sb_data) = [100].
Proof.
  destruct (@view_btree_key_roundtrip all_ok (mk_key (mk_buf Null [34; 97; 34]) (mk_buf Null [100])) no_mem)
    as (r & s' & Hr & p & k & -> & Hj & Hd);
    [done|apply no_mem_ok|vm_compute; reflexivity|vm_compute; reflexivity|].
  exists p, k, s'. split; [exact Hr|]. split; [exact Hj|exact Hd].
Defined.

Lemma decode_view_btree_key_bad_free_witness :
  @decode_view_btree_key (fail_at 1) [0; 1; 97; 98] no_mem = None.
Proof. apply decode_view_btree_key_bad_free; [vm_compute; discriminate|reflexivity|reflexivity]. Defined.

Definition demo_value : view_btree_value_t :=
  mk_btree_value 7 2 Null [mk_buf Null [49]; mk_buf Null [50; 51]].

Lemma view_btree_value_roundtrip_witness :
  exists v p s', @roundtrip view_btree_value_t (@encode_view_btree_value all_ok demo_value)
      (@decode_view_btree_value all_ok) no_mem = Some ((COUCHSTORE_SUCCESS, Some (p, v)), s') /\
    v.(vv_partition) = 7 /\ sb_data <$> v.(vv_values) = [[49]; [50; 51]].
Proof.
  destruct (@view_btree_value_roundtrip all_ok demo_value no_mem) as (r & s' & Hr & Hp);
    [apply no_mem_ok|simpl; lia|vm_compute; reflexivity|repeat constructor|vm_compute; reflexivity|].
  destruct r as [[] [[p v]|]]; try done. exists v, p, s'. split; [exact Hr|].
  destruct Hp as ((H1 & _ & H3) & _). split; [exact H1|exact H3].
Defined.

Definition demo_reduction : view_btree_reduction_t :=
  mk_reduction 1000 (replicate 128 255) 1 Null [mk_buf Null [49; 50]].

Lemma view_btree_reduction_roundtrip_witness :
  exists v p s', (r ← @encode_view_btree_reduction demo_reduction 65535;
      match r.2 with
      | Some bytes => @decode_view_btree_reduction all_ok bytes
      | None => mret (r.1, None)
      end) no_mem = Some ((COUCHSTORE_SUCCESS, Some (p, v)), s') /\
    v.(rd_kv_count) = 1000 /\ sb_data <$> v.(rd_reduce_values) = [[49; 50]].
Proof.
  destruct (@view_btree_reduction_roundtrip all_ok demo_reduction 65535 no_mem) as (r & s' & Hr & Hp);
    [apply no_mem_ok|simpl; lia|reflexivity|vm_compute; reflexivity|repeat constructor|
     vm_compute; reflexivity|reflexivity|].
  destruct r as [[] [[p v]|]]; try done. exists v, p, s'. split; [exact Hr|].
  destruct Hp as ((H1 & _ & _ & H3) & _). split; [exact H1|exact H3].
Defined.
