(* ===== verification/Snappy.v ===== *)
(** * The compressor

    The snappy library is third-party code; the headers of the view indexes and the
    values that the daemon sends to a client without support for data types go
    through it. *)
From Stdlib Require Import ZArith.
From stdpp Require Import prelude.
From S2P Require Import Prelude ViewCodec.

(** [snappy_uncompressed_length mem n] is given the bytes of the memory
    from an address on and the number [n] of bytes the caller claims; the capacity of
    the output is that of the calls. *)
Class Snappy := {
  snappy_max_compressed_length : Z -> Z;
  snappy_compress : list Z -> option (list Z);
  snappy_uncompressed_length : list Z -> Z -> option Z;
  snappy_uncompress : list Z -> Z -> option (list Z)
}.

(** Its documented behaviour: what was compressed is uncompressed, and the length of
    the uncompressed data is the first thing in the compressed data. *)
Class SnappyOk `{Snappy} : Prop := {
  snappy_bound x c : snappy_compress x = Some c -> len c <= snappy_max_compressed_length (len x);
  snappy_total x : len x < 2 ^ 32 -> exists c, snappy_compress x = Some c;
  snappy_length x c n : snappy_compress x = Some c -> len c <= n ->
    snappy_uncompressed_length c n = Some (len x);
  snappy_inverse x c : snappy_compress x = Some c -> snappy_uncompress c (len x) = Some x;
  snappy_nonempty x c : snappy_compress x = Some c -> c <> []
}.
