(* ===== verification/ViewIdValue.v ===== *)
(** * Values of the id B+tree

    The round trip of [encode_view_id_btree_value] and [decode_view_id_btree_value]
    of [views/values.c]: a partition and, for each view, the keys a document has
    there. The decoder has a loop over the views and in it one over the keys. *)
From Stdlib Require Import ZArith Lia.
From stdpp Require Import strings gmap prelude.
From S2P Require Import Prelude Bitfield ViewCodec.

#[local] Set Warnings "-clear-no-such-hyp".

(** What a mapping stands for: a view and the keys there. *)
Abbreviation mapping := (prod Z (list (list Z))).

Definition mapping_of (m : view_keys_mapping_t) : mapping :=
  (m.(km_view_id), sb_data <$> mapping_keys m).

Definition enc_view (m : mapping) : list Z :=
  u8 m.1 :: enc_uint16 (Z.of_nat (length m.2)) ++ flat enc_uint16 m.2.

Definition enc_views (ms : list mapping) : list Z := mjoin (enc_view <$> ms).

(** The numbers fit their fields. *)
Definition view_ok (m : mapping) : Prop :=
  0 <= m.1 < 2 ^ 8 /\ Z.of_nat (length m.2) < 2 ^ 16 /\ sizes_ok 2 m.2.

Lemma enc_views_cons m ms : enc_views (m :: ms) = enc_view m ++ enc_views ms.
Proof. done. Qed.

(** The first bytes of a view, as the loops read them. *)
Lemma view_head m rest : view_ok m ->
  let bs := enc_view m ++ rest in
  (0 <? len bs) = true /\ (1 <=? len bs) = true /\ (2 <=? len (drop 1 bs)) = true /\
  be_val (take 1 bs) = m.1 /\ dec_uint16 (drop 1 bs) = Z.of_nat (length m.2) /\
  drop 2 (drop 1 bs) = flat enc_uint16 m.2 ++ rest /\ drop 3 bs = flat enc_uint16 m.2 ++ rest.
Proof.
  intros (Hv & Hn & _) bs. unfold bs, enc_view. cbn [app].
  assert (Hd : drop 1 (u8 m.1 :: (enc_uint16 (Z.of_nat (length m.2)) ++ flat enc_uint16 m.2) ++ rest)
    = enc_uint16 (Z.of_nat (length m.2)) ++ flat enc_uint16 m.2 ++ rest) by (symmetry; apply app_assoc).
  rewrite Hd, dec16_enc by (simpl in *; lia).
  assert (H2 : drop 2 (enc_uint16 (Z.of_nat (length m.2)) ++ flat enc_uint16 m.2 ++ rest)
    = flat enc_uint16 m.2 ++ rest) by (apply drop_app_length'; by rewrite enc16_length).
  change 3%nat with (1 + 2)%nat. rewrite <- drop_drop, Hd, H2.
  repeat split; try (apply Z.ltb_lt; unfold len; simpl; lia).
  - apply Z.leb_le. unfold len. simpl. lia.
  - apply Z.leb_le. rewrite len_app. unfold len. rewrite enc16_length. lia.
  - unfold be_val. simpl. unfold u8. rewrite wrap_small by (unfold fits; lia). lia.
Qed.

Section proofs.
Context `{Alloc}.

Lemma flat_split d ds rest : sizes_ok 2 (d :: ds) ->
  let bs := flat enc_uint16 (d :: ds) ++ rest in
  (2 <=? len bs) = true /\ dec_uint16 bs = len d /\
  (len d <=? len (drop 2 bs)) = true /\ take (Z.to_nat (len d)) (drop 2 bs) = d /\
  drop (Z.to_nat (len d)) (drop 2 bs) = flat enc_uint16 ds ++ rest.
Proof.
  intros Hok bs. inversion Hok as [|? ? Hd _]; subst. unfold bs. rewrite flat_cons, <- !app_assoc.
  rewrite dec16_enc by (unfold len in *; simpl in *; lia).
  rewrite drop_app_length' by (by rewrite enc16_length).
  replace (Z.to_nat (len d)) with (length d) by (unfold len; lia). rewrite take_app_length, drop_app_length.
  repeat split; apply Z.leb_le; rewrite !len_app; unfold len; rewrite ?enc16_length; lia.
Qed.

Lemma skip_keys_run ds rest s (Q : list Z -> mem -> Prop) :
  sizes_ok 2 ds -> Q rest s -> runs (skip_keys (length ds) (flat enc_uint16 ds ++ rest)) s Q.
Proof.
  induction ds as [|d ds IH]; intros Hok HQ; cbn [skip_keys length]; [by run|].
  destruct (flat_split d ds rest Hok) as (H1 & H2 & H3 & _ & H5). inversion Hok; subst.
  rewrite H1, H2, H3, H5. run; [done|done|]. by apply IH.
Qed.

Lemma enc_views_length m ms : (length (enc_views ms) < length (enc_views (m :: ms)))%nat.
Proof. rewrite enc_views_cons, length_app. unfold enc_view. simpl. lia. Qed.

Lemma count_mappings_run ms fuel num s (Q : Z -> mem -> Prop) :
  Forall view_ok ms -> (length (enc_views ms) < fuel)%nat -> 0 <= num ->
  num + Z.of_nat (length ms) < 2 ^ 16 ->
  Q (num + Z.of_nat (length ms)) s -> runs (count_mappings fuel (enc_views ms) num) s Q.
Proof.
  revert fuel num. induction ms as [|m ms IH]; intros [|fuel] num Hok Hf Hn Hb HQ; try lia.
  - simpl. run. by rewrite Z.add_0_r in HQ.
  - apply Forall_cons in Hok as [Hm Hok]. pose proof (enc_views_length m ms) as Hlt.
    destruct (view_head m (enc_views ms) Hm) as (H1 & H2 & H3 & _ & H5 & H6 & _).
    rewrite enc_views_cons in *. cbn [count_mappings]. rewrite H1, H2, H3, H5, H6, Nat2Z.id. cbn [negb].
    run; [done|done|]. rewrite length_cons in *. apply skip_keys_run; [apply Hm|].
    rewrite u16_small by lia. apply IH; [done|lia|lia|lia|].
    by replace (num + 1 + Z.of_nat (length ms)) with (num + Z.of_nat (S (length ms))) by lia.
Qed.

(** The inner loop; when a call of [malloc] fails the rest of the array is [NULL]. *)
Lemma fill_keys_run ds rest dn s (Q : bool * list sized_buf * list Z -> mem -> Prop) :
  sizes_ok 2 ds -> Z.of_nat (length dn) + Z.of_nat (length ds) < 2 ^ 16 -> mem_ok s ->
  (forall new s', sb_data <$> new = ds -> no_uninit new -> grown s s' (bufs new) ->
     Q (true, dn ++ new, rest) s') ->
  (forall new bs s', length new = length ds -> no_uninit new -> grown s s' (bufs new) ->
     Q (false, dn ++ new, bs) s') ->
  runs (fill_keys (length ds) (flat enc_uint16 ds ++ rest) (Z.of_nat (length dn))
          (partly dn (length ds))) s Q.
Proof.
  revert dn s Q. induction ds as [|d ds IH]; intros dn s Q Hok Hb Hs Ht Hfail; cbn [fill_keys length].
  - run. unfold partly. simpl. apply Ht; [done|constructor|]. by apply balanced_nil, balanced_refl.
  - destruct (flat_split d ds rest Hok) as (_ & H2 & _ & H4 & H5). rewrite H2.
    apply runs_bind. apply malloc_run; [done|..].
    + intros s1 Hbal. run; [apply zupdate_partly|]. rewrite decide_True by done. run. unfold partly.
      rewrite <- app_assoc. apply Hfail.
      * simpl. by rewrite length_replicate.
      * constructor; [done|]. by apply Forall_replicate.
      * unfold bufs. rewrite fmap_app, fmap_replicate, blocks_app, blocks_nulls. by apply balanced_nil.
    + intros n s1 Hg. run; [apply zupdate_partly|]. rewrite decide_False, H4, H5 by done.
      inversion Hok; subst. rewrite length_cons in *. rewrite u16_small by lia.
      replace (Z.of_nat (length dn) + 1) with (Z.of_nat (length (dn ++ [mk_buf (Block n) d])))
        by (rewrite length_app; simpl; lia).
      apply IH; [done|rewrite length_app; simpl; lia|apply Hg|..].
      * intros new s2 Hnew Hu Hg2. rewrite <- app_assoc. apply Ht; [by rewrite fmap_app, Hnew|by constructor|].
        by apply (grown_trans s s1 s2 [n] (bufs new)).
      * intros new bs s2 Hnew Hu Hg2. rewrite <- app_assoc.
        apply Hfail; [by rewrite length_app, Hnew|by constructor|].
        by apply (grown_trans s s1 s2 [n] (bufs new)).
Qed.

(** The blocks of the mappings. *)
Definition views_ptrs (ms : list view_keys_mapping_t) : list ptr := mjoin (mapping_ptrs <$> ms).

Lemma views_ptrs_app ms ms' : views_ptrs (ms ++ ms') = views_ptrs ms ++ views_ptrs ms'.
Proof. unfold views_ptrs. by rewrite fmap_app, join_app. Qed.

Lemma views_ptrs_none n : views_ptrs (replicate n no_mapping) = [].
Proof. by induction n. Qed.

Definition partly_mapped (dn : list view_keys_mapping_t) (n : nat) : list view_keys_mapping_t :=
  dn ++ replicate n no_mapping.

Lemma zupdate_mapped dn n m :
  zupdate (partly_mapped dn (S n)) (Z.of_nat (length dn)) m = Some (partly_mapped (dn ++ [m]) n).
Proof.
  unfold partly_mapped. rewrite zupdate_lt by (rewrite length_app, length_replicate; lia).
  rewrite Nat2Z.id. rewrite insert_app_r_alt, Nat.sub_diag by lia. simpl. by rewrite <- app_assoc.
Qed.

(** The blocks of a mapping whose array is [a]. *)
Lemma mapping_blocks v n a keys :
  Z.of_nat (length keys) <= n -> no_uninit keys ->
  let m := mk_mapping v n (Block a) keys in
  (Uninit ∉ mapping_ptrs m) /\ blocks (mapping_ptrs m) = bufs keys ++ [a].
Proof.
  intros Hn Hu m. unfold mapping_ptrs, m. simpl. rewrite take_ge by lia. split.
  - rewrite elem_of_app. intros [Hin|Hin]; [by apply no_uninit_ptrs in Hu|].
    by apply list_elem_of_singleton in Hin.
  - by rewrite blocks_app.
Qed.

(** Mappings that can be freed: [bs] are their blocks. *)
Definition views_own (ms : list view_keys_mapping_t) (bs : list nat) : Prop :=
  (Uninit ∉ views_ptrs ms) /\ blocks (views_ptrs ms) ≡ₚ bs.

Lemma views_own_cons m ms bs cs :
  Uninit ∉ mapping_ptrs m -> blocks (mapping_ptrs m) ≡ₚ bs -> views_own ms cs ->
  views_own (m :: ms) (bs ++ cs).
Proof.
  intros Hm Hb [Hu Hp]. unfold views_own. change (m :: ms) with ([m] ++ ms).
  rewrite views_ptrs_app, blocks_app. unfold views_ptrs at 1 3. simpl. rewrite !app_nil_r.
  split; [by rewrite not_elem_of_app|]. by rewrite Hb, Hp.
Qed.

Lemma views_own_none n : views_own (replicate n no_mapping) [].
Proof. unfold views_own. rewrite views_ptrs_none. split; [apply not_elem_of_nil|done]. Qed.

Lemma fill_mappings_run ms fuel dn s (Q : bool * list view_keys_mapping_t -> mem -> Prop) :
  Forall view_ok ms -> (length (enc_views ms) < fuel)%nat ->
  Z.of_nat (length dn) + Z.of_nat (length ms) < 2 ^ 16 -> mem_ok s ->
  (forall new s' bs, mapping_of <$> new = ms ->
     km_num_keys <$> new = (fun m => Z.of_nat (length m.2)) <$> ms ->
     grown s s' bs -> views_own new bs -> Q (true, dn ++ new) s') ->
  (forall new s' bs, length new = length ms -> grown s s' bs -> views_own new bs ->
     Q (false, dn ++ new) s') ->
  runs (fill_mappings fuel (enc_views ms) (Z.of_nat (length dn)) (partly_mapped dn (length ms))) s Q.
Proof.
  revert fuel dn s Q. induction ms as [|m ms IH]; intros [|fuel] dn s Q Hok Hf Hb Hs Ht Hfail; try lia.
  { simpl. run. unfold partly_mapped. simpl. apply (Ht [] s []); try done.
    - by apply balanced_nil, balanced_refl.
    - apply (views_own_none 0). }
  apply Forall_cons in Hok as [Hm Hok]. pose proof (enc_views_length m ms) as Hlt.
  destruct (view_head m (enc_views ms) Hm) as (H1 & _ & _ & H4 & H5 & _ & H7).
  rewrite enc_views_cons in *. cbn [fill_mappings length]. rewrite H1, H4, H5, H7. cbn [negb].
  destruct Hm as (Hv & Hn & Hsz). apply runs_bind. apply malloc_run; [done|..].
  { intros s1 Hbal. rewrite decide_True by done. run; [apply zupdate_mapped|]. unfold partly_mapped.
    rewrite <- app_assoc. apply (Hfail _ s1 []).
    - simpl. by rewrite length_replicate.
    - by apply balanced_nil.
    - apply (views_own_cons _ _ [] []); [simpl; apply not_elem_of_nil|done|apply views_own_none]. }
  intros a s1 Hg. rewrite decide_False by done. rewrite Nat2Z.id. apply runs_bind.
  unfold no_bufs. rewrite Nat2Z.id.
  apply (fill_keys_run m.2 (enc_views ms) []); [done|simpl; lia|apply Hg|..].
  - intros keys s2 Hkeys Hu Hg2. cbn [fst snd app]. apply runs_bind.
    assert (Hlk : length keys = length m.2) by (rewrite <- Hkeys; by rewrite length_fmap).
    destruct (mapping_blocks m.1 (Z.of_nat (length m.2)) a keys ltac:(lia) Hu) as [Hmu Hmb].
    set (km := mk_mapping _ _ _ _) in *.
    assert (Hmap : mapping_of km = m).
    { unfold mapping_of, mapping_keys, km. simpl. rewrite take_ge, Hkeys by lia. by destruct m. }
    assert (Hkm : Permutation (blocks (mapping_ptrs km)) ([a] ++ bufs keys))
      by (rewrite Hmb; apply Permutation_app_comm).
    pose proof (grown_trans _ _ _ _ _ Hg Hg2) as Hg12.
    run; [apply zupdate_mapped|]. rewrite length_cons in *. rewrite u16_small by lia.
    replace (Z.of_nat (length dn) + 1) with (Z.of_nat (length (dn ++ [km])))
      by (rewrite length_app; simpl; lia).
    apply IH; [done|lia|rewrite length_app; simpl; lia|apply Hg2|..].
    + intros new s3 bs Hnew Hnum Hg3 Hown. rewrite <- app_assoc.
      apply (Ht (km :: new) s3 (([a] ++ bufs keys) ++ bs)).
      * by rewrite fmap_cons, Hmap, Hnew.
      * by rewrite !fmap_cons, Hnum.
      * by eapply grown_trans.
      * by apply views_own_cons.
    + intros new s3 bs Hnew Hg3 Hown. rewrite <- app_assoc.
      apply (Hfail (km :: new) s3 (([a] ++ bufs keys) ++ bs)).
      * simpl. by rewrite Hnew.
      * by eapply grown_trans.
      * by apply views_own_cons.
  - intros keys bs s2 Hkeys Hu Hg2. cbn [fst snd app]. apply runs_bind.
    destruct (mapping_blocks m.1 (Z.of_nat (length m.2)) a keys ltac:(lia) Hu) as [Hmu Hmb].
    set (km := mk_mapping _ _ _ _) in *.
    assert (Hkm : Permutation (blocks (mapping_ptrs km)) ([a] ++ bufs keys))
      by (rewrite Hmb; apply Permutation_app_comm).
    run; [apply zupdate_mapped|]. unfold partly_mapped. rewrite <- app_assoc.
    apply (Hfail _ s2 (([a] ++ bufs keys) ++ [])).
    + simpl. by rewrite length_replicate.
    + rewrite app_nil_r. by eapply grown_trans.
    + apply views_own_cons; [done|done|apply views_own_none].
Qed.

Lemma decode_view_id_btree_value_run partition ms s :
  mem_ok s -> 0 <= partition < 2 ^ 16 -> Z.of_nat (length ms) < 2 ^ 16 -> Forall view_ok ms ->
  runs (decode_view_id_btree_value (enc_uint16 partition ++ enc_views ms)) s
    (decoded_or_failed s
       (fun v => v.(iv_partition) = partition /\ v.(iv_num_view_keys_map) = Z.of_nat (length ms) /\
                 mapping_of <$> v.(iv_view_keys_map) = ms /\
                 km_num_keys <$> v.(iv_view_keys_map) = (fun m => Z.of_nat (length m.2)) <$> ms)
       (fun v => v.(iv_array) :: views_ptrs v.(iv_view_keys_map))).
Proof.
  intros Hs Hp Hn Hok. unfold decode_view_id_btree_value. run. apply malloc_run; [done|..].
  { intros s1 Hb. rewrite decide_True by done. by run. }
  intros n s1 Hg. rewrite decide_False by done.
  rewrite dec16_enc, drop_app_length' by (rewrite ?enc16_length; simpl; lia). run.
  { apply Z.leb_le. rewrite len_app. unfold len. rewrite enc16_length. lia. }
  apply count_mappings_run; [done|lia|lia|lia|]. rewrite Z.add_0_l. run. apply malloc_run; [apply Hg|..].
  { intros s2 Hb. rewrite decide_True by done. unfold free_view_id_btree_value. run.
    rewrite decide_True by done. run. eapply free_block_run; [exact (grown_balanced _ _ _ _ Hg Hb)|].
    intros s3 Hg3. run. by apply grown_nil. }
  intros n2 s2 Hg2. rewrite decide_False by done. run.
  pose proof (grown_trans _ _ _ _ _ Hg Hg2) as Hg12. rewrite Nat2Z.id.
  apply (fill_mappings_run ms _ []); [done|lia|simpl; lia|apply Hg2|..].
  - intros new s3 bs Hnew Hnum Hg3 [_ Hown]. cbn [fst snd app]. run. split; [done|].
    eexists. split; [exact (grown_trans _ _ _ _ _ Hg12 Hg3)|]. do 2 apply perm_skip. by symmetry.
  - intros new s3 bs Hnew Hg3 [Hu Hown]. unfold free_view_id_btree_value. cbn [fst snd app]. apply runs_bind.
    rewrite decide_False, Nat2Z.id, take_ge by (try done; simpl; lia). fold (views_ptrs new).
    destruct (grown_trans _ _ _ _ _ Hg12 Hg3) as (Ho & Hl & Hnd & Hd).
    eapply (free_ptrs_run n n2 (views_ptrs new)); [exact Hu| |intros s4 Hb; by run].
    assert (Hperm : Permutation ([n; n2] ++ blocks (views_ptrs new)) (([n] ++ [n2]) ++ bs))
      by (simpl; by rewrite Hown).
    split; [done|]. split; [|split].
    + rewrite Hl. apply set_eq. intros x. rewrite !elem_of_union, !elem_of_list_to_set, Hperm. done.
    + by rewrite Hperm.
    + intros x Hx. apply Hd. by rewrite <- Hperm.
Qed.

(** The encoder writes the mappings one after the other. *)
Definition array_ok (m : view_keys_mapping_t) : Prop :=
  0 <= m.(km_num_keys) <= Z.of_nat (length m.(km_json_keys)).

Lemma enc_mapping_view m : array_ok m -> enc_mapping m = enc_view (mapping_of m).
Proof.
  intros Ha. unfold array_ok in Ha. unfold enc_mapping, enc_view, mapping_of. cbn [fst snd].
  rewrite enc_sized_flat, length_fmap. unfold mapping_keys. rewrite length_take.
  repeat f_equal. lia.
Qed.

Lemma mapping_size_len m : mapping_size m = len (enc_mapping m).
Proof.
  unfold mapping_size, enc_mapping. rewrite (sized_total enc_uint16 2) by (done || apply enc16_length).
  change (u8 (km_view_id m) :: ?l) with ([u8 (km_view_id m)] ++ l). rewrite !len_app.
  unfold len at 2 3. rewrite enc16_length. simpl. lia.
Qed.

Lemma mappings_total ms :
  foldr (fun m sz => mapping_size m + sz) 0 ms = len (mjoin (enc_mapping <$> ms)).
Proof.
  induction ms as [|m ms IH]; [done|]. cbn [foldr]. rewrite IH, mapping_size_len, fmap_cons.
  change (mjoin (?x :: ?l)) with (x ++ mjoin l). by rewrite len_app.
Qed.

Lemma enc_mappings ms : Forall array_ok ms -> mjoin (enc_mapping <$> ms) = enc_views (mapping_of <$> ms).
Proof.
  unfold enc_views. induction 1 as [|m ms Hm _ IH]; [done|]. rewrite !fmap_cons.
  change (mjoin (?x :: ?l)) with (x ++ mjoin l). by rewrite IH, enc_mapping_view.
Qed.

(** A value of the id B+tree (a partition and, for up to 65,535 views, the up to
    65,535 keys of a document there, each shorter than 64 KB) is the same after
    encoding and decoding, whatever the calls of [malloc] do: when one fails, in the
    middle of the keys of a view or between two views, everything that was allocated
    is freed and the failure is reported. *)
Theorem view_id_btree_value_roundtrip value s :
  let maps := take (Z.to_nat value.(iv_num_view_keys_map)) value.(iv_view_keys_map) in
  let ms := mapping_of <$> maps in
  mem_ok s -> 0 <= value.(iv_partition) < 2 ^ 16 -> Z.of_nat (length maps) < 2 ^ 16 ->
  Forall array_ok maps -> Forall view_ok ms -> len (enc_views ms) < 2 ^ 63 ->
  runs (roundtrip (encode_view_id_btree_value value) decode_view_id_btree_value) s
    (decoded_or_failed s
       (fun v => v.(iv_partition) = value.(iv_partition) /\
                 v.(iv_num_view_keys_map) = Z.of_nat (length ms) /\
                 mapping_of <$> v.(iv_view_keys_map) = ms /\
                 km_num_keys <$> v.(iv_view_keys_map) = (fun m => Z.of_nat (length m.2)) <$> ms)
       (fun v => v.(iv_array) :: views_ptrs v.(iv_view_keys_map))).
Proof.
  intros maps ms Hs Hp Hn Ha Hok Hl. unfold encode_view_id_btree_value. fold maps.
  rewrite mappings_total, enc_mappings by done. fold ms. apply roundtrip_run; [done|..].
  - rewrite len_app. unfold len at 1. rewrite enc16_length.
    rewrite u64_small by (unfold len in *; lia). lia.
  - intros s1 Hs1. apply decode_view_id_btree_value_run; try done. unfold ms. by rewrite length_fmap.
Qed.

(** A reduction of the id B+tree (a count of less than 2^40 and the bitmap of the
    partitions) is the same after encoding and decoding, whatever [malloc] does. *)
Theorem view_id_btree_reduction_roundtrip red cap s :
  mem_ok s -> 0 <= red.(ir_kv_count) < 2 ^ 40 ->
  length red.(ir_partitions_bitmap) = BITMASK_BYTE_SIZE -> 133 <= cap ->
  runs (r ← encode_view_id_btree_reduction red cap;
        match r.2 with
        | Some bytes => decode_view_id_btree_reduction bytes
        | None => mret (r.1, None)
        end) s (decoded_or_failed s (fun r => r = red) (fun _ => [])).
Proof.
  intros Hs Hc Hbm Hcap. unfold encode_view_id_btree_reduction. cbv zeta.
  change (MAX_REDUCTION_SIZE <? 5 + Z.of_nat BITMASK_BYTE_SIZE) with false. cbv iota. run.
  { apply Z.leb_le. rewrite len_app. unfold len. rewrite enc40_length, Hbm.
    change (Z.of_nat BITMASK_BYTE_SIZE) with 128. lia. }
  cbn [snd]. unfold decode_view_id_btree_reduction. run. apply malloc_run; [done|..].
  { intros s1 Hb. rewrite decide_True by done. by run. }
  intros n s1 Hg. rewrite decide_False by done. run.
  { apply Z.leb_le. rewrite len_app. unfold len. rewrite enc40_length, Hbm. lia. }
  split; [|by exists [n]]. rewrite dec40_enc, drop_app_length', take_ge by (rewrite ?enc40_length; lia).
  by destruct red.
Qed.
End proofs.

(** ** Witnesses *)

Definition demo_id_value : view_id_btree_value_t :=
  mk_id_value 9 2 Null
    [mk_mapping 0 2 Null [mk_buf Null [49]; mk_buf Null [34; 97; 34]];
     mk_mapping 3 1 Null [mk_buf Null [110]]].

Lemma view_id_btree_value_roundtrip_witness :
  exists v p s', @roundtrip view_id_btree_value_t (@encode_view_id_btree_value all_ok demo_id_value)
      (@decode_view_id_btree_value all_ok) no_mem = Some ((COUCHSTORE_SUCCESS, Some (p, v)), s') /\
    mapping_of <$> v.(iv_view_keys_map) = [(0, [[49]; [34; 97; 34]]); (3, [[110]])].
Proof.
  destruct (@view_id_btree_value_roundtrip all_ok demo_id_value no_mem) as (r & s' & Hr & Hp);
    [apply no_mem_ok|simpl; lia|vm_compute; reflexivity| | |vm_compute; reflexivity|].
  { repeat constructor; vm_compute; discriminate. }
  { repeat constructor; try (vm_compute; discriminate); vm_compute; reflexivity. }
  destruct r as [[] [[p v]|]]; try done. exists v, p, s'. split; [exact Hr|].
  destruct Hp as ((_ & _ & H3 & _) & _). exact H3.
Defined.

Lemma view_id_btree_reduction_roundtrip_witness :
  exists p s', (r ← @encode_view_id_btree_reduction (mk_id_reduction 77 (replicate 128 1)) 200;
      match r.2 with
      | Some bytes => @decode_view_id_btree_reduction all_ok bytes
      | None => mret (r.1, None)
      end) no_mem = Some ((COUCHSTORE_SUCCESS, Some (p, mk_id_reduction 77 (replicate 128 1))), s').
Proof.
  destruct (@view_id_btree_reduction_roundtrip all_ok (mk_id_reduction 77 (replicate 128 1)) 200 no_mem)
    as (r & s' & Hr & Hp); [apply no_mem_ok|simpl; lia|reflexivity|lia|].
  destruct r as [[] [[p v]|]]; try done. destruct Hp as [-> _]. exists p, s'. exact Hr.
Defined.
