(* ===== verification/Bitmap.v ===== *)
(** * Bitmaps of partitions ([couchstore/src/views/bitmap.c])

    A bitmap of 1024 bits is an array of 128 bytes, the most significant first. The
    theorem states that it is a 1024-bit integer in big-endian order, and that the
    operations are those on integers. A bit number of 1024 or more gives an access
    outside the array, which ends the process ([None]). *)
From Stdlib Require Import ZArith Lia.
From stdpp Require Import strings gmap prelude.
From S2P Require Import Prelude.

Definition CHUNK_BITS : Z := 8.
Definition TOTAL_CHUNKS : Z := 128.
Definition CHUNK_INDEX (bit : Z) : Z := u64 (TOTAL_CHUNKS - 1 - bit / CHUNK_BITS).
Definition CHUNK_OFFSET (bit : Z) : Z := bit mod CHUNK_BITS.

Definition is_bit_set (bm : list Z) (bit : Z) : option bool :=
  c ← zlookup bm (CHUNK_INDEX bit);
  Some (negb (Z.land c (Z.shiftl 1 (CHUNK_OFFSET bit)) =? 0)).

Definition set_bit (bm : list Z) (bit : Z) : option (list Z) :=
  c ← zlookup bm (CHUNK_INDEX bit);
  zupdate bm (CHUNK_INDEX bit) (u8 (Z.lor c (Z.shiftl 1 (CHUNK_OFFSET bit)))).

Definition unset_bit (bm : list Z) (bit : Z) : option (list Z) :=
  c ← zlookup bm (CHUNK_INDEX bit);
  zupdate bm (CHUNK_INDEX bit) (u8 (Z.land c (Z.lnot (Z.shiftl 1 (CHUNK_OFFSET bit))))).

(** The loops of [union_bitmaps] and [intersect_bitmaps], over the [n] chunks from
    [i]. *)
Fixpoint merge_chunks (op : Z -> Z -> Z) (n : nat) (i : Z) (dst src : list Z)
    : option (list Z) :=
  match n with
  | O => Some dst
  | S n' =>
      d ← zlookup dst i;
      s ← zlookup src i;
      dst' ← zupdate dst i (u8 (op d s));
      merge_chunks op n' (i + 1) dst' src
  end.

Definition union_bitmaps (dst src : list Z) : option (list Z) :=
  merge_chunks Z.lor (Z.to_nat (1024 / CHUNK_BITS)) 0 dst src.

Definition intersect_bitmaps (dst src : list Z) : option (list Z) :=
  merge_chunks Z.land (Z.to_nat (1024 / CHUNK_BITS)) 0 dst src.

Definition is_equal_bitmap (bm1 bm2 : list Z) : bool := bool_decide (bm1 = bm2).

(** * Bitmaps as integers *)

Definition bitmap_ok (bm : list Z) : Prop := length bm = 128%nat /\ bytes_ok bm.

(** The bits of a big-endian integer. *)
Lemma be_val_testbit bs j o :
  bytes_ok bs -> (j < length bs)%nat -> 0 <= o < 8 ->
  Z.testbit (be_val bs) (8 * Z.of_nat j + o) =
  Z.testbit (default 0 (bs !! (length bs - 1 - j)%nat)) o.
Proof.
  intros Hok Hj Ho. destruct (lookup_lt_is_Some_2 bs (length bs - 1 - j)) as [c Hc]; [lia|].
  rewrite Hc. simpl. pose proof (take_drop_middle _ _ _ Hc) as Hsplit.
  set (xs := take (length bs - 1 - j) bs) in *. set (ys := drop (S (length bs - 1 - j)) bs) in *.
  assert (Hys : length ys = j) by (unfold ys; rewrite length_drop; lia).
  rewrite <- Hsplit in Hok |- *. unfold bytes_ok in Hok.
  apply Forall_app in Hok as [_ [Hc8 Hyok]%Forall_cons].
  rewrite be_val_app, be_val_cons, Hys. cbn [length]. rewrite Hys.
  rewrite !pow_256, Nat2Z.inj_succ by lia.
  replace (8 * Z.succ (Z.of_nat j)) with (8 + 8 * Z.of_nat j) by lia. rewrite Z.pow_add_r by lia.
  pose proof (be_val_bound ys Hyok) as Hb. rewrite Hys in Hb.
  rewrite (Z.add_comm (8 * Z.of_nat j) o), <- (Z.div_pow2_bits _ (8 * Z.of_nat j) o) by lia.
  replace (be_val xs * (2 ^ 8 * 2 ^ (8 * Z.of_nat j)) + (c * 2 ^ (8 * Z.of_nat j) + be_val ys))
    with ((be_val xs * 2 ^ 8 + c) * 2 ^ (8 * Z.of_nat j) + be_val ys) by ring.
  rewrite Z.div_add_l, (Z.div_small (be_val ys)), Z.add_0_r by lia.
  rewrite <- (Z.mod_pow2_bits_low _ 8 o) by lia.
  rewrite Z.add_comm, Z.mod_add by lia. rewrite Z.mod_small; [done|]. unfold byte_ok in Hc8. lia.
Qed.

Lemma be_val_high bm i : bitmap_ok bm -> 1024 <= i -> Z.testbit (be_val bm) i = false.
Proof.
  intros [Hl Hok] Hi. pose proof (be_val_bound bm Hok) as Hb. rewrite Hl in Hb.
  change (8 * Z.of_nat 128) with 1024 in Hb.
  destruct (Z.eq_dec (be_val bm) 0) as [->|Hne]; [apply Z.bits_0|].
  apply Z.bits_above_log2; [lia|]. apply Z.lt_le_trans with 1024; [|done].
  apply Z.log2_lt_pow2; lia.
Qed.

Lemma chunk_index bit : 0 <= bit < 1024 ->
  CHUNK_INDEX bit = 127 - bit / 8 /\ 0 <= 127 - bit / 8 < 128.
Proof.
  intros Hb. unfold CHUNK_INDEX, TOTAL_CHUNKS, CHUNK_BITS.
  assert (0 <= bit / 8 < 128) by (split; [apply Z.div_pos|apply Z.div_lt_upper_bound]; lia).
  rewrite u64_small by lia. lia.
Qed.

(** The chunk of a bit. *)
Lemma chunk_lookup bm bit : bitmap_ok bm -> 0 <= bit < 1024 ->
  exists c, zlookup bm (CHUNK_INDEX bit) = Some c /\ byte_ok c /\
    (forall o, 0 <= o < 8 -> Z.testbit (be_val bm) (8 * (bit / 8) + o) = Z.testbit c o).
Proof.
  intros [Hl Hok] Hb. destruct (chunk_index bit Hb) as [Hi Hr].
  destruct (zlookup_lt bm (CHUNK_INDEX bit)) as [c Hc]; [lia|]. exists c. split; [done|].
  apply zlookup_Some in Hc as [_ Hc]. split; [by apply (Forall_lookup_1 _ _ _ _ Hok Hc)|].
  intros o Ho. rewrite <- (Z2Nat.id (bit / 8)) by (apply Z.div_pos; lia).
  rewrite be_val_testbit by (try done; lia). rewrite Hi in Hc.
  replace (length bm - 1 - Z.to_nat (bit / 8))%nat with (Z.to_nat (127 - bit / 8)) by lia.
  by rewrite Hc.
Qed.

Lemma offset_bit c o : 0 <= o -> negb (Z.land c (Z.shiftl 1 o) =? 0) = Z.testbit c o.
Proof.
  intros Ho. rewrite Z.shiftl_1_l. destruct (Z.testbit c o) eqn:Hb.
  - apply negb_true_iff, Z.eqb_neq. intros Hz. apply (f_equal (fun z => Z.testbit z o)) in Hz.
    rewrite Z.land_spec, Hb, Z.pow2_bits_true, Z.bits_0 in Hz by lia. done.
  - apply negb_false_iff, Z.eqb_eq. apply Z.bits_inj'. intros i Hi.
    rewrite Z.land_spec, Z.pow2_bits_eqb, Z.bits_0 by lia.
    destruct (Z.eqb_spec o i) as [->|]; [by rewrite Hb|apply andb_false_r].
Qed.

Lemma bit_split bit : 0 <= bit -> 8 * (bit / 8) + CHUNK_OFFSET bit = bit /\ 0 <= CHUNK_OFFSET bit < 8.
Proof.
  intros Hb. unfold CHUNK_OFFSET, CHUNK_BITS. pose proof (Z.div_mod bit 8). pose proof (Z.mod_pos_bound bit 8). lia.
Qed.

Lemma is_bit_set_testbit bm bit : bitmap_ok bm -> 0 <= bit < 1024 ->
  is_bit_set bm bit = Some (Z.testbit (be_val bm) bit).
Proof.
  intros Hok Hb. destruct (chunk_lookup bm bit Hok Hb) as (c & Hc & _ & Hbits).
  destruct (bit_split bit) as [Hs Ho]; [lia|]. unfold is_bit_set. rewrite Hc. simpl.
  rewrite offset_bit by lia. rewrite <- (Hbits _ Ho), Hs. done.
Qed.

(** Writing one chunk. *)
Lemma chunk_update bm bit c' : bitmap_ok bm -> 0 <= bit < 1024 -> byte_ok c' ->
  exists bm', zupdate bm (CHUNK_INDEX bit) c' = Some bm' /\ bitmap_ok bm' /\
    forall i, 0 <= i < 1024 -> Z.testbit (be_val bm') i =
      if i / 8 =? bit / 8 then Z.testbit c' (CHUNK_OFFSET i) else Z.testbit (be_val bm) i.
Proof.
  intros [Hl Hok] Hb Hc'. destruct (chunk_index bit Hb) as [Hi Hr].
  eexists. split; [apply zupdate_lt; lia|].
  assert (Hok' : bitmap_ok (<[Z.to_nat (CHUNK_INDEX bit) := c']> bm)).
  { split; [by rewrite length_insert|]. by apply Forall_insert. }
  split; [done|]. intros i Hi'. destruct (bit_split i) as [Hs Ho]; [lia|].
  destruct (chunk_lookup _ i Hok' Hi') as (c1 & Hc1 & _ & Hbits1).
  destruct (chunk_lookup bm i (conj Hl Hok) Hi') as (c2 & Hc2 & _ & Hbits2).
  rewrite <- Hs at 1. rewrite (Hbits1 _ Ho). destruct (chunk_index i Hi') as [Hii Hri].
  rewrite zlookup_insert in Hc1 by lia. destruct (Z.eqb_spec (i / 8) (bit / 8)) as [He|Hne].
  - rewrite decide_True in Hc1 by lia. by injection Hc1 as <-.
  - rewrite decide_False in Hc1 by lia. replace c1 with c2 by congruence.
    rewrite <- (Hbits2 _ Ho), Hs. done.
Qed.

Lemma byte_bits c : byte_ok c -> u8 c = c.
Proof. intros Hc. apply (wrap_small 8). unfold byte_ok in Hc. unfold fits. lia. Qed.

Lemma u8_byte z : byte_ok (u8 z).
Proof. apply (wrap_fits 8). lia. Qed.

Lemma u8_testbit z o : 0 <= o < 8 -> Z.testbit (u8 z) o = Z.testbit z o.
Proof. intros Ho. apply (Z.mod_pow2_bits_low z 8 o). lia. Qed.

(** Two bits in the same chunk are equal when their offsets are. *)
Lemma same_bit i bit : 0 <= i -> 0 <= bit ->
  (bit =? i) = (i / 8 =? bit / 8) && (CHUNK_OFFSET bit =? CHUNK_OFFSET i).
Proof.
  intros Hi Hb. destruct (bit_split i Hi) as [Hs _], (bit_split bit Hb) as [Hs' _].
  destruct (Z.eqb_spec bit i) as [->|Hne]; [by rewrite !Z.eqb_refl|].
  destruct (Z.eqb_spec (i / 8) (bit / 8)), (Z.eqb_spec (CHUNK_OFFSET bit) (CHUNK_OFFSET i)); try done. lia.
Qed.

(** Updating a chunk by a function of its bits. *)
Lemma chunk_op_run bm bit (op : Z -> Z) (fb : bool -> bool -> bool) (v : Z) :
  bitmap_ok bm -> 0 <= bit < 1024 ->
  (forall c o, 0 <= o < 8 -> Z.testbit (op c) o = fb (Z.testbit c o) (CHUNK_OFFSET bit =? o)) ->
  (forall b, fb b false = b) ->
  (forall i, 0 <= i -> Z.testbit v i = fb (Z.testbit (be_val bm) i) (bit =? i)) ->
  exists bm', (c ← zlookup bm (CHUNK_INDEX bit); zupdate bm (CHUNK_INDEX bit) (u8 (op c))) = Some bm' /\
    bitmap_ok bm' /\ be_val bm' = v.
Proof.
  intros Hok Hb Hop Hfb Hv. destruct (chunk_lookup bm bit Hok Hb) as (c & Hc & Hcb & Hbits).
  destruct (chunk_update bm bit (u8 (op c)) Hok Hb (u8_byte _)) as (bm' & Hu & Hok' & Hbits').
  exists bm'. rewrite Hc. simpl. split; [done|]. split; [done|]. apply Z.bits_inj'. intros i Hi.
  rewrite Hv by done. destruct (Z.lt_ge_cases i 1024) as [Hlt|Hge].
  - rewrite Hbits', (same_bit i bit) by lia. destruct (bit_split i Hi) as [Hs Ho].
    destruct (Z.eqb_spec (i / 8) (bit / 8)) as [He|]; simpl; [|by rewrite Hfb].
    rewrite u8_testbit, Hop by done. rewrite <- (Hbits _ Ho), <- He, Hs. done.
  - rewrite !be_val_high by done. destruct (Z.eqb_spec bit i); [lia|]. by rewrite Hfb.
Qed.

(** C33: a bitmap is a 1024-bit integer in big-endian order: [is_bit_set] tests a bit of
    it, [set_bit] and [unset_bit] set and clear that bit and no other. *)
Theorem bitmap_bit_ops bm bit :
  bitmap_ok bm -> 0 <= bit < 1024 ->
  is_bit_set bm bit = Some (Z.testbit (be_val bm) bit) /\
  (exists bm', set_bit bm bit = Some bm' /\ bitmap_ok bm' /\
     be_val bm' = Z.setbit (be_val bm) bit) /\
  (exists bm', unset_bit bm bit = Some bm' /\ bitmap_ok bm' /\
     be_val bm' = Z.clearbit (be_val bm) bit).
Proof.
  intros Hok Hb. destruct (bit_split bit) as [_ Hoff]; [lia|].
  split; [by apply is_bit_set_testbit|]. split.
  - apply (chunk_op_run bm bit (fun c => Z.lor c (Z.shiftl 1 (CHUNK_OFFSET bit))) (fun b e => e || b));
      try done.
    + intros c o Ho. rewrite Z.lor_spec, Z.shiftl_1_l, Z.pow2_bits_eqb by lia. apply orb_comm.
    + intros i Hi. apply Z.setbit_eqb. lia.
  - apply (chunk_op_run bm bit (fun c => Z.land c (Z.lnot (Z.shiftl 1 (CHUNK_OFFSET bit))))
             (fun b e => b && negb e)); try done.
    + intros c o Ho. rewrite Z.land_spec, Z.lnot_spec, Z.shiftl_1_l, Z.pow2_bits_eqb by lia. done.
    + intros b. apply andb_true_r.
    + intros i Hi. apply Z.clearbit_eqb.
Qed.

Lemma bitmap_bit_ops_witness :
  exists bm', set_bit (replicate 128 0) 1023 = Some bm' /\ be_val bm' = 2 ^ 1023.
Proof.
  destruct (bitmap_bit_ops (replicate 128 0) 1023) as (_ & (bm' & Hs & _ & Hv) & _).
  - split; [reflexivity|]. apply Forall_replicate. unfold byte_ok. lia.
  - lia.
  - exists bm'. split; [exact Hs|]. rewrite Hv. vm_compute. reflexivity.
Defined.

(** The loop of union and intersection, from the chunk [i]. *)
Lemma merge_chunks_run op n i dst src :
  length dst = length src -> (Z.to_nat i + n = length dst)%nat -> 0 <= i ->
  merge_chunks op n i dst src =
  Some (take (Z.to_nat i) dst ++ zip_with (fun d s => u8 (op d s)) (drop (Z.to_nat i) dst)
                                   (drop (Z.to_nat i) src)).
Proof.
  revert i dst. induction n as [|n IH]; intros i dst Hl Hn Hi; simpl.
  - rewrite (drop_ge dst), take_ge by lia. by rewrite app_nil_r.
  - destruct (zlookup_lt dst i) as [d Hd]; [lia|]. destruct (zlookup_lt src i) as [s Hs]; [lia|].
    rewrite Hd, Hs. simpl. rewrite zupdate_lt by lia. simpl.
    rewrite IH by (rewrite ?length_insert; lia). f_equal.
    apply zlookup_Some in Hd as [_ Hd]. apply zlookup_Some in Hs as [_ Hs].
    replace (Z.to_nat (i + 1)) with (S (Z.to_nat i)) by lia.
    rewrite drop_insert_lt by lia. rewrite (drop_S _ _ _ Hd), (drop_S _ _ _ Hs). simpl.
    rewrite (take_S_r _ _ (u8 (op d s))) by (apply list_lookup_insert_eq; lia).
    rewrite take_insert_ge by lia. by rewrite <- app_assoc.
Qed.

Lemma merge_bits op (fb : bool -> bool -> bool) dst src v :
  bitmap_ok dst -> bitmap_ok src -> fb false false = false ->
  (forall c d o, Z.testbit (op c d) o = fb (Z.testbit c o) (Z.testbit d o)) ->
  (forall i, 0 <= i -> Z.testbit v i = fb (Z.testbit (be_val dst) i) (Z.testbit (be_val src) i)) ->
  exists bm', merge_chunks op (Z.to_nat (1024 / CHUNK_BITS)) 0 dst src = Some bm' /\
    bitmap_ok bm' /\ be_val bm' = v.
Proof.
  intros [Hld Hd] [Hls Hs] Hfb Hop Hv. eexists. split.
  { apply merge_chunks_run; [congruence|rewrite Hld; reflexivity|lia]. }
  set (bm' := zip_with (fun d s => u8 (op d s)) dst src).
  change (bitmap_ok bm' /\ be_val bm' = v).
  assert (Hok' : bitmap_ok bm').
  { split; [unfold bm'; rewrite length_zip_with; lia|].
    apply Forall_zip_with_fst with (P := byte_ok); [done|]. apply Forall_forall. intros. apply u8_byte. }
  split; [done|]. apply Z.bits_inj'. intros i Hi. rewrite Hv by done.
  destruct (Z.lt_ge_cases i 1024) as [Hlt|Hge]; [|by rewrite !be_val_high by done].
  destruct (bit_split i Hi) as [Hsp Ho]. assert (Hdiv : 0 <= i / 8 < 128)
    by (split; [apply Z.div_pos|apply Z.div_lt_upper_bound]; lia).
  rewrite <- Hsp, <- (Z2Nat.id (i / 8)) by lia.
  rewrite !be_val_testbit by (try apply Hok'; try done; destruct Hok'; lia).
  destruct Hok' as [Hl' _]. rewrite Hl', Hld, Hls. unfold bm'. rewrite lookup_zip_with.
  destruct (lookup_lt_is_Some_2 dst (128 - 1 - Z.to_nat (i / 8))) as [c Hc]; [lia|].
  destruct (lookup_lt_is_Some_2 src (128 - 1 - Z.to_nat (i / 8))) as [d Hd']; [lia|].
  rewrite Hc, Hd'. simpl. by rewrite u8_testbit, Hop.
Qed.

(** The union and the intersection of two bitmaps are the bitwise or and and of the
    integers, and two bitmaps compare equal exactly when the integers are equal. *)
Theorem bitmap_set_ops dst src :
  bitmap_ok dst -> bitmap_ok src ->
  (exists bm', union_bitmaps dst src = Some bm' /\ bitmap_ok bm' /\
     be_val bm' = Z.lor (be_val dst) (be_val src)) /\
  (exists bm', intersect_bitmaps dst src = Some bm' /\ bitmap_ok bm' /\
     be_val bm' = Z.land (be_val dst) (be_val src)) /\
  (is_equal_bitmap dst src = true <-> be_val dst = be_val src).
Proof.
  intros Hd Hs. split; [|split].
  - apply (merge_bits Z.lor orb); try done; intros; apply Z.lor_spec.
  - apply (merge_bits Z.land andb); try done; intros; apply Z.land_spec.
  - unfold is_equal_bitmap. rewrite bool_decide_eq_true. split; [by intros ->|]. intros He.
    rewrite <- (be_bytes_val dst), <- (be_bytes_val src) by apply Hd || apply Hs.
    destruct Hd as [-> _], Hs as [-> _]. by rewrite He.
Qed.

Lemma bitmap_set_ops_witness :
  exists bm', union_bitmaps (replicate 128 1) (replicate 128 2) = Some bm' /\ bm' = replicate 128 3.
Proof.
  assert (Hok : forall c, 0 <= c < 256 -> bitmap_ok (replicate 128 c)).
  { intros c Hc. split; [apply length_replicate|]. by apply Forall_replicate. }
  destruct (bitmap_set_ops (replicate 128 1) (replicate 128 2)) as ((bm' & Hu & _ & _) & _);
    [apply Hok; lia|apply Hok; lia|].
  exists bm'. split; [exact Hu|]. vm_compute in Hu. by injection Hu as <-.
Defined.
