(* ===== verification/SortedList.v ===== *)
(** * Sorted lists ([couchstore/src/views/sorted_list.c])

    A singly linked list sorted by a comparison function, without duplicates: adding
    an element that compares equal to one of the list replaces it. The chain of nodes
    from [head] is a list; the blocks of the nodes and of the copies of the elements
    are those of the memory of [Bitfield]. *)
From Stdlib Require Import ZArith Lia.
From stdpp Require Import strings gmap prelude sorting.
From S2P Require Import Prelude Bitfield.

#[local] Set Warnings "-clear-no-such-hyp".

(** [sorted_list_node_t]; the element is the copy in the block [nd_elem_block]. *)
Record node (A : Type) := mk_node { nd_block : ptr; nd_elem_block : ptr; nd_element : A }.
Arguments mk_node {A} _ _ _.
Arguments nd_block {A} _.
Arguments nd_elem_block {A} _.
Arguments nd_element {A} _.

(** [sorted_list_t]: its block, the nodes from [head] on, and [length]. *)
Record sorted_list (A : Type) := mk_list { sl_block : ptr; sl_nodes : list (node A); sl_length : Z }.
Arguments mk_list {A} _ _ _.
Arguments sl_block {A} _.
Arguments sl_nodes {A} _.
Arguments sl_length {A} _.

(** [sorted_list_iterator_t]: its block and the nodes from [current] on. *)
Record sorted_list_iterator_t (A : Type) := mk_iterator { si_block : ptr; si_current : list (node A) }.
Arguments mk_iterator {A} _ _.
Arguments si_block {A} _.
Arguments si_current {A} _.

Section model.
Context {A : Type} `{Alloc} (cmp_fun : A -> A -> Z).

Definition sorted_list_create : M mem (option (sorted_list A)) :=
  b ← malloc 24;
  if decide (b = Null) then mret None else mret (Some (mk_list b [] 0)).

(** The loop of [sorted_list_add]: the nodes before [n], the nodes from [n] on, and
    the last result of the comparison. *)
Fixpoint add_loop (elem : A) (prev n : list (node A)) (cmp : Z) : list (node A) * list (node A) * Z :=
  match n with
  | [] => (prev, [], cmp)
  | x :: next =>
      let c := cmp_fun x.(nd_element) elem in
      if 0 <=? c then (prev, n, c) else add_loop elem (prev ++ [x]) next c
  end.

Definition sorted_list_add (l : sorted_list A) (elem : A) (elem_size : Z)
    : M mem (Z * sorted_list A) :=
  nb ← malloc 16;
  if decide (nb = Null) then mret (-1, l) else
  eb ← malloc elem_size;
  if decide (eb = Null) then free nb;; mret (-1, l) else
  let new_node := mk_node nb eb elem in
  let longer := swrap 32 (l.(sl_length) + 1) in
  match l.(sl_nodes) with
  | [] => mret (0, mk_list l.(sl_block) [new_node] longer)
  | head =>
      let '(prev, n, cmp) := add_loop elem [] head 0 in
      if cmp =? 0 then
        match n with
        | [] => crash
        | x :: next =>
            free x.(nd_elem_block);;
            free x.(nd_block);;
            mret (0, mk_list l.(sl_block) (prev ++ new_node :: next) l.(sl_length))
        end
      else mret (0, mk_list l.(sl_block) (prev ++ new_node :: n) longer)
  end.

Fixpoint get_loop (elem : A) (n : list (node A)) : option A :=
  match n with
  | [] => None
  | x :: next =>
      let cmp := cmp_fun x.(nd_element) elem in
      if cmp =? 0 then Some x.(nd_element)
      else if 0 <? cmp then None
      else get_loop elem next
  end.

Definition sorted_list_get (l : sorted_list A) (elem : A) : option A :=
  get_loop elem l.(sl_nodes).

(** The loop of [sorted_list_remove]: the node to remove, with those before and after
    it. *)
Fixpoint remove_loop (elem : A) (prev n : list (node A))
    : option (list (node A) * node A * list (node A)) :=
  match n with
  | [] => None
  | x :: next =>
      let cmp := cmp_fun x.(nd_element) elem in
      if cmp =? 0 then Some (prev, x, next)
      else if 0 <? cmp then None
      else remove_loop elem (prev ++ [x]) next
  end.

Definition sorted_list_remove (l : sorted_list A) (elem : A) : M mem (sorted_list A) :=
  match remove_loop elem [] l.(sl_nodes) with
  | None => mret l
  | Some (prev, x, next) =>
      free x.(nd_elem_block);;
      free x.(nd_block);;
      mret (mk_list l.(sl_block) (prev ++ next) (swrap 32 (l.(sl_length) - 1)))
  end.

Fixpoint free_nodes (n : list (node A)) : M mem unit :=
  match n with
  | [] => mret tt
  | x :: next => free x.(nd_elem_block);; free x.(nd_block);; free_nodes next
  end.

Definition sorted_list_free (l : option (sorted_list A)) : M mem unit :=
  match l with
  | None => mret tt
  | Some l => free_nodes l.(sl_nodes);; free l.(sl_block)
  end.

Definition sorted_list_size (l : sorted_list A) : Z := l.(sl_length).

Definition sorted_list_iterator (l : sorted_list A) : M mem (option (sorted_list_iterator_t A)) :=
  b ← malloc 8;
  if decide (b = Null) then mret None else mret (Some (mk_iterator b l.(sl_nodes))).

Definition sorted_list_next (it : sorted_list_iterator_t A) : option A * sorted_list_iterator_t A :=
  match it.(si_current) with
  | [] => (None, it)
  | x :: next => (Some x.(nd_element), mk_iterator it.(si_block) next)
  end.

Definition sorted_list_free_iterator (it : sorted_list_iterator_t A) : M mem unit :=
  free it.(si_block).
End model.

(** * Correctness *)

(** What the list relies on: the comparison is a total preorder. *)
Record cmp_ok {A} (cmp : A -> A -> Z) : Prop := {
  cmp_refl : forall x, cmp x x = 0;
  cmp_flip : forall x y, Z.sgn (cmp y x) = - Z.sgn (cmp x y);
  cmp_trans : forall x y z, cmp x y <= 0 -> cmp y z <= 0 -> cmp x z <= 0
}.

Section proofs.
Context {A : Type} `{Alloc} (cmp : A -> A -> Z) (Hcmp : cmp_ok cmp).

Definition elements (n : list (node A)) : list A := nd_element <$> n.

Definition sorted (n : list (node A)) : Prop :=
  StronglySorted (fun x y => cmp x.(nd_element) y.(nd_element) < 0) n.

(** The blocks of the nodes. *)
Definition node_ptrs (n : list (node A)) : list ptr :=
  n ≫= (fun x => [x.(nd_elem_block); x.(nd_block)]).

(** The list is sorted, [length] counts the nodes, and the blocks of the list are
    those allocated since [s0]. *)
Record list_ok (s0 s : mem) (l : sorted_list A) : Prop := {
  lo_sorted : sorted l.(sl_nodes);
  lo_length : l.(sl_length) = Z.of_nat (length l.(sl_nodes));
  lo_small : l.(sl_length) <= 2 ^ 31 - 1;
  lo_init : Uninit ∉ l.(sl_block) :: node_ptrs l.(sl_nodes);
  lo_owned : exists bs, grown s0 s bs /\ bs ≡ₚ blocks (l.(sl_block) :: node_ptrs l.(sl_nodes))
}.

Lemma cmp_lt x y : cmp x y < 0 <-> 0 < cmp y x.
Proof. pose proof (cmp_flip _ Hcmp x y). lia. Qed.

Lemma cmp_eq x y : cmp x y = 0 <-> cmp y x = 0.
Proof. pose proof (cmp_flip _ Hcmp x y). lia. Qed.

Lemma cmp_le_lt x y z : cmp x y <= 0 -> cmp y z < 0 -> cmp x z < 0.
Proof.
  intros Hxy Hyz. pose proof (cmp_trans _ Hcmp x y z Hxy ltac:(lia)) as Hxz.
  destruct (Z.eq_dec (cmp x z) 0) as [He|]; [|lia].
  pose proof (cmp_trans _ Hcmp z x y ltac:(apply cmp_eq in He; lia) Hxy) as Hzy.
  apply cmp_lt in Hyz. lia.
Qed.

Lemma cmp_lt_le x y z : cmp x y < 0 -> cmp y z <= 0 -> cmp x z < 0.
Proof.
  intros Hxy Hyz. pose proof (cmp_trans _ Hcmp x y z ltac:(lia) Hyz) as Hxz.
  destruct (Z.eq_dec (cmp x z) 0) as [He|]; [|lia].
  pose proof (cmp_trans _ Hcmp y z x Hyz ltac:(apply cmp_eq in He; lia)) as Hyx.
  apply cmp_lt in Hxy. lia.
Qed.

(** The search stops early, which sortedness makes right. *)
Lemma get_loop_Some n e y : sorted n ->
  get_loop cmp e n = Some y <-> y ∈ elements n /\ cmp y e = 0.
Proof.
  induction 1 as [|x n Hs IH Hx]; simpl.
  - split; [done|]. intros [Hy _]. by apply not_elem_of_nil in Hy.
  - unfold elements in *. simpl. rewrite elem_of_cons.
    assert (Hlt : forall z, z ∈ nd_element <$> n -> cmp (nd_element x) z < 0).
    { intros z (w & -> & Hw)%list_elem_of_fmap. rewrite Forall_forall in Hx. by apply Hx. }
    destruct (Z.eqb_spec (cmp (nd_element x) e) 0) as [He|Hne].
    + split; [intros [= <-]; auto|]. intros [[->|Hy] Hz]; [done|].
      specialize (Hlt y Hy). pose proof (cmp_lt_le _ _ _ Hlt ltac:(rewrite Hz; lia)). lia.
    + destruct (Z.ltb_spec 0 (cmp (nd_element x) e)) as [Hpos|Hneg].
      * split; [done|]. intros [[->|Hy] Hz]; [lia|]. specialize (Hlt y Hy).
        pose proof (cmp_lt_le _ _ _ Hlt ltac:(rewrite Hz; lia)). lia.
      * rewrite IH. split; [naive_solver|]. intros [[->|Hy] Hz]; [done|auto].
Qed.

(** The nodes of a sorted list before, at and after the place of [e]. *)
Record split_at (e : A) (n n1 mid n2 : list (node A)) : Prop := {
  sp_eq : n = n1 ++ mid ++ n2;
  sp_before : Forall (fun x => cmp x.(nd_element) e < 0) n1;
  sp_mid : (length mid <= 1)%nat /\ Forall (fun x => cmp x.(nd_element) e = 0) mid;
  sp_after : Forall (fun x => cmp e x.(nd_element) < 0) n2
}.

(** The nodes after one that compares greater or equal. *)
Lemma after_sorted e x n : sorted (x :: n) -> 0 <= cmp x.(nd_element) e ->
  Forall (fun y => cmp e y.(nd_element) < 0) n.
Proof.
  intros Hs Hc. inversion Hs as [|? ? _ Hx]; subst. eapply Forall_impl; [exact Hx|].
  intros y Hy. simpl in Hy. eapply cmp_le_lt; [|exact Hy].
  pose proof (cmp_flip _ Hcmp x.(nd_element) e). lia.
Qed.

Lemma split_cons e x n n1 mid n2 : cmp x.(nd_element) e < 0 ->
  split_at e n n1 mid n2 -> split_at e (x :: n) (x :: n1) mid n2.
Proof. intros Hx [-> H1 H2 H3]. constructor; [done|by constructor|done|done]. Qed.

Lemma split_here e x n : sorted (x :: n) -> 0 <= cmp x.(nd_element) e ->
  split_at e (x :: n) [] (if cmp x.(nd_element) e =? 0 then [x] else [])
    (if cmp x.(nd_element) e =? 0 then n else x :: n).
Proof.
  intros Hs Hc. pose proof (after_sorted e x n Hs Hc) as Ha.
  destruct (Z.eqb_spec (cmp x.(nd_element) e) 0) as [He|Hne]; constructor; try done.
  - split; [simpl; lia|]. by constructor.
  - split; [simpl; lia|constructor].
  - constructor; [|done]. apply cmp_lt. lia.
Qed.

(** The loop of [sorted_list_add] finds the place. *)
Lemma add_loop_split e n prev c0 : sorted n ->
  exists n1 mid n2 c, split_at e n n1 mid n2 /\
    add_loop cmp e prev n c0 = (prev ++ n1, mid ++ n2, c) /\
    (mid <> [] -> c = 0) /\ (mid = [] -> n2 <> [] \/ n1 <> [] -> c <> 0).
Proof.
  intros Hs. revert prev c0. induction n as [|x n IH]; intros prev c0.
  - exists [], [], [], c0. split; [by constructor; [..|split; [simpl; lia|]|]|].
    split; [simpl; by rewrite app_nil_r|]. split; [done|]. intros _ [?|?]; done.
  - simpl. destruct (Z.leb_spec 0 (cmp x.(nd_element) e)) as [Hge|Hlt].
    + pose proof (split_here e x n Hs Hge) as Hsp.
      destruct (Z.eqb_spec (cmp x.(nd_element) e) 0) as [He|Hne];
        eexists _, _, _, _; (split; [exact Hsp|]; split; [by rewrite app_nil_r|]);
        split; try done; by intros.
    + inversion Hs as [|? ? Hs' _]; subst.
      destruct (IH Hs' (prev ++ [x]) (cmp x.(nd_element) e)) as (n1 & mid & n2 & c & Hsp & Hl & H1 & H2).
      exists (x :: n1), mid, n2, c. split; [by apply split_cons|]. split; [by rewrite Hl, <- app_assoc|].
      split; [done|]. intros Hm _. destruct n1 as [|z n1]; [|by apply H2; [|right]].
      destruct n2 as [|z n2]; [|by apply H2; [|left]].
      destruct Hsp as [-> _ _ _]. subst mid. simpl in Hl. injection Hl as _ <-. lia.
Qed.

Lemma remove_loop_split e n prev : sorted n ->
  exists n1 mid n2, split_at e n n1 mid n2 /\
    remove_loop cmp e prev n =
    match mid with [] => None | x :: _ => Some (prev ++ n1, x, n2) end.
Proof.
  intros Hs. revert prev. induction n as [|x n IH]; intros prev.
  - exists [], [], []. split; [by constructor; [..|split; [simpl; lia|]|]|done].
  - simpl. destruct (Z.ltb_spec (cmp x.(nd_element) e) 0) as [Hlt|Hge].
    + inversion Hs as [|? ? Hs' _]; subst. destruct (IH Hs' (prev ++ [x])) as (n1 & mid & n2 & Hsp & Hl).
      exists (x :: n1), mid, n2. split; [by apply split_cons|].
      destruct (Z.eqb_spec (cmp x.(nd_element) e) 0); [lia|].
      destruct (Z.ltb_spec 0 (cmp x.(nd_element) e)); [lia|]. rewrite Hl, <- app_assoc. done.
    + eexists _, _, _. split; [exact (split_here e x n Hs Hge)|].
      destruct (Z.eqb_spec (cmp x.(nd_element) e) 0); [by rewrite app_nil_r|].
      destruct (Z.ltb_spec 0 (cmp x.(nd_element) e)); [done|lia].
Qed.

Lemma grown_perm s s' bs cs : bs ≡ₚ cs -> grown s s' bs -> grown s s' cs.
Proof.
  intros Hp (Ho & Hl & Hn & Hd). split; [done|]. split; [|split].
  - rewrite Hl. apply set_eq. intros x. rewrite !elem_of_union, !elem_of_list_to_set, Hp. done.
  - by rewrite <- Hp.
  - intros x Hx. apply Hd. by rewrite Hp.
Qed.

(** Freeing one pointer of those owned. *)
Lemma free_owned_run p s0 s bs cs (Q : unit -> mem -> Prop) :
  p <> Uninit -> grown s0 s bs -> bs ≡ₚ blocks [p] ++ cs ->
  (forall s', grown s0 s' cs -> Q tt s') -> runs (free p) s Q.
Proof.
  intros Hu Hg Hp HQ. apply (grown_perm _ _ _ _ Hp) in Hg. destruct p as [| |n]; [|done|].
  - exists tt, s. split; [done|]. by apply HQ.
  - simpl in Hg. by apply (free_block_run n cs s0 s Q Hg).
Qed.

Lemma node_ptrs_app n1 n2 : node_ptrs (n1 ++ n2) = node_ptrs n1 ++ node_ptrs n2.
Proof. apply bind_app. Qed.

Lemma blocks_cons p ps : blocks (p :: ps) = blocks [p] ++ blocks ps.
Proof. by destruct p. Qed.

Lemma blocks_app' ps qs : blocks (ps ++ qs) = blocks ps ++ blocks qs.
Proof. apply omap_app. Qed.

Lemma sorted_around e n n1 mid n2 b eb :
  sorted n -> split_at e n n1 mid n2 ->
  sorted (n1 ++ n2) /\ sorted (n1 ++ mk_node b eb e :: n2).
Proof.
  intros Hs [-> Hb _ Ha]. rewrite Forall_forall in Hb, Ha.
  apply StronglySorted_app in Hs as (H12 & H1 & [_ [_ H2]]%StronglySorted_app).
  split; apply StronglySorted_app_2; try done.
  - intros x y Hx Hy. apply H12; [done|]. apply elem_of_app. by right.
  - intros x y Hx [->|Hy]%elem_of_cons; [by apply Hb|]. apply H12; [done|]. apply elem_of_app. by right.
  - constructor; [done|]. by apply Forall_forall.
Qed.

(** What the lists with and without [e] hold. *)
Lemma get_around e n n1 mid n2 b eb q y :
  sorted n -> split_at e n n1 mid n2 ->
  (get_loop cmp q (n1 ++ mk_node b eb e :: n2) = Some y <->
     if decide (cmp e q = 0) then y = e else get_loop cmp q n = Some y) /\
  (get_loop cmp q (n1 ++ n2) = Some y <->
     if decide (cmp e q = 0) then False else get_loop cmp q n = Some y).
Proof.
  intros Hs Hsp. destruct (sorted_around _ _ _ _ _ b eb Hs Hsp) as [Hs1 Hs2].
  destruct Hsp as [-> Hb [_ Hm] Ha]. rewrite Forall_forall in Hb, Ha, Hm.
  assert (Hno : cmp e q = 0 -> y ∈ nd_element <$> (n1 ++ n2) -> cmp y q <> 0).
  { intros He (x & -> & [Hx|Hx]%elem_of_app)%list_elem_of_fmap.
    - pose proof (cmp_lt_le _ _ q (Hb x Hx) ltac:(lia)). lia.
    - apply cmp_eq in He. pose proof (cmp_le_lt q e _ ltac:(lia) (Ha x Hx)) as Hlt.
      apply cmp_lt in Hlt. lia. }
  assert (Hmid : cmp e q <> 0 -> y ∈ nd_element <$> mid -> cmp y q <> 0).
  { intros He (x & -> & Hx)%list_elem_of_fmap Hq. apply He. specialize (Hm x Hx). simpl in Hm.
    pose proof (proj1 (cmp_eq _ _) Hm) as Hm'. pose proof (proj1 (cmp_eq _ _) Hq) as Hq'.
    pose proof (cmp_trans _ Hcmp e (nd_element x) q ltac:(lia) ltac:(lia)).
    pose proof (cmp_trans _ Hcmp q (nd_element x) e ltac:(lia) ltac:(lia)).
    pose proof (cmp_flip _ Hcmp e q). lia. }
  pose proof (get_loop_Some _ q y Hs) as G0. pose proof (get_loop_Some _ q y Hs1) as G1.
  pose proof (get_loop_Some _ q y Hs2) as G2. unfold elements in G0, G1, G2.
  rewrite fmap_app, fmap_app, elem_of_app, elem_of_app in G0. rewrite fmap_app, elem_of_app in G1, Hno.
  rewrite fmap_app, fmap_cons, elem_of_app, elem_of_cons in G2. cbn [nd_element] in G2.
  destruct (decide (cmp e q = 0)) as [He|He]; rewrite G1, G2, ?G0;
    [specialize (Hno He)|specialize (Hmid He)]; split; intuition (subst; auto; try congruence).
Qed.

(** A list whose nodes are [n1 ++ mid ++ n2] owns the blocks of the three parts. *)
Lemma owned_split s0 s l n1 mid n2 :
  list_ok s0 s l -> l.(sl_nodes) = n1 ++ mid ++ n2 ->
  (Uninit ∉ l.(sl_block) :: node_ptrs (n1 ++ n2)) /\ (Uninit ∉ node_ptrs mid) /\
  grown s0 s (blocks (node_ptrs mid) ++ blocks (l.(sl_block) :: node_ptrs (n1 ++ n2))).
Proof.
  intros [_ _ _ Hi (bs & Hg & Hp)] Hn. rewrite Hn, !node_ptrs_app in Hi, Hp.
  rewrite node_ptrs_app. split; [set_solver|]. split; [set_solver|].
  eapply grown_perm; [|exact Hg]. rewrite Hp.
  rewrite (blocks_cons _ (node_ptrs n1 ++ node_ptrs mid ++ _)), (blocks_cons _ (node_ptrs n1 ++ node_ptrs n2)).
  rewrite !blocks_app'.
  solve_Permutation.
Qed.

(** Building the invariant of a list with other nodes. *)
Lemma list_ok_intro s0 s b n len bs :
  sorted n -> len = Z.of_nat (length n) -> len <= 2 ^ 31 - 1 -> Uninit ∉ b :: node_ptrs n ->
  grown s0 s bs -> bs ≡ₚ blocks (b :: node_ptrs n) -> list_ok s0 s (mk_list b n len).
Proof. intros. constructor; try done. by exists bs. Qed.

Lemma list_ok_mono s0 s s' l : list_ok s0 s l -> balanced s s' -> list_ok s0 s' l.
Proof.
  intros [? ? ? ? (bs & Hg & Hp)] Hb. constructor; try done. exists bs.
  split; [by eapply grown_balanced|done].
Qed.

(** What adding [e] promises. *)
Definition add_post (s0 : mem) (l : sorted_list A) (e : A) (r : Z * sorted_list A) (s' : mem) : Prop :=
  (r = (-1, l) /\ list_ok s0 s' l) \/
  (r.1 = 0 /\ list_ok s0 s' r.2 /\
   forall q y, sorted_list_get cmp r.2 q = Some y <->
     if decide (cmp e q = 0) then y = e else sorted_list_get cmp l q = Some y).

(** The new node at its place, the node it replaces (if any) freed. *)
Lemma add_place_run s0 s l e n1 mid n2 nb eb :
  list_ok s0 s l -> split_at e l.(sl_nodes) n1 mid n2 -> l.(sl_length) < 2 ^ 31 - 1 ->
  forall s1, grown s s1 [nb; eb] ->
  runs (match mid with
        | [] => mret (0, mk_list l.(sl_block) (n1 ++ mk_node (Block nb) (Block eb) e :: n2)
                           (swrap 32 (l.(sl_length) + 1)))
        | x :: _ =>
            free x.(nd_elem_block);;
            free x.(nd_block);;
            mret (0, mk_list l.(sl_block) (n1 ++ mk_node (Block nb) (Block eb) e :: n2) l.(sl_length))
        end) s1 (add_post s0 l e).
Proof.
  intros Hok Hsp Hlen s1 Hg1. pose proof (lo_sorted _ _ _ Hok) as Hs.
  destruct (sorted_around _ _ _ _ _ (Block nb) (Block eb) Hs Hsp) as [_ Hs2].
  pose proof (fun q y => proj1 (get_around _ _ _ _ _ (Block nb) (Block eb) q y Hs Hsp)) as Hget.
  destruct (owned_split s0 s l n1 mid n2 Hok (sp_eq _ _ _ _ _ Hsp)) as (Hi1 & Hi2 & Hg0).
  pose proof (lo_length _ _ _ Hok) as Hl. rewrite (sp_eq _ _ _ _ _ Hsp), !length_app in Hl.
  pose proof (grown_trans _ _ _ _ _ Hg0 Hg1) as Hg.
  assert (Hnew : forall s2 len, len = Z.of_nat (length n1 + S (length n2)) -> len <= 2 ^ 31 - 1 ->
    grown s0 s2 (blocks (l.(sl_block) :: node_ptrs (n1 ++ n2)) ++ [nb; eb]) ->
    add_post s0 l e (0, mk_list l.(sl_block) (n1 ++ mk_node (Block nb) (Block eb) e :: n2) len) s2).
  { intros s2 len Hlen2 Hsm Hg2. right. split; [done|]. split; [|exact Hget].
    eapply list_ok_intro; [done|rewrite length_app; simpl; lia|done|..|exact Hg2|].
    - rewrite node_ptrs_app in Hi1 |- *. simpl. set_solver.
    - rewrite !(blocks_cons (sl_block l) (node_ptrs _)), !node_ptrs_app, !blocks_app'. simpl.
      solve_Permutation. }
  destruct Hsp as [_ _ [Hm _] _]. destruct mid as [|x [|]]; [| |simpl in Hm; lia].
  - run. apply Hnew; [rewrite swrap_small; simpl in *; lia|rewrite swrap_small; simpl in *; lia|done].
  - simpl in Hi2. apply runs_bind.
    eapply (free_owned_run _ s0 s1 _ (blocks [nd_block x] ++
      (blocks (l.(sl_block) :: node_ptrs (n1 ++ n2)) ++ [nb; eb]))); [set_solver|exact Hg|..].
    { simpl node_ptrs. rewrite (blocks_cons (nd_elem_block x)), (blocks_cons (nd_block x)). simpl (blocks []).
      by rewrite !app_nil_r, <- !app_assoc. }
    intros s2 Hg2. apply runs_bind.
    eapply (free_owned_run _ s0 s2); [set_solver|exact Hg2|done|]. intros s3 Hg3. run.
    apply Hnew; [simpl in *; lia|lia|done].
Qed.

Lemma list_mem_ok s0 s l : list_ok s0 s l -> mem_ok s.
Proof. intros [_ _ _ _ (bs & [Ho _] & _)]. exact Ho. Qed.

Lemma add_run s0 s l e size :
  list_ok s0 s l -> l.(sl_length) < 2 ^ 31 - 1 ->
  runs (sorted_list_add cmp l e size) s (add_post s0 l e).
Proof.
  intros Hok Hlen. unfold sorted_list_add. run. apply malloc_run; [by eapply list_mem_ok|..].
  { intros s1 Hb. rewrite decide_True by done. run. left. split; [done|]. by eapply list_ok_mono. }
  intros nb s1 Hg1. rewrite decide_False by done. run. apply malloc_run; [apply Hg1|..].
  { intros s2 Hb. rewrite decide_True by done. apply runs_bind.
    eapply free_block_run; [exact (grown_balanced _ _ _ _ Hg1 Hb)|]. intros s3 Hg3. run.
    left. split; [done|]. eapply list_ok_mono; [exact Hok|]. by apply grown_nil. }
  intros eb s2 Hg2. rewrite decide_False by done. pose proof (grown_trans _ _ _ _ _ Hg1 Hg2) as Hg.
  destruct (add_loop_split e l.(sl_nodes) [] 0 (lo_sorted _ _ _ Hok)) as (n1 & mid & n2 & c & Hsp & Hl & H1 & H2).
  pose proof (add_place_run s0 s l e n1 mid n2 nb eb Hok Hsp Hlen s2 Hg) as Hplace.
  pose proof (sp_eq _ _ _ _ _ Hsp) as He. destruct (sl_nodes l) as [|h t].
  - symmetry in He. apply app_eq_nil in He as [-> [-> ->]%app_eq_nil]. exact Hplace.
  - rewrite Hl. destruct mid as [|x [|]]; [|rewrite (H1 ltac:(done))..].
    + rewrite (proj2 (Z.eqb_neq c 0)); [exact Hplace|]. apply H2; [done|].
      destruct n2; [right|by left]. intros ->. done.
    + exact Hplace.
    + destruct Hsp as [_ _ [Hm _] _]. simpl in Hm. lia.
Qed.

(** C30: adding an element to a sorted list, whatever the calls of [malloc] do: either
    it fails, returns -1 and leaves the list as it was without leaking memory, or it
    returns 0 and the list is sorted and without duplicates again, a lookup of what
    compares equal to the element finds the element, and other lookups are not
    affected. The size is the number of elements and the list owns exactly the blocks
    of its nodes. *)
Theorem sorted_list_add_correct s0 s l e size :
  list_ok s0 s l -> sorted_list_size l < 2 ^ 31 - 1 ->
  runs (sorted_list_add cmp l e size) s (add_post s0 l e).
Proof. intros Hok Hlen. by apply add_run. Qed.

(** Removing an element: a lookup of what compares equal to it then finds
    nothing, other lookups are not affected, the list stays sorted, its size right,
    and the blocks of the removed node are freed. *)
Theorem sorted_list_remove_correct s0 s l e :
  list_ok s0 s l ->
  runs (sorted_list_remove cmp l e) s (fun l' s' =>
    list_ok s0 s' l' /\
    forall q y, sorted_list_get cmp l' q = Some y <->
      if decide (cmp e q = 0) then False else sorted_list_get cmp l q = Some y).
Proof.
  intros Hok. pose proof (lo_sorted _ _ _ Hok) as Hs. unfold sorted_list_remove.
  destruct (remove_loop_split e l.(sl_nodes) [] Hs) as (n1 & mid & n2 & Hsp & ->).
  pose proof (fun q y => proj2 (get_around _ _ _ _ _ Null Null q y Hs Hsp)) as Hget.
  destruct (sorted_around _ _ _ _ _ Null Null Hs Hsp) as [Hs1 _].
  destruct (owned_split s0 s l n1 mid n2 Hok (sp_eq _ _ _ _ _ Hsp)) as (Hi1 & Hi2 & Hg0).
  pose proof (lo_length _ _ _ Hok) as Hl. pose proof (lo_small _ _ _ Hok) as Hsm.
  rewrite (sp_eq _ _ _ _ _ Hsp), !length_app in Hl.
  pose proof (sp_eq _ _ _ _ _ Hsp) as He. destruct Hsp as [_ _ [Hm _] _].
  destruct mid as [|x [|]]; [| |simpl in Hm; lia].
  - run. split; [done|]. unfold sorted_list_get. rewrite He in *. exact Hget.
  - simpl in Hi2. run. eapply (free_owned_run _ s0 s _ (blocks [nd_block x] ++
      blocks (l.(sl_block) :: node_ptrs (n1 ++ n2)))); [set_solver|exact Hg0|..].
    { simpl node_ptrs. rewrite (blocks_cons (nd_elem_block x)), (blocks_cons (nd_block x)). simpl (blocks []).
      by rewrite !app_nil_r, <- !app_assoc. }
    intros s2 Hg2. run. eapply (free_owned_run _ s0 s2); [set_solver|exact Hg2|done|].
    intros s3 Hg3. run. simpl in Hl. split; [|exact Hget].
    rewrite app_nil_l, swrap_small by lia.
    eapply list_ok_intro; [done|rewrite length_app; lia|lia|done|exact Hg3|done].
Qed.

(** Freeing a list frees all that was allocated for it. *)
Theorem sorted_list_free_correct s0 s l :
  list_ok s0 s l -> runs (sorted_list_free (Some l)) s (fun _ s' => balanced s0 s').
Proof.
  clear Hcmp. intros [_ _ _ Hi (bs & Hg & Hp)]. apply (grown_perm _ _ _ _ Hp) in Hg.
  unfold sorted_list_free. run. revert s Hi Hg. clear Hp. induction (sl_nodes l) as [|x n IH]; intros s Hi Hg.
  - simpl. run. eapply (free_owned_run _ s0 s _ []); [set_solver|exact Hg|by rewrite app_nil_r|].
    intros s' Hg'. by apply grown_nil.
  - change (node_ptrs (x :: n)) with (nd_elem_block x :: nd_block x :: node_ptrs n) in *.
    cbn [free_nodes]. run.
    eapply (free_owned_run _ s0 s _ (blocks [nd_block x] ++ blocks (l.(sl_block) :: node_ptrs n)));
      [set_solver|exact Hg|..].
    { rewrite (blocks_cons (sl_block l) (_ :: _)), (blocks_cons (nd_elem_block x) (_ :: _)).
      rewrite (blocks_cons (nd_block x) (node_ptrs n)), (blocks_cons (sl_block l) (node_ptrs n)).
      solve_Permutation. }
    intros s2 Hg2. run. eapply (free_owned_run _ s0 s2); [set_solver|exact Hg2|done|]. intros s3 Hg3.
    apply IH; [set_solver|done].
Qed.
End proofs.

(** ** Witnesses *)

(** A list of the integers 5 and 9. *)
Definition demo_list : sorted_list Z :=
  mk_list (Block 0) [mk_node (Block 1) (Block 2) 5; mk_node (Block 3) (Block 4) 9] 2.
Definition demo_mem : mem := mk_mem 5 (list_to_set [0; 2; 1; 4; 3]%nat).

Lemma sub_cmp_ok : cmp_ok Z.sub.
Proof. constructor; intros; lia. Qed.

Lemma demo_list_ok : list_ok Z.sub (mk_mem 0 ∅) demo_mem demo_list.
Proof.
  eapply list_ok_intro; try done.
  - repeat constructor.
  - set_solver.
  - split; [|split; [|split]].
    + intros n Hn. apply elem_of_list_to_set in Hn. simpl. set_solver by lia.
    + simpl. set_solver.
    + apply (bool_decide_unpack _). exact I.
    + intros n _. set_solver.
Qed.

Lemma sorted_list_add_correct_witness :
  exists l' s', @sorted_list_add Z (fun _ _ => true) Z.sub demo_list 7 4 demo_mem = Some ((0, l'), s') /\
    sorted_list_get Z.sub l' 7 = Some 7 /\ sorted_list_get Z.sub l' 9 = Some 9.
Proof.
  destruct (@sorted_list_add_correct Z (fun _ _ => true) Z.sub sub_cmp_ok _ _ _ 7 4 demo_list_ok)
    as ([r l'] & s' & Hr & Hp); [reflexivity|].
  assert (Hr' := Hr). vm_compute in Hr'. injection Hr' as <- _ _.
  destruct Hp as [[? _]|(_ & _ & Hget)]; [discriminate|]. exists l', s'. split; [exact Hr|].
  split; apply Hget; reflexivity.
Defined.

Lemma sorted_list_remove_correct_witness :
  exists l' s', @sorted_list_remove Z Z.sub demo_list 9 demo_mem = Some (l', s') /\
    sorted_list_get Z.sub l' 9 = None /\ sorted_list_get Z.sub l' 5 = Some 5.
Proof.
  destruct (@sorted_list_remove_correct Z Z.sub sub_cmp_ok _ _ _ 9 demo_list_ok)
    as (l' & s' & Hr & _ & Hget). exists l', s'. split; [exact Hr|]. split.
  - destruct (sorted_list_get Z.sub l' 9) as [y|] eqn:Hy; [|done]. by apply Hget in Hy.
  - by apply Hget.
Defined.

Lemma sorted_list_free_correct_witness :
  runs (sorted_list_free (Some demo_list)) demo_mem (fun _ s' => s'.(m_live) = ∅).
Proof.
  eapply runs_mono; [exact (sorted_list_free_correct Z.sub _ _ _ demo_list_ok)|].
  intros _ s' [_ Hs]. exact Hs.
Defined.
