(* ===== verification/NodeTypes.v ===== *)
(** * Nodes of the couchstore B+trees ([couchstore/src/node_types.cc])

    The packed lengths of a key and a value, and the roots of trees as they are kept
    in headers. *)
From Stdlib Require Import ZArith Lia.
From stdpp Require Import strings gmap prelude.
From S2P Require Import Prelude Bitfield ViewCodec.

#[local] Set Warnings "-clear-no-such-hyp".

(** [node_pointer]; the reduce value follows the structure in its block. *)
Record node_pointer := mk_np {
  np_block : ptr;
  np_key : list Z;
  np_pointer : Z;
  np_reduce_value : list Z;
  np_subtreesize : Z
}.

(** [sizeof(raw_btree_root)] and [sizeof(node_pointer)]. *)
Definition sizeof_raw_btree_root : Z := 12.
Definition sizeof_node_pointer : Z := 48.

(** ** Lengths of 12 and 28 bits *)

Definition decode_kv_length (kv : list Z) : option (Z * Z) :=
  match kv with
  | b0 :: b1 :: b2 :: b3 :: b4 :: _ =>
      Some (u16 (Z.lor (Z.shiftl b0 4) (Z.shiftr (Z.land b1 240) 4)),
            Z.land (be_val [b1; b2; b3; b4]) 268435455)
  | _ => None
  end.

Definition encode_kv_length (klen vlen : Z) : list Z :=
  match be_bytes 4 (u32 vlen) with
  | l0 :: rest => u8 (Z.shiftr klen 4) :: u8 (Z.lor l0 (Z.shiftl (Z.land klen 15) 4)) :: rest
  | [] => []
  end.

(** The key, the value and the number of bytes consumed; [None] is a read past the
    bytes. *)
Definition read_kv (buf : list Z) : option (list Z * list Z * Z) :=
  match decode_kv_length buf with
  | None => None
  | Some (klen, vlen) =>
      let rest := drop 5 buf in
      if klen + vlen <=? len rest then
        Some (take (Z.to_nat klen) rest, take (Z.to_nat vlen) (drop (Z.to_nat klen) rest),
              5 + klen + vlen)
      else None
  end.

(** The bytes written; the result of the function is the address after them. *)
Definition write_kv (key value : list Z) : list Z :=
  encode_kv_length (u32 (len key)) (u32 (len value)) ++ key ++ value.

Definition decode_sequence_key (buf : list Z) : Z := couchstore_decode_raw48p (take 6 buf).

(** ** Roots *)

(** The result of [malloc] is not tested: writing through [NULL] ends the process, as
    does a size that leaves no room for the structure. *)
Definition read_root `{Alloc} (buf : list Z) (size : Z) : M mem (option node_pointer) :=
  if size =? 0 then mret None else
  cassert (sizeof_raw_btree_root <=? len buf);;
  let position := couchstore_decode_raw48p (take 6 buf) in
  let subtreesize := couchstore_decode_raw48p (take 6 (drop 6 buf)) in
  let redsize := size - sizeof_raw_btree_root in
  ptr ← malloc (u64 (sizeof_node_pointer + redsize));
  cassert (negb (bool_decide (ptr = Null)));;
  cassert (0 <=? redsize);;
  let after := drop 12 buf in
  cassert (redsize <=? len after);;
  mret (Some (mk_np ptr [] position (take (Z.to_nat redsize) after) subtreesize)).

(** The bytes written at [buf]; the function returns their number. *)
Definition encode_root (node : option node_pointer) : list Z :=
  match node with
  | None => []
  | Some n => couchstore_encode_raw48 n.(np_pointer) ++ couchstore_encode_raw48 n.(np_subtreesize)
                ++ n.(np_reduce_value)
  end.

(** * Properties *)

Lemma lor_low a b k : 0 <= k -> 0 <= b < 2 ^ k -> Z.lor (Z.shiftl a k) b = a * 2 ^ k + b.
Proof.
  intros Hk Hb. rewrite <- Z.shiftl_mul_pow2 by done. rewrite <- Z.add_lor_land.
  enough (Z.land (Z.shiftl a k) b = 0) as -> by lia. apply Z.bits_inj'. intros i Hi.
  rewrite Z.land_spec, Z.bits_0. destruct (Z.ltb_spec i k).
  - by rewrite Z.shiftl_spec_low.
  - rewrite <- (Z.mod_small b (2 ^ k)) by done. by rewrite Z.mod_pow2_bits_high, andb_false_r by lia.
Qed.

Lemma kv_length_roundtrip klen vlen rest :
  0 <= klen < 2 ^ 12 -> 0 <= vlen < 2 ^ 28 ->
  length (encode_kv_length klen vlen) = 5%nat /\
  decode_kv_length (encode_kv_length klen vlen ++ rest) = Some (klen, vlen).
Proof.
  intros Hk Hv. unfold encode_kv_length. rewrite u32_small by lia.
  destruct (be_bytes 4 vlen) as [|l0 l] eqn:Hb; [done|].
  pose proof (be_bytes_length 4 vlen) as Hlen. pose proof (be_val_bytes 4 vlen) as Hval. rewrite Hb in *.
  destruct l as [|l1 [|l2 [|l3 [|]]]]; try done. split; [done|].
  assert (H0 : l0 = vlen / 2 ^ 24).
  { cbn [be_bytes] in Hb. injection Hb as <- _. apply Z.mod_small. split; [apply Z.div_pos; lia|].
    change (8 * Z.of_nat 3) with 24. apply Z.div_lt_upper_bound; lia. }
  assert (Hl0 : 0 <= l0 < 16).
  { subst l0. split; [apply Z.div_pos; lia|]. apply Z.div_lt_upper_bound; lia. }
  assert (Hlow : Z.land klen 15 = klen mod 16) by (apply (Z.land_ones klen 4); lia).
  pose proof (Z.mod_pos_bound klen 16 ltac:(lia)) as Hm.
  assert (H1 : u8 (Z.lor l0 (Z.shiftl (Z.land klen 15) 4)) = klen mod 16 * 16 + l0).
  { rewrite Z.lor_comm, lor_low, Hlow by (simpl; lia). apply (wrap_small 8). unfold fits. simpl. lia. }
  assert (H2 : u8 (Z.shiftr klen 4) = klen / 16).
  { rewrite Z.shiftr_div_pow2 by lia. apply (wrap_small 8). split; [apply Z.div_pos; lia|].
    apply Z.div_lt_upper_bound; simpl; lia. }
  rewrite H1, H2. cbn [app decode_kv_length]. do 2 f_equal.
  - rewrite Z.shiftr_land. change (Z.shiftr 240 4) with (Z.ones 4). rewrite Z.land_ones, Z.shiftr_div_pow2 by lia.
    change (2 ^ 4) with 16. rewrite Z.div_add_l, (Z.div_small l0), Z.add_0_r, Z.mod_mod by lia.
    rewrite lor_low by (simpl; lia). change (2 ^ 4) with 16. rewrite Z.mul_comm, <- Z.div_mod by lia.
    apply u16_small. lia.
  - change 268435455 with (Z.ones 28). rewrite Z.land_ones by lia.
    rewrite be_val_cons in Hval. rewrite be_val_cons. change (256 ^ _) with (2 ^ 24) in *.
    rewrite Z.mod_small in Hval by (simpl; lia).
    replace ((klen mod 16 * 16 + l0) * 2 ^ 24 + be_val [l1; l2; l3]) with (vlen + klen mod 16 * 2 ^ 28) by lia.
    rewrite Z.mod_add by lia. by apply Z.mod_small.
Qed.

(** A key and a value that are written are read back, with the number of bytes
    they took, whatever follows: the lengths of the key (below 4096) and of the value
    (below 2^28) share five bytes, one of them half and half. *)
Theorem kv_roundtrip key value rest :
  len key < 2 ^ 12 -> len value < 2 ^ 28 ->
  read_kv (write_kv key value ++ rest) = Some (key, value, len (write_kv key value)).
Proof.
  intros Hk Hv. unfold len in Hk, Hv. unfold write_kv. rewrite !u32_small by (unfold len; lia).
  destruct (kv_length_roundtrip (len key) (len value) ((key ++ value) ++ rest)) as [Hl Hd];
    [unfold len; lia..|].
  unfold read_kv. rewrite <- app_assoc, Hd.
  rewrite drop_app_length' by done. rewrite <- (app_assoc key).
  rewrite (proj2 (Z.leb_le _ _)) by (rewrite !len_app; unfold len; lia).
  rewrite !len_app. unfold len in *. rewrite !Nat2Z.id, Hl, !take_app_length, drop_app_length, take_app_length.
  do 2 f_equal. lia.
Qed.

Lemma kv_roundtrip_witness :
  read_kv (write_kv [1; 2; 3] [4; 5] ++ [6]) = Some ([1; 2; 3], [4; 5], 10).
Proof. apply (kv_roundtrip [1; 2; 3] [4; 5] [6]); vm_compute; reflexivity. Defined.

(** ** Roots *)

Lemma encode_root_length n :
  length (encode_root (Some n)) = (12 + length n.(np_reduce_value))%nat.
Proof.
  unfold encode_root, couchstore_encode_raw48. rewrite !ENCODE_RAW_bytes by lia.
  by rewrite !length_app, !be_bytes_length.
Qed.

Definition root_ok (n : node_pointer) : Prop :=
  0 <= n.(np_pointer) < 2 ^ 48 /\ 0 <= n.(np_subtreesize) < 2 ^ 48 /\
  len n.(np_reduce_value) < 2 ^ 16 - 12.

Lemma decode48 v rest : 0 <= v < 2 ^ 48 ->
  couchstore_decode_raw48p (take 6 (couchstore_encode_raw48 v ++ rest)) = v.
Proof.
  intros Hv. unfold couchstore_decode_raw48p, couchstore_encode_raw48.
  rewrite ENCODE_RAW_bytes, take_app_length', DECODE_RAW_val, be_val_bytes
    by (rewrite ?be_bytes_length; lia). by apply Z.mod_small.
Qed.

Lemma drop_encode48 v rest : drop 6 (couchstore_encode_raw48 v ++ rest) = rest.
Proof.
  unfold couchstore_encode_raw48. rewrite ENCODE_RAW_bytes by lia.
  by rewrite drop_app_length' by (by rewrite be_bytes_length).
Qed.

(** Reading a root that was written, when there is memory. *)
Lemma read_root_run `{Alloc} n rest s (Q : option node_pointer -> mem -> Prop) :
  (forall n sz, malloc_ok n sz = true) -> mem_ok s -> root_ok n ->
  (forall b s', grown s s' [b] -> Q (Some (mk_np (Block b) [] n.(np_pointer) n.(np_reduce_value)
     n.(np_subtreesize))) s') ->
  runs (read_root (encode_root (Some n) ++ rest) (12 + len n.(np_reduce_value))) s Q.
Proof.
  intros Hall Hs (Hp & Ht & Hr) HQ. unfold read_root. unfold len in *.
  rewrite (proj2 (Z.eqb_neq _ 0)) by lia. run.
  { apply Z.leb_le. unfold sizeof_raw_btree_root. rewrite length_app, encode_root_length. lia. }
  eapply malloc_all; [done|done|]. intros b s' Hg. run; [done|..].
  { apply Z.leb_le. unfold sizeof_raw_btree_root. lia. }
  { apply Z.leb_le. unfold sizeof_raw_btree_root. rewrite length_drop, length_app, encode_root_length. lia. }
  specialize (HQ b s' Hg). unfold encode_root. rewrite <- !app_assoc, decode48 by done.
  change (drop 12) with (fun l : list Z => drop (6 + 6) l). cbn beta.
  rewrite <- drop_drop, !drop_encode48, decode48 by done.
  unfold sizeof_raw_btree_root. replace (12 + Z.of_nat (length (np_reduce_value n)) - 12)
    with (Z.of_nat (length (np_reduce_value n))) by lia.
  by rewrite Nat2Z.id, take_app_length.
Qed.
