(* ===== verification/IndexHeader.v ===== *)
(** * Headers of the view indexes ([couchstore/src/views/index_header.c])

    The encoder and the decoder of the header of an index: sorted lists, the roots of
    the B+trees and bitmaps, compressed. The encoder writes into a buffer at a cursor,
    the decoder reads from a cursor without checking the length, and both keep the
    memory of [Bitfield]: reading or writing outside a buffer, using [NULL] or an
    uninitialised pointer ends the process. *)
From Stdlib Require Import ZArith Lia.
From stdpp Require Import strings gmap prelude sorting.
From S2P Require Import Prelude Bitfield ViewCodec Snappy SortedList NodeTypes.

#[local] Set Warnings "-clear-no-such-hyp".

Record part_seq_t := mk_ps { ps_part_id : Z; ps_seq : Z }.

Record failover_log_t := mk_fl { fl_uuid : list Z; fl_seq : Z }.

(** [pv_block] is the address [failover_log], [pv_failover_log] what is there. *)
Record part_version_t := mk_pv {
  pv_part_id : Z;
  pv_num_failover_log : Z;
  pv_block : ptr;
  pv_failover_log : list failover_log_t
}.

(** A pointer to a list that may be uninitialised. *)
Inductive lptr (A : Type) := LNull | LUninit | LSome (l : sorted_list A).
Arguments LNull {A}.
Arguments LUninit {A}.
Arguments LSome {A}.

Record index_state_transition_t := mk_trans {
  tr_active : option (sorted_list Z);
  tr_passive : option (sorted_list Z);
  tr_unindexable : option (sorted_list Z)
}.

(** [h_view_array] is the address [view_states]; [h_view_states] are the elements of
    the array that have been assigned. *)
Record index_header_t := mk_header {
  h_version : Z;
  h_signature : list Z;
  h_num_views : Z;
  h_num_partitions : Z;
  h_active_bitmask : list Z;
  h_passive_bitmask : list Z;
  h_cleanup_bitmask : list Z;
  h_seqs : option (sorted_list part_seq_t);
  h_id_btree_state : option node_pointer;
  h_view_array : ptr;
  h_view_states : list (option node_pointer);
  h_has_replica : Z;
  h_replicas_on_transfer : option (sorted_list Z);
  h_pending_transition : index_state_transition_t;
  h_unindexable_seqs : option (sorted_list part_seq_t);
  h_part_versions : lptr part_version_t
}.

(** Assignments to the fields. *)
Definition set_h_version (x : Z) (h : index_header_t) : index_header_t :=
  mk_header x h.(h_signature) h.(h_num_views) h.(h_num_partitions) h.(h_active_bitmask)
    h.(h_passive_bitmask) h.(h_cleanup_bitmask) h.(h_seqs) h.(h_id_btree_state) h.(h_view_array)
    h.(h_view_states) h.(h_has_replica) h.(h_replicas_on_transfer) h.(h_pending_transition)
    h.(h_unindexable_seqs) h.(h_part_versions).
Definition set_h_num_views (x : Z) (h : index_header_t) : index_header_t :=
  mk_header h.(h_version) h.(h_signature) x h.(h_num_partitions) h.(h_active_bitmask)
    h.(h_passive_bitmask) h.(h_cleanup_bitmask) h.(h_seqs) h.(h_id_btree_state) h.(h_view_array)
    h.(h_view_states) h.(h_has_replica) h.(h_replicas_on_transfer) h.(h_pending_transition)
    h.(h_unindexable_seqs) h.(h_part_versions).
Definition set_h_num_partitions (x : Z) (h : index_header_t) : index_header_t :=
  mk_header h.(h_version) h.(h_signature) h.(h_num_views) x h.(h_active_bitmask)
    h.(h_passive_bitmask) h.(h_cleanup_bitmask) h.(h_seqs) h.(h_id_btree_state) h.(h_view_array)
    h.(h_view_states) h.(h_has_replica) h.(h_replicas_on_transfer) h.(h_pending_transition)
    h.(h_unindexable_seqs) h.(h_part_versions).
Definition set_h_active_bitmask (x : list Z) (h : index_header_t) : index_header_t :=
  mk_header h.(h_version) h.(h_signature) h.(h_num_views) h.(h_num_partitions) x
    h.(h_passive_bitmask) h.(h_cleanup_bitmask) h.(h_seqs) h.(h_id_btree_state) h.(h_view_array)
    h.(h_view_states) h.(h_has_replica) h.(h_replicas_on_transfer) h.(h_pending_transition)
    h.(h_unindexable_seqs) h.(h_part_versions).
Definition set_h_passive_bitmask (x : list Z) (h : index_header_t) : index_header_t :=
  mk_header h.(h_version) h.(h_signature) h.(h_num_views) h.(h_num_partitions)
    h.(h_active_bitmask) x h.(h_cleanup_bitmask) h.(h_seqs) h.(h_id_btree_state) h.(h_view_array)
    h.(h_view_states) h.(h_has_replica) h.(h_replicas_on_transfer) h.(h_pending_transition)
    h.(h_unindexable_seqs) h.(h_part_versions).
Definition set_h_cleanup_bitmask (x : list Z) (h : index_header_t) : index_header_t :=
  mk_header h.(h_version) h.(h_signature) h.(h_num_views) h.(h_num_partitions)
    h.(h_active_bitmask) h.(h_passive_bitmask) x h.(h_seqs) h.(h_id_btree_state) h.(h_view_array)
    h.(h_view_states) h.(h_has_replica) h.(h_replicas_on_transfer) h.(h_pending_transition)
    h.(h_unindexable_seqs) h.(h_part_versions).
Definition set_h_seqs (x : option (sorted_list part_seq_t)) (h : index_header_t) : index_header_t :=
  mk_header h.(h_version) h.(h_signature) h.(h_num_views) h.(h_num_partitions)
    h.(h_active_bitmask) h.(h_passive_bitmask) h.(h_cleanup_bitmask) x h.(h_id_btree_state)
    h.(h_view_array) h.(h_view_states) h.(h_has_replica) h.(h_replicas_on_transfer)
    h.(h_pending_transition) h.(h_unindexable_seqs) h.(h_part_versions).
Definition set_h_id_btree_state (x : option node_pointer) (h : index_header_t) : index_header_t :=
  mk_header h.(h_version) h.(h_signature) h.(h_num_views) h.(h_num_partitions)
    h.(h_active_bitmask) h.(h_passive_bitmask) h.(h_cleanup_bitmask) h.(h_seqs) x h.(h_view_array)
    h.(h_view_states) h.(h_has_replica) h.(h_replicas_on_transfer) h.(h_pending_transition)
    h.(h_unindexable_seqs) h.(h_part_versions).
Definition set_h_view_array (x : ptr) (h : index_header_t) : index_header_t :=
  mk_header h.(h_version) h.(h_signature) h.(h_num_views) h.(h_num_partitions)
    h.(h_active_bitmask) h.(h_passive_bitmask) h.(h_cleanup_bitmask) h.(h_seqs)
    h.(h_id_btree_state) x h.(h_view_states) h.(h_has_replica) h.(h_replicas_on_transfer)
    h.(h_pending_transition) h.(h_unindexable_seqs) h.(h_part_versions).
Definition set_h_view_states (x : list (option node_pointer)) (h : index_header_t) : index_header_t :=
  mk_header h.(h_version) h.(h_signature) h.(h_num_views) h.(h_num_partitions)
    h.(h_active_bitmask) h.(h_passive_bitmask) h.(h_cleanup_bitmask) h.(h_seqs)
    h.(h_id_btree_state) h.(h_view_array) x h.(h_has_replica) h.(h_replicas_on_transfer)
    h.(h_pending_transition) h.(h_unindexable_seqs) h.(h_part_versions).
Definition set_h_has_replica (x : Z) (h : index_header_t) : index_header_t :=
  mk_header h.(h_version) h.(h_signature) h.(h_num_views) h.(h_num_partitions)
    h.(h_active_bitmask) h.(h_passive_bitmask) h.(h_cleanup_bitmask) h.(h_seqs)
    h.(h_id_btree_state) h.(h_view_array) h.(h_view_states) x h.(h_replicas_on_transfer)
    h.(h_pending_transition) h.(h_unindexable_seqs) h.(h_part_versions).
Definition set_h_replicas_on_transfer (x : option (sorted_list Z)) (h : index_header_t) : index_header_t :=
  mk_header h.(h_version) h.(h_signature) h.(h_num_views) h.(h_num_partitions)
    h.(h_active_bitmask) h.(h_passive_bitmask) h.(h_cleanup_bitmask) h.(h_seqs)
    h.(h_id_btree_state) h.(h_view_array) h.(h_view_states) h.(h_has_replica) x
    h.(h_pending_transition) h.(h_unindexable_seqs) h.(h_part_versions).
Definition set_h_pending_transition (x : index_state_transition_t) (h : index_header_t) : index_header_t :=
  mk_header h.(h_version) h.(h_signature) h.(h_num_views) h.(h_num_partitions)
    h.(h_active_bitmask) h.(h_passive_bitmask) h.(h_cleanup_bitmask) h.(h_seqs)
    h.(h_id_btree_state) h.(h_view_array) h.(h_view_states) h.(h_has_replica)
    h.(h_replicas_on_transfer) x h.(h_unindexable_seqs) h.(h_part_versions).
Definition set_h_unindexable_seqs (x : option (sorted_list part_seq_t)) (h : index_header_t) : index_header_t :=
  mk_header h.(h_version) h.(h_signature) h.(h_num_views) h.(h_num_partitions)
    h.(h_active_bitmask) h.(h_passive_bitmask) h.(h_cleanup_bitmask) h.(h_seqs)
    h.(h_id_btree_state) h.(h_view_array) h.(h_view_states) h.(h_has_replica)
    h.(h_replicas_on_transfer) h.(h_pending_transition) x h.(h_part_versions).
Definition set_h_part_versions (x : lptr part_version_t) (h : index_header_t) : index_header_t :=
  mk_header h.(h_version) h.(h_signature) h.(h_num_views) h.(h_num_partitions)
    h.(h_active_bitmask) h.(h_passive_bitmask) h.(h_cleanup_bitmask) h.(h_seqs)
    h.(h_id_btree_state) h.(h_view_array) h.(h_view_states) h.(h_has_replica)
    h.(h_replicas_on_transfer) h.(h_pending_transition) h.(h_unindexable_seqs) x.

(** Comparison functions: the part ids are [uint16_t]s, so that the difference fits. *)
Definition part_seq_cmp (a b : part_seq_t) : Z := a.(ps_part_id) - b.(ps_part_id).
Definition part_id_cmp (a b : Z) : Z := a - b.
Definition part_versions_cmp (a b : part_version_t) : Z := a.(pv_part_id) - b.(pv_part_id).

Section model.
Context `{Alloc} `{Snappy}.

(** ** Freeing *)

Definition np_ptr (n : option node_pointer) : ptr :=
  match n with Some n => n.(np_block) | None => Null end.

(** The loop over the first [n] views, from index [i]. *)
Fixpoint free_views (n : nat) (i : Z) (views : list (option node_pointer)) : M mem unit :=
  match n with
  | O => mret tt
  | S n' => v ← of_option (zlookup views i); free (np_ptr v);; free_views n' (i + 1) views
  end.

(** A loop over the elements of a list: the iterator ends after the last one. *)
Fixpoint iterate {S A B} (f : A -> M S B) (fuel : nat) (it : sorted_list_iterator_t A) : M S (list B) :=
  match fuel with
  | O => crash
  | Datatypes.S n =>
      match sorted_list_next it with
      | (None, _) => mret []
      | (Some x, it') => y ← f x; ys ← iterate f n it'; mret (y :: ys)
      end
  end.

(** The result of [sorted_list_iterator] is not tested before it is used. *)
Definition for_each {A B} (f : A -> M mem B) (l : sorted_list A) : M mem (list B) :=
  it ← sorted_list_iterator l;
  it ← of_option it;
  r ← iterate f (S (length l.(sl_nodes))) it;
  sorted_list_free_iterator it;;
  mret r.

(** [sorted_list_iterator] reads the head of the list without a test for [NULL]. *)
Definition free_part_versions (l : lptr part_version_t) : M mem unit :=
  match l with
  | LSome l => for_each (fun pver => free pver.(pv_block)) l;; sorted_list_free (Some l)
  | _ => crash
  end.

Definition free_index_header (header : option (ptr * index_header_t)) : M mem unit :=
  match header with
  | None => mret tt
  | Some (b, h) =>
      sorted_list_free h.(h_seqs);;
      free (np_ptr h.(h_id_btree_state));;
      (if decide (h.(h_view_array) = Null) then mret tt
       else free_views (Z.to_nat h.(h_num_views)) 0 h.(h_view_states);; free h.(h_view_array));;
      sorted_list_free h.(h_replicas_on_transfer);;
      sorted_list_free h.(h_pending_transition).(tr_active);;
      sorted_list_free h.(h_pending_transition).(tr_passive);;
      sorted_list_free h.(h_pending_transition).(tr_unindexable);;
      sorted_list_free h.(h_unindexable_seqs);;
      (if 2 <=? h.(h_version) then free_part_versions h.(h_part_versions) else mret tt);;
      free b
  end.

(** ** Decoding *)

(** The memory, the header that is filled, and the bytes from the cursor [b] on. *)
Record dstate := mk_ds { ds_mem : mem; ds_header : index_header_t; ds_bytes : list Z }.

(** A part of the decoder: the result [None] is the jump to [alloc_error]. *)
Definition P (A : Type) : Type := M dstate (option A).

#[global] Instance P_ret : MRet P := fun A a s => Some (Some a, s).
#[global] Instance P_bind : MBind P := fun A B f m s =>
  match m s with
  | None => None
  | Some (None, s') => Some (None, s')
  | Some (Some a, s') => f a s'
  end.

Definition alloc_error {A} : P A := fun s => Some (None, s).

Definition lift {A} (m : M mem A) : P A := fun s =>
  match m s.(ds_mem) with
  | None => None
  | Some (a, m') => Some (Some a, mk_ds m' s.(ds_header) s.(ds_bytes))
  end.

Definition set_header (f : index_header_t -> index_header_t) : P unit := fun s =>
  Some (Some tt, mk_ds s.(ds_mem) (f s.(ds_header)) s.(ds_bytes)).

(** The next [n] bytes; the cursor moves. *)
Definition next (n : nat) : P (list Z) := fun s =>
  if (n <=? length s.(ds_bytes))%nat
  then Some (Some (take n s.(ds_bytes)), mk_ds s.(ds_mem) s.(ds_header) (drop n s.(ds_bytes)))
  else None.

Definition next8 : P Z := b ← next 1; mret (be_val b).
Definition next16 : P Z := b ← next 2; mret (couchstore_decode_raw16 b).
Definition next48 : P Z := b ← next 6; mret (couchstore_decode_raw48p b).
Definition next64 : P Z := b ← next 8; mret (couchstore_decode_raw64 b).

(** A loop that reads [n] elements into a list of the header; [undo] is what is freed
    when the element cannot be added. *)
Fixpoint read_elements {A} (cmp : A -> A -> Z) (size : Z) (read : P A) (undo : A -> M mem unit)
    (put : sorted_list A -> index_header_t -> index_header_t) (n : nat) (l : sorted_list A) : P unit :=
  match n with
  | O => mret tt
  | S n' =>
      e ← read;
      r ← lift (sorted_list_add cmp l e size);
      if r.1 =? 0 then
        set_header (put r.2);;
        read_elements cmp size read undo put n' r.2
      else lift (undo e);; alloc_error
  end.

(** A list of the header: its number of elements, then the elements. *)
Definition read_list {A} (cmp : A -> A -> Z) (size : Z) (read : P A) (undo : A -> M mem unit)
    (put : sorted_list A -> index_header_t -> index_header_t)
    (null : index_header_t -> index_header_t) : P unit :=
  n ← next16;
  l ← lift sorted_list_create;
  match l with
  | None => set_header null;; alloc_error
  | Some l => set_header (put l);; read_elements cmp size read undo put (Z.to_nat n) l
  end.

Definition no_undo {A} (_ : A) : M mem unit := mret tt.

Definition read_part_seq : P part_seq_t := p ← next16; s ← next48; mret (mk_ps p s).

Definition read_seq_list (put : option (sorted_list part_seq_t) -> index_header_t -> index_header_t) : P unit :=
  read_list part_seq_cmp 16 read_part_seq no_undo (fun l => put (Some l)) (put None).

Definition read_id_list (put : option (sorted_list Z) -> index_header_t -> index_header_t) : P unit :=
  read_list part_id_cmp 2 next16 no_undo (fun l => put (Some l)) (put None).

(** The size of a root and the root: the cursor advances by the size. *)
Definition read_state : P (option node_pointer) :=
  sz ← next16;
  bytes ← (fun s => Some (Some s.(ds_bytes), s));
  r ← lift (read_root bytes sz);
  _ ← next (Z.to_nat sz);
  mret r.

Fixpoint read_views (n : nat) : P unit :=
  match n with
  | O => mret tt
  | S n' =>
      r ← read_state;
      set_header (fun h => set_h_view_states (h.(h_view_states) ++ [r]) h);;
      read_views n'
  end.

Fixpoint read_log (n : nat) : P (list failover_log_t) :=
  match n with
  | O => mret []
  | S n' => uuid ← next 8; seq ← next64; r ← read_log n'; mret (mk_fl uuid seq :: r)
  end.

Definition read_part_version : P part_version_t :=
  p ← next16;
  n ← next16;
  b ← lift (malloc (16 * n));
  if decide (b = Null) then alloc_error else
  log ← read_log (Z.to_nat n);
  mret (mk_pv p n b log).

Definition set_tr (f : index_state_transition_t -> index_state_transition_t) (h : index_header_t) :=
  set_h_pending_transition (f h.(h_pending_transition)) h.

(** The body of [decode_index_header] between the allocation of the header and the
    end. *)
Definition decode_body : P unit :=
  version ← next8;
  set_header (set_h_version version);;
  num_partitions ← next16;
  set_header (set_h_num_partitions num_partitions);;
  active ← next BITMASK_BYTE_SIZE;
  set_header (set_h_active_bitmask active);;
  passive ← next BITMASK_BYTE_SIZE;
  set_header (set_h_passive_bitmask passive);;
  cleanup ← next BITMASK_BYTE_SIZE;
  set_header (set_h_cleanup_bitmask cleanup);;
  read_seq_list set_h_seqs;;
  root ← read_state;
  set_header (set_h_id_btree_state root);;
  num_views ← next8;
  set_header (set_h_num_views num_views);;
  arr ← lift (malloc (8 * num_views));
  set_header (set_h_view_array arr);;
  (if decide (arr = Null) then alloc_error else
  read_views (Z.to_nat num_views);;
  r ← next8;
  set_header (set_h_has_replica (if r =? 0 then 0 else 1));;
  read_id_list set_h_replicas_on_transfer;;
  read_id_list (fun l => set_tr (fun t => mk_trans l t.(tr_passive) t.(tr_unindexable)));;
  read_id_list (fun l => set_tr (fun t => mk_trans t.(tr_active) l t.(tr_unindexable)));;
  read_id_list (fun l => set_tr (fun t => mk_trans t.(tr_active) t.(tr_passive) l));;
  read_seq_list set_h_unindexable_seqs;;
  if 2 <=? version then
    read_list part_versions_cmp 16 read_part_version (fun pver => free pver.(pv_block))
      (fun l => set_h_part_versions (LSome l)) (set_h_part_versions LNull)
  else mret tt).

(** The header after its allocation: [num_views] and the scalar fields are written
    before they are read. *)
Definition new_header (signature : list Z) : index_header_t :=
  mk_header 0 signature 0 0 [] [] [] None None Null [] 0 None (mk_trans None None None) None LUninit.

Definition decode_index_header (bytes : list Z)
    : M mem (couchstore_error_t * option (ptr * index_header_t)) :=
  if len bytes <=? 16 then mret (COUCHSTORE_ERROR_CORRUPT, None) else
  let data := drop 16 bytes in
  match snappy_uncompressed_length data (len bytes) with
  | None => mret (COUCHSTORE_ERROR_CORRUPT, None)
  | Some uncompLen =>
      uncomp ← malloc uncompLen;
      if decide (uncomp = Null) then mret (COUCHSTORE_ERROR_ALLOC_FAIL, None) else
      match snappy_uncompress data uncompLen with
      | None => free uncomp;; mret (COUCHSTORE_ERROR_ALLOC_FAIL, None)
      | Some b =>
          hb ← malloc 488;
          if decide (hb = Null) then free uncomp;; mret (COUCHSTORE_ERROR_ALLOC_FAIL, None) else
          r ← (fun m => match decode_body (mk_ds m (new_header (take 16 bytes)) b) with
                        | Some (r, s) => Some ((r, s.(ds_header)), s.(ds_mem))
                        | None => None
                        end);
          match r with
          | (Some _, h) => free uncomp;; mret (COUCHSTORE_SUCCESS, Some (hb, h))
          | (None, h) => free_index_header (Some (hb, h));; free uncomp;;
                         mret (COUCHSTORE_ERROR_ALLOC_FAIL, None)
          end
      end
  end.

(** ** Encoding *)

(** The memory, the buffer and the offset of the cursor [b]. *)
Record estate := mk_es { es_mem : mem; es_buf : list Z; es_off : nat }.

Definition lift_e {A} (m : M mem A) : M estate A := fun s =>
  match m s.(es_mem) with
  | None => None
  | Some (a, m') => Some (a, mk_es m' s.(es_buf) s.(es_off))
  end.

(** Bytes written at the cursor, which stays; a write past the buffer ends the
    process. *)
Definition poke (bs : list Z) : M estate unit := fun s =>
  if (s.(es_off) + length bs <=? length s.(es_buf))%nat
  then Some (tt, mk_es s.(es_mem)
         (take s.(es_off) s.(es_buf) ++ bs ++ drop (s.(es_off) + length bs) s.(es_buf)) s.(es_off))
  else None.

Definition advance (n : nat) : M estate unit := modify (fun s => mk_es s.(es_mem) s.(es_buf) (s.(es_off) + n)).

Definition emit (bs : list Z) : M estate unit := poke bs;; advance (length bs).

(** [enc_uint48] and [enc_uint64]; [enc_uint16] is that of the codecs. *)
Definition enc_uint48 (u : Z) : list Z := couchstore_encode_raw48 u.
Definition enc_uint64 (u : Z) : list Z := couchstore_encode_raw64 u.

(** The loops that write the elements of a list after their number. *)
Definition enc_list {A} (f : A -> M estate unit) (l : option (sorted_list A)) : M estate unit :=
  l ← of_option l;
  it ← lift_e (sorted_list_iterator l);
  emit (enc_uint16 (u16 (sorted_list_size l)));;
  it ← of_option it;
  iterate f (S (length l.(sl_nodes))) it;;
  lift_e (sorted_list_free_iterator it).

Definition enc_seq_list (l : option (sorted_list Z)) : M estate unit :=
  enc_list (fun seq => emit (enc_uint16 seq)) l.

Definition enc_part_seq_list (l : option (sorted_list part_seq_t)) : M estate unit :=
  enc_list (fun p => emit (enc_uint16 p.(ps_part_id));; emit (enc_uint48 p.(ps_seq))) l.

Fixpoint enc_log (n : nat) (i : Z) (log : list failover_log_t) : M estate unit :=
  match n with
  | O => mret tt
  | S n' =>
      f ← of_option (zlookup log i);
      emit f.(fl_uuid);;
      emit (enc_uint64 f.(fl_seq));;
      enc_log n' (i + 1) log
  end.

Definition enc_part_versions_list (l : lptr part_version_t) : M estate unit :=
  enc_list (fun p => emit (enc_uint16 p.(pv_part_id));; emit (enc_uint16 p.(pv_num_failover_log));;
                     enc_log (Z.to_nat p.(pv_num_failover_log)) 0 p.(pv_failover_log))
    (match l with LSome l => Some l | _ => None end).

Definition size_of_partition_versions (l : lptr part_version_t) : M mem Z :=
  match l with
  | LSome l => r ← for_each (fun p => mret (2 + 2 + p.(pv_num_failover_log) * 16)) l;
               mret (2 + foldr Z.add 0 r)
  | _ => crash
  end.

Definition root_size (r : option node_pointer) : Z :=
  match r with Some n => sizeof_raw_btree_root + len n.(np_reduce_value) | None => 0 end.

Fixpoint views_size (n : nat) (i : Z) (views : list (option node_pointer)) : M mem Z :=
  match n with
  | O => mret 0
  | S n' => v ← of_option (zlookup views i); r ← views_size n' (i + 1) views;
            mret (2 + root_size v + r)
  end.

(** [sorted_list_size(l) * w], a product of [int]s. *)
Definition list_size {A} (l : option (sorted_list A)) (w : Z) : M mem Z :=
  l ← of_option l; mret (swrap 32 (sorted_list_size l * w)).

Definition header_size (h : index_header_t) : M mem Z :=
  seqs ← list_size h.(h_seqs) (2 + 6);
  views ← views_size (Z.to_nat h.(h_num_views)) 0 h.(h_view_states);
  replicas ← list_size h.(h_replicas_on_transfer) 2;
  active ← list_size h.(h_pending_transition).(tr_active) 2;
  passive ← list_size h.(h_pending_transition).(tr_passive) 2;
  unindexable ← list_size h.(h_pending_transition).(tr_unindexable) 2;
  unindexable_seqs ← list_size h.(h_unindexable_seqs) (2 + 6);
  versions ← (if 2 <=? h.(h_version) then size_of_partition_versions h.(h_part_versions) else mret 0);
  mret (u64 (1 + 2 + 3 * Z.of_nat BITMASK_BYTE_SIZE + 2 + seqs + 2 + root_size h.(h_id_btree_state)
             + 1 + views + 1 + 2 + replicas + 2 + active + 2 + passive + 2 + unindexable
             + 2 + unindexable_seqs + versions)).

(** The size of a root in 16 bits, and the root; the cursor advances by the size. *)
Definition enc_state (r : option node_pointer) : M estate unit :=
  let size := match r with Some n => u16 (sizeof_raw_btree_root + u16 (len n.(np_reduce_value)))
              | None => 0 end in
  emit (enc_uint16 size);;
  poke (encode_root r);;
  advance (Z.to_nat size).

Fixpoint enc_views (n : nat) (i : Z) (views : list (option node_pointer)) : M estate unit :=
  match n with
  | O => mret tt
  | S n' => v ← of_option (zlookup views i); enc_state v;; enc_views n' (i + 1) views
  end.

(** The body of [encode_index_header] from the allocation of the buffer to the
    compression. *)
Definition encode_body (h : index_header_t) : M estate unit :=
  emit [u8 h.(h_version)];;
  emit (enc_uint16 h.(h_num_partitions));;
  emit h.(h_active_bitmask);;
  emit h.(h_passive_bitmask);;
  emit h.(h_cleanup_bitmask);;
  enc_part_seq_list h.(h_seqs);;
  enc_state h.(h_id_btree_state);;
  emit [u8 h.(h_num_views)];;
  enc_views (Z.to_nat h.(h_num_views)) 0 h.(h_view_states);;
  emit [if h.(h_has_replica) =? 0 then 0 else 1];;
  enc_seq_list h.(h_replicas_on_transfer);;
  enc_seq_list h.(h_pending_transition).(tr_active);;
  enc_seq_list h.(h_pending_transition).(tr_passive);;
  enc_seq_list h.(h_pending_transition).(tr_unindexable);;
  enc_part_seq_list h.(h_unindexable_seqs);;
  if 2 <=? h.(h_version) then enc_part_versions_list h.(h_part_versions) else mret tt.

(** [garbage] is what the buffer holds when it is allocated. *)
Definition encode_index_header (garbage : nat -> Z) (h : index_header_t)
    : M mem (couchstore_error_t * option (ptr * list Z)) :=
  sz ← header_size h;
  buf ← malloc sz;
  if decide (buf = Null) then free buf;; mret (COUCHSTORE_ERROR_ALLOC_FAIL, None) else
  bytes ← (fun m => match encode_body h (mk_es m (garbage <$> seq 0 (Z.to_nat sz)) 0) with
                    | Some (_, s) => Some (s.(es_buf), s.(es_mem))
                    | None => None
                    end);
  comp ← malloc (16 + snappy_max_compressed_length sz);
  if decide (comp = Null) then free buf;; mret (COUCHSTORE_ERROR_ALLOC_FAIL, None) else
  match snappy_compress bytes with
  | None => free comp;; free buf;; mret (COUCHSTORE_ERROR_ALLOC_FAIL, None)
  | Some c => free buf;; mret (COUCHSTORE_SUCCESS, Some (comp, h.(h_signature) ++ c))
  end.
End model.

(** * The bytes of a header *)

Definition list_bytes {A} (f : A -> list Z) (l : list A) : list Z :=
  enc_uint16 (Z.of_nat (length l)) ++ mjoin (f <$> l).

Definition part_seq_bytes (p : part_seq_t) : list Z := enc_uint16 p.(ps_part_id) ++ enc_uint48 p.(ps_seq).

Definition log_bytes (f : failover_log_t) : list Z := f.(fl_uuid) ++ enc_uint64 f.(fl_seq).

Definition part_version_bytes (p : part_version_t) : list Z :=
  enc_uint16 p.(pv_part_id) ++ list_bytes log_bytes p.(pv_failover_log).

Definition state_bytes (r : option node_pointer) : list Z := enc_uint16 (root_size r) ++ encode_root r.

Definition elems {A} (l : option (sorted_list A)) : list A :=
  match l with Some l => elements l.(sl_nodes) | None => [] end.

Definition versions (h : index_header_t) : list part_version_t :=
  match h.(h_part_versions) with LSome l => elements l.(sl_nodes) | _ => [] end.

Definition header_bytes (h : index_header_t) : list Z :=
  [h.(h_version)] ++ enc_uint16 h.(h_num_partitions) ++ h.(h_active_bitmask) ++ h.(h_passive_bitmask)
  ++ h.(h_cleanup_bitmask) ++ list_bytes part_seq_bytes (elems h.(h_seqs)) ++ state_bytes h.(h_id_btree_state)
  ++ [h.(h_num_views)] ++ mjoin (state_bytes <$> h.(h_view_states))
  ++ [if h.(h_has_replica) =? 0 then 0 else 1]
  ++ list_bytes enc_uint16 (elems h.(h_replicas_on_transfer))
  ++ list_bytes enc_uint16 (elems h.(h_pending_transition).(tr_active))
  ++ list_bytes enc_uint16 (elems h.(h_pending_transition).(tr_passive))
  ++ list_bytes enc_uint16 (elems h.(h_pending_transition).(tr_unindexable))
  ++ list_bytes part_seq_bytes (elems h.(h_unindexable_seqs))
  ++ (if 2 <=? h.(h_version) then list_bytes part_version_bytes (versions h) else []).

(** ** Headers that can be encoded *)

Definition list_valid {A} (cmp : A -> A -> Z) (ok : A -> Prop) (l : sorted_list A) : Prop :=
  sorted cmp l.(sl_nodes) /\ l.(sl_length) = Z.of_nat (length l.(sl_nodes)) /\
  l.(sl_length) < 2 ^ 16 /\ Forall ok (elements l.(sl_nodes)).

Definition some_valid {A} (cmp : A -> A -> Z) (ok : A -> Prop) (l : option (sorted_list A)) : Prop :=
  match l with Some l => list_valid cmp ok l | None => False end.

Definition id_ok (z : Z) : Prop := 0 <= z < 2 ^ 16.
Definition part_seq_ok (p : part_seq_t) : Prop := id_ok p.(ps_part_id) /\ 0 <= p.(ps_seq) < 2 ^ 48.
Definition log_ok (f : failover_log_t) : Prop := length f.(fl_uuid) = 8%nat /\ 0 <= f.(fl_seq) < 2 ^ 64.
Definition part_version_ok (p : part_version_t) : Prop :=
  id_ok p.(pv_part_id) /\ p.(pv_num_failover_log) = Z.of_nat (length p.(pv_failover_log)) /\
  Z.of_nat (length p.(pv_failover_log)) < 2 ^ 16 /\ Forall log_ok p.(pv_failover_log).
Definition state_ok (r : option node_pointer) : Prop := match r with Some n => root_ok n | None => True end.

Record header_ok (h : index_header_t) : Prop := {
  ho_version : 0 <= h.(h_version) < 256;
  ho_signature : length h.(h_signature) = 16%nat;
  ho_partitions : id_ok h.(h_num_partitions);
  ho_active : length h.(h_active_bitmask) = BITMASK_BYTE_SIZE;
  ho_passive : length h.(h_passive_bitmask) = BITMASK_BYTE_SIZE;
  ho_cleanup : length h.(h_cleanup_bitmask) = BITMASK_BYTE_SIZE;
  ho_seqs : some_valid part_seq_cmp part_seq_ok h.(h_seqs);
  ho_id_root : state_ok h.(h_id_btree_state);
  ho_num_views : h.(h_num_views) = Z.of_nat (length h.(h_view_states));
  ho_views_small : h.(h_num_views) < 256;
  ho_views : Forall state_ok h.(h_view_states);
  ho_replicas : some_valid part_id_cmp id_ok h.(h_replicas_on_transfer);
  ho_tr_active : some_valid part_id_cmp id_ok h.(h_pending_transition).(tr_active);
  ho_tr_passive : some_valid part_id_cmp id_ok h.(h_pending_transition).(tr_passive);
  ho_tr_unindexable : some_valid part_id_cmp id_ok h.(h_pending_transition).(tr_unindexable);
  ho_unindexable : some_valid part_seq_cmp part_seq_ok h.(h_unindexable_seqs);
  ho_versions : 2 <= h.(h_version) ->
    match h.(h_part_versions) with LSome l => list_valid part_versions_cmp part_version_ok l | _ => False end;
  ho_size : len (header_bytes h) < 2 ^ 32
}.

Section encoding.
Context `{Alloc} (Hall : forall n sz, malloc_ok n sz = true).

(** [w] was written before the cursor, and there is room for [room] bytes. *)
Definition at_cursor (s : estate) (w : list Z) (room : nat) : Prop :=
  s.(es_off) = length w /\ exists junk, s.(es_buf) = w ++ junk /\ length junk = room.

(** [m] writes [bs] and leaves the memory as it was. *)
Definition emits {A} (m : M estate A) (bs : list Z) : Prop :=
  forall s w room (Q : A -> estate -> Prop), mem_ok s.(es_mem) -> at_cursor s w (length bs + room) ->
    (forall a s', balanced s.(es_mem) s'.(es_mem) -> at_cursor s' (w ++ bs) room -> Q a s') -> runs m s Q.

Lemma emits_ret {A} (a : A) : emits (mret a) [].
Proof.
  intros s w room Q Hs Hc HQ. run. apply HQ; [by apply balanced_refl|]. by rewrite app_nil_r.
Qed.

Lemma balanced_trans s1 s2 s3 : balanced s1 s2 -> balanced s2 s3 -> balanced s1 s3.
Proof. intros [_ H1] [H2 H3]. split; [done|congruence]. Qed.

Lemma emits_bind {A B} (m : M estate A) (f : A -> M estate B) b1 b2 :
  emits m b1 -> (forall a, emits (f a) b2) -> emits (mbind f m) (b1 ++ b2).
Proof.
  intros H1 H2 s w room Q Hs Hc HQ. run. rewrite length_app, <- Nat.add_assoc in Hc.
  apply (H1 s w _ _ Hs Hc). intros a s1 Hb1 Hc1. apply (H2 a s1 _ _ _ (proj1 Hb1) Hc1).
  intros b s2 Hb2 Hc2. apply HQ; [by eapply balanced_trans|]. by rewrite app_assoc.
Qed.

Lemma emits_emit bs : emits (emit bs) bs.
Proof.
  intros s w room Q Hs [Ho (junk & Hb & Hl)] HQ. unfold emit. run. unfold poke. eexists tt, _. split.
  { rewrite (proj2 (Nat.leb_le _ _)); [reflexivity|]. rewrite Hb, Ho, length_app. lia. }
  unfold advance. run. apply HQ; [by apply balanced_refl|]. split; simpl; [rewrite length_app; lia|].
  exists (drop (length bs) junk). rewrite length_drop. split; [|lia].
  rewrite Ho, Hb, take_app_length, <- app_assoc. do 2 f_equal.
  rewrite <- drop_drop, drop_app_length. done.
Qed.

Lemma emits_option {A B} (o : option A) a (f : A -> M estate B) bs :
  o = Some a -> emits (f a) bs -> emits (mbind f (of_option o)) bs.
Proof. intros -> Hf s w room Q Hs Hc HQ. apply runs_bind. exists a, s. split; [done|]. by apply (Hf s w room). Qed.

Lemma emits_iterate {A} (f : A -> M estate unit) (g : A -> list Z) b nodes fuel :
  (forall x, x ∈ elements nodes -> emits (f x) (g x)) -> (length nodes < fuel)%nat ->
  emits (iterate f fuel (mk_iterator b nodes)) (mjoin (g <$> elements nodes)).
Proof.
  revert fuel. induction nodes as [|x nodes IH]; intros [|fuel] Hf Hl; simpl in Hl; try lia; cbn [iterate].
  - simpl. apply emits_ret.
  - simpl. apply emits_bind; [apply Hf; left|]. intros u. rewrite <- (app_nil_r (mjoin _)).
    apply emits_bind; [|intros; apply emits_ret]. apply IH; [|lia]. intros y Hy. apply Hf. by right.
Qed.

Lemma lift_e_run {A} (m : M mem A) s (Q : A -> estate -> Prop) :
  runs m s.(es_mem) (fun a m' => Q a (mk_es m' s.(es_buf) s.(es_off))) -> runs (lift_e m) s Q.
Proof. intros (a & m' & Hm & HQ). eexists a, _. unfold lift_e. by rewrite Hm. Qed.

Lemma emits_enc_list {A} (f : A -> M estate unit) (g : A -> list Z) cmp ok l :
  some_valid cmp ok l -> (forall x, ok x -> emits (f x) (g x)) -> emits (enc_list f l) (list_bytes g (elems l)).
Proof.
  intros Hv Hf. destruct l as [l|]; [|done]. destruct Hv as (_ & Hlen & Hsm & Hok).
  unfold enc_list. eapply emits_option; [done|]. intros s w room Q Hs Hc HQ. run.
  unfold sorted_list_iterator. apply lift_e_run. run. apply malloc_all; [done|done|].
  intros n m1 Hg. rewrite decide_False by done. run. set (s1 := mk_es m1 _ _).
  unfold list_bytes in *. simpl elems in *. rewrite length_app, <- Nat.add_assoc in Hc.
  unfold elements at 1 in HQ. unfold elements at 1 in Hc. rewrite length_fmap, <- Hlen in *.
  unfold sorted_list_size. rewrite u16_small by lia.
  apply (emits_emit _ s1 _ _ _ (proj1 Hg) Hc). intros u s2 Hb2 Hc2. run; [done|].
  assert (Hit := emits_iterate f g (Block n) l.(sl_nodes) (S (length l.(sl_nodes)))).
  refine (Hit _ _ s2 _ room _ (proj1 Hb2) Hc2 _); [|lia|].
  - intros x Hx. apply Hf. rewrite Forall_forall in Hok. by apply Hok.
  - intros u' s3 Hb3 Hc3. apply lift_e_run. unfold sorted_list_free_iterator. simpl si_block.
    eapply (free_block_run n []).
    { eapply grown_balanced; [eapply grown_balanced; [exact Hg|exact Hb2]|exact Hb3]. }
    intros m4 Hg4. apply HQ; [by apply grown_nil|]. by rewrite app_assoc.
Qed.

Lemma emits_part_seq p : emits (emit (enc_uint16 p.(ps_part_id));; emit (enc_uint48 p.(ps_seq))) (part_seq_bytes p).
Proof. apply emits_bind; [apply emits_emit|intros; apply emits_emit]. Qed.

Lemma emits_log log : forall pre n,
  n = length log -> emits (enc_log n (Z.of_nat (length pre)) (pre ++ log)) (mjoin (log_bytes <$> log)).
Proof.
  induction log as [|f log IH]; intros pre n ->; cbn [enc_log length]; [apply emits_ret|].
  apply (emits_option _ f).
  { apply zlookup_Some. split; [lia|]. by rewrite Nat2Z.id, list_lookup_middle. }
  simpl. unfold log_bytes at 1. rewrite <- app_assoc.
  apply emits_bind; [apply emits_emit|]. intros _. apply emits_bind; [apply emits_emit|]. intros _.
  specialize (IH (pre ++ [f]) _ eq_refl). rewrite <- app_assoc, length_app in IH. simpl in IH.
  by replace (Z.of_nat (length pre) + 1) with (Z.of_nat (length pre + 1)) by lia.
Qed.

Lemma emits_part_version p : part_version_ok p ->
  emits (emit (enc_uint16 p.(pv_part_id));; emit (enc_uint16 p.(pv_num_failover_log));;
         enc_log (Z.to_nat p.(pv_num_failover_log)) 0 p.(pv_failover_log)) (part_version_bytes p).
Proof.
  intros (_ & Hn & _). rewrite Hn, Nat2Z.id. apply emits_bind; [apply emits_emit|]. intros _.
  apply emits_bind; [apply emits_emit|]. intros _. by apply (emits_log _ []).
Qed.

Lemma emits_state r : state_ok r -> emits (enc_state r) (state_bytes r).
Proof.
  intros Hr. unfold enc_state, state_bytes. destruct r as [n|]; [|rewrite <- (app_nil_r (enc_uint16 _))].
  - destruct Hr as (_ & _ & Hr). unfold len in Hr. simpl root_size.
    unfold sizeof_raw_btree_root, len. rewrite (u16_small (Z.of_nat _)), u16_small by lia.
    apply emits_bind; [apply emits_emit|]. intros _.
    replace (Z.to_nat _) with (length (encode_root (Some n))) by (rewrite encode_root_length; lia).
    apply emits_emit.
  - apply emits_bind; [apply emits_emit|]. intros _. apply (emits_emit []).
Qed.

Lemma emits_views views : forall pre n,
  Forall state_ok views -> n = length views ->
  emits (enc_views n (Z.of_nat (length pre)) (pre ++ views)) (mjoin (state_bytes <$> views)).
Proof.
  induction views as [|v views IH]; intros pre n Hv ->; cbn [enc_views length]; [apply emits_ret|].
  apply Forall_cons in Hv as [Hv Hvs]. apply (emits_option _ v).
  { apply zlookup_Some. split; [lia|]. by rewrite Nat2Z.id, list_lookup_middle. }
  change (mjoin _) with (state_bytes v ++ mjoin (state_bytes <$> views)).
  apply emits_bind; [by apply emits_state|]. intros _.
  specialize (IH (pre ++ [v]) _ Hvs eq_refl). rewrite <- app_assoc, length_app in IH. simpl in IH.
  by replace (Z.of_nat (length pre) + 1) with (Z.of_nat (length pre + 1)) by lia.
Qed.

Lemma u8_id z : 0 <= z < 256 -> u8 z = z.
Proof. apply (wrap_small 8). Qed.

Lemma encode_body_emits h : header_ok h -> emits (encode_body h) (header_bytes h).
Proof.
  intros []. unfold encode_body, header_bytes. rewrite !u8_id by lia.
  assert (Hid : forall x, id_ok x -> emits (emit (enc_uint16 x)) (enc_uint16 x)) by (intros; apply emits_emit).
  assert (Hps : forall p, part_seq_ok p -> emits (emit (enc_uint16 p.(ps_part_id));; emit (enc_uint48 p.(ps_seq)))
    (part_seq_bytes p)) by (intros; apply emits_part_seq).
  repeat (apply emits_bind;
    [first [apply emits_emit|by apply emits_state|by eapply emits_enc_list
           |rewrite ho_num_views0, Nat2Z.id; by apply (emits_views _ [])]|intros _]).
  destruct (Z.leb_spec 2 h.(h_version)) as [Hv|]; [|apply emits_ret].
  specialize (ho_versions0 Hv). unfold enc_part_versions_list, versions.
  destruct h.(h_part_versions) as [| |l]; [done..|].
  apply (emits_enc_list _ _ part_versions_cmp part_version_ok (Some l)); [done|]. intros; by apply emits_part_version.
Qed.

(** ** The size of the buffer *)

Lemma list_size_run {A} cmp ok (l : option (sorted_list A)) w s (Q : Z -> mem -> Prop) :
  some_valid cmp ok l -> 0 <= w <= 8 -> Q (Z.of_nat (length (elems l)) * w) s -> runs (list_size l w) s Q.
Proof.
  intros Hv Hw HQ. destruct l as [l|]; [|done]. destruct Hv as (_ & Hl & Hsm & _). unfold list_size.
  simpl in HQ. unfold elements in HQ. rewrite length_fmap, <- Hl in HQ.
  run; [done|]. unfold sorted_list_size. rewrite swrap_small by nia. exact HQ.
Qed.

Lemma state_bytes_length r : state_ok r -> Z.of_nat (length (state_bytes r)) = 2 + root_size r.
Proof.
  intros Hr. unfold state_bytes. rewrite length_app, enc16_length. destruct r as [n|]; [|done].
  rewrite encode_root_length. simpl root_size. unfold sizeof_raw_btree_root, len. lia.
Qed.

Lemma views_size_run views : forall pre n s (Q : Z -> mem -> Prop),
  Forall state_ok views -> n = length views ->
  Q (Z.of_nat (length (mjoin (state_bytes <$> views)))) s ->
  runs (views_size n (Z.of_nat (length pre)) (pre ++ views)) s Q.
Proof.
  induction views as [|v views IH]; intros pre n s Q Hv -> HQ; cbn [views_size length].
  - run. exact HQ.
  - apply Forall_cons in Hv as [Hv Hvs]. run.
    { apply zlookup_Some. split; [lia|]. by rewrite Nat2Z.id, list_lookup_middle. }
    replace (Z.of_nat (length pre) + 1) with (Z.of_nat (length (pre ++ [v]))) by (rewrite length_app; simpl; lia).
    replace (pre ++ v :: views) with ((pre ++ [v]) ++ views) by (by rewrite <- app_assoc).
    apply IH; [done|done|]. run.
    change (mjoin _) with (state_bytes v ++ mjoin (state_bytes <$> views)) in HQ.
    by rewrite length_app, Nat2Z.inj_add, state_bytes_length in HQ by done.
Qed.

Lemma list_bytes_length {A} (g : A -> list Z) (w : nat) (l : list A) :
  Forall (fun x => length (g x) = w) l -> length (list_bytes g l) = (2 + length l * w)%nat.
Proof.
  intros Hl. unfold list_bytes. rewrite length_app, enc16_length. f_equal.
  induction Hl as [|x l Hx _ IH]; [done|].
  change (mjoin (g <$> x :: l)) with (g x ++ mjoin (g <$> l)). rewrite length_app, IH, Hx. done.
Qed.

Lemma part_seq_length p : length (part_seq_bytes p) = 8%nat.
Proof.
  unfold part_seq_bytes, enc_uint48, couchstore_encode_raw48. rewrite length_app, enc16_length.
  by rewrite ENCODE_RAW_bytes, be_bytes_length by lia.
Qed.

Lemma log_length f : log_ok f -> length (log_bytes f) = 16%nat.
Proof.
  intros [Hu _]. unfold log_bytes, enc_uint64, couchstore_encode_raw64.
  by rewrite length_app, Hu, ENCODE_RAW_bytes, be_bytes_length by lia.
Qed.

Lemma part_version_length p : part_version_ok p ->
  Z.of_nat (length (part_version_bytes p)) = 2 + 2 + p.(pv_num_failover_log) * 16.
Proof.
  intros (_ & Hn & _ & Hl). unfold part_version_bytes. rewrite length_app, enc16_length.
  rewrite (list_bytes_length _ 16); [lia|]. eapply Forall_impl; [exact Hl|]. apply log_length.
Qed.

(** A loop of pure functions. *)
Lemma iterate_pure {A B} (f : A -> B) b nodes : forall fuel s (Q : list B -> mem -> Prop),
  (length nodes < fuel)%nat -> Q (f <$> elements nodes) s ->
  runs (iterate (fun x => mret (f x)) fuel (mk_iterator b nodes)) s Q.
Proof.
  induction nodes as [|x nodes IH]; intros [|fuel] s Q Hl HQ; simpl in Hl; try lia; cbn [iterate].
  - simpl. run. exact HQ.
  - simpl. run. apply IH; [lia|]. run. exact HQ.
Qed.

Lemma sum_lengths {A} (f : A -> Z) (g : A -> list Z) (l : list A) :
  Forall (fun x => Z.of_nat (length (g x)) = f x) l ->
  foldr Z.add 0 (f <$> l) = Z.of_nat (length (mjoin (g <$> l))).
Proof.
  induction 1 as [|x l Hx _ IH]; [done|].
  change (mjoin (g <$> x :: l)) with (g x ++ mjoin (g <$> l)). rewrite length_app, Nat2Z.inj_add, <- IH, Hx. done.
Qed.

Lemma versions_size_run l s (Q : Z -> mem -> Prop) :
  list_valid part_versions_cmp part_version_ok l -> mem_ok s ->
  (forall s', balanced s s' -> Q (Z.of_nat (length (list_bytes part_version_bytes (elements l.(sl_nodes))))) s') ->
  runs (size_of_partition_versions (LSome l)) s Q.
Proof.
  intros (_ & _ & _ & Hok) Hs HQ. unfold size_of_partition_versions, for_each, sorted_list_iterator.
  run. apply malloc_all; [done|done|]. intros n s1 Hg. rewrite decide_False by done. run; [done|].
  apply iterate_pure; [lia|]. run. unfold sorted_list_free_iterator. simpl si_block.
  eapply (free_block_run n []); [done|]. intros s2 Hg2. run.
  rewrite (sum_lengths _ part_version_bytes).
  - specialize (HQ s2 (grown_nil _ _ Hg2)). unfold list_bytes in HQ.
    rewrite length_app, enc16_length, Nat2Z.inj_add in HQ. exact HQ.
  - eapply Forall_impl; [exact Hok|]. intros p Hp. by apply part_version_length.
Qed.

Lemma header_size_run h s (Q : Z -> mem -> Prop) :
  header_ok h -> mem_ok s -> (forall s', balanced s s' -> Q (len (header_bytes h)) s') ->
  runs (header_size h) s Q.
Proof.
  intros [] Hs HQ. unfold header_size. run.
  eapply list_size_run; [eassumption|lia|]. run. rewrite ho_num_views0, Nat2Z.id.
  apply (views_size_run h.(h_view_states) []); [done|done|]. run.
  do 5 (eapply list_size_run; [eassumption|lia|]; run).
  apply (runs_mono _ _ (fun v s' => balanced s s' /\
    v = Z.of_nat (length (if 2 <=? h.(h_version) then list_bytes part_version_bytes (versions h) else [])))).
  { destruct (Z.leb_spec 2 h.(h_version)) as [Hv|]; [|run; split; [by apply balanced_refl|done]].
    specialize (ho_versions0 Hv). unfold versions. destruct h.(h_part_versions) as [| |l]; [done..|].
    by apply versions_size_run. }
  intros v s' [Hb ->]. run.
  assert (Hlen : forall x : Z, x = len (header_bytes h) -> Q (u64 x) s').
  { intros x ->. rewrite u64_small; [by apply HQ|]. unfold len in *. lia. }
  apply Hlen. unfold len, header_bytes. rewrite !length_app.
  rewrite !(list_bytes_length enc_uint16 2) by (apply Forall_true; intros; apply enc16_length).
  rewrite !(list_bytes_length part_seq_bytes 8) by (apply Forall_true; intros; apply part_seq_length).
  rewrite enc16_length, ho_active0, ho_passive0, ho_cleanup0. cbn [length].
  rewrite !Nat2Z.inj_add. rewrite (state_bytes_length (h_id_btree_state h)) by done. lia.
Qed.
End encoding.
