(* ===== verification/IndexDecode.v ===== *)
(** * Decoding and freeing index headers

    The theorems on [index_header.c]: a header that is encoded and decoded is the same,
    and freeing it gives back all the memory of the decoder. *)
From Stdlib Require Import ZArith Lia.
From stdpp Require Import strings gmap prelude sorting.
From S2P Require Import Prelude Bitfield ViewCodec Snappy SortedList NodeTypes IndexHeader.

#[local] Set Warnings "-clear-no-such-hyp".

(** A part of the decoder that does not fail. *)
Definition runsP {A} (m : P A) (s : dstate) (Q : A -> dstate -> Prop) : Prop :=
  exists a s', m s = Some (Some a, s') /\ Q a s'.

Lemma runsP_ret {A} (a : A) s (Q : A -> dstate -> Prop) : Q a s -> runsP (mret a) s Q.
Proof. intros HQ. by exists a, s. Qed.

Lemma runsP_bind {A B} (m : P A) (f : A -> P B) s (Q : B -> dstate -> Prop) :
  runsP m s (fun a s' => runsP (f a) s' Q) -> runsP (mbind f m) s Q.
Proof.
  intros (a & s' & Hm & b & s'' & Hf & HQ). exists b, s''. unfold mbind, P_bind. rewrite Hm. by rewrite Hf.
Qed.

Lemma lift_runP {A} (m : M mem A) ms h bs (Q : A -> dstate -> Prop) :
  runs m ms (fun a m' => Q a (mk_ds m' h bs)) -> runsP (lift m) (mk_ds ms h bs) Q.
Proof. intros (a & m' & Hm & HQ). eexists a, _. unfold lift. simpl. by rewrite Hm. Qed.

Lemma set_header_runP f ms h bs (Q : unit -> dstate -> Prop) :
  Q tt (mk_ds ms (f h) bs) -> runsP (set_header f) (mk_ds ms h bs) Q.
Proof. intros HQ. by eexists tt, _. Qed.

Lemma next_runP n b rest ms h (Q : list Z -> dstate -> Prop) :
  length b = n -> Q b (mk_ds ms h rest) -> runsP (next n) (mk_ds ms h (b ++ rest)) Q.
Proof.
  intros Hn HQ. eexists b, _. unfold next. simpl. rewrite length_app.
  rewrite (proj2 (Nat.leb_le _ _)) by lia. by rewrite take_app_length', drop_app_length' by done.
Qed.

(** One step of the execution of a part of the decoder. *)
Ltac runP1 :=
  lazymatch goal with
  | |- runsP (mbind _ _) _ _ => apply runsP_bind
  | |- runsP (mret _) _ _ => apply runsP_ret
  | |- runsP (set_header _) _ _ => apply set_header_runP
  end.
Ltac runP := repeat (runP1; cbn beta).

Section decoding.
Context `{Alloc} (Hall : forall n sz, malloc_ok n sz = true).

Lemma next8_runP z rest ms h (Q : Z -> dstate -> Prop) :
  Q z (mk_ds ms h rest) -> runsP next8 (mk_ds ms h ([z] ++ rest)) Q.
Proof.
  intros HQ. unfold next8. runP. apply next_runP; [done|]. runP. unfold be_val. simpl. exact HQ.
Qed.

Lemma next16_runP z rest ms h (Q : Z -> dstate -> Prop) :
  id_ok z -> Q z (mk_ds ms h rest) -> runsP next16 (mk_ds ms h (enc_uint16 z ++ rest)) Q.
Proof.
  intros Hz HQ. unfold next16. runP. apply next_runP; [apply enc16_length|]. runP.
  pose proof (dec16_enc z [] ltac:(simpl; unfold id_ok in Hz; lia)) as Hd. unfold dec_uint16 in Hd.
  rewrite take_app_length' in Hd by (by rewrite enc16_length). by rewrite Hd.
Qed.

Lemma next48_runP z rest ms h (Q : Z -> dstate -> Prop) :
  0 <= z < 2 ^ 48 -> Q z (mk_ds ms h rest) -> runsP next48 (mk_ds ms h (enc_uint48 z ++ rest)) Q.
Proof.
  intros Hz HQ. unfold next48, enc_uint48. runP.
  assert (Hl : length (couchstore_encode_raw48 z) = 6%nat).
  { unfold couchstore_encode_raw48. by rewrite ENCODE_RAW_bytes, be_bytes_length by lia. }
  apply next_runP; [done|]. runP. pose proof (decode48 z [] Hz) as Hd.
  rewrite take_app_length' in Hd by done. by rewrite Hd.
Qed.

Lemma next64_runP z rest ms h (Q : Z -> dstate -> Prop) :
  0 <= z < 2 ^ 64 -> Q z (mk_ds ms h rest) -> runsP next64 (mk_ds ms h (enc_uint64 z ++ rest)) Q.
Proof.
  intros Hz HQ. unfold next64, enc_uint64, couchstore_encode_raw64. runP. rewrite ENCODE_RAW_bytes by lia.
  apply next_runP; [apply be_bytes_length|]. runP. unfold couchstore_decode_raw64.
  rewrite DECODE_RAW_val, be_val_bytes, Z.mod_small by (simpl; lia). exact HQ.
Qed.

(** ** Lists *)

(** An element that is greater than those of the list goes to its end. *)
Lemma add_loop_end {A} (cmp : A -> A -> Z) e nodes : forall prev c0,
  Forall (fun x => cmp x.(nd_element) e < 0) nodes ->
  exists c, add_loop cmp e prev nodes c0 = (prev ++ nodes, [], c) /\ (nodes <> [] -> c <> 0).
Proof.
  induction nodes as [|x nodes IH]; intros prev c0 Hn; simpl.
  - exists c0. by rewrite app_nil_r.
  - apply Forall_cons in Hn as [Hx Hn]. rewrite (proj2 (Z.leb_gt _ _)) by lia.
    destruct (IH (prev ++ [x]) (cmp (nd_element x) e) Hn) as (c & Hc & Hz). exists c.
    rewrite Hc, <- app_assoc. split; [done|]. intros _. destruct nodes; [|by apply Hz].
    simpl in Hc. injection Hc as _ <-. lia.
Qed.

Lemma add_end_run {A} (cmp : A -> A -> Z) l e size s (Q : Z * sorted_list A -> mem -> Prop) :
  mem_ok s -> Forall (fun x => cmp x.(nd_element) e < 0) l.(sl_nodes) ->
  0 <= l.(sl_length) < 2 ^ 31 - 1 ->
  (forall nb eb s', grown s s' [nb; eb] ->
     Q (0, mk_list l.(sl_block) (l.(sl_nodes) ++ [mk_node (Block nb) (Block eb) e]) (l.(sl_length) + 1)) s') ->
  runs (sorted_list_add cmp l e size) s Q.
Proof.
  intros Hs Hn Hl HQ. unfold sorted_list_add. run. apply malloc_all; [done|done|].
  intros nb s1 Hg1. rewrite decide_False by done. run. apply malloc_all; [done|apply Hg1|].
  intros eb s2 Hg2. rewrite decide_False by done. rewrite swrap_small by lia.
  specialize (HQ nb eb s2 (grown_trans _ _ _ _ _ Hg1 Hg2)).
  destruct (sl_nodes l) as [|x nodes] eqn:Hnodes; [run; exact HQ|].
  destruct (add_loop_end cmp e (x :: nodes) [] 0 Hn) as (c & -> & Hc).
  rewrite (proj2 (Z.eqb_neq c 0)) by (by apply Hc). run. exact HQ.
Qed.

(** The blocks of a list and those its elements own. *)
Definition list_ptrs {A} (own : A -> list ptr) (l : sorted_list A) : list ptr :=
  (elements l.(sl_nodes) ≫= own) ++ node_ptrs l.(sl_nodes) ++ [l.(sl_block)].

Lemma elements_app {A} (n1 n2 : list (node A)) : elements (n1 ++ n2) = elements n1 ++ elements n2.
Proof. apply fmap_app. Qed.

(** Reading the elements of a list; [same] relates an element to what is read. *)
Lemma read_elements_run {A} cmp size (read : P A) undo put (bytes : A -> list Z) (same : A -> A -> Prop)
    (own : A -> list ptr) :
  (forall l l' h, put l (put l' h) = put l h) ->
  (forall x y z, same x y -> cmp z y = cmp z x /\ cmp y z = cmp x z) ->
  forall es l ms h rest (Q : unit -> dstate -> Prop),
  mem_ok ms ->
  (forall e ms h rest (Q : A -> dstate -> Prop), e ∈ es -> mem_ok ms ->
     (forall e' ms' , same e e' -> grown ms ms' (blocks (own e')) -> Q e' (mk_ds ms' h rest)) ->
     runsP read (mk_ds ms h (bytes e ++ rest)) Q) ->
  StronglySorted (fun x y => cmp x y < 0) es ->
  Forall (fun e => Forall (fun x => cmp x.(nd_element) e < 0) l.(sl_nodes)) es ->
  0 <= l.(sl_length) -> l.(sl_length) + Z.of_nat (length es) < 2 ^ 31 - 1 ->
  (forall es' l' ms', l'.(sl_block) = l.(sl_block) -> elements l'.(sl_nodes) = elements l.(sl_nodes) ++ es' ->
     l'.(sl_length) = l.(sl_length) + Z.of_nat (length es) ->
     (Uninit ∈ node_ptrs l'.(sl_nodes) -> Uninit ∈ node_ptrs l.(sl_nodes)) -> Forall2 same es es' ->
     (exists bs, grown ms ms' bs /\ bs ++ blocks (list_ptrs own l) ≡ₚ blocks (list_ptrs own l')) ->
     Q tt (mk_ds ms' (put l' h) rest)) ->
  runsP (read_elements cmp size read undo put (length es) l) (mk_ds ms (put l h) (mjoin (bytes <$> es) ++ rest)) Q.
Proof.
  intros Hput Hsame es. induction es as [|e es IH]; intros l ms h rest Q Hms Hread Hs Hlt H0 Hlen HQ; cbn [length read_elements].
  - runP. apply (HQ []); try done.
    + by rewrite app_nil_r.
    + simpl. lia.
    + exists []. split; [|done]. split; [done|]. split; [set_solver|]. split; [constructor|set_solver].
  - change (mjoin (bytes <$> e :: es)) with (bytes e ++ mjoin (bytes <$> es)). rewrite <- app_assoc.
    inversion Hs as [|? ? Hs' He]; subst. apply Forall_cons in Hlt as [Hlt Hlts]. runP.
    apply Hread; [left|done|]. intros e' ms1 Hee Hg1. runP. apply lift_runP.
    apply add_end_run; [apply Hg1| |simpl in Hlen; lia|].
    { eapply Forall_impl; [exact Hlt|]. intros x Hx. by destruct (Hsame e e' x.(nd_element) Hee) as [-> _]. }
    intros nb eb ms2 Hg2. cbn [fst snd]. rewrite Z.eqb_refl. runP. rewrite Hput.
    set (l1 := mk_list _ _ _).
    apply (IH l1); [apply Hg2| |done| |simpl; lia|simpl in *; lia|].
    { intros e0 ms0 h0 rest0 Q0 He0. apply Hread. by right. }
    { rewrite Forall_forall in Hlts, He. apply Forall_forall. intros y Hy. simpl. apply Forall_app.
      split; [by apply Hlts|]. constructor; [|done]. simpl. destruct (Hsame e e' y Hee) as [_ ->]. by apply He. }
    intros es' l' ms3 Hb' He' Hl' Hu' Hsm (bs & Hg3 & Hp3).
    apply (HQ (e' :: es') l' ms3); [done| | | |by constructor|].
    + rewrite He'. simpl. rewrite elements_app, <- app_assoc. done.
    + rewrite Hl'. simpl. lia.
    + intros Hu%Hu'. simpl in Hu. rewrite node_ptrs_app in Hu. simpl in Hu. set_solver.
    + exists (blocks (own e') ++ [nb; eb] ++ bs). split.
      { exact (grown_trans _ _ _ _ _ Hg1 (grown_trans _ _ _ _ _ Hg2 Hg3)). }
      rewrite <- Hp3. unfold list_ptrs. simpl sl_nodes. simpl sl_block.
      rewrite elements_app, bind_app, node_ptrs_app. simpl. rewrite app_nil_r, !blocks_app'. simpl.
      solve_Permutation.
Qed.

(** A list that was read: its elements, its length, and the blocks it owns. *)
Record list_read {A} (same : A -> A -> Prop) (own : A -> list ptr) (es : list A) (ms ms' : mem)
    (l : sorted_list A) : Prop := {
  re_elems : Forall2 same es (elements l.(sl_nodes));
  re_length : l.(sl_length) = Z.of_nat (length es);
  re_init : Uninit ∉ list_ptrs own l;
  re_owned : exists bs, grown ms ms' bs /\ bs ≡ₚ blocks (list_ptrs own l)
}.

Lemma read_list_run {A} cmp size (read : P A) undo put null (bytes : A -> list Z) (same : A -> A -> Prop)
    (own : A -> list ptr) ok l ms h rest (Q : unit -> dstate -> Prop) :
  (forall l l' h, put l (put l' h) = put l h) ->
  (forall x y z, same x y -> cmp z y = cmp z x /\ cmp y z = cmp x z) ->
  (forall x y, same x y -> Uninit ∉ own y) ->
  (forall e ms h rest (Q : A -> dstate -> Prop), ok e -> mem_ok ms ->
     (forall e' ms', same e e' -> grown ms ms' (blocks (own e')) -> Q e' (mk_ds ms' h rest)) ->
     runsP read (mk_ds ms h (bytes e ++ rest)) Q) ->
  list_valid cmp ok l -> mem_ok ms ->
  (forall l' ms', list_read same own (elements l.(sl_nodes)) ms ms' l' -> Q tt (mk_ds ms' (put l' h) rest)) ->
  runsP (read_list cmp size read undo put null)
    (mk_ds ms h (list_bytes bytes (elements l.(sl_nodes)) ++ rest)) Q.
Proof.
  intros Hput Hsame Hinit Hread (Hsorted & Hlen & Hsm & Hok) Hms HQ. unfold read_list, list_bytes.
  rewrite <- app_assoc. set (es := elements l.(sl_nodes)) in *.
  assert (Hes : Z.of_nat (length es) = l.(sl_length)) by (unfold es, elements; by rewrite length_fmap).
  runP. apply next16_runP; [unfold id_ok; lia|]. runP. apply lift_runP. unfold sorted_list_create. run.
  apply malloc_all; [done|done|]. intros b ms1 Hg. rewrite decide_False by done. run. runP. rewrite Nat2Z.id.
  apply (read_elements_run cmp size read undo put bytes same own); [done|done|apply Hg| | | |done|simpl; lia|].
  - intros e ms0 h0 rest0 Q0 He. apply Hread. rewrite Forall_forall in Hok. by apply Hok.
  - unfold es, elements. clear -Hsorted. unfold sorted in Hsorted.
    induction Hsorted as [|x n Hs IH Hx]; simpl; constructor; [done|]. by apply Forall_fmap.
  - apply Forall_true. constructor.
  - intros es' l' ms' Hb' He' Hl' Hu' Hs' (bs & Hg' & Hp). simpl in *. apply HQ. constructor.
    + by rewrite He'.
    + done.
    + unfold list_ptrs. rewrite He', Hb', !not_elem_of_app. split; [|split].
      * intros (e & Hin & He)%list_elem_of_bind.
        apply (list_elem_of_lookup_1) in He as [i Hi]. destruct (Forall2_lookup_r _ _ _ _ _ Hs' Hi) as (x & _ & Hxy).
        by apply (Hinit x e).
      * intros Hu%Hu'. by apply not_elem_of_nil in Hu.
      * set_solver.
    + exists ([b] ++ bs). split; [exact (grown_trans _ _ _ _ _ Hg Hg')|]. rewrite <- Hp. simpl.
      by rewrite <- Permutation_cons_append.
Qed.

Definition no_own {A} (_ : A) : list ptr := [].

Lemma put_seq_run put l ms h rest (Q : unit -> dstate -> Prop) :
  (forall l l' h, put l (put l' h) = put l h) ->
  some_valid part_seq_cmp part_seq_ok l -> mem_ok ms ->
  (forall l' ms', list_read eq no_own (elems l) ms ms' l' -> Q tt (mk_ds ms' (put (Some l') h) rest)) ->
  runsP (read_seq_list put) (mk_ds ms h (list_bytes part_seq_bytes (elems l) ++ rest)) Q.
Proof.
  intros Hput Hv Hms HQ. destruct l as [l|]; [|done]. unfold read_seq_list.
  eapply (read_list_run _ _ _ _ _ _ _ eq no_own part_seq_ok l); [by intros|by intros ? ? ? <-|set_solver| |done|done|exact HQ].
  intros e ms0 h0 rest0 Q0 [He1 He2] Hms0 HQ0. unfold read_part_seq, part_seq_bytes. rewrite <- app_assoc. runP.
  apply next16_runP; [done|]. runP. apply next48_runP; [done|]. runP. destruct e as [p q]. apply HQ0; [done|].
  split; [done|]. split; [set_solver|]. split; [constructor|set_solver].
Qed.

Lemma put_id_run put l ms h rest (Q : unit -> dstate -> Prop) :
  (forall l l' h, put l (put l' h) = put l h) ->
  some_valid part_id_cmp id_ok l -> mem_ok ms ->
  (forall l' ms', list_read eq no_own (elems l) ms ms' l' -> Q tt (mk_ds ms' (put (Some l') h) rest)) ->
  runsP (read_id_list put) (mk_ds ms h (list_bytes enc_uint16 (elems l) ++ rest)) Q.
Proof.
  intros Hput Hv Hms HQ. destruct l as [l|]; [|done]. unfold read_id_list.
  eapply (read_list_run _ _ _ _ _ _ _ eq no_own id_ok l); [by intros|by intros ? ? ? <-|set_solver| |done|done|exact HQ].
  intros e ms0 h0 rest0 Q0 He Hms0 HQ0. apply next16_runP; [done|]. apply HQ0; [done|].
  split; [done|]. split; [set_solver|]. split; [constructor|set_solver].
Qed.

(** ** Versions of partitions *)

Definition same_version (p q : part_version_t) : Prop :=
  q = mk_pv p.(pv_part_id) p.(pv_num_failover_log) q.(pv_block) p.(pv_failover_log) /\ q.(pv_block) <> Uninit.

Definition version_ptrs (p : part_version_t) : list ptr := [p.(pv_block)].

Lemma read_log_run log : forall ms h rest (Q : list failover_log_t -> dstate -> Prop),
  Forall log_ok log -> Q log (mk_ds ms h rest) ->
  runsP (read_log (length log)) (mk_ds ms h (mjoin (log_bytes <$> log) ++ rest)) Q.
Proof.
  induction log as [|f log IH]; intros ms h rest Q Hlog HQ; cbn [length read_log]; [by runP|].
  apply Forall_cons in Hlog as [[Hu Hs] Hlog].
  change (mjoin (log_bytes <$> f :: log)) with (log_bytes f ++ mjoin (log_bytes <$> log)).
  unfold log_bytes at 1. rewrite <- !app_assoc. runP. apply next_runP; [done|]. runP.
  apply next64_runP; [done|]. runP. apply IH; [done|]. runP. by destruct f.
Qed.

Lemma read_versions_run l ms h rest (Q : unit -> dstate -> Prop) :
  list_valid part_versions_cmp part_version_ok l -> mem_ok ms ->
  (forall l' ms', list_read same_version version_ptrs (elements l.(sl_nodes)) ms ms' l' ->
     Q tt (mk_ds ms' (set_h_part_versions (LSome l') h) rest)) ->
  runsP (read_list part_versions_cmp 16 read_part_version (fun pver => free pver.(pv_block))
      (fun l => set_h_part_versions (LSome l)) (set_h_part_versions LNull))
    (mk_ds ms h (list_bytes part_version_bytes (elements l.(sl_nodes)) ++ rest)) Q.
Proof.
  intros Hv Hms HQ.
  eapply (read_list_run _ _ _ _ _ _ _ same_version version_ptrs part_version_ok l);
    [done|by intros ? ? ? [-> _]|intros x y [_ Hy]; unfold version_ptrs; set_solver| |done|done|exact HQ].
  clear -Hall. intros e ms h rest Q (He & Hn & Hsm & Hl) Hms HQ. unfold read_part_version, part_version_bytes, list_bytes.
  rewrite <- !app_assoc. runP. apply next16_runP; [done|]. runP. apply next16_runP; [unfold id_ok; lia|]. runP.
  apply lift_runP. apply malloc_all; [done|done|]. intros b ms1 Hg. rewrite decide_False by done. runP.
  rewrite Nat2Z.id. apply read_log_run; [done|]. runP. apply HQ; [|exact Hg]. split; [|done].
  simpl. by rewrite Hn.
Qed.

(** ** Roots *)

Definition same_root (r r' : option node_pointer) : Prop :=
  match r, r' with
  | None, None => True
  | Some n, Some n' => n' = mk_np n'.(np_block) [] n.(np_pointer) n.(np_reduce_value) n.(np_subtreesize) /\
                       n'.(np_block) <> Uninit
  | _, _ => False
  end.

Lemma grown_refl ms : mem_ok ms -> grown ms ms [].
Proof. intros Hms. split; [done|]. split; [set_solver|]. split; [constructor|set_solver]. Qed.

Lemma read_state_run r ms h rest (Q : option node_pointer -> dstate -> Prop) :
  state_ok r -> mem_ok ms ->
  (forall r' ms', same_root r r' -> grown ms ms' (blocks [np_ptr r']) -> Q r' (mk_ds ms' h rest)) ->
  runsP read_state (mk_ds ms h (state_bytes r ++ rest)) Q.
Proof.
  intros Hr Hms HQ. unfold read_state, state_bytes. rewrite <- app_assoc. runP. apply next16_runP.
  { unfold id_ok. destruct r as [n|]; simpl; [|lia]. destruct Hr as (_ & _ & Hr).
    unfold sizeof_raw_btree_root, len in *. lia. }
  runP. eexists _, _. split; [done|]. simpl ds_bytes. runP. apply lift_runP. destruct r as [n|].
  - unfold root_size. change sizeof_raw_btree_root with 12. apply read_root_run; [done|done|done|].
    intros b ms' Hg. runP. apply next_runP; [rewrite encode_root_length; unfold len; lia|].
    runP. by apply HQ.
  - unfold read_root. simpl. run. runP. apply (next_runP 0 []); [done|]. runP. apply HQ; [done|].
    by apply grown_refl.
Qed.

Lemma read_views_run views : forall ms h rest (Q : unit -> dstate -> Prop),
  Forall state_ok views -> mem_ok ms ->
  (forall views' ms', Forall2 same_root views views' -> grown ms ms' (blocks (np_ptr <$> views')) ->
     Q tt (mk_ds ms' (set_h_view_states (h.(h_view_states) ++ views') h) rest)) ->
  runsP (read_views (length views)) (mk_ds ms h (mjoin (state_bytes <$> views) ++ rest)) Q.
Proof.
  induction views as [|v views IH]; intros ms h rest Q Hv Hms HQ; cbn [length read_views].
  - runP. specialize (HQ [] ms). rewrite app_nil_r in HQ. destruct h. apply HQ; [constructor|by apply grown_refl].
  - apply Forall_cons in Hv as [Hv Hvs].
    change (mjoin (state_bytes <$> v :: views)) with (state_bytes v ++ mjoin (state_bytes <$> views)).
    rewrite <- app_assoc. runP. apply read_state_run; [done|done|]. intros v' ms1 Hs1 Hg1. runP.
    apply IH; [done|apply Hg1|]. intros views' ms2 Hs2 Hg2. simpl. rewrite <- app_assoc.
    apply (HQ (v' :: views') ms2); [by constructor|]. rewrite fmap_cons, blocks_cons. by eapply grown_trans.
Qed.

Lemma same_roots_init views views' : Forall2 same_root views views' -> Uninit ∉ np_ptr <$> views'.
Proof.
  induction 1 as [|v v' views views' Hv _ IH]; [by apply not_elem_of_nil|].
  rewrite fmap_cons, not_elem_of_cons. split; [|done].
  destruct v, v'; simpl in *; try done. by destruct Hv as [_ Hv].
Qed.
End decoding.

(** * What a header says *)

Record header_content := mk_content {
  c_version : Z;
  c_signature : list Z;
  c_num_partitions : Z;
  c_bitmasks : list Z * list Z * list Z;
  c_seqs : list part_seq_t;
  c_id_root : option (Z * list Z * Z);
  c_view_roots : list (option (Z * list Z * Z));
  c_has_replica : bool;
  c_replicas : list Z;
  c_transition : list Z * list Z * list Z;
  c_unindexable_seqs : list part_seq_t;
  c_versions : list (Z * list failover_log_t)
}.

Definition root_content (r : option node_pointer) : option (Z * list Z * Z) :=
  (fun n => (n.(np_pointer), n.(np_reduce_value), n.(np_subtreesize))) <$> r.

Definition content (h : index_header_t) : header_content :=
  mk_content h.(h_version) h.(h_signature) h.(h_num_partitions)
    (h.(h_active_bitmask), h.(h_passive_bitmask), h.(h_cleanup_bitmask)) (elems h.(h_seqs))
    (root_content h.(h_id_btree_state)) (root_content <$> h.(h_view_states)) (negb (h.(h_has_replica) =? 0))
    (elems h.(h_replicas_on_transfer))
    (elems h.(h_pending_transition).(tr_active), elems h.(h_pending_transition).(tr_passive),
     elems h.(h_pending_transition).(tr_unindexable))
    (elems h.(h_unindexable_seqs))
    (if 2 <=? h.(h_version) then (fun p => (p.(pv_part_id), p.(pv_failover_log))) <$> versions h else []).

(** The pointers that [free_index_header] frees, in its order. *)
Definition plain_ptrs {A} (l : option (sorted_list A)) : list ptr :=
  match l with Some l => list_ptrs no_own l | None => [] end.

Definition header_ptrs (b : ptr) (h : index_header_t) : list ptr :=
  plain_ptrs h.(h_seqs) ++ [np_ptr h.(h_id_btree_state)] ++ (np_ptr <$> h.(h_view_states)) ++ [h.(h_view_array)]
  ++ plain_ptrs h.(h_replicas_on_transfer) ++ plain_ptrs h.(h_pending_transition).(tr_active)
  ++ plain_ptrs h.(h_pending_transition).(tr_passive) ++ plain_ptrs h.(h_pending_transition).(tr_unindexable)
  ++ plain_ptrs h.(h_unindexable_seqs)
  ++ (if 2 <=? h.(h_version)
      then match h.(h_part_versions) with LSome l => list_ptrs version_ptrs l | _ => [] end else [])
  ++ [b].

Section whole.
Context `{Alloc} (Hall : forall n sz, malloc_ok n sz = true).

Lemma same_root_content r r' : same_root r r' -> root_content r' = root_content r.
Proof. destruct r, r'; simpl; try done. by intros [-> _]. Qed.

Lemma same_roots_content views views' :
  Forall2 same_root views views' -> root_content <$> views' = root_content <$> views.
Proof. induction 1 as [|v v' views views' Hv _ IH]; [done|]. rewrite !fmap_cons, IH. f_equal. by apply same_root_content. Qed.

Lemma read_elems {A} own (es : list A) ms ms' l : list_read eq own es ms ms' l -> elements l.(sl_nodes) = es.
Proof. intros [He _ _ _]. symmetry. by apply list_eq_Forall2. Qed.

Lemma read_mem {A} same own (es : list A) ms ms' l : list_read same own es ms ms' l -> mem_ok ms'.
Proof. intros [_ _ _ (bs & [Hm _] & _)]. exact Hm. Qed.

Lemma same_versions_content ps qs : Forall2 same_version ps qs ->
  (fun p => (p.(pv_part_id), p.(pv_failover_log))) <$> qs = (fun p => (p.(pv_part_id), p.(pv_failover_log))) <$> ps.
Proof. induction 1 as [|p q ps qs [-> _] _ IH]; [done|]. rewrite !fmap_cons, IH. done. Qed.

(** What [free_index_header] relies on. *)
Record freeable (s0 s : mem) (b : ptr) (h : index_header_t) : Prop := {
  fr_views : h.(h_num_views) = Z.of_nat (length h.(h_view_states));
  fr_array : h.(h_view_array) <> Null;
  fr_versions : 2 <= h.(h_version) -> exists l, h.(h_part_versions) = LSome l;
  fr_init : Uninit ∉ header_ptrs b h;
  fr_owned : exists bs, grown s0 s bs /\ bs ≡ₚ blocks (header_ptrs b h)
}.

(** The versions that were read, when the header has any. *)
Record versions_read (h : index_header_t) (ms ms' : mem) (vl : lptr part_version_t) : Prop := {
  vr_content : (if 2 <=? h.(h_version)
                then (fun p => (p.(pv_part_id), p.(pv_failover_log))) <$>
                       match vl with LSome l => elements l.(sl_nodes) | _ => [] end
                else []) = c_versions (content h);
  vr_some : 2 <= h.(h_version) -> exists l, vl = LSome l;
  vr_init : Uninit ∉ (if 2 <=? h.(h_version)
                      then match vl with LSome l => list_ptrs version_ptrs l | _ => [] end else []);
  vr_owned : exists bs, grown ms ms' bs /\
    bs ≡ₚ blocks (if 2 <=? h.(h_version)
                  then match vl with LSome l => list_ptrs version_ptrs l | _ => [] end else [])
}.

(** The last part of the body. *)
Lemma read_versions_opt h h1 ms rest (Q : unit -> dstate -> Prop) :
  header_ok h -> mem_ok ms ->
  (forall vl ms', versions_read h ms ms' vl -> Q tt (mk_ds ms' (set_h_part_versions vl h1) rest)) ->
  runsP (if 2 <=? h.(h_version) then
    read_list part_versions_cmp 16 read_part_version (fun pver => free pver.(pv_block))
      (fun l => set_h_part_versions (LSome l)) (set_h_part_versions LNull)
    else mret tt)
    (mk_ds ms h1 ((if 2 <=? h.(h_version) then list_bytes part_version_bytes (versions h) else []) ++ rest)) Q.
Proof.
  intros Hok Hms HQ. destruct (Z.leb_spec 2 h.(h_version)) as [Hv|Hv].
  - pose proof (ho_versions _ Hok Hv) as Hvs. unfold versions in *.
    destruct (h_part_versions h) as [| |l] eqn:Hl; [done..|].
    apply read_versions_run; [done|done|done|]. intros l' ms' [He _ Hi Ho]. apply HQ.
    constructor; rewrite ?(proj2 (Z.leb_le 2 _)) by done; [|by eexists|exact Hi|exact Ho].
    unfold content. simpl. rewrite (proj2 (Z.leb_le 2 _)) by done. unfold versions. rewrite Hl.
    by apply same_versions_content.
  - runP. specialize (HQ h1.(h_part_versions) ms). destruct h1. apply HQ.
    constructor; rewrite ?(proj2 (Z.leb_gt 2 _)) by done; [|lia|apply not_elem_of_nil|].
    + unfold content. simpl. by rewrite (proj2 (Z.leb_gt 2 _)) by done.
    + exists []. split; [by apply grown_refl|done].
Qed.

(** The header at the end of the body. *)
Lemma decoded_header h ms ms1 ms2 ms3 ms4 ms5 ms6 ms7 ms8 ms9 ms' seqs root arr views reps act pas uni useqs vl rep :
  list_read eq no_own (elems h.(h_seqs)) ms ms1 seqs ->
  same_root h.(h_id_btree_state) root -> grown ms1 ms2 (blocks [np_ptr root]) -> grown ms2 ms3 [arr] ->
  Forall2 same_root h.(h_view_states) views -> grown ms3 ms4 (blocks (np_ptr <$> views)) ->
  list_read eq no_own (elems h.(h_replicas_on_transfer)) ms4 ms5 reps ->
  list_read eq no_own (elems h.(h_pending_transition).(tr_active)) ms5 ms6 act ->
  list_read eq no_own (elems h.(h_pending_transition).(tr_passive)) ms6 ms7 pas ->
  list_read eq no_own (elems h.(h_pending_transition).(tr_unindexable)) ms7 ms8 uni ->
  list_read eq no_own (elems h.(h_unindexable_seqs)) ms8 ms9 useqs ->
  versions_read h ms9 ms' vl -> (rep =? 0) = (h.(h_has_replica) =? 0) ->
  let h' := mk_header h.(h_version) h.(h_signature) (Z.of_nat (length h.(h_view_states))) h.(h_num_partitions)
    h.(h_active_bitmask) h.(h_passive_bitmask) h.(h_cleanup_bitmask) (Some seqs) root (Block arr) views
    rep (Some reps) (mk_trans (Some act) (Some pas) (Some uni)) (Some useqs) vl in
  content h' = content h /\ forall s0 b, grown s0 ms [b] -> freeable s0 ms' (Block b) h'.
Proof.
  intros R1 Hr2 Hg2 Hg3 Hr4 Hg4 R5 R6 R7 R8 R9 V Hrep h'. split.
  - unfold content at 1. cbn -[elements versions Z.leb root_content fmap content]. rewrite Hrep.
    rewrite (read_elems _ _ _ _ _ R1), (read_elems _ _ _ _ _ R5), (read_elems _ _ _ _ _ R6),
      (read_elems _ _ _ _ _ R7), (read_elems _ _ _ _ _ R8), (read_elems _ _ _ _ _ R9).
    rewrite (same_root_content _ _ Hr2), (same_roots_content _ _ Hr4).
    unfold content at 1. f_equal. apply V.
  - intros s0 b Hb.
    destruct R1 as [_ _ I1 (b1 & G1 & P1)], R5 as [_ _ I5 (b5 & G5 & P5)], R6 as [_ _ I6 (b6 & G6 & P6)],
      R7 as [_ _ I7 (b7 & G7 & P7)], R8 as [_ _ I8 (b8 & G8 & P8)], R9 as [_ _ I9 (b9 & G9 & P9)],
      V as [_ Vs VI (bv & Gv & Pv)].
    constructor; [..|].
    + simpl. f_equal. by eapply Forall2_length.
    + done.
    + exact Vs.
    + unfold header_ptrs. cbn -[Z.leb]. rewrite !not_elem_of_app, !not_elem_of_cons, !not_elem_of_app.
      pose proof (same_roots_init _ _ Hr4) as Iv.
      assert (Uninit <> np_ptr root) by (destruct (h_id_btree_state h), root; simpl in *; try done;
        destruct Hr2 as [_ ?]; congruence).
      rewrite not_elem_of_cons, !not_elem_of_app. repeat split; (done || set_solver).
    + eexists. split.
      { exact (grown_trans _ _ _ _ _ Hb (grown_trans _ _ _ _ _ G1 (grown_trans _ _ _ _ _ Hg2
          (grown_trans _ _ _ _ _ Hg3 (grown_trans _ _ _ _ _ Hg4 (grown_trans _ _ _ _ _ G5
          (grown_trans _ _ _ _ _ G6 (grown_trans _ _ _ _ _ G7 (grown_trans _ _ _ _ _ G8
          (grown_trans _ _ _ _ _ G9 Gv)))))))))). }
      unfold header_ptrs. cbn -[Z.leb blocks]. rewrite P1, P5, P6, P7, P8, P9, Pv.
      rewrite !blocks_app', (blocks_cons (np_ptr root) (_ ++ _)), !blocks_app', (blocks_cons (Block arr) (_ ++ _)).
      rewrite !blocks_app'.
      change (blocks [Block b]) with [b]. change (blocks [Block arr]) with [arr]. simpl app.
      solve_Permutation.
Qed.

Lemma decode_body_run h ms (Q : unit -> dstate -> Prop) :
  header_ok h -> mem_ok ms ->
  (forall h' ms' rest, content h' = content h ->
     (forall s0 b, grown s0 ms [b] -> freeable s0 ms' (Block b) h') -> Q tt (mk_ds ms' h' rest)) ->
  runsP decode_body (mk_ds ms (new_header h.(h_signature)) (header_bytes h)) Q.
Proof.
  intros Hok Hms HQ. pose proof Hok as []. unfold decode_body, header_bytes. runP.
  apply next8_runP. runP. apply next16_runP; [done|]. runP.
  do 3 (apply next_runP; [done|]; runP).
  apply put_seq_run; [done|done|done|done|]. intros seqs ms1 R1. runP.
  apply read_state_run; [done|done|by eapply read_mem|]. intros root ms2 Hr2 Hg2. runP.
  apply next8_runP. runP. apply lift_runP. apply malloc_all; [done|apply Hg2|]. intros arr ms3 Hg3. runP.
  rewrite decide_False by done. runP. rewrite ho_num_views, Nat2Z.id.
  apply read_views_run; [done|done|apply Hg3|]. intros views ms4 Hr4 Hg4. runP.
  apply next8_runP. runP.
  apply put_id_run; [done|done|done|apply Hg4|]. intros reps ms5 R5. runP.
  apply put_id_run; [done|done|done|by eapply read_mem|]. intros act ms6 R6. runP.
  apply put_id_run; [done|done|done|by eapply read_mem|]. intros pas ms7 R7. runP.
  apply put_id_run; [done|done|done|by eapply read_mem|]. intros uni ms8 R8. runP.
  apply put_seq_run; [done|done|done|by eapply read_mem|]. intros useqs ms9 R9.
  rewrite <- (app_nil_r (if 2 <=? h.(h_version) then list_bytes part_version_bytes (versions h) else [])).
  apply read_versions_opt; [done|by eapply read_mem|]. intros vl ms' V.
  edestruct (decoded_header h ms ms1 ms2 ms3 ms4 ms5 ms6 ms7 ms8 ms9 ms' seqs root arr views reps act pas uni
    useqs vl (if (if h.(h_has_replica) =? 0 then 0 else 1) =? 0 then 0 else 1)) as [Hc Hf]; [done..| |].
  { by destruct (h_has_replica h =? 0). }
  by apply HQ.
Qed.

(** ** Freeing *)

(** [m] frees the pointers [ps]. *)
Definition frees {A} (m : M mem A) (ps : list ptr) : Prop :=
  forall s0 s bs cs (Q : A -> mem -> Prop), grown s0 s bs -> bs ≡ₚ blocks ps ++ cs -> Uninit ∉ ps ->
    (forall u s', grown s0 s' cs -> Q u s') -> runs m s Q.

Lemma frees_ret {A} (a : A) : frees (mret a) [].
Proof. intros s0 s bs cs Q Hg Hp _ HQ. run. apply HQ. eapply grown_perm; [|exact Hg]. by rewrite Hp. Qed.

Lemma frees_bind {A B} (m : M mem A) (f : A -> M mem B) p1 p2 :
  frees m p1 -> (forall a, frees (f a) p2) -> frees (mbind f m) (p1 ++ p2).
Proof.
  intros H1 H2 s0 s bs cs Q Hg Hp Hu HQ. apply not_elem_of_app in Hu as [Hu1 Hu2].
  rewrite blocks_app', <- app_assoc in Hp. run. eapply (H1 s0 s); [done|exact Hp|done|].
  intros a s1 Hg1. by eapply (H2 a s0 s1).
Qed.

Lemma frees_free p : frees (free p) [p].
Proof. intros s0 s bs cs Q Hg Hp Hu HQ. eapply free_owned_run; [set_solver|exact Hg|exact Hp|]. by apply HQ. Qed.

Lemma frees_nodes {A} (n : list (node A)) : frees (free_nodes n) (node_ptrs n).
Proof.
  induction n as [|x n IH]; cbn [free_nodes]; [apply frees_ret|].
  apply (frees_bind _ _ [nd_elem_block x]); [apply frees_free|]. intros _.
  apply (frees_bind _ _ [nd_block x]); [apply frees_free|]. by intros _.
Qed.

Lemma bind_nil {A} (l : list A) : (l ≫= (fun _ => @nil ptr)) = [].
Proof. by induction l. Qed.

Lemma frees_list {A} (l : option (sorted_list A)) : frees (sorted_list_free l) (plain_ptrs l).
Proof.
  destruct l as [l|]; [|apply frees_ret]. unfold plain_ptrs, list_ptrs, no_own.
  rewrite bind_nil.
  apply (frees_bind _ _ (node_ptrs l.(sl_nodes))); [apply frees_nodes|]. intros _. apply frees_free.
Qed.

Lemma frees_option {A B} (o : option A) a (f : A -> M mem B) ps :
  o = Some a -> frees (f a) ps -> frees (mbind f (of_option o)) ps.
Proof.
  intros -> Hf s0 s bs cs Q Hg Hp Hu HQ. apply runs_bind. exists a, s. split; [done|]. by eapply (Hf s0 s).
Qed.

Lemma frees_views views : forall pre n, n = length views ->
  frees (free_views n (Z.of_nat (length pre)) (pre ++ views)) (np_ptr <$> views).
Proof.
  induction views as [|v views IH]; intros pre n ->; cbn [free_views length]; [apply frees_ret|].
  apply (frees_option _ v).
  { apply zlookup_Some. split; [lia|]. by rewrite Nat2Z.id, list_lookup_middle. }
  apply (frees_bind _ _ [np_ptr v]); [apply frees_free|]. intros _.
  specialize (IH (pre ++ [v]) _ eq_refl). rewrite <- app_assoc, length_app in IH. simpl in IH.
  by replace (Z.of_nat (length pre) + 1) with (Z.of_nat (length pre + 1)) by lia.
Qed.

Lemma frees_iterate b nodes : forall fuel, (length nodes < fuel)%nat ->
  frees (iterate (fun pver => free pver.(pv_block)) fuel (mk_iterator b nodes)) (elements nodes ≫= version_ptrs).
Proof.
  induction nodes as [|x nodes IH]; intros [|fuel] Hl; simpl in Hl; try lia; cbn [iterate]; [apply frees_ret|].
  change (elements (x :: nodes) ≫= version_ptrs)
    with ([pv_block (nd_element x)] ++ ((elements nodes ≫= version_ptrs))).
  apply frees_bind; [apply frees_free|]. intros u.
  rewrite <- (app_nil_r (elements nodes ≫= version_ptrs)). apply frees_bind; [apply IH; lia|]. intros us. apply frees_ret.
Qed.

Lemma frees_versions l : frees (free_part_versions (LSome l)) (list_ptrs version_ptrs l).
Proof.
  unfold free_part_versions, list_ptrs. apply frees_bind.
  - intros s0 s bs cs Q Hg Hp Hu HQ. unfold for_each, sorted_list_iterator. run.
    apply malloc_all; [done|apply Hg|]. intros n s1 Hg1. rewrite decide_False by done. run; [done|].
    eapply (frees_iterate (Block n) l.(sl_nodes)); [lia|exact (grown_trans _ _ _ _ _ Hg Hg1)|..].
    { rewrite Hp, <- app_assoc. done. }
    { done. }
    intros us s2 Hg2. unfold sorted_list_free_iterator. simpl si_block. run.
    eapply (frees_free (Block n) s0 s2 _ cs); [exact Hg2|apply Permutation_app_comm|set_solver|].
    intros u s3 Hg3. run. by apply HQ.
  - intros us. pose proof (frees_list (Some l)) as Hf. unfold plain_ptrs, list_ptrs, no_own in Hf.
    rewrite bind_nil in Hf. exact Hf.
Qed.

Lemma frees_header b h :
  h.(h_num_views) = Z.of_nat (length h.(h_view_states)) -> h.(h_view_array) <> Null ->
  (2 <= h.(h_version) -> exists l, h.(h_part_versions) = LSome l) ->
  frees (free_index_header (Some (b, h))) (header_ptrs b h).
Proof.
  intros Hn Ha Hv. unfold free_index_header, header_ptrs.
  apply frees_bind; [apply frees_list|intros _]. apply frees_bind; [apply frees_free|intros _].
  rewrite decide_False by done. rewrite (app_assoc (np_ptr <$> _)).
  apply frees_bind; [|intros _; do 5 (apply frees_bind; [apply frees_list|intros _])].
  { apply frees_bind; [|intros _; apply frees_free]. rewrite Hn, Nat2Z.id. by apply (frees_views _ []). }
  apply frees_bind; [|intros _; apply frees_free].
  destruct (Z.leb_spec 2 h.(h_version)) as [H2|]; [|apply frees_ret].
  destruct (Hv H2) as [l ->]. apply frees_versions.
Qed.

Lemma free_header_run s0 s b h (Q : unit -> mem -> Prop) :
  freeable s0 s b h -> (forall s', balanced s0 s' -> Q tt s') -> runs (free_index_header (Some (b, h))) s Q.
Proof.
  intros [Hn Ha Hv Hi (bs & Hg & Hp)] HQ.
  eapply (frees_header b h Hn Ha Hv s0 s bs []); [done|by rewrite app_nil_r|done|].
  intros [] s' Hg'. apply HQ. by apply grown_nil.
Qed.
End whole.

(** A step that succeeds before one that fails. *)
Lemma runsP_then {A B} (m : P A) (f : A -> P B) s r :
  runsP m s (fun a s' => f a s' = r) -> mbind f m s = r.
Proof. intros (a & s' & Hm & Hf). unfold mbind, P_bind. by rewrite Hm. Qed.

Lemma bindP_fails {A B} (m : P A) (f : A -> P B) s s' :
  m s = Some (None, s') -> mbind f m s = Some (None, s').
Proof. intros Hm. unfold mbind, P_bind. by rewrite Hm. Qed.

(** The body when the first list cannot be allocated: nothing but the scalar fields
    has been assigned. *)
Lemma decode_body_fails `{Alloc} h ms :
  header_ok h -> malloc_ok ms.(m_calls) 24 = false ->
  exists rest, decode_body (mk_ds ms (new_header h.(h_signature)) (header_bytes h)) =
    Some (None, mk_ds (mk_mem (S ms.(m_calls)) ms.(m_live))
      (mk_header h.(h_version) h.(h_signature) 0 h.(h_num_partitions) h.(h_active_bitmask) h.(h_passive_bitmask)
         h.(h_cleanup_bitmask) None None Null [] 0 None (mk_trans None None None) None LUninit)
      rest).
Proof.
  intros Hok Hm. eexists. unfold decode_body, header_bytes. pose proof Hok as [].
  apply runsP_then, next8_runP, runsP_then, set_header_runP, runsP_then, next16_runP; [done|].
  apply runsP_then, set_header_runP.
  do 3 (apply runsP_then, next_runP; [done|]; apply runsP_then, set_header_runP).
  apply bindP_fails. unfold read_seq_list, read_list, list_bytes. rewrite <- app_assoc.
  apply runsP_then, next16_runP.
  { destruct h.(h_seqs) as [l|]; [|done]. destruct ho_seqs as (_ & Hl & Hsm & _). unfold id_ok. simpl.
    unfold elements. rewrite length_fmap. lia. }
  unfold mbind, P_bind, lift, sorted_list_create, malloc, mbind, M_bind. simpl. rewrite Hm. reflexivity.
Qed.

(** * Properties *)

(** C31: a header is the same after it was encoded and decoded, for every compressor with
    the documented behaviour and when memory is available: the version, the signature,
    the bitmasks, the lists of partitions and sequence numbers, the roots of the
    B+trees, the pending transition and, from version 2 on, the failover logs of the
    partitions. The encoder leaves only the buffer it returns, and [free_index_header]
    on the decoded header frees all that the decoder allocated. *)
Theorem index_header_roundtrip `{Alloc} `{SnappyOk} garbage h s :
  (forall n sz, malloc_ok n sz = true) -> header_ok h -> mem_ok s ->
  runs (encode_index_header garbage h) s (fun r s1 => exists p bytes,
    r = (COUCHSTORE_SUCCESS, Some (Block p, bytes)) /\ grown s s1 [p] /\
    runs (decode_index_header bytes) s1 (fun r' s2 => exists b h',
      r' = (COUCHSTORE_SUCCESS, Some (b, h')) /\ content h' = content h /\
      runs (free_index_header (Some (b, h'))) s2 (fun _ s3 => balanced s1 s3))).
Proof.
  intros Hall Hok Hs. unfold encode_index_header. run. apply header_size_run; [done|done|done|].
  intros s1 Hb1. run. apply malloc_all; [done|apply Hb1|]. intros buf s2 Hg2. rewrite decide_False by done. run.
  destruct (encode_body_emits Hall h Hok (mk_es s2 (garbage <$> seq 0 (Z.to_nat (len (header_bytes h)))) 0%nat) [] 0%nat
    (fun _ s' => balanced s2 s'.(es_mem) /\ s'.(es_buf) = header_bytes h))
    as (u & [m3 bs off] & He & Hb3 & Hbs); [apply Hg2| | |].
  { split; [done|]. exists (garbage <$> seq 0 (Z.to_nat (len (header_bytes h)))). split; [done|].
    rewrite length_fmap, length_seq. unfold len. lia. }
  { intros _ s' Hb (_ & junk & -> & Hj). split; [done|]. simpl. destruct junk; [by rewrite app_nil_r|done]. }
  simpl in Hbs, Hb3. subst bs. exists (header_bytes h), m3. split; [by rewrite He|].
  run. apply malloc_all; [done|apply Hb3|]. intros comp s4 Hg4. rewrite decide_False by done.
  destruct (snappy_total (header_bytes h)) as [c Hc]; [apply Hok|]. rewrite Hc. run.
  pose proof (grown_trans _ _ _ _ _ (grown_balanced _ _ _ _ Hg2 Hb3) Hg4) as Hg.
  eapply (free_block_run buf [comp]); [exact Hg|]. intros s5 Hg5. run.
  exists comp, (h.(h_signature) ++ c). split; [done|]. split; [by eapply balanced_grown|].
  pose proof (ho_signature _ Hok) as Hsig. pose proof (snappy_nonempty _ _ Hc) as Hne.
  unfold decode_index_header. rewrite (proj2 (Z.leb_gt _ _)).
  2:{ rewrite len_app. unfold len. rewrite Hsig. destruct c; [done|]. simpl. lia. }
  rewrite drop_app_length', take_app_length' by done.
  rewrite (snappy_length _ _ _ Hc) by (rewrite len_app; unfold len; lia). run.
  apply malloc_all; [done|apply Hg5|]. intros ub s6 Hg6. rewrite decide_False by done.
  rewrite (snappy_inverse _ _ Hc). run. apply malloc_all; [done|apply Hg6|]. intros hb s7 Hg7.
  rewrite decide_False by done. run.
  destruct (decode_body_run Hall h s7 (fun _ s' => content s'.(ds_header) = content h /\
    forall s0 b, grown s0 s7 [b] -> freeable s0 s'.(ds_mem) (Block b) s'.(ds_header)))
    as (u8 & [m8 h' rest] & Hd & Hcont & Hf); [done|apply Hg7|by intros|].
  simpl in Hcont, Hf. eexists (Some u8, h'), m8. split; [by rewrite Hd|]. cbn beta iota. run.
  pose proof (Hf s6 hb Hg7) as [_ _ _ _ (bs & Hgb & Hpb)].
  eapply (free_owned_run (Block ub) s5 m8 _ (blocks (header_ptrs (Block hb) h')));
    [done|exact (grown_trans _ _ _ _ _ Hg6 Hgb)|by rewrite Hpb|].
  intros s9 Hg9. run. exists (Block hb), h'. split; [done|]. split; [done|].
  apply (free_header_run Hall s5); [|done]. destruct (Hf s6 hb Hg7). constructor; [done..|].
  eexists. split; [exact Hg9|done].
Qed.

(** C40: when a header of version 2 is decoded and the first list cannot be allocated,
    the decoder frees the list of partition versions, whose pointer has not been
    assigned, instead of reporting the failure. *)
Theorem decode_index_header_bad_free `{Alloc} `{SnappyOk} h c s :
  header_ok h -> 2 <= h.(h_version) -> snappy_compress (header_bytes h) = Some c ->
  malloc_ok s.(m_calls) (len (header_bytes h)) = true -> malloc_ok (S s.(m_calls)) 488 = true ->
  malloc_ok (S (S s.(m_calls))) 24 = false ->
  decode_index_header (h.(h_signature) ++ c) s = None.
Proof.
  intros Hok Hv Hc M1 M2 M3. pose proof (ho_signature _ Hok) as Hsig. pose proof (snappy_nonempty _ _ Hc) as Hne.
  unfold decode_index_header. rewrite (proj2 (Z.leb_gt _ _)).
  2:{ rewrite len_app. unfold len. rewrite Hsig. destruct c; [done|]. simpl. lia. }
  rewrite drop_app_length', take_app_length' by done.
  rewrite (snappy_length _ _ _ Hc) by (rewrite len_app; unfold len; lia).
  unfold malloc, mbind, M_bind. rewrite M1. rewrite decide_False, (snappy_inverse _ _ Hc) by done. cbn [m_calls].
  rewrite M2. rewrite decide_False by done.
  destruct (decode_body_fails h (mk_mem (S (S (m_calls s))) ({[S (m_calls s)]} ∪ ({[m_calls s]} ∪ m_live s))))
    as [rest Hr]; [done|done|].
  cbn [m_live] in *. rewrite Hr.
  unfold free_index_header. cbn -[Z.leb]. by rewrite (proj2 (Z.leb_le 2 _) Hv).
Qed.

(** ** Witnesses *)

(** A compressor that keeps the data after its length. *)
#[global] Instance stored : Snappy := {|
  snappy_max_compressed_length n := n + 4;
  snappy_compress x := if len x <? 2 ^ 32 then Some (be_bytes 4 (len x) ++ x) else None;
  snappy_uncompressed_length c n := if 4 <=? n then Some (be_val (take 4 c)) else None;
  snappy_uncompress c n := if len c - 4 <=? n then Some (drop 4 c) else None
|}.

Lemma stored_some x c : snappy_compress x = Some c -> len x < 2 ^ 32 /\ c = be_bytes 4 (len x) ++ x.
Proof. cbn [snappy_compress stored]. destruct (Z.ltb_spec (len x) (2 ^ 32)); [|done]. by intros [= <-]. Qed.

#[global] Instance stored_ok : SnappyOk.
Proof.
  assert (Hl : forall x, len (be_bytes 4 (len x) ++ x) = len x + 4).
  { intros x. rewrite len_app. unfold len. rewrite be_bytes_length. lia. }
  constructor.
  - intros x c [_ ->]%stored_some. cbn [snappy_max_compressed_length stored]. rewrite Hl. lia.
  - intros x Hx. eexists. simpl. by rewrite (proj2 (Z.ltb_lt _ _)).
  - intros x c n [Hx ->]%stored_some Hn. rewrite Hl in Hn. cbn [snappy_uncompressed_length stored].
    rewrite (proj2 (Z.leb_le _ _)) by (unfold len in *; lia).
    rewrite take_app_length', be_val_bytes by (by rewrite be_bytes_length).
    rewrite Z.mod_small; [done|]. unfold len in *. simpl in *. lia.
  - intros x c [Hx ->]%stored_some. cbn [snappy_uncompress stored]. rewrite Hl.
    rewrite (proj2 (Z.leb_le _ _)) by lia. by rewrite drop_app_length' by (by rewrite be_bytes_length).
  - intros x c [_ ->]%stored_some. done.
Qed.

Definition demo_seqs : sorted_list part_seq_t :=
  mk_list (Block 0) [mk_node (Block 1) (Block 2) (mk_ps 3 70); mk_node (Block 3) (Block 4) (mk_ps 9 80)] 2.
Definition demo_ids : sorted_list Z := mk_list (Block 5) [mk_node (Block 6) (Block 7) 9] 1.
Definition demo_none : sorted_list Z := mk_list (Block 8) [] 0.
Definition demo_versions : sorted_list part_version_t :=
  mk_list (Block 9) [mk_node (Block 10) (Block 11)
    (mk_pv 3 1 (Block 12) [mk_fl [1; 2; 3; 4; 5; 6; 7; 8] 500])] 1.
Definition demo_root : node_pointer := mk_np (Block 13) [] 4096 [1; 2] 77.

(** A header of version 2 with two views, one of them empty. *)
Definition demo_header : index_header_t :=
  mk_header 2 (replicate 16 170) 2 64 (replicate 128 1) (replicate 128 2) (replicate 128 3) (Some demo_seqs)
    (Some demo_root) (Block 14) [Some demo_root; None] 5 (Some demo_ids)
    (mk_trans (Some demo_none) (Some demo_ids) (Some demo_none)) (Some demo_seqs) (LSome demo_versions).

Lemma demo_header_ok : header_ok demo_header.
Proof.
  assert (Hps : list_valid part_seq_cmp part_seq_ok demo_seqs).
  { split; [repeat constructor|]. split; [done|]. split; [done|]. repeat constructor; done. }
  assert (Hid : list_valid part_id_cmp id_ok demo_ids).
  { split; [repeat constructor|]. split; [done|]. split; [done|]. repeat constructor; done. }
  assert (Hno : list_valid part_id_cmp id_ok demo_none).
  { split; [constructor|]. split; [done|]. split; [done|]. constructor. }
  constructor; try done.
  - repeat constructor; done.
  - intros _. split; [repeat constructor|]. split; [done|]. split; [done|]. repeat constructor; done.
Qed.

Lemma index_header_roundtrip_witness :
  exists r s1 r' s2, @encode_index_header (fun _ _ => true) stored (fun _ => 0) demo_header (mk_mem 15 ∅)
      = Some (r, s1) /\
    @decode_index_header (fun _ _ => true) stored (default [] (snd <$> r.2)) s1 = Some (r', s2) /\
    content <$> (snd <$> r'.2) = Some (content demo_header).
Proof.
  destruct (@index_header_roundtrip (fun _ _ => true) stored stored_ok (fun _ => 0) demo_header (mk_mem 15 ∅))
    as (r & s1 & He & p & bytes & -> & _ & r' & s2 & Hd & b & h' & -> & Hc & _);
    [reflexivity|exact demo_header_ok|intros n Hn; set_solver|].
  eexists _, s1, _, s2. split; [exact He|]. split; [exact Hd|]. simpl. f_equal. exact Hc.
Defined.

Lemma decode_index_header_bad_free_witness :
  exists c, snappy_compress (header_bytes demo_header) = Some c /\
    @decode_index_header (fun n _ => negb (n =? 2)%nat) stored (h_signature demo_header ++ c) (mk_mem 0 ∅) = None.
Proof.
  destruct (snappy_total (header_bytes demo_header)) as [c Hc]; [vm_compute; reflexivity|].
  exists c. split; [exact Hc|].
  apply (@decode_index_header_bad_free (fun n _ => negb (n =? 2)%nat) stored stored_ok demo_header c (mk_mem 0 ∅));
    [exact demo_header_ok|vm_compute; congruence|exact Hc|reflexivity|reflexivity|reflexivity].
Defined.
