(* ===== verification/GenHash.v ===== *)
(** * The generic hash table of the bucket engine

    [engines/bucket_engine/genhash.c]: a table of chains that keeps every value
    stored under a key, the last one first. A chain belongs to its table alone, so
    that it is the list of its entries. The operations on keys and values are a
    parameter, as in the code; the calls of [freeKey] and [freeValue] are recorded
    in the state. *)
From Stdlib Require Import ZArith Lia.
From stdpp Require Import strings gmap prelude.
From S2P Require Import Prelude.

#[local] Set Warnings "-clear-no-such-hyp".

(** Keys are byte strings with their length. *)
Abbreviation key := (list Z).

(** [struct hash_ops]: the function pointers that may be [NULL] are options. *)
Record hash_ops (V : Type) := mk_ops {
  hashfunc : key -> Z;
  hasheq : key -> key -> bool;
  dupKey : option (key -> key);
  dupValue : option (V -> Z -> V);
  freeKey : bool;
  freeValue : bool
}.
Arguments mk_ops {V}.
Arguments hashfunc {V}.
Arguments hasheq {V}.
Arguments dupKey {V}.
Arguments dupValue {V}.
Arguments freeKey {V}.
Arguments freeValue {V}.

Record genhash_entry_t (V : Type) := mk_entry { en_key : key; en_value : V; en_nvalue : Z }.
Arguments mk_entry {V}.
Arguments en_key {V}.
Arguments en_value {V}.
Arguments en_nvalue {V}.

(** [struct _genhash]; [gh_calls] counts the calls of [calloc]. *)
Record genhash_t (V : Type) := mk_table {
  gh_size : Z;
  gh_buckets : list (list (genhash_entry_t V));
  gh_calls : nat;
  gh_freed_keys : list key;
  gh_freed_values : list V
}.
Arguments mk_table {V}.
Arguments gh_size {V}.
Arguments gh_buckets {V}.
Arguments gh_calls {V}.
Arguments gh_freed_keys {V}.
Arguments gh_freed_values {V}.

Inductive update_type := MODIFICATION | NEW.

(** ** The size of a table *)

Definition prime_size_table : list Z :=
  [3; 7; 13; 23; 47; 97; 193; 383; 769; 1531; 3067; 6143; 12289; 24571; 49157;
   98299; 196613; 393209; 786433; 1572869; 3145721; 6291449; 12582917;
   25165813; 50331653; 100663291; 201326611; 402653189; 805306357; 1610612741].

(** The least integers above [e], [e^2], ...: their number up to [x] is the integer
    part of the natural logarithm of [x], for [x] below 2^31. *)
Definition powers_of_e : list Z :=
  [3; 8; 21; 55; 149; 404; 1097; 2981; 8104; 22027; 59875; 162755; 442414; 1202605;
   3269018; 8886111; 24154953; 65659970; 178482301; 485165196; 1318815735].

Definition int_log (x : Z) : Z := Z.of_nat (length (filter (fun p => p <= x) powers_of_e)).

(** [(int)log((double)est)/log(2)]: the cast applies to the first logarithm. *)
Definition magnitude (est : Z) : Z := int_log est * 1000000 / 693147.

Section model.
Context {V : Type} (ops : hash_ops V) (calloc_ok : nat -> bool).

Definition dup_key (k : key) : key :=
  match ops.(dupKey) with Some f => f k | None => k end.

Definition dup_value (v : V) (vlen : Z) : V :=
  match ops.(dupValue) with Some f => f v vlen | None => v end.

Definition free_key (k : key) : M (genhash_t V) unit :=
  if ops.(freeKey) then modify (fun h => mk_table h.(gh_size) h.(gh_buckets) h.(gh_calls)
    (k :: h.(gh_freed_keys)) h.(gh_freed_values)) else mret tt.

Definition free_value (v : V) : M (genhash_t V) unit :=
  if ops.(freeValue) then modify (fun h => mk_table h.(gh_size) h.(gh_buckets) h.(gh_calls)
    h.(gh_freed_keys) (v :: h.(gh_freed_values))) else mret tt.

(** The decrement wraps, and [(int)magn < 0] finds it; [None] is a failed assertion. *)
Definition estimate_table_size (est : Z) : option Z :=
  if negb (0 <? est) then None else
  let magn := u64 (magnitude est - 1) in
  let magn := if swrap 32 magn <? 0 then 0 else magn in
  if magn <? 30 then zlookup prime_size_table magn else None.

(** [dup] and [free] of keys and values come in pairs. *)
Definition paired {A} (dup : option A) (fr : bool) : bool :=
  (match dup with Some _ => true | None => false end && fr) || negb fr.

(** [None] is a failed assertion, [Some None] the result [NULL]. *)
Definition genhash_init (est : Z) : option (option (genhash_t V)) :=
  if est <? 1 then Some None else
  if negb (paired ops.(dupKey) ops.(freeKey)) then None else
  if negb (paired ops.(dupValue) ops.(freeValue)) then None else
  match estimate_table_size est with
  | None => None
  | Some size =>
      if calloc_ok 0 then
        Some (Some (mk_table size (replicate (Z.to_nat size) []) 1 [] []))
      else None
  end.

(** [hashfunc(k, klen) % h->size], with its assertions. *)
Definition bucket_of (k : key) : M (genhash_t V) Z :=
  h ← gets (fun h => h);
  let n := u64 (ops.(hashfunc) k) mod h.(gh_size) in
  cassert (negb (h.(gh_size) =? 0));;
  cassert (0 <=? swrap 32 n);;
  cassert (n <? h.(gh_size));;
  mret n.

Definition get_bucket (n : Z) : M (genhash_t V) (list (genhash_entry_t V)) :=
  h ← gets gh_buckets; of_option (zlookup h n).

Definition set_bucket (n : Z) (l : list (genhash_entry_t V)) : M (genhash_t V) unit :=
  h ← gets gh_buckets;
  h' ← of_option (zupdate h n l);
  modify (fun h => mk_table h.(gh_size) h' h.(gh_calls) h.(gh_freed_keys) h.(gh_freed_values)).

Definition calloc_entry : M (genhash_t V) unit :=
  n ← gets gh_calls;
  modify (fun h => mk_table h.(gh_size) h.(gh_buckets) (S n) h.(gh_freed_keys) h.(gh_freed_values));;
  cassert (calloc_ok n).

Definition genhash_store (k : key) (v : V) (vlen : Z) : M (genhash_t V) unit :=
  n ← bucket_of k;
  calloc_entry;;
  l ← get_bucket n;
  set_bucket n (mk_entry (dup_key k) (dup_value v vlen) vlen :: l).

(** The loop of [genhash_find_entry]: what is before the entry, and the entry and
    what follows. *)
Fixpoint find_loop (k : key) (l : list (genhash_entry_t V))
    : option (list (genhash_entry_t V) * genhash_entry_t V * list (genhash_entry_t V)) :=
  match l with
  | [] => None
  | p :: l' =>
      if ops.(hasheq) k p.(en_key) then Some ([], p, l')
      else match find_loop k l' with
           | Some (l1, q, l2) => Some (p :: l1, q, l2)
           | None => None
           end
  end.

Definition genhash_find_entry (k : key)
    : M (genhash_t V)
        (Z * option (list (genhash_entry_t V) * genhash_entry_t V * list (genhash_entry_t V))) :=
  n ← bucket_of k;
  l ← get_bucket n;
  mret (n, find_loop k l).

Definition genhash_find (k : key) : M (genhash_t V) (option V) :=
  r ← genhash_find_entry k;
  mret (match r.2 with Some (_, p, _) => Some p.(en_value) | None => None end).

Definition genhash_update (k : key) (v : V) (vlen : Z) : M (genhash_t V) update_type :=
  r ← genhash_find_entry k;
  match r.2 with
  | Some (l1, p, l2) =>
      free_value p.(en_value);;
      set_bucket r.1 (l1 ++ mk_entry p.(en_key) (dup_value v vlen) p.(en_nvalue) :: l2);;
      mret MODIFICATION
  | None => genhash_store k v vlen;; mret NEW
  end.

(** [upd] returns the new value and its size; the values given to [fr] are returned. *)
Definition genhash_fun_update (k : key) (upd : key -> V -> V * Z) (def : V)
    : M (genhash_t V) (update_type * V) :=
  r ← genhash_find_entry k;
  match r.2 with
  | Some (l1, p, l2) =>
      let (newValue, newSize) := upd k p.(en_value) in
      free_value p.(en_value);;
      set_bucket r.1 (l1 ++ mk_entry p.(en_key) (dup_value newValue newSize) p.(en_nvalue) :: l2);;
      mret (MODIFICATION, newValue)
  | None =>
      let (newValue, newSize) := upd k def in
      genhash_store k newValue newSize;;
      mret (NEW, newValue)
  end.

Definition free_item (i : genhash_entry_t V) : M (genhash_t V) unit :=
  free_key i.(en_key);; free_value i.(en_value).

(** The loop of [genhash_delete] after the first entry. *)
Fixpoint delete_loop (k : key) (p : genhash_entry_t V) (next : list (genhash_entry_t V))
    : option (genhash_entry_t V * list (genhash_entry_t V)) :=
  match next with
  | [] => None
  | q :: l =>
      if ops.(hasheq) q.(en_key) k then Some (q, p :: l)
      else match delete_loop k q l with
           | Some (d, l') => Some (d, p :: l')
           | None => None
           end
  end.

Definition genhash_delete (k : key) : M (genhash_t V) Z :=
  n ← bucket_of k;
  l ← get_bucket n;
  let deleteme := match l with
                  | [] => None
                  | p :: next => if ops.(hasheq) p.(en_key) k then Some (p, next)
                                 else delete_loop k p next
                  end in
  match deleteme with
  | None => mret 0
  | Some (d, l') => set_bucket n l';; free_item d;; mret 1
  end.

(** The loop ends when nothing is deleted: the number of entries bounds it. *)
Fixpoint delete_all_loop (fuel : nat) (k : key) (rv : Z) : M (genhash_t V) Z :=
  match fuel with
  | O => crash
  | S f =>
      d ← genhash_delete k;
      if d =? 1 then delete_all_loop f k (swrap 32 (rv + 1)) else mret rv
  end.

Definition genhash_delete_all (k : key) : M (genhash_t V) Z :=
  h ← gets gh_buckets;
  delete_all_loop (S (length (mjoin h))) k 0.

(** An iteration, as the entries that [iterfunc] is called with, in order. *)
Definition genhash_iter : M (genhash_t V) (list (genhash_entry_t V)) :=
  h ← gets gh_buckets;
  mret (mjoin h).

Definition genhash_iter_key (k : key) : M (genhash_t V) (list (genhash_entry_t V)) :=
  n ← bucket_of k;
  l ← get_bucket n;
  mret (filter (fun p => ops.(hasheq) k p.(en_key) = true) l).

(** [count_entries] as the function of an iteration. *)
Definition count_entries (l : list (genhash_entry_t V)) : Z :=
  foldl (fun n _ => swrap 32 (n + 1)) 0 l.

Definition genhash_size : M (genhash_t V) Z := l ← genhash_iter; mret (count_entries l).

Definition genhash_size_for_key (k : key) : M (genhash_t V) Z :=
  l ← genhash_iter_key k; mret (count_entries l).

Fixpoint clear_bucket (i : Z) (l : list (genhash_entry_t V)) : M (genhash_t V) unit :=
  match l with
  | [] => mret tt
  | p :: l' => set_bucket i l';; free_item p;; clear_bucket i l'
  end.

Fixpoint clear_loop (n : nat) (i : Z) : M (genhash_t V) unit :=
  match n with
  | O => mret tt
  | S n' => l ← get_bucket i; clear_bucket i l;; clear_loop n' (i + 1)
  end.

Definition genhash_clear : M (genhash_t V) Z :=
  h ← gets gh_size;
  clear_loop (Z.to_nat h) 0;;
  mret 0.

Definition genhash_free (h : option (genhash_t V)) : option (option (genhash_t V)) :=
  match h with
  | None => Some None
  | Some t => match genhash_clear t with Some (_, t') => Some (Some t') | None => None end
  end.
End model.

(** [genhash_string_hash]: the arithmetic wraps in an [int], and [char] is signed. *)
Definition genhash_string_hash (k : key) : Z :=
  foldl (fun rv c => Z.lxor (swrap 32 (swrap 32 (Z.shiftl rv 5) + rv)) (swrap 8 c)) 5381 k.

(** * The specification: a stack of values for each key *)

(** What the operations on keys must satisfy. *)
Class HashOk {V} (ops : hash_ops V) : Prop := {
  ho_refl k : ops.(hasheq) k k = true;
  ho_sym a b : ops.(hasheq) a b = ops.(hasheq) b a;
  ho_trans a b c : ops.(hasheq) a b = true -> ops.(hasheq) b c = true -> ops.(hasheq) a c = true;
  ho_hash a b : ops.(hasheq) a b = true -> ops.(hashfunc) a = ops.(hashfunc) b;
  ho_dup k : ops.(hasheq) k (dup_key ops k) = true
}.

Inductive gh_op (V : Type) :=
| OpStore (k : key) (v : V) (n : Z)
| OpFind (k : key)
| OpUpdate (k : key) (v : V) (n : Z)
| OpDelete (k : key)
| OpDeleteAll (k : key)
| OpSizeForKey (k : key)
| OpClear.
Arguments OpStore {V}.
Arguments OpFind {V}.
Arguments OpUpdate {V}.
Arguments OpDelete {V}.
Arguments OpDeleteAll {V}.
Arguments OpSizeForKey {V}.
Arguments OpClear {V}.

Inductive gh_res (V : Type) := RUnit | RFound (v : option V) | RUpdate (u : update_type) | RInt (n : Z).
Arguments RUnit {V}.
Arguments RFound {V}.
Arguments RUpdate {V}.
Arguments RInt {V}.

Section spec.
Context {V : Type} (ops : hash_ops V) (calloc_ok : nat -> bool).

Definition run_op (o : gh_op V) : M (genhash_t V) (gh_res V) :=
  match o with
  | OpStore k v n => genhash_store ops calloc_ok k v n;; mret RUnit
  | OpFind k => r ← genhash_find ops k; mret (RFound r)
  | OpUpdate k v n => r ← genhash_update ops calloc_ok k v n; mret (RUpdate r)
  | OpDelete k => r ← genhash_delete ops k; mret (RInt r)
  | OpDeleteAll k => r ← genhash_delete_all ops k; mret (RInt r)
  | OpSizeForKey k => r ← genhash_size_for_key ops k; mret (RInt r)
  | OpClear => r ← genhash_clear ops; mret (RInt r)
  end.

Fixpoint run_ops (os : list (gh_op V)) : M (genhash_t V) (list (gh_res V)) :=
  match os with
  | [] => mret []
  | o :: os' => r ← run_op o; rs ← run_ops os'; mret (r :: rs)
  end.

(** The values under a key with their sizes, the last one stored first. *)
Abbreviation stacks := (key -> list (prod V Z)).

Definition at_key (k : key) (f : list (V * Z) -> list (V * Z)) (S : stacks) : stacks :=
  fun k' => if ops.(hasheq) k k' then f (S k') else S k'.

Definition top_update (v : V) (l : list (V * Z)) : list (V * Z) :=
  match l with [] => [] | (_, n) :: l' => (v, n) :: l' end.

Definition spec_op (o : gh_op V) (S : stacks) : gh_res V * stacks :=
  match o with
  | OpStore k v n => (RUnit, at_key k (cons (dup_value ops v n, n)) S)
  | OpFind k => (RFound (fst <$> head (S k)), S)
  | OpUpdate k v n =>
      match S k with
      | [] => (RUpdate NEW, at_key k (cons (dup_value ops v n, n)) S)
      | _ => (RUpdate MODIFICATION, at_key k (top_update (dup_value ops v n)) S)
      end
  | OpDelete k => (RInt (match S k with [] => 0 | _ => 1 end), at_key k tail S)
  | OpDeleteAll k => (RInt (swrap 32 (Z.of_nat (length (S k)))), at_key k (fun _ => []) S)
  | OpSizeForKey k => (RInt (swrap 32 (Z.of_nat (length (S k)))), S)
  | OpClear => (RInt 0, fun _ => [])
  end.

Fixpoint spec_ops (os : list (gh_op V)) (S : stacks) : list (gh_res V) * stacks :=
  match os with
  | [] => ([], S)
  | o :: os' =>
      let (r, S1) := spec_op o S in
      let (rs, S2) := spec_ops os' S1 in (r :: rs, S2)
  end.

(** ** The representation *)

Definition slot (h : genhash_t V) (k : key) : nat :=
  Z.to_nat (u64 (ops.(hashfunc) k) mod h.(gh_size)).

Definition bucket (h : genhash_t V) (i : nat) : list (genhash_entry_t V) :=
  default [] (h.(gh_buckets) !! i).

Definition matching (k : key) (l : list (genhash_entry_t V)) : list (V * Z) :=
  (fun p => (p.(en_value), p.(en_nvalue))) <$> filter (fun p => ops.(hasheq) k p.(en_key) = true) l.

Definition stack (h : genhash_t V) : stacks := fun k => matching k (bucket h (slot h k)).

Record gh_ok (h : genhash_t V) : Prop := {
  go_size : 0 < h.(gh_size) < 2 ^ 31;
  go_len : Z.of_nat (length h.(gh_buckets)) = h.(gh_size);
  go_slot : forall i l p, h.(gh_buckets) !! i = Some l -> p ∈ l -> slot h p.(en_key) = i
}.

(** The values that are owned by the table, and those that were given back. *)
Definition owned (h : genhash_t V) : list V := (en_value <$> mjoin h.(gh_buckets)) ++ h.(gh_freed_values).

Definition added (o : gh_op V) : list V :=
  match o with OpStore _ v n | OpUpdate _ v n => [dup_value ops v n] | _ => [] end.
End spec.

Section proofs.
Context {V : Type} (ops : hash_ops V) `{!HashOk ops} (calloc_ok : nat -> bool).
Context (Hcalloc : forall n, calloc_ok n = true).

Abbreviation stack := (stack ops).
Abbreviation slot := (slot ops).
Abbreviation matching := (matching ops).
Abbreviation gh_ok := (gh_ok ops).

Lemma eq_class a b c : ops.(hasheq) a b = true -> ops.(hasheq) a c = ops.(hasheq) b c.
Proof.
  intros Hab. destruct (ops.(hasheq) b c) eqn:Hbc; [by eapply ho_trans|].
  destruct (ops.(hasheq) a c) eqn:Hac; [|done]. rewrite <- Hbc. symmetry.
  eapply ho_trans; [|exact Hac]. by rewrite ho_sym.
Qed.

Lemma eq_slot h a b : ops.(hasheq) a b = true -> slot h a = slot h b.
Proof. intros Hab. unfold GenHash.slot. by rewrite (ho_hash a b Hab). Qed.

Lemma slot_range h k : gh_ok h -> 0 <= u64 (ops.(hashfunc) k) mod h.(gh_size) < h.(gh_size).
Proof. intros Hh. apply Z.mod_pos_bound. apply Hh. Qed.

Lemma bucket_of_run h k (Q : Z -> genhash_t V -> Prop) :
  gh_ok h -> Q (Z.of_nat (slot h k)) h -> runs (bucket_of ops k) h Q.
Proof.
  intros Hh HQ. pose proof (slot_range h k Hh) as Hr. pose proof (go_size _ _ Hh) as Hs.
  unfold bucket_of. run.
  - apply negb_true_iff, Z.eqb_neq. lia.
  - apply Z.leb_le. unfold swrap. rewrite Z.mod_small by lia.
    rewrite (proj2 (Z.ltb_lt _ _)) by lia. lia.
  - apply Z.ltb_lt. lia.
  - unfold GenHash.slot in HQ. by rewrite Z2Nat.id in HQ by lia.
Qed.

Lemma bucket_lookup h k : gh_ok h -> h.(gh_buckets) !! slot h k = Some (bucket h (slot h k)).
Proof.
  intros Hh. unfold bucket. destruct (h.(gh_buckets) !! slot h k) eqn:Hl; [done|].
  apply lookup_ge_None in Hl. pose proof (slot_range h k Hh). pose proof (go_len _ _ Hh).
  unfold GenHash.slot in Hl. lia.
Qed.

Lemma get_bucket_run h k (Q : list (genhash_entry_t V) -> genhash_t V -> Prop) :
  gh_ok h -> Q (bucket h (slot h k)) h -> runs (get_bucket (Z.of_nat (slot h k))) h Q.
Proof.
  intros Hh HQ. unfold get_bucket. run; [|exact HQ]. apply zlookup_Some. split; [lia|].
  rewrite Nat2Z.id. by apply bucket_lookup.
Qed.

(** The table with another chain in a bucket. *)
Definition with_bucket (h : genhash_t V) (i : nat) (l : list (genhash_entry_t V)) : genhash_t V :=
  mk_table h.(gh_size) (<[i := l]> h.(gh_buckets)) h.(gh_calls) h.(gh_freed_keys) h.(gh_freed_values).

Lemma set_bucket_run h k l (Q : unit -> genhash_t V -> Prop) :
  gh_ok h -> Q tt (with_bucket h (slot h k) l) -> runs (set_bucket (Z.of_nat (slot h k)) l) h Q.
Proof.
  intros Hh HQ. unfold set_bucket. run; [|exact HQ].
  rewrite zupdate_lt, Nat2Z.id; [done|]. pose proof (bucket_lookup h k Hh) as Hl.
  apply lookup_lt_Some in Hl. lia.
Qed.

Lemma with_bucket_ok h k l :
  gh_ok h -> (forall p, p ∈ l -> slot h p.(en_key) = slot h k) -> gh_ok (with_bucket h (slot h k) l).
Proof.
  intros Hh Hl. destruct Hh as [Hs Hlen Hslot]. constructor; simpl.
  - done.
  - by rewrite length_insert.
  - intros i l' p Hi Hp. change (GenHash.slot ops (with_bucket h (slot h k) l)) with (slot h).
    apply list_lookup_insert_Some in Hi as [(<- & <- & _)|(_ & Hi)]; [by apply Hl|by eapply Hslot].
Qed.

Lemma with_bucket_stack h k l k' :
  gh_ok h -> stack (with_bucket h (slot h k) l) k'
    = if decide (slot h k' = slot h k) then matching k' l else stack h k'.
Proof.
  intros Hh. unfold GenHash.stack, bucket. simpl.
  change (GenHash.slot ops (with_bucket h (slot h k) l)) with (slot h).
  destruct (decide (slot h k' = slot h k)) as [->|Hne].
  - rewrite list_lookup_insert_eq; [done|]. eapply lookup_lt_Some. by apply bucket_lookup.
  - by rewrite list_lookup_insert_ne by congruence.
Qed.

(** A change of the chain of [k] that is one of its stack. *)
Lemma with_bucket_at h k l f :
  gh_ok h -> (forall k', ops.(hasheq) k k' = true -> matching k' l = f (stack h k')) ->
  (forall k', ops.(hasheq) k k' = false -> matching k' l = matching k' (bucket h (slot h k))) ->
  forall k', stack (with_bucket h (slot h k) l) k' = at_key ops k f (stack h) k'.
Proof.
  intros Hh Ht Hf k'. rewrite with_bucket_stack by done. unfold at_key.
  destruct (ops.(hasheq) k k') eqn:Hk.
  - rewrite decide_True by (symmetry; by apply eq_slot). by apply Ht.
  - destruct (decide _) as [He|]; [|done]. rewrite Hf by done. unfold GenHash.stack. by rewrite He.
Qed.

Lemma matching_cons k p l :
  matching k (p :: l) = if ops.(hasheq) k p.(en_key)
    then (p.(en_value), p.(en_nvalue)) :: matching k l else matching k l.
Proof.
  unfold GenHash.matching. rewrite filter_cons. destruct (ops.(hasheq) k (en_key p)) eqn:Hk.
  - by rewrite decide_True.
  - by rewrite decide_False.
Qed.

Lemma matching_app k l1 l2 : matching k (l1 ++ l2) = matching k l1 ++ matching k l2.
Proof. unfold GenHash.matching. by rewrite filter_app, fmap_app. Qed.

(** ** Finding an entry *)

Lemma find_loop_Some k l l1 p l2 :
  find_loop ops k l = Some (l1, p, l2) ->
  l = l1 ++ p :: l2 /\ ops.(hasheq) k p.(en_key) = true /\
  Forall (fun q => ops.(hasheq) k q.(en_key) = false) l1.
Proof.
  revert l1. induction l as [|q l IH]; intros l1; simpl; [done|].
  destruct (ops.(hasheq) k (en_key q)) eqn:Hq; [by intros [= <- <- <-]|].
  destruct (find_loop ops k l) as [[[l1' p'] l2']|]; [|done]. intros [= <- <- <-].
  destruct (IH l1' eq_refl) as (-> & Hp & Hl). auto.
Qed.

Lemma find_loop_None k l :
  find_loop ops k l = None -> Forall (fun q => ops.(hasheq) k q.(en_key) = false) l.
Proof.
  induction l as [|q l IH]; simpl; [done|]. destruct (ops.(hasheq) k (en_key q)) eqn:Hq; [done|].
  destruct (find_loop ops k l) as [[[? ?] ?]|]; [done|]. intros _. constructor; auto.
Qed.

(** The search of [genhash_delete] finds the same entry. *)
Lemma delete_loop_find k p l :
  ops.(hasheq) k p.(en_key) = false ->
  delete_loop ops k p l =
    match find_loop ops k l with Some (l1, q, l2) => Some (q, p :: l1 ++ l2) | None => None end.
Proof.
  revert p. induction l as [|q l IH]; intros p Hp; simpl; [done|].
  rewrite ho_sym. destruct (ops.(hasheq) k (en_key q)) eqn:Hq; [done|].
  rewrite IH by done. by destruct (find_loop ops k l) as [[[? ?] ?]|].
Qed.

Lemma matching_none k k' l :
  ops.(hasheq) k k' = true -> Forall (fun q => ops.(hasheq) k q.(en_key) = false) l -> matching k' l = [].
Proof.
  intros Hk. induction 1 as [|q l Hq _ IH]; [done|]. rewrite matching_cons.
  by rewrite <- (eq_class k k'), Hq by done.
Qed.

(** The stack of a key, from the search of its chain. *)
Lemma found_stack h k l1 p l2 k' :
  find_loop ops k (bucket h (slot h k)) = Some (l1, p, l2) -> ops.(hasheq) k k' = true ->
  stack h k' = (p.(en_value), p.(en_nvalue)) :: matching k' l2.
Proof.
  intros (Hl & Hp & Hn)%find_loop_Some Hk. unfold GenHash.stack.
  rewrite <- (eq_slot h k k' Hk), Hl, matching_app, (matching_none k k') by done.
  rewrite matching_cons. by rewrite <- (eq_class k k'), Hp.
Qed.

Lemma missed_stack h k k' :
  find_loop ops k (bucket h (slot h k)) = None -> ops.(hasheq) k k' = true -> stack h k' = [].
Proof.
  intros Hn%find_loop_None Hk. unfold GenHash.stack. rewrite <- (eq_slot h k k' Hk).
  by apply (matching_none k).
Qed.

(** An entry of the class of [k] does not count for other keys. *)
Lemma matching_other k k' p l1 l2 :
  ops.(hasheq) k p.(en_key) = true -> ops.(hasheq) k k' = false ->
  matching k' (l1 ++ p :: l2) = matching k' (l1 ++ l2).
Proof.
  intros Hp Hk. rewrite !matching_app, matching_cons.
  rewrite (ho_sym k'), <- (eq_class k (en_key p)) by done. by rewrite Hk.
Qed.

Lemma chain_slots h k p : gh_ok h -> p ∈ bucket h (slot h k) -> slot h p.(en_key) = slot h k.
Proof. intros Hh Hp. eapply (go_slot _ _ Hh); [by apply bucket_lookup|done]. Qed.

(** ** Ownership *)

Lemma owned_insert (h : genhash_t V) i l l' :
  h.(gh_buckets) !! i = Some l' -> owned (with_bucket h i l)
    ≡ₚ (en_value <$> l) ++ (en_value <$> mjoin (delete i h.(gh_buckets))) ++ h.(gh_freed_values).
Proof.
  intros Hl. unfold owned. simpl. rewrite app_assoc. f_equiv. rewrite <- fmap_app. f_equiv.
  apply lookup_lt_Some in Hl as Hlt.
  rewrite insert_take_drop by done. rewrite delete_take_drop, !join_app. simpl.
  rewrite !app_assoc. f_equiv. apply Permutation_app_comm.
Qed.

Lemma owned_bucket h k l :
  gh_ok h -> owned (with_bucket h (slot h k) l)
    ≡ₚ (en_value <$> l) ++ (en_value <$> mjoin (delete (slot h k) h.(gh_buckets)))
        ++ h.(gh_freed_values).
Proof. intros Hh. eapply owned_insert. by apply bucket_lookup. Qed.

Lemma owned_at (h : genhash_t V) i l :
  h.(gh_buckets) !! i = Some l -> owned h ≡ₚ (en_value <$> l)
    ++ (en_value <$> mjoin (delete i h.(gh_buckets))) ++ h.(gh_freed_values).
Proof.
  intros Hl. rewrite <- (owned_insert h i l l) by done. unfold with_bucket.
  rewrite list_insert_id by done. by destruct h.
Qed.

Lemma owned_chains h k :
  gh_ok h -> owned h ≡ₚ (en_value <$> bucket h (slot h k))
    ++ (en_value <$> mjoin (delete (slot h k) h.(gh_buckets))) ++ h.(gh_freed_values).
Proof. intros Hh. apply owned_at. by apply bucket_lookup. Qed.

(** Freed values are recorded; the chains do not change. *)
Definition freeing (ks : list key) (vs : list V) (h : genhash_t V) : genhash_t V :=
  mk_table h.(gh_size) h.(gh_buckets) h.(gh_calls) (ks ++ h.(gh_freed_keys))
    (vs ++ h.(gh_freed_values)).

Lemma freeing_ok ks vs h : gh_ok h -> gh_ok (freeing ks vs h).
Proof. intros [? ? ?]. by constructor. Qed.

Lemma free_value_run v h (Q : unit -> genhash_t V -> Prop) :
  Q tt (freeing [] (if ops.(freeValue) then [v] else []) h) -> runs (free_value ops v) h Q.
Proof. intros HQ. unfold free_value. destruct (freeValue ops); run; [exact HQ|]. by destruct h. Qed.

Lemma free_item_run p h (Q : unit -> genhash_t V -> Prop) :
  Q tt (freeing (if ops.(freeKey) then [p.(en_key)] else [])
          (if ops.(freeValue) then [p.(en_value)] else []) h) -> runs (free_item ops p) h Q.
Proof.
  intros HQ. unfold free_item, free_key. destruct (freeKey ops); run.
  - apply free_value_run. unfold freeing in *. simpl in *. exact HQ.
  - by apply free_value_run.
Qed.

(** ** The operations *)

(** What an operation does: the invariant, the stacks, and no value is lost or freed
    twice. *)
Definition effect (h : genhash_t V) (f : (key -> list (V * Z)) -> key -> list (V * Z)) (new : list V)
    (h' : genhash_t V) : Prop :=
  gh_ok h' /\ (forall k, stack h' k = f (stack h) k) /\
  (ops.(freeValue) = true -> owned h' ≡ₚ new ++ owned h).

Lemma effect_refl h : gh_ok h -> effect h (fun S => S) [] h.
Proof. by split. Qed.

Lemma store_run h k v n (Q : unit -> genhash_t V -> Prop) :
  gh_ok h ->
  (forall h', effect h (at_key ops k (cons (dup_value ops v n, n))) [dup_value ops v n] h' -> Q tt h') ->
  runs (genhash_store ops calloc_ok k v n) h Q.
Proof.
  intros Hh HQ. unfold genhash_store, calloc_entry. run. apply bucket_of_run; [done|]. run; [done|].
  set (h1 := mk_table _ _ (S _) _ _). assert (Hh1 : gh_ok h1) by (destruct Hh; by constructor).
  change (GenHash.slot ops h k) with (slot h1 k). apply get_bucket_run; [done|].
  apply set_bucket_run; [done|]. apply HQ. set (p := mk_entry (dup_key ops k) _ _).
  split; [|split].
  - apply with_bucket_ok; [done|]. intros q [->|Hq]%elem_of_cons; [|by apply chain_slots].
    symmetry. apply eq_slot. apply ho_dup.
  - apply (with_bucket_at h1 k); [done|..].
    + intros k' Hk. rewrite matching_cons. simpl en_key.
      rewrite <- (eq_class k k'), ho_dup by done. unfold GenHash.stack.
      by rewrite <- (eq_slot h1 k k' Hk).
    + intros k' Hk. rewrite matching_cons. simpl en_key.
      by rewrite (ho_sym k'), <- (eq_class k (dup_key ops k)), Hk by apply ho_dup.
  - intros _. change (owned h) with (owned h1). by rewrite (owned_bucket h1 k), (owned_chains h1 k).
Qed.

Lemma find_run h k (Q : option V -> genhash_t V -> Prop) :
  gh_ok h -> Q (fst <$> head (stack h k)) h -> runs (genhash_find ops k) h Q.
Proof.
  intros Hh HQ. unfold genhash_find, genhash_find_entry. run. apply bucket_of_run; [done|]. run.
  apply get_bucket_run; [done|]. run. cbn [snd].
  destruct (find_loop ops k _) as [[[l1 p] l2]|] eqn:Hf.
  - by rewrite (found_stack h k l1 p l2) in HQ by (done || apply ho_refl).
  - by rewrite (missed_stack h k) in HQ by (done || apply ho_refl).
Qed.

Lemma update_run h k v n (Q : update_type -> genhash_t V -> Prop) :
  gh_ok h ->
  (forall h', stack h k = [] ->
     effect h (at_key ops k (cons (dup_value ops v n, n))) [dup_value ops v n] h' -> Q NEW h') ->
  (forall h', stack h k <> [] ->
     effect h (at_key ops k (top_update (dup_value ops v n))) [dup_value ops v n] h' -> Q MODIFICATION h') ->
  runs (genhash_update ops calloc_ok k v n) h Q.
Proof.
  intros Hh HN HM. unfold genhash_update, genhash_find_entry. run. apply bucket_of_run; [done|]. run.
  apply get_bucket_run; [done|]. run. cbn [fst snd].
  destruct (find_loop ops k _) as [[[l1 p] l2]|] eqn:Hf.
  2:{ run. apply store_run; [done|]. intros h' He. run. apply HN; [|done].
      apply (missed_stack h k); [done|apply ho_refl]. }
  pose proof (find_loop_Some _ _ _ _ _ Hf) as (Hl & Hp & Hn1).
  run. apply free_value_run. set (h1 := freeing _ _ h). assert (Hh1 : gh_ok h1) by (by apply freeing_ok).
  change (GenHash.slot ops h k) with (slot h1 k). run. apply set_bucket_run; [done|]. run. apply HM.
  { by rewrite (found_stack h k l1 p l2) by (done || apply ho_refl). }
  set (p' := mk_entry (en_key p) _ _). split; [|split].
  - apply with_bucket_ok; [done|]. change (slot h1) with (slot h). intros q Hq.
    assert (Hin : exists q0, q0 ∈ l1 ++ p :: l2 /\ en_key q = en_key q0).
    { apply elem_of_app in Hq as [Hq|[->|Hq]%elem_of_cons]; [exists q|exists p|exists q];
        rewrite elem_of_app, elem_of_cons; auto. }
    destruct Hin as (q0 & Hq0 & ->). rewrite <- Hl in Hq0. by apply chain_slots.
  - apply (with_bucket_at h1 k); [done|..]; change (bucket h1) with (bucket h);
      change (stack h1) with (stack h); change (slot h1) with (slot h).
    + intros k' Hk. rewrite matching_app, (matching_none k k'), matching_cons by done. simpl en_key.
      by rewrite <- (eq_class k k'), Hp, (found_stack h k l1 p l2 k') by done.
    + intros k' Hk. rewrite Hl, !(matching_other k k') by done. done.
  - intros Hfr. rewrite (owned_bucket h1 k), (owned_chains h k) by done.
    change (slot h1) with (slot h). unfold h1 at 2. simpl. rewrite Hfr, Hl, !fmap_app, !fmap_cons. simpl.
    rewrite <- !Permutation_middle. simpl. rewrite !app_assoc. by rewrite Permutation_swap.
Qed.

Lemma delete_run h k (Q : Z -> genhash_t V -> Prop) :
  gh_ok h ->
  (stack h k = [] -> effect h (at_key ops k tail) [] h -> Q 0 h) ->
  (forall h', stack h k <> [] -> (length (mjoin h'.(gh_buckets)) < length (mjoin h.(gh_buckets)))%nat ->
     effect h (at_key ops k tail) [] h' -> Q 1 h') ->
  runs (genhash_delete ops k) h Q.
Proof.
  intros Hh H0 H1. unfold genhash_delete. run. apply bucket_of_run; [done|]. run.
  apply get_bucket_run; [done|]. run.
  assert (Hd : match bucket h (slot h k) with
    | [] => None
    | p :: next => if hasheq ops (en_key p) k then Some (p, next) else delete_loop ops k p next
    end = match find_loop ops k (bucket h (slot h k)) with
          | Some (l1, q, l2) => Some (q, l1 ++ l2) | None => None end).
  { destruct (bucket h (slot h k)) as [|p next]; [done|]. simpl. rewrite ho_sym.
    destruct (hasheq ops k (en_key p)) eqn:Hp; [done|]. rewrite delete_loop_find by done.
    by destruct (find_loop ops k next) as [[[? ?] ?]|]. }
  rewrite Hd. clear Hd. destruct (find_loop ops k _) as [[[l1 p] l2]|] eqn:Hf.
  2:{ run. pose proof (missed_stack h k k Hf (ho_refl k)) as Hs. apply H0; [done|].
      split; [done|]. split; [|done]. intros k'. unfold at_key.
      destruct (hasheq ops k k') eqn:Hk; [|done]. by rewrite (missed_stack h k k'). }
  pose proof (find_loop_Some _ _ _ _ _ Hf) as (Hl & Hp & Hn1).
  run. apply set_bucket_run; [done|]. run. apply free_item_run. run.
  set (h1 := with_bucket _ _ _).
  assert (Hh1 : gh_ok h1).
  { apply with_bucket_ok; [done|]. intros q Hq. apply chain_slots; [done|]. rewrite Hl.
    apply elem_of_app in Hq as [Hq|Hq]; rewrite elem_of_app, elem_of_cons; auto. }
  apply H1.
  - by rewrite (found_stack h k l1 p l2) by (done || apply ho_refl).
  - simpl. pose proof (bucket_lookup h k Hh) as Hb. apply lookup_lt_Some in Hb as Hlt.
    assert (Hm : mjoin h.(gh_buckets) = mjoin (take (slot h k) h.(gh_buckets)) ++ bucket h (slot h k)
      ++ mjoin (drop (S (slot h k)) h.(gh_buckets))).
    { transitivity (mjoin (take (slot h k) h.(gh_buckets) ++ bucket h (slot h k)
        :: drop (S (slot h k)) h.(gh_buckets))); [by rewrite take_drop_middle|]. by rewrite join_app. }
    rewrite Hm, insert_take_drop, join_app by done. simpl.
    rewrite !length_app, Hl, !length_app. simpl. lia.
  - split; [by apply freeing_ok|]. split.
    + change (GenHash.stack ops (freeing _ _ h1)) with (stack h1). apply (with_bucket_at h k); [done|..].
      * intros k' Hk. rewrite (found_stack h k l1 p l2 k'), matching_app, (matching_none k k') by done. done.
      * intros k' Hk. rewrite Hl. by rewrite (matching_other k k').
    + intros Hfr. assert (Ho : owned (freeing (if freeKey ops then [en_key p] else [])
        (if freeValue ops then [en_value p] else []) h1) ≡ₚ en_value p :: owned h1).
      { unfold owned. simpl. rewrite Hfr. simpl. by rewrite <- Permutation_middle. }
      rewrite Ho. unfold h1. rewrite (owned_bucket h k), (owned_chains h k), Hl by done.
      rewrite !fmap_app, fmap_cons. rewrite <- Permutation_middle. done.
Qed.

Lemma swrap_add x y : swrap 32 (swrap 32 x + y) = swrap 32 (x + y).
Proof.
  unfold swrap. set (m := x mod 2 ^ 32).
  assert (Hm : (if m <? 2 ^ (32 - 1) then m else m - 2 ^ 32) mod 2 ^ 32 = m).
  { destruct (m <? 2 ^ (32 - 1)); [|rewrite <- (Z.mod_add _ 1) by lia; rewrite Z.mul_1_l, Z.sub_add];
      unfold m; by rewrite Z.mod_mod by lia. }
  rewrite <- (Zplus_mod_idemp_l (if _ <? _ then _ else _)), Hm. unfold m. by rewrite Zplus_mod_idemp_l.
Qed.

Lemma delete_all_run fuel : forall h k rv (Q : Z -> genhash_t V -> Prop),
  gh_ok h -> (length (mjoin h.(gh_buckets)) < fuel)%nat ->
  (forall h', effect h (at_key ops k (fun _ => [])) [] h' ->
     Q (swrap 32 (rv + Z.of_nat (length (stack h k)))) h') ->
  runs (delete_all_loop ops fuel k (swrap 32 rv)) h Q.
Proof.
  induction fuel as [|fuel IH]; intros h k rv Q Hh Hf HQ; [lia|]. cbn [delete_all_loop]. run.
  apply delete_run; [done|..].
  - intros Hs He. simpl. run. rewrite Hs, Z.add_0_r in HQ. apply HQ. split; [done|]. split; [|done].
    intros k'. unfold at_key. destruct (hasheq ops k k') eqn:Hk; [|done].
    destruct He as (_ & He & _). specialize (He k'). unfold at_key in He. rewrite Hk in He.
    assert (Hkk : stack h k = stack h k').
    { unfold GenHash.stack. rewrite (eq_slot h k k' Hk). unfold GenHash.matching. f_equal.
      apply list_filter_iff. intros q. by rewrite (eq_class k k' _ Hk). }
    by rewrite <- Hkk, Hs.
  - intros h1 Hs Hlt (Hh1 & Hst1 & Ho1). simpl. rewrite swrap_add.
    apply IH; [done|lia|]. intros h2 (Hh2 & Hst2 & Ho2).
    replace (rv + Z.of_nat (length (stack h k))) with (rv + 1 + Z.of_nat (length (stack h1 k))) in HQ.
    + apply HQ. split; [done|]. split.
      * intros k'. rewrite Hst2. unfold at_key. destruct (hasheq ops k k') eqn:Hk; [done|].
        rewrite Hst1. unfold at_key. by rewrite Hk.
      * intros Hfr. rewrite (Ho2 Hfr). simpl. rewrite (Ho1 Hfr). done.
    + rewrite Hst1. unfold at_key. rewrite ho_refl. destruct (stack h k); [done|]. simpl. lia.
Qed.

Lemma count_loop (l : list (genhash_entry_t V)) n :
  foldl (fun c _ => swrap 32 (c + 1)) (swrap 32 n) l = swrap 32 (n + Z.of_nat (length l)).
Proof.
  revert n. induction l as [|p l IH]; intros n; simpl; [by rewrite Z.add_0_r|].
  rewrite swrap_add, IH. f_equal. lia.
Qed.

Lemma count_entries_length (l : list (genhash_entry_t V)) :
  count_entries l = swrap 32 (Z.of_nat (length l)).
Proof. apply (count_loop l 0). Qed.

(** ** Clearing the table *)

Lemma delete_insert_same {A} (l : list A) i x : delete i (<[i := x]> l) = delete i l.
Proof. revert i. induction l as [|y l IH]; intros [|i]; simpl; [done..|]. by rewrite IH. Qed.

Lemma clear_bucket_run i l : forall h (Q : unit -> genhash_t V -> Prop),
  gh_ok h -> h.(gh_buckets) !! i = Some l ->
  (forall h', gh_ok h' -> h'.(gh_size) = h.(gh_size) -> h'.(gh_buckets) = <[i := []]> h.(gh_buckets) ->
     (ops.(freeValue) = true -> owned h' ≡ₚ owned h) -> Q tt h') ->
  runs (clear_bucket ops (Z.of_nat i) l) h Q.
Proof.
  induction l as [|p l IH]; intros h Q Hh Hl HQ; cbn [clear_bucket].
  - run. apply HQ; [done|done| |done]. by rewrite list_insert_id.
  - apply lookup_lt_Some in Hl as Hlt. run. unfold set_bucket. run.
    { apply zupdate_lt. lia. }
    rewrite Nat2Z.id. apply free_item_run. set (h1 := freeing _ _ _).
    assert (Hh1 : gh_ok h1).
    { apply freeing_ok. destruct Hh as [Hs Hlen Hslot]. constructor; simpl; [done|by rewrite length_insert|].
      intros j l' q Hj Hq. apply list_lookup_insert_Some in Hj as [(<- & <- & _)|(_ & Hj)];
        [eapply (Hslot i); [done|by right]|by eapply (Hslot j)]. }
    apply IH; [done|by apply list_lookup_insert_eq|]. intros h' Hh' Hs' Hb' Ho'.
    apply HQ; [done|by rewrite Hs'|rewrite Hb'; simpl; by rewrite list_insert_insert_eq|]. intros Hfr.
    rewrite (Ho' Hfr), (owned_at h i (p :: l) Hl), (owned_at h1 i l) by (by apply list_lookup_insert_eq).
    simpl. rewrite Hfr, delete_insert_same. simpl. rewrite !app_assoc. by rewrite <- Permutation_middle.
Qed.

Lemma clear_loop_run n : forall i h (Q : unit -> genhash_t V -> Prop),
  gh_ok h -> (i + n = length h.(gh_buckets))%nat ->
  (forall j l, (j < i)%nat -> h.(gh_buckets) !! j = Some l -> l = []) ->
  (forall h', effect h (fun _ _ => []) [] h' -> Q tt h') ->
  runs (clear_loop ops n (Z.of_nat i)) h Q.
Proof.
  induction n as [|n IH]; intros i h Q Hh Hn Hz HQ; cbn [clear_loop].
  - run. apply HQ. split; [done|]. split; [|done]. intros k. unfold GenHash.stack.
    rewrite (Hz (slot h k) (bucket h (slot h k))); [done| |by apply bucket_lookup].
    rewrite Nat.add_0_r in Hn. rewrite Hn. eapply lookup_lt_Some. by apply bucket_lookup.
  - destruct (lookup_lt_is_Some_2 h.(gh_buckets) i) as [l Hl]; [lia|]. run. unfold get_bucket. run.
    { apply zlookup_Some. rewrite Nat2Z.id. split; [lia|exact Hl]. }
    apply clear_bucket_run; [done|done|]. intros h1 Hh1 Hs1 Hb1 Ho1.
    replace (Z.of_nat i + 1) with (Z.of_nat (S i)) by lia. apply IH; [done|rewrite Hb1, length_insert; lia|..].
    + intros j l' Hj. rewrite Hb1. intros Hl'.
      apply list_lookup_insert_Some in Hl' as [(_ & <- & _)|(Hne & Hl')]; [done|]. apply (Hz j); [lia|done].
    + intros h2 (Hh2 & Hs2 & Ho2). apply HQ. split; [done|]. split; [done|]. intros Hfr.
      by rewrite (Ho2 Hfr), (Ho1 Hfr).
Qed.

Lemma clear_run h (Q : Z -> genhash_t V -> Prop) :
  gh_ok h -> (forall h', effect h (fun _ _ => []) [] h' -> Q 0 h') -> runs (genhash_clear ops) h Q.
Proof.
  intros Hh HQ. unfold genhash_clear. run. apply (clear_loop_run _ 0%nat); [done| |lia|].
  - pose proof (go_len _ _ Hh). simpl. lia.
  - intros h' He. run. by apply HQ.
Qed.

Lemma run_op_run o h (Q : gh_res V -> genhash_t V -> Prop) :
  gh_ok h ->
  (forall h', gh_ok h' -> (forall k, stack h' k = (spec_op ops o (stack h)).2 k) ->
     (ops.(freeValue) = true -> owned h' ≡ₚ added ops o ++ owned h) ->
     Q (spec_op ops o (stack h)).1 h') ->
  runs (run_op ops calloc_ok o) h Q.
Proof.
  intros Hh HQ. destruct o as [k v n|k|k v n|k|k|k|]; cbn [run_op]; apply runs_bind.
  - apply store_run; [done|]. intros h' (Hh' & Hs & Ho). run. by apply HQ.
  - apply find_run; [done|]. run. by apply HQ.
  - apply update_run; [done|..]; intros h' Hk (Hh' & Hs & Ho); run;
      cbn [spec_op] in HQ; destruct (stack h k); try done; by apply HQ.
  - apply delete_run; [done|..].
    + intros Hk (Hh' & Hs & Ho). run. cbn [spec_op] in HQ. rewrite Hk in HQ. by apply HQ.
    + intros h' Hk _ (Hh' & Hs & Ho). run. cbn [spec_op] in HQ. destruct (stack h k); [done|]. by apply HQ.
  - unfold genhash_delete_all. run. change 0 with (swrap 32 0). apply delete_all_run; [done|lia|].
    intros h' (Hh' & Hs & Ho). run. by apply HQ.
  - unfold genhash_size_for_key, genhash_iter_key. run. apply bucket_of_run; [done|]. run.
    apply get_bucket_run; [done|]. run. rewrite count_entries_length.
    replace (length (filter _ _)) with (length (stack h k)) by (apply length_fmap). by apply HQ.
  - apply clear_run; [done|]. intros h' (Hh' & Hs & Ho). run. by apply HQ.
Qed.

Lemma spec_op_proper o (S S' : key -> list (V * Z)) :
  (forall k, S k = S' k) ->
  (spec_op ops o S).1 = (spec_op ops o S').1 /\ forall k, (spec_op ops o S).2 k = (spec_op ops o S').2 k.
Proof.
  intros HS. destruct o as [k v n|k|k v n|k|k|k|]; cbn [spec_op]; unfold at_key; rewrite ?HS.
  3: destruct (S' k).
  all: split; [done|]; intros k'; simpl; by rewrite ?HS.
Qed.

Lemma spec_ops_proper os : forall (S S' : key -> list (V * Z)),
  (forall k, S k = S' k) ->
  (spec_ops ops os S).1 = (spec_ops ops os S').1 /\ forall k, (spec_ops ops os S).2 k = (spec_ops ops os S').2 k.
Proof.
  induction os as [|o os IH]; intros S S' HS; simpl; [by split|].
  destruct (spec_op_proper o S S' HS) as [Hr Hs].
  destruct (spec_op ops o S) as [r1 S1], (spec_op ops o S') as [r1' S1']. simpl in *.
  destruct (IH S1 S1' Hs) as [Hrs Hss].
  destruct (spec_ops ops os S1), (spec_ops ops os S1'). simpl in *. split; congruence.
Qed.
End proofs.

(** * Properties *)

Section claims.
Context {V : Type} (ops : hash_ops V) `{!HashOk ops} (calloc_ok : nat -> bool).

(** C28: the table implements a stack of values for each key: over every sequence of
    stores, lookups, updates, deletions, counts and clearings the results are those of the
    specification, in which a store pushes a value, a lookup returns and an update
    replaces the last one, and a deletion uncovers the one stored before; keys that
    compare equal have the same stack, and other keys are not affected. When values
    are freed, every value that was put into the table is either still in it or was
    freed exactly once. *)
Theorem genhash_refines os h :
  (forall n, calloc_ok n = true) -> gh_ok ops h ->
  runs (run_ops ops calloc_ok os) h (fun rs h' =>
    gh_ok ops h' /\ rs = (spec_ops ops os (stack ops h)).1 /\
    (forall k, stack ops h' k = (spec_ops ops os (stack ops h)).2 k) /\
    (ops.(freeValue) = true -> owned h' ≡ₚ mjoin (added ops <$> reverse os) ++ owned h)).
Proof.
  intros Hc. revert h. induction os as [|o os IH]; intros h Hh; cbn [run_ops]; [by run|].
  run. apply run_op_run; [done|done|done|]. intros h1 Hh1 Hs1 Ho1. run.
  eapply runs_mono; [by apply IH|]. intros rs h2 (Hh2 & -> & Hs2 & Ho2). run. cbn [spec_ops].
  destruct (spec_op ops o (stack ops h)) as [r S1] eqn:Hso. simpl in Hs1.
  destruct (spec_ops_proper ops os _ _ Hs1) as [Hr Hss].
  destruct (spec_ops ops os S1) as [rs' S2] eqn:Hsos. cbn [fst snd] in *.
  split; [done|]. split; [by rewrite Hr|]. split; [intros k; by rewrite Hs2|].
  intros Hfr. rewrite (Ho2 Hfr), (Ho1 Hfr), reverse_cons, fmap_app, join_app. simpl.
  by rewrite app_nil_r, app_assoc.
Qed.

(** The size of a table, by the integer part of the logarithm. *)
Definition size_of_log (l : nat) : option Z :=
  let magn := u64 (Z.of_nat l * 1000000 / 693147 - 1) in
  let magn := if swrap 32 magn <? 0 then 0 else magn in
  if magn <? 30 then zlookup prime_size_table magn else None.

Lemma size_of_log_ok l : (l <= 21)%nat -> exists size, size_of_log l = Some size /\
  size ∈ prime_size_table.
Proof.
  intros Hl. assert (Hb : forallb (fun l => match size_of_log l with
    | Some size => bool_decide (size ∈ prime_size_table) | None => false end) (seq 0 22) = true)
    by (vm_compute; reflexivity).
  rewrite forallb_forall in Hb. specialize (Hb l). destruct (size_of_log l) as [size|].
  - exists size. split; [done|]. apply (bool_decide_eq_true_1 _), Hb, in_seq. lia.
  - discriminate Hb. apply in_seq. lia.
Qed.

Lemma prime_sizes size : size ∈ prime_size_table -> 3 <= size < 2 ^ 31.
Proof.
  intros Hs. assert (Hb : Forall (fun size => 3 <= size < 2 ^ 31) prime_size_table)
    by (repeat constructor; vm_compute; congruence).
  rewrite Forall_forall in Hb. by apply Hb.
Qed.

Lemma int_log_bound x : 0 <= int_log x /\ (Z.to_nat (int_log x) <= 21)%nat.
Proof.
  unfold int_log. split; [lia|]. rewrite Nat2Z.id.
  apply (length_filter (fun p => p <= x) powers_of_e).
Qed.

Lemma init_run est :
  paired ops.(dupKey) ops.(freeKey) = true -> paired ops.(dupValue) ops.(freeValue) = true ->
  calloc_ok 0 = true -> 1 <= est < 2 ^ 31 ->
  exists h, genhash_init ops calloc_ok est = Some (Some h) /\ gh_ok ops h /\
    h.(gh_size) ∈ prime_size_table /\ forall k, stack ops h k = [].
Proof.
  intros Hk Hv Hc He. unfold genhash_init. rewrite (proj2 (Z.ltb_ge est 1)), Hk, Hv, Hc by lia.
  cbn [negb]. destruct (int_log_bound est) as [Hl0 Hl].
  destruct (size_of_log_ok _ Hl) as (size & Hs & Hin). pose proof (prime_sizes size Hin) as Hr.
  assert (Hes : estimate_table_size est = Some size).
  { unfold estimate_table_size, magnitude. rewrite (proj2 (Z.ltb_lt 0 est)) by lia. cbn [negb].
    unfold size_of_log in Hs. by rewrite Z2Nat.id in Hs. }
  rewrite Hes. eexists. split; [done|]. split; [|split; [done|]].
  - constructor; simpl; [lia|rewrite length_replicate; lia|].
    intros i l p [-> _]%lookup_replicate_1 Hp. by apply not_elem_of_nil in Hp.
  - intros k. unfold stack, bucket. simpl.
    destruct (replicate _ _ !! _) as [l|] eqn:Hlk; [|done]. by apply lookup_replicate_1 in Hlk as [-> _].
Qed.

(** a new table for an estimate of up to 2^31 - 1 entries has one of the prime
    numbers of buckets, all empty; the assertions of the computation of its size hold. *)
Theorem genhash_init_ok est :
  paired ops.(dupKey) ops.(freeKey) = true -> paired ops.(dupValue) ops.(freeValue) = true ->
  calloc_ok 0 = true -> 1 <= est < 2 ^ 31 ->
  exists h, genhash_init ops calloc_ok est = Some (Some h) /\ gh_ok ops h /\
    h.(gh_size) ∈ prime_size_table /\ forall k, stack ops h k = [].
Proof. apply init_run. Qed.

(** An update keeps the size of the value it replaces: an iteration then passes
    the new value with the size of the old one. *)
Theorem genhash_update_stale_size h k v n w n' l :
  (forall n, calloc_ok n = true) -> gh_ok ops h -> stack ops h k = (w, n') :: l ->
  runs (genhash_update ops calloc_ok k v n;; genhash_iter_key ops k) h (fun es _ =>
    (fun p => (p.(en_value), p.(en_nvalue))) <$> es = (dup_value ops v n, n') :: l).
Proof.
  intros Hc Hh Hs. run. apply update_run; [done|done|done|by rewrite Hs|].
  intros h' _ (Hh' & Hst & _). unfold genhash_iter_key. run. apply bucket_of_run; [done|]. run.
  apply get_bucket_run; [done|]. run. change (fmap _ _) with (stack ops h' k).
  rewrite Hst. unfold at_key. by rewrite ho_refl, Hs.
Qed.
End claims.

(** ** Witnesses *)

(** Byte strings compared by [memcmp], as in [topkeys.c], with values that are
    numbers. *)
Definition demo_ops : hash_ops Z :=
  mk_ops genhash_string_hash (fun a b => bool_decide (a = b)) None (Some (fun v _ => v)) false true.

#[global] Instance demo_ops_ok : HashOk demo_ops.
Proof.
  constructor; simpl.
  - intros k. by apply bool_decide_eq_true.
  - intros a b. apply bool_decide_ext. by split.
  - intros a b c ->%bool_decide_eq_true ->%bool_decide_eq_true. by apply bool_decide_eq_true.
  - by intros a b ->%bool_decide_eq_true.
  - intros k. by apply bool_decide_eq_true.
Qed.

Definition demo_table : genhash_t Z := mk_table 3 [[]; []; []] 1 [] [].

Lemma demo_table_ok : gh_ok demo_ops demo_table.
Proof.
  constructor; [vm_compute; split; congruence|done|]. intros i l p Hl Hp. exfalso.
  destruct i as [|[|[|i]]]; [injection Hl as <-|injection Hl as <-|injection Hl as <-|done];
    by apply not_elem_of_nil in Hp.
Qed.

Lemma genhash_refines_witness :
  exists h', run_ops demo_ops (fun _ => true)
      [OpStore [97] 1 4; OpStore [97] 2 4; OpFind [97]; OpDelete [97]; OpFind [97];
       OpUpdate [98] 5 4; OpDeleteAll [97]; OpFind [97]] demo_table
    = Some ([RUnit; RUnit; RFound (Some 2); RInt 1; RFound (Some 1); RUpdate NEW; RInt 1;
             RFound None], h') /\ owned h' ≡ₚ [5; 2; 1].
Proof.
  destruct (genhash_refines demo_ops (fun _ => true)
    [OpStore [97] 1 4; OpStore [97] 2 4; OpFind [97]; OpDelete [97]; OpFind [97];
     OpUpdate [98] 5 4; OpDeleteAll [97]; OpFind [97]] demo_table)
    as (rs & h' & Hr & _ & -> & _ & Ho); [done|apply demo_table_ok|].
  exists h'. split; [exact Hr|]. exact (Ho eq_refl).
Defined.

Lemma genhash_init_ok_witness :
  exists h, genhash_init demo_ops (fun _ => true) 1000 = Some (Some h) /\ gh_ok demo_ops h /\
    h.(gh_size) = 383.
Proof.
  destruct (genhash_init_ok demo_ops (fun _ => true) 1000) as (h & Hh & Hok & _);
    [reflexivity|reflexivity|reflexivity|lia|]. exists h. split; [exact Hh|]. split; [exact Hok|].
  vm_compute in Hh. by injection Hh as <-.
Defined.

Lemma genhash_update_stale_size_witness :
  exists es h', (genhash_update demo_ops (fun _ => true) [97] 9 8;; genhash_iter_key demo_ops [97])
      (mk_table 3 [[]; [mk_entry [97] 7 4]; []] 1 [] []) = Some (es, h') /\
    (fun p => (en_value p, en_nvalue p)) <$> es = [(9, 4)].
Proof.
  assert (Hok : gh_ok demo_ops (mk_table 3 [[]; [mk_entry [97] 7 4]; []] 1 [] [])).
  { constructor; [vm_compute; split; congruence|done|]. intros i l p Hl Hp.
    destruct i as [|[|[|i]]]; [injection Hl as <-|injection Hl as <-|injection Hl as <-|done];
      try (by apply not_elem_of_nil in Hp). apply list_elem_of_singleton in Hp as ->.
    vm_compute. reflexivity. }
  destruct (genhash_update_stale_size demo_ops (fun _ => true)
    (mk_table 3 [[]; [mk_entry [97] 7 4]; []] 1 [] []) [97] 9 8 7 4 []) as (es & h' & Hr & He);
    [done|exact Hok|vm_compute; reflexivity|].
  exists es, h'. split; [exact Hr|exact He].
Defined.
