(* ===== verification/TopKeys.v ===== *)
(** * The most recently used keys of a bucket

    [engines/bucket_engine/topkeys.c]: counters for the keys that were used last, in
    a doubly linked ring with a sentinel and an index by key ([GenHash]). The
    [dlist_t] part of an item and the rest of it are two maps on the same addresses,
    as the code casts between them. *)
From Stdlib Require Import ZArith Lia SpecFloat.
From stdpp Require Import strings gmap prelude.
From S2P Require Import Prelude Util GenHash Lru.

#[local] Set Warnings "-clear-no-such-hyp".

(** [TK_OPS]: the operations that are counted. *)
Inductive tk_op :=
| get_hits | get_misses | cmd_set | incr_hits | incr_misses | decr_hits | decr_misses
| delete_hits | delete_misses | evictions | cas_hits | cas_badval | cas_misses | get_replica
| evict | getl | unlock | get_meta | set_meta | del_meta.

Definition TK_OPS : list (tk_op * string) :=
  [(get_hits, "get_hits"); (get_misses, "get_misses"); (cmd_set, "cmd_set");
   (incr_hits, "incr_hits"); (incr_misses, "incr_misses"); (decr_hits, "decr_hits");
   (decr_misses, "decr_misses"); (delete_hits, "delete_hits"); (delete_misses, "delete_misses");
   (evictions, "evictions"); (cas_hits, "cas_hits"); (cas_badval, "cas_badval");
   (cas_misses, "cas_misses"); (get_replica, "get_replica"); (evict, "evict"); (getl, "getl");
   (unlock, "unlock"); (get_meta, "get_meta"); (set_meta, "set_meta"); (del_meta, "del_meta")]%string.

Definition TK_MAX_VAL_LEN : Z := 500.
Definition TK_SHARDS : nat := 8.

#[global] Instance tk_op_eq_dec : EqDecision tk_op.
Proof. solve_decision. Defined.

(** [topkey_item_t] without its links; the key follows the structure in memory. *)
Record topkey_item_t := mk_ti {
  ti_ctime : Z;
  ti_atime : Z;
  ti_counts : tk_op -> Z;
  ti_key : key
}.

(** [topkeys_t]: [tk_links] are the [dlist_t]s (previous, next), with the sentinel
    [tk->list] at the address 0. *)
Record topkeys_t := mk_tk {
  tk_links : gmap Z (Z * Z);
  tk_items : gmap Z topkey_item_t;
  tk_hash : genhash_t Z;
  tk_nkeys : Z;
  tk_max_keys : Z
}.

Definition LIST : Z := 0.

Definition set_tk_links (f : gmap Z (Z * Z) -> gmap Z (Z * Z)) (t : topkeys_t) : topkeys_t :=
  mk_tk (f t.(tk_links)) t.(tk_items) t.(tk_hash) t.(tk_nkeys) t.(tk_max_keys).
Definition set_tk_items (f : gmap Z topkey_item_t -> gmap Z topkey_item_t) (t : topkeys_t) : topkeys_t :=
  mk_tk t.(tk_links) (f t.(tk_items)) t.(tk_hash) t.(tk_nkeys) t.(tk_max_keys).
Definition set_tk_hash (h : genhash_t Z) (t : topkeys_t) : topkeys_t :=
  mk_tk t.(tk_links) t.(tk_items) h t.(tk_nkeys) t.(tk_max_keys).
Definition set_tk_nkeys (n : Z) (t : topkeys_t) : topkeys_t :=
  mk_tk t.(tk_links) t.(tk_items) t.(tk_hash) n t.(tk_max_keys).

Abbreviation T := (M topkeys_t).

(** The comparison of [topkeys.c] on keys, and the operations of its table: nothing
    is duplicated or freed. *)
Definition my_hash_eq (k1 k2 : key) : bool :=
  (Z.of_nat (length k1) =? Z.of_nat (length k2)) && bool_decide (k1 = k2).

Definition my_hash_ops : hash_ops Z :=
  mk_ops genhash_string_hash my_hash_eq None None false false.

Section model.
(** [calloc] for items: an address that is not in use, or [None] when there is no
    memory; for entries of the table [calloc_ok] tells whether it succeeds. *)
Context (new_address : gset Z -> option Z) (calloc_ok : nat -> bool).

(** An operation on the table. *)
Definition on_hash {A} (m : M (genhash_t Z) A) : T A := fun t =>
  match m t.(tk_hash) with Some (a, h) => Some (a, set_tk_hash h t) | None => None end.

Definition link (p : Z) : T (Z * Z) := l ← gets tk_links; of_option (l !! p).

Definition set_next (p v : Z) : T unit :=
  l ← link p; modify (set_tk_links (insert p (l.1, v))).

Definition set_prev (p v : Z) : T unit :=
  l ← link p; modify (set_tk_links (insert p (v, l.2))).

Definition get_item (p : Z) : T topkey_item_t := m ← gets tk_items; of_option (m !! p).

(** The length of the key is cast to an [int] by the caller. *)
Definition topkey_item_init (k : key) (ct : Z) : T Z :=
  links ← gets tk_links;
  p ← of_option (new_address (dom links));
  let nkey := swrap 32 (Z.of_nat (length k)) in
  cassert (0 <? nkey);;
  modify (set_tk_items (insert p (mk_ti ct ct (fun _ => 0) (take (Z.to_nat nkey) k))));;
  modify (set_tk_links (insert p (0, 0)));;
  mret p.

(** [sizeof(topkey_item_t)] is 112 on a 64-bit host. *)
Definition topkey_item_size (it : topkey_item_t) : Z := 112 + Z.of_nat (length it.(ti_key)).

Definition topkeys_tail : T Z := l ← link LIST; mret l.1.

Definition topkeys_init (max_keys : Z) : option (option topkeys_t) :=
  match genhash_init my_hash_ops calloc_ok max_keys with
  | Some (Some h) => Some (Some (mk_tk {[LIST := (LIST, LIST)]} ∅ h 0 max_keys))
  | Some None => Some None
  | None => None
  end.

Definition dlist_remove (p : Z) : T unit :=
  l ← link p;
  a ← link l.1;
  cassert (a.2 =? p);;
  b ← link l.2;
  cassert (b.1 =? p);;
  set_next l.1 l.2;;
  set_prev l.2 l.1.

Definition dlist_insert_after (p new : Z) : T unit :=
  l ← link p;
  set_next new l.2;;
  set_prev new p;;
  set_prev l.2 new;;
  set_next p new.

(** The walk of [dlist_iter]; the ring is no longer than the number of links. *)
Fixpoint dlist_walk (fuel : nat) (list p : Z) : T (Datatypes.list Z) :=
  match fuel with
  | O => crash
  | S n =>
      l ← link p;
      if l.2 =? list then mret [] else
      r ← dlist_walk n list l.2;
      mret (l.2 :: r)
  end.

Definition dlist_iter (list : Z) : T (Datatypes.list Z) :=
  m ← gets tk_links; dlist_walk (S (size m)) list list.

(** [free(it)]: the item can no longer be reached. *)
Definition free_ti (p : Z) : T unit :=
  modify (set_tk_items (delete p));; modify (set_tk_links (delete p)).

(** The loop of [topkeys_free]: the link is read before the item is freed. *)
Fixpoint free_walk (fuel : nat) (p : Z) : T unit :=
  match fuel with
  | O => crash
  | S n =>
      if p =? LIST then mret tt else
      l ← link p;
      free_ti p;;
      free_walk n l.2
  end.

Definition topkeys_free : T unit :=
  on_hash (genhash_clear my_hash_ops);;
  l ← link LIST;
  m ← gets tk_links;
  free_walk (S (size m)) l.2.

Definition topkeys_item_delete (p : Z) : T unit :=
  it ← get_item p;
  on_hash (genhash_delete my_hash_ops it.(ti_key));;
  dlist_remove p;;
  modify (fun t => set_tk_nkeys (swrap 32 (t.(tk_nkeys) - 1)) t);;
  free_ti p.

Definition topkeys_item_get_or_create (k : key) (ct : Z) : T Z :=
  r ← on_hash (genhash_find my_hash_ops k);
  it ← match r with
       | None =>
           it ← topkey_item_init k ct;
           modify (fun t => set_tk_nkeys (swrap 32 (t.(tk_nkeys) + 1)) t);;
           t ← gets (fun t => t);
           when (t.(tk_max_keys) <? t.(tk_nkeys)) (tail ← topkeys_tail; topkeys_item_delete tail);;
           x ← get_item it;
           on_hash (genhash_update my_hash_ops calloc_ok x.(ti_key) it (topkey_item_size x));;
           mret it
       | Some it => dlist_remove it;; mret it
       end;
  dlist_insert_after LIST it;;
  mret it.

(** [tmp->op++], the counting part of the macro [TK]. *)
Definition count_op (op : tk_op) (p : Z) : T unit :=
  x ← get_item p;
  modify (set_tk_items (insert p (mk_ti x.(ti_ctime) x.(ti_atime)
    (fun o => if decide (o = op) then swrap 32 (x.(ti_counts) o + 1) else x.(ti_counts) o)
    x.(ti_key)))).

Definition TK_shard (op : tk_op) (k : key) (ct : Z) : T unit :=
  tmp ← topkeys_item_get_or_create k ct;
  count_op op tmp.
End model.

(** [%d] and [%u] of [snprintf]. *)
Definition print_int (z : Z) : list Z := if z <? 0 then 45 :: print_u64 (- z) else print_u64 z.

(** The text of one key: [TK_FMT] for every operation, then the ages. *)
Definition tk_value (it : topkey_item_t) (current_time : Z) : list Z :=
  mjoin ((fun o => bytes_of o.2 ++ [61] ++ print_int (it.(ti_counts) o.1) ++ [44]) <$> TK_OPS)
  ++ bytes_of "ctime=" ++ print_u64 (u32 (current_time - it.(ti_ctime)))
  ++ bytes_of ",atime=" ++ print_u64 (u32 (current_time - it.(ti_atime))).

(** The callback of the iteration: the buffer has [TK_MAX_VAL_LEN - 1] bytes for the
    text and its final zero, while [vlen] is the length of the whole text. *)
Definition tk_iterfunc (it : topkey_item_t) (current_time : Z) : (list Z * (list Z * Z)) :=
  let val := tk_value it current_time in
  (it.(ti_key), (take (Z.to_nat (TK_MAX_VAL_LEN - 2)) val, Z.of_nat (length val))).

Fixpoint stats_items (ps : list Z) (current_time : Z) : T (list (list Z * (list Z * Z))) :=
  match ps with
  | [] => mret []
  | p :: ps' => it ← get_item p; r ← stats_items ps' current_time;
                mret (tk_iterfunc it current_time :: r)
  end.

(** The statistics of one shard. *)
Definition shard_stats (current_time : Z) : T (list (list Z * (list Z * Z))) :=
  ps ← dlist_iter LIST; stats_items ps current_time.

(** [topkeys_stats]: the shards one after the other. *)
Fixpoint topkeys_stats (tks : list topkeys_t) (current_time : Z)
    : option (list (list Z * (list Z * Z))) :=
  match tks with
  | [] => Some []
  | t :: tks' =>
      match shard_stats current_time t, topkeys_stats tks' current_time with
      | Some (r, _), Some rs => Some (r ++ rs)
      | _, _ => None
      end
  end.

Definition tk_get_shard (k : key) : Z := Z.land (genhash_string_hash k) 7.

(** The macro [TK] on the array of shards. *)
Definition TK (new_address : gset Z -> option Z) (calloc_ok : nat -> bool) (op : tk_op) (k : key) (ct : Z)
    (tks : list topkeys_t) : option (list topkeys_t) :=
  match tks !! Z.to_nat (tk_get_shard k) with
  | None => None
  | Some t =>
      if 0 <? Z.of_nat (length k) then
        match TK_shard new_address calloc_ok op k ct t with
        | Some (_, t') => Some (<[Z.to_nat (tk_get_shard k) := t']> tks)
        | None => None
        end
      else None
  end.

(** * The specification: the keys that were used last *)

Definition bump (op : tk_op) (x : topkey_item_t) : topkey_item_t :=
  mk_ti x.(ti_ctime) x.(ti_atime)
    (fun o => if decide (o = op) then swrap 32 (x.(ti_counts) o + 1) else x.(ti_counts) o)
    x.(ti_key).

Definition new_ti (k : key) (ct : Z) : topkey_item_t := mk_ti ct ct (fun _ => 0) k.

(** A use of a key moves it to the front; a key that is not there is put there, and the
    last one is dropped when there are too many. *)
Definition use_key (max_keys : nat) (op : tk_op) (k : key) (ct : Z) (l : list topkey_item_t)
    : list topkey_item_t :=
  match filter (fun x => x.(ti_key) = k) l with
  | x :: _ => bump op x :: filter (fun x => x.(ti_key) <> k) l
  | [] => bump op (new_ti k ct) :: (if decide (length l < max_keys)%nat then l else removelast l)
  end.

(** The uses of a shard, one after the other. *)
Fixpoint use_all (new_address : gset Z -> option Z) (calloc_ok : nat -> bool)
    (us : list (tk_op * key * Z)) : T unit :=
  match us with
  | [] => mret tt
  | (op, k, ct) :: us' => TK_shard new_address calloc_ok op k ct;; use_all new_address calloc_ok us'
  end.

Definition used (max_keys : nat) (us : list (tk_op * key * Z)) (l : list topkey_item_t)
    : list topkey_item_t :=
  foldl (fun l u => use_key max_keys u.1.1 u.1.2 u.2 l) l us.

#[global] Instance my_hash_ok : HashOk my_hash_ops.
Proof.
  assert (He : forall a b, my_hash_eq a b = bool_decide (a = b)).
  { intros a b. unfold my_hash_eq. destruct (bool_decide_reflect (a = b)) as [->|];
      [by rewrite Z.eqb_refl|apply andb_false_r]. }
  constructor; cbn [hasheq my_hash_ops]; intros *; rewrite ?He.
  - by apply bool_decide_eq_true.
  - apply bool_decide_ext. by split.
  - intros ->%bool_decide_eq_true ->%bool_decide_eq_true. by apply bool_decide_eq_true.
  - by intros ->%bool_decide_eq_true.
  - by apply bool_decide_eq_true.
Qed.

Lemma my_hash_eq_true a b : my_hash_eq a b = true <-> a = b.
Proof.
  unfold my_hash_eq. rewrite andb_true_iff, bool_decide_eq_true. split; [tauto|].
  intros ->. by rewrite Z.eqb_refl.
Qed.

(** ** The ring *)

(** A ring: the first item follows the last one. *)
Definition ring (lv : gmap Z (Z * Z)) (c : list Z) : Prop := dseg lv (lastd LIST c) c (hdd LIST c).

Lemma lastd_app l1 l2 : l2 <> [] -> lastd LIST (l1 ++ l2) = lastd LIST l2.
Proof. destruct l2 as [|x l2]; [done|]. by rewrite lastd_app_ne, lastd_cons. Qed.

Lemma hdd_app l1 l2 d : l1 <> [] -> hdd d (l1 ++ l2) = hdd LIST l1.
Proof. by destruct l1. Qed.

Lemma hdd_ne l d : l <> [] -> hdd d l = hdd LIST l.
Proof. by destruct l. Qed.

Lemma lastd_ne l d : l <> [] -> lastd d l = lastd LIST l.
Proof. destruct l as [|x l]; [done|]. by rewrite !lastd_cons. Qed.

Lemma ring_rotate lv l1 l2 : ring lv (l1 ++ l2) -> ring lv (l2 ++ l1).
Proof.
  destruct l1 as [|x l1]; [by rewrite app_nil_r|]. destruct l2 as [|y l2]; [by rewrite app_nil_r|].
  unfold ring. rewrite !dseg_app, !lastd_app, !hdd_app, !hdd_ne, !(lastd_ne _ (lastd _ _)) by done. tauto.
Qed.

Definition with_next (n : Z) (v : Z * Z) : Z * Z := (v.1, n).
Definition with_prev (n : Z) (v : Z * Z) : Z * Z := (n, v.2).

Lemma link_run t p v (Q : Z * Z -> topkeys_t -> Prop) :
  t.(tk_links) !! p = Some v -> Q v t -> runs (link p) t Q.
Proof. intros Hp HQ. unfold link. run; [exact Hp|exact HQ]. Qed.

Lemma insert_alter (m : gmap Z (Z * Z)) p v f : m !! p = Some v -> <[p := f v]> m = alter f p m.
Proof.
  intros Hp. apply map_eq. intros q. destruct (decide (p = q)) as [->|Hne].
  - by rewrite lookup_insert_eq, lookup_alter_eq, Hp.
  - by rewrite lookup_insert_ne, lookup_alter_ne.
Qed.

Lemma set_next_run t p n (Q : unit -> topkeys_t -> Prop) :
  is_Some (t.(tk_links) !! p) -> Q tt (set_tk_links (alter (with_next n) p) t) -> runs (set_next p n) t Q.
Proof.
  intros [v Hp] HQ. unfold set_next. run. apply (link_run _ _ v); [done|]. run.
  unfold set_tk_links in *. rewrite <- (insert_alter _ _ v) in HQ by done. exact HQ.
Qed.

Lemma set_prev_run t p n (Q : unit -> topkeys_t -> Prop) :
  is_Some (t.(tk_links) !! p) -> Q tt (set_tk_links (alter (with_prev n) p) t) -> runs (set_prev p n) t Q.
Proof.
  intros [v Hp] HQ. unfold set_prev. run. apply (link_run _ _ v); [done|]. run.
  unfold set_tk_links in *. rewrite <- (insert_alter _ _ v) in HQ by done. exact HQ.
Qed.

(** The links without [p], and with [p] after the sentinel. *)
Definition unlinked (a b : Z) (lv : gmap Z (Z * Z)) : gmap Z (Z * Z) :=
  alter (with_prev a) b (alter (with_next b) a lv).

Definition linked (p b : Z) (lv : gmap Z (Z * Z)) : gmap Z (Z * Z) :=
  alter (with_next p) LIST (alter (with_prev p) b (alter (with_prev LIST) p (alter (with_next b) p lv))).

Lemma ring_unlink lv p r :
  ring lv (p :: r) -> NoDup (p :: r) -> r <> [] ->
  let a := lastd LIST r in let b := hdd LIST r in
  lv !! p = Some (a, b) /\ snd <$> lv !! a = Some p /\ fst <$> lv !! b = Some p /\
  ring (unlinked a b lv) r.
Proof.
  intros Hr Hn Hne a b. destruct r as [|y m]; [done|]. destruct Hr as [Hp [Hy Hm]].
  subst a b. rewrite !lastd_cons in *. simpl hdd in *. apply NoDup_cons in Hn as [Hpr Hn].
  destruct m as [|z m _] using rev_ind.
  - simpl in *. unfold unlinked, ring. simpl. change (lastd y []) with y in *.
    change (lastd LIST [y]) with y. by rewrite lookup_alter_eq, lookup_alter_eq, Hy.
  - apply dseg_app in Hm as [Hm [Hz _]]. simpl hdd in *. rewrite lastd_snoc in *.
    assert (Hyz : (y <> z) /\ (y ∉ m) /\ (z ∉ m)).
    { apply NoDup_cons in Hn as [Hy' Hn]. apply NoDup_app in Hn as (_ & Hd & _).
      rewrite elem_of_app, list_elem_of_singleton in Hy'. set_solver. }
    destruct Hyz as (Hyz & Hym & Hzm).
    split; [done|]. rewrite Hz, Hy. split; [done|]. split; [done|].
    unfold ring. rewrite lastd_cons, lastd_snoc. cbn [hdd dseg]. unfold unlinked.
    rewrite lookup_alter_eq, lookup_alter_ne, Hy by congruence. split; [by destruct m|]. apply dseg_app. cbn [hdd dseg].
    rewrite lookup_alter_ne, lookup_alter_eq, Hz by done. split; [|done].
    eapply dseg_frame; [|exact Hm]. intros x Hx. by rewrite !lookup_alter_ne by set_solver.
Qed.

Lemma ring_link lv p ps :
  ring lv (LIST :: ps) -> NoDup (LIST :: ps) -> p ∉ LIST :: ps -> is_Some (lv !! p) ->
  let b := hdd LIST ps in
  snd <$> lv !! LIST = Some b /\ ring (linked p b lv) (LIST :: p :: ps).
Proof.
  intros [Hl Hs] Hn Hp [v Hv] b. split; [by rewrite Hl|]. simpl hdd in *. rewrite lastd_cons in *.
  apply not_elem_of_cons in Hp as [HpL Hp]. apply NoDup_cons in Hn as [HL Hn].
  unfold ring. rewrite lastd_cons. cbn [hdd dseg]. subst b. unfold linked.
  destruct ps as [|y m]; simpl hdd in *.
  - rewrite lookup_alter_eq, lookup_alter_eq, !lookup_alter_ne, Hl by congruence. split; [done|].
    by rewrite lookup_alter_eq, lookup_alter_eq, Hv.
  - destruct Hs as [Hy Hm]. apply NoDup_cons in Hn as [Hym Hn]. rewrite !lastd_cons in *.
    apply not_elem_of_cons in HL as [HyL HL]. apply not_elem_of_cons in Hp as [Hpy Hpm].
    split; [by rewrite lookup_alter_eq, !lookup_alter_ne, Hl by congruence|].
    split; [by rewrite !lookup_alter_ne, lookup_alter_eq, lookup_alter_eq, Hv by congruence|].
    split; [by rewrite lookup_alter_ne, lookup_alter_eq, !lookup_alter_ne, Hy by congruence|].
    eapply dseg_frame; [|exact Hm]. intros x Hx. by rewrite !lookup_alter_ne by set_solver.
Qed.

Lemma is_Some_alter (m : gmap Z (Z * Z)) f p q : is_Some (m !! q) -> is_Some (alter f p m !! q).
Proof. intros [v Hv]. rewrite lookup_alter. case_decide; subst; rewrite Hv; simpl; eauto. Qed.

Lemma set_links_links f g t : set_tk_links f (set_tk_links g t) = set_tk_links (fun m => f (g m)) t.
Proof. done. Qed.

Lemma dlist_remove_run t p r (Q : unit -> topkeys_t -> Prop) :
  ring t.(tk_links) (p :: r) -> NoDup (p :: r) -> r <> [] ->
  (ring (unlinked (lastd LIST r) (hdd LIST r) t.(tk_links)) r ->
   Q tt (set_tk_links (unlinked (lastd LIST r) (hdd LIST r)) t)) ->
  runs (dlist_remove p) t Q.
Proof.
  intros Hr Hn Hne HQ. destruct (ring_unlink _ _ _ Hr Hn Hne) as (Hp & Ha & Hb & Hr').
  apply fmap_Some in Ha as ([a1 a2] & Ha & Hap). apply fmap_Some in Hb as ([b1 b2] & Hb & Hbp).
  simpl in Hap, Hbp. subst a2 b1. unfold dlist_remove. run. apply (link_run _ _ _ _ Hp).
  cbn [fst snd]. run. apply (link_run _ _ _ _ Ha). run; [by apply Z.eqb_eq|]. apply (link_run _ _ _ _ Hb).
  run; [by apply Z.eqb_eq|]. apply set_next_run; [by eexists|].
  apply set_prev_run; [apply is_Some_alter; by eexists|]. rewrite set_links_links. by apply HQ.
Qed.

Lemma dlist_insert_after_run t p ps (Q : unit -> topkeys_t -> Prop) :
  ring t.(tk_links) (LIST :: ps) -> NoDup (LIST :: ps) -> p ∉ LIST :: ps -> is_Some (t.(tk_links) !! p) ->
  (ring (linked p (hdd LIST ps) t.(tk_links)) (LIST :: p :: ps) ->
   Q tt (set_tk_links (linked p (hdd LIST ps)) t)) ->
  runs (dlist_insert_after LIST p) t Q.
Proof.
  intros Hr Hn Hp Hs HQ. destruct (ring_link _ _ _ Hr Hn Hp Hs) as (Hl & Hr').
  apply fmap_Some in Hl as ([l1 l2] & Hl & Hb). simpl in Hb. subst l2.
  assert (Hh : is_Some (t.(tk_links) !! hdd LIST ps)).
  { destruct ps as [|y ps]; simpl in *; [by eexists|]. destruct Hr as (_ & Hy & _). by eexists. }
  assert (HL : is_Some (t.(tk_links) !! LIST)) by (by eexists).
  unfold dlist_insert_after. run. apply (link_run _ _ _ _ Hl). cbn [snd]. run.
  apply set_next_run; [done|]. run. apply set_prev_run; [by apply is_Some_alter|].
  run. apply set_prev_run; [by do 2 apply is_Some_alter|]. apply set_next_run; [by do 3 apply is_Some_alter|].
  rewrite !set_links_links. by apply HQ.
Qed.

Lemma dom_unlinked a b lv : dom (unlinked a b lv) = dom lv.
Proof. unfold unlinked. by rewrite !dom_alter_L. Qed.

Lemma dom_linked p b lv : dom (linked p b lv) = dom lv.
Proof. unfold linked. by rewrite !dom_alter_L. Qed.

Lemma remove_middle_run t l1 p l2 (Q : unit -> topkeys_t -> Prop) :
  ring t.(tk_links) (LIST :: l1 ++ p :: l2) -> NoDup (LIST :: l1 ++ p :: l2) ->
  (forall lv, ring lv (LIST :: l1 ++ l2) -> dom lv = dom t.(tk_links) -> Q tt (set_tk_links (fun _ => lv) t)) ->
  runs (dlist_remove p) t Q.
Proof.
  intros Hr Hn HQ. apply (dlist_remove_run t p (l2 ++ LIST :: l1)).
  - apply (ring_rotate _ (LIST :: l1) (p :: l2)). exact Hr.
  - eapply NoDup_Permutation_proper; [|exact Hn]. apply (Permutation_app_comm (p :: l2) (LIST :: l1)).
  - by destruct l2.
  - intros Hr'. apply (HQ (unlinked _ _ _)); [|apply dom_unlinked]. by apply ring_rotate in Hr'.
Qed.

(** ** The representation *)

Definition entries_of (pl : list (Z * topkey_item_t)) (k : key) : list (Z * Z) :=
  (fun x => (x.1, topkey_item_size x.2)) <$> filter (fun x => x.2.(ti_key) = k) pl.

Abbreviation keys pl := ((fun x : prod Z topkey_item_t => x.2.(ti_key)) <$> pl).

(** [pl] are the items of a shard with their addresses, the one used last first;
    [ex] are items that are not in the ring. *)
Record tk_chain (ex : gset Z) (t : topkeys_t) (pl : list (Z * topkey_item_t)) : Prop := {
  tr_ring : ring t.(tk_links) (LIST :: pl.*1);
  tr_nodup : NoDup (LIST :: pl.*1);
  tr_dom : dom t.(tk_links) = ex ∪ list_to_set (LIST :: pl.*1);
  tr_ex : ex ## list_to_set (LIST :: pl.*1);
  tr_items : forall p x, (p, x) ∈ pl -> t.(tk_items) !! p = Some x;
  tr_keys : NoDup (keys pl)
}.

Record tk_parts (ex : gset Z) (t : topkeys_t) (pl : list (Z * topkey_item_t)) : Prop := {
  tr_chain : tk_chain ex t pl;
  tr_hash : gh_ok my_hash_ops t.(tk_hash);
  tr_stack : forall k, stack my_hash_ops t.(tk_hash) k = entries_of pl k
}.

Record tk_rep (t : topkeys_t) (pl : list (Z * topkey_item_t)) : Prop := {
  tr_parts : tk_parts ∅ t pl;
  tr_nkeys : t.(tk_nkeys) = Z.of_nat (length pl);
  tr_max : 1 <= t.(tk_max_keys) < 2 ^ 31 - 1;
  tr_bound : Z.of_nat (length pl) <= t.(tk_max_keys)
}.

Lemma on_hash_run {A} (m : M (genhash_t Z) A) t (Q : A -> topkeys_t -> Prop) :
  runs m t.(tk_hash) (fun a h => Q a (set_tk_hash h t)) -> runs (on_hash m) t Q.
Proof. intros (a & h & Hm & HQ). exists a, (set_tk_hash h t). unfold on_hash. by rewrite Hm. Qed.

Lemma get_item_run t p x (Q : topkey_item_t -> topkeys_t -> Prop) :
  t.(tk_items) !! p = Some x -> Q x t -> runs (get_item p) t Q.
Proof. intros Hp HQ. unfold get_item. run; [exact Hp|exact HQ]. Qed.

Lemma entries_cons p x pl k :
  entries_of ((p, x) :: pl) k = if decide (x.(ti_key) = k) then (p, topkey_item_size x) :: entries_of pl k
                                else entries_of pl k.
Proof. unfold entries_of. rewrite filter_cons. simpl. by destruct (decide _). Qed.

Lemma entries_app l1 l2 k : entries_of (l1 ++ l2) k = entries_of l1 k ++ entries_of l2 k.
Proof. unfold entries_of. by rewrite filter_app, fmap_app. Qed.

Lemma entries_out pl k : k ∉ keys pl -> entries_of pl k = [].
Proof.
  induction pl as [|[p x] pl IH]; [done|]. rewrite fmap_cons, not_elem_of_cons, entries_cons. simpl.
  intros [Hx Hpl]. rewrite decide_False by congruence. by apply IH.
Qed.

Lemma filter_key_out (l : list topkey_item_t) k : k ∉ ti_key <$> l ->
  filter (fun x => x.(ti_key) = k) l = [] /\ filter (fun x => x.(ti_key) <> k) l = l.
Proof.
  induction l as [|x l IH]; [done|]. rewrite fmap_cons, not_elem_of_cons, !filter_cons.
  intros [Hx Hl]. destruct (IH Hl) as [H1 H2].
  rewrite decide_False, decide_True by congruence. by rewrite H1, H2.
Qed.

Lemma keys_split pl k : (k ∉ keys pl) \/ exists l1 p x l2, pl = l1 ++ (p, x) :: l2 /\ x.(ti_key) = k.
Proof.
  destruct (decide (k ∈ keys pl)) as [Hk|Hk]; [right|by left].
  apply list_elem_of_fmap in Hk as ([p x] & -> & Hx). apply list_elem_of_split in Hx as (l1 & l2 & ->).
  by exists l1, p, x, l2.
Qed.

(** The keys of the others. *)
Lemma keys_others l1 p x l2 :
  NoDup (keys (l1 ++ (p, x) :: l2)) ->
  (x.(ti_key) ∉ keys l1) /\ (x.(ti_key) ∉ keys l2) /\ NoDup (keys (l1 ++ l2)).
Proof.
  rewrite !fmap_app, fmap_cons. simpl. intros (H1 & Hd & H2)%NoDup_app.
  apply NoDup_cons in H2 as [Hx H2]. split; [intros Hx1; apply (Hd _ Hx1); set_solver|].
  split; [done|]. apply NoDup_app. split; [done|]. split; [|done]. intros y Hy Hy2. apply (Hd _ Hy). set_solver.
Qed.

Lemma at_key_entries l1 p x l2 k f :
  NoDup (keys (l1 ++ (p, x) :: l2)) -> f [(p, topkey_item_size x)] = [] ->
  at_key my_hash_ops x.(ti_key) f (entries_of (l1 ++ (p, x) :: l2)) k = entries_of (l1 ++ l2) k.
Proof.
  intros (H1 & H2 & _)%keys_others Hf. unfold at_key. cbn [hasheq my_hash_ops].
  rewrite !entries_app, entries_cons. destruct (my_hash_eq (ti_key x) k) eqn:Hk.
  - apply my_hash_eq_true in Hk as <-. rewrite !entries_out by done. by rewrite decide_True.
  - rewrite decide_False; [done|]. intros Hk'%my_hash_eq_true. congruence.
Qed.

Lemma nodup_middle (l1 : list Z) p l2 :
  NoDup (LIST :: l1 ++ p :: l2) -> (p ∉ LIST :: l1 ++ l2) /\ NoDup (LIST :: l1 ++ l2).
Proof.
  intros Hn. apply (NoDup_cons p). eapply NoDup_Permutation_proper; [|exact Hn].
  rewrite Permutation_swap. f_equiv. apply Permutation_middle.
Qed.

(** A shard without one of its items. *)
Lemma chain_removed ex t l1 p x l2 lv h n m :
  tk_chain ex t (l1 ++ (p, x) :: l2) ->
  ring lv (LIST :: l1.*1 ++ l2.*1) -> dom lv = dom t.(tk_links) ->
  tk_chain ({[p]} ∪ ex) (mk_tk lv t.(tk_items) h n m) (l1 ++ l2).
Proof.
  intros [Hr Hn Hd Hex Hit Hk] Hlv Hdl.
  rewrite fmap_app, fmap_cons in Hn. apply nodup_middle in Hn as [Hp Hn].
  constructor; simpl.
  - by rewrite fmap_app.
  - by rewrite fmap_app.
  - rewrite Hdl, Hd, !fmap_app. simpl in *. set_solver.
  - rewrite fmap_app in *. simpl in *. set_solver.
  - intros q y Hq. apply Hit. set_solver.
  - by apply keys_others in Hk as (_ & _ & ?).
Qed.

Lemma chain_freed ex t p pl h n m :
  tk_chain ({[p]} ∪ ex) t pl -> p ∉ ex ->
  tk_chain ex (mk_tk (delete p t.(tk_links)) (delete p t.(tk_items)) h n m) pl.
Proof.
  intros [Hr Hn Hd Hex Hit Hk] Hp. simpl in Hd, Hex.
  assert (Hp' : p ∉ LIST :: pl.*1) by set_solver. constructor; simpl.
  - apply (dseg_frame t.(tk_links)); [|exact Hr]. intros q Hq. apply lookup_delete_ne. by intros <-.
  - done.
  - rewrite dom_delete_L, Hd. set_solver.
  - set_solver.
  - intros q y Hq. rewrite lookup_delete_ne; [by apply Hit|]. intros <-. apply Hp'. right.
    by apply list_elem_of_fmap; exists (p, y).
  - done.
Qed.

Lemma topkeys_item_delete_run ex t l1 p x l2 (Q : unit -> topkeys_t -> Prop) :
  tk_parts ex t (l1 ++ (p, x) :: l2) ->
  (forall t', tk_parts ex t' (l1 ++ l2) -> t'.(tk_nkeys) = swrap 32 (t.(tk_nkeys) - 1) ->
     t'.(tk_max_keys) = t.(tk_max_keys) -> (forall q, q <> p -> t'.(tk_items) !! q = t.(tk_items) !! q) ->
     Q tt t') ->
  runs (topkeys_item_delete p) t Q.
Proof.
  intros Hp HQ. unfold topkeys_item_delete, free_ti. run.
  apply (get_item_run _ _ x); [apply (tr_items _ _ _ (tr_chain _ _ _ Hp)); set_solver|]. run. apply on_hash_run.
  eapply (runs_mono _ _ (fun _ h => effect my_hash_ops t.(tk_hash) (at_key my_hash_ops x.(ti_key) tail) [] h)).
  { by apply delete_run; [apply _|apply Hp|..]. }
  intros _ h He. run. destruct (tr_chain _ _ _ Hp) as [Hr Hn _ _ _ _].
  rewrite fmap_app, fmap_cons in Hr, Hn.
  apply (remove_middle_run _ l1.*1 p l2.*1); [exact Hr|exact Hn|]. intros lv Hlv Hdl. run.
  destruct Hp as [Hc Hh Hs]. pose proof He as (Hh' & Hs' & _). apply HQ; simpl; [|done|done|].
  - constructor; [|exact Hh'|].
    + apply (chain_freed _ (mk_tk lv t.(tk_items) h 0 0)); [by apply (chain_removed _ t _ _ x)|].
      pose proof (tr_ex _ _ _ Hc) as Hex. rewrite fmap_app in Hex. simpl in Hex. set_solver.
    + intros k. simpl. rewrite Hs'. unfold at_key. rewrite !Hs.
      apply (at_key_entries l1 p x l2 k tail); [by apply Hc|done].
  - intros q Hq. by apply lookup_delete_ne.
Qed.

(** The item [p] in front of the others. *)
Lemma chain_front t p x pl lv h n m :
  tk_chain {[p]} t pl -> t.(tk_items) !! p = Some x -> x.(ti_key) ∉ keys pl ->
  ring lv (LIST :: p :: pl.*1) -> dom lv = dom t.(tk_links) ->
  tk_chain ∅ (mk_tk lv t.(tk_items) h n m) ((p, x) :: pl).
Proof.
  intros [Hr Hn Hd Hex Hit Hk] Hx Hxk Hlv Hdl. constructor; simpl.
  - exact Hlv.
  - apply NoDup_cons in Hn as [HL Hn]. rewrite !NoDup_cons, not_elem_of_cons. simpl in Hex. set_solver.
  - rewrite Hdl, Hd. simpl. set_solver.
  - set_solver.
  - intros q y [[= -> ->]|Hq]%elem_of_cons; [done|by apply Hit].
  - by apply NoDup_cons.
Qed.

Lemma insert_front_run t p x pl (Q : unit -> topkeys_t -> Prop) :
  tk_chain {[p]} t pl -> t.(tk_items) !! p = Some x -> x.(ti_key) ∉ keys pl ->
  (forall t', tk_chain ∅ t' ((p, x) :: pl) -> t'.(tk_hash) = t.(tk_hash) -> t'.(tk_nkeys) = t.(tk_nkeys) ->
     t'.(tk_max_keys) = t.(tk_max_keys) -> Q tt t') ->
  runs (dlist_insert_after LIST p) t Q.
Proof.
  intros Hc Hx Hxk HQ. pose proof Hc as [Hr Hn Hd Hex _ _].
  apply (dlist_insert_after_run t p pl.*1); [done|done|set_solver|..].
  - apply elem_of_dom. rewrite Hd. set_solver.
  - intros Hr'. apply HQ; [|done..]. apply (chain_front t); [done..|]. apply dom_linked.
Qed.

Section ops.
Context (new_address : gset Z -> option Z) (calloc_ok : nat -> bool).
Context (Hnew : forall X, exists p, new_address X = Some p /\ p ∉ X).
Context (Hcalloc : forall n, calloc_ok n = true).

Abbreviation get_or_create := (topkeys_item_get_or_create new_address calloc_ok).

(** A key that is there. *)
Lemma get_or_create_hit t l1 p x l2 ct (Q : Z -> topkeys_t -> Prop) :
  tk_rep t (l1 ++ (p, x) :: l2) ->
  (forall t', tk_rep t' ((p, x) :: l1 ++ l2) -> t'.(tk_max_keys) = t.(tk_max_keys) -> Q p t') ->
  runs (get_or_create x.(ti_key) ct) t Q.
Proof.
  intros [[Hc Hh Hs] Hnk Hm Hb] HQ. unfold topkeys_item_get_or_create. run. apply on_hash_run.
  apply find_run; [apply _|done|]. pose proof (keys_others _ _ _ _ (tr_keys _ _ _ Hc)) as (Hk1 & Hk2 & Hk).
  assert (He : forall k, entries_of ((p, x) :: l1 ++ l2) k = entries_of (l1 ++ (p, x) :: l2) k).
  { intros k. rewrite entries_app, !entries_cons, entries_app. destruct (decide _) as [<-|]; [|done].
    by rewrite !entries_out by done. }
  rewrite Hs, <- He, entries_cons, decide_True by done. simpl. run.
  pose proof Hc as [Hr Hn _ _ Hit _]. rewrite fmap_app, fmap_cons in Hr, Hn.
  apply (remove_middle_run _ l1.*1 p l2.*1); [exact Hr|exact Hn|]. intros lv Hlv Hdl. run.
  apply (insert_front_run _ p x (l1 ++ l2)).
  - pose proof (chain_removed _ _ _ _ _ _ lv t.(tk_hash) t.(tk_nkeys) t.(tk_max_keys) Hc Hlv Hdl) as H.
    by rewrite union_empty_r_L in H.
  - apply Hit. set_solver.
  - rewrite fmap_app, not_elem_of_app. done.
  - intros t' Hc' Hh' Hn' Hm'. run. apply HQ; [|by rewrite Hm']. constructor.
    + constructor; [done|by rewrite Hh'|]. intros k. rewrite Hh'. simpl. by rewrite He, Hs.
    + rewrite Hn'. simpl. rewrite Hnk, !length_app. simpl. lia.
    + by rewrite Hm'.
    + rewrite Hm'. simpl. rewrite length_app in *. simpl in Hb. lia.
Qed.

Lemma topkey_item_init_run t k ct (Q : Z -> topkeys_t -> Prop) :
  0 < Z.of_nat (length k) < 2 ^ 31 ->
  (forall p, p ∉ dom t.(tk_links) -> Q p (mk_tk (<[p := (0, 0)]> t.(tk_links))
     (<[p := new_ti k ct]> t.(tk_items)) t.(tk_hash) t.(tk_nkeys) t.(tk_max_keys))) ->
  runs (topkey_item_init new_address k ct) t Q.
Proof.
  intros Hk HQ. destruct (Hnew (dom t.(tk_links))) as (p & Hp & Hin). unfold topkey_item_init.
  run; [exact Hp|..]; rewrite swrap_small by lia; [apply Z.ltb_lt; lia|]. run.
  rewrite Nat2Z.id, firstn_all. by apply HQ.
Qed.

Lemma chain_new t p x pl n :
  tk_chain ∅ t pl -> p ∉ dom t.(tk_links) ->
  tk_chain {[p]} (mk_tk (<[p := (0, 0)]> t.(tk_links)) (<[p := x]> t.(tk_items)) t.(tk_hash) n
    t.(tk_max_keys)) pl.
Proof.
  intros [Hr Hn Hd Hex Hit Hk] Hp. rewrite Hd in Hp. constructor; simpl.
  - apply dseg_insert; [set_solver|exact Hr].
  - done.
  - rewrite dom_insert_L, Hd. set_solver.
  - set_solver.
  - intros q y Hq. rewrite lookup_insert_ne; [by apply Hit|]. intros <-. apply Hp.
    apply elem_of_union_r, elem_of_list_to_set. right. by apply list_elem_of_fmap; exists (p, y).
  - done.
Qed.

(** Registering a new item, and putting it in front. *)
Lemma register_run t p k ct pl (Q : Z -> topkeys_t -> Prop) :
  tk_parts {[p]} t pl -> t.(tk_items) !! p = Some (new_ti k ct) -> k ∉ keys pl ->
  t.(tk_nkeys) = Z.of_nat (S (length pl)) -> 1 <= t.(tk_max_keys) < 2 ^ 31 - 1 ->
  Z.of_nat (S (length pl)) <= t.(tk_max_keys) ->
  (forall t', tk_rep t' ((p, new_ti k ct) :: pl) -> t'.(tk_max_keys) = t.(tk_max_keys) -> Q p t') ->
  runs (x ← get_item p;
        on_hash (genhash_update my_hash_ops calloc_ok x.(ti_key) p (topkey_item_size x));;
        mret p) t (fun it t' => runs (dlist_insert_after LIST it;; mret it) t' Q).
Proof.
  intros [Hc Hh Hs] Hp Hk Hn Hm Hb HQ. run. apply (get_item_run _ _ _ _ Hp). run. apply on_hash_run.
  eapply (runs_mono _ _ (fun _ h => effect my_hash_ops t.(tk_hash)
    (at_key my_hash_ops k (cons (p, topkey_item_size (new_ti k ct)))) [p] h)).
  { apply update_run; [apply _|done|done|done|]. intros h' Hne. destruct Hne. rewrite Hs. by apply entries_out. }
  intros _ h (Hh' & Hs' & _). run.
  apply (insert_front_run _ p (new_ti k ct) pl); [destruct Hc; by constructor|done|done|].
  intros t' Hc' Eh En Em. run. apply HQ; [|done]. simpl in *. constructor.
  - constructor; [done|by rewrite Eh|]. intros k'. rewrite Eh, Hs', entries_cons. unfold at_key.
    cbn [hasheq my_hash_ops]. rewrite Hs. destruct (my_hash_eq k k') eqn:Hkk.
    + apply my_hash_eq_true in Hkk as <-. by rewrite decide_True.
    + rewrite decide_False; [done|]. intros Hkk'%my_hash_eq_true. simpl in Hkk'. congruence.
  - rewrite En. by simpl.
  - by rewrite Em.
  - rewrite Em. by simpl.
Qed.

(** A key that is not there. *)
Lemma get_or_create_miss t pl k ct (Q : Z -> topkeys_t -> Prop) :
  tk_rep t pl -> k ∉ keys pl -> 0 < Z.of_nat (length k) < 2 ^ 31 ->
  (forall p t', tk_rep t' ((p, new_ti k ct) :: (if decide (length pl < Z.to_nat t.(tk_max_keys))%nat then pl
     else removelast pl)) -> t'.(tk_max_keys) = t.(tk_max_keys) -> Q p t') ->
  runs (get_or_create k ct) t Q.
Proof.
  intros [[Hc Hh Hs] Hnk Hm Hb] Hk Hlen HQ. unfold topkeys_item_get_or_create. run. apply on_hash_run.
  apply find_run; [apply _|done|]. rewrite Hs, entries_out by done. simpl. run.
  apply topkey_item_init_run; [done|]. intros p Hp. run. simpl. rewrite swrap_small by lia.
  set (t1 := set_tk_nkeys _ _).
  assert (Hp1 : tk_parts {[p]} t1 pl) by (constructor; [by apply (chain_new t)|exact Hh|exact Hs]).
  apply runs_when; intros Hlt; boolify; simpl in Hlt.
  - destruct pl as [|[q y] pl0 _] using rev_ind; [simpl in *; lia|].
    rewrite length_app in *. simpl in *.
    rewrite decide_False, removelast_last in HQ by lia.
    run. unfold topkeys_tail. run. destruct (tr_chain _ _ _ Hp1) as [[HL _] _ _ _ _ _].
    apply (link_run _ _ _ _ HL). run. rewrite lastd_cons, fmap_app. simpl. rewrite lastd_snoc.
    apply (topkeys_item_delete_run {[p]} t1 pl0 q y []); [done|]. rewrite app_nil_r.
    intros t2 Hp2 Hn2 Hm2 Hit2. simpl in Hn2, Hm2. rewrite swrap_small in Hn2 by lia.
    rewrite fmap_app, not_elem_of_app in Hk.
    apply (register_run t2 p k ct pl0); [done| |tauto|lia|lia|lia|].
    + rewrite Hit2; [apply lookup_insert_eq|]. intros ->. apply Hp. rewrite (tr_dom _ _ _ Hc), fmap_app.
      set_solver.
    + intros t3 Hr3 Hm3. apply HQ; [exact Hr3|lia].
  - rewrite decide_True in HQ by lia.
    apply (register_run t1 p k ct pl); [done|apply lookup_insert_eq|done|simpl; lia|simpl; lia|simpl; lia|].
    intros t3 Hr3 Hm3. apply HQ; [exact Hr3|exact Hm3].
Qed.

Lemma rep_bump t p x pl op :
  tk_rep t ((p, x) :: pl) ->
  tk_rep (set_tk_items (insert p (bump op x)) t) ((p, bump op x) :: pl).
Proof.
  intros [[[Hr Hn Hd Hex Hit Hk] Hh Hs] Hnk Hm Hb]. constructor; [|done..]. constructor; [|done|].
  - constructor; simpl; [done..| |done]. simpl in Hn. intros q y [[= -> ->]|Hq]%elem_of_cons.
    + apply lookup_insert_eq.
    + rewrite lookup_insert_ne; [apply Hit; set_solver|]. intros <-.
      apply NoDup_cons in Hn as [_ [Hn _]%NoDup_cons]. apply Hn. by apply list_elem_of_fmap; exists (p, y).
  - intros k. simpl. rewrite Hs, !entries_cons. done.
Qed.

(** A use of a key. *)
Lemma TK_shard_run t pl op k ct (Q : unit -> topkeys_t -> Prop) :
  tk_rep t pl -> 0 < Z.of_nat (length k) < 2 ^ 31 ->
  (forall t' pl', tk_rep t' pl' -> pl'.*2 = use_key (Z.to_nat t.(tk_max_keys)) op k ct pl.*2 ->
     t'.(tk_max_keys) = t.(tk_max_keys) -> Q tt t') ->
  runs (TK_shard new_address calloc_ok op k ct) t Q.
Proof.
  intros Hr Hk HQ. unfold TK_shard. run.
  assert (Hc : forall t' p x rest, tk_rep t' ((p, x) :: rest) ->
    bump op x :: rest.*2 = use_key (Z.to_nat t.(tk_max_keys)) op k ct pl.*2 ->
    t'.(tk_max_keys) = t.(tk_max_keys) -> runs (count_op op p) t' Q).
  { intros t' p x rest Hr' He Hm. unfold count_op. run.
    apply (get_item_run _ _ x); [apply (tr_items _ _ _ (tr_chain _ _ _ (tr_parts _ _ Hr'))); set_solver|].
    run. apply (HQ _ ((p, bump op x) :: rest)); [by apply rep_bump|done|done]. }
  unfold use_key in Hc. destruct (keys_split pl k) as [Hout|(l1 & p & x & l2 & -> & <-)].
  - assert (Hout' : k ∉ ti_key <$> pl.*2) by (by rewrite <- list_fmap_compose).
    destruct (filter_key_out _ _ Hout') as [Hf _]. rewrite Hf in Hc.
    apply (get_or_create_miss t pl); [done..|]. intros p t' Hr' Hm. apply (Hc _ _ _ _ Hr'); [|done].
    rewrite length_fmap. destruct (decide (length pl < Z.to_nat t.(tk_max_keys))%nat); [done|]. f_equal.
    destruct pl as [|z pl _] using rev_ind; [done|]. rewrite fmap_app, removelast_last.
    symmetry. apply (removelast_last pl.*2 z.2).
  - pose proof (keys_others _ _ _ _ (tr_keys _ _ _ (tr_chain _ _ _ (tr_parts _ _ Hr)))) as (H1 & H2 & _).
    assert (H1' : ti_key x ∉ ti_key <$> l1.*2) by (by rewrite <- list_fmap_compose).
    assert (H2' : ti_key x ∉ ti_key <$> l2.*2) by (by rewrite <- list_fmap_compose).
    apply filter_key_out in H1' as [F1 G1], H2' as [F2 G2].
    apply (get_or_create_hit t l1 p x l2); [done|]. intros t' Hr' Hm. apply (Hc _ _ _ _ Hr'); [|done].
    rewrite !fmap_app, fmap_cons, !filter_app, !filter_cons, F1, F2, G1, G2. simpl.
    by rewrite decide_True, decide_False by auto.
Qed.

Lemma use_all_run us : forall t pl (Q : unit -> topkeys_t -> Prop),
  tk_rep t pl -> Forall (fun u => 0 < Z.of_nat (length u.1.2) < 2 ^ 31) us ->
  (forall t' pl', tk_rep t' pl' -> pl'.*2 = used (Z.to_nat t.(tk_max_keys)) us pl.*2 ->
     t'.(tk_max_keys) = t.(tk_max_keys) -> Q tt t') ->
  runs (use_all new_address calloc_ok us) t Q.
Proof.
  induction us as [|[[op k] ct] us IH]; intros t pl Q Hr Hus HQ; cbn [use_all].
  - run. by apply (HQ t pl).
  - apply Forall_cons in Hus as [Hk Hus]. run. apply (TK_shard_run t pl); [done..|].
    intros t1 pl1 Hr1 Hpl1 Hm1. apply (IH t1 pl1); [done..|]. intros t2 pl2 Hr2 Hpl2 Hm2.
    apply (HQ t2 pl2); [done| |congruence]. rewrite Hpl2, Hm1, Hpl1. done.
Qed.
End ops.

(** ** Walks of the ring *)

Lemma dlist_walk_run t fuel : forall p l (Q : list Z -> topkeys_t -> Prop),
  snd <$> t.(tk_links) !! p = Some (hdd LIST l) -> dseg t.(tk_links) p l LIST -> LIST ∉ l ->
  (length l < fuel)%nat -> Q l t -> runs (dlist_walk fuel LIST p) t Q.
Proof.
  induction fuel as [|fuel IH]; intros p l Q Hp Hl HL Hf HQ; [lia|]. cbn [dlist_walk]. run.
  apply fmap_Some in Hp as (v & Hv & Hp). apply (link_run _ _ _ _ Hv). rewrite <- Hp.
  destruct l as [|x l]; cbn [hdd length dseg] in *.
  - rewrite Z.eqb_refl. run. exact HQ.
  - destruct Hl as [Hx Hl]. rewrite (proj2 (Z.eqb_neq x LIST)) by set_solver. run.
    apply (IH x l); [by rewrite Hx|done|set_solver|lia|]. run. exact HQ.
Qed.

Lemma chain_size t pl : tk_chain ∅ t pl -> size t.(tk_links) = S (length pl).
Proof.
  intros [_ Hn Hd _ _ _]. rewrite <- size_dom, Hd, union_empty_l_L, size_list_to_set by done.
  simpl. by rewrite length_fmap.
Qed.

Lemma dlist_iter_run t pl (Q : list Z -> topkeys_t -> Prop) :
  tk_chain ∅ t pl -> Q pl.*1 t -> runs (dlist_iter LIST) t Q.
Proof.
  intros Hc HQ. unfold dlist_iter. run. rewrite (chain_size t pl Hc). pose proof Hc as [[HL Hs] Hn _ _ _ _].
  apply (dlist_walk_run t _ LIST pl.*1); [by rewrite HL|done| |rewrite length_fmap; lia|done].
  by apply NoDup_cons in Hn as [? _].
Qed.

Lemma stats_items_run t pl now (Q : list (list Z * (list Z * Z)) -> topkeys_t -> Prop) :
  (forall p x, (p, x) ∈ pl -> t.(tk_items) !! p = Some x) ->
  Q ((fun x => tk_iterfunc x now) <$> pl.*2) t -> runs (stats_items pl.*1 now) t Q.
Proof.
  revert Q. induction pl as [|[p x] pl IH]; intros Q Hit HQ; simpl.
  - run. exact HQ.
  - run. apply (get_item_run _ _ x); [apply Hit; set_solver|]. run.
    apply IH; [intros q y Hq; apply Hit; set_solver|]. run. exact HQ.
Qed.

Lemma free_walk_run t l : forall p fuel (Q : unit -> topkeys_t -> Prop),
  dseg t.(tk_links) p l LIST -> LIST ∉ l -> NoDup l -> (length l < fuel)%nat ->
  (forall t', dom t'.(tk_links) = dom t.(tk_links) ∖ list_to_set l -> t'.(tk_hash) = t.(tk_hash) -> Q tt t') ->
  runs (free_walk fuel (hdd LIST l)) t Q.
Proof.
  revert t. induction l as [|x l IH]; intros t p fuel Q Hs HL Hn Hf HQ;
    (destruct fuel as [|fuel]; [simpl in Hf; lia|]); cbn [free_walk hdd].
  - rewrite Z.eqb_refl. run. apply HQ; [|done]. simpl. set_solver.
  - destruct Hs as [Hx Hs]. rewrite (proj2 (Z.eqb_neq x LIST)) by set_solver. run.
    apply (link_run _ _ _ _ Hx). unfold free_ti. run. cbn [snd]. apply NoDup_cons in Hn as [Hxl Hn].
    apply (IH _ x); simpl.
    + apply (dseg_frame t.(tk_links)); [|done]. intros q Hq. apply lookup_delete_ne. by intros <-.
    + set_solver.
    + done.
    + simpl in Hf. lia.
    + intros t' Hd Hh. apply HQ; [|done]. rewrite Hd, dom_delete_L. simpl. set_solver.
Qed.

(** ** The length of the text *)

Lemma dec_digits_bound n m v : 0 <= v < 10 ^ Z.of_nat (S m) -> (length (dec_digits n v) <= S m)%nat.
Proof.
  revert m v. induction n as [|n IH]; intros m v Hv; cbn [dec_digits]; [simpl; lia|].
  rewrite length_app. simpl. destruct (Z.ltb_spec v 10); [simpl; lia|].
  destruct m as [|m]; [simpl in Hv; lia|]. enough (length (dec_digits n (v / 10)) <= S m)%nat by lia.
  apply IH. split; [apply Z.div_pos; lia|]. apply Z.div_lt_upper_bound; [lia|].
  rewrite Nat2Z.inj_succ, Z.pow_succ_r in Hv by lia. lia.
Qed.

Lemma print_int_length z : - 2 ^ 31 <= z < 2 ^ 31 -> (length (print_int z) <= 11)%nat.
Proof.
  intros Hz. unfold print_int, print_u64. destruct (Z.ltb_spec z 0); cbn [length].
  - apply le_n_S, (dec_digits_bound 20 9). change (10 ^ Z.of_nat 10) with 10000000000. lia.
  - transitivity 10%nat; [|lia]. apply (dec_digits_bound 20 9). change (10 ^ Z.of_nat 10) with 10000000000. lia.
Qed.

Lemma ops_text_length it :
  (forall o, - 2 ^ 31 <= it.(ti_counts) o < 2 ^ 31) -> forall l : list (tk_op * string),
  (length (mjoin ((fun o => bytes_of o.2 ++ [61%Z] ++ print_int (it.(ti_counts) o.1) ++ [44%Z]) <$> l))
   <= list_sum ((fun o => length (bytes_of o.2) + 13) <$> l))%nat.
Proof.
  intros Hc l. induction l as [|[o s] l IH]; [done|].
  rewrite !fmap_cons. cbn [mjoin list_join list_sum fst snd]. rewrite !length_app.
  pose proof (print_int_length _ (Hc o)). simpl in *. etransitivity; [apply Nat.add_le_mono_l; exact IH|]. lia.
Qed.

Lemma tk_value_length it now :
  (forall o, - 2 ^ 31 <= it.(ti_counts) o < 2 ^ 31) -> (length (tk_value it now) <= 469)%nat.
Proof.
  intros Hc. unfold tk_value. rewrite !length_app. pose proof (ops_text_length it Hc TK_OPS) as Ho.
  assert (Hage : forall z, (length (print_u64 (u32 z)) <= 10)%nat).
  { intros z. apply (dec_digits_bound 20 9). pose proof (Z.mod_pos_bound z (2 ^ 32) ltac:(lia)).
    unfold u32, wrap. change (10 ^ Z.of_nat 10) with 10000000000. lia. }
  pose proof (Hage (now - ti_ctime it)). pose proof (Hage (now - ti_atime it)).
  set (n := list_sum _) in Ho. vm_compute in n. subst n.
  change (length (bytes_of "ctime=")) with 6%nat. change (length (bytes_of ",atime=")) with 7%nat. lia.
Qed.

(** What the uses keep true of every item. *)
Definition ti_ok (x : topkey_item_t) : Prop :=
  (forall o, - 2 ^ 31 <= x.(ti_counts) o < 2 ^ 31) /\ x.(ti_atime) = x.(ti_ctime).

Lemma bump_ok op x : ti_ok x -> ti_ok (bump op x).
Proof. intros [Hc Ha]. split; [|done]. intros o. simpl. case_decide; [apply swrap_range|apply Hc]. Qed.

Lemma Forall_removelast {A} (P : A -> Prop) l : Forall P l -> Forall P (removelast l).
Proof.
  destruct l as [|x l _] using rev_ind; [done|]. rewrite removelast_last. by intros [? _]%Forall_app.
Qed.

Lemma used_ok m us : forall l, Forall ti_ok l -> Forall ti_ok (used m us l).
Proof.
  induction us as [|[[op k] ct] us IH]; intros l Hl; [done|]. apply IH. unfold use_key. simpl.
  destruct (filter _ l) as [|x l'] eqn:Hf.
  - constructor; [apply bump_ok; split; [simpl; lia|done]|]. case_decide; [done|by apply Forall_removelast].
  - rewrite Forall_forall in Hl. constructor.
    + apply bump_ok, Hl. assert (Hx : x ∈ x :: l') by left. rewrite <- Hf in Hx.
      by apply list_elem_of_filter in Hx as [_ Hx].
    + apply Forall_forall. intros y [_ Hy]%list_elem_of_filter. by apply Hl.
Qed.

Lemma tk_iterfunc_all x now :
  ti_ok x -> tk_iterfunc x now = (x.(ti_key), (tk_value x now, Z.of_nat (length (tk_value x now)))).
Proof.
  intros [Hc _]. unfold tk_iterfunc. do 2 f_equal. apply take_ge.
  pose proof (tk_value_length x now Hc). change (Z.to_nat (TK_MAX_VAL_LEN - 2)) with 498%nat. lia.
Qed.

Lemma init_rep calloc_ok max_keys :
  calloc_ok 0%nat = true -> 1 <= max_keys < 2 ^ 31 - 1 ->
  exists t, topkeys_init calloc_ok max_keys = Some (Some t) /\ tk_rep t [] /\ t.(tk_max_keys) = max_keys.
Proof.
  intros Hc Hm. destruct (init_run my_hash_ops calloc_ok max_keys) as (h & Hi & Hh & _ & Hs);
    [done|done|done|lia|]. unfold topkeys_init. rewrite Hi. eexists. split; [done|]. split; [|done].
  constructor; simpl; [|done|done|lia]. constructor; [|done|done]. constructor; simpl.
  - unfold ring. simpl. by rewrite lookup_singleton_eq.
  - apply NoDup_singleton.
  - rewrite dom_singleton_L. set_solver.
  - set_solver.
  - intros p x Hp. by apply not_elem_of_nil in Hp.
  - constructor.
Qed.

(** * Properties *)

(** C29: a shard is the list of the keys that were used last: after any sequence of
    uses of a new shard, its statistics are the items of the specification, in which a
    use moves a key to the front or puts it there and drops the one that was not used
    for the longest time when there are more than [max_keys]. No key is listed twice
    and none is lost; every text is complete, as no value of the counters makes it
    longer than the buffer. The time of the last access stays that of the creation. *)
Theorem topkeys_most_recent new_address calloc_ok max_keys us now :
  (forall X, exists p, new_address X = Some p /\ p ∉ X) -> (forall n, calloc_ok n = true) ->
  1 <= max_keys < 2 ^ 31 - 1 -> Forall (fun u => 0 < Z.of_nat (length u.1.2) < 2 ^ 31) us ->
  let l := used (Z.to_nat max_keys) us [] in
  exists t, topkeys_init calloc_ok max_keys = Some (Some t) /\
    runs (use_all new_address calloc_ok us;; shard_stats now) t (fun r _ =>
      r = (fun x => (x.(ti_key), (tk_value x now, Z.of_nat (length (tk_value x now))))) <$> l /\
      NoDup (ti_key <$> l) /\ Z.of_nat (length l) <= max_keys /\
      Forall (fun x => x.(ti_atime) = x.(ti_ctime)) l).
Proof.
  intros Hnew Hcal Hm Hus l. destruct (init_rep calloc_ok max_keys) as (t & Hi & Hr & Ht); [done|done|].
  exists t. split; [done|]. run. apply (use_all_run _ _ Hnew Hcal us t []); [done|done|].
  intros t' pl Hr' Hpl Hm'. unfold shard_stats. run. simpl in Hpl. rewrite Ht in Hpl. fold l in Hpl.
  pose proof Hr' as [[Hc _ _] _ _ Hb]. assert (Hl : Forall ti_ok l) by (by apply used_ok).
  apply (dlist_iter_run t' pl); [done|]. apply stats_items_run; [by apply Hc|]. rewrite Hpl. split; [|split; [|split]].
  - apply list_fmap_ext. intros i x Hx. apply tk_iterfunc_all. by eapply Forall_lookup_1.
  - rewrite <- Hpl, <- list_fmap_compose. apply Hc.
  - rewrite <- Hpl, length_fmap. lia.
  - eapply Forall_impl; [exact Hl|]. by intros x [_ Hx].
Qed.

(** [topkeys_free] after any sequence of uses frees every item: it returns,
    so that no item is read after it was freed, and nothing but the sentinel is
    left. *)
Theorem topkeys_free_all new_address calloc_ok max_keys us :
  (forall X, exists p, new_address X = Some p /\ p ∉ X) -> (forall n, calloc_ok n = true) ->
  1 <= max_keys < 2 ^ 31 - 1 -> Forall (fun u => 0 < Z.of_nat (length u.1.2) < 2 ^ 31) us ->
  exists t, topkeys_init calloc_ok max_keys = Some (Some t) /\
    runs (use_all new_address calloc_ok us;; topkeys_free) t (fun _ t' =>
      dom t'.(tk_links) = {[LIST]} /\ (forall k, stack my_hash_ops t'.(tk_hash) k = [])).
Proof.
  intros Hnew Hcal Hm Hus. destruct (init_rep calloc_ok max_keys) as (t & Hi & Hr & Ht); [done|done|].
  exists t. split; [done|]. run. apply (use_all_run _ _ Hnew Hcal us t []); [done|done|].
  intros t' pl Hr' _ Hm'. unfold topkeys_free. run. pose proof Hr' as [[Hc Hh _] _ _ _].
  apply on_hash_run. apply clear_run; [done|]. intros h (_ & Hs & _). run.
  pose proof Hc as [[HL Hseg] Hn Hd _ _ _]. eapply link_run; [exact HL|]. cbn [snd]. run.
  change (size (tk_links (set_tk_hash h t'))) with (size t'.(tk_links)). rewrite (chain_size t' pl Hc).
  apply NoDup_cons in Hn as [HLn Hn].
  apply (free_walk_run _ pl.*1 LIST); [exact Hseg|done|done|rewrite length_fmap; lia|].
  intros t2 Hd2 Hh2. split; [|by rewrite Hh2]. rewrite Hd2. simpl. rewrite Hd. set_solver.
Qed.

(** ** Witnesses *)

Definition next_address (X : gset Z) : option Z := Some (fresh X).

Lemma next_address_ok X : exists p, next_address X = Some p /\ p ∉ X.
Proof. exists (fresh X). split; [done|]. apply is_fresh. Qed.

(** A shard of two keys: the use of the third one drops the first, the second use of
    the second one moves it to the front. *)
Definition demo_uses : list (tk_op * key * Z) :=
  [(cmd_set, [97], 5); (get_hits, [98], 6); (get_misses, [99], 7); (get_hits, [98], 8)].

Lemma demo_uses_ok : Forall (fun u => 0 < Z.of_nat (length u.1.2) < 2 ^ 31) demo_uses.
Proof. repeat constructor. Qed.

Lemma topkeys_most_recent_witness :
  exists t r t', topkeys_init (fun _ => true) 2 = Some (Some t) /\
    (use_all next_address (fun _ => true) demo_uses;; shard_stats 10) t = Some (r, t') /\
    (fun e => (e.1, take 10 e.2.1)) <$> r = [([98], bytes_of "get_hits=2"); ([99], bytes_of "get_hits=0")].
Proof.
  destruct (topkeys_most_recent next_address (fun _ => true) 2 demo_uses 10)
    as (t & Hi & r & t' & Hrun & -> & _);
    [apply next_address_ok|reflexivity|lia|apply demo_uses_ok|].
  exists t, ((fun x => (x.(ti_key), (tk_value x 10, Z.of_nat (length (tk_value x 10)))))
    <$> used (Z.to_nat 2) demo_uses []), t'.
  split; [exact Hi|]. split; [exact Hrun|]. vm_compute. reflexivity.
Defined.

Lemma topkeys_free_all_witness :
  exists t u t', topkeys_init (fun _ => true) 2 = Some (Some t) /\
    (use_all next_address (fun _ => true) demo_uses;; topkeys_free) t = Some (u, t') /\
    dom t'.(tk_links) = {[LIST]}.
Proof.
  destruct (topkeys_free_all next_address (fun _ => true) 2 demo_uses)
    as (t & Hi & u & t' & Hrun & Hd & _);
    [apply next_address_ok|reflexivity|lia|apply demo_uses_ok|].
  exists t, u, t'. split; [exact Hi|]. split; [exact Hrun|exact Hd].
Defined.
