(* ===== verification/Protocol.v ===== *)
(** * The binary protocol ([include/memcached/protocol_binary.h])

    Constants, the header of a request and of a response, the validators of
    [daemon/memcached.c], and the translation of error codes. A field of more than one
    byte is in network byte order; the opaque of a request is copied to the response
    as it is and stays a string of four bytes. *)
From Stdlib Require Import ZArith Lia.
From stdpp Require Import strings gmap prelude.
From S2P Require Import Prelude Util EngineState DefaultEngine.

#[local] Set Warnings "-clear-no-such-hyp".

(** [protocol_binary_magic]. *)
Definition PROTOCOL_BINARY_REQ : Z := 128.
Definition PROTOCOL_BINARY_RES : Z := 129.

(** [protocol_binary_response_status]. *)
Definition PROTOCOL_BINARY_RESPONSE_SUCCESS : Z := 0.
Definition PROTOCOL_BINARY_RESPONSE_KEY_ENOENT : Z := 1.
Definition PROTOCOL_BINARY_RESPONSE_KEY_EEXISTS : Z := 2.
Definition PROTOCOL_BINARY_RESPONSE_E2BIG : Z := 3.
Definition PROTOCOL_BINARY_RESPONSE_EINVAL : Z := 4.
Definition PROTOCOL_BINARY_RESPONSE_NOT_STORED : Z := 5.
Definition PROTOCOL_BINARY_RESPONSE_DELTA_BADVAL : Z := 6.
Definition PROTOCOL_BINARY_RESPONSE_NOT_MY_VBUCKET : Z := 7.
Definition PROTOCOL_BINARY_RESPONSE_AUTH_ERROR : Z := 32.
Definition PROTOCOL_BINARY_RESPONSE_AUTH_CONTINUE : Z := 33.
Definition PROTOCOL_BINARY_RESPONSE_ERANGE : Z := 34.
Definition PROTOCOL_BINARY_RESPONSE_ROLLBACK : Z := 35.
Definition PROTOCOL_BINARY_RESPONSE_EACCESS : Z := 36.
Definition PROTOCOL_BINARY_RESPONSE_UNKNOWN_COMMAND : Z := 129.
Definition PROTOCOL_BINARY_RESPONSE_ENOMEM : Z := 130.
Definition PROTOCOL_BINARY_RESPONSE_NOT_SUPPORTED : Z := 131.
Definition PROTOCOL_BINARY_RESPONSE_EINTERNAL : Z := 132.
Definition PROTOCOL_BINARY_RESPONSE_EBUSY : Z := 133.
Definition PROTOCOL_BINARY_RESPONSE_ETMPFAIL : Z := 134.

(** [protocol_binary_command], the commands that the daemon names. *)
Definition PROTOCOL_BINARY_CMD_GET : Z := 0.
Definition PROTOCOL_BINARY_CMD_SET : Z := 1.
Definition PROTOCOL_BINARY_CMD_ADD : Z := 2.
Definition PROTOCOL_BINARY_CMD_REPLACE : Z := 3.
Definition PROTOCOL_BINARY_CMD_DELETE : Z := 4.
Definition PROTOCOL_BINARY_CMD_INCREMENT : Z := 5.
Definition PROTOCOL_BINARY_CMD_DECREMENT : Z := 6.
Definition PROTOCOL_BINARY_CMD_QUIT : Z := 7.
Definition PROTOCOL_BINARY_CMD_FLUSH : Z := 8.
Definition PROTOCOL_BINARY_CMD_GETQ : Z := 9.
Definition PROTOCOL_BINARY_CMD_NOOP : Z := 10.
Definition PROTOCOL_BINARY_CMD_VERSION : Z := 11.
Definition PROTOCOL_BINARY_CMD_GETK : Z := 12.
Definition PROTOCOL_BINARY_CMD_GETKQ : Z := 13.
Definition PROTOCOL_BINARY_CMD_APPEND : Z := 14.
Definition PROTOCOL_BINARY_CMD_PREPEND : Z := 15.
Definition PROTOCOL_BINARY_CMD_STAT : Z := 16.
Definition PROTOCOL_BINARY_CMD_SETQ : Z := 17.
Definition PROTOCOL_BINARY_CMD_ADDQ : Z := 18.
Definition PROTOCOL_BINARY_CMD_REPLACEQ : Z := 19.
Definition PROTOCOL_BINARY_CMD_DELETEQ : Z := 20.
Definition PROTOCOL_BINARY_CMD_INCREMENTQ : Z := 21.
Definition PROTOCOL_BINARY_CMD_DECREMENTQ : Z := 22.
Definition PROTOCOL_BINARY_CMD_QUITQ : Z := 23.
Definition PROTOCOL_BINARY_CMD_FLUSHQ : Z := 24.
Definition PROTOCOL_BINARY_CMD_APPENDQ : Z := 25.
Definition PROTOCOL_BINARY_CMD_PREPENDQ : Z := 26.
Definition PROTOCOL_BINARY_CMD_VERBOSITY : Z := 27.
Definition PROTOCOL_BINARY_CMD_HELLO : Z := 31.
Definition PROTOCOL_BINARY_CMD_SASL_LIST_MECHS : Z := 32.
Definition PROTOCOL_BINARY_CMD_SASL_AUTH : Z := 33.
Definition PROTOCOL_BINARY_CMD_SASL_STEP : Z := 34.
Definition PROTOCOL_BINARY_CMD_IOCTL_GET : Z := 35.
Definition PROTOCOL_BINARY_CMD_IOCTL_SET : Z := 36.
Definition PROTOCOL_BINARY_CMD_TAP_CONNECT : Z := 64.
Definition PROTOCOL_BINARY_CMD_TAP_MUTATION : Z := 65.
Definition PROTOCOL_BINARY_CMD_TAP_DELETE : Z := 66.
Definition PROTOCOL_BINARY_CMD_TAP_FLUSH : Z := 67.
Definition PROTOCOL_BINARY_CMD_TAP_OPAQUE : Z := 68.
Definition PROTOCOL_BINARY_CMD_TAP_VBUCKET_SET : Z := 69.
Definition PROTOCOL_BINARY_CMD_TAP_CHECKPOINT_START : Z := 70.
Definition PROTOCOL_BINARY_CMD_TAP_CHECKPOINT_END : Z := 71.
Definition PROTOCOL_BINARY_CMD_GET_ALL_VB_SEQNOS : Z := 72.
Definition PROTOCOL_BINARY_CMD_DCP_OPEN : Z := 80.
Definition PROTOCOL_BINARY_CMD_DCP_ADD_STREAM : Z := 81.
Definition PROTOCOL_BINARY_CMD_DCP_CLOSE_STREAM : Z := 82.
Definition PROTOCOL_BINARY_CMD_DCP_STREAM_REQ : Z := 83.
Definition PROTOCOL_BINARY_CMD_DCP_GET_FAILOVER_LOG : Z := 84.
Definition PROTOCOL_BINARY_CMD_DCP_STREAM_END : Z := 85.
Definition PROTOCOL_BINARY_CMD_DCP_SNAPSHOT_MARKER : Z := 86.
Definition PROTOCOL_BINARY_CMD_DCP_MUTATION : Z := 87.
Definition PROTOCOL_BINARY_CMD_DCP_DELETION : Z := 88.
Definition PROTOCOL_BINARY_CMD_DCP_EXPIRATION : Z := 89.
Definition PROTOCOL_BINARY_CMD_DCP_FLUSH : Z := 90.
Definition PROTOCOL_BINARY_CMD_DCP_SET_VBUCKET_STATE : Z := 91.
Definition PROTOCOL_BINARY_CMD_DCP_NOOP : Z := 92.
Definition PROTOCOL_BINARY_CMD_DCP_BUFFER_ACKNOWLEDGEMENT : Z := 93.
Definition PROTOCOL_BINARY_CMD_DCP_CONTROL : Z := 94.
Definition PROTOCOL_BINARY_CMD_DCP_RESERVED4 : Z := 95.
Definition PROTOCOL_BINARY_CMD_ISASL_REFRESH : Z := 241.
Definition PROTOCOL_BINARY_CMD_SSL_CERTS_REFRESH : Z := 242.
Definition PROTOCOL_BINARY_CMD_GET_CMD_TIMER : Z := 243.
Definition PROTOCOL_BINARY_CMD_SET_CTRL_TOKEN : Z := 244.
Definition PROTOCOL_BINARY_CMD_GET_CTRL_TOKEN : Z := 245.

(** [protocol_binary_datatypes] and [protocol_binary_hello_features]. *)
Definition PROTOCOL_BINARY_RAW_BYTES : Z := 0.
Definition PROTOCOL_BINARY_DATATYPE_JSON : Z := 1.
Definition PROTOCOL_BINARY_DATATYPE_COMPRESSED : Z := 2.
Definition PROTOCOL_BINARY_DATATYPE_COMPRESSED_JSON : Z := 3.
Definition PROTOCOL_BINARY_FEATURE_DATATYPE : Z := 1.
Definition PROTOCOL_BINARY_FEATURE_TLS : Z := 2.

(** ** Headers *)

(** [protocol_binary_request_header], in host byte order. *)
Record request_header := mk_req {
  rh_magic : Z;
  rh_opcode : Z;
  rh_keylen : Z;
  rh_extlen : Z;
  rh_datatype : Z;
  rh_vbucket : Z;
  rh_bodylen : Z;
  rh_opaque : list Z;
  rh_cas : Z
}.

Definition no_request : request_header := mk_req 0 0 0 0 0 0 0 [0; 0; 0; 0] 0.

(** The conversion that [try_read_command] makes of the 24 bytes at an address. *)
Definition parse_request (b : list Z) : option request_header :=
  magic ← packet_field b 0 1;
  opcode ← packet_field b 1 1;
  keylen ← packet_field b 2 2;
  extlen ← packet_field b 4 1;
  datatype ← packet_field b 5 1;
  vbucket ← packet_field b 6 2;
  bodylen ← packet_field b 8 4;
  opaque ← packet_bytes b 12 4;
  cas ← packet_field b 16 8;
  Some (mk_req magic opcode keylen extlen datatype vbucket bodylen opaque cas).

(** The 24 bytes of a [protocol_binary_response_header]; every field is stored at its
    width. *)
Definition response_header (opcode keylen extlen datatype status bodylen : Z) (opaque : list Z)
    (cas : Z) : list Z :=
  [PROTOCOL_BINARY_RES; u8 opcode] ++ be_bytes 2 keylen ++ [u8 extlen; u8 datatype]
  ++ be_bytes 2 status ++ be_bytes 4 bodylen ++ opaque ++ be_bytes 8 cas.

(** ** Error codes *)

Definition engine_error_2_protocol_error (e : ENGINE_ERROR_CODE) : Z :=
  match e with
  | ENGINE_SUCCESS => PROTOCOL_BINARY_RESPONSE_SUCCESS
  | ENGINE_KEY_ENOENT => PROTOCOL_BINARY_RESPONSE_KEY_ENOENT
  | ENGINE_KEY_EEXISTS => PROTOCOL_BINARY_RESPONSE_KEY_EEXISTS
  | ENGINE_ENOMEM => PROTOCOL_BINARY_RESPONSE_ENOMEM
  | ENGINE_TMPFAIL => PROTOCOL_BINARY_RESPONSE_ETMPFAIL
  | ENGINE_NOT_STORED => PROTOCOL_BINARY_RESPONSE_NOT_STORED
  | ENGINE_EINVAL => PROTOCOL_BINARY_RESPONSE_EINVAL
  | ENGINE_ENOTSUP => PROTOCOL_BINARY_RESPONSE_NOT_SUPPORTED
  | ENGINE_E2BIG => PROTOCOL_BINARY_RESPONSE_E2BIG
  | ENGINE_NOT_MY_VBUCKET => PROTOCOL_BINARY_RESPONSE_NOT_MY_VBUCKET
  | ENGINE_ERANGE => PROTOCOL_BINARY_RESPONSE_ERANGE
  | ENGINE_ROLLBACK => PROTOCOL_BINARY_RESPONSE_ROLLBACK
  | _ => PROTOCOL_BINARY_RESPONSE_EINTERNAL
  end.

Definition errcode_texts : list (Z * string) :=
  [(PROTOCOL_BINARY_RESPONSE_SUCCESS, "Success");
   (PROTOCOL_BINARY_RESPONSE_KEY_ENOENT, "Not found");
   (PROTOCOL_BINARY_RESPONSE_KEY_EEXISTS, "Data exists for key");
   (PROTOCOL_BINARY_RESPONSE_E2BIG, "Too large");
   (PROTOCOL_BINARY_RESPONSE_EINVAL, "Invalid arguments");
   (PROTOCOL_BINARY_RESPONSE_NOT_STORED, "Not stored");
   (PROTOCOL_BINARY_RESPONSE_DELTA_BADVAL, "Non-numeric server-side value for incr or decr");
   (PROTOCOL_BINARY_RESPONSE_NOT_MY_VBUCKET, "I'm not responsible for this vbucket");
   (PROTOCOL_BINARY_RESPONSE_AUTH_ERROR, "Auth failure");
   (PROTOCOL_BINARY_RESPONSE_AUTH_CONTINUE, "Auth continue");
   (PROTOCOL_BINARY_RESPONSE_ERANGE, "Outside range");
   (PROTOCOL_BINARY_RESPONSE_ROLLBACK, "Rollback");
   (PROTOCOL_BINARY_RESPONSE_EACCESS, "No access");
   (PROTOCOL_BINARY_RESPONSE_UNKNOWN_COMMAND, "Unknown command");
   (PROTOCOL_BINARY_RESPONSE_ENOMEM, "Out of memory");
   (PROTOCOL_BINARY_RESPONSE_NOT_SUPPORTED, "Not supported");
   (PROTOCOL_BINARY_RESPONSE_EINTERNAL, "Internal error");
   (PROTOCOL_BINARY_RESPONSE_EBUSY, "Server too busy");
   (PROTOCOL_BINARY_RESPONSE_ETMPFAIL, "Temporary failure")].

Fixpoint find_text (l : list (Z * string)) (err : Z) : string :=
  match l with
  | [] => "Unknown error code"
  | (e, s) :: l' => if e =? err then s else find_text l' err
  end.

Definition memcached_protocol_errcode_2_text (err : Z) : list Z := bytes_of (find_text errcode_texts err).

(** The code of a reply of the engine. *)
Definition reply_code (s : response_status) : Z :=
  match s with
  | RESPONSE_SUCCESS => PROTOCOL_BINARY_RESPONSE_SUCCESS
  | RESPONSE_KEY_ENOENT => PROTOCOL_BINARY_RESPONSE_KEY_ENOENT
  | RESPONSE_EINVAL => PROTOCOL_BINARY_RESPONSE_EINVAL
  | RESPONSE_EBUSY => PROTOCOL_BINARY_RESPONSE_EBUSY
  | RESPONSE_UNKNOWN_COMMAND => PROTOCOL_BINARY_RESPONSE_UNKNOWN_COMMAND
  end.

(** ** Validators

    A validator is given the bytes of the read buffer from the packet on; [Some true]
    is the result 0, and [None] a read behind the end of the buffer. *)

(** The test for the magic and the data type, which all of them make. *)
Definition request_of_raw_bytes (r : request_header) : bool :=
  (r.(rh_magic) =? PROTOCOL_BINARY_REQ) && (r.(rh_datatype) =? PROTOCOL_BINARY_RAW_BYTES).

(** A request that consists of its header. *)
Definition bare_request (packet : list Z) : option bool :=
  r ← parse_request packet;
  Some (request_of_raw_bytes r && (r.(rh_extlen) =? 0) && (r.(rh_keylen) =? 0) && (r.(rh_bodylen) =? 0)).

Definition version_validator (packet : list Z) : option bool := bare_request packet.
Definition quit_validator (packet : list Z) : option bool := bare_request packet.
Definition noop_validator (packet : list Z) : option bool := bare_request packet.
Definition get_ctrl_token_validator (packet : list Z) : option bool := bare_request packet.

Definition verbosity_validator (packet : list Z) : option bool :=
  r ← parse_request packet;
  Some (request_of_raw_bytes r && (r.(rh_extlen) =? 4) && (r.(rh_keylen) =? 0) && (r.(rh_bodylen) =? 4)).

(** [len] is a [uint32_t] and wraps around when the key is longer than the body. *)
Definition hello_validator (packet : list Z) : option bool :=
  r ← parse_request packet;
  let len := u32 (r.(rh_bodylen) - r.(rh_keylen)) in
  Some (request_of_raw_bytes r && (r.(rh_extlen) =? 0) && (len mod 2 =? 0)).

Definition flush_validator (packet : list Z) : option bool :=
  r ← parse_request packet;
  Some (((r.(rh_extlen) =? 0) || (r.(rh_extlen) =? 4)) && (r.(rh_bodylen) =? r.(rh_extlen))
        && request_of_raw_bytes r && (r.(rh_keylen) =? 0)).

Definition get_validator (packet : list Z) : option bool :=
  r ← parse_request packet;
  Some (request_of_raw_bytes r && (r.(rh_extlen) =? 0) && negb (r.(rh_keylen) =? 0)
        && (r.(rh_keylen) =? r.(rh_bodylen))).

Definition delete_validator (packet : list Z) : option bool :=
  r ← parse_request packet;
  Some (request_of_raw_bytes r && (r.(rh_extlen) =? 0) && negb (r.(rh_keylen) =? 0)
        && (r.(rh_keylen) =? r.(rh_bodylen))).

Definition arithmetic_validator (packet : list Z) : option bool :=
  r ← parse_request packet;
  Some (request_of_raw_bytes r && (r.(rh_extlen) =? 20) && negb (r.(rh_keylen) =? 0)
        && (r.(rh_keylen) + r.(rh_extlen) =? r.(rh_bodylen))).

(** The new value is only read when the tests before it hold. *)
Definition set_ctrl_token_validator (packet : list Z) : option bool :=
  r ← parse_request packet;
  if request_of_raw_bytes r && (r.(rh_extlen) =? 8) && (r.(rh_keylen) =? 0) && (r.(rh_bodylen) =? 8)
  then v ← packet_field packet 24 8; Some (negb (v =? 0))
  else Some false.

(** ** Lemmas *)

Lemma packet_field_app b r off n : (off + n <= length b)%nat -> packet_field (b ++ r) off n = packet_field b off n.
Proof.
  intros Hn. unfold packet_field. rewrite length_app.
  rewrite !(proj2 (Nat.leb_le _ _)) by lia. rewrite drop_app_le, take_app_le by (rewrite ?length_drop; lia). done.
Qed.

Lemma packet_bytes_app b r off n : (off + n <= length b)%nat -> packet_bytes (b ++ r) off n = packet_bytes b off n.
Proof.
  intros Hn. unfold packet_bytes. rewrite length_app.
  rewrite !(proj2 (Nat.leb_le _ _)) by lia. rewrite drop_app_le, take_app_le by (rewrite ?length_drop; lia). done.
Qed.

(** Only the first 24 bytes are read. *)
Lemma parse_request_app b r : (24 <= length b)%nat -> parse_request (b ++ r) = parse_request b.
Proof.
  intros Hb. unfold parse_request. rewrite !packet_field_app, packet_bytes_app by lia. done.
Qed.

Lemma packet_field_Some b off n : (off + n <= length b)%nat ->
  packet_field b off n = Some (be_val (take n (drop off b))).
Proof. intros Hn. unfold packet_field. by rewrite (proj2 (Nat.leb_le _ _)) by lia. Qed.

Lemma packet_bytes_Some b off n : (off + n <= length b)%nat ->
  packet_bytes b off n = Some (take n (drop off b)).
Proof. intros Hn. unfold packet_bytes. by rewrite (proj2 (Nat.leb_le _ _)) by lia. Qed.

Lemma field_range b off n v : bytes_ok b -> packet_field b off n = Some v -> 0 <= v < 2 ^ (8 * Z.of_nat n).
Proof.
  intros Hb. unfold packet_field. destruct (Nat.leb_spec (off + n) (length b)) as [Hn|]; [|done]. intros [= <-].
  pose proof (be_val_bound (take n (drop off b)) ltac:(by apply Forall_take, Forall_drop)) as Hv.
  rewrite length_take, length_drop, Nat.min_l in Hv by lia. exact Hv.
Qed.

(** The ranges of the fields of a header. *)
Record req_ok (r : request_header) : Prop := {
  ro_opcode : 0 <= rh_opcode r < 256;
  ro_keylen : 0 <= rh_keylen r < 2 ^ 16;
  ro_extlen : 0 <= rh_extlen r < 256;
  ro_datatype : 0 <= rh_datatype r < 256;
  ro_vbucket : 0 <= rh_vbucket r < 2 ^ 16;
  ro_bodylen : 0 <= rh_bodylen r < 2 ^ 32;
  ro_opaque : length (rh_opaque r) = 4%nat;
  ro_cas : 0 <= rh_cas r < 2 ^ 64
}.

Lemma parse_request_Some b : (24 <= length b)%nat -> bytes_ok b ->
  exists r, parse_request b = Some r /\ req_ok r.
Proof.
  intros Hn Hb. unfold parse_request. rewrite !packet_field_Some, packet_bytes_Some by lia.
  cbn [mbind option_bind]. eexists. split; [done|].
  assert (Hf : forall off n, (off + n <= length b)%nat -> 0 <= be_val (take n (drop off b)) < 2 ^ (8 * Z.of_nat n)).
  { intros off n Ho. apply (field_range b off n); [done|]. by apply packet_field_Some. }
  constructor; cbn [rh_opcode rh_keylen rh_extlen rh_datatype rh_vbucket rh_bodylen rh_opaque rh_cas];
    try (eapply Hf; lia).
  rewrite length_take, length_drop. lia.
Qed.

Lemma response_header_length opcode keylen extlen datatype status bodylen opaque cas :
  length opaque = 4%nat ->
  length (response_header opcode keylen extlen datatype status bodylen opaque cas) = 24%nat.
Proof. intros Ho. unfold response_header. rewrite !length_app, !be_bytes_length. simpl. lia. Qed.
