(* ===== verification/Conn.v ===== *)
(** * The state of a connection ([daemon/memcached.h])

    [struct conn], the operating system as the daemon sees it, and the interface
    [ENGINE_HANDLE_V1] of the engine. The read buffer, the write buffer and the dynamic
    buffer are strings of bytes, and a pointer into one of them is an offset; a pointer
    that may point into several objects is an [addr]. The messages of [msglist] hold
    their entries of the array [iov], which follow each other there. Timing,
    statistics, SSL, TAP and DCP fields are left out. *)
From Stdlib Require Import ZArith Lia.
From stdpp Require Import strings gmap prelude.
From S2P Require Import Prelude Util EngineState DefaultEngine Protocol.

#[local] Set Warnings "-clear-no-such-hyp".

(** [STATE_FUNC], the functions of a connection that is not a TAP or DCP one. *)
Inductive state_func :=
| F_new_cmd | F_waiting | F_read | F_parse_cmd | F_nread | F_swallow | F_write | F_mwrite
| F_closing | F_pending_close | F_immediate_close.

#[global] Instance state_func_dec : EqDecision state_func.
Proof. solve_decision. Defined.

Inductive bin_substates :=
| bin_no_state | bin_reading_set_header | bin_reading_cas_header | bin_read_set_value
| bin_reading_sasl_auth | bin_reading_sasl_auth_data | bin_reading_packet.

(** An address: in the read buffer, in the data or the key of an item, in the write
    buffer, in a constant string, or in the buffer [write_and_free]. *)
Inductive addr :=
| A_null
| A_rbuf (off : Z)
| A_data (it off : Z)
| A_key (it off : Z)
| A_wbuf (off : Z)
| A_text (s : list Z) (off : Z)
| A_dyn (off : Z).

Definition shift_addr (a : addr) (n : Z) : addr :=
  match a with
  | A_null => A_null
  | A_rbuf o => A_rbuf (o + n)
  | A_data it o => A_data it (o + n)
  | A_key it o => A_key it (o + n)
  | A_wbuf o => A_wbuf (o + n)
  | A_text s o => A_text s (o + n)
  | A_dyn o => A_dyn (o + n)
  end.

(** [struct iovec]. *)
Record iovec := mk_iovec { iov_base : addr; iov_len : Z }.

Record conn := mk_conn {
  cn_state : state_func;
  cn_substate : bin_substates;
  cn_registered : bool;
  cn_ev_flags : Z;
  cn_open : bool;
  cn_released : bool;
  cn_nevents : Z;
  cn_max_reqs_per_event : Z;
  cn_admin : bool;
  cn_sasl_user : bool;
  cn_rbuf : list Z;
  cn_rcurr : Z;
  cn_rsize : Z;
  cn_rbytes : Z;
  cn_wbuf : list Z;
  cn_wcurr : addr;
  cn_wbytes : Z;
  cn_write_and_go : state_func;
  cn_write_and_free : option (list Z);
  cn_ritem : addr;
  cn_rlbytes : Z;
  cn_item : Z;
  cn_store_op : ENGINE_STORE_OPERATION;
  cn_sbytes : Z;
  cn_iovsize : Z;
  cn_iovused : Z;
  cn_msgs : list (list iovec);
  cn_msgsize : Z;
  cn_msgcurr : Z;
  cn_msgbytes : Z;
  cn_ilist : list Z;
  cn_noreply : bool;
  cn_refcount : Z;
  cn_supports_datatype : bool;
  cn_dyn_buffer : option (list Z);
  cn_dyn_size : Z;
  cn_dyn_offset : Z;
  cn_header : request_header;
  cn_cas : Z;
  cn_cmd : Z;
  cn_opaque : list Z;
  cn_keylen : Z;
  cn_aiostat : ENGINE_ERROR_CODE;
  cn_ewouldblock : bool
}.

Definition set_cn_state (v : state_func) (x : conn) : conn :=
  mk_conn v x.(cn_substate) x.(cn_registered) x.(cn_ev_flags) x.(cn_open) x.(cn_released)
    x.(cn_nevents) x.(cn_max_reqs_per_event) x.(cn_admin) x.(cn_sasl_user) x.(cn_rbuf) x.(cn_rcurr)
    x.(cn_rsize) x.(cn_rbytes) x.(cn_wbuf) x.(cn_wcurr) x.(cn_wbytes) x.(cn_write_and_go)
    x.(cn_write_and_free) x.(cn_ritem) x.(cn_rlbytes) x.(cn_item) x.(cn_store_op) x.(cn_sbytes)
    x.(cn_iovsize) x.(cn_iovused) x.(cn_msgs) x.(cn_msgsize) x.(cn_msgcurr) x.(cn_msgbytes)
    x.(cn_ilist) x.(cn_noreply) x.(cn_refcount) x.(cn_supports_datatype) x.(cn_dyn_buffer)
    x.(cn_dyn_size) x.(cn_dyn_offset) x.(cn_header) x.(cn_cas) x.(cn_cmd) x.(cn_opaque)
    x.(cn_keylen) x.(cn_aiostat) x.(cn_ewouldblock).
Definition set_cn_substate (v : bin_substates) (x : conn) : conn :=
  mk_conn x.(cn_state) v x.(cn_registered) x.(cn_ev_flags) x.(cn_open) x.(cn_released)
    x.(cn_nevents) x.(cn_max_reqs_per_event) x.(cn_admin) x.(cn_sasl_user) x.(cn_rbuf) x.(cn_rcurr)
    x.(cn_rsize) x.(cn_rbytes) x.(cn_wbuf) x.(cn_wcurr) x.(cn_wbytes) x.(cn_write_and_go)
    x.(cn_write_and_free) x.(cn_ritem) x.(cn_rlbytes) x.(cn_item) x.(cn_store_op) x.(cn_sbytes)
    x.(cn_iovsize) x.(cn_iovused) x.(cn_msgs) x.(cn_msgsize) x.(cn_msgcurr) x.(cn_msgbytes)
    x.(cn_ilist) x.(cn_noreply) x.(cn_refcount) x.(cn_supports_datatype) x.(cn_dyn_buffer)
    x.(cn_dyn_size) x.(cn_dyn_offset) x.(cn_header) x.(cn_cas) x.(cn_cmd) x.(cn_opaque)
    x.(cn_keylen) x.(cn_aiostat) x.(cn_ewouldblock).
Definition set_cn_registered (v : bool) (x : conn) : conn :=
  mk_conn x.(cn_state) x.(cn_substate) v x.(cn_ev_flags) x.(cn_open) x.(cn_released) x.(cn_nevents)
    x.(cn_max_reqs_per_event) x.(cn_admin) x.(cn_sasl_user) x.(cn_rbuf) x.(cn_rcurr) x.(cn_rsize)
    x.(cn_rbytes) x.(cn_wbuf) x.(cn_wcurr) x.(cn_wbytes) x.(cn_write_and_go) x.(cn_write_and_free)
    x.(cn_ritem) x.(cn_rlbytes) x.(cn_item) x.(cn_store_op) x.(cn_sbytes) x.(cn_iovsize)
    x.(cn_iovused) x.(cn_msgs) x.(cn_msgsize) x.(cn_msgcurr) x.(cn_msgbytes) x.(cn_ilist)
    x.(cn_noreply) x.(cn_refcount) x.(cn_supports_datatype) x.(cn_dyn_buffer) x.(cn_dyn_size)
    x.(cn_dyn_offset) x.(cn_header) x.(cn_cas) x.(cn_cmd) x.(cn_opaque) x.(cn_keylen) x.(cn_aiostat)
    x.(cn_ewouldblock).
Definition set_cn_ev_flags (v : Z) (x : conn) : conn :=
  mk_conn x.(cn_state) x.(cn_substate) x.(cn_registered) v x.(cn_open) x.(cn_released)
    x.(cn_nevents) x.(cn_max_reqs_per_event) x.(cn_admin) x.(cn_sasl_user) x.(cn_rbuf) x.(cn_rcurr)
    x.(cn_rsize) x.(cn_rbytes) x.(cn_wbuf) x.(cn_wcurr) x.(cn_wbytes) x.(cn_write_and_go)
    x.(cn_write_and_free) x.(cn_ritem) x.(cn_rlbytes) x.(cn_item) x.(cn_store_op) x.(cn_sbytes)
    x.(cn_iovsize) x.(cn_iovused) x.(cn_msgs) x.(cn_msgsize) x.(cn_msgcurr) x.(cn_msgbytes)
    x.(cn_ilist) x.(cn_noreply) x.(cn_refcount) x.(cn_supports_datatype) x.(cn_dyn_buffer)
    x.(cn_dyn_size) x.(cn_dyn_offset) x.(cn_header) x.(cn_cas) x.(cn_cmd) x.(cn_opaque)
    x.(cn_keylen) x.(cn_aiostat) x.(cn_ewouldblock).
Definition set_cn_open (v : bool) (x : conn) : conn :=
  mk_conn x.(cn_state) x.(cn_substate) x.(cn_registered) x.(cn_ev_flags) v x.(cn_released)
    x.(cn_nevents) x.(cn_max_reqs_per_event) x.(cn_admin) x.(cn_sasl_user) x.(cn_rbuf) x.(cn_rcurr)
    x.(cn_rsize) x.(cn_rbytes) x.(cn_wbuf) x.(cn_wcurr) x.(cn_wbytes) x.(cn_write_and_go)
    x.(cn_write_and_free) x.(cn_ritem) x.(cn_rlbytes) x.(cn_item) x.(cn_store_op) x.(cn_sbytes)
    x.(cn_iovsize) x.(cn_iovused) x.(cn_msgs) x.(cn_msgsize) x.(cn_msgcurr) x.(cn_msgbytes)
    x.(cn_ilist) x.(cn_noreply) x.(cn_refcount) x.(cn_supports_datatype) x.(cn_dyn_buffer)
    x.(cn_dyn_size) x.(cn_dyn_offset) x.(cn_header) x.(cn_cas) x.(cn_cmd) x.(cn_opaque)
    x.(cn_keylen) x.(cn_aiostat) x.(cn_ewouldblock).
Definition set_cn_released (v : bool) (x : conn) : conn :=
  mk_conn x.(cn_state) x.(cn_substate) x.(cn_registered) x.(cn_ev_flags) x.(cn_open) v
    x.(cn_nevents) x.(cn_max_reqs_per_event) x.(cn_admin) x.(cn_sasl_user) x.(cn_rbuf) x.(cn_rcurr)
    x.(cn_rsize) x.(cn_rbytes) x.(cn_wbuf) x.(cn_wcurr) x.(cn_wbytes) x.(cn_write_and_go)
    x.(cn_write_and_free) x.(cn_ritem) x.(cn_rlbytes) x.(cn_item) x.(cn_store_op) x.(cn_sbytes)
    x.(cn_iovsize) x.(cn_iovused) x.(cn_msgs) x.(cn_msgsize) x.(cn_msgcurr) x.(cn_msgbytes)
    x.(cn_ilist) x.(cn_noreply) x.(cn_refcount) x.(cn_supports_datatype) x.(cn_dyn_buffer)
    x.(cn_dyn_size) x.(cn_dyn_offset) x.(cn_header) x.(cn_cas) x.(cn_cmd) x.(cn_opaque)
    x.(cn_keylen) x.(cn_aiostat) x.(cn_ewouldblock).
Definition set_cn_nevents (v : Z) (x : conn) : conn :=
  mk_conn x.(cn_state) x.(cn_substate) x.(cn_registered) x.(cn_ev_flags) x.(cn_open) x.(cn_released)
    v x.(cn_max_reqs_per_event) x.(cn_admin) x.(cn_sasl_user) x.(cn_rbuf) x.(cn_rcurr) x.(cn_rsize)
    x.(cn_rbytes) x.(cn_wbuf) x.(cn_wcurr) x.(cn_wbytes) x.(cn_write_and_go) x.(cn_write_and_free)
    x.(cn_ritem) x.(cn_rlbytes) x.(cn_item) x.(cn_store_op) x.(cn_sbytes) x.(cn_iovsize)
    x.(cn_iovused) x.(cn_msgs) x.(cn_msgsize) x.(cn_msgcurr) x.(cn_msgbytes) x.(cn_ilist)
    x.(cn_noreply) x.(cn_refcount) x.(cn_supports_datatype) x.(cn_dyn_buffer) x.(cn_dyn_size)
    x.(cn_dyn_offset) x.(cn_header) x.(cn_cas) x.(cn_cmd) x.(cn_opaque) x.(cn_keylen) x.(cn_aiostat)
    x.(cn_ewouldblock).
Definition set_cn_max_reqs_per_event (v : Z) (x : conn) : conn :=
  mk_conn x.(cn_state) x.(cn_substate) x.(cn_registered) x.(cn_ev_flags) x.(cn_open) x.(cn_released)
    x.(cn_nevents) v x.(cn_admin) x.(cn_sasl_user) x.(cn_rbuf) x.(cn_rcurr) x.(cn_rsize)
    x.(cn_rbytes) x.(cn_wbuf) x.(cn_wcurr) x.(cn_wbytes) x.(cn_write_and_go) x.(cn_write_and_free)
    x.(cn_ritem) x.(cn_rlbytes) x.(cn_item) x.(cn_store_op) x.(cn_sbytes) x.(cn_iovsize)
    x.(cn_iovused) x.(cn_msgs) x.(cn_msgsize) x.(cn_msgcurr) x.(cn_msgbytes) x.(cn_ilist)
    x.(cn_noreply) x.(cn_refcount) x.(cn_supports_datatype) x.(cn_dyn_buffer) x.(cn_dyn_size)
    x.(cn_dyn_offset) x.(cn_header) x.(cn_cas) x.(cn_cmd) x.(cn_opaque) x.(cn_keylen) x.(cn_aiostat)
    x.(cn_ewouldblock).
Definition set_cn_admin (v : bool) (x : conn) : conn :=
  mk_conn x.(cn_state) x.(cn_substate) x.(cn_registered) x.(cn_ev_flags) x.(cn_open) x.(cn_released)
    x.(cn_nevents) x.(cn_max_reqs_per_event) v x.(cn_sasl_user) x.(cn_rbuf) x.(cn_rcurr)
    x.(cn_rsize) x.(cn_rbytes) x.(cn_wbuf) x.(cn_wcurr) x.(cn_wbytes) x.(cn_write_and_go)
    x.(cn_write_and_free) x.(cn_ritem) x.(cn_rlbytes) x.(cn_item) x.(cn_store_op) x.(cn_sbytes)
    x.(cn_iovsize) x.(cn_iovused) x.(cn_msgs) x.(cn_msgsize) x.(cn_msgcurr) x.(cn_msgbytes)
    x.(cn_ilist) x.(cn_noreply) x.(cn_refcount) x.(cn_supports_datatype) x.(cn_dyn_buffer)
    x.(cn_dyn_size) x.(cn_dyn_offset) x.(cn_header) x.(cn_cas) x.(cn_cmd) x.(cn_opaque)
    x.(cn_keylen) x.(cn_aiostat) x.(cn_ewouldblock).
Definition set_cn_sasl_user (v : bool) (x : conn) : conn :=
  mk_conn x.(cn_state) x.(cn_substate) x.(cn_registered) x.(cn_ev_flags) x.(cn_open) x.(cn_released)
    x.(cn_nevents) x.(cn_max_reqs_per_event) x.(cn_admin) v x.(cn_rbuf) x.(cn_rcurr) x.(cn_rsize)
    x.(cn_rbytes) x.(cn_wbuf) x.(cn_wcurr) x.(cn_wbytes) x.(cn_write_and_go) x.(cn_write_and_free)
    x.(cn_ritem) x.(cn_rlbytes) x.(cn_item) x.(cn_store_op) x.(cn_sbytes) x.(cn_iovsize)
    x.(cn_iovused) x.(cn_msgs) x.(cn_msgsize) x.(cn_msgcurr) x.(cn_msgbytes) x.(cn_ilist)
    x.(cn_noreply) x.(cn_refcount) x.(cn_supports_datatype) x.(cn_dyn_buffer) x.(cn_dyn_size)
    x.(cn_dyn_offset) x.(cn_header) x.(cn_cas) x.(cn_cmd) x.(cn_opaque) x.(cn_keylen) x.(cn_aiostat)
    x.(cn_ewouldblock).
Definition set_cn_rbuf (v : list Z) (x : conn) : conn :=
  mk_conn x.(cn_state) x.(cn_substate) x.(cn_registered) x.(cn_ev_flags) x.(cn_open) x.(cn_released)
    x.(cn_nevents) x.(cn_max_reqs_per_event) x.(cn_admin) x.(cn_sasl_user) v x.(cn_rcurr)
    x.(cn_rsize) x.(cn_rbytes) x.(cn_wbuf) x.(cn_wcurr) x.(cn_wbytes) x.(cn_write_and_go)
    x.(cn_write_and_free) x.(cn_ritem) x.(cn_rlbytes) x.(cn_item) x.(cn_store_op) x.(cn_sbytes)
    x.(cn_iovsize) x.(cn_iovused) x.(cn_msgs) x.(cn_msgsize) x.(cn_msgcurr) x.(cn_msgbytes)
    x.(cn_ilist) x.(cn_noreply) x.(cn_refcount) x.(cn_supports_datatype) x.(cn_dyn_buffer)
    x.(cn_dyn_size) x.(cn_dyn_offset) x.(cn_header) x.(cn_cas) x.(cn_cmd) x.(cn_opaque)
    x.(cn_keylen) x.(cn_aiostat) x.(cn_ewouldblock).
Definition set_cn_rcurr (v : Z) (x : conn) : conn :=
  mk_conn x.(cn_state) x.(cn_substate) x.(cn_registered) x.(cn_ev_flags) x.(cn_open) x.(cn_released)
    x.(cn_nevents) x.(cn_max_reqs_per_event) x.(cn_admin) x.(cn_sasl_user) x.(cn_rbuf) v
    x.(cn_rsize) x.(cn_rbytes) x.(cn_wbuf) x.(cn_wcurr) x.(cn_wbytes) x.(cn_write_and_go)
    x.(cn_write_and_free) x.(cn_ritem) x.(cn_rlbytes) x.(cn_item) x.(cn_store_op) x.(cn_sbytes)
    x.(cn_iovsize) x.(cn_iovused) x.(cn_msgs) x.(cn_msgsize) x.(cn_msgcurr) x.(cn_msgbytes)
    x.(cn_ilist) x.(cn_noreply) x.(cn_refcount) x.(cn_supports_datatype) x.(cn_dyn_buffer)
    x.(cn_dyn_size) x.(cn_dyn_offset) x.(cn_header) x.(cn_cas) x.(cn_cmd) x.(cn_opaque)
    x.(cn_keylen) x.(cn_aiostat) x.(cn_ewouldblock).
Definition set_cn_rsize (v : Z) (x : conn) : conn :=
  mk_conn x.(cn_state) x.(cn_substate) x.(cn_registered) x.(cn_ev_flags) x.(cn_open) x.(cn_released)
    x.(cn_nevents) x.(cn_max_reqs_per_event) x.(cn_admin) x.(cn_sasl_user) x.(cn_rbuf) x.(cn_rcurr)
    v x.(cn_rbytes) x.(cn_wbuf) x.(cn_wcurr) x.(cn_wbytes) x.(cn_write_and_go) x.(cn_write_and_free)
    x.(cn_ritem) x.(cn_rlbytes) x.(cn_item) x.(cn_store_op) x.(cn_sbytes) x.(cn_iovsize)
    x.(cn_iovused) x.(cn_msgs) x.(cn_msgsize) x.(cn_msgcurr) x.(cn_msgbytes) x.(cn_ilist)
    x.(cn_noreply) x.(cn_refcount) x.(cn_supports_datatype) x.(cn_dyn_buffer) x.(cn_dyn_size)
    x.(cn_dyn_offset) x.(cn_header) x.(cn_cas) x.(cn_cmd) x.(cn_opaque) x.(cn_keylen) x.(cn_aiostat)
    x.(cn_ewouldblock).
Definition set_cn_rbytes (v : Z) (x : conn) : conn :=
  mk_conn x.(cn_state) x.(cn_substate) x.(cn_registered) x.(cn_ev_flags) x.(cn_open) x.(cn_released)
    x.(cn_nevents) x.(cn_max_reqs_per_event) x.(cn_admin) x.(cn_sasl_user) x.(cn_rbuf) x.(cn_rcurr)
    x.(cn_rsize) v x.(cn_wbuf) x.(cn_wcurr) x.(cn_wbytes) x.(cn_write_and_go) x.(cn_write_and_free)
    x.(cn_ritem) x.(cn_rlbytes) x.(cn_item) x.(cn_store_op) x.(cn_sbytes) x.(cn_iovsize)
    x.(cn_iovused) x.(cn_msgs) x.(cn_msgsize) x.(cn_msgcurr) x.(cn_msgbytes) x.(cn_ilist)
    x.(cn_noreply) x.(cn_refcount) x.(cn_supports_datatype) x.(cn_dyn_buffer) x.(cn_dyn_size)
    x.(cn_dyn_offset) x.(cn_header) x.(cn_cas) x.(cn_cmd) x.(cn_opaque) x.(cn_keylen) x.(cn_aiostat)
    x.(cn_ewouldblock).
Definition set_cn_wbuf (v : list Z) (x : conn) : conn :=
  mk_conn x.(cn_state) x.(cn_substate) x.(cn_registered) x.(cn_ev_flags) x.(cn_open) x.(cn_released)
    x.(cn_nevents) x.(cn_max_reqs_per_event) x.(cn_admin) x.(cn_sasl_user) x.(cn_rbuf) x.(cn_rcurr)
    x.(cn_rsize) x.(cn_rbytes) v x.(cn_wcurr) x.(cn_wbytes) x.(cn_write_and_go)
    x.(cn_write_and_free) x.(cn_ritem) x.(cn_rlbytes) x.(cn_item) x.(cn_store_op) x.(cn_sbytes)
    x.(cn_iovsize) x.(cn_iovused) x.(cn_msgs) x.(cn_msgsize) x.(cn_msgcurr) x.(cn_msgbytes)
    x.(cn_ilist) x.(cn_noreply) x.(cn_refcount) x.(cn_supports_datatype) x.(cn_dyn_buffer)
    x.(cn_dyn_size) x.(cn_dyn_offset) x.(cn_header) x.(cn_cas) x.(cn_cmd) x.(cn_opaque)
    x.(cn_keylen) x.(cn_aiostat) x.(cn_ewouldblock).
Definition set_cn_wcurr (v : addr) (x : conn) : conn :=
  mk_conn x.(cn_state) x.(cn_substate) x.(cn_registered) x.(cn_ev_flags) x.(cn_open) x.(cn_released)
    x.(cn_nevents) x.(cn_max_reqs_per_event) x.(cn_admin) x.(cn_sasl_user) x.(cn_rbuf) x.(cn_rcurr)
    x.(cn_rsize) x.(cn_rbytes) x.(cn_wbuf) v x.(cn_wbytes) x.(cn_write_and_go) x.(cn_write_and_free)
    x.(cn_ritem) x.(cn_rlbytes) x.(cn_item) x.(cn_store_op) x.(cn_sbytes) x.(cn_iovsize)
    x.(cn_iovused) x.(cn_msgs) x.(cn_msgsize) x.(cn_msgcurr) x.(cn_msgbytes) x.(cn_ilist)
    x.(cn_noreply) x.(cn_refcount) x.(cn_supports_datatype) x.(cn_dyn_buffer) x.(cn_dyn_size)
    x.(cn_dyn_offset) x.(cn_header) x.(cn_cas) x.(cn_cmd) x.(cn_opaque) x.(cn_keylen) x.(cn_aiostat)
    x.(cn_ewouldblock).
Definition set_cn_wbytes (v : Z) (x : conn) : conn :=
  mk_conn x.(cn_state) x.(cn_substate) x.(cn_registered) x.(cn_ev_flags) x.(cn_open) x.(cn_released)
    x.(cn_nevents) x.(cn_max_reqs_per_event) x.(cn_admin) x.(cn_sasl_user) x.(cn_rbuf) x.(cn_rcurr)
    x.(cn_rsize) x.(cn_rbytes) x.(cn_wbuf) x.(cn_wcurr) v x.(cn_write_and_go) x.(cn_write_and_free)
    x.(cn_ritem) x.(cn_rlbytes) x.(cn_item) x.(cn_store_op) x.(cn_sbytes) x.(cn_iovsize)
    x.(cn_iovused) x.(cn_msgs) x.(cn_msgsize) x.(cn_msgcurr) x.(cn_msgbytes) x.(cn_ilist)
    x.(cn_noreply) x.(cn_refcount) x.(cn_supports_datatype) x.(cn_dyn_buffer) x.(cn_dyn_size)
    x.(cn_dyn_offset) x.(cn_header) x.(cn_cas) x.(cn_cmd) x.(cn_opaque) x.(cn_keylen) x.(cn_aiostat)
    x.(cn_ewouldblock).
Definition set_cn_write_and_go (v : state_func) (x : conn) : conn :=
  mk_conn x.(cn_state) x.(cn_substate) x.(cn_registered) x.(cn_ev_flags) x.(cn_open) x.(cn_released)
    x.(cn_nevents) x.(cn_max_reqs_per_event) x.(cn_admin) x.(cn_sasl_user) x.(cn_rbuf) x.(cn_rcurr)
    x.(cn_rsize) x.(cn_rbytes) x.(cn_wbuf) x.(cn_wcurr) x.(cn_wbytes) v x.(cn_write_and_free)
    x.(cn_ritem) x.(cn_rlbytes) x.(cn_item) x.(cn_store_op) x.(cn_sbytes) x.(cn_iovsize)
    x.(cn_iovused) x.(cn_msgs) x.(cn_msgsize) x.(cn_msgcurr) x.(cn_msgbytes) x.(cn_ilist)
    x.(cn_noreply) x.(cn_refcount) x.(cn_supports_datatype) x.(cn_dyn_buffer) x.(cn_dyn_size)
    x.(cn_dyn_offset) x.(cn_header) x.(cn_cas) x.(cn_cmd) x.(cn_opaque) x.(cn_keylen) x.(cn_aiostat)
    x.(cn_ewouldblock).
Definition set_cn_write_and_free (v : option (list Z)) (x : conn) : conn :=
  mk_conn x.(cn_state) x.(cn_substate) x.(cn_registered) x.(cn_ev_flags) x.(cn_open) x.(cn_released)
    x.(cn_nevents) x.(cn_max_reqs_per_event) x.(cn_admin) x.(cn_sasl_user) x.(cn_rbuf) x.(cn_rcurr)
    x.(cn_rsize) x.(cn_rbytes) x.(cn_wbuf) x.(cn_wcurr) x.(cn_wbytes) x.(cn_write_and_go) v
    x.(cn_ritem) x.(cn_rlbytes) x.(cn_item) x.(cn_store_op) x.(cn_sbytes) x.(cn_iovsize)
    x.(cn_iovused) x.(cn_msgs) x.(cn_msgsize) x.(cn_msgcurr) x.(cn_msgbytes) x.(cn_ilist)
    x.(cn_noreply) x.(cn_refcount) x.(cn_supports_datatype) x.(cn_dyn_buffer) x.(cn_dyn_size)
    x.(cn_dyn_offset) x.(cn_header) x.(cn_cas) x.(cn_cmd) x.(cn_opaque) x.(cn_keylen) x.(cn_aiostat)
    x.(cn_ewouldblock).
Definition set_cn_ritem (v : addr) (x : conn) : conn :=
  mk_conn x.(cn_state) x.(cn_substate) x.(cn_registered) x.(cn_ev_flags) x.(cn_open) x.(cn_released)
    x.(cn_nevents) x.(cn_max_reqs_per_event) x.(cn_admin) x.(cn_sasl_user) x.(cn_rbuf) x.(cn_rcurr)
    x.(cn_rsize) x.(cn_rbytes) x.(cn_wbuf) x.(cn_wcurr) x.(cn_wbytes) x.(cn_write_and_go)
    x.(cn_write_and_free) v x.(cn_rlbytes) x.(cn_item) x.(cn_store_op) x.(cn_sbytes) x.(cn_iovsize)
    x.(cn_iovused) x.(cn_msgs) x.(cn_msgsize) x.(cn_msgcurr) x.(cn_msgbytes) x.(cn_ilist)
    x.(cn_noreply) x.(cn_refcount) x.(cn_supports_datatype) x.(cn_dyn_buffer) x.(cn_dyn_size)
    x.(cn_dyn_offset) x.(cn_header) x.(cn_cas) x.(cn_cmd) x.(cn_opaque) x.(cn_keylen) x.(cn_aiostat)
    x.(cn_ewouldblock).
Definition set_cn_rlbytes (v : Z) (x : conn) : conn :=
  mk_conn x.(cn_state) x.(cn_substate) x.(cn_registered) x.(cn_ev_flags) x.(cn_open) x.(cn_released)
    x.(cn_nevents) x.(cn_max_reqs_per_event) x.(cn_admin) x.(cn_sasl_user) x.(cn_rbuf) x.(cn_rcurr)
    x.(cn_rsize) x.(cn_rbytes) x.(cn_wbuf) x.(cn_wcurr) x.(cn_wbytes) x.(cn_write_and_go)
    x.(cn_write_and_free) x.(cn_ritem) v x.(cn_item) x.(cn_store_op) x.(cn_sbytes) x.(cn_iovsize)
    x.(cn_iovused) x.(cn_msgs) x.(cn_msgsize) x.(cn_msgcurr) x.(cn_msgbytes) x.(cn_ilist)
    x.(cn_noreply) x.(cn_refcount) x.(cn_supports_datatype) x.(cn_dyn_buffer) x.(cn_dyn_size)
    x.(cn_dyn_offset) x.(cn_header) x.(cn_cas) x.(cn_cmd) x.(cn_opaque) x.(cn_keylen) x.(cn_aiostat)
    x.(cn_ewouldblock).
Definition set_cn_item (v : Z) (x : conn) : conn :=
  mk_conn x.(cn_state) x.(cn_substate) x.(cn_registered) x.(cn_ev_flags) x.(cn_open) x.(cn_released)
    x.(cn_nevents) x.(cn_max_reqs_per_event) x.(cn_admin) x.(cn_sasl_user) x.(cn_rbuf) x.(cn_rcurr)
    x.(cn_rsize) x.(cn_rbytes) x.(cn_wbuf) x.(cn_wcurr) x.(cn_wbytes) x.(cn_write_and_go)
    x.(cn_write_and_free) x.(cn_ritem) x.(cn_rlbytes) v x.(cn_store_op) x.(cn_sbytes) x.(cn_iovsize)
    x.(cn_iovused) x.(cn_msgs) x.(cn_msgsize) x.(cn_msgcurr) x.(cn_msgbytes) x.(cn_ilist)
    x.(cn_noreply) x.(cn_refcount) x.(cn_supports_datatype) x.(cn_dyn_buffer) x.(cn_dyn_size)
    x.(cn_dyn_offset) x.(cn_header) x.(cn_cas) x.(cn_cmd) x.(cn_opaque) x.(cn_keylen) x.(cn_aiostat)
    x.(cn_ewouldblock).
Definition set_cn_store_op (v : ENGINE_STORE_OPERATION) (x : conn) : conn :=
  mk_conn x.(cn_state) x.(cn_substate) x.(cn_registered) x.(cn_ev_flags) x.(cn_open) x.(cn_released)
    x.(cn_nevents) x.(cn_max_reqs_per_event) x.(cn_admin) x.(cn_sasl_user) x.(cn_rbuf) x.(cn_rcurr)
    x.(cn_rsize) x.(cn_rbytes) x.(cn_wbuf) x.(cn_wcurr) x.(cn_wbytes) x.(cn_write_and_go)
    x.(cn_write_and_free) x.(cn_ritem) x.(cn_rlbytes) x.(cn_item) v x.(cn_sbytes) x.(cn_iovsize)
    x.(cn_iovused) x.(cn_msgs) x.(cn_msgsize) x.(cn_msgcurr) x.(cn_msgbytes) x.(cn_ilist)
    x.(cn_noreply) x.(cn_refcount) x.(cn_supports_datatype) x.(cn_dyn_buffer) x.(cn_dyn_size)
    x.(cn_dyn_offset) x.(cn_header) x.(cn_cas) x.(cn_cmd) x.(cn_opaque) x.(cn_keylen) x.(cn_aiostat)
    x.(cn_ewouldblock).
Definition set_cn_sbytes (v : Z) (x : conn) : conn :=
  mk_conn x.(cn_state) x.(cn_substate) x.(cn_registered) x.(cn_ev_flags) x.(cn_open) x.(cn_released)
    x.(cn_nevents) x.(cn_max_reqs_per_event) x.(cn_admin) x.(cn_sasl_user) x.(cn_rbuf) x.(cn_rcurr)
    x.(cn_rsize) x.(cn_rbytes) x.(cn_wbuf) x.(cn_wcurr) x.(cn_wbytes) x.(cn_write_and_go)
    x.(cn_write_and_free) x.(cn_ritem) x.(cn_rlbytes) x.(cn_item) x.(cn_store_op) v x.(cn_iovsize)
    x.(cn_iovused) x.(cn_msgs) x.(cn_msgsize) x.(cn_msgcurr) x.(cn_msgbytes) x.(cn_ilist)
    x.(cn_noreply) x.(cn_refcount) x.(cn_supports_datatype) x.(cn_dyn_buffer) x.(cn_dyn_size)
    x.(cn_dyn_offset) x.(cn_header) x.(cn_cas) x.(cn_cmd) x.(cn_opaque) x.(cn_keylen) x.(cn_aiostat)
    x.(cn_ewouldblock).
Definition set_cn_iovsize (v : Z) (x : conn) : conn :=
  mk_conn x.(cn_state) x.(cn_substate) x.(cn_registered) x.(cn_ev_flags) x.(cn_open) x.(cn_released)
    x.(cn_nevents) x.(cn_max_reqs_per_event) x.(cn_admin) x.(cn_sasl_user) x.(cn_rbuf) x.(cn_rcurr)
    x.(cn_rsize) x.(cn_rbytes) x.(cn_wbuf) x.(cn_wcurr) x.(cn_wbytes) x.(cn_write_and_go)
    x.(cn_write_and_free) x.(cn_ritem) x.(cn_rlbytes) x.(cn_item) x.(cn_store_op) x.(cn_sbytes) v
    x.(cn_iovused) x.(cn_msgs) x.(cn_msgsize) x.(cn_msgcurr) x.(cn_msgbytes) x.(cn_ilist)
    x.(cn_noreply) x.(cn_refcount) x.(cn_supports_datatype) x.(cn_dyn_buffer) x.(cn_dyn_size)
    x.(cn_dyn_offset) x.(cn_header) x.(cn_cas) x.(cn_cmd) x.(cn_opaque) x.(cn_keylen) x.(cn_aiostat)
    x.(cn_ewouldblock).
Definition set_cn_iovused (v : Z) (x : conn) : conn :=
  mk_conn x.(cn_state) x.(cn_substate) x.(cn_registered) x.(cn_ev_flags) x.(cn_open) x.(cn_released)
    x.(cn_nevents) x.(cn_max_reqs_per_event) x.(cn_admin) x.(cn_sasl_user) x.(cn_rbuf) x.(cn_rcurr)
    x.(cn_rsize) x.(cn_rbytes) x.(cn_wbuf) x.(cn_wcurr) x.(cn_wbytes) x.(cn_write_and_go)
    x.(cn_write_and_free) x.(cn_ritem) x.(cn_rlbytes) x.(cn_item) x.(cn_store_op) x.(cn_sbytes)
    x.(cn_iovsize) v x.(cn_msgs) x.(cn_msgsize) x.(cn_msgcurr) x.(cn_msgbytes) x.(cn_ilist)
    x.(cn_noreply) x.(cn_refcount) x.(cn_supports_datatype) x.(cn_dyn_buffer) x.(cn_dyn_size)
    x.(cn_dyn_offset) x.(cn_header) x.(cn_cas) x.(cn_cmd) x.(cn_opaque) x.(cn_keylen) x.(cn_aiostat)
    x.(cn_ewouldblock).
Definition set_cn_msgs (v : list (list iovec)) (x : conn) : conn :=
  mk_conn x.(cn_state) x.(cn_substate) x.(cn_registered) x.(cn_ev_flags) x.(cn_open) x.(cn_released)
    x.(cn_nevents) x.(cn_max_reqs_per_event) x.(cn_admin) x.(cn_sasl_user) x.(cn_rbuf) x.(cn_rcurr)
    x.(cn_rsize) x.(cn_rbytes) x.(cn_wbuf) x.(cn_wcurr) x.(cn_wbytes) x.(cn_write_and_go)
    x.(cn_write_and_free) x.(cn_ritem) x.(cn_rlbytes) x.(cn_item) x.(cn_store_op) x.(cn_sbytes)
    x.(cn_iovsize) x.(cn_iovused) v x.(cn_msgsize) x.(cn_msgcurr) x.(cn_msgbytes) x.(cn_ilist)
    x.(cn_noreply) x.(cn_refcount) x.(cn_supports_datatype) x.(cn_dyn_buffer) x.(cn_dyn_size)
    x.(cn_dyn_offset) x.(cn_header) x.(cn_cas) x.(cn_cmd) x.(cn_opaque) x.(cn_keylen) x.(cn_aiostat)
    x.(cn_ewouldblock).
Definition set_cn_msgsize (v : Z) (x : conn) : conn :=
  mk_conn x.(cn_state) x.(cn_substate) x.(cn_registered) x.(cn_ev_flags) x.(cn_open) x.(cn_released)
    x.(cn_nevents) x.(cn_max_reqs_per_event) x.(cn_admin) x.(cn_sasl_user) x.(cn_rbuf) x.(cn_rcurr)
    x.(cn_rsize) x.(cn_rbytes) x.(cn_wbuf) x.(cn_wcurr) x.(cn_wbytes) x.(cn_write_and_go)
    x.(cn_write_and_free) x.(cn_ritem) x.(cn_rlbytes) x.(cn_item) x.(cn_store_op) x.(cn_sbytes)
    x.(cn_iovsize) x.(cn_iovused) x.(cn_msgs) v x.(cn_msgcurr) x.(cn_msgbytes) x.(cn_ilist)
    x.(cn_noreply) x.(cn_refcount) x.(cn_supports_datatype) x.(cn_dyn_buffer) x.(cn_dyn_size)
    x.(cn_dyn_offset) x.(cn_header) x.(cn_cas) x.(cn_cmd) x.(cn_opaque) x.(cn_keylen) x.(cn_aiostat)
    x.(cn_ewouldblock).
Definition set_cn_msgcurr (v : Z) (x : conn) : conn :=
  mk_conn x.(cn_state) x.(cn_substate) x.(cn_registered) x.(cn_ev_flags) x.(cn_open) x.(cn_released)
    x.(cn_nevents) x.(cn_max_reqs_per_event) x.(cn_admin) x.(cn_sasl_user) x.(cn_rbuf) x.(cn_rcurr)
    x.(cn_rsize) x.(cn_rbytes) x.(cn_wbuf) x.(cn_wcurr) x.(cn_wbytes) x.(cn_write_and_go)
    x.(cn_write_and_free) x.(cn_ritem) x.(cn_rlbytes) x.(cn_item) x.(cn_store_op) x.(cn_sbytes)
    x.(cn_iovsize) x.(cn_iovused) x.(cn_msgs) x.(cn_msgsize) v x.(cn_msgbytes) x.(cn_ilist)
    x.(cn_noreply) x.(cn_refcount) x.(cn_supports_datatype) x.(cn_dyn_buffer) x.(cn_dyn_size)
    x.(cn_dyn_offset) x.(cn_header) x.(cn_cas) x.(cn_cmd) x.(cn_opaque) x.(cn_keylen) x.(cn_aiostat)
    x.(cn_ewouldblock).
Definition set_cn_msgbytes (v : Z) (x : conn) : conn :=
  mk_conn x.(cn_state) x.(cn_substate) x.(cn_registered) x.(cn_ev_flags) x.(cn_open) x.(cn_released)
    x.(cn_nevents) x.(cn_max_reqs_per_event) x.(cn_admin) x.(cn_sasl_user) x.(cn_rbuf) x.(cn_rcurr)
    x.(cn_rsize) x.(cn_rbytes) x.(cn_wbuf) x.(cn_wcurr) x.(cn_wbytes) x.(cn_write_and_go)
    x.(cn_write_and_free) x.(cn_ritem) x.(cn_rlbytes) x.(cn_item) x.(cn_store_op) x.(cn_sbytes)
    x.(cn_iovsize) x.(cn_iovused) x.(cn_msgs) x.(cn_msgsize) x.(cn_msgcurr) v x.(cn_ilist)
    x.(cn_noreply) x.(cn_refcount) x.(cn_supports_datatype) x.(cn_dyn_buffer) x.(cn_dyn_size)
    x.(cn_dyn_offset) x.(cn_header) x.(cn_cas) x.(cn_cmd) x.(cn_opaque) x.(cn_keylen) x.(cn_aiostat)
    x.(cn_ewouldblock).
Definition set_cn_ilist (v : list Z) (x : conn) : conn :=
  mk_conn x.(cn_state) x.(cn_substate) x.(cn_registered) x.(cn_ev_flags) x.(cn_open) x.(cn_released)
    x.(cn_nevents) x.(cn_max_reqs_per_event) x.(cn_admin) x.(cn_sasl_user) x.(cn_rbuf) x.(cn_rcurr)
    x.(cn_rsize) x.(cn_rbytes) x.(cn_wbuf) x.(cn_wcurr) x.(cn_wbytes) x.(cn_write_and_go)
    x.(cn_write_and_free) x.(cn_ritem) x.(cn_rlbytes) x.(cn_item) x.(cn_store_op) x.(cn_sbytes)
    x.(cn_iovsize) x.(cn_iovused) x.(cn_msgs) x.(cn_msgsize) x.(cn_msgcurr) x.(cn_msgbytes) v
    x.(cn_noreply) x.(cn_refcount) x.(cn_supports_datatype) x.(cn_dyn_buffer) x.(cn_dyn_size)
    x.(cn_dyn_offset) x.(cn_header) x.(cn_cas) x.(cn_cmd) x.(cn_opaque) x.(cn_keylen) x.(cn_aiostat)
    x.(cn_ewouldblock).
Definition set_cn_noreply (v : bool) (x : conn) : conn :=
  mk_conn x.(cn_state) x.(cn_substate) x.(cn_registered) x.(cn_ev_flags) x.(cn_open) x.(cn_released)
    x.(cn_nevents) x.(cn_max_reqs_per_event) x.(cn_admin) x.(cn_sasl_user) x.(cn_rbuf) x.(cn_rcurr)
    x.(cn_rsize) x.(cn_rbytes) x.(cn_wbuf) x.(cn_wcurr) x.(cn_wbytes) x.(cn_write_and_go)
    x.(cn_write_and_free) x.(cn_ritem) x.(cn_rlbytes) x.(cn_item) x.(cn_store_op) x.(cn_sbytes)
    x.(cn_iovsize) x.(cn_iovused) x.(cn_msgs) x.(cn_msgsize) x.(cn_msgcurr) x.(cn_msgbytes)
    x.(cn_ilist) v x.(cn_refcount) x.(cn_supports_datatype) x.(cn_dyn_buffer) x.(cn_dyn_size)
    x.(cn_dyn_offset) x.(cn_header) x.(cn_cas) x.(cn_cmd) x.(cn_opaque) x.(cn_keylen) x.(cn_aiostat)
    x.(cn_ewouldblock).
Definition set_cn_refcount (v : Z) (x : conn) : conn :=
  mk_conn x.(cn_state) x.(cn_substate) x.(cn_registered) x.(cn_ev_flags) x.(cn_open) x.(cn_released)
    x.(cn_nevents) x.(cn_max_reqs_per_event) x.(cn_admin) x.(cn_sasl_user) x.(cn_rbuf) x.(cn_rcurr)
    x.(cn_rsize) x.(cn_rbytes) x.(cn_wbuf) x.(cn_wcurr) x.(cn_wbytes) x.(cn_write_and_go)
    x.(cn_write_and_free) x.(cn_ritem) x.(cn_rlbytes) x.(cn_item) x.(cn_store_op) x.(cn_sbytes)
    x.(cn_iovsize) x.(cn_iovused) x.(cn_msgs) x.(cn_msgsize) x.(cn_msgcurr) x.(cn_msgbytes)
    x.(cn_ilist) x.(cn_noreply) v x.(cn_supports_datatype) x.(cn_dyn_buffer) x.(cn_dyn_size)
    x.(cn_dyn_offset) x.(cn_header) x.(cn_cas) x.(cn_cmd) x.(cn_opaque) x.(cn_keylen) x.(cn_aiostat)
    x.(cn_ewouldblock).
Definition set_cn_supports_datatype (v : bool) (x : conn) : conn :=
  mk_conn x.(cn_state) x.(cn_substate) x.(cn_registered) x.(cn_ev_flags) x.(cn_open) x.(cn_released)
    x.(cn_nevents) x.(cn_max_reqs_per_event) x.(cn_admin) x.(cn_sasl_user) x.(cn_rbuf) x.(cn_rcurr)
    x.(cn_rsize) x.(cn_rbytes) x.(cn_wbuf) x.(cn_wcurr) x.(cn_wbytes) x.(cn_write_and_go)
    x.(cn_write_and_free) x.(cn_ritem) x.(cn_rlbytes) x.(cn_item) x.(cn_store_op) x.(cn_sbytes)
    x.(cn_iovsize) x.(cn_iovused) x.(cn_msgs) x.(cn_msgsize) x.(cn_msgcurr) x.(cn_msgbytes)
    x.(cn_ilist) x.(cn_noreply) x.(cn_refcount) v x.(cn_dyn_buffer) x.(cn_dyn_size)
    x.(cn_dyn_offset) x.(cn_header) x.(cn_cas) x.(cn_cmd) x.(cn_opaque) x.(cn_keylen) x.(cn_aiostat)
    x.(cn_ewouldblock).
Definition set_cn_dyn_buffer (v : option (list Z)) (x : conn) : conn :=
  mk_conn x.(cn_state) x.(cn_substate) x.(cn_registered) x.(cn_ev_flags) x.(cn_open) x.(cn_released)
    x.(cn_nevents) x.(cn_max_reqs_per_event) x.(cn_admin) x.(cn_sasl_user) x.(cn_rbuf) x.(cn_rcurr)
    x.(cn_rsize) x.(cn_rbytes) x.(cn_wbuf) x.(cn_wcurr) x.(cn_wbytes) x.(cn_write_and_go)
    x.(cn_write_and_free) x.(cn_ritem) x.(cn_rlbytes) x.(cn_item) x.(cn_store_op) x.(cn_sbytes)
    x.(cn_iovsize) x.(cn_iovused) x.(cn_msgs) x.(cn_msgsize) x.(cn_msgcurr) x.(cn_msgbytes)
    x.(cn_ilist) x.(cn_noreply) x.(cn_refcount) x.(cn_supports_datatype) v x.(cn_dyn_size)
    x.(cn_dyn_offset) x.(cn_header) x.(cn_cas) x.(cn_cmd) x.(cn_opaque) x.(cn_keylen) x.(cn_aiostat)
    x.(cn_ewouldblock).
Definition set_cn_dyn_size (v : Z) (x : conn) : conn :=
  mk_conn x.(cn_state) x.(cn_substate) x.(cn_registered) x.(cn_ev_flags) x.(cn_open) x.(cn_released)
    x.(cn_nevents) x.(cn_max_reqs_per_event) x.(cn_admin) x.(cn_sasl_user) x.(cn_rbuf) x.(cn_rcurr)
    x.(cn_rsize) x.(cn_rbytes) x.(cn_wbuf) x.(cn_wcurr) x.(cn_wbytes) x.(cn_write_and_go)
    x.(cn_write_and_free) x.(cn_ritem) x.(cn_rlbytes) x.(cn_item) x.(cn_store_op) x.(cn_sbytes)
    x.(cn_iovsize) x.(cn_iovused) x.(cn_msgs) x.(cn_msgsize) x.(cn_msgcurr) x.(cn_msgbytes)
    x.(cn_ilist) x.(cn_noreply) x.(cn_refcount) x.(cn_supports_datatype) x.(cn_dyn_buffer) v
    x.(cn_dyn_offset) x.(cn_header) x.(cn_cas) x.(cn_cmd) x.(cn_opaque) x.(cn_keylen) x.(cn_aiostat)
    x.(cn_ewouldblock).
Definition set_cn_dyn_offset (v : Z) (x : conn) : conn :=
  mk_conn x.(cn_state) x.(cn_substate) x.(cn_registered) x.(cn_ev_flags) x.(cn_open) x.(cn_released)
    x.(cn_nevents) x.(cn_max_reqs_per_event) x.(cn_admin) x.(cn_sasl_user) x.(cn_rbuf) x.(cn_rcurr)
    x.(cn_rsize) x.(cn_rbytes) x.(cn_wbuf) x.(cn_wcurr) x.(cn_wbytes) x.(cn_write_and_go)
    x.(cn_write_and_free) x.(cn_ritem) x.(cn_rlbytes) x.(cn_item) x.(cn_store_op) x.(cn_sbytes)
    x.(cn_iovsize) x.(cn_iovused) x.(cn_msgs) x.(cn_msgsize) x.(cn_msgcurr) x.(cn_msgbytes)
    x.(cn_ilist) x.(cn_noreply) x.(cn_refcount) x.(cn_supports_datatype) x.(cn_dyn_buffer)
    x.(cn_dyn_size) v x.(cn_header) x.(cn_cas) x.(cn_cmd) x.(cn_opaque) x.(cn_keylen) x.(cn_aiostat)
    x.(cn_ewouldblock).
Definition set_cn_header (v : request_header) (x : conn) : conn :=
  mk_conn x.(cn_state) x.(cn_substate) x.(cn_registered) x.(cn_ev_flags) x.(cn_open) x.(cn_released)
    x.(cn_nevents) x.(cn_max_reqs_per_event) x.(cn_admin) x.(cn_sasl_user) x.(cn_rbuf) x.(cn_rcurr)
    x.(cn_rsize) x.(cn_rbytes) x.(cn_wbuf) x.(cn_wcurr) x.(cn_wbytes) x.(cn_write_and_go)
    x.(cn_write_and_free) x.(cn_ritem) x.(cn_rlbytes) x.(cn_item) x.(cn_store_op) x.(cn_sbytes)
    x.(cn_iovsize) x.(cn_iovused) x.(cn_msgs) x.(cn_msgsize) x.(cn_msgcurr) x.(cn_msgbytes)
    x.(cn_ilist) x.(cn_noreply) x.(cn_refcount) x.(cn_supports_datatype) x.(cn_dyn_buffer)
    x.(cn_dyn_size) x.(cn_dyn_offset) v x.(cn_cas) x.(cn_cmd) x.(cn_opaque) x.(cn_keylen)
    x.(cn_aiostat) x.(cn_ewouldblock).
Definition set_cn_cas (v : Z) (x : conn) : conn :=
  mk_conn x.(cn_state) x.(cn_substate) x.(cn_registered) x.(cn_ev_flags) x.(cn_open) x.(cn_released)
    x.(cn_nevents) x.(cn_max_reqs_per_event) x.(cn_admin) x.(cn_sasl_user) x.(cn_rbuf) x.(cn_rcurr)
    x.(cn_rsize) x.(cn_rbytes) x.(cn_wbuf) x.(cn_wcurr) x.(cn_wbytes) x.(cn_write_and_go)
    x.(cn_write_and_free) x.(cn_ritem) x.(cn_rlbytes) x.(cn_item) x.(cn_store_op) x.(cn_sbytes)
    x.(cn_iovsize) x.(cn_iovused) x.(cn_msgs) x.(cn_msgsize) x.(cn_msgcurr) x.(cn_msgbytes)
    x.(cn_ilist) x.(cn_noreply) x.(cn_refcount) x.(cn_supports_datatype) x.(cn_dyn_buffer)
    x.(cn_dyn_size) x.(cn_dyn_offset) x.(cn_header) v x.(cn_cmd) x.(cn_opaque) x.(cn_keylen)
    x.(cn_aiostat) x.(cn_ewouldblock).
Definition set_cn_cmd (v : Z) (x : conn) : conn :=
  mk_conn x.(cn_state) x.(cn_substate) x.(cn_registered) x.(cn_ev_flags) x.(cn_open) x.(cn_released)
    x.(cn_nevents) x.(cn_max_reqs_per_event) x.(cn_admin) x.(cn_sasl_user) x.(cn_rbuf) x.(cn_rcurr)
    x.(cn_rsize) x.(cn_rbytes) x.(cn_wbuf) x.(cn_wcurr) x.(cn_wbytes) x.(cn_write_and_go)
    x.(cn_write_and_free) x.(cn_ritem) x.(cn_rlbytes) x.(cn_item) x.(cn_store_op) x.(cn_sbytes)
    x.(cn_iovsize) x.(cn_iovused) x.(cn_msgs) x.(cn_msgsize) x.(cn_msgcurr) x.(cn_msgbytes)
    x.(cn_ilist) x.(cn_noreply) x.(cn_refcount) x.(cn_supports_datatype) x.(cn_dyn_buffer)
    x.(cn_dyn_size) x.(cn_dyn_offset) x.(cn_header) x.(cn_cas) v x.(cn_opaque) x.(cn_keylen)
    x.(cn_aiostat) x.(cn_ewouldblock).
Definition set_cn_opaque (v : list Z) (x : conn) : conn :=
  mk_conn x.(cn_state) x.(cn_substate) x.(cn_registered) x.(cn_ev_flags) x.(cn_open) x.(cn_released)
    x.(cn_nevents) x.(cn_max_reqs_per_event) x.(cn_admin) x.(cn_sasl_user) x.(cn_rbuf) x.(cn_rcurr)
    x.(cn_rsize) x.(cn_rbytes) x.(cn_wbuf) x.(cn_wcurr) x.(cn_wbytes) x.(cn_write_and_go)
    x.(cn_write_and_free) x.(cn_ritem) x.(cn_rlbytes) x.(cn_item) x.(cn_store_op) x.(cn_sbytes)
    x.(cn_iovsize) x.(cn_iovused) x.(cn_msgs) x.(cn_msgsize) x.(cn_msgcurr) x.(cn_msgbytes)
    x.(cn_ilist) x.(cn_noreply) x.(cn_refcount) x.(cn_supports_datatype) x.(cn_dyn_buffer)
    x.(cn_dyn_size) x.(cn_dyn_offset) x.(cn_header) x.(cn_cas) x.(cn_cmd) v x.(cn_keylen)
    x.(cn_aiostat) x.(cn_ewouldblock).
Definition set_cn_keylen (v : Z) (x : conn) : conn :=
  mk_conn x.(cn_state) x.(cn_substate) x.(cn_registered) x.(cn_ev_flags) x.(cn_open) x.(cn_released)
    x.(cn_nevents) x.(cn_max_reqs_per_event) x.(cn_admin) x.(cn_sasl_user) x.(cn_rbuf) x.(cn_rcurr)
    x.(cn_rsize) x.(cn_rbytes) x.(cn_wbuf) x.(cn_wcurr) x.(cn_wbytes) x.(cn_write_and_go)
    x.(cn_write_and_free) x.(cn_ritem) x.(cn_rlbytes) x.(cn_item) x.(cn_store_op) x.(cn_sbytes)
    x.(cn_iovsize) x.(cn_iovused) x.(cn_msgs) x.(cn_msgsize) x.(cn_msgcurr) x.(cn_msgbytes)
    x.(cn_ilist) x.(cn_noreply) x.(cn_refcount) x.(cn_supports_datatype) x.(cn_dyn_buffer)
    x.(cn_dyn_size) x.(cn_dyn_offset) x.(cn_header) x.(cn_cas) x.(cn_cmd) x.(cn_opaque) v
    x.(cn_aiostat) x.(cn_ewouldblock).
Definition set_cn_aiostat (v : ENGINE_ERROR_CODE) (x : conn) : conn :=
  mk_conn x.(cn_state) x.(cn_substate) x.(cn_registered) x.(cn_ev_flags) x.(cn_open) x.(cn_released)
    x.(cn_nevents) x.(cn_max_reqs_per_event) x.(cn_admin) x.(cn_sasl_user) x.(cn_rbuf) x.(cn_rcurr)
    x.(cn_rsize) x.(cn_rbytes) x.(cn_wbuf) x.(cn_wcurr) x.(cn_wbytes) x.(cn_write_and_go)
    x.(cn_write_and_free) x.(cn_ritem) x.(cn_rlbytes) x.(cn_item) x.(cn_store_op) x.(cn_sbytes)
    x.(cn_iovsize) x.(cn_iovused) x.(cn_msgs) x.(cn_msgsize) x.(cn_msgcurr) x.(cn_msgbytes)
    x.(cn_ilist) x.(cn_noreply) x.(cn_refcount) x.(cn_supports_datatype) x.(cn_dyn_buffer)
    x.(cn_dyn_size) x.(cn_dyn_offset) x.(cn_header) x.(cn_cas) x.(cn_cmd) x.(cn_opaque)
    x.(cn_keylen) v x.(cn_ewouldblock).
Definition set_cn_ewouldblock (v : bool) (x : conn) : conn :=
  mk_conn x.(cn_state) x.(cn_substate) x.(cn_registered) x.(cn_ev_flags) x.(cn_open) x.(cn_released)
    x.(cn_nevents) x.(cn_max_reqs_per_event) x.(cn_admin) x.(cn_sasl_user) x.(cn_rbuf) x.(cn_rcurr)
    x.(cn_rsize) x.(cn_rbytes) x.(cn_wbuf) x.(cn_wcurr) x.(cn_wbytes) x.(cn_write_and_go)
    x.(cn_write_and_free) x.(cn_ritem) x.(cn_rlbytes) x.(cn_item) x.(cn_store_op) x.(cn_sbytes)
    x.(cn_iovsize) x.(cn_iovused) x.(cn_msgs) x.(cn_msgsize) x.(cn_msgcurr) x.(cn_msgbytes)
    x.(cn_ilist) x.(cn_noreply) x.(cn_refcount) x.(cn_supports_datatype) x.(cn_dyn_buffer)
    x.(cn_dyn_size) x.(cn_dyn_offset) x.(cn_header) x.(cn_cas) x.(cn_cmd) x.(cn_opaque)
    x.(cn_keylen) x.(cn_aiostat) v.

Definition KEY_MAX_LENGTH : Z := 250.
Definition DATA_BUFFER_SIZE : Z := 2048.
Definition UDP_MAX_PAYLOAD_SIZE : Z := 1400.
Definition IOV_LIST_INITIAL : Z := 400.
Definition MSG_LIST_INITIAL : Z := 10.
Definition READ_BUFFER_HIGHWAT : Z := 8192.
Definition IOV_LIST_HIGHWAT : Z := 600.
Definition MSG_LIST_HIGHWAT : Z := 100.
Definition IOV_MAX : Z := 1024.
Definition MAX_VERBOSITY_LEVEL : Z := 2.

Definition sizeof_iovec : Z := 16.
Definition sizeof_msghdr : Z := 56.

(** Flags of libevent. *)
Definition EV_READ : Z := 2.
Definition EV_WRITE : Z := 4.
Definition EV_PERSIST : Z := 16.

(** ** The operating system

    The answers to the system calls; the argument is the number of the calls made
    before. A [recv] or a [sendmsg] that moves data moves as many bytes as the answer
    says, at least one and at most as many as there are. [sys_grow] is the answer of
    [realloc] for a buffer of the connection; [junk] is the content of new memory. *)
Inductive recv_result := RecvData (n : Z) | RecvEof | RecvBlock | RecvError.
Inductive send_result := SendData (n : Z) | SendBlock | SendError.

Class Sys := {
  sys_recv : nat -> recv_result;
  sys_send : nat -> send_result;
  sys_grow : nat -> Z -> bool;
  event_del : nat -> bool;
  event_add : nat -> bool;
  junk : Z
}.

(** The settings that the modelled code reads, and the version of the server. *)
Class Settings := {
  require_sasl : bool;
  disable_admin : bool;
  datatype : bool;
  server_version : list Z
}.

(** ** The engine ([include/memcached/engine.h])

    The functions of [ENGINE_HANDLE_V1] that the daemon calls; the optional ones may be
    [NULL]. The daemon reads and writes the memory of an item through the addresses
    in its [item_info]: [v1_key] and [v1_data] are the bytes there, [v1_write] a write.
    [v1_unknown_command] is given what the callback [response] will answer, and
    returns the reply it passed to it; [v1_get_engine_vb_map] either returns a code or
    passes the map to its callback and returns the code of the callback. The number
    that [v1_arithmetic] returns is only stored with [ENGINE_SUCCESS]. *)
Class EngineV1 (S : Type) := {
  v1_allocate : list Z -> Z -> Z -> Z -> Z -> M S (ENGINE_ERROR_CODE * Z);
  v1_remove : list Z -> Z -> Z -> M S (ENGINE_ERROR_CODE * Z);
  v1_release : Z -> M S unit;
  v1_get : list Z -> Z -> M S (ENGINE_ERROR_CODE * Z);
  v1_store : Z -> Z -> ENGINE_STORE_OPERATION -> Z -> M S (ENGINE_ERROR_CODE * Z);
  v1_arithmetic : list Z -> bool -> bool -> Z -> Z -> Z -> Z -> Z -> Z ->
                  M S (ENGINE_ERROR_CODE * Z * Z);
  v1_flush : Z -> M S ENGINE_ERROR_CODE;
  v1_unknown_command : option (list Z -> (reply -> bool) -> M S (ENGINE_ERROR_CODE * option reply));
  v1_item_set_cas : Z -> Z -> M S unit;
  v1_get_item_info : Z -> Z -> M S (option item_info);
  v1_set_item_info : Z -> item_info -> M S bool;
  v1_get_engine_vb_map : option (M S (ENGINE_ERROR_CODE + list Z));
  v1_key : S -> Z -> option (list Z);
  v1_data : S -> Z -> option (list Z);
  v1_write : Z -> Z -> list Z -> M S unit
}.

(** ** The world of a connection

    The connection, the engine, the bytes that the client has sent and that have not
    been received, the bytes sent to it, the number of system calls, and the globals
    of the daemon that requests change: [settings.verbose] and [session_cas]. *)
Record world (S : Type) := mk_world {
  w_conn : conn;
  w_engine : S;
  w_in : list Z;
  w_out : list Z;
  w_calls : nat;
  w_verbose : Z;
  w_session_value : Z;
  w_session_ctr : Z
}.
Arguments mk_world {S}.
Arguments w_conn {S}.
Arguments w_engine {S}.
Arguments w_in {S}.
Arguments w_out {S}.
Arguments w_calls {S}.
Arguments w_verbose {S}.
Arguments w_session_value {S}.
Arguments w_session_ctr {S}.

Section world.
Context {S : Type}.

Definition set_w_conn (v : conn) (w : world S) : world S :=
  mk_world v w.(w_engine) w.(w_in) w.(w_out) w.(w_calls) w.(w_verbose) w.(w_session_value) w.(w_session_ctr).
Definition set_w_engine (v : S) (w : world S) : world S :=
  mk_world w.(w_conn) v w.(w_in) w.(w_out) w.(w_calls) w.(w_verbose) w.(w_session_value) w.(w_session_ctr).
Definition set_w_in (v : list Z) (w : world S) : world S :=
  mk_world w.(w_conn) w.(w_engine) v w.(w_out) w.(w_calls) w.(w_verbose) w.(w_session_value) w.(w_session_ctr).
Definition set_w_out (v : list Z) (w : world S) : world S :=
  mk_world w.(w_conn) w.(w_engine) w.(w_in) v w.(w_calls) w.(w_verbose) w.(w_session_value) w.(w_session_ctr).
Definition set_w_calls (v : nat) (w : world S) : world S :=
  mk_world w.(w_conn) w.(w_engine) w.(w_in) w.(w_out) v w.(w_verbose) w.(w_session_value) w.(w_session_ctr).
Definition set_w_verbose (v : Z) (w : world S) : world S :=
  mk_world w.(w_conn) w.(w_engine) w.(w_in) w.(w_out) w.(w_calls) v w.(w_session_value) w.(w_session_ctr).
Definition set_w_session_value (v : Z) (w : world S) : world S :=
  mk_world w.(w_conn) w.(w_engine) w.(w_in) w.(w_out) w.(w_calls) w.(w_verbose) v w.(w_session_ctr).
End world.

(** The daemon's monad. *)
Abbreviation D S := (M (world S)).

Section access.
Context {S : Type}.

Definition getc {A} (f : conn -> A) : D S A := gets (fun w => f w.(w_conn)).
Definition updc (f : conn -> conn) : D S unit := modify (fun w => set_w_conn (f w.(w_conn)) w).

(** A call of the engine. *)
Definition eng {A} (m : M S A) : D S A := fun w =>
  match m w.(w_engine) with
  | Some (a, e) => Some (a, set_w_engine e w)
  | None => None
  end.

(** A system call. *)
Definition syscall {A} (f : nat -> A) : D S A := fun w =>
  Some (f w.(w_calls), set_w_calls (Datatypes.S w.(w_calls)) w).
End access.

(** [n] bytes from [off] on; reading outside the bytes ends the process. *)
Definition slice (l : list Z) (off n : Z) : option (list Z) :=
  if (0 <=? off) && (0 <=? n) && (off + n <=? Z.of_nat (length l))
  then Some (take (Z.to_nat n) (drop (Z.to_nat off) l)) else None.

(** The [n] bytes at an address. *)
Definition mem_read {S} `{EngineV1 S} (w : world S) (a : addr) (n : Z) : option (list Z) :=
  match a with
  | A_null => None
  | A_rbuf o => slice w.(w_conn).(cn_rbuf) o n
  | A_data it o => d ← v1_data w.(w_engine) it; slice d o n
  | A_key it o => k ← v1_key w.(w_engine) it; slice k o n
  | A_wbuf o => slice w.(w_conn).(cn_wbuf) o n
  | A_text s o => slice s o n
  | A_dyn o => b ← w.(w_conn).(cn_write_and_free); slice b o n
  end.

(** Projections of an updated connection or world are computed, and nothing else. *)
Ltac proj :=
  cbn [cn_state cn_substate cn_registered cn_ev_flags cn_open cn_released cn_nevents
    cn_max_reqs_per_event cn_admin cn_sasl_user cn_rbuf cn_rcurr cn_rsize cn_rbytes cn_wbuf cn_wcurr
    cn_wbytes cn_write_and_go cn_write_and_free cn_ritem cn_rlbytes cn_item cn_store_op cn_sbytes
    cn_iovsize cn_iovused cn_msgs cn_msgsize cn_msgcurr cn_msgbytes cn_ilist cn_noreply cn_refcount
    cn_supports_datatype cn_dyn_buffer cn_dyn_size cn_dyn_offset cn_header cn_cas cn_cmd cn_opaque
    cn_keylen cn_aiostat cn_ewouldblock w_conn w_engine w_in w_out w_calls w_verbose w_session_value
    w_session_ctr set_cn_state set_cn_substate set_cn_registered set_cn_ev_flags set_cn_open
    set_cn_released set_cn_nevents set_cn_max_reqs_per_event set_cn_admin set_cn_sasl_user
    set_cn_rbuf set_cn_rcurr set_cn_rsize set_cn_rbytes set_cn_wbuf set_cn_wcurr set_cn_wbytes
    set_cn_write_and_go set_cn_write_and_free set_cn_ritem set_cn_rlbytes set_cn_item
    set_cn_store_op set_cn_sbytes set_cn_iovsize set_cn_iovused set_cn_msgs set_cn_msgsize
    set_cn_msgcurr set_cn_msgbytes set_cn_ilist set_cn_noreply set_cn_refcount
    set_cn_supports_datatype set_cn_dyn_buffer set_cn_dyn_size set_cn_dyn_offset set_cn_header
    set_cn_cas set_cn_cmd set_cn_opaque set_cn_keylen set_cn_aiostat set_cn_ewouldblock set_w_conn
    set_w_engine set_w_in set_w_out set_w_calls set_w_verbose set_w_session_value].
Ltac proj_in H :=
  cbn [cn_state cn_substate cn_registered cn_ev_flags cn_open cn_released cn_nevents
    cn_max_reqs_per_event cn_admin cn_sasl_user cn_rbuf cn_rcurr cn_rsize cn_rbytes cn_wbuf cn_wcurr
    cn_wbytes cn_write_and_go cn_write_and_free cn_ritem cn_rlbytes cn_item cn_store_op cn_sbytes
    cn_iovsize cn_iovused cn_msgs cn_msgsize cn_msgcurr cn_msgbytes cn_ilist cn_noreply cn_refcount
    cn_supports_datatype cn_dyn_buffer cn_dyn_size cn_dyn_offset cn_header cn_cas cn_cmd cn_opaque
    cn_keylen cn_aiostat cn_ewouldblock w_conn w_engine w_in w_out w_calls w_verbose w_session_value
    w_session_ctr set_cn_state set_cn_substate set_cn_registered set_cn_ev_flags set_cn_open
    set_cn_released set_cn_nevents set_cn_max_reqs_per_event set_cn_admin set_cn_sasl_user
    set_cn_rbuf set_cn_rcurr set_cn_rsize set_cn_rbytes set_cn_wbuf set_cn_wcurr set_cn_wbytes
    set_cn_write_and_go set_cn_write_and_free set_cn_ritem set_cn_rlbytes set_cn_item
    set_cn_store_op set_cn_sbytes set_cn_iovsize set_cn_iovused set_cn_msgs set_cn_msgsize
    set_cn_msgcurr set_cn_msgbytes set_cn_ilist set_cn_noreply set_cn_refcount
    set_cn_supports_datatype set_cn_dyn_buffer set_cn_dyn_size set_cn_dyn_offset set_cn_header
    set_cn_cas set_cn_cmd set_cn_opaque set_cn_keylen set_cn_aiostat set_cn_ewouldblock set_w_conn
    set_w_engine set_w_in set_w_out set_w_calls set_w_verbose set_w_session_value] in H.
