(* ===== verification/Daemon.v ===== *)
(** * Connections of the daemon ([daemon/memcached.c])

    The binary protocol on a connection: the state functions that [event_handler]
    calls until one of them asks for another event, the buffers they read into and
    write from, the dispatch of a request and the handlers of the commands that are
    served by the engine. The commands of SASL, TAP and DCP, STAT and the refresh of
    credentials stop the model ([not_modelled]); log messages, timings, statistics and
    SSL are left out. *)
From Stdlib Require Import ZArith Lia.
From stdpp Require Import strings gmap prelude.
From S2P Require Import Prelude Util EngineState DefaultEngine JsonChecker Snappy Protocol Conn.

#[local] Set Warnings "-clear-no-such-hyp".

Section daemon.
Context {S : Type} `{EngineV1 S} `{Sys} `{Settings} `{Snappy}.

Abbreviation D := (M (world S)).

(** ** The connection *)

Definition conn_set_state (st : state_func) : D unit := updc (set_cn_state st).

(** [realloc] of a buffer of the connection. *)
Definition grow (n : Z) : D bool := syscall (fun k => sys_grow k n).

Definition register_event : D bool :=
  c ← getc id;
  cassert (negb c.(cn_registered));;
  cassert c.(cn_open);;
  ok ← syscall event_add;
  if negb ok then mret false else
  updc (set_cn_registered true);;
  mret true.

Definition unregister_event : D bool :=
  c ← getc id;
  cassert c.(cn_registered);;
  cassert c.(cn_open);;
  ok ← syscall event_del;
  if negb ok then mret false else
  updc (set_cn_registered false);;
  mret true.

Definition update_event (new_flags : Z) : D bool :=
  flags ← getc cn_ev_flags;
  if flags =? new_flags then mret true else
  ok ← unregister_event;
  if negb ok then mret false else
  updc (set_cn_ev_flags new_flags);;
  register_event.

(** A new connection of a client, with the buffers of [conn_constructor] and the default
    number of requests that are served in an event ([settings_init]). *)
Definition conn_new : conn :=
  let fill n := replicate (Z.to_nat n) junk in
  mk_conn F_new_cmd bin_no_state true (Z.lor EV_READ EV_PERSIST) true false 0 20 false false
    (fill DATA_BUFFER_SIZE) 0 DATA_BUFFER_SIZE 0 (fill DATA_BUFFER_SIZE) (A_wbuf 0) 0 F_new_cmd None
    A_null 0 0 OPERATION_SET 0 IOV_LIST_INITIAL 0 [] MSG_LIST_INITIAL 0 0 [] false 1 false None 0 0
    no_request 0 (-1) [0; 0; 0; 0] 0 ENGINE_SUCCESS false.

Definition conn_shrink : D unit :=
  c ← getc id;
  (if (READ_BUFFER_HIGHWAT <? c.(cn_rsize)) && (c.(cn_rbytes) <? DATA_BUFFER_SIZE) then
     when (negb (c.(cn_rcurr) =? 0))
       (b ← of_option (slice c.(cn_rbuf) c.(cn_rcurr) c.(cn_rbytes));
        b' ← of_option (splice c.(cn_rbuf) 0 b);
        updc (set_cn_rbuf b'));;
     ok ← grow DATA_BUFFER_SIZE;
     when ok (updc (fun c => set_cn_rsize DATA_BUFFER_SIZE
                               (set_cn_rbuf (take (Z.to_nat DATA_BUFFER_SIZE) c.(cn_rbuf)) c)));;
     updc (set_cn_rcurr 0)
   else mret tt);;
  (if MSG_LIST_HIGHWAT <? c.(cn_msgsize) then
     ok ← grow (MSG_LIST_INITIAL * sizeof_msghdr);
     when ok (updc (set_cn_msgsize MSG_LIST_INITIAL))
   else mret tt);;
  (if IOV_LIST_HIGHWAT <? c.(cn_iovsize) then
     ok ← grow (IOV_LIST_INITIAL * sizeof_iovec);
     when ok (updc (set_cn_iovsize IOV_LIST_INITIAL))
   else mret tt).

(** Items that are kept for the connection are released one by one. *)
Fixpoint release_items (l : list Z) : D unit :=
  match l with
  | [] => updc (set_cn_ilist [])
  | it :: l' => eng (v1_release it);; updc (set_cn_ilist l');; release_items l'
  end.

Definition conn_cleanup_engine_allocations : D unit :=
  c ← getc id;
  when (negb (c.(cn_item) =? NULL)) (eng (v1_release c.(cn_item));; updc (set_cn_item NULL));;
  release_items c.(cn_ilist).

(** ** Messages *)

(** [msgused] is the length of the list of messages. *)
Definition add_msghdr : D Z :=
  c ← getc id;
  ok ← (if c.(cn_msgsize) =? Z.of_nat (length c.(cn_msgs)) then
          cassert (0 <? c.(cn_msgsize));;
          ok ← grow (c.(cn_msgsize) * 2 * sizeof_msghdr);
          when ok (updc (set_cn_msgsize (c.(cn_msgsize) * 2)));;
          mret ok
        else mret true);
  if negb ok then mret (-1) else
  updc (fun c => set_cn_msgbytes 0 (set_cn_msgs (c.(cn_msgs) ++ [[]]) c));;
  mret 0.

Definition ensure_iov_space : D Z :=
  c ← getc id;
  if c.(cn_iovsize) <=? c.(cn_iovused) then
    ok ← grow (c.(cn_iovsize) * 2 * sizeof_iovec);
    if negb ok then mret (-1) else
    updc (set_cn_iovsize (c.(cn_iovsize) * 2));;
    mret 0
  else mret 0.

(** The message at [msglist[msgused - 1]]. *)
Definition last_msg : D (list iovec) := m ← getc (fun c => last c.(cn_msgs)); of_option m.

Definition push_iov (v : iovec) : D unit :=
  m ← last_msg;
  updc (fun c => set_cn_iovused (c.(cn_iovused) + 1)
    (set_cn_msgbytes (swrap 32 (c.(cn_msgbytes) + swrap 32 v.(iov_len)))
      (set_cn_msgs (<[pred (length c.(cn_msgs)) := m ++ [v]]> c.(cn_msgs)) c))).

(** The loop of [add_iov]: a reply is split into at most three entries, unless
    [add_msghdr] fails, whose result the code does not test. *)
Fixpoint add_iov_loop (fuel : nat) (buf : addr) (n : Z) : D Z :=
  match fuel with
  | O => crash
  | Datatypes.S fuel' =>
      m ← last_msg;
      c ← getc id;
      let limit_to_mtu := Z.of_nat (length c.(cn_msgs)) =? 1 in
      when ((Z.of_nat (length m) =? IOV_MAX)
            || (limit_to_mtu && (UDP_MAX_PAYLOAD_SIZE <=? c.(cn_msgbytes))))
        (add_msghdr;; mret tt);;
      r ← ensure_iov_space;
      if negb (r =? 0) then mret (-1) else
      bytes ← getc cn_msgbytes;
      let leftover := if limit_to_mtu && (UDP_MAX_PAYLOAD_SIZE <? u64 (n + bytes))
                      then u64 (n + bytes - UDP_MAX_PAYLOAD_SIZE) else 0 in
      let n' := u64 (n - leftover) in
      push_iov (mk_iovec buf n');;
      if 0 <? leftover then add_iov_loop fuel' (shift_addr buf n') leftover else mret 0
  end.

Definition add_iov (buf : addr) (n : Z) : D Z :=
  if n =? 0 then mret 0 else add_iov_loop 3 buf n.

(** ** Responses *)

Definition add_bin_header (err hdr_len key_len body_len datatype : Z) : D Z :=
  updc (fun c => set_cn_iovused 0 (set_cn_msgs [] (set_cn_msgcurr 0 c)));;
  r ← add_msghdr;
  if negb (r =? 0) then mret (-1) else
  c ← getc id;
  b ← of_option (splice c.(cn_wbuf) 0
        (response_header c.(cn_header).(rh_opcode) key_len hdr_len datatype err body_len
           c.(cn_opaque) c.(cn_cas)));
  updc (set_cn_wbuf b);;
  add_iov (A_wbuf 0) 24.

Definition write_and_free (buf : option (list Z)) (bytes : Z) : D unit :=
  match buf with
  | Some b =>
      updc (fun c => set_cn_wbytes (u32 bytes) (set_cn_wcurr (A_dyn 0) (set_cn_write_and_free (Some b) c)));;
      conn_set_state F_write;;
      updc (set_cn_write_and_go F_new_cmd)
  | None => conn_set_state F_closing
  end.

(** The dynamic buffer is written out and forgotten. *)
Definition write_dynamic_buffer : D unit :=
  c ← getc id;
  write_and_free c.(cn_dyn_buffer) c.(cn_dyn_offset);;
  updc (set_cn_dyn_buffer None).

Fixpoint grow_loop (fuel : nat) (needed nsize offset : Z) : D Z :=
  if needed <=? u64 (nsize - offset) then mret nsize else
  match fuel with
  | O => crash
  | Datatypes.S fuel' => cassert (0 <? nsize);; grow_loop fuel' needed (u64 (Z.shiftl nsize 1)) offset
  end.

Definition grow_dynamic_buffer (needed : Z) : D bool :=
  when_null ← getc (fun c => bool_decide (c.(cn_dyn_buffer) = None));
  when when_null (updc (fun c => set_cn_dyn_offset 0 (set_cn_dyn_size 0 c)));;
  c ← getc id;
  let start := if (when_null : bool) then 1024 else c.(cn_dyn_size) in
  nsize ← (if (when_null : bool) && (0 <? needed) then grow_loop 64 needed (u64 (Z.shiftl start 1)) 0
           else grow_loop 64 needed start c.(cn_dyn_offset));
  if nsize =? c.(cn_dyn_size) then mret true else
  ok ← grow nsize;
  if negb ok then mret false else
  let old := default [] c.(cn_dyn_buffer) in
  updc (fun c => set_cn_dyn_size nsize (set_cn_dyn_buffer
          (Some (old ++ replicate (Z.to_nat nsize - length old) junk)) c));;
  mret true.

(** The bytes are copied to the free part of the dynamic buffer. *)
Definition append_dynamic (b : list Z) : D unit :=
  c ← getc id;
  d ← of_option c.(cn_dyn_buffer);
  d' ← of_option (splice d c.(cn_dyn_offset) b);
  updc (fun c => set_cn_dyn_offset (c.(cn_dyn_offset) + Z.of_nat (length b)) (set_cn_dyn_buffer (Some d') c)).

Definition get_vb_map_cb (map : list Z) : D ENGINE_ERROR_CODE :=
  let mapsize := Z.of_nat (length map) in
  ok ← grow_dynamic_buffer (mapsize + 24);
  if negb ok then mret ENGINE_ENOMEM else
  c ← getc id;
  append_dynamic (response_header c.(cn_header).(rh_opcode) 0 0 0
    PROTOCOL_BINARY_RESPONSE_NOT_MY_VBUCKET mapsize c.(cn_opaque) 0 ++ map);;
  mret ENGINE_SUCCESS.

(** [swallow] is an [int]. *)
Definition write_bin_packet (err swallow : Z) : D unit :=
  if err =? PROTOCOL_BINARY_RESPONSE_NOT_MY_VBUCKET then
    cassert (swallow =? 0);;
    get_map ← of_option v1_get_engine_vb_map;
    r ← eng get_map;
    ret ← match r with inl code => mret code | inr map => get_vb_map_cb map end;
    if decide (ret = ENGINE_SUCCESS) then write_dynamic_buffer else conn_set_state F_closing
  else
    let errtext := if err =? PROTOCOL_BINARY_RESPONSE_SUCCESS then []
                   else memcached_protocol_errcode_2_text err in
    let len := Z.of_nat (length errtext) in
    add_bin_header err 0 0 len PROTOCOL_BINARY_RAW_BYTES;;
    add_iov (A_text errtext 0) len;;
    conn_set_state F_mwrite;;
    if 0 <? swallow then updc (fun c => set_cn_write_and_go F_swallow (set_cn_sbytes swallow c))
    else updc (set_cn_write_and_go F_new_cmd).

Definition is_get (cmd : Z) : bool := (cmd =? PROTOCOL_BINARY_CMD_GET) || (cmd =? PROTOCOL_BINARY_CMD_GETK).

Definition write_bin_response (d : addr) (hlen keylen dlen : Z) : D unit :=
  c ← getc id;
  if negb c.(cn_noreply) || is_get c.(cn_cmd) then
    r ← add_bin_header 0 hlen keylen dlen PROTOCOL_BINARY_RAW_BYTES;
    if r =? -1 then conn_set_state F_closing else
    add_iov d dlen;;
    conn_set_state F_mwrite;;
    updc (set_cn_write_and_go F_new_cmd)
  else conn_set_state F_new_cmd.

Definition is_compressed (datatype : Z) : bool :=
  Z.land datatype PROTOCOL_BINARY_DATATYPE_COMPRESSED =? PROTOCOL_BINARY_DATATYPE_COMPRESSED.

Definition binary_response_handler (key ext body : list Z) (datatype status cas : Z) : D bool :=
  c ← getc id;
  let need_inflate := negb c.(cn_supports_datatype) && is_compressed datatype in
  let datatype := if c.(cn_supports_datatype) then datatype else PROTOCOL_BINARY_RAW_BYTES in
  let keylen := Z.of_nat (length key) in
  let extlen := Z.of_nat (length ext) in
  let bodylen := Z.of_nat (length body) in
  let inflated := if need_inflate then snappy_uncompressed_length body bodylen else Some bodylen in
  match inflated with
  | None => mret false
  | Some total =>
      ok ← grow_dynamic_buffer (keylen + extlen + 24 + total);
      if negb ok then mret false else
      c ← getc id;
      let head := response_header c.(cn_header).(rh_opcode) keylen extlen datatype status
                    (total + keylen + extlen) c.(cn_opaque) cas in
      let content := if need_inflate && (0 <? bodylen) then snappy_uncompress body total else Some body in
      match content with
      | None => mret false
      | Some b =>
          append_dynamic (head ++ ext ++ key ++ b
                          ++ replicate (Z.to_nat (total - Z.of_nat (length b))) junk);;
          mret true
      end
  end.

(** ** Requests *)

(** The bytes of the read buffer from an address on. *)
Definition rbuf_from (p : Z) : D (list Z) :=
  b ← getc cn_rbuf;
  cassert (0 <=? p);;
  mret (drop (Z.to_nat p) b).

Definition binary_get_request : D Z :=
  c ← getc id;
  let ret := c.(cn_rcurr) - (24 + c.(cn_header).(rh_keylen) + c.(cn_header).(rh_extlen)) in
  cassert (0 <=? ret);;
  mret ret.

(** The key of the request; the code returns its address. *)
Definition binary_get_key : D (list Z) :=
  c ← getc id;
  of_option (slice c.(cn_rbuf) (c.(cn_rcurr) - c.(cn_header).(rh_keylen)) c.(cn_header).(rh_keylen)).

(** [aiostat] is read and reset. *)
Definition take_aiostat : D ENGINE_ERROR_CODE :=
  ret ← getc cn_aiostat;
  updc (set_cn_aiostat ENGINE_SUCCESS);;
  mret ret.

Definition is_success (ret : ENGINE_ERROR_CODE) : bool := bool_decide (ret = ENGINE_SUCCESS).

(** The response of a handler to a code that needs no more than a message. *)
Definition write_code (ret : ENGINE_ERROR_CODE) (other : D unit) : D unit :=
  match ret with
  | ENGINE_KEY_EEXISTS => write_bin_packet PROTOCOL_BINARY_RESPONSE_KEY_EEXISTS 0
  | ENGINE_KEY_ENOENT => write_bin_packet PROTOCOL_BINARY_RESPONSE_KEY_ENOENT 0
  | ENGINE_ENOMEM => write_bin_packet PROTOCOL_BINARY_RESPONSE_ENOMEM 0
  | ENGINE_TMPFAIL => write_bin_packet PROTOCOL_BINARY_RESPONSE_ETMPFAIL 0
  | ENGINE_EWOULDBLOCK => updc (set_cn_ewouldblock true)
  | ENGINE_DISCONNECT => updc (set_cn_state F_closing)
  | ENGINE_ENOTSUP => write_bin_packet PROTOCOL_BINARY_RESPONSE_NOT_SUPPORTED 0
  | ENGINE_NOT_MY_VBUCKET => write_bin_packet PROTOCOL_BINARY_RESPONSE_NOT_MY_VBUCKET 0
  | _ => other
  end.

Definition set_ii_datatype (v : Z) (i : item_info) : item_info :=
  mk_info i.(ii_cas) i.(ii_exptime) i.(ii_nbytes) i.(ii_flags) i.(ii_clsid) i.(ii_nkey) i.(ii_nvalue)
    i.(ii_key) i.(ii_value) v.

(** The value is marked as JSON and stored. *)
Definition update_store (it : Z) (info : item_info) : D ENGINE_ERROR_CODE :=
  c ← getc id;
  when (negb c.(cn_supports_datatype))
    (json ← of_option (checkUTF8JSON info.(ii_value));
     when json (eng (v1_set_item_info it (set_ii_datatype PROTOCOL_BINARY_DATATYPE_JSON info));; mret tt));;
  r ← eng (v1_store it c.(cn_cas) c.(cn_store_op) c.(cn_header).(rh_vbucket));
  updc (set_cn_cas r.2);;
  mret r.1.

Definition complete_update_bin : D unit :=
  it ← getc cn_item;
  info ← eng (v1_get_item_info it 1);
  match info with
  | None => eng (v1_release it);; write_bin_packet PROTOCOL_BINARY_RESPONSE_EINTERNAL 0
  | Some info =>
      ret ← take_aiostat;
      ret ← (if is_success ret then update_store it info else mret ret);
      store_op ← getc cn_store_op;
      match ret with
      | ENGINE_SUCCESS => write_bin_response A_null 0 0 0
      | ENGINE_E2BIG => write_bin_packet PROTOCOL_BINARY_RESPONSE_E2BIG 0
      | _ =>
          write_code ret
            (write_bin_packet
               (match store_op with
                | OPERATION_ADD => PROTOCOL_BINARY_RESPONSE_KEY_EEXISTS
                | OPERATION_REPLACE => PROTOCOL_BINARY_RESPONSE_KEY_ENOENT
                | _ => PROTOCOL_BINARY_RESPONSE_NOT_STORED
                end) 0)
      end;;
      blocked ← getc cn_ewouldblock;
      when (negb blocked)
        (it ← getc cn_item; eng (v1_release it);; updc (set_cn_item NULL))
  end.

(** The response to a GET that found the item [it]. *)
Definition send_item (key : list Z) (it : Z) (info : item_info) : D unit :=
  c ← getc id;
  let need_inflate := negb c.(cn_supports_datatype) && is_compressed info.(ii_datatype) in
  let datatype := if negb c.(cn_supports_datatype) && negb need_inflate then PROTOCOL_BINARY_RAW_BYTES
                  else info.(ii_datatype) in
  let nkey := Z.of_nat (length key) in
  let getk := c.(cn_cmd) =? PROTOCOL_BINARY_CMD_GETK in
  let keylen := if getk then u16 nkey else 0 in
  let bodylen := u32 (4 + info.(ii_nbytes) + (if getk then nkey else 0)) in
  if need_inflate then
    if negb (info.(ii_nvalue) =? 1) then write_bin_packet PROTOCOL_BINARY_RESPONSE_EINTERNAL 0 else
    ok ← binary_response_handler (take (Z.to_nat keylen) key) (le_bytes 4 info.(ii_flags)) info.(ii_value)
           datatype PROTOCOL_BINARY_RESPONSE_SUCCESS info.(ii_cas);
    if (ok : bool) then write_dynamic_buffer;; eng (v1_release it)
    else write_bin_packet PROTOCOL_BINARY_RESPONSE_EINTERNAL 0
  else
    r ← add_bin_header 0 4 keylen bodylen datatype;
    if r =? -1 then conn_set_state F_closing else
    b ← getc cn_wbuf;
    b ← of_option (splice b 16 (be_bytes 8 info.(ii_cas)));
    b ← of_option (splice b 24 (le_bytes 4 info.(ii_flags)));
    updc (set_cn_wbuf b);;
    add_iov (A_wbuf 24) 4;;
    when getk (add_iov (A_key it 0) nkey;; mret tt);;
    when (0 <? info.(ii_nvalue)) (add_iov (A_data it 0) info.(ii_nbytes);; mret tt);;
    conn_set_state F_mwrite;;
    updc (set_cn_item it).

Definition process_bin_get : D unit :=
  key ← binary_get_key;
  ret ← take_aiostat;
  r ← (if is_success ret then
         vb ← getc (fun c => c.(cn_header).(rh_vbucket)); eng (v1_get key vb)
       else mret (ret, NULL));
  match r.1 with
  | ENGINE_SUCCESS =>
      info ← eng (v1_get_item_info r.2 IOV_MAX);
      match info with
      | None => eng (v1_release r.2);; write_bin_packet PROTOCOL_BINARY_RESPONSE_EINTERNAL 0
      | Some info => send_item key r.2 info
      end
  | ENGINE_KEY_ENOENT =>
      c ← getc id;
      if c.(cn_noreply) then conn_set_state F_new_cmd else
      if c.(cn_cmd) =? PROTOCOL_BINARY_CMD_GETK then
        let nkey := Z.of_nat (length key) in
        r ← add_bin_header PROTOCOL_BINARY_RESPONSE_KEY_ENOENT 0 (u16 nkey) nkey PROTOCOL_BINARY_RAW_BYTES;
        if r =? -1 then conn_set_state F_closing else
        b ← getc cn_wbuf;
        b ← of_option (splice b 24 key);
        updc (set_cn_wbuf b);;
        add_iov (A_wbuf 24) nkey;;
        conn_set_state F_mwrite
      else write_bin_packet PROTOCOL_BINARY_RESPONSE_KEY_ENOENT 0
  | ENGINE_EWOULDBLOCK => updc (set_cn_ewouldblock true)
  | ENGINE_DISCONNECT => updc (set_cn_state F_closing)
  | ret => write_bin_packet (engine_error_2_protocol_error ret) 0
  end.

Definition process_bin_delete : D unit :=
  req ← binary_get_request;
  key ← binary_get_key;
  pkt ← rbuf_from req;
  cas ← of_option (packet_field pkt 16 8);
  ret ← take_aiostat;
  updc (set_cn_ewouldblock false);;
  r ← (if is_success ret then
         vb ← getc (fun c => c.(cn_header).(rh_vbucket)); eng (v1_remove key cas vb)
       else mret (ret, cas));
  match r.1 with
  | ENGINE_SUCCESS => updc (set_cn_cas r.2);; write_bin_response A_null 0 0 0
  | ENGINE_KEY_EEXISTS => write_bin_packet PROTOCOL_BINARY_RESPONSE_KEY_EEXISTS 0
  | ENGINE_KEY_ENOENT => write_bin_packet PROTOCOL_BINARY_RESPONSE_KEY_ENOENT 0
  | ENGINE_NOT_MY_VBUCKET => write_bin_packet PROTOCOL_BINARY_RESPONSE_NOT_MY_VBUCKET 0
  | ENGINE_TMPFAIL => write_bin_packet PROTOCOL_BINARY_RESPONSE_ETMPFAIL 0
  | ENGINE_EWOULDBLOCK => updc (set_cn_ewouldblock true)
  | _ => write_bin_packet PROTOCOL_BINARY_RESPONSE_EINVAL 0
  end.

(** The code after an allocation, common to updates and to APPEND and PREPEND: [op] is
    the operation, [vlen] the number of bytes of the value as it was computed. *)
Definition start_value (r : ENGINE_ERROR_CODE * Z) (op : option ENGINE_STORE_OPERATION) (vlen : Z) : D unit :=
  match r.1 with
  | ENGINE_SUCCESS =>
      cas ← getc (fun c => c.(cn_header).(rh_cas));
      eng (v1_item_set_cas r.2 cas);;
      op ← of_option op;
      updc (fun c => set_cn_rlbytes (u32 vlen) (set_cn_ritem (A_data r.2 0)
        (set_cn_item r.2 (set_cn_store_op op c))));;
      conn_set_state F_nread;;
      updc (set_cn_substate bin_read_set_value)
  | ENGINE_EWOULDBLOCK => updc (set_cn_ewouldblock true)
  | ENGINE_DISCONNECT => updc (set_cn_state F_closing)
  | ret =>
      write_bin_packet (match ret with
                        | ENGINE_E2BIG => PROTOCOL_BINARY_RESPONSE_E2BIG
                        | _ => PROTOCOL_BINARY_RESPONSE_ENOMEM
                        end) (swrap 32 vlen);;
      updc (set_cn_write_and_go F_swallow)
  end.

(** The allocation of the item, with the test that its info can be had. [None] is the
    early return. *)
Definition allocate_item (key : list Z) (nbytes flags exptime : Z) : D (option (ENGINE_ERROR_CODE * Z)) :=
  ret ← take_aiostat;
  updc (set_cn_ewouldblock false);;
  if negb (is_success ret) then mret (Some (ret, NULL)) else
  dt ← getc (fun c => c.(cn_header).(rh_datatype));
  r ← eng (v1_allocate key nbytes flags exptime dt);
  if negb (is_success r.1) then mret (Some r) else
  info ← eng (v1_get_item_info r.2 1);
  match info with
  | Some _ => mret (Some r)
  | None =>
      eng (v1_release r.2);;
      write_bin_packet PROTOCOL_BINARY_RESPONSE_EINTERNAL 0;;
      mret None
  end.

Definition process_bin_update : D unit :=
  req ← binary_get_request;
  key ← binary_get_key;
  pkt ← rbuf_from req;
  flags ← of_option (packet_bytes pkt 24 4);
  expiration ← of_option (packet_field pkt 28 4);
  c ← getc id;
  let h := c.(cn_header) in
  let vlen := u32 (h.(rh_bodylen) - (h.(rh_keylen) + h.(rh_extlen))) in
  r ← allocate_item key vlen (be_val (reverse flags)) expiration;
  match r with
  | None => mret tt
  | Some r =>
      start_value r
        (if c.(cn_cmd) =? PROTOCOL_BINARY_CMD_ADD then Some OPERATION_ADD
         else if c.(cn_cmd) =? PROTOCOL_BINARY_CMD_SET then
           Some (if negb (h.(rh_cas) =? 0) then OPERATION_CAS else OPERATION_SET)
         else if c.(cn_cmd) =? PROTOCOL_BINARY_CMD_REPLACE then
           Some (if negb (h.(rh_cas) =? 0) then OPERATION_CAS else OPERATION_REPLACE)
         else None) vlen
  end.

(** [vlen] is an [int]; it is negative when the body is shorter than the key, and the
    call of [allocate] converts it to a [size_t]. *)
Definition process_bin_append_prepend : D unit :=
  key ← binary_get_key;
  c ← getc id;
  let vlen := swrap 32 (c.(cn_header).(rh_bodylen) - c.(cn_header).(rh_keylen)) in
  r ← allocate_item key (u64 vlen) 0 0;
  match r with
  | None => mret tt
  | Some r =>
      start_value r
        (if c.(cn_cmd) =? PROTOCOL_BINARY_CMD_APPEND then Some OPERATION_APPEND
         else if c.(cn_cmd) =? PROTOCOL_BINARY_CMD_PREPEND then Some OPERATION_PREPEND
         else None) vlen
  end.

(** ** Executors

    An executor is given the address of the packet in the read buffer. *)

Definition noop_executor (packet : Z) : D unit := write_bin_response A_null 0 0 0.

Definition version_executor (packet : Z) : D unit :=
  write_bin_response (A_text server_version 0) 0 0 (Z.of_nat (length server_version)).

Definition quit_executor (packet : Z) : D unit :=
  write_bin_response A_null 0 0 0;;
  updc (set_cn_write_and_go F_closing).

Definition quitq_executor (packet : Z) : D unit := conn_set_state F_closing.

Definition verbosity_executor (packet : Z) : D unit :=
  pkt ← rbuf_from packet;
  level ← of_option (packet_field pkt 24 4);
  modify (set_w_verbose (if MAX_VERBOSITY_LEVEL <? level then MAX_VERBOSITY_LEVEL else level));;
  write_bin_response A_null 0 0 0.

Definition flush_executor (packet : Z) : D unit :=
  c ← getc id;
  when (c.(cn_cmd) =? PROTOCOL_BINARY_CMD_FLUSHQ) (updc (set_cn_noreply true));;
  exptime ← (if c.(cn_header).(rh_extlen) =? 4 then pkt ← rbuf_from packet; of_option (packet_field pkt 24 4)
             else mret 0);
  ret ← eng (v1_flush exptime);
  match ret with
  | ENGINE_SUCCESS => write_bin_response A_null 0 0 0
  | ENGINE_ENOTSUP => write_bin_packet PROTOCOL_BINARY_RESPONSE_NOT_SUPPORTED 0
  | _ => write_bin_packet PROTOCOL_BINARY_RESPONSE_EINVAL 0
  end.

(** The quiet variant [q] of the command [cmd] sets [noreply]. *)
Definition set_quiet (cmd : Z) (quiet : bool) : D unit :=
  updc (fun c => set_cn_noreply quiet (set_cn_cmd cmd c)).

Definition get_executor (packet : Z) : D unit :=
  cmd ← getc cn_cmd;
  (if cmd =? PROTOCOL_BINARY_CMD_GETQ then set_quiet PROTOCOL_BINARY_CMD_GET true
   else if cmd =? PROTOCOL_BINARY_CMD_GET then set_quiet PROTOCOL_BINARY_CMD_GET false
   else if cmd =? PROTOCOL_BINARY_CMD_GETKQ then set_quiet PROTOCOL_BINARY_CMD_GETK true
   else if cmd =? PROTOCOL_BINARY_CMD_GETK then set_quiet PROTOCOL_BINARY_CMD_GETK false
   else crash);;
  process_bin_get.

Definition delete_executor (packet : Z) : D unit :=
  cmd ← getc cn_cmd;
  when (cmd =? PROTOCOL_BINARY_CMD_DELETEQ) (updc (set_cn_noreply true));;
  process_bin_delete.

(** The value of the counter is stored in the write buffer, in network byte order. *)
Definition arithmetic_executor (packet : Z) : D unit :=
  req ← binary_get_request;
  cmd ← getc cn_cmd;
  (if cmd =? PROTOCOL_BINARY_CMD_INCREMENTQ then set_quiet PROTOCOL_BINARY_CMD_INCREMENT true
   else if cmd =? PROTOCOL_BINARY_CMD_INCREMENT then set_quiet PROTOCOL_BINARY_CMD_INCREMENT false
   else if cmd =? PROTOCOL_BINARY_CMD_DECREMENTQ then set_quiet PROTOCOL_BINARY_CMD_DECREMENT true
   else if cmd =? PROTOCOL_BINARY_CMD_DECREMENT then set_quiet PROTOCOL_BINARY_CMD_DECREMENT false
   else crash);;
  pkt ← rbuf_from req;
  cas ← of_option (packet_field pkt 16 8);
  if negb (cas =? 0) then write_bin_packet PROTOCOL_BINARY_RESPONSE_EINVAL 0 else
  delta ← of_option (packet_field pkt 24 8);
  initial ← of_option (packet_field pkt 32 8);
  expiration ← of_option (packet_field pkt 40 4);
  key ← binary_get_key;
  c ← getc id;
  ret ← take_aiostat;
  r ← (if is_success ret then
         eng (v1_arithmetic key (c.(cn_cmd) =? PROTOCOL_BINARY_CMD_INCREMENT)
                (negb (expiration =? 4294967295)) delta initial expiration c.(cn_cas)
                c.(cn_header).(rh_datatype) c.(cn_header).(rh_vbucket))
       else mret (ret, c.(cn_cas), 0));
  updc (set_cn_cas r.1.2);;
  match r.1.1 with
  | ENGINE_SUCCESS =>
      b ← of_option (splice c.(cn_wbuf) 24 (be_bytes 8 r.2));
      updc (set_cn_wbuf b);;
      write_bin_response (A_wbuf 24) 0 0 8
  | ENGINE_EINVAL => write_bin_packet PROTOCOL_BINARY_RESPONSE_DELTA_BADVAL 0
  | ENGINE_NOT_STORED => write_bin_packet PROTOCOL_BINARY_RESPONSE_NOT_STORED 0
  | ret => write_code ret crash
  end.

(** The features that the client asks for: [total] numbers of two bytes. *)
Fixpoint hello_features (curr : list Z) (total : Z) (out : list Z) : D (list Z) :=
  if total <=? 0 then mret out else
  match curr with
  | a :: b :: curr' =>
      sd ← getc cn_supports_datatype;
      if (be_val [a; b] =? PROTOCOL_BINARY_FEATURE_DATATYPE) && Conn.datatype && negb sd then
        updc (set_cn_supports_datatype true);;
        hello_features curr' (total - 1) (out ++ be_bytes 2 PROTOCOL_BINARY_FEATURE_DATATYPE)
      else hello_features curr' (total - 1) out
  | _ => crash
  end.

Definition process_hello_packet_executor (packet : Z) : D unit :=
  pkt ← rbuf_from packet;
  klen ← of_option (rq_keylen pkt);
  bodylen ← of_option (rq_bodylen pkt);
  let total := u32 (bodylen - klen) / 2 in
  updc (set_cn_supports_datatype false);;
  of_option (slice pkt 24 (if 256 <? klen then 256 else klen));;
  out ← hello_features (drop (24 + Z.to_nat klen) pkt) total [];
  match out with
  | [] => write_bin_packet PROTOCOL_BINARY_RESPONSE_SUCCESS 0
  | _ =>
      binary_response_handler [] [] out PROTOCOL_BINARY_RAW_BYTES PROTOCOL_BINARY_RESPONSE_SUCCESS 0;;
      write_dynamic_buffer
  end.

Definition cookie_is_admin : D bool :=
  if disable_admin then mret true else getc cn_admin.

Definition set_ctrl_token_executor (packet : Z) : D unit :=
  pkt ← rbuf_from packet;
  old_cas ← of_option (packet_field pkt 16 8);
  admin ← cookie_is_admin;
  if negb admin then write_bin_packet PROTOCOL_BINARY_RESPONSE_EACCESS 0 else
  w ← gets id;
  ret ← (if 0 <? w.(w_session_ctr) then mret PROTOCOL_BINARY_RESPONSE_EBUSY
         else if (old_cas =? w.(w_session_value)) || (old_cas =? 0) then
           new_cas ← of_option (packet_field pkt 24 8);
           modify (set_w_session_value new_cas);;
           mret PROTOCOL_BINARY_RESPONSE_SUCCESS
         else mret PROTOCOL_BINARY_RESPONSE_KEY_EEXISTS);
  value ← gets w_session_value;
  binary_response_handler [] [] [] PROTOCOL_BINARY_RAW_BYTES ret value;;
  write_dynamic_buffer.

Definition get_ctrl_token_executor (packet : Z) : D unit :=
  admin ← cookie_is_admin;
  if negb admin then write_bin_packet PROTOCOL_BINARY_RESPONSE_EACCESS 0 else
  value ← gets w_session_value;
  binary_response_handler [] [] [] PROTOCOL_BINARY_RAW_BYTES PROTOCOL_BINARY_RESPONSE_SUCCESS value;;
  write_dynamic_buffer.

Definition ioctl_get_executor (packet : Z) : D unit :=
  write_bin_packet PROTOCOL_BINARY_RESPONSE_NOT_SUPPORTED 0.

(** [mc_release_free_memory] has no effect on the state. The key is compared up to its
    first difference with the name. *)
Fixpoint strncmp_eq (lit key : list Z) (n : nat) : D bool :=
  match n, lit with
  | O, _ => mret true
  | Datatypes.S n', [] =>
      match key with [] => crash | k :: _ => mret (k =? 0) end
  | Datatypes.S n', l :: lit' =>
      match key with
      | [] => crash
      | k :: key' => if k =? l then strncmp_eq lit' key' n' else mret false
      end
  end.

Definition ioctl_set_executor (packet : Z) : D unit :=
  pkt ← rbuf_from packet;
  keylen ← of_option (rq_keylen pkt);
  if (keylen =? 0) || (KEY_MAX_LENGTH <? keylen) then write_bin_packet PROTOCOL_BINARY_RESPONSE_EINVAL 0 else
  same ← strncmp_eq (bytes_of "release_free_memory") (drop 24 pkt) (Z.to_nat keylen);
  if (same : bool) && (keylen =? 19) then write_bin_packet PROTOCOL_BINARY_RESPONSE_SUCCESS 0
  else write_bin_packet PROTOCOL_BINARY_RESPONSE_EINVAL 0.

Definition not_supported_executor (packet : Z) : D unit :=
  write_bin_packet PROTOCOL_BINARY_RESPONSE_NOT_SUPPORTED 0.

(** A command whose handler is not modelled. *)
Definition not_modelled (packet : Z) : D unit := crash.

Definition in_list (l : list Z) (op : Z) : bool := existsb (Z.eqb op) l.

(** The commands of the daemon that stop the model: STAT, SASL, TAP, DCP, the refresh
    of credentials and the timings. *)
Definition other_commands : list Z :=
  [PROTOCOL_BINARY_CMD_STAT; PROTOCOL_BINARY_CMD_SASL_LIST_MECHS; PROTOCOL_BINARY_CMD_TAP_CONNECT;
   PROTOCOL_BINARY_CMD_TAP_MUTATION; PROTOCOL_BINARY_CMD_TAP_DELETE; PROTOCOL_BINARY_CMD_TAP_FLUSH;
   PROTOCOL_BINARY_CMD_TAP_OPAQUE; PROTOCOL_BINARY_CMD_TAP_VBUCKET_SET;
   PROTOCOL_BINARY_CMD_TAP_CHECKPOINT_START; PROTOCOL_BINARY_CMD_TAP_CHECKPOINT_END;
   PROTOCOL_BINARY_CMD_DCP_OPEN; PROTOCOL_BINARY_CMD_DCP_ADD_STREAM;
   PROTOCOL_BINARY_CMD_DCP_CLOSE_STREAM; PROTOCOL_BINARY_CMD_DCP_STREAM_REQ;
   PROTOCOL_BINARY_CMD_DCP_GET_FAILOVER_LOG; PROTOCOL_BINARY_CMD_DCP_STREAM_END;
   PROTOCOL_BINARY_CMD_DCP_SNAPSHOT_MARKER; PROTOCOL_BINARY_CMD_DCP_MUTATION;
   PROTOCOL_BINARY_CMD_DCP_DELETION; PROTOCOL_BINARY_CMD_DCP_EXPIRATION;
   PROTOCOL_BINARY_CMD_DCP_FLUSH; PROTOCOL_BINARY_CMD_DCP_SET_VBUCKET_STATE;
   PROTOCOL_BINARY_CMD_DCP_NOOP; PROTOCOL_BINARY_CMD_DCP_BUFFER_ACKNOWLEDGEMENT;
   PROTOCOL_BINARY_CMD_DCP_CONTROL; PROTOCOL_BINARY_CMD_ISASL_REFRESH;
   PROTOCOL_BINARY_CMD_SSL_CERTS_REFRESH; PROTOCOL_BINARY_CMD_GET_CMD_TIMER].

(** The tables [validators] and [executors] as [setup_bin_packet_handlers] fills them. *)
Definition validators (op : Z) : option (list Z -> option bool) :=
  if op =? PROTOCOL_BINARY_CMD_VERBOSITY then Some verbosity_validator
  else if op =? PROTOCOL_BINARY_CMD_HELLO then Some hello_validator
  else if op =? PROTOCOL_BINARY_CMD_VERSION then Some version_validator
  else if in_list [PROTOCOL_BINARY_CMD_QUIT; PROTOCOL_BINARY_CMD_QUITQ] op then Some quit_validator
  else if op =? PROTOCOL_BINARY_CMD_NOOP then Some noop_validator
  else if in_list [PROTOCOL_BINARY_CMD_FLUSH; PROTOCOL_BINARY_CMD_FLUSHQ] op then Some flush_validator
  else if in_list [PROTOCOL_BINARY_CMD_GET; PROTOCOL_BINARY_CMD_GETQ; PROTOCOL_BINARY_CMD_GETK;
                   PROTOCOL_BINARY_CMD_GETKQ; PROTOCOL_BINARY_CMD_IOCTL_GET] op then Some get_validator
  else if in_list [PROTOCOL_BINARY_CMD_DELETE; PROTOCOL_BINARY_CMD_DELETEQ] op then Some delete_validator
  else if in_list [PROTOCOL_BINARY_CMD_INCREMENT; PROTOCOL_BINARY_CMD_INCREMENTQ;
                   PROTOCOL_BINARY_CMD_DECREMENT; PROTOCOL_BINARY_CMD_DECREMENTQ] op
       then Some arithmetic_validator
  else if op =? PROTOCOL_BINARY_CMD_SET_CTRL_TOKEN then Some set_ctrl_token_validator
  else if op =? PROTOCOL_BINARY_CMD_GET_CTRL_TOKEN then Some get_ctrl_token_validator
  else None.

Definition executors (op : Z) : option (Z -> D unit) :=
  if op =? PROTOCOL_BINARY_CMD_VERBOSITY then Some verbosity_executor
  else if op =? PROTOCOL_BINARY_CMD_HELLO then Some process_hello_packet_executor
  else if op =? PROTOCOL_BINARY_CMD_VERSION then Some version_executor
  else if op =? PROTOCOL_BINARY_CMD_QUIT then Some quit_executor
  else if op =? PROTOCOL_BINARY_CMD_QUITQ then Some quitq_executor
  else if op =? PROTOCOL_BINARY_CMD_NOOP then Some noop_executor
  else if in_list [PROTOCOL_BINARY_CMD_FLUSH; PROTOCOL_BINARY_CMD_FLUSHQ] op then Some flush_executor
  else if in_list [PROTOCOL_BINARY_CMD_GET; PROTOCOL_BINARY_CMD_GETQ; PROTOCOL_BINARY_CMD_GETK;
                   PROTOCOL_BINARY_CMD_GETKQ] op then Some get_executor
  else if in_list [PROTOCOL_BINARY_CMD_DELETE; PROTOCOL_BINARY_CMD_DELETEQ] op then Some delete_executor
  else if in_list [PROTOCOL_BINARY_CMD_INCREMENT; PROTOCOL_BINARY_CMD_INCREMENTQ;
                   PROTOCOL_BINARY_CMD_DECREMENT; PROTOCOL_BINARY_CMD_DECREMENTQ] op
       then Some arithmetic_executor
  else if op =? PROTOCOL_BINARY_CMD_SET_CTRL_TOKEN then Some set_ctrl_token_executor
  else if op =? PROTOCOL_BINARY_CMD_GET_CTRL_TOKEN then Some get_ctrl_token_executor
  else if op =? PROTOCOL_BINARY_CMD_IOCTL_GET then Some ioctl_get_executor
  else if op =? PROTOCOL_BINARY_CMD_IOCTL_SET then Some ioctl_set_executor
  else if in_list other_commands op then Some not_modelled
  else None.

(** ** Dispatch *)

(** The callback of [request_handlers], which is the same for all commands. *)
Definition default_unknown_command (pkt : list Z) : D ENGINE_ERROR_CODE :=
  c ← getc id;
  dt ← of_option (packet_field pkt 5 1);
  if negb c.(cn_supports_datatype) && negb (dt =? PROTOCOL_BINARY_RAW_BYTES) then
    ok ← binary_response_handler [] [] [] PROTOCOL_BINARY_RAW_BYTES PROTOCOL_BINARY_RESPONSE_EINVAL 0;
    mret (if (ok : bool) then ENGINE_SUCCESS else ENGINE_DISCONNECT)
  else
    cmd ← of_option v1_unknown_command;
    w ← gets id;
    let respond (r : reply) := binary_response_handler [] r.(r_ext) r.(r_body) PROTOCOL_BINARY_RAW_BYTES
                                 (reply_code r.(r_status)) r.(r_cas) in
    r ← eng (cmd pkt (fun r => match respond r w with Some (ok, _) => ok | None => false end));
    match r.2 with
    | Some rep => respond rep;; mret r.1
    | None => mret r.1
    end.

Definition process_bin_unknown_packet : D unit :=
  c ← getc id;
  let packet := c.(cn_rcurr) - (c.(cn_header).(rh_bodylen) + 24) in
  ret ← take_aiostat;
  updc (set_cn_ewouldblock false);;
  ret ← (if is_success ret then pkt ← rbuf_from packet; default_unknown_command pkt else mret ret);
  match ret with
  | ENGINE_SUCCESS =>
      d ← getc cn_dyn_buffer;
      match d with
      | Some _ => write_dynamic_buffer
      | None => conn_set_state F_new_cmd
      end
  | ENGINE_EWOULDBLOCK => updc (set_cn_ewouldblock true)
  | ENGINE_DISCONNECT => conn_set_state F_closing
  | _ =>
      updc (set_cn_dyn_buffer None);;
      write_bin_packet (engine_error_2_protocol_error ret) 0
  end.

Definition process_bin_packet : D unit :=
  c ← getc id;
  let packet := c.(cn_rcurr) - (c.(cn_header).(rh_bodylen) + 24) in
  let opcode := c.(cn_header).(rh_opcode) in
  valid ← match validators opcode with
          | Some v => pkt ← rbuf_from packet; of_option (v pkt)
          | None => mret true
          end;
  if negb valid then write_bin_packet PROTOCOL_BINARY_RESPONSE_EINVAL 0 else
  match executors opcode with
  | Some ex => ex packet
  | None => process_bin_unknown_packet
  end.

Definition invalid_datatype (c : conn) : bool :=
  let dt := c.(cn_header).(rh_datatype) in
  if dt =? PROTOCOL_BINARY_RAW_BYTES then false
  else if in_list [PROTOCOL_BINARY_DATATYPE_JSON; PROTOCOL_BINARY_DATATYPE_COMPRESSED;
                   PROTOCOL_BINARY_DATATYPE_COMPRESSED_JSON] dt && c.(cn_supports_datatype) then false
  else true.

Definition authenticated (c : conn) : bool :=
  in_list [PROTOCOL_BINARY_CMD_SASL_LIST_MECHS; PROTOCOL_BINARY_CMD_SASL_AUTH; PROTOCOL_BINARY_CMD_SASL_STEP;
           PROTOCOL_BINARY_CMD_VERSION; PROTOCOL_BINARY_CMD_HELLO] c.(cn_cmd)
  || c.(cn_sasl_user).

(** [while (size > nsize) nsize *= 2], in [size_t]. *)
Fixpoint double_until (fuel : nat) (size nsize : Z) : option Z :=
  if size <=? nsize then Some nsize else
  match fuel with
  | O => None
  | Datatypes.S fuel' => double_until fuel' size (u64 (nsize * 2))
  end.

(** The buffer is moved to the front. *)
Definition repack : D unit :=
  c ← getc id;
  b ← of_option (slice c.(cn_rbuf) c.(cn_rcurr) c.(cn_rbytes));
  b' ← of_option (splice c.(cn_rbuf) 0 b);
  updc (fun c => set_cn_rcurr 0 (set_cn_rbuf b' c)).

Definition grow_rbuf (nsize : Z) (c : conn) : list Z :=
  c.(cn_rbuf) ++ replicate (Z.to_nat nsize - length c.(cn_rbuf)) junk.

Definition bin_read_chunk (next_substate : bin_substates) (chunk : Z) : D unit :=
  updc (fun c => set_cn_rlbytes chunk (set_cn_substate next_substate c));;
  c ← getc id;
  let offset := c.(cn_rcurr) + 24 in
  ok ← (if c.(cn_rsize) - offset <? chunk then
          nsize ← of_option (double_until 64 (chunk + 24) c.(cn_rsize));
          ok ← (if nsize =? c.(cn_rsize) then mret true else
                ok ← grow nsize;
                when ok (updc (fun c => set_cn_rsize (u32 (swrap 32 nsize)) (set_cn_rbuf (grow_rbuf nsize c) c)));;
                mret ok);
          when ((ok : bool) && negb (c.(cn_rcurr) =? 0)) repack;;
          mret ok
        else mret true);
  if negb ok then conn_set_state F_closing else
  updc (fun c => set_cn_ritem (A_rbuf (c.(cn_rcurr) + 24)) c);;
  conn_set_state F_nread.

Definition bin_read_key (next_substate : bin_substates) (extra : Z) : D unit :=
  keylen ← getc cn_keylen;
  bin_read_chunk next_substate (keylen + extra).

Definition handle_binary_protocol_error : D unit :=
  write_bin_packet PROTOCOL_BINARY_RESPONSE_EINVAL 0;;
  updc (set_cn_write_and_go F_closing).

(** The quiet update commands and the commands they stand for. *)
Definition loud_update (cmd : Z) : option Z :=
  if cmd =? PROTOCOL_BINARY_CMD_SETQ then Some PROTOCOL_BINARY_CMD_SET
  else if cmd =? PROTOCOL_BINARY_CMD_ADDQ then Some PROTOCOL_BINARY_CMD_ADD
  else if cmd =? PROTOCOL_BINARY_CMD_REPLACEQ then Some PROTOCOL_BINARY_CMD_REPLACE
  else if cmd =? PROTOCOL_BINARY_CMD_APPENDQ then Some PROTOCOL_BINARY_CMD_APPEND
  else if cmd =? PROTOCOL_BINARY_CMD_PREPENDQ then Some PROTOCOL_BINARY_CMD_PREPEND
  else None.

Definition dispatch_bin_command : D unit :=
  c ← getc id;
  let h := c.(cn_header) in
  if require_sasl && negb (authenticated c) then
    write_bin_packet PROTOCOL_BINARY_RESPONSE_AUTH_ERROR 0;; updc (set_cn_write_and_go F_closing)
  else if invalid_datatype c then
    write_bin_packet PROTOCOL_BINARY_RESPONSE_EINVAL 0;; updc (set_cn_write_and_go F_closing)
  else if KEY_MAX_LENGTH <? h.(rh_keylen) then handle_binary_protocol_error
  else match executors c.(cn_cmd) with
  | Some _ => updc (set_cn_noreply false);; bin_read_chunk bin_reading_packet h.(rh_bodylen)
  | None =>
      match loud_update c.(cn_cmd) with
      | Some cmd => set_quiet cmd true
      | None => updc (set_cn_noreply false)
      end;;
      cmd ← getc cn_cmd;
      if in_list [PROTOCOL_BINARY_CMD_SET; PROTOCOL_BINARY_CMD_ADD; PROTOCOL_BINARY_CMD_REPLACE] cmd then
        if (h.(rh_extlen) =? 8) && negb (h.(rh_keylen) =? 0) && (h.(rh_keylen) + 8 <=? h.(rh_bodylen))
        then bin_read_key bin_reading_set_header 8 else handle_binary_protocol_error
      else if in_list [PROTOCOL_BINARY_CMD_APPEND; PROTOCOL_BINARY_CMD_PREPEND] cmd then
        if (0 <? h.(rh_keylen)) && (h.(rh_extlen) =? 0)
        then bin_read_key bin_reading_set_header 0 else handle_binary_protocol_error
      else if in_list [PROTOCOL_BINARY_CMD_SASL_AUTH; PROTOCOL_BINARY_CMD_SASL_STEP] cmd then
        if (h.(rh_extlen) =? 0) && negb (h.(rh_keylen) =? 0)
        then bin_read_key bin_reading_sasl_auth 0 else handle_binary_protocol_error
      else match v1_unknown_command with
      | None => write_bin_packet PROTOCOL_BINARY_RESPONSE_UNKNOWN_COMMAND (swrap 32 h.(rh_bodylen))
      | Some _ => bin_read_chunk bin_reading_packet h.(rh_bodylen)
      end
  end.

(** The commands whose responses have a handler; only the one of NOOP is modelled. *)
Definition response_handlers (op : Z) : bool :=
  (op =? PROTOCOL_BINARY_CMD_NOOP)
  || ((PROTOCOL_BINARY_CMD_TAP_MUTATION <=? op) && (op <=? PROTOCOL_BINARY_CMD_TAP_CHECKPOINT_END))
  || ((PROTOCOL_BINARY_CMD_DCP_OPEN <=? op) && (op <=? PROTOCOL_BINARY_CMD_DCP_RESERVED4)).

Definition complete_nread : D unit :=
  c ← getc id;
  cassert (0 <=? c.(cn_cmd));;
  match c.(cn_substate) with
  | bin_reading_set_header =>
      if in_list [PROTOCOL_BINARY_CMD_APPEND; PROTOCOL_BINARY_CMD_PREPEND] c.(cn_cmd)
      then process_bin_append_prepend else process_bin_update
  | bin_read_set_value => complete_update_bin
  | bin_reading_packet =>
      if c.(cn_header).(rh_magic) =? PROTOCOL_BINARY_RES then
        if c.(cn_header).(rh_opcode) =? PROTOCOL_BINARY_CMD_NOOP then conn_set_state F_new_cmd
        else if response_handlers c.(cn_header).(rh_opcode) then not_modelled 0
        else conn_set_state F_closing
      else process_bin_packet
  | _ => crash
  end.

Definition reset_cmd_handler : D unit :=
  updc (fun c => set_cn_substate bin_no_state (set_cn_cmd (-1) (set_cn_sbytes 0 c)));;
  it ← getc cn_item;
  when (negb (it =? NULL)) (eng (v1_release it);; updc (set_cn_item NULL));;
  conn_shrink;;
  rbytes ← getc cn_rbytes;
  conn_set_state (if 0 <? rbytes then F_parse_cmd else F_waiting).

(** Returns 0 when the header is not complete, -1 for a header that is refused. *)
Definition try_read_command : D Z :=
  c ← getc id;
  cassert (c.(cn_rcurr) <=? c.(cn_rsize));;
  cassert (0 <? c.(cn_rbytes));;
  if c.(cn_rbytes) <? 24 then mret 0 else
  b ← of_option (slice c.(cn_rbuf) c.(cn_rcurr) 24);
  h ← of_option (parse_request b);
  updc (set_cn_header h);;
  if negb (h.(rh_magic) =? PROTOCOL_BINARY_REQ)
     && negb ((h.(rh_magic) =? PROTOCOL_BINARY_RES) && response_handlers h.(rh_opcode)) then
    conn_set_state F_closing;; mret (-1)
  else
  updc (fun c => set_cn_iovused 0 (set_cn_msgs [] (set_cn_msgcurr 0 c)));;
  r ← add_msghdr;
  if negb (r =? 0) then conn_set_state F_closing;; mret (-1) else
  updc (fun c => set_cn_cas 0 (set_cn_opaque h.(rh_opaque) (set_cn_keylen h.(rh_keylen)
                   (set_cn_cmd h.(rh_opcode) c))));;
  dispatch_bin_command;;
  updc (fun c => set_cn_rcurr (c.(cn_rcurr) + 24) (set_cn_rbytes (u32 (c.(cn_rbytes) - 24)) c));;
  mret 1.

(** ** The network *)

(** The result of [recv] and the bytes it stored. *)
Inductive received := Got (b : list Z) | Closed | Blocked | Failed.

Definition do_data_recv (nbytes : Z) : D received :=
  r ← syscall sys_recv;
  w ← gets id;
  match r with
  | RecvData n =>
      if nbytes =? 0 then mret Closed else
      if bool_decide (w.(w_in) = []) then mret Blocked else
      let k := Z.to_nat (Z.min nbytes (Z.max n 1)) in
      modify (set_w_in (drop k w.(w_in)));;
      mret (Got (take k w.(w_in)))
  | RecvEof => mret Closed
  | RecvBlock => mret Blocked
  | RecvError => mret Failed
  end.

Inductive try_read_result := READ_DATA_RECEIVED | READ_NO_DATA_RECEIVED | READ_ERROR | READ_MEMORY_ERROR.

(** The loop of [try_read_network]: the buffer is doubled at most four times. *)
Fixpoint read_loop (fuel : nat) (num_allocs : Z) (gotdata : try_read_result) : D try_read_result :=
  match fuel with
  | O => crash
  | Datatypes.S fuel' =>
      c ← getc id;
      if (c.(cn_rsize) <=? c.(cn_rbytes)) && (num_allocs =? 4) then mret gotdata else
      ok ← (if c.(cn_rsize) <=? c.(cn_rbytes) then
              let nsize := u32 (c.(cn_rsize) * 2) in
              ok ← grow nsize;
              when ok (updc (fun c => set_cn_rsize nsize (set_cn_rcurr 0
                (set_cn_rbuf (take (Z.to_nat nsize) (grow_rbuf nsize c)) c))));;
              mret ok
            else mret true);
      if negb ok then
        updc (set_cn_rbytes 0);; conn_set_state F_closing;; mret READ_MEMORY_ERROR
      else
        let num_allocs := if c.(cn_rsize) <=? c.(cn_rbytes) then num_allocs + 1 else num_allocs in
        c ← getc id;
        let avail := c.(cn_rsize) - c.(cn_rbytes) in
        res ← do_data_recv avail;
        match res with
        | Got b =>
            b' ← of_option (splice c.(cn_rbuf) c.(cn_rbytes) b);
            let n := Z.of_nat (length b) in
            updc (fun c => set_cn_rbytes (u32 (c.(cn_rbytes) + n)) (set_cn_rbuf b' c));;
            if n =? avail then read_loop fuel' num_allocs READ_DATA_RECEIVED else mret READ_DATA_RECEIVED
        | Blocked => mret gotdata
        | Closed | Failed => mret READ_ERROR
        end
  end.

Definition try_read_network : D try_read_result :=
  c ← getc id;
  (if negb (c.(cn_rcurr) =? 0) then
     if negb (c.(cn_rbytes) =? 0) then repack else updc (set_cn_rcurr 0)
   else mret tt);;
  read_loop 6 0 READ_NO_DATA_RECEIVED.

Inductive transmit_result := TRANSMIT_COMPLETE | TRANSMIT_INCOMPLETE | TRANSMIT_SOFT_ERROR | TRANSMIT_HARD_ERROR.

(** The bytes of a message. *)
Fixpoint msg_bytes (w : world S) (m : list iovec) : option (list Z) :=
  match m with
  | [] => Some []
  | v :: m' =>
      b ← mem_read w v.(iov_base) v.(iov_len);
      b' ← msg_bytes w m';
      Some (b ++ b')
  end.

(** The entries that are left after [res] bytes were written. *)
Fixpoint advance (m : list iovec) (res : Z) : list iovec :=
  match m with
  | [] => []
  | v :: m' =>
      if v.(iov_len) <=? res then advance m' (res - v.(iov_len))
      else if 0 <? res then mk_iovec (shift_addr v.(iov_base) res) (v.(iov_len) - res) :: m'
      else m
  end.

(** The result of [sendmsg]. *)
Definition do_data_sendmsg (m : list iovec) : D (Z * bool) :=
  r ← syscall sys_send;
  w ← gets id;
  match r with
  | SendData n =>
      b ← of_option (msg_bytes w m);
      let k := Z.min (Z.of_nat (length b)) (Z.max n 1) in
      modify (set_w_out (w.(w_out) ++ take (Z.to_nat k) b));;
      mret (k, false)
  | SendBlock => mret (-1, true)
  | SendError => mret (-1, false)
  end.

(** The first message from [cur] on that has entries. *)
Fixpoint skip_empty (l : list (list iovec)) (cur : Z) : Z :=
  match l with
  | [] :: l' => skip_empty l' (cur + 1)
  | _ => cur
  end.

Definition transmit : D transmit_result :=
  updc (fun c => set_cn_msgcurr
    (skip_empty (drop (Z.to_nat c.(cn_msgcurr)) c.(cn_msgs)) c.(cn_msgcurr)) c);;
  c ← getc id;
  if c.(cn_msgcurr) <? Z.of_nat (length c.(cn_msgs)) then
    m ← of_option (zlookup c.(cn_msgs) c.(cn_msgcurr));
    res ← do_data_sendmsg m;
    if 0 <? res.1 then
      l ← of_option (zupdate c.(cn_msgs) c.(cn_msgcurr) (advance m res.1));
      updc (set_cn_msgs l);;
      mret TRANSMIT_INCOMPLETE
    else if (res.1 =? -1) && res.2 then
      ok ← update_event (Z.lor EV_WRITE EV_PERSIST);
      if negb ok then conn_set_state F_closing;; mret TRANSMIT_HARD_ERROR
      else mret TRANSMIT_SOFT_ERROR
    else conn_set_state F_closing;; mret TRANSMIT_HARD_ERROR
  else mret TRANSMIT_COMPLETE.

(** ** State functions

    The result tells whether [event_handler] calls the next state function. *)

(** The event of the connection is changed; the connection is closed when that fails. *)
Definition wait_for (flags : Z) : D bool :=
  ok ← update_event flags;
  if negb ok then conn_set_state F_closing;; mret true else mret false.

Definition conn_waiting : D bool :=
  ok ← update_event (Z.lor EV_READ EV_PERSIST);
  if negb ok then conn_set_state F_closing;; mret true else
  conn_set_state F_read;;
  mret false.

Definition conn_read : D bool :=
  res ← try_read_network;
  match res with
  | READ_NO_DATA_RECEIVED => conn_set_state F_waiting
  | READ_DATA_RECEIVED => conn_set_state F_parse_cmd
  | READ_ERROR => conn_set_state F_closing
  | READ_MEMORY_ERROR => mret tt
  end;;
  mret true.

Definition conn_parse_cmd : D bool :=
  r ← try_read_command;
  when (r =? 0) (conn_set_state F_waiting);;
  blocked ← getc cn_ewouldblock;
  mret (negb blocked).

Definition conn_new_cmd : D bool :=
  updc (fun c => set_cn_nevents (c.(cn_nevents) - 1) c);;
  c ← getc id;
  if 0 <=? c.(cn_nevents) then reset_cmd_handler;; mret true else
  if 0 <? c.(cn_rbytes) then wait_for (Z.lor EV_WRITE EV_PERSIST) else mret false.

Definition conn_swallow : D bool :=
  c ← getc id;
  if c.(cn_sbytes) =? 0 then conn_set_state F_new_cmd;; mret true else
  if 0 <? c.(cn_rbytes) then
    let tocopy := if c.(cn_sbytes) <? c.(cn_rbytes) then c.(cn_sbytes) else c.(cn_rbytes) in
    updc (fun c => set_cn_sbytes (c.(cn_sbytes) - tocopy) (set_cn_rcurr (c.(cn_rcurr) + tocopy)
                     (set_cn_rbytes (c.(cn_rbytes) - tocopy) c)));;
    mret true
  else
  res ← do_data_recv (if c.(cn_sbytes) <? c.(cn_rsize) then c.(cn_sbytes) else c.(cn_rsize));
  match res with
  | Got b =>
      b' ← of_option (splice c.(cn_rbuf) 0 b);
      updc (fun c => set_cn_sbytes (c.(cn_sbytes) - Z.of_nat (length b)) (set_cn_rbuf b' c));;
      mret true
  | Blocked => wait_for (Z.lor EV_READ EV_PERSIST)
  | Closed | Failed => conn_set_state F_closing;; mret true
  end.

(** Bytes are written at the address [ritem]. *)
Definition write_ritem (b : list Z) : D unit :=
  c ← getc id;
  match c.(cn_ritem) with
  | A_rbuf o => b' ← of_option (splice c.(cn_rbuf) o b); updc (set_cn_rbuf b')
  | A_data it o => eng (v1_write it o b)
  | _ => crash
  end.

Definition at_rcurr (c : conn) : bool :=
  match c.(cn_ritem) with A_rbuf o => o =? c.(cn_rcurr) | _ => false end.

(** [ritem] and [rlbytes] advance. *)
Definition advance_ritem (n : Z) (c : conn) : conn :=
  set_cn_ritem (shift_addr c.(cn_ritem) n) (set_cn_rlbytes (c.(cn_rlbytes) - n) c).

(** The leftovers in the read buffer are moved to [ritem]. *)
Definition nread_leftovers : D unit :=
  c ← getc id;
  when (0 <? c.(cn_rbytes))
    (let tocopy := if c.(cn_rlbytes) <? c.(cn_rbytes) then c.(cn_rlbytes) else c.(cn_rbytes) in
     when (negb (at_rcurr c))
       (b ← of_option (slice c.(cn_rbuf) c.(cn_rcurr) tocopy); write_ritem b);;
     updc (fun c => advance_ritem tocopy (set_cn_rcurr (c.(cn_rcurr) + tocopy)
                      (set_cn_rbytes (c.(cn_rbytes) - tocopy) c)))).

Definition conn_nread : D bool :=
  c ← getc id;
  if c.(cn_rlbytes) =? 0 then
    updc (set_cn_ewouldblock false);;
    complete_nread;;
    block ← getc cn_ewouldblock;
    if (block : bool) then unregister_event;; mret false else mret true
  else
  nread_leftovers;;
  c' ← getc id;
  if (0 <? c.(cn_rbytes)) && (c'.(cn_rlbytes) =? 0) then mret true else
  res ← do_data_recv c'.(cn_rlbytes);
  match res with
  | Got b =>
      write_ritem b;;
      let n := Z.of_nat (length b) in
      updc (fun c => advance_ritem n (if at_rcurr c then set_cn_rcurr (c.(cn_rcurr) + n) c else c));;
      mret true
  | Blocked => wait_for (Z.lor EV_READ EV_PERSIST)
  | Closed | Failed => conn_set_state F_closing;; mret true
  end.

Definition conn_mwrite : D bool :=
  r ← transmit;
  match r with
  | TRANSMIT_COMPLETE =>
      c ← getc id;
      match c.(cn_state) with
      | F_mwrite => release_items c.(cn_ilist);; conn_set_state c.(cn_write_and_go)
      | F_write => updc (set_cn_write_and_free None);; conn_set_state c.(cn_write_and_go)
      | _ => conn_set_state F_closing
      end;;
      mret true
  | TRANSMIT_INCOMPLETE | TRANSMIT_HARD_ERROR => mret true
  | TRANSMIT_SOFT_ERROR => mret false
  end.

Definition conn_write : D bool :=
  c ← getc id;
  r ← (if c.(cn_iovused) =? 0 then add_iov c.(cn_wcurr) c.(cn_wbytes) else mret 0);
  if negb (r =? 0) then conn_set_state F_closing;; mret true else conn_mwrite.

Definition conn_closing : D bool :=
  unregister_event;;
  updc (set_cn_open false);;
  conn_cleanup_engine_allocations;;
  c ← getc id;
  conn_set_state (if (1 <? c.(cn_refcount)) || c.(cn_ewouldblock) then F_pending_close else F_immediate_close);;
  mret true.

Definition conn_pending_close : D bool :=
  c ← getc id;
  cassert (negb c.(cn_open));;
  if 1 <? c.(cn_refcount) then mret false else
  conn_set_state F_immediate_close;;
  mret true.

(** [conn_close] gives the connection back; it is not used afterwards. *)
Definition conn_immediate_close : D bool :=
  c ← getc id;
  cassert (negb c.(cn_open));;
  updc (set_cn_released true);;
  mret false.

(** One call of [c->state(c)]. *)
Definition run_state : D bool :=
  st ← getc cn_state;
  match st with
  | F_new_cmd => conn_new_cmd
  | F_waiting => conn_waiting
  | F_read => conn_read
  | F_parse_cmd => conn_parse_cmd
  | F_nread => conn_nread
  | F_swallow => conn_swallow
  | F_write => conn_write
  | F_mwrite => conn_mwrite
  | F_closing => conn_closing
  | F_pending_close => conn_pending_close
  | F_immediate_close => conn_immediate_close
  end.

(** [event_handler]: the state functions are called until one returns false, [fuel]
    times at most. *)
Fixpoint event_loop (fuel : nat) : D bool :=
  match fuel with
  | O => mret false
  | Datatypes.S fuel' =>
      again ← run_state;
      if (again : bool) then event_loop fuel' else mret true
  end.

Definition event_handler (fuel : nat) : D bool :=
  updc (fun c => set_cn_nevents c.(cn_max_reqs_per_event) c);;
  event_loop fuel.
End daemon.
