(* ===== verification/Serve.v ===== *)
(** * What a connection of the daemon does, without its buffers

    [serve I] reads the bytes [I] that a client sends as a sequence of requests and
    returns the bytes of the responses. It calls the engine in the same order as the
    daemon does, but has no read buffer, no list of messages, no states and no partial
    reads or writes. It is not defined ([None]) where a call of the engine does not
    return, where the engine blocks or ends the connection, where a request makes the
    daemon read behind its body, for the commands that are not modelled, for values that
    have to be inflated, for packets that are read as a whole and replies of more than
    32 MB, and for versions of more than 1000 bytes. *)
From Stdlib Require Import ZArith Lia.
From stdpp Require Import strings gmap prelude.
From S2P Require Import Prelude Util EngineState DefaultEngine JsonChecker Snappy Protocol Conn Daemon.

#[local] Set Warnings "-clear-no-such-hyp".

(** The engine, whether the client supports data types, the verbosity and the token
    of the session. *)
Record server (S : Type) := mk_server {
  sv_engine : S;
  sv_datatype : bool;
  sv_verbose : Z;
  sv_session : Z
}.
Arguments mk_server {S}.
Arguments sv_engine {S}.
Arguments sv_datatype {S}.
Arguments sv_verbose {S}.
Arguments sv_session {S}.

(** What follows a response. *)
Inductive next := Continue | Skip (n : Z) | Shut.

(** A response: its bytes, an item that is released once they are sent, and what
    follows. *)
Record answer := mk_answer {
  an_out : list Z;
  an_item : Z;
  an_next : next
}.

(** What the daemon will do with a request once it has read its header. *)
Inductive plan :=
| Refuse
| Reject (err : Z)
| ReadPacket
| ReadUpdate (cmd : Z) (quiet : bool)
| ReadConcat (cmd : Z) (quiet : bool)
| ReadSasl
| SkipBody.

(** The largest reply that goes through the dynamic buffer. *)
Definition reply_limit : Z := 2 ^ 25.

(** The largest request that is read into the read buffer as a whole. *)
Definition packet_limit : Z := 2 ^ 25.

(** The longest version. *)
Definition version_limit : Z := 1000.

Section serve.
Context {S : Type} `{EngineV1 S} `{Settings}.

(** The properties of the connection that requests do not change: whether it belongs
    to an administrator, whether it is authenticated, and the number of sessions. *)
Context (admin sasl_user : bool) (session_ctr : Z).

Abbreviation R := (M (server S)).

Definition call {A} (m : M S A) : R A := fun s =>
  match m s.(sv_engine) with
  | Some (a, e) => Some (a, mk_server e s.(sv_datatype) s.(sv_verbose) s.(sv_session))
  | None => None
  end.

Definition set_datatype (b : bool) : R unit :=
  modify (fun s => mk_server s.(sv_engine) b s.(sv_verbose) s.(sv_session)).
Definition set_verbose (v : Z) : R unit :=
  modify (fun s => mk_server s.(sv_engine) s.(sv_datatype) v s.(sv_session)).
Definition set_session (v : Z) : R unit :=
  modify (fun s => mk_server s.(sv_engine) s.(sv_datatype) s.(sv_verbose) v).

(** ** Responses *)

(** A response with the given extras, key and value. *)
Definition response (h : request_header) (status datatype cas : Z) (ext key value : list Z) : list Z :=
  let n l := Z.of_nat (length l) in
  response_header h.(rh_opcode) (n key) (n ext) datatype status (n ext + n key + n value)
    h.(rh_opaque) cas ++ ext ++ key ++ value.

Definition done (out : list Z) : R answer := mret (mk_answer out NULL Continue).

(** A response that consists of a status. *)
Definition status (h : request_header) (err cas : Z) : list Z :=
  response h err PROTOCOL_BINARY_RAW_BYTES cas [] []
    (if err =? PROTOCOL_BINARY_RESPONSE_SUCCESS then [] else memcached_protocol_errcode_2_text err).

(** A reply through the dynamic buffer. *)
Definition buffered (out : list Z) : R answer :=
  if Z.of_nat (length out) <=? reply_limit then done out else crash.

Definition fail_with (h : request_header) (err cas : Z) : R answer :=
  if err =? PROTOCOL_BINARY_RESPONSE_NOT_MY_VBUCKET then
    get_map ← of_option v1_get_engine_vb_map;
    r ← call get_map;
    match r with
    | inl _ => mret (mk_answer [] NULL Shut)
    | inr map => buffered (response h err PROTOCOL_BINARY_RAW_BYTES 0 [] [] map)
    end
  else done (status h err cas).

(** A success; a quiet command has no response. *)
Definition succeed (h : request_header) (quiet : bool) (cas : Z) (value : list Z) : R answer :=
  done (if quiet then [] else response h PROTOCOL_BINARY_RESPONSE_SUCCESS PROTOCOL_BINARY_RAW_BYTES cas
                                [] [] value).

(** The codes that have a message of their own. *)
Definition fail_code (h : request_header) (ret : ENGINE_ERROR_CODE) (cas : Z) (other : R answer) : R answer :=
  match ret with
  | ENGINE_KEY_EEXISTS => fail_with h PROTOCOL_BINARY_RESPONSE_KEY_EEXISTS cas
  | ENGINE_KEY_ENOENT => fail_with h PROTOCOL_BINARY_RESPONSE_KEY_ENOENT cas
  | ENGINE_ENOMEM => fail_with h PROTOCOL_BINARY_RESPONSE_ENOMEM cas
  | ENGINE_TMPFAIL => fail_with h PROTOCOL_BINARY_RESPONSE_ETMPFAIL cas
  | ENGINE_ENOTSUP => fail_with h PROTOCOL_BINARY_RESPONSE_NOT_SUPPORTED cas
  | ENGINE_NOT_MY_VBUCKET => fail_with h PROTOCOL_BINARY_RESPONSE_NOT_MY_VBUCKET cas
  | ENGINE_EWOULDBLOCK | ENGINE_DISCONNECT => crash
  | _ => other
  end.

(** ** Commands with a packet; [body] is the body of the request *)

Definition rq_key (h : request_header) (body : list Z) : list Z :=
  drop (length body - Z.to_nat h.(rh_keylen)) body.

Definition one_of (l : list Z) (op : Z) : bool := in_list l op.

(** The item [it] was found; [getk] tells whether its key is sent. *)
Definition serve_item (h : request_header) (getk : bool) (it : Z) (info : item_info) : R answer :=
  s ← gets id;
  if negb s.(sv_datatype) && is_compressed info.(ii_datatype) then crash else
  if reply_limit <? info.(ii_nbytes) then crash else
  d ← of_option (v1_data s.(sv_engine) it);
  value ← (if 0 <? info.(ii_nvalue) then of_option (slice d 0 info.(ii_nbytes)) else crash);
  k ← (if getk then k ← of_option (v1_key s.(sv_engine) it); of_option (slice k 0 h.(rh_keylen)) else mret []);
  mret (mk_answer
    (response h PROTOCOL_BINARY_RESPONSE_SUCCESS
       (if s.(sv_datatype) then info.(ii_datatype) else PROTOCOL_BINARY_RAW_BYTES)
       info.(ii_cas) (le_bytes 4 info.(ii_flags)) k value) it Continue).

Definition serve_get (h : request_header) (body : list Z) : R answer :=
  let key := rq_key h body in
  let getk := one_of [PROTOCOL_BINARY_CMD_GETK; PROTOCOL_BINARY_CMD_GETKQ] h.(rh_opcode) in
  let quiet := one_of [PROTOCOL_BINARY_CMD_GETQ; PROTOCOL_BINARY_CMD_GETKQ] h.(rh_opcode) in
  r ← call (v1_get key h.(rh_vbucket));
  match r.1 with
  | ENGINE_SUCCESS =>
      info ← call (v1_get_item_info r.2 IOV_MAX);
      match info with
      | None => call (v1_release r.2);; fail_with h PROTOCOL_BINARY_RESPONSE_EINTERNAL 0
      | Some info => serve_item h getk r.2 info
      end
  | ENGINE_KEY_ENOENT =>
      if (quiet : bool) then done [] else
      if (getk : bool) then
        done (response h PROTOCOL_BINARY_RESPONSE_KEY_ENOENT PROTOCOL_BINARY_RAW_BYTES 0 [] key [])
      else fail_with h PROTOCOL_BINARY_RESPONSE_KEY_ENOENT 0
  | ENGINE_EWOULDBLOCK | ENGINE_DISCONNECT => crash
  | ret => fail_with h (engine_error_2_protocol_error ret) 0
  end.

Definition serve_delete (h : request_header) (body : list Z) : R answer :=
  r ← call (v1_remove (rq_key h body) h.(rh_cas) h.(rh_vbucket));
  match r.1 with
  | ENGINE_SUCCESS => succeed h (h.(rh_opcode) =? PROTOCOL_BINARY_CMD_DELETEQ) r.2 []
  | ENGINE_KEY_EEXISTS => fail_with h PROTOCOL_BINARY_RESPONSE_KEY_EEXISTS 0
  | ENGINE_KEY_ENOENT => fail_with h PROTOCOL_BINARY_RESPONSE_KEY_ENOENT 0
  | ENGINE_NOT_MY_VBUCKET => fail_with h PROTOCOL_BINARY_RESPONSE_NOT_MY_VBUCKET 0
  | ENGINE_TMPFAIL => fail_with h PROTOCOL_BINARY_RESPONSE_ETMPFAIL 0
  | ENGINE_EWOULDBLOCK => crash
  | _ => fail_with h PROTOCOL_BINARY_RESPONSE_EINVAL 0
  end.

Definition serve_flush (h : request_header) (body : list Z) : R answer :=
  ret ← call (v1_flush (be_val body));
  match ret with
  | ENGINE_SUCCESS => succeed h (h.(rh_opcode) =? PROTOCOL_BINARY_CMD_FLUSHQ) 0 []
  | ENGINE_ENOTSUP => fail_with h PROTOCOL_BINARY_RESPONSE_NOT_SUPPORTED 0
  | _ => fail_with h PROTOCOL_BINARY_RESPONSE_EINVAL 0
  end.

Definition serve_arithmetic (h : request_header) (body : list Z) : R answer :=
  let op := h.(rh_opcode) in
  let incr := one_of [PROTOCOL_BINARY_CMD_INCREMENT; PROTOCOL_BINARY_CMD_INCREMENTQ] op in
  let quiet := one_of [PROTOCOL_BINARY_CMD_INCREMENTQ; PROTOCOL_BINARY_CMD_DECREMENTQ] op in
  if negb (h.(rh_cas) =? 0) then fail_with h PROTOCOL_BINARY_RESPONSE_EINVAL 0 else
  let expiration := be_val (take 4 (drop 16 body)) in
  r ← call (v1_arithmetic (rq_key h body) incr (negb (expiration =? 4294967295)) (be_val (take 8 body))
              (be_val (take 8 (drop 8 body))) expiration 0 h.(rh_datatype) h.(rh_vbucket));
  match r.1.1 with
  | ENGINE_SUCCESS => succeed h quiet r.1.2 (be_bytes 8 r.2)
  | ENGINE_EINVAL => fail_with h PROTOCOL_BINARY_RESPONSE_DELTA_BADVAL r.1.2
  | ENGINE_NOT_STORED => fail_with h PROTOCOL_BINARY_RESPONSE_NOT_STORED r.1.2
  | ret => fail_code h ret r.1.2 crash
  end.

(** The features in a HELLO that the server grants. *)
Fixpoint grants (l : list Z) (granted : bool) : bool :=
  match l with
  | a :: b :: l' => grants l' (granted || ((be_val [a; b] =? PROTOCOL_BINARY_FEATURE_DATATYPE) && Conn.datatype))
  | _ => granted
  end.

Definition serve_hello (h : request_header) (body : list Z) : R answer :=
  if Z.of_nat (length body) <? h.(rh_keylen) then crash else
  let granted := grants (drop (Z.to_nat h.(rh_keylen)) body) false in
  set_datatype granted;;
  if (granted : bool) then
    buffered (response h PROTOCOL_BINARY_RESPONSE_SUCCESS PROTOCOL_BINARY_RAW_BYTES 0 [] []
                (be_bytes 2 PROTOCOL_BINARY_FEATURE_DATATYPE))
  else done (status h PROTOCOL_BINARY_RESPONSE_SUCCESS 0).

Definition serve_token (h : request_header) (err value : Z) : R answer :=
  buffered (response h err PROTOCOL_BINARY_RAW_BYTES value [] [] []).

Definition serve_set_token (h : request_header) (body : list Z) : R answer :=
  if negb (disable_admin || admin) then fail_with h PROTOCOL_BINARY_RESPONSE_EACCESS 0 else
  s ← gets id;
  if 0 <? session_ctr then serve_token h PROTOCOL_BINARY_RESPONSE_EBUSY s.(sv_session)
  else if (h.(rh_cas) =? s.(sv_session)) || (h.(rh_cas) =? 0) then
    set_session (be_val body);; serve_token h PROTOCOL_BINARY_RESPONSE_SUCCESS (be_val body)
  else serve_token h PROTOCOL_BINARY_RESPONSE_KEY_EEXISTS s.(sv_session).

Definition serve_get_token (h : request_header) : R answer :=
  if negb (disable_admin || admin) then fail_with h PROTOCOL_BINARY_RESPONSE_EACCESS 0 else
  s ← gets id;
  serve_token h PROTOCOL_BINARY_RESPONSE_SUCCESS s.(sv_session).

Definition serve_ioctl_set (h : request_header) (body : list Z) : R answer :=
  if Z.of_nat (length body) <? h.(rh_keylen) then crash else
  fail_with h (if bool_decide (take (Z.to_nat h.(rh_keylen)) body = bytes_of "release_free_memory")
               then PROTOCOL_BINARY_RESPONSE_SUCCESS else PROTOCOL_BINARY_RESPONSE_EINVAL) 0.

(** A command that the engine handles; it is given the whole request [pkt]. *)
Definition serve_unknown (h : request_header) (pkt : list Z) : R answer :=
  s ← gets id;
  if negb s.(sv_datatype) && negb (h.(rh_datatype) =? PROTOCOL_BINARY_RAW_BYTES) then
    buffered (response h PROTOCOL_BINARY_RESPONSE_EINVAL PROTOCOL_BINARY_RAW_BYTES 0 [] [] [])
  else
    cmd ← of_option v1_unknown_command;
    let bytes (r : reply) := response h (reply_code r.(r_status)) PROTOCOL_BINARY_RAW_BYTES r.(r_cas)
                               r.(r_ext) [] r.(r_body) in
    r ← call (cmd pkt (fun _ => true));
    match r.1, r.2 with
    | ENGINE_SUCCESS, Some rep => buffered (bytes rep)
    | ENGINE_SUCCESS, None => done []
    | ENGINE_EWOULDBLOCK, _ | ENGINE_DISCONNECT, _ => crash
    | ret, None => fail_with h (engine_error_2_protocol_error ret) 0
    | _, Some _ => crash
    end.

(** The validators, on the request [pkt]. *)
Definition valid (h : request_header) (pkt : list Z) : bool :=
  match validators h.(rh_opcode) with
  | Some v => default false (v pkt)
  | None => true
  end.

Definition serve_packet (h : request_header) (hdr body : list Z) : R answer :=
  let pkt := hdr ++ body in
  let op := h.(rh_opcode) in
  if h.(rh_magic) =? PROTOCOL_BINARY_RES then
    if op =? PROTOCOL_BINARY_CMD_NOOP then done [] else crash
  else if negb (valid h pkt) then fail_with h PROTOCOL_BINARY_RESPONSE_EINVAL 0
  else if op =? PROTOCOL_BINARY_CMD_VERBOSITY then
    set_verbose (Z.min MAX_VERBOSITY_LEVEL (be_val body));; succeed h false 0 []
  else if op =? PROTOCOL_BINARY_CMD_HELLO then serve_hello h body
  else if op =? PROTOCOL_BINARY_CMD_VERSION then
    if Z.of_nat (length server_version) <=? version_limit then succeed h false 0 server_version else crash
  else if op =? PROTOCOL_BINARY_CMD_QUIT then
    a ← succeed h false 0 []; mret (mk_answer a.(an_out) NULL Shut)
  else if op =? PROTOCOL_BINARY_CMD_QUITQ then mret (mk_answer [] NULL Shut)
  else if op =? PROTOCOL_BINARY_CMD_NOOP then succeed h false 0 []
  else if one_of [PROTOCOL_BINARY_CMD_FLUSH; PROTOCOL_BINARY_CMD_FLUSHQ] op then serve_flush h body
  else if one_of [PROTOCOL_BINARY_CMD_GET; PROTOCOL_BINARY_CMD_GETQ; PROTOCOL_BINARY_CMD_GETK;
                  PROTOCOL_BINARY_CMD_GETKQ] op then serve_get h body
  else if one_of [PROTOCOL_BINARY_CMD_DELETE; PROTOCOL_BINARY_CMD_DELETEQ] op then serve_delete h body
  else if one_of [PROTOCOL_BINARY_CMD_INCREMENT; PROTOCOL_BINARY_CMD_INCREMENTQ;
                  PROTOCOL_BINARY_CMD_DECREMENT; PROTOCOL_BINARY_CMD_DECREMENTQ] op
       then serve_arithmetic h body
  else if op =? PROTOCOL_BINARY_CMD_SET_CTRL_TOKEN then serve_set_token h body
  else if op =? PROTOCOL_BINARY_CMD_GET_CTRL_TOKEN then serve_get_token h
  else if op =? PROTOCOL_BINARY_CMD_IOCTL_GET then fail_with h PROTOCOL_BINARY_RESPONSE_NOT_SUPPORTED 0
  else if op =? PROTOCOL_BINARY_CMD_IOCTL_SET then serve_ioctl_set h body
  else if in_list other_commands op then crash
  else serve_unknown h pkt.

(** ** Updates *)

(** The bytes of a value that could not be stored, which are skipped: the daemon keeps
    their number in a signed integer. *)
Definition skipped (vlen : Z) : Z := if 0 <? swrap 32 vlen then swrap 32 vlen else 0.

(** The item for the value, or the response to a failed allocation. *)
Definition start_update (h : request_header) (key : list Z) (nbytes flags exptime vlen : Z)
    : R (Z + answer) :=
  r ← call (v1_allocate key nbytes flags exptime h.(rh_datatype));
  match r.1 with
  | ENGINE_SUCCESS =>
      info ← call (v1_get_item_info r.2 1);
      match info with
      | Some _ => call (v1_item_set_cas r.2 h.(rh_cas));; mret (inl r.2)
      | None => call (v1_release r.2);; a ← fail_with h PROTOCOL_BINARY_RESPONSE_EINTERNAL 0; mret (inr a)
      end
  | ENGINE_EWOULDBLOCK | ENGINE_DISCONNECT => crash
  | ret =>
      mret (inr (mk_answer (status h (match ret with
                                      | ENGINE_E2BIG => PROTOCOL_BINARY_RESPONSE_E2BIG
                                      | _ => PROTOCOL_BINARY_RESPONSE_ENOMEM
                                      end) 0) NULL (Skip (skipped vlen))))
  end.

(** The value is in the item [it]: it is stored. *)
Definition finish_update (h : request_header) (op : ENGINE_STORE_OPERATION) (quiet : bool) (it : Z) : R answer :=
  info ← call (v1_get_item_info it 1);
  match info with
  | None => crash
  | Some info =>
      s ← gets id;
      (if s.(sv_datatype) then mret tt else
       json ← of_option (checkUTF8JSON info.(ii_value));
       if (json : bool) then
         call (v1_set_item_info it (set_ii_datatype PROTOCOL_BINARY_DATATYPE_JSON info));; mret tt
       else mret tt);;
      r ← call (v1_store it 0 op h.(rh_vbucket));
      a ← match r.1 with
          | ENGINE_SUCCESS => succeed h quiet r.2 []
          | ENGINE_E2BIG => fail_with h PROTOCOL_BINARY_RESPONSE_E2BIG r.2
          | ret => fail_code h ret r.2 (fail_with h (match op with
                                                     | OPERATION_ADD => PROTOCOL_BINARY_RESPONSE_KEY_EEXISTS
                                                     | OPERATION_REPLACE => PROTOCOL_BINARY_RESPONSE_KEY_ENOENT
                                                     | _ => PROTOCOL_BINARY_RESPONSE_NOT_STORED
                                                     end) r.2)
          end;
      call (v1_release it);;
      mret a
  end.

Definition update_op (h : request_header) (cmd : Z) : ENGINE_STORE_OPERATION :=
  if cmd =? PROTOCOL_BINARY_CMD_ADD then OPERATION_ADD
  else if negb (h.(rh_cas) =? 0) then OPERATION_CAS
  else if cmd =? PROTOCOL_BINARY_CMD_SET then OPERATION_SET else OPERATION_REPLACE.

Definition concat_op (cmd : Z) : ENGINE_STORE_OPERATION :=
  if cmd =? PROTOCOL_BINARY_CMD_APPEND then OPERATION_APPEND else OPERATION_PREPEND.

(** ** The plan for a header *)

(** The commands with an executor. *)
Definition has_executor (op : Z) : bool :=
  in_list ([PROTOCOL_BINARY_CMD_VERBOSITY; PROTOCOL_BINARY_CMD_HELLO; PROTOCOL_BINARY_CMD_VERSION;
            PROTOCOL_BINARY_CMD_QUIT; PROTOCOL_BINARY_CMD_QUITQ; PROTOCOL_BINARY_CMD_NOOP;
            PROTOCOL_BINARY_CMD_FLUSH; PROTOCOL_BINARY_CMD_FLUSHQ; PROTOCOL_BINARY_CMD_GET;
            PROTOCOL_BINARY_CMD_GETQ; PROTOCOL_BINARY_CMD_GETK; PROTOCOL_BINARY_CMD_GETKQ;
            PROTOCOL_BINARY_CMD_DELETE; PROTOCOL_BINARY_CMD_DELETEQ; PROTOCOL_BINARY_CMD_INCREMENT;
            PROTOCOL_BINARY_CMD_INCREMENTQ; PROTOCOL_BINARY_CMD_DECREMENT; PROTOCOL_BINARY_CMD_DECREMENTQ;
            PROTOCOL_BINARY_CMD_SET_CTRL_TOKEN; PROTOCOL_BINARY_CMD_GET_CTRL_TOKEN;
            PROTOCOL_BINARY_CMD_IOCTL_GET; PROTOCOL_BINARY_CMD_IOCTL_SET] ++ other_commands) op.

Definition plan_of (datatypes : bool) (h : request_header) : plan :=
  let op := h.(rh_opcode) in
  if negb (h.(rh_magic) =? PROTOCOL_BINARY_REQ)
     && negb ((h.(rh_magic) =? PROTOCOL_BINARY_RES) && response_handlers op) then Refuse
  else if require_sasl && negb (in_list [PROTOCOL_BINARY_CMD_SASL_LIST_MECHS; PROTOCOL_BINARY_CMD_SASL_AUTH;
            PROTOCOL_BINARY_CMD_SASL_STEP; PROTOCOL_BINARY_CMD_VERSION; PROTOCOL_BINARY_CMD_HELLO] op
            || sasl_user) then Reject PROTOCOL_BINARY_RESPONSE_AUTH_ERROR
  else if negb (h.(rh_datatype) =? PROTOCOL_BINARY_RAW_BYTES)
          && negb (in_list [PROTOCOL_BINARY_DATATYPE_JSON; PROTOCOL_BINARY_DATATYPE_COMPRESSED;
                            PROTOCOL_BINARY_DATATYPE_COMPRESSED_JSON] h.(rh_datatype) && datatypes)
       then Reject PROTOCOL_BINARY_RESPONSE_EINVAL
  else if KEY_MAX_LENGTH <? h.(rh_keylen) then Reject PROTOCOL_BINARY_RESPONSE_EINVAL
  else if has_executor op then ReadPacket
  else
    let cmd := default op (loud_update op) in
    let quiet := bool_decide (is_Some (loud_update op)) in
    if in_list [PROTOCOL_BINARY_CMD_SET; PROTOCOL_BINARY_CMD_ADD; PROTOCOL_BINARY_CMD_REPLACE] cmd then
      if (h.(rh_extlen) =? 8) && negb (h.(rh_keylen) =? 0) && (h.(rh_keylen) + 8 <=? h.(rh_bodylen))
      then ReadUpdate cmd quiet else Reject PROTOCOL_BINARY_RESPONSE_EINVAL
    else if in_list [PROTOCOL_BINARY_CMD_APPEND; PROTOCOL_BINARY_CMD_PREPEND] cmd then
      if (0 <? h.(rh_keylen)) && (h.(rh_extlen) =? 0) then ReadConcat cmd quiet
      else Reject PROTOCOL_BINARY_RESPONSE_EINVAL
    else if in_list [PROTOCOL_BINARY_CMD_SASL_AUTH; PROTOCOL_BINARY_CMD_SASL_STEP] cmd then
      if (h.(rh_extlen) =? 0) && negb (h.(rh_keylen) =? 0) then ReadSasl
      else Reject PROTOCOL_BINARY_RESPONSE_EINVAL
    else match v1_unknown_command with Some _ => ReadPacket | None => SkipBody end.

(** ** A connection *)

Definition release_kept (it : Z) : R unit := if it =? NULL then mret tt else call (v1_release it).

(** The outputs after an answer, where [k] serves the rest of the input. *)
Definition deliver (a : answer) (k : list Z -> R (list Z)) (rest : list Z) : R (list Z) :=
  release_kept a.(an_item);;
  out ← match a.(an_next) with
        | Continue => k rest
        | Skip n => if Z.of_nat (length rest) <? n then mret [] else k (drop (Z.to_nat n) rest)
        | Shut => mret []
        end;
  mret (a.(an_out) ++ out).

(** The engine returns when the item [it] is released. *)
Definition releasable (it : Z) : R unit := fun s =>
  match v1_release it s.(sv_engine) with Some _ => Some (tt, s) | None => None end.

(** The value of [left] bytes for the item [it] is read from the input and written at
    [off] as far as it is there. The connection may be lost at this point, and then the
    daemon releases the item. *)
Definition serve_value (h : request_header) (op : ENGINE_STORE_OPERATION) (quiet : bool) (it off left : Z)
    (k : list Z -> R (list Z)) (rest : list Z) : R (list Z) :=
  let value := take (Z.to_nat left) rest in
  releasable it;;
  (if bool_decide (value = []) then mret tt else call (v1_write it off value));;
  if Z.of_nat (length rest) <? left then mret [] else
  a ← finish_update h op quiet it;
  deliver a k (drop (Z.to_nat left) rest).

(** The extras and the key of an update have been read. *)
Definition serve_update (h : request_header) (op : ENGINE_STORE_OPERATION) (quiet : bool) (key : list Z)
    (nbytes flags exptime vlen : Z) (k : list Z -> R (list Z)) (rest : list Z) : R (list Z) :=
  r ← start_update h key nbytes flags exptime vlen;
  match r with
  | inl it => serve_value h op quiet it 0 (u32 vlen) k rest
  | inr a => deliver a k rest
  end.

Definition serve_set_header (h : request_header) (cmd : Z) (quiet : bool) (b : list Z)
    (k : list Z -> R (list Z)) (rest : list Z) : R (list Z) :=
  if in_list [PROTOCOL_BINARY_CMD_APPEND; PROTOCOL_BINARY_CMD_PREPEND] cmd then
    let vlen := swrap 32 (h.(rh_bodylen) - h.(rh_keylen)) in
    serve_update h (concat_op cmd) quiet b (u64 vlen) 0 0 vlen k rest
  else
    let vlen := u32 (h.(rh_bodylen) - (h.(rh_keylen) + h.(rh_extlen))) in
    serve_update h (update_op h cmd) quiet (drop 8 b) vlen (be_val (reverse (take 4 b)))
      (be_val (take 4 (drop 4 b))) vlen k rest.

(** The next [n] bytes of the input, if they are there. *)
Definition chunk (n : Z) (f : list Z -> list Z -> R (list Z)) (rest : list Z) : R (list Z) :=
  if Z.of_nat (length rest) <? n then mret []
  else f (take (Z.to_nat n) rest) (drop (Z.to_nat n) rest).

(** One request, of which the header [hdr] has been read; [rest] is what follows. *)
Definition serve_header (h : request_header) (hdr : list Z) (k : list Z -> R (list Z)) (rest : list Z)
    : R (list Z) :=
  s ← gets id;
  match plan_of s.(sv_datatype) h with
  | Refuse => mret []
  | Reject err => mret (status h err 0)
  | ReadPacket =>
      if packet_limit <? h.(rh_bodylen) + 24 then crash else
      chunk h.(rh_bodylen) (fun body rest' => a ← serve_packet h hdr body; deliver a k rest') rest
  | ReadUpdate cmd quiet =>
      chunk (h.(rh_keylen) + 8) (fun b rest' => serve_set_header h cmd quiet b k rest') rest
  | ReadConcat cmd quiet =>
      chunk h.(rh_keylen) (fun b rest' => serve_set_header h cmd quiet b k rest') rest
  | ReadSasl => crash
  | SkipBody =>
      deliver (mk_answer (status h PROTOCOL_BINARY_RESPONSE_UNKNOWN_COMMAND 0) NULL
                 (Skip (skipped h.(rh_bodylen)))) k rest
  end.

Fixpoint serve_fuel (fuel : nat) (I : list Z) : R (list Z) :=
  match fuel with
  | O => mret []
  | Datatypes.S fuel' =>
      if (length I <? 24)%nat then mret [] else
      h ← of_option (parse_request (take 24 I));
      serve_header h (take 24 I) (serve_fuel fuel') (drop 24 I)
  end.

(** Every request has at least the 24 bytes of its header. *)
Definition serve (I : list Z) : R (list Z) := serve_fuel (length I) I.

(** ** The fuel is enough *)

(** Two ways to serve that agree on inputs of at most [n] bytes. *)
Definition agree (n : nat) (k k' : list Z -> R (list Z)) : Prop :=
  forall I s, (length I <= n)%nat -> k I s = k' I s.

Lemma bind_ext {A B} (m : R A) (f g : A -> R B) s :
  (forall a s', f a s' = g a s') -> mbind f m s = mbind g m s.
Proof. intros Hfg. unfold mbind, M_bind. destruct (m s) as [[a s']|]; [apply Hfg|done]. Qed.

Lemma deliver_ext a k k' rest s : agree (length rest) k k' -> deliver a k rest s = deliver a k' rest s.
Proof.
  intros Hk. apply bind_ext. intros [] s1. unfold mbind, M_bind. destruct (an_next a) as [|n|]; [|destruct (_ <? n)|]; try done.
  - by rewrite (Hk rest).
  - rewrite (Hk (drop _ rest)); [done|]. rewrite length_drop. lia.
Qed.

Lemma serve_value_ext h op quiet it off left k k' rest s : agree (length rest) k k' ->
  serve_value h op quiet it off left k rest s = serve_value h op quiet it off left k' rest s.
Proof.
  intros Hk. apply bind_ext. intros [] s0. apply bind_ext. intros [] s1. destruct (_ <? left); [done|]. apply bind_ext. intros a s2.
  apply deliver_ext. intros I s3 HI. apply Hk. rewrite length_drop in HI. lia.
Qed.

Lemma serve_update_ext h op quiet key nbytes flags exptime vlen k k' rest s : agree (length rest) k k' ->
  serve_update h op quiet key nbytes flags exptime vlen k rest s
  = serve_update h op quiet key nbytes flags exptime vlen k' rest s.
Proof. intros Hk. apply bind_ext. intros [it|a] s1; [by apply serve_value_ext|by apply deliver_ext]. Qed.

Lemma serve_set_header_ext h cmd quiet b k k' rest s : agree (length rest) k k' ->
  serve_set_header h cmd quiet b k rest s = serve_set_header h cmd quiet b k' rest s.
Proof. intros Hk. unfold serve_set_header. destruct (in_list _ _); by apply serve_update_ext. Qed.

Lemma serve_header_ext h hdr k k' rest s : agree (length rest) k k' ->
  serve_header h hdr k rest s = serve_header h hdr k' rest s.
Proof.
  intros Hk. assert (Hd : forall n, agree (length (drop n rest)) k k').
  { intros n I s1 HI. apply Hk. rewrite length_drop in HI. lia. }
  apply bind_ext. intros s0 s1. destruct (plan_of _ h); try done; unfold chunk; repeat (destruct (_ <? _); [done|]).
  - apply bind_ext. intros a s2. by apply deliver_ext.
  - by apply serve_set_header_ext.
  - by apply serve_set_header_ext.
  - by apply deliver_ext.
Qed.

Lemma serve_fuel_enough f f' I s : (length I <= f)%nat -> (length I <= f')%nat -> serve_fuel f I s = serve_fuel f' I s.
Proof.
  revert f' I s. induction f as [|f IH]; intros f' I s Hf Hf'.
  - destruct I; [|simpl in Hf; lia]. by destruct f'.
  - destruct f' as [|f']; [destruct I; [done|simpl in Hf'; lia]|]. cbn [serve_fuel].
    destruct (Nat.ltb_spec (length I) 24) as [|Hlen]; [done|]. apply bind_ext. intros h s1.
    apply serve_header_ext. intros I' s2 HI. rewrite length_drop in HI. apply IH; lia.
Qed.

(** One request of the input. *)
Lemma serve_unfold I s :
  serve I s = (if (length I <? 24)%nat then mret [] else
               h ← of_option (parse_request (take 24 I)); serve_header h (take 24 I) serve (drop 24 I)) s.
Proof.
  unfold serve at 1. destruct I as [|x I]; [done|]. cbn [length serve_fuel].
  destruct (Nat.ltb_spec (Datatypes.S (length I)) 24) as [|Hlen]; [done|]. apply bind_ext. intros h s1.
  apply serve_header_ext. intros I' s2 HI. apply serve_fuel_enough; [|done]. rewrite length_drop in HI. simpl in *. lia.
Qed.

Lemma releasable_Some it s x : releasable it s = Some x -> x = (tt, s) /\ is_Some (v1_release it s.(sv_engine)).
Proof. unfold releasable. destruct (v1_release it _) eqn:E; [|done]. intros [= <-]. by split. Qed.

Lemma releasable_run it s : is_Some (v1_release it s.(sv_engine)) -> releasable it s = Some (tt, s).
Proof. unfold releasable. by intros [x ->]. Qed.

(** A part [a] of the value is written before the rest. *)
Lemma serve_value_step h op quiet it off left k a rest s x :
  (forall off a b s, v1_write it off (a ++ b) s = (v1_write it off a;; v1_write it (off + Z.of_nat (length a)) b) s) ->
  (forall off b s s', v1_write it off b s = Some (tt, s') -> is_Some (v1_release it s) -> is_Some (v1_release it s')) ->
  a <> [] -> Z.of_nat (length a) <= left ->
  serve_value h op quiet it off left k (a ++ rest) s = Some x ->
  (call (v1_write it off a);; serve_value h op quiet it (off + Z.of_nat (length a)) (left - Z.of_nat (length a)) k rest) s = Some x.
Proof.
  intros Hw Hr Ha Hlen. unfold serve_value. rewrite take_app_ge, drop_app_ge by lia.
  replace (Z.to_nat left - length a)%nat with (Z.to_nat (left - Z.of_nat (length a))) by lia.
  set (n := Z.to_nat (left - Z.of_nat (length a))).
  replace (Z.of_nat (length (a ++ rest)) <? left) with (Z.of_nat (length rest) <? left - Z.of_nat (length a))
    by (rewrite length_app; destruct (Z.ltb_spec (Z.of_nat (length rest)) (left - Z.of_nat (length a))),
          (Z.ltb_spec (Z.of_nat (length a + length rest)) left); lia).
  rewrite bool_decide_eq_false_2 by (by destruct a). unfold mbind, M_bind.
  destruct (releasable it s) as [[[] s0]|] eqn:E0; [|done]. apply releasable_Some in E0 as [[= ->] Hrel].
  assert (Hcall : forall e, v1_write it off a s.(sv_engine) = Some (tt, e) ->
    releasable it (mk_server e s.(sv_datatype) s.(sv_verbose) s.(sv_session))
    = Some (tt, mk_server e s.(sv_datatype) s.(sv_verbose) s.(sv_session))).
  { intros e He. apply releasable_run. by eapply Hr. }
  unfold call at 2. destruct (bool_decide (take n rest = [])) eqn:E.
  - apply bool_decide_eq_true in E. rewrite E, app_nil_r. unfold call.
    destruct (v1_write it off a s.(sv_engine)) as [[[] e]|]; [|done]. by rewrite Hcall.
  - unfold call. rewrite Hw. unfold mbind, M_bind.
    destruct (v1_write it off a s.(sv_engine)) as [[[] e]|]; [|done]. by rewrite Hcall.
Qed.
End serve.
