(* ===== verification/Reply.v ===== *)
(** * The handlers of the daemon answer as [Serve] says

    A handler that starts with the request in the read buffer leaves a response in the
    messages of the connection, or in its dynamic buffer, or changes the state of the
    connection; [answered] compares what it leaves with an [answer]. *)
From Stdlib Require Import ZArith Lia.
From stdpp Require Import strings gmap prelude.
From S2P Require Import Prelude Util EngineState DefaultEngine JsonChecker Snappy Protocol Conn Daemon Serve.

#[local] Set Warnings "-clear-no-such-hyp".

(** The runs that are compared with the reference: no [realloc] of a buffer of up to
    64 MB fails, and no [event_add] fails. These are conditions on a run and not promises
    of the C library or of libevent; the daemon answers with less than the reference when
    memory is short for a response, and an assertion fails after an [event_add] that
    fails. *)
Definition ample_memory `{Sys} : Prop := forall k n, n <= 2 ^ 26 -> sys_grow k n = true.
Definition events_accepted `{Sys} : Prop := forall k, event_add k = true.

(** The two conditions, for the lemmas that share them. *)
Class Provided `{Sys} : Prop := {
  grow_small : forall k n, n <= 2 ^ 26 -> sys_grow k n = true;
  add_ok : forall k, event_add k = true
}.

Lemma provided `{Sys} : ample_memory -> events_accepted -> Provided.
Proof. by constructor. Qed.

(** What is assumed of an engine: a value may be written in pieces, an item whose value
    is written can still be released, and a command that the engine handles itself reads
    its packet only, and asks the callback only for the reply that it returns. *)
Class EngineV1Ok (S : Type) `{EngineV1 S} : Prop := {
  unknown_local : forall cmd, v1_unknown_command = Some cmd -> forall pkt tail f s r s',
    cmd pkt (fun _ => true) s = Some (r, s') -> (forall rep, r.2 = Some rep -> f rep = true) ->
    cmd (pkt ++ tail) f s = Some (r, s');
  write_app : forall it off a b s, v1_write it off (a ++ b) s
    = (v1_write it off a;; v1_write it (off + Z.of_nat (length a)) b) s;
  write_release : forall it off b s s', v1_write it off b s = Some (tt, s') ->
    is_Some (v1_release it s) -> is_Some (v1_release it s')
}.

(** ** Symbolic execution *)

Lemma runs_getc {S A} (f : conn -> A) (w : world S) (Q : A -> world S -> Prop) :
  Q (f w.(w_conn)) w -> runs (getc f) w Q.
Proof. intros HQ. by eexists _, _. Qed.

Lemma runs_updc {S} f (w : world S) (Q : unit -> world S -> Prop) :
  Q tt (set_w_conn (f w.(w_conn)) w) -> runs (updc f) w Q.
Proof. intros HQ. by eexists _, _. Qed.

Lemma runs_syscall {S A} (f : nat -> A) (w : world S) (Q : A -> world S -> Prop) :
  Q (f w.(w_calls)) (set_w_calls (Datatypes.S w.(w_calls)) w) -> runs (syscall f) w Q.
Proof. intros HQ. by eexists _, _. Qed.

Lemma runs_eng {S A} (m : M S A) a e (w : world S) (Q : A -> world S -> Prop) :
  m w.(w_engine) = Some (a, e) -> Q a (set_w_engine e w) -> runs (eng m) w Q.
Proof. intros Hm HQ. eexists _, _. unfold eng. by rewrite Hm. Qed.

Ltac run_hook ::=
  lazymatch goal with
  | |- runs (getc _) _ _ => apply runs_getc
  | |- runs (updc _) _ _ => apply runs_updc
  | |- runs (conn_set_state _) _ _ => apply runs_updc
  | |- runs (syscall _) _ _ => apply runs_syscall
  end.

(** A step of the reference that is known to return. *)
Lemma call_Some {S A} (m : M S A) (s s' : server S) a :
  call m s = Some (a, s') -> exists e, m s.(sv_engine) = Some (a, e) /\
  s' = mk_server e s.(sv_datatype) s.(sv_verbose) s.(sv_session).
Proof. unfold call. destruct (m _) as [[x e]|]; [|done]. intros [= -> <-]. by exists e. Qed.

(** ** Bytes *)

Lemma slice_length l off n b : slice l off n = Some b -> Z.of_nat (length b) = n /\ 0 <= off.
Proof.
  unfold slice. destruct (Z.leb_spec 0 off), (Z.leb_spec 0 n), (Z.leb_spec (off + n) (Z.of_nat (length l)));
    try done. intros [= <-]. rewrite length_take, length_drop. lia.
Qed.

Lemma slice_Some l off n : 0 <= off -> 0 <= n -> off + n <= Z.of_nat (length l) ->
  slice l off n = Some (take (Z.to_nat n) (drop (Z.to_nat off) l)).
Proof.
  intros H1 H2 H3. unfold slice.
  by rewrite (proj2 (Z.leb_le _ _) H1), (proj2 (Z.leb_le _ _) H2), (proj2 (Z.leb_le _ _) H3).
Qed.

Lemma slice_bounds l off n b : slice l off n = Some b ->
  0 <= off /\ 0 <= n /\ off + n <= Z.of_nat (length l) /\ b = take (Z.to_nat n) (drop (Z.to_nat off) l).
Proof.
  unfold slice. destruct (Z.leb_spec 0 off), (Z.leb_spec 0 n), (Z.leb_spec (off + n) (Z.of_nat (length l)));
    try done. by intros [= <-].
Qed.

Lemma slice_all l n : n = Z.of_nat (length l) -> slice l 0 n = Some l.
Proof. intros ->. rewrite slice_Some by lia. rewrite drop_0. f_equal. apply take_ge. lia. Qed.

(** The two parts of a slice. *)
Lemma slice_split l off n k b : slice l off n = Some b -> 0 <= k <= n ->
  slice l off k = Some (take (Z.to_nat k) b) /\ slice l (off + k) (n - k) = Some (drop (Z.to_nat k) b).
Proof.
  intros (H1 & H2 & H3 & ->)%slice_bounds Hk. rewrite !slice_Some by lia. split; f_equal.
  - rewrite take_take. f_equal. lia.
  - rewrite skipn_firstn_comm. rewrite drop_drop. f_equal; [|f_equal]; lia.
Qed.

Lemma slice_app_l x y off n : off + n <= Z.of_nat (length x) -> slice (x ++ y) off n = slice x off n.
Proof.
  intros Hn. unfold slice. rewrite length_app.
  destruct (Z.leb_spec 0 off), (Z.leb_spec 0 n); try done. simpl.
  rewrite !(proj2 (Z.leb_le _ _)) by lia. rewrite drop_app_le, take_app_le by (rewrite ?length_drop; lia). done.
Qed.

Lemma slice_app_r x y off n : Z.of_nat (length x) <= off ->
  slice (x ++ y) off n = slice y (off - Z.of_nat (length x)) n.
Proof.
  intros Hoff. unfold slice. rewrite length_app.
  rewrite (proj2 (Z.leb_le 0 off)), (proj2 (Z.leb_le 0 (off - _))) by lia.
  destruct (Z.leb_spec 0 n); [|done]. simpl.
  destruct (Z.leb_spec (off + n) (Z.of_nat (length x + length y))),
    (Z.leb_spec (off - Z.of_nat (length x) + n) (Z.of_nat (length y))); try lia; [|done].
  rewrite drop_app_ge by lia. do 3 f_equal. lia.
Qed.

Lemma splice_Some dst off src : 0 <= off -> off + Z.of_nat (length src) <= Z.of_nat (length dst) ->
  splice dst off src = Some (take (Z.to_nat off) dst ++ src ++ drop (Z.to_nat off + length src) dst).
Proof.
  intros H1 H2. unfold splice. by rewrite (proj2 (Z.leb_le _ _) H1), (proj2 (Z.leb_le _ _) H2).
Qed.

Lemma splice_bounds dst off src d : splice dst off src = Some d ->
  0 <= off /\ off + Z.of_nat (length src) <= Z.of_nat (length dst) /\ length d = length dst /\
  d = take (Z.to_nat off) dst ++ src ++ drop (Z.to_nat off + length src) dst.
Proof.
  unfold splice. destruct (Z.leb_spec 0 off), (Z.leb_spec (off + Z.of_nat (length src)) (Z.of_nat (length dst)));
    try done. intros [= <-]. repeat split; [lia|lia|].
  rewrite !length_app, length_take, length_drop. lia.
Qed.

Section reply.
Context {S : Type} {EV : EngineV1 S} {SY : Sys} {ST : Settings} {SN : Snappy} {SOK : Provided}.

Abbreviation D := (M (world S)).
Implicit Types w : world S.

(** ** Memory *)

Lemma mem_read_length w a n b : mem_read w a n = Some b -> Z.of_nat (length b) = n.
Proof.
  destruct a; cbn [mem_read]; try (by intros [? _]%slice_length); [done|intros Hb..];
    apply bind_Some in Hb as (d & _ & Hb); apply slice_length in Hb as [? _]; done.
Qed.

Lemma mem_read_split w a n b k : mem_read w a n = Some b -> 0 <= k <= n ->
  mem_read w a k = Some (take (Z.to_nat k) b) /\ mem_read w (shift_addr a k) (n - k) = Some (drop (Z.to_nat k) b).
Proof.
  intros Ha Hk. destruct a; cbn [mem_read shift_addr] in *; [done|by eapply slice_split|..];
    try (by eapply slice_split); apply bind_Some in Ha as (d & -> & Ha); by eapply slice_split.
Qed.

(** Only the buffers and the engine matter for reading. *)
Definition memory w := (w.(w_conn).(cn_rbuf), w.(w_conn).(cn_wbuf), w.(w_conn).(cn_write_and_free), w.(w_engine)).

Lemma mem_read_same w w' a n : memory w' = memory w -> mem_read w' a n = mem_read w a n.
Proof. intros [= H1 H2 H3 H4]. destruct a; cbn [mem_read]; congruence. Qed.

Lemma msg_bytes_same w w' m : memory w' = memory w -> msg_bytes w' m = msg_bytes w m.
Proof. intros Hm. induction m as [|v m IH]; [done|]. cbn [msg_bytes]. by rewrite IH, (mem_read_same w w'). Qed.

Lemma msg_bytes_app w m1 m2 b1 b2 :
  msg_bytes w m1 = Some b1 -> msg_bytes w m2 = Some b2 -> msg_bytes w (m1 ++ m2) = Some (b1 ++ b2).
Proof.
  revert b1. induction m1 as [|v m1 IH]; intros b1 H1 H2; [by injection H1 as <-|].
  cbn [app msg_bytes] in *. destruct (mem_read w _ _) as [b|]; [|done]. cbn [mbind option_bind] in *.
  destruct (msg_bytes w m1) as [b'|] eqn:Hm; [|done]. cbn in H1. injection H1 as <-.
  rewrite (IH b') by done. cbn. by rewrite app_assoc.
Qed.

Fixpoint msgs_bytes w (l : list (list iovec)) : option (list Z) :=
  match l with
  | [] => Some []
  | m :: l' => b ← msg_bytes w m; b' ← msgs_bytes w l'; Some (b ++ b')
  end.

Lemma msgs_bytes_same w w' l : memory w' = memory w -> msgs_bytes w' l = msgs_bytes w l.
Proof. intros Hm. induction l as [|m l IH]; [done|]. cbn [msgs_bytes]. by rewrite IH, (msg_bytes_same w w'). Qed.

(** ** Messages *)

(** The messages of the connection hold the bytes [out] in at most [k] entries, none
    of which is empty. *)
Record holds (k : Z) w (out : list Z) : Prop := {
  hd_bytes : msgs_bytes w w.(w_conn).(cn_msgs) = Some out;
  hd_used : 0 <= w.(w_conn).(cn_iovused) <= k;
  hd_sizes : Forall (fun m : list iovec => Z.of_nat (length m) <= w.(w_conn).(cn_iovused) /\
                       Forall (fun v => 0 < v.(iov_len)) m) w.(w_conn).(cn_msgs);
  hd_shape : (exists m, w.(w_conn).(cn_msgs) = [m] /\ w.(w_conn).(cn_msgbytes) = Z.of_nat (length out) /\
                Z.of_nat (length out) <= UDP_MAX_PAYLOAD_SIZE)
             \/ (exists m1 m2, w.(w_conn).(cn_msgs) = [m1; m2])
}.

(** The lists of messages and of entries are long enough for a response. *)
Definition roomy w : Prop := 10 <= w.(w_conn).(cn_msgsize) /\ 400 <= w.(w_conn).(cn_iovsize).

(** The world [w] with other messages. *)
Definition with_msgs w (used bytes : Z) (l : list (list iovec)) : world S :=
  set_w_conn (set_cn_iovused used (set_cn_msgbytes bytes (set_cn_msgs l w.(w_conn)))) w.

Lemma with_msgs_memory w used bytes l : memory (with_msgs w used bytes l) = memory w.
Proof. done. Qed.

Lemma with_msgs_twice w u b l u' b' l' : with_msgs (with_msgs w u b l) u' b' l' = with_msgs w u' b' l'.
Proof. done. Qed.

Lemma push_iov_run w v m ms (Q : unit -> world S -> Prop) :
  w.(w_conn).(cn_msgs) = ms ++ [m] ->
  Q tt (with_msgs w (w.(w_conn).(cn_iovused) + 1)
          (swrap 32 (w.(w_conn).(cn_msgbytes) + swrap 32 v.(iov_len))) (ms ++ [m ++ [v]])) ->
  runs (push_iov v) w Q.
Proof.
  intros Hm HQ. unfold push_iov, last_msg. run; [by rewrite Hm, last_snoc|].
  rewrite Hm, length_app. replace (pred (length ms + length [m])) with (length ms) by (simpl; lia).
  rewrite insert_app_r_alt, Nat.sub_diag by lia. exact HQ.
Qed.

Lemma ensure_run w (Q : Z -> world S -> Prop) :
  roomy w -> w.(w_conn).(cn_iovused) < 400 -> Q 0 w -> runs ensure_iov_space w Q.
Proof.
  intros [_ Hi] Hu HQ. unfold ensure_iov_space. run. unfold id.
  rewrite (proj2 (Z.leb_gt _ _)) by lia. by run.
Qed.

Lemma add_msghdr_run w (Q : Z -> world S -> Prop) :
  roomy w -> (length w.(w_conn).(cn_msgs) <= 2)%nat ->
  Q 0 (with_msgs w w.(w_conn).(cn_iovused) 0 (w.(w_conn).(cn_msgs) ++ [[]])) -> runs add_msghdr w Q.
Proof.
  intros [Hm _] Hl HQ. unfold add_msghdr. run. unfold id. rewrite (proj2 (Z.eqb_neq _ _)) by lia.
  run. cbn [negb]. by run.
Qed.

Lemma holds_weaken k k' w out : holds k w out -> k <= k' -> holds k' w out.
Proof. intros [] Hk. constructor; try done. lia. Qed.

Lemma msgs_bytes_snoc w ms m v out b :
  msgs_bytes w (ms ++ [m]) = Some out -> mem_read w v.(iov_base) v.(iov_len) = Some b ->
  msgs_bytes w (ms ++ [m ++ [v]]) = Some (out ++ b).
Proof.
  intros Ho Hb. revert out Ho. induction ms as [|m0 ms IH]; intros out Ho.
  - cbn [app msgs_bytes] in *. destruct (msg_bytes w m) as [x|] eqn:Hm; [|done]. cbn in Ho. injection Ho as <-.
    rewrite (msg_bytes_app w m [v] x b Hm); [cbn; by rewrite !app_nil_r|].
    cbn [msg_bytes]. rewrite Hb. cbn. by rewrite app_nil_r.
  - cbn [app msgs_bytes] in *. destruct (msg_bytes w m0) as [x|]; [|done]. cbn [mbind option_bind] in *.
    destruct (msgs_bytes w (ms ++ [m])) as [y|]; [|done]. cbn [mbind option_bind] in *. injection Ho as <-.
    rewrite (IH y) by done. cbn. by rewrite app_assoc.
Qed.

Lemma sizes_snoc w ms m v :
  Forall (fun m : list iovec => Z.of_nat (length m) <= w.(w_conn).(cn_iovused) /\
            Forall (fun v => 0 < v.(iov_len)) m) (ms ++ [m]) ->
  0 < v.(iov_len) ->
  Forall (fun m : list iovec => Z.of_nat (length m) <= w.(w_conn).(cn_iovused) + 1 /\
            Forall (fun v => 0 < v.(iov_len)) m) (ms ++ [m ++ [v]]).
Proof.
  intros Hs Hv. apply Forall_app in Hs as [Hms Hm]. apply Forall_singleton in Hm as [Hm1 Hm2].
  apply Forall_app. split.
  - eapply Forall_impl; [exact Hms|]. intros x [? ?]. split; [lia|done].
  - apply Forall_singleton. rewrite length_app. split; [simpl; lia|].
    apply Forall_app. by split; [|apply Forall_singleton].
Qed.

(** An entry at the end of the second message. *)
Lemma holds_push2 k w m1 m2 v out b bytes :
  holds k w out -> w.(w_conn).(cn_msgs) = [m1; m2] ->
  mem_read w v.(iov_base) v.(iov_len) = Some b -> 0 < v.(iov_len) ->
  holds (k + 1) (with_msgs w (w.(w_conn).(cn_iovused) + 1) bytes [m1; m2 ++ [v]]) (out ++ b).
Proof.
  intros [Hb Hu Hs _] Hm Hv Hlen. rewrite Hm in *. constructor; unfold with_msgs; proj.
  - rewrite (msgs_bytes_same w) by done. by apply (msgs_bytes_snoc w [m1]).
  - lia.
  - by apply (sizes_snoc w [m1]).
  - right. by exists m1, (m2 ++ [v]).
Qed.

(** An entry at the end of the only message. *)
Lemma holds_push1 k w m v out b :
  holds k w out -> w.(w_conn).(cn_msgs) = [m] ->
  mem_read w v.(iov_base) v.(iov_len) = Some b -> 0 < v.(iov_len) ->
  Z.of_nat (length (out ++ b)) <= UDP_MAX_PAYLOAD_SIZE ->
  holds (k + 1) (with_msgs w (w.(w_conn).(cn_iovused) + 1) (Z.of_nat (length (out ++ b))) [m ++ [v]]) (out ++ b).
Proof.
  intros [Hb Hu Hs _] Hm Hv Hlen Hmax. rewrite Hm in *. constructor; unfold with_msgs; proj.
  - rewrite (msgs_bytes_same w) by done. by apply (msgs_bytes_snoc w []).
  - lia.
  - by apply (sizes_snoc w []).
  - left. by exists (m ++ [v]).
Qed.

(** A second message. *)
Lemma holds_hdr k w m out :
  holds k w out -> w.(w_conn).(cn_msgs) = [m] ->
  holds k (with_msgs w w.(w_conn).(cn_iovused) 0 [m; []]) out.
Proof.
  intros [Hb Hu Hs _] Hm. rewrite Hm in *. constructor; unfold with_msgs; proj.
  - rewrite (msgs_bytes_same w) by done. exact Hb.
  - lia.
  - constructor; [by inversion Hs|]. apply Forall_singleton.
    split; [simpl; lia|constructor].
  - right. by exists m, [].
Qed.

(** The messages of [w'] hold [out], and the rest of [w'] is that of [w]. *)
Definition extends (k : Z) w (out : list Z) w' : Prop :=
  (exists used bytes l, w' = with_msgs w used bytes l) /\ holds k w' out.

Lemma holds_sizes k w out m : holds k w out -> m ∈ w.(w_conn).(cn_msgs) -> Z.of_nat (length m) <= k.
Proof.
  intros [_ Hu Hs _] Hm. rewrite Forall_forall in Hs. destruct (Hs m Hm) as [? _]. lia.
Qed.

Lemma iov_loop2 fuel k w m1 m2 buf n out b :
  holds k w out -> roomy w -> k < 100 -> w.(w_conn).(cn_msgs) = [m1; m2] -> 0 < n < 2 ^ 32 ->
  mem_read w buf n = Some b ->
  runs (add_iov_loop (Datatypes.S fuel) buf n) w (fun r w' => r = 0 /\ extends (k + 1) w (out ++ b) w').
Proof.
  intros Hh Hr Hk Hm Hn Hb. cbn [add_iov_loop]. unfold last_msg. run; [by rewrite Hm|].
  unfold id. rewrite Hm. pose proof (holds_sizes _ _ _ m2 Hh ltac:(rewrite Hm; set_solver)) as Hsz.
  rewrite (proj2 (Z.eqb_neq (Z.of_nat (length m2)) IOV_MAX)) by (unfold IOV_MAX; lia).
  change (Z.of_nat (length [m1; m2]) =? 1) with false. cbn [orb andb when]. run.
  apply ensure_run; [done|destruct Hh; lia|]. run. cbn [Z.eqb negb]. run.
  cbn [andb]. rewrite Z.sub_0_r, u64_small by lia.
  eapply (push_iov_run w _ m2 [m1]); [done|]. run. cbn [Z.ltb Z.compare]. run. split; [done|]. split.
  - by eexists _, _, _.
  - cbn [app]. by apply (holds_push2 k w m1 m2 (mk_iovec buf n)); [| | |cbn; lia].
Qed.

Lemma extends_with k w u y l out w' : extends k (with_msgs w u y l) out w' -> extends k w out w'.
Proof. intros [(u' & y' & l' & ->) Hh]. split; [by exists u', y', l'|done]. Qed.

Lemma iov_loop_full fuel k w m buf n out b :
  holds k w out -> roomy w -> k < 90 -> w.(w_conn).(cn_msgs) = [m] ->
  Z.of_nat (length out) = UDP_MAX_PAYLOAD_SIZE -> 0 < n < 2 ^ 32 ->
  mem_read w buf n = Some b ->
  runs (add_iov_loop (Datatypes.S (Datatypes.S fuel)) buf n) w
    (fun r w' => r = 0 /\ extends (k + 2) w (out ++ b) w').
Proof.
  intros Hh Hr Hk Hm Hfull Hn Hb. cbn [add_iov_loop]. unfold last_msg. run; [by rewrite Hm|].
  unfold id. rewrite Hm.
  assert (Hbytes : w.(w_conn).(cn_msgbytes) = UDP_MAX_PAYLOAD_SIZE).
  { destruct (hd_shape _ _ _ Hh) as [(m' & _ & -> & _)|(m1 & m2 & Hm')]; [done|congruence]. }
  rewrite Hbytes. change (Z.of_nat (length [m]) =? 1) with true. cbn [andb]. rewrite Z.leb_refl, orb_true_r.
  cbn [when]. run. apply add_msghdr_run; [done|rewrite Hm; simpl; lia|]. run. rewrite Hm. cbn [app].
  pose proof (holds_hdr _ _ _ _ Hh Hm) as Hh1. set (w1 := with_msgs w _ 0 [m; []]) in *.
  apply ensure_run; [done|destruct Hh; cbn; lia|]. run. cbn [Z.eqb negb]. run.
  replace (w_conn w1).(cn_msgbytes) with 0 by done. rewrite Z.add_0_r, (u64_small n) by lia.
  cbn [andb].
  assert (Hb1 : mem_read w1 buf n = Some b) by (by rewrite (mem_read_same w)).
  destruct (Z.ltb_spec UDP_MAX_PAYLOAD_SIZE n) as [Hbig|Hsmall].
  - unfold UDP_MAX_PAYLOAD_SIZE in *. rewrite (u64_small (n - 1400)) by lia.
    replace (n - (n - 1400)) with 1400 by lia. rewrite (u64_small 1400) by lia.
    eapply (push_iov_run w1 _ [] [m]); [done|]. run. cbn [app].
    rewrite (proj2 (Z.ltb_lt 0 (n - 1400))) by lia.
    destruct (mem_read_split _ _ _ _ 1400 Hb1 ltac:(lia)) as [Hl Hr1].
    pose proof (holds_push2 k w1 m [] (mk_iovec buf 1400) out _
      (swrap 32 (0 + swrap 32 1400)) Hh1 eq_refl Hl ltac:(cbn; lia)) as Hh2.
    cbn [app] in Hh2. set (w2 := with_msgs w1 _ _ _) in *.
    eapply runs_mono.
    { eapply (iov_loop2 fuel (k + 1) w2 m [mk_iovec buf 1400]); [exact Hh2|done|lia|done|lia|].
      rewrite (mem_read_same w1) by done. exact Hr1. }
    intros r w' [-> Hx]. split; [done|]. apply extends_with in Hx. unfold w1 in Hx. apply extends_with in Hx.
    rewrite <- app_assoc, take_drop in Hx. by replace (k + 1 + 1) with (k + 2) in Hx by lia.
  - cbn [Z.ltb Z.compare]. rewrite Z.sub_0_r, u64_small by lia.
    eapply (push_iov_run w1 _ [] [m]); [done|]. run. split; [done|]. split.
    + by eexists _, _, _.
    + eapply holds_weaken; [apply (holds_push2 k w1 m [] (mk_iovec buf n)); [done|done|done|cbn; lia]|lia].
Qed.

Lemma add_iov_run k w buf n out b :
  holds k w out -> roomy w -> k < 80 -> 0 <= n < 2 ^ 32 -> mem_read w buf n = Some b ->
  runs (add_iov buf n) w (fun r w' => r = 0 /\ extends (k + 3) w (out ++ b) w').
Proof.
  intros Hh Hr Hk Hn Hb. unfold add_iov. destruct (Z.eqb_spec n 0) as [->|Hn0].
  { run. split; [done|]. apply mem_read_length in Hb. destruct b; [|simpl in Hb; lia]. rewrite app_nil_r.
    split; [|eapply holds_weaken; [done|lia]].
    exists w.(w_conn).(cn_iovused), w.(w_conn).(cn_msgbytes), w.(w_conn).(cn_msgs). by destruct w as [[]]. }
  destruct (hd_shape _ _ _ Hh) as [(m & Hm & Hbytes & Hmax)|(m1 & m2 & Hm)].
  2:{ eapply runs_mono; [apply (iov_loop2 2 k w m1 m2 buf n out b); [done|done|lia|done|lia|done]|].
      intros r w' [-> [He Hx]]. split; [done|]. split; [done|]. eapply holds_weaken; [done|lia]. }
  destruct (Z.eq_dec (Z.of_nat (length out)) UDP_MAX_PAYLOAD_SIZE) as [Hfull|Hpart].
  { eapply runs_mono; [apply (iov_loop_full 1 k w m buf n out b); [done|done|lia|done|done|lia|done]|].
    intros r w' [-> [He Hx]]. split; [done|]. split; [done|]. eapply holds_weaken; [done|lia]. }
  pose proof (holds_sizes _ _ _ m Hh ltac:(rewrite Hm; set_solver)) as Hsz.
  unfold UDP_MAX_PAYLOAD_SIZE in *. cbn [add_iov_loop]. unfold last_msg. run; [by rewrite Hm|]. unfold id.
  rewrite Hm, Hbytes. rewrite (proj2 (Z.eqb_neq (Z.of_nat (length m)) IOV_MAX)) by (unfold IOV_MAX; lia).
  change (Z.of_nat (length [m]) =? 1) with true. cbn [orb andb].
  rewrite (proj2 (Z.leb_gt UDP_MAX_PAYLOAD_SIZE _)) by (unfold UDP_MAX_PAYLOAD_SIZE; lia). cbn [when]. run.
  apply ensure_run; [done|destruct Hh; lia|]. run. cbn [Z.eqb negb]. run. rewrite Hbytes.
  pose proof (mem_read_length _ _ _ _ Hb) as Hlen. rewrite (u64_small (n + _)) by lia.
  assert (Hsw : forall x y, 0 <= x -> 0 <= y -> x + y < 2 ^ 31 -> swrap 32 (x + swrap 32 y) = x + y)
    by (intros x y Hx Hy Hxy; rewrite (swrap_small y) by lia; apply swrap_small; lia).
  unfold UDP_MAX_PAYLOAD_SIZE. destruct (Z.ltb_spec 1400 (n + Z.of_nat (length out))) as [Hbig|Hsmall].
  - rewrite (u64_small (n + Z.of_nat (length out) - 1400)) by lia. set (p := 1400 - Z.of_nat (length out)).
    replace (n - (n + Z.of_nat (length out) - 1400)) with p by lia. rewrite (u64_small p) by lia.
    replace (n + Z.of_nat (length out) - 1400) with (n - p) by lia.
    eapply (push_iov_run w _ m []); [done|]. run. rewrite (proj2 (Z.ltb_lt 0 (n - p))) by lia. cbn [app].
    destruct (mem_read_split _ _ _ _ p Hb ltac:(lia)) as [Hl Hr1].
    assert (Hlp : Z.of_nat (length (out ++ take (Z.to_nat p) b)) = 1400)
      by (rewrite length_app, length_take; lia).
    pose proof (holds_push1 k w m (mk_iovec buf p) out _ Hh Hm Hl ltac:(cbn; lia)
      ltac:(unfold UDP_MAX_PAYLOAD_SIZE; lia)) as Hh2.
    cbn [iov_len]. rewrite Hbytes, Hsw by lia. rewrite Hlp in Hh2.
    replace (Z.of_nat (length out) + p) with 1400 by lia. set (w2 := with_msgs w _ _ _) in *.
    eapply runs_mono.
    { eapply (iov_loop_full 0 (k + 1) w2); [exact Hh2|done|lia|done|unfold UDP_MAX_PAYLOAD_SIZE; lia|lia|].
      rewrite (mem_read_same w) by done. exact Hr1. }
    intros r w' [-> Hx]. split; [done|]. apply extends_with in Hx.
    rewrite <- app_assoc, take_drop in Hx. by replace (k + 1 + 2) with (k + 3) in Hx by lia.
  - cbn [Z.ltb Z.compare]. rewrite Z.sub_0_r, (u64_small n) by lia.
    eapply (push_iov_run w _ m []); [done|]. run. split; [done|]. split; [by eexists _, _, _|].
    pose proof (holds_push1 k w m (mk_iovec buf n) out b Hh Hm Hb ltac:(cbn; lia)
      ltac:(unfold UDP_MAX_PAYLOAD_SIZE; rewrite length_app; lia)) as Hh2.
    cbn [iov_len app]. rewrite Hbytes, Hsw by lia. rewrite length_app in Hh2.
    replace (Z.of_nat (length out) + n) with (Z.of_nat (length out + length b)) by lia.
    eapply holds_weaken; [exact Hh2|lia].
Qed.

(** ** The invariant of an open connection *)

Record alive w : Prop := {
  al_rsize : Z.of_nat (length w.(w_conn).(cn_rbuf)) = w.(w_conn).(cn_rsize);
  al_size : DATA_BUFFER_SIZE <= w.(w_conn).(cn_rsize) <= 2 ^ 30;
  al_pos : 0 <= w.(w_conn).(cn_rcurr) /\ 0 <= w.(w_conn).(cn_rbytes) /\
           w.(w_conn).(cn_rcurr) + w.(w_conn).(cn_rbytes) <= w.(w_conn).(cn_rsize);
  al_wbuf : length w.(w_conn).(cn_wbuf) = 2048%nat;
  al_event : w.(w_conn).(cn_registered) = true /\ w.(w_conn).(cn_open) = true;
  al_roomy : roomy w;
  al_ilist : w.(w_conn).(cn_ilist) = [];
  al_dyn : w.(w_conn).(cn_dyn_buffer) = None;
  al_aiostat : w.(w_conn).(cn_aiostat) = ENGINE_SUCCESS;
  al_block : w.(w_conn).(cn_ewouldblock) = false
}.

(** The connection can be closed: its event is registered and the engine can release its
    item. *)
Definition closable w : Prop :=
  w.(w_conn).(cn_registered) = true /\ w.(w_conn).(cn_open) = true /\ w.(w_conn).(cn_ilist) = [] /\
  (w.(w_conn).(cn_item) = NULL \/ is_Some (v1_release w.(w_conn).(cn_item) w.(w_engine))).

Lemma alive_closable w : alive w -> w.(w_conn).(cn_item) = NULL -> closable w.
Proof. intros Ha Hi. destruct (al_event _ Ha). split; [done|]. split; [done|]. split; [apply Ha|by left]. Qed.

Definition server_of w : server S :=
  mk_server w.(w_engine) w.(w_conn).(cn_supports_datatype) w.(w_verbose) w.(w_session_value).

(** What a handler does not touch. *)
Definition outside w :=
  (w.(w_conn).(cn_rbuf), w.(w_conn).(cn_rcurr), w.(w_conn).(cn_rsize), w.(w_conn).(cn_rbytes),
   w.(w_conn).(cn_admin), w.(w_conn).(cn_sasl_user), w.(w_conn).(cn_max_reqs_per_event),
   w.(w_conn).(cn_nevents), w.(w_in), w.(w_out), w.(w_session_ctr)).

(** After a response [n] bytes of the input are skipped. An item that is kept is
    released before the next request. *)
Definition goes_on w (n : Z) : Prop :=
  (w.(w_conn).(cn_write_and_go) = F_swallow /\ w.(w_conn).(cn_sbytes) = n /\ 0 <= n < 2 ^ 32)
  \/ (w.(w_conn).(cn_write_and_go) = F_new_cmd /\ n = 0).

Definition next_ok w (nx : next) : Prop :=
  match nx with
  | Continue => goes_on w 0
  | Skip n => goes_on w n /\ w.(w_conn).(cn_item) = NULL
  | Shut => w.(w_conn).(cn_write_and_go) = F_closing /\ w.(w_conn).(cn_item) = NULL
  end.

(** The bytes [out] are ready to be sent. *)
Definition replying w (out : list Z) : Prop :=
  w.(w_conn).(cn_msgcurr) = 0 /\
  ((w.(w_conn).(cn_state) = F_mwrite /\ holds 60 w out)
   \/ (w.(w_conn).(cn_state) = F_write /\ holds 0 w [] /\ 0 <= w.(w_conn).(cn_wbytes) < 2 ^ 32 /\
       mem_read w w.(w_conn).(cn_wcurr) w.(w_conn).(cn_wbytes) = Some out)).

(** The handler that ran from [w] to [w'] gave the answer [a]. *)
Record answered w (a : answer) w' : Prop := {
  as_alive : alive w';
  as_outside : outside w' = outside w;
  as_item : w'.(w_conn).(cn_item) = a.(an_item);
  as_how : (replying w' a.(an_out) /\ next_ok w' a.(an_next))
           \/ (w'.(w_conn).(cn_state) = F_new_cmd /\ a.(an_out) = [] /\ a.(an_next) = Continue /\ goes_on w' 0)
           \/ (w'.(w_conn).(cn_state) = F_closing /\ a = mk_answer [] NULL Shut)
}.

(** The request [h] is being handled; [cas] is the CAS of its response and [it] the
    item of an update. *)
Record ready w (h : request_header) (cmd : Z) (quiet : bool) (cas it : Z) : Prop := {
  rd_alive : alive w;
  rd_header : w.(w_conn).(cn_header) = h;
  rd_ok : req_ok h;
  rd_opaque : w.(w_conn).(cn_opaque) = h.(rh_opaque);
  rd_cmd : w.(w_conn).(cn_cmd) = cmd;
  rd_quiet : w.(w_conn).(cn_noreply) = quiet;
  rd_cas : w.(w_conn).(cn_cas) = cas;
  rd_item : w.(w_conn).(cn_item) = it;
  rd_sbytes : w.(w_conn).(cn_sbytes) = 0;
  rd_go : goes_on w 0;
  rd_msgs : holds 0 w [];
  rd_msgcurr : w.(w_conn).(cn_msgcurr) = 0
}.

(** A handler whose result is compared with the reference. *)
Definition answers (m : D unit) w (r : M (server S) answer) : Prop :=
  forall a s, r (server_of w) = Some (a, s) ->
  runs m w (fun _ w' => answered w a w' /\ server_of w' = s).

(** ** Headers *)

Definition header_world w (err hdr_len key_len body_len datatype : Z) : world S :=
  let c := w.(w_conn) in
  let hdr := response_header c.(cn_header).(rh_opcode) key_len hdr_len datatype err body_len
               c.(cn_opaque) c.(cn_cas) in
  set_w_conn (set_cn_iovused 1 (set_cn_msgbytes 24 (set_cn_msgs [[mk_iovec (A_wbuf 0) 24]]
    (set_cn_wbuf (hdr ++ drop 24 c.(cn_wbuf)) (set_cn_msgcurr 0 c))))) w.

Lemma add_bin_header_run w err hdr_len key_len body_len datatype (Q : Z -> world S -> Prop) :
  roomy w -> length w.(w_conn).(cn_wbuf) = 2048%nat -> length w.(w_conn).(cn_opaque) = 4%nat ->
  Q 0 (header_world w err hdr_len key_len body_len datatype) ->
  runs (add_bin_header err hdr_len key_len body_len datatype) w Q.
Proof.
  intros Hr Hwb Ho HQ. unfold add_bin_header. run.
  apply add_msghdr_run; [done|proj; simpl; lia|]. run. cbn [Z.eqb negb]. run; unfold id; proj.
  { apply splice_Some; [lia|]. rewrite response_header_length by done. unfold with_msgs; proj. rewrite Hwb. lia. }
  rewrite response_header_length by done. cbn [Z.to_nat take app Nat.add].
  unfold add_iov. cbn [Z.eqb]. cbn [add_iov_loop]. unfold last_msg. run; [done|]. unfold id.
  match goal with |- runs (when ?b _) _ _ => change b with false end. cbn [when]. run.
  apply ensure_run; [done|unfold with_msgs; proj; lia|]. run. cbn [Z.eqb negb]. run.
  match goal with |- context [if ?b then u64 _ else 0] => change b with false end.
  change (u64 (24 - 0)) with 24.
  eapply (push_iov_run _ _ [] []); [done|]. run. cbn [Z.ltb Z.compare]. run. exact HQ.
Qed.

(** The header is the first part of a message. *)
Lemma header_holds w err hdr_len key_len body_len datatype :
  length w.(w_conn).(cn_wbuf) = 2048%nat -> length w.(w_conn).(cn_opaque) = 4%nat ->
  holds 1 (header_world w err hdr_len key_len body_len datatype)
    (response_header w.(w_conn).(cn_header).(rh_opcode) key_len hdr_len datatype err body_len
       w.(w_conn).(cn_opaque) w.(w_conn).(cn_cas)).
Proof.
  intros Hwb Ho. constructor; unfold header_world; proj.
  - cbn [msgs_bytes msg_bytes iov_base iov_len mem_read]. proj.
    rewrite slice_app_l by (rewrite response_header_length by done; lia).
    rewrite slice_all by (by rewrite response_header_length). cbn. by rewrite !app_nil_r.
  - lia.
  - constructor; [|constructor]. split; [simpl; lia|]. repeat constructor. 
  - left. eexists. split; [done|]. rewrite response_header_length by done. unfold UDP_MAX_PAYLOAD_SIZE. lia.
Qed.
End reply.
