(* ===== verification/Handlers.v ===== *)
(** * The handlers of the daemon answer as [Serve] says

    Every handler of a request, started with the request in the read buffer, leaves the
    response of the reference in the messages or in the dynamic buffer of the
    connection, and changes the engine as the reference does. *)
From Stdlib Require Import ZArith Lia.
From stdpp Require Import strings gmap prelude.
From S2P Require Import Prelude Util EngineState DefaultEngine JsonChecker Snappy Protocol Conn Daemon Serve Reply.

#[local] Set Warnings "-clear-no-such-hyp".

Lemma runs_and {S A} (m : M S A) s (P Q : A -> S -> Prop) :
  runs m s P -> runs m s Q -> runs m s (fun a s' => P a s' /\ Q a s').
Proof. intros (a & s' & Hm & HP) HQ. exists a, s'. split; [done|]. split; [done|]. by eapply runs_Some. Qed.

Section handlers.
Context {S : Type} {EV : EngineV1 S} {SY : Sys} {ST : Settings} {SN : Snappy} {SOK : Provided}.

Abbreviation D := (M (world S)).
Implicit Types w : world S.

(** ** Responses that do not point into the engine *)

Definition local_addr (a : addr) : Prop :=
  match a with A_data _ _ | A_key _ _ => False | _ => True end.

Definition detached w : Prop :=
  Forall (Forall (fun v => local_addr v.(iov_base))) w.(w_conn).(cn_msgs) /\
  (w.(w_conn).(cn_state) = F_write -> local_addr w.(w_conn).(cn_wcurr)).

(** Another state of the engine and another item. *)
Definition relabel (e : S) (it : Z) w : world S :=
  set_w_engine e (set_w_conn (set_cn_item it w.(w_conn)) w).

Lemma mem_read_relabel e it w a n : local_addr a -> mem_read (relabel e it w) a n = mem_read w a n.
Proof. by destruct a. Qed.

Lemma msgs_bytes_relabel e it w l : Forall (Forall (fun v => local_addr v.(iov_base))) l ->
  msgs_bytes (relabel e it w) l = msgs_bytes w l.
Proof.
  induction 1 as [|m l Hm _ IH]; [done|]. cbn [msgs_bytes]. rewrite IH. f_equal.
  induction Hm as [|v m Hv _ IHm]; [done|]. cbn [msg_bytes]. by rewrite IHm, mem_read_relabel.
Qed.

Lemma replying_relabel e it w out : detached w -> replying w out -> replying (relabel e it w) out.
Proof.
  intros [Hd Hc] [Hm Hr]. split; [done|].
  assert (Hh : forall k o, holds k w o -> holds k (relabel e it w) o).
  { intros k o [H1 H2 H3 H4]. constructor; try done. by rewrite msgs_bytes_relabel. }
  destruct Hr as [[? ?]|(? & ? & ? & Hb)]; [left; auto|right].
  split; [done|]. split; [auto|]. split; [done|]. etrans; [apply mem_read_relabel; auto|]; done.
Qed.

(** A response with nothing in it yet. *)
Lemma holds_empty w w' :
  holds 0 w [] -> w'.(w_conn).(cn_msgs) = w.(w_conn).(cn_msgs) ->
  w'.(w_conn).(cn_iovused) = w.(w_conn).(cn_iovused) ->
  w'.(w_conn).(cn_msgbytes) = w.(w_conn).(cn_msgbytes) -> holds 0 w' [].
Proof.
  intros [H1 H2 H3 H4] E1 E2 E3. constructor; rewrite ?E1, ?E2, ?E3; [|done..].
  clear H4. revert H1 H3. generalize (cn_msgs (w_conn w)) as l.
  induction l as [|m l IH]; intros Hb Hs; [done|]. inversion Hs as [|? ? [Hl _] Hs']; subst.
  destruct m; [|simpl in Hl; lia]. cbn [msgs_bytes msg_bytes mbind option_bind app] in *.
  destruct (msgs_bytes w l) as [b|]; [|done]. cbn in Hb. injection Hb as ->. by rewrite IH.
Qed.

(** The fields that [holds] depends on. *)
Definition messages w :=
  (memory w, w.(w_conn).(cn_msgs), w.(w_conn).(cn_iovused), w.(w_conn).(cn_msgbytes)).

Lemma holds_same k w w' out : messages w' = messages w -> holds k w out -> holds k w' out.
Proof.
  intros [[[Hmem E1]%pair_eq E2]%pair_eq E3]%pair_eq [H1 H2 H3 H4].
  constructor; rewrite ?E1, ?E2, ?E3; [|assumption..]. by rewrite (msgs_bytes_same w).
Qed.

(** ** What a function that writes a response leaves *)

Record wrote w (out : list Z) (go : state_func) (n : Z) w' : Prop := {
  wr_alive : alive w';
  wr_outside : outside w' = outside w;
  wr_server : server_of w' = server_of w;
  wr_item : w'.(w_conn).(cn_item) = w.(w_conn).(cn_item);
  wr_replying : replying w' out;
  wr_go : w'.(w_conn).(cn_write_and_go) = go;
  wr_sbytes : w'.(w_conn).(cn_sbytes) = n
}.

(** The fields that [alive] depends on. *)
Definition vitals w :=
  ((w.(w_conn).(cn_rbuf), w.(w_conn).(cn_rcurr), w.(w_conn).(cn_rsize), w.(w_conn).(cn_rbytes)),
   w.(w_conn).(cn_wbuf), w.(w_conn).(cn_registered), w.(w_conn).(cn_open), w.(w_conn).(cn_msgsize),
   w.(w_conn).(cn_iovsize), w.(w_conn).(cn_ilist), w.(w_conn).(cn_dyn_buffer), w.(w_conn).(cn_aiostat),
   w.(w_conn).(cn_ewouldblock)).

Lemma alive_same w w' : vitals w' = vitals w -> alive w -> alive w'.
Proof.
  unfold vitals. intros E [H1 H2 H3 H4 [H5 H5'] [H6 H6'] H7 H8 H9 H10].
  injection E as E1 E2 E3 E4 E5 E6 E7 E8 E9 E10 E11 E12 E13.
  constructor; unfold roomy;
    rewrite ?E1, ?E2, ?E3, ?E4, ?E5, ?E6, ?E7, ?E8, ?E9, ?E10, ?E11, ?E12, ?E13; auto.
Qed.

Lemma add_iov_short w m buf n :
  roomy w -> w.(w_conn).(cn_msgs) = [m] -> w.(w_conn).(cn_iovused) < 80 -> Z.of_nat (length m) < 80 ->
  0 <= n -> 0 <= w.(w_conn).(cn_msgbytes) -> w.(w_conn).(cn_msgbytes) + n < UDP_MAX_PAYLOAD_SIZE ->
  runs (add_iov buf n) w (fun _ w' => exists l,
    w'.(w_conn).(cn_msgs) = [m ++ l] /\ Forall (fun v => v.(iov_base) = buf) l).
Proof.
  unfold UDP_MAX_PAYLOAD_SIZE. intros Hr Hm Hu Hl Hn Hb Hmax. unfold add_iov.
  destruct (Z.eqb_spec n 0) as [->|Hn0]; [run; exists []; by rewrite app_nil_r|].
  cbn [add_iov_loop]. unfold last_msg. run; [by rewrite Hm|]. unfold id. rewrite Hm.
  rewrite (proj2 (Z.eqb_neq (Z.of_nat (length m)) IOV_MAX)) by (unfold IOV_MAX; lia).
  change (Z.of_nat (length [m]) =? 1) with true. cbn [orb andb].
  rewrite (proj2 (Z.leb_gt UDP_MAX_PAYLOAD_SIZE _)) by (unfold UDP_MAX_PAYLOAD_SIZE; lia). cbn [when]. run.
  apply ensure_run; [done|lia|]. run. cbn [Z.eqb negb]. run. rewrite (u64_small (n + _)) by lia.
  rewrite (proj2 (Z.ltb_ge UDP_MAX_PAYLOAD_SIZE _)) by (unfold UDP_MAX_PAYLOAD_SIZE; lia).
  eapply (push_iov_run w _ m []); [done|]. run. cbn [Z.ltb Z.compare]. run. cbn [app]. eexists [_]. split; [done|]. by repeat constructor.
Qed.

(** The texts of the status codes are short. *)
Lemma errcode_text_short err : Z.of_nat (length (memcached_protocol_errcode_2_text err)) <= 100.
Proof.
  unfold memcached_protocol_errcode_2_text.
  assert (Hf : forall l, Forall (fun p : Z * string => Z.of_nat (length (bytes_of p.2)) <= 100) l ->
    Z.of_nat (length (bytes_of (find_text l err))) <= 100).
  { intros l. induction 1 as [|[e s] l Hs _ IH]; cbn [find_text]; [vm_compute; congruence|].
    by destruct (e =? err). }
  apply Hf. unfold errcode_texts. repeat (constructor; [vm_compute; congruence|]). constructor.
Qed.

Lemma alive_header w err hl kl bl dt :
  alive w -> length w.(w_conn).(cn_opaque) = 4%nat -> alive (header_world w err hl kl bl dt).
Proof.
  intros Ha Ho. destruct Ha. constructor; unfold header_world; proj; try done.
  rewrite length_app, response_header_length, length_drop by done. lia.
Qed.

(** The fields that are set up for a request. *)
Definition setup w :=
  (w.(w_conn).(cn_header), w.(w_conn).(cn_opaque), w.(w_conn).(cn_sbytes), w.(w_conn).(cn_write_and_go),
   w.(w_conn).(cn_msgs), w.(w_conn).(cn_iovused), w.(w_conn).(cn_msgbytes), w.(w_conn).(cn_msgcurr)).

(** Worlds that agree on some fields. *)
Ltac same :=
  unfold vitals, messages, memory, outside, setup, server_of, relabel, with_msgs, header_world; proj; reflexivity.

(** A header and a short part that follows it. *)
Lemma header_part w h cmd quiet cas it err hl kl dlen dt a b :
  ready w h cmd quiet cas it -> 0 <= dlen < 2 ^ 32 ->
  mem_read (header_world w err hl kl dlen dt) a dlen = Some b ->
  runs (add_iov a dlen) (header_world w err hl kl dlen dt) (fun r w' => r = 0 /\
    extends 60 (header_world w err hl kl dlen dt)
      (response_header h.(rh_opcode) kl hl dt err dlen h.(rh_opaque) cas ++ b) w' /\
    (local_addr a -> dlen <= 1000 -> exists l, w'.(w_conn).(cn_msgs) = [mk_iovec (A_wbuf 0) 24 :: l] /\
       Forall (fun v => local_addr v.(iov_base)) l)).
Proof.
  intros Hw Hd Hb. set (w1 := header_world _ _ _ _ _ _) in *.
  assert (Hh : holds 1 w1 (response_header h.(rh_opcode) kl hl dt err dlen h.(rh_opaque) cas)).
  { destruct Hw as [Ha <- Hok Ho _ _ <- _ _ _ _ _]. destruct Hok. rewrite <- Ho.
    apply header_holds; [apply Ha|]. congruence. }
  assert (Hr : roomy w1) by (destruct Hw as [[] ? ? ? ? ? ? ? ? ? ? ?]; done).
  assert (HP := add_iov_run 1 w1 a dlen _ b Hh Hr ltac:(lia) Hd Hb).
  destruct (Z.leb_spec dlen 1000) as [Hs|Hs].
  - assert (HQ := add_iov_short w1 [mk_iovec (A_wbuf 0) 24] a dlen Hr eq_refl
      ltac:(unfold w1, header_world; proj; lia) ltac:(simpl; lia) ltac:(lia)
      ltac:(unfold w1, header_world; proj; lia) ltac:(unfold w1, header_world, UDP_MAX_PAYLOAD_SIZE; proj; lia)).
    eapply runs_mono; [exact (runs_and _ _ _ _ HP HQ)|]. intros r w' [[-> [He Hx]] (l & Hl & Hf)].
    split; [done|]. split; [split; [done|eapply holds_weaken; [done|lia]]|].
    intros Hloc _. exists l. split; [done|]. eapply Forall_impl; [exact Hf|]. by intros v ->.
  - eapply runs_mono; [exact HP|]. intros r w' [-> [He Hx]].
    split; [done|]. split; [split; [done|eapply holds_weaken; [done|lia]]|]. lia.
Qed.

(** The messages of the last lemma, once the state is set. *)
Lemma wrote_part w h cmd quiet cas it err hl kl dlen dt out w1 go n :
  ready w h cmd quiet cas it -> extends 60 (header_world w err hl kl dlen dt) out w1 ->
  wrote w out go n (set_w_conn (set_cn_state F_mwrite (set_cn_write_and_go go (set_cn_sbytes n w1.(w_conn)))) w1).
Proof.
  intros Hw [(u & y & l & ->) Hh].
  pose proof (alive_header w err hl kl dlen dt (rd_alive _ _ _ _ _ _ Hw)) as Ha.
  assert (Ho : length w.(w_conn).(cn_opaque) = 4%nat) by (destruct Hw as [? ? [] -> ? ? ? ? ? ? ? ?]; done).
  specialize (Ha Ho). constructor; try same.
  - eapply alive_same; [|exact Ha]. same.
  - split; [same|]. left. split; [same|]. eapply holds_same; [|exact Hh]. same.
Qed.

Lemma ready_opaque w h cmd quiet cas it : ready w h cmd quiet cas it -> length w.(w_conn).(cn_opaque) = 4%nat.
Proof. intros [? ? [] -> ? ? ? ? ? ? ? ?]. done. Qed.

(** The response of a status other than NOT_MY_VBUCKET. *)
Lemma write_bin_packet_run w h cmd quiet cas it err n :
  ready w h cmd quiet cas it -> err <> PROTOCOL_BINARY_RESPONSE_NOT_MY_VBUCKET ->
  runs (write_bin_packet err n) w (fun _ w' =>
    wrote w (status h err cas) (if 0 <? n then F_swallow else F_new_cmd) (if 0 <? n then n else 0) w' /\
    detached w').
Proof.
  intros Hw Herr. unfold write_bin_packet. rewrite (proj2 (Z.eqb_neq _ _) Herr).
  set (text := if err =? _ then [] else _).
  assert (Ht : Z.of_nat (length text) <= 100).
  { unfold text. destruct (err =? _); [simpl; lia|apply errcode_text_short]. }
  apply runs_bind, add_bin_header_run; [apply Hw|apply Hw|by eapply ready_opaque|]. run.
  eapply runs_mono.
  { eapply (header_part w h cmd quiet cas it _ _ _ _ _ _ text); [done|lia|].
    cbn [mem_read]. by apply slice_all. }
  intros r w1 (-> & Hx & Hl). specialize (Hl I ltac:(lia)) as (l & Hl & Hf).
  pose proof (wrote_part w h cmd quiet cas it _ _ _ _ _ _ w1 (if 0 <? n then F_swallow else F_new_cmd)
    (if 0 <? n then n else 0) Hw Hx) as Hwr.
  assert (Hsb : w1.(w_conn).(cn_sbytes) = 0).
  { destruct Hx as [(u & y & l' & ->) _]. unfold with_msgs, header_world; proj. apply Hw. }
  assert (Hdet : Forall (Forall (fun v => local_addr v.(iov_base))) w1.(w_conn).(cn_msgs)).
  { rewrite Hl. constructor; [|constructor]. by constructor. }
  run. destruct (0 <? n); run.
  - split; [exact Hwr|]. by split.
  - split; [|by split]. destruct w1 as [[]]. cbn in Hsb. subst. exact Hwr.
Qed.

(** The response of a success. *)
Lemma write_bin_response_run w h cmd quiet cas it d value :
  ready w h cmd quiet cas it -> Z.of_nat (length value) < 2 ^ 32 ->
  mem_read (header_world w 0 0 0 (Z.of_nat (length value)) 0) d (Z.of_nat (length value)) = Some value ->
  quiet = false \/ is_get cmd = true ->
  runs (write_bin_response d 0 0 (Z.of_nat (length value))) w (fun _ w' =>
    wrote w (response h 0 0 cas [] [] value) F_new_cmd 0 w' /\
    (local_addr d -> Z.of_nat (length value) <= 1000 -> detached w')).
Proof.
  intros Hw Hlen Hd Hq. unfold write_bin_response. run. unfold id.
  rewrite (rd_quiet _ _ _ _ _ _ Hw), (rd_cmd _ _ _ _ _ _ Hw).
  replace (negb quiet || is_get cmd) with true by (destruct Hq as [-> | ->]; [done|by rewrite orb_true_r]).
  apply runs_bind, add_bin_header_run; [apply Hw|apply Hw|by eapply ready_opaque|]. cbn [Z.eqb]. run.
  eapply runs_mono; [by eapply (header_part w h cmd quiet cas it _ _ _ _ _ _ value); [|lia|]|].
  intros r w1 (-> & Hx & Hl). 
  pose proof (wrote_part w h cmd quiet cas it _ _ _ _ _ _ w1 F_new_cmd 0 Hw Hx) as Hwr.
  assert (Hsb : w1.(w_conn).(cn_sbytes) = 0).
  { destruct Hx as [(u & y & l' & ->) _]. unfold with_msgs, header_world; proj. apply Hw. }
  run. split.
  - destruct w1 as [[]]. cbn in Hsb. subst. exact Hwr.
  - intros Hloc Hs. destruct (Hl Hloc Hs) as (l & Hm & Hf). split; [|done].
    proj. rewrite Hm. constructor; [|constructor]. by constructor.
Qed.

Lemma response_empty w h cmd cas it :
  ready w h cmd false cas it ->
  runs (write_bin_response A_null 0 0 0) w (fun _ w' =>
    wrote w (response h 0 0 cas [] [] []) F_new_cmd 0 w' /\ detached w').
Proof.
  intros Hw. eapply runs_mono.
  { apply (write_bin_response_run w h cmd false cas it (A_text [] 0) [] Hw); [simpl; lia|done|by left]. }
  intros [] w' [Hwr Hd]. split; [done|]. apply Hd; [done|simpl; lia].
Qed.

(** ** Replies through the dynamic buffer *)

Lemma grow_loop_run fuel needed nsize w :
  0 < needed <= reply_limit -> 0 < nsize <= 2 * reply_limit -> needed <= nsize * 2 ^ Z.of_nat fuel ->
  runs (grow_loop fuel needed nsize 0) w (fun r w' => w' = w /\ needed <= r <= 2 * reply_limit).
Proof.
  unfold reply_limit. intros Hn. revert nsize. induction fuel as [|fuel IH]; intros nsize Hs Hf; cbn [grow_loop];
    rewrite Z.sub_0_r, u64_small by lia; destruct (Z.leb_spec needed nsize) as [Hle|Hgt]; try (run; split; [done|lia]).
  - simpl in Hf. lia.
  - run; [apply Z.ltb_lt; lia|]. rewrite Z.shiftl_mul_pow2, u64_small by lia. apply IH; [lia|].
    rewrite Nat2Z.inj_succ, Z.pow_succ_r in Hf by lia. lia.
Qed.

(** The dynamic buffer holds [out]. *)
Record gathered w (out : list Z) w' : Prop := {
  ga_same : exists d sz, w' = set_w_calls (Datatypes.S w.(w_calls)) (set_w_conn
    (set_cn_dyn_offset (Z.of_nat (length out)) (set_cn_dyn_size sz (set_cn_dyn_buffer (Some d) w.(w_conn)))) w) /\
    slice d 0 (Z.of_nat (length out)) = Some out
}.

Lemma gather_run w n b :
  alive w -> n = Z.of_nat (length b) -> 0 < n <= reply_limit ->
  runs (grow_dynamic_buffer n) w (fun r w1 => r = true /\
    w1.(w_conn).(cn_header) = w.(w_conn).(cn_header) /\ w1.(w_conn).(cn_opaque) = w.(w_conn).(cn_opaque) /\
    runs (append_dynamic b) w1 (fun _ w' => gathered w b w')).
Proof.
  intros Ha -> Hn. pose proof (al_dyn _ Ha) as Hd. unfold grow_dynamic_buffer. run. rewrite Hd.
  change (bool_decide (None = None)) with true. cbn [when]. run.
  rewrite (proj2 (Z.ltb_lt _ _)) by lia. change (u64 (Z.shiftl 1024 1)) with 2048. cbn [andb].
  eapply runs_mono; [apply grow_loop_run; [done|unfold reply_limit; lia|unfold reply_limit in *; simpl; lia]|].
  intros nsize w1 [-> Hs]. unfold id; proj. rewrite (proj2 (Z.eqb_neq nsize 0)) by lia.
  unfold grow. run. rewrite grow_small by (unfold reply_limit in *; lia). cbn [negb]. run; proj.
  rewrite Hd. cbn [default from_option length app]. rewrite Nat.sub_0_r.
  split; [done|]. split; [done|]. split; [done|]. unfold append_dynamic. run; unfold id; proj.
  - done.
  - apply splice_Some; [lia|]. rewrite length_replicate. lia.
  - cbn [Z.to_nat take app Nat.add]. constructor. exists (b ++ drop (length b) (replicate (Z.to_nat nsize) junk)), nsize.
    split; [reflexivity|]. rewrite slice_app_l by lia. by apply slice_all.
Qed.

Lemma binary_response_run w h cmd quiet cas0 it ext body st cas :
  ready w h cmd quiet cas0 it -> Z.of_nat (length (response h st 0 cas ext [] body)) <= reply_limit ->
  runs (binary_response_handler [] ext body PROTOCOL_BINARY_RAW_BYTES st cas) w (fun r w' =>
    r = true /\ gathered w (response h st 0 cas ext [] body) w').
Proof.
  intros Hw Hlen. unfold binary_response_handler. run. unfold id.
  change (is_compressed PROTOCOL_BINARY_RAW_BYTES) with false. rewrite andb_false_r. cbn [andb].
  replace (if cn_supports_datatype (w_conn w) then PROTOCOL_BINARY_RAW_BYTES else PROTOCOL_BINARY_RAW_BYTES)
    with PROTOCOL_BINARY_RAW_BYTES by (by destruct (cn_supports_datatype _)).
  set (out := response h st 0 cas ext [] body) in *.
  assert (Ho : length h.(rh_opaque) = 4%nat) by (destruct Hw as [? ? [] ? ? ? ? ? ? ? ? ?]; done).
  assert (Hsz : Z.of_nat (length (@nil Z)) + Z.of_nat (length ext) + 24 + Z.of_nat (length body)
                = Z.of_nat (length out)).
  { unfold out, response. rewrite !length_app, response_header_length by done. simpl. lia. }
  run. eapply runs_mono.
  { eapply (gather_run w _ out); [apply Hw|done|]. rewrite Hsz in *. lia. }
  intros r w1 (-> & Eh & Eo & Happ). cbn [negb]. run. unfold id. rewrite Z.sub_diag. cbn [Z.to_nat replicate].
  rewrite Eh, Eo, (rd_header _ _ _ _ _ _ Hw), (rd_opaque _ _ _ _ _ _ Hw).
  match goal with |- runs (append_dynamic ?x) _ _ => replace x with out end.
  { eapply runs_mono; [exact Happ|]. intros [] w2 Hg. by run. }
  unfold out, response. rewrite app_nil_r. do 2 f_equal. simpl length. lia.
Qed.

(** What is left of the world [w] by a function that answers with [a] without touching
    the item of the connection. *)
Record given w (a : answer) (s : server S) w' : Prop := {
  gv_alive : alive w';
  gv_outside : outside w' = outside w;
  gv_item : w'.(w_conn).(cn_item) = w.(w_conn).(cn_item);
  gv_how : (replying w' a.(an_out) /\ next_ok w' a.(an_next))
           \/ (w'.(w_conn).(cn_state) = F_new_cmd /\ a.(an_out) = [] /\ a.(an_next) = Continue /\ goes_on w' 0)
           \/ (w'.(w_conn).(cn_state) = F_closing /\ a = mk_answer [] NULL Shut);
  gv_server : server_of w' = s;
  gv_detached : detached w';
  gv_kept : a.(an_item) = NULL
}.

Lemma given_answered w a s w' : given w a s w' -> w.(w_conn).(cn_item) = NULL -> answered w a w' /\ server_of w' = s.
Proof. intros [? ? Hi ? ? ? Hk] Hn. split; [|done]. constructor; try done. congruence. Qed.

Lemma given_engine w e a s w' : given (set_w_engine e w) a s w' -> given w a s w'.
Proof. intros []. by constructor. Qed.

Lemma wrote_given w out n w' :
  wrote w out F_new_cmd n w' -> detached w' -> given w (mk_answer out NULL Continue) (server_of w) w'.
Proof. intros [] Hd. constructor; try done. left. split; [done|]. by right. Qed.

Lemma empty_messages w : holds 0 w [] -> Forall (Forall (fun v => local_addr v.(iov_base))) w.(w_conn).(cn_msgs).
Proof.
  intros [_ Hu Hs _]. eapply Forall_impl; [exact Hs|]. intros [|v m] [Hl _]; [constructor|simpl in Hl; lia].
Qed.

(** The dynamic buffer is sent. *)
Lemma write_dynamic_run w h cmd quiet cas it out w1 :
  ready w h cmd quiet cas it -> Z.of_nat (length out) <= reply_limit -> gathered w out w1 ->
  runs write_dynamic_buffer w1 (fun _ w' => given w (mk_answer out NULL Continue) (server_of w) w').
Proof.
  intros Hw Hlen [(d & sz & -> & Hd)]. unfold write_dynamic_buffer, write_and_free. run; unfold id; proj.
  cbn match. run. proj. apply wrote_given with (n := 0); [|split].
  - constructor; try same; try apply Hw.
    + eapply alive_same; [|apply Hw]. unfold vitals; proj. by rewrite (al_dyn _ (rd_alive _ _ _ _ _ _ Hw)).
    + split; [apply Hw|]. right. unfold reply_limit in *. split; [done|]. split.
      { eapply holds_empty; [apply Hw|done..]. }
      proj. rewrite u32_small by lia. split; [lia|]. cbn [mem_read]. proj. exact Hd.
  - proj. apply empty_messages, Hw.
  - done.
Qed.

(** ** Requests that are being handled *)

Lemma ready_same w w' h cmd quiet cas it cmd' quiet' cas' it' :
  ready w h cmd quiet cas it -> alive w' -> setup w' = setup w ->
  w'.(w_conn).(cn_cmd) = cmd' -> w'.(w_conn).(cn_noreply) = quiet' -> w'.(w_conn).(cn_cas) = cas' ->
  w'.(w_conn).(cn_item) = it' -> ready w' h cmd' quiet' cas' it'.
Proof.
  unfold setup. intros [? ? ? ? ? ? ? ? ? Hgo ? ?] Ha [= E1 E2 E3 E4 E5 E6 E7 E8] ? ? ? ?.
  constructor; try congruence; try done.
  - unfold goes_on in *. by rewrite E3, E4.
  - by eapply holds_empty.
Qed.

Lemma ready_engine w h cmd quiet cas it e :
  ready w h cmd quiet cas it -> ready (set_w_engine e w) h cmd quiet cas it.
Proof.
  intros Hw. eapply ready_same; [exact Hw|..]; try reflexivity; try apply Hw.
  eapply alive_same; [|apply Hw]. same.
Qed.

(** The connection is closed. *)
Lemma closing_given w w' h cmd quiet cas it s :
  ready w h cmd quiet cas it -> vitals w' = vitals w -> outside w' = outside w ->
  w'.(w_conn).(cn_item) = w.(w_conn).(cn_item) -> w'.(w_conn).(cn_msgs) = w.(w_conn).(cn_msgs) ->
  server_of w' = s -> w'.(w_conn).(cn_state) = F_closing -> given w (mk_answer [] NULL Shut) s w'.
Proof.
  intros Hw Hv Ho Hi Hm Hs Hst. constructor; try done.
  - eapply alive_same; [exact Hv|apply Hw].
  - by right; right.
  - split; [|congruence]. rewrite Hm. apply empty_messages, Hw.
Qed.

(** A quiet command. *)
Lemma silent_given w w' h cmd quiet cas it s :
  ready w h cmd quiet cas it -> vitals w' = vitals w -> outside w' = outside w ->
  w'.(w_conn).(cn_item) = w.(w_conn).(cn_item) -> setup w' = setup w ->
  server_of w' = s -> w'.(w_conn).(cn_state) = F_new_cmd -> given w (mk_answer [] NULL Continue) s w'.
Proof.
  unfold setup. intros Hw Hv Ho Hi [= E1 E2 E3 E4 E5 E6 E7 E8] Hs Hst. constructor; try done.
  - eapply alive_same; [exact Hv|apply Hw].
  - right; left. repeat split; try done. unfold goes_on. rewrite E3, E4. apply Hw.
  - split; [|congruence]. rewrite E5. apply empty_messages, Hw.
Qed.

(** A status. *)
Lemma fail_with_given w h cmd quiet cas it err a s :
  ready w h cmd quiet cas it -> fail_with h err cas (server_of w) = Some (a, s) ->
  runs (write_bin_packet err 0) w (fun _ w' => given w a s w').
Proof.
  intros Hw. unfold fail_with. destruct (Z.eqb_spec err PROTOCOL_BINARY_RESPONSE_NOT_MY_VBUCKET) as [->|Herr].
  2:{ intros [= <- <-]. eapply runs_mono; [by eapply write_bin_packet_run|]. intros [] w' [Hwr Hd].
      by eapply wrote_given. }
  intros Hf. apply run_bind_Some in Hf as (gm & s1 & Hg & Hf).
  unfold of_option in Hg. destruct v1_get_engine_vb_map as [m|] eqn:Hm; [|done]. injection Hg as -> <-.
  apply run_bind_Some in Hf as (r & s1 & (e & He & ->)%call_Some & Hf).
  unfold write_bin_packet. rewrite Z.eqb_refl. run; [done|by rewrite Hm|]. eapply runs_eng; [exact He|].
  assert (Hw' := ready_engine w h cmd quiet cas it e Hw). set (w1 := set_w_engine e w) in *.
  destruct r as [code|map].
  - injection Hf as <- <-. run. pose proof (al_dyn _ (rd_alive _ _ _ _ _ _ Hw)) as Hdyn.
    destruct (decide (code = ENGINE_SUCCESS)) as [->|Hc].
    + unfold write_dynamic_buffer. run. unfold id, w1; proj. rewrite Hdyn. cbn [write_and_free]. run.
      eapply closing_given; [exact Hw|unfold vitals; proj; by rewrite Hdyn|same..].
    + run. eapply closing_given; [exact Hw|same..].
  - unfold buffered in Hf. destruct (Z.leb_spec (Z.of_nat (length (response h PROTOCOL_BINARY_RESPONSE_NOT_MY_VBUCKET
      PROTOCOL_BINARY_RAW_BYTES 0 [] [] map))) reply_limit) as [Hlen|]; [|done]. injection Hf as <- <-.
    set (out := response _ _ _ _ _ _ _) in *.
    assert (Hsz : Z.of_nat (length map) + 24 = Z.of_nat (length out)).
    { unfold out, response. rewrite !length_app, response_header_length by apply Hw. simpl. lia. }
    run. unfold get_vb_map_cb. run. eapply runs_mono.
    { eapply (gather_run w1 _ out); [apply Hw'|done|]. rewrite Hsz. lia. }
    intros r w2 (-> & Eh & Eo & Happ). cbn [negb]. run. unfold id.
    rewrite Eh, Eo, (rd_header _ _ _ _ _ _ Hw'), (rd_opaque _ _ _ _ _ _ Hw'). eapply runs_mono; [exact Happ|].
    intros [] w3 Hg. run. eapply runs_mono; [by eapply write_dynamic_run|]. intros [] w' Hgv.
    by apply given_engine in Hgv.
Qed.

(** A success without a value. *)
Lemma succeed_given w h cmd quiet cas it a s :
  ready w h cmd quiet cas it -> is_get cmd = false ->
  succeed h quiet cas [] (server_of w) = Some (a, s) ->
  runs (write_bin_response A_null 0 0 0) w (fun _ w' => given w a s w').
Proof.
  intros Hw Hget [= <- <-]. destruct quiet.
  - unfold write_bin_response. run. unfold id. rewrite (rd_quiet _ _ _ _ _ _ Hw), (rd_cmd _ _ _ _ _ _ Hw), Hget.
    cbn [negb orb]. run. eapply silent_given; [exact Hw|same..].
  - eapply runs_mono; [by eapply response_empty|]. intros [] w' [Hwr Hd]. by eapply wrote_given.
Qed.

(** A success with a value in the write buffer. *)
Lemma succeed_value_given w h cmd quiet cas it a s value :
  ready w h cmd quiet cas it -> is_get cmd = false -> Z.of_nat (length value) <= 1000 ->
  slice w.(w_conn).(cn_wbuf) 24 (Z.of_nat (length value)) = Some value ->
  succeed h quiet cas value (server_of w) = Some (a, s) ->
  runs (write_bin_response (A_wbuf 24) 0 0 (Z.of_nat (length value))) w (fun _ w' => given w a s w').
Proof.
  intros Hw Hget Hlen Hs [= <- <-]. destruct quiet.
  - unfold write_bin_response. run. unfold id. rewrite (rd_quiet _ _ _ _ _ _ Hw), (rd_cmd _ _ _ _ _ _ Hw), Hget.
    cbn [negb orb]. run. eapply silent_given; [exact Hw|same..].
  - eapply runs_mono.
    { eapply (write_bin_response_run w h _ false _ _ _ value); [exact Hw|lia| |by left].
      cbn [mem_read]. unfold header_world; proj.
      pose proof (ready_opaque _ _ _ _ _ _ Hw) as Ho.
      rewrite slice_app_r by (rewrite response_header_length by done; lia).
      rewrite response_header_length by done. change (24 - Z.of_nat 24) with 0.
      apply slice_bounds in Hs as (H1 & H2 & H3 & Hv). rewrite slice_Some by (rewrite ?length_drop; lia).
      cbn [Z.to_nat]. rewrite drop_0. f_equal. symmetry. exact Hv. }
    intros [] w' [Hwr Hd]. eapply wrote_given; [exact Hwr|by apply Hd].
Qed.

(** The codes that [write_code] handles. *)
Lemma write_code_given w h cmd quiet cas it ret other r a s :
  ready w h cmd quiet cas it -> fail_code h ret cas r (server_of w) = Some (a, s) ->
  (r (server_of w) = Some (a, s) -> runs other w (fun _ w' => given w a s w')) ->
  runs (write_code ret other) w (fun _ w' => given w a s w').
Proof.
  intros Hw Hf Ho. destruct ret; cbn [write_code fail_code] in *; try done; auto; by eapply fail_with_given.
Qed.

(** The engine is not blocking. *)
Lemma take_aiostat_run w (Q : ENGINE_ERROR_CODE -> world S -> Prop) :
  alive w -> Q ENGINE_SUCCESS w -> runs take_aiostat w Q.
Proof.
  intros Ha HQ. unfold take_aiostat. run. pose proof (al_aiostat _ Ha) as E. rewrite E.
  replace (set_w_conn _ w) with w; [exact HQ|]. destruct w as [[]]. cbn in E. by subst.
Qed.

Lemma ewouldblock_run w (Q : unit -> world S -> Prop) :
  alive w -> Q tt w -> runs (updc (set_cn_ewouldblock false)) w Q.
Proof.
  intros Ha HQ. run. pose proof (al_block _ Ha) as E.
  replace (set_w_conn _ w) with w; [exact HQ|]. destruct w as [[]]. cbn in E. by subst.
Qed.

(** ** The request in the read buffer *)

(** The bytes [pkt] have just been read. *)
Definition at_packet w (pkt : list Z) : Prop :=
  slice w.(w_conn).(cn_rbuf) (w.(w_conn).(cn_rcurr) - Z.of_nat (length pkt)) (Z.of_nat (length pkt)) = Some pkt.

Lemma at_packet_same w w' pkt : w'.(w_conn).(cn_rbuf) = w.(w_conn).(cn_rbuf) ->
  w'.(w_conn).(cn_rcurr) = w.(w_conn).(cn_rcurr) -> at_packet w pkt -> at_packet w' pkt.
Proof. unfold at_packet. by intros -> ->. Qed.

Lemma get_key_run w pkt n (Q : list Z -> world S -> Prop) :
  at_packet w pkt -> w.(w_conn).(cn_header).(rh_keylen) = Z.of_nat n -> (n <= length pkt)%nat ->
  Q (drop (length pkt - n) pkt) w -> runs binary_get_key w Q.
Proof.
  intros Hp Hk Hn HQ. unfold binary_get_key. run; [|exact HQ]. unfold id. rewrite Hk.
  destruct (slice_split _ _ _ (Z.of_nat (length pkt) - Z.of_nat n) _ Hp ltac:(lia)) as [_ Hs].
  replace (w.(w_conn).(cn_rcurr) - Z.of_nat n)
    with (w.(w_conn).(cn_rcurr) - Z.of_nat (length pkt) + (Z.of_nat (length pkt) - Z.of_nat n)) by lia.
  replace (Z.of_nat n) with (Z.of_nat (length pkt) - (Z.of_nat (length pkt) - Z.of_nat n)) at 2 by lia.
  rewrite Hs. do 2 f_equal. lia.
Qed.

Lemma packet_run w pkt p (Q : list Z -> world S -> Prop) :
  at_packet w pkt -> p = w.(w_conn).(cn_rcurr) - Z.of_nat (length pkt) ->
  (forall tail, Q (pkt ++ tail) w) -> runs (rbuf_from p) w Q.
Proof.
  intros (H1 & H2 & H3 & H4)%slice_bounds -> HQ. unfold rbuf_from. run; [by apply Z.leb_le|].
  set (b := drop _ _) in *. rewrite <- (take_drop (length pkt) b).
  rewrite Nat2Z.id in H4. rewrite <- H4. apply HQ.
Qed.

(** The fields of a request that has been parsed. *)
Record parsed (hdr : list Z) (h : request_header) : Prop := {
  ps_length : length hdr = 24%nat;
  ps_parse : parse_request hdr = Some h
}.

Lemma parsed_fields hdr h l : parsed hdr h ->
  rq_keylen (hdr ++ l) = Some h.(rh_keylen) /\ rq_bodylen (hdr ++ l) = Some h.(rh_bodylen) /\
  packet_field (hdr ++ l) 16 8 = Some h.(rh_cas) /\ packet_field (hdr ++ l) 5 1 = Some h.(rh_datatype).
Proof.
  intros [Hl Hp]. unfold rq_keylen, rq_bodylen. rewrite !packet_field_app by lia.
  unfold parse_request in Hp. rewrite !packet_field_Some, packet_bytes_Some in * by lia.
  cbn [mbind option_bind] in Hp. by injection Hp as <-.
Qed.

(** A field behind the header. *)
Lemma body_field hdr body l off n : length hdr = 24%nat -> (off + n <= length body)%nat ->
  packet_field (hdr ++ body ++ l) (24 + off) n = Some (be_val (take n (drop off body))).
Proof.
  intros Hh Hn. rewrite packet_field_Some by (rewrite !length_app; lia).
  rewrite app_assoc, drop_app_le, take_app_le by (rewrite ?length_drop, ?length_app; lia).
  rewrite drop_app_ge by lia. do 4 f_equal. lia.
Qed.

(** The features of a HELLO. *)
Definition granted (b : bool) : list Z := if b then be_bytes 2 PROTOCOL_BINARY_FEATURE_DATATYPE else [].

Lemma hello_features_run n l tail w sd : length l = (2 * n)%nat -> w.(w_conn).(cn_supports_datatype) = sd ->
  runs (hello_features (l ++ tail) (Z.of_nat n) (granted sd)) w (fun r w' =>
    r = granted (grants l sd) /\ w' = set_w_conn (set_cn_supports_datatype (grants l sd) w.(w_conn)) w).
Proof.
  revert l w sd. induction n as [|n IH]; intros l w sd Hl Hsd.
  { destruct l; [|done]. eapply (runs_mono _ _ (fun r w' => r = granted sd /\ w' = w)).
    { destruct tail; by apply runs_ret. }
    intros r w' [-> ->]. split; [done|]. destruct w as [[]]; cbn in Hsd; by subst. }
  destruct l as [|a [|b l]]; [simpl in Hl; lia..|].
  cbn [app hello_features]. rewrite (proj2 (Z.leb_gt _ _)) by lia. run. rewrite Hsd.
  replace (Z.of_nat (Datatypes.S n) - 1) with (Z.of_nat n) by lia. cbn [grants].
  destruct (_ && Conn.datatype) eqn:Ef; cbn [andb].
  - destruct sd; cbn [negb orb andb].
    + apply IH; [simpl in Hl; lia|done].
    + run. eapply runs_mono; [apply (IH l _ true); [simpl in Hl; lia|done]|].
      intros r w' [-> ->]. split; [done|]. by destruct w as [[]].
  - rewrite orb_false_r. apply IH; [simpl in Hl; lia|done].
Qed.

(** The comparison with the name of a control. *)
Lemma strncmp_run lit key n w : (n <= length key)%nat ->
  runs (strncmp_eq lit key n) w (fun r w' => w' = w /\ (n = length lit -> r = bool_decide (take n key = lit))).
Proof.
  revert key n. induction lit as [|l lit IH]; intros key n Hn; destruct n as [|n]; cbn [strncmp_eq].
  - run. by destruct key.
  - destruct key; [simpl in Hn; lia|]. run. by split.
  - run. by split.
  - destruct key as [|k key]; [simpl in Hn; lia|]. cbn [take]. destruct (Z.eqb_spec k l) as [->|Hne].
    + eapply runs_mono; [apply IH; simpl in Hn; lia|]. intros r w' [-> Hr]. split; [done|].
      intros [= Hl]. rewrite (Hr Hl). apply bool_decide_ext. split; [by intros ->|by intros [= ->]].
    + run. split; [done|]. intros _. symmetry. apply bool_decide_eq_false. congruence.
Qed.

(** ** An item as a response *)

(** The CAS is stored over that of the header. *)
Lemma splice_cas op kl hl dt st bl opaque cas cas' rest : length opaque = 4%nat ->
  splice (response_header op kl hl dt st bl opaque cas ++ rest) 16 (be_bytes 8 cas')
  = Some (response_header op kl hl dt st bl opaque cas' ++ rest).
Proof.
  intros Ho. rewrite splice_Some by (rewrite ?length_app, ?response_header_length, ?be_bytes_length by done; lia).
  set (y := [PROTOCOL_BINARY_RES; u8 op] ++ be_bytes 2 kl ++ [u8 hl; u8 dt] ++ be_bytes 2 st ++ be_bytes 4 bl ++ opaque).
  assert (Hy : length y = 16%nat) by (unfold y; rewrite !length_app, !be_bytes_length, Ho; done).
  assert (Hr : forall c, response_header op kl hl dt st bl opaque c = y ++ be_bytes 8 c).
  { intros c. unfold y, response_header. by rewrite <- !app_assoc. }
  rewrite !Hr, be_bytes_length, <- !app_assoc. change (Z.to_nat 16) with 16%nat.
  rewrite take_app_le, take_ge by lia. do 3 f_equal.
  rewrite drop_app_ge by lia. rewrite drop_app_ge by (rewrite be_bytes_length; lia).
  rewrite be_bytes_length, Hy. apply drop_0.
Qed.

Lemma splice_flags rh b flags : length rh = 24%nat -> length b = 2048%nat ->
  splice (rh ++ drop 24 b) 24 (le_bytes 4 flags) = Some (rh ++ le_bytes 4 flags ++ drop 28 b).
Proof.
  intros Hr Hb. assert (Hl : length (le_bytes 4 flags) = 4%nat) by (unfold le_bytes; by rewrite length_reverse).
  rewrite splice_Some by (rewrite ?length_app, ?length_drop, ?Hl, ?Hr, ?Hb; lia). rewrite Hl.
  change (Z.to_nat 24) with 24%nat. rewrite take_app_le, take_ge by lia.
  rewrite (drop_app_ge rh) by lia. rewrite Hr, drop_drop. done.
Qed.

Lemma extends_trans k w0 w1 w2 o k' o' : extends k w0 o w1 -> extends k' w1 o' w2 -> extends k' w0 o' w2.
Proof. intros [(u & y & l & ->) _] Hx. exact (extends_with _ _ _ _ _ _ _ Hx). Qed.

Lemma add_iov_step k w0 w1 buf n out b :
  extends k w0 out w1 -> roomy w0 -> k < 80 -> 0 <= n < 2 ^ 32 -> mem_read w0 buf n = Some b ->
  runs (add_iov buf n) w1 (fun r w' => r = 0 /\ extends (k + 3) w0 (out ++ b) w').
Proof.
  intros Hx Hr Hk Hn Hb. pose proof Hx as [(u & y & l & ->) Hh].
  eapply runs_mono; [apply (add_iov_run k _ buf n out b); try done; by rewrite (mem_read_same w0)|].
  intros r w' [-> Hx']. split; [done|]. exact (extends_trans _ _ _ _ _ _ _ Hx Hx').
Qed.

(** The world after a header has been written to the write buffer, which is [b] now. *)
Definition fresh_world w (b : list Z) : world S :=
  set_w_conn (set_cn_iovused 1 (set_cn_msgbytes 24 (set_cn_msgs [[mk_iovec (A_wbuf 0) 24]]
    (set_cn_wbuf b (set_cn_msgcurr 0 w.(w_conn)))))) w.

Lemma fresh_holds w rh rest : length rh = 24%nat ->
  extends 1 (fresh_world w (rh ++ rest)) rh (fresh_world w (rh ++ rest)).
Proof.
  intros Hrh. split.
  { exists 1, 24, [[mk_iovec (A_wbuf 0) 24]]. unfold fresh_world. same. }
  constructor; unfold fresh_world; proj.
  - cbn [msgs_bytes msg_bytes iov_base iov_len mem_read]. proj. rewrite slice_app_l, slice_all by lia.
    cbn. by rewrite !app_nil_r.
  - lia.
  - constructor; [|constructor]. split; [simpl; lia|]. repeat constructor.
  - left. eexists. split; [done|]. unfold UDP_MAX_PAYLOAD_SIZE. lia.
Qed.

(** What follows the header in the write buffer. *)
Lemma fresh_read w rh x rest : length rh = 24%nat ->
  mem_read (fresh_world w (rh ++ x ++ rest)) (A_wbuf 24) (Z.of_nat (length x)) = Some x.
Proof.
  intros Hrh. cbn [mem_read]. unfold fresh_world; proj. rewrite slice_app_r by lia. rewrite Hrh.
  change (24 - Z.of_nat 24) with 0. rewrite slice_app_l by lia. by apply slice_all.
Qed.

(** A response that is sent from a write buffer like that, and keeps the item [it]. *)
Lemma fresh_answered w h cmd quiet cas it0 it b out w1 :
  ready w h cmd quiet cas it0 -> length b = 2048%nat -> extends 60 (fresh_world w b) out w1 ->
  answered w (mk_answer out it Continue)
    (set_w_conn (set_cn_item it (set_cn_state F_mwrite w1.(w_conn))) w1) /\
  server_of (set_w_conn (set_cn_item it (set_cn_state F_mwrite w1.(w_conn))) w1) = server_of w.
Proof.
  intros Hw Hb [(u & y & l & ->) Hh]. split; [|unfold fresh_world; same].
  constructor; try (unfold fresh_world; same).
  - pose proof (rd_alive _ _ _ _ _ _ Hw) as [? ? ? _ ? ? ? ? ? ?].
    constructor; unfold fresh_world, with_msgs; proj; done.
  - left. split; [|apply Hw]. split; [unfold fresh_world; same|]. left. split; [done|].
    eapply holds_same; [|exact Hh]. unfold fresh_world; same.
Qed.

Lemma set_item_id it c : c.(cn_item) = it -> set_cn_item it c = c.
Proof. intros <-. by destruct c. Qed.

Definition item_response (h : request_header) (dt : Z) (info : item_info) (k value : list Z) : list Z :=
  response h PROTOCOL_BINARY_RESPONSE_SUCCESS dt info.(ii_cas) (le_bytes 4 info.(ii_flags)) k value.

Lemma send_item_run w h cmd quiet it0 key it info k d value :
  ready w h cmd quiet 0 it0 -> (0 < info.(ii_nvalue)) -> 0 <= info.(ii_nbytes) <= reply_limit ->
  negb w.(w_conn).(cn_supports_datatype) && is_compressed info.(ii_datatype) = false ->
  v1_data w.(w_engine) it = Some d -> slice d 0 info.(ii_nbytes) = Some value -> Z.of_nat (length key) < 2 ^ 16 ->
  (if cmd =? PROTOCOL_BINARY_CMD_GETK
   then exists k', v1_key w.(w_engine) it = Some k' /\ slice k' 0 (Z.of_nat (length key)) = Some k else k = []) ->
  runs (send_item key it info) w (fun _ w' =>
    answered w (mk_answer (item_response h
      (if w.(w_conn).(cn_supports_datatype) then info.(ii_datatype) else PROTOCOL_BINARY_RAW_BYTES) info k value)
      it Continue) w' /\ server_of w' = server_of w).
Proof.
  unfold reply_limit. intros Hw Hnv Hnb Hinf Hd Hval Hkey Hk. unfold send_item. run. unfold id. rewrite Hinf.
  rewrite andb_true_r, (rd_cmd _ _ _ _ _ _ Hw). 
  set (dt := if negb (cn_supports_datatype (w_conn w)) then PROTOCOL_BINARY_RAW_BYTES else info.(ii_datatype)).
  replace (if w.(w_conn).(cn_supports_datatype) then info.(ii_datatype) else PROTOCOL_BINARY_RAW_BYTES) with dt
    by (unfold dt; by destruct (cn_supports_datatype _)).
  set (kl := if cmd =? PROTOCOL_BINARY_CMD_GETK then u16 (Z.of_nat (length key)) else 0). set (bl := u32 _). pose proof (ready_opaque _ _ _ _ _ _ Hw) as Ho.
  apply runs_bind, add_bin_header_run; [apply Hw|apply Hw|done|]. cbn [Z.eqb]. run; unfold header_world; proj.
  { apply splice_cas. done. }
  { apply splice_flags; [by apply response_header_length|apply Hw]. }
  set (rh := response_header _ _ _ _ _ _ _ info.(ii_cas)).
  assert (Hrh : length rh = 24%nat) by (by apply response_header_length).
  change (set_w_conn _ _) with (fresh_world w (rh ++ le_bytes 4 info.(ii_flags) ++ drop 28 w.(w_conn).(cn_wbuf))).
  pose proof (fresh_holds w rh (le_bytes 4 info.(ii_flags) ++ drop 28 w.(w_conn).(cn_wbuf)) Hrh) as Hx0.
  set (w0 := fresh_world _ _) in *.
  assert (Hr0 : roomy w0) by apply (al_roomy _ (rd_alive _ _ _ _ _ _ Hw)).
  eapply runs_mono.
  { eapply (add_iov_step 1 w0 w0 (A_wbuf 24) 4 _ (le_bytes 4 info.(ii_flags))); [exact Hx0|done|lia|lia|].
    apply (fresh_read w rh (le_bytes 4 info.(ii_flags))). done. }
  intros r1 w1 [-> Hx1]. run. eapply (runs_mono _ _ (fun _ w' => extends 7 w0 (((_ ++ le_bytes 4 info.(ii_flags)) ++ k)) w')).
  { apply runs_when; intros Eg; rewrite Eg in Hk.
    - destruct Hk as (k' & Hk' & Hks). run. eapply runs_mono.
      + eapply (add_iov_step _ w0 w1); [exact Hx1|done|lia|lia|]. cbn [mem_read].
        change (w_engine w0) with (w_engine w). rewrite Hk'. exact Hks.
      + intros r2 w2 [-> Hx2]. run. exact Hx2.
    - subst k. rewrite app_nil_r. destruct Hx1 as [He Hh]. split; [done|]. eapply holds_weaken; [exact Hh|lia]. }
  intros [] w2 Hx2. run. eapply (runs_mono _ _ (fun _ w' => extends 10 w0 ((((_ ++ le_bytes 4 info.(ii_flags)) ++ k) ++ value)) w')).
  { apply runs_when; intros Eg; [|apply Z.ltb_ge in Eg; lia]. run. eapply runs_mono.
    - eapply (add_iov_step _ w0 w2); [exact Hx2|done|lia|lia|]. cbn [mem_read].
      change (w_engine w0) with (w_engine w). rewrite Hd. exact Hval.
    - intros r3 w3 [-> Hx3]. run. exact Hx3. }
  intros [] w3 [He3 Hh3]. run. unfold item_response.
  assert (Hwb : length (rh ++ le_bytes 4 info.(ii_flags) ++ drop 28 w.(w_conn).(cn_wbuf)) = 2048%nat).
  { unfold le_bytes. rewrite !length_app, length_reverse, be_bytes_length, length_drop, Hrh.
    by rewrite (al_wbuf _ (rd_alive _ _ _ _ _ _ Hw)). }
  pose proof (fresh_answered w h cmd quiet 0 it0 it _ _ w3 Hw Hwb
    (conj He3 (holds_weaken _ 60 _ _ Hh3 ltac:(lia)))) as Hka.
  match type of Hka with answered _ (mk_answer ?o _ _) _ /\ _ => replace (response h _ dt _ _ k value) with o end; [exact Hka|].
  unfold rh. rewrite (rd_header _ _ _ _ _ _ Hw), (rd_opaque _ _ _ _ _ _ Hw). unfold response. rewrite <- !app_assoc.
  assert (Hl : length (le_bytes 4 info.(ii_flags)) = 4%nat) by (unfold le_bytes; by rewrite length_reverse).
  apply slice_length in Hval as [Hvl _]. rewrite Hl. replace (Z.of_nat (length k)) with kl.
  - replace (Z.of_nat 4 + kl + Z.of_nat (length value)) with bl; [done|]. unfold bl, kl.
    destruct (cmd =? _); rewrite ?u16_small, ?u32_small by lia; lia.
  - unfold kl. destruct (cmd =? _); [|by subst k]. destruct Hk as (k' & _ & Hk).
    apply slice_length in Hk as [Hkl _]. rewrite u16_small by lia. done.
Qed.

(** The response of GETK for a key that is not there. *)
Lemma missing_key_run w h cmd quiet it key :
  ready w h cmd quiet 0 it -> Z.of_nat (length key) <= 1000 ->
  runs (r ← add_bin_header PROTOCOL_BINARY_RESPONSE_KEY_ENOENT 0 (u16 (Z.of_nat (length key)))
              (Z.of_nat (length key)) PROTOCOL_BINARY_RAW_BYTES;
        if r =? -1 then conn_set_state F_closing else
        b ← getc cn_wbuf;
        b ← of_option (splice b 24 key);
        updc (set_cn_wbuf b);;
        add_iov (A_wbuf 24) (Z.of_nat (length key));;
        conn_set_state F_mwrite) w
    (fun _ w' => answered w (mk_answer (response h PROTOCOL_BINARY_RESPONSE_KEY_ENOENT PROTOCOL_BINARY_RAW_BYTES 0
                                          [] key []) it Continue) w' /\ server_of w' = server_of w).
Proof.
  intros Hw Hlen. pose proof (ready_opaque _ _ _ _ _ _ Hw) as Ho. pose proof (al_wbuf _ (rd_alive _ _ _ _ _ _ Hw)) as Hwb.
  apply runs_bind, add_bin_header_run; [apply Hw|done|done|]. cbn [Z.eqb]. run; unfold header_world; proj.
  { apply splice_Some; [lia|]. rewrite length_app, response_header_length, length_drop by done. lia. }
  set (rh := response_header _ _ _ _ _ _ _ _). set (wb := drop 24 w.(w_conn).(cn_wbuf)).
  assert (Hrh : length rh = 24%nat) by (by apply response_header_length).
  replace (take (Z.to_nat 24) (rh ++ wb)) with rh by (rewrite take_app_le, take_ge; by rewrite ?Hrh).
  set (rest := drop _ (rh ++ wb)).
  change (set_w_conn _ _) with (fresh_world w (rh ++ key ++ rest)).
  eapply runs_mono.
  { eapply (add_iov_step 1 _ _ _ _ _ key); [by apply fresh_holds|apply (al_roomy _ (rd_alive _ _ _ _ _ _ Hw))|lia|lia|].
    by apply fresh_read. }
  intros r w1 [-> [He Hh]]. run.
  destruct (fresh_answered w h cmd quiet 0 it it (rh ++ key ++ rest) (rh ++ key) w1) as [Ha Hs]; [done| |
    split; [done|eapply holds_weaken; [exact Hh|lia]]|].
  { unfold rest, wb. rewrite !length_app, length_drop, !length_app, length_drop, Hwb, Hrh. lia. }
  rewrite set_item_id in Ha, Hs by (destruct He as (? & ? & ? & ->); apply Hw).
  split; [|exact Hs]. replace (response h _ _ _ _ _ _) with (rh ++ key); [exact Ha|]. unfold rh, response.
  rewrite (rd_header _ _ _ _ _ _ Hw), (rd_opaque _ _ _ _ _ _ Hw), (rd_cas _ _ _ _ _ _ Hw).
  rewrite app_nil_r, u16_small by lia. cbn [length]. f_equal. f_equal. lia.
Qed.

(** ** The executors *)

Section packet.
Context (w : world S) (h : request_header) (hdr body : list Z).
Context (Hw : ready w h h.(rh_opcode) false 0 NULL) (Hp : parsed hdr h).
Context (Hat : at_packet w (hdr ++ body)) (Hbody : Z.of_nat (length body) = h.(rh_bodylen)).

(** The address of the packet. *)
Definition packet_at : Z := w.(w_conn).(cn_rcurr) - (h.(rh_bodylen) + 24).

Lemma packet_at_eq : packet_at = w.(w_conn).(cn_rcurr) - Z.of_nat (length (hdr ++ body)).
Proof. unfold packet_at. rewrite length_app, (ps_length _ _ Hp). lia. Qed.

Lemma packet_at_run (Q : list Z -> world S -> Prop) w' :
  w'.(w_conn).(cn_rbuf) = w.(w_conn).(cn_rbuf) -> w'.(w_conn).(cn_rcurr) = w.(w_conn).(cn_rcurr) ->
  (forall tail, Q (hdr ++ body ++ tail) w') -> runs (rbuf_from packet_at) w' Q.
Proof.
  intros E1 E2 HQ. eapply packet_run; [by eapply at_packet_same|rewrite E2; apply packet_at_eq|].
  intros tail. rewrite <- app_assoc. apply HQ.
Qed.

(** The key is at the end of the packet. *)
Lemma key_run w' (Q : list Z -> world S -> Prop) :
  w'.(w_conn).(cn_rbuf) = w.(w_conn).(cn_rbuf) -> w'.(w_conn).(cn_rcurr) = w.(w_conn).(cn_rcurr) ->
  w'.(w_conn).(cn_header) = h -> h.(rh_keylen) <= h.(rh_bodylen) ->
  Q (rq_key h body) w' -> runs binary_get_key w' Q.
Proof.
  intros E1 E2 E3 Hk HQ. pose proof (ro_keylen _ (rd_ok _ _ _ _ _ _ Hw)) as Hr.
  eapply (get_key_run w' (hdr ++ body) (Z.to_nat h.(rh_keylen)));
    [by eapply at_packet_same|rewrite E3; lia|rewrite length_app; lia|].
  rewrite drop_app_ge by (rewrite length_app; lia). unfold rq_key in HQ.
  replace (length (hdr ++ body) - Z.to_nat (rh_keylen h) - length hdr)%nat
    with (length body - Z.to_nat (rh_keylen h))%nat by (rewrite length_app; lia). exact HQ.
Qed.

(** ** Commands without a key *)

Lemma noop_given a s : succeed h false 0 [] (server_of w) = Some (a, s) -> h.(rh_opcode) = PROTOCOL_BINARY_CMD_NOOP ->
  runs (noop_executor packet_at) w (fun _ w' => given w a s w').
Proof. intros Hs Hop. unfold noop_executor. eapply succeed_given; [exact Hw|by rewrite Hop|exact Hs]. Qed.

Lemma verbosity_given a s :
  h.(rh_opcode) = PROTOCOL_BINARY_CMD_VERBOSITY -> h.(rh_bodylen) = 4 ->
  (set_verbose (Z.min MAX_VERBOSITY_LEVEL (be_val body));; succeed h false 0 []) (server_of w) = Some (a, s) ->
  runs (verbosity_executor packet_at) w (fun _ w' => given w a s w').
Proof.
  intros Hop Hlen Hs. unfold verbosity_executor. apply runs_bind, packet_at_run; [done..|]. intros tail. run.
  { apply (body_field _ _ _ 0 4); [apply Hp|lia]. }
  rewrite drop_0, take_ge by lia. unfold MAX_VERBOSITY_LEVEL in *.
  replace (if 2 <? be_val body then 2 else be_val body) with (Z.min 2 (be_val body))
    by (destruct (Z.ltb_spec 2 (be_val body)); lia).
  set (w1 := set_w_verbose _ w).
  assert (Hw1 : ready w1 h h.(rh_opcode) false 0 NULL).
  { eapply ready_same; [exact Hw| |same|apply Hw..]. eapply alive_same; [|apply Hw]. same. }
  eapply runs_mono; [eapply succeed_given; [exact Hw1|by rewrite Hop|exact Hs]|].
  intros [] w' []. by constructor.
Qed.

Lemma quit_run : h.(rh_opcode) = PROTOCOL_BINARY_CMD_QUIT ->
  runs (quit_executor packet_at) w (fun _ w' =>
    given w (mk_answer (response h 0 0 0 [] [] []) NULL Shut) (server_of w) w').
Proof.
  intros Hop. unfold quit_executor. run. eapply runs_mono; [by eapply response_empty|].
  intros [] w' [[Ha Ho Hs Hi Hr Hg Hb] Hd]. run. constructor; try done.
  - by eapply alive_same; [|exact Ha].
  - left. split; [|split; [same|proj; rewrite Hi; apply Hw]]. destruct Hr as [Hc Hr]. split; [done|].
    destruct Hr as [[? Hh]|(? & Hh & ? & ?)]; [left|right]; (split; [done|]).
    + eapply holds_same; [|exact Hh]. same.
    + split; [eapply holds_same; [|exact Hh]; same|]. by split.
Qed.

Lemma version_given a s : h.(rh_opcode) = PROTOCOL_BINARY_CMD_VERSION ->
  Z.of_nat (length server_version) <= version_limit ->
  succeed h false 0 server_version (server_of w) = Some (a, s) ->
  runs (version_executor packet_at) w (fun _ w' => given w a s w').
Proof.
  unfold version_limit. intros Hop Hlen [= <- <-]. unfold version_executor. eapply runs_mono.
  { eapply (write_bin_response_run w h _ false 0 NULL _ server_version); [exact Hw|lia| |by left].
    cbn [mem_read]. by apply slice_all. }
  intros [] w' [Hwr Hd]. eapply wrote_given; [exact Hwr|by apply Hd].
Qed.

(** The world after a change of the fields of the command. *)
Lemma ready_cmd w' cmd quiet cas :
  alive w' -> setup w' = setup w -> w'.(w_conn).(cn_item) = w.(w_conn).(cn_item) ->
  w'.(w_conn).(cn_cmd) = cmd -> w'.(w_conn).(cn_noreply) = quiet -> w'.(w_conn).(cn_cas) = cas ->
  ready w' h cmd quiet cas NULL.
Proof. intros. eapply ready_same; try done. etrans; [done|apply Hw]. Qed.

Lemma given_start w' a s w2 : outside w' = outside w -> w'.(w_conn).(cn_item) = w.(w_conn).(cn_item) ->
  given w' a s w2 -> given w a s w2.
Proof. intros E1 E2 []. constructor; try done; congruence. Qed.

Ltac cmd_ready :=
  eapply ready_cmd; [eapply alive_same; [|apply Hw]; same|same|same|first [same|apply Hw]..].

Lemma flush_given a s :
  h.(rh_opcode) = PROTOCOL_BINARY_CMD_FLUSH \/ h.(rh_opcode) = PROTOCOL_BINARY_CMD_FLUSHQ ->
  h.(rh_bodylen) = h.(rh_extlen) -> h.(rh_extlen) = 0 \/ h.(rh_extlen) = 4 ->
  serve_flush h body (server_of w) = Some (a, s) ->
  runs (flush_executor packet_at) w (fun _ w' => given w a s w').
Proof.
  intros Hop Hlen Hext Hs. unfold serve_flush in Hs. apply run_bind_Some in Hs as (ret & s1 & (e & He & ->)%call_Some & Hs).
  unfold flush_executor. run. unfold id. rewrite (rd_cmd _ _ _ _ _ _ Hw), (rd_header _ _ _ _ _ _ Hw).
  set (quiet := h.(rh_opcode) =? PROTOCOL_BINARY_CMD_FLUSHQ) in *.
  set (w1 := if quiet then set_w_conn (set_cn_noreply true w.(w_conn)) w else w).
  assert (Hw1 : ready w1 h h.(rh_opcode) quiet 0 NULL).
  { unfold w1. destruct quiet; [cmd_ready|exact Hw]. }
  assert (E : outside w1 = outside w /\ w1.(w_conn).(cn_item) = w.(w_conn).(cn_item) /\ server_of w1 = server_of w
    /\ w1.(w_conn).(cn_rbuf) = w.(w_conn).(cn_rbuf) /\ w1.(w_conn).(cn_rcurr) = w.(w_conn).(cn_rcurr)
    /\ w1.(w_engine) = w.(w_engine)).
  { unfold w1. destruct quiet; done. }
  destruct E as (E1 & E2 & E3 & E4 & E5 & E6).
  eapply (runs_mono _ _ (fun _ w' => w' = w1)); [apply runs_when; intros Hq; run; unfold w1; by rewrite Hq|].
  intros [] w' ->. run. eapply (runs_mono _ _ (fun r w' => r = be_val body /\ w' = w1)).
  { destruct Hext as [Hx|Hx]; rewrite Hx in *; cbn [Z.eqb Pos.eqb].
    - run. destruct body; [done|simpl in Hbody; lia].
    - apply runs_bind, packet_at_run; [done..|]. intros tail. run; [apply (body_field _ _ _ 0 4); [apply Hp|lia]|].
      by rewrite drop_0, take_ge by lia. }
  intros r w' [-> ->]. run. eapply runs_eng; [rewrite E6; exact He|].
  assert (Hw2 := ready_engine w1 _ _ _ _ _ e Hw1). set (w2 := set_w_engine e w1) in *.
  assert (Hstart : forall m, runs m w2 (fun (_ : unit) w' => given w2 a s w') -> runs m w2 (fun _ w' => given w a s w')).
  { intros m Hm. eapply runs_mono; [exact Hm|]. intros [] w' Hg. eapply given_start; [..|exact Hg]; done. }
  assert (Hs2 : mk_server e (sv_datatype (server_of w)) (sv_verbose (server_of w)) (sv_session (server_of w)) = server_of w2).
  { rewrite <- E3. done. }
  rewrite Hs2 in Hs. apply Hstart.
  assert (Hng : is_get h.(rh_opcode) = false) by (by destruct Hop as [-> | ->]).
  destruct ret; try (by eapply fail_with_given); by eapply succeed_given.
Qed.

(** ** Commands with a key *)

Lemma get_request_run w' (Q : Z -> world S -> Prop) :
  w'.(w_conn).(cn_rcurr) = w.(w_conn).(cn_rcurr) -> w'.(w_conn).(cn_header) = h ->
  h.(rh_keylen) + h.(rh_extlen) = h.(rh_bodylen) -> Q packet_at w' -> runs binary_get_request w' Q.
Proof.
  intros E1 E2 Hlen HQ. unfold binary_get_request. run; unfold id; rewrite E1, E2.
  - apply Z.leb_le. apply slice_bounds in Hat as (Hat & _). rewrite length_app, (ps_length _ _ Hp) in Hat. lia.
  - unfold packet_at in HQ. by replace (24 + rh_keylen h + rh_extlen h) with (rh_bodylen h + 24) by lia.
Qed.

(** A world that differs from [w] in the fields of the command and in the engine. *)
Record near w' : Prop := {
  nr_alive : alive w';
  nr_setup : setup w' = setup w;
  nr_item : w'.(w_conn).(cn_item) = w.(w_conn).(cn_item);
  nr_outside : outside w' = outside w
}.

Lemma near_given w' a s m : near w' -> runs m w' (fun (_ : unit) w2 => given w' a s w2) ->
  runs m w' (fun _ w2 => given w a s w2).
Proof. intros [] Hm. eapply runs_mono; [exact Hm|]. intros [] w2 Hg. by eapply given_start. Qed.

Lemma near_ready w' cmd quiet cas :
  near w' -> w'.(w_conn).(cn_cmd) = cmd -> w'.(w_conn).(cn_noreply) = quiet -> w'.(w_conn).(cn_cas) = cas ->
  ready w' h cmd quiet cas NULL.
Proof. intros [] ? ? ?. by eapply ready_cmd. Qed.

Lemma near_rbuf w' : near w' -> w'.(w_conn).(cn_rbuf) = w.(w_conn).(cn_rbuf) /\
  w'.(w_conn).(cn_rcurr) = w.(w_conn).(cn_rcurr) /\ w'.(w_conn).(cn_header) = h.
Proof.
  intros [_ Hs _ Ho]. unfold outside, setup in *. injection Ho as ? ? ? ? ? ? ? ? ? ? ?.
  injection Hs as E ? ? ? ? ? ? ?. repeat split; [done..|]. rewrite E. apply Hw.
Qed.

Lemma near_refl : near w.
Proof. constructor; try done. apply Hw. Qed.

(** Near worlds from near worlds. *)
Lemma near_step w1 w' : near w1 -> vitals w' = vitals w1 -> setup w' = setup w1 ->
  w'.(w_conn).(cn_item) = w1.(w_conn).(cn_item) -> outside w' = outside w1 -> near w'.
Proof. intros [] ? ? ? ?. constructor; try congruence. by eapply alive_same. Qed.

Lemma delete_given a s :
  h.(rh_opcode) = PROTOCOL_BINARY_CMD_DELETE \/ h.(rh_opcode) = PROTOCOL_BINARY_CMD_DELETEQ ->
  h.(rh_extlen) = 0 -> h.(rh_keylen) = h.(rh_bodylen) ->
  serve_delete h body (server_of w) = Some (a, s) ->
  runs (delete_executor packet_at) w (fun _ w' => given w a s w').
Proof.
  intros Hop Hext Hlen Hs. unfold serve_delete in Hs.
  apply run_bind_Some in Hs as (r & s1 & (e & He & ->)%call_Some & Hs).
  unfold delete_executor. run. rewrite (rd_cmd _ _ _ _ _ _ Hw).
  set (quiet := h.(rh_opcode) =? PROTOCOL_BINARY_CMD_DELETEQ) in *.
  set (w1 := set_w_conn (set_cn_noreply quiet w.(w_conn)) w).
  assert (N1 : near w1) by (eapply near_step; [apply near_refl|same..]).
  eapply (runs_mono _ _ (fun _ w' => w' = w1)).
  { unfold w1. apply runs_when; intros ->; run; [done|]. pose proof (rd_quiet _ _ _ _ _ _ Hw) as E.
    destruct w as [[]]. cbn in E. by subst. }
  intros [] w' ->. destruct (near_rbuf _ N1) as (E1 & E2 & E3). unfold process_bin_delete.
  apply runs_bind, get_request_run; [done|done|lia|]. apply runs_bind, key_run; [done..|lia|].
  apply runs_bind, packet_at_run; [done..|]. intros tail.
  run; [apply (parsed_fields _ _ _ Hp)|]. apply take_aiostat_run; [by apply nr_alive|]. apply runs_bind, ewouldblock_run; [by apply nr_alive|].
  change (is_success ENGINE_SUCCESS) with true. cbn match. run. rewrite E3. eapply runs_eng; [exact He|].
  set (w2 := set_w_engine e w1). assert (N2 : near w2) by (eapply near_step; [exact N1|same..]).
  assert (Hng : is_get h.(rh_opcode) = false) by (by destruct Hop as [-> | ->]).
  assert (Hw2 : ready w2 h h.(rh_opcode) quiet 0 NULL) by (apply near_ready; [done|apply Hw|done|apply Hw]).
  destruct r as [[] cas]; cbn [fst snd] in *; try done;
    try (apply near_given; [exact N2|]; by eapply fail_with_given).
  run. set (w3 := set_w_conn _ w2). assert (N3 : near w3) by (eapply near_step; [exact N2|same..]).
  apply near_given; [exact N3|]. eapply succeed_given; [|exact Hng|exact Hs].
  apply near_ready; [done|apply Hw|done|done].
Qed.

Definition arith_op (op : Z) : Prop :=
  op = PROTOCOL_BINARY_CMD_INCREMENT \/ op = PROTOCOL_BINARY_CMD_INCREMENTQ \/
  op = PROTOCOL_BINARY_CMD_DECREMENT \/ op = PROTOCOL_BINARY_CMD_DECREMENTQ.

(** The command without its quiet variant. *)
Lemma arith_cmd op : arith_op op -> exists cmd quiet,
  (if op =? PROTOCOL_BINARY_CMD_INCREMENTQ then set_quiet (S := S) PROTOCOL_BINARY_CMD_INCREMENT true
   else if op =? PROTOCOL_BINARY_CMD_INCREMENT then set_quiet PROTOCOL_BINARY_CMD_INCREMENT false
   else if op =? PROTOCOL_BINARY_CMD_DECREMENTQ then set_quiet PROTOCOL_BINARY_CMD_DECREMENT true
   else if op =? PROTOCOL_BINARY_CMD_DECREMENT then set_quiet PROTOCOL_BINARY_CMD_DECREMENT false
   else crash) = set_quiet cmd quiet /\
  one_of [PROTOCOL_BINARY_CMD_INCREMENTQ; PROTOCOL_BINARY_CMD_DECREMENTQ] op = quiet /\
  one_of [PROTOCOL_BINARY_CMD_INCREMENT; PROTOCOL_BINARY_CMD_INCREMENTQ] op
  = (cmd =? PROTOCOL_BINARY_CMD_INCREMENT) /\ is_get cmd = false.
Proof. intros [-> | [-> | [-> | ->]]]; by eexists _, _. Qed.

Lemma arithmetic_given a s :
  arith_op h.(rh_opcode) -> h.(rh_extlen) = 20 -> h.(rh_keylen) + 20 = h.(rh_bodylen) ->
  serve_arithmetic h body (server_of w) = Some (a, s) ->
  runs (arithmetic_executor packet_at) w (fun _ w' => given w a s w').
Proof.
  intros Hop Hext Hlen Hs. unfold serve_arithmetic in Hs. unfold arithmetic_executor.
  destruct (arith_cmd _ Hop) as (cmd & quiet & Hcmd & Hq & Hi & Hng).
  cbv zeta in Hs. rewrite Hq, Hi in Hs. pose proof (ro_keylen _ (rd_ok _ _ _ _ _ _ Hw)) as Hkl.
  apply runs_bind, get_request_run; [done|apply Hw|lia|]. run. rewrite (rd_cmd _ _ _ _ _ _ Hw), Hcmd.
  unfold set_quiet. run. set (w1 := set_w_conn _ w).
  assert (N1 : near w1) by (eapply near_step; [apply near_refl|same..]).
  assert (Hw1 : ready w1 h cmd quiet 0 NULL) by (apply near_ready; [done|done|done|apply Hw]).
  destruct (near_rbuf _ N1) as (E1 & E2 & E3).
  apply packet_at_run; [done..|]. intros tail. run; [apply (parsed_fields _ _ _ Hp)|].
  destruct (negb (h.(rh_cas) =? 0)); [apply near_given; [done|]; by eapply fail_with_given|].
  apply run_bind_Some in Hs as ([[ret cas] num] & s1 & (e & He & ->)%call_Some & Hs).
  run; [apply (body_field _ _ _ 0 8); [apply Hp|lia]|apply (body_field _ _ _ 8 8); [apply Hp|lia]
       |apply (body_field _ _ _ 16 4); [apply Hp|lia]|].
  apply key_run; [done..|lia|]. run. unfold id. apply take_aiostat_run; [by apply nr_alive|].
  change (is_success ENGINE_SUCCESS) with true. cbn match. run.
  rewrite E3, (rd_cmd _ _ _ _ _ _ Hw1), (rd_cas _ _ _ _ _ _ Hw1), drop_0. eapply runs_eng; [exact He|].
  run. cbn [fst snd] in *. set (w2 := set_w_conn _ _). assert (N2 : near w2) by (eapply near_step; [exact N1|same..]).
  assert (Hw2 : ready w2 h cmd quiet cas NULL) by (by apply near_ready).
  destruct ret; try (apply near_given; [exact N2|]; first [by eapply fail_with_given|by eapply write_code_given]).
  pose proof (al_wbuf _ (rd_alive _ _ _ _ _ _ Hw)) as Hwb.
  run; [apply splice_Some; [lia|rewrite be_bytes_length; proj; unfold w1; proj; rewrite Hwb; lia]|].
  rewrite be_bytes_length. set (b := take _ _ ++ _). set (w3 := set_w_conn _ w2).
  change (cn_wbuf (w_conn w1)) with (cn_wbuf (w_conn w)) in b.
  assert (Hb : length b = 2048%nat).
  { unfold b. rewrite !length_app, length_take, length_drop, be_bytes_length, Hwb. lia. }
  assert (N3 : near w3).
  { constructor; try same. pose proof (nr_alive _ N2) as []. constructor; try done. }
  apply near_given; [exact N3|]. change 8 with (Z.of_nat (length (be_bytes 8 num))).
  eapply (succeed_value_given w3 h cmd quiet cas NULL); [by apply near_ready|done| | |exact Hs].
  - rewrite be_bytes_length. lia.
  - change (slice b 24 (Z.of_nat (length (be_bytes 8 num))) = Some (be_bytes 8 num)).
    unfold b. rewrite slice_app_r by (rewrite length_take, Hwb; lia).
    rewrite length_take, Hwb. change (24 - Z.of_nat _) with 0. rewrite slice_app_l by lia. by apply slice_all.
Qed.

(** ** Commands whose reply goes through the dynamic buffer *)

Lemma buffered_given w' cmd quiet cas0 a s ext value st cas :
  near w' -> ready w' h cmd quiet cas0 NULL ->
  buffered (response h st 0 cas ext [] value) (server_of w') = Some (a, s) ->
  runs (binary_response_handler [] ext value PROTOCOL_BINARY_RAW_BYTES st cas) w'
    (fun r w1 => r = true /\ runs write_dynamic_buffer w1 (fun _ w2 => given w a s w2)).
Proof.
  intros N Hw' Hs. unfold buffered in Hs. destruct (Z.leb_spec (Z.of_nat (length (response h st 0 cas ext [] value)))
    reply_limit) as [Hlen|]; [|done]. injection Hs as <- <-.
  eapply runs_mono; [by eapply binary_response_run|]. intros r w1 [-> Hg]. split; [done|].
  eapply runs_mono; [by eapply write_dynamic_run|]. intros [] w2 Hgv. destruct N. by eapply given_start.
Qed.

Lemma hello_given a s :
  (u32 (h.(rh_bodylen) - h.(rh_keylen))) mod 2 = 0 ->
  serve_hello h body (server_of w) = Some (a, s) ->
  runs (process_hello_packet_executor packet_at) w (fun _ w' => given w a s w').
Proof.
  intros Heven Hs. unfold serve_hello in Hs.
  destruct (Z.ltb_spec (Z.of_nat (length body)) h.(rh_keylen)) as [|Hk]; [done|].
  pose proof (rd_ok _ _ _ _ _ _ Hw) as [_ Hkl _ _ _ Hbl _ _].
  unfold process_hello_packet_executor. apply runs_bind, packet_at_run; [done..|]. intros tail.
  destruct (parsed_fields hdr h (body ++ tail) Hp) as (F1 & F2 & _). pose proof (ps_length _ _ Hp) as Hh.
  run; [done|done|..].
  { apply slice_Some; [lia|destruct (256 <? _); lia|]. rewrite !length_app.
    destruct (Z.ltb_spec 256 h.(rh_keylen)); lia. }
  rewrite u32_small in * by lia. set (w1 := set_w_conn _ w).
  set (feat := drop (Z.to_nat h.(rh_keylen)) body) in *.
  replace (drop (24 + Z.to_nat (rh_keylen h)) (hdr ++ body ++ tail)) with (feat ++ tail).
  2:{ rewrite <- drop_drop, <- Hh, drop_app_length, drop_app_le by lia. done. }
  replace ((rh_bodylen h - rh_keylen h) / 2) with (Z.of_nat (length feat / 2)).
  2:{ rewrite Nat2Z.inj_div. f_equal. unfold feat. rewrite length_drop. lia. }
  eapply runs_mono.
  { apply (hello_features_run _ feat tail w1 false); [|done].
    apply Z.div_exact in Heven; [|lia]. unfold feat. rewrite length_drop.
    apply Nat2Z.inj. rewrite Nat2Z.inj_mul, Nat2Z.inj_div. rewrite Nat2Z.inj_sub, Z2Nat.id by lia.
    rewrite Hbody. done. }
  intros r w2 [-> ->]. set (g := grants feat false) in *. set (w2 := set_w_conn _ w1).
  assert (N2 : near w2) by (eapply near_step; [apply near_refl|same..]).
  assert (Hw2 : ready w2 h h.(rh_opcode) false 0 NULL) by (apply near_ready; [done|apply Hw..]).
  apply run_bind_Some in Hs as ([] & s1 & [= <-] & Hs).
  change (mk_server _ _ _ _) with (server_of w2) in Hs.
  destruct g; cbn [granted] in *.
  - change (be_bytes 2 PROTOCOL_BINARY_FEATURE_DATATYPE) with [0; 1] in *. apply runs_bind.
    eapply runs_mono; [eapply buffered_given; [done|exact Hw2|exact Hs]|]. by intros r w3 [_ Hr].
  - apply near_given; [exact N2|]. by eapply fail_with_given.
Qed.

Lemma cookie_is_admin_run (Q : bool -> world S -> Prop) :
  Q (disable_admin || w.(w_conn).(cn_admin)) w -> runs cookie_is_admin w Q.
Proof. intros HQ. unfold cookie_is_admin. by destruct disable_admin; run. Qed.

Lemma set_token_given a s : h.(rh_bodylen) = 8 ->
  serve_set_token w.(w_conn).(cn_admin) w.(w_session_ctr) h body (server_of w) = Some (a, s) ->
  runs (set_ctrl_token_executor packet_at) w (fun _ w' => given w a s w').
Proof.
  intros Hlen Hs. unfold serve_set_token in Hs. unfold set_ctrl_token_executor.
  apply runs_bind, packet_at_run; [done..|]. intros tail. run; [apply (parsed_fields _ _ _ Hp)|].
  apply cookie_is_admin_run. destruct (disable_admin || w.(w_conn).(cn_admin)); cbn [negb] in *; [|by eapply fail_with_given].
  apply run_bind_Some in Hs as (sv & s1 & [= <- <-] & Hs). unfold id in Hs. cbn [sv_session server_of] in Hs.
  pose proof (near_refl) as N. run. unfold id. destruct (0 <? w.(w_session_ctr)); [|destruct (_ || _)]; run.
  - eapply runs_mono; [by eapply (buffered_given w)|]. by intros r w3 [_ Hr].
  - apply (body_field _ _ _ 0 8); [apply Hp|lia].
  - rewrite drop_0, take_ge by lia. apply run_bind_Some in Hs as ([] & s1 & [= <-] & Hs). proj.
    set (w1 := set_w_session_value _ w). assert (N1 : near w1) by (eapply near_step; [apply near_refl|same..]).
    eapply runs_mono; [eapply (buffered_given w1); [done|apply near_ready; [done|apply Hw..]|exact Hs]|].
    by intros r w3 [_ Hr].
  - eapply runs_mono; [by eapply (buffered_given w)|]. by intros r w3 [_ Hr].
Qed.

Lemma get_token_given a s :
  serve_get_token w.(w_conn).(cn_admin) h (server_of w) = Some (a, s) ->
  runs (get_ctrl_token_executor packet_at) w (fun _ w' => given w a s w').
Proof.
  intros Hs. unfold serve_get_token in Hs. unfold get_ctrl_token_executor. run.
  apply cookie_is_admin_run. destruct (disable_admin || w.(w_conn).(cn_admin)); cbn [negb] in *; [|by eapply fail_with_given].
  apply run_bind_Some in Hs as (sv & s1 & [= <- <-] & Hs). run.
  eapply runs_mono; [eapply (buffered_given w); [apply near_refl|exact Hw|exact Hs]|]. by intros r w3 [_ Hr].
Qed.

Lemma ioctl_set_given a s :
  serve_ioctl_set h body (server_of w) = Some (a, s) ->
  runs (ioctl_set_executor packet_at) w (fun _ w' => given w a s w').
Proof.
  intros Hs. unfold serve_ioctl_set in Hs. pose proof (rd_ok _ _ _ _ _ _ Hw) as [_ Hkl _ _ _ Hbl _ _].
  destruct (Z.ltb_spec (Z.of_nat (length body)) h.(rh_keylen)) as [|Hk]; [done|].
  unfold ioctl_set_executor. apply runs_bind, packet_at_run; [done..|]. intros tail.
  run; [apply (parsed_fields _ _ _ Hp)|]. set (name := bytes_of "release_free_memory") in *.
  assert (Hname : length name = 19%nat) by done.
  assert (Hno : h.(rh_keylen) <> 19 -> bool_decide (take (Z.to_nat (rh_keylen h)) body = name) = false).
  { intros Hne. apply bool_decide_eq_false. intros E. apply (f_equal length) in E.
    rewrite length_take, Hname in E. lia. }
  destruct ((h.(rh_keylen) =? 0) || (KEY_MAX_LENGTH <? h.(rh_keylen))) eqn:Ek.
  { rewrite Hno in Hs by (unfold KEY_MAX_LENGTH in Ek; lia). by eapply fail_with_given. }
  run. rewrite <- (ps_length _ _ Hp), drop_app_length. eapply runs_mono.
  { apply (strncmp_run name (body ++ tail) (Z.to_nat h.(rh_keylen)) w). rewrite length_app. lia. }
  intros r w' [-> Hr]. destruct (Z.eqb_spec h.(rh_keylen) 19) as [E|E].
  - rewrite Hr by lia. rewrite take_app_le by lia. rewrite andb_true_r.
    destruct (bool_decide _); by eapply fail_with_given.
  - rewrite andb_false_r. rewrite Hno in Hs by done. by eapply fail_with_given.
Qed.

(** ** Commands of the engine *)

(** The bytes of a reply of the engine. *)
Definition reply_bytes (r : reply) : list Z :=
  response h (reply_code r.(r_status)) PROTOCOL_BINARY_RAW_BYTES r.(r_cas) r.(r_ext) [] r.(r_body).

(** The answers of the engine that [serve_unknown] accepts. *)
Lemma unknown_cases r e a s :
  match r.1, r.2 with
  | ENGINE_SUCCESS, Some rep => buffered (reply_bytes rep)
  | ENGINE_SUCCESS, None => done []
  | ENGINE_EWOULDBLOCK, _ | ENGINE_DISCONNECT, _ => crash
  | ret, None => fail_with h (engine_error_2_protocol_error ret) 0
  | _, Some _ => crash
  end (server_of (set_w_engine e w)) = Some (a, s) ->
  (exists rep, r = (ENGINE_SUCCESS, Some rep) /\ buffered (reply_bytes rep) (server_of (set_w_engine e w)) = Some (a, s))
  \/ (r = (ENGINE_SUCCESS, None) /\ a = mk_answer [] NULL Continue /\ s = server_of (set_w_engine e w))
  \/ (exists ret, r = (ret, None) /\ ~ ret ∈ [ENGINE_SUCCESS; ENGINE_EWOULDBLOCK; ENGINE_DISCONNECT] /\
      fail_with h (engine_error_2_protocol_error ret) 0 (server_of (set_w_engine e w)) = Some (a, s)).
Proof.
  destruct r as [[] [rep|]]; cbn [fst snd]; intros Hs; try done; try (by left; eexists);
    try (right; left; by injection Hs as <- <-);
    (right; right; eexists; split; [done|]; split; [set_solver|exact Hs]).
Qed.

Lemma respond_run e rep a s :
  buffered (reply_bytes rep) (server_of (set_w_engine e w)) = Some (a, s) ->
  exists w1, binary_response_handler [] rep.(r_ext) rep.(r_body) PROTOCOL_BINARY_RAW_BYTES (reply_code rep.(r_status))
               rep.(r_cas) (set_w_engine e w) = Some (true, w1) /\
             w1.(w_conn).(cn_dyn_buffer) <> None /\
             runs write_dynamic_buffer w1 (fun _ w2 => given w a s w2).
Proof.
  intros Hb. set (we := set_w_engine e w). assert (N : near we) by (eapply near_step; [apply near_refl|same..]).
  assert (Hwe : ready we h h.(rh_opcode) false 0 NULL) by (by apply ready_engine).
  unfold buffered in Hb. destruct (Z.leb_spec (Z.of_nat (length (reply_bytes rep))) reply_limit) as [Hlen|]; [|done].
  destruct (binary_response_run we h _ _ _ _ _ _ _ _ Hwe Hlen) as (r & w1 & Hr & -> & Hg).
  exists w1. split; [exact Hr|]. split; [by destruct Hg as [(d & sz & -> & _)]|]. injection Hb as <- <-.
  eapply runs_mono; [by eapply write_dynamic_run|]. intros [] w2 Hgv. by apply given_engine in Hgv.
Qed.

(** The reply of the engine is gathered, or there is none. *)
Lemma unknown_answer_run cmd r e a s tail :
  EngineV1Ok S -> v1_unknown_command = Some cmd ->
  w.(w_conn).(cn_supports_datatype) = true \/ h.(rh_datatype) = PROTOCOL_BINARY_RAW_BYTES ->
  cmd (hdr ++ body) (fun _ => true) w.(w_engine) = Some (r, e) ->
  (forall rep, r.2 = Some rep -> buffered (reply_bytes rep) (server_of (set_w_engine e w)) = Some (a, s)) ->
  runs (default_unknown_command (hdr ++ body ++ tail)) w (fun ret w1 => ret = r.1 /\
    match r.2 with
    | Some rep => w1.(w_conn).(cn_dyn_buffer) <> None /\ runs write_dynamic_buffer w1 (fun _ w2 => given w a s w2)
    | None => w1 = set_w_engine e w
    end).
Proof.
  intros EOK Hcmd Hdt He Hrep. unfold default_unknown_command. run; [apply (parsed_fields _ _ _ Hp)|]. unfold id.
  replace (negb _ && negb _) with false.
  2:{ symmetry. destruct Hdt as [-> | ->]; [done|]. by rewrite andb_false_r. }
  run; [exact Hcmd|]. unfold id. eapply runs_eng.
  { rewrite app_assoc. eapply unknown_local; [exact Hcmd|exact He|]. intros rep Hr.
    destruct (respond_run w.(w_engine) rep (mk_answer (reply_bytes rep) NULL Continue)
      (server_of (set_w_engine w.(w_engine) w))) as (w1 & Hr1 & _).
    { specialize (Hrep rep Hr). revert Hrep. unfold buffered. by destruct (_ <=? _). }
    replace (set_w_engine (w_engine w) w) with w in Hr1 by (by destruct w). by rewrite Hr1. }
  destruct r as [ret [rep|]]; cbn [fst snd] in *.
  - destruct (respond_run e rep a s (Hrep rep eq_refl)) as (w1 & Hr1 & Hd & Hw1). run.
    eexists _, _. split; [exact Hr1|]. run. done.
  - run. done.
Qed.

Lemma unknown_given a s : EngineV1Ok S ->
  serve_unknown h (hdr ++ body) (server_of w) = Some (a, s) ->
  runs process_bin_unknown_packet w (fun _ w' => given w a s w').
Proof.
  intros EOK Hs. unfold serve_unknown in Hs. apply run_bind_Some in Hs as (sv & s1 & [= <- <-] & Hs).
  unfold process_bin_unknown_packet. run. unfold id. rewrite (rd_header _ _ _ _ _ _ Hw).
  apply take_aiostat_run; [apply Hw|]. apply runs_bind, ewouldblock_run; [apply Hw|].
  change (is_success ENGINE_SUCCESS) with true. cbn match.
  apply runs_bind, runs_bind, packet_at_run; [done..|]. intros tail.
  unfold id in Hs. cbn [sv_datatype server_of] in Hs.
  destruct (negb w.(w_conn).(cn_supports_datatype) && negb (h.(rh_datatype) =? PROTOCOL_BINARY_RAW_BYTES)) eqn:Edt.
  - unfold default_unknown_command. run; [apply (parsed_fields _ _ _ Hp)|]. unfold id. rewrite Edt. run.
    destruct (respond_run w.(w_engine) (mk_reply [] [] RESPONSE_EINVAL 0) a s) as (w1 & Hr1 & Hd & Hw1).
    { by destruct w. }
    replace (set_w_engine (w_engine w) w) with w in Hr1 by (by destruct w).
    eexists _, _. split; [exact Hr1|]. run. cbn match. run. destruct (cn_dyn_buffer _); [exact Hw1|done].
  - apply run_bind_Some in Hs as (cmd & s1 & Hc & Hs). unfold of_option in Hc.
    destruct v1_unknown_command as [cmd'|] eqn:Hcmd; [|done]. injection Hc as -> <-.
    apply run_bind_Some in Hs as (r & s1 & (e & He & ->)%call_Some & Hs).
    assert (Hdt : w.(w_conn).(cn_supports_datatype) = true \/ h.(rh_datatype) = PROTOCOL_BINARY_RAW_BYTES).
    { destruct (cn_supports_datatype _); [by left|right]. cbn in Edt. by apply negb_false_iff, Z.eqb_eq in Edt. }
    destruct (unknown_cases r e a s Hs) as [(rep & -> & Hb)|[(-> & Ha & Hse)|(ret & -> & Hn & Hf)]];
      (eapply runs_mono; [eapply (unknown_answer_run cmd _ e a s tail EOK Hcmd Hdt He)|]).
    + by intros ? [= <-].
    + cbn [fst snd]. intros ? w1 [-> [Hd Hw1]]. cbn match. run. destruct (cn_dyn_buffer _); [exact Hw1|done].
    + done.
    + cbn [fst snd]. intros ? w1 [-> ->]. cbn match. run. proj.
      rewrite (al_dyn _ (rd_alive _ _ _ _ _ _ Hw)). run.
      subst a s. eapply silent_given; [exact Hw|same..].
    + done.
    + cbn [fst snd]. intros ? w1 [-> ->]. set (w2 := set_w_engine e w).
      assert (N : near w2) by (eapply near_step; [apply near_refl|same..]).
      assert (Hw2 : ready w2 h h.(rh_opcode) false 0 NULL) by (by apply ready_engine).
      assert (Hgo : runs (updc (set_cn_dyn_buffer None);; write_bin_packet (engine_error_2_protocol_error ret) 0)
        w2 (fun _ w' => given w a s w')).
      { run. replace (set_w_conn _ w2) with w2.
        - apply near_given; [exact N|]. by eapply fail_with_given.
        - pose proof (al_dyn _ (rd_alive _ _ _ _ _ _ Hw2)) as E. destruct w2 as [[]]. cbn in E. by subst. }
      destruct ret; try exact Hgo; set_solver.
Qed.

(** ** GET *)

Definition get_op (op : Z) : Prop :=
  op = PROTOCOL_BINARY_CMD_GET \/ op = PROTOCOL_BINARY_CMD_GETQ \/
  op = PROTOCOL_BINARY_CMD_GETK \/ op = PROTOCOL_BINARY_CMD_GETKQ.

Lemma get_cmd op : get_op op -> exists cmd quiet,
  (if op =? PROTOCOL_BINARY_CMD_GETQ then set_quiet (S := S) PROTOCOL_BINARY_CMD_GET true
   else if op =? PROTOCOL_BINARY_CMD_GET then set_quiet PROTOCOL_BINARY_CMD_GET false
   else if op =? PROTOCOL_BINARY_CMD_GETKQ then set_quiet PROTOCOL_BINARY_CMD_GETK true
   else if op =? PROTOCOL_BINARY_CMD_GETK then set_quiet PROTOCOL_BINARY_CMD_GETK false
   else crash) = set_quiet cmd quiet /\
  one_of [PROTOCOL_BINARY_CMD_GETQ; PROTOCOL_BINARY_CMD_GETKQ] op = quiet /\
  one_of [PROTOCOL_BINARY_CMD_GETK; PROTOCOL_BINARY_CMD_GETKQ] op = (cmd =? PROTOCOL_BINARY_CMD_GETK).
Proof. intros [-> | [-> | [-> | ->]]]; by eexists _, _. Qed.

Lemma near_answered w' a s m : near w' ->
  runs m w' (fun (_ : unit) w2 => answered w' a w2 /\ server_of w2 = s) ->
  runs m w' (fun _ w2 => answered w a w2 /\ server_of w2 = s).
Proof.
  intros [_ _ _ Ho] Hm. eapply runs_mono; [exact Hm|]. intros [] w2 [[] ?]. split; [|done].
  constructor; try done. congruence.
Qed.

(** A world near [w] whose response is given. *)
Lemma near_finish w' a s m : near w' -> runs m w' (fun (_ : unit) w2 => given w' a s w2) ->
  runs m w' (fun _ w2 => answered w a w2 /\ server_of w2 = s).
Proof.
  intros N Hm. eapply runs_mono; [apply near_given; [exact N|exact Hm]|]. intros [] w2 Hg.
  apply given_answered; [exact Hg|apply Hw].
Qed.

Lemma rq_key_length : h.(rh_keylen) <= h.(rh_bodylen) -> Z.of_nat (length (rq_key h body)) = h.(rh_keylen).
Proof.
  intros Hk. pose proof (ro_keylen _ (rd_ok _ _ _ _ _ _ Hw)) as Hr. unfold rq_key. rewrite length_drop. lia.
Qed.

Lemma of_option_Some {St A} (o : option A) (x : A) (st st' : St) :
  of_option o st = Some (x, st') -> o = Some x /\ st' = st.
Proof. destruct o; [|done]. by intros [= -> <-]. Qed.

Lemma item_answered w' cmd quiet key it info a s :
  near w' -> ready w' h cmd quiet 0 NULL -> Z.of_nat (length key) = h.(rh_keylen) ->
  serve_item h (cmd =? PROTOCOL_BINARY_CMD_GETK) it info (server_of w') = Some (a, s) ->
  runs (send_item key it info) w' (fun _ w2 => answered w a w2 /\ server_of w2 = s).
Proof.
  intros N Hw' Hkey Hs. unfold serve_item in Hs. apply run_bind_Some in Hs as (sv & s1 & [= <- <-] & Hs).
  unfold id in Hs. cbn [sv_datatype sv_engine server_of] in Hs. pose proof (ro_keylen _ (rd_ok _ _ _ _ _ _ Hw)) as Hr.
  destruct (negb _ && _) eqn:Hinf; [done|]. destruct (Z.ltb_spec reply_limit info.(ii_nbytes)) as [|Hnb]; [done|].
  apply run_bind_Some in Hs as (d & s1 & [Hd ->]%of_option_Some & Hs).
  apply run_bind_Some in Hs as (value & s1 & Hval & Hs).
  destruct (Z.ltb_spec 0 info.(ii_nvalue)) as [Hnv|]; [|done]. apply of_option_Some in Hval as [Hval ->].
  pose proof (slice_bounds _ _ _ _ Hval) as (_ & Hnn & _).
  apply run_bind_Some in Hs as (k & s1 & Hk & Hs).
  assert (Hk' : (if cmd =? PROTOCOL_BINARY_CMD_GETK then exists k', v1_key w'.(w_engine) it = Some k' /\
    slice k' 0 (Z.of_nat (length key)) = Some k else k = []) /\ s1 = server_of w').
  { destruct (cmd =? _); [|by injection Hk as <- <-].
    apply run_bind_Some in Hk as (k' & s2 & [Hk' ->]%of_option_Some & [Hk ->]%of_option_Some).
    split; [|done]. exists k'. by rewrite Hkey. }
  destruct Hk' as [Hk' ->]. injection Hs as <- <-. apply near_answered; [exact N|].
  eapply send_item_run; try done. lia.
Qed.

Lemma get_answered a s :
  get_op h.(rh_opcode) -> h.(rh_keylen) = h.(rh_bodylen) -> h.(rh_keylen) <= KEY_MAX_LENGTH ->
  serve_get h body (server_of w) = Some (a, s) ->
  runs (get_executor packet_at) w (fun _ w' => answered w a w' /\ server_of w' = s).
Proof.
  unfold KEY_MAX_LENGTH. intros Hop Hlen Hmax Hs. unfold serve_get in Hs. unfold get_executor.
  destruct (get_cmd _ Hop) as (cmd & quiet & Hcmd & Hq & Hk). cbv zeta in Hs. rewrite Hq, Hk in Hs.
  apply run_bind_Some in Hs as ([ret it] & s1 & (e & He & ->)%call_Some & Hs). cbn [fst snd] in Hs.
  run. rewrite (rd_cmd _ _ _ _ _ _ Hw), Hcmd. unfold set_quiet. run. set (w1 := set_w_conn _ w).
  assert (N1 : near w1) by (eapply near_step; [apply near_refl|same..]). destruct (near_rbuf _ N1) as (E1 & E2 & E3).
  pose proof (rq_key_length ltac:(lia)) as Hkl.
  unfold process_bin_get. apply runs_bind, key_run; [done..|lia|]. apply runs_bind, take_aiostat_run; [by apply nr_alive|].
  change (is_success ENGINE_SUCCESS) with true. cbn match. run. rewrite E3. eapply runs_eng; [exact He|].
  set (w2 := set_w_engine e w1). assert (N2 : near w2) by (eapply near_step; [exact N1|same..]).
  assert (Hw2 : ready w2 h cmd quiet 0 NULL) by (apply near_ready; [done..|apply Hw]). cbn [fst snd].
  destruct ret; try done; try (apply near_finish; [exact N2|]; by eapply fail_with_given).
  - apply run_bind_Some in Hs as (info & s1 & (e2 & He2 & ->)%call_Some & Hs). run. eapply runs_eng; [exact He2|].
    set (w3 := set_w_engine e2 w2). assert (N3 : near w3) by (eapply near_step; [exact N2|same..]).
    assert (Hw3 : ready w3 h cmd quiet 0 NULL) by (by apply ready_engine).
    destruct info as [info|].
    + eapply item_answered; [exact N3|exact Hw3|exact Hkl|exact Hs].
    + apply run_bind_Some in Hs as ([] & s1 & (e3 & He3 & ->)%call_Some & Hs). run. eapply runs_eng; [exact He3|].
      set (w4 := set_w_engine e3 w3). assert (N4 : near w4) by (eapply near_step; [exact N3|same..]).
      apply near_finish; [exact N4|]. eapply fail_with_given; [|exact Hs]. by apply ready_engine.
  - run. unfold id. rewrite (rd_quiet _ _ _ _ _ _ Hw2), (rd_cmd _ _ _ _ _ _ Hw2).
    destruct quiet.
    { injection Hs as <- <-. apply near_finish; [exact N2|]. run. eapply silent_given; [exact Hw2|same..]. }
    destruct (cmd =? PROTOCOL_BINARY_CMD_GETK) eqn:Ek.
    + injection Hs as <- <-. apply near_answered; [exact N2|]. eapply missing_key_run; [exact Hw2|lia].
    + apply near_finish; [exact N2|]. by eapply fail_with_given.
Qed.

(** ** The dispatch of a packet *)

Lemma parse_packet l : parse_request (hdr ++ l) = Some h.
Proof. rewrite parse_request_app by (rewrite (ps_length _ _ Hp); lia). apply Hp. Qed.

(** A validator gives the same result for the packet alone. *)
Lemma validator_local op v tail : validators op = Some v ->
  exists b, v (hdr ++ body ++ tail) = Some b /\ v (hdr ++ body) = Some b.
Proof.
  intros Hv. assert (Hcase : v = set_ctrl_token_validator \/ exists f, forall l, v l = (r ← parse_request l; Some (f r))).
  { unfold validators in Hv. repeat match type of Hv with (if ?c then _ else _) = _ => destruct c end;
      try (injection Hv as <-); try (by left); try (right; by eexists); discriminate. }
  destruct Hcase as [-> | [f Hf]].
  - unfold set_ctrl_token_validator. rewrite !parse_packet. cbn [mbind option_bind].
    destruct (_ && _) eqn:Ec; [|by exists false]. boolify.
    pose proof (body_field hdr body tail 0 8 (ps_length _ _ Hp) ltac:(lia)) as F1.
    pose proof (body_field hdr body [] 0 8 (ps_length _ _ Hp) ltac:(lia)) as F2. rewrite app_nil_r in F2.
    cbn [Nat.add] in F1, F2. rewrite F1, F2. cbn. by eexists.
  - rewrite !Hf, !parse_packet. cbn. by eexists.
Qed.

Lemma validate_run :
  runs (match validators h.(rh_opcode) with
        | Some v => pkt ← rbuf_from packet_at; of_option (v pkt)
        | None => mret true
        end) w (fun b w' => w' = w /\ b = valid h (hdr ++ body)).
Proof.
  unfold valid. destruct (validators h.(rh_opcode)) as [v|] eqn:Hv; [|by run].
  apply runs_bind, packet_at_run; [done..|]. intros tail.
  destruct (validator_local _ v tail Hv) as (b & H1 & H2). run; [exact H1|]. by rewrite H2.
Qed.

Lemma in_list_1 x op : in_list [x] op = (op =? x).
Proof. unfold in_list. cbn. by rewrite orb_false_r. Qed.

Lemma in_list_snoc l x op : in_list (l ++ [x]) op = in_list l op || (op =? x).
Proof. unfold in_list. rewrite existsb_app. cbn. by rewrite orb_false_r. Qed.

Lemma in_list_2 x y op : in_list [x; y] op = true -> op = x \/ op = y.
Proof. unfold in_list. cbn. intros Hx. boolify. rewrite orb_false_r, orb_true_iff, !Z.eqb_eq in Hx. done. Qed.

Lemma in_list_4 x y z u op : in_list [x; y; z; u] op = true -> op = x \/ op = y \/ op = z \/ op = u.
Proof. unfold in_list. cbn. rewrite orb_false_r, !orb_true_iff, !Z.eqb_eq. tauto. Qed.

(** What a validator tells. *)
Ltac facts Hv v :=
  unfold v, bare_request, request_of_raw_bytes in Hv; rewrite parse_packet in Hv;
  cbn [mbind option_bind default from_option id] in Hv; boolify.

Lemma process_bin_packet_answered a s :
  EngineV1Ok S -> h.(rh_magic) <> PROTOCOL_BINARY_RES -> h.(rh_keylen) <= KEY_MAX_LENGTH ->
  serve_packet w.(w_conn).(cn_admin) w.(w_session_ctr) h hdr body (server_of w) = Some (a, s) ->
  runs process_bin_packet w (fun _ w' => answered w a w' /\ server_of w' = s).
Proof.
  intros EOK Hmagic Hkey Hs. unfold serve_packet in Hs. cbv zeta in Hs. rewrite (proj2 (Z.eqb_neq _ _) Hmagic) in Hs.
  unfold process_bin_packet. run. unfold id. rewrite (rd_header _ _ _ _ _ _ Hw).
  eapply runs_mono; [apply validate_run|]. intros b w' [-> ->]. pose proof near_refl as N.
  destruct (valid h (hdr ++ body)) eqn:Hv; cbn [negb] in *.
  2:{ apply near_finish; [done|]. by eapply fail_with_given. }
  unfold valid in Hv. unfold executors, validators, one_of in *.
  destruct (Z.eqb_spec h.(rh_opcode) PROTOCOL_BINARY_CMD_VERBOSITY) as [E|_].
  { facts Hv verbosity_validator. apply near_finish; [done|]. by eapply verbosity_given. }
  destruct (Z.eqb_spec h.(rh_opcode) PROTOCOL_BINARY_CMD_HELLO) as [E|_].
  { facts Hv hello_validator. apply near_finish; [done|]. by eapply hello_given. }
  destruct (Z.eqb_spec h.(rh_opcode) PROTOCOL_BINARY_CMD_VERSION) as [E|_].
  { destruct (Z.leb_spec (Z.of_nat (length server_version)) version_limit); [|done].
    apply near_finish; [done|]. by eapply version_given. }
  change [PROTOCOL_BINARY_CMD_QUIT; _] with ([PROTOCOL_BINARY_CMD_QUIT] ++ [PROTOCOL_BINARY_CMD_QUITQ]) in Hv.
  rewrite in_list_snoc, in_list_1 in Hv.
  destruct (Z.eqb_spec h.(rh_opcode) PROTOCOL_BINARY_CMD_QUIT) as [E|_].
  { injection Hs as <- <-. apply near_finish; [done|]. by apply quit_run. }
  destruct (Z.eqb_spec h.(rh_opcode) PROTOCOL_BINARY_CMD_QUITQ) as [E|_].
  { injection Hs as <- <-. apply near_finish; [done|]. unfold quitq_executor. run.
    eapply closing_given; [exact Hw|same..]. }
  destruct (Z.eqb_spec h.(rh_opcode) PROTOCOL_BINARY_CMD_NOOP) as [E|_].
  { apply near_finish; [done|]. by eapply noop_given. }
  cbn [orb] in Hv.
  destruct (in_list [PROTOCOL_BINARY_CMD_FLUSH; _] _) eqn:E.
  { facts Hv flush_validator. apply near_finish; [done|]. apply in_list_2 in E. eapply flush_given; try done.
    match goal with Ho : _ || _ = true |- _ => by apply orb_true_iff in Ho as [?%Z.eqb_eq|?%Z.eqb_eq]; [left|right] end. }
  change [PROTOCOL_BINARY_CMD_GET; _; _; _; _] with
    ([PROTOCOL_BINARY_CMD_GET; PROTOCOL_BINARY_CMD_GETQ; PROTOCOL_BINARY_CMD_GETK; PROTOCOL_BINARY_CMD_GETKQ]
     ++ [PROTOCOL_BINARY_CMD_IOCTL_GET]) in Hv. rewrite in_list_snoc in Hv.
  destruct (in_list [PROTOCOL_BINARY_CMD_GET; _; _; _] _) eqn:E1.
  { cbn [orb] in Hv. facts Hv get_validator. apply in_list_4 in E1. by eapply get_answered. }
  cbn [orb] in Hv. destruct (Z.eqb_spec h.(rh_opcode) PROTOCOL_BINARY_CMD_IOCTL_GET) as [Ei|Ei].
  { rewrite Ei in Hs |- *. apply near_finish; [done|]. exact (fail_with_given _ _ _ _ _ _ _ _ _ Hw Hs). }
  destruct (in_list [PROTOCOL_BINARY_CMD_DELETE; _] _) eqn:E2.
  { facts Hv delete_validator. apply near_finish; [done|]. apply in_list_2 in E2. by eapply delete_given. }
  destruct (in_list [PROTOCOL_BINARY_CMD_INCREMENT; _; _; _] _) eqn:E3.
  { facts Hv arithmetic_validator. apply near_finish; [done|]. apply in_list_4 in E3.
    eapply arithmetic_given; try done. lia. }
  destruct (Z.eqb_spec h.(rh_opcode) PROTOCOL_BINARY_CMD_SET_CTRL_TOKEN) as [E4|E4].
  { unfold set_ctrl_token_validator in Hv. rewrite parse_packet in Hv. cbn [mbind option_bind] in Hv.
    destruct (_ && (h.(rh_bodylen) =? 8)) eqn:Eb; [|done]. boolify. apply near_finish; [done|]. by eapply set_token_given. }
  destruct (Z.eqb_spec h.(rh_opcode) PROTOCOL_BINARY_CMD_GET_CTRL_TOKEN) as [E5|E5].
  { apply near_finish; [done|]. by eapply get_token_given. }
  destruct (Z.eqb_spec h.(rh_opcode) PROTOCOL_BINARY_CMD_IOCTL_SET) as [E6|E6].
  { apply near_finish; [done|]. by eapply ioctl_set_given. }
  destruct (in_list other_commands _); [done|]. apply near_finish; [done|]. by eapply unknown_given.
Qed.
End packet.
End handlers.

(** Worlds that agree on some fields. *)
Ltac same :=
  unfold vitals, messages, memory, outside, setup, server_of, relabel, with_msgs, header_world, fresh_world;
  proj; reflexivity.
