(* ===== verification/Updates.v ===== *)
(** * Updates: the item is allocated, filled and stored

    The two halves of an update, around the reading of the value: after the extras and
    the key the item is allocated, and after the value it is stored. *)
From Stdlib Require Import ZArith Lia.
From stdpp Require Import strings gmap prelude.
From S2P Require Import Prelude Util EngineState DefaultEngine JsonChecker Snappy Protocol Conn Daemon Serve Reply Handlers.

#[local] Set Warnings "-clear-no-such-hyp".

Section updates.
Context {S : Type} {EV : EngineV1 S} {SY : Sys} {ST : Settings} {SN : Snappy} {SOK : Provided}.

Abbreviation D := (M (world S)).
Implicit Types w : world S.

(** The value of [n] bytes for the item [it] is being read. *)
Record filling w (h : request_header) (cmd : Z) (quiet : bool) (it : Z) (op : ENGINE_STORE_OPERATION) (n : Z) w' : Prop := {
  fi_ready : ready w' h cmd quiet 0 it;
  fi_outside : outside w' = outside w;
  fi_state : w'.(w_conn).(cn_state) = F_nread;
  fi_substate : w'.(w_conn).(cn_substate) = bin_read_set_value;
  fi_ritem : w'.(w_conn).(cn_ritem) = A_data it 0;
  fi_rlbytes : w'.(w_conn).(cn_rlbytes) = n;
  fi_op : w'.(w_conn).(cn_store_op) = op
}.

Lemma given_finish w a s w' w2 : outside w' = outside w -> w'.(w_conn).(cn_item) = NULL ->
  given w' a s w2 -> answered w a w2 /\ server_of w2 = s.
Proof.
  intros Ho Hi Hg. apply given_answered in Hg as [[] Hs]; [|done]. split; [|done]. constructor; try done. congruence.
Qed.

(** The response to a failed allocation. *)
Lemma refused_run w h cmd quiet err vlen :
  ready w h cmd quiet 0 NULL -> err <> PROTOCOL_BINARY_RESPONSE_NOT_MY_VBUCKET ->
  runs (write_bin_packet err (swrap 32 vlen);; updc (set_cn_write_and_go F_swallow)) w (fun _ w' =>
    answered w (mk_answer (status h err 0) NULL (Skip (skipped vlen))) w' /\ server_of w' = server_of w).
Proof.
  intros Hw Herr. run. eapply runs_mono; [by eapply write_bin_packet_run|].
  intros [] w1 [[Ha Ho Hs Hi Hr Hg Hb] Hd]. run. split; [|exact Hs]. constructor.
  - eapply alive_same; [|exact Ha]. same.
  - exact Ho.
  - proj. rewrite Hi. apply Hw.
  - left. split.
    + destruct Hr as [Hc Hr]. split; [exact Hc|].
      destruct Hr as [[? Hh]|(? & Hh & ? & ?)]; [left|right]; (split; [done|]).
      * eapply holds_same; [|exact Hh]. same.
      * split; [eapply holds_same; [|exact Hh]; same|]. by split.
    + split; [|proj; rewrite Hi; apply Hw]. left. proj. split; [done|]. split; [exact Hb|]. unfold skipped. pose proof (swrap_range vlen).
      destruct (Z.ltb_spec 0 (swrap 32 vlen)); lia.
Qed.

Lemma start_update_run w h cmd quiet key nbytes flags exptime vlen op o s :
  ready w h cmd quiet 0 NULL -> start_update h key nbytes flags exptime vlen (server_of w) = Some (o, s) ->
  runs (allocate_item key nbytes flags exptime) w (fun r w1 =>
    runs (match r with Some r => start_value r (Some op) vlen | None => mret tt end) w1 (fun _ w' =>
      match o with
      | inl it => filling w h cmd quiet it op (u32 vlen) w'
      | inr a => answered w a w'
      end /\ server_of w' = s)).
Proof.
  intros Hw Hs. unfold start_update in Hs. apply run_bind_Some in Hs as ([ret it] & s1 & (e & He & ->)%call_Some & Hs).
  unfold allocate_item. apply runs_bind, take_aiostat_run; [apply Hw|].
  apply runs_bind, ewouldblock_run; [apply Hw|]. change (is_success ENGINE_SUCCESS) with true. cbn [negb]. run.
  rewrite (rd_header _ _ _ _ _ _ Hw). eapply runs_eng; [exact He|]. cbn [fst snd] in *.
  assert (Hw1 := ready_engine w _ _ _ _ _ e Hw). set (w1 := set_w_engine e w) in *.
  assert (Hno : forall err, err <> PROTOCOL_BINARY_RESPONSE_NOT_MY_VBUCKET ->
    Some (inr (mk_answer (status h err 0) NULL (Skip (skipped vlen))), server_of w1) = Some (o, s) ->
    runs (write_bin_packet err (swrap 32 vlen);; updc (set_cn_write_and_go F_swallow)) w1 (fun _ w' =>
      match o with inl it => filling w h cmd quiet it op (u32 vlen) w' | inr a => answered w a w' end /\ server_of w' = s)).
  { intros err Herr [= <- <-]. eapply runs_mono; [by eapply refused_run|]. intros [] w' [[] Hs']. split; [|done].
    by constructor. }
  destruct ret; try done; cbn [is_success]; try (change (is_success _) with false; cbn [negb]; run;
    apply Hno; [done|exact Hs]).
  change (is_success ENGINE_SUCCESS) with true. cbn [negb].
  apply run_bind_Some in Hs as (info & s1 & (e2 & He2 & ->)%call_Some & Hs). run. eapply runs_eng; [exact He2|].
  assert (Hw2 := ready_engine w1 _ _ _ _ _ e2 Hw1). set (w2 := set_w_engine e2 w1) in *.
  destruct info as [info|].
  - apply run_bind_Some in Hs as ([] & s1 & (e3 & He3 & ->)%call_Some & Hs). injection Hs as <- <-. run.
    unfold start_value. cbn [fst snd]. run. rewrite (rd_header _ _ _ _ _ _ Hw2). eapply runs_eng; [exact He3|]. run; [done|].
    split; [|same]. constructor; try same. eapply ready_same; [exact Hw2|..]; try same; try apply Hw.
    eapply alive_same; [|apply Hw]. same.
  - apply run_bind_Some in Hs as ([] & s1 & (e3 & He3 & ->)%call_Some & Hs).
    apply run_bind_Some in Hs as (a & s1 & Hs & Ha). injection Ha as <- <-. run. eapply runs_eng; [exact He3|]. run.
    assert (Hw3 := ready_engine w2 _ _ _ _ _ e3 Hw2). eapply runs_mono; [by eapply fail_with_given|].
    intros [] w' Hg. run. by eapply given_finish; [| |exact Hg]; [|apply Hw].
Qed.

(** ** The header of an update *)

Definition is_update (cmd : Z) : Prop :=
  cmd = PROTOCOL_BINARY_CMD_SET \/ cmd = PROTOCOL_BINARY_CMD_ADD \/ cmd = PROTOCOL_BINARY_CMD_REPLACE.

Definition is_concat (cmd : Z) : Prop := cmd = PROTOCOL_BINARY_CMD_APPEND \/ cmd = PROTOCOL_BINARY_CMD_PREPEND.

(** What the first half of an update leaves, for the result [o] of [start_update]. *)
Definition started w h cmd quiet op vlen (o : Z + answer) w' : Prop :=
  match o with
  | inl it => filling w h cmd quiet it op (u32 vlen) w'
  | inr a => answered w a w'
  end.

Lemma process_bin_update_run w h hdr b cmd quiet o s :
  ready w h cmd quiet 0 NULL -> parsed hdr h -> at_packet w (hdr ++ b) -> is_update cmd ->
  h.(rh_extlen) = 8 -> Z.of_nat (length b) = h.(rh_keylen) + 8 ->
  let vlen := u32 (h.(rh_bodylen) - (h.(rh_keylen) + h.(rh_extlen))) in
  start_update h (drop 8 b) vlen (be_val (reverse (take 4 b))) (be_val (take 4 (drop 4 b))) vlen (server_of w) = Some (o, s) ->
  runs process_bin_update w (fun _ w' => started w h cmd quiet (update_op h cmd) vlen o w' /\ server_of w' = s).
Proof.
  intros Hw Hp Hat Hcmd Hext Hlen vlen Hs. pose proof (ps_length _ _ Hp) as Hh.
  pose proof (ro_keylen _ (rd_ok _ _ _ _ _ _ Hw)) as Hkl.
  unfold process_bin_update, binary_get_request. run; unfold id; rewrite (rd_header _ _ _ _ _ _ Hw).
  { apply Z.leb_le. apply slice_bounds in Hat as (Hat & _). rewrite length_app, Hh in Hat. lia. }
  eapply (get_key_run w (hdr ++ b) (Z.to_nat h.(rh_keylen))); [done|rewrite (rd_header _ _ _ _ _ _ Hw); lia|
    rewrite length_app; lia|].
  rewrite length_app, Hh. replace (drop _ (hdr ++ b)) with (drop 8 b).
  2:{ rewrite drop_app_ge by lia. f_equal. lia. }
  apply runs_bind. eapply packet_run; [exact Hat|rewrite length_app; lia|]. intros tail. run.
  { rewrite packet_bytes_app, packet_bytes_Some by (rewrite length_app; lia). reflexivity. }
  { rewrite <- app_assoc. apply (body_field hdr b tail 4 4); [done|lia]. }
  rewrite (rd_cmd _ _ _ _ _ _ Hw), (rd_header _ _ _ _ _ _ Hw). fold vlen.
  rewrite (drop_app_length' hdr) by done.
  replace (if cmd =? PROTOCOL_BINARY_CMD_ADD then Some OPERATION_ADD else _) with (Some (update_op h cmd)).
  - by eapply start_update_run.
  - unfold update_op. by destruct Hcmd as [-> | [-> | ->]]; destruct (negb _).
Qed.

Lemma process_bin_append_run w h hdr b cmd quiet o s :
  ready w h cmd quiet 0 NULL -> parsed hdr h -> at_packet w (hdr ++ b) -> is_concat cmd ->
  Z.of_nat (length b) = h.(rh_keylen) ->
  let vlen := swrap 32 (h.(rh_bodylen) - h.(rh_keylen)) in
  start_update h b (u64 vlen) 0 0 vlen (server_of w) = Some (o, s) ->
  runs process_bin_append_prepend w (fun _ w' => started w h cmd quiet (concat_op cmd) vlen o w' /\ server_of w' = s).
Proof.
  intros Hw Hp Hat Hcmd Hlen vlen Hs. pose proof (ps_length _ _ Hp) as Hh. unfold process_bin_append_prepend. apply runs_bind.
  eapply (get_key_run w (hdr ++ b) (length b)); [done|rewrite (rd_header _ _ _ _ _ _ Hw); lia|
    rewrite length_app; lia|].
  rewrite length_app, Nat.add_sub, drop_app_length. run. unfold id.
  rewrite (rd_cmd _ _ _ _ _ _ Hw), (rd_header _ _ _ _ _ _ Hw). fold vlen.
  replace (if cmd =? PROTOCOL_BINARY_CMD_APPEND then Some OPERATION_APPEND else _) with (Some (concat_op cmd)).
  - by eapply start_update_run.
  - unfold concat_op. by destruct Hcmd as [-> | ->].
Qed.

(** ** The value is there *)

(** The item is released after the response has been written. *)
Lemma released_answered w a s w' e : given w a s w' ->
  answered w a (relabel e NULL w') /\ server_of (relabel e NULL w') = mk_server e s.(sv_datatype) s.(sv_verbose) s.(sv_session).
Proof.
  intros [Ha Ho Hi Hh Hs Hd Hk]. split; [|by rewrite <- Hs]. constructor; try done.
  - eapply alive_same; [|exact Ha]. same.
  - destruct Hh as [[Hr Hn]|Hh]; [left|by right]. split; [by apply replying_relabel|].
    by destruct (an_next a); [|destruct Hn as [Hn _]..].
Qed.

(** The marking of the value as JSON. *)
Lemma mark_json_run w it info s1 :
  (if (server_of w).(sv_datatype) then mret tt else
   json ← of_option (checkUTF8JSON info.(ii_value));
   if (json : bool) then
     call (v1_set_item_info it (set_ii_datatype PROTOCOL_BINARY_DATATYPE_JSON info));; mret tt
   else mret tt) (server_of w) = Some (tt, s1) ->
  runs (when (negb w.(w_conn).(cn_supports_datatype))
    (json ← of_option (checkUTF8JSON info.(ii_value));
     when json (eng (v1_set_item_info it (set_ii_datatype PROTOCOL_BINARY_DATATYPE_JSON info));; mret tt))) w
  (fun _ w' => exists e, w' = set_w_engine e w /\ s1 = server_of w').
Proof.
  assert (Hsame : exists e, w = set_w_engine e w /\ server_of w = server_of w) by (exists w.(w_engine); by destruct w).
  cbn [sv_datatype server_of]. destruct (w.(w_conn).(cn_supports_datatype)); cbn [negb when].
  { intros [= <-]. run. exact Hsame. }
  intros Hs. apply run_bind_Some in Hs as (json & s2 & [Hj ->]%of_option_Some & Hs). run; [exact Hj|].
  destruct json; cbn [when].
  - apply run_bind_Some in Hs as (b & s2 & (e & He & ->)%call_Some & [= <-]). run. eapply runs_eng; [exact He|]. run.
    by exists e.
  - injection Hs as <-. run. exact Hsame.
Qed.

Lemma complete_update_run w h cmd quiet it op a s :
  ready w h cmd quiet 0 it -> w.(w_conn).(cn_store_op) = op -> is_get cmd = false ->
  finish_update h op quiet it (server_of w) = Some (a, s) ->
  runs complete_update_bin w (fun _ w' => answered w a w' /\ server_of w' = s).
Proof.
  intros Hw Hop Hng Hs. unfold finish_update in Hs. apply run_bind_Some in Hs as (info & s1 & (e & He & ->)%call_Some & Hs).
  destruct info as [info|]; [|done]. unfold complete_update_bin. run. rewrite (rd_item _ _ _ _ _ _ Hw).
  eapply runs_eng; [exact He|]. assert (Hw1 := ready_engine w _ _ _ _ _ e Hw). set (w1 := set_w_engine e w) in *.
  apply runs_bind, take_aiostat_run; [apply Hw1|]. change (is_success ENGINE_SUCCESS) with true. cbn match.
  apply run_bind_Some in Hs as (sv & s1 & [= <- <-] & Hs). apply run_bind_Some in Hs as ([] & s2 & Hj & Hs).
  unfold update_store. run. unfold id in *.
  eapply runs_mono; [eapply (mark_json_run w1); exact Hj|]. intros [] w2 (e2 & -> & ->). run.
  apply run_bind_Some in Hs as ([ret cas] & s2 & (e3 & He3 & ->)%call_Some & Hs). cbn [fst snd] in Hs.
  rewrite (rd_header _ _ _ _ _ _ Hw1), (rd_cas _ _ _ _ _ _ Hw1). change (cn_store_op (w_conn w1)) with (cn_store_op (w_conn w)).
  rewrite Hop. eapply runs_eng; [exact He3|]. run. cbn [fst snd].
  set (w3 := set_w_conn _ _). assert (Hw3 : ready w3 h cmd quiet cas it).
  { eapply ready_same; [exact Hw1|..]; try same; try apply Hw. eapply alive_same; [|apply Hw1]. same. }
  change (cn_store_op (w_conn w3)) with (cn_store_op (w_conn w)). rewrite Hop.
  apply run_bind_Some in Hs as (a' & s2 & Ha & Hs). apply run_bind_Some in Hs as ([] & s3 & (e4 & He4 & ->)%call_Some & [= <- <-]).
  eapply (runs_mono _ _ (fun _ w' => given w3 a' s2 w')).
  { destruct ret; try done; first [by eapply succeed_given|by eapply fail_with_given|
      eapply write_code_given; [exact Hw3|exact Ha|]; intros Hf; by eapply fail_with_given]. }
  intros [] w4 Hg. pose proof (gv_alive _ _ _ _ Hg) as Ha4. run. rewrite (al_block _ Ha4). cbn [negb when]. run.
  rewrite (gv_item _ _ _ _ Hg). change (cn_item (w_conn w3)) with (cn_item (w_conn w)). rewrite (rd_item _ _ _ _ _ _ Hw).
  assert (E4 : w4.(w_engine) = s2.(sv_engine)) by (by rewrite <- (gv_server _ _ _ _ Hg)).
  eapply runs_eng; [rewrite E4; exact He4|]. run.
  destruct (released_answered w3 a' s2 w4 e4 Hg) as [[] Hr2]. split; [|exact Hr2]. by constructor.
Qed.
End updates.
