(* ===== verification/Phases.v ===== *)
(** * What is left to do on a connection

    A connection that is open is always in one of a few phases; [phase w rem] tells
    which one, and that the reference has to do [rem] for what is left of the input.
    A state function goes from one phase to another and leaves the output and the rest
    of the work together as they were. *)
From Stdlib Require Import ZArith Lia.
From stdpp Require Import strings gmap prelude.
From S2P Require Import Prelude Util EngineState DefaultEngine JsonChecker Snappy Protocol Conn Daemon Serve Reply Handlers Updates.

#[local] Set Warnings "-clear-no-such-hyp".

Section phases.
Context {S : Type} {EV : EngineV1 S} {SY : Sys} {ST : Settings} {SN : Snappy} {SOK : Provided} {EOK : EngineV1Ok S}.
Context (adm usr : bool) (ctr : Z).

Abbreviation D := (M (world S)).
Abbreviation R := (M (server S)).
Abbreviation SV := (serve (S := S) adm usr ctr).
Implicit Types w : world S.

(** The bytes that have not been taken: the rest of the read buffer and what has not
    been received. *)
Definition stream w : list Z :=
  take (Z.to_nat w.(w_conn).(cn_rbytes)) (drop (Z.to_nat w.(w_conn).(cn_rcurr)) w.(w_conn).(cn_rbuf)) ++ w.(w_in).

(** What is done with the bytes [b] that were read for the substate [ss]. *)
Definition after_chunk (h : request_header) (hdr : list Z) (cmd : Z) (quiet : bool) (ss : bin_substates)
    (b rest : list Z) : R (list Z) :=
  match ss with
  | bin_reading_packet => a ← serve_packet adm ctr h hdr b; deliver a SV rest
  | bin_reading_set_header => serve_set_header h cmd quiet b SV rest
  | _ => crash
  end.

(** The number of these bytes. *)
Definition chunk_ok (h : request_header) (cmd : Z) (quiet : bool) (ss : bin_substates) (n : Z) : Prop :=
  match ss with
  | bin_reading_packet => n = h.(rh_bodylen) /\ cmd = h.(rh_opcode) /\ quiet = false /\ h.(rh_keylen) <= KEY_MAX_LENGTH
  | bin_reading_set_header =>
      (is_update cmd /\ h.(rh_extlen) = 8 /\ n = h.(rh_keylen) + 8) \/ (is_concat cmd /\ n = h.(rh_keylen))
  | _ => False
  end.

(** The messages from the current one on hold the bytes [out]. *)
Record pending w (out : list Z) : Prop := {
  pe_curr : 0 <= w.(w_conn).(cn_msgcurr);
  pe_bytes : msgs_bytes w (drop (Z.to_nat w.(w_conn).(cn_msgcurr)) w.(w_conn).(cn_msgs)) = Some out;
  pe_sizes : Forall (Forall (fun v => 0 < v.(iov_len))) (drop (Z.to_nat w.(w_conn).(cn_msgcurr)) w.(w_conn).(cn_msgs))
}.

(** The bytes [out] are being sent. *)
Definition sending w (out : list Z) : Prop :=
  (w.(w_conn).(cn_state) = F_mwrite /\ pending w out) \/
  (w.(w_conn).(cn_state) = F_write /\ w.(w_conn).(cn_iovused) <> 0 /\ pending w out) \/
  (w.(w_conn).(cn_state) = F_write /\ replying w out).

(** The bytes [got] of a packet or of the header of an update have been read, and [left]
    bytes are to come. *)
Record chunking h hdr got cmd quiet ss left w : Prop := {
  ck_state : w.(w_conn).(cn_state) = F_nread;
  ck_substate : w.(w_conn).(cn_substate) = ss;
  ck_ready : ready w h cmd quiet 0 NULL;
  ck_parsed : parsed hdr h;
  ck_at : at_packet w (hdr ++ got);
  ck_left : 0 <= left;
  ck_rlbytes : w.(w_conn).(cn_rlbytes) = left;
  ck_ritem : w.(w_conn).(cn_ritem) = A_rbuf w.(w_conn).(cn_rcurr);
  ck_room : w.(w_conn).(cn_rcurr) + left <= w.(w_conn).(cn_rsize);
  ck_ok : chunk_ok h cmd quiet ss (Z.of_nat (length got) + left)
}.

(** The value of the item [it] has been read up to [off]. *)
Record valuing h cmd quiet it op off left w : Prop := {
  va_state : w.(w_conn).(cn_state) = F_nread;
  va_substate : w.(w_conn).(cn_substate) = bin_read_set_value;
  va_ready : ready w h cmd quiet 0 it;
  va_get : is_get cmd = false;
  va_cmd : 0 <= cmd;
  va_left : 0 <= left;
  va_rlbytes : w.(w_conn).(cn_rlbytes) = left;
  va_ritem : w.(w_conn).(cn_ritem) = A_data it off;
  va_op : w.(w_conn).(cn_store_op) = op
}.

Inductive phase w : R (list Z) -> Prop :=
| ph_new :
    w.(w_conn).(cn_state) = F_new_cmd -> goes_on w 0 ->
    phase w (release_kept w.(w_conn).(cn_item);; SV (stream w))
| ph_idle :
    ((w.(w_conn).(cn_state) = F_waiting \/ w.(w_conn).(cn_state) = F_read) /\ w.(w_conn).(cn_rbytes) < 24
     \/ w.(w_conn).(cn_state) = F_parse_cmd /\ 0 < w.(w_conn).(cn_rbytes)) ->
    (w.(w_conn).(cn_rbytes) < DATA_BUFFER_SIZE -> w.(w_conn).(cn_rsize) <= READ_BUFFER_HIGHWAT) ->
    w.(w_conn).(cn_item) = NULL -> w.(w_conn).(cn_sbytes) = 0 -> goes_on w 0 ->
    phase w (SV (stream w))
| ph_chunk h hdr got cmd quiet ss left :
    chunking h hdr got cmd quiet ss left w ->
    phase w (chunk left (fun b rest => after_chunk h hdr cmd quiet ss (got ++ b) rest) (stream w))
| ph_value h cmd quiet it op off left :
    valuing h cmd quiet it op off left w ->
    phase w (serve_value h op quiet it off left SV (stream w))
| ph_send out nx :
    sending w out -> next_ok w nx ->
    phase w (deliver (mk_answer out w.(w_conn).(cn_item) nx) SV (stream w))
| ph_swallow n :
    w.(w_conn).(cn_state) = F_swallow -> w.(w_conn).(cn_sbytes) = n -> 0 <= n < 2 ^ 32 ->
    n = 0 \/ w.(w_conn).(cn_item) = NULL -> w.(w_conn).(cn_write_and_go) = F_swallow ->
    phase w (release_kept w.(w_conn).(cn_item);;
             if Z.of_nat (length (stream w)) <? n then mret [] else SV (drop (Z.to_nat n) (stream w))).

(** The settings of the connection. *)
Definition settled w : Prop :=
  w.(w_conn).(cn_admin) = adm /\ w.(w_conn).(cn_sasl_user) = usr /\ w.(w_session_ctr) = ctr /\
  0 < w.(w_conn).(cn_max_reqs_per_event).

(** The output of [w] and what is still to come make [OUT], and the server will be
    [FIN]. *)
Record good (OUT : list Z) (FIN : server S) w : Prop := {
  go_alive : alive w;
  go_bytes : bytes_ok (stream w);
  go_settled : settled w;
  go_rem : exists rem out, phase w rem /\ rem (server_of w) = Some (out, FIN) /\ w.(w_out) ++ out = OUT
}.

(** ** Progress *)

(** The phases of a request, in the order in which they follow each other. *)
Definition class w : nat :=
  match w.(w_conn).(cn_state) with
  | F_nread => match w.(w_conn).(cn_substate) with bin_read_set_value => 5 | _ => 6 end
  | F_mwrite | F_write => 4
  | F_swallow => 3
  | F_new_cmd => 2
  | _ => 1
  end.

(** The network and libevent do what they are asked for at once. *)
Definition prompt : Prop :=
  (forall k, exists n, sys_recv k = RecvData n) /\ (forall k, exists n, sys_send k = SendData n) /\
  (forall k, event_del k = true).

Definition finished (OUT : list Z) (FIN : server S) w : Prop := w.(w_out) = OUT /\ server_of w = FIN.

(** How a state function that starts in [w], returns [again] and ends in [w'] brings the
    connection forward. *)
Inductive advances (OUT : list Z) (FIN : server S) w (again : bool) w' : Prop :=
| ad_stream : (length (stream w') < length (stream w))%nat -> advances OUT FIN w again w'
| ad_class : length (stream w') = length (stream w) -> (class w' < class w)%nat -> advances OUT FIN w again w'
| ad_sent : length (stream w') = length (stream w) -> class w' = class w -> class w = 4%nat ->
    (length w.(w_out) < length w'.(w_out))%nat -> advances OUT FIN w again w'
| ad_parse : length (stream w') = length (stream w) -> w'.(w_in) = w.(w_in) ->
    w.(w_conn).(cn_state) = F_parse_cmd -> w'.(w_conn).(cn_state) = F_waiting -> advances OUT FIN w again w'
| ad_wait : length (stream w') = length (stream w) -> w'.(w_in) = w.(w_in) ->
    w.(w_conn).(cn_state) = F_waiting -> w'.(w_conn).(cn_state) = F_read -> again = false -> advances OUT FIN w again w'
| ad_read : length (stream w') = length (stream w) -> (length w'.(w_in) < length w.(w_in))%nat ->
    w.(w_conn).(cn_state) = F_read -> w'.(w_conn).(cn_state) = F_parse_cmd -> advances OUT FIN w again w'
| ad_none : length (stream w') = length (stream w) -> w'.(w_in) = w.(w_in) ->
    w.(w_conn).(cn_state) = F_read -> w'.(w_conn).(cn_state) = F_waiting ->
    (prompt -> finished OUT FIN w) -> advances OUT FIN w again w'
| ad_yield : length (stream w') = length (stream w) -> w.(w_conn).(cn_state) = F_new_cmd ->
    w'.(w_conn).(cn_state) = F_new_cmd -> w.(w_conn).(cn_nevents) <= 0 -> again = false -> advances OUT FIN w again w'
| ad_block : length (stream w') = length (stream w) -> class w' = class w -> w'.(w_out) = w.(w_out) ->
    again = false -> (prompt -> finished OUT FIN w) -> advances OUT FIN w again w'.

(** The connection is about to be closed. *)
Record closed (OUT : list Z) (FIN : server S) w' : Prop := {
  cl_state : w'.(w_conn).(cn_state) = F_closing;
  cl_prefix : w'.(w_out) `prefix_of` OUT;
  cl_closable : closable w';
  cl_prompt : prompt -> finished OUT FIN w'
}.

(** The result of a state function. *)
Definition ticked (OUT : list Z) (FIN : server S) w (again : bool) w' : Prop :=
  w.(w_out) `prefix_of` w'.(w_out) /\
  (good OUT FIN w' /\ advances OUT FIN w again w' \/ closed OUT FIN w').

(** What most state functions keep. *)
Definition kept w :=
  (vitals w, w.(w_in), server_of w,
   (w.(w_conn).(cn_admin), w.(w_conn).(cn_sasl_user), w.(w_conn).(cn_max_reqs_per_event), w.(w_session_ctr)),
   w.(w_conn).(cn_write_and_go), w.(w_conn).(cn_sbytes), w.(w_conn).(cn_item)).

Lemma kept_all w w' nx : kept w' = kept w ->
  (alive w -> alive w') /\ stream w' = stream w /\ (settled w -> settled w') /\ server_of w' = server_of w /\
  (next_ok w nx -> next_ok w' nx) /\ w'.(w_conn).(cn_item) = w.(w_conn).(cn_item) /\ (goes_on w 0 -> goes_on w' 0) /\
  w'.(w_conn).(cn_rbytes) = w.(w_conn).(cn_rbytes) /\ w'.(w_conn).(cn_sbytes) = w.(w_conn).(cn_sbytes).
Proof.
  intros Hk. assert (Hv : vitals w' = vitals w) by (unfold kept in Hk; congruence). unfold kept in Hk.
  injection Hk as _ _ _ _ _ _ _ _ _ _ _ _ _ Hin E1 E2 E3 E4 E5 E6 E7 E8 E9 E10 E11.
  pose proof Hv as Hv'. unfold vitals in Hv'. injection Hv' as V1 V2 V3 V4 _ _ _ _ _ _ _ _ _.
  split; [by apply alive_same|]. split; [unfold stream; congruence|].
  unfold settled, server_of, next_ok, goes_on.
  rewrite ?Hin, ?E1, ?E2, ?E3, ?E4, ?E5, ?E6, ?E7, ?E8, ?E9, ?E10, ?E11, ?V1, ?V2, ?V3, ?V4.
  repeat split; try done; tauto.
Qed.

(** ** Sending *)

Lemma skip_empty_spec w l cur out :
  msgs_bytes w l = Some out -> exists k, skip_empty l cur = cur + Z.of_nat k /\
  msgs_bytes w (drop k l) = Some out /\
  (drop k l = [] \/ exists v m l', drop k l = (v :: m) :: l').
Proof.
  revert cur. induction l as [|m l IH]; intros cur Hb; [exists 0%nat; rewrite Z.add_0_r; by repeat split; [|left]|].
  destruct m as [|v m]; [|exists 0%nat; rewrite Z.add_0_r; repeat split; [done|]; right; by exists v, m, l].
  cbn [skip_empty]. destruct (IH (cur + 1)) as (k & Hk & Hd & Hs).
  { cbn [msgs_bytes msg_bytes mbind option_bind app] in Hb. by destruct (msgs_bytes w l). }
  exists (Datatypes.S k). split; [lia|]. by split.
Qed.

Lemma advance_spec w m k b :
  msg_bytes w m = Some b -> Forall (fun v => 0 < v.(iov_len)) m -> 0 <= k <= Z.of_nat (length b) ->
  msg_bytes w (advance m k) = Some (drop (Z.to_nat k) b) /\ Forall (fun v => 0 < v.(iov_len)) (advance m k).
Proof.
  revert k b. induction m as [|v m IH]; intros k b Hb Hs Hk.
  { injection Hb as <-. simpl in Hk. split; [by rewrite drop_nil|constructor]. }
  cbn [msg_bytes advance] in *. inversion Hs as [|? ? Hv Hm]; subst.
  destruct (mem_read w _ _) as [x|] eqn:Hx; [|done]. cbn [mbind option_bind] in Hb.
  destruct (msg_bytes w m) as [y|] eqn:Hy; [|done]. cbn in Hb. injection Hb as <-.
  pose proof (mem_read_length _ _ _ _ Hx) as Hlen. rewrite length_app in Hk.
  destruct (Z.leb_spec v.(iov_len) k) as [Hle|Hgt].
  - destruct (IH (k - v.(iov_len)) y eq_refl Hm ltac:(lia)) as [-> Hf]. split; [|done].
    rewrite drop_app_ge by lia. do 2 f_equal. lia.
  - destruct (Z.ltb_spec 0 k) as [Hpos|Hz].
    + destruct (mem_read_split _ _ _ _ k Hx ltac:(lia)) as [_ Hr]. split.
      * cbn [msg_bytes iov_base iov_len]. rewrite Hr, Hy. cbn. by rewrite drop_app_le by lia.
      * constructor; [cbn; lia|done].
    + replace k with 0 by lia. rewrite drop_0. cbn [msg_bytes]. rewrite Hx, Hy. by split.
Qed.

(** The world [w] with another position in its messages. *)
Definition moved w (cur : Z) (l : list (list iovec)) : world S :=
  set_w_conn (set_cn_msgcurr cur (set_cn_msgs l w.(w_conn))) w.

Lemma moved_pending w cur l out :
  0 <= cur -> msgs_bytes w (drop (Z.to_nat cur) l) = Some out ->
  Forall (Forall (fun v => 0 < v.(iov_len))) (drop (Z.to_nat cur) l) -> pending (moved w cur l) out.
Proof. intros Hc Hb Hs. constructor; unfold moved; proj; [done| |done]. rewrite <- Hb. by apply msgs_bytes_same. Qed.

(** libevent is asked for the event. *)
Lemma update_event_run w flags : alive w ->
  runs (update_event flags) w (fun ok w' => exists n f r,
    w' = set_w_calls n (set_w_conn (set_cn_ev_flags f (set_cn_registered r w.(w_conn))) w) /\
    r = true /\ (prompt -> ok = true)).
Proof.
  intros Ha. destruct (al_event _ Ha) as [Hr Ho]. unfold update_event. run.
  destruct (_ =? flags).
  { run. exists w.(w_calls), w.(w_conn).(cn_ev_flags), true. split; [|done]. destruct w as [[]]. cbn in *. by subst. }
  unfold unregister_event. run; [by unfold id; rewrite Hr|done|]. unfold id.
  destruct (event_del w.(w_calls)) eqn:Hd; cbn [negb]; run; cbn [negb].
  - unfold register_event. run; [done|done|]. rewrite add_ok. cbn [negb]. run.
    eexists _, _, _. split; [reflexivity|done].
  - run. exists (Datatypes.S w.(w_calls)), w.(w_conn).(cn_ev_flags), true. split; [destruct w as [[]]; cbn in *; by subst|].
    split; [done|]. intros (_ & _ & Hp). by rewrite Hp in Hd.
Qed.

(** What [transmit] leaves for each of its results. *)
Record transmitted w (out : list Z) (r : transmit_result) w' : Prop := {
  tr_kept : kept w' = kept w;
  tr_used : w'.(w_conn).(cn_iovused) = w.(w_conn).(cn_iovused);
  tr_how :
    match r with
    | TRANSMIT_COMPLETE => out = [] /\ w'.(w_out) = w.(w_out) /\ w'.(w_conn).(cn_state) = w.(w_conn).(cn_state)
    | TRANSMIT_INCOMPLETE => w'.(w_conn).(cn_state) = w.(w_conn).(cn_state) /\ exists k, (0 < k <= length out)%nat /\
        pending w' (drop k out) /\ w'.(w_out) = w.(w_out) ++ take k out
    | TRANSMIT_SOFT_ERROR => w'.(w_conn).(cn_state) = w.(w_conn).(cn_state) /\ pending w' out /\
        w'.(w_out) = w.(w_out) /\ out <> [] /\ ~ prompt
    | TRANSMIT_HARD_ERROR => w'.(w_conn).(cn_state) = F_closing /\ w'.(w_out) = w.(w_out) /\ ~ prompt
    end
}.

Ltac kept_by Ha :=
  unfold moved, kept, vitals, server_of; proj; rewrite ?(proj1 (al_event _ Ha)), ?(proj2 (al_event _ Ha)); reflexivity.

(** A message is sent. *)
Lemma send_run w cur l v m l' out :
  alive w -> 0 <= cur -> drop (Z.to_nat cur) l = (v :: m) :: l' ->
  msgs_bytes w ((v :: m) :: l') = Some out -> Forall (Forall (fun v => 0 < v.(iov_len))) ((v :: m) :: l') ->
  runs (do_data_sendmsg (v :: m)) (moved w cur l) (fun res w1 =>
    runs (if 0 <? res.1 then
            l ← of_option (zupdate l cur (advance (v :: m) res.1));
            updc (set_cn_msgs l);; mret TRANSMIT_INCOMPLETE
          else if (res.1 =? -1) && res.2 then
            ok ← update_event (Z.lor EV_WRITE EV_PERSIST);
            if negb ok then conn_set_state F_closing;; mret TRANSMIT_HARD_ERROR
            else mret TRANSMIT_SOFT_ERROR
          else conn_set_state F_closing;; mret TRANSMIT_HARD_ERROR) w1 (transmitted w out)).
Proof.
  intros Ha Hcur Hd Hb Hs. assert (Hlt : (Z.to_nat cur < length l)%nat).
  { assert (length (drop (Z.to_nat cur) l) <> 0%nat) by (by rewrite Hd). rewrite length_drop in *. lia. }
  cbn [msgs_bytes] in Hb. destruct (msg_bytes w (v :: m)) as [x|] eqn:Hx; [|done]. cbn [mbind option_bind] in Hb.
  destruct (msgs_bytes w l') as [y|] eqn:Hy; [|done]. cbn in Hb. injection Hb as <-.
  inversion Hs as [|? ? Hvm Hs']; subst. inversion Hvm as [|? ? Hv Hm]; subst.
  assert (Hxn : (0 < length x)%nat).
  { cbn [msg_bytes] in Hx. destruct (mem_read w _ _) as [x1|] eqn:Hx1; [|done]. cbn in Hx.
    destruct (msg_bytes w m); [|done]. cbn in Hx. injection Hx as <-.
    apply mem_read_length in Hx1. rewrite length_app. lia. }
  unfold do_data_sendmsg. run. unfold id. destruct (sys_send _) as [n| |] eqn:Hsend.
  - run; [rewrite (msg_bytes_same w) by done; exact Hx|]. cbn [fst snd].
    set (k := Z.min (Z.of_nat (length x)) (Z.max n 1)). rewrite (proj2 (Z.ltb_lt 0 k)) by lia. run; [by apply zupdate_lt; lia|].
    destruct (advance_spec w (v :: m) k x Hx Hvm ltac:(lia)) as [Hax Has].
    constructor; [kept_by Ha|same|]. split; [same|]. exists (Z.to_nat k). rewrite length_app. split; [lia|]. split.
    + constructor; unfold moved; proj; [done| |].
      * rewrite drop_insert_ge by lia. rewrite Nat.sub_diag, Hd. cbn [insert list_insert msgs_bytes].
        rewrite !(msg_bytes_same w), !(msgs_bytes_same w), Hax, Hy by done. cbn. by rewrite drop_app_le by lia.
      * rewrite drop_insert_ge by lia. rewrite Nat.sub_diag, Hd. by constructor.
    + proj. by rewrite take_app_le by lia.
  - run. cbn [fst snd Z.ltb Z.compare Z.eqb Pos.eqb andb]. run. eapply runs_mono; [apply update_event_run|].
    { eapply alive_same; [|exact Ha]. unfold moved. same. }
    intros ok w2 (n & f & r & -> & -> & Hp). destruct ok; cbn [negb]; run.
    + constructor; [kept_by Ha|same|]. split; [same|]. split; [|split; [same|split]].
      * constructor; unfold moved; proj; [done| |by rewrite Hd]. rewrite Hd. cbn [msgs_bytes].
        by rewrite !(msg_bytes_same w), !(msgs_bytes_same w), Hx, Hy by done.
      * destruct x; [simpl in Hxn; lia|done].
      * intros (_ & Hq & _). destruct (Hq (w_calls (moved w cur l))) as [? E]. by rewrite E in Hsend.
    + constructor; [kept_by Ha|same|]. split; [same|]. split; [same|]. intros Hq. by specialize (Hp Hq).
  - run. cbn [fst snd Z.ltb Z.compare Z.eqb Pos.eqb andb]. run. constructor; [kept_by Ha|same|].
    split; [same|]. split; [same|]. intros (_ & Hq & _). destruct (Hq (w_calls (moved w cur l))) as [? E]. by rewrite E in Hsend.
Qed.

Lemma transmit_run w out : alive w -> pending w out -> runs transmit w (transmitted w out).
Proof.
  intros Ha [Hc Hb Hs]. unfold transmit. run. proj.
  destruct (skip_empty_spec w _ w.(w_conn).(cn_msgcurr) out Hb) as (k & Hk & Hd & Hshape). rewrite Hk. unfold id.
  set (l := w.(w_conn).(cn_msgs)) in *. set (cur := w.(w_conn).(cn_msgcurr) + Z.of_nat k). rewrite drop_drop in *.
  replace (Z.to_nat w.(w_conn).(cn_msgcurr) + k)%nat with (Z.to_nat cur) in * by lia.
  assert (Hs' : Forall (Forall (fun v => 0 < v.(iov_len))) (drop (Z.to_nat cur) l)).
  { replace (Z.to_nat cur) with (Z.to_nat w.(w_conn).(cn_msgcurr) + k)%nat by lia. rewrite <- drop_drop. by apply Forall_drop. }
  change (set_w_conn _ w) with (moved w cur l).
  change (cn_msgcurr (set_cn_msgcurr cur w.(w_conn))) with cur.
  change (cn_msgs (set_cn_msgcurr cur w.(w_conn))) with l.
  destruct Hshape as [Hnil|(v & m & l' & Hcons)].
  - rewrite Hnil in Hd. injection Hd as <-. assert (length l <= Z.to_nat cur)%nat.
    { assert (length (drop (Z.to_nat cur) l) = 0%nat) by (by rewrite Hnil). rewrite length_drop in *. lia. }
    rewrite (proj2 (Z.ltb_ge _ _)) by lia. run. constructor; [kept_by Ha|same|by split].
  - assert (Hlt : (Z.to_nat cur < length l)%nat).
    { assert (length (drop (Z.to_nat cur) l) <> 0%nat) by (by rewrite Hcons). rewrite length_drop in *. lia. }
    rewrite (proj2 (Z.ltb_lt _ _)) by lia. run.
    { apply zlookup_Some. split; [lia|]. rewrite <- (Nat.add_0_r (Z.to_nat cur)), <- lookup_drop, Hcons. reflexivity. }
    rewrite Hcons in Hd, Hs'. by eapply send_run; [|lia|..].
Qed.

(** The bytes of an answer come first. *)
Lemma deliver_split a b it nx k rest (s s' : server S) o :
  deliver (mk_answer (a ++ b) it nx) k rest s = Some (o, s') ->
  exists o', o = a ++ o' /\ deliver (mk_answer b it nx) k rest s = Some (o', s').
Proof.
  unfold deliver. intros Hd. apply run_bind_Some in Hd as ([] & s1 & H1 & Hd).
  apply run_bind_Some in Hd as (x & s2 & H2 & [= <- <-]). exists (b ++ x). split; [by rewrite app_assoc|].
  apply run_bind_Some. exists tt, s1. split; [done|]. apply run_bind_Some. by exists x, s2.
Qed.

(** An answer that has been sent. *)
Lemma deliver_sent it nx k rest (s s' : server S) o :
  deliver (mk_answer [] it nx) k rest s = Some (o, s') ->
  (release_kept it;;
   match nx with
   | Continue => k rest
   | Skip n => if Z.of_nat (length rest) <? n then mret [] else k (drop (Z.to_nat n) rest)
   | Shut => mret []
   end) s = Some (o, s').
Proof.
  unfold deliver. intros Hd. apply run_bind_Some in Hd as ([] & s1 & H1 & Hd).
  apply run_bind_Some in Hd as (x & s2 & H2 & [= <- <-]). apply run_bind_Some. by exists tt, s1.
Qed.

(** ** Closing *)

Lemma closable_kept w w' : kept w' = kept w -> closable w -> closable w'.
Proof.
  unfold kept, vitals, server_of, closable. intros Hk. injection Hk. intros. intuition congruence.
Qed.

Lemma release_kept_closable {B} w (m : R B) x :
  alive w -> (release_kept w.(w_conn).(cn_item);; m) (server_of w) = Some x -> closable w.
Proof.
  intros Ha Hr. destruct x as [b s']. apply run_bind_Some in Hr as ([] & s1 & Hk & _). unfold release_kept in Hk.
  destruct (Z.eqb_spec w.(w_conn).(cn_item) NULL) as [E|E]; [by apply alive_closable|].
  apply call_Some in Hk as (e & He & _). destruct (al_event _ Ha). split; [done|]. split; [done|]. split; [apply Ha|].
  right. by eexists.
Qed.

Section ticks.
Context (OUT : list Z) (FIN : server S).

Lemma good_closable w : good OUT FIN w -> closable w.
Proof.
  intros [Ha _ _ (rem & out & Hph & Hrem & _)].
  destruct Hph as [_ _| |h hdr got cmd quiet ss left Hck|h cmd quiet it op off left Hva|o nx _ _|]; try by apply alive_closable.
  - by eapply release_kept_closable.
  - apply alive_closable; [done|]. apply (ck_ready _ _ _ _ _ _ _ _ Hck).
  - unfold serve_value in Hrem. apply run_bind_Some in Hrem as ([] & s1 & [_ Hr]%releasable_Some & _).
    destruct (al_event _ Ha). split; [done|]. split; [done|]. split; [apply Ha|]. right.
    by rewrite (rd_item _ _ _ _ _ _ (va_ready _ _ _ _ _ _ _ _ Hva)).
  - unfold deliver in Hrem. by eapply release_kept_closable.
  - by eapply release_kept_closable.
Qed.

(** The phase of a world that keeps the rest. *)
Lemma good_kept w w' rem out : good OUT FIN w -> kept w' = kept w -> phase w' rem ->
  rem (server_of w) = Some (out, FIN) -> w'.(w_out) ++ out = OUT -> good OUT FIN w'.
Proof.
  intros [Ha Hb Hs _] Hk Hph Hr Ho. destruct (kept_all w w' Continue Hk) as (K1 & K2 & K3 & K4 & _).
  constructor; [auto|by rewrite K2|auto|]. exists rem, out. by rewrite K4.
Qed.

(** A response has been sent. *)
Lemma sent_phase w w' nx o :
  good OUT FIN w -> kept w' = kept w -> class w = 4%nat -> w'.(w_conn).(cn_state) = w.(w_conn).(cn_write_and_go) ->
  next_ok w nx -> w'.(w_out) = w.(w_out) ->
  deliver (mk_answer [] w.(w_conn).(cn_item) nx) SV (stream w) (server_of w) = Some (o, FIN) ->
  w.(w_out) ++ o = OUT -> forall again, ticked OUT FIN w again w'.
Proof.
  intros Hg Hk Hcl Hst Hnx Hout Hd%deliver_sent Ho again.
  destruct (kept_all w w' nx Hk) as (K1 & K2 & K3 & K4 & K5 & K6 & K7 & K8 & K9).
  split; [by rewrite Hout|]. assert (Hgo : forall n, goes_on w n -> n = 0 \/ w.(w_conn).(cn_item) = NULL ->
    (release_kept w.(w_conn).(cn_item);; if Z.of_nat (length (stream w)) <? n then mret [] else SV (drop (Z.to_nat n) (stream w)))
      (server_of w) = Some (o, FIN) -> good OUT FIN w' /\ advances OUT FIN w again w').
  { intros n [(E1 & E2 & E3)|[E1 ->]] Hn Hrem.
    - split; [|apply ad_class; [by rewrite K2|rewrite Hcl; unfold class; rewrite Hst, E1; lia]].
      eapply good_kept; [done|done| |rewrite <- K2, <- K6 in Hrem; exact Hrem|congruence].
      apply ph_swallow; [congruence|congruence|done|by rewrite K6|unfold kept in Hk; congruence].
    - split; [|apply ad_class; [by rewrite K2|rewrite Hcl; unfold class; rewrite Hst, E1; lia]].
      rewrite (proj2 (Z.ltb_ge _ _)), drop_0 in Hrem by lia.
      eapply good_kept; [done|done| |rewrite <- K2, <- K6 in Hrem; exact Hrem|congruence].
      apply ph_new; [congruence|]. apply K7. by right. }
  destruct nx as [|n|]; cbn [next_ok] in Hnx.
  - left. eapply Hgo; [exact Hnx|by left|]. rewrite (proj2 (Z.ltb_ge _ _)), drop_0 by lia. exact Hd.
  - destruct Hnx as [Hnx Hi]. left. eapply Hgo; [exact Hnx|by right|exact Hd].
  - destruct Hnx as [Hnx Hi]. right. rewrite Hi in Hd. unfold release_kept in Hd. rewrite Z.eqb_refl in Hd.
    injection Hd as <- HF. rewrite app_nil_r in Ho.
    constructor; [congruence|rewrite Hout, Ho; done|apply alive_closable; [apply K1, Hg|congruence]|]. intros _. split; congruence.
Qed.

Lemma closed_out w' : w'.(w_conn).(cn_state) = F_closing -> w'.(w_out) `prefix_of` OUT -> closable w' -> ~ prompt ->
  closed OUT FIN w'.
Proof. intros ? ? ? Hp. by constructor; [done|done|done|intros ?%Hp]. Qed.

Lemma good_prefix w : good OUT FIN w -> w.(w_out) `prefix_of` OUT.
Proof. intros [_ _ _ (rem & out & _ & _ & <-)]. by eexists. Qed.

Lemma conn_mwrite_ticked w out nx o :
  good OUT FIN w -> w.(w_conn).(cn_state) = F_mwrite \/ w.(w_conn).(cn_state) = F_write /\
                      (w.(w_conn).(cn_iovused) <> 0 \/ out = []) ->
  pending w out -> next_ok w nx ->
  deliver (mk_answer out w.(w_conn).(cn_item) nx) SV (stream w) (server_of w) = Some (o, FIN) ->
  w.(w_out) ++ o = OUT -> runs conn_mwrite w (ticked OUT FIN w).
Proof.
  intros Hg Hst Hp Hnx Hd Ho. unfold conn_mwrite. run. eapply runs_mono; [apply transmit_run; [apply Hg|exact Hp]|].
  intros r w' [Hk Hu Hr]. destruct (kept_all w w' nx Hk) as (K1 & K2 & K3 & K4 & K5 & K6 & K7 & K8 & K9).
  assert (Hcl : class w = 4%nat) by (unfold class; destruct Hst as [-> | [-> _]]; done).
  destruct r.
  - destruct Hr as (-> & Hout & Hs). run. unfold id.
    assert (Hil : w'.(w_conn).(cn_ilist) = []) by apply (al_ilist _ (K1 (go_alive _ _ _ Hg))).
    assert (Hwg : w'.(w_conn).(cn_write_and_go) = w.(w_conn).(cn_write_and_go)) by (unfold kept in Hk; congruence).
    rewrite Hs. destruct Hst as [E|[E _]]; rewrite E.
    + rewrite Hil. cbn [release_items]. run.
      eapply sent_phase; [exact Hg| |exact Hcl|exact Hwg|exact Hnx|exact Hout|exact Hd|exact Ho].
      rewrite <- Hk. unfold kept, vitals, server_of; proj. by rewrite Hil.
    + run. eapply sent_phase; [exact Hg| |exact Hcl|exact Hwg|exact Hnx|exact Hout|exact Hd|exact Ho]. rewrite <- Hk. same.
  - destruct Hr as (Hs & k & Hkk & Hp' & Hout). run. split; [rewrite Hout; by eexists|]. left.
    rewrite <- (take_drop k out) in Hd. apply deliver_split in Hd as (o' & -> & Hd). split.
    + eapply good_kept; [exact Hg|exact Hk|apply (ph_send w' (drop k out) nx)|rewrite K6, K2; exact Hd|by rewrite Hout, <- app_assoc].
      * unfold sending. rewrite Hs, Hu. destruct Hst as [-> | [-> [?| ->]]]; [by left|by right; left|simpl in Hkk; lia].
      * auto.
    + apply ad_sent; [by rewrite K2|unfold class; by rewrite Hs; destruct Hst as [-> | [-> _]]|done|].
      rewrite Hout, length_app, length_take. lia.
  - destruct Hr as (Hs & Hp' & Hout & Hne & Hq). run. split; [by rewrite Hout|]. left. split.
    + eapply good_kept; [exact Hg|exact Hk|apply (ph_send w' out nx)|rewrite K6, K2; exact Hd|by rewrite Hout].
      * unfold sending. rewrite Hs, Hu. destruct Hst as [-> | [-> [?| ->]]]; [by left|by right; left|done].
      * auto.
    + apply ad_block; [by rewrite K2|unfold class; by rewrite Hs; destruct Hst as [-> | [-> _]]|done|done|tauto].
  - destruct Hr as (Hs & Hout & Hq). run. split; [by rewrite Hout|]. right.
    apply closed_out; [done|rewrite Hout; by apply good_prefix|by eapply closable_kept, good_closable|done].
Qed.

(** The entries of messages that hold bytes are counted. *)
Lemma holds_used k w out : holds k w out -> out <> [] -> w.(w_conn).(cn_iovused) <> 0.
Proof.
  intros [Hb Hu Hs _] Hne E. rewrite E in Hs. revert out Hb Hne. induction Hs as [|m l [Hm _] _ IH]; intros out Hb Hne.
  - by injection Hb as <-.
  - destruct m; [|simpl in Hm; lia]. cbn [msgs_bytes msg_bytes mbind option_bind app] in Hb.
    destruct (msgs_bytes w l) as [b|]; [|done]. injection Hb as <-. by eapply IH.
Qed.

Lemma holds_pending k w out : holds k w out -> w.(w_conn).(cn_msgcurr) = 0 -> pending w out.
Proof.
  intros [Hb _ Hs _] E. constructor; rewrite ?E; [lia|exact Hb|]. eapply Forall_impl; [exact Hs|]. by intros m [_ ?].
Qed.

(** A tick may start from a world that differs in its messages. *)
Lemma ticked_from w w1 again w' :
  kept w1 = kept w -> w1.(w_out) = w.(w_out) -> w1.(w_conn).(cn_state) = w.(w_conn).(cn_state) ->
  w1.(w_conn).(cn_substate) = w.(w_conn).(cn_substate) -> w1.(w_conn).(cn_nevents) = w.(w_conn).(cn_nevents) ->
  ticked OUT FIN w1 again w' -> ticked OUT FIN w again w'.
Proof.
  intros Hk Ho Hs Hss Hn [Hp Ht]. destruct (kept_all w w1 Continue Hk) as (_ & K2 & _ & K4 & _).
  assert (Hin : w1.(w_in) = w.(w_in)) by (unfold kept in Hk; congruence).
  assert (Hc : class w1 = class w) by (unfold class; by rewrite Hs, Hss).
  assert (Hf : finished OUT FIN w1 <-> finished OUT FIN w) by (unfold finished; by rewrite Ho, K4).
  split; [by rewrite <- Ho|]. destruct Ht as [[Hg Ha]|Hc']; [left; split; [done|]|by right].
  destruct Ha; [apply ad_stream|apply ad_class|apply ad_sent|apply ad_parse|apply ad_wait|apply ad_read|
     apply ad_none|apply ad_yield|apply ad_block]; rewrite <- ?K2, <- ?Hc, <- ?Hin, <- ?Ho, <- ?Hs, <- ?Hn; tauto.
Qed.

Lemma conn_write_ticked w out nx o :
  good OUT FIN w -> w.(w_conn).(cn_state) = F_write -> sending w out -> next_ok w nx ->
  deliver (mk_answer out w.(w_conn).(cn_item) nx) SV (stream w) (server_of w) = Some (o, FIN) ->
  w.(w_out) ++ o = OUT -> runs conn_write w (ticked OUT FIN w).
Proof.
  intros Hg Hst Hsend Hnx Hd Ho. unfold conn_write. run. unfold id.
  destruct Hsend as [[? _]|[(_ & Hu & Hp)|[_ [Hc Hr]]]]; [congruence| |].
  - rewrite (proj2 (Z.eqb_neq _ _) Hu). run. cbn [Z.eqb negb]. 
    eapply conn_mwrite_ticked; [exact Hg|right; split; [done|by left]|exact Hp|exact Hnx|exact Hd|exact Ho].
  - destruct Hr as [[? _]|(_ & Hh & Hn & Hb)]; [congruence|].
    replace (w.(w_conn).(cn_iovused) =? 0) with true by (symmetry; apply Z.eqb_eq; destruct Hh; lia).
    destruct (decide (out = [])) as [->|Hne].
    { apply mem_read_length in Hb. change (Z.of_nat (length [])) with 0 in Hb. rewrite <- Hb. unfold add_iov. cbn [Z.eqb]. run. cbn [Z.eqb negb].
      eapply conn_mwrite_ticked; [exact Hg|right; split; [done|by right]|by eapply holds_pending|exact Hnx|exact Hd|exact Ho]. }
    eapply runs_mono; [apply (add_iov_run 0 w _ _ [] out); [exact Hh|apply Hg|lia|done|exact Hb]|].
    cbn [app Z.add]. intros r w1 [-> [(u & y & l & ->) Hx]]. cbn [Z.eqb negb]. set (w1 := with_msgs w u y l) in *.
    assert (Hp1 : pending w1 out) by (by eapply holds_pending).
    assert (Hu1 : w1.(w_conn).(cn_iovused) <> 0) by (by eapply holds_used).
    assert (Hg1 : good OUT FIN w1).
    { eapply (good_kept w); [exact Hg|same|apply (ph_send w1 out nx)|exact Hd|exact Ho]; [|exact Hnx].
      right; left. by split. }
    eapply runs_mono; [eapply conn_mwrite_ticked; [exact Hg1| |exact Hp1|exact Hnx|exact Hd|exact Ho]|].
    + right. split; [done|by left].
    + intros again w' Ht. eapply (ticked_from w w1); [..|exact Ht]; same.
Qed.
End ticks.
End phases.

(** The rest of a connection is kept. *)
Ltac kept_by Ha :=
  unfold moved, kept, vitals, server_of; proj; rewrite ?(proj1 (al_event _ Ha)), ?(proj2 (al_event _ Ha)); reflexivity.
