(* ===== verification/Steps.v ===== *)
(** * The state functions keep the promise of the reference

    Every call of a state function on a good connection returns; it leaves a good
    connection that is further on, or a connection that is about to be closed. *)
From Stdlib Require Import ZArith Lia.
From stdpp Require Import strings gmap prelude.
From S2P Require Import Prelude Util EngineState DefaultEngine JsonChecker Snappy Protocol Conn Daemon Serve Reply Handlers Updates Phases.

#[local] Set Warnings "-clear-no-such-hyp".

Section steps.
Context {S : Type} {EV : EngineV1 S} {SY : Sys} {ST : Settings} {SN : Snappy} {SOK : Provided} {EOK : EngineV1Ok S}.
Context (adm usr : bool) (ctr : Z) (OUT : list Z) (FIN : server S).

Abbreviation D := (M (world S)).
Abbreviation SV := (serve (S := S) adm usr ctr).
Abbreviation good := (good adm usr ctr OUT FIN).
Abbreviation phase := (phase adm usr ctr).
Abbreviation ticked := (ticked adm usr ctr OUT FIN).
Abbreviation closed := (closed OUT FIN).
Abbreviation advances := (advances OUT FIN).
Implicit Types w : world S.

(** ** A request is complete *)

Lemma outside_all w w' : outside w' = outside w ->
  stream w' = stream w /\ w'.(w_out) = w.(w_out) /\ (settled adm usr ctr w -> settled adm usr ctr w').
Proof.
  unfold outside. intros [= E1 E2 E3 E4 E5 E6 E7 E8 E9 E10 E11]. unfold stream, settled.
  by rewrite E1, E2, E4, E5, E6, E7, E9, E10, E11.
Qed.

(** The result of [complete_nread]. *)
Definition completed w w' : Prop := ticked w true w' /\ w'.(w_conn).(cn_ewouldblock) = false.

(** The answer [a] was given to the request, and [o] is what the reference sends for it
    and for the rest of the input. *)
Lemma answered_good w a w' o :
  bytes_ok (stream w) -> settled adm usr ctr w -> answered w a w' ->
  deliver a SV (stream w) (server_of w') = Some (o, FIN) -> w.(w_out) ++ o = OUT ->
  (good w' /\ (class w' <= 4)%nat) \/ closed w'.
Proof.
  intros Hb Hs [Ha' Hout Hi Hhow] Hd Ho. destruct (outside_all w w' Hout) as (K1 & K2 & K3). rewrite <- K1 in Hd.
  destruct Hhow as [[Hr Hn]|[(E & E1 & E2 & Hgo)|(E & ->)]].
  - left. assert (Hcl' : class w' = 4%nat) by (unfold class; destruct Hr as [_ [[-> _]|[-> _]]]; done).
    split; [|lia]. constructor; [done|by rewrite K1|auto|].
    exists (deliver (mk_answer a.(an_out) w'.(w_conn).(cn_item) a.(an_next)) SV (stream w')), o.
    split; [|split; [rewrite Hi; by destruct a|by rewrite K2]]. apply ph_send; [|exact Hn].
    destruct Hr as [Hc [[Est Hh]|Hw]]; [left; split; [done|by eapply holds_pending]|right; right].
    split; [apply Hw|]. split; [done|by right].
  - left. split; [|unfold class; rewrite E; lia].
    constructor; [done|by rewrite K1|auto|]. exists (release_kept w'.(w_conn).(cn_item);; SV (stream w')), o.
    split; [by apply ph_new|]. split; [|by rewrite K2]. destruct a as [out it nx]. cbn in *. subst.
    by apply deliver_sent in Hd.
  - right. apply deliver_sent in Hd. injection Hd as <- HF. rewrite app_nil_r in Ho.
    assert (finished OUT FIN w') as Hf by (split; congruence). constructor; [done| |by apply alive_closable|done].
    by rewrite (proj1 Hf).
Qed.

Lemma answered_ticked w a w' o :
  good w -> (4 < class w)%nat -> answered w a w' ->
  deliver a SV (stream w) (server_of w') = Some (o, FIN) -> w.(w_out) ++ o = OUT -> completed w w'.
Proof.
  intros [Ha Hb Hs _] Hcl Hans Hd Ho. destruct (outside_all w w' (as_outside _ _ _ Hans)) as (K1 & K2 & _).
  split; [|apply Hans]. split; [by rewrite K2|].
  destruct (answered_good w a w' o Hb Hs Hans Hd Ho) as [[Hg Hc]|Hc].
  - left. split; [done|]. apply ad_class; [by rewrite K1|lia].
  - by right.
Qed.

(** The value of an update is going to be read. *)
Lemma filling_ticked w h cmd quiet it op n w' o :
  good w -> class w = 6%nat -> filling w h cmd quiet it op n w' -> is_get cmd = false -> 0 <= cmd -> 0 <= n ->
  serve_value h op quiet it 0 n SV (stream w) (server_of w') = Some (o, FIN) -> w.(w_out) ++ o = OUT -> completed w w'.
Proof.
  intros [Ha Hb Hs _] Hcl [Hr Hout E1 E2 E3 E4 E5] Hg Hcmd Hn Hd Ho. destruct (outside_all w w' Hout) as (K1 & K2 & K3).
  rewrite <- K1 in Hd. split; [|apply Hr]. split; [by rewrite K2|]. left.
  split; [|apply ad_class; [by rewrite K1|unfold class at 1; rewrite E1, E2; lia]].
  constructor; [apply Hr|by rewrite K1|auto|]. eexists _, o. split; [by eapply ph_value, Build_valuing|]. split; [exact Hd|by rewrite K2].
Qed.

Lemma complete_packet_ticked w h hdr body o :
  good w -> class w = 6%nat -> w.(w_conn).(cn_substate) = bin_reading_packet ->
  ready w h h.(rh_opcode) false 0 NULL -> parsed hdr h -> at_packet w (hdr ++ body) ->
  Z.of_nat (length body) = h.(rh_bodylen) -> h.(rh_keylen) <= KEY_MAX_LENGTH ->
  after_chunk adm usr ctr h hdr h.(rh_opcode) false bin_reading_packet body (stream w) (server_of w) = Some (o, FIN) ->
  w.(w_out) ++ o = OUT -> runs complete_nread w (fun _ w' => completed w w').
Proof.
  intros Hg Hcl Hss Hw Hp Hat Hlen Hkey Hrem Ho. pose proof (go_settled _ _ _ _ _ _ Hg) as (S1 & S2 & S3 & _).
  cbn [after_chunk] in Hrem. apply run_bind_Some in Hrem as (a & s1 & Ha & Hd).
  pose proof (ro_opcode _ (rd_ok _ _ _ _ _ _ Hw)) as Hop.
  unfold complete_nread. run; unfold id.
  { apply Z.leb_le. rewrite (rd_cmd _ _ _ _ _ _ Hw). lia. }
  rewrite Hss, (rd_header _ _ _ _ _ _ Hw). destruct (Z.eqb_spec h.(rh_magic) PROTOCOL_BINARY_RES) as [E|E].
  - unfold serve_packet in Ha. rewrite E in Ha. change (PROTOCOL_BINARY_RES =? PROTOCOL_BINARY_RES) with true in Ha. cbn match in Ha.
    destruct (Z.eqb_spec h.(rh_opcode) PROTOCOL_BINARY_CMD_NOOP) as [En|]; [|done]. injection Ha as <- <-. run.
    eapply answered_ticked; [exact Hg|lia| |exact Hd|exact Ho]. constructor; [|same|apply Hw|].
    + eapply alive_same; [|apply Hw]. same.
    + right; left. split; [done|]. split; [done|]. split; [done|apply Hw].
  - rewrite <- S1, <- S3 in Ha. eapply runs_mono; [by eapply process_bin_packet_answered|].
    intros [] w' [Hans <-]. eapply answered_ticked; [exact Hg|lia|exact Hans|exact Hd|exact Ho].
Qed.

Lemma update_in_list cmd : is_update cmd ->
  in_list [PROTOCOL_BINARY_CMD_APPEND; PROTOCOL_BINARY_CMD_PREPEND] cmd = false /\ is_get cmd = false /\ 0 <= cmd.
Proof. by intros [-> | [-> | ->]]. Qed.

Lemma concat_in_list cmd : is_concat cmd ->
  in_list [PROTOCOL_BINARY_CMD_APPEND; PROTOCOL_BINARY_CMD_PREPEND] cmd = true /\ is_get cmd = false /\ 0 <= cmd.
Proof. by intros [-> | ->]. Qed.

Lemma u32_nonneg z : 0 <= u32 z.
Proof. unfold u32. destruct (wrap_fits 32 z ltac:(lia)). done. Qed.

(** What [start_update] returned. *)
Lemma started_ticked w h cmd quiet op key nbytes flags exptime vlen o m :
  good w -> class w = 6%nat -> is_get cmd = false -> 0 <= cmd ->
  serve_update h op quiet key nbytes flags exptime vlen SV (stream w) (server_of w) = Some (o, FIN) ->
  w.(w_out) ++ o = OUT ->
  (forall r s, start_update h key nbytes flags exptime vlen (server_of w) = Some (r, s) ->
     runs m w (fun (_ : unit) w' => started w h cmd quiet op vlen r w' /\ server_of w' = s)) ->
  runs m w (fun _ w' => completed w w').
Proof.
  intros Hg Hcl Hng Hcmd Hrem Ho Hm. unfold serve_update in Hrem. apply run_bind_Some in Hrem as (r & s & Hs & Hrem).
  eapply runs_mono; [by apply Hm|]. intros [] w' [Hst <-]. destruct r as [it|a]; cbn [started] in Hst.
  - eapply filling_ticked; [exact Hg|exact Hcl|exact Hst|exact Hng|exact Hcmd|apply u32_nonneg|exact Hrem|exact Ho].
  - eapply answered_ticked; [exact Hg|lia|exact Hst|exact Hrem|exact Ho].
Qed.

Lemma complete_header_ticked w h hdr b cmd quiet o :
  good w -> class w = 6%nat -> w.(w_conn).(cn_substate) = bin_reading_set_header ->
  ready w h cmd quiet 0 NULL -> parsed hdr h -> at_packet w (hdr ++ b) ->
  chunk_ok h cmd quiet bin_reading_set_header (Z.of_nat (length b)) ->
  serve_set_header h cmd quiet b SV (stream w) (server_of w) = Some (o, FIN) ->
  w.(w_out) ++ o = OUT -> runs complete_nread w (fun _ w' => completed w w').
Proof.
  intros Hg Hcl Hss Hw Hp Hat Hok Hrem Ho. unfold serve_set_header in Hrem. unfold complete_nread. run; unfold id.
  { apply Z.leb_le. rewrite (rd_cmd _ _ _ _ _ _ Hw). destruct Hok as [(Hu & _)|(Hc & _)];
      [apply update_in_list in Hu|apply concat_in_list in Hc]; tauto. }
  rewrite Hss, (rd_cmd _ _ _ _ _ _ Hw). destruct Hok as [(Hu & Hext & Hlen)|(Hc & Hlen)].
  - destruct (update_in_list _ Hu) as (E & Hng & Hcmd). rewrite E in *.
    eapply started_ticked; [exact Hg|exact Hcl|exact Hng|exact Hcmd|exact Hrem|exact Ho|]. intros r s Hs.
    by eapply process_bin_update_run.
  - destruct (concat_in_list _ Hc) as (E & Hng & Hcmd). rewrite E in *.
    eapply started_ticked; [exact Hg|exact Hcl|exact Hng|exact Hcmd|exact Hrem|exact Ho|]. intros r s Hs.
    by eapply process_bin_append_run.
Qed.

Lemma complete_value_ticked w h cmd quiet it op off o :
  good w -> class w = 5%nat -> w.(w_conn).(cn_substate) = bin_read_set_value ->
  ready w h cmd quiet 0 it -> is_get cmd = false -> 0 <= cmd -> w.(w_conn).(cn_store_op) = op ->
  serve_value h op quiet it off 0 SV (stream w) (server_of w) = Some (o, FIN) ->
  w.(w_out) ++ o = OUT -> runs complete_nread w (fun _ w' => completed w w').
Proof.
  intros Hg Hcl Hss Hw Hng Hcmd Hop Hrem Ho. unfold serve_value in Hrem. change (Z.to_nat 0) with 0%nat in Hrem. rewrite take_0 in Hrem.
  rewrite bool_decide_eq_true_2 in Hrem by done. rewrite (proj2 (Z.ltb_ge _ _)), drop_0 in Hrem by lia.
  apply run_bind_Some in Hrem as ([] & s0 & [[= ->] _]%releasable_Some & Hrem).
  apply run_bind_Some in Hrem as ([] & s0 & [= <-] & Hrem). apply run_bind_Some in Hrem as (a & s1 & Ha & Hd).
  unfold complete_nread. run; unfold id; [by apply Z.leb_le; rewrite (rd_cmd _ _ _ _ _ _ Hw)|].
  rewrite Hss. eapply runs_mono; [by eapply complete_update_run|]. intros [] w' [Hans <-].
  eapply answered_ticked; [exact Hg|lia|exact Hans|exact Hd|exact Ho].
Qed.

(** [complete_nread] as [conn_nread] calls it. *)
Lemma complete_ticked w : good w ->
  runs complete_nread w (fun _ w' => completed w w') ->
  w.(w_conn).(cn_rlbytes) = 0 -> runs conn_nread w (ticked w).
Proof.
  intros Hg Hc Hl. unfold conn_nread. run. unfold id. rewrite Hl. cbn [Z.eqb]. apply runs_bind, ewouldblock_run; [apply Hg|]. run.
  eapply runs_mono; [exact Hc|]. intros [] w' [Ht Hb]. run. rewrite Hb. run. exact Ht.
Qed.

(** ** Events *)

(** The world [w] after system calls, with another event and another [nevents]. *)
Definition touched (n : nat) (f nv : Z) w : world S :=
  set_w_calls n (set_w_conn (set_cn_nevents nv (set_cn_ev_flags f w.(w_conn))) w).

Lemma alive_touched n f nv w : alive w -> alive (touched n f nv w).
Proof. intros Ha. eapply alive_same; [|exact Ha]. unfold touched. same. Qed.

Lemma ready_touched n f nv w h cmd quiet cas it : ready w h cmd quiet cas it -> ready (touched n f nv w) h cmd quiet cas it.
Proof.
  intros Hw. eapply ready_same; [exact Hw|apply alive_touched, Hw|..]; try (unfold touched; same); apply Hw.
Qed.

Lemma pending_touched n f nv w out : pending w out -> pending (touched n f nv w) out.
Proof. intros [H1 H2 H3]. constructor; try done. by rewrite (msgs_bytes_same w). Qed.

Lemma sending_touched n f nv w out : sending w out -> sending (touched n f nv w) out.
Proof.
  intros [[? ?]|[(? & ? & ?)|[? [Hc Hr]]]].
  - left. by split; [|apply pending_touched].
  - right; left. split; [done|]. split; [done|]. by apply pending_touched.
  - right; right. split; [done|]. split; [done|]. destruct Hr as [[? ?]|(? & ? & ? & Hb)]; [congruence|right].
    split; [done|]. split; [by eapply holds_same; [unfold touched; same|]|]. split; [done|].
    etrans; [by apply (mem_read_same w)|exact Hb].
Qed.

Lemma phase_touched n f nv w rem : phase w rem -> phase (touched n f nv w) rem.
Proof.
  intros Hph. destruct Hph as [H1 H2|H1 H2 H3 H4|h hdr got cmd quiet ss left []
    |h cmd quiet it op off left []|out nx H1 H2|k H1 H2 H3 H4 H5].
  - by apply (ph_new adm usr ctr (touched n f nv w)).
  - by apply (ph_idle adm usr ctr (touched n f nv w)).
  - apply (ph_chunk adm usr ctr (touched n f nv w)). constructor; try done. by apply ready_touched.
  - apply (ph_value adm usr ctr (touched n f nv w)) with (cmd := cmd). constructor; try done. by apply ready_touched.
  - apply (ph_send adm usr ctr (touched n f nv w)); [by apply sending_touched|by destruct nx].
  - by apply (ph_swallow adm usr ctr (touched n f nv w)).
Qed.

Lemma good_touched n f nv w : good w -> good (touched n f nv w).
Proof.
  intros [Ha Hb Hs (rem & out & Hph & Hr)]. constructor; [by apply alive_touched|done|done|].
  exists rem, out. by split; [apply phase_touched|].
Qed.

Lemma good_called n w : good w -> good (set_w_calls n w).
Proof.
  intros Hg. replace (set_w_calls n w) with (touched n w.(w_conn).(cn_ev_flags) w.(w_conn).(cn_nevents) w)
    by (by destruct w as [[]]). by apply good_touched.
Qed.

Lemma update_event_touched w flags : alive w ->
  runs (update_event flags) w (fun ok w' => exists n f, w' = touched n f w.(w_conn).(cn_nevents) w /\ (prompt -> ok = true)).
Proof.
  intros Ha. eapply runs_mono; [by apply update_event_run|]. intros ok w' (n & f & r & -> & -> & Hp). exists n, f.
  split; [|done]. destruct (al_event _ Ha) as [Hr _]. unfold touched. destruct w as [[]]. cbn in Hr. by subst.
Qed.

(** Another event is waited for. *)
Lemma wait_for_ticked w w1 flags :
  good w1 -> w1.(w_out) = w.(w_out) ->
  (forall n f, advances w false (touched n f w1.(w_conn).(cn_nevents) w1)) -> runs (wait_for flags) w1 (ticked w).
Proof.
  intros Hg1 E3 Hadv. unfold wait_for. run. eapply runs_mono; [apply update_event_touched, Hg1|].
  intros ok w' (n & f & -> & Hp). destruct ok; cbn [negb]; run; (split; [by rewrite <- E3|]).
  - left. split; [by apply good_touched|apply Hadv].
  - right. apply closed_out; [done|exact (good_prefix adm usr ctr OUT FIN w1 Hg1)| |intros Hq; by specialize (Hp Hq)].
    exact (good_closable adm usr ctr OUT FIN w1 Hg1).
Qed.

(** The connection is closed because of the network. *)
Lemma closing_ticked w w1 : good w1 -> w1.(w_out) = w.(w_out) -> ~ prompt ->
  runs (conn_set_state F_closing;; mret true) (set_w_calls (Datatypes.S w1.(w_calls)) w1) (ticked w).
Proof.
  intros Hg1 E Hp. run. split; [by rewrite <- E|]. right. apply closed_out; [done|exact (good_prefix adm usr ctr OUT FIN w1 Hg1)| |done].
  exact (good_closable adm usr ctr OUT FIN w1 Hg1).
Qed.

(** ** Bytes of the input *)

Definition buf w : list Z :=
  take (Z.to_nat w.(w_conn).(cn_rbytes)) (drop (Z.to_nat w.(w_conn).(cn_rcurr)) w.(w_conn).(cn_rbuf)).

Lemma stream_buf w : stream w = buf w ++ w.(w_in).
Proof. done. Qed.

Lemma buf_length w : alive w -> Z.of_nat (length (buf w)) = w.(w_conn).(cn_rbytes).
Proof. intros [E _ ? _ _ _ _ _ _ _]. unfold buf. rewrite length_take, length_drop. lia. Qed.

Lemma buf_slice w n : alive w -> 0 <= n <= w.(w_conn).(cn_rbytes) ->
  slice w.(w_conn).(cn_rbuf) w.(w_conn).(cn_rcurr) n = Some (take (Z.to_nat n) (buf w)).
Proof.
  intros [E _ ? _ _ _ _ _ _ _] Hn. rewrite slice_Some by lia. unfold buf. rewrite take_take. do 2 f_equal. lia.
Qed.

Lemma slice_join l off n m a b : slice l off n = Some a -> slice l (off + n) m = Some b ->
  slice l off (n + m) = Some (a ++ b).
Proof.
  intros (H1 & H2 & H3 & ->)%slice_bounds (H4 & H5 & H6 & ->)%slice_bounds. rewrite slice_Some by lia. f_equal.
  rewrite Z2Nat.inj_add by lia. rewrite <- take_take_drop. f_equal. rewrite drop_drop. do 2 f_equal. lia.
Qed.

(** Bytes before the place of a write stay. *)
Lemma slice_splice l p b l' off n : splice l p b = Some l' -> off + n <= p -> slice l' off n = slice l off n.
Proof.
  intros (H1 & H2 & H3 & ->)%splice_bounds Hn. rewrite slice_app_l by (rewrite length_take; lia).
  rewrite <- (take_drop (Z.to_nat p) l) at 2. by rewrite slice_app_l by (rewrite length_take; lia).
Qed.

Lemma splice_slice l p b l' : splice l p b = Some l' -> slice l' p (Z.of_nat (length b)) = Some b.
Proof.
  intros (H1 & H2 & H3 & ->)%splice_bounds. rewrite slice_app_r by (rewrite length_take; lia).
  rewrite length_take, Nat.min_l, Z2Nat.id, Z.sub_diag by lia. rewrite slice_app_l by lia. by apply slice_all.
Qed.

Lemma chunk_advance n (F : list Z -> list Z -> M (server S) (list Z)) got a rest s : Z.of_nat (length a) <= n ->
  chunk n (fun b r => F (got ++ b) r) (a ++ rest) s
  = chunk (n - Z.of_nat (length a)) (fun b r => F ((got ++ a) ++ b) r) rest s.
Proof.
  intros Hn. unfold chunk. rewrite length_app.
  destruct (Z.ltb_spec (Z.of_nat (length a + length rest)) n), (Z.ltb_spec (Z.of_nat (length rest)) (n - Z.of_nat (length a)));
    try lia; [done|].
  rewrite take_app_ge, drop_app_ge by lia. replace (Z.to_nat n - length a)%nat with (Z.to_nat (n - Z.of_nat (length a))) by lia.
  by rewrite app_assoc.
Qed.

(** Nothing is left. *)
Lemma chunk_nothing n (F : list Z -> list Z -> M (server S) (list Z)) l s o s' :
  Z.of_nat (length l) < n -> chunk n F l s = Some (o, s') -> o = [] /\ s' = s.
Proof. intros Hn. unfold chunk. rewrite (proj2 (Z.ltb_lt _ _)) by lia. by intros [= <- <-]. Qed.

(** What [recv] does. *)
Lemma recv_run w n : 0 < n ->
  runs (do_data_recv n) w (fun r w' =>
    match r with
    | Got b => b <> [] /\ Z.of_nat (length b) <= n /\ exists rest, w.(w_in) = b ++ rest /\
        w' = set_w_in rest (set_w_calls (Datatypes.S w.(w_calls)) w)
    | Blocked => w' = set_w_calls (Datatypes.S w.(w_calls)) w /\ (prompt -> w.(w_in) = [])
    | Closed | Failed => w' = set_w_calls (Datatypes.S w.(w_calls)) w /\ ~ prompt
    end).
Proof.
  intros Hn. unfold do_data_recv. run. unfold id.
  assert (Hp : (forall k, sys_recv w.(w_calls) <> RecvData k) -> ~ prompt).
  { intros Hr (Hq & _). destruct (Hq w.(w_calls)) as [k Hk]. by apply (Hr k). }
  destruct (sys_recv w.(w_calls)) as [k| | |] eqn:E; [|run; split; [done|]; try (by apply Hp); by intros []%Hp..].
  rewrite (proj2 (Z.eqb_neq n 0)) by lia. proj. case_bool_decide as Hin.
  { run. by split. }
  run. set (j := Z.to_nat (Z.min n (Z.max k 1))). split.
  - intros Ht. apply (f_equal length) in Ht. rewrite length_take in Ht. destruct w.(w_in); [done|]. simpl in Ht. lia.
  - split; [rewrite length_take; lia|]. exists (drop j w.(w_in)). split; [by rewrite take_drop|done].
Qed.

(** ** Reading a packet or the header of an update *)

(** The first [k] bytes of the read buffer are taken where they are. *)
Definition skim (k : Z) w : world S :=
  set_w_conn (advance_ritem k (set_cn_rcurr (w.(w_conn).(cn_rcurr) + k)
                                 (set_cn_rbytes (w.(w_conn).(cn_rbytes) - k) w.(w_conn)))) w.

Lemma taken_stream k w w1 : alive w -> 0 <= k <= w.(w_conn).(cn_rbytes) ->
  w1.(w_conn).(cn_rbuf) = w.(w_conn).(cn_rbuf) -> w1.(w_conn).(cn_rcurr) = w.(w_conn).(cn_rcurr) + k ->
  w1.(w_conn).(cn_rbytes) = w.(w_conn).(cn_rbytes) - k -> w1.(w_in) = w.(w_in) ->
  stream w = take (Z.to_nat k) (buf w) ++ stream w1.
Proof.
  intros Ha Hk H1 H2 H3 H4. pose proof Ha as [E1 E2 E3 _ _ _ _ _ _ _].
  unfold stream, buf. rewrite H1, H2, H3, H4, app_assoc. f_equal.
  rewrite take_take, Nat.min_l by lia. set (l := drop (Z.to_nat (cn_rcurr (w_conn w))) _).
  replace (drop (Z.to_nat (cn_rcurr (w_conn w) + k)) _) with (drop (Z.to_nat k) l).
  2:{ unfold l. rewrite drop_drop. f_equal. lia. }
  rewrite take_take_drop. f_equal. lia.
Qed.

Lemma skim_stream k w : alive w -> 0 <= k <= w.(w_conn).(cn_rbytes) ->
  stream w = take (Z.to_nat k) (buf w) ++ stream (skim k w) /\ alive (skim k w).
Proof.
  intros Ha Hk. split; [by apply taken_stream|]. pose proof Ha as [E1 E2 E3 E4 E5 E6 E7 E8 E9 E10].
  constructor; unfold skim, advance_ritem; proj; try done; lia.
Qed.

(** The bytes [b] of [w_in] are received behind the request; the read buffer is empty. *)
Definition gulp (b rest : list Z) (l : list Z) w : world S :=
  let w1 := set_w_in rest (set_w_calls (Datatypes.S w.(w_calls)) w) in
  set_w_conn (advance_ritem (Z.of_nat (length b)) (set_cn_rcurr (w.(w_conn).(cn_rcurr) + Z.of_nat (length b))
                                                     (set_cn_rbuf l w.(w_conn)))) w1.

Lemma gulp_stream b rest l w : alive w -> w.(w_conn).(cn_rbytes) = 0 -> w.(w_in) = b ++ rest ->
  splice w.(w_conn).(cn_rbuf) w.(w_conn).(cn_rcurr) b = Some l ->
  stream w = b ++ stream (gulp b rest l w) /\ alive (gulp b rest l w).
Proof.
  intros Ha Hr Hin Hl. pose proof Ha as [E1 E2 E3 E4 E5 E6 E7 E8 E9 E10].
  apply splice_bounds in Hl as (L1 & L2 & L3 & _). split.
  - unfold stream, gulp, advance_ritem; proj. rewrite Hr. cbn [Z.to_nat]. rewrite !take_0. exact Hin.
  - constructor; unfold gulp, advance_ritem; proj; try done; lia.
Qed.

Section chunk.
Context (h : request_header) (hdr got : list Z) (cmd : Z) (quiet : bool) (ss : bin_substates) (left : Z).

Lemma ready_reading w w' : ready w h cmd quiet 0 NULL -> alive w' -> setup w' = setup w ->
  w'.(w_conn).(cn_cmd) = w.(w_conn).(cn_cmd) -> w'.(w_conn).(cn_noreply) = w.(w_conn).(cn_noreply) ->
  w'.(w_conn).(cn_cas) = w.(w_conn).(cn_cas) -> w'.(w_conn).(cn_item) = w.(w_conn).(cn_item) ->
  ready w' h cmd quiet 0 NULL.
Proof. intros Hw ? ? E1 E2 E3 E4. eapply ready_same; [exact Hw|done|done|..]; etrans; [done|apply Hw|done|apply Hw|done|apply Hw|done|apply Hw]. Qed.

Lemma chunk_skim w k : chunking h hdr got cmd quiet ss left w -> 0 <= k <= left -> k <= w.(w_conn).(cn_rbytes) ->
  chunking h hdr (got ++ take (Z.to_nat k) (buf w)) cmd quiet ss (left - k) (skim k w).
Proof.
  intros [H1 H2 H3 H4 H5 H6 H7 H8 H9 H10] Hk Hr. pose proof (rd_alive _ _ _ _ _ _ H3) as Ha.
  pose proof (buf_length w Ha) as Hb. destruct (skim_stream k w Ha ltac:(lia)) as [_ Ha'].
  assert (Hl : Z.of_nat (length (take (Z.to_nat k) (buf w))) = k) by (rewrite length_take; lia).
  constructor; unfold skim, advance_ritem; proj; try done.
  - eapply ready_reading; [exact H3|exact Ha'|unfold skim, advance_ritem; same..].
  - unfold at_packet in *; proj. rewrite app_assoc, length_app. rewrite Nat2Z.inj_add, Hl.
    replace (w.(w_conn).(cn_rcurr) + k - (Z.of_nat (length (hdr ++ got)) + k))
      with (w.(w_conn).(cn_rcurr) - Z.of_nat (length (hdr ++ got))) by lia.
    eapply slice_join; [exact H5|]. rewrite Z.sub_add. apply buf_slice; [done|lia].
  - lia.
  - by rewrite H7.
  - rewrite H8. done.
  - lia.
  - rewrite length_app. replace (Z.of_nat (length got + length (take (Z.to_nat k) (buf w))) + (left - k))
      with (Z.of_nat (length got) + left) by lia. done.
Qed.

Lemma chunk_gulp w b rest l : chunking h hdr got cmd quiet ss left w -> w.(w_conn).(cn_rbytes) = 0 ->
  w.(w_in) = b ++ rest -> Z.of_nat (length b) <= left ->
  splice w.(w_conn).(cn_rbuf) w.(w_conn).(cn_rcurr) b = Some l ->
  chunking h hdr (got ++ b) cmd quiet ss (left - Z.of_nat (length b)) (gulp b rest l w).
Proof.
  intros [H1 H2 H3 H4 H5 H6 H7 H8 H9 H10] Hr Hin Hlen Hl. pose proof (rd_alive _ _ _ _ _ _ H3) as Ha.
  destruct (gulp_stream b rest l w Ha Hr Hin Hl) as [_ Ha'].
  constructor; unfold gulp, advance_ritem; proj; try done.
  - eapply ready_reading; [exact H3|exact Ha'|unfold gulp, advance_ritem; same..].
  - unfold at_packet in *; proj. rewrite app_assoc, length_app. rewrite Nat2Z.inj_add.
    replace (w.(w_conn).(cn_rcurr) + Z.of_nat (length b) - (Z.of_nat (length (hdr ++ got)) + Z.of_nat (length b)))
      with (w.(w_conn).(cn_rcurr) - Z.of_nat (length (hdr ++ got))) by lia.
    eapply slice_join; [erewrite slice_splice; [exact H5|exact Hl|lia]|]. rewrite Z.sub_add. by eapply splice_slice.
  - lia.
  - by rewrite H7.
  - rewrite H8. done.
  - lia.
  - rewrite length_app. replace (Z.of_nat (length got + length b) + (left - Z.of_nat (length b)))
      with (Z.of_nat (length got) + left) by lia. done.
Qed.

(** The bytes [a] were read. *)
Lemma good_chunk w w' a o :
  good w -> chunking h hdr (got ++ a) cmd quiet ss (left - Z.of_nat (length a)) w' ->
  stream w = a ++ stream w' -> Z.of_nat (length a) <= left -> server_of w' = server_of w -> settled adm usr ctr w' ->
  w'.(w_out) = w.(w_out) ->
  chunk left (fun b rest => after_chunk adm usr ctr h hdr cmd quiet ss (got ++ b) rest) (stream w) (server_of w) = Some (o, FIN) ->
  w.(w_out) ++ o = OUT -> good w'.
Proof.
  intros [_ Hb _ _] Hck Hst Hlen Hs Hset Hout Hrem Ho. rewrite Hst in Hrem, Hb.
  rewrite chunk_advance in Hrem by done. apply Forall_app in Hb as [_ Hb].
  constructor; [apply Hck|exact Hb|exact Hset|]. eexists _, o. split; [by apply ph_chunk|]. by rewrite Hs, Hout.
Qed.

Lemma write_rbuf_run w b l (Q : unit -> world S -> Prop) o :
  w.(w_conn).(cn_ritem) = A_rbuf o -> splice w.(w_conn).(cn_rbuf) o b = Some l ->
  Q tt (set_w_conn (set_cn_rbuf l w.(w_conn)) w) -> runs (write_ritem b) w Q.
Proof. intros E1 E2 HQ. unfold write_ritem. run. unfold id. rewrite E1. run; [exact E2|exact HQ]. Qed.
End chunk.

(** What [conn_nread] does with the result of [recv]. *)
Definition nread_received (res : received) : D bool :=
  match res with
  | Got b =>
      write_ritem b;;
      let n := Z.of_nat (length b) in
      updc (fun c => advance_ritem n (if at_rcurr c then set_cn_rcurr (c.(cn_rcurr) + n) c else c));;
      mret true
  | Blocked => wait_for (Z.lor EV_READ EV_PERSIST)
  | Closed | Failed => conn_set_state F_closing;; mret true
  end.

Lemma recv_chunk_ticked h hdr got cmd quiet ss left w w1 o :
  good w1 -> chunking h hdr got cmd quiet ss left w1 -> 0 < left -> w1.(w_conn).(cn_rbytes) = 0 ->
  w1.(w_out) = w.(w_out) -> ((length (stream w1) < length (stream w))%nat \/ w1 = w) ->
  chunk left (fun b rest => after_chunk adm usr ctr h hdr cmd quiet ss (got ++ b) rest) (stream w1) (server_of w1) = Some (o, FIN) ->
  w1.(w_out) ++ o = OUT ->
  runs (do_data_recv left) w1 (fun r w2 => runs (nread_received r) w2 (ticked w)).
Proof.
  intros Hg Hck Hl Hr Hout Hadv Hrem Ho. eapply runs_mono; [by apply recv_run|]. intros r w2 Hr2. pose proof (go_alive _ _ _ _ _ _ Hg) as Ha.
  assert (Hle : (length (stream w1) <= length (stream w))%nat) by (destruct Hadv as [? | ->]; lia).
  destruct r as [b| | |]; cbn [nread_received].
  - destruct Hr2 as (Hne & Hlen & rest & Hin & ->). pose proof Ha as [E1 E2 E3 _ _ _ _ _ _ _].
    pose proof (ck_room _ _ _ _ _ _ _ _ Hck) as Hroom.
    destruct (splice w1.(w_conn).(cn_rbuf) w1.(w_conn).(cn_rcurr) b) as [l|] eqn:Hs.
    2:{ rewrite splice_Some in Hs by lia. done. }
    destruct (gulp_stream b rest l w1 Ha Hr Hin Hs) as [Hst Ha'].
    apply runs_bind. eapply write_rbuf_run; [apply (ck_ritem _ _ _ _ _ _ _ _ Hck)|exact Hs|]. run.
    unfold at_rcurr; proj. rewrite (ck_ritem _ _ _ _ _ _ _ _ Hck), Z.eqb_refl.
    change (set_w_conn _ _) with (gulp b rest l w1). split; [by rewrite <- Hout|]. left. split.
    + eapply (good_chunk h hdr got cmd quiet ss left w1); [exact Hg|by apply chunk_gulp|exact Hst|exact Hlen|same|apply Hg|same|exact Hrem|exact Ho].
    + apply ad_stream. rewrite Hst, length_app in Hle. destruct b; [done|simpl in Hle; lia].
  - destruct Hr2 as [-> Hp]. by apply closing_ticked.
  - destruct Hr2 as [-> Hp]. set (w2 := set_w_calls _ w1).
    eapply (wait_for_ticked w w2); [by apply good_called|done|]. intros n f. destruct Hadv as [Hlt| ->]; [by apply ad_stream|].
    apply ad_block; try done. intros Hq%Hp. assert (Hnil : stream w = []).
    { rewrite stream_buf, Hq, app_nil_r. unfold buf. rewrite Hr. apply take_0. }
    rewrite Hnil in Hrem. apply chunk_nothing in Hrem as [-> ->]; [|simpl; lia]. by rewrite app_nil_r in Ho.
  - destruct Hr2 as [-> Hp]. by apply closing_ticked.
Qed.

Lemma complete_chunk_ticked h hdr got cmd quiet ss w o :
  good w -> chunking h hdr got cmd quiet ss 0 w ->
  chunk 0 (fun b rest => after_chunk adm usr ctr h hdr cmd quiet ss (got ++ b) rest) (stream w) (server_of w) = Some (o, FIN) ->
  w.(w_out) ++ o = OUT -> runs conn_nread w (ticked w).
Proof.
  intros Hg [H1 H2 H3 H4 H5 H6 H7 H8 H9 H10] Hrem Ho. unfold chunk in Hrem. rewrite (proj2 (Z.ltb_ge _ _)) in Hrem by lia.
  change (Z.to_nat 0) with 0%nat in Hrem. rewrite take_0, drop_0, app_nil_r in Hrem. rewrite Z.add_0_r in H10.
  apply complete_ticked; [exact Hg| |exact H7].
  assert (Hcl : class w = 6%nat) by (unfold class; rewrite H1, H2; by destruct ss).
  destruct ss; try done.
  - eapply complete_header_ticked; try done.
  - destruct H10 as (Hlen & -> & -> & Hkey). eapply complete_packet_ticked; try done.
Qed.

Lemma conn_nread_chunk h hdr got cmd quiet ss left w o :
  good w -> chunking h hdr got cmd quiet ss left w ->
  chunk left (fun b rest => after_chunk adm usr ctr h hdr cmd quiet ss (got ++ b) rest) (stream w) (server_of w) = Some (o, FIN) ->
  w.(w_out) ++ o = OUT -> runs conn_nread w (ticked w).
Proof.
  intros Hg Hck Hrem Ho. pose proof (ck_left _ _ _ _ _ _ _ _ Hck) as Hl. pose proof (go_alive _ _ _ _ _ _ Hg) as Ha.
  pose proof Ha as [_ _ Hpos _ _ _ _ _ _ _].
  destruct (Z.eq_dec left 0) as [->|Hl0]; [by eapply complete_chunk_ticked|].
  unfold conn_nread. run. unfold id. rewrite (ck_rlbytes _ _ _ _ _ _ _ _ Hck), (proj2 (Z.eqb_neq _ _) Hl0).
  change (fun res : received => _) with nread_received. unfold nread_leftovers. run. unfold id.
  rewrite (ck_rlbytes _ _ _ _ _ _ _ _ Hck). destruct (Z.ltb_spec 0 w.(w_conn).(cn_rbytes)) as [Hb|Hb]; cbn [when andb].
  - assert (Hat : at_rcurr w.(w_conn) = true) by (unfold at_rcurr; by rewrite (ck_ritem _ _ _ _ _ _ _ _ Hck), Z.eqb_refl).
    rewrite Hat. cbn [negb when]. run.
    set (k := if left <? w.(w_conn).(cn_rbytes) then left else w.(w_conn).(cn_rbytes)).
    assert (Hk : 0 < k <= left /\ k <= w.(w_conn).(cn_rbytes) /\ (k = left \/ k = w.(w_conn).(cn_rbytes)))
      by (unfold k; destruct (Z.ltb_spec left w.(w_conn).(cn_rbytes)); lia).
    change (set_w_conn _ w) with (skim k w). set (w1 := skim k w).
    destruct (skim_stream k w Ha ltac:(lia)) as [Hst Ha1]. pose proof (buf_length w Ha) as Hbl.
    set (a := take (Z.to_nat k) (buf w)) in *. assert (Hal : Z.of_nat (length a) = k) by (unfold a; rewrite length_take; lia).
    pose proof (chunk_skim h hdr got cmd quiet ss left w k Hck ltac:(lia) ltac:(lia)) as Hck1. fold w1 a in Hck1. fold w1 in Hst.
    assert (Hg1 : good w1).
    { eapply (good_chunk h hdr got cmd quiet ss left w); [exact Hg|by rewrite Hal|exact Hst|lia|same|apply Hg|same|exact Hrem|exact Ho]. }
    assert (Hlt : (length (stream w1) < length (stream w))%nat) by (rewrite Hst, length_app; lia).
    rewrite (ck_rlbytes _ _ _ _ _ _ _ _ Hck1). destruct (Z.eqb_spec (left - k) 0) as [E|E].
    + run. split; [done|]. left. split; [exact Hg1|by apply ad_stream].
    + run. eapply recv_chunk_ticked; [exact Hg1|exact Hck1|lia| |same|by left| |exact Ho].
      * unfold w1, skim, advance_ritem; proj. lia.
      * rewrite Hst in Hrem. rewrite chunk_advance, Hal in Hrem by lia. exact Hrem.
  - run. rewrite (ck_rlbytes _ _ _ _ _ _ _ _ Hck).
    eapply recv_chunk_ticked; [exact Hg|exact Hck|lia|lia|done|by right|exact Hrem|exact Ho].
Qed.

(** ** Reading the value of an update *)

Section value.
Context (h : request_header) (cmd : Z) (quiet : bool) (it : Z) (op : ENGINE_STORE_OPERATION) (off left : Z).

Lemma valuing_move w w' k :
  valuing h cmd quiet it op off left w -> alive w' -> setup w' = setup w -> 0 <= k <= left ->
  (w'.(w_conn).(cn_state), w'.(w_conn).(cn_substate), w'.(w_conn).(cn_cmd), w'.(w_conn).(cn_noreply),
   w'.(w_conn).(cn_cas), w'.(w_conn).(cn_item), w'.(w_conn).(cn_store_op))
  = (w.(w_conn).(cn_state), w.(w_conn).(cn_substate), w.(w_conn).(cn_cmd), w.(w_conn).(cn_noreply),
     w.(w_conn).(cn_cas), w.(w_conn).(cn_item), w.(w_conn).(cn_store_op)) ->
  w'.(w_conn).(cn_rlbytes) = w.(w_conn).(cn_rlbytes) - k -> w'.(w_conn).(cn_ritem) = shift_addr w.(w_conn).(cn_ritem) k ->
  valuing h cmd quiet it op (off + k) (left - k) w'.
Proof.
  intros [H1 H2 H3 H4 H5 H6 H7 H8 H9] Ha Hs Hk [= E1 E2 E3 E4 E5 E6 E7] El Er. constructor; try congruence; try done.
  - eapply ready_same; [exact H3|done|done|..]; destruct H3; congruence.
  - lia.
  - by rewrite Er, H8.
Qed.

(** The part [a] of the value was written. *)
Lemma good_value w w' a o s1 :
  good w -> valuing h cmd quiet it op (off + Z.of_nat (length a)) (left - Z.of_nat (length a)) w' ->
  stream w = a ++ stream w' -> settled adm usr ctr w' -> w'.(w_out) = w.(w_out) -> server_of w' = s1 ->
  serve_value h op quiet it (off + Z.of_nat (length a)) (left - Z.of_nat (length a)) SV (stream w') s1 = Some (o, FIN) ->
  w.(w_out) ++ o = OUT -> good w'.
Proof.
  intros [_ Hb _ _] Hva Hst Hset Hout Hs Hrem Ho. rewrite Hst in Hb. apply Forall_app in Hb as [_ Hb].
  constructor; [apply Hva|exact Hb|exact Hset|]. eexists _, o. split; [by eapply ph_value|]. by rewrite Hs, Hout.
Qed.

(** A part of the value is written to the item. *)
Lemma write_value_run w a rest o (Q : unit -> world S -> Prop) :
  w.(w_conn).(cn_ritem) = A_data it off -> a <> [] -> Z.of_nat (length a) <= left ->
  serve_value h op quiet it off left SV (a ++ rest) (server_of w) = Some (o, FIN) ->
  (forall e, serve_value h op quiet it (off + Z.of_nat (length a)) (left - Z.of_nat (length a)) SV rest
               (server_of (set_w_engine e w)) = Some (o, FIN) -> Q tt (set_w_engine e w)) ->
  runs (write_ritem a) w Q.
Proof.
  intros Hi Hne Hlen Hrem HQ. apply serve_value_step in Hrem; [|apply write_app|apply write_release|done|done].
  apply run_bind_Some in Hrem as ([] & s1 & (e & He & ->)%call_Some & Hrem).
  unfold write_ritem. run. unfold id. rewrite Hi. eapply runs_eng; [exact He|]. apply HQ. exact Hrem.
Qed.

Lemma value_nothing s o : 0 < left -> serve_value h op quiet it off left SV [] s = Some (o, FIN) -> o = [] /\ FIN = s.
Proof.
  intros Hl. unfold serve_value. rewrite take_nil, bool_decide_eq_true_2 by done.
  rewrite (proj2 (Z.ltb_lt _ _)) by (simpl; lia). intros ([] & s1 & [[= ->] _]%releasable_Some & Hr)%run_bind_Some.
  by injection Hr as <- <-.
Qed.
End value.

Lemma recv_value_ticked h cmd quiet it op off left w w1 o :
  good w1 -> valuing h cmd quiet it op off left w1 -> 0 < left -> w1.(w_conn).(cn_rbytes) = 0 ->
  w1.(w_out) = w.(w_out) -> ((length (stream w1) < length (stream w))%nat \/ w1 = w) ->
  serve_value h op quiet it off left SV (stream w1) (server_of w1) = Some (o, FIN) ->
  w1.(w_out) ++ o = OUT ->
  runs (do_data_recv left) w1 (fun r w2 => runs (nread_received r) w2 (ticked w)).
Proof.
  intros Hg Hva Hl Hr Hout Hadv Hrem Ho. eapply runs_mono; [by apply recv_run|]. intros r w2 Hr2.
  assert (Hle : (length (stream w1) <= length (stream w))%nat) by (destruct Hadv as [? | ->]; lia).
  assert (Hst : stream w1 = w1.(w_in)) by (rewrite stream_buf; unfold buf; by rewrite Hr, take_0).
  destruct r as [b| | |]; cbn [nread_received].
  - destruct Hr2 as (Hne & Hlen & rest & Hin & ->). rewrite Hst, Hin in Hrem. apply runs_bind.
    eapply (write_value_run h quiet it op off left); [apply Hva|exact Hne|exact Hlen|exact Hrem|].
    intros e Hrem'. run. unfold at_rcurr; proj. rewrite (va_ritem _ _ _ _ _ _ _ _ Hva).
    set (w3 := set_w_conn _ _). split; [by rewrite <- Hout|].
    assert (Hst3 : stream w3 = rest) by (unfold w3; rewrite stream_buf; unfold buf, advance_ritem; proj; by rewrite Hr, take_0).
    left. split; [|apply ad_stream; rewrite Hst3; rewrite Hst, Hin, length_app in Hle; destruct b; [done|simpl in Hle; lia]].
    eapply (good_value h cmd quiet it op off left w1 w3 b); [exact Hg| |by rewrite Hst3, <- Hin|apply Hg|same|reflexivity|
      rewrite Hst3; exact Hrem'|exact Ho].
    eapply valuing_move; [exact Hva| |unfold w3, advance_ritem; same|lia|unfold w3, advance_ritem; same..].
    eapply alive_same; [|apply Hg]. unfold w3, advance_ritem; same.
  - destruct Hr2 as [-> Hp]. by apply closing_ticked.
  - destruct Hr2 as [-> Hp]. set (w2 := set_w_calls _ w1).
    eapply (wait_for_ticked w w2); [by apply good_called|done|]. intros n f. destruct Hadv as [Hlt| ->]; [by apply ad_stream|].
    apply ad_block; try done. intros Hq%Hp. rewrite Hst, Hq in Hrem.
    apply value_nothing in Hrem as [-> ->]; [|done]. by rewrite app_nil_r in Ho.
  - destruct Hr2 as [-> Hp]. by apply closing_ticked.
Qed.

Lemma conn_nread_value h cmd quiet it op off left w o :
  good w -> valuing h cmd quiet it op off left w ->
  serve_value h op quiet it off left SV (stream w) (server_of w) = Some (o, FIN) ->
  w.(w_out) ++ o = OUT -> runs conn_nread w (ticked w).
Proof.
  intros Hg Hva Hrem Ho. pose proof (va_left _ _ _ _ _ _ _ _ Hva) as Hl. pose proof (go_alive _ _ _ _ _ _ Hg) as Ha.
  pose proof Ha as [_ _ Hpos _ _ _ _ _ _ _].
  destruct (Z.eq_dec left 0) as [->|Hl0].
  { destruct Hva as [V1 V2 ? ? ? ? ? ? ?]. apply complete_ticked; [exact Hg| |done]. eapply complete_value_ticked; try done.
    unfold class. by rewrite V1, V2. }
  unfold conn_nread. run. unfold id. rewrite (va_rlbytes _ _ _ _ _ _ _ _ Hva), (proj2 (Z.eqb_neq _ _) Hl0).
  change (fun res : received => _) with nread_received. unfold nread_leftovers. run. unfold id.
  rewrite (va_rlbytes _ _ _ _ _ _ _ _ Hva). destruct (Z.ltb_spec 0 w.(w_conn).(cn_rbytes)) as [Hb|Hb]; cbn [when andb].
  2:{ run. rewrite (va_rlbytes _ _ _ _ _ _ _ _ Hva).
      eapply recv_value_ticked; [exact Hg|exact Hva|lia|lia|done|by right|exact Hrem|exact Ho]. }
  assert (Hat : at_rcurr w.(w_conn) = false) by (unfold at_rcurr; by rewrite (va_ritem _ _ _ _ _ _ _ _ Hva)).
  set (k := if left <? w.(w_conn).(cn_rbytes) then left else w.(w_conn).(cn_rbytes)).
  assert (Hk : 0 < k <= left /\ k <= w.(w_conn).(cn_rbytes) /\ (k = left \/ k = w.(w_conn).(cn_rbytes)))
    by (unfold k; destruct (Z.ltb_spec left w.(w_conn).(cn_rbytes)); lia).
  destruct (skim_stream k w Ha ltac:(lia)) as [Hst _]. pose proof (buf_length w Ha) as Hbl.
  rewrite Hat. cbn [negb when]. run; [apply buf_slice; [done|lia]|].
  set (a := take (Z.to_nat k) (buf w)) in *. assert (Hal : Z.of_nat (length a) = k) by (unfold a; rewrite length_take; lia).
  rewrite Hst in Hrem. eapply (write_value_run h quiet it op off left w a); [apply Hva|by intros ->; simpl in Hal; lia|lia|exact Hrem|].
  intros e Hrem'. run. change (set_w_conn _ _) with (skim k (set_w_engine e w)). set (w1 := skim k (set_w_engine e w)).
  assert (Ha1 : alive w1) by (apply skim_stream; [eapply alive_same; [|exact Ha]; same|proj; lia]).
  assert (Hva1 : valuing h cmd quiet it op (off + k) (left - k) w1).
  { eapply (valuing_move h cmd quiet it op off left w); [exact Hva|exact Ha1|unfold w1, skim, advance_ritem; same|lia|
      unfold w1, skim, advance_ritem; same..]. }
  assert (Hs1 : stream w1 = stream (skim k w)) by (unfold stream, w1, skim, advance_ritem; proj; reflexivity).
  rewrite <- Hs1 in Hst, Hrem'.
  assert (Hg1 : good w1).
  { eapply (good_value h cmd quiet it op off left w w1 a); [exact Hg|by rewrite Hal|exact Hst|apply Hg|same|same|exact Hrem'|exact Ho]. }
  assert (Hlt : (length (stream w1) < length (stream w))%nat) by (rewrite Hst, length_app; lia).
  rewrite (va_rlbytes _ _ _ _ _ _ _ _ Hva1). destruct (Z.eqb_spec (left - k) 0) as [E|E].
  - run. split; [done|]. left. split; [exact Hg1|by apply ad_stream].
  - run. rewrite Hal in Hrem'. eapply recv_value_ticked; [exact Hg1|exact Hva1|lia| |same|by left|exact Hrem'|exact Ho].
    unfold w1, skim, advance_ritem; proj. lia.
Qed.
End steps.
