(* ===== verification/Tick.v ===== *)
(** * One call of a state function

    The state functions between requests, and the theorem for all of them: a call on a
    good connection returns and leaves a good connection that is further on, or one
    that is about to be closed. *)
From Stdlib Require Import ZArith Lia.
From stdpp Require Import strings gmap prelude.
From S2P Require Import Prelude Util EngineState DefaultEngine JsonChecker Snappy Protocol Conn Daemon Serve Reply Handlers Updates Phases Steps.

#[local] Set Warnings "-clear-no-such-hyp".

Section tick.
Context {S : Type} {EV : EngineV1 S} {SY : Sys} {ST : Settings} {SN : Snappy} {SOK : Provided} {EOK : EngineV1Ok S}.
Context (adm usr : bool) (ctr : Z) (OUT : list Z) (FIN : server S).

Abbreviation D := (M (world S)).
Abbreviation SV := (serve (S := S) adm usr ctr).
Abbreviation good := (good adm usr ctr OUT FIN).
Abbreviation phase := (phase adm usr ctr).
Abbreviation ticked := (ticked adm usr ctr OUT FIN).
Abbreviation closed := (closed OUT FIN).
Abbreviation advances := (advances OUT FIN).
Implicit Types w : world S.

(** ** Skipping *)

(** The rest after [n] bytes. *)
Definition skip_rest (n : Z) (l : list Z) : M (server S) (list Z) :=
  if Z.of_nat (length l) <? n then mret [] else SV (drop (Z.to_nat n) l).

Lemma skip_rest_app n a l : Z.of_nat (length a) <= n -> skip_rest n (a ++ l) = skip_rest (n - Z.of_nat (length a)) l.
Proof.
  intros Hn. unfold skip_rest. rewrite length_app.
  destruct (Z.ltb_spec (Z.of_nat (length a + length l)) n), (Z.ltb_spec (Z.of_nat (length l)) (n - Z.of_nat (length a)));
    try lia; [done|]. rewrite drop_app_ge by lia. do 2 f_equal. lia.
Qed.

(** The bytes [a] were skipped. *)
Lemma good_swallow w w' a n o :
  good w -> w.(w_conn).(cn_sbytes) = n -> 0 <= n < 2 ^ 32 -> n = 0 \/ w.(w_conn).(cn_item) = NULL ->
  w.(w_conn).(cn_write_and_go) = F_swallow ->
  (release_kept w.(w_conn).(cn_item);; skip_rest n (stream w)) (server_of w) = Some (o, FIN) -> w.(w_out) ++ o = OUT ->
  stream w = a ++ stream w' -> Z.of_nat (length a) <= n -> alive w' -> settled adm usr ctr w' ->
  server_of w' = server_of w -> w'.(w_out) = w.(w_out) -> w'.(w_conn).(cn_item) = w.(w_conn).(cn_item) ->
  w'.(w_conn).(cn_state) = F_swallow -> w'.(w_conn).(cn_sbytes) = n - Z.of_nat (length a) ->
  w'.(w_conn).(cn_write_and_go) = F_swallow -> good w'.
Proof.
  intros [_ Hb _ _] Hn Hr Hi Hgo Hrem Ho Hst Hlen Ha Hs E1 E2 E3 E4 E5 E6. rewrite Hst in Hb, Hrem.
  apply Forall_app in Hb as [_ Hb]. rewrite skip_rest_app in Hrem by done.
  constructor; [done|done|done|]. eexists _, o. split; [apply (ph_swallow adm usr ctr w' (n - Z.of_nat (length a)))|].
  - done.
  - done.
  - lia.
  - destruct Hi as [->|Hi]; [left; lia|right; congruence].
  - done.
  - by rewrite E1, E2, E3.
Qed.

Lemma conn_swallow_ticked w n o :
  good w -> w.(w_conn).(cn_state) = F_swallow -> w.(w_conn).(cn_sbytes) = n -> 0 <= n < 2 ^ 32 ->
  n = 0 \/ w.(w_conn).(cn_item) = NULL -> w.(w_conn).(cn_write_and_go) = F_swallow ->
  (release_kept w.(w_conn).(cn_item);; skip_rest n (stream w)) (server_of w) = Some (o, FIN) -> w.(w_out) ++ o = OUT ->
  runs conn_swallow w (ticked w).
Proof.
  intros Hg Hst Hn Hr Hi Hgo Hrem Ho. pose proof (go_alive _ _ _ _ _ _ Hg) as Ha.
  assert (Hcl : class w = 3%nat) by (unfold class; by rewrite Hst). pose proof Ha as [E1 E2 E3 E4 E5 E6 E7 E8 E9 E10].
  unfold conn_swallow. run. unfold id. rewrite Hn. destruct (Z.eqb_spec n 0) as [->|Hn0].
  - run. split; [done|]. left. split; [|apply ad_class; [done|rewrite Hcl; unfold class; proj; lia]].
    unfold skip_rest in Hrem. rewrite (proj2 (Z.ltb_ge _ _)), drop_0 in Hrem by lia.
    eapply (good_kept adm usr ctr OUT FIN w); [exact Hg|same|apply ph_new|exact Hrem|exact Ho]; [done|].
    left. by split.
  - destruct (Z.ltb_spec 0 w.(w_conn).(cn_rbytes)) as [Hb|Hb].
    + run. set (k := if n <? w.(w_conn).(cn_rbytes) then n else w.(w_conn).(cn_rbytes)).
      assert (Hk : 0 < k <= n /\ k <= w.(w_conn).(cn_rbytes)) by (unfold k; destruct (Z.ltb_spec n w.(w_conn).(cn_rbytes)); lia).
      pose proof (buf_length w Ha) as Hbl. set (w1 := set_w_conn _ w).
      assert (Hs1 : stream w = take (Z.to_nat k) (buf w) ++ stream w1) by (by apply taken_stream; [|lia|..]).
      assert (Hal : Z.of_nat (length (take (Z.to_nat k) (buf w))) = k) by (rewrite length_take; lia).
      split; [done|]. left. split; [|apply ad_stream; rewrite Hs1, length_app; lia].
      eapply (good_swallow w w1); try done; [lia| |apply Hg|rewrite Hal; unfold w1; proj; by rewrite Hn].
      unfold w1. constructor; proj; try done; lia.
    + assert (Hb0 : w.(w_conn).(cn_rbytes) = 0) by lia.
      assert (Hs0 : stream w = w.(w_in)) by (rewrite stream_buf; unfold buf; by rewrite Hb0, take_0).
      run. eapply runs_mono; [apply recv_run; destruct (Z.ltb_spec n w.(w_conn).(cn_rsize)); unfold DATA_BUFFER_SIZE in *; lia|].
      intros r w1 Hr1. destruct r as [b| | |].
      * destruct Hr1 as (Hne & Hlen & rest & Hin & ->).
        assert (Hbn : Z.of_nat (length b) <= n /\ Z.of_nat (length b) <= w.(w_conn).(cn_rsize))
          by (destruct (Z.ltb_spec n w.(w_conn).(cn_rsize)); lia).
        run; [apply splice_Some; lia|]. proj. cbn [Z.to_nat take app Nat.add]. set (w1 := set_w_conn _ _).
        assert (Hs1 : stream w1 = rest) by (rewrite stream_buf; unfold buf, w1; proj; by rewrite Hb0, take_0).
        split; [done|]. left. split.
        -- eapply (good_swallow w w1 b); try done; [by rewrite Hs1, Hs0|lia| |apply Hg|unfold w1; proj; by rewrite Hn].
           unfold w1. constructor; proj; try done. rewrite !length_app, length_take, length_drop. lia.
        -- apply ad_stream. rewrite Hs1, Hs0, Hin, length_app. destruct b; [done|simpl; lia].
      * destruct Hr1 as [-> Hp]. by apply closing_ticked.
      * destruct Hr1 as [-> Hp]. set (w1 := set_w_calls _ w).
        eapply (wait_for_ticked adm usr ctr OUT FIN w w1); [by apply good_called|done|]. intros m f.
        apply ad_block; try done. intros Hq%Hp. destruct Hi as [?|Hi]; [done|]. rewrite Hs0, Hq, Hi in Hrem.
        unfold skip_rest in Hrem. rewrite (proj2 (Z.ltb_lt _ _)) in Hrem by (simpl; lia).
        injection Hrem as <- <-. by rewrite app_nil_r in Ho.
      * destruct Hr1 as [-> Hp]. by apply closing_ticked.
Qed.

(** ** The next request *)

(** What [conn_shrink] and the reads keep. *)
Definition still w :=
  (w.(w_out), server_of w,
   (w.(w_conn).(cn_admin), w.(w_conn).(cn_sasl_user), w.(w_conn).(cn_max_reqs_per_event), w.(w_session_ctr)),
   w.(w_conn).(cn_write_and_go), w.(w_conn).(cn_sbytes), w.(w_conn).(cn_item), w.(w_conn).(cn_state)).

Lemma still_all w w' : still w' = still w ->
  w'.(w_out) = w.(w_out) /\ server_of w' = server_of w /\ (settled adm usr ctr w -> settled adm usr ctr w') /\
  (goes_on w 0 -> goes_on w' 0) /\ w'.(w_conn).(cn_item) = w.(w_conn).(cn_item) /\
  w'.(w_conn).(cn_sbytes) = w.(w_conn).(cn_sbytes) /\ w'.(w_conn).(cn_state) = w.(w_conn).(cn_state).
Proof.
  unfold still, server_of, settled, goes_on. intros [= H1 H2 H3 H4 H5 H6 H7 H8 H9 H10 H11 H12 H13].
  by rewrite H1, H2, H3, H4, H5, H6, H7, H8, H9, H10, H11, H12, H13.
Qed.

(** The content of the buffer at its front. *)
Definition front w (l : list Z) (n : Z) : world S :=
  set_w_conn (set_cn_rcurr 0 (set_cn_rsize n (set_cn_rbuf l w.(w_conn)))) w.

Lemma front_stream w l n : alive w -> take (Z.to_nat w.(w_conn).(cn_rbytes)) l = buf w ->
  Z.of_nat (length l) = n -> DATA_BUFFER_SIZE <= n <= 2 ^ 30 -> w.(w_conn).(cn_rbytes) <= n ->
  stream (front w l n) = stream w /\ alive (front w l n) /\ still (front w l n) = still w.
Proof.
  intros Ha Hl Hn Hr Hb. pose proof Ha as [E1 E2 E3 E4 E5 E6 E7 E8 E9 E10]. split.
  - rewrite (stream_buf w), <- Hl. unfold stream, front; proj. change (Z.to_nat 0) with 0%nat. by rewrite drop_0.
  - split; [|same]. constructor; unfold front; proj; try done; lia.
Qed.

(** The moved buffer. *)
Lemma moved_front w b l : alive w -> b = buf w -> splice w.(w_conn).(cn_rbuf) 0 b = Some l ->
  take (Z.to_nat w.(w_conn).(cn_rbytes)) l = buf w /\ length l = length w.(w_conn).(cn_rbuf).
Proof.
  intros Ha -> (_ & _ & Hl & E)%splice_bounds. split; [|done]. rewrite E. change (Z.to_nat 0) with 0%nat. rewrite take_0. cbn [app].
  pose proof (buf_length w Ha) as Hb. rewrite take_app_le, take_ge by lia. done.
Qed.

Lemma shrink_lists_run w c : alive w -> 
  runs ((if MSG_LIST_HIGHWAT <? c.(cn_msgsize) then
     ok ← grow (MSG_LIST_INITIAL * sizeof_msghdr);
     when ok (updc (set_cn_msgsize MSG_LIST_INITIAL))
   else mret tt);;
  (if IOV_LIST_HIGHWAT <? c.(cn_iovsize) then
     ok ← grow (IOV_LIST_INITIAL * sizeof_iovec);
     when ok (updc (set_cn_iovsize IOV_LIST_INITIAL))
   else mret tt)) w (fun _ w' => stream w' = stream w /\ w'.(w_in) = w.(w_in) /\ alive w' /\ still w' = still w /\
     w'.(w_conn).(cn_rbytes) = w.(w_conn).(cn_rbytes) /\ w'.(w_conn).(cn_rsize) = w.(w_conn).(cn_rsize)).
Proof.
  intros Ha. pose proof Ha as [E1 E2 E3 E4 E5 [E6 E6'] E7 E8 E9 E10]. apply runs_bind.
  eapply (runs_mono _ _ (fun _ w' => stream w' = stream w /\ w'.(w_in) = w.(w_in) /\ alive w' /\ still w' = still w /\
     w'.(w_conn).(cn_rbytes) = w.(w_conn).(cn_rbytes) /\ w'.(w_conn).(cn_rsize) = w.(w_conn).(cn_rsize))).
  { destruct (_ <? _); [|by run]. unfold grow. run. rewrite grow_small by (vm_compute; discriminate). cbn [when]. run.
    split; [same|]. split; [same|]. split; [|split; [same|split; same]]. by constructor. }
  intros [] w1 (S1 & S2 & Ha1 & S3 & S4 & S5). pose proof Ha1 as [F1 F2 F3 F4 F5 [F6 F6'] F7 F8 F9 F10].
  destruct (_ <? _); [|by run]. unfold grow. run. rewrite grow_small by (vm_compute; discriminate). cbn [when]. run.
  split; [by rewrite <- S1|]. split; [done|]. split; [|split; [rewrite <- S3; same|by split]].
  by constructor.
Qed.

Lemma conn_shrink_run w : alive w ->
  runs conn_shrink w (fun _ w' => stream w' = stream w /\ w'.(w_in) = w.(w_in) /\ alive w' /\ still w' = still w /\
    w'.(w_conn).(cn_rbytes) = w.(w_conn).(cn_rbytes) /\
    (w.(w_conn).(cn_rbytes) < DATA_BUFFER_SIZE -> w'.(w_conn).(cn_rsize) <= READ_BUFFER_HIGHWAT)).
Proof.
  intros Ha. pose proof Ha as [E1 E2 E3 _ _ _ _ _ _ _]. unfold conn_shrink. run. unfold id.
  eapply (runs_mono _ _ (fun _ w' => stream w' = stream w /\ w'.(w_in) = w.(w_in) /\ alive w' /\ still w' = still w /\
     w'.(w_conn).(cn_rbytes) = w.(w_conn).(cn_rbytes) /\
     (w.(w_conn).(cn_rbytes) < DATA_BUFFER_SIZE -> w'.(w_conn).(cn_rsize) <= READ_BUFFER_HIGHWAT))).
  2:{ intros [] w1 (S1 & S2 & Ha1 & S3 & S4 & S5). eapply runs_mono; [by apply shrink_lists_run|].
      intros [] w2 (T1 & T2 & Ha2 & T3 & T4 & T5). split; [congruence|]. split; [congruence|]. split; [done|]. split; [congruence|].
      split; [congruence|]. by rewrite T5. }
  destruct (Z.ltb_spec READ_BUFFER_HIGHWAT w.(w_conn).(cn_rsize)) as [Hs|]; [|cbn [andb]; by run]. cbn [andb].
  destruct (Z.ltb_spec w.(w_conn).(cn_rbytes) DATA_BUFFER_SIZE) as [Hb|Hb]; [|run; do 5 (split; [done|]); lia]. unfold READ_BUFFER_HIGHWAT, DATA_BUFFER_SIZE in *.
  assert (Hfr : forall l, take (Z.to_nat w.(w_conn).(cn_rbytes)) l = buf w -> length l = length w.(w_conn).(cn_rbuf) ->
    let w' := set_w_calls (Datatypes.S w.(w_calls)) (front w (take 2048 l) 2048) in
    stream w' = stream w /\ w'.(w_in) = w.(w_in) /\ alive w' /\ still w' = still w /\ w'.(w_conn).(cn_rbytes) = w.(w_conn).(cn_rbytes) /\
    (w.(w_conn).(cn_rbytes) < 2048 -> w'.(w_conn).(cn_rsize) <= 8192)).
  { intros l Hl Hll. destruct (front_stream w (take 2048 l) 2048 Ha) as (F1 & F2 & F3).
    - rewrite take_take, Nat.min_l by lia. done.
    - rewrite length_take. lia.
    - unfold DATA_BUFFER_SIZE. lia.
    - lia.
    - cbv zeta. split; [exact F1|]. split; [done|]. split; [by eapply alive_same; [|exact F2]; same|]. by repeat split. }
  unfold grow. destruct (Z.eqb_spec w.(w_conn).(cn_rcurr) 0) as [E|E]; cbn [negb when].
  - run. rewrite grow_small by lia. cbn [when]. run.
    specialize (Hfr w.(w_conn).(cn_rbuf)). cbv zeta in Hfr.
    replace (set_w_conn _ _) with (set_w_calls (Datatypes.S w.(w_calls)) (front w (take 2048 w.(w_conn).(cn_rbuf)) 2048))
      by (by unfold front).
    apply Hfr; [|done]. unfold buf. rewrite E. by rewrite drop_0.
  - pose proof (buf_length w Ha) as Hbl. run; [apply buf_slice; [done|lia]|apply splice_Some; rewrite ?length_take; lia|].
    rewrite (take_ge (buf w)) by lia. rewrite grow_small by lia. cbn [when]. run.
    set (l := take (Z.to_nat 0) _ ++ _).
    assert (Hsp : splice w.(w_conn).(cn_rbuf) 0 (buf w) = Some l).
    { apply splice_Some; [lia|]. pose proof (buf_length w Ha). lia. }
    destruct (moved_front w _ l Ha eq_refl Hsp) as [Hl Hll]. exact (Hfr l Hl Hll).
Qed.

(** Between two requests. *)
Lemma good_idle w w' o :
  alive w' -> bytes_ok (stream w') -> settled adm usr ctr w' ->
  ((w'.(w_conn).(cn_state) = F_waiting \/ w'.(w_conn).(cn_state) = F_read) /\ w'.(w_conn).(cn_rbytes) < 24
     \/ w'.(w_conn).(cn_state) = F_parse_cmd /\ 0 < w'.(w_conn).(cn_rbytes)) ->
  (w'.(w_conn).(cn_rbytes) < DATA_BUFFER_SIZE -> w'.(w_conn).(cn_rsize) <= READ_BUFFER_HIGHWAT) ->
  w'.(w_conn).(cn_item) = NULL -> w'.(w_conn).(cn_sbytes) = 0 -> goes_on w' 0 ->
  stream w' = stream w -> SV (stream w) (server_of w') = Some (o, FIN) -> w'.(w_out) = w.(w_out) -> w.(w_out) ++ o = OUT ->
  good w'.
Proof.
  intros Ha Hb Hs Hst Hsm Hi Hsb Hgo Hstr Hrem Hout Ho. constructor; try done.
  eexists _, o. split; [by apply ph_idle|]. by rewrite Hstr, Hout.
Qed.

Lemma reset_cmd_run w o :
  good w -> w.(w_conn).(cn_state) = F_new_cmd -> goes_on w 0 ->
  (release_kept w.(w_conn).(cn_item);; SV (stream w)) (server_of w) = Some (o, FIN) -> w.(w_out) ++ o = OUT ->
  runs reset_cmd_handler w (fun _ w' => good w' /\ w'.(w_out) = w.(w_out) /\ stream w' = stream w /\ (class w' < 2)%nat).
Proof.
  intros Hg Hst Hgo Hrem Ho. pose proof (go_alive _ _ _ _ _ _ Hg) as Ha. unfold reset_cmd_handler. run.
  set (w1 := set_w_conn _ w). apply run_bind_Some in Hrem as ([] & s1 & Hk & Hrem).
  eapply (runs_mono _ _ (fun _ w' => alive w' /\ still w' = still (set_w_conn (set_cn_sbytes 0 (set_cn_item NULL w.(w_conn)))
    (set_w_engine s1.(sv_engine) w)) /\ stream w' = stream w /\ w'.(w_in) = w.(w_in) /\ server_of w' = s1)).
  { change (cn_item (w_conn w1)) with (cn_item (w_conn w)). unfold release_kept in Hk.
    destruct (Z.eqb_spec w.(w_conn).(cn_item) NULL) as [E|E]; cbn [negb when].
    - injection Hk as <-. run. split; [eapply alive_same; [|exact Ha]; same|]. split; [|by split].
      unfold still, w1; proj. by rewrite E.
    - apply call_Some in Hk as (e & He & ->). run. eapply runs_eng; [exact He|]. run.
      split; [eapply alive_same; [|exact Ha]; same|]. split; [same|by split]. }
  intros [] w2 (Ha2 & S2 & T2 & I2 & V2). run. eapply runs_mono; [by apply conn_shrink_run|].
  intros [] w3 (T3 & I3 & Ha3 & S3 & B3 & M3). run. set (w4 := set_w_conn _ w3).
  pose proof (still_all _ _ S3) as (_ & V3 & _). rewrite S2 in S3.
  apply still_all in S3 as (O3 & _ & P3 & G3 & N3 & Sb3 & _). change (w_out (set_w_conn _ _)) with (w_out w) in O3.
  pose proof Ha3 as [_ _ Hpos _ _ _ _ _ _ _].
  assert (Hs4 : stream w4 = stream w) by (by rewrite <- T2, <- T3).
  split; [|split; [exact O3|split; [exact Hs4|unfold class, w4; proj; destruct (0 <? _); lia]]].
  eapply (good_idle w w4 o); try done.
  - eapply alive_same; [|exact Ha3]. same.
  - rewrite Hs4. apply Hg.
  - apply P3, Hg.
  - unfold w4; proj. destruct (Z.ltb_spec 0 w3.(w_conn).(cn_rbytes)); [by right|left; split; [by left|lia]].
  - unfold w4; proj. rewrite B3. exact M3.
  - apply G3. destruct Hgo as [(G1 & G2 & _)|[G1 _]]; [left|right]; by repeat split.
  - change (server_of w4) with (server_of w3). by rewrite V3, V2.
Qed.

(** One request less may be served in this event. *)
Lemma good_nevents nv w : good w -> good (set_w_conn (set_cn_nevents nv w.(w_conn)) w).
Proof.
  intros Hg. replace (set_w_conn _ w) with (touched w.(w_calls) w.(w_conn).(cn_ev_flags) nv w) by (by destruct w as [[]]).
  by apply good_touched.
Qed.

Lemma conn_new_cmd_ticked w o :
  good w -> w.(w_conn).(cn_state) = F_new_cmd -> goes_on w 0 ->
  (release_kept w.(w_conn).(cn_item);; SV (stream w)) (server_of w) = Some (o, FIN) -> w.(w_out) ++ o = OUT ->
  runs conn_new_cmd w (ticked w).
Proof.
  intros Hg Hst Hgo Hrem Ho. unfold conn_new_cmd. run. unfold id. set (w1 := set_w_conn _ w).
  assert (Hg1 : good w1) by (by apply good_nevents).
  change (cn_nevents (w_conn w1)) with (w.(w_conn).(cn_nevents) - 1).
  destruct (Z.leb_spec 0 (w.(w_conn).(cn_nevents) - 1)) as [Hn|Hn].
  - run. eapply runs_mono; [by eapply (reset_cmd_run w1 o)|]. intros [] w' (Hg' & Ho' & Hs' & Hc'). run.
    split; [by rewrite Ho'|]. left. split; [done|]. apply ad_class; [by rewrite Hs'|]. unfold class at 2. by rewrite Hst.
  - destruct (0 <? cn_rbytes (w_conn w1)).
    + eapply (wait_for_ticked adm usr ctr OUT FIN w w1); [done|done|]. intros m f. apply ad_yield; try done. lia.
    + run. split; [done|]. left. split; [done|]. apply ad_yield; try done. lia.
Qed.

Lemma conn_waiting_ticked w o :
  good w -> w.(w_conn).(cn_state) = F_waiting -> w.(w_conn).(cn_rbytes) < 24 ->
  (w.(w_conn).(cn_rbytes) < DATA_BUFFER_SIZE -> w.(w_conn).(cn_rsize) <= READ_BUFFER_HIGHWAT) -> w.(w_conn).(cn_item) = NULL -> w.(w_conn).(cn_sbytes) = 0 -> goes_on w 0 ->
  SV (stream w) (server_of w) = Some (o, FIN) -> w.(w_out) ++ o = OUT ->
  runs conn_waiting w (ticked w).
Proof.
  intros Hg Hst Hr Hsm Hi Hsb Hgo Hrem Ho. unfold conn_waiting. run. eapply runs_mono; [apply update_event_touched, Hg|].
  intros ok w' (n & f & -> & Hp). destruct ok; cbn [negb]; run; (split; [done|]).
  - left. split; [|by apply ad_wait]. eapply (good_idle w _ o); try done; try apply Hg.
    + eapply alive_same; [|apply Hg]. unfold touched; same.
    + left. split; [by right|done].
  - right. apply closed_out; [done|exact (good_prefix adm usr ctr OUT FIN w Hg)| |intros Hq; by specialize (Hp Hq)].
    exact (good_closable adm usr ctr OUT FIN w Hg).
Qed.

(** ** Reading from the network *)

(** The bytes [b] are received behind those in the buffer. *)
Definition rcvd (b rest l : list Z) w : world S :=
  set_w_conn (set_cn_rbytes (w.(w_conn).(cn_rbytes) + Z.of_nat (length b)) (set_cn_rbuf l w.(w_conn)))
    (set_w_in rest (set_w_calls (Datatypes.S w.(w_calls)) w)).

Lemma rcvd_stream b rest l w : alive w -> w.(w_conn).(cn_rcurr) = 0 -> w.(w_in) = b ++ rest ->
  splice w.(w_conn).(cn_rbuf) w.(w_conn).(cn_rbytes) b = Some l ->
  stream (rcvd b rest l w) = stream w /\ alive (rcvd b rest l w) /\ still (rcvd b rest l w) = still w.
Proof.
  intros Ha Hc Hin Hl. pose proof Ha as [E1 E2 E3 E4 E5 E6 E7 E8 E9 E10].
  pose proof Hl as (L1 & L2 & L3 & L4)%splice_bounds. split.
  - unfold stream, rcvd; proj. rewrite Hc, Hin. change (Z.to_nat 0) with 0%nat. rewrite !drop_0, app_assoc. f_equal.
    rewrite L4. rewrite take_app_ge by (rewrite length_take; lia). f_equal. rewrite length_take, Nat.min_l by lia.
    rewrite take_app_le, take_ge by lia. done.
  - split; [|same]. constructor; unfold rcvd; proj; try done; lia.
Qed.

(** What [read_loop] has done so far, from [w0] to [w]. *)
Record read_so_far w0 (got : try_read_result) w : Prop := {
  rs_alive : alive w;
  rs_curr : w.(w_conn).(cn_rcurr) = 0;
  rs_stream : stream w = stream w0;
  rs_still : still w = still w0;
  rs_small : w.(w_conn).(cn_rbytes) < DATA_BUFFER_SIZE -> w.(w_conn).(cn_rsize) <= READ_BUFFER_HIGHWAT;
  rs_got : (got = READ_DATA_RECEIVED /\ (length w.(w_in) < length w0.(w_in))%nat /\ 0 < w.(w_conn).(cn_rbytes)) \/
           (got = READ_NO_DATA_RECEIVED /\ w.(w_in) = w0.(w_in) /\ w.(w_conn).(cn_rbytes) = w0.(w_conn).(cn_rbytes))
}.

(** The result of [try_read_network]. *)
Definition read_result w0 (r : try_read_result) w : Prop :=
  match r with
  | READ_DATA_RECEIVED => read_so_far w0 r w
  | READ_NO_DATA_RECEIVED => read_so_far w0 r w /\ (prompt -> w0.(w_in) = [])
  | READ_ERROR => alive w /\ still w = still w0 /\ ~ prompt
  | READ_MEMORY_ERROR => False
  end.

(** The buffer is doubled when it is full. *)
Lemma double_run w0 got w : read_so_far w0 got w -> w.(w_conn).(cn_rbytes) < w.(w_conn).(cn_rsize) \/ w.(w_conn).(cn_rsize) <= 2 ^ 16 ->
  runs (if w.(w_conn).(cn_rsize) <=? w.(w_conn).(cn_rbytes) then
          let nsize := u32 (w.(w_conn).(cn_rsize) * 2) in
          ok ← grow nsize;
          when ok (updc (fun c => set_cn_rsize nsize (set_cn_rcurr 0
            (set_cn_rbuf (take (Z.to_nat nsize) (grow_rbuf nsize c)) c))));;
          mret ok
        else mret true) w (fun ok w' => ok = true /\ read_so_far w0 got w' /\ w'.(w_conn).(cn_rbytes) < w'.(w_conn).(cn_rsize) /\
    w'.(w_conn).(cn_rsize) = if w.(w_conn).(cn_rsize) <=? w.(w_conn).(cn_rbytes) then w.(w_conn).(cn_rsize) * 2 else w.(w_conn).(cn_rsize)).
Proof.
  intros [Ha Hc Hs Hst Hsm Hg] Hlim. pose proof Ha as [E1 E2 E3 _ _ _ _ _ _ _].
  destruct (Z.leb_spec w.(w_conn).(cn_rsize) w.(w_conn).(cn_rbytes)) as [Hf|Hf]; [|run; split; [done|]; split; [by constructor|done]].
  destruct Hlim as [|Hlim]; [lia|]. rewrite u32_small by lia. cbv zeta. unfold grow. run. unfold DATA_BUFFER_SIZE in *.
  rewrite grow_small by lia. cbn [when]. run. set (n := w.(w_conn).(cn_rsize) * 2) in *. set (l := take (Z.to_nat n) _).
  set (w1 := set_w_calls (Datatypes.S w.(w_calls)) w).
  assert (Hw1 : alive w1) by (eapply alive_same; [|exact Ha]; same).
  destruct (front_stream w1 l n) as (F1 & F2 & F3); [done| | |unfold DATA_BUFFER_SIZE; lia|unfold w1; proj; lia|].
  - unfold l, grow_rbuf, buf, w1; proj. rewrite Hc. change (Z.to_nat 0) with 0%nat. rewrite drop_0, take_take, Nat.min_l by lia.
    by rewrite take_app_le by lia.
  - unfold l, grow_rbuf, w1; proj. rewrite length_take, length_app, length_replicate. lia.
  - split; [done|]. split; [|by split; [unfold w1; proj; unfold n; lia|]].
    constructor; [exact F2|done|by rewrite <- Hs|by rewrite <- Hst| |exact Hg]. unfold w1; proj. unfold DATA_BUFFER_SIZE. lia.
Qed.

Lemma read_loop_run fuel num got w0 w :
  read_so_far w0 got w -> 0 <= num <= 4 -> (got = READ_NO_DATA_RECEIVED -> w.(w_conn).(cn_rbytes) < w.(w_conn).(cn_rsize) \/ num < 4) ->
  w.(w_conn).(cn_rsize) <= READ_BUFFER_HIGHWAT * 2 ^ num ->
  5 - num + (if w.(w_conn).(cn_rsize) <=? w.(w_conn).(cn_rbytes) then 0 else 1) <= Z.of_nat fuel ->
  runs (read_loop fuel num got) w (read_result w0).
Proof.
  revert num got w. induction fuel as [|fuel IH]; intros num got w Hrs Hn Hfirst Hsize Hf.
  { destruct (_ <=? _); lia. }
  cbn [read_loop]. run. unfold id. destruct ((_ <=? _) && (num =? 4)) eqn:Estop.
  { run. apply andb_true_iff in Estop as [E1%Z.leb_le E2%Z.eqb_eq]. pose proof Hrs as [? ? ? ? ? [(-> & ? & ?)|(-> & ? & ?)]].
    - done.
    - destruct (Hfirst eq_refl); lia. }
  assert (Hpow : READ_BUFFER_HIGHWAT * 2 ^ num <= 2 ^ 16 \/ num = 4).
  { destruct (Z.eq_dec num 4); [by right|left]. unfold READ_BUFFER_HIGHWAT.
    pose proof (Z.pow_le_mono_r 2 num 3 ltac:(lia) ltac:(lia)). lia. }
  apply runs_bind. eapply runs_mono; [eapply double_run; [exact Hrs|]|].
  { destruct (Z.leb_spec w.(w_conn).(cn_rsize) w.(w_conn).(cn_rbytes)); [right|left; lia].
    destruct Hpow as [| ->]; [lia|done]. }
  intros ok w1 (-> & Hrs1 & Hroom & Hsize1). cbn [negb]. run. unfold id. set (num' := if w.(w_conn).(cn_rsize) <=? w.(w_conn).(cn_rbytes) then num + 1 else num).
  assert (Hnum : 0 <= num' <= 4 /\ 5 - num' <= Z.of_nat fuel /\ w1.(w_conn).(cn_rsize) <= READ_BUFFER_HIGHWAT * 2 ^ num').
  { unfold num'. rewrite Hsize1. apply andb_false_iff in Estop. destruct (Z.leb_spec w.(w_conn).(cn_rsize) w.(w_conn).(cn_rbytes));
      [destruct Estop as [|E4%Z.eqb_neq]; [done|]; rewrite Z.pow_add_r by lia|]; lia. }
  clearbody num'. clear Hf Estop Hrs Hfirst Hsize Hpow Hsize1 w. rename w1 into w.
  pose proof Hrs1 as [Ha Hc Hs Hst Hsm Hg].
  set (avail := w.(w_conn).(cn_rsize) - w.(w_conn).(cn_rbytes)). pose proof Ha as [E1 E2 E3 _ _ _ _ _ _ _].
  eapply runs_mono; [apply recv_run; lia|]. intros r w1 Hr. pose proof (still_all _ _ Hst) as (Ho & _).
  destruct r as [b| | |].
  - destruct Hr as (Hne & Hlen & rest & Hin & ->).
    destruct (splice w.(w_conn).(cn_rbuf) w.(w_conn).(cn_rbytes) b) as [l|] eqn:Hl; [|rewrite splice_Some in Hl by lia; done].
    destruct (rcvd_stream b rest l w Ha Hc Hin Hl) as (R1 & R2 & R3).
    run; [done|]. rewrite u32_small by (proj; lia). change (set_w_conn _ _) with (rcvd b rest l w).
    assert (Hb : (0 < length b)%nat) by (destruct b; [done|simpl; lia]).
    assert (Hrs2 : read_so_far w0 READ_DATA_RECEIVED (rcvd b rest l w)).
    { constructor; [done|done|by rewrite R1|by rewrite R3|unfold rcvd; proj; intros; apply Hsm; lia|]. left. split; [done|]. unfold rcvd; proj.
      split; [|lia]. destruct Hg as [(_ & Hlt & _)|(_ & <- & _)]; [|]; rewrite Hin, length_app in *; lia. }
    destruct (Z.eqb_spec (Z.of_nat (length b)) avail) as [Ef|Ef]; [|run; exact Hrs2].
    apply IH; [exact Hrs2|lia|done|apply Hnum|]. unfold rcvd; proj. rewrite (proj2 (Z.leb_le _ _)) by lia. lia.
  - destruct Hr as [-> Hp]. run. split; [eapply alive_same; [|exact Ha]; same|]. by split.
  - destruct Hr as [-> Hp]. run.
    assert (Hrs2 : read_so_far w0 got (set_w_calls (Datatypes.S w.(w_calls)) w)).
    { constructor; [eapply alive_same; [|exact Ha]; same|done..]. }
    destruct Hg as [(-> & _)|(-> & Hin & _)]; [exact Hrs2|]. split; [exact Hrs2|]. intros Hq. rewrite <- Hin. by apply Hp.
  - destruct Hr as [-> Hp]. run. split; [eapply alive_same; [|exact Ha]; same|]. by split.
Qed.

Lemma try_read_run w : alive w -> w.(w_conn).(cn_rbytes) < w.(w_conn).(cn_rsize) -> w.(w_conn).(cn_rsize) <= READ_BUFFER_HIGHWAT ->
  runs try_read_network w (read_result w).
Proof.
  intros Ha Hlt Hsm. pose proof Ha as [E1 E2 E3 _ _ _ _ _ _ _]. unfold try_read_network. run. unfold id.
  eapply (runs_mono _ _ (fun _ w1 => read_so_far w READ_NO_DATA_RECEIVED w1 /\ w1.(w_conn).(cn_rbytes) < w1.(w_conn).(cn_rsize) /\
    w1.(w_conn).(cn_rsize) <= READ_BUFFER_HIGHWAT)).
  2:{ intros [] w1 (Hrs & Hr & Hs1). apply read_loop_run; [exact Hrs|lia|by left|lia|].
      rewrite (proj2 (Z.leb_gt _ _)) by lia. lia. }
  assert (Hfront : forall l, take (Z.to_nat w.(w_conn).(cn_rbytes)) l = buf w -> length l = length w.(w_conn).(cn_rbuf) ->
    read_so_far w READ_NO_DATA_RECEIVED (front w l w.(w_conn).(cn_rsize))).
  { intros l Hl Hll. destruct (front_stream w l w.(w_conn).(cn_rsize) Ha Hl) as (F1 & F2 & F3); [lia|done|lia|].
    constructor; [done..|]. by right. }
  assert (Hid : w.(w_conn).(cn_rcurr) = 0 \/ w.(w_conn).(cn_rbytes) = 0 ->
    read_so_far w READ_NO_DATA_RECEIVED (front w w.(w_conn).(cn_rbuf) w.(w_conn).(cn_rsize))).
  { intros H0. apply Hfront; [|done]. unfold buf. destruct H0 as [-> | ->]; [by rewrite drop_0|done]. }
  assert (Heq : set_w_conn (set_cn_rcurr 0 w.(w_conn)) w = front w w.(w_conn).(cn_rbuf) w.(w_conn).(cn_rsize)) by (by destruct w as [[]]).
  destruct (Z.eqb_spec w.(w_conn).(cn_rcurr) 0) as [Hz|Hz]; cbn [negb].
  { run. split; [|done]. specialize (Hid (or_introl Hz)). rewrite <- Heq in Hid.
    replace (set_w_conn (set_cn_rcurr 0 w.(w_conn)) w) with w in Hid; [done|]. destruct w as [[]]. cbn in Hz. by subst. }
  destruct (Z.eqb_spec w.(w_conn).(cn_rbytes) 0) as [Hb|Hb]; cbn [negb].
  { run. rewrite Heq. split; [auto|done]. }
  unfold repack. pose proof (buf_length w Ha) as Hbl.
  run; [apply buf_slice; [done|unfold id; lia]|unfold id; rewrite (take_ge (buf w)) by lia; apply splice_Some; lia|]. unfold id.
  set (l := take (Z.to_nat 0) _ ++ _).
  assert (Hsp : splice w.(w_conn).(cn_rbuf) 0 (buf w) = Some l) by (apply splice_Some; lia).
  destruct (moved_front w _ l Ha eq_refl Hsp) as [Hl Hll].
  replace (set_w_conn (set_cn_rcurr 0 _) w) with (front w l w.(w_conn).(cn_rsize)) by (by destruct w as [[]]).
  split; [by apply Hfront|done].
Qed.

Lemma conn_read_ticked w o :
  good w -> w.(w_conn).(cn_state) = F_read -> w.(w_conn).(cn_rbytes) < 24 ->
  (w.(w_conn).(cn_rbytes) < DATA_BUFFER_SIZE -> w.(w_conn).(cn_rsize) <= READ_BUFFER_HIGHWAT) ->
  w.(w_conn).(cn_item) = NULL -> w.(w_conn).(cn_sbytes) = 0 -> goes_on w 0 ->
  SV (stream w) (server_of w) = Some (o, FIN) -> w.(w_out) ++ o = OUT ->
  runs conn_read w (ticked w).
Proof.
  intros Hg Hst Hr Hsm Hi Hsb Hgo Hrem Ho. pose proof (go_alive _ _ _ _ _ _ Hg) as Ha. pose proof Ha as [_ E2 E3 _ _ _ _ _ _ _].
  pose proof (good_prefix adm usr ctr OUT FIN w Hg) as Hpre.
  unfold conn_read. run. eapply runs_mono; [apply try_read_run; [done|unfold DATA_BUFFER_SIZE in *; lia|apply Hsm; unfold DATA_BUFFER_SIZE; lia]|].
  intros r w1 Hr1. assert (Hmove : forall st got, read_so_far w got w1 ->
    ((st = F_waiting \/ st = F_read) /\ w1.(w_conn).(cn_rbytes) < 24 \/ st = F_parse_cmd /\ 0 < w1.(w_conn).(cn_rbytes)) ->
    good (set_w_conn (set_cn_state st w1.(w_conn)) w1) /\ w1.(w_out) = w.(w_out) /\ stream w1 = stream w).
  { intros st got [Ha1 _ Hs1 Hst1 Hsm1 _] Hphase. apply still_all in Hst1 as (T1 & T2 & T3 & T4 & T5 & T6 & T7).
    split; [|by split]. eapply (good_idle w _ o); try done.
    - eapply alive_same; [|exact Ha1]. same.
    - change (bytes_ok (stream w1)). rewrite Hs1. apply Hg.
    - apply T3, Hg.
    - change (cn_item (w_conn w1) = NULL). congruence.
    - change (cn_sbytes (w_conn w1) = 0). congruence.
    - apply T4. done.
    - change (SV (stream w) (server_of w1) = Some (o, FIN)). by rewrite T2. }
  destruct r; cbn [read_result] in Hr1.
  - run. pose proof Hr1 as [_ _ _ _ _ [(_ & Hin & Hpos)|(? & _)]]; [|done].
    destruct (Hmove F_parse_cmd _ Hr1 (or_intror (conj eq_refl Hpos))) as (G & O & T).
    split; [change (w_out w `prefix_of` w_out w1); by rewrite O|]. left. split; [exact G|].
    apply ad_read; [change (length (stream w1) = length (stream w)); by rewrite T|done..].
  - destruct Hr1 as [Hr1 Hp]. run. pose proof Hr1 as [_ _ _ _ _ [(? & _)|(_ & Hin & Hb)]]; [done|].
    destruct (Hmove F_waiting _ Hr1) as (G & O & T); [left; split; [by left|lia]|].
    split; [change (w_out w `prefix_of` w_out w1); by rewrite O|]. left. split; [exact G|].
    apply ad_none; [change (length (stream w1) = length (stream w)); by rewrite T|done|done|done|].
    intros Hq%Hp. rewrite serve_unfold in Hrem. rewrite (proj2 (Nat.ltb_lt _ _)) in Hrem.
    + injection Hrem as <- <-. by rewrite app_nil_r in Ho.
    + rewrite stream_buf, Hq, app_nil_r. pose proof (buf_length w Ha). lia.
  - destruct Hr1 as (Ha1 & Hst1 & Hp). apply still_all in Hst1 as (O & _ & _ & _ & T5 & _). run.
    split; [change (w_out w `prefix_of` w_out w1); by rewrite O|]. right. apply closed_out; [done| | |done].
    + change (w_out w1 `prefix_of` OUT). by rewrite O.
    + apply alive_closable; [eapply alive_same; [|exact Ha1]; same|]. change (cn_item (w_conn w1) = NULL). congruence.
  - done.
Qed.
End tick.
