(* ===== verification/Dispatch.v ===== *)
(** * The header of a request

    [try_read_command] parses a header; the plan of the reference says what
    [dispatch_bin_command] does with it. *)
From Stdlib Require Import ZArith Lia.
From stdpp Require Import strings gmap prelude.
From S2P Require Import Prelude Util EngineState DefaultEngine JsonChecker Snappy Protocol Conn Daemon Serve Reply Handlers Updates Phases Steps Tick.

#[local] Set Warnings "-clear-no-such-hyp".

Section dispatch.
Context {S : Type} {EV : EngineV1 S} {SY : Sys} {ST : Settings} {SN : Snappy} {SOK : Provided} {EOK : EngineV1Ok S}.
Context (adm usr : bool) (ctr : Z) (OUT : list Z) (FIN : server S).

Abbreviation D := (M (world S)).
Abbreviation SV := (serve (S := S) adm usr ctr).
Abbreviation good := (good adm usr ctr OUT FIN).
Abbreviation phase := (phase adm usr ctr).
Abbreviation ticked := (ticked adm usr ctr OUT FIN).
Implicit Types w : world S.

(** ** Room for the rest of a request *)

Lemma double_until_spec fuel size n : 0 < n <= 2 ^ 34 -> 0 < size < 2 ^ 33 -> size <= n * 2 ^ Z.of_nat fuel ->
  exists m, double_until fuel size n = Some m /\ size <= m /\ n <= m <= 2 ^ 34 /\ (m = n \/ m < 2 * size).
Proof.
  revert n. induction fuel as [|fuel IH]; intros n Hn Hs Hf; cbn [double_until];
    destruct (Z.leb_spec size n) as [Hle|Hgt]; try (exists n; split; [done|]; lia).
  - simpl in Hf. lia.
  - rewrite u64_small by lia. destruct (IH (n * 2)) as (m & Hm & H1 & H2 & H3); [lia|lia| |].
    + rewrite Nat2Z.inj_succ, Z.pow_succ_r in Hf by lia. lia.
    + exists m. split; [done|]. lia.
Qed.

(** The fields of the connection that belong to the request. *)
Definition request w :=
  (setup w, w.(w_conn).(cn_cmd), w.(w_conn).(cn_noreply), w.(w_conn).(cn_cas), w.(w_conn).(cn_item),
   w.(w_out), w.(w_in), server_of w, w.(w_conn).(cn_rbytes),
   (w.(w_conn).(cn_admin), w.(w_conn).(cn_sasl_user), w.(w_conn).(cn_max_reqs_per_event), w.(w_session_ctr))).

(** What [bin_read_chunk] leaves when it has room for [n] bytes. *)
Record roomed w (ss : bin_substates) (n : Z) w' : Prop := {
  rm_alive : alive w';
  rm_stream : stream w' = stream w;
  rm_request : request w' = request w;
  rm_state : w'.(w_conn).(cn_state) = F_nread;
  rm_substate : w'.(w_conn).(cn_substate) = ss;
  rm_rlbytes : w'.(w_conn).(cn_rlbytes) = n;
  rm_ritem : w'.(w_conn).(cn_ritem) = A_rbuf (w'.(w_conn).(cn_rcurr) + 24);
  rm_room : w'.(w_conn).(cn_rcurr) + 24 + n <= w'.(w_conn).(cn_rsize)
}.

(** A larger buffer. *)
Lemma grown_alive w n : alive w -> w.(w_conn).(cn_rsize) <= n <= 2 ^ 30 ->
  let w' := set_w_conn (set_cn_rsize n (set_cn_rbuf (grow_rbuf n w.(w_conn)) w.(w_conn))) w in
  alive w' /\ stream w' = stream w /\ buf w' = buf w.
Proof.
  intros Ha Hn. pose proof Ha as [E1 E2 E3 E4 E5 E6 E7 E8 E9 E10]. cbv zeta.
  assert (Hb : buf (set_w_conn (set_cn_rsize n (set_cn_rbuf (grow_rbuf n w.(w_conn)) w.(w_conn))) w) = buf w).
  { unfold buf, grow_rbuf; proj. rewrite drop_app_le by lia. rewrite take_app_le by (rewrite length_drop; lia). done. }
  split; [|split; [by rewrite !stream_buf, Hb|done]].
  constructor; unfold grow_rbuf; proj; try done; try lia. rewrite length_app, length_replicate. lia.
Qed.

Lemma repack_run w (Q : unit -> world S -> Prop) : alive w ->
  (forall l, take (Z.to_nat w.(w_conn).(cn_rbytes)) l = buf w -> length l = length w.(w_conn).(cn_rbuf) ->
     Q tt (front w l w.(w_conn).(cn_rsize))) ->
  runs repack w Q.
Proof.
  intros Ha HQ. pose proof Ha as [E1 E2 E3 _ _ _ _ _ _ _]. pose proof (buf_length w Ha) as Hbl. unfold repack.
  run; [apply buf_slice; [done|unfold id; lia]|unfold id; rewrite (take_ge (buf w)) by lia; apply splice_Some; lia|]. unfold id.
  set (l := take (Z.to_nat 0) _ ++ _).
  assert (Hsp : splice w.(w_conn).(cn_rbuf) 0 (buf w) = Some l) by (apply splice_Some; lia).
  destruct (moved_front w _ l Ha eq_refl Hsp) as [Hl Hll].
  replace (set_w_conn (set_cn_rcurr 0 _) w) with (front w l w.(w_conn).(cn_rsize)) by (by destruct w as [[]]).
  by apply HQ.
Qed.

Lemma bin_read_chunk_run w ss n : alive w -> 0 <= n -> n + 24 <= packet_limit -> 24 <= w.(w_conn).(cn_rbytes) ->
  runs (bin_read_chunk ss n) w (fun _ w' => roomed w ss n w').
Proof.
  intros Ha Hn Hlim Hr. pose proof Ha as [E1 E2 E3 E4 E5 E6 E7 E8 E9 E10]. unfold bin_read_chunk. run. unfold id; proj.
  set (w1 := set_w_conn _ w). assert (Ha1 : alive w1) by (eapply alive_same; [|exact Ha]; same).
  unfold DATA_BUFFER_SIZE, packet_limit in *.
  destruct (Z.ltb_spec (w.(w_conn).(cn_rsize) - (w.(w_conn).(cn_rcurr) + 24)) n) as [Hmore|Hfit].
  2:{ run. cbn [negb]. run. constructor; try same; [|unfold w1; proj; lia]. eapply alive_same; [|exact Ha]. same. }
  destruct (double_until_spec 64 (n + 24) w.(w_conn).(cn_rsize)) as (m & Hm & M1 & M2 & M3); [lia|lia|simpl; lia|].
  run; [exact Hm|].
  eapply (runs_mono _ _ (fun ok w2 => ok = true /\
    alive w2 /\ stream w2 = stream w /\ request w2 = request w /\ w2.(w_conn).(cn_rsize) = m /\
    w2.(w_conn).(cn_rcurr) = w.(w_conn).(cn_rcurr) /\ w2.(w_conn).(cn_rlbytes) = n /\ w2.(w_conn).(cn_substate) = ss)).
  { destruct (Z.eqb_spec m w.(w_conn).(cn_rsize)) as [Em|Em].
    - run. split; [done|]. by repeat split; [apply Ha1..|].
    - unfold grow. run. rewrite grow_small by lia. cbn [when]. run. set (w2 := set_w_calls _ w1).
      assert (Ha2 : alive w2) by (eapply alive_same; [|exact Ha1]; same).
      destruct (grown_alive w2 m Ha2 ltac:(unfold w2, w1; proj; lia)) as (G1 & G2 & _).
      rewrite (swrap_small m), u32_small by lia. split; [done|]. split; [exact G1|]. split; [exact G2|done]. }
  intros ok w2 (-> & Ha2 & T2 & R2 & S2 & C2 & L2 & B2). cbn [andb negb]. run.
  eapply (runs_mono _ _ (fun _ w3 => alive w3 /\ stream w3 = stream w /\ request w3 = request w /\ w3.(w_conn).(cn_rsize) = m /\
    w3.(w_conn).(cn_rcurr) = 0 /\ w3.(w_conn).(cn_rlbytes) = n /\ w3.(w_conn).(cn_substate) = ss)).
  { destruct (Z.eqb_spec w.(w_conn).(cn_rcurr) 0) as [Ec|Ec]; cbn [negb when].
    - run. by rewrite C2.
    - apply repack_run; [done|]. intros l Hl Hll. pose proof Ha2 as [F1 F2 F3 _ _ _ _ _ _ _].
      destruct (front_stream w2 l w2.(w_conn).(cn_rsize) Ha2 Hl) as (G1 & G2 & G3); [lia|done|lia|].
      split; [done|]. split; [by rewrite G1|]. split; [rewrite <- R2; unfold front; same|]. by repeat split. }
  intros [] w3 (Ha3 & T3 & R3 & S3 & C3 & L3 & B3). run. cbn [negb]. run. constructor; try done.
  - eapply alive_same; [|exact Ha3]. same.
  - proj. lia.
Qed.

(** ** The tables of commands *)

Lemma executors_spec op : executors (S := S) op <> None <-> has_executor op = true.
Proof.
  unfold executors, has_executor, in_list. cbn [existsb app other_commands].
  repeat match goal with
  | |- context [op =? ?x] => destruct (Z.eqb_spec op x) as [->|]; [by split|]; cbn [orb]
  end.
  by split.
Qed.

(** ** The header is taken *)

Definition pass24 w : world S :=
  set_w_conn (set_cn_rcurr (w.(w_conn).(cn_rcurr) + 24) (set_cn_rbytes (u32 (w.(w_conn).(cn_rbytes) - 24)) w.(w_conn))) w.

Lemma pass24_stream w : alive w -> 24 <= w.(w_conn).(cn_rbytes) ->
  stream w = take 24 (stream w) ++ stream (pass24 w) /\ alive (pass24 w) /\ take 24 (stream w) = take 24 (buf w).
Proof.
  intros Ha Hr. pose proof Ha as [E1 E2 E3 E4 E5 E6 E7 E8 E9 E10]. pose proof (buf_length w Ha) as Hbl.
  assert (Ht : take 24 (stream w) = take 24 (buf w)) by (rewrite stream_buf, take_app_le by lia; done).
  split; [|split; [|done]].
  - rewrite Ht. apply (taken_stream 24 w (pass24 w)); try done; try lia. unfold pass24; proj. by rewrite u32_small by lia.
  - constructor; unfold pass24; proj; rewrite ?u32_small by lia; try done; lia.
Qed.

Lemma answered_pass w a w' : 24 <= w.(w_conn).(cn_rbytes) -> answered w a w' -> answered (pass24 w) a (pass24 w').
Proof.
  intros Hr [Ha Ho Hi Hh]. assert (Hb : w'.(w_conn).(cn_rbytes) = w.(w_conn).(cn_rbytes)) by (unfold outside in Ho; congruence).
  constructor; [apply pass24_stream; [done|lia]| |done|].
  - unfold outside, pass24 in *; proj. congruence.
  - destruct Hh as [[[Hc Hrep] Hn]|Hh]; [left|by right]. split; [|by destruct (an_next a)]. split; [done|].
    destruct Hrep as [[? Hd]|(? & Hd & ? & Hm)]; [left|right].
    + split; [done|]. eapply holds_same; [|exact Hd]. unfold pass24; same.
    + split; [done|]. split; [eapply holds_same; [|exact Hd]; unfold pass24; same|]. by split.
Qed.

(** What the dispatch of the header leaves, once the header is taken. *)
Definition dispatched w w' : Prop :=
  w'.(w_out) = w.(w_out) /\
  (good w' /\ stream w = take 24 (stream w) ++ stream w' \/
   closed OUT FIN w').

Section header.
Context (w : world S) (h : request_header) (hdr : list Z).
Context (Hp : parsed hdr h) (Hr : 24 <= w.(w_conn).(cn_rbytes)) (Hhdr : hdr = take 24 (stream w)).
Context (Hb : bytes_ok (stream w)) (Hset : settled adm usr ctr w).

(** The request may have another command and be quiet. *)
Definition at_header (cmd : Z) (quiet : bool) w1 : Prop :=
  ready w1 h cmd quiet 0 NULL /\ outside w1 = outside w /\ server_of w1 = server_of w.

Lemma at_header_stream cmd quiet w1 : at_header cmd quiet w1 ->
  stream w1 = stream w /\ w1.(w_out) = w.(w_out) /\ settled adm usr ctr w1 /\ 24 <= w1.(w_conn).(cn_rbytes).
Proof.
  intros (Hw & Ho & _). destruct (outside_all adm usr ctr w w1 Ho) as (K1 & K2 & K3).
  split; [done|]. split; [done|]. split; [auto|]. unfold outside in Ho. congruence.
Qed.

(** An answer to the header. *)
Lemma answer_dispatched cmd quiet w1 a w' o :
  at_header cmd quiet w1 -> answered w1 a w' -> deliver a SV (drop 24 (stream w)) (server_of w') = Some (o, FIN) ->
  w.(w_out) ++ o = OUT -> dispatched w (pass24 w').
Proof.
  intros Hat Hans Hd Ho. destruct (at_header_stream _ _ _ Hat) as (K1 & K2 & K3 & K4). destruct Hat as (Hw & Hout & _).
  destruct (pass24_stream w1 (rd_alive _ _ _ _ _ _ Hw) K4) as (P1 & P2 & P3).
  pose proof (answered_pass w1 a w' K4 Hans) as Hans'.
  destruct (outside_all adm usr ctr _ _ (as_outside _ _ _ Hans')) as (O1 & O2 & _).
  assert (Hs : stream (pass24 w1) = drop 24 (stream w)).
  { rewrite <- K1. rewrite P1 at 1. rewrite drop_app_length'; [done|]. rewrite P3, length_take.
    pose proof (buf_length w1 (rd_alive _ _ _ _ _ _ Hw)). lia. }
  split; [by rewrite O2|].
  destruct (answered_good adm usr ctr OUT FIN (pass24 w1) a (pass24 w') o) as [[Hg _]|Hc].
  - rewrite Hs. by apply Forall_drop.
  - done.
  - done.
  - by rewrite Hs.
  - change (w_out (pass24 w1)) with (w_out w1). by rewrite K2.
  - left. split; [done|]. by rewrite O1, Hs, take_drop.
  - by right.
Qed.

(** The bytes that belong to the header are going to be read. *)
Lemma chunk_dispatched cmd quiet w1 ss n w' o :
  at_header cmd quiet w1 -> roomed w1 ss n w' -> 0 <= n -> chunk_ok h cmd quiet ss n ->
  chunk n (fun b rest => after_chunk adm usr ctr h hdr cmd quiet ss b rest) (drop 24 (stream w)) (server_of w) = Some (o, FIN) ->
  w.(w_out) ++ o = OUT -> dispatched w (pass24 w').
Proof.
  intros Hat [R1 R2 R3 R4 R5 R6 R7 R8] Hn Hck Hrem Ho. destruct (at_header_stream _ _ _ Hat) as (K1 & K2 & K3 & K4).
  destruct Hat as (Hw & Hout & Hsv).
  assert (Hrb : w'.(w_conn).(cn_rbytes) = w1.(w_conn).(cn_rbytes)) by (unfold request in R3; congruence).
  destruct (pass24_stream w' R1 ltac:(lia)) as (P1 & P2 & P3). rewrite R2, K1 in P1, P3.
  assert (Hlen : length (take 24 (stream w)) = 24%nat) by (rewrite <- Hhdr; apply Hp).
  assert (Hs : stream (pass24 w') = drop 24 (stream w)) by (rewrite P1 at 1; by rewrite drop_app_length').
  split; [unfold request in R3; unfold pass24; proj; congruence|]. left. split; [|exact P1].
  constructor; [exact P2|rewrite Hs; by apply Forall_drop| |].
  { unfold settled, request, pass24 in *; proj. destruct K3 as (? & ? & ? & ?). repeat split; congruence. }
  eexists _, o. split; [eapply (ph_chunk adm usr ctr (pass24 w') h hdr [] cmd quiet ss n)|split].
  - constructor; try done.
    + eapply ready_same; [exact Hw|exact P2|..]; destruct Hw; unfold request, pass24 in *; unfold setup in *; proj; congruence.
    + unfold at_packet, pass24; proj. rewrite app_nil_r, (ps_length _ _ Hp). rewrite Z.add_simpl_r.
      rewrite buf_slice by (done || lia). rewrite Hhdr. change (Z.to_nat (Z.of_nat 24)) with 24%nat. by rewrite P3.
  - rewrite Hs. replace (server_of (pass24 w')) with (server_of w); [exact Hrem|].
    rewrite <- Hsv. change (server_of (pass24 w')) with (server_of w'). unfold request in R3. congruence.
  - unfold request in R3. unfold pass24; proj. congruence.
Qed.

Lemma read_chunk_dispatched cmd quiet w1 ss n o :
  at_header cmd quiet w1 -> 0 <= n -> n + 24 <= packet_limit -> chunk_ok h cmd quiet ss n ->
  chunk n (fun b rest => after_chunk adm usr ctr h hdr cmd quiet ss b rest) (drop 24 (stream w)) (server_of w) = Some (o, FIN) ->
  w.(w_out) ++ o = OUT -> runs (bin_read_chunk ss n) w1 (fun _ w' => dispatched w (pass24 w')).
Proof.
  intros Hat Hn Hlim Hck Hrem Ho. destruct (at_header_stream _ _ _ Hat) as (K1 & K2 & K3 & K4).
  eapply runs_mono; [apply bin_read_chunk_run; [apply Hat|done|done|done]|]. intros [] w' Hroom.
  eapply chunk_dispatched; [exact Hat|exact Hroom|lia|exact Hck|exact Hrem|exact Ho].
Qed.

(** The header is refused with a status. *)
Lemma reject_dispatched cmd quiet w1 err :
  at_header cmd quiet w1 -> err <> PROTOCOL_BINARY_RESPONSE_NOT_MY_VBUCKET ->
  w.(w_out) ++ status h err 0 = OUT -> FIN = server_of w ->
  runs (write_bin_packet err 0;; updc (set_cn_write_and_go F_closing)) w1 (fun _ w' => dispatched w (pass24 w')).
Proof.
  intros Hat Herr Ho HF. pose proof Hat as (Hw & _ & Hsv). run. eapply runs_mono; [by eapply write_bin_packet_run|].
  intros [] w' [[Ha Hout Hs Hi [Hc Hrep] Hg Hsb] _]. run. set (w2 := set_w_conn _ w').
  eapply (answer_dispatched cmd quiet w1 (mk_answer (status h err 0) NULL Shut) w2); [exact Hat| | |].
  - constructor; [eapply alive_same; [|exact Ha]; same|exact Hout|unfold w2; proj; rewrite Hi; apply Hw|].
    left. split; [|split; [done|unfold w2; proj; rewrite Hi; apply Hw]]. split; [done|].
    destruct Hrep as [[? Hd]|(? & Hd & ? & Hm)]; [left|right].
    + split; [done|]. eapply holds_same; [|exact Hd]. same.
    + split; [done|]. split; [eapply holds_same; [|exact Hd]; same|]. by split.
  - change (server_of w2) with (server_of w'). rewrite Hs, Hsv, <- HF. reflexivity.
  - by rewrite app_nil_r.
Qed.

(** The body of the request is skipped. *)
Lemma skip_dispatched cmd quiet w1 o :
  at_header cmd quiet w1 ->
  deliver (mk_answer (status h PROTOCOL_BINARY_RESPONSE_UNKNOWN_COMMAND 0) NULL (Skip (skipped h.(rh_bodylen)))) SV
    (drop 24 (stream w)) (server_of w) = Some (o, FIN) -> w.(w_out) ++ o = OUT ->
  runs (write_bin_packet PROTOCOL_BINARY_RESPONSE_UNKNOWN_COMMAND (swrap 32 h.(rh_bodylen))) w1
    (fun _ w' => dispatched w (pass24 w')).
Proof.
  intros Hat Hd Ho. pose proof Hat as (Hw & _ & Hsv). eapply runs_mono; [by eapply write_bin_packet_run|].
  intros [] w' [[Ha Hout Hs Hi Hrep Hg Hsb] _]. eapply answer_dispatched; [exact Hat| |rewrite Hs, Hsv; exact Hd|exact Ho].
  constructor; [exact Ha|exact Hout|rewrite Hi; apply Hw|]. left. split; [exact Hrep|].
  split; [|rewrite Hi; apply Hw]. unfold goes_on, skipped. rewrite Hg, Hsb. pose proof (swrap_range h.(rh_bodylen)).
  destruct (Z.ltb_spec 0 (swrap 32 h.(rh_bodylen))); [left; split; [done|split; [done|lia]]|by right].
Qed.

(** Another command is handled in its place. *)
Lemma at_header_cmd cmd quiet w1 w2 cmd' quiet' :
  at_header cmd quiet w1 -> vitals w2 = vitals w1 -> setup w2 = setup w1 -> outside w2 = outside w1 ->
  server_of w2 = server_of w1 -> w2.(w_conn).(cn_cas) = w1.(w_conn).(cn_cas) -> w2.(w_conn).(cn_item) = w1.(w_conn).(cn_item) ->
  w2.(w_conn).(cn_cmd) = cmd' -> w2.(w_conn).(cn_noreply) = quiet' -> at_header cmd' quiet' w2.
Proof.
  intros (Hw & Ho & Hs) Hv Hsu Ho2 Hs2 Hc Hi Hcmd Hq. split; [|split; congruence].
  eapply ready_same; [exact Hw|by eapply alive_same; [|apply Hw]|done|done|done|destruct Hw; congruence..].
Qed.

(** The header of an update. *)
Lemma read_key_dispatched cmd quiet w1 extra o :
  at_header cmd quiet w1 -> w1.(w_conn).(cn_keylen) = h.(rh_keylen) -> 0 <= extra <= 8 -> h.(rh_keylen) <= KEY_MAX_LENGTH ->
  chunk_ok h cmd quiet bin_reading_set_header (h.(rh_keylen) + extra) ->
  chunk (h.(rh_keylen) + extra) (fun b rest => serve_set_header h cmd quiet b SV rest) (drop 24 (stream w)) (server_of w)
  = Some (o, FIN) -> w.(w_out) ++ o = OUT ->
  runs (bin_read_key bin_reading_set_header extra) w1 (fun _ w' => dispatched w (pass24 w')).
Proof.
  intros Hat Hkl Hex Hmax Hck Hrem Ho. unfold bin_read_key. run. rewrite Hkl.
  pose proof (ro_keylen _ (rd_ok _ _ _ _ _ _ (proj1 Hat))) as Hk.
  eapply read_chunk_dispatched; [exact Hat|lia|unfold KEY_MAX_LENGTH, packet_limit in *; lia|exact Hck|exact Hrem|exact Ho].
Qed.

(** The commands that have no executor. *)
Lemma no_executor_run quiet cmd w1 o :
  at_header cmd quiet w1 -> w1.(w_conn).(cn_keylen) = h.(rh_keylen) -> (quiet = false -> cmd = h.(rh_opcode)) ->
  (quiet = true -> is_update cmd \/ is_concat cmd) -> h.(rh_keylen) <= KEY_MAX_LENGTH ->
  match (if in_list [PROTOCOL_BINARY_CMD_SET; PROTOCOL_BINARY_CMD_ADD; PROTOCOL_BINARY_CMD_REPLACE] cmd then
           if (h.(rh_extlen) =? 8) && negb (h.(rh_keylen) =? 0) && (h.(rh_keylen) + 8 <=? h.(rh_bodylen))
           then ReadUpdate cmd quiet else Reject PROTOCOL_BINARY_RESPONSE_EINVAL
         else if in_list [PROTOCOL_BINARY_CMD_APPEND; PROTOCOL_BINARY_CMD_PREPEND] cmd then
           if (0 <? h.(rh_keylen)) && (h.(rh_extlen) =? 0) then ReadConcat cmd quiet
           else Reject PROTOCOL_BINARY_RESPONSE_EINVAL
         else if in_list [PROTOCOL_BINARY_CMD_SASL_AUTH; PROTOCOL_BINARY_CMD_SASL_STEP] cmd then
           if (h.(rh_extlen) =? 0) && negb (h.(rh_keylen) =? 0) then ReadSasl
           else Reject PROTOCOL_BINARY_RESPONSE_EINVAL
         else match v1_unknown_command with Some _ => ReadPacket | None => SkipBody end) with
  | Refuse => mret []
  | Reject err => mret (status h err 0)
  | ReadPacket => if packet_limit <? h.(rh_bodylen) + 24 then crash else
      chunk h.(rh_bodylen) (fun body rest' => a ← serve_packet adm ctr h hdr body; deliver a SV rest') (drop 24 (stream w))
  | ReadUpdate cmd quiet => chunk (h.(rh_keylen) + 8) (fun b rest' => serve_set_header h cmd quiet b SV rest') (drop 24 (stream w))
  | ReadConcat cmd quiet => chunk h.(rh_keylen) (fun b rest' => serve_set_header h cmd quiet b SV rest') (drop 24 (stream w))
  | ReadSasl => crash
  | SkipBody => deliver (mk_answer (status h PROTOCOL_BINARY_RESPONSE_UNKNOWN_COMMAND 0) NULL (Skip (skipped h.(rh_bodylen)))) SV
                  (drop 24 (stream w))
  end (server_of w) = Some (o, FIN) -> w.(w_out) ++ o = OUT ->
  runs (if in_list [PROTOCOL_BINARY_CMD_SET; PROTOCOL_BINARY_CMD_ADD; PROTOCOL_BINARY_CMD_REPLACE] cmd then
          if (h.(rh_extlen) =? 8) && negb (h.(rh_keylen) =? 0) && (h.(rh_keylen) + 8 <=? h.(rh_bodylen))
          then bin_read_key bin_reading_set_header 8 else handle_binary_protocol_error
        else if in_list [PROTOCOL_BINARY_CMD_APPEND; PROTOCOL_BINARY_CMD_PREPEND] cmd then
          if (0 <? h.(rh_keylen)) && (h.(rh_extlen) =? 0)
          then bin_read_key bin_reading_set_header 0 else handle_binary_protocol_error
        else if in_list [PROTOCOL_BINARY_CMD_SASL_AUTH; PROTOCOL_BINARY_CMD_SASL_STEP] cmd then
          if (h.(rh_extlen) =? 0) && negb (h.(rh_keylen) =? 0)
          then bin_read_key bin_reading_sasl_auth 0 else handle_binary_protocol_error
        else match v1_unknown_command with
        | None => write_bin_packet PROTOCOL_BINARY_RESPONSE_UNKNOWN_COMMAND (swrap 32 h.(rh_bodylen))
        | Some _ => bin_read_chunk bin_reading_packet h.(rh_bodylen)
        end) w1 (fun _ w' => dispatched w (pass24 w')).
Proof.
  intros Hat Hkl Hloud Hquiet Hmax Hrem Ho. pose proof (rd_ok _ _ _ _ _ _ (proj1 Hat)) as [_ ? _ _ _ ? _ _].
  unfold handle_binary_protocol_error.
  destruct (in_list [PROTOCOL_BINARY_CMD_SET; _; _] cmd) eqn:E1.
  { destruct (_ && _) eqn:Ec; [|injection Hrem as <- <-; by eapply reject_dispatched]. boolify.
    eapply read_key_dispatched; [exact Hat|exact Hkl|lia|done| |exact Hrem|exact Ho]. left. split; [|done].
    unfold in_list in E1. cbn in E1. rewrite orb_false_r, !orb_true_iff, !Z.eqb_eq in E1. exact E1. }
  destruct (in_list [PROTOCOL_BINARY_CMD_APPEND; _] cmd) eqn:E2.
  { destruct (_ && _) eqn:Ec; [|injection Hrem as <- <-; by eapply reject_dispatched]. boolify.
    eapply read_key_dispatched; [exact Hat|exact Hkl|lia|done| |rewrite Z.add_0_r; exact Hrem|exact Ho].
    right. split; [by apply in_list_2 in E2|lia]. }
  assert (Hq : quiet = false).
  { destruct quiet; [|done]. destruct (Hquiet eq_refl) as [[-> | [-> | ->]]|[-> | ->]]; done. }
  subst quiet. rewrite (Hloud eq_refl) in *.
  destruct (in_list [PROTOCOL_BINARY_CMD_SASL_AUTH; _] _).
  { destruct (_ && _); [done|]. injection Hrem as <- <-. by eapply reject_dispatched. }
  destruct v1_unknown_command; [|by eapply skip_dispatched].
  destruct (Z.ltb_spec packet_limit (h.(rh_bodylen) + 24)) as [|Hlim]; [done|].
  eapply read_chunk_dispatched; [exact Hat|lia|exact Hlim|by repeat split|exact Hrem|exact Ho].
Qed.

Lemma dispatch_run quiet w1 o :
  at_header h.(rh_opcode) quiet w1 -> w1.(w_conn).(cn_keylen) = h.(rh_keylen) ->
  negb (h.(rh_magic) =? PROTOCOL_BINARY_REQ)
    && negb ((h.(rh_magic) =? PROTOCOL_BINARY_RES) && response_handlers h.(rh_opcode)) = false ->
  serve_header adm usr ctr h hdr SV (drop 24 (stream w)) (server_of w) = Some (o, FIN) -> w.(w_out) ++ o = OUT ->
  runs dispatch_bin_command w1 (fun _ w' => dispatched w (pass24 w')).
Proof.
  intros Hat Hkl Hmagic Hrem Ho. pose proof Hat as (Hw & Hout & Hsv). pose proof (rd_ok _ _ _ _ _ _ Hw) as Hok.
  unfold serve_header in Hrem. apply run_bind_Some in Hrem as (sv & s1 & [= <- <-] & Hrem).
  unfold plan_of in Hrem. cbv zeta in Hrem. rewrite Hmagic in Hrem.
  assert (Hdt : w1.(w_conn).(cn_supports_datatype) = (server_of w).(sv_datatype)) by (by rewrite <- Hsv).
  destruct (at_header_stream _ _ _ Hat) as (_ & _ & (_ & Husr & _) & _).
  unfold dispatch_bin_command. run. unfold id, authenticated, invalid_datatype.
  rewrite (rd_header _ _ _ _ _ _ Hw), (rd_cmd _ _ _ _ _ _ Hw), Husr, Hdt.
  destruct (require_sasl && negb _).
  { injection Hrem as <- <-. by eapply reject_dispatched. }
  match type of Hrem with context [negb (?a =? ?b) && negb (?c && ?d)] =>
    replace (if a =? b then false else if c && d then false else true) with (negb (a =? b) && negb (c && d))
      by (by destruct (a =? b), (c && d)); destruct (negb (a =? b) && negb (c && d)) end.
  { injection Hrem as <- <-. by eapply reject_dispatched. }
  destruct (Z.ltb_spec KEY_MAX_LENGTH h.(rh_keylen)) as [|Hmax].
  { injection Hrem as <- <-. unfold handle_binary_protocol_error. by eapply reject_dispatched. }
  pose proof (executors_spec h.(rh_opcode)) as Hex. destruct (executors h.(rh_opcode)) as [ex|] eqn:Eex.
  - rewrite (proj1 Hex) in Hrem by done. destruct (Z.ltb_spec packet_limit (h.(rh_bodylen) + 24)) as [|Hlim]; [done|]. run.
    eapply read_chunk_dispatched; [eapply at_header_cmd; [exact Hat|same..|apply Hw|same]| |exact Hlim|by repeat split|exact Hrem|exact Ho].
    destruct Hok; lia.
  - destruct (has_executor h.(rh_opcode)); [by destruct (proj2 Hex eq_refl)|].
    destruct (loud_update h.(rh_opcode)) as [cmd|] eqn:El.
    + unfold set_quiet. run. proj. eapply (no_executor_run true cmd); try done.
      * eapply at_header_cmd; [exact Hat|same..].
      * intros _. unfold loud_update in El. repeat match type of El with (if ?c then _ else _) = _ => destruct c end;
          try injection El as <-; unfold is_update, is_concat; tauto || done.
    + run. change (default (rh_opcode h) None) with (rh_opcode h) in Hrem. set (w2 := set_w_conn _ w1).
      change (cn_cmd (w_conn w2)) with (cn_cmd (w_conn w1)). rewrite (rd_cmd _ _ _ _ _ _ Hw).
      eapply (no_executor_run false h.(rh_opcode)); try done.
      eapply at_header_cmd; [exact Hat|same..|apply Hw|same].
Qed.
End header.

(** ** A request is parsed *)

(** Room is made for the response to a request. *)
Definition request_world w (h : request_header) : world S :=
  set_w_conn (set_cn_cas 0 (set_cn_opaque h.(rh_opaque) (set_cn_keylen h.(rh_keylen) (set_cn_cmd h.(rh_opcode)
    (set_cn_iovused 0 (set_cn_msgbytes 0 (set_cn_msgs [[]] (set_cn_msgcurr 0 (set_cn_header h w.(w_conn)))))))))) w.

Lemma request_world_ready w h : alive w -> req_ok h -> w.(w_conn).(cn_item) = NULL -> w.(w_conn).(cn_sbytes) = 0 ->
  goes_on w 0 -> at_header w h h.(rh_opcode) w.(w_conn).(cn_noreply) (request_world w h).
Proof.
  intros Ha Hh Hi Hs Hgo. split; [|split; unfold request_world; same].
  constructor; unfold request_world; proj; try done.
  - eapply alive_same; [|exact Ha]. same.
  - constructor; proj; [done|lia|repeat constructor; simpl; lia|]. left. exists []. by repeat split.
Qed.

Lemma try_read_command_run w o :
  good w -> w.(w_conn).(cn_state) = F_parse_cmd -> 24 <= w.(w_conn).(cn_rbytes) ->
  w.(w_conn).(cn_item) = NULL -> w.(w_conn).(cn_sbytes) = 0 -> goes_on w 0 ->
  SV (stream w) (server_of w) = Some (o, FIN) -> w.(w_out) ++ o = OUT ->
  runs try_read_command w (fun r w' => r <> 0 /\ dispatched w w').
Proof.
  intros Hg Hst Hr Hi Hs Hgo Hrem Ho. pose proof Hg as [Ha Hb Hset _]. pose proof Ha as [E1 E2 E3 _ _ _ _ _ _ _].
  pose proof (buf_length w Ha) as Hbl.
  destruct (pass24_stream w Ha Hr) as (_ & _ & Ht).
  assert (H24 : (24 <= length (stream w))%nat) by (rewrite stream_buf, length_app; lia).
  destruct (parse_request_Some (take 24 (stream w))) as (h & Hh & Hok); [rewrite length_take; lia|by apply Forall_take|].
  rewrite serve_unfold, (proj2 (Nat.ltb_ge _ _) H24), Hh in Hrem.
  change (serve_header adm usr ctr h (take 24 (stream w)) SV (drop 24 (stream w)) (server_of w) = Some (o, FIN)) in Hrem.
  assert (Hp : parsed (take 24 (stream w)) h) by (constructor; [rewrite length_take; lia|done]).
  unfold try_read_command. run; unfold id; [by apply Z.leb_le; lia|by apply Z.ltb_lt; lia|].
  rewrite (proj2 (Z.ltb_ge _ _)) by lia. run; [by apply buf_slice; [|lia]|change (Z.to_nat 24) with 24%nat; by rewrite <- Ht|].
  destruct (negb (_ =? PROTOCOL_BINARY_REQ) && _) eqn:Em.
  { run. split; [done|]. split; [done|]. right.
    unfold serve_header in Hrem. apply run_bind_Some in Hrem as (sv & s1 & [= <- <-] & Hrem).
    unfold plan_of in Hrem. rewrite Em in Hrem. injection Hrem as <- <-. rewrite app_nil_r in Ho.
    constructor; [done|change (w_out w `prefix_of` OUT); by rewrite Ho|by apply alive_closable; [eapply alive_same; [|exact Ha]; same|]|by split]. }
  run. apply add_msghdr_run; [apply Ha|simpl; lia|]. run. cbn [Z.eqb negb]. run.
  replace (set_w_conn _ _) with (request_world w h) by (by destruct w as [[]]).
  eapply runs_mono; [eapply dispatch_run; [exact Hp|done|done|done|done|by apply request_world_ready|done|exact Em|exact Hrem|exact Ho]|].
  intros [] w' Hd. run. split; [done|]. exact Hd.
Qed.

Lemma conn_parse_cmd_ticked w o :
  good w -> w.(w_conn).(cn_state) = F_parse_cmd -> 0 < w.(w_conn).(cn_rbytes) ->
  (w.(w_conn).(cn_rbytes) < DATA_BUFFER_SIZE -> w.(w_conn).(cn_rsize) <= READ_BUFFER_HIGHWAT) -> w.(w_conn).(cn_item) = NULL -> w.(w_conn).(cn_sbytes) = 0 -> goes_on w 0 ->
  SV (stream w) (server_of w) = Some (o, FIN) -> w.(w_out) ++ o = OUT ->
  runs conn_parse_cmd w (ticked w).
Proof.
  intros Hg Hst Hpos Hsm Hi Hs Hgo Hrem Ho. pose proof Hg as [Ha Hb Hset _]. pose proof Ha as [E1 E2 E3 _ _ _ _ _ _ _].
  unfold conn_parse_cmd. destruct (Z.lt_ge_cases w.(w_conn).(cn_rbytes) 24) as [Hlt|Hge].
  - run. unfold try_read_command. run; unfold id; [by apply Z.leb_le; lia|by apply Z.ltb_lt; lia|].
    rewrite (proj2 (Z.ltb_lt _ _)) by lia. run. cbn [Z.eqb when]. run.
    split; [done|]. left. split; [|by apply ad_parse].
    eapply (good_idle adm usr ctr OUT FIN w _ o); try done; [eapply alive_same; [|exact Ha]; same|left; split; [by left|done]].
  - run. eapply runs_mono; [by eapply try_read_command_run|]. intros r w' (Hr & Hout & Hd). run.
    rewrite (proj2 (Z.eqb_neq _ _)) by done. cbn [when]. run. split; [by rewrite Hout|].
    destruct Hd as [[Hg' Hstr]|Hc]; [left|by right].
    split; [done|]. apply ad_stream. apply (f_equal length) in Hstr. rewrite length_app, length_take in Hstr.
    pose proof (buf_length w Ha). assert (24 <= length (stream w))%nat by (rewrite stream_buf, length_app; lia). lia.
Qed.
End dispatch.
