(* ===== verification/Refine.v ===== *)
(** * A connection does what the reference says

    The state functions of a connection are called one after the other, and an event
    starts them again when they wait: [step]. Whatever the network does, what has been
    sent is a part of the output of [serve]; no step is undefined; an event handler
    returns; and when the network does what it is asked for, the output is complete. *)
From Stdlib Require Import ZArith Lia.
From stdpp Require Import strings gmap prelude relations.
From S2P Require Import Prelude Util EngineState DefaultEngine JsonChecker Snappy Protocol Conn Daemon Serve Reply Handlers Updates Phases Steps Tick Dispatch.

#[local] Set Warnings "-clear-no-such-hyp".

(** The states of a connection that is being closed. *)
Definition shut (st : state_func) : bool :=
  match st with F_closing | F_pending_close | F_immediate_close => true | _ => false end.

Section refine.
Context {S : Type} {EV : EngineV1 S} {SY : Sys} {ST : Settings} {SN : Snappy}.
Implicit Types w : world S.

(** A connection that has just been accepted: the client will send [I]. *)
Definition accepted (e : S) (I : list Z) (verbose session ctr : Z) : world S :=
  mk_world conn_new e I [] 0 verbose session ctr.

(** The next event. *)
Definition new_event w : world S :=
  set_w_conn (set_cn_nevents w.(w_conn).(cn_max_reqs_per_event) w.(w_conn)) w.

(** A state function is called; it is called by the next event when the last one returned
    false. *)
Inductive step w : world S -> Prop :=
| step_call w' : run_state w = Some (true, w') -> step w w'
| step_event w' : run_state w = Some (false, w') -> step w (new_event w').

(** The same as a function. *)
Definition tick : D S unit :=
  again ← run_state;
  if (again : bool) then mret tt else modify new_event.

Fixpoint ticks (n : nat) : D S unit :=
  match n with
  | O => mret tt
  | Datatypes.S n' => tick;; ticks n'
  end.

(** The calls that are enough for [n] bytes of input and [m] bytes of output. *)
Definition enough (n m : nat) : nat := (7 * n + 7) * (m + 3 * n + 3).

Context {SOK : Provided} {EOK : EngineV1Ok S}.
Context (adm usr : bool) (ctr : Z) (OUT : list Z) (FIN : server S).
Abbreviation good := (good adm usr ctr OUT FIN).
Abbreviation ticked := (ticked adm usr ctr OUT FIN).

(** ** One step *)

Lemma run_state_ticked w : good w -> runs run_state w (ticked w).
Proof.
  intros Hg. destruct (go_rem _ _ _ _ _ _ Hg) as (rem & o & Hph & Hrem & Ho). unfold run_state. run.
  inversion Hph as [Hst Hgo|Hst Hsm Hi Hs Hgo|h hdr got cmd quiet ss left Hck|h cmd quiet it op off left Hv|out nx Hsd Hnx|n Hst Hn Hr Hi Hgo]; subst rem.
  - rewrite Hst. by eapply conn_new_cmd_ticked.
  - destruct Hst as [[[Hst|Hst] Hlt]|[Hst Hlt]]; rewrite Hst.
    + by eapply conn_waiting_ticked.
    + by eapply conn_read_ticked.
    + by eapply conn_parse_cmd_ticked.
  - rewrite (ck_state _ _ _ _ _ _ _ _ Hck). by eapply conn_nread_chunk.
  - rewrite (va_state _ _ _ _ _ _ _ _ Hv). by eapply conn_nread_value.
  - pose proof Hsd as [[Hst Hp]|[(Hst & _)|[Hst _]]]; rewrite Hst.
    + eapply conn_mwrite_ticked; [done|by left|done|done|done|done].
    + by eapply conn_write_ticked.
    + by eapply conn_write_ticked.
  - rewrite Hst. by eapply conn_swallow_ticked.
Qed.

Lemma good_open w : good w -> shut w.(w_conn).(cn_state) = false.
Proof.
  intros Hg. destruct (go_rem _ _ _ _ _ _ Hg) as (rem & o & Hph & _).
  inversion Hph as [Hst _|Hst|h hdr got cmd quiet ss left Hck|h cmd quiet it op off left Hv|out nx Hsd|n Hst].
  - by rewrite Hst.
  - by destruct Hst as [[[Hst|Hst] _]|[Hst _]]; rewrite Hst.
  - by rewrite (ck_state _ _ _ _ _ _ _ _ Hck).
  - by rewrite (va_state _ _ _ _ _ _ _ _ Hv).
  - by destruct Hsd as [[Hst _]|[(Hst & _)|[Hst _]]]; rewrite Hst.
  - by rewrite Hst.
Qed.

(** A connection that is being closed sends nothing and is not opened again. *)
Definition silent {A} (m : D S A) : Prop := forall w a w', m w = Some (a, w') ->
  w'.(w_out) = w.(w_out) /\ (shut w.(w_conn).(cn_state) = true -> shut w'.(w_conn).(cn_state) = true).

Lemma silent_ret {A} (a : A) : silent (mret a).
Proof. by intros w a' w' [= <- <-]. Qed.
Lemma silent_getc {A} (f : conn -> A) : silent (getc f).
Proof. by intros w a w' [= <- <-]. Qed.
Lemma silent_updc f : (forall c, shut c.(cn_state) = true -> shut (f c).(cn_state) = true) -> silent (updc f).
Proof. intros Hf w a w' [= <- <-]. split; [done|]. apply Hf. Qed.
Lemma silent_syscall {A} (f : nat -> A) : silent (syscall f).
Proof. by intros w a w' [= <- <-]. Qed.
Lemma silent_cassert b : silent (cassert b).
Proof. destruct b; [by intros w a w' [= <- <-]|done]. Qed.
Lemma silent_eng {A} (m : M S A) : silent (eng m).
Proof. intros w a w'. unfold eng. destruct (m _) as [[a' e]|]; [|done]. by intros [= <- <-]. Qed.
Lemma silent_bind {A B} (m : D S A) (f : A -> D S B) : silent m -> (forall a, silent (f a)) -> silent (mbind f m).
Proof.
  intros Hm Hf w b w' (a & w1 & H1 & H2)%run_bind_Some. apply Hm in H1 as [O1 S1]. apply Hf in H2 as [O2 S2].
  split; [congruence|auto].
Qed.

Ltac hush := repeat first
  [apply silent_ret|apply silent_getc|apply silent_updc; by intros|apply silent_syscall|apply silent_cassert|apply silent_eng
  |apply silent_bind; [|intros ?]
  |match goal with |- silent (if ?b then _ else _) => destruct b | |- silent (when ?b _) => destruct b; cbn [when] end].

Lemma release_items_silent l : silent (release_items l).
Proof. induction l as [|it l IH]; cbn [release_items]; hush; done. Qed.

Lemma closing_run w again w' : shut w.(w_conn).(cn_state) = true -> run_state w = Some (again, w') ->
  w'.(w_out) = w.(w_out) /\ shut w'.(w_conn).(cn_state) = true.
Proof.
  intros Hs H. unfold run_state in H. apply run_bind_Some in H as (st & w1 & [= <- <-] & H).
  assert (Hq : forall m : D S bool, silent m -> m w = Some (again, w') ->
    w'.(w_out) = w.(w_out) /\ shut w'.(w_conn).(cn_state) = true).
  { intros m Hm Hr. apply Hm in Hr as [? ?]. auto. }
  destruct (cn_state (w_conn w)); try done; eapply Hq; try exact H; unfold conn_closing, conn_pending_close, conn_immediate_close,
    unregister_event, conn_cleanup_engine_allocations, conn_set_state; hush; try apply release_items_silent.
  apply silent_updc. intros c _. proj. by destruct (_ || _).
Qed.

(** ** The invariant *)

(** The connection is open and on the way to [OUT], or it is being closed and has sent a
    part of it. *)
Definition connection_inv (n : nat) w : Prop :=
  good w /\ (length (stream w) <= n)%nat \/ shut w.(w_conn).(cn_state) = true /\ w.(w_out) `prefix_of` OUT.

Lemma advances_stream w again w' : advances OUT FIN w again w' -> (length (stream w') <= length (stream w))%nat.
Proof. destruct 1; lia. Qed.

Lemma new_event_inv n w : connection_inv n w -> connection_inv n (new_event w).
Proof. intros [[Hg Hn]|Hs]; [left|by right]. split; [by apply good_nevents|done]. Qed.

Lemma ticked_inv n w again w' : good w -> (length (stream w) <= n)%nat -> ticked w again w' -> connection_inv n w'.
Proof.
  intros Hg Hn [_ [[Hg' Ha]|[Hc Hp _ _]]]; [left|right].
  - split; [done|]. apply advances_stream in Ha. lia.
  - by rewrite Hc.
Qed.

Lemma step_inv n w w' : connection_inv n w -> step w w' -> connection_inv n w'.
Proof.
  intros Hi Hst. assert (Hr : forall again w1, run_state w = Some (again, w1) -> connection_inv n w1).
  { intros again w1 Hr. destruct Hi as [[Hg Hn]|[Hs Hp]].
    - eapply ticked_inv; [done|done|]. by eapply runs_Some; [apply run_state_ticked|].
    - apply closing_run in Hr as [Ho Hs']; [|done]. right. by rewrite Ho. }
  destruct Hst as [w1 H1|w1 H1]; [by eapply Hr|]. by eapply new_event_inv, Hr.
Qed.

Lemma reachable_inv n w w' : connection_inv n w -> rtc step w w' -> connection_inv n w'.
Proof. intros Hi. induction 1 as [w|w w1 w' Hs _ IH]; [done|]. eauto using step_inv. Qed.

Lemma inv_prefix n w : connection_inv n w -> w.(w_out) `prefix_of` OUT.
Proof. intros [[Hg _]|[_ Hp]]; [by eapply good_prefix|done]. Qed.

Lemma inv_step n w : connection_inv n w -> shut w.(w_conn).(cn_state) = false -> exists w', step w w'.
Proof.
  intros [[Hg _]|[Hs _]] Ho; [|congruence]. destruct (run_state_ticked w Hg) as ([] & w' & Hr & _).
  - exists w'. by apply step_call.
  - exists (new_event w'). by apply step_event.
Qed.

(** ** Termination *)

Definition measure (n : nat) (sub : world S -> nat) w : nat :=
  (7 * length (stream w) + class w) * (length OUT + 3 * n + 3) + sub w.

Lemma measure_lt n sub w w' :
  (class w' <= 6)%nat -> (sub w' <= length OUT + 3 * n + 2)%nat ->
  (length (stream w') < length (stream w) \/ length (stream w') = length (stream w) /\
   (class w' < class w \/ class w' = class w /\ sub w' < sub w))%nat ->
  (measure n sub w' < measure n sub w)%nat.
Proof. unfold measure. nia. Qed.

Lemma class_le w : (class w <= 6)%nat.
Proof. unfold class. destruct (cn_state (w_conn w)), (cn_substate (w_conn w)); lia. Qed.

Lemma measure_le n sub w : (length (stream w) <= n)%nat -> (sub w <= length OUT + 3 * n + 2)%nat ->
  (measure n sub w < enough n (length OUT))%nat.
Proof. intros Hn Hs. pose proof (class_le w). unfold measure, enough. nia. Qed.

Lemma sending_state w : class w = 4%nat -> w.(w_conn).(cn_state) = F_mwrite \/ w.(w_conn).(cn_state) = F_write.
Proof. unfold class. destruct (cn_state (w_conn w)), (cn_substate (w_conn w)); try done; tauto. Qed.

Lemma in_le_stream w : (length w.(w_in) <= length (stream w))%nat.
Proof. unfold stream. rewrite length_app. lia. Qed.

Lemma sent_less w : good w -> (length w.(w_out) <= length OUT)%nat.
Proof. intros Hg. by apply prefix_length, (good_prefix adm usr ctr OUT FIN). Qed.

(** What is left to do in an event. *)
Definition event_rest w : nat :=
  match w.(w_conn).(cn_state) with
  | F_read => 3 * length w.(w_in) + 2
  | F_parse_cmd => 3 * length w.(w_in) + 1
  | F_waiting => 3 * length w.(w_in)
  | _ => length OUT - length w.(w_out)
  end.

Lemma event_rest_le n w : (length (stream w) <= n)%nat -> (event_rest w <= length OUT + 3 * n + 2)%nat.
Proof. intros Hn. pose proof (in_le_stream w). unfold event_rest. destruct (cn_state (w_conn w)); lia. Qed.

Lemma event_advances n w w' : good w' -> (length (stream w) <= n)%nat -> advances OUT FIN w true w' ->
  (measure n event_rest w' < measure n event_rest w)%nat.
Proof.
  intros Hg Hn Ha. pose proof (advances_stream _ _ _ Ha) as Hle.
  apply measure_lt; [apply class_le|apply event_rest_le; lia|]. pose proof (sent_less _ Hg) as Hs.
  destruct Ha as [H|H1 H2|H1 H2 H3 H4|H1 H2 H3 H4|? ? ? ? [=]|H1 H2 H3 H4|H1 H2 H3 H4 _|? ? ? ? [=]|? ? ? [=] _]; [lia|lia|..];
    right; (split; [done|]); right.
  - split; [done|]. unfold event_rest. rewrite H3 in H2.
    destruct (sending_state _ H3) as [-> | ->], (sending_state _ H2) as [-> | ->]; lia.
  - unfold class, event_rest. rewrite H3, H4, H2. lia.
  - unfold class, event_rest. rewrite H3, H4. lia.
  - unfold class, event_rest. rewrite H3, H4, H2. lia.
Qed.

(** A connection that can be closed is closed by three calls at most. *)
Lemma closing_returns k w : w.(w_conn).(cn_state) = F_closing -> closable w ->
  runs (event_loop (3 + k)) w (fun ended w' => ended = true /\ shut w'.(w_conn).(cn_state) = true).
Proof.
  intros Hst (Hr & Ho & Hil & Hi). cbn [event_loop Nat.add]. apply runs_bind. unfold run_state at 1. run. rewrite Hst.
  unfold conn_closing, unregister_event. run; [done|done|].
  eapply (runs_mono _ _ (fun _ w1 => w1.(w_conn).(cn_ilist) = [] /\ w1.(w_conn).(cn_item) = w.(w_conn).(cn_item) /\
    w1.(w_engine) = w.(w_engine))).
  { destruct (event_del _); cbn [negb]; by run. }
  intros _ w1 (Hil1 & Hi1 & He1). run. unfold conn_cleanup_engine_allocations. run. unfold id; proj. rewrite Hil1, Hi1.
  eapply (runs_mono _ _ (fun _ w2 => w2.(w_conn).(cn_open) = false)).
  { destruct (Z.eqb_spec w.(w_conn).(cn_item) NULL) as [E|E]; cbn [negb when]; [by run|].
    destruct Hi as [Hi|[[[] e] He]]; [done|]. run. eapply runs_eng; [proj; by rewrite He1|]. by run. }
  intros [] w2 Hop. cbn [release_items]. run. unfold id; proj. destruct ((1 <? _) || _); cbn [event_loop].
  - unfold run_state at 1. run. unfold id; proj. unfold conn_pending_close. run; unfold id; proj; [by rewrite Hop|].
    destruct (1 <? _); [by run|]. run. unfold run_state at 1. run. proj. unfold conn_immediate_close. run; unfold id; proj; [by rewrite Hop|].
    by run.
  - unfold run_state at 1. run. proj. unfold conn_immediate_close. run; unfold id; proj; [by rewrite Hop|]. by run.
Qed.

(** An event ends within the given number of calls, also when the connection is closed. *)
Lemma event_loop_returns n k w : good w -> (length (stream w) <= n)%nat -> (measure n event_rest w < k)%nat ->
  runs (event_loop (3 + k)) w (fun ended _ => ended = true).
Proof.
  revert w. induction k as [|k IH]; intros w Hg Hn Hm; [lia|]. rewrite Nat.add_succ_r. cbn [event_loop]. apply runs_bind.
  destruct (run_state_ticked w Hg) as (again & w' & Hr & Ht). exists again, w'. split; [done|].
  destruct again; [|by run]. destruct Ht as [_ [[Hg' Ha]|[Hc _ Hcl _]]].
  - pose proof (event_advances _ _ _ Hg' Hn Ha). pose proof (advances_stream _ _ _ Ha). apply IH; [done|lia|lia].
  - eapply runs_mono; [by apply closing_returns|]. by intros ? ? [? _].
Qed.

(** ** Completeness *)

(** What is left to do when the network does what it is asked for. *)
Definition service_rest w : nat :=
  match w.(w_conn).(cn_state) with
  | F_parse_cmd => 3 * length w.(w_in) + 2
  | F_waiting => 3 * length w.(w_in) + 1
  | F_read => 3 * length w.(w_in)
  | F_new_cmd => if w.(w_conn).(cn_nevents) <=? 0 then 1 else 0
  | _ => length OUT - length w.(w_out)
  end.

Lemma service_rest_le n w : (length (stream w) <= n)%nat -> (service_rest w <= length OUT + 3 * n + 2)%nat.
Proof.
  intros Hn. pose proof (in_le_stream w). unfold service_rest. destruct (cn_state (w_conn w)); try lia. destruct (_ <=? 0); lia.
Qed.

(** The world after the events that are due. *)
Definition next_world (again : bool) w : world S := if again then w else new_event w.

Lemma next_world_rest again w : good w -> (service_rest (next_world again w) <= service_rest w)%nat.
Proof.
  intros Hg. destruct again; [done|]. unfold service_rest, next_world, new_event; proj.
  destruct (cn_state (w_conn w)); try done. destruct (go_settled _ _ _ _ _ _ Hg) as (_ & _ & _ & Hm).
  rewrite (proj2 (Z.leb_gt _ _)) by lia. lia.
Qed.

Lemma next_world_same again w :
  stream (next_world again w) = stream w /\ class (next_world again w) = class w /\
  (good w -> good (next_world again w)).
Proof. destruct again; [done|]. split; [done|]. split; [done|]. apply good_nevents. Qed.

Lemma service_advances n w again w' : good w' -> (length (stream w) <= n)%nat -> prompt -> advances OUT FIN w again w' ->
  finished OUT FIN w \/ (measure n service_rest (next_world again w') < measure n service_rest w)%nat.
Proof.
  intros Hg Hn Hp Ha. pose proof (advances_stream _ _ _ Ha) as Hle. pose proof (next_world_rest again w' Hg) as Hnw.
  destruct (next_world_same again w') as (Hs & Hc & _).
  assert (Hlt : (length (stream w') < length (stream w) \/ length (stream w') = length (stream w) /\
    (class w' < class w \/ class w' = class w /\ service_rest (next_world again w') < service_rest w))%nat ->
    (measure n service_rest (next_world again w') < measure n service_rest w)%nat).
  { intros Hx. apply measure_lt; [apply class_le|apply service_rest_le; rewrite Hs; lia|by rewrite Hs, Hc]. }
  pose proof (sent_less _ Hg) as Hsent.
  destruct Ha as [H|H1 H2|H1 H2 H3 H4|H1 H2 H3 H4|H1 H2 H3 H4 _|H1 H2 H3 H4|H1 H2 H3 H4 H5|H1 H2 H3 H4 ->|H1 H2 H3 H4 H5];
    [right; apply Hlt; by left|right; apply Hlt; right; split; [done|by left]| | | | |left; by apply H5| |left; by apply H5];
    right; apply Hlt; right; (split; [done|]); right.
  - split; [done|]. eapply Nat.le_lt_trans; [exact Hnw|]. unfold service_rest. rewrite H3 in H2.
    destruct (sending_state _ H3) as [-> | ->], (sending_state _ H2) as [-> | ->]; lia.
  - split; [unfold class; by rewrite H3, H4|]. eapply Nat.le_lt_trans; [exact Hnw|]. unfold service_rest. rewrite H3, H4, H2. lia.
  - split; [unfold class; by rewrite H3, H4|]. eapply Nat.le_lt_trans; [exact Hnw|]. unfold service_rest. rewrite H3, H4, H2. lia.
  - split; [unfold class; by rewrite H3, H4|]. eapply Nat.le_lt_trans; [exact Hnw|]. unfold service_rest. rewrite H3, H4. lia.
  - split; [unfold class; by rewrite H2, H3|]. unfold service_rest, next_world, new_event; proj. rewrite H2, H3.
    destruct (go_settled _ _ _ _ _ _ Hg) as (_ & _ & _ & Hmx).
    rewrite (proj2 (Z.leb_gt _ _)), (proj2 (Z.leb_le _ _)) by lia. lia.
Qed.

Lemma ticks_finish n k w : good w -> (length (stream w) <= n)%nat -> prompt ->
  (measure n service_rest w < k)%nat -> exists j, (j <= k)%nat /\ runs (ticks j) w (fun _ w' => finished OUT FIN w').
Proof.
  revert w. induction k as [|k IH]; intros w Hg Hn Hp Hm; [lia|].
  destruct (run_state_ticked w Hg) as (again & w' & Hr & _ & Ht).
  assert (Htick : tick w = Some (tt, next_world again w')) by (unfold tick, mbind, M_bind; rewrite Hr; by destruct again).
  assert (Hgo : forall j Q, runs (ticks j) (next_world again w') Q -> runs (ticks (Datatypes.S j)) w Q).
  { intros j Q HQ. cbn [ticks]. apply runs_bind. by exists tt, (next_world again w'). }
  destruct Ht as [[Hg' Ha]|[_ _ _ Hf]].
  - destruct (service_advances n w again w' Hg' Hn Hp Ha) as [Hf|Hlt]; [exists 0%nat; split; [lia|by apply runs_ret]|].
    destruct (next_world_same again w') as (Hs & _ & Hgn). pose proof (advances_stream _ _ _ Ha).
    destruct (IH (next_world again w')) as (j & Hj & Hrun); [auto|rewrite Hs; lia|done|lia|].
    exists (Datatypes.S j). split; [lia|]. by apply Hgo.
  - exists 1%nat. split; [lia|]. apply Hgo, runs_ret. destruct Hf as [H1 H2]; [done|]. by destruct again.
Qed.
End refine.
