(* ===== verification/Service.v ===== *)
(** * The daemon with the default engine

    The default engine as an [ENGINE_HANDLE_V1], what it promises to the daemon, and
    the theorems on connections, with runs of them on this engine. *)
From Stdlib Require Import ZArith Lia.
From stdpp Require Import strings gmap prelude relations.
From S2P Require Import Prelude Util EngineState Slabs Items Store DefaultEngine JsonChecker Snappy Protocol Conn Daemon Serve Reply Phases Tick Refine.

#[local] Set Warnings "-clear-no-such-hyp".

(** [create_instance] fills the table of the engine; [clock] is what [time(NULL)]
    returns. *)
Definition default_engine_v1 `{Env} (clock : Z) : EngineV1 engine := {|
  v1_allocate := default_item_allocate;
  v1_remove key cas vb := r ← default_item_delete key cas vb; mret (r, cas);
  v1_release := default_item_release;
  v1_get key vb := default_get key vb NULL;
  v1_store := default_store;
  v1_arithmetic key i c d n x cas dt vb := default_arithmetic key i c d n x cas dt 0 vb;
  v1_flush := default_flush;
  v1_unknown_command := Some (fun req sent => DefaultEngine.default_unknown_command req sent clock);
  v1_item_set_cas := item_set_cas;
  v1_get_item_info := get_item_info;
  v1_set_item_info := set_item_info;
  v1_get_engine_vb_map := None;
  v1_key e it := x ← e.(e_heap) !! it; Some (item_get_key x);
  v1_data e it := x ← e.(e_heap) !! it; Some (drop (Z.to_nat x.(it_nkey)) x.(it_body));
  v1_write := write_data
|}.

(** ** What the default engine promises *)

Lemma packet_field_more b r off n v : packet_field b off n = Some v -> packet_field (b ++ r) off n = Some v.
Proof. unfold packet_field at 1. destruct (Nat.leb_spec (off + n) (length b)); [|done]. intros <-. by rewrite packet_field_app, packet_field_Some. Qed.

Lemma packet_bytes_more b r off n v : packet_bytes b off n = Some v -> packet_bytes (b ++ r) off n = Some v.
Proof. unfold packet_bytes at 1. destruct (Nat.leb_spec (off + n) (length b)); [|done]. intros <-. by rewrite packet_bytes_app, packet_bytes_Some. Qed.

(** A computation that reads a packet gives the same result on a longer one. *)
Definition extends {S A} (m m' : M S A) : Prop := forall s x, m s = Some x -> m' s = Some x.

Lemma extends_refl {S A} (m : M S A) : extends m m.
Proof. by intros s x. Qed.

Lemma extends_bind {S A B} (m m' : M S A) (f f' : A -> M S B) :
  extends m m' -> (forall a, extends (f a) (f' a)) -> extends (mbind f m) (mbind f' m').
Proof.
  intros Hm Hf s [b s'] (a & s1 & H1 & H2)%run_bind_Some. apply run_bind_Some. exists a, s1.
  split; [by apply Hm|by apply Hf].
Qed.

Lemma extends_field {S} b r off n : extends (S := S) (of_option (packet_field b off n)) (of_option (packet_field (b ++ r) off n)).
Proof.
  intros s x. destruct (packet_field b off n) as [v|] eqn:E; [|done]. by rewrite (packet_field_more _ r _ _ _ E).
Qed.

Lemma extends_bytes {S} b r off n : extends (S := S) (of_option (packet_bytes b off n)) (of_option (packet_bytes (b ++ r) off n)).
Proof.
  intros s x. destruct (packet_bytes b off n) as [v|] eqn:E; [|done]. by rewrite (packet_bytes_more _ r _ _ _ E).
Qed.

Ltac extend := repeat first
  [apply extends_field|apply extends_bytes|apply extends_refl|apply extends_bind; [|intros ?]
  |match goal with |- extends (if ?b then _ else _) _ => destruct b end].

Section default.
Context `{Env} (clock : Z).

Lemma unknown_command_extends pkt tail sent :
  extends (DefaultEngine.default_unknown_command pkt sent clock) (DefaultEngine.default_unknown_command (pkt ++ tail) sent clock).
Proof.
  unfold DefaultEngine.default_unknown_command, rm_vbucket, set_vbucket, get_vbucket, touch, rq_opcode, rq_bodylen, rq_keylen,
    rq_vbucket, rq_extlen. extend.
Qed.

(** The callback is asked for the reply that is returned. *)
Lemma unknown_command_sent pkt f s r s' :
  DefaultEngine.default_unknown_command pkt (fun _ => true) clock s = Some (r, s') ->
  (forall rep, r.2 = Some rep -> f rep = true) ->
  DefaultEngine.default_unknown_command pkt f clock s = Some (r, s').
Proof.
  unfold DefaultEngine.default_unknown_command. intros (op & s1 & H1 & (x & s2 & H2 & H3)%run_bind_Some)%run_bind_Some Hf.
  apply run_bind_Some. exists op, s1. split; [done|]. apply run_bind_Some. exists x, s2. split; [done|].
  injection H3 as <- <-. cbn [snd] in Hf. destruct x as [rep|]; [by rewrite Hf|done].
Qed.

(** A value is written in pieces. *)
Lemma splice_app dst off a b :
  splice dst off (a ++ b) = (d ← splice dst off a; splice d (off + Z.of_nat (length a)) b).
Proof.
  destruct (splice dst off a) as [d|] eqn:Ea; cbn [mbind option_bind].
  - apply splice_bounds in Ea as (H1 & H2 & H3 & Hd). unfold splice. rewrite length_app, H3, Nat2Z.inj_add, Z.add_assoc.
    rewrite (proj2 (Z.leb_le 0 off)), (proj2 (Z.leb_le 0 (off + _))) by lia. cbn [andb].
    destruct (_ <=? _); [|done]. f_equal. rewrite Hd.
    rewrite Z2Nat.inj_add, Nat2Z.id by lia.
    assert (Hl : length (take (Z.to_nat off) dst) = Z.to_nat off) by (rewrite length_take; lia).
    rewrite !(app_assoc (take (Z.to_nat off) dst) a). 
    rewrite take_app_length' by (rewrite length_app; lia). rewrite <- !app_assoc. do 3 f_equal.
    rewrite !drop_app_ge by lia. rewrite drop_drop, Hl. f_equal. lia.
  - unfold splice in *. rewrite length_app. destruct (Z.leb_spec 0 off); [|done]. cbn [andb] in *.
    destruct (Z.leb_spec (off + Z.of_nat (length a)) (Z.of_nat (length dst))); [done|].
    by rewrite (proj2 (Z.leb_gt _ _)) by lia.
Qed.

Lemma write_data_app it off a b e :
  write_data it off (a ++ b) e = (write_data it off a;; write_data it (off + Z.of_nat (length a)) b) e.
Proof.
  unfold write_data, mbind, M_bind, load, store, of_option. destruct (e_heap e !! it) as [x|] eqn:Ex; [|done].
  rewrite splice_app. destruct (splice (it_body x) _ a) as [d|]; [|done]. cbn [mbind option_bind]. rewrite Ex.
  unfold upd_heap; cbn [e_heap set_e_heap]. rewrite lookup_insert_eq. cbn [it_nkey it_body set_it_body]. rewrite Z.add_assoc.
  destruct (splice d _ b) as [d'|]; [|done]. cbn [e_heap set_e_heap]. rewrite lookup_insert_eq, insert_insert_eq. by rewrite Ex.
Qed.

(** An item is released in the same way whatever its data is. *)
Section body.
Context (p : Z) (d : list Z).

Definition with_body (e : engine) : engine := upd_heap (alter (set_it_body d) p) e.

(** The run of [m'] on the changed engine follows the run of [m]. *)
Definition follows {A} (R : A -> A -> Prop) (m m' : E A) : Prop := forall e a e1, m e = Some (a, e1) ->
  exists a', m' (with_body e) = Some (a', with_body e1) /\ R a a'.

Lemma follows_bind {A B} R (Q : B -> B -> Prop) (m m' : E A) (f f' : A -> E B) :
  follows R m m' -> (forall a a', R a a' -> follows Q (f a) (f' a')) -> follows Q (mbind f m) (mbind f' m').
Proof.
  intros Hm Hf e b e2 (a & e1 & H1 & H2)%run_bind_Some. destruct (Hm _ _ _ H1) as (a' & E1 & Ha).
  destruct (Hf _ _ Ha _ _ _ H2) as (b' & E2 & Hb). exists b'. split; [|done]. apply run_bind_Some. by exists a', (with_body e1).
Qed.

Lemma follows_ret {A} (a : A) : follows eq (mret a) (mret a).
Proof. intros e a' e1 [= <- <-]. by exists a. Qed.

Lemma follows_gets {A} (g : engine -> A) : (forall e, g (with_body e) = g e) -> follows eq (gets g) (gets g).
Proof. intros Hg e a e1 [= <- <-]. exists (g e). unfold gets. by rewrite Hg. Qed.

Lemma follows_modify g : (forall e, g (with_body e) = with_body (g e)) -> follows eq (modify g) (modify g).
Proof. intros Hg e [] e1 [= <-]. exists tt. unfold modify. by rewrite Hg. Qed.

Lemma follows_of_option {A} (o : option A) : follows eq (of_option o) (of_option o).
Proof. intros e a e1. destruct o; [|done]. intros [= <- <-]. by exists a0. Qed.

Lemma follows_cassert b : follows eq (cassert b) (cassert b).
Proof. intros e [] e1. destruct b; [|done]. intros [= <-]. by exists tt. Qed.

Lemma follows_realloc n : follows eq (do_realloc n) (do_realloc n).
Proof. intros e a e1 [= <- <-]. by eexists. Qed.

Lemma follows_load : follows (fun x x' => x' = set_it_body d x) (load p) (load p).
Proof.
  intros e x e1. unfold load. destruct (e_heap e !! p) as [y|] eqn:E; [|done]. intros [= <- <-]. exists (set_it_body d y).
  unfold with_body, upd_heap; cbn [e_heap set_e_heap]. by rewrite lookup_alter_eq, E.
Qed.

Lemma follows_store f : (forall x, f (set_it_body d x) = set_it_body d (f x)) -> follows eq (store p f) (store p f).
Proof.
  intros Hf e [] e1. unfold store. destruct (e_heap e !! p) as [y|] eqn:E; [|done]. intros [= <-]. exists tt. split; [|done].
  unfold with_body, upd_heap; cbn [e_heap set_e_heap]. rewrite lookup_alter_eq, E. cbn. rewrite Hf. do 2 f_equal.
  unfold set_e_heap; cbn. f_equal. apply map_eq. intros q. destruct (decide (q = p)) as [->|Hq].
  - by rewrite lookup_insert_eq, lookup_alter_eq, lookup_insert_eq.
  - by rewrite lookup_insert_ne, !lookup_alter_ne, lookup_insert_ne.
Qed.

Ltac follow := repeat first
  [apply follows_ret|apply follows_of_option|apply follows_cassert|apply follows_realloc
  |apply follows_gets; intros ?; reflexivity|apply follows_modify; intros ?; reflexivity
  |eapply follows_bind; [apply follows_load|intros ? ? ->; cbn [it_refcount it_slabs_clsid it_iflag it_nkey it_nbytes set_it_body]]
  |apply (follows_bind eq); [|intros ? ? <-]
  |apply follows_store; intros ?; reflexivity
  |match goal with |- follows _ (if ?b then _ else _) _ => destruct b | |- follows _ (when ?b _) _ => destruct b; cbn [when] end].

Lemma item_release_follows : follows eq (do_item_release p) (do_item_release p).
Proof.
  unfold do_item_release, item_free, get_head, get_tail, has_flag, ITEM_ntotal. follow.
Qed.
End body.

Lemma write_data_release it off b e e' : write_data it off b e = Some (tt, e') ->
  is_Some (default_item_release it e) -> is_Some (default_item_release it e').
Proof.
  intros (x & e1 & H1 & (d & e2 & H2 & H3)%run_bind_Some)%run_bind_Some [[[] e3] Hr]. unfold load in H1.
  destruct (e_heap e !! it) as [y|] eqn:E; [|done]. injection H1 as -> ->. destruct (splice _ _ _); [|done]. injection H2 as -> ->.
  unfold store in H3. rewrite E in H3. injection H3 as <-.
  destruct (item_release_follows it d _ _ _ Hr) as (a' & Ha & _).
  replace (upd_heap (insert it (set_it_body d x)) e2) with (with_body it d e2); [by eexists|].
  unfold with_body, upd_heap. f_equal. apply map_eq. intros q. destruct (decide (q = it)) as [->|Hq].
  - by rewrite lookup_insert_eq, lookup_alter_eq, E.
  - by rewrite lookup_insert_ne, lookup_alter_ne.
Qed.

Lemma default_engine_ok : @EngineV1Ok engine (default_engine_v1 clock).
Proof.
  constructor.
  - intros cmd [= <-] pkt tail f s r s' Hr Hf. apply unknown_command_extends. by apply unknown_command_sent.
  - intros it off a b s. apply write_data_app.
  - intros it off b s s'. apply write_data_release.
Qed.
End default.

(** ** Connections *)

Section service.
Context {S : Type} {EV : EngineV1 S} {SY : Sys} {ST : Settings} {SN : Snappy} {SOK : Provided} {EOK : EngineV1Ok S}.
Implicit Types w : world S.

Lemma accepted_inv (e : S) I verbose session ctr OUT FIN :
  bytes_ok I -> serve false false ctr I (mk_server e false verbose session) = Some (OUT, FIN) ->
  connection_inv false false ctr OUT FIN (length I) (accepted e I verbose session ctr).
Proof.
  intros Hb Hs. left. split; [|done]. constructor; [|done|done|].
  - by constructor.
  - eexists _, OUT. split; [apply ph_new; [done|by right]|]. split; [exact Hs|done].
Qed.

(** What holds of the fields of an open connection, whatever its state: the data is inside
    the read buffer, the reserved write buffer has its size, messages have room, nothing is
    left over from an engine that answers later. The value of an update goes to the item of
    the connection; everything else that is read goes behind the data of the read buffer,
    where it fits. *)
Record well_formed w : Prop := {
  wc_alive : alive w;
  wc_input : bytes_ok (stream w);
  wc_reading : w.(w_conn).(cn_state) = F_nread -> 0 <= w.(w_conn).(cn_rlbytes) /\
    ((w.(w_conn).(cn_substate) = bin_read_set_value /\ exists off, w.(w_conn).(cn_ritem) = A_data w.(w_conn).(cn_item) off) \/
     (w.(w_conn).(cn_substate) ∈ [bin_reading_packet; bin_reading_set_header] /\
      w.(w_conn).(cn_ritem) = A_rbuf w.(w_conn).(cn_rcurr) /\
      w.(w_conn).(cn_rcurr) + w.(w_conn).(cn_rlbytes) <= w.(w_conn).(cn_rsize)));
  wc_idle : w.(w_conn).(cn_state) ∈ [F_waiting; F_read; F_parse_cmd] -> w.(w_conn).(cn_item) = NULL;
  wc_swallow : w.(w_conn).(cn_state) = F_swallow -> 0 <= w.(w_conn).(cn_sbytes) < 2 ^ 32;
  wc_state : w.(w_conn).(cn_state) ∈ [F_new_cmd; F_waiting; F_read; F_parse_cmd; F_nread; F_swallow; F_write; F_mwrite]
}.

Lemma good_well_formed adm usr ctr OUT FIN w : good adm usr ctr OUT FIN w -> well_formed w.
Proof.
  intros [Ha Hb _ (rem & out & Hph & _)]. destruct Hph as [Hs _|[[[Hs|Hs] _]|[Hs _]] _ Hi _ _
    |h hdr got cmd quiet ss left [C1 C2 C3 C4 C5 C6 C7 C8 C9 C10]|h cmd quiet it op off left [V1 V2 V3 V4 V5 V6 V7 V8 V9]
    |o nx Hsd _|n Hs Hn Hr _ _];
    (constructor; [exact Ha|exact Hb|..]); rewrite ?Hs, ?C1, ?V1; try done; try set_solver;
    try (destruct Hsd as [[-> _]|[[-> _]|[-> _]]]; (done || set_solver)).
  - intros _. rewrite C2, C7, C8. split; [done|]. right. split; [|done]. destruct ss; (done || set_solver).
  - intros _. rewrite V2, V7, V8, (rd_item _ _ _ _ _ _ V3). split; [done|]. left. split; [done|by eexists].
Qed.

(** The number of calls that are enough to answer all requests. *)
Lemma served_all (e : S) I verbose session ctr OUT FIN :
  bytes_ok I -> prompt -> serve false false ctr I (mk_server e false verbose session) = Some (OUT, FIN) ->
  exists n, (n <= enough (length I) (length OUT))%nat /\
  runs (ticks n) (accepted e I verbose session ctr) (fun _ w => w.(w_out) = OUT /\ server_of w = FIN).
Proof.
  intros Hb Hp Hs. destruct (accepted_inv _ _ _ _ _ _ _ Hb Hs) as [[Hg Hn]|[Hc _]]; [|done].
  eapply ticks_finish; [done|exact Hn|done|]. by apply measure_le, service_rest_le.
Qed.

Lemma ticks_steps n w w' : ticks n w = Some (tt, w') -> rtc step w w'.
Proof.
  revert w. induction n as [|n IH]; intros w H; cbn [ticks] in H; [by injection H as <-|].
  apply run_bind_Some in H as ([] & w1 & H1 & H2). eapply rtc_l; [|by apply IH].
  unfold tick in H1. apply run_bind_Some in H1 as ([] & w2 & Hr & H1); injection H1 as <-; [by apply step_call|by apply step_event].
Qed.
End service.

(** ** The theorems

    The bytes [I] of the client are any bytes for which the reference is defined (see
    [Serve]): no request makes the daemon read behind its body, no packet is larger than
    [packet_limit], no command is outside the model, and every call of the engine on the
    way returns. *)
Section theorems.
Context {S : Type} {EV : EngineV1 S} {SY : Sys} {ST : Settings} {SN : Snappy} {EOK : EngineV1Ok S}.
Context (e : S) (I : list Z) (verbose session ctr : Z) (OUT : list Z) (FIN : server S).
Implicit Types w : world S.

(** C1: For every engine with the properties of [EngineV1Ok] (the default engine has them),
    in every run in which no realloc of up to 64 MB and no event_add fails, and for every
    input for which the reference is defined, what a connection has sent is a part
    of the responses that the reference gives for the bytes that the client sends: in
    every state that is reached, however the input arrives and the output is taken,
    also when reads, writes or event_del fail and the connection is closed early. The
    reference is defined when all engine calls return and none blocks or disconnects, no
    packet that is read as a whole and no reply is larger than 32 MB, no request makes the
    daemon read behind its body, no value has to be inflated, and all commands are
    modelled ones. *)
Theorem service_prefix w :
  ample_memory -> events_accepted ->
  bytes_ok I -> serve false false ctr I (mk_server e false verbose session) = Some (OUT, FIN) ->
  rtc step (accepted e I verbose session ctr) w -> w.(w_out) `prefix_of` OUT.
Proof.
  intros Hm He Hb Hs Hr. pose proof (provided Hm He). eapply inv_prefix, reachable_inv; [by apply accepted_inv|exact Hr].
Qed.

(** C5: In every run in which no realloc of up to 64 MB and no event_add fails, and for
    every input for which the reference is defined (as in C1), every open connection that
    is reached is well formed: its state is one of the eight that serve requests, the size
    of its read buffer is the one it has noted, its offsets are inside its buffers, what
    is about to be read has room, and the number of bytes to be skipped is a number of
    32 bits. *)
Theorem connection_typed w :
  ample_memory -> events_accepted ->
  bytes_ok I -> serve false false ctr I (mk_server e false verbose session) = Some (OUT, FIN) ->
  rtc step (accepted e I verbose session ctr) w -> shut w.(w_conn).(cn_state) = false -> well_formed w.
Proof.
  intros Hm He Hb Hs Hr Ho. pose proof (provided Hm He).
  destruct (reachable_inv false false ctr OUT FIN (length I) _ _ (accepted_inv _ _ _ _ _ _ _ Hb Hs) Hr)
    as [[Hg _]|[Hc _]]; [|congruence]. by eapply good_well_formed.
Qed.

(** C4: In every run in which no realloc of up to 64 MB and no event_add fails, and for
    every input for which the reference is defined (as in C1), no state of an open
    connection is stuck: its state function returns, so that no assertion fails, no buffer
    of the connection is read or written outside its bounds, and the engine returns from
    the calls of the daemon. Inputs outside this scope, such as a HELLO with a body that is
    too short, and runs in which event_add fails are not covered. *)
Theorem service_runs w :
  ample_memory -> events_accepted ->
  bytes_ok I -> serve false false ctr I (mk_server e false verbose session) = Some (OUT, FIN) ->
  rtc step (accepted e I verbose session ctr) w -> shut w.(w_conn).(cn_state) = false -> exists w', step w w'.
Proof.
  intros Hm He Hb Hs Hr Ho. pose proof (provided Hm He). eapply inv_step; [|exact Ho].
  eapply reachable_inv; [by apply accepted_inv|exact Hr].
Qed.

(** C3: In every run in which no realloc of up to 64 MB and no event_add fails, and for
    every input for which the reference is defined (as in C1), the event handler returns
    in every state that an open connection reaches: within a number of calls of state
    functions that depends only on the sizes of the input and of the output of the
    reference, they come to one that waits for an event, or the connection is closed and
    the calls that close it, which release its item, return too. *)
Theorem event_handler_returns w fuel :
  ample_memory -> events_accepted ->
  bytes_ok I -> serve false false ctr I (mk_server e false verbose session) = Some (OUT, FIN) ->
  rtc step (accepted e I verbose session ctr) w -> shut w.(w_conn).(cn_state) = false ->
  (3 + enough (length I) (length OUT) <= fuel)%nat -> exists w', event_handler fuel w = Some (true, w').
Proof.
  intros Hm He Hb Hs Hr Ho Hf. pose proof (provided Hm He).
  destruct (reachable_inv false false ctr OUT FIN (length I) _ _ (accepted_inv _ _ _ _ _ _ _ Hb Hs) Hr)
    as [[Hg Hn]|[Hc _]]; [|congruence].
  pose proof (good_nevents false false ctr OUT FIN w.(w_conn).(cn_max_reqs_per_event) w Hg) as Hg'.
  assert (Hk : (measure OUT (length I) (event_rest OUT) (new_event w) < fuel - 3)%nat).
  { eapply Nat.lt_le_trans; [by apply measure_le, event_rest_le|lia]. }
  destruct (event_loop_returns false false ctr OUT FIN (length I) (fuel - 3) (new_event w) Hg' Hn Hk) as (r & w' & Hl & ->).
  exists w'. replace (3 + (fuel - 3))%nat with fuel in Hl by lia. exact Hl.
Qed.

(** C2: In every run in which recv, sendmsg and event_del do what they are asked for
    (possibly with a few bytes at a time), no realloc of up to 64 MB and no event_add
    fails, and for every input for which the reference is defined (as in C1), a connection
    answers all requests: after at most the given number of calls the client has received
    all bytes of the reference, and the engine and the settings are those that the
    reference leaves. *)
Theorem served_in_full :
  ample_memory -> events_accepted -> bytes_ok I -> prompt ->
  serve false false ctr I (mk_server e false verbose session) = Some (OUT, FIN) ->
  exists n, (n <= enough (length I) (length OUT))%nat /\
  runs (ticks n) (accepted e I verbose session ctr) (fun _ w => w.(w_out) = OUT /\ server_of w = FIN).
Proof. intros Hm He. pose proof (provided Hm He). apply served_all. Qed.
End theorems.

(** ** A run with the default engine *)

#[local] Existing Instance demo_env.
#[local] Existing Instance demo_env_ok.

(** The network delivers a few bytes at a time. *)
#[local] Instance demo_sys : Sys := {
  sys_recv n := RecvData (Z.of_nat n mod 7); sys_send n := SendData (Z.of_nat n mod 5); sys_grow n size := size <=? 2 ^ 26;
  event_del n := true; event_add n := true; junk := 0
}.
#[local] Instance demo_settings : Settings := { require_sasl := false; disable_admin := false; datatype := false; server_version := [51; 46; 48] }.
#[local] Instance demo_snappy : Snappy := {
  snappy_max_compressed_length n := n; snappy_compress x := Some x;
  snappy_uncompressed_length x n := Some n; snappy_uncompress x n := Some x
}.
#[local] Instance demo_engine_v1 : EngineV1 engine := default_engine_v1 0.
#[local] Instance demo_engine_ok : EngineV1Ok engine := default_engine_ok 0.

Lemma demo_memory : ample_memory.
Proof. intros k n Hn. by apply Z.leb_le. Qed.

Lemma demo_events : events_accepted.
Proof. done. Qed.

#[local] Instance demo_provided : Provided := provided demo_memory demo_events.

Lemma demo_prompt : prompt.
Proof. split; [by eexists|]. split; [by eexists|done]. Qed.

(** A request of the binary protocol. *)
Definition request_bytes (op : Z) (ext key value : list Z) : list Z :=
  [PROTOCOL_BINARY_REQ; op] ++ be_bytes 2 (Z.of_nat (length key)) ++ [Z.of_nat (length ext); 0; 0; 0]
  ++ be_bytes 4 (Z.of_nat (length (ext ++ key ++ value))) ++ [1; 2; 3; 4] ++ be_bytes 8 0 ++ ext ++ key ++ value.

(** The engine serves the vbucket 0. *)
Definition demo_cache : engine := set_e_vbucket_infos [vbucket_state_active] small_cache.

(** [ab] is set to [xyz], read, extended by [w] and read with its key, and a counter is
    created; then the client quits. *)
Definition demo_input : list Z :=
  request_bytes PROTOCOL_BINARY_CMD_SET [0; 0; 0; 9; 0; 0; 0; 0] [97; 98] [120; 121; 122]
  ++ request_bytes PROTOCOL_BINARY_CMD_GET [] [97; 98] []
  ++ request_bytes PROTOCOL_BINARY_CMD_APPEND [] [97; 98] [119]
  ++ request_bytes PROTOCOL_BINARY_CMD_GETK [] [97; 98] []
  ++ request_bytes PROTOCOL_BINARY_CMD_INCREMENT (be_bytes 8 1 ++ be_bytes 8 7 ++ be_bytes 4 0) [110] []
  ++ request_bytes PROTOCOL_BINARY_CMD_GET [] [99] []
  ++ request_bytes PROTOCOL_BINARY_CMD_QUIT [] [] [].

(** The parts of a result. *)
Definition result_fst {A B} (x : option (A * B)) (a : A) : A := match x with Some (a', _) => a' | None => a end.
Definition result_snd {A B} (x : option (A * B)) (b : B) : B := match x with Some (_, b') => b' | None => b end.

Lemma result_eq {A B} (x : option (A * B)) a b :
  match x with Some _ => true | None => false end = true -> x = Some (result_fst x a, result_snd x b).
Proof. by destruct x as [[]|]. Qed.

Definition demo_out : list Z :=
  result_fst (serve false false 0 demo_input (mk_server demo_cache false 0 0)) [].
Definition demo_fin : server engine :=
  result_snd (serve false false 0 demo_input (mk_server demo_cache false 0 0)) (mk_server demo_cache false 0 0).

Lemma demo_serve : serve false false 0 demo_input (mk_server demo_cache false 0 0) = Some (demo_out, demo_fin).
Proof. apply result_eq. vm_compute. reflexivity. Qed.

Lemma demo_bytes : bytes_ok demo_input.
Proof.
  assert (H : bool_decide (Forall (fun b => 0 <= b /\ b < 256) demo_input) = true) by (vm_compute; reflexivity).
  by apply bool_decide_eq_true in H.
Qed.

(** The connection after [n] calls. *)
Definition demo_world (n : nat) : world engine :=
  result_snd (ticks n (accepted demo_cache demo_input 0 0 0)) (accepted demo_cache [] 0 0 0).

Lemma demo_steps n : match ticks n (accepted demo_cache demo_input 0 0 0) with Some _ => true | None => false end = true ->
  rtc step (accepted demo_cache demo_input 0 0 0) (demo_world n).
Proof.
  intros H. apply (result_eq _ tt (accepted demo_cache [] 0 0 0)) in H. apply (ticks_steps n).
  unfold demo_world. by destruct (ticks n _) as [[[] w]|].
Qed.

(** Some of the output has been sent after 60 calls. *)
Lemma service_prefix_witness :
  (demo_world 60).(w_out) `prefix_of` demo_out /\ bool_decide ((demo_world 60).(w_out) = []) = false.
Proof.
  split; [|vm_compute; reflexivity]. apply (service_prefix demo_cache demo_input 0 0 0 demo_out demo_fin);
    [exact demo_memory|exact demo_events|exact demo_bytes|exact demo_serve|apply demo_steps; vm_compute; reflexivity].
Defined.

Lemma connection_typed_witness : well_formed (demo_world 60).
Proof.
  apply (connection_typed demo_cache demo_input 0 0 0 demo_out demo_fin);
    [exact demo_memory|exact demo_events|exact demo_bytes|exact demo_serve|apply demo_steps; vm_compute; reflexivity|vm_compute; reflexivity].
Defined.

Lemma service_runs_witness : exists w', step (demo_world 60) w'.
Proof.
  apply (service_runs demo_cache demo_input 0 0 0 demo_out demo_fin);
    [exact demo_memory|exact demo_events|exact demo_bytes|exact demo_serve|apply demo_steps; vm_compute; reflexivity|vm_compute; reflexivity].
Defined.

Lemma event_handler_returns_witness :
  exists w', event_handler (3 + enough (length demo_input) (length demo_out)) (demo_world 60) = Some (true, w').
Proof.
  apply (event_handler_returns demo_cache demo_input 0 0 0 demo_out demo_fin);
    [exact demo_memory|exact demo_events|exact demo_bytes|exact demo_serve|apply demo_steps; vm_compute; reflexivity|vm_compute; reflexivity|done].
Defined.

Lemma served_in_full_witness :
  exists n, (n <= enough (length demo_input) (length demo_out))%nat /\
  runs (ticks n) (accepted demo_cache demo_input 0 0 0) (fun _ w => w.(w_out) = demo_out /\ server_of w = demo_fin).
Proof.
  apply (served_in_full demo_cache demo_input 0 0 0 demo_out demo_fin);
    [exact demo_memory|exact demo_events|exact demo_bytes|exact demo_prompt|exact demo_serve].
Defined.
