(* ===== verification/Wire.v ===== *)
(** * A value on the wire

    A client that sets a key over a connection and gets it receives the value that it
    has sent: the composition of the protocol, the connection and the default engine. *)
From Stdlib Require Import ZArith Lia.
From stdpp Require Import strings gmap prelude relations.
From S2P Require Import Prelude Util EngineState Assoc Slabs Items Cache Refs Store Arith DefaultEngine JsonChecker Snappy Protocol Conn Daemon Serve Reply Phases Tick Refine Service.

#[local] Set Warnings "-clear-no-such-hyp".

(** ** Requests *)

(** The bytes of a request header, as a client sends them. *)
Definition header_bytes (h : request_header) : list Z :=
  [h.(rh_magic); h.(rh_opcode)] ++ be_bytes 2 h.(rh_keylen) ++ [h.(rh_extlen); h.(rh_datatype)]
  ++ be_bytes 2 h.(rh_vbucket) ++ be_bytes 4 h.(rh_bodylen) ++ h.(rh_opaque) ++ be_bytes 8 h.(rh_cas).

Lemma be_val_small n v : 0 <= v < 2 ^ (8 * Z.of_nat n) -> be_val (be_bytes n v) = v.
Proof. intros Hv. rewrite be_val_bytes. by apply Z.mod_small. Qed.

Lemma parse_header_bytes h : 0 <= h.(rh_magic) < 256 -> req_ok h -> parse_request (header_bytes h) = Some h.
Proof.
  intros Hm [H1 H2 H3 H4 H5 H6 H7 H8]. unfold header_bytes.
  pose proof (be_val_small 2 _ H2) as V2. pose proof (be_val_small 2 _ H5) as V5.
  pose proof (be_val_small 4 _ H6) as V6. pose proof (be_val_small 8 _ H8) as V8.
  pose proof (be_bytes_length 2 h.(rh_keylen)) as L2. pose proof (be_bytes_length 2 h.(rh_vbucket)) as L5.
  pose proof (be_bytes_length 4 h.(rh_bodylen)) as L6. pose proof (be_bytes_length 8 h.(rh_cas)) as L8.
  revert V2 V5 V6 V8 L2 L5 L6 L8. generalize (be_bytes 2 h.(rh_keylen)), (be_bytes 2 h.(rh_vbucket)),
    (be_bytes 4 h.(rh_bodylen)), (be_bytes 8 h.(rh_cas)). intros k v b c V2 V5 V6 V8 L2 L5 L6 L8.
  destruct k as [|? [|? [|]]]; try done. destruct v as [|? [|? [|]]]; try done.
  destruct b as [|? [|? [|? [|? [|]]]]]; try done. destruct c as [|? [|? [|? [|? [|? [|? [|? [|? [|]]]]]]]]]; try done.
  destruct h as [mg op kl el dt vb bl oq cs]. cbn [rh_opaque rh_magic rh_opcode rh_keylen rh_extlen rh_datatype rh_vbucket rh_bodylen rh_cas] in *.
  destruct oq as [|? [|? [|? [|? [|]]]]]; try done.
  unfold parse_request, packet_field, packet_bytes. cbn [length app take drop Nat.leb Nat.add mbind option_bind].
  rewrite V2, V5, V6, V8. unfold be_val. cbn [be_val_acc]. done.
Qed.

Lemma header_bytes_length h : req_ok h -> length (header_bytes h) = 24%nat.
Proof. intros Hh. unfold header_bytes. rewrite !length_app, !be_bytes_length, (ro_opaque _ Hh). done. Qed.

(** A SET request without a CAS value, and a GET request. *)
Definition set_header (vb : Z) (opaque key value : list Z) : request_header :=
  mk_req PROTOCOL_BINARY_REQ PROTOCOL_BINARY_CMD_SET (Z.of_nat (length key)) 8 PROTOCOL_BINARY_RAW_BYTES vb
    (8 + Z.of_nat (length key) + Z.of_nat (length value)) opaque 0.

Definition set_request (vb : Z) (opaque flags expiry key value : list Z) : list Z :=
  header_bytes (set_header vb opaque key value) ++ flags ++ expiry ++ key ++ value.

Definition get_header (vb : Z) (opaque key : list Z) : request_header :=
  mk_req PROTOCOL_BINARY_REQ PROTOCOL_BINARY_CMD_GET (Z.of_nat (length key)) 0 PROTOCOL_BINARY_RAW_BYTES vb
    (Z.of_nat (length key)) opaque 0.

Definition get_request (vb : Z) (opaque key : list Z) : list Z := header_bytes (get_header vb opaque key) ++ key.

(** ** The engine *)

Section engine.
Context `{EnvOk}.

(** An item that a client holds is changed. *)
Lemma held_store e A m p it it' :
  cache_rep e A m -> held e A p it ->
  (it'.(it_slabs_clsid), it'.(it_nkey), it'.(it_nbytes), it'.(it_iflag), it'.(it_refcount), length it'.(it_body))
  = (it.(it_slabs_clsid), it.(it_nkey), it.(it_nbytes), it.(it_iflag), it.(it_refcount), length it.(it_body)) ->
  let e' := upd_heap (insert p it') e in
  cache_rep e' A m /\ held e' A p it' /\ since e A [] e' A.
Proof.
  intros (D & U & L & HW & Habs) Hheld [= E1 E2 E3 E4 E5 E6]. destruct (held_unlinked _ _ _ _ _ _ _ HW Hheld) as [HpD Hok].
  destruct Hheld as (HpA & Hp & Hf). split; [|split; [|by eapply since_write]].
  - exists D, U, L. split.
    + eapply (wf_store_unlinked assoc_rep); [exact HW|done|done|exact Hp|].
      destruct Hok. constructor; try congruence; rewrite ?E1, ?E2, ?E3, ?E5, ?E6; done.
    + eapply abs_iff; [exact Habs|]. by apply keeps_insert.
  - split; [done|]. split; [apply lookup_insert_eq|]. unfold has_flag in *. by rewrite E4.
Qed.

(** The engine gives an item for an update. *)
Lemma allocate_run e A m key nbytes flags exptime datatype :
  cache_rep e A m -> Z.of_nat (length key) < 2 ^ 16 -> 0 <= nbytes < 2 ^ 31 ->
  runs (default_item_allocate key nbytes flags exptime datatype) e (fun r e' =>
    r.1 = ENGINE_SUCCESS -> r.2 <> NULL /\ exists A' m',
      alloc_promise key flags (realtime e.(e_now) exptime) nbytes datatype e A m r.2 e' A' m').
Proof.
  intros Hrep Hk Hn. pose proof Hrep as (D & U & L & HW & _). destruct (wf_slab _ _ _ _ _ _ HW) as [HS _].
  pose proof (sr_largest _ _ _ _ _ HS) as Hlg. pose proof (sr_len _ _ _ _ _ HS) as Hlen.
  unfold default_item_allocate. run. apply slabs_clsid_run.
  { rewrite Hlen. unfold MAX_NUMBER_OF_SLAB_CLASSES, POWER_SMALLEST, POWER_LARGEST in *. lia. }
  intros id _. destruct (id =? 0); [by run|]. unfold get_current_time. run. rewrite swrap_small by lia.
  eapply runs_mono; [by apply do_item_alloc_abs|]. intros r e' Hp. destruct (Z.eqb_spec r NULL) as [->|Hr]; cbn [negb]; by run.
Qed.
End engine.

(** ** The reference on the default engine *)

Section wire.
Context `{EnvOk} (clock : Z) {ST : Settings}.
#[local] Instance engine_v1 : EngineV1 engine := default_engine_v1 clock.
Abbreviation srv := (server engine).

Definition with_engine (e : engine) (s : srv) : srv := mk_server e s.(sv_datatype) s.(sv_verbose) s.(sv_session).

Lemma runs_call {A} (m : M engine A) (s : srv) (Q : A -> srv -> Prop) :
  runs m s.(sv_engine) (fun a e => Q a (with_engine e s)) -> runs (call m) s Q.
Proof. intros (a & e & Hm & HQ). exists a, (with_engine e s). split; [|done]. unfold call. by rewrite Hm. Qed.

Lemma runs_eq {St A} (m : M St A) (s : St) a s' (Q : A -> St -> Prop) : m s = Some (a, s') -> Q a s' -> runs m s Q.
Proof. intros Hm HQ. by exists a, s'. Qed.

(** The vbucket is served. *)
Definition active (vb : Z) (e : engine) : Prop := handled_vbucket vb e = Some (true, e).

Lemma active_same vb e e' : active vb e -> e'.(e_config) = e.(e_config) -> e'.(e_vbucket_infos) = e.(e_vbucket_infos) -> active vb e'.
Proof.
  intros Hh Hc Hv. unfold active, handled_vbucket, get_vbucket_state in *. unfold mbind, M_bind, gets, of_option in *.
  rewrite Hc. destruct (c_ignore_vbucket (e_config e)); [done|]. cbn iota in *. rewrite Hv.
  destruct (zlookup (e_vbucket_infos e) vb) as [z|]; [|done]. cbn iota in *. injection Hh as Hh.
  change (Some (get_state z =? vbucket_state_active, e') = Some (true, e')). by rewrite Hh.
Qed.

Lemma fixed_active vb e e' : active vb e -> fixed e e' -> active vb e'.
Proof. intros Ha (Hr & _). unfold rest in Hr. injection Hr as _ Hc _ _ Hv _ _. by eapply active_same. Qed.

(** The key is cached with the value. *)
Definition cached (vb : Z) (key value flags : list Z) (cas : Z) (e : engine) : Prop :=
  active vb e /\ exists A m v, cache_rep e A m /\ (spec_get (oldest e) e.(e_now) key m).1 = Some v /\
  v.(v_data) = value /\ v.(v_flags) = be_val (reverse flags) /\ v.(v_cas) = cas /\
  Z.land v.(v_datatype) PROTOCOL_BINARY_DATATYPE_COMPRESSED = 0.

(** What is known of an item that is being filled, since the state [e0]. *)
Record filled (e0 : engine) (A0 : gset Z) (m : cache) (key : list Z) (nbytes flags exptime : Z) (p : Z) (it : hash_item)
    (A : gset Z) (e : engine) : Prop := {
  fi_rep : cache_rep e A m;
  fi_held : held e A p it;
  fi_since : since e0 A0 [p] e A;
  fi_key : item_get_key it = key;
  fi_nbytes : it.(it_nbytes) = nbytes;
  fi_flags : it.(it_flags) = flags;
  fi_exptime : it.(it_exptime) = exptime;
  fi_datatype : Z.land it.(it_datatype) PROTOCOL_BINARY_DATATYPE_COMPRESSED = 0
}.

(** It can be released. *)
Lemma filled_releasable e0 A0 m key nbytes flags exptime p it A e :
  filled e0 A0 m key nbytes flags exptime p it A e -> is_Some (default_item_release p e).
Proof.
  intros [(D & U & L & HW & Habs) (HpA & Hp & _) _ _ _ _ _ _].
  destruct (do_item_release_abs e A D U L m p it (fun _ _ => True) HW Habs HpA Hp) as ([] & e' & Hr & _); [done|by eexists].
Qed.

Lemma filled_store e0 A0 m key nbytes flags exptime p it A e it' :
  filled e0 A0 m key nbytes flags exptime p it A e ->
  (it'.(it_slabs_clsid), it'.(it_nkey), it'.(it_nbytes), it'.(it_iflag), it'.(it_refcount), length it'.(it_body))
  = (it.(it_slabs_clsid), it.(it_nkey), it.(it_nbytes), it.(it_iflag), it.(it_refcount), length it.(it_body)) ->
  (item_get_key it', it'.(it_flags), it'.(it_exptime)) = (item_get_key it, it.(it_flags), it.(it_exptime)) ->
  Z.land it'.(it_datatype) PROTOCOL_BINARY_DATATYPE_COMPRESSED = 0 ->
  filled e0 A0 m key nbytes flags exptime p it' A (upd_heap (insert p it') e).
Proof.
  intros [F1 F2 F3 F4 F5 F6 F7 F8] E1 [= E2 E3 E4] Hd. destruct (held_store e A m p it it' F1 F2 E1) as (G1 & G2 & G3).
  injection E1 as N1 N2 N3 N4 N5 N6.
  constructor; [exact G1|exact G2|by apply (since_trans e0 A0 [p] e A [] _ A)|congruence..|done].
Qed.

Lemma filled_start e A m key nbytes flags exptime r e1 A' m' :
  alloc_promise key flags exptime nbytes PROTOCOL_BINARY_RAW_BYTES e A m r e1 A' m' -> r <> NULL ->
  exists it, filled e A m' key nbytes (u32 flags) exptime r it ({[r]} ∪ A') e1.
Proof.
  intros (_ & _ & _ & _ & _ & Hp) Hr. rewrite decide_False in Hp by done.
  destruct Hp as (_ & Hrep & Hs & it & Hheld & [N1 N2 N3 N4 N5 N6 N7] & _). exists it.
  constructor; try done. by rewrite N6.
Qed.

Lemma set_cas_filled e0 A0 m key nbytes flags exptime p it A e c :
  filled e0 A0 m key nbytes flags exptime p it A e ->
  runs (item_set_cas p c) e (fun _ e' => exists it', filled e0 A0 m key nbytes flags exptime p it' A e').
Proof.
  intros Hf. pose proof (fi_held _ _ _ _ _ _ _ _ _ _ _ Hf) as (_ & Hp & _). pose proof (fi_datatype _ _ _ _ _ _ _ _ _ _ _ Hf).
  unfold item_set_cas. eapply runs_store; [exact Hp|]. eexists. eapply filled_store; [exact Hf|..]; by destruct (has_flag it ITEM_WITH_CAS).
Qed.

Lemma set_info_filled e0 A0 m key nbytes flags exptime p it A e info :
  filled e0 A0 m key nbytes flags exptime p it A e -> info.(ii_datatype) = PROTOCOL_BINARY_DATATYPE_JSON ->
  runs (set_item_info p info) e (fun _ e' => filled e0 A0 m key nbytes flags exptime p
    (set_it_datatype PROTOCOL_BINARY_DATATYPE_JSON it) A e').
Proof.
  intros Hf Hi. pose proof (fi_held _ _ _ _ _ _ _ _ _ _ _ Hf) as (HA & Hp & _). unfold set_item_info.
  destruct (Z.eqb_spec p NULL) as [->|Hn].
  { destruct (fi_rep _ _ _ _ _ _ _ _ _ _ _ Hf) as (D & U & L & HW & _). by destruct (wf_nonnull _ _ _ _ _ _ _ HW HA). }
  run. eapply runs_store; [exact Hp|]. run. rewrite Hi. by eapply filled_store.
Qed.

Lemma write_filled e0 A0 m key nbytes flags exptime p it A e value :
  filled e0 A0 m key nbytes flags exptime p it A e -> Z.of_nat (length value) = nbytes ->
  runs (if bool_decide (value = []) then mret tt else write_data p 0 value) e (fun _ e' => exists it',
    filled e0 A0 m key nbytes flags exptime p it' A e' /\ item_get_data it' nbytes = value).
Proof.
  intros Hf Hn. pose proof Hf as [F1 F2 F3 F4 F5 F6 F7 F8]. destruct (bool_decide_reflect (value = [])) as [->|_].
  { run. exists it. split; [done|]. subst nbytes. done. }
  pose proof F1 as (D & U & L & HW & _). destruct (held_unlinked _ _ _ _ _ _ _ HW F2) as [_ Hok].
  pose proof (io_nkey _ _ _ _ _ _ _ Hok) as Hnk. pose proof (io_fit _ _ _ _ _ _ _ Hok) as Hfit.
  destruct (with_data_facts it value) as (Hkd & Hdd & Hbd); [lia|lia|].
  eapply runs_mono; [apply (write_data_abs e A m p it value); [done|done|lia]|]. intros [] e' (G1 & G2 & G3).
  exists (with_data it value). split; [|by rewrite <- Hn].
  constructor; [done|done|by apply (since_trans e0 A0 [p] e A [] _ A)|congruence|done..].
Qed.

(** The count of the linked item of the key is not exhausted. *)
Lemma filled_refs e0 A0 m key nbytes flags exptime p it A e :
  filled e0 A0 m key nbytes flags exptime p it A e -> refs_ok e0 A0 -> key_ref_ok e A key.
Proof.
  intros [_ (_ & Hp & Hl) [_ Hs] _ _ _ _ _] Hr q x Hq Hx Hf _.
  assert (Hb0 : refs_at e0 A0 (fun _ => Z.to_nat 65534)) by (intros q0 x0 Hq0 Hx0; specialize (Hr q0 x0 Hq0 Hx0); lia).
  specialize (Hs _ Hb0 q x Hq Hx). cbn [more foldr] in Hs. unfold bump in Hs. destruct (decide (q = p)) as [->|]; [|lia]. congruence.
Qed.

(** The flags of the item are what the client has sent. *)
Lemma flags_value flags : length flags = 4%nat -> bytes_ok flags -> u32 (be_val (reverse flags)) = be_val (reverse flags) /\
  le_bytes 4 (be_val (reverse flags)) = flags.
Proof.
  intros Hl Hb. assert (Hr : length (reverse flags) = 4%nat) by (by rewrite length_reverse).
  assert (Hbr : bytes_ok (reverse flags)) by (by apply Forall_reverse). split.
  - apply u32_small. pose proof (be_val_bound _ Hbr) as Hv. rewrite Hr in Hv. exact Hv.
  - unfold le_bytes. rewrite <- Hr at 1. rewrite be_bytes_val by done. apply reverse_involutive.
Qed.

(** The item is stored. *)
Lemma store_filled e0 A0 m key nbytes flags exptime p it A e vb :
  filled e0 A0 m key nbytes flags exptime p it A e -> refs_ok e0 A0 -> active vb e -> Z.of_nat (size m) < 2 ^ 30 ->
  nbytes < 1024 * 1024 -> stays e it ->
  runs (r ← default_store p 0 OPERATION_SET vb; default_item_release p;; mret r) e (fun r e' =>
    r = (ENGINE_SUCCESS, next_cas e) /\ active vb e' /\ exists A' m', cache_rep e' A' m' /\
    (spec_get (oldest e') e'.(e_now) key m').1 = Some (v_stored e.(e_now) (next_cas e) (item_value it))).
Proof.
  intros Hf Hr Ha Hsz Hn Hst. pose proof (filled_refs _ _ _ _ _ _ _ _ _ _ _ Hf Hr) as Hkr. pose proof Hf as [F1 F2 F3 F4 F5 F6 F7 F8].
  unfold default_store, VBUCKET_GUARD. run. eapply runs_eq; [exact Ha|]. cbn [negb].
  eapply runs_mono; [apply (do_store_plain e A m p it OPERATION_SET 0); try done; [by rewrite F5|by rewrite F4]|].
  intros [c r] e1 (H1 & H2 & A1 & l & (D & U & L & HW & Habs) & HpA & Hs1 & _). cbn [fst snd] in H1, H2.
  pose proof (spec_set_ok (oldest e) e.(e_now) (next_cas e) (item_get_key it) (item_value it) m) as Hok.
  rewrite Hok in H1, H2, Hs1. rewrite decide_True in H2 by done. subst c r.
  unfold after_store in Hs1. rewrite decide_True in Hs1 by done.
  destruct (wf_get _ _ _ _ _ _ _ HW HpA) as (x & Hx & _). unfold default_item_release, item_release. run.
  eapply do_item_release_abs; [exact HW|exact Habs|exact HpA|exact Hx|].
  intros e2 A2 U2 HW2 Habs2 Hf2 _ _ _ _ _. run. split; [done|].
  pose proof (fixed_trans _ _ _ (since_fixed _ _ _ _ _ Hs1) Hf2) as Hfx.
  destruct (fixed_eq _ _ Hfx) as (N1 & N2 & _ & N4). cbn in N1, N4. destruct Hfx as (Hrest & _).
  split; [eapply active_same; [exact Ha|exact N4|unfold rest in Hrest; by injection Hrest]|].
  exists A2, (spec_store OPERATION_SET (oldest e) e.(e_now) (next_cas e) (item_get_key it) (item_value it) m).2.
  split; [by exists D, U2, L|]. rewrite N1, N2. change (oldest (bump_cas e)) with (oldest e). rewrite <- F4.
  by apply stored_found.
Qed.

Lemma info_run p it e n : 1 <= n -> e.(e_heap) !! p = Some it ->
  runs (get_item_info p n) e (fun r e' => e' = e /\ r = Some (mk_info (item_get_cas it) it.(it_exptime) it.(it_nbytes) it.(it_flags)
                it.(it_slabs_clsid) it.(it_nkey) 1 (item_get_key it) (item_get_data it it.(it_nbytes)) it.(it_datatype))).
Proof.
  intros Hn Hp. unfold get_item_info. rewrite (proj2 (Z.ltb_ge _ _)) by lia. run. eapply runs_load; [exact Hp|]. by run.
Qed.

(** What the client is told of a value that is stored. *)
Definition set_answer (h : request_header) (cas : Z) : list Z :=
  response h PROTOCOL_BINARY_RESPONSE_SUCCESS PROTOCOL_BINARY_RAW_BYTES cas [] [] [].

Section request.
Context (e0 : engine) (A0 : gset Z) (m : cache) (h : request_header) (key value flags : list Z) (exptime : Z).
Context (Hrefs : refs_ok e0 A0) (Hsize : Z.of_nat (size m) < 2 ^ 30).
Context (Hact : active h.(rh_vbucket) e0) (Hflags : length flags = 4%nat) (Hfb : bytes_ok flags).
Context (Hvb : bytes_ok value) (Hvl : Z.of_nat (length value) < 1024 * 1024).
Context (Hexp : exptime = 0 \/ e0.(e_now) < exptime) (Hold : oldest e0 = 0 \/ oldest e0 <> e0.(e_now)).
Context (Hnow : ITEM_UPDATE_INTERVAL <= e0.(e_now) < 2 ^ 32).

Abbreviation full := (filled e0 A0 m key (Z.of_nat (length value)) (be_val (reverse flags)) exptime).

Lemma finish_run p it A (s : srv) :
  full p it A s.(sv_engine) -> item_get_data it (Z.of_nat (length value)) = value -> s.(sv_datatype) = false ->
  runs (finish_update h OPERATION_SET false p) s (fun a s' => exists cas e', a = mk_answer (set_answer h cas) NULL Continue /\
    s' = with_engine e' s /\ cached h.(rh_vbucket) key value flags cas e').
Proof.
  intros Hf Hd Hdt. pose proof Hf as [F1 (F2 & Hp & _) F3 F4 F5 F6 F7 F8]. unfold finish_update. run. apply runs_call.
  eapply runs_mono; [by apply (info_run p it); [done|]|]. intros r e [-> ->].
  replace (with_engine (sv_engine s) s) with s by (by destruct s). cbn iota. run. unfold id. rewrite Hdt.
  destruct (check_run value Hvb) as (b & Hb & _); [lia|]. cbn [ii_value]. rewrite F5, Hd.
  eapply (runs_mono _ _ (fun _ s' => exists it2, s'.(sv_datatype) = s.(sv_datatype) /\ s' = with_engine s'.(sv_engine) s /\
    full p it2 A s'.(sv_engine) /\ item_get_data it2 (Z.of_nat (length value)) = value)).
  { run; [exact Hb|]. destruct b.
    - run. apply runs_call. eapply runs_mono; [by apply (set_info_filled _ _ _ _ _ _ _ _ _ _ _ _ Hf)|].
      intros ? e Hf2. run. eexists. split; [done|]. split; [done|]. split; [exact Hf2|exact Hd].
    - run. exists it. by destruct s. }
  intros _ s1 (it2 & D1 & Hs1 & Hf2 & Hd2). pose proof Hf2 as [G1 G2 G3 G4 G5 G6 G7 G8].
  destruct (fixed_eq _ _ (since_fixed _ _ _ _ _ G3)) as (N1 & N2 & _ & _).
  destruct (store_filled _ _ _ _ _ _ _ _ _ _ _ h.(rh_vbucket) Hf2 Hrefs) as (r & e2 & Hrun & -> & Ha2 & A2 & m2 & Hrep2 & Hfound); [..|lia| |].
  { eapply fixed_active; [exact Hact|apply G3]. }
  { done. }
  { split; [by rewrite G7, N1|]. by rewrite N1, N2. }
  apply run_bind_Some in Hrun as (r & e1 & Hst & Hrun). apply run_bind_Some in Hrun as ([] & e3 & Hrel & Hrun). injection Hrun as -> ->.
  run. apply runs_call. eapply runs_eq; [exact Hst|]. run. cbn [fst snd]. unfold succeed, done. run. apply runs_call.
  eapply runs_eq; [exact Hrel|]. run. eexists (next_cas s1.(sv_engine)), e2. split; [done|]. split; [by rewrite Hs1|].
  split; [done|]. exists A2, m2, (v_stored (e_now (sv_engine s1)) (next_cas (sv_engine s1)) (item_value it2)).
  split; [done|]. split; [done|]. cbn. rewrite G5. by repeat split.
Qed.
End request.

(** The conditions under which a value is stored and found in the same second. *)
Record storable (e : engine) (A : gset Z) (m : cache) (vb : Z) (key value flags : list Z) (expiry : Z) : Prop := {
  so_rep : cache_rep e A m;
  so_refs : refs_ok e A;
  so_size : Z.of_nat (size m) < 2 ^ 30;
  so_active : active vb e;
  so_key : 0 < Z.of_nat (length key) <= KEY_MAX_LENGTH;
  so_flags : length flags = 4%nat;
  so_bytes : bytes_ok flags /\ bytes_ok value;
  so_value : Z.of_nat (length value) < 1024 * 1024;
  so_expiry : realtime e.(e_now) expiry = 0 \/ e.(e_now) < realtime e.(e_now) expiry;
  so_oldest : oldest e = 0 \/ oldest e <> e.(e_now);
  so_now : ITEM_UPDATE_INTERVAL <= e.(e_now) < 2 ^ 32
}.

Lemma serve_update_run A m h key value flags expiry it e1 (s : srv) k rest (Q : list Z -> srv -> Prop) :
  storable s.(sv_engine) A m h.(rh_vbucket) key value flags expiry -> s.(sv_datatype) = false ->
  h.(rh_datatype) = PROTOCOL_BINARY_RAW_BYTES ->
  default_item_allocate key (Z.of_nat (length value)) (be_val (reverse flags)) expiry PROTOCOL_BINARY_RAW_BYTES s.(sv_engine)
    = Some ((ENGINE_SUCCESS, it), e1) ->
  (forall cas e', cached h.(rh_vbucket) key value flags cas e' ->
     runs (k rest) (with_engine e' s) (fun out s' => Q (set_answer h cas ++ out) s')) ->
  runs (serve_update h OPERATION_SET false key (Z.of_nat (length value)) (be_val (reverse flags)) expiry
          (Z.of_nat (length value)) k (value ++ rest)) s Q.
Proof.
  intros [Hrep Hrefs Hsz Hact Hkey Hfl [Hfb Hvb] Hval Hexp Hold Hnow] Hdt Hraw Hall HQ.
  destruct (flags_value flags Hfl Hfb) as [Hfv _]. unfold KEY_MAX_LENGTH in Hkey.
  destruct (runs_Some _ _ _ _ _ (allocate_run _ _ _ key (Z.of_nat (length value)) (be_val (reverse flags)) expiry _ Hrep ltac:(lia) ltac:(lia)) Hall eq_refl) as (Hn & A' & m' & Hal).
  assert (Hsz' : Z.of_nat (size m') < 2 ^ 30) by (destruct Hal as (Hsub & _); apply map_subseteq_size in Hsub; lia).
  destruct (filled_start _ _ _ _ _ _ _ _ _ _ _ Hal Hn) as (it1 & Hf1). rewrite Hfv in Hf1. cbn [fst snd] in *.
  unfold serve_update, start_update. run. apply runs_call. rewrite Hraw. eapply runs_eq; [exact Hall|]. run. cbn [fst snd]. run. apply runs_call.
  destruct (fi_held _ _ _ _ _ _ _ _ _ _ _ Hf1) as (_ & Hp1 & _).
  eapply runs_mono; [by apply (info_run it it1)|]. intros r e [-> ->]. cbn iota. run. apply runs_call.
  eapply runs_mono; [by apply (set_cas_filled _ _ _ _ _ _ _ _ _ _ _ _ Hf1)|]. intros [] e (it2 & Hf2). run.
  unfold serve_value. cbn zeta. rewrite u32_small, Nat2Z.id by lia. rewrite take_app_length, drop_app_length. apply runs_bind.
  eapply runs_eq; [apply releasable_run; exact (filled_releasable _ _ _ _ _ _ _ _ _ _ _ Hf2)|]. run.
  destruct (write_filled _ _ _ _ _ _ _ _ _ _ _ value Hf2 eq_refl) as ([] & e3 & Hw & it3 & Hf3 & Hd3).
  eapply (runs_mono _ _ (fun _ s' => s' = with_engine e3 s)).
  { destruct (bool_decide (value = [])) eqn:Ev.
    - rewrite bool_decide_eq_true in Ev. subst value. injection Hw as <-. by run.
    - apply runs_call. by eapply runs_eq. }
  intros _ s' ->. rewrite (proj2 (Z.ltb_ge _ _)) by (rewrite length_app; lia). run.
  eapply runs_mono; [eapply (finish_run (sv_engine s) A m' h key value flags (realtime (e_now (sv_engine s)) expiry)); done|].
  intros a s' (cas & e4 & -> & -> & Hc). unfold deliver, release_kept. cbn [an_item an_next an_out Z.eqb NULL]. run.
  eapply runs_mono; [exact (HQ cas e4 Hc)|]. intros out s' HQ'. by run.
Qed.

(** ** The lookup *)

Definition get_answer (h : request_header) (cas : Z) (flags value : list Z) : list Z :=
  response h PROTOCOL_BINARY_RESPONSE_SUCCESS PROTOCOL_BINARY_RAW_BYTES cas flags [] value.

(** The item of a cached key. *)
Record looked_up (key value flags : list Z) (cas : Z) (e : engine) (p : Z) (it : hash_item) (e' : engine) : Prop := {
  lu_rep : exists A m, cache_rep e' A m /\ p ∈ A;
  lu_item : e'.(e_heap) !! p = Some it;
  lu_data : item_get_data it it.(it_nbytes) = value;
  lu_size : it.(it_nbytes) = Z.of_nat (length value);
  lu_flags : it.(it_flags) = be_val (reverse flags);
  lu_cas : item_get_cas it = cas;
  lu_datatype : is_compressed it.(it_datatype) = false
}.

Lemma lookup_run vb key value flags cas e : cached vb key value flags cas e ->
  runs (default_get key vb NULL) e (fun r e' => exists it, r.1 = ENGINE_SUCCESS /\ r.2 <> NULL /\ looked_up key value flags cas e r.2 it e').
Proof.
  intros (Ha & A & m & v & (D & U & L & HW & Habs) & Hv & V1 & V2 & V3 & V4). unfold default_get, VBUCKET_GUARD. run.
  eapply runs_eq; [exact Ha|]. cbn [negb]. run.
  eapply do_item_get_abs; [exact HW|exact Habs|intros e' A' D' U' L' _ _ Hnone; by rewrite Hnone in Hv|].
  intros p it0 it e' U' L' HW' Habs' Hsome _ _ HpD _ Hp _ _ _ _. rewrite Hsome in Hv. apply (inj Some) in Hv. subst v.
  pose proof (wf_sub _ _ _ _ _ _ HW' _ HpD) as HpA. pose proof (wf_nonnull _ _ _ _ _ _ _ HW' HpA) as Hn.
  destruct (wf_get _ _ _ _ _ _ _ HW' HpA) as (it1 & Hp1 & Hok). replace it1 with it in Hok by congruence.
  rewrite (proj2 (Z.eqb_neq p NULL) Hn). cbn [negb]. run. exists it. split; [done|]. split; [done|].
  pose proof (io_nkey _ _ _ _ _ _ _ Hok) as Hnk. pose proof (io_fit _ _ _ _ _ _ _ Hok) as Hfit. pose proof (io_nbytes _ _ _ _ _ _ _ Hok) as Hnb.
  constructor; [exists A; eexists; split; [by exists D, U', L'|done]|exact Hp|exact V1| |exact V2|exact V3|].
  - rewrite <- V1. cbn. unfold item_get_data. rewrite length_take, length_drop. lia.
  - unfold is_compressed. cbn in V4. rewrite V4. done.
Qed.

Lemma wire_item_run p it e key value flags cas e0 h (s : srv) : s.(sv_engine) = e -> s.(sv_datatype) = false ->
  looked_up key value flags cas e0 p it e -> length flags = 4%nat -> bytes_ok flags -> Z.of_nat (length value) < 1024 * 1024 ->
  runs (info ← call (get_item_info p IOV_MAX);
        match info with
        | None => call (default_item_release p);; fail_with h PROTOCOL_BINARY_RESPONSE_EINTERNAL 0
        | Some info => serve_item h false p info
        end) s (fun a s' => a = mk_answer (get_answer h cas flags value) p Continue /\ s' = s).
Proof.
  intros <- Hdt [_ L2 L3 L4 L5 L6 L7] Hfl Hfb Hv. run. apply runs_call.
  eapply runs_mono; [by apply (info_run p it)|]. intros r e [-> ->]. cbn iota.
  replace (with_engine (sv_engine s) s) with s by (by destruct s).
  unfold serve_item. run. unfold id. rewrite Hdt. cbn [negb andb ii_datatype ii_nbytes ii_nvalue ii_flags ii_cas]. rewrite L7.
  rewrite (proj2 (Z.ltb_ge reply_limit _)) by (unfold reply_limit; lia). cbn [Z.ltb Z.compare]. cbn iota.
  run; [cbn; rewrite L2; reflexivity| |].
  - instantiate (1 := value). rewrite slice_Some by (try lia; rewrite length_drop; rewrite <- L3 in L4; unfold item_get_data in L4;
      rewrite length_take, length_drop in L4; lia). rewrite drop_0. f_equal. exact L3.
  - rewrite L5, L6. destruct (flags_value flags Hfl Hfb) as [_ ->]. done.
Qed.

Lemma runs_ext {St A} (m m' : M St A) s (Q : A -> St -> Prop) : m s = m' s -> runs m' s Q -> runs m s Q.
Proof. intros He (a & s' & Hm & HQ). exists a, s'. by rewrite He. Qed.

(** ** The requests are served *)

Context (ctr : Z) (Hsasl : require_sasl = false).

(** A request starts with its header. *)
Lemma serve_request h body (s : srv) (Q : list Z -> srv -> Prop) :
  req_ok h -> h.(rh_magic) = PROTOCOL_BINARY_REQ ->
  runs (serve_header false false ctr h (header_bytes h) (serve false false ctr) body) s Q ->
  runs (serve false false ctr (header_bytes h ++ body)) s Q.
Proof.
  intros Hh Hm HQ. pose proof (header_bytes_length h Hh) as Hl. eapply runs_ext; [apply serve_unfold|].
  rewrite (proj2 (Nat.ltb_ge _ _)) by (rewrite length_app; lia). rewrite take_app_length' by lia. rewrite drop_app_length' by lia.
  apply runs_bind. eapply runs_of_option; [|exact HQ]. apply parse_header_bytes; [by rewrite Hm|done].
Qed.

Lemma get_header_ok vb opaque key : 0 <= vb < 2 ^ 16 -> length opaque = 4%nat -> Z.of_nat (length key) <= KEY_MAX_LENGTH ->
  req_ok (get_header vb opaque key).
Proof. intros Hv Ho Hk. unfold KEY_MAX_LENGTH in Hk. constructor; cbn; try done; lia. Qed.

Lemma wire_get_run vb opaque key value flags cas (s : srv) :
  cached vb key value flags cas s.(sv_engine) -> s.(sv_datatype) = false -> 0 <= vb < 2 ^ 16 -> length opaque = 4%nat ->
  0 < Z.of_nat (length key) <= KEY_MAX_LENGTH -> length flags = 4%nat -> bytes_ok flags -> Z.of_nat (length value) < 1024 * 1024 ->
  runs (serve false false ctr (get_request vb opaque key)) s (fun out _ => out = get_answer (get_header vb opaque key) cas flags value).
Proof.
  intros Hc Hdt Hvb Hop Hkey Hfl Hfb Hv. pose proof (get_header_ok vb opaque key Hvb Hop ltac:(lia)) as Hh.
  apply serve_request; [done|done|]. set (h := get_header vb opaque key) in *. unfold serve_header. run. unfold id.
  replace (plan_of false (sv_datatype s) h) with ReadPacket.
  2:{ unfold plan_of. rewrite Hsasl. change (rh_keylen h) with (Z.of_nat (length key)). rewrite (proj2 (Z.ltb_ge KEY_MAX_LENGTH (Z.of_nat (length key)))) by lia. done. }
  change (rh_bodylen h) with (Z.of_nat (length key)). rewrite (proj2 (Z.ltb_ge packet_limit _)) by (unfold packet_limit, KEY_MAX_LENGTH in *; lia).
  unfold chunk. rewrite Z.ltb_irrefl.
  rewrite Nat2Z.id, take_ge, drop_ge by lia. run.
  assert (Hval : valid h (header_bytes h ++ key) = true).
  { unfold valid. change (validators (rh_opcode h)) with (Some get_validator). unfold get_validator.
    rewrite parse_request_app by (by rewrite header_bytes_length).
    rewrite parse_header_bytes by done. cbn [mbind option_bind default]. unfold request_of_raw_bytes.
    change (rh_keylen h) with (Z.of_nat (length key)). change (rh_bodylen h) with (Z.of_nat (length key)).
    rewrite (Z.eqb_refl (Z.of_nat (length key))), (proj2 (Z.eqb_neq (Z.of_nat (length key)) 0)) by lia. done. }
  unfold serve_packet. cbv zeta. rewrite Hval. change (runs (serve_get h key) s (fun a s' => runs (deliver a (serve false false ctr) []) s'
    (fun out _ => out = get_answer h cas flags value))).
  unfold serve_get, rq_key. change (rh_keylen h) with (Z.of_nat (length key)). rewrite Nat2Z.id, Nat.sub_diag, drop_0. cbv zeta. run.
  apply runs_call. eapply runs_mono; [by apply lookup_run|]. intros [c p] e' (it & Hr1 & Hr2 & Hlu). cbn [fst snd] in *. subst c. cbn iota.
  eapply runs_mono; [by eapply (wire_item_run p it e' key value flags cas)|]. intros a s' [-> ->].
  unfold deliver, release_kept. cbn [an_item an_next an_out]. rewrite (proj2 (Z.eqb_neq _ _) Hr2). run. apply runs_call.
  destruct (lu_rep _ _ _ _ _ _ _ _ Hlu) as (A & m & (D & U & L & HW & Habs) & HpA).
  eapply do_item_release_abs; [exact HW|exact Habs|exact HpA|apply Hlu|]. intros e2 A2 U2 _ _ _ _ _ _ _ _.
  run. eapply runs_eq; [reflexivity|]. run. by rewrite app_nil_r.
Qed.

Lemma set_header_ok vb opaque key value : 0 <= vb < 2 ^ 16 -> length opaque = 4%nat ->
  Z.of_nat (length key) <= KEY_MAX_LENGTH -> Z.of_nat (length value) < 1024 * 1024 -> req_ok (set_header vb opaque key value).
Proof. intros Hv Ho Hk Hn. unfold KEY_MAX_LENGTH in Hk. constructor; cbn; try done; lia. Qed.

Lemma wire_set_run A m vb opaque flags expiry key value it e1 rest (s : srv) (Q : list Z -> srv -> Prop) :
  storable s.(sv_engine) A m vb key value flags (be_val expiry) -> s.(sv_datatype) = false ->
  0 <= vb < 2 ^ 16 -> length opaque = 4%nat -> length expiry = 4%nat ->
  default_item_allocate key (Z.of_nat (length value)) (be_val (reverse flags)) (be_val expiry) PROTOCOL_BINARY_RAW_BYTES s.(sv_engine)
    = Some ((ENGINE_SUCCESS, it), e1) ->
  (forall cas e', cached vb key value flags cas e' -> runs (serve false false ctr rest) (with_engine e' s)
     (fun out s' => Q (set_answer (set_header vb opaque key value) cas ++ out) s')) ->
  runs (serve false false ctr (set_request vb opaque flags expiry key value ++ rest)) s Q.
Proof.
  intros Hso Hdt Hvb Hop Hex Hall HQ. pose proof Hso as [_ _ _ _ Hkey Hfl _ Hval _ _ _].
  pose proof (set_header_ok vb opaque key value Hvb Hop ltac:(lia) Hval) as Hh.
  unfold set_request. rewrite <- app_assoc. apply serve_request; [done|done|]. set (h := set_header vb opaque key value) in *.
  unfold KEY_MAX_LENGTH in Hkey. unfold serve_header. run. unfold id.
  change (rh_bodylen h) with (8 + Z.of_nat (length key) + Z.of_nat (length value)) in *.
  replace (plan_of false (sv_datatype s) h) with (ReadUpdate PROTOCOL_BINARY_CMD_SET false).
  2:{ unfold plan_of. rewrite Hsasl. change (rh_keylen h) with (Z.of_nat (length key)).
      rewrite (proj2 (Z.ltb_ge KEY_MAX_LENGTH (Z.of_nat (length key)))) by (unfold KEY_MAX_LENGTH; lia).
      rewrite (proj2 (Z.eqb_neq (Z.of_nat (length key)) 0)) by lia.
      change (rh_bodylen h) with (8 + Z.of_nat (length key) + Z.of_nat (length value)).
      rewrite (proj2 (Z.leb_le (Z.of_nat (length key) + 8) (8 + Z.of_nat (length key) + Z.of_nat (length value)))) by lia. reflexivity. }
  unfold chunk. change (rh_keylen h) with (Z.of_nat (length key)).
  rewrite (proj2 (Z.ltb_ge _ _)) by (rewrite !length_app; lia).
  replace ((flags ++ expiry ++ key ++ value) ++ rest) with ((flags ++ expiry ++ key) ++ value ++ rest) by (by rewrite <- !app_assoc).
  assert (Hlen : length (flags ++ expiry ++ key) = Z.to_nat (Z.of_nat (length key) + 8)) by (rewrite !length_app; lia).
  rewrite <- Hlen, take_app_length, drop_app_length. unfold serve_set_header.
  change (in_list [PROTOCOL_BINARY_CMD_APPEND; PROTOCOL_BINARY_CMD_PREPEND] PROTOCOL_BINARY_CMD_SET) with false. cbn iota. cbv zeta.
  change (update_op h PROTOCOL_BINARY_CMD_SET) with OPERATION_SET.
  change (rh_bodylen h) with (8 + Z.of_nat (length key) + Z.of_nat (length value)). change (rh_keylen h) with (Z.of_nat (length key)).
  change (rh_extlen h) with 8.
  replace (8 + Z.of_nat (length key) + Z.of_nat (length value) - (Z.of_nat (length key) + 8)) with (Z.of_nat (length value)) by lia.
  rewrite u32_small by lia. 
  replace (drop 8 (flags ++ expiry ++ key)) with key
    by (rewrite app_assoc; symmetry; apply drop_app_length'; rewrite length_app; lia).
  rewrite (take_app_length' flags) by done. rewrite (drop_app_length' flags) by done. rewrite (take_app_length' expiry) by done.
  eapply serve_update_run; [exact Hso|done|done|exact Hall|exact HQ].
Qed.

(** C6: A client that sets a key over a connection and then gets it receives the value and
    the flags that it has sent, with the CAS value that the first response told it,
    when the engine has memory for the item, the network does what it is asked for, and
    no realloc of up to 64 MB and no event_add fails. *)
Theorem wire_set_get {SY : Sys} {SN : Snappy} {SOK : Provided} e A m vb opaque1 opaque2 flags expiry key value it e1 verbose session :
  storable e A m vb key value flags (be_val expiry) -> 0 <= vb < 2 ^ 16 ->
  length opaque1 = 4%nat -> length opaque2 = 4%nat -> length expiry = 4%nat ->
  bytes_ok (set_request vb opaque1 flags expiry key value ++ get_request vb opaque2 key) ->
  default_item_allocate key (Z.of_nat (length value)) (be_val (reverse flags)) (be_val expiry) PROTOCOL_BINARY_RAW_BYTES e
    = Some ((ENGINE_SUCCESS, it), e1) -> prompt ->
  exists n cas, runs (ticks n) (accepted e (set_request vb opaque1 flags expiry key value ++ get_request vb opaque2 key) verbose session ctr)
    (fun _ w => w.(w_out) = set_answer (set_header vb opaque1 key value) cas
                            ++ get_answer (get_header vb opaque2 key) cas flags value).
Proof.
  intros Hso Hvb Ho1 Ho2 Hex Hb Hall Hp. pose proof Hso as [_ _ _ _ Hkey Hfl [Hfb _] Hval _ _ _].
  assert (Hrun : runs (serve false false ctr (set_request vb opaque1 flags expiry key value ++ get_request vb opaque2 key))
    (mk_server e false verbose session) (fun out _ => exists cas, out = set_answer (set_header vb opaque1 key value) cas
       ++ get_answer (get_header vb opaque2 key) cas flags value)).
  { eapply wire_set_run; [exact Hso|done..|exact Hall|]. intros cas e' Hc.
    eapply runs_mono; [by apply (wire_get_run vb opaque2 key value flags cas)|]. intros out _ ->. by exists cas. }
  destruct Hrun as (out & fin & Hs & cas & ->).
  destruct (served_all (EOK := default_engine_ok clock) _ _ _ _ _ _ _ Hb Hp Hs) as (n & _ & Hn).
  exists n, cas. eapply runs_mono; [exact Hn|]. by intros _ ? [-> _].
Qed.
End wire.


(** ** [ab] is set to [xyz] and read *)

#[local] Existing Instance demo_env.
#[local] Existing Instance demo_env_ok.
#[local] Existing Instance demo_sys.
#[local] Existing Instance demo_settings.
#[local] Existing Instance demo_snappy.
#[local] Existing Instance demo_provided.

Definition demo_pair : list Z :=
  set_request 0 [1; 2; 3; 4] [0; 0; 0; 9] [0; 0; 0; 0] [97; 98] [120; 121; 122] ++ get_request 0 [5; 6; 7; 8] [97; 98].

Lemma demo_cache_rep : cache_rep demo_cache ∅ ∅.
Proof.
  apply wf_empty; try done.
  - by apply assoc_rep_empty.
  - apply (small_slab_inv 0).
Qed.

Lemma demo_storable : storable demo_cache ∅ ∅ 0 [97; 98] [120; 121; 122] [0; 0; 0; 9] 0.
Proof.
  constructor; [exact demo_cache_rep|by intros q it Hq%elem_of_empty|done|by vm_compute|done|done|split; by repeat constructor|done|
    by left|by left|done].
Qed.

Lemma success_eq (x : option ((ENGINE_ERROR_CODE * Z) * engine)) a e :
  match x with Some ((c, _), _) => bool_decide (c = ENGINE_SUCCESS) | None => false end = true ->
  x = Some ((ENGINE_SUCCESS, (result_fst x a).2), result_snd x e).
Proof. destruct x as [[[c p] e']|]; [|done]. by intros ->%bool_decide_eq_true. Qed.

Lemma wire_set_get_witness : exists n cas,
  runs (ticks (EV := default_engine_v1 0) n) (accepted demo_cache demo_pair 0 0 0) (fun _ w =>
    w.(w_out) = set_answer (set_header 0 [1; 2; 3; 4] [97; 98] [120; 121; 122]) cas
                ++ get_answer (get_header 0 [5; 6; 7; 8] [97; 98]) cas [0; 0; 0; 9] [120; 121; 122]).
Proof.
  eapply (wire_set_get (ST := demo_settings) 0 0 eq_refl demo_cache ∅ ∅ 0 [1; 2; 3; 4] [5; 6; 7; 8] [0; 0; 0; 9] [0; 0; 0; 0] [97; 98] [120; 121; 122]
    _ _ 0 0);
    [exact demo_storable|done|done|done|done| | |exact demo_prompt].
  - assert (Hb : bool_decide (Forall (fun b => 0 <= b /\ b < 256) demo_pair) = true) by (vm_compute; reflexivity).
    by apply bool_decide_eq_true in Hb.
  - apply (success_eq _ (ENGINE_FAILED, 0) demo_cache). vm_compute. reflexivity.
Defined.
