(* ===== verification/Faults.v ===== *)
(** * Requests that break a connection

    Two requests whose key is longer than their body: the tests of the daemon let them
    through, and what follows is not what a client may expect. *)
From Stdlib Require Import ZArith Lia.
From stdpp Require Import strings gmap prelude.
From S2P Require Import Prelude Util EngineState DefaultEngine JsonChecker Snappy Protocol Conn Daemon Reply.

#[local] Set Warnings "-clear-no-such-hyp".

(** A negative length as an unsigned number. *)
Lemma wrap_neg n z : 0 <= n -> - 2 ^ n <= z < 0 -> wrap n z = 2 ^ n + z.
Proof.
  intros Hn Hz. unfold wrap. rewrite <- (Z.mod_add _ 1) by lia. rewrite Z.mod_small by lia. lia.
Qed.

Lemma swrap_neg z : - 2 ^ 31 <= z < 0 -> swrap 32 z = z.
Proof.
  intros Hz. unfold swrap. change (z mod 2 ^ 32) with (wrap 32 z). rewrite wrap_neg by lia. cbv zeta. change (32 - 1) with 31. rewrite (proj2 (Z.ltb_ge _ _)) by lia. lia.
Qed.

Section faults.
Context {S : Type} {EV : EngineV1 S} {SY : Sys} {ST : Settings} {SN : Snappy}.
Implicit Types w : world S.

(** ** HELLO *)

(** The loop over the features leaves the buffer when there are not as many. *)
Lemma hello_features_short curr total out w :
  Z.of_nat (length curr) < 2 * total -> hello_features curr total out w = None.
Proof.
  remember (length curr) as n eqn:Hn. revert curr total out w Hn.
  induction n as [n IH] using lt_wf_ind. intros curr total out w -> Ht.
  assert (Hpos : (total <=? 0) = false) by (apply Z.leb_gt; lia).
  destruct curr as [|a [|b curr]]; cbn [hello_features]; rewrite Hpos; [done..|].
  cbn [length] in Ht. unfold mbind, M_bind, getc, gets. destruct (_ && _ && _); [|eapply IH; simpl; [|done|]; simpl; lia].
  unfold updc, modify. eapply IH; [|done|]; simpl; lia.
Qed.

(** C37: A HELLO request whose key is longer than its body, by an even number of bytes,
    passes the validator: the length of the features wraps around. The executor then
    reads features beyond the end of the read buffer. *)
Theorem hello_short_body w packet h :
  0 <= packet -> parse_request (drop (Z.to_nat packet) w.(w_conn).(cn_rbuf)) = Some h ->
  h.(rh_magic) = PROTOCOL_BINARY_REQ -> h.(rh_extlen) = 0 -> h.(rh_datatype) = PROTOCOL_BINARY_RAW_BYTES ->
  0 <= h.(rh_bodylen) < h.(rh_keylen) -> h.(rh_keylen) < 2 ^ 16 -> Z.Even (h.(rh_keylen) - h.(rh_bodylen)) ->
  Z.of_nat (length w.(w_conn).(cn_rbuf)) <= 2 ^ 31 ->
  hello_validator (drop (Z.to_nat packet) w.(w_conn).(cn_rbuf)) = Some true /\
  process_hello_packet_executor packet w = None.
Proof.
  intros Hp Hh Hm He Hd Hb Hk [q Hq] Hl. assert (Hw : u32 (h.(rh_bodylen) - h.(rh_keylen)) = 2 ^ 32 + (h.(rh_bodylen) - h.(rh_keylen)))
    by (apply wrap_neg; lia). split.
  - unfold hello_validator. rewrite Hh. cbn [mbind option_bind]. rewrite Hw. unfold request_of_raw_bytes. rewrite Hm, He, Hd. cbn [Z.eqb andb].
    f_equal. apply Z.eqb_eq. replace (2 ^ 32 + (rh_bodylen h - rh_keylen h)) with ((2 ^ 31 - q) * 2) by lia. apply Z.mod_mul. lia.
  - set (pkt := drop _ _) in *.
    assert (Hf : rq_keylen pkt = Some h.(rh_keylen) /\ rq_bodylen pkt = Some h.(rh_bodylen)).
    { unfold parse_request in Hh. unfold rq_keylen, rq_bodylen.
      destruct (packet_field pkt 0 1), (packet_field pkt 1 1), (packet_field pkt 2 2), (packet_field pkt 4 1), (packet_field pkt 5 1),
        (packet_field pkt 6 2), (packet_field pkt 8 4), (packet_bytes pkt 12 4), (packet_field pkt 16 8); try done.
      injection Hh as <-. done. }
    destruct Hf as [Hkl Hbl]. unfold process_hello_packet_executor, rbuf_from, mbind, M_bind, getc, gets, cassert.
    rewrite (proj2 (Z.leb_le _ _) Hp). cbn. fold pkt. rewrite Hkl, Hbl. cbn. rewrite Hw.
    destruct (slice pkt 24 _); [|done]. cbn. rewrite hello_features_short; [done|].
    assert (length pkt <= length w.(w_conn).(cn_rbuf))%nat by (unfold pkt; rewrite length_drop; lia).
    rewrite length_drop. replace (2 ^ 32 + (rh_bodylen h - rh_keylen h)) with ((2 ^ 31 - q) * 2) by lia. rewrite Z.div_mul by lia. lia.
Qed.

(** ** APPEND *)

(** C36: An APPEND request whose key is longer than its body is not refused: the size of
    the value is a negative number, the engine is asked for almost 2 ^ 64 bytes, and when
    its own sum of the sizes wraps around and it answers with an item, almost 2 ^ 32
    bytes of what the client sends next are taken as the value of the item. *)
Theorem append_short_body w key it e1 info e2 e3 :
  let c := w.(w_conn) in let h := c.(cn_header) in
  0 <= h.(rh_bodylen) < h.(rh_keylen) -> h.(rh_keylen) <= KEY_MAX_LENGTH ->
  c.(cn_cmd) = PROTOCOL_BINARY_CMD_APPEND -> c.(cn_aiostat) = ENGINE_SUCCESS ->
  slice c.(cn_rbuf) (c.(cn_rcurr) - h.(rh_keylen)) h.(rh_keylen) = Some key ->
  v1_allocate key (2 ^ 64 + (h.(rh_bodylen) - h.(rh_keylen))) 0 0 h.(rh_datatype) w.(w_engine) = Some ((ENGINE_SUCCESS, it), e1) ->
  v1_get_item_info it 1 e1 = Some (Some info, e2) -> v1_item_set_cas it h.(rh_cas) e2 = Some (tt, e3) ->
  runs process_bin_append_prepend w (fun _ w' =>
    w'.(w_conn).(cn_state) = F_nread /\ w'.(w_conn).(cn_substate) = bin_read_set_value /\
    w'.(w_conn).(cn_ritem) = A_data it 0 /\
    w'.(w_conn).(cn_rlbytes) = 2 ^ 32 + (h.(rh_bodylen) - h.(rh_keylen))).
Proof.
  cbv zeta. intros Hb Hk Hcmd Hai Hkey Hall Hinfo Hcas. unfold KEY_MAX_LENGTH in Hk.
  unfold process_bin_append_prepend, binary_get_key. run; [exact Hkey|].
  unfold id. rewrite swrap_neg by lia. unfold u64. rewrite wrap_neg by lia.
  unfold allocate_item, take_aiostat. run. rewrite Hai. change (is_success ENGINE_SUCCESS) with true. cbn [negb].
  cbn iota. run. eapply runs_eng; [exact Hall|]. cbn [fst snd]. change (is_success ENGINE_SUCCESS) with true. cbn [negb]. cbn iota.
  run. eapply runs_eng; [exact Hinfo|]. cbn iota. run. unfold start_value. cbn [fst snd].
  rewrite Hcmd. change (PROTOCOL_BINARY_CMD_APPEND =? PROTOCOL_BINARY_CMD_APPEND) with true. cbn iota.
  run. eapply runs_eng; [exact Hcas|]. run; [done|]. proj. unfold u32. rewrite wrap_neg by lia. done.
Qed.
End faults.

(** ** The requests *)

(** An engine that has an item for every request. *)
#[local] Instance open_engine : EngineV1 unit := {|
  v1_allocate _ _ _ _ _ := mret (ENGINE_SUCCESS, 1);
  v1_remove _ cas _ := mret (ENGINE_KEY_ENOENT, cas);
  v1_release _ := mret tt;
  v1_get _ _ := mret (ENGINE_KEY_ENOENT, NULL);
  v1_store _ cas _ _ := mret (ENGINE_SUCCESS, cas);
  v1_arithmetic _ _ _ _ _ _ _ _ _ := mret (ENGINE_KEY_ENOENT, 0, 0);
  v1_flush _ := mret ENGINE_SUCCESS;
  v1_unknown_command := None;
  v1_item_set_cas _ _ := mret tt;
  v1_get_item_info _ _ := mret (Some (mk_info 0 0 0 0 0 0 1 [] [] 0));
  v1_set_item_info _ _ := mret true;
  v1_get_engine_vb_map := None;
  v1_key _ _ := None;
  v1_data _ _ := None;
  v1_write _ _ _ := mret tt
|}.
#[local] Instance still_sys : Sys := {
  sys_recv n := RecvBlock; sys_send n := SendBlock; sys_grow n size := true; event_del n := true; event_add n := true; junk := 0
}.
#[local] Instance plain_settings : Settings := { require_sasl := false; disable_admin := false; datatype := false; server_version := [51] }.

#[local] Instance no_snappy : Snappy := {
  snappy_max_compressed_length n := n; snappy_compress x := None;
  snappy_uncompressed_length x n := None; snappy_uncompress x n := None
}.

(** A request with a key of two bytes and a body of none. *)
Definition short_request (op : Z) : list Z :=
  [PROTOCOL_BINARY_REQ; op; 0; 2; 0; 0; 0; 0; 0; 0; 0; 0; 1; 2; 3; 4; 0; 0; 0; 0; 0; 0; 0; 0].

(** It is in the read buffer, with the [n] bytes that follow its header taken. *)
Definition short_world (op n : Z) : world unit :=
  let b := short_request op ++ replicate 2024 97 in
  let h := mk_req PROTOCOL_BINARY_REQ op 2 0 0 0 0 [1; 2; 3; 4] 0 in
  mk_world (set_cn_cmd op (set_cn_header h (set_cn_rcurr (24 + n) (set_cn_rbuf b conn_new)))) tt [] [] 0 0 0 0.

Lemma hello_short_body_witness :
  hello_validator (short_world PROTOCOL_BINARY_CMD_HELLO 0).(w_conn).(cn_rbuf) = Some true /\
  process_hello_packet_executor 0 (short_world PROTOCOL_BINARY_CMD_HELLO 0) = None.
Proof.
  apply (hello_short_body (short_world PROTOCOL_BINARY_CMD_HELLO 0) 0 (short_world PROTOCOL_BINARY_CMD_HELLO 0).(w_conn).(cn_header));
    try reflexivity; [by split|by exists 1|vm_compute; discriminate].
Defined.

Lemma append_short_body_witness :
  runs process_bin_append_prepend (short_world PROTOCOL_BINARY_CMD_APPEND 2) (fun _ w' =>
    w'.(w_conn).(cn_state) = F_nread /\ w'.(w_conn).(cn_substate) = bin_read_set_value /\
    w'.(w_conn).(cn_ritem) = A_data 1 0 /\ w'.(w_conn).(cn_rlbytes) = 2 ^ 32 + (0 - 2)).
Proof.
  apply (append_short_body (short_world PROTOCOL_BINARY_CMD_APPEND 2) [97; 97] 1 tt (mk_info 0 0 0 0 0 0 1 [] [] 0) tt tt);
    try reflexivity; [by split|done].
Defined.
