(* ===== verification/Crc.v ===== *)
(** * Checksums of the couchstore files ([couchstore/src/crc32.c])

    The table-driven CRC-32 is the bitwise division by the reflected polynomial
    [0xEDB88320], and it tells byte strings apart that differ in one byte. *)
From Stdlib Require Import ZArith Lia.
From stdpp Require Import strings gmap prelude.
From S2P Require Import Prelude.

#[local] Set Warnings "-clear-no-such-hyp".

Definition crc32tab : list Z :=
  [0x00000000; 0x77073096; 0xee0e612c; 0x990951ba;
   0x076dc419; 0x706af48f; 0xe963a535; 0x9e6495a3;
   0x0edb8832; 0x79dcb8a4; 0xe0d5e91e; 0x97d2d988;
   0x09b64c2b; 0x7eb17cbd; 0xe7b82d07; 0x90bf1d91;
   0x1db71064; 0x6ab020f2; 0xf3b97148; 0x84be41de;
   0x1adad47d; 0x6ddde4eb; 0xf4d4b551; 0x83d385c7;
   0x136c9856; 0x646ba8c0; 0xfd62f97a; 0x8a65c9ec;
   0x14015c4f; 0x63066cd9; 0xfa0f3d63; 0x8d080df5;
   0x3b6e20c8; 0x4c69105e; 0xd56041e4; 0xa2677172;
   0x3c03e4d1; 0x4b04d447; 0xd20d85fd; 0xa50ab56b;
   0x35b5a8fa; 0x42b2986c; 0xdbbbc9d6; 0xacbcf940;
   0x32d86ce3; 0x45df5c75; 0xdcd60dcf; 0xabd13d59;
   0x26d930ac; 0x51de003a; 0xc8d75180; 0xbfd06116;
   0x21b4f4b5; 0x56b3c423; 0xcfba9599; 0xb8bda50f;
   0x2802b89e; 0x5f058808; 0xc60cd9b2; 0xb10be924;
   0x2f6f7c87; 0x58684c11; 0xc1611dab; 0xb6662d3d;
   0x76dc4190; 0x01db7106; 0x98d220bc; 0xefd5102a;
   0x71b18589; 0x06b6b51f; 0x9fbfe4a5; 0xe8b8d433;
   0x7807c9a2; 0x0f00f934; 0x9609a88e; 0xe10e9818;
   0x7f6a0dbb; 0x086d3d2d; 0x91646c97; 0xe6635c01;
   0x6b6b51f4; 0x1c6c6162; 0x856530d8; 0xf262004e;
   0x6c0695ed; 0x1b01a57b; 0x8208f4c1; 0xf50fc457;
   0x65b0d9c6; 0x12b7e950; 0x8bbeb8ea; 0xfcb9887c;
   0x62dd1ddf; 0x15da2d49; 0x8cd37cf3; 0xfbd44c65;
   0x4db26158; 0x3ab551ce; 0xa3bc0074; 0xd4bb30e2;
   0x4adfa541; 0x3dd895d7; 0xa4d1c46d; 0xd3d6f4fb;
   0x4369e96a; 0x346ed9fc; 0xad678846; 0xda60b8d0;
   0x44042d73; 0x33031de5; 0xaa0a4c5f; 0xdd0d7cc9;
   0x5005713c; 0x270241aa; 0xbe0b1010; 0xc90c2086;
   0x5768b525; 0x206f85b3; 0xb966d409; 0xce61e49f;
   0x5edef90e; 0x29d9c998; 0xb0d09822; 0xc7d7a8b4;
   0x59b33d17; 0x2eb40d81; 0xb7bd5c3b; 0xc0ba6cad;
   0xedb88320; 0x9abfb3b6; 0x03b6e20c; 0x74b1d29a;
   0xead54739; 0x9dd277af; 0x04db2615; 0x73dc1683;
   0xe3630b12; 0x94643b84; 0x0d6d6a3e; 0x7a6a5aa8;
   0xe40ecf0b; 0x9309ff9d; 0x0a00ae27; 0x7d079eb1;
   0xf00f9344; 0x8708a3d2; 0x1e01f268; 0x6906c2fe;
   0xf762575d; 0x806567cb; 0x196c3671; 0x6e6b06e7;
   0xfed41b76; 0x89d32be0; 0x10da7a5a; 0x67dd4acc;
   0xf9b9df6f; 0x8ebeeff9; 0x17b7be43; 0x60b08ed5;
   0xd6d6a3e8; 0xa1d1937e; 0x38d8c2c4; 0x4fdff252;
   0xd1bb67f1; 0xa6bc5767; 0x3fb506dd; 0x48b2364b;
   0xd80d2bda; 0xaf0a1b4c; 0x36034af6; 0x41047a60;
   0xdf60efc3; 0xa867df55; 0x316e8eef; 0x4669be79;
   0xcb61b38c; 0xbc66831a; 0x256fd2a0; 0x5268e236;
   0xcc0c7795; 0xbb0b4703; 0x220216b9; 0x5505262f;
   0xc5ba3bbe; 0xb2bd0b28; 0x2bb45a92; 0x5cb36a04;
   0xc2d7ffa7; 0xb5d0cf31; 0x2cd99e8b; 0x5bdeae1d;
   0x9b64c2b0; 0xec63f226; 0x756aa39c; 0x026d930a;
   0x9c0906a9; 0xeb0e363f; 0x72076785; 0x05005713;
   0x95bf4a82; 0xe2b87a14; 0x7bb12bae; 0x0cb61b38;
   0x92d28e9b; 0xe5d5be0d; 0x7cdcefb7; 0x0bdbdf21;
   0x86d3d2d4; 0xf1d4e242; 0x68ddb3f8; 0x1fda836e;
   0x81be16cd; 0xf6b9265b; 0x6fb077e1; 0x18b74777;
   0x88085ae6; 0xff0f6a70; 0x66063bca; 0x11010b5c;
   0x8f659eff; 0xf862ae69; 0x616bffd3; 0x166ccf45;
   0xa00ae278; 0xd70dd2ee; 0x4e048354; 0x3903b3c2;
   0xa7672661; 0xd06016f7; 0x4969474d; 0x3e6e77db;
   0xaed16a4a; 0xd9d65adc; 0x40df0b66; 0x37d83bf0;
   0xa9bcae53; 0xdebb9ec5; 0x47b2cf7f; 0x30b5ffe9;
   0xbdbdf21c; 0xcabac28a; 0x53b39330; 0x24b4a3a6;
   0xbad03605; 0xcdd70693; 0x54de5729; 0x23d967bf;
   0xb3667a2e; 0xc4614ab8; 0x5d681b02; 0x2a6f2b94;
   0xb40bbe37; 0xc30c8ea1; 0x5a05df1b; 0x2d02ef8d].

(** One round of the loop. A [char] is signed: its value is extended to 64 bits before
    the table index is taken from it. *)
Definition crc32_round (crc b : Z) : Z :=
  let i := Z.land (Z.lxor crc (u64 (swrap 8 b))) 255 in
  Z.lxor (Z.shiftr crc 8) (default 0 (zlookup crc32tab i)).

Definition hash_crc32 (key : list Z) : Z := Z.lxor (foldl crc32_round 4294967295 key) 4294967295.

(** ** The reference: one bit at a time *)

Definition crc_poly : Z := 0xEDB88320.
Definition crc_bit (c : Z) : Z := Z.lxor (Z.shiftr c 1) (if Z.odd c then crc_poly else 0).
Definition crc_byte (c b : Z) : Z := Nat.iter 8 crc_bit (Z.lxor c b).
Definition crc32 (l : list Z) : Z := Z.lxor (foldl crc_byte 4294967295 l) 4294967295.

(** ** Bits *)

Lemma crc_bit_lxor a b : crc_bit (Z.lxor a b) = Z.lxor (crc_bit a) (crc_bit b).
Proof.
  unfold crc_bit. rewrite Z.shiftr_lxor. rewrite <- !Z.bit0_odd, Z.lxor_spec.
  apply Z.bits_inj'. intros i Hi. rewrite !Z.lxor_spec.
  destruct (Z.testbit a 0), (Z.testbit b 0); cbn [xorb]; rewrite ?Z.bits_0;
    repeat match goal with |- context [Z.testbit ?x ?y] => destruct (Z.testbit x y) end; reflexivity.
Qed.

Lemma crc_iter_lxor n a b : Nat.iter n crc_bit (Z.lxor a b) = Z.lxor (Nat.iter n crc_bit a) (Nat.iter n crc_bit b).
Proof. induction n as [|n IH]; [done|]. simpl. by rewrite IH, crc_bit_lxor. Qed.

(** The low bits that are shifted out do not meet the polynomial when they are zero. *)
Lemma crc_iter_shift n y : 0 <= y -> Nat.iter n crc_bit (Z.shiftl y (Z.of_nat n)) = y.
Proof.
  induction n as [|n IH]; intros Hy; [by rewrite Z.shiftl_0_r|].
  rewrite Nat.iter_succ_r. unfold crc_bit at 2. rewrite <- Z.bit0_odd, Z.shiftl_spec_low by lia.
  rewrite Z.lxor_0_r, Z.shiftr_shiftl_l by lia. replace (Z.of_nat (S n) - 1) with (Z.of_nat n) by lia. by apply IH.
Qed.

Lemma split_low x k : 0 <= k -> x = Z.lxor (Z.shiftl (Z.shiftr x k) k) (Z.land x (Z.ones k)).
Proof.
  intros Hk. apply Z.bits_inj'. intros i Hi. rewrite Z.lxor_spec, Z.land_spec, Z.testbit_ones_nonneg by lia.
  destruct (Z.ltb_spec i k).
  - rewrite Z.shiftl_spec_low by lia. by rewrite andb_true_r, xorb_false_l.
  - rewrite Z.shiftl_spec, Z.shiftr_spec by lia. rewrite Z.sub_add, andb_false_r. by rewrite xorb_false_r.
Qed.

Lemma table_bits : forallb (fun i => default 0 (crc32tab !! i) =? Nat.iter 8 crc_bit (Z.of_nat i)) (seq 0 256) = true.
Proof. vm_compute. reflexivity. Qed.

Lemma table_run i : 0 <= i < 256 -> default 0 (zlookup crc32tab i) = Nat.iter 8 crc_bit i.
Proof.
  intros Hi. pose proof table_bits as Ht. rewrite forallb_forall in Ht. specialize (Ht (Z.to_nat i)).
  unfold zlookup. rewrite (proj2 (Z.leb_le 0 i)) by lia. rewrite Z2Nat.id in Ht by lia.
  apply Z.eqb_eq, Ht, in_seq. lia.
Qed.

Lemma low_byte x : 0 <= Z.land x 255 < 256.
Proof. change 255 with (Z.ones 8). rewrite Z.land_ones by lia. apply Z.mod_pos_bound. lia. Qed.

(** The sign of the character does not matter. *)
Lemma char_index crc b : byte_ok b -> Z.land (Z.lxor crc (u64 (swrap 8 b))) 255 = Z.land (Z.lxor crc b) 255.
Proof.
  intros Hb. apply Z.bits_inj'. intros i Hi. change 255 with (Z.ones 8).
  rewrite !Z.land_spec, !Z.lxor_spec, Z.testbit_ones_nonneg by lia.
  destruct (Z.ltb_spec i 8); [|by rewrite !andb_false_r]. rewrite !andb_true_r. f_equal.
  unfold u64, wrap. rewrite Z.mod_pow2_bits_low by lia.
  unfold swrap. unfold byte_ok in Hb. change (2 ^ 8) with 256. rewrite Z.mod_small by lia.
  destruct (b <? 2 ^ (8 - 1)); [done|]. rewrite <- (Z.mod_pow2_bits_low _ 8) by lia.
  change (2 ^ 8) with 256. replace (b - 256) with (b + (-1) * 256) by lia. rewrite Z.mod_add by lia.
  by rewrite Z.mod_small by lia.
Qed.

Lemma crc_byte_split c b : 0 <= c -> byte_ok b ->
  crc_byte c b = Z.lxor (Z.shiftr c 8) (Nat.iter 8 crc_bit (Z.land (Z.lxor c b) 255)).
Proof.
  intros Hc Hb. unfold crc_byte. rewrite (split_low (Z.lxor c b) 8) at 1 by lia. rewrite crc_iter_lxor.
  change (Z.ones 8) with 255. f_equal. rewrite (crc_iter_shift 8), Z.shiftr_lxor.
  - unfold byte_ok in Hb. rewrite (Z.shiftr_div_pow2 b) by lia. change (2 ^ 8) with 256. rewrite Z.div_small by lia. apply Z.lxor_0_r.
  - apply Z.shiftr_nonneg. unfold byte_ok in Hb. apply Z.lxor_nonneg. lia.
Qed.

Lemma crc32_round_byte c b : 0 <= c -> byte_ok b -> crc32_round c b = crc_byte c b.
Proof.
  intros Hc Hb. unfold crc32_round. cbv zeta. rewrite char_index by done. rewrite table_run by apply low_byte.
  by rewrite crc_byte_split.
Qed.

(** ** The width *)

Lemma lxor_fits n a b : 0 < n -> fits n a -> fits n b -> fits n (Z.lxor a b).
Proof.
  unfold fits. intros Hn Ha Hb. assert (H0 : 0 <= Z.lxor a b) by (apply Z.lxor_nonneg; lia). split; [done|].
  destruct (Z.eq_dec (Z.lxor a b) 0) as [->|Hne]; [lia|]. apply Z.log2_lt_pow2; [lia|].
  eapply Z.le_lt_trans; [apply Z.log2_lxor; lia|]. apply Z.max_lub_lt.
  - destruct (Z.eq_dec a 0) as [->|]; [done|]. apply Z.log2_lt_pow2; lia.
  - destruct (Z.eq_dec b 0) as [->|]; [done|]. apply Z.log2_lt_pow2; lia.
Qed.

Lemma shiftr_fits n k c : 0 <= k <= n -> fits n c -> fits (n - k) (Z.shiftr c k).
Proof.
  unfold fits. intros Hk Hc. rewrite Z.shiftr_div_pow2 by lia. split; [apply Z.div_pos; lia|].
  apply Z.div_lt_upper_bound; [lia|]. rewrite <- Z.pow_add_r by lia. replace (k + (n - k)) with n by lia. lia.
Qed.

Lemma poly_fits c : fits 32 (if Z.odd c then crc_poly else 0).
Proof. unfold fits, crc_poly. destruct (Z.odd c); lia. Qed.

Lemma crc_bit_fits c : fits 32 c -> fits 32 (crc_bit c).
Proof.
  intros Hc. apply lxor_fits; [lia| |apply poly_fits]. apply (shiftr_fits 32 1) in Hc; [|lia]. unfold fits in *. lia.
Qed.

Lemma crc_iter_fits n c : fits 32 c -> fits 32 (Nat.iter n crc_bit c).
Proof. intros Hc. induction n as [|n IH]; [done|]. simpl. by apply crc_bit_fits. Qed.

Lemma byte_fits b : byte_ok b -> fits 32 b.
Proof. unfold byte_ok, fits. lia. Qed.

Lemma crc_byte_fits c b : fits 32 c -> byte_ok b -> fits 32 (crc_byte c b).
Proof. intros Hc Hb. apply crc_iter_fits, lxor_fits; [lia|done|by apply byte_fits]. Qed.

Lemma crc_fold_fits l c : fits 32 c -> bytes_ok l -> fits 32 (foldl crc_byte c l).
Proof. revert c. induction l as [|b l IH]; intros c Hc Hl; [done|]. apply Forall_cons in Hl as [Hb Hl]. apply IH; [by apply crc_byte_fits|done]. Qed.

Lemma crc_fold_eq l c : fits 32 c -> bytes_ok l -> foldl crc32_round c l = foldl crc_byte c l.
Proof.
  revert c. induction l as [|b l IH]; intros c Hc Hl; [done|]. apply Forall_cons in Hl as [Hb Hl]. simpl.
  rewrite crc32_round_byte by (done || apply Hc). apply IH; [by apply crc_byte_fits|done].
Qed.

Lemma ones32 : fits 32 4294967295.
Proof. unfold fits. lia. Qed.

Lemma hash_crc32_eq l : bytes_ok l -> hash_crc32 l = crc32 l.
Proof. intros Hl. unfold hash_crc32, crc32. by rewrite crc_fold_eq by (done || apply ones32). Qed.

Lemma hash_crc32_fits l : bytes_ok l -> fits 32 (hash_crc32 l).
Proof. intros Hl. rewrite hash_crc32_eq by done. apply lxor_fits; [done|apply crc_fold_fits; [apply ones32|done]|apply ones32]. Qed.

(** ** No information is lost *)

#[local] Strategy expand [crc_byte].

Lemma lxor_cancel a b c : Z.lxor a b = Z.lxor a c -> b = c.
Proof. intros He. rewrite <- (Z.lxor_0_l b), <- (Z.lxor_0_l c), <- (Z.lxor_nilpotent a), !Z.lxor_assoc. by f_equal. Qed.

(** The top bit of the result is the bit that was shifted out. *)
Lemma crc_bit_top c : fits 32 c -> Z.testbit (crc_bit c) 31 = Z.odd c.
Proof.
  intros Hc. unfold crc_bit. rewrite Z.lxor_spec, Z.shiftr_spec by lia.
  rewrite <- (Z.mod_small c (2 ^ 32)) at 1 by exact Hc.
  rewrite Z.mod_pow2_bits_high by lia.
  destruct (Z.odd c); reflexivity.
Qed.

Lemma crc_bit_inj a b : fits 32 a -> fits 32 b -> crc_bit a = crc_bit b -> a = b.
Proof.
  intros Ha Hb He. assert (Ho : Z.odd a = Z.odd b) by (rewrite <- !crc_bit_top by done; by rewrite He).
  unfold crc_bit in He. rewrite Ho, (Z.lxor_comm (Z.shiftr a 1)), (Z.lxor_comm (Z.shiftr b 1)) in He.
  apply lxor_cancel in He. rewrite (Z.div2_odd a), (Z.div2_odd b), Ho, !Z.div2_spec. by rewrite He.
Qed.

Lemma crc_iter_inj n a b : fits 32 a -> fits 32 b -> Nat.iter n crc_bit a = Nat.iter n crc_bit b -> a = b.
Proof.
  intros Ha Hb. induction n as [|n IH]; [done|]. simpl. intros He%crc_bit_inj; [by apply IH|by apply crc_iter_fits..].
Qed.

Lemma crc_byte_cancel c c' b b' : fits 32 (Z.lxor c b) -> fits 32 (Z.lxor c' b') -> crc_byte c b = crc_byte c' b' ->
  Z.lxor c b = Z.lxor c' b'.
Proof. intros H1 H2 He. exact (crc_iter_inj 8 _ _ H1 H2 He). Qed.

Lemma crc_byte_inj c c' b : fits 32 c -> fits 32 c' -> byte_ok b -> crc_byte c b = crc_byte c' b -> c = c'.
Proof.
  intros Hc Hc' Hb He. apply byte_fits in Hb. apply crc_byte_cancel in He; [|by apply lxor_fits..].
  rewrite !(Z.lxor_comm _ b) in He. by apply lxor_cancel in He.
Qed.

Lemma crc_fold_inj l c c' : fits 32 c -> fits 32 c' -> bytes_ok l -> foldl crc_byte c l = foldl crc_byte c' l -> c = c'.
Proof.
  revert c c'. induction l as [|b l IH]; intros c c' Hc Hc' Hl He; [done|]. apply Forall_cons in Hl as [Hb Hl].
  apply IH in He; [|by apply crc_byte_fits..|done]. by apply crc_byte_inj in He.
Qed.

(** One byte that differs changes the checksum. *)
Lemma crc32_one_byte l r b b' : bytes_ok l -> bytes_ok r -> byte_ok b -> byte_ok b' -> b <> b' ->
  hash_crc32 (l ++ b :: r) <> hash_crc32 (l ++ b' :: r).
Proof.
  intros Hl Hr Hb Hb' Hne He. assert (Hok : forall x, byte_ok x -> bytes_ok (l ++ x :: r)) by (intros; by apply Forall_app_2; [|constructor]).
  rewrite !hash_crc32_eq in He by auto. unfold crc32 in He. rewrite !(Z.lxor_comm _ 4294967295) in He. apply lxor_cancel in He.
  rewrite !foldl_app in He. cbn [foldl] in He. pose proof (crc_fold_fits l _ ones32 Hl) as Hf.
  revert He Hf. generalize (foldl crc_byte 4294967295 l). intros c He Hf. apply crc_fold_inj in He; [|by apply crc_byte_fits..|done].
  apply crc_byte_cancel in He; [|apply lxor_fits; [lia|done|by apply byte_fits]..]. by apply lxor_cancel in He.
Qed.

(** C23: the table-driven checksum is the CRC-32 of the bits of the string, and two
    strings that differ in exactly one byte have different checksums. *)
Theorem hash_crc32_correct l r b b' :
  bytes_ok (l ++ b :: r) -> byte_ok b' -> b <> b' ->
  hash_crc32 (l ++ b :: r) = crc32 (l ++ b :: r) /\ hash_crc32 (l ++ b' :: r) <> hash_crc32 (l ++ b :: r).
Proof.
  intros Hok Hb' Hne. split; [by apply hash_crc32_eq|]. apply Forall_app in Hok as [Hl [Hb Hr]%Forall_cons].
  by apply crc32_one_byte.
Qed.

(** The check value of CRC-32: the digits from 1 to 9. *)
Lemma hash_crc32_correct_witness :
  hash_crc32 [49; 50; 51; 52; 53; 54; 55; 56; 57] = 0xCBF43926 /\ crc32 [49; 50; 51; 52; 53; 54; 55; 56; 57] = 0xCBF43926 /\
  hash_crc32 [49; 50; 51; 52; 53; 54; 55; 56; 58] <> 0xCBF43926.
Proof.
  destruct (hash_crc32_correct [49; 50; 51; 52; 53; 54; 55; 56] [] 57 58) as [H1 H2];
    [by repeat constructor|done|done|].
  assert (Hv : hash_crc32 ([49; 50; 51; 52; 53; 54; 55; 56] ++ 57 :: []) = 0xCBF43926) by (vm_compute; reflexivity).
  rewrite Hv in H1, H2. split; [exact Hv|]. split; [by rewrite H1|exact H2].
Defined.
