(* ===== verification/CouchFile.v ===== *)
(** * Couchstore files ([couchstore/src/couch_file_write.cc], [couch_file_read.cc])

    A file is a sequence of blocks of 4096 bytes; the first byte of a block tells whether
    it starts with a header. Data is appended in chunks of a length, a checksum and bytes,
    which skip the first bytes of the blocks. A chunk that was written is read back, also
    after further writes, when the operations of the file do as they are documented. *)
From Stdlib Require Import ZArith Lia.
From stdpp Require Import strings gmap prelude.
From S2P Require Import Prelude Bitfield ViewCodec Snappy Crc.

#[local] Set Warnings "-clear-no-such-hyp".

Definition COUCH_BLOCK_SIZE : Z := 4096.

(** [couch_file_ops]: the functions that read and write a file; an error or the number of
    bytes written, an error or the bytes read. *)
Class FileOps (F : Type) := {
  ops_pwrite : list Z -> Z -> M F (couchstore_error_t + Z);
  ops_pread : Z -> Z -> M F (couchstore_error_t + list Z)
}.

(** [tree_file], with the memory of the process. *)
Record tree_file (F : Type) := mk_tf { tf_pos : Z; tf_handle : F; tf_mem : mem }.
#[global] Arguments mk_tf {F}.
#[global] Arguments tf_pos {F}.
#[global] Arguments tf_handle {F}.
#[global] Arguments tf_mem {F}.

Section model.
Context {F : Type} `{FileOps F} `{Alloc} `{Snappy}.
Abbreviation C := (M (tree_file F)).

Definition on_handle {A} (m : M F A) : C A := fun f =>
  match m f.(tf_handle) with
  | Some (a, h) => Some (a, mk_tf f.(tf_pos) h f.(tf_mem))
  | None => None
  end.

Definition on_mem {A} (m : M mem A) : C A := fun f =>
  match m f.(tf_mem) with
  | Some (a, s) => Some (a, mk_tf f.(tf_pos) f.(tf_handle) s)
  | None => None
  end.

Definition set_pos (p : Z) : C unit := modify (fun f => mk_tf p f.(tf_handle) f.(tf_mem)).

(** ** Writing *)

(** The loop of [raw_write]; the result is the position after the bytes. *)
Fixpoint raw_write_loop (fuel : nat) (buf : list Z) (write_pos : Z) : C (couchstore_error_t + Z) :=
  match buf, fuel with
  | [], _ => mret (inr write_pos)
  | _, O => crash
  | _, S fuel' =>
      let block_remain := COUCH_BLOCK_SIZE - write_pos mod COUCH_BLOCK_SIZE in
      let block_remain := if len buf <? block_remain then len buf else block_remain in
      if write_pos mod COUCH_BLOCK_SIZE =? 0 then
        w ← on_handle (ops_pwrite [0] write_pos);
        match w with
        | inl e => mret (inl e)
        | inr _ => raw_write_loop fuel' buf (write_pos + 1)
        end
      else
        w ← on_handle (ops_pwrite (take (Z.to_nat block_remain) buf) write_pos);
        match w with
        | inl e => mret (inl e)
        | inr written => raw_write_loop fuel' (drop (Z.to_nat written) buf) (write_pos + written)
        end
  end.

Definition raw_write (buf : list Z) (pos : Z) : C (couchstore_error_t + Z) :=
  r ← raw_write_loop (2 * length buf) buf pos;
  mret (match r with inl e => inl e | inr p => inr (p - pos) end).

(** The result is the position of the header. *)
Definition write_header (buf : list Z) : C (couchstore_error_t + Z) :=
  pos ← gets tf_pos;
  let size := be_bytes 4 (u32 (len buf + 4)) in
  let crc32 := be_bytes 4 (hash_crc32 buf) in
  let write_pos := if negb (pos mod COUCH_BLOCK_SIZE =? 0)
                   then pos + (COUCH_BLOCK_SIZE - pos mod COUCH_BLOCK_SIZE) else pos in
  w ← on_handle (ops_pwrite (1 :: size ++ crc32) write_pos);
  match w with
  | inl e => mret (inl e)
  | inr written =>
      w ← raw_write buf (write_pos + written);
      match w with
      | inl e => mret (inl e)
      | inr written' => set_pos (write_pos + written + written');; mret (inr write_pos)
      end
  end.

(** The result is the position and the size of the chunk. *)
Definition db_write_buf (buf : list Z) : C (couchstore_error_t + Z * Z) :=
  write_pos ← gets tf_pos;
  let size := be_bytes 4 (u32 (Z.lor (len buf) 0x80000000)) in
  let crc32 := be_bytes 4 (hash_crc32 buf) in
  w ← raw_write (size ++ crc32) write_pos;
  match w with
  | inl e => mret (inl e)
  | inr written =>
      let end_pos := write_pos + written in
      w ← raw_write buf end_pos;
      match w with
      | inl e => mret (inl e)
      | inr written =>
          let end_pos := end_pos + written in
          set_pos end_pos;; mret (inr (write_pos, end_pos - write_pos))
      end
  end.

Definition db_write_buf_compressed (buf : list Z) : C (couchstore_error_t + Z * Z) :=
  let max_size := snappy_max_compressed_length (len buf) in
  compressbuf ← on_mem (malloc max_size);
  if decide (compressbuf = Null) then mret (inl COUCHSTORE_ERROR_ALLOC_FAIL) else
  to_write ← of_option (snappy_compress buf);
  cassert (len to_write <=? max_size);;
  r ← db_write_buf to_write;
  on_mem (free compressbuf);;
  mret r.

(** ** Reading *)

Definition skip (pos : Z) : Z := if pos mod COUCH_BLOCK_SIZE =? 0 then pos + 1 else pos.

(** The loop of [read_skipping_prefixes]; the result is the position after the bytes and
    the bytes. *)
Fixpoint read_loop (fuel : nat) (pos n : Z) (dst : list Z) : C (couchstore_error_t + Z * list Z) :=
  if n <=? 0 then mret (inr (pos, dst)) else
  match fuel with
  | O => crash
  | S fuel' =>
      let read_size := COUCH_BLOCK_SIZE - pos mod COUCH_BLOCK_SIZE in
      let read_size := if n <? read_size then n else read_size in
      r ← on_handle (ops_pread read_size pos);
      match r with
      | inl e => mret (inl e)
      | inr [] => mret (inl COUCHSTORE_ERROR_READ)
      | inr b => read_loop fuel' (skip (pos + len b)) (n - len b) (dst ++ b)
      end
  end.

Definition read_skipping_prefixes (pos n : Z) : C (couchstore_error_t + Z * list Z) :=
  read_loop (Z.to_nat n) (skip pos) n [].

(** The result is an error, or the block that was allocated and its bytes. *)
Definition pread_bin_internal (pos max_header_size : Z) : C (couchstore_error_t + ptr * list Z) :=
  r ← read_skipping_prefixes pos 8;
  match r with
  | inl e => mret (inl e)
  | inr (pos, info) =>
      let chunk_len := Z.land (be_val (take 4 info)) 0x7FFFFFFF in
      let crc32 := be_val (drop 4 info) in
      if negb (max_header_size =? 0) && ((chunk_len <? 4) || (max_header_size <? chunk_len))
      then mret (inl COUCHSTORE_ERROR_CORRUPT) else
      let chunk_len := if max_header_size =? 0 then chunk_len else chunk_len - 4 in
      buf ← on_mem (malloc chunk_len);
      if decide (buf = Null) then mret (inl COUCHSTORE_ERROR_ALLOC_FAIL) else
      r ← read_skipping_prefixes pos chunk_len;
      match r with
      | inl e => on_mem (free buf);; mret (inl e)
      | inr (_, bytes) =>
          if negb (crc32 =? 0) && negb (crc32 =? hash_crc32 bytes)
          then on_mem (free buf);; mret (inl COUCHSTORE_ERROR_CHECKSUM_FAIL)
          else mret (inr (buf, bytes))
      end
  end.

Definition pread_header (pos max_header_size : Z) : C (couchstore_error_t + ptr * list Z) :=
  if max_header_size =? 0 then mret (inl COUCHSTORE_ERROR_INVALID_ARGUMENTS)
  else pread_bin_internal (pos + 1) max_header_size.

(** The length of the data is returned as an [int]; a length that is none ends the
    model. *)
Definition pread_compressed (pos : Z) : C (couchstore_error_t + ptr * list Z) :=
  r ← pread_bin_internal pos 0;
  match r with
  | inl e => mret (inl e)
  | inr (compressed_buf, bytes) =>
      match snappy_uncompressed_length bytes (len bytes) with
      | None => on_mem (free compressed_buf);; mret (inl COUCHSTORE_ERROR_CORRUPT)
      | Some uncompressed_len =>
          new_buf ← on_mem (malloc uncompressed_len);
          if decide (new_buf = Null) then
            on_mem (free compressed_buf);; mret (inl COUCHSTORE_ERROR_ALLOC_FAIL) else
          match snappy_uncompress bytes uncompressed_len with
          | None => on_mem (free compressed_buf);; on_mem (free new_buf);; mret (inl COUCHSTORE_ERROR_CORRUPT)
          | Some data =>
              on_mem (free compressed_buf);;
              cassert (uncompressed_len <? 2 ^ 31);;
              mret (inr (new_buf, data))
          end
      end
  end.

Definition pread_bin (pos : Z) : C (couchstore_error_t + ptr * list Z) := pread_bin_internal pos 0.
End model.

(** * What is assumed of the operations of a file *)

(** The bytes [b] written at [off], after a gap of zeros when the file is shorter. *)
Definition overwrite (off : nat) (b d : list Z) : list Z :=
  take off (d ++ replicate off 0) ++ b ++ drop (off + length b) d.

(** The bytes below [p] stay. *)
Definition agree (p : Z) (d d' : list Z) : Prop :=
  forall i x, Z.of_nat i < p -> d !! i = Some x -> d' !! i = Some x.

(** Reads and writes may be short, but not empty; they may fail unless the file is
    [ops_reliable]; a write that fails may have changed the bytes from its offset on. *)
Class FileOpsOk (F : Type) `{FileOps F} := {
  ops_ok : F -> Prop;
  ops_data : F -> list Z;
  ops_reliable : Prop;
  pread_law h n off : ops_ok h -> 0 < n -> 0 <= off ->
    runs (ops_pread n off) h (fun r h' => ops_ok h' /\ ops_data h' = ops_data h /\
      match r with
      | inl e => e <> COUCHSTORE_SUCCESS /\ (ops_reliable -> False)
      | inr b => b `prefix_of` drop (Z.to_nat off) (ops_data h) /\ len b <= n /\
                 (b = [] -> len (ops_data h) <= off)
      end);
  pwrite_law h b off : ops_ok h -> b <> [] -> 0 <= off ->
    runs (ops_pwrite b off) h (fun r h' => ops_ok h' /\
      match r with
      | inl e => e <> COUCHSTORE_SUCCESS /\ (ops_reliable -> False) /\ agree off (ops_data h) (ops_data h')
      | inr n => 0 < n <= len b /\ ops_data h' = overwrite (Z.to_nat off) (take (Z.to_nat n) b) (ops_data h)
      end)
}.

(** * Positions *)

Lemma agree_refl p d : agree p d d.
Proof. by intros i x. Qed.

Lemma agree_trans p q d d' d'' : p <= q -> agree p d d' -> agree q d' d'' -> agree p d d''.
Proof. intros Hpq H1 H2 i x Hi Hx. apply H2; [lia|]. by apply H1. Qed.

Lemma agree_le p q d d' : p <= q -> agree q d d' -> agree p d d'.
Proof. intros Hpq Ha i x Hi. apply Ha. lia. Qed.

Lemma overwrite_below off b d i x : (i < off)%nat -> d !! i = Some x -> overwrite off b d !! i = Some x.
Proof.
  intros Hi Hx. pose proof (lookup_lt_Some _ _ _ Hx) as Hl. unfold overwrite.
  rewrite lookup_app_l by (rewrite length_take, length_app, length_replicate; lia).
  rewrite lookup_take_lt by lia. by rewrite lookup_app_l.
Qed.

Lemma overwrite_at off b d i : (i < length b)%nat -> overwrite off b d !! (off + i)%nat = b !! i.
Proof.
  intros Hi. unfold overwrite. assert (Ht : length (take off (d ++ replicate off 0)) = off)
    by (rewrite length_take, length_app, length_replicate; lia).
  rewrite lookup_app_r by lia. rewrite Ht. replace (off + i - off)%nat with i by lia. by rewrite lookup_app_l.
Qed.

Lemma agree_overwrite off b d : agree off d (overwrite (Z.to_nat off) b d).
Proof. intros i x Hi. apply overwrite_below. lia. Qed.

Lemma skip_ge p : p <= skip p <= p + 1.
Proof. unfold skip. destruct (_ =? _); lia. Qed.

Lemma skip_idem p : 0 <= p -> skip (skip p) = skip p.
Proof.
  intros Hp. unfold skip. destruct (Z.eqb_spec (p mod COUCH_BLOCK_SIZE) 0) as [He|He].
  - unfold COUCH_BLOCK_SIZE in *. rewrite (proj2 (Z.eqb_neq _ _)); [done|]. rewrite Z.add_mod, He by lia. done.
  - by rewrite (proj2 (Z.eqb_neq _ _)).
Qed.

(** The bytes [bs] are in the file from [p] on. *)
Fixpoint stored (d : list Z) (p : Z) (bs : list Z) : Prop :=
  match bs with
  | [] => True
  | b :: r => d !! Z.to_nat (skip p) = Some b /\ stored d (skip p + 1) r
  end.

(** The position after [n] bytes from [p] on. *)
Fixpoint after (p : Z) (n : nat) : Z :=
  match n with
  | O => p
  | S n => after (skip p + 1) n
  end.

Lemma after_ge p n : p + Z.of_nat n <= after p n.
Proof.
  revert p. induction n as [|n IH]; intros p; simpl; [lia|]. specialize (IH (skip p + 1)). pose proof (skip_ge p). lia.
Qed.

Lemma after_app p n m : after p (n + m) = after (after p n) m.
Proof. revert p. induction n as [|n IH]; intros p; simpl; [done|]. apply IH. Qed.

Lemma stored_app d p a b : stored d p (a ++ b) <-> stored d p a /\ stored d (after p (length a)) b.
Proof.
  revert p. induction a as [|x a IH]; intros p; simpl; [tauto|]. rewrite IH. tauto.
Qed.

Lemma stored_agree d d' p bs q : 0 <= p -> after p (length bs) <= q -> agree q d d' -> stored d p bs -> stored d' p bs.
Proof.
  intros Hp. revert p Hp. induction bs as [|b bs IH]; intros p Hp Hq Ha; simpl; [done|]. intros [Hb Hs].
  pose proof (skip_ge p). split; [|apply IH; simpl in Hq; try done; lia].
  apply Ha; [|done]. simpl in Hq. pose proof (after_ge (skip p + 1) (length bs)). lia.
Qed.

Lemma stored_skip d p bs : 0 <= p -> stored d (skip p) bs <-> stored d p bs.
Proof. intros Hp. destruct bs; simpl; [done|]. by rewrite skip_idem. Qed.

(** Inside of a block the bytes are next to each other. *)
Definition inside (p : Z) (n : nat) : Prop :=
  p mod COUCH_BLOCK_SIZE <> 0 /\ Z.of_nat n <= COUCH_BLOCK_SIZE - p mod COUCH_BLOCK_SIZE.

Lemma inside_step p n : 0 <= p -> inside p (S n) -> n <> O -> inside (p + 1) n.
Proof.
  unfold inside, COUCH_BLOCK_SIZE. intros Hp [H1 H2] Hn. pose proof (Z.mod_pos_bound p 4096 ltac:(lia)).
  replace ((p + 1) mod 4096) with (p mod 4096 + 1); [lia|]. rewrite <- (Z.add_mod_idemp_l p 1) by lia. rewrite (Z.mod_small (p mod 4096 + 1)) by lia. done.
Qed.

Lemma skip_inside p n : inside p n -> skip p = p.
Proof. intros [Hp _]. unfold skip. by rewrite (proj2 (Z.eqb_neq _ _)). Qed.

Lemma after_inside p n : 0 <= p -> inside p n -> after p n = p + Z.of_nat n.
Proof.
  revert p. induction n as [|n IH]; intros p Hp Hi; simpl; [lia|]. rewrite (skip_inside p _ Hi).
  destruct n as [|n]; [simpl; lia|]. rewrite IH by (lia || by apply inside_step). lia.
Qed.

Lemma stored_inside d p bs : 0 <= p -> inside p (length bs) ->
  stored d p bs <-> forall i, (i < length bs)%nat -> d !! (Z.to_nat p + i)%nat = bs !! i.
Proof.
  revert p. induction bs as [|b bs IH]; intros p Hp Hi; simpl; [split; [lia|done]|].
  rewrite (skip_inside p _ Hi). destruct bs as [|b' bs].
  - simpl. split; [intros [Hb _] [|i] ?; [by rewrite Nat.add_0_r|lia]|intros Hb; split; [|done]].
    specialize (Hb O ltac:(lia)). by rewrite Nat.add_0_r in Hb.
  - rewrite IH by (lia || by apply inside_step). split.
    + intros [Hb Hs] [|i] Hl; [by rewrite Nat.add_0_r|]. simpl in *. rewrite <- Hs by lia. f_equal. lia.
    + intros Hs. split; [specialize (Hs O ltac:(simpl; lia)); by rewrite Nat.add_0_r in Hs|].
      intros i Hl. specialize (Hs (S i) ltac:(simpl in *; lia)). simpl in Hs. rewrite <- Hs. f_equal. lia.
Qed.

(** * Chunks *)

Section chunks.
Context {F : Type} `{FileOpsOk F} `{Alloc} `{Snappy}.
Implicit Types f : tree_file F.

Abbreviation data f := (ops_data (tf_handle f)).

Lemma runs_handle {A} (m : M F A) f (Q : A -> tree_file F -> Prop) :
  runs m f.(tf_handle) (fun a h => Q a (mk_tf f.(tf_pos) h f.(tf_mem))) -> runs (on_handle m) f Q.
Proof. intros (a & h & Hm & HQ). exists a. eexists. split; [unfold on_handle; by rewrite Hm|exact HQ]. Qed.

Lemma runs_mem {A} (m : M mem A) f (Q : A -> tree_file F -> Prop) :
  runs m f.(tf_mem) (fun a s => Q a (mk_tf f.(tf_pos) f.(tf_handle) s)) -> runs (on_mem m) f Q.
Proof. intros (a & h & Hm & HQ). exists a. eexists. split; [unfold on_mem; by rewrite Hm|exact HQ]. Qed.

(** What the loops leave alone. *)
Definition same_file f f' : Prop := f'.(tf_pos) = f.(tf_pos) /\ f'.(tf_mem) = f.(tf_mem).

Lemma raw_write_loop_run fuel buf p f :
  ops_ok f.(tf_handle) -> 0 <= p -> (2 * length buf <= fuel)%nat \/ (p mod COUCH_BLOCK_SIZE <> 0 /\ (2 * length buf <= S fuel)%nat) ->
  runs (raw_write_loop fuel buf p) f (fun r f' =>
    ops_ok f'.(tf_handle) /\ same_file f f' /\ agree p (data f) (data f') /\
    match r with
    | inl e => e <> COUCHSTORE_SUCCESS /\ (ops_reliable -> False)
    | inr q => q = after p (length buf) /\ stored (data f') p buf
    end).
Proof.
  revert buf p f. induction fuel as [|fuel IH]; intros buf p f Hok Hp Hf; (destruct buf as [|b buf];
    [cbn [raw_write_loop]; run; split; [done|]; split; [done|]; split; [apply agree_refl|done]|]); [simpl in Hf; lia|].
  cbn [raw_write_loop]. cbv zeta. pose proof (Z.mod_pos_bound p COUCH_BLOCK_SIZE ltac:(done)) as Hm.
  set (l := b :: buf) in *. destruct (Z.eqb_spec (p mod COUCH_BLOCK_SIZE) 0) as [He|He]; run; apply runs_handle.
  - eapply runs_mono; [by apply pwrite_law|]. intros [e|n] h' (Hok' & Hw); run.
    { destruct Hw as (He' & Hr & Ha). by split; [|split; [|split]]. }
    destruct Hw as [Hn Hd]. assert (Hsk : skip p = p + 1) by (unfold skip; by rewrite (proj2 (Z.eqb_eq _ _) He)).
    eapply runs_mono; [apply IH; [done|lia|right]|].
    { unfold COUCH_BLOCK_SIZE in *. rewrite (Z.add_mod p 1), He by lia. split; [done|]. destruct Hf; [lia|]. naive_solver. }
    intros r f' (H1' & [H2' H2''] & H3 & H4). cbn [tf_handle tf_pos tf_mem] in *. split; [done|]. split; [done|].
    split; [|destruct r as [e|q]; [done|]; destruct H4 as [-> H4]; split; [by subst l; cbn [length after]; rewrite Hsk, <- Hsk, skip_idem|
      apply stored_skip; [done|by rewrite Hsk]]].
    rewrite Hd in H3. eapply agree_trans; [|apply (agree_overwrite p)|exact H3]. lia.
  - set (m := if len l <? COUCH_BLOCK_SIZE - p mod COUCH_BLOCK_SIZE then len l else COUCH_BLOCK_SIZE - p mod COUCH_BLOCK_SIZE).
    assert (Hml : 0 < m <= len l /\ m <= COUCH_BLOCK_SIZE - p mod COUCH_BLOCK_SIZE)
      by (unfold m, len; subst l; cbn [length]; destruct (Z.ltb_spec (Z.of_nat (S (length buf))) (COUCH_BLOCK_SIZE - p mod COUCH_BLOCK_SIZE)); lia).
    clearbody m. unfold len in Hml.
    eapply runs_mono; [apply pwrite_law; [done| |done]|].
    { intros Ht. apply (f_equal length) in Ht. rewrite length_take in Ht. simpl in Ht. lia. }
    intros [e|n] h' (Hok' & Hw); run.
    { destruct Hw as (He' & Hr & Ha). by split; [|split; [|split]]. }
    destruct Hw as [Hn Hd]. unfold len in Hn. rewrite length_take in Hn. rewrite take_take in Hd.
    replace (Nat.min (Z.to_nat n) (Z.to_nat m)) with (Z.to_nat n) in Hd by lia.
    assert (Hlt : length (take (Z.to_nat n) l) = Z.to_nat n) by (rewrite length_take; lia).
    assert (Hin : inside p (length (take (Z.to_nat n) l))) by (split; [done|lia]).
    eapply runs_mono; [apply IH; [done|lia|left; rewrite length_drop; destruct Hf as [?|[_ ?]]; lia]|].
    intros r f' (H1' & [H2' H2''] & H3 & H4). cbn [tf_handle tf_pos tf_mem] in *. split; [done|]. split; [done|].
    assert (Haf : after p (length (take (Z.to_nat n) l)) = p + n) by (rewrite after_inside by done; lia).
    rewrite Hd in H3. split; [eapply agree_trans; [|apply (agree_overwrite p)|exact H3]; lia|].
    destruct r as [e|q]; [done|]. destruct H4 as [-> H4]. rewrite <- (take_drop (Z.to_nat n) l) at 2 3.
    rewrite length_app, after_app, Haf. split; [done|]. rewrite stored_app, Haf. split; [|done].
    eapply (stored_agree _ _ _ _ (p + n)); [done|lia|exact H3|]. rewrite stored_inside by done.
    intros i Hi. by apply overwrite_at.
Qed.

Lemma raw_write_run buf p f : ops_ok f.(tf_handle) -> 0 <= p ->
  runs (raw_write buf p) f (fun r f' =>
    ops_ok f'.(tf_handle) /\ same_file f f' /\ agree p (data f) (data f') /\
    match r with
    | inl e => e <> COUCHSTORE_SUCCESS /\ (ops_reliable -> False)
    | inr n => p + n = after p (length buf) /\ stored (data f') p buf
    end).
Proof.
  intros Hok Hp. unfold raw_write. run. eapply runs_mono; [apply raw_write_loop_run; [done|done|by left]|].
  intros [e|q] f' (H1' & H2' & H3 & H4); run; split; try done. split; [done|]. split; [done|].
  destruct H4 as [-> H4]. split; [lia|done].
Qed.

(** What was read at [p] inside of a block is what is stored there. *)
Lemma read_prefix d p b bs : 0 <= p -> b `prefix_of` drop (Z.to_nat p) d -> stored d p bs ->
  (length b <= length bs)%nat -> inside p (length b) -> take (length b) bs = b.
Proof.
  intros Hp [r Hr] Hs Hl Hi. rewrite <- (take_drop (length b) bs), stored_app in Hs. destruct Hs as [Hs _].
  assert (Hlt : length (take (length b) bs) = length b) by (rewrite length_take; lia).
  rewrite stored_inside in Hs by (rewrite ?Hlt; done). apply list_eq_same_length with (length b); [done|done|].
  intros i x y Hii Hx Hy. rewrite <- Hs in Hx by lia. rewrite <- lookup_drop, Hr, lookup_app_l in Hx by done. congruence.
Qed.

Lemma read_bytes_run fuel p n dst f bs :
  ops_ok f.(tf_handle) -> 0 <= p -> skip p = p -> stored (data f) p bs -> n = len bs -> (length bs <= fuel)%nat ->
  runs (read_loop fuel p n dst) f (fun r f' =>
    ops_ok f'.(tf_handle) /\ same_file f f' /\ data f' = data f /\
    match r with
    | inl e => e <> COUCHSTORE_SUCCESS /\ (ops_reliable -> False)
    | inr (q, b) => b = dst ++ bs /\ q = skip (after p (length bs))
    end).
Proof.
  revert p n dst f bs. induction fuel as [|fuel IH]; intros p n dst f bs Hok Hp Hsk Hs -> Hf.
  { destruct bs; [|simpl in Hf; lia]. cbn [read_loop]. change (len [] <=? 0) with true. cbn iota. run. rewrite app_nil_r. split; [done|]. split; [done|]. split; [done|]. by cbn [after length]. }
  cbn [read_loop]. unfold len. destruct (Z.leb_spec (Z.of_nat (length bs)) 0) as [Hz|Hz].
  { destruct bs; [|simpl in Hz; lia]. run. rewrite app_nil_r. split; [done|]. split; [done|]. split; [done|]. by cbn [after length]. }
  cbv zeta. pose proof (Z.mod_pos_bound p COUCH_BLOCK_SIZE ltac:(done)) as Hm.
  assert (Hp0 : p mod COUCH_BLOCK_SIZE <> 0) by (intros He; unfold skip in Hsk; rewrite (proj2 (Z.eqb_eq _ _) He) in Hsk; lia).
  set (m := if _ <? _ then _ else _).
  assert (Hml : 0 < m <= Z.of_nat (length bs) /\ m <= COUCH_BLOCK_SIZE - p mod COUCH_BLOCK_SIZE)
    by (unfold m; destruct (Z.ltb_spec (Z.of_nat (length bs)) (COUCH_BLOCK_SIZE - p mod COUCH_BLOCK_SIZE)); lia).
  clearbody m. run. apply runs_handle. eapply runs_mono; [apply pread_law; [done|lia|done]|].
  intros [e|b] h' (Hok' & Hd & Hr); [by run|]. destruct Hr as (Hpre & Hlb & Hne). unfold len in Hlb.
  destruct b as [|b0 b].
  { run. exfalso. specialize (Hne eq_refl). destruct bs as [|x bs]; [simpl in Hz; lia|]. destruct Hs as [Hx _].
    apply lookup_lt_Some in Hx. rewrite Hsk in Hx. unfold len in Hne. lia. }
  set (c := b0 :: b) in *. assert (Hi : inside p (length c)) by (split; [done|lia]).
  assert (Hc : (0 < length c)%nat) by (unfold c; simpl; lia).
  pose proof (read_prefix _ _ _ _ Hp Hpre Hs ltac:(lia) Hi) as Ht. rewrite <- (take_drop (length c) bs), stored_app, Ht in Hs.
  destruct Hs as [_ Hs]. rewrite after_inside in Hs by done. pose proof (skip_ge (p + len c)) as Hg. unfold len in *.
  eapply runs_mono; [apply (IH _ _ _ _ (drop (length c) bs)); [done|lia|apply skip_idem; lia| | |]|].
  - cbn [tf_handle]. rewrite Hd. apply stored_skip; [lia|done].
  - unfold len. rewrite length_drop. lia.
  - rewrite length_drop. lia.
  - intros r f' (H1' & H2' & H3 & H4). cbn [tf_handle] in *. split; [done|]. split; [done|]. split; [congruence|].
    destruct r as [e|[q b']]; [done|]. destruct H4 as [-> ->]. rewrite <- app_assoc. rewrite <- Ht at 1. rewrite take_drop. split; [done|].
    rewrite <- (take_drop (length c) bs) at 2. rewrite length_app, after_app, Ht, (after_inside p) by done.
    destruct (length (drop (length c) bs)); cbn [after]; [|rewrite skip_idem by lia; done]. rewrite skip_idem; [done|lia].
Qed.

Lemma read_run p f bs : ops_ok f.(tf_handle) -> 0 <= p -> stored (data f) p bs ->
  runs (read_skipping_prefixes p (len bs)) f (fun r f' =>
    ops_ok f'.(tf_handle) /\ same_file f f' /\ data f' = data f /\
    match r with
    | inl e => e <> COUCHSTORE_SUCCESS /\ (ops_reliable -> False)
    | inr (q, b) => b = bs /\ 0 <= q /\ forall bs', stored (data f) (after p (length bs)) bs' -> stored (data f) q bs'
    end).
Proof.
  intros Hok Hp Hs. pose proof (skip_ge p). pose proof (after_ge (skip p) (length bs)).
  eapply runs_mono; [apply (read_bytes_run _ _ _ _ _ bs); [done|lia|by apply skip_idem|by apply stored_skip|done|unfold len; lia]|].
  intros r f' (G1 & G2 & G3 & G4). split; [done|]. split; [done|]. split; [done|]. destruct r as [e|[q b]]; [done|].
  destruct G4 as [-> ->]. split; [done|]. pose proof (skip_ge (after (skip p) (length bs))). split; [lia|].
  intros bs' Hs'. apply stored_skip; [lia|]. destruct bs as [|x bs]; cbn [after length] in *; [by apply stored_skip|]. by rewrite skip_idem.
Qed.

(** ** Writing chunks *)

(** The checksum is a number of 32 bits. *)
Lemma hash_crc32_range l : 0 <= hash_crc32 l < 2 ^ 32.
Proof.
  assert (Ht : forall i, fits 32 (default 0 (zlookup crc32tab i))).
  { intros i. unfold zlookup. destruct (0 <=? i); [|by split]. destruct (crc32tab !! Z.to_nat i) as [x|] eqn:Hx; [|by split].
    assert (Hf : Forall (fun x => 0 <= x /\ x < 2 ^ 32) crc32tab) by (apply (bool_decide_unpack _); vm_compute; exact I).
    exact (proj1 (Forall_lookup _ _) Hf _ _ Hx). }
  assert (Hr : forall c b, fits 32 c -> fits 32 (crc32_round c b)).
  { intros c b Hc. apply lxor_fits; [lia| |apply Ht]. apply (shiftr_fits 32 8) in Hc; [|lia]. unfold fits in *. lia. }
  apply (lxor_fits 32); [lia| |apply ones32]. assert (Hc : fits 32 4294967295) by apply ones32. revert Hc. generalize 4294967295.
  induction l as [|b l IH]; intros c Hc; [done|]. cbn [foldl]. by apply IH, Hr.
Qed.

(** The record of a length [sz], the checksum and the bytes [buf]. *)
Definition record (sz : Z) (buf : list Z) : list Z := be_bytes 4 sz ++ be_bytes 4 (hash_crc32 buf) ++ buf.

Lemma record_length sz buf : length (record sz buf) = (8 + length buf)%nat.
Proof. unfold record. rewrite !length_app, !be_bytes_length. lia. Qed.

(** The chunk of the bytes [buf] is at [p], below [q]. *)
Definition chunk_at (d : list Z) (p : Z) (buf : list Z) (q : Z) : Prop :=
  0 <= p /\ len buf < 2 ^ 31 /\ after p (8 + length buf) <= q /\ stored d p (record (Z.lor (len buf) 0x80000000) buf).

Lemma chunk_agree d d' p buf q q' : agree q d d' -> q <= q' -> chunk_at d p buf q -> chunk_at d' p buf q'.
Proof.
  intros Ha Hq (H1' & H2' & H3 & H4). split; [done|]. split; [done|]. split; [lia|].
  eapply stored_agree; [done| |exact Ha|done]. by rewrite record_length.
Qed.

(** The file has grown: bytes below the old end stay. *)
Definition grows f f' : Prop :=
  ops_ok f'.(tf_handle) /\ f.(tf_pos) <= f'.(tf_pos) /\ agree f.(tf_pos) (data f) (data f').

Lemma grows_trans f f' f'' : grows f f' -> grows f' f'' -> grows f f''.
Proof. intros (_ & H1' & H2') (H3 & H4 & H5). split; [done|]. split; [lia|]. by eapply agree_trans. Qed.

Lemma lor_flag n : 0 <= n < 2 ^ 31 -> Z.lor n 0x80000000 = n + 2 ^ 31.
Proof.
  intros Hn. change 0x80000000 with (2 ^ 31). rewrite <- Z.add_lor_land. enough (Z.land n (2 ^ 31) = 0) as -> by lia.
  apply Z.bits_inj'. intros i Hi. rewrite Z.land_spec, Z.bits_0, Z.pow2_bits_eqb by lia.
  destruct (Z.eqb_spec 31 i) as [<-|]; [|apply andb_false_r]. rewrite andb_true_r.
  destruct (Z.eq_dec n 0) as [->|]; [done|]. apply Z.bits_above_log2; [lia|]. apply Z.log2_lt_pow2; lia.
Qed.

Lemma db_write_buf_run buf f : ops_ok f.(tf_handle) -> 0 <= f.(tf_pos) -> len buf < 2 ^ 31 ->
  runs (db_write_buf buf) f (fun r f' =>
    grows f f' /\ f'.(tf_mem) = f.(tf_mem) /\
    match r with
    | inl e => e <> COUCHSTORE_SUCCESS /\ (ops_reliable -> False)
    | inr (p, n) => p = f.(tf_pos) /\ chunk_at (data f') p buf f'.(tf_pos)
    end).
Proof.
  intros Hok Hp Hl. unfold db_write_buf. run. eapply runs_mono; [by apply raw_write_run|].
  assert (Hb : 0 <= len buf) by (unfold len; lia).
  intros [e|n] f1 (G1 & [G2 G3] & G4 & G5); run;
    [split; [split; [done|split; [rewrite G2; lia|done]]|by split]|].
  destruct G5 as [Hn Hs]. rewrite (lor_flag (len buf)) in * by lia.
  set (hd := be_bytes 4 _ ++ be_bytes 4 _) in *. pose proof (after_ge (tf_pos f) (length hd)).
  eapply runs_mono; [apply raw_write_run; [done|lia]|]. intros [e|n'] f2 (K1 & [K2 K3] & K4 & K5); run.
  { split; [|by rewrite K3]. split; [done|]. rewrite K2, G2. split; [lia|]. eapply agree_trans; [|done|done]. lia. }
  unfold set_pos. run. destruct K5 as [Hn' Hs']. unfold grows. cbn [tf_handle tf_pos tf_mem]. rewrite Hn in Hn', Hs', K4 |- *.
  pose proof (after_ge (after (tf_pos f) (length hd)) (length buf)).
  split; [split; [done|]; split; [lia|]; eapply agree_trans; [|exact G4|exact K4]; lia|].
  split; [congruence|]. split; [done|]. split; [done|]. split; [done|]. rewrite lor_flag by lia.
  assert (Hh : length hd = 8%nat) by (unfold hd; by rewrite length_app, !be_bytes_length).
  rewrite <- Hh, after_app. split; [lia|]. unfold record. replace (be_bytes 4 (len buf + 2 ^ 31)) with (be_bytes 4 (u32 (len buf + 2 ^ 31)))
    by (f_equal; apply u32_small; lia). rewrite app_assoc. fold hd. rewrite stored_app. split; [|done].
  eapply stored_agree; [done| |exact K4|exact Hs]. lia.
Qed.

(** ** Reading chunks *)

(** No call of [malloc] fails. *)
Definition malloc_total : Prop := forall n size, malloc_ok n size = true.

Lemma malloc_out size s (Q : ptr -> mem -> Prop) : mem_ok s ->
  (forall s', balanced s s' -> (malloc_total -> False) -> Q Null s') ->
  (forall n s', grown s s' [n] -> Q (Block n) s') -> runs (malloc size) s Q.
Proof.
  intros Hs H0' H1'. destruct (malloc_ok (m_calls s) size) eqn:Hm.
  - eapply (runs_mono _ _ (fun p s' => exists n, p = Block n /\ grown s s' [n])); [|by intros ? s' (n & -> & Hg); apply H1'].
    destruct (malloc_run size s (fun p s' => p <> Null -> exists n, p = Block n /\ grown s s' [n]) Hs) as (p & s' & He & HQ);
      [done|intros n s' Hg _; by exists n|]. exists p, s'. split; [done|]. apply HQ. intros ->. unfold malloc in He. by rewrite Hm in He.
  - apply malloc_run; [done|intros s' Hb; apply H0'; [done|intros Ht; by rewrite Ht in Hm]|done].
Qed.

(** The memory after a call: the result was allocated, or nothing. *)
Definition reads f f' : Prop := ops_ok f'.(tf_handle) /\ data f' = data f /\ f'.(tf_pos) = f.(tf_pos).

Lemma reads_grows f f' : reads f f' -> grows f f'.
Proof. intros (H1' & H2' & H3). split; [done|]. rewrite H3, H2'. split; [done|apply agree_refl]. Qed.

(** The lengths of a record that [pread_bin_internal] accepts. *)
Definition length_ok (sz max : Z) (buf : list Z) : Prop :=
  0 <= sz < 2 ^ 32 /\
  if max =? 0 then sz mod 2 ^ 31 = len buf else 4 <= sz mod 2 ^ 31 <= max /\ sz mod 2 ^ 31 - 4 = len buf.

Lemma pread_internal_run p max sz buf f :
  ops_ok f.(tf_handle) -> mem_ok f.(tf_mem) -> 0 <= p -> length_ok sz max buf -> stored (data f) p (record sz buf) ->
  runs (pread_bin_internal p max) f (fun r f' => reads f f' /\
    match r with
    | inl e => e <> COUCHSTORE_SUCCESS /\ (ops_reliable -> malloc_total -> False) /\ balanced f.(tf_mem) f'.(tf_mem)
    | inr (ptr, b) => b = buf /\ exists n, ptr = Block n /\ grown f.(tf_mem) f'.(tf_mem) [n]
    end).
Proof.
  intros Hok Hm Hp [Hz Hlen] Hs. unfold record in Hs. rewrite app_assoc in Hs. set (hd := be_bytes 4 sz ++ be_bytes 4 (hash_crc32 buf)) in *.
  assert (Hh : length hd = 8%nat) by (unfold hd; by rewrite length_app, !be_bytes_length). pose proof Hs as Hs0.
  rewrite stored_app in Hs. destruct Hs as [Hs1 Hs2]. unfold pread_bin_internal. run.
  replace 8 with (len hd) by (unfold len; by rewrite Hh). eapply runs_mono; [by apply read_run|].
  intros [e|[q b]] f1 (G1 & [G2 G3] & G4 & G5); run.
  { split; [done|]. split; [apply G5|]. split; [intros Hr; by destruct G5|]. rewrite G3. by apply balanced_refl. }
  destruct G5 as (-> & Hq & Hnext). cbv zeta.
  assert (Ht : take 4 hd = be_bytes 4 sz) by (unfold hd; apply take_app_length'; by rewrite be_bytes_length).
  assert (Hd : drop 4 hd = be_bytes 4 (hash_crc32 buf)) by (unfold hd; apply drop_app_length'; by rewrite be_bytes_length).
  rewrite Ht, Hd, !be_val_bytes. change (8 * Z.of_nat 4) with 32. rewrite (Z.mod_small sz) by done.
  rewrite (Z.mod_small (hash_crc32 buf)) by apply hash_crc32_range. change 0x7FFFFFFF with (Z.ones 31). rewrite Z.land_ones by lia.
  set (cl := if max =? 0 then sz mod 2 ^ 31 else sz mod 2 ^ 31 - 4).
  assert (Hcl : cl = len buf) by (unfold cl; destruct (max =? 0); naive_solver).
  replace (negb (max =? 0) && _) with false.
  2:{ destruct (max =? 0); [done|]. cbn [negb andb]. symmetry. apply orb_false_iff. split; [apply Z.ltb_ge|apply Z.ltb_ge]; lia. }
  run. apply runs_mem, malloc_out; [by rewrite G3| |]; [intros s' Hb Hn|intros n s' Hg]; cbn [tf_pos tf_handle tf_mem].
  { rewrite decide_True by done. run. split; [done|]. split; [done|]. split; [by intros _|]. by rewrite <- G3. }
  rewrite decide_False by done. run. rewrite Hcl. eapply runs_mono; [apply (read_run q _ buf); [done|done|cbn [tf_handle]; rewrite G4; by apply Hnext]|].
  intros [e|[q' b]] f2 (K1 & [K2 K3] & K4 & K5); cbn [tf_pos tf_handle tf_mem] in *; run.
  - apply runs_mem. rewrite K3, <- G3. eapply (free_block_run n [] _ _ _ Hg). intros s2 Hb%grown_nil. run. split; [by split; [|split; cbn; congruence]|].
    split; [apply K5|]. split; [intros Hr; by destruct K5|]. done.
  - destruct K5 as (-> & _ & _). rewrite Z.eqb_refl, andb_false_r. run. split; [by split; [|split; cbn; congruence]|].
    split; [done|]. exists n. split; [done|]. by rewrite K3, <- G3.
Qed.

Lemma chunk_length buf : len buf < 2 ^ 31 -> length_ok (Z.lor (len buf) 0x80000000) 0 buf.
Proof.
  intros Hl. assert (0 <= len buf) by (unfold len; lia). rewrite lor_flag by lia. split; [lia|]. cbn [Z.eqb].
  replace (len buf + 2 ^ 31) with (len buf + 1 * 2 ^ 31) by lia. rewrite Z.mod_add by lia. by apply Z.mod_small.
Qed.

Lemma pread_bin_run p buf q f : ops_ok f.(tf_handle) -> mem_ok f.(tf_mem) -> chunk_at (data f) p buf q ->
  runs (pread_bin p) f (fun r f' => reads f f' /\
    match r with
    | inl e => e <> COUCHSTORE_SUCCESS /\ (ops_reliable -> malloc_total -> False) /\ balanced f.(tf_mem) f'.(tf_mem)
    | inr (ptr, b) => b = buf /\ exists n, ptr = Block n /\ grown f.(tf_mem) f'.(tf_mem) [n]
    end).
Proof. intros Hok Hm (Hp & Hl & _ & Hs). eapply pread_internal_run; [done|done|done|by apply chunk_length|done]. Qed.

(** ** Compressed chunks *)

(** The documented bound of the compressor. *)
Context (snappy_max : forall n, 0 <= n -> snappy_max_compressed_length n <= 32 + n + n / 6) {SOK : SnappyOk}.

Definition node_at (d : list Z) (p : Z) (bytes : list Z) (q : Z) : Prop :=
  len bytes < 2 ^ 30 /\ exists c, snappy_compress bytes = Some c /\ chunk_at d p c q.

Lemma node_agree d d' p bytes q q' : agree q d d' -> q <= q' -> node_at d p bytes q -> node_at d' p bytes q'.
Proof. intros Ha Hq (Hl & c & Hc & Hn). split; [done|]. exists c. split; [done|]. by eapply chunk_agree. Qed.

Lemma write_compressed_run buf f : ops_ok f.(tf_handle) -> mem_ok f.(tf_mem) -> 0 <= f.(tf_pos) -> len buf < 2 ^ 30 ->
  runs (db_write_buf_compressed buf) f (fun r f' =>
    grows f f' /\ balanced f.(tf_mem) f'.(tf_mem) /\
    match r with
    | inl e => e <> COUCHSTORE_SUCCESS /\ (ops_reliable -> malloc_total -> False)
    | inr (p, n) => p = f.(tf_pos) /\ node_at (data f') p buf f'.(tf_pos)
    end).
Proof.
  intros Hok Hm Hp Hl. assert (Hl0 : 0 <= len buf) by (unfold len; lia). unfold db_write_buf_compressed. run.
  apply runs_mem, malloc_out; [done| |]; [intros s' Hb Hn|intros n s' Hg].
  { rewrite decide_True by done. run. split; [by split; [|split; [|apply agree_refl]]|]. split; [done|]. split; [done|by intros _]. }
  rewrite decide_False by done. destruct (snappy_total buf ltac:(lia)) as (c & Hc).
  pose proof (snappy_bound _ _ Hc) as Hb. run; [exact Hc|by apply Z.leb_le|].
  assert (Hlc : len c < 2 ^ 31).
  { pose proof (snappy_max _ Hl0). pose proof (Z.div_le_upper_bound (len buf) 6 (2 ^ 28) ltac:(lia) ltac:(lia)). lia. }
  eapply runs_mono; [by apply db_write_buf_run|]. intros r f' (G1 & G2 & G3). cbn [tf_pos tf_handle tf_mem] in *.
  run. apply runs_mem. rewrite G2. eapply (free_block_run n [] _ _ _ Hg). intros s2 Hbal%grown_nil. run. split; [done|]. split; [done|].
  destruct r as [e|[p k]]; [split; [apply G3|]; intros Hr _; by destruct G3|]. destruct G3 as [-> G3]. split; [done|].
  split; [done|]. by exists c.
Qed.

Lemma pread_compressed_run p bytes q f : ops_ok f.(tf_handle) -> mem_ok f.(tf_mem) -> node_at (data f) p bytes q ->
  runs (pread_compressed p) f (fun r f' => reads f f' /\
    match r with
    | inl e => e <> COUCHSTORE_SUCCESS /\ (ops_reliable -> malloc_total -> False) /\ balanced f.(tf_mem) f'.(tf_mem)
    | inr (ptr, b) => b = bytes /\ exists n, ptr = Block n /\ grown f.(tf_mem) f'.(tf_mem) [n]
    end).
Proof.
  intros Hok Hm (Hl & c & Hc & Hn). unfold pread_compressed. run. eapply runs_mono; [by eapply pread_bin_run|].
  intros [e|[ptr b]] f1 (G1 & G2); [by run|]. destruct G2 as (-> & n & -> & Hg). rewrite (snappy_length _ _ _ Hc) by done.
  run. destruct Hg as [Hm1 Hg']. pose proof (conj Hm1 Hg' : grown _ _ [n]) as Hg.
  apply runs_mem, malloc_out; [done| |]; [intros s' Hb Hno|intros n' s' Hg2]; cbn [tf_pos tf_handle tf_mem].
  { rewrite decide_True by done. run. apply runs_mem. eapply (free_block_run n []); [by eapply grown_balanced|].
    intros s2 Hb2%grown_nil. run. split; [done|]. split; [done|]. split; [by intros _|]. done. }
  rewrite decide_False by done. rewrite (snappy_inverse _ _ Hc). run. apply runs_mem.
  eapply (free_block_run n [n']); [exact (grown_trans _ _ _ _ _ Hg Hg2)|]. intros s2 Hg3. run; [apply Z.ltb_lt; lia|].
  split; [done|]. split; [done|]. by exists n'.
Qed.

(** ** Everything that was written can be read *)

(** Chunks are written one after the other; the positions are collected. *)
Fixpoint write_all (bufs : list (list Z)) : M (tree_file F) (list Z) :=
  match bufs with
  | [] => mret []
  | b :: bufs' =>
      r ← db_write_buf_compressed b;
      match r with
      | inl _ => crash
      | inr (p, _) => ps ← write_all bufs'; mret (p :: ps)
      end
  end.

Fixpoint read_all (ps : list Z) : M (tree_file F) (list (list Z)) :=
  match ps with
  | [] => mret []
  | p :: ps' =>
      r ← pread_compressed p;
      match r with
      | inl _ => crash
      | inr (buf, b) => on_mem (free buf);; bs ← read_all ps'; mret (b :: bs)
      end
  end.

Definition small (bufs : list (list Z)) : Prop := Forall (fun b => len b < 2 ^ 30) bufs.

Lemma write_all_run bufs f : ops_reliable -> malloc_total ->
  ops_ok f.(tf_handle) -> mem_ok f.(tf_mem) -> 0 <= f.(tf_pos) -> small bufs ->
  runs (write_all bufs) f (fun ps f' => grows f f' /\ balanced f.(tf_mem) f'.(tf_mem) /\
    Forall2 (fun p b => node_at (data f') p b f'.(tf_pos)) ps bufs).
Proof.
  intros Hr Ht. revert f. induction bufs as [|b bufs IH]; intros f Hok Hm Hp Hs; cbn [write_all]; run.
  { split; [by split; [|split; [|apply agree_refl]]|]. split; [by apply balanced_refl|constructor]. }
  apply Forall_cons in Hs as [Hb Hs]. eapply runs_mono; [by apply write_compressed_run|].
  intros [e|[p n]] f1 (G1 & G2 & G3); [by destruct (proj2 G3 Hr Ht)|]. run. pose proof G1 as (G1a & G1b & G1c).
  eapply runs_mono; [apply IH; [done|apply G2|lia|done]|]. intros ps f2 (K1 & K2 & K3). run.
  split; [by eapply grows_trans|]. split; [split; [apply K2|]; rewrite (proj2 K2); apply G2|]. constructor; [|done].
  destruct G3 as [_ G3]. destruct K1 as (_ & K1b & K1c). by eapply node_agree.
Qed.

Lemma read_all_run ps bufs q f : ops_reliable -> malloc_total -> ops_ok f.(tf_handle) -> mem_ok f.(tf_mem) ->
  Forall2 (fun p b => node_at (data f) p b q) ps bufs ->
  runs (read_all ps) f (fun bs f' => bs = bufs /\ balanced f.(tf_mem) f'.(tf_mem)).
Proof.
  intros Hr Ht. revert bufs f. induction ps as [|p ps IH]; intros bufs f Hok Hm Hn; cbn [read_all].
  { apply Forall2_nil_inv_l in Hn as ->. run. split; [done|by apply balanced_refl]. }
  apply Forall2_cons_inv_l in Hn as (b & bufs' & Hb & Hn & ->). run. eapply runs_mono; [by eapply pread_compressed_run|].
  intros [e|[ptr b']] f1 ((G1 & G2 & G3) & G4); [by destruct (proj1 (proj2 G4) Hr Ht)|]. destruct G4 as (-> & n & -> & Hg).
  run. apply runs_mem. eapply (free_block_run n [] _ _ _ Hg). intros s2 Hb2%grown_nil. run.
  eapply runs_mono; [apply (IH bufs'); [done|apply Hb2|cbn [tf_handle]; by rewrite G2]|]. intros bs f2 [-> K2]. run. split; [done|].
  cbn [tf_mem] in K2. split; [apply K2|]. rewrite (proj2 K2). apply Hb2.
Qed.

(** C20: chunks that are written to a file one after the other are all read back, byte for
    byte, from the positions that the writes returned, whatever the lengths of the reads
    and writes that the operating system does, and no memory is leaked. *)
Theorem chunks_roundtrip bufs f :
  ops_reliable -> malloc_total -> ops_ok f.(tf_handle) -> mem_ok f.(tf_mem) -> 0 <= f.(tf_pos) -> small bufs ->
  runs (ps ← write_all bufs; read_all ps) f (fun bs f' => bs = bufs /\ balanced f.(tf_mem) f'.(tf_mem)).
Proof.
  intros Hr Ht Hok Hm Hp Hs. run. eapply runs_mono; [by apply write_all_run|]. intros ps f1 (G1 & G2 & G3).
  eapply runs_mono; [apply (read_all_run ps bufs f1.(tf_pos)); [done|done|apply G1|apply G2|done]|].
  intros bs f2 [-> K2]. split; [done|]. split; [apply K2|]. rewrite (proj2 K2). apply G2.
Qed.

(** C21: a chunk of which one byte was changed in the file is not returned: the reader
    reports the failed checksum and frees its memory. (A stored checksum of zero switches
    the test off.) *)
Theorem corruption_detected p l r b b' f :
  ops_reliable -> malloc_total -> ops_ok f.(tf_handle) -> mem_ok f.(tf_mem) -> 0 <= p ->
  bytes_ok (l ++ b :: r) -> byte_ok b' -> b <> b' -> len (l ++ b :: r) < 2 ^ 31 -> hash_crc32 (l ++ b :: r) <> 0 ->
  stored (data f) p (be_bytes 4 (Z.lor (len (l ++ b :: r)) 0x80000000) ++ be_bytes 4 (hash_crc32 (l ++ b :: r)) ++ l ++ b' :: r) ->
  runs (pread_bin p) f (fun res f' => res = inl COUCHSTORE_ERROR_CHECKSUM_FAIL /\ balanced f.(tf_mem) f'.(tf_mem)).
Proof.
  intros Hr Ht Hok Hm Hp Hby Hb' Hne Hl Hcrc Hs. apply Forall_app in Hby as Hlr. destruct Hlr as [Hll [Hbb Hrr]%Forall_cons].
  pose proof (crc32_one_byte l r b b' Hll Hrr Hbb Hb' Hne) as Hdiff.
  assert (Hle : len (l ++ b' :: r) = len (l ++ b :: r)) by (unfold len; by rewrite !length_app).
  assert (Hcl := chunk_length _ Hl). destruct Hcl as [Hz Hmod]. cbn [Z.eqb] in Hmod.
  set (sz := Z.lor _ _) in *. set (crc := hash_crc32 (l ++ b :: r)) in *. rewrite app_assoc, stored_app in Hs. destruct Hs as [Hs1 Hs2].
  set (hd := be_bytes 4 sz ++ be_bytes 4 crc) in *. unfold pread_bin, pread_bin_internal. run.
  replace 8 with (len hd) by (unfold hd, len; by rewrite length_app, !be_bytes_length). eapply runs_mono; [by apply read_run|].
  intros [e|[q x]] f1 (G1 & [G2 G3] & G4 & G5); [by destruct (proj2 G5 Hr)|]. destruct G5 as (-> & Hq & Hnext). cbv zeta.
  assert (Htk : take 4 hd = be_bytes 4 sz) by (unfold hd; apply take_app_length'; by rewrite be_bytes_length).
  assert (Hdr : drop 4 hd = be_bytes 4 crc) by (unfold hd; apply drop_app_length'; by rewrite be_bytes_length).
  rewrite Htk, Hdr, !be_val_bytes. change (8 * Z.of_nat 4) with 32. rewrite (Z.mod_small sz) by done.
  rewrite (Z.mod_small crc) by apply hash_crc32_range. change 0x7FFFFFFF with (Z.ones 31). rewrite Z.land_ones by lia.
  cbn [Z.eqb negb andb]. rewrite Hmod, <- Hle. run. apply runs_mem, malloc_out; [by rewrite G3|by intros s' _ Hno; destruct (Hno Ht)|].
  intros n s' Hg. rewrite decide_False by done. run.
  eapply runs_mono; [apply (read_run q _ (l ++ b' :: r)); [done|done|cbn [tf_handle]; rewrite G4; by apply Hnext]|].
  intros [e|[q' x]] f2 (K1 & [K2 K3] & K4 & K5); [by destruct (proj2 K5 Hr)|]. destruct K5 as (-> & _ & _). cbn [tf_mem] in *.
  rewrite (proj2 (Z.eqb_neq crc 0)), (proj2 (Z.eqb_neq crc _)) by done. cbn [negb andb]. run. apply runs_mem.
  rewrite K3, <- G3. eapply (free_block_run n [] _ _ _ Hg). intros s2 Hb2%grown_nil. run. done.
Qed.

(** ** Headers *)

(** The first position from [pos] on at which a block starts. *)
Definition block_start (pos : Z) : Z := pos + (- pos) mod COUCH_BLOCK_SIZE.

Lemma block_start_spec pos :
  (if negb (pos mod COUCH_BLOCK_SIZE =? 0) then pos + (COUCH_BLOCK_SIZE - pos mod COUCH_BLOCK_SIZE) else pos) = block_start pos.
Proof.
  unfold block_start, COUCH_BLOCK_SIZE. destruct (Z.eqb_spec (pos mod 4096) 0) as [E|E]; cbn [negb].
  - rewrite Z.mod_opp_l_z by lia. lia.
  - rewrite Z.mod_opp_l_nz by lia. lia.
Qed.

(** In this run the one [pwrite] of the mark of a block, the length and the checksum of
    the header takes all nine bytes. An operating system may take fewer, and
    [write_header] does not write the rest. *)
Definition mark_written (buf : list Z) (f : tree_file F) : Prop :=
  fst <$> ops_pwrite (1 :: be_bytes 4 (len buf + 4) ++ be_bytes 4 (hash_crc32 buf)) (block_start f.(tf_pos)) f.(tf_handle)
  = Some (inr 9).

(** C22: when no file operation and no allocation fails, and the one write of the nine
    bytes of mark, length and checksum is not short (the data itself may be written in
    any pieces), a header that is written is found at the start of a block, after a byte
    that marks it, and is read back; the bytes of the file before it stay. *)
Theorem header_roundtrip buf max f :
  ops_reliable -> malloc_total -> mark_written buf f -> ops_ok f.(tf_handle) -> mem_ok f.(tf_mem) -> 0 <= f.(tf_pos) ->
  len buf + 4 <= max < 2 ^ 31 ->
  runs (write_header buf) f (fun r f' => exists p, r = inr p /\ p mod COUCH_BLOCK_SIZE = 0 /\
    f.(tf_pos) <= p < f'.(tf_pos) /\ agree f.(tf_pos) (data f) (data f') /\ data f' !! Z.to_nat p = Some 1 /\
    runs (pread_header p max) f' (fun r _ => exists n, r = inr (Block n, buf))).
Proof.
  intros Hr Ht Hw Hok Hm Hp Hl. assert (Hb : 0 <= len buf) by (unfold len; lia). unfold write_header. run.
  rewrite block_start_spec. unfold mark_written in Hw. rewrite <- (u32_small (len buf + 4)) in Hw by lia.
  set (wp := block_start _) in *. set (hd := be_bytes 4 _ ++ be_bytes 4 _) in *.
  assert (Hwp : wp mod COUCH_BLOCK_SIZE = 0 /\ f.(tf_pos) <= wp).
  { unfold wp, block_start. pose proof (Z.mod_pos_bound (- f.(tf_pos)) COUCH_BLOCK_SIZE ltac:(done)). split; [|lia].
    rewrite Z.add_mod_idemp_r, Z.add_opp_diag_r by done. done. }
  clearbody wp. destruct Hwp as [Hw0 Hwp].
  assert (Hh : length hd = 8%nat) by (unfold hd; by rewrite length_app, !be_bytes_length).
  apply runs_handle. destruct (pwrite_law f.(tf_handle) (1 :: hd) wp Hok ltac:(done) ltac:(lia)) as (r & h & He & Hok' & Hres).
  exists r, h. split; [done|]. destruct r as [e|n]; [by destruct (proj1 (proj2 Hres) Hr)|].
  assert (Hh9 : len (1 :: hd) = 9) by (unfold len; cbn [length]; by rewrite Hh).
  rewrite He in Hw. injection Hw as ->.
  destruct Hres as [_ Hd]. rewrite take_ge in Hd by (cbn [length]; rewrite Hh; lia).
  run. eapply runs_mono; [apply raw_write_run; [done|lia]|]. intros [e|n] f1 (G1 & [G2 G3] & G4 & G5); [by destruct (proj2 G5 Hr)|].
  unfold set_pos. run. destruct G5 as [Hn Hs]. cbn [tf_handle tf_mem tf_pos] in *. pose proof (after_ge (wp + 9) (length buf)).
  assert (Hin : inside (wp + 1) (length hd)).
  { unfold inside, COUCH_BLOCK_SIZE in *. rewrite Hh, Z.add_mod, Hw0 by lia. done. }
  assert (Hagr : agree wp (data f) (data f1)).
  { eapply (agree_trans wp (wp + 9)); [lia| |exact G4]. rewrite Hd. apply agree_overwrite. }
  exists wp. split; [done|]. split; [done|]. split; [lia|]. split; [by eapply agree_le|]. split.
  { apply G4; [lia|]. rewrite Hd. pose proof (overwrite_at (Z.to_nat wp) (1 :: hd) (data f) 0 ltac:(simpl; lia)) as Ho. by rewrite Nat.add_0_r in Ho. }
  unfold pread_header. rewrite (proj2 (Z.eqb_neq max 0)) by lia.
  eapply runs_mono; [apply (pread_internal_run _ _ (len buf + 4) buf); cbn [tf_handle tf_mem tf_pos]; [done|by rewrite G3|lia| |]|].
  - split; [lia|]. rewrite (proj2 (Z.eqb_neq max 0)) by lia. rewrite Z.mod_small by lia. lia.
  - unfold record. rewrite app_assoc, stored_app. replace (be_bytes 4 (len buf + 4)) with (be_bytes 4 (u32 (len buf + 4)))
      by (f_equal; apply u32_small; lia). fold hd. rewrite after_inside, Hh by (lia || done). replace (wp + 1 + Z.of_nat 8) with (wp + 9) by lia.
    split; [|done]. eapply (stored_agree _ _ _ _ (wp + 9)); [lia|rewrite after_inside by (lia || done); lia|exact G4|].
    rewrite stored_inside by (lia || done). intros i Hi. rewrite Hd.
    pose proof (overwrite_at (Z.to_nat wp) (1 :: hd) (data f) (S i) ltac:(cbn [length]; lia)) as Ho.
    replace (Z.to_nat (wp + 1) + i)%nat with (Z.to_nat wp + S i)%nat by lia. exact Ho.
  - intros [e|[ptr b]] f2 (_ & K2); [by destruct (proj1 (proj2 K2) Hr Ht)|]. destruct K2 as (-> & k & -> & _). by exists k.
Qed.
End chunks.

(** * A file in memory *)

(** Every read and every write transfers at most [mem_chunk] bytes. *)
Definition mem_chunk : nat := 1000.

Definition mem_pwrite (b : list Z) (off : Z) : M (list Z) (couchstore_error_t + Z) := fun d =>
  let c := take mem_chunk b in Some (inr (len c), overwrite (Z.to_nat off) c d).

Definition mem_pread (n off : Z) : M (list Z) (couchstore_error_t + list Z) := fun d =>
  Some (inr (take (Nat.min mem_chunk (Z.to_nat n)) (drop (Z.to_nat off) d)), d).

#[global] Instance mem_file : FileOps (list Z) := { ops_pwrite := mem_pwrite; ops_pread := mem_pread }.

#[global] Instance mem_file_ok : FileOpsOk (list Z).
Proof.
  refine {| ops_ok _ := True; ops_data d := d; ops_reliable := True |}.
  - intros d n off _ Hn Hoff. eexists _, _. split; [reflexivity|]. split; [done|]. split; [done|]. split; [apply prefix_take|].
    unfold len. rewrite length_take. split; [lia|]. intros He. apply (f_equal length) in He. rewrite length_take, length_drop in He.
    unfold mem_chunk in He. cbn [length] in He. lia.
  - intros d b off _ Hb Hoff. eexists _, _. split; [reflexivity|]. split; [done|]. unfold len. rewrite length_take.
    assert (Hl : (0 < length b)%nat) by (destruct b; [done|simpl; lia]). assert (Hc : (0 < mem_chunk)%nat) by (apply Nat.ltb_lt; reflexivity).
    split; [lia|]. f_equal. rewrite Nat2Z.id. apply list_eq. intros i. destruct (decide (i < Nat.min mem_chunk (length b))%nat) as [Hi|Hi].
    + rewrite !lookup_take_lt by lia. done.
    + rewrite (lookup_take_ge _ (Nat.min _ _)) by lia. apply lookup_ge_None. rewrite length_take. lia.
Defined.

(** A compressor that adds one byte. *)
#[global] Instance plain_snappy : Snappy := {
  snappy_max_compressed_length n := n + 1; snappy_compress x := Some (0 :: x);
  snappy_uncompressed_length x n := Some (len x - 1); snappy_uncompress x n := Some (drop 1 x)
}.

#[global] Instance plain_snappy_ok : SnappyOk.
Proof.
  split.
  - intros x c [= <-]. cbn. unfold len. cbn [length]. lia.
  - intros x _. by eexists.
  - intros x c n [= <-] _. cbn. f_equal. unfold len. cbn [length]. lia.
  - by intros x c [= <-].
  - by intros x c [= <-].
Qed.

Lemma plain_snappy_max n : 0 <= n -> snappy_max_compressed_length n <= 32 + n + n / 6.
Proof. intros Hn. cbn. pose proof (Z.div_pos n 6 Hn ltac:(lia)). lia. Qed.

#[global] Instance all_mallocs : Alloc := fun _ _ => true.

Definition new_file : tree_file (list Z) := mk_tf 0 [] (mk_mem 0 ∅).

Lemma new_mem_ok : mem_ok (mk_mem 0 ∅).
Proof. by intros n Hn%elem_of_empty. Qed.

(** Three chunks, one of them longer than a block. *)
Definition demo_chunks : list (list Z) := [[1; 2; 3]; replicate 5000 7; [4]].

Lemma demo_small : small demo_chunks.
Proof. repeat constructor; vm_compute; reflexivity. Qed.

Lemma chunks_roundtrip_witness :
  runs (ps ← write_all demo_chunks; read_all ps) new_file (fun bs f' => bs = demo_chunks /\ balanced (mk_mem 0 ∅) f'.(tf_mem)).
Proof.
  apply (chunks_roundtrip plain_snappy_max demo_chunks new_file);
    [done|by intros n size|done|exact new_mem_ok|done|exact demo_small].
Defined.

Definition old_file : tree_file (list Z) := mk_tf 10 (replicate 10 9) (mk_mem 0 ∅).

Lemma header_roundtrip_witness :
  runs (write_header [5; 6; 7]) old_file (fun r f' => exists p, r = inr p /\ p mod COUCH_BLOCK_SIZE = 0 /\
    old_file.(tf_pos) <= p < f'.(tf_pos) /\ agree old_file.(tf_pos) (ops_data old_file.(tf_handle)) (ops_data f'.(tf_handle)) /\
    ops_data f'.(tf_handle) !! Z.to_nat p = Some 1 /\
    runs (pread_header p 100) f' (fun r _ => exists n, r = inr (Block n, [5; 6; 7]))).
Proof.
  apply (header_roundtrip [5; 6; 7] 100 old_file); [done|by intros n size|vm_compute; reflexivity|done|exact new_mem_ok|done|done].
Defined.

(** A chunk of three bytes, the second of which is wrong. *)
Definition bad_file : tree_file (list Z) :=
  mk_tf 100 (0 :: be_bytes 4 (Z.lor 3 0x80000000) ++ be_bytes 4 (hash_crc32 [1; 2; 3]) ++ [1; 9; 3]) (mk_mem 0 ∅).

Lemma corruption_detected_witness :
  runs (pread_bin 0) bad_file (fun res f' => res = inl COUCHSTORE_ERROR_CHECKSUM_FAIL /\ balanced (mk_mem 0 ∅) f'.(tf_mem)).
Proof.
  apply (corruption_detected 0 [1] [3] 2 9 bad_file);
    [done|by intros n size|done|exact new_mem_ok|done|by repeat constructor|done|done|done|vm_compute; discriminate|vm_compute; by repeat split].
Defined.
