(* ===== verification/Btree.v ===== *)
(** * Couchstore B+trees ([couchstore/src/btree_modify.cc], [btree_read.cc])

    Nodes are chunks of a file that are never changed: a modification writes new nodes
    from the leaves up and returns the pointer to a new root. The model has the functions
    of both files with their error paths; pointers into the arena are values, with the
    number of their allocation as identity. *)
From Stdlib Require Import ZArith Lia.
From stdpp Require Import strings gmap prelude.
From S2P Require Import Prelude Bitfield ViewCodec Snappy NodeTypes Crc CouchFile.

#[local] Set Warnings "-clear-no-such-hyp".

Definition KP_NODE : Z := 0.
Definition KV_NODE : Z := 1.

(** [sizeof] of [raw_kv_length], [raw_node_pointer], [nodelist],
    [couchfile_modify_result], [couchfile_modify_request] and [arena]. *)
Definition sizeof_raw_kv_length : Z := 5.
Definition sizeof_raw_node_pointer : Z := 14.
Definition sizeof_nodelist : Z := 48.
Definition sizeof_modify_result : Z := 88.
Definition sizeof_modify_request : Z := 112.
Definition sizeof_arena : Z := 32.

(** ** Requests and results *)

Record nodelist := mk_nl { nl_key : list Z; nl_data : list Z; nl_pointer : option node_pointer }.

(** The type of an action with its value. *)
Inductive action_type :=
| ACTION_FETCH (arg : Z)
| ACTION_REMOVE
| ACTION_INSERT (data : list Z).

Record couchfile_modify_action := mk_action { act_type : action_type; act_key : list Z }.

Inductive purge_action := PURGE_ITEM | PURGE_STOP | PURGE_KEEP | PURGE_PARTIAL.

(** [U] is what the contexts of the callbacks point to. [enable_purging] is in the
    state. *)
Record couchfile_modify_request (U : Type) := mk_rq {
  rq_compare : list Z -> list Z -> Z;
  rq_actions : list couchfile_modify_action;
  rq_fetch_callback : option (list Z -> option (list Z) -> Z -> U -> U);
  rq_reduce : option (list nodelist -> Z -> couchstore_error_t + list Z);
  rq_rereduce : option (list nodelist -> Z -> couchstore_error_t + list Z);
  rq_purge_kp : option (node_pointer -> U -> (couchstore_error_t + purge_action) * U);
  rq_purge_kv : option (list Z -> list Z -> U -> (couchstore_error_t + purge_action) * U);
  rq_compacting : bool;
  rq_kv_chunk_threshold : Z;
  rq_kp_chunk_threshold : Z
}.
#[global] Arguments mk_rq {U}.
#[global] Arguments rq_compare {U}.
#[global] Arguments rq_actions {U}.
#[global] Arguments rq_fetch_callback {U}.
#[global] Arguments rq_reduce {U}.
#[global] Arguments rq_rereduce {U}.
#[global] Arguments rq_purge_kp {U}.
#[global] Arguments rq_purge_kv {U}.
#[global] Arguments rq_compacting {U}.
#[global] Arguments rq_kv_chunk_threshold {U}.
#[global] Arguments rq_kp_chunk_threshold {U}.

(** The request that [new_btree_modres] makes. *)
Definition new_btree_request {U} (cmp : list Z -> list Z -> Z) (reduce rereduce : option (list nodelist -> Z -> couchstore_error_t + list Z))
    (kv_chunk_threshold kp_chunk_threshold : Z) : couchfile_modify_request U :=
  mk_rq cmp [] None reduce rereduce None None true kv_chunk_threshold kp_chunk_threshold.

(** The lists are those after the heads [values] and [pointers]. *)
Record couchfile_modify_result := mk_mr {
  mr_values : list nodelist;
  mr_node_len : Z;
  mr_count : Z;
  mr_pointers : list nodelist;
  mr_modified : bool;
  mr_node_type : Z
}.

Definition set_mr_values (v : list nodelist) (r : couchfile_modify_result) : couchfile_modify_result :=
  mk_mr v r.(mr_node_len) r.(mr_count) r.(mr_pointers) r.(mr_modified) r.(mr_node_type).
Definition set_mr_node_len (v : Z) (r : couchfile_modify_result) : couchfile_modify_result :=
  mk_mr r.(mr_values) v r.(mr_count) r.(mr_pointers) r.(mr_modified) r.(mr_node_type).
Definition set_mr_count (v : Z) (r : couchfile_modify_result) : couchfile_modify_result :=
  mk_mr r.(mr_values) r.(mr_node_len) v r.(mr_pointers) r.(mr_modified) r.(mr_node_type).
Definition set_mr_pointers (v : list nodelist) (r : couchfile_modify_result) : couchfile_modify_result :=
  mk_mr r.(mr_values) r.(mr_node_len) r.(mr_count) v r.(mr_modified) r.(mr_node_type).
Definition set_mr_modified (v : bool) (r : couchfile_modify_result) : couchfile_modify_result :=
  mk_mr r.(mr_values) r.(mr_node_len) r.(mr_count) r.(mr_pointers) v r.(mr_node_type).
Definition set_mr_node_type (v : Z) (r : couchfile_modify_result) : couchfile_modify_result :=
  mk_mr r.(mr_values) r.(mr_node_len) r.(mr_count) r.(mr_pointers) r.(mr_modified) v.

(** The file, the context of the callbacks and the flag [enable_purging]. *)
Record btree (F U : Type) := mk_bt { bt_file : tree_file F; bt_user : U; bt_purging : bool }.
#[global] Arguments mk_bt {F U}.
#[global] Arguments bt_file {F U}.
#[global] Arguments bt_user {F U}.
#[global] Arguments bt_purging {F U}.

(** An allocation in an arena: its memory is freed with the arena. *)
Definition arena_alloc `{Alloc} (size : Z) : M mem ptr := fun s =>
  let n := s.(m_calls) in
  Some (if malloc_ok n size then Block n else Null, mk_mem (S n) s.(m_live)).

Section model.
Context {F U : Type} `{FileOps F} `{Alloc} `{Snappy}.
Context (rq : couchfile_modify_request U).
Abbreviation B := (M (btree F U)).
Abbreviation outcome := (prod couchstore_error_t couchfile_modify_result).

Definition in_file {A} (m : M (tree_file F) A) : B A := fun s =>
  match m s.(bt_file) with
  | Some (a, f) => Some (a, mk_bt f s.(bt_user) s.(bt_purging))
  | None => None
  end.

Definition in_mem {A} (m : M mem A) : B A := in_file (on_mem m).

Definition set_user (u : U) : B unit := modify (fun s => mk_bt s.(bt_file) u s.(bt_purging)).
Definition set_purging (b : bool) : B unit := modify (fun s => mk_bt s.(bt_file) s.(bt_user) b).

(** ** Results *)

Definition make_nodelist (bufsize : Z) : B bool :=
  r ← in_mem (arena_alloc (sizeof_nodelist + bufsize)); mret (negb (bool_decide (r = Null))).

(** The node type and the flag [modified] are set by the callers. *)
Definition make_modres : B (option couchfile_modify_result) :=
  res ← in_mem (arena_alloc sizeof_modify_result);
  if decide (res = Null) then mret None else
  values ← make_nodelist 0;
  if negb values then mret None else
  pointers ← make_nodelist 0;
  if negb pointers then mret None else
  mret (Some (mk_mr [] 0 0 [] false KP_NODE)).

(** The value of a pointer in a node. *)
Definition raw_node_pointer (ptr : node_pointer) : list Z :=
  couchstore_encode_raw48 ptr.(np_pointer) ++ couchstore_encode_raw48 ptr.(np_subtreesize)
  ++ couchstore_encode_raw16 (u16 (len ptr.(np_reduce_value))) ++ ptr.(np_reduce_value).

Definition encode_pointer (ptr : node_pointer) : B (option nodelist) :=
  pel ← make_nodelist (sizeof_raw_node_pointer + len ptr.(np_reduce_value));
  mret (if (pel : bool) then Some (mk_nl ptr.(np_key) (raw_node_pointer ptr) (Some ptr)) else None).

(** A read outside of the value ends the process. *)
Definition read_pointer (key buf : list Z) : B (option node_pointer) :=
  p ← in_mem (arena_alloc sizeof_node_pointer);
  if decide (p = Null) then mret None else
  cassert (sizeof_raw_node_pointer <=? len buf);;
  let size := couchstore_decode_raw16 (take 2 (drop 12 buf)) in
  cassert (sizeof_raw_node_pointer + size <=? len buf);;
  mret (Some (mk_np p key (couchstore_decode_raw48p (take 6 buf)) (take (Z.to_nat size) (drop 14 buf))
                (couchstore_decode_raw48p (take 6 (drop 6 buf))))).

(** ** Writing nodes *)

Definition item_size (i : nodelist) : Z := len i.(nl_key) + len i.(nl_data) + sizeof_raw_kv_length.

(** The loop that fills a node: the bytes, the size of the subtrees, the last key, the
    number of items and the items that are left. [mr_quota] is a [size_t]. *)
Fixpoint fill_node (node_type : Z) (items : list nodelist) (mr_quota itmcount : Z) (bytes : list Z) (subtreesize : Z)
    (final_key : list Z) : list Z * Z * list Z * Z * list nodelist :=
  match items with
  | i :: items' =>
      if (0 <? mr_quota) || ((itmcount <? 2) && (node_type =? KP_NODE)) then
        fill_node node_type items' (u64 (mr_quota - item_size i)) (itmcount + 1) (bytes ++ write_kv i.(nl_key) i.(nl_data))
          (match i.(nl_pointer) with Some p => u64 (subtreesize + p.(np_subtreesize)) | None => subtreesize end) i.(nl_key)
      else (bytes, subtreesize, final_key, itmcount, items)
  | [] => (bytes, subtreesize, final_key, itmcount, [])
  end.

(** The reduce value of the first [itmcount] values. *)
Definition reduce_node (res : couchfile_modify_result) (itmcount : Z) : couchstore_error_t + list Z :=
  let f := if res.(mr_node_type) =? KV_NODE then rq.(rq_reduce) else rq.(rq_rereduce) in
  match f with
  | Some reduce => reduce res.(mr_values) itmcount
  | None => inr []
  end.

Definition flush_mr_partial (res : couchfile_modify_result) (mr_quota : Z) : B outcome :=
  if bool_decide (res.(mr_values) = []) || negb res.(mr_modified) then mret (COUCHSTORE_SUCCESS, res) else
  nodebuf ← in_mem (malloc (u64 (res.(mr_node_len) + 1)));
  if decide (nodebuf = Null) then mret (COUCHSTORE_ERROR_ALLOC_FAIL, res) else
  let '(bytes, subtreesize, final_key, itmcount, rest) := fill_node res.(mr_node_type) res.(mr_values) mr_quota 0 [] 0 [] in
  let writebuf := u8 res.(mr_node_type) :: bytes in
  cassert (len writebuf <=? res.(mr_node_len) + 1);;
  let res := set_mr_count (res.(mr_count) - itmcount) res in
  w ← in_file (db_write_buf_compressed writebuf);
  in_mem (free nodebuf);;
  match w with
  | inl errcode => mret (errcode, res)
  | inr (diskpos, disk_size) =>
      match reduce_node res itmcount with
      | inl errcode => mret (errcode, res)
      | inr reducebuf =>
          cassert (len reducebuf <=? MAX_REDUCTION_SIZE);;
          p ← in_mem (arena_alloc (sizeof_node_pointer + len final_key + len reducebuf));
          if decide (p = Null) then mret (COUCHSTORE_ERROR_ALLOC_FAIL, res) else
          let ptr := mk_np p final_key diskpos reducebuf (u64 (subtreesize + disk_size)) in
          pel ← encode_pointer ptr;
          match pel with
          | None => mret (COUCHSTORE_ERROR_ALLOC_FAIL, res)
          | Some pel =>
              mret (COUCHSTORE_SUCCESS,
                    set_mr_pointers (res.(mr_pointers) ++ [pel])
                      (set_mr_node_len (res.(mr_node_len) - (len writebuf - 1)) (set_mr_values rest res)))
          end
      end
  end.

Definition flush_mr (res : couchfile_modify_result) : B outcome := flush_mr_partial res (u64 res.(mr_node_len)).

Definition maybe_flush (mr : couchfile_modify_result) : B outcome :=
  if rq.(rq_compacting) then
    if mr.(mr_modified)
       && (((mr.(mr_node_type) =? KV_NODE) && (Z.quot (rq.(rq_kv_chunk_threshold) * 2) 3 <? mr.(mr_node_len)))
           || ((mr.(mr_node_type) =? KP_NODE) && (Z.quot (rq.(rq_kp_chunk_threshold) * 2) 3 <? mr.(mr_node_len))
               && (1 <? mr.(mr_count))))
    then flush_mr mr else mret (COUCHSTORE_SUCCESS, mr)
  else if mr.(mr_modified) && (3 <? mr.(mr_count)) then
    if (mr.(mr_node_type) =? KV_NODE) && (rq.(rq_kv_chunk_threshold) <? mr.(mr_node_len)) then
      flush_mr_partial mr (u64 (Z.quot (rq.(rq_kv_chunk_threshold) * 2) 3))
    else if (mr.(mr_node_type) =? KP_NODE) && (rq.(rq_kp_chunk_threshold) <? mr.(mr_node_len)) then
      flush_mr_partial mr (u64 (Z.quot (rq.(rq_kp_chunk_threshold) * 2) 3))
    else mret (COUCHSTORE_SUCCESS, mr)
  else mret (COUCHSTORE_SUCCESS, mr).

(** An item is added to the values. *)
Definition push_value (i : nodelist) (dst : couchfile_modify_result) : couchfile_modify_result :=
  mk_mr (dst.(mr_values) ++ [i]) (dst.(mr_node_len) + item_size i) (dst.(mr_count) + 1)
    dst.(mr_pointers) dst.(mr_modified) dst.(mr_node_type).

Definition mr_push_item (k v : list Z) (dst : couchfile_modify_result) : B outcome :=
  itm ← make_nodelist 0;
  if negb itm then mret (COUCHSTORE_ERROR_ALLOC_FAIL, dst) else
  maybe_flush (push_value (mk_nl k v None) dst).

Definition mr_push_pointerinfo (ptr : node_pointer) (dst : couchfile_modify_result) : B outcome :=
  pel ← encode_pointer ptr;
  match pel with
  | None => mret (COUCHSTORE_ERROR_ALLOC_FAIL, dst)
  | Some pel => maybe_flush (push_value pel dst)
  end.

(** The pointers that are moved, the result and the pointers that are left. *)
Fixpoint move_loop (ptrs : list nodelist) (dst : couchfile_modify_result) : B (outcome * list nodelist) :=
  match ptrs with
  | [] => mret (COUCHSTORE_SUCCESS, dst, [])
  | ptr :: next =>
      r ← maybe_flush (push_value ptr dst);
      if decide (r.1 = COUCHSTORE_SUCCESS) then move_loop next r.2 else mret (r.1, r.2, next)
  end.

(** The error, the source and the destination. *)
Definition mr_move_pointers (src dst : couchfile_modify_result)
    : B (couchstore_error_t * couchfile_modify_result * couchfile_modify_result) :=
  r ← move_loop src.(mr_pointers) dst;
  mret (r.1.1, set_mr_pointers r.2 src, r.1.2).

(** ** Purging *)

Definition maybe_purgekv (key val : list Z) (result : couchfile_modify_result) : B outcome :=
  s ← gets id;
  action ← match rq.(rq_purge_kv) with
           | Some purge_kv =>
               if s.(bt_purging) then
                 let '(a, u) := purge_kv key val s.(bt_user) in set_user u;; mret a
               else mret (inr PURGE_KEEP)
           | None => mret (inr PURGE_KEEP)
           end;
  match action with
  | inl errcode => mret (errcode, result)
  | inr PURGE_ITEM => mret (COUCHSTORE_SUCCESS, set_mr_modified true result)
  | inr PURGE_STOP => set_purging false;; mr_push_item key val result
  | inr PURGE_KEEP => mr_push_item key val result
  | inr PURGE_PARTIAL => mret (COUCHSTORE_SUCCESS, result)
  end.

(** [purge_node] is the function of that name. *)
Definition maybe_purgekp (purge_node : node_pointer -> couchfile_modify_result -> B outcome) (node : node_pointer)
    (result : couchfile_modify_result) : B outcome :=
  s ← gets id;
  action ← match rq.(rq_purge_kp) with
           | Some purge_kp =>
               if s.(bt_purging) then
                 let '(a, u) := purge_kp node s.(bt_user) in set_user u;; mret a
               else mret (inr PURGE_KEEP)
           | None => mret (inr PURGE_KEEP)
           end;
  match action with
  | inl errcode => mret (errcode, result)
  | inr PURGE_ITEM => mret (COUCHSTORE_SUCCESS, set_mr_modified true result)
  | inr PURGE_PARTIAL => purge_node node result
  | inr PURGE_STOP => set_purging false;; mr_push_pointerinfo node result
  | inr PURGE_KEEP => mr_push_pointerinfo node result
  end.

(** The loop over the items of a leaf from which some are purged; every item takes at
    least five bytes. *)
Fixpoint purge_kv_loop (fuel : nat) (buf : list Z) (result : couchfile_modify_result) : B outcome :=
  match buf, fuel with
  | [], _ => mret (COUCHSTORE_SUCCESS, result)
  | _, O => crash
  | _, S fuel' =>
      kv ← of_option (read_kv buf);
      r ← maybe_purgekv kv.1.1 kv.1.2 result;
      if decide (r.1 = COUCHSTORE_SUCCESS) then purge_kv_loop fuel' (drop (Z.to_nat kv.2) buf) r.2 else mret r
  end.

(** The loop over the pointers of a node; [purge_node] purges below a pointer. *)
Fixpoint purge_kp_loop (purge_node : node_pointer -> couchfile_modify_result -> B outcome) (fuel : nat) (buf : list Z)
    (result : couchfile_modify_result) : B outcome :=
  match buf, fuel with
  | [], _ => mret (COUCHSTORE_SUCCESS, result)
  | _, O => crash
  | _, S fuel' =>
      kv ← of_option (read_kv buf);
      desc ← read_pointer kv.1.1 kv.1.2;
      match desc with
      | None => mret (COUCHSTORE_ERROR_ALLOC_FAIL, result)
      | Some desc =>
          r ← maybe_purgekp purge_node desc result;
          if decide (r.1 = COUCHSTORE_SUCCESS) then purge_kp_loop purge_node fuel' (drop (Z.to_nat kv.2) buf) r.2 else mret r
      end
  end.

(** The fuel of [purge_node] and [modify_node] is the height of the tree. *)
Fixpoint purge_node (fuel : nat) (nptr : node_pointer) (dst : couchfile_modify_result) : B outcome :=
  match fuel with
  | O => crash
  | S fuel' =>
      purging ← gets bt_purging;
      if negb purging then mr_push_pointerinfo nptr (set_mr_modified true dst) else
      n ← in_file (pread_compressed nptr.(np_pointer));
      match n with
      | inl _ => mret (COUCHSTORE_ERROR_READ, dst)
      | inr (nodebuf, bytes) =>
          local_result ← make_modres;
          match local_result with
          | None => in_mem (free nodebuf);; mret (COUCHSTORE_ERROR_ALLOC_FAIL, dst)
          | Some local_result =>
              type ← of_option (head bytes);
              r ← (if type =? 1 then purge_kv_loop (length bytes) (tail bytes) (set_mr_node_type KV_NODE local_result)
                   else if type =? 0 then
                     purge_kp_loop (purge_node fuel') (length bytes) (tail bytes) (set_mr_node_type KP_NODE local_result)
                   else mret (COUCHSTORE_ERROR_CORRUPT, local_result));
              r ← (if decide (r.1 = COUCHSTORE_SUCCESS) then
                     if r.2.(mr_modified) then
                       l ← flush_mr r.2;
                       if decide (l.1 = COUCHSTORE_SUCCESS) then
                         m ← mr_move_pointers l.2 (set_mr_modified true dst); mret (m.1.1, m.2)
                       else mret (l.1, dst)
                     else mret (COUCHSTORE_SUCCESS, dst)
                   else mret (r.1, dst));
              in_mem (free nodebuf);;
              mret r
          end
      end
  end.

(** ** Modification *)

Definition fetch (k : list Z) (v : option (list Z)) (arg : Z) : B unit :=
  match rq.(rq_fetch_callback) with
  | Some callback => u ← gets bt_user; set_user (callback k v arg u)
  | None => mret tt
  end.

(** An action whose key is not in the node. The result of [mr_push_item] is not tested. *)
Definition absent_action (a : couchfile_modify_action) (local_result : couchfile_modify_result) : B couchfile_modify_result :=
  match a.(act_type) with
  | ACTION_INSERT data =>
      r ← mr_push_item a.(act_key) data (set_mr_modified true local_result); mret r.2
  | ACTION_REMOVE => mret (set_mr_modified true local_result)
  | ACTION_FETCH arg => fetch a.(act_key) None arg;; mret local_result
  end.

(** The loop over the actions for one item of a leaf; the actions that are left. *)
Fixpoint item_loop (cmp_key val_buf : list Z) (acts : list couchfile_modify_action) (local_result : couchfile_modify_result)
    : B (outcome * list couchfile_modify_action) :=
  match acts with
  | [] => r ← maybe_purgekv cmp_key val_buf local_result; mret (r, [])
  | a :: acts' =>
      let cmp_val := rq.(rq_compare) cmp_key a.(act_key) in
      if cmp_val <? 0 then r ← maybe_purgekv cmp_key val_buf local_result; mret (r, acts)
      else if 0 <? cmp_val then
        r ← absent_action a local_result;
        item_loop cmp_key val_buf acts' r
      else
        match a.(act_type) with
        | ACTION_INSERT data =>
            r ← mr_push_item a.(act_key) data (set_mr_modified true local_result);
            mret (COUCHSTORE_SUCCESS, r.2, acts')
        | ACTION_REMOVE => mret (COUCHSTORE_SUCCESS, set_mr_modified true local_result, acts')
        | ACTION_FETCH arg =>
            fetch a.(act_key) (Some val_buf) arg;;
            item_loop cmp_key val_buf acts' local_result
        end
  end.

(** The items of a leaf, then the actions that are left. *)
Fixpoint kv_loop (fuel : nat) (buf : list Z) (acts : list couchfile_modify_action) (local_result : couchfile_modify_result)
    : B (outcome * list couchfile_modify_action) :=
  match buf, fuel with
  | [], _ => mret (COUCHSTORE_SUCCESS, local_result, acts)
  | _, O => crash
  | _, S fuel' =>
      kv ← of_option (read_kv buf);
      r ← item_loop kv.1.1 kv.1.2 acts local_result;
      if decide (r.1.1 = COUCHSTORE_SUCCESS) then kv_loop fuel' (drop (Z.to_nat kv.2) buf) r.2 r.1.2 else mret r
  end.

Fixpoint rest_loop (acts : list couchfile_modify_action) (local_result : couchfile_modify_result)
    : B couchfile_modify_result :=
  match acts with
  | [] => mret local_result
  | a :: acts' => r ← absent_action a local_result; rest_loop acts' r
  end.

(** The actions whose keys are not greater than [key]. *)
Fixpoint range_end (key : list Z) (acts : list couchfile_modify_action)
    : list couchfile_modify_action * list couchfile_modify_action :=
  match acts with
  | a :: acts' =>
      if rq.(rq_compare) a.(act_key) key <=? 0 then
        let '(l, r) := range_end key acts' in (a :: l, r)
      else ([], acts)
  | [] => ([], [])
  end.

(** The loops over the pointers of a node: as long as there are actions they go down or
    to the next pointer, the others are kept. *)
Fixpoint kp_loop (modify_node : node_pointer -> list couchfile_modify_action -> couchfile_modify_result -> B outcome)
    (purge_node : node_pointer -> couchfile_modify_result -> B outcome) (fuel : nat) (buf : list Z)
    (acts : list couchfile_modify_action) (local_result : couchfile_modify_result) : B outcome :=
  match buf, fuel with
  | [], _ => mret (COUCHSTORE_SUCCESS, local_result)
  | _, O => crash
  | _, S fuel' =>
      kv ← of_option (read_kv buf);
      let cmp_key := kv.1.1 in
      let buf' := drop (Z.to_nat kv.2) buf in
      desc ← read_pointer cmp_key kv.1.2;
      match desc with
      | None => mret (COUCHSTORE_ERROR_ALLOC_FAIL, local_result)
      | Some desc =>
          match acts with
          | [] =>
              r ← maybe_purgekp purge_node desc local_result;
              if decide (r.1 = COUCHSTORE_SUCCESS) then kp_loop modify_node purge_node fuel' buf' [] r.2 else mret r
          | a :: _ =>
              if bool_decide (buf' = []) then modify_node desc acts local_result
              else if rq.(rq_compare) cmp_key a.(act_key) <? 0 then
                r ← maybe_purgekp purge_node desc local_result;
                if decide (r.1 = COUCHSTORE_SUCCESS) then kp_loop modify_node purge_node fuel' buf' acts r.2 else mret r
              else
                let '(down, acts') := range_end cmp_key acts in
                r ← modify_node desc down local_result;
                if decide (r.1 = COUCHSTORE_SUCCESS) then kp_loop modify_node purge_node fuel' buf' acts' r.2 else mret r
          end
      end
  end.

(** What a node becomes: the error and the local result. *)
Definition modify_contents (modify_node : node_pointer -> list couchfile_modify_action -> couchfile_modify_result -> B outcome)
    (purge_node : node_pointer -> couchfile_modify_result -> B outcome) (bytes : option (list Z))
    (acts : list couchfile_modify_action) (local_result : couchfile_modify_result) : B outcome :=
  match bytes with
  | None => r ← rest_loop acts (set_mr_node_type KV_NODE local_result); mret (COUCHSTORE_SUCCESS, r)
  | Some bytes =>
      type ← of_option (head bytes);
      if type =? 1 then
        r ← kv_loop (length bytes) (tail bytes) acts (set_mr_node_type KV_NODE local_result);
        if decide (r.1.1 = COUCHSTORE_SUCCESS) then r ← rest_loop r.2 r.1.2; mret (COUCHSTORE_SUCCESS, r) else mret r.1
      else if type =? 0 then
        kp_loop modify_node purge_node (length bytes) (tail bytes) acts (set_mr_node_type KP_NODE local_result)
      else mret (COUCHSTORE_ERROR_CORRUPT, local_result)
  end.

(** The last nodes are written, and their pointers or the old one go to the parent. The
    result of [mr_push_pointerinfo] is not tested. *)
Definition give_back (nptr : option node_pointer) (local_result dst : couchfile_modify_result) : B outcome :=
  l ← flush_mr local_result;
  if decide (l.1 = COUCHSTORE_SUCCESS) then
    match nptr with
    | Some n =>
        if l.2.(mr_modified) then
          m ← mr_move_pointers l.2 (set_mr_modified true dst); mret (m.1.1, m.2)
        else r ← mr_push_pointerinfo n dst; mret (COUCHSTORE_SUCCESS, r.2)
    | None => m ← mr_move_pointers l.2 (set_mr_modified true dst); mret (m.1.1, m.2)
    end
  else mret (l.1, dst).

Fixpoint modify_node (fuel : nat) (nptr : option node_pointer) (acts : list couchfile_modify_action)
    (dst : couchfile_modify_result) : B outcome :=
  match fuel with
  | O => crash
  | S fuel' =>
      if bool_decide (acts = []) then mret (COUCHSTORE_SUCCESS, dst) else
      n ← match nptr with
          | None => mret (inr (Null, None))
          | Some nptr =>
              r ← in_file (pread_compressed nptr.(np_pointer));
              mret (match r with inl e => inl e | inr (nodebuf, bytes) => inr (nodebuf, Some bytes) end)
          end;
      match n with
      | inl _ => mret (COUCHSTORE_ERROR_READ, dst)
      | inr (nodebuf, bytes) =>
          local_result ← make_modres;
          match local_result with
          | None => in_mem (free nodebuf);; mret (COUCHSTORE_ERROR_ALLOC_FAIL, dst)
          | Some local_result =>
              r ← modify_contents (fun n => modify_node fuel' (Some n)) (purge_node fuel') bytes acts local_result;
              r ← (if decide (r.1 = COUCHSTORE_SUCCESS) then give_back nptr r.2 dst else mret (r.1, dst));
              in_mem (free nodebuf);;
              mret r
          end
      end
  end.

(** ** Roots *)

(** The loop of [finish_root]: the error and the pointer. Every round needs fewer nodes
    than the one before. *)
Fixpoint root_loop (fuel : nat) (root_result collector : couchfile_modify_result)
    : B (couchstore_error_t * option node_pointer) :=
  match fuel with
  | O => crash
  | S fuel' =>
      match root_result.(mr_pointers) with
      | [p] => mret (COUCHSTORE_SUCCESS, p.(nl_pointer))
      | _ =>
          m ← mr_move_pointers root_result collector;
          if decide (m.1.1 = COUCHSTORE_SUCCESS) then
            c ← flush_mr m.2;
            if decide (c.1 = COUCHSTORE_SUCCESS) then root_loop fuel' c.2 m.1.2 else mret (c.1, None)
          else mret (m.1.1, None)
      end
  end.

Definition finish_root (fuel : nat) (root_result : couchfile_modify_result)
    : B (couchstore_error_t * option node_pointer) :=
  collector ← make_modres;
  match collector with
  | None => mret (COUCHSTORE_ERROR_ALLOC_FAIL, None)
  | Some collector =>
      r ← flush_mr root_result;
      root_loop fuel r.2 (set_mr_node_type KP_NODE (set_mr_modified true collector))
  end.

(** The copy has the values of the pointer and a block of its own. *)
Definition copy_node_pointer (p : option node_pointer) : B (option node_pointer) :=
  match p with
  | None => mret None
  | Some p =>
      b ← in_mem (malloc (sizeof_node_pointer + len p.(np_key) + len p.(np_reduce_value)));
      if decide (b = Null) then mret None else
      mret (Some (mk_np b p.(np_key) p.(np_pointer) p.(np_reduce_value) p.(np_subtreesize)))
  end.

Definition same_pointer (p q : option node_pointer) : bool :=
  match p, q with
  | Some p, Some q => bool_decide (p.(np_block) = q.(np_block))
  | None, None => true
  | _, _ => false
  end.

(** [values_end->pointer]: the head of the list has no pointer. *)
Definition last_pointer (r : couchfile_modify_result) : option node_pointer :=
  match last r.(mr_values) with Some i => i.(nl_pointer) | None => None end.

(** The old root is taken out of the list when it came back. *)
Definition forget_root (root : option node_pointer) (r : couchfile_modify_result) : couchfile_modify_result :=
  if same_pointer (last_pointer r) root then
    match last r.(mr_values) with
    | Some i => set_mr_values (removelast r.(mr_values) ++ [mk_nl i.(nl_key) i.(nl_data) None]) r
    | None => r
    end
  else r.

(** What [modify_btree] does with its arena. The fuel is for the height of the tree and for
    the levels that are added. *)
Definition modify_in_arena (fuel : nat) (root : option node_pointer) : B (couchstore_error_t * option node_pointer) :=
  root_result ← make_modres;
  match root_result with
  | None => mret (COUCHSTORE_ERROR_ALLOC_FAIL, root)
  | Some root_result =>
      r ← modify_node fuel root rq.(rq_actions) (set_mr_node_type KP_NODE root_result);
      if decide (r.1 = COUCHSTORE_SUCCESS) then
        let root_result := forget_root root r.2 in
        ret ← (if root_result.(mr_modified) then
                 if (1 <? root_result.(mr_count)) || negb (bool_decide (root_result.(mr_pointers) = []))
                 then e ← finish_root fuel root_result;
                      mret (if decide (e.1 = COUCHSTORE_SUCCESS) then e else (e.1, None))
                 else mret (COUCHSTORE_SUCCESS, last_pointer root_result)
               else mret (COUCHSTORE_SUCCESS, root));
        if same_pointer ret.2 root then mret ret else
        c ← copy_node_pointer ret.2; mret (ret.1, c)
      else mret (r.1, None)
  end.

(** The arena is deleted on all paths. The result of [new_arena] is not tested: an
    allocation in no arena ends the process. *)
Definition modify_btree (fuel : nat) (root : option node_pointer) : B (couchstore_error_t * option node_pointer) :=
  a ← in_mem (malloc sizeof_arena);
  cassert (negb (bool_decide (a = Null)));;
  r ← modify_in_arena fuel root;
  in_mem (free a);;
  mret r.

(** ** New trees, as the compactor makes them *)

(** The result of the allocation of the request is not tested. The request is that of
    [new_btree_request]. *)
Definition new_btree_modres : B (option couchfile_modify_result) :=
  r ← in_mem (arena_alloc sizeof_modify_request);
  cassert (negb (bool_decide (r = Null)));;
  mr ← make_modres;
  mret (match mr with
        | None => None
        | Some mr => Some (set_mr_node_type KV_NODE (set_mr_modified true mr))
        end).

Definition complete_new_btree (fuel : nat) (mr : couchfile_modify_result) : B (couchstore_error_t * option node_pointer) :=
  r ← flush_mr mr;
  if decide (r.1 = COUCHSTORE_SUCCESS) then
    targ_mr ← make_modres;
    match targ_mr with
    | None => mret (COUCHSTORE_ERROR_ALLOC_FAIL, None)
    | Some targ_mr =>
        m ← mr_move_pointers r.2 (set_mr_node_type KP_NODE (set_mr_modified true targ_mr));
        if decide (m.1.1 = COUCHSTORE_SUCCESS) then
          let targ_mr := m.2 in
          ret ← (if (1 <? targ_mr.(mr_count)) || negb (bool_decide (targ_mr.(mr_pointers) = []))
                 then finish_root fuel targ_mr
                 else mret (COUCHSTORE_SUCCESS, last_pointer targ_mr));
          if decide (ret.1 = COUCHSTORE_SUCCESS) then
            match ret.2 with
            | None => mret (COUCHSTORE_SUCCESS, None)
            | Some p =>
                c ← copy_node_pointer (Some p);
                mret (match c with None => (COUCHSTORE_ERROR_ALLOC_FAIL, None) | Some c => (COUCHSTORE_SUCCESS, Some c) end)
            end
          else mret (ret.1, None)
        else mret (m.1.1, None)
    end
  else mret (r.1, None).

(** The purge of a whole tree. *)
Definition purge_in_arena (fuel : nat) (root : option node_pointer) : B (couchstore_error_t * option node_pointer) :=
  root_result ← make_modres;
  match root_result with
  | None => mret (COUCHSTORE_ERROR_ALLOC_FAIL, None)
  | Some root_result =>
      let root_result := set_mr_node_type KP_NODE root_result in
      r ← match root with
          | None => mret (COUCHSTORE_SUCCESS, root_result)
          | Some n => purge_node fuel n root_result
          end;
      if decide (r.1 = COUCHSTORE_SUCCESS) then
        let ret := if r.2.(mr_modified) then last_pointer r.2 else root in
        if bool_decide (ret = None) || same_pointer ret root then mret (COUCHSTORE_SUCCESS, ret)
        else c ← copy_node_pointer ret; mret (COUCHSTORE_SUCCESS, c)
      else mret (r.1, None)
  end.

Definition guided_purge_btree (fuel : nat) (root : option node_pointer) : B (couchstore_error_t * option node_pointer) :=
  set_purging true;;
  a ← in_mem (malloc sizeof_arena);
  if decide (a = Null) then mret (COUCHSTORE_ERROR_ALLOC_FAIL, None) else
  r ← purge_in_arena fuel root;
  in_mem (free a);;
  mret r.
End model.

(** * Lookup *)

(** [fold] and [in_fold] are in the state. *)
Record couchfile_lookup_request (U : Type) := mk_lk {
  lk_compare : list Z -> list Z -> Z;
  lk_keys : list (list Z);
  lk_fetch_callback : list Z -> option (list Z) -> U -> couchstore_error_t * U;
  lk_node_callback : option (Z -> option (list Z) -> U -> couchstore_error_t * U)
}.
#[global] Arguments mk_lk {U}.
#[global] Arguments lk_compare {U}.
#[global] Arguments lk_keys {U}.
#[global] Arguments lk_fetch_callback {U}.
#[global] Arguments lk_node_callback {U}.

Record lookup_state (F U : Type) := mk_ls { ls_file : tree_file F; ls_user : U; ls_fold : bool; ls_in_fold : bool }.
#[global] Arguments mk_ls {F U}.
#[global] Arguments ls_file {F U}.
#[global] Arguments ls_user {F U}.
#[global] Arguments ls_fold {F U}.
#[global] Arguments ls_in_fold {F U}.

Section lookup.
Context {F U : Type} `{FileOps F} `{Alloc} `{Snappy}.
Context (rq : couchfile_lookup_request U).
Abbreviation L := (M (lookup_state F U)).

Definition from_file {A} (m : M (tree_file F) A) : L A := fun s =>
  match m s.(ls_file) with
  | Some (a, f) => Some (a, mk_ls f s.(ls_user) s.(ls_fold) s.(ls_in_fold))
  | None => None
  end.

Definition set_fold (fold in_fold : bool) : L unit := modify (fun s => mk_ls s.(ls_file) s.(ls_user) fold in_fold).

(** A call of a callback. *)
Definition callback (f : U -> couchstore_error_t * U) : L couchstore_error_t := fun s =>
  let '(e, u) := f s.(ls_user) in Some (e, mk_ls s.(ls_file) u s.(ls_fold) s.(ls_in_fold)).

Definition fetch_callback (k : list Z) (v : option (list Z)) : L couchstore_error_t := callback (rq.(lk_fetch_callback) k v).

Definition lookup_compare (key1 key2 : list Z) : Z :=
  if (len key1 =? 0) || (len key2 =? 0) then
    if len key1 =? 0 then -1 else if len key2 =? 0 then 1 else 0
  else rq.(lk_compare) key1 key2.

(** The key at an index of the array. *)
Definition key_at (i : Z) : L (list Z) := of_option (zlookup rq.(lk_keys) i).

(** The loop over the items of a leaf. [next_key] tells whether the next item is read or
    [kv] is compared again; the error and [current]. Every round reads an item or goes to
    the next key. *)
Fixpoint lookup_kv (fuel : nat) (buf : list Z) (next_key : bool) (kv : list Z * list Z) (current last : Z)
    : L (couchstore_error_t * Z) :=
  if bool_decide (buf = []) || (last <=? current) then mret (COUCHSTORE_SUCCESS, current) else
  match fuel with
  | O => crash
  | S fuel' =>
      b ← (if next_key then r ← of_option (read_kv buf); mret (r.1, drop (Z.to_nat r.2) buf) else mret (kv, buf));
      let '(kv, buf) := b in
      key ← key_at current;
      let cmp_val := lookup_compare kv.1 key in
      s ← gets id;
      current ← (if (0 <=? cmp_val) && s.(ls_fold) && negb s.(ls_in_fold) then set_fold s.(ls_fold) true;; mret current
                 else if s.(ls_in_fold) && (current + 1 <? last) then
                   next ← key_at (current + 1);
                   if 0 <? lookup_compare kv.1 next then set_fold false false;; mret last else mret current
                 else mret current);
      if 0 <=? cmp_val then
        in_fold ← gets ls_in_fold;
        errcode ← (if (cmp_val =? 0) || in_fold then fetch_callback kv.1 (Some kv.2)
                   else key ← key_at current; fetch_callback key None);
        if decide (errcode = COUCHSTORE_SUCCESS) then
          if negb in_fold then lookup_kv fuel' buf (cmp_val =? 0) kv (current + 1) last
          else lookup_kv fuel' buf true kv current last
        else mret (errcode, current)
      else lookup_kv fuel' buf true kv current last
  end.

(** The index after the keys from [last_item] on that are not greater than [cmp_key]. *)
Fixpoint last_item_loop (fuel : nat) (cmp_key : list Z) (last_item last : Z) : L Z :=
  if last <=? last_item then mret last_item else
  match fuel with
  | O => crash
  | S fuel' =>
      key ← key_at last_item;
      if 0 <=? lookup_compare cmp_key key then last_item_loop fuel' cmp_key (last_item + 1) last else mret last_item
  end.

Definition node_callback (subtreesize : Z) (reduce_value : option (list Z)) : L couchstore_error_t :=
  match rq.(lk_node_callback) with
  | Some f => callback (f subtreesize reduce_value)
  | None => mret COUCHSTORE_SUCCESS
  end.

(** The node behind a pointer, between the calls of the callback for nodes. *)
Definition lookup_child (inner : Z -> Z -> Z -> L couchstore_error_t) (val_buf : list Z) (current last_item : Z)
    : L couchstore_error_t :=
  cassert (sizeof_raw_node_pointer <=? len val_buf);;
  let size := couchstore_decode_raw16 (take 2 (drop 12 val_buf)) in
  cassert (bool_decide (rq.(lk_node_callback) = None) || (sizeof_raw_node_pointer + size <=? len val_buf));;
  errcode ← node_callback (couchstore_decode_raw48p (take 6 (drop 6 val_buf))) (Some (take (Z.to_nat size) (drop 14 val_buf)));
  if decide (errcode = COUCHSTORE_SUCCESS) then inner (couchstore_decode_raw48p (take 6 val_buf)) current last_item
  else mret errcode.

Fixpoint lookup_kp (inner : Z -> Z -> Z -> L couchstore_error_t) (fuel : nat) (buf : list Z) (current last : Z)
    : L (couchstore_error_t * Z) :=
  if bool_decide (buf = []) || (last <=? current) then mret (COUCHSTORE_SUCCESS, current) else
  match fuel with
  | O => crash
  | S fuel' =>
      kv ← of_option (read_kv buf);
      let buf' := drop (Z.to_nat kv.2) buf in
      key ← key_at current;
      if 0 <=? lookup_compare kv.1.1 key then
        s ← gets id;
        (if (s.(ls_fold) : bool) then set_fold true true else mret tt);;
        last_item ← last_item_loop (Z.to_nat last) kv.1.1 (current + 1) last;
        errcode ← lookup_child inner kv.1.2 current last_item;
        if decide (errcode = COUCHSTORE_SUCCESS) then
          in_fold ← gets ls_in_fold;
          let current := if (in_fold : bool) then current else last_item in
          errcode ← node_callback 0 None;
          if decide (errcode = COUCHSTORE_SUCCESS) then lookup_kp inner fuel' buf' current last else mret (errcode, current)
        else mret (errcode, current)
      else lookup_kp inner fuel' buf' current last
  end.

(** The keys that are left are not found. *)
Fixpoint lookup_rest (fuel : nat) (current last : Z) : L couchstore_error_t :=
  fold ← gets ls_fold;
  if (last <=? current) || fold then mret COUCHSTORE_SUCCESS else
  match fuel with
  | O => crash
  | S fuel' =>
      key ← key_at current;
      errcode ← fetch_callback key None;
      if decide (errcode = COUCHSTORE_SUCCESS) then lookup_rest fuel' (current + 1) last else mret errcode
  end.

(** The fuel is the height of the tree. *)
Fixpoint btree_lookup_inner (fuel : nat) (diskpos current last : Z) : L couchstore_error_t :=
  match fuel with
  | O => crash
  | S fuel' =>
      if current =? last then mret COUCHSTORE_SUCCESS else
      n ← from_file (pread_compressed diskpos);
      match n with
      | inl errcode => mret errcode
      | inr (nodebuf, bytes) =>
          type ← of_option (head bytes);
          r ← (if type =? 0 then lookup_kp (btree_lookup_inner fuel') (length bytes) (tail bytes) current last
               else if type =? 1 then lookup_kv (length bytes + Z.to_nat last) (tail bytes) true ([], []) current last
               else mret (COUCHSTORE_SUCCESS, current));
          errcode ← (if decide (r.1 = COUCHSTORE_SUCCESS) then lookup_rest (Z.to_nat last) r.2 last else mret r.1);
          from_file (on_mem (free nodebuf));;
          mret errcode
      end
  end.

Definition btree_lookup (fuel : nat) (root_pointer : Z) : L couchstore_error_t :=
  s ← gets id;
  set_fold s.(ls_fold) false;;
  btree_lookup_inner fuel root_pointer 0 (Z.of_nat (length rq.(lk_keys))).
End lookup.
