(* ===== verification/BtreeSpec.v ===== *)
(** * The contents of a B+tree

    A tree stands for a list of keys with values that is sorted by the comparison of the
    request. The actions of a request are applied to the list one after the other. *)
From Stdlib Require Import ZArith Lia Sorted.
From stdpp Require Import strings gmap prelude sorting.
From S2P Require Import Prelude Bitfield ViewCodec Snappy NodeTypes Crc CouchFile Btree.

#[local] Set Warnings "-clear-no-such-hyp".

Abbreviation kv := (prod (list Z) (list Z)).

(** What a comparison must be. Keys that compare equal need not be the same. *)
Class CompareOk (cmp : list Z -> list Z -> Z) : Prop := {
  cmp_refl k : cmp k k = 0;
  cmp_antisym a b : cmp a b < 0 <-> 0 < cmp b a;
  cmp_trans a b c : cmp a b <= 0 -> cmp b c <= 0 -> cmp a c <= 0
}.

Section spec.
Context (cmp : list Z -> list Z -> Z).

Definition klt (a b : list Z) : Prop := cmp a b < 0.

(** ** Operations on sorted lists *)

Fixpoint put (k v : list Z) (l : list kv) : list kv :=
  match l with
  | [] => [(k, v)]
  | x :: l' => if cmp x.1 k <? 0 then x :: put k v l' else if 0 <? cmp x.1 k then (k, v) :: l else (k, v) :: l'
  end.

Fixpoint del (k : list Z) (l : list kv) : list kv :=
  match l with
  | [] => []
  | x :: l' => if cmp x.1 k =? 0 then l' else x :: del k l'
  end.

Fixpoint find (k : list Z) (l : list kv) : option (list Z) :=
  match l with
  | [] => None
  | x :: l' => if cmp x.1 k =? 0 then Some x.2 else find k l'
  end.

Definition apply_action (l : list kv) (a : couchfile_modify_action) : list kv :=
  match a.(act_type) with
  | ACTION_INSERT data => put a.(act_key) data l
  | ACTION_REMOVE => del a.(act_key) l
  | ACTION_FETCH _ => l
  end.

Definition apply_actions (acts : list couchfile_modify_action) (l : list kv) : list kv := foldl apply_action l acts.

(** The calls of the fetch callback: every fetch sees the old list. *)
Definition fetch_action {U} (callback : option (list Z -> option (list Z) -> Z -> U -> U)) (l : list kv) (u : U)
    (a : couchfile_modify_action) : U :=
  match a.(act_type), callback with
  | ACTION_FETCH arg, Some f => f a.(act_key) (find a.(act_key) l) arg u
  | _, _ => u
  end.

Definition fetches {U} (callback : option (list Z -> option (list Z) -> Z -> U -> U)) (acts : list couchfile_modify_action)
    (l : list kv) (u : U) : U := foldl (fetch_action callback l) u acts.

Definition is_fetch (a : couchfile_modify_action) : Prop := exists arg, a.(act_type) = ACTION_FETCH arg.

Definition sorted (l : list kv) : Prop := StronglySorted (fun x y => klt x.1 y.1) l.

(** The actions are sorted; for a key there may be fetches, and after them one change. *)
Definition acts_ok (acts : list couchfile_modify_action) : Prop :=
  StronglySorted (fun a b => klt a.(act_key) b.(act_key) \/ (cmp a.(act_key) b.(act_key) = 0 /\ is_fetch a)) acts.

(** All keys of the list are below those of the actions, or above them. *)
Definition below (l : list kv) (acts : list couchfile_modify_action) : Prop :=
  Forall (fun x => Forall (fun a => klt x.1 a.(act_key)) acts) l.
Definition above (acts : list couchfile_modify_action) (l : list kv) : Prop :=
  Forall (fun a => Forall (fun x => klt a.(act_key) x.1) l) acts.

Context {COK : CompareOk cmp}.

Lemma klt_le a b : klt a b -> cmp a b <= 0.
Proof. unfold klt. lia. Qed.

Lemma kle_lt_dec a b : cmp a b <= 0 \/ klt b a.
Proof. unfold klt. destruct (Z.le_gt_cases (cmp a b) 0) as [?|Hg]; [by left|right]. apply cmp_antisym. lia. Qed.

Lemma klt_not_le a b : klt a b -> ~ cmp b a <= 0.
Proof. unfold klt. rewrite cmp_antisym. lia. Qed.

Lemma klt_le_trans a b c : klt a b -> cmp b c <= 0 -> klt a c.
Proof. intros Hab Hbc. destruct (kle_lt_dec c a) as [Hca|]; [|done]. by destruct (klt_not_le a b Hab (cmp_trans _ _ _ Hbc Hca)). Qed.

Lemma kle_lt_trans a b c : cmp a b <= 0 -> klt b c -> klt a c.
Proof. intros Hab Hbc. destruct (kle_lt_dec c a) as [Hca|]; [|done]. by destruct (klt_not_le b c Hbc (cmp_trans _ _ _ Hca Hab)). Qed.

#[global] Instance klt_trans : Transitive klt.
Proof. intros a b c Hab Hbc. eapply klt_le_trans; [done|by apply klt_le]. Qed.

Lemma cmp_eq_sym a b : cmp a b = 0 -> cmp b a = 0.
Proof.
  intros He. destruct (Z.lt_trichotomy (cmp b a) 0) as [Hl|[?|Hg]]; [apply cmp_antisym in Hl; lia|done|]. apply cmp_antisym in Hg. lia.
Qed.

(** ** Lists that are put together *)

Lemma put_below k v l m : Forall (fun x => klt x.1 k) l -> put k v (l ++ m) = l ++ put k v m.
Proof.
  induction 1 as [|x l Hx _ IH]; [done|]. cbn [app put]. rewrite (proj2 (Z.ltb_lt _ _)) by apply Hx. by rewrite IH.
Qed.

Lemma put_above k v l m : Forall (fun x => klt k x.1) m -> put k v (l ++ m) = put k v l ++ m.
Proof.
  intros Hm. induction l as [|x l IH]; cbn [app put].
  - destruct m as [|y m]; [done|]. apply Forall_cons in Hm as [Hy _]. unfold klt in Hy. apply cmp_antisym in Hy. cbn [put].
    by rewrite (proj2 (Z.ltb_ge _ _)), (proj2 (Z.ltb_lt _ _)) by lia.
  - rewrite IH. destruct (cmp x.1 k <? 0); [done|]. by destruct (0 <? cmp x.1 k).
Qed.

Lemma cmp_neq_lt a b : klt a b -> cmp a b <> 0 /\ cmp b a <> 0.
Proof. unfold klt. intros Hl. pose proof (proj1 (cmp_antisym a b) Hl). lia. Qed.

Lemma del_below k l m : Forall (fun x => klt x.1 k) l -> del k (l ++ m) = l ++ del k m.
Proof.
  induction 1 as [|x l Hx _ IH]; [done|]. cbn [app del]. rewrite (proj2 (Z.eqb_neq _ _)) by apply (cmp_neq_lt _ _ Hx). by rewrite IH.
Qed.

Lemma del_none k m : Forall (fun x => klt k x.1) m -> del k m = m.
Proof.
  induction 1 as [|x m Hx _ IH]; [done|]. cbn [del]. rewrite (proj2 (Z.eqb_neq _ _)) by apply (cmp_neq_lt _ _ Hx). by rewrite IH.
Qed.

Lemma del_above k l m : Forall (fun x => klt k x.1) m -> del k (l ++ m) = del k l ++ m.
Proof.
  intros Hm. induction l as [|x l IH]; cbn [app del]; [by apply del_none|]. rewrite IH. by destruct (cmp x.1 k =? 0).
Qed.

Lemma find_below k l m : Forall (fun x => klt x.1 k) l -> find k (l ++ m) = find k m.
Proof.
  induction 1 as [|x l Hx _ IH]; [done|]. cbn [app find]. by rewrite (proj2 (Z.eqb_neq _ _)) by apply (cmp_neq_lt _ _ Hx).
Qed.

Lemma find_above k l m : Forall (fun x => klt k x.1) m -> find k (l ++ m) = find k l.
Proof.
  intros Hm. induction l as [|x l IH]; cbn [app find]; [|by rewrite IH].
  induction Hm as [|x m Hx _ IH]; [done|]. cbn [find]. by rewrite (proj2 (Z.eqb_neq _ _)) by apply (cmp_neq_lt _ _ Hx).
Qed.

Lemma apply_above acts l m : above acts m -> apply_actions acts (l ++ m) = apply_actions acts l ++ m.
Proof.
  unfold apply_actions. intros Ha. revert l. induction Ha as [|a acts Hm _ IH]; intros l; [done|]. cbn [foldl]. rewrite <- IH. f_equal.
  unfold apply_action. destruct (act_type a); [done|by apply del_above|by apply put_above].
Qed.

Lemma below_cons l a acts : below l (a :: acts) <-> Forall (fun x => klt x.1 a.(act_key)) l /\ below l acts.
Proof. unfold below. rewrite <- Forall_and. apply Forall_iff. intros x. by rewrite Forall_cons. Qed.

Lemma apply_below acts l m : below l acts -> apply_actions acts (l ++ m) = l ++ apply_actions acts m.
Proof.
  unfold apply_actions. revert m. induction acts as [|a acts IH]; intros m Hb; [done|]. apply below_cons in Hb as [Ha Hb]. cbn [foldl].
  rewrite <- IH by done. f_equal. unfold apply_action. destruct (act_type a); [done|by apply del_below|by apply put_below].
Qed.

Lemma apply_split acts1 acts2 l m : above acts1 m -> below (apply_actions acts1 l) acts2 ->
  apply_actions (acts1 ++ acts2) (l ++ m) = apply_actions acts1 l ++ apply_actions acts2 m.
Proof.
  intros Ha Hb. unfold apply_actions at 1. rewrite foldl_app. fold (apply_actions acts1 (l ++ m)). rewrite apply_above by done.
  by apply apply_below.
Qed.

Lemma fetches_split {U} cb acts1 acts2 l m (u : U) : above acts1 m -> below l acts2 ->
  fetches cb (acts1 ++ acts2) (l ++ m) u = fetches cb acts2 m (fetches cb acts1 l u).
Proof.
  intros Ha Hb. unfold fetches. rewrite foldl_app.
  assert (H1 : forall u, foldl (fetch_action cb (l ++ m)) u acts1 = foldl (fetch_action cb l) u acts1).
  { clear Hb. induction Ha as [|a acts1 Hm _ IH]; intros u'; [done|]. cbn [foldl]. rewrite IH. f_equal.
    unfold fetch_action. by rewrite find_above. }
  rewrite H1. generalize (foldl (fetch_action cb l) u acts1). clear H1 Ha. induction acts2 as [|a acts2 IH]; intros u'; [done|].
  apply below_cons in Hb as [Hl Hb]. cbn [foldl]. rewrite IH by done. f_equal. unfold fetch_action. by rewrite find_below.
Qed.

(** ** Keys *)

Lemma put_keys k v l (P : list Z -> Prop) : P k -> Forall (fun x => P x.1) l -> Forall (fun x => P x.1) (put k v l).
Proof.
  intros Hk. induction 1 as [|x l Hx Hl IH]; cbn [put]; [by constructor|].
  destruct (cmp x.1 k <? 0); [by constructor|]. destruct (0 <? cmp x.1 k); by repeat constructor.
Qed.

Lemma del_keys k l (P : kv -> Prop) : Forall P l -> Forall P (del k l).
Proof. induction 1 as [|x l Hx Hl IH]; cbn [del]; [done|]. destruct (cmp x.1 k =? 0); [done|by constructor]. Qed.

Lemma apply_keys acts l (P : list Z -> Prop) : Forall (fun a => P a.(act_key)) acts -> Forall (fun x => P x.1) l ->
  Forall (fun x => P x.1) (apply_actions acts l).
Proof.
  unfold apply_actions. intros Ha. revert l. induction Ha as [|a acts Hk _ IH]; intros l Hl; [done|]. cbn [foldl]. apply IH.
  unfold apply_action. destruct (act_type a); [done|by apply (del_keys _ _ (fun x => P x.1))|by apply put_keys].
Qed.

Lemma apply_fetches acts l : Forall is_fetch acts -> apply_actions acts l = l.
Proof.
  unfold apply_actions. induction 1 as [|a acts (arg & Ha) _ IH]; [done|]. cbn [foldl]. unfold apply_action at 2. by rewrite Ha.
Qed.

(** ** Sorted lists *)

Lemma put_sorted k v l : sorted l -> sorted (put k v l).
Proof.
  unfold sorted. induction 1 as [|x l Hs IH Hx]; cbn [put]; [by repeat constructor|].
  destruct (Z.ltb_spec (cmp x.1 k) 0) as [Hl|Hl].
  - constructor; [done|]. apply put_keys; [exact Hl|exact Hx].
  - destruct (Z.ltb_spec 0 (cmp x.1 k)) as [Hg|Hg].
    + apply cmp_antisym in Hg. constructor; [by constructor|]. constructor; [done|]. eapply Forall_impl; [exact Hx|]. intros y Hy. by eapply klt_trans.
    + constructor; [done|]. assert (He : cmp k x.1 <= 0) by (assert (cmp x.1 k = 0) by lia; rewrite cmp_eq_sym by done; done).
      eapply Forall_impl; [exact Hx|]. intros y Hy. by eapply kle_lt_trans.
Qed.

Lemma del_sorted k l : sorted l -> sorted (del k l).
Proof.
  unfold sorted. induction 1 as [|x l Hs IH Hx]; cbn [del]; [constructor|]. destruct (cmp x.1 k =? 0); [done|].
  constructor; [done|]. by apply (del_keys k l (fun y => klt x.1 y.1)).
Qed.

Lemma apply_sorted acts l : sorted l -> sorted (apply_actions acts l).
Proof.
  unfold apply_actions. revert l. induction acts as [|a acts IH]; intros l Hl; [done|]. cbn [foldl]. apply IH.
  unfold apply_action. destruct (act_type a); [done|by apply del_sorted|by apply put_sorted].
Qed.

Lemma sorted_app l m : sorted (l ++ m) <-> sorted l /\ sorted m /\ Forall (fun x => Forall (fun y => klt x.1 y.1) m) l.
Proof.
  unfold sorted. induction l as [|x l IH]; cbn [app].
  - split; [intros Hm; split; [constructor|by split]|by intros (_ & Hm & _)].
  - split.
    + intros [Hs Hx]%StronglySorted_inv. apply IH in Hs as (H1 & H2 & H3). apply Forall_app in Hx as [Hx1 Hx2].
      split; [by constructor|]. split; [done|by constructor].
    + intros ([H1 Hx]%StronglySorted_inv & H2 & [H3 H4]%Forall_cons). constructor; [by apply IH|]. by apply Forall_app.
Qed.
End spec.
