(* ===== verification/BtreeRep.v ===== *)
(** * What the nodes of a B+tree stand for

    [tree d lim h pos l]: below [lim] the bytes [d] of a file hold at [pos] a tree of height
    [h] with the contents [l]. Facts on trees stay true when the file grows. A result that
    is being built stands for the contents of its pointers and of its values. *)
From Stdlib Require Import ZArith Lia Sorted.
From stdpp Require Import strings gmap prelude sorting.
From S2P Require Import Prelude Bitfield ViewCodec Snappy NodeTypes Crc CouchFile Btree BtreeSpec.

#[local] Set Warnings "-clear-no-such-hyp".

(** The bytes of the items of a leaf and of the pointers of an inner node. *)
Definition kv_bytes (l : list kv) : list Z := concat (map (fun x => write_kv x.1 x.2) l).
Definition kp_bytes (l : list node_pointer) : list Z := concat (map (fun p => write_kv p.(np_key) (raw_node_pointer p)) l).

Definition kv_ok (x : kv) : Prop := len x.1 < 2 ^ 12 /\ len x.2 < 2 ^ 28.

(** The last key. *)
Definition ends (l : list kv) (k : list Z) : Prop := exists v, last l = Some (k, v).

(** A file position that fits into a pointer. *)
Definition fits48 (p : Z) : Prop := 0 <= p < 2 ^ 48.

(** What a reduction gives: [red l] is the reduce value of the contents [l], of at most
    [rmax] bytes. *)
Class ReduceOk {U} (rq : couchfile_modify_request U) (red : list kv -> list Z) (rmax : Z) : Prop := {
  red_size l : len (red l) <= rmax;
  red_max : rmax <= MAX_REDUCTION_SIZE;
  red_kv res n : res.(mr_node_type) = KV_NODE -> (n <= length res.(mr_values))%nat ->
    reduce_node rq res (Z.of_nat n) = inr (red (map (fun i => (i.(nl_key), i.(nl_data))) (take n res.(mr_values))));
  red_kp res n ls : res.(mr_node_type) = KP_NODE -> (n <= length res.(mr_values))%nat ->
    Forall2 (fun i l => exists p, i.(nl_pointer) = Some p /\ p.(np_reduce_value) = red l) (take n res.(mr_values)) ls ->
    reduce_node rq res (Z.of_nat n) = inr (red (concat ls))
}.

Section rep.
Context `{Snappy} {SOK : SnappyOk} (red : list kv -> list Z) (rmax : Z).

(** What a node says of a child. *)
Definition entry (p : node_pointer) (l : list kv) : Prop :=
  ends l p.(np_key) /\ Forall kv_ok l /\ p.(np_reduce_value) = red l.

Fixpoint tree (d : list Z) (lim : Z) (h : nat) (pos : Z) (l : list kv) : Prop :=
  match h with
  | O => l <> [] /\ Forall kv_ok l /\ node_at d pos (KV_NODE :: kv_bytes l) lim
  | S h' => exists cs : list (node_pointer * list kv),
      cs <> [] /\ l = concat (map snd cs) /\ node_at d pos (KP_NODE :: kp_bytes (map fst cs)) lim /\
      Forall (fun c => entry c.1 c.2 /\ fits48 c.1.(np_pointer) /\ fits48 c.1.(np_subtreesize) /\
                       tree d lim h' c.1.(np_pointer) c.2) cs
  end.

Lemma tree_mono d d' lim lim' h pos l : agree lim d d' -> lim <= lim' -> tree d lim h pos l -> tree d' lim' h pos l.
Proof.
  intros Ha Hl. revert pos l. induction h as [|h IH]; intros pos l; cbn [tree].
  - intros (H1 & H2 & H3). split; [done|]. split; [done|]. by eapply node_agree.
  - intros (cs & H1 & H2 & H3 & H4). exists cs. split; [done|]. split; [done|]. split; [by eapply node_agree|].
    eapply Forall_impl; [exact H4|]. intros c (E1 & E2 & E3 & E4). by repeat (split; [done|]); apply IH.
Qed.

Lemma ends_nonempty l k : ends l k -> l <> [].
Proof. intros (v & Hv) ->. done. Qed.

Lemma ends_last l k : ends l k -> exists m v, l = m ++ [(k, v)].
Proof. intros (v & Hv). apply last_Some in Hv as (m & ->). by exists m, v. Qed.

(** Where contents can be cut. *)
Lemma ends_bounds {cmp} `{COK : !CompareOk cmp} m1 m2 k : sorted cmp (m1 ++ m2) -> ends m1 k ->
  Forall (fun x => cmp x.1 k <= 0) m1 /\ Forall (fun x => klt cmp k x.1) m2.
Proof.
  intros Hs (m & v & ->)%ends_last. apply sorted_app in Hs as (Hs & _ & Hm). apply Forall_app in Hm as [_ Hm]. apply Forall_cons in Hm as [Hm _].
  split; [|done]. apply sorted_app in Hs as (_ & _ & Hl). apply Forall_app. split.
  - eapply Forall_impl; [exact Hl|]. intros x Hx. apply Forall_cons in Hx as [Hx _]. apply klt_le. exact Hx.
  - constructor; [|constructor]. cbn. by rewrite cmp_refl.
Qed.

Lemma entry_nonempty p l : entry p l -> l <> [].
Proof. intros [He _]. by eapply ends_nonempty. Qed.

Lemma tree_nonempty d lim h pos l : tree d lim h pos l -> l <> [].
Proof.
  destruct h as [|h]; cbn [tree]; [by intros []|]. intros (cs & Hne & -> & _ & Hcs). destruct cs as [|c cs]; [done|].
  apply Forall_cons in Hcs as [[He _] _]. apply entry_nonempty in He. cbn [map concat]. destruct c.2; [done|discriminate].
Qed.

Lemma tree_kv_ok d lim h pos l : tree d lim h pos l -> Forall kv_ok l.
Proof.
  destruct h as [|h]; cbn [tree]; [by intros (_ & Hk & _)|]. intros (cs & _ & -> & _ & Hcs). clear -Hcs.
  induction Hcs as [|c cs [(_ & Hk & _) _] _ IH]; [constructor|]. cbn [map concat]. by apply Forall_app.
Qed.

(** ** The size of the contents *)

Definition weight1 (x : kv) : Z := len x.1 + len x.2 + 19 + rmax.
Definition weight (l : list kv) : Z := foldr (fun x n => weight1 x + n) 0 l.

Context (Hrmax : 0 <= rmax).

Lemma weight1_pos x : 0 < weight1 x.
Proof. unfold weight1, len. lia. Qed.

Lemma weight_app l m : weight (l ++ m) = weight l + weight m.
Proof. induction l as [|x l IH]; simpl; [done|]. rewrite IH. lia. Qed.

Lemma weight_nonneg l : 0 <= weight l.
Proof. induction l as [|x l IH]; simpl; [done|]. pose proof (weight1_pos x). lia. Qed.

(** ** The size of nodes *)

Definition sizes (its : list nodelist) : Z := foldr (fun i n => item_size i + n) 0 its.

Lemma item_size_pos i : 5 <= item_size i.
Proof. unfold item_size, sizeof_raw_kv_length, len. lia. Qed.

Lemma sizes_app l m : sizes (l ++ m) = sizes l + sizes m.
Proof. induction l as [|x l IH]; simpl; [done|]. rewrite IH. lia. Qed.

Lemma sizes_nonneg l : 0 <= sizes l.
Proof. induction l as [|x l IH]; simpl; [done|]. pose proof (item_size_pos x). lia. Qed.

(** The bytes of the items of a node. *)
Definition items_bytes (its : list nodelist) : list Z := concat (map (fun i => write_kv i.(nl_key) i.(nl_data)) its).

Lemma write_kv_length k v : len (write_kv k v) = len k + len v + 5.
Proof.
  unfold write_kv, encode_kv_length. pose proof (be_bytes_length 4 (u32 (u32 (len v)))) as Hl.
  destruct (be_bytes 4 (u32 (u32 (len v)))) as [|b bs]; [done|]. unfold len. simpl length in *. rewrite !length_app. lia.
Qed.

Lemma items_bytes_length its : len (items_bytes its) = sizes its.
Proof.
  unfold items_bytes. induction its as [|i its IH]; [done|]. cbn [map concat sizes foldr]. fold (sizes its).
  rewrite len_app, IH, write_kv_length. unfold item_size, sizeof_raw_kv_length. lia.
Qed.

(** ** Filling a node *)

Lemma fill_node_spec ty its q n b st fk :
  exists taken rest st', its = taken ++ rest /\
    fill_node ty its q n b st fk =
      (b ++ items_bytes taken, st', match last taken with Some i => i.(nl_key) | None => fk end, n + Z.of_nat (length taken), rest).
Proof.
  revert q n b st fk. induction its as [|i its IH]; intros q n b st fk; cbn [fill_node].
  { exists [], [], st. split; [done|]. cbn. by rewrite app_nil_r, Z.add_0_r. }
  destruct (_ || _).
  - set (st1 := match nl_pointer i with Some _ => _ | None => _ end).
    destruct (IH (u64 (q - item_size i)) (n + 1) (b ++ write_kv (nl_key i) (nl_data i)) st1 (nl_key i)) as (taken & rest & st' & -> & ->).
    exists (i :: taken), rest, st'. split; [done|]. unfold items_bytes. cbn [map concat]. rewrite <- app_assoc.
    rewrite last_cons. f_equal. f_equal; [f_equal|cbn [length]; lia]. by destruct (last taken).
  - exists [], (i :: its), st. split; [done|]. cbn. by rewrite app_nil_r, Z.add_0_r.
Qed.

(** The quota of all items is used up by the last one only. *)
Lemma fill_node_all ty its q n b st fk : q = sizes its -> q < 2 ^ 64 ->
  (fill_node ty its q n b st fk).2 = [].
Proof.
  revert q n b st fk. induction its as [|i its IH]; intros q n b st fk -> Hq; cbn [fill_node sizes foldr] in *; [done|].
  fold (sizes its) in *. pose proof (item_size_pos i). pose proof (sizes_nonneg its).
  rewrite (proj2 (Z.ltb_lt 0 _)) by lia. cbn [orb]. apply IH; [|unfold u64, wrap; rewrite Z.mod_small; lia].
  unfold u64, wrap. rewrite Z.mod_small; lia.
Qed.

(** At least one item is taken, and at least two pointers. *)
Lemma fill_node_some ty its q b st fk : 0 < q -> its <> [] -> (length (fill_node ty its q 0 b st fk).2 < length its)%nat.
Proof.
  intros Hq Hne. destruct its as [|i its]; [done|]. cbn [fill_node]. rewrite (proj2 (Z.ltb_lt 0 q)) by done. cbn [orb].
  match goal with |- context [fill_node ?a ?b ?c ?d ?e ?f ?g] => destruct (fill_node_spec a b c d e f g) as (t & r & st' & -> & ->) end.
  cbn. rewrite length_app. lia.
Qed.

Lemma fill_node_two its q b st fk : (2 <= length its)%nat -> (2 + length (fill_node KP_NODE its q 0 b st fk).2 <= length its)%nat.
Proof.
  intros Hl. destruct its as [|i [|j its]]; simpl in Hl; [lia..|]. cbn [fill_node].
  assert (E0 : (0 <? q) || ((0 <? 2) && (KP_NODE =? KP_NODE)) = true) by (by destruct (0 <? q)). rewrite E0.
  assert (E1 : forall q, (0 <? q) || ((0 + 1 <? 2) && (KP_NODE =? KP_NODE)) = true) by (intros q'; by destruct (0 <? q')). rewrite E1.
  match goal with |- context [fill_node ?a ?b ?c ?d ?e ?f ?g] => destruct (fill_node_spec a b c d e f g) as (t & r & st' & -> & ->) end.
  cbn. rewrite length_app. lia.
Qed.
End rep.
