(* ===== verification/BtreeWrite.v ===== *)
(** * Building the nodes of a B+tree

    The values of a result are written to the file as nodes; the contents that the result
    stands for stay the same. *)
From Stdlib Require Import ZArith Lia Sorted.
From stdpp Require Import strings gmap prelude sorting.
From S2P Require Import Prelude Bitfield ViewCodec Snappy NodeTypes Crc CouchFile Btree BtreeSpec BtreeRep.

#[local] Set Warnings "-clear-no-such-hyp".

(** ** The number of allocations grows *)

Section calls.
Context {F : Type} `{FileOps F} `{Alloc} `{Snappy}.

Definition counts {A} (m : M (tree_file F) A) : Prop :=
  forall f a f', m f = Some (a, f') -> (m_calls f.(tf_mem) <= m_calls f'.(tf_mem))%nat.

Lemma counts_ret {A} (a : A) : counts (mret a).
Proof. by intros f x f' [= _ <-]. Qed.

Lemma counts_bind {A B} (m : M (tree_file F) A) (k : A -> M (tree_file F) B) : counts m -> (forall a, counts (k a)) -> counts (mbind k m).
Proof.
  intros Hm Hk f b f' (a & f1 & H1' & H2')%run_bind_Some. specialize (Hm _ _ _ H1'). specialize (Hk _ _ _ _ H2'). lia.
Qed.

Lemma counts_pure {A} (m : M (tree_file F) A) : (forall f a f', m f = Some (a, f') -> f'.(tf_mem) = f.(tf_mem)) -> counts m.
Proof. intros Hm f a f' He. by rewrite (Hm _ _ _ He). Qed.

Lemma counts_handle {A} (m : M F A) : counts (on_handle m).
Proof. apply counts_pure. intros f a f' He. unfold on_handle in He. destruct (m _) as [[]|]; [|done]. by injection He as _ <-. Qed.

Lemma counts_malloc n : counts (on_mem (malloc n)).
Proof. intros f a f' He. unfold on_mem, malloc in He. destruct (malloc_ok _ _); injection He as _ <-; cbn; lia. Qed.

Lemma counts_free p : counts (on_mem (free p)).
Proof.
  intros f a f' He. unfold on_mem, free in He. destruct p as [| |n]; [by injection He as _ <-|done|].
  destruct (decide _); [|done]. by injection He as _ <-.
Qed.

Lemma counts_raw_write_loop fuel buf p : counts (raw_write_loop fuel buf p).
Proof.
  revert buf p. induction fuel as [|fuel IH]; intros [|b buf] p; cbn [raw_write_loop]; try apply counts_ret; [by intros f a f'|].
  cbv zeta. destruct (_ =? 0); (apply counts_bind; [apply counts_handle|]); intros [e|n]; (apply counts_ret || apply IH).
Qed.

Lemma counts_raw_write buf p : counts (raw_write buf p).
Proof. unfold raw_write. apply counts_bind; [apply counts_raw_write_loop|]. intros r. apply counts_ret. Qed.

Lemma counts_gets {A} (g : tree_file F -> A) : counts (gets g).
Proof. by intros f a f' [= _ <-]. Qed.

Lemma counts_set_pos p : counts (set_pos p : M (tree_file F) unit).
Proof. by intros f a f' [= _ <-]. Qed.

Lemma counts_option {A} (o : option A) : counts (of_option o).
Proof. intros f a f' He. unfold of_option in He. destruct o; [|done]. by injection He as _ <-. Qed.

Lemma counts_assert b : counts (cassert b : M (tree_file F) unit).
Proof. intros f a f' He. unfold cassert in He. destruct b; [|done]. by injection He as _ <-. Qed.

Lemma counts_write buf : counts (db_write_buf_compressed buf).
Proof.
  unfold db_write_buf_compressed, db_write_buf. apply counts_bind; [apply counts_malloc|]. intros p. destruct (decide (p = Null)); [apply counts_ret|].
  apply counts_bind; [apply counts_option|]. intros c. apply counts_bind; [apply counts_assert|]. intros _. apply counts_bind.
  - apply counts_bind; [apply counts_gets|]. intros q. apply counts_bind; [apply counts_raw_write|]. intros [e|k1]; [apply counts_ret|].
    apply counts_bind; [apply counts_raw_write|]. intros [e|k2]; [apply counts_ret|]. apply counts_bind; [apply counts_set_pos|]. intros _. apply counts_ret.
  - intros r. apply counts_bind; [apply counts_free|]. intros _. apply counts_ret.
Qed.

Lemma counts_read_loop fuel p n dst : counts (read_loop fuel p n dst).
Proof.
  revert p n dst. induction fuel as [|fuel IH]; intros p n dst; cbn [read_loop]; destruct (n <=? 0); try apply counts_ret; [by intros f a f'|].
  cbv zeta. apply counts_bind; [apply counts_handle|]. intros [e|[|x b]]; [apply counts_ret..|apply IH].
Qed.

Lemma counts_read pos : counts (pread_compressed pos).
Proof.
  unfold pread_compressed, pread_bin_internal. apply counts_bind.
  - apply counts_bind; [apply counts_read_loop|]. intros [e|[q info]]; [apply counts_ret|]. cbv zeta. destruct (_ && _); [apply counts_ret|].
    apply counts_bind; [apply counts_malloc|]. intros p. destruct (decide (p = Null)) as [?|?]; [apply counts_ret|]. apply counts_bind; [apply counts_read_loop|].
    intros [e|[q' b]]; [apply counts_bind; [apply counts_free|intros _; apply counts_ret]|].
    destruct (_ && _); [|apply counts_ret]. apply counts_bind; [apply counts_free|intros _; apply counts_ret].
  - intros [e|[p b]]; [apply counts_ret|]. destruct (snappy_uncompressed_length b (len b)) as [n|].
    2:{ apply counts_bind; [apply counts_free|intros _; apply counts_ret]. }
    apply counts_bind; [apply counts_malloc|]. intros q. destruct (decide (q = Null)) as [?|?]; [apply counts_bind; [apply counts_free|intros _; apply counts_ret]|].
    destruct (snappy_uncompress b n).
    + apply counts_bind; [apply counts_free|]. intros _. apply counts_bind; [apply counts_assert|]. intros _. apply counts_ret.
    + do 2 (apply counts_bind; [apply counts_free|]; intros _). apply counts_ret.
Qed.
End calls.

(** What the theorems on modifications rely on: compression adds at most what its
    documentation says, reads, writes and allocations succeed, and the sizes of chunks are
    numbers that make sense. *)
Class TreeEnv {F U} `{FileOpsOk F} `{Alloc} `{Snappy} (rq : couchfile_modify_request U) : Prop := {
  te_snappy n : 0 <= n -> snappy_max_compressed_length n <= 32 + n + n / 6;
  te_reliable : ops_reliable;
  te_malloc : malloc_total;
  te_kv : 0 < Z.quot (rq.(rq_kv_chunk_threshold) * 2) 3 < 2 ^ 64;
  te_kp : 0 < Z.quot (rq.(rq_kp_chunk_threshold) * 2) 3 < 2 ^ 64
}.

Section write.
Context {F U : Type} `{FileOpsOk F} `{Alloc} `{Snappy} {SOK : SnappyOk}.
Context {rq : couchfile_modify_request U} {red : list kv -> list Z} {rmax : Z} {ROK : ReduceOk rq red rmax} {TE : TreeEnv rq}.
Context {c0 : nat}.
Implicit Types s : btree F U.

Abbreviation bpos s := (tf_pos (bt_file s)).
Abbreviation bdata s := (ops_data (tf_handle (bt_file s))).
Abbreviation bmem s := (tf_mem (bt_file s)).
Abbreviation tree := (tree red).
Abbreviation entry := (entry red).
Abbreviation weight := (weight rmax).

Lemma rmax_pos : 0 <= rmax.
Proof. pose proof (red_size (rq := rq) (red := red) (rmax := rmax) []). unfold len in *. lia. Qed.

(** The state is sound; [c0] allocations were made before the request. *)
Definition st_ok s : Prop := ops_ok (tf_handle (bt_file s)) /\ mem_ok (bmem s) /\ 0 <= bpos s /\ (c0 <= m_calls (bmem s))%nat.

(** The file has grown, and nothing was leaked. *)
Definition fr s s' : Prop :=
  grows (bt_file s) (bt_file s') /\ balanced (bmem s) (bmem s') /\ s'.(bt_purging) = s.(bt_purging) /\
  (m_calls (bmem s) <= m_calls (bmem s'))%nat.

Lemma fr_refl s : st_ok s -> fr s s.
Proof. intros (H1' & H2' & H3 & H4). split; [by split; [|split; [|apply agree_refl]]|]. split; [by apply balanced_refl|done]. Qed.

Lemma fr_trans s s' s'' : fr s s' -> fr s' s'' -> fr s s''.
Proof.
  intros (H1' & [_ H2'] & H3 & H4) (K1 & [K2' K2] & K3 & K4). split; [by eapply grows_trans|]. split; [split; [done|congruence]|]. split; [congruence|lia].
Qed.

Lemma fr_ok s s' : fr s s' -> st_ok s -> st_ok s'.
Proof. intros ((G1 & G2 & _) & [B1 _] & _ & C) (_ & _ & H3 & H4). split; [done|]. split; [done|]. split; lia. Qed.

Lemma runs_in_file {A} (m : M (tree_file F) A) s (Q : A -> btree F U -> Prop) :
  runs m s.(bt_file) (fun a f => Q a (mk_bt f s.(bt_user) s.(bt_purging))) -> runs (in_file m) s Q.
Proof. intros (a & f & Hm & HQ). exists a. eexists. split; [unfold in_file; by rewrite Hm|exact HQ]. Qed.

Lemma runs_counts {A} (m : M (tree_file F) A) f (Q : A -> tree_file F -> Prop) : counts m ->
  runs m f Q -> runs m f (fun a f' => Q a f' /\ (m_calls f.(tf_mem) <= m_calls f'.(tf_mem))%nat).
Proof. intros Hc (a & f' & Hm & HQ). exists a, f'. split; [done|]. split; [done|]. by eapply Hc. Qed.

Lemma malloc_fresh n m : mem_ok m ->
  runs (malloc n) m (fun p m' => exists k, p = Block k /\ grown m m' [k] /\ (m_calls m <= m_calls m')%nat).
Proof.
  intros Hm. destruct (malloc_out n m (fun p m' => exists k, p = Block k /\ grown m m' [k]) Hm) as (p & m' & He & k & -> & Hg);
    [by intros s' _ Hno; destruct (Hno te_malloc)|intros k s' Hg; by exists k|]. eexists _, _. split; [exact He|]. exists k. split; [done|].
  split; [done|]. unfold malloc in He. destruct (malloc_ok _ _); injection He as _ <-; cbn; lia.
Qed.

Lemma free_run n m0 s : grown m0 (bmem s) [n] ->
  runs (in_mem (free (Block n))) s (fun _ s' => balanced m0 (bmem s') /\ bpos s' = bpos s /\ tf_handle (bt_file s') = tf_handle (bt_file s) /\
    s'.(bt_user) = s.(bt_user) /\ s'.(bt_purging) = s.(bt_purging) /\ (m_calls (bmem s) <= m_calls (bmem s'))%nat).
Proof.
  intros Hg. unfold in_mem. apply runs_in_file. cbn [bt_user bt_purging].
  destruct (free_block_run n [] m0 (bmem s) (fun _ m => balanced m0 m) Hg) as ([] & m & He & Hb); [by intros s' Hb%grown_nil|].
  exists tt. eexists. split; [unfold on_mem; by rewrite He|]. cbn. repeat (split; [done|]).
  unfold free in He. destruct (decide _); [|done]. by injection He as <-.
Qed.

(** The state after a change of the memory only. *)
Lemma fr_mem s m : st_ok s -> balanced (bmem s) m -> (m_calls (bmem s) <= m_calls m)%nat ->
  fr s (mk_bt (mk_tf (bpos s) (tf_handle (bt_file s)) m) s.(bt_user) s.(bt_purging)).
Proof. intros (H1' & H2' & H3 & H4) Hb Hc. split; [by split; [|split; [|apply agree_refl]]|]. by split. Qed.

Lemma arena_run n s (Q : ptr -> btree F U -> Prop) : st_ok s ->
  (forall k s', fr s s' -> s'.(bt_user) = s.(bt_user) -> (c0 <= k)%nat -> Q (Block k) s') -> runs (in_mem (arena_alloc n)) s Q.
Proof.
  intros Hs HQ. eexists _, _. split; [unfold in_mem, in_file, on_mem, arena_alloc; reflexivity|]. rewrite te_malloc. apply HQ; [|done|apply Hs].
  apply fr_mem; [done| |cbn; lia]. split; [|done]. intros k Hk. cbn in *. destruct Hs as (_ & Hm & _). specialize (Hm k Hk). lia.
Qed.

Lemma make_nodelist_run n s (Q : bool -> btree F U -> Prop) : st_ok s ->
  (forall s', fr s s' -> s'.(bt_user) = s.(bt_user) -> Q true s') -> runs (make_nodelist n) s Q.
Proof. intros Hs HQ. unfold make_nodelist. run. apply arena_run; [done|]. intros k s' Hf Hu _. run. by apply HQ. Qed.

Lemma make_modres_run s (Q : option couchfile_modify_result -> btree F U -> Prop) : st_ok s ->
  (forall s', fr s s' -> s'.(bt_user) = s.(bt_user) -> Q (Some (mk_mr [] 0 0 [] false KP_NODE)) s') -> runs make_modres s Q.
Proof.
  intros Hs HQ. unfold make_modres. run. apply arena_run; [done|]. intros k s1 F1 U1 _. rewrite decide_False by done. run.
  apply make_nodelist_run; [by eapply fr_ok|]. intros s2 F2 U2. cbn [negb]. run.
  apply make_nodelist_run; [eapply fr_ok; [exact F2|by eapply fr_ok]|]. intros s3 F3 U3. cbn [negb]. run.
  apply HQ; [|congruence]. eapply fr_trans; [done|]. by eapply fr_trans.
Qed.

(** ** Items *)

(** The values of a result are the items of leaves ([None]) or pointers to nodes of a
    height. *)
Definition out (lv : option nat) : nat := match lv with None => O | Some h => S h end.
Definition ty (lv : option nat) : Z := match lv with None => KV_NODE | Some _ => KP_NODE end.

(** A pointer to a tree, as far as positions fit into pointers. *)
Definition pointer_ok s (h : nat) (p : node_pointer) (l : list kv) : Prop :=
  entry p l /\ (bpos s < 2 ^ 48 -> fits48 p.(np_pointer) /\ tree (bdata s) (bpos s) h p.(np_pointer) l) /\
  exists k, p.(np_block) = Block k /\ (c0 <= k)%nat.

Definition item_ok s (lv : option nat) (i : nodelist) (l : list kv) : Prop :=
  match lv with
  | None => i.(nl_pointer) = None /\ l = [(i.(nl_key), i.(nl_data))] /\ Forall kv_ok l
  | Some h => exists p, i = mk_nl p.(np_key) (raw_node_pointer p) (Some p) /\ pointer_ok s h p l
  end.

Lemma pointer_grow s s' h p l : grows (bt_file s) (bt_file s') -> pointer_ok s h p l -> pointer_ok s' h p l.
Proof.
  intros (_ & G2 & G3) (H1' & H2' & H3). split; [done|]. split; [|done]. intros Hl. destruct (H2' ltac:(lia)) as [Hf Ht].
  split; [done|]. by eapply tree_mono.
Qed.

Lemma items_grow s s' lv its ls : grows (bt_file s) (bt_file s') -> Forall2 (item_ok s lv) its ls -> Forall2 (item_ok s' lv) its ls.
Proof.
  intros Hf Hi. eapply Forall2_impl; [exact Hi|]. intros i l. destruct lv as [h|]; [|done]. intros (p & -> & Hp). exists p.
  split; [done|]. by eapply pointer_grow.
Qed.

Lemma pointer_mono s s' h p l : fr s s' -> pointer_ok s h p l -> pointer_ok s' h p l.
Proof. intros [Hf _]. by apply pointer_grow. Qed.

Lemma items_mono s s' lv its ls : fr s s' -> Forall2 (item_ok s lv) its ls -> Forall2 (item_ok s' lv) its ls.
Proof. intros [Hf _]. by apply items_grow. Qed.

Lemma raw_pointer_length p : len (raw_node_pointer p) = 14 + len p.(np_reduce_value).
Proof.
  unfold raw_node_pointer, couchstore_encode_raw48, couchstore_encode_raw16. rewrite !ENCODE_RAW_bytes by lia.
  rewrite !len_app. unfold len. rewrite !be_bytes_length. lia.
Qed.

Lemma weight_ends l k : ends l k -> len k + 19 + rmax <= weight l.
Proof.
  intros (m & v & ->)%ends_last. rewrite weight_app. pose proof (weight_nonneg rmax rmax_pos m). cbn. unfold weight1, len in *. cbn. lia.
Qed.

Lemma item_weight s lv i l : item_ok s lv i l -> item_size i <= weight l.
Proof.
  pose proof rmax_pos. destruct lv as [h|].
  - intros (p & -> & (He & _ & Hr) & _). unfold item_size, sizeof_raw_kv_length. cbn [nl_key nl_data]. rewrite raw_pointer_length, Hr.
    pose proof (weight_ends _ _ He). pose proof (red_size (rq := rq) (red := red) (rmax := rmax) l). lia.
  - intros (_ & -> & _). unfold item_size, sizeof_raw_kv_length. cbn. unfold weight1. cbn. lia.
Qed.

Lemma items_weight s lv its ls : Forall2 (item_ok s lv) its ls -> sizes its <= weight (concat ls).
Proof.
  induction 1 as [|i l its ls Hi _ IH]; [done|]. cbn [sizes foldr concat]. fold (sizes its). rewrite weight_app.
  pose proof (item_weight _ _ _ _ Hi). lia.
Qed.

Lemma item_key s lv i l : item_ok s lv i l -> ends l i.(nl_key) /\ Forall kv_ok l.
Proof.
  destruct lv as [h|]; [by intros (p & -> & (He & Hk & _) & _)|]. intros (_ & -> & Hk). split; [by exists (nl_data i)|done].
Qed.

(** ** Results *)

Record mr_ok s (lv : option nat) (r : couchfile_modify_result) (l : list kv) : Prop := {
  mo_items : exists lp lvs, Forall2 (item_ok s (Some (out lv))) r.(mr_pointers) lp /\ Forall2 (item_ok s lv) r.(mr_values) lvs /\
    l = concat lp ++ concat lvs;
  mo_len : r.(mr_node_len) = sizes r.(mr_values);
  mo_type : r.(mr_node_type) = ty lv;
  mo_count : r.(mr_count) = Z.of_nat (length r.(mr_values))
}.

Lemma mr_grow s s' lv r l : grows (bt_file s) (bt_file s') -> mr_ok s lv r l -> mr_ok s' lv r l.
Proof.
  intros Hf [(lp & lvs & H1' & H2' & ->) H3 H4 H5]. constructor; [|done..]. exists lp, lvs.
  split; [by eapply items_grow|]. split; [by eapply items_grow|done].
Qed.

Lemma mr_mono s s' lv r l : fr s s' -> mr_ok s lv r l -> mr_ok s' lv r l.
Proof. intros [Hf _]. by apply mr_grow. Qed.

(** ** A new node *)

(** The size of a subtree is stored in 48 bits. *)
Definition stored_pointer (p : node_pointer) : node_pointer :=
  mk_np p.(np_block) p.(np_key) p.(np_pointer) p.(np_reduce_value) (p.(np_subtreesize) mod 2 ^ 48).

Lemma stored_pointer_bytes p : raw_node_pointer (stored_pointer p) = raw_node_pointer p.
Proof.
  unfold raw_node_pointer, couchstore_encode_raw48. cbn [stored_pointer np_pointer np_subtreesize np_reduce_value]. f_equal. f_equal.
  rewrite !ENCODE_RAW_bytes by lia. rewrite (Z.div_mod p.(np_subtreesize) (2 ^ 48)) at 2 by lia. rewrite Z.mul_comm. symmetry.
  apply (be_bytes_add_high 6 6); lia.
Qed.

Lemma leaf_bytes s its ls : Forall2 (item_ok s None) its ls ->
  items_bytes its = kv_bytes (concat ls) /\ Forall kv_ok (concat ls) /\ map (fun i => (i.(nl_key), i.(nl_data))) its = concat ls.
Proof.
  induction 1 as [|i l its ls (_ & -> & Hk) _ (IH1 & IH2 & IH3)]; [done|]. cbn [concat map app].
  unfold items_bytes, kv_bytes in *. cbn [map concat]. rewrite IH1. split; [done|]. apply Forall_cons in Hk as [Hk _]. split; [by constructor|]. by rewrite IH3.
Qed.

Lemma inner_bytes s h its ls : bpos s < 2 ^ 48 -> Forall2 (item_ok s (Some h)) its ls ->
  exists cs, map snd cs = ls /\ kp_bytes (map fst cs) = items_bytes its /\
    Forall (fun c => entry c.1 c.2 /\ fits48 c.1.(np_pointer) /\ fits48 c.1.(np_subtreesize) /\
                     tree (bdata s) (bpos s) h c.1.(np_pointer) c.2) cs.
Proof.
  intros Hl. induction 1 as [|i l its ls (p & -> & (He & Ht & _)) _ (cs & IH1 & IH2 & IH3)]; [by exists []|].
  destruct (Ht Hl) as [Hf Htr]. exists ((stored_pointer p, l) :: cs). cbn [map fst snd]. split; [by rewrite IH1|]. split.
  - unfold kp_bytes, items_bytes in *. cbn [map concat]. rewrite IH2. cbn [nl_key nl_data]. by rewrite stored_pointer_bytes.
  - constructor; [|done]. cbn. split; [done|]. split; [done|]. split; [|done]. apply Z.mod_pos_bound. lia.
Qed.

Lemma node_tree s lv its ls p : its <> [] -> Forall2 (item_ok s lv) its ls -> bpos s < 2 ^ 48 ->
  node_at (bdata s) p (ty lv :: items_bytes its) (bpos s) -> tree (bdata s) (bpos s) (out lv) p (concat ls).
Proof.
  intros Hne Hi Hl Hn. destruct lv as [h|]; cbn [out ty BtreeRep.tree] in *.
  - destruct (inner_bytes s h its ls Hl Hi) as (cs & <- & Hb & Hcs). rewrite <- Hb in Hn. exists cs. split; [|done].
    intros ->. cbn in Hi. by apply Forall2_nil_inv_r in Hi.
  - destruct (leaf_bytes s its ls Hi) as (He & Hk & Hm). rewrite He in Hn. split; [|done]. rewrite <- Hm. by destruct its.
Qed.

Lemma last_ends s lv its ls i : Forall2 (item_ok s lv) its ls -> last its = Some i -> ends (concat ls) i.(nl_key).
Proof.
  intros Hi Hl. apply last_Some in Hl as (its' & ->). apply Forall2_app_inv_l in Hi as (l1 & l2 & _ & H2' & ->).
  apply Forall2_cons_inv_l in H2' as (l & l3 & Hl & ->%Forall2_nil_inv_l & ->). apply item_key in Hl as [(v & Hv) _].
  exists v. rewrite concat_app. cbn [concat]. rewrite app_nil_r. rewrite last_app, Hv. done.
Qed.

Lemma items_kv_ok s lv its ls : Forall2 (item_ok s lv) its ls -> Forall kv_ok (concat ls).
Proof. induction 1 as [|i l its ls Hi _ IH]; [constructor|]. cbn [concat]. apply Forall_app. split; [|done]. by destruct (item_key _ _ _ _ Hi). Qed.

Lemma reduce_run s lv r taken rest lts : r.(mr_node_type) = ty lv -> r.(mr_values) = taken ++ rest ->
  Forall2 (item_ok s lv) taken lts -> reduce_node rq r (Z.of_nat (length taken)) = inr (red (concat lts)).
Proof.
  intros Ht Hv Hi. assert (Hl : (length taken <= length r.(mr_values))%nat) by (rewrite Hv, length_app; lia).
  destruct lv as [h|]; cbn [ty] in Ht.
  - apply (red_kp (rq := rq) (red := red) (rmax := rmax)); [done|done|]. rewrite Hv, take_app_length. eapply Forall2_impl; [exact Hi|].
    intros i l (p & -> & (_ & _ & Hr) & _). by exists p.
  - rewrite (red_kv (rq := rq) (red := red) (rmax := rmax)) by done. rewrite Hv, take_app_length. by destruct (leaf_bytes s _ _ Hi) as (_ & _ & ->).
Qed.

(** What a flush takes from the values. *)
Definition flushed (lv : option nat) (q : Z) (r r' : couchfile_modify_result) : Prop :=
  if r.(mr_modified) then
    match r.(mr_values) with
    | [] => r' = r
    | _ => exists taken rest pel, r.(mr_values) = taken ++ rest /\ taken <> [] /\ r'.(mr_values) = rest /\
             r'.(mr_pointers) = r.(mr_pointers) ++ [pel] /\
             (lv <> None -> (2 <= length r.(mr_values))%nat -> (2 <= length taken)%nat) /\
             (q = r.(mr_node_len) -> rest = [])
    end
  else r' = r.

Lemma flush_run s lv r l q : st_ok s -> mr_ok s lv r l -> weight l < 2 ^ 30 - 1 -> 0 < q ->
  runs (flush_mr_partial rq r q) s (fun x s' => fr s s' /\ s'.(bt_user) = s.(bt_user) /\ x.1 = COUCHSTORE_SUCCESS /\
    mr_ok s' lv x.2 l /\ x.2.(mr_modified) = r.(mr_modified) /\ flushed lv q r x.2).
Proof.
  intros Hs Hmr Hw Hq. unfold flush_mr_partial, flushed. destruct (mr_modified r) eqn:Hmod; rewrite ?andb_false_r, ?orb_true_r.
  2:{ run. split; [by apply fr_refl|]. done. }
  destruct (mr_values r) as [|i0 its0] eqn:Hv; [rewrite bool_decide_eq_true_2 by done; cbn [orb]; run; split; [by apply fr_refl|done]|].
  rewrite bool_decide_eq_false_2 by done. cbn [orb negb]. rewrite <- Hv in *. assert (Hvne : mr_values r <> []) by (by rewrite Hv).
  destruct Hmr as [(lp & lvs & Hp & Hvs & ->) Hlen Hty Hcnt].
  assert (Hsz : sizes (mr_values r) < 2 ^ 30 - 1).
  { pose proof (items_weight _ _ _ _ Hvs). rewrite weight_app in Hw. pose proof (weight_nonneg rmax rmax_pos (concat lp)). lia. }
  run. pose proof Hs as (Hok & Hm & Hp0 & Hc). apply runs_in_file, runs_mem. eapply runs_mono; [by apply malloc_fresh|].
  intros nb m (n & -> & Hg & Hcm). rewrite decide_False by done.
  destruct (fill_node_spec (mr_node_type r) (mr_values r) q 0 [] 0 []) as (taken & rest & st' & Hsplit & Hfill).
  pose proof (fill_node_some (mr_node_type r) (mr_values r) q [] 0 [] Hq Hvne) as Hsome.
  assert (Htwo : lv <> None -> (2 <= length (mr_values r))%nat -> (2 <= length taken)%nat).
  { intros Hlv H2'. destruct lv as [h|]; [|done]. rewrite Hty in Hfill. pose proof (fill_node_two (mr_values r) q [] 0 [] H2') as Ht2.
    cbn [ty] in *. rewrite Hfill in Ht2. cbn in Ht2. rewrite Hsplit, length_app in Ht2. lia. }
  assert (Hall : q = mr_node_len r -> rest = []).
  { intros Hqe. pose proof (fill_node_all (mr_node_type r) (mr_values r) q 0 [] 0 [] ltac:(congruence) ltac:(rewrite Hqe, Hlen; lia)) as Ha.
    by rewrite Hfill in Ha. }
  rewrite Hfill in *. cbn [app snd] in *. rewrite Hsplit, length_app in Hsome.
  assert (Htne : taken <> []) by (intros ->; simpl in Hsome; lia).
  rewrite Hsplit in Hvs. apply Forall2_app_inv_l in Hvs as (lts & lrs & Ht & Hr & ->).
  assert (Hsz2 : sizes (mr_values r) = sizes taken + sizes rest) by (by rewrite Hsplit, sizes_app).
  pose proof (sizes_nonneg rest) as Hrest0. assert (Hwb : len (u8 (mr_node_type r) :: items_bytes taken) = 1 + sizes taken)
    by (rewrite <- (items_bytes_length taken); unfold len; cbn [length]; lia).
  cbv iota zeta. run; [apply Z.leb_le; lia|]. apply runs_in_file. cbn [bt_file bt_user bt_purging].
  eapply runs_mono; [apply runs_counts; [apply counts_write|apply (write_compressed_run te_snappy); cbn [tf_handle tf_pos tf_mem]; [done|apply Hg|done|lia]]|].
  intros [e|[dp ds]] f1 ((G1 & G2 & G3) & Hc1); [by destruct (proj2 G3 te_reliable te_malloc)|]. cbn [tf_handle tf_pos tf_mem] in *. destruct G3 as [-> Hnode].
  run. eapply runs_mono; [apply (free_run n (bmem s)); by eapply grown_balanced|]. cbn [bt_file bt_user bt_purging].
  intros [] s2 (Hb2 & Hfp & Hfh & Hu2 & Hpu & Hc2). cbn [bt_file bt_user bt_purging] in *.
  assert (F2 : fr s s2).
  { split; [|split; [done|split; [done|lia]]]. unfold grows in *. by rewrite Hfp, Hfh. }
  rewrite (reduce_run s lv _ taken rest lts) by done. run.
  { apply Z.leb_le. pose proof (red_size (rq := rq) (red := red) (rmax := rmax) (concat lts)). pose proof (red_max (rq := rq) (red := red) (rmax := rmax)). lia. }
  destruct (last taken) as [i|] eqn:Hlast; [|by apply last_None in Hlast].
  apply arena_run; [by eapply fr_ok|]. intros k s3 F3 U3 Hk. rewrite decide_False by done. unfold encode_pointer. run.
  apply make_nodelist_run; [eapply fr_ok; [exact F3|by eapply fr_ok]|]. intros s4 F4 U4. run. cbn [fst snd].
  assert (F24 : fr s2 s4) by (by eapply fr_trans). assert (F04 : fr s s4) by (by eapply fr_trans).
  split; [done|]. split; [congruence|]. split; [done|]. split; [|split; [done|]].
  - constructor; cbn [mr_values mr_node_len mr_count mr_pointers mr_node_type set_mr_pointers set_mr_node_len set_mr_values set_mr_count].
    + exists (lp ++ [concat lts]), lrs. split; [|split; [by eapply items_mono|rewrite !concat_app; cbn [concat]; by rewrite app_nil_r, <- app_assoc]].
      apply Forall2_app; [by eapply items_mono|]. constructor; [|constructor]. eexists. split; [done|]. cbn [np_key].
      split; [split; [by eapply last_ends|split; [by eapply items_kv_ok|done]]|]. split; [|by exists k]. cbn [np_pointer]. intros Hl4.
      pose proof F24 as ((_ & Hle & Hagr) & _). pose proof F2 as ((_ & Hle0 & _) & _).
      assert (Hu8 : u8 (mr_node_type r) = ty lv) by (rewrite Hty; by destruct lv). rewrite Hu8 in Hnode.
      split; [split; [done|lia]|]. eapply tree_mono; [exact Hagr|exact Hle|]. apply (node_tree s2 lv taken lts); [done| |lia|].
      * by eapply items_mono.
      * by rewrite Hfp, Hfh.
    + rewrite Hlen. lia.
    + done.
    + rewrite Hcnt, Hsplit, length_app. lia.
  - exists taken, rest. eexists. by repeat (split; [done|]).
Qed.

(** ** Results that grow *)

(** Contents that may be written. *)
Definition good (l : list kv) : Prop := weight l < 2 ^ 30 - 1 /\ Forall kv_ok l.

Lemma good_app l m : good (l ++ m) -> good l /\ good m.
Proof.
  intros [Hw Hk]. rewrite weight_app in Hw. apply Forall_app in Hk as [Hk1 Hk2].
  pose proof (weight_nonneg rmax rmax_pos l). pose proof (weight_nonneg rmax rmax_pos m). split; (split; [lia|done]).
Qed.

(** What the number of pointers can become: a node has at least two values. *)
Definition potential (r : couchfile_modify_result) : nat := (2 * length r.(mr_pointers) + length r.(mr_values))%nat.

Lemma flushed_potential lv q r r' : lv <> None -> (2 <= length r.(mr_values))%nat -> flushed lv q r r' -> (potential r' <= potential r)%nat.
Proof.
  intros Hlv H2'. unfold flushed, potential. destruct (mr_modified r); [|by intros ->]. destruct (mr_values r) as [|i its] eqn:Hv; [by intros ->; rewrite Hv|]. rewrite <- Hv in *.
  intros (taken & rest & pel & Hs & _ & Hr & Hp & Ht & _). specialize (Ht Hlv H2'). rewrite Hp, Hr, Hs, !length_app. cbn [length]. lia.
Qed.

Lemma sizes_pos its : its <> [] -> 0 < sizes its.
Proof. destruct its as [|i its]; [done|]. intros _. cbn [sizes foldr]. fold (sizes its). pose proof (item_size_pos i). pose proof (sizes_nonneg its). lia. Qed.

(** All values are written. *)
Lemma flush_mr_run s lv r l : st_ok s -> mr_ok s lv r l -> good l ->
  runs (flush_mr rq r) s (fun x s' => fr s s' /\ s'.(bt_user) = s.(bt_user) /\ x.1 = COUCHSTORE_SUCCESS /\
    mr_ok s' lv x.2 l /\ x.2.(mr_modified) = r.(mr_modified) /\ flushed lv r.(mr_node_len) r x.2).
Proof.
  intros Hs Hmr [Hw Hk]. unfold flush_mr. destruct (decide (mr_values r = [])) as [Hv|Hv].
  - eexists _, s. unfold flush_mr_partial. rewrite bool_decide_eq_true_2 by done. cbn [orb]. split; [done|]. cbn [fst snd].
    split; [by apply fr_refl|]. repeat (split; [done|]). unfold flushed. rewrite Hv. by destruct (mr_modified r).
  - pose proof Hmr as [(lp & lvs & _ & Hvs & ->) Hlen _ _]. pose proof (items_weight _ _ _ _ Hvs) as Hiw. rewrite weight_app in Hw.
    pose proof (weight_nonneg rmax rmax_pos (concat lp)). pose proof (sizes_pos _ Hv) as Hpos.
    assert (Hu : u64 (mr_node_len r) = mr_node_len r) by (unfold u64, wrap; rewrite Hlen, Z.mod_small; lia). rewrite Hu.
    eapply runs_mono; [eapply flush_run; [done|exact Hmr|rewrite weight_app; lia|lia]|]. intros x s'. done.
Qed.

Lemma maybe_flush_run s lv r l : st_ok s -> mr_ok s lv r l -> good l ->
  runs (maybe_flush rq r) s (fun x s' => fr s s' /\ s'.(bt_user) = s.(bt_user) /\ x.1 = COUCHSTORE_SUCCESS /\
    mr_ok s' lv x.2 l /\ x.2.(mr_modified) = r.(mr_modified) /\ (lv <> None -> (potential x.2 <= potential r)%nat)).
Proof.
  intros Hs Hmr Hg. pose proof Hmr as [_ _ Hty Hcnt]. pose proof te_kv. pose proof te_kp.
  assert (Hskip : runs (mret (COUCHSTORE_SUCCESS, r)) s (fun x s' => fr s s' /\ s'.(bt_user) = s.(bt_user) /\ x.1 = COUCHSTORE_SUCCESS /\
    mr_ok s' lv x.2 l /\ x.2.(mr_modified) = r.(mr_modified) /\ (lv <> None -> (potential x.2 <= potential r)%nat))).
  { run. split; [by apply fr_refl|]. done. }
  assert (Hpart : forall q, 0 < q -> 3 < mr_count r -> runs (flush_mr_partial rq r q) s (fun x s' => fr s s' /\ s'.(bt_user) = s.(bt_user) /\
    x.1 = COUCHSTORE_SUCCESS /\ mr_ok s' lv x.2 l /\ x.2.(mr_modified) = r.(mr_modified) /\ (lv <> None -> (potential x.2 <= potential r)%nat))).
  { intros q Hq Hc. eapply runs_mono; [eapply flush_run; [done..|apply Hg|done]|]. intros x s' (G1 & G2 & G3 & G4 & G5 & G6). do 5 (split; [done|]).
    intros Hlv. eapply flushed_potential; [done| |done]. lia. }
  unfold maybe_flush. destruct (rq_compacting rq).
  - destruct (mr_modified r) eqn:Hmod; cbn [andb]; [|done].
    destruct (_ || _) eqn:Hc; [|done]. eapply runs_mono; [by eapply flush_mr_run|]. intros x s' (G1 & G2 & G3 & G4 & G5 & G6).
    do 4 (split; [done|]). split; [congruence|]. intros Hlv. eapply flushed_potential; [done| |done]. destruct lv as [h|]; [|done].
    rewrite Hty in Hc. cbn [ty] in Hc. apply orb_true_iff in Hc as [Hc|Hc]; rewrite !andb_true_iff, ?Z.ltb_lt in Hc; [by destruct Hc|]. lia.
  - destruct (mr_modified r && _) eqn:Hc; [|done]. apply andb_true_iff in Hc as [_ Hc%Z.ltb_lt].
    destruct (_ && _); [|destruct (_ && _); [|done]]; (apply Hpart; [|done]); unfold u64, wrap; rewrite Z.mod_small; lia.
Qed.

Lemma maybe_flush_unmodified s r (Q : _ -> btree F U -> Prop) : r.(mr_modified) = false -> Q (COUCHSTORE_SUCCESS, r) s -> runs (maybe_flush rq r) s Q.
Proof. intros Hm HQ. unfold maybe_flush. rewrite Hm. cbn [andb]. destruct (rq_compacting rq); by run. Qed.

(** An item is added, and perhaps nodes are written. *)
Definition grew s lv (r : couchfile_modify_result) (l : list kv) (e : couchstore_error_t) (r' : couchfile_modify_result) s' : Prop :=
  fr s s' /\ s'.(bt_user) = s.(bt_user) /\ e = COUCHSTORE_SUCCESS /\ mr_ok s' lv r' l /\
  r'.(mr_modified) = r.(mr_modified) /\ (lv <> None -> (potential r' <= S (potential r))%nat).

Lemma push_ok s lv i li r l : mr_ok s lv r l -> item_ok s lv i li -> mr_ok s lv (push_value i r) (l ++ li).
Proof.
  intros [(lp & lvs & H1' & H2' & ->) H3 H4 H5] Hi. constructor; cbn [push_value mr_pointers mr_values mr_node_len mr_node_type mr_count].
  - exists lp, (lvs ++ [li]). split; [done|]. split; [by apply Forall2_app; [|constructor]|]. rewrite concat_app. cbn [concat]. by rewrite app_nil_r, <- app_assoc.
  - rewrite sizes_app, H3. cbn. lia.
  - done.
  - rewrite H5, length_app. cbn [length]. lia.
Qed.

Lemma push_value_run s lv i li r l : st_ok s -> mr_ok s lv r l -> item_ok s lv i li -> good (l ++ li) ->
  runs (maybe_flush rq (push_value i r)) s (fun x s' => grew s lv r (l ++ li) x.1 x.2 s').
Proof.
  intros Hs Hmr Hi Hg. eapply runs_mono; [apply maybe_flush_run; [done|by apply push_ok|done]|].
  intros x s' (G1 & G2 & G3 & G4 & G5 & G6). do 5 (split; [done|]). intros Hlv. specialize (G6 Hlv). unfold potential in *.
  cbn [push_value mr_pointers mr_values] in G6. rewrite length_app in G6. cbn [length] in G6. lia.
Qed.

Lemma push_item_run s k v r l : st_ok s -> mr_ok s None r l -> good (l ++ [(k, v)]) ->
  runs (mr_push_item rq k v r) s (fun x s' => grew s None r (l ++ [(k, v)]) x.1 x.2 s').
Proof.
  intros Hs Hmr Hg. unfold mr_push_item. run. apply make_nodelist_run; [done|]. intros s1 F1 U1. cbn [negb].
  eapply runs_mono; [apply push_value_run; [by eapply fr_ok|by eapply mr_mono| |exact Hg]|].
  - split; [done|]. split; [done|]. by destruct (good_app _ _ Hg) as [_ [_ Hk]].
  - intros x s' (G1 & G2 & G3 & G4 & G5 & G6). split; [by eapply fr_trans|]. split; [congruence|]. done.
Qed.

Lemma encode_run s p (Q : _ -> btree F U -> Prop) : st_ok s ->
  (forall s', fr s s' -> s'.(bt_user) = s.(bt_user) -> Q (Some (mk_nl p.(np_key) (raw_node_pointer p) (Some p))) s') -> runs (encode_pointer p) s Q.
Proof. intros Hs HQ. unfold encode_pointer. run. apply make_nodelist_run; [done|]. intros s' Hf Hu. run. by apply HQ. Qed.

Lemma push_pointer_run s h p lp r l : st_ok s -> mr_ok s (Some h) r l -> pointer_ok s h p lp -> good (l ++ lp) ->
  runs (mr_push_pointerinfo rq p r) s (fun x s' => grew s (Some h) r (l ++ lp) x.1 x.2 s').
Proof.
  intros Hs Hmr Hp Hg. unfold mr_push_pointerinfo. run. apply encode_run; [done|]. intros s1 F1 U1.
  eapply runs_mono; [apply push_value_run; [by eapply fr_ok|by eapply mr_mono| |exact Hg]|].
  - exists p. split; [done|]. by eapply pointer_mono.
  - intros x s' (G1 & G2 & G3 & G4 & G5 & G6). split; [by eapply fr_trans|]. split; [congruence|]. done.
Qed.

(** Pointers are moved to the values of another result. *)
Lemma move_run ptrs : forall s h ls r l, st_ok s -> mr_ok s (Some h) r l -> Forall2 (item_ok s (Some h)) ptrs ls -> good (l ++ concat ls) ->
  runs (move_loop rq ptrs r) s (fun x s' => fr s s' /\ s'.(bt_user) = s.(bt_user) /\ x.1.1 = COUCHSTORE_SUCCESS /\
    mr_ok s' (Some h) x.1.2 (l ++ concat ls) /\ x.1.2.(mr_modified) = r.(mr_modified) /\ x.2 = [] /\
    (potential x.1.2 <= length ptrs + potential r)%nat).
Proof.
  induction ptrs as [|i ptrs IH]; intros s h ls r l Hs Hmr Hi Hg; cbn [move_loop].
  - apply Forall2_nil_inv_l in Hi as ->. cbn [concat] in *. rewrite app_nil_r in *. run. split; [by apply fr_refl|]. done.
  - apply Forall2_cons_inv_l in Hi as (li & ls' & Hi & His & ->). cbn [concat] in *. rewrite app_assoc in *.
    run. eapply runs_mono; [apply (push_value_run s (Some h) i li r l); [done..|by apply good_app in Hg as [Hg _]]|].
    intros [e r1] s1 (G1 & G2 & G3 & G4 & G5 & G6). cbn [fst snd] in *. subst e. rewrite decide_True by done.
    eapply runs_mono; [apply (IH s1 h ls' r1 (l ++ li)); [by eapply fr_ok|done|by eapply items_mono|done]|].
    intros x s' (K1 & K2 & K3 & K4 & K5 & K6 & K7). specialize (G6 ltac:(done)). split; [by eapply fr_trans|]. split; [congruence|].
    split; [done|]. split; [done|]. split; [congruence|]. split; [done|]. cbn [length]. lia.
Qed.
End write.
