(* ===== verification/BtreeModify.v ===== *)
(** * A modification applies the actions of its request

    [modify_node] on a tree of contents [l] adds [apply_actions acts l] to the result of
    the parent; [modify_btree] gives the root of a tree with these contents. *)
From Stdlib Require Import ZArith Lia Sorted.
From stdpp Require Import strings gmap prelude sorting.
From S2P Require Import Prelude Bitfield ViewCodec Snappy NodeTypes Crc CouchFile Btree BtreeSpec BtreeRep BtreeWrite.

#[local] Set Warnings "-clear-no-such-hyp".

(** ** Reading the items of a node *)

Lemma read_kv_step x l : kv_ok x ->
  read_kv (kv_bytes (x :: l)) = Some (x.1, x.2, len (write_kv x.1 x.2)) /\
  drop (Z.to_nat (len (write_kv x.1 x.2))) (kv_bytes (x :: l)) = kv_bytes l.
Proof.
  intros [H1 H2]. unfold kv_bytes. cbn [map concat]. split; [by apply kv_roundtrip|]. unfold len. by rewrite Nat2Z.id, drop_app_length.
Qed.

Lemma kv_bytes_cons x l : exists b bs, kv_bytes (x :: l) = b :: bs /\ (length (kv_bytes l) < length (kv_bytes (x :: l)))%nat.
Proof.
  unfold kv_bytes. cbn [map concat]. pose proof (write_kv_length x.1 x.2) as Hl. unfold len in Hl.
  destruct (write_kv x.1 x.2) as [|b bs]; [simpl in Hl; lia|]. eexists b, _. split; [done|]. rewrite length_app. simpl. lia.
Qed.

Section split.
Context {U : Type} (rq : couchfile_modify_request U).
Context `{COK : !CompareOk rq.(rq_compare)}.
Abbreviation cmp := (rq_compare rq).
Abbreviation klt := (klt cmp).

(** The actions up to a key and those after it. *)
Definition upto (k : list Z) (acts : list couchfile_modify_action) := (range_end rq k acts).1.
Definition beyond (k : list Z) (acts : list couchfile_modify_action) := (range_end rq k acts).2.

Lemma range_end_spec k acts : acts_ok cmp acts ->
  acts = upto k acts ++ beyond k acts /\ Forall (fun a => cmp a.(act_key) k <= 0) (upto k acts) /\
  Forall (fun a => klt k a.(act_key)) (beyond k acts).
Proof.
  unfold upto, beyond. induction 1 as [|a acts Hs IH Ha]; [by repeat constructor|]. cbn [range_end].
  destruct (Z.leb_spec (cmp a.(act_key) k) 0) as [Hle|Hgt].
  - destruct (range_end rq k acts) as [d r]. cbn [fst snd] in *. destruct IH as (-> & H1 & H2). split; [done|]. split; [by constructor|done].
  - cbn [fst snd]. split; [done|]. split; [constructor|]. assert (Hk : klt k (act_key a)) by (by apply cmp_antisym). constructor; [done|].
    eapply Forall_impl; [exact Ha|]. intros b [Hb|[Hb _]]; [by eapply klt_trans|]. apply (klt_le_trans _ _ (act_key a)); [done|lia].
Qed.

Lemma acts_app acts1 acts2 : acts_ok cmp (acts1 ++ acts2) -> acts_ok cmp acts1 /\ acts_ok cmp acts2.
Proof. unfold acts_ok. intros Hs. split; [by eapply StronglySorted_app_1_l|by eapply StronglySorted_app_1_r]. Qed.

(** A list that ends with a key, a list above it, and the actions up to the key and after
    it. *)
Lemma cut_spec k l m acts : Forall (fun x => cmp x.1 k <= 0) l -> Forall (fun x => klt k x.1) m ->
  acts_ok cmp acts ->
  apply_actions cmp acts (l ++ m) = apply_actions cmp (upto k acts) l ++ apply_actions cmp (beyond k acts) m /\
  (forall (u : U), fetches cmp rq.(rq_fetch_callback) acts (l ++ m) u =
     fetches cmp rq.(rq_fetch_callback) (beyond k acts) m (fetches cmp rq.(rq_fetch_callback) (upto k acts) l u)).
Proof.
  intros Hl Hm Ha. destruct (range_end_spec k acts Ha) as (He & H1 & H2).
  assert (Hab : above cmp (upto k acts) m).
  { eapply Forall_impl; [exact H1|]. intros a Hk. eapply Forall_impl; [exact Hm|]. intros x Hx. by apply (kle_lt_trans _ _ k). }
  assert (Hbe : forall l', Forall (fun x => cmp x.1 k <= 0) l' -> below cmp l' (beyond k acts)).
  { intros l' Hl'. eapply Forall_impl; [exact Hl'|]. intros x Hx. eapply Forall_impl; [exact H2|]. intros a Hk. by apply (kle_lt_trans _ _ k). }
  split; [|intros u]; rewrite He at 1.
  - apply apply_split; [done..|]. apply Hbe. by apply (apply_keys cmp _ _ (fun x => cmp x k <= 0)).
  - apply fetches_split; [done..|]. by apply Hbe.
Qed.

Lemma upto_nil k a acts : klt k a.(act_key) -> upto k (a :: acts) = [] /\ beyond k (a :: acts) = a :: acts.
Proof. intros Hk. unfold upto, beyond. cbn [range_end]. apply cmp_antisym in Hk. by rewrite (proj2 (Z.leb_gt _ _)). Qed.

Lemma upto_cons k a acts : cmp a.(act_key) k <= 0 -> upto k (a :: acts) = a :: upto k acts /\ beyond k (a :: acts) = beyond k acts.
Proof. intros Hk. unfold upto, beyond. cbn [range_end]. rewrite (proj2 (Z.leb_le _ _)) by done. by destruct (range_end rq k acts). Qed.

Lemma upto_none k acts : Forall (fun a => klt k a.(act_key)) acts -> upto k acts = [] /\ beyond k acts = acts.
Proof. destruct 1 as [|a acts Ha _]; [done|]. by apply upto_nil. Qed.

(** A change is the last action for its key. *)
Lemma change_last k a acts : acts_ok cmp (a :: acts) -> ~ is_fetch a -> cmp k a.(act_key) = 0 -> upto k acts = [] /\ beyond k acts = acts.
Proof.
  intros [_ Ha]%StronglySorted_inv Hf He. apply (upto_none k acts). eapply Forall_impl; [exact Ha|]. intros b [Hb|[_ Hb]]; [|done].
  apply (kle_lt_trans _ _ (act_key a)); [lia|done].
Qed.
End split.

Section modify.
Context {F U : Type} `{FileOpsOk F} `{Alloc} `{Snappy} {SOK : SnappyOk}.
Context {rq : couchfile_modify_request U} {red : list kv -> list Z} {rmax : Z} {ROK : ReduceOk rq red rmax} {TE : TreeEnv rq}.
Context `{COK : !CompareOk rq.(rq_compare)} {c0 : nat}.
Implicit Types (s : btree F U) (r : couchfile_modify_result) (l m : list kv) (acts : list couchfile_modify_action).

Abbreviation bpos s := (tf_pos (bt_file s)).
Abbreviation bdata s := (ops_data (tf_handle (bt_file s))).
Abbreviation bmem s := (tf_mem (bt_file s)).
Abbreviation tree := (tree red).
Abbreviation entry := (entry red).
Abbreviation st_ok := (st_ok (c0 := c0)).
Abbreviation pointer_ok := (pointer_ok (red := red) (c0 := c0)).
Abbreviation item_ok := (item_ok (red := red) (c0 := c0)).
Abbreviation mr_ok := (mr_ok (red := red) (c0 := c0)).
Abbreviation good := (good (rmax := rmax)).
Abbreviation cmp := (rq_compare rq).
Abbreviation apply_actions := (apply_actions cmp).
Abbreviation fetches := (fetches cmp rq.(rq_fetch_callback)).

(** The actions were applied to the contents [m], and what they became was added to the
    result. A result that is still not modified has seen fetches only. *)
Definition updated s lv r l acts m (e : couchstore_error_t) r' s' : Prop :=
  fr s s' /\ s'.(bt_user) = fetches acts m s.(bt_user) /\ e = COUCHSTORE_SUCCESS /\
  mr_ok s' lv r' (l ++ apply_actions acts m) /\
  (r'.(mr_modified) = false -> r.(mr_modified) = false /\ Forall is_fetch acts).

Lemma modified_ok s lv r l b : mr_ok s lv r l -> mr_ok s lv (set_mr_modified b r) l.
Proof. intros [H1' H2' H3 H4]. by constructor. Qed.

Lemma type_ok s lv lv' r l b : r.(mr_values) = [] -> r.(mr_pointers) = [] -> mr_ok s lv r l -> b = ty lv' -> mr_ok s lv' (set_mr_node_type b r) l.
Proof.
  intros Hv Hp [(lp & lvs & H1' & H2' & ->) H3 H4 H5] ->. rewrite Hv in *. rewrite Hp in *. apply Forall2_nil_inv_l in H1' as ->. apply Forall2_nil_inv_l in H2' as ->.
  constructor; cbn [set_mr_node_type mr_pointers mr_values mr_node_len mr_count mr_node_type]; rewrite ?Hv, ?Hp; [|done..].
  exists [], []. by repeat constructor.
Qed.

(** ** Leaves *)

Lemma keep_kv_run s k v r l : st_ok s -> s.(bt_purging) = false -> mr_ok s None r l -> good (l ++ [(k, v)]) ->
  runs (maybe_purgekv rq k v r) s (fun x s' => grew (red := red) (c0 := c0) s None r (l ++ [(k, v)]) x.1 x.2 s').
Proof.
  intros Hs Hp Hmr Hg. unfold maybe_purgekv. run. unfold id. rewrite Hp.
  assert (Hpush : runs (mr_push_item rq k v r) s (fun x s' => grew (red := red) (c0 := c0) s None r (l ++ [(k, v)]) x.1 x.2 s')) by (by apply push_item_run).
  destruct (rq_purge_kv rq); run; exact Hpush.
Qed.

Lemma fetch_run s k v arg (Q : unit -> btree F U -> Prop) :
  Q tt (mk_bt s.(bt_file) (match rq.(rq_fetch_callback) with Some f => f k v arg s.(bt_user) | None => s.(bt_user) end) s.(bt_purging)) ->
  runs (fetch rq k v arg) s Q.
Proof. intros HQ. unfold fetch. destruct (rq_fetch_callback rq); run; [by apply runs_modify|]. by destruct s. Qed.

Lemma user_fr s u : st_ok s -> fr s (mk_bt s.(bt_file) u s.(bt_purging)).
Proof. intros Hs. by apply (fr_refl (c0 := c0)) in Hs. Qed.

Lemma head_below a acts : acts_ok cmp (a :: acts) -> below cmp (apply_actions [a] []) acts.
Proof.
  intros [_ Ha]%StronglySorted_inv. unfold BtreeSpec.apply_actions. cbn [foldl]. unfold apply_action. destruct (act_type a) eqn:Ht; cbn [del put]; [constructor..|].
  constructor; [|constructor]. eapply Forall_impl; [exact Ha|]. intros b [Hb|[_ (arg & Hb)]]; [done|congruence].
Qed.

Lemma absent_run s a r l : st_ok s -> mr_ok s None r l -> good (l ++ apply_actions [a] []) ->
  runs (absent_action rq a r) s (fun r' s' => updated s None r l [a] [] COUCHSTORE_SUCCESS r' s').
Proof.
  intros Hs Hmr Hg. unfold absent_action, updated, BtreeSpec.apply_actions, BtreeSpec.fetches in *. cbn [foldl] in *.
  unfold apply_action, fetch_action in *. destruct (act_type a) as [arg| |data] eqn:Ht; cbn [del put find] in *.
  - run. apply fetch_run. run. split; [by apply user_fr|]. split; [done|]. split; [done|]. rewrite app_nil_r. split; [eapply mr_mono; [by apply user_fr|done]|].
    intros Hm. split; [done|]. repeat constructor. by exists arg.
  - run. split; [by eapply fr_refl|]. split; [by destruct (rq_fetch_callback rq)|]. split; [done|]. rewrite app_nil_r. split; [by apply modified_ok|by cbn].
  - run. eapply runs_mono; [eapply push_item_run; [exact Hs|by apply modified_ok|done]|]. intros [e r'] s' (G1 & G2 & G3 & G4 & G5 & _). run.
    split; [done|]. split; [rewrite G2; by destruct (rq_fetch_callback rq)|]. split; [done|]. split; [done|]. cbn [fst snd] in *. by rewrite G5.
Qed.

(** The first action comes before a key or after all keys. *)
Lemma updated_cons s s1 s2 r r1 r2 l a acts m e : acts_ok cmp (a :: acts) -> above cmp [a] m ->
  updated s None r l [a] [] COUCHSTORE_SUCCESS r1 s1 -> updated s1 None r1 (l ++ apply_actions [a] []) acts m e r2 s2 ->
  updated s None r l (a :: acts) m e r2 s2.
Proof.
  intros Hok Hab (G1 & G2 & _ & G4 & G5) (K1 & K2 & K3 & K4 & K5). split; [by eapply fr_trans|].
  pose proof (head_below a acts Hok) as Hb. split; [|split; [done|split]].
  - rewrite K2, G2. symmetry. apply (fetches_split cmp (rq_fetch_callback rq) [a] acts [] m); [done|constructor].
  - rewrite <- app_assoc in K4. by rewrite <- (apply_split cmp [a] acts [] m) in K4.
  - intros Hm. destruct (K5 Hm) as [Hm1 Hf]. destruct (G5 Hm1) as [Hm0 Ha]. split; [done|]. apply Forall_cons in Ha as [Ha _]. by constructor.
Qed.

Lemma good_cons l a acts m : acts_ok cmp (a :: acts) -> above cmp [a] m -> good (l ++ apply_actions (a :: acts) m) ->
  good (l ++ apply_actions [a] []) /\ good ((l ++ apply_actions [a] []) ++ apply_actions acts m).
Proof.
  intros Hok Hab Hg. change (a :: acts) with ([a] ++ acts) in Hg. change m with ([] ++ m) in Hg.
  rewrite apply_split in Hg by (done || by apply head_below). rewrite app_assoc in Hg. split; [by destruct (good_app _ _ Hg)|done].
Qed.

Lemma rest_run acts : forall s r l, st_ok s -> mr_ok s None r l -> acts_ok cmp acts -> good (l ++ apply_actions acts []) ->
  runs (rest_loop rq acts r) s (fun r' s' => updated s None r l acts [] COUCHSTORE_SUCCESS r' s').
Proof.
  induction acts as [|a acts IH]; intros s r l Hs Hmr Hok Hg; cbn [rest_loop].
  { run. split; [by eapply fr_refl|]. split; [done|]. split; [done|]. cbn. rewrite app_nil_r. by split. }
  assert (Hab : above cmp [a] []) by (by repeat constructor). destruct (good_cons l a acts [] Hok Hab Hg) as [Hg1 Hg2].
  run. eapply runs_mono; [by apply absent_run|]. intros r1 s1 G. pose proof G as (G1 & _ & _ & G4 & _).
  eapply runs_mono; [apply (IH s1 r1 (l ++ apply_actions [a] [])); [by eapply fr_ok|done|by apply StronglySorted_inv in Hok as []|done]|].
  intros r2 s2 K. by eapply updated_cons.
Qed.

(** Contents are cut behind a key, and so are the actions. *)
Lemma updated_cut s s1 s2 lv r r1 r2 l k m1 m2 acts e : Forall (fun x => cmp x.1 k <= 0) m1 -> Forall (fun x => klt cmp k x.1) m2 -> acts_ok cmp acts ->
  updated s lv r l (upto rq k acts) m1 COUCHSTORE_SUCCESS r1 s1 ->
  updated s1 lv r1 (l ++ apply_actions (upto rq k acts) m1) (beyond rq k acts) m2 e r2 s2 ->
  updated s lv r l acts (m1 ++ m2) e r2 s2.
Proof.
  intros Hm1 Hm2 Hok (G1 & G2 & _ & G4 & G5) (K1 & K2 & K3 & K4 & K5). destruct (cut_spec rq k m1 m2 acts Hm1 Hm2 Hok) as [Ha Hf].
  split; [by eapply fr_trans|]. split; [by rewrite K2, G2, Hf|]. split; [done|]. rewrite Ha, app_assoc. split; [done|].
  intros Hm. destruct (K5 Hm) as [Hm1' Hf2]. destruct (G5 Hm1') as [Hm0 Hf1]. split; [done|].
  destruct (range_end_spec rq k acts Hok) as (-> & _ & _). by apply Forall_app.
Qed.

Lemma good_cut l k m1 m2 acts : Forall (fun x => cmp x.1 k <= 0) m1 -> Forall (fun x => klt cmp k x.1) m2 -> acts_ok cmp acts ->
  good (l ++ apply_actions acts (m1 ++ m2)) ->
  good (l ++ apply_actions (upto rq k acts) m1) /\ good ((l ++ apply_actions (upto rq k acts) m1) ++ apply_actions (beyond rq k acts) m2).
Proof.
  intros Hm1 Hm2 Hok Hg. destruct (cut_spec rq k m1 m2 acts Hm1 Hm2 Hok) as [Ha _]. rewrite Ha, app_assoc in Hg. split; [|done].
  by destruct (good_app _ _ Hg).
Qed.

Lemma cut_ok k acts : acts_ok cmp acts -> acts_ok cmp (upto rq k acts) /\ acts_ok cmp (beyond rq k acts).
Proof. intros Hok. destruct (range_end_spec rq k acts Hok) as (He & _ & _). apply acts_app. by rewrite <- He. Qed.

Lemma updated_keep s lv r l m e r' s' : grew (red := red) (c0 := c0) s lv r (l ++ m) e r' s' -> updated s lv r l [] m e r' s'.
Proof. intros (G1 & G2 & G3 & G4 & G5 & _). do 4 (split; [done|]). by rewrite G5. Qed.

Lemma item_run k v acts : forall s r l, st_ok s -> s.(bt_purging) = false -> mr_ok s None r l -> acts_ok cmp acts ->
  good (l ++ apply_actions (upto rq k acts) [(k, v)]) ->
  runs (item_loop rq k v acts r) s (fun x s' => updated s None r l (upto rq k acts) [(k, v)] x.1.1 x.1.2 s' /\ x.2 = beyond rq k acts).
Proof.
  induction acts as [|a acts IH]; intros s r l Hs Hp Hmr Hok Hg; cbn [item_loop].
  { run. eapply runs_mono; [by eapply keep_kv_run|]. intros x s' G%updated_keep. by run. }
  pose proof Hok as [Hok' Ha]%StronglySorted_inv.
  destruct (Z.ltb_spec (cmp k (act_key a)) 0) as [Hlt|Hge].
  { destruct (upto_nil rq k a acts Hlt) as [Eu Eb]. rewrite Eu, Eb in *. run. eapply runs_mono; [by eapply keep_kv_run|]. intros x s' G%updated_keep. by run. }
  destruct (Z.ltb_spec 0 (cmp k (act_key a))) as [Hgt|Hle].
  - apply cmp_antisym in Hgt. destruct (upto_cons rq k a acts ltac:(lia)) as [Eu Eb]. rewrite Eu, Eb in *.
    assert (Hab : above cmp [a] [(k, v)]) by (by repeat constructor).
    assert (Hok1 : acts_ok cmp (a :: upto rq k acts)) by (rewrite <- Eu; by apply cut_ok).
    destruct (good_cons l a (upto rq k acts) [(k, v)] Hok1 Hab Hg) as [Hg1 Hg2].
    run. eapply runs_mono; [by apply absent_run|]. intros r1 s1 G. pose proof G as (G1 & _ & _ & G4 & _).
    eapply runs_mono; [apply (IH s1 r1 (l ++ apply_actions [a] [])); [by eapply fr_ok| |done..]|]; [destruct G1 as (_ & _ & G1 & _); congruence|].
    intros x s2 [K1 K2]. split; [by eapply updated_cons|done].
  - assert (He : cmp k (act_key a) = 0) by lia. pose proof (cmp_eq_sym _ _ _ He) as He'.
    destruct (upto_cons rq k a acts ltac:(lia)) as [Eu Eb]. rewrite Eu, Eb in *. destruct (act_type a) as [arg| |data] eqn:Ht.
    + run. apply fetch_run. set (s1 := mk_bt _ _ _). assert (F1 : fr s s1) by (by apply user_fr).
      assert (Hap : apply_actions (a :: upto rq k acts) [(k, v)] = apply_actions (upto rq k acts) [(k, v)]).
      { unfold BtreeSpec.apply_actions. cbn [foldl]. unfold apply_action at 2. by rewrite Ht. }
      rewrite Hap in Hg. eapply runs_mono; [apply (IH s1 r l); [by eapply fr_ok|done|by eapply mr_mono|done..]|].
      intros x s2 [(K1 & K2 & K3 & K4 & K5) K6]. split; [|done]. split; [exact (fr_trans _ _ _ F1 K1)|]. split; [|split; [done|]].
      * rewrite K2. unfold BtreeSpec.fetches. cbn [foldl]. f_equal. unfold fetch_action. rewrite Ht. cbn [find fst snd s1 bt_user].
        rewrite He. done.
      * rewrite Hap. split; [done|]. intros Hm. destruct (K5 Hm) as [Hm0 Hf]. split; [done|]. constructor; [by exists arg|done].
    + destruct (change_last rq k a acts Hok) as [En1 En2]; [by intros (arg & Hb); congruence|done|]. rewrite En1, En2 in *. run. cbn [fst snd]. unfold updated, BtreeSpec.apply_actions, BtreeSpec.fetches. cbn [foldl]. unfold apply_action, fetch_action. rewrite Ht.
      cbn [del fst snd]. rewrite He. cbn [Z.eqb]. rewrite app_nil_r. split; [|done]. split; [by eapply fr_refl|]. split; [by destruct (rq_fetch_callback rq)|]. split; [done|].
      split; [by apply modified_ok|by cbn].
    + destruct (change_last rq k a acts Hok) as [En1 En2]; [by intros (arg & Hb); congruence|done|]. rewrite En1, En2 in *. unfold updated, BtreeSpec.apply_actions, BtreeSpec.fetches in *. cbn [foldl] in *. unfold apply_action, fetch_action in *. rewrite Ht in *.
      cbn [put fst snd] in *. rewrite He in *. cbn [Z.ltb Z.compare] in *. run. eapply runs_mono; [eapply push_item_run; [exact Hs|by apply modified_ok|done]|].
      intros [e r'] s' (G1 & G2 & G3 & G4 & G5 & _). run. cbn [fst snd] in *. split; [|done]. split; [done|]. split; [rewrite G2; by destruct (rq_fetch_callback rq)|].
      split; [done|]. split; [done|]. by rewrite G5.
Qed.

(** The items of a leaf with their actions, then the other actions. *)
Lemma leaf_run m : forall fuel s acts r l, (length (kv_bytes m) <= fuel)%nat -> st_ok s -> s.(bt_purging) = false -> mr_ok s None r l ->
  Forall kv_ok m -> sorted cmp m -> acts_ok cmp acts -> good (l ++ apply_actions acts m) ->
  runs (kv_loop rq fuel (kv_bytes m) acts r) s (fun x s' => x.1.1 = COUCHSTORE_SUCCESS /\
    runs (rest_loop rq x.2 x.1.2) s' (fun r' s2 => updated s None r l acts m COUCHSTORE_SUCCESS r' s2)).
Proof.
  induction m as [|[k v] m IH]; intros fuel s acts r l Hf Hs Hp Hmr Hk Hso Hok Hg.
  { destruct fuel; cbn [kv_loop kv_bytes concat map]; run; (split; [done|]); by eapply rest_run. }
  destruct (kv_bytes_cons (k, v) m) as (b & bs & Hb & Hlen). apply Forall_cons in Hk as [Hk1 Hk].
  destruct (read_kv_step (k, v) m Hk1) as [Hr Hd]. destruct fuel as [|fuel]; [rewrite Hb in Hf; simpl in Hf; lia|].
  destruct (ends_bounds [(k, v)] m k Hso) as [B1 B2]; [by exists v|]. change ((k, v) :: m) with ([(k, v)] ++ m) in Hg.
  destruct (good_cut _ _ _ _ _ B1 B2 Hok Hg) as [Hg1 Hg2]. rewrite Hb in *. cbn [kv_loop]. run; [exact Hr|]. cbn [fst snd] in *.
  eapply runs_mono; [by eapply item_run|]. intros [[e r1] acts1] s1 [G ->]. cbn [fst snd] in *. pose proof G as (G1 & _ & -> & G4 & _).
  rewrite decide_True by done. rewrite Hd. eapply runs_mono.
  - apply (IH fuel s1 (beyond rq k acts) r1 (l ++ apply_actions (upto rq k acts) [(k, v)])); [simpl in *; lia|by eapply fr_ok| |done|done| | |done].
    + destruct G1 as (_ & _ & G1 & _). congruence.
    + by apply StronglySorted_inv in Hso as [].
    + by apply cut_ok.
  - intros x s2 [-> K]. split; [done|]. eapply runs_mono; [exact K|]. intros r3 s3 K3. by eapply (updated_cut _ s1 _ _ _ r1 _ _ k [(k, v)] m).
Qed.

(** ** Inner nodes *)

Lemma keep_kp_run pn s h p m r l : st_ok s -> s.(bt_purging) = false -> mr_ok s (Some h) r l -> pointer_ok s h p m -> good (l ++ m) ->
  runs (maybe_purgekp rq pn p r) s (fun x s' => grew (red := red) (c0 := c0) s (Some h) r (l ++ m) x.1 x.2 s').
Proof.
  intros Hs Hp Hmr Hpt Hg. unfold maybe_purgekp. run. unfold id. rewrite Hp.
  assert (Hpush : runs (mr_push_pointerinfo rq p r) s (fun x s' => grew (red := red) (c0 := c0) s (Some h) r (l ++ m) x.1 x.2 s')) by (by apply push_pointer_run).
  destruct (rq_purge_kp rq); run; exact Hpush.
Qed.

(** What a node says of a child can be written and read. *)
Definition child_ok (d : list Z) (lim : Z) (h : nat) (c : node_pointer * list kv) : Prop :=
  entry c.1 c.2 /\ fits48 c.1.(np_pointer) /\ fits48 c.1.(np_subtreesize) /\ tree d lim h c.1.(np_pointer) c.2.

Lemma red_short m : len (red m) < 2 ^ 16.
Proof.
  pose proof (red_size (rq := rq) (red := red) (rmax := rmax) m). pose proof (red_max (rq := rq) (red := red) (rmax := rmax)).
  unfold MAX_REDUCTION_SIZE in *. lia.
Qed.

Lemma entry_fits p m : entry p m -> len p.(np_key) < 2 ^ 12 /\ len (raw_node_pointer p) < 2 ^ 28.
Proof.
  intros (He & Hk & Hr). rewrite raw_pointer_length, Hr. pose proof (red_short m). split; [|lia].
  apply ends_last in He as (l & v & ->). apply Forall_app in Hk as [_ Hk]. apply Forall_cons in Hk as [[Hk _] _]. done.
Qed.

Lemma read_kp_step p ps m : entry p m ->
  read_kv (kp_bytes (p :: ps)) = Some (p.(np_key), raw_node_pointer p, len (write_kv p.(np_key) (raw_node_pointer p))) /\
  drop (Z.to_nat (len (write_kv p.(np_key) (raw_node_pointer p)))) (kp_bytes (p :: ps)) = kp_bytes ps.
Proof.
  intros [H1' H2']%entry_fits. unfold kp_bytes. cbn [map concat]. split; [by apply kv_roundtrip|]. unfold len. by rewrite Nat2Z.id, drop_app_length.
Qed.

Lemma kp_bytes_cons p ps : exists b bs, kp_bytes (p :: ps) = b :: bs /\ (length (kp_bytes ps) < length (kp_bytes (p :: ps)))%nat.
Proof.
  unfold kp_bytes. cbn [map concat]. pose proof (write_kv_length p.(np_key) (raw_node_pointer p)) as Hl. unfold len in Hl.
  destruct (write_kv p.(np_key) (raw_node_pointer p)) as [|b bs]; [simpl in Hl; lia|]. eexists b, _. split; [done|]. rewrite length_app. simpl. lia.
Qed.

Lemma read_pointer_run s p m (Q : option node_pointer -> btree F U -> Prop) : st_ok s -> entry p m -> fits48 p.(np_pointer) -> fits48 p.(np_subtreesize) ->
  (forall k s', fr s s' -> s'.(bt_user) = s.(bt_user) -> (c0 <= k)%nat ->
     Q (Some (mk_np (Block k) p.(np_key) p.(np_pointer) p.(np_reduce_value) p.(np_subtreesize))) s') ->
  runs (read_pointer p.(np_key) (raw_node_pointer p)) s Q.
Proof.
  intros Hs (_ & _ & He) Hf1 Hf2 HQ. unfold read_pointer. run. eapply arena_run; [exact Hs|]. intros k s1 F1 U1 Hk. rewrite decide_False by done.
  assert (Hr : len p.(np_reduce_value) < 2 ^ 16) by (rewrite He; apply red_short). assert (Hr0 : 0 <= len p.(np_reduce_value)) by (unfold len; lia).
  pose proof (raw_pointer_length p) as Hlen.
  assert (E1 : couchstore_decode_raw48p (take 6 (raw_node_pointer p)) = np_pointer p).
  { unfold raw_node_pointer. by rewrite decode48. }
  assert (E2 : couchstore_decode_raw48p (take 6 (drop 6 (raw_node_pointer p))) = np_subtreesize p).
  { unfold raw_node_pointer. by rewrite drop_encode48, decode48. }
  assert (E3 : drop 12 (raw_node_pointer p) = be_bytes 2 (len p.(np_reduce_value)) ++ p.(np_reduce_value)).
  { change 12%nat with (6 + 6)%nat. rewrite <- drop_drop. unfold raw_node_pointer. rewrite !drop_encode48. f_equal. rewrite encode16, u16_small by lia. done. }
  assert (E4 : couchstore_decode_raw16 (take 2 (drop 12 (raw_node_pointer p))) = len p.(np_reduce_value)).
  { rewrite E3, take_app_length' by (by rewrite be_bytes_length). unfold couchstore_decode_raw16. rewrite DECODE_RAW_val, be_val_bytes. apply Z.mod_small. simpl. lia. }
  assert (E5 : drop 14 (raw_node_pointer p) = p.(np_reduce_value)).
  { change 14%nat with (12 + 2)%nat. rewrite <- drop_drop, E3, drop_app_length'; [done|]. by rewrite be_bytes_length. }
  cbv zeta. rewrite E4. run; [apply Z.leb_le; unfold sizeof_raw_node_pointer; lia..|].
  rewrite E1, E2, E5, take_ge by (unfold len; lia). by apply HQ.
Qed.

Lemma child_mono s s' h c : fr s s' -> child_ok (bdata s) (bpos s) h c -> child_ok (bdata s') (bpos s') h c.
Proof. intros ((_ & G2 & G3) & _) (E1 & E2 & E3 & E4). do 3 (split; [done|]). by eapply tree_mono. Qed.

Lemma fr_purging s s' b : fr s s' -> s.(bt_purging) = b -> s'.(bt_purging) = b.
Proof. intros (_ & _ & Hp & _) <-. done. Qed.

(** [mn] modifies trees of the height [h]. *)
Definition modifies (h : nat) (mn : node_pointer -> list couchfile_modify_action -> couchfile_modify_result -> M (btree F U) (couchstore_error_t * couchfile_modify_result)) : Prop :=
  forall s p m acts r l, st_ok s -> s.(bt_purging) = false -> child_ok (bdata s) (bpos s) h (p, m) -> (exists k, p.(np_block) = Block k /\ (c0 <= k)%nat) ->
    sorted cmp m -> acts_ok cmp acts -> acts <> [] -> mr_ok s (Some h) r l -> good (l ++ apply_actions acts m) ->
    runs (mn p acts r) s (fun x s' => updated s (Some h) r l acts m x.1 x.2 s').

Lemma inner_run h mn pn cs : modifies h mn -> forall fuel s acts r l, (length (kp_bytes (map fst cs)) <= fuel)%nat -> st_ok s -> s.(bt_purging) = false ->
  mr_ok s (Some h) r l -> Forall (child_ok (bdata s) (bpos s) h) cs -> sorted cmp (concat (map snd cs)) -> acts_ok cmp acts -> (cs = [] -> acts = []) ->
  good (l ++ apply_actions acts (concat (map snd cs))) ->
  runs (kp_loop rq mn pn fuel (kp_bytes (map fst cs)) acts r) s (fun x s' => updated s (Some h) r l acts (concat (map snd cs)) x.1 x.2 s').
Proof.
  intros Hmn. induction cs as [|[p m] cs IH]; intros fuel s acts r l Hf Hs Hp Hmr Hcs Hso Hok Hne Hg.
  { rewrite (Hne eq_refl). destruct fuel; cbn [kp_loop kp_bytes concat map]; run; (split; [by eapply fr_refl|]); (do 2 (split; [done|])); cbn; rewrite app_nil_r; done. }
  apply Forall_cons in Hcs as [Hc Hcs]. pose proof Hc as (He & Hf1 & Hf2 & Ht). cbn [map fst snd concat] in *.
  destruct (read_kp_step p (map fst cs) m He) as [Hr Hd]. destruct (kp_bytes_cons p (map fst cs)) as (b & bs & Hb & Hlen).
  destruct fuel as [|fuel]; [rewrite Hb in Hf; simpl in Hf; lia|]. rewrite Hb in *. cbn [kp_loop]. run; [exact Hr|]. cbn [fst snd] in *. rewrite Hd.
  eapply read_pointer_run; [done..|]. intros k s1 F1 U1 Hk. set (desc := mk_np _ _ _ _ _).
  pose proof (child_mono _ _ _ _ F1 Hc) as Hc1. assert (Hcs1 : Forall (child_ok (bdata s1) (bpos s1) h) cs) by (eapply Forall_impl; [exact Hcs|]; intros c; by apply child_mono).
  pose proof (fr_purging _ _ _ F1 Hp) as Hp1. pose proof (fr_ok _ _ F1 Hs) as Hs1. pose proof (mr_mono _ _ _ _ _ F1 Hmr) as Hmr1.
  destruct (ends_bounds m (concat (map snd cs)) (np_key p) Hso (proj1 He)) as [B1 B2]. apply sorted_app in Hso as (So1 & So2 & _).
  assert (Hpt : pointer_ok s1 h desc m) by (split; [done|]; split; [by intros _; split; [|apply Hc1]|by exists k]).
  assert (Hstart : forall acts' x s2, updated s1 (Some h) r l acts' (m ++ concat (map snd cs)) x.1 x.2 s2 -> updated s (Some h) r l acts' (m ++ concat (map snd cs)) x.1 x.2 s2).
  { intros acts' x s2 (K1 & K2 & K3). split; [by eapply fr_trans|]. split; [by rewrite K2, U1|done]. }
  destruct (good_cut _ _ _ _ _ B1 B2 Hok Hg) as [Hg1 Hg2].
  (* The rest after the first child. *)
  assert (Hrest : forall (m0 : M (btree F U) (couchstore_error_t * couchfile_modify_result)) acts', acts' = beyond rq (np_key p) acts -> (cs = [] -> acts' = []) ->
    runs m0 s1 (fun x s2 => updated s1 (Some h) r l (upto rq (np_key p) acts) m x.1 x.2 s2) ->
    runs (r1 ← m0; if decide (r1.1 = COUCHSTORE_SUCCESS) then kp_loop rq mn pn fuel (kp_bytes (map fst cs)) acts' r1.2 else mret r1) s1
      (fun x s2 => updated s (Some h) r l acts (m ++ concat (map snd cs)) x.1 x.2 s2)).
  { intros m0 acts' -> Hne' Hm0. run. eapply runs_mono; [exact Hm0|]. intros [e r1] s2 G. cbn [fst snd] in *. pose proof G as (G1 & _ & -> & G4 & _). rewrite decide_True by done.
    eapply runs_mono; [apply (IH fuel s2 _ r1 _ ltac:(simpl in *; lia) (fr_ok _ _ G1 Hs1) (fr_purging _ _ _ G1 Hp1) G4)|].
    - eapply Forall_impl; [exact Hcs1|]. intros c. by apply child_mono.
    - done.
    - by apply cut_ok.
    - done.
    - done.
    - intros x s3 K. apply Hstart. by eapply updated_cut. }
  destruct acts as [|a acts0] eqn:Ea.
  { apply Hrest; [done..|]. eapply runs_mono; [by eapply keep_kp_run|]. intros x s2. apply updated_keep. }
  rewrite <- Ea in *. destruct (bool_decide_reflect (kp_bytes (map fst cs) = [])) as [Hnil|Hnil].
  { destruct cs as [|c cs]; [|by destruct (kp_bytes_cons c.1 (map fst cs)) as (? & ? & Hx & _); cbn [map] in Hnil; rewrite Hx in Hnil].
    cbn [map concat] in *. rewrite app_nil_r in *. eapply runs_mono; [apply (Hmn s1 desc m acts r l); try done; [by exists k|by rewrite Ea]|].
    intros x s2. apply Hstart. }
  assert (Hcsne : cs <> []) by (by intros ->).
  destruct (Z.ltb_spec (cmp (np_key p) (act_key a)) 0) as [Hlt|Hge].
  - destruct (upto_nil rq (np_key p) a acts0 Hlt) as [Eu Eb]. rewrite <- Ea in *. apply Hrest; [by rewrite Eb|done|]. rewrite Eu in *.
    eapply runs_mono; [by eapply keep_kp_run|]. intros x s2. apply updated_keep.
  - destruct (range_end rq (np_key p) acts) as [down acts'] eqn:Er.
    assert (Eu : upto rq (np_key p) acts = down) by (unfold upto; by rewrite Er). assert (Eb : beyond rq (np_key p) acts = acts') by (unfold beyond; by rewrite Er).
    apply Hrest; [done..|]. rewrite Eu. apply Hmn; try done; [by exists k|rewrite <- Eu; by apply cut_ok| |by rewrite <- Eu].
    rewrite <- Eu, Ea. destruct (upto_cons rq (np_key p) a acts0) as [-> _]; [|done].
    destruct (kle_lt_dec _ (act_key a) (np_key p)) as [?|Hgt]; [done|]. unfold klt in Hgt. lia.
Qed.
End modify.
