(* ===== verification/BtreeRoot.v ===== *)
(** * The new root of a B+tree

    What a node became goes to its parent; above the old root, levels are added until one
    node is left. *)
From Stdlib Require Import ZArith Lia Sorted.
From stdpp Require Import strings gmap prelude sorting.
From S2P Require Import Prelude Bitfield ViewCodec Snappy NodeTypes Crc CouchFile Btree BtreeSpec BtreeRep BtreeWrite BtreeModify.

#[local] Set Warnings "-clear-no-such-hyp".

Section root.
Context {F U : Type} `{FileOpsOk F} `{Alloc} `{Snappy} {SOK : SnappyOk}.
Context {rq : couchfile_modify_request U} {red : list kv -> list Z} {rmax : Z} {ROK : ReduceOk rq red rmax} {TE : TreeEnv rq}.
Context `{COK : !CompareOk rq.(rq_compare)} {c0 : nat}.
Implicit Types (s : btree F U) (r dst : couchfile_modify_result) (l m ld : list kv) (acts : list couchfile_modify_action).

Abbreviation bpos s := (tf_pos (bt_file s)).
Abbreviation bdata s := (ops_data (tf_handle (bt_file s))).
Abbreviation bmem s := (tf_mem (bt_file s)).
Abbreviation tree := (tree red).
Abbreviation entry := (entry red).
Abbreviation st_ok := (st_ok (c0 := c0)).
Abbreviation pointer_ok := (pointer_ok (red := red) (c0 := c0)).
Abbreviation item_ok := (item_ok (red := red) (c0 := c0)).
Abbreviation mr_ok := (mr_ok (red := red) (c0 := c0)).
Abbreviation good := (good (rmax := rmax)).
Abbreviation cmp := (rq_compare rq).
Abbreviation apply_actions := (apply_actions cmp).
Abbreviation fetches := (fetches cmp rq.(rq_fetch_callback)).
Abbreviation updated := (updated (rq := rq) (red := red) (c0 := c0)).

Lemma flushed_empty lv r r' : flushed lv r.(mr_node_len) r r' -> r.(mr_modified) = true -> r'.(mr_values) = [].
Proof.
  unfold flushed. intros Hf Hm. rewrite Hm in Hf. destruct (mr_values r) as [|i its] eqn:Hv; [by rewrite Hf|].
  destruct Hf as (taken & rest & pel & _ & _ & -> & _ & _ & Hr). by apply Hr.
Qed.

Lemma no_items s lv its ls : Forall2 (item_ok s lv) its ls -> concat ls = [] -> its = [].
Proof.
  destruct 1 as [|i l its ls Hi _]; [done|]. cbn [concat]. intros [-> _]%app_eq_nil. apply item_key in Hi as [He _]. by apply ends_nonempty in He.
Qed.

(** All contents are behind the pointers, and these go to the values of [dst]. *)
Lemma move_all_run s lv r l dst ld : st_ok s -> mr_ok s lv r l -> r.(mr_values) = [] -> mr_ok s (Some (out lv)) dst ld -> good (ld ++ l) ->
  runs (mr_move_pointers rq r dst) s (fun x s' => fr s s' /\ s'.(bt_user) = s.(bt_user) /\ x.1.1 = COUCHSTORE_SUCCESS /\
    mr_ok s' (Some (out lv)) x.2 (ld ++ l) /\ x.2.(mr_modified) = dst.(mr_modified) /\ x.1.2 = set_mr_pointers [] r /\
    (potential x.2 <= length r.(mr_pointers) + potential dst)%nat).
Proof.
  intros Hs [(lp & lvs & Hp & Hv & ->) _ _ _] Hnil Hd Hg. rewrite Hnil in Hv. apply Forall2_nil_inv_l in Hv as ->. cbn [concat] in *. rewrite app_nil_r in *.
  unfold mr_move_pointers. run. eapply runs_mono; [by eapply move_run|]. intros [[e r'] left] s' (G1 & G2 & G3 & G4 & G5 & G6 & G7). run. cbn [fst snd] in *.
  subst left. by do 6 (split; [done|]).
Qed.

(** A pointer whose memory was allocated for the request. *)
Definition owned (p : node_pointer) : Prop := exists k, p.(np_block) = Block k /\ (c0 <= k)%nat.

(** What a modification of a node makes of the result of the parent. The pointer itself
    comes back when nothing was modified. *)
Definition node_post s h (p : node_pointer) dst ld acts m (e : couchstore_error_t) r s' : Prop :=
  fr s s' /\ s'.(bt_user) = fetches acts m s.(bt_user) /\ e = COUCHSTORE_SUCCESS /\
  (r.(mr_modified) = false -> dst.(mr_modified) = false /\ Forall is_fetch acts) /\
  (owned p \/ r.(mr_modified) = true -> mr_ok s' (Some h) r (ld ++ apply_actions acts m)).

Lemma push_back_run s h p m dst ld : st_ok s -> mr_ok s (Some h) dst ld -> (owned p -> entry p m) -> (bpos s < 2 ^ 48 -> fits48 p.(np_pointer) /\ tree (bdata s) (bpos s) h p.(np_pointer) m) ->
  good (ld ++ m) -> owned p \/ dst.(mr_modified) = false ->
  runs (mr_push_pointerinfo rq p dst) s (fun x s' => fr s s' /\ s'.(bt_user) = s.(bt_user) /\ x.1 = COUCHSTORE_SUCCESS /\
    x.2.(mr_modified) = dst.(mr_modified) /\ (owned p \/ x.2.(mr_modified) = true -> mr_ok s' (Some h) x.2 (ld ++ m))).
Proof.
  intros Hs Hd He Ht Hg [Ho|Hmod].
  - eapply runs_mono; [eapply push_pointer_run; [done..|split; [by apply He|done]|done]|]. intros x s' (G1 & G2 & G3 & G4 & G5 & _). by do 4 (split; [done|]).
  - unfold mr_push_pointerinfo. run. eapply encode_run; [exact Hs|]. intros s1 F1 U1. apply maybe_flush_unmodified; [done|]. cbn [fst snd].
    do 4 (split; [done|]). cbn [push_value mr_modified]. rewrite Hmod. intros [Ho|]; [|done]. apply push_ok; [by eapply mr_mono|].
    exists p. split; [done|]. eapply pointer_mono; [exact F1|]. split; [by apply He|done].
Qed.

Lemma give_back_run s0 s lv p m r dst ld acts : st_ok s -> (r.(mr_modified) = false -> Forall is_fetch acts) -> mr_ok s lv r (apply_actions acts m) ->
  mr_ok s (Some (out lv)) dst ld -> (owned p -> entry p m) -> (bpos s < 2 ^ 48 -> fits48 p.(np_pointer) /\ tree (bdata s) (bpos s) (out lv) p.(np_pointer) m) ->
  good (ld ++ apply_actions acts m) -> owned p \/ dst.(mr_modified) = false -> s.(bt_user) = fetches acts m s0.(bt_user) ->
  runs (give_back rq (Some p) r dst) s (fun x s' => fr s s' /\ s'.(bt_user) = fetches acts m s0.(bt_user) /\ x.1 = COUCHSTORE_SUCCESS /\
    (x.2.(mr_modified) = false -> dst.(mr_modified) = false /\ Forall is_fetch acts) /\
    (owned p \/ x.2.(mr_modified) = true -> mr_ok s' (Some (out lv)) x.2 (ld ++ apply_actions acts m))).
Proof.
  intros Hs Hf Hmr Hd He Ht Hg Ho Hu. unfold give_back. run. eapply runs_mono; [eapply flush_mr_run; [exact Hs|exact Hmr|by destruct (good_app _ _ Hg)]|].
  intros [e r1] s1 (G1 & G2 & -> & G4 & G5 & G6). cbn [fst snd] in *. rewrite decide_True by done. pose proof (fr_ok _ _ G1 Hs) as Hs1.
  destruct (mr_modified r1) eqn:Hm.
  - run. eapply runs_mono; [eapply (move_all_run s1 lv r1 _ (set_mr_modified true dst) ld); [done..|by eapply flushed_empty| |exact Hg]|].
    + apply modified_ok. by eapply mr_mono.
    + intros [[e' r'] d'] s2 (K1 & K2 & K3 & K4 & K5 & _). run. cbn [fst snd] in *. split; [by eapply fr_trans|]. split; [congruence|]. split; [done|]. by rewrite K5.
  - pose proof (Hf (eq_sym G5)) as Hfe. rewrite (apply_fetches _ _ _ Hfe) in *. run.
    eapply runs_mono; [eapply push_back_run; [exact Hs1|by eapply mr_mono|exact He| |exact Hg|exact Ho]|].
    + destruct G1 as ((_ & L1 & L2) & _). intros Hl. destruct (Ht ltac:(lia)) as [? Htr]. split; [done|]. by eapply tree_mono.
    + intros [e' r'] s2 (K1 & K2 & K3 & K4 & K5). run. cbn [fst snd] in *. split; [by eapply fr_trans|]. split; [congruence|]. split; [done|]. split; [by rewrite K4|done].
Qed.

(** ** Reading a node *)

Lemma node_read_run s pos bytes q : st_ok s -> node_at (bdata s) pos bytes q ->
  runs (in_file (pread_compressed pos)) s (fun x s1 => exists n, x = inr (Block n, bytes) /\ st_ok s1 /\ grows (bt_file s) (bt_file s1) /\
    grown (bmem s) (bmem s1) [n] /\ s1.(bt_user) = s.(bt_user) /\ s1.(bt_purging) = s.(bt_purging) /\ (m_calls (bmem s) <= m_calls (bmem s1))%nat).
Proof.
  intros (Hok & Hm & Hp & Hc) Hn. apply runs_in_file. eapply runs_mono; [apply runs_counts; [apply counts_read|by eapply pread_compressed_run]|].
  intros [e|[b bs]] f1 [[G1 G2] G3]; [destruct G2 as (_ & G2 & _); by destruct (G2 te_reliable te_malloc)|]. destruct G2 as (-> & n & -> & G2).
  exists n. split; [done|]. cbn [bt_file bt_user bt_purging]. pose proof G1 as (R1 & _ & R3). split; [|split; [by apply reads_grows|done]].
  split; [done|]. split; [apply G2|]. cbn [bt_file]. rewrite R3. split; [done|lia].
Qed.

(** The buffer of the node is freed. *)
Lemma node_free_run s s1 s2 n : grows (bt_file s) (bt_file s1) -> grown (bmem s) (bmem s1) [n] -> s1.(bt_purging) = s.(bt_purging) ->
  (m_calls (bmem s) <= m_calls (bmem s1))%nat -> fr s1 s2 ->
  runs (in_mem (free (Block n))) s2 (fun _ s3 => fr s s3 /\ grows (bt_file s2) (bt_file s3) /\ s3.(bt_user) = s2.(bt_user)).
Proof.
  intros Hg Hn Hp Hc (F1 & F2 & F3 & F4). eapply runs_mono; [apply (free_run n (bmem s)); by eapply grown_balanced|].
  intros [] s3 (K1 & K2 & K3 & K4 & K5 & K6). assert (G23 : grows (bt_file s2) (bt_file s3)).
  { pose proof F1 as (F1a & _ & _). split; [by rewrite K3|]. rewrite K2, K3. split; [done|apply agree_refl]. }
  split; [|done]. split; [eapply grows_trans; [|exact G23]; by eapply grows_trans|]. split; [done|]. split; [congruence|lia].
Qed.

Lemma modres_run s (Q : option couchfile_modify_result -> btree F U -> Prop) : st_ok s ->
  (forall r s', fr s s' -> s'.(bt_user) = s.(bt_user) -> r.(mr_modified) = false -> (forall lv, mr_ok s' lv (set_mr_node_type (ty lv) r) []) ->
     potential r = 0%nat -> Q (Some r) s') -> runs make_modres s Q.
Proof.
  intros Hs HQ. eapply make_modres_run; [exact Hs|]. intros s' F1 U1. apply HQ; [done..| |done]. intros lv. constructor; [|done..].
  exists [], []. by repeat constructor.
Qed.

(** ** Nodes *)

Abbreviation modifies := (modifies (rq := rq) (red := red) (rmax := rmax) (c0 := c0)).
Abbreviation child_ok := (child_ok (red := red)).

Lemma leaf_contents_run mn pn s m acts r : st_ok s -> s.(bt_purging) = false -> (forall lv, mr_ok s lv (set_mr_node_type (ty lv) r) []) -> r.(mr_modified) = false ->
  Forall kv_ok m -> sorted cmp m -> acts_ok cmp acts -> good (apply_actions acts m) ->
  runs (modify_contents rq mn pn (Some (KV_NODE :: kv_bytes m)) acts r) s (fun x s' => updated s None r [] acts m x.1 x.2 s').
Proof.
  intros Hs Hp Hmr Hm Hk Hso Hok Hg. unfold modify_contents. run; [done|]. cbn [Z.eqb tail]. change (KV_NODE =? 1) with true. cbv iota. run.
  eapply runs_mono; [eapply (leaf_run m _ s acts (set_mr_node_type KV_NODE r) []); [cbn [length]; lia|done|done|exact (Hmr None)|done..]|].
  intros [[e r1] acts1] s1 [-> K]. cbn [fst snd] in *. rewrite decide_True by done. run. eapply runs_mono; [exact K|]. intros r2 s2 K2. by run.
Qed.

Lemma inner_contents_run h mn pn s cs acts r : modifies h mn -> st_ok s -> s.(bt_purging) = false -> (forall lv, mr_ok s lv (set_mr_node_type (ty lv) r) []) ->
  r.(mr_modified) = false -> cs <> [] -> Forall (child_ok (bdata s) (bpos s) h) cs -> sorted cmp (concat (map snd cs)) -> acts_ok cmp acts ->
  good (apply_actions acts (concat (map snd cs))) ->
  runs (modify_contents rq mn pn (Some (KP_NODE :: kp_bytes (map fst cs))) acts r) s (fun x s' => updated s (Some h) r [] acts (concat (map snd cs)) x.1 x.2 s').
Proof.
  intros Hmn Hs Hp Hmr Hm Hne Hcs Hso Hok Hg. unfold modify_contents. run; [done|]. change (KP_NODE =? 1) with false. change (KP_NODE =? 0) with true. cbv iota. cbn [tail].
  eapply runs_mono; [eapply (inner_run h mn pn cs Hmn _ s acts (set_mr_node_type KP_NODE r) []); [cbn [length]; lia|done|done|exact (Hmr (Some h))|done..]|].
  done.
Qed.

(** What the modification of a node needs: its bytes, and that its contents are modified. *)
Lemma tree_contents h mn pn s pos m acts : (forall h', h = S h' -> modifies h' mn) -> tree (bdata s) (bpos s) h pos m -> sorted cmp m -> acts_ok cmp acts -> good (apply_actions acts m) ->
  exists lv bytes, out lv = h /\ node_at (bdata s) pos bytes (bpos s) /\
    forall s1 r, st_ok s1 -> s1.(bt_purging) = false -> grows (bt_file s) (bt_file s1) -> (forall lv, mr_ok s1 lv (set_mr_node_type (ty lv) r) []) -> r.(mr_modified) = false ->
      runs (modify_contents rq mn pn (Some bytes) acts r) s1 (fun x s' => updated s1 lv r [] acts m x.1 x.2 s').
Proof.
  intros Hmn Ht Hso Hok Hg. destruct h as [|h]; cbn [BtreeRep.tree] in Ht.
  - destruct Ht as (Hne & Hk & Hn). exists None. eexists. split; [done|]. split; [exact Hn|]. intros s1 r Hs1 Hp1 _ Hr Hm. by apply leaf_contents_run.
  - destruct Ht as (cs & Hne & -> & Hn & Hcs). exists (Some h). eexists. split; [done|]. split; [exact Hn|]. intros s1 r Hs1 Hp1 (_ & L1 & L2) Hr Hm.
    apply inner_contents_run; try done; [by apply Hmn|]. eapply Forall_impl; [exact Hcs|]. intros c (E1 & E2 & E3 & E4). do 3 (split; [done|]). by eapply tree_mono.
Qed.

Lemma modify_node_run h : forall fuel s p m acts dst ld, (h < fuel)%nat -> st_ok s -> s.(bt_purging) = false -> (owned p -> entry p m) -> fits48 p.(np_pointer) ->
  tree (bdata s) (bpos s) h p.(np_pointer) m -> sorted cmp m -> acts_ok cmp acts -> acts <> [] -> mr_ok s (Some h) dst ld -> good (ld ++ apply_actions acts m) ->
  owned p \/ dst.(mr_modified) = false ->
  runs (modify_node rq fuel (Some p) acts dst) s (fun x s' => node_post s h p dst ld acts m x.1 x.2 s').
Proof.
  induction h as [h IH] using lt_wf_ind. intros fuel s p m acts dst ld Hf Hs Hp He Hfit Ht Hso Hok Hne Hd Hg Ho. destruct fuel as [|fuel]; [lia|]. cbn [modify_node].
  rewrite bool_decide_eq_false_2 by done. destruct (good_app _ _ Hg) as [_ Hga].
  destruct (tree_contents h (fun n => modify_node rq fuel (Some n)) (purge_node rq fuel) s p.(np_pointer) m acts) as (lv & bytes & Hh & Hn & Hrun); [|done..|].
  { intros h' ->. intros s1 q m1 acts1 r1 l1 K1 K2 (K3 & K4 & _ & K5) K6 K7 K8 K9 K10 K11.
    eapply runs_mono; [apply (IH h' ltac:(lia) fuel s1 q m1 acts1 r1 l1); try done; [lia|by left]|].
    intros x s2 (G1 & G2 & G3 & G4 & G5). do 3 (split; [done|]). split; [|done]. apply G5. by left. }
  run. eapply runs_mono; [by eapply node_read_run|]. intros x s1 (n & -> & Hs1 & Hg1 & Hn1 & U1 & P1 & C1). run. eapply modres_run; [exact Hs1|].
  intros r0 s2 F2 U2 M2 R2 _. run. eapply runs_mono.
  { apply Hrun; [by eapply fr_ok|eapply fr_purging; [exact F2|congruence]| |done|done]. destruct F2 as [F2 _]. by eapply grows_trans. }
  intros [e r1] s3 (G1 & G2 & -> & G4 & G5). cbn [fst snd] in *. rewrite decide_True by done. cbn [app] in G4.
  assert (F13 : fr s1 s3) by (by eapply fr_trans). assert (Hg3 : grows (bt_file s) (bt_file s3)) by (exact (grows_trans _ _ _ Hg1 (proj1 F13))).
  run. eapply runs_mono; [apply (give_back_run s s3 lv p m r1 dst ld acts); subst h; [by eapply fr_ok|by apply G5|done|by eapply mr_grow|done| |done|done|congruence]|].
  - intros _. split; [done|]. destruct Hg3 as (_ & L1 & L2). by eapply tree_mono.
  - intros [e' r2] s4 (K1 & K2 & K3 & K4 & K5). cbn [fst snd] in *. subst e'. run. eapply runs_mono; [eapply (node_free_run s s1 s4); [done..|by eapply fr_trans]|].
    intros [] s5 (L1 & L2 & L3). run. split; [done|]. split; [congruence|]. split; [done|]. split; [done|]. intros Hor. cbn [fst snd]. subst h. eapply mr_grow; [exact L2|]. by apply K5.
Qed.

(** A tree that has no root yet. *)
Lemma modify_none_run fuel s acts dst : (0 < fuel)%nat -> st_ok s -> acts_ok cmp acts -> acts <> [] -> mr_ok s (Some 0%nat) dst [] -> good (apply_actions acts []) ->
  runs (modify_node rq fuel None acts dst) s (fun x s' => fr s s' /\ s'.(bt_user) = fetches acts [] s.(bt_user) /\ x.1 = COUCHSTORE_SUCCESS /\
    x.2.(mr_modified) = true /\ mr_ok s' (Some 0%nat) x.2 (apply_actions acts [])).
Proof.
  intros Hf Hs Hok Hne Hd Hg. destruct fuel as [|fuel]; [lia|]. cbn [modify_node]. rewrite bool_decide_eq_false_2 by done. run.
  eapply modres_run; [exact Hs|]. intros r0 s1 F1 U1 M1 R1 _. unfold modify_contents. run.
  eapply runs_mono; [eapply (rest_run acts s1 (set_mr_node_type KV_NODE r0) []); [by eapply fr_ok|exact (R1 None)|done|done]|].
  intros r1 s2 (G1 & G2 & _ & G4 & G5). run. cbn [fst snd app] in *. rewrite decide_True by done. unfold give_back. pose proof (fr_trans _ _ _ F1 G1) as F2.
  run. eapply runs_mono; [eapply flush_mr_run; [by eapply fr_ok|exact G4|done]|].
  intros [e r2] s3 (K1 & K2 & -> & K4 & K5 & K6). cbn [fst snd] in *. rewrite decide_True by done. pose proof (fr_trans _ _ _ F2 K1) as F3.
  run. eapply runs_mono; [eapply (move_all_run s3 None r2 _ (set_mr_modified true dst) []); [by eapply fr_ok|exact K4| |apply modified_ok; by eapply mr_mono|done]|].
  - destruct (mr_modified r1) eqn:Hm; [by eapply flushed_empty|]. unfold flushed in K6. rewrite Hm in K6. subst r2. destruct (G5 eq_refl) as [_ Hfe].
    rewrite (apply_fetches _ _ _ Hfe) in G4. destruct G4 as [(lp & lvs & _ & Hv & Hl) _ _ _]. symmetry in Hl. apply app_eq_nil in Hl as [_ Hl]. by eapply no_items.
  - intros [[e' r3] d] s4 (L1 & L2 & L3 & L4 & L5 & _). run. cbn [fst snd] in *. eexists tt, s4. split; [by destruct s4 as [[] ? ?]|]. run. cbn [fst snd].
    split; [by eapply fr_trans|]. split; [congruence|]. by do 2 (split; [done|]).
Qed.

(** ** Levels above the old root *)

Lemma flushed_count h r r' : flushed (Some h) r.(mr_node_len) r r' -> r.(mr_modified) = true -> (2 * length r'.(mr_pointers) <= S (potential r))%nat.
Proof.
  intros Hf Hm. pose proof (flushed_empty _ _ _ Hf Hm) as He. destruct (decide (2 <= length (mr_values r))%nat) as [Hl|Hl].
  - pose proof (flushed_potential (Some h) _ _ _ ltac:(done) Hl Hf). unfold potential in *. lia.
  - unfold flushed in Hf. rewrite Hm in Hf. unfold potential. destruct (mr_values r) as [|i its]; [subst r'; lia|].
    destruct Hf as (taken & rest & pel & _ & _ & _ & -> & _ & _). rewrite length_app. cbn [length]. lia.
Qed.

Lemma items_length s lv its ls : Forall2 (item_ok s lv) its ls -> (length its <= length (concat ls))%nat.
Proof.
  induction 1 as [|i l its ls Hi _ IH]; [done|]. cbn [concat length]. rewrite length_app. apply item_key in Hi as [He _]. apply ends_nonempty in He.
  destruct l; [done|]. cbn [length]. lia.
Qed.

(** All values are written: between one pointer and as many as there are items. *)
Lemma flushed_pointers s lv r l : mr_ok s lv r l -> r.(mr_values) = [] -> l <> [] -> (1 <= length r.(mr_pointers) <= length l)%nat.
Proof.
  intros [(lp & lvs & Hp & Hv & ->) _ _ _] Hn Hl. rewrite Hn in Hv. apply Forall2_nil_inv_l in Hv as ->. cbn [concat] in *. rewrite app_nil_r in *.
  pose proof (items_length _ _ _ _ Hp). destruct (mr_pointers r) as [|i its]; [|cbn [length] in *; lia]. by apply Forall2_nil_inv_l in Hp as ->.
Qed.

Lemma one_pointer s lv r l i : mr_ok s lv r l -> r.(mr_values) = [] -> r.(mr_pointers) = [i] -> exists p, i.(nl_pointer) = Some p /\ pointer_ok s (out lv) p l.
Proof.
  intros [(lp & lvs & Hp & Hv & ->) _ _ _] Hn Hi. rewrite Hn in Hv. apply Forall2_nil_inv_l in Hv as ->. rewrite Hi in Hp.
  apply Forall2_cons_inv_l in Hp as (l1 & l2 & (p & -> & Hp) & ->%Forall2_nil_inv_l & ->). exists p. split; [done|]. cbn [concat]. by rewrite !app_nil_r.
Qed.

Lemma emptied_ok s h h' r l : mr_ok s (Some h) r l -> r.(mr_values) = [] -> mr_ok s (Some h') (set_mr_pointers [] r) [].
Proof.
  intros [_ Hl Ht Hc] Hv. rewrite Hv in *. constructor; cbn [set_mr_pointers mr_values mr_pointers mr_node_len mr_node_type mr_count]; rewrite ?Hv; [|done..].
  exists [], []. by repeat constructor.
Qed.

Lemma root_loop_run fuel : forall s h r c l, st_ok s -> mr_ok s (Some h) r l -> r.(mr_values) = [] -> r.(mr_modified) = true -> (length r.(mr_pointers) <= fuel)%nat ->
  mr_ok s (Some (S h)) c [] -> c.(mr_modified) = true -> potential c = 0%nat -> l <> [] -> good l ->
  runs (root_loop rq fuel r c) s (fun x s' => fr s s' /\ s'.(bt_user) = s.(bt_user) /\ x.1 = COUCHSTORE_SUCCESS /\
    exists p h', x.2 = Some p /\ pointer_ok s' h' p l).
Proof.
  induction fuel as [|fuel IH]; intros s h r c l Hs Hr Hv Hm Hf Hc Hcm Hcp Hl Hg; pose proof (flushed_pointers _ _ _ _ Hr Hv Hl) as [N1 _]; [lia|]. cbn [root_loop].
  assert (Hstep : (2 <= length r.(mr_pointers))%nat -> runs (m ← mr_move_pointers rq r c; if decide (m.1.1 = COUCHSTORE_SUCCESS) then
      c ← flush_mr rq m.2; if decide (c.1 = COUCHSTORE_SUCCESS) then root_loop rq fuel c.2 m.1.2 else mret (c.1, None) else mret (m.1.1, None)) s
    (fun x s' => fr s s' /\ s'.(bt_user) = s.(bt_user) /\ x.1 = COUCHSTORE_SUCCESS /\ exists p h', x.2 = Some p /\ pointer_ok s' h' p l)).
  { intros N2. run. eapply runs_mono; [eapply (move_all_run s (Some h) r l c []); [done..|exact Hg]|].
    intros [[e r1] c1] s1 (G1 & G2 & -> & G4 & G5 & G6 & G7). cbn [fst snd out app] in *. rewrite decide_True by done. subst r1. pose proof (fr_ok _ _ G1 Hs) as Hs1.
    run. eapply runs_mono; [eapply flush_mr_run; [exact Hs1|exact G4|done]|]. intros [e' c2] s2 (K1 & K2 & -> & K4 & K5 & K6). cbn [fst snd] in *. rewrite decide_True by done.
    pose proof (flushed_empty _ _ _ K6 ltac:(congruence)) as Hv2. pose proof (flushed_count _ _ _ K6 ltac:(congruence)) as Hn2. pose proof (fr_trans _ _ _ G1 K1) as F2.
    eapply runs_mono; [eapply (IH s2 (S h) c2 (set_mr_pointers [] r) l); [by eapply fr_ok|done|done|congruence|lia| |done| |done|done]|].
    - eapply mr_mono; [exact F2|]. by eapply emptied_ok.
    - unfold potential. cbn [set_mr_pointers mr_pointers mr_values]. by rewrite Hv.
    - intros x s3 (L1 & L2 & L3). split; [by eapply fr_trans|]. split; [congruence|done]. }
  destruct (mr_pointers r) as [|i [|j its]] eqn:Hp; [simpl in N1; lia| |apply Hstep; simpl; lia].
  destruct (one_pointer _ _ _ _ _ Hr Hv Hp) as (p & Hi & Hpt). run. split; [by eapply fr_refl|]. do 2 (split; [done|]). by exists p, (S h).
Qed.

Lemma finish_root_run fuel s h r l : st_ok s -> mr_ok s (Some h) r l -> r.(mr_modified) = true -> l <> [] -> good l -> (length l <= fuel)%nat ->
  runs (finish_root rq fuel r) s (fun x s' => fr s s' /\ s'.(bt_user) = s.(bt_user) /\ x.1 = COUCHSTORE_SUCCESS /\
    exists p h', x.2 = Some p /\ pointer_ok s' h' p l).
Proof.
  intros Hs Hr Hm Hl Hg Hf. unfold finish_root. run. eapply modres_run; [exact Hs|]. intros c s1 F1 U1 _ C1 P1. run. pose proof (fr_ok _ _ F1 Hs) as Hs1.
  eapply runs_mono; [eapply flush_mr_run; [exact Hs1|by eapply mr_mono|done]|]. intros [e r1] s2 (G1 & G2 & G3 & G4 & G5 & G6). cbn [fst snd] in *.
  pose proof (flushed_empty _ _ _ G6 Hm) as Hv. pose proof (flushed_pointers _ _ _ _ G4 Hv Hl) as [_ N].
  eapply runs_mono; [eapply (root_loop_run fuel s2 h r1 _ l); [by eapply fr_ok|done|done|congruence|lia| |done|exact P1|done|done]|].
  - eapply mr_mono; [exact G1|]. apply (modified_ok _ _ _ _ true (C1 (Some (S h)))).
  - intros x s3 (K1 & K2 & K3). split; [eapply fr_trans; [exact F1|]; by eapply fr_trans|]. split; [congruence|done].
Qed.
End root.
