(* ===== verification/BtreeCorrect.v ===== *)
(** * Modifications of B+trees are correct

    A modification gives a tree of the contents that the actions of the request make of the
    old ones, and the old tree stays readable. *)
From Stdlib Require Import ZArith Lia Sorted.
From stdpp Require Import strings gmap prelude sorting.
From S2P Require Import Prelude Bitfield ViewCodec Snappy NodeTypes Crc CouchFile Btree BtreeSpec BtreeRep BtreeWrite BtreeModify BtreeRoot.

#[local] Set Warnings "-clear-no-such-hyp".

Section correct.
Context {F U : Type} `{FileOpsOk F} `{Alloc} `{Snappy} {SOK : SnappyOk}.
Context {rq : couchfile_modify_request U} {red : list kv -> list Z} {rmax : Z} {ROK : ReduceOk rq red rmax} {TE : TreeEnv rq}.
Context `{COK : !CompareOk rq.(rq_compare)}.
Implicit Types (s : btree F U) (r : couchfile_modify_result) (l : list kv) (acts : list couchfile_modify_action).

Abbreviation bpos s := (tf_pos (bt_file s)).
Abbreviation bdata s := (ops_data (tf_handle (bt_file s))).
Abbreviation bmem s := (tf_mem (bt_file s)).
Abbreviation cmp := (rq_compare rq).
Abbreviation good := (good (rmax := rmax)).

(** The tree behind a root has a height and contents; an empty tree has no root. *)
Definition root_rep (f : tree_file F) (root : option node_pointer) (h : nat) (l : list kv) : Prop :=
  match root with
  | None => l = []
  | Some p => fits48 p.(np_pointer) /\ tree red (ops_data f.(tf_handle)) f.(tf_pos) h p.(np_pointer) l
  end.

(** The memory of a root was allocated before. *)
Definition root_old (n : nat) (root : option node_pointer) : Prop :=
  forall p, root = Some p -> exists k, p.(np_block) = Block k /\ (k < n)%nat.

Section run.
Context {c0 : nat}.
Abbreviation mr_ok := (mr_ok (red := red) (c0 := c0)).
Abbreviation st_ok := (st_ok (c0 := c0)).
Abbreviation pointer_ok := (pointer_ok (red := red) (c0 := c0)).

Lemma last_pointer_ok s h r l : mr_ok s (Some h) r l ->
  match last_pointer r with
  | None => r.(mr_values) = []
  | Some p => exists k, p.(np_block) = Block k /\ (c0 <= k)%nat
  end.
Proof.
  intros [(lp & lvs & _ & Hv & _) _ _ _]. unfold last_pointer. destruct (last (mr_values r)) as [i|] eqn:Hl; [|by apply last_None in Hl].
  apply last_Some in Hl as (its & Hl). rewrite Hl in Hv. apply Forall2_app_inv_l in Hv as (l1 & l2 & _ & Hv & _).
  apply Forall2_cons_inv_l in Hv as (l3 & l4 & (p & -> & (_ & _ & Hk)) & _). exact Hk.
Qed.

Lemma not_same p k root : p.(np_block) = Block k -> (c0 <= k)%nat -> root_old c0 root -> same_pointer (Some p) root = false.
Proof.
  intros Hp Hk Ho. destruct root as [q|]; [|done]. destruct (Ho q eq_refl) as (k' & Hq & Hk'). cbn. apply bool_decide_eq_false_2. rewrite Hp, Hq. intros [= ->]. lia.
Qed.

(** New nodes are never taken for the old root. *)
Lemma forget_modified s h r l root : mr_ok s (Some h) r l -> root_old c0 root -> forget_root root r = r.
Proof.
  intros Hr Ho. pose proof (last_pointer_ok _ _ _ _ Hr) as Hl. unfold forget_root. destruct (last_pointer r) as [p|] eqn:Hp.
  - destruct Hl as (k & Hk & Hk'). by rewrite (not_same p k).
  - rewrite Hl. by destruct (same_pointer _ _).
Qed.

(** The root of the levels that were built, if anything is left. *)
Lemma top_run fuel s h r l : st_ok s -> mr_ok s (Some h) r l -> r.(mr_modified) = true -> good l -> (length l <= fuel)%nat ->
  runs (if (1 <? r.(mr_count)) || negb (bool_decide (r.(mr_pointers) = []))
        then e ← finish_root rq fuel r; mret (if decide (e.1 = COUCHSTORE_SUCCESS) then e else (e.1, None))
        else mret (COUCHSTORE_SUCCESS, last_pointer r)) s
    (fun x s' => fr s s' /\ s'.(bt_user) = s.(bt_user) /\ x.1 = COUCHSTORE_SUCCESS /\
       match x.2 with None => l = [] | Some p => exists h', pointer_ok s' h' p l end).
Proof.
  intros Hs Hr Hm Hg Hf. destruct (_ || _) eqn:Hc.
  - run. assert (Hl : l <> []).
    { intros ->. destruct Hr as [(lp & lvs & Hp & Hv & Hl) _ _ Hn]. symmetry in Hl. apply app_eq_nil in Hl as [Hl1 Hl2].
      pose proof (no_items _ _ _ _ Hp Hl1) as Ep. pose proof (no_items _ _ _ _ Hv Hl2) as Ev. rewrite Hn, Ep, Ev in Hc. done. }
    eapply runs_mono; [by eapply finish_root_run|]. intros [e p] s' (G1 & G2 & G3 & q & h' & G4 & G5). run. cbn [fst snd] in *. subst e p.
    rewrite decide_True by done. do 3 (split; [done|]). by exists h'.
  - apply orb_false_iff in Hc as [Hc1%Z.ltb_ge Hc2%negb_false_iff%bool_decide_eq_true]. run. split; [by eapply fr_refl|]. do 2 (split; [done|]). cbn [snd].
    destruct Hr as [(lp & lvs & Hp & Hv & ->) _ _ Hn]. rewrite Hc2 in Hp. apply Forall2_nil_inv_l in Hp as ->. unfold last_pointer. rewrite Hn in Hc1.
    destruct Hv as [|i l its ls (p & -> & Hp) Hv]; [done|]. destruct Hv as [|i' l' its ls _ Hv]; [|simpl in Hc1; lia]. exists h. cbn. by rewrite app_nil_r.
Qed.

Lemma copy_run s p : st_ok s ->
  runs (copy_node_pointer (Some p)) s (fun x s' => exists n, x = Some (mk_np (Block n) p.(np_key) p.(np_pointer) p.(np_reduce_value) p.(np_subtreesize)) /\
    grows (bt_file s) (bt_file s') /\ grown (bmem s) (bmem s') [n] /\ s'.(bt_user) = s.(bt_user)).
Proof.
  intros (Hok & Hm & Hp & Hc). unfold copy_node_pointer. run. apply runs_in_file, runs_mem. eapply runs_mono; [by apply (malloc_fresh (rq := rq))|].
  intros b m (n & -> & Hg & _). rewrite decide_False by done. run. exists n. split; [done|]. split; [|done]. split; [done|]. by split; [|apply agree_refl].
Qed.

(** What a modification gives. *)
Definition result_ok s root l (root' : option node_pointer) s' : Prop :=
  grows (bt_file s) (bt_file s') /\
  match root' with
  | None => l = [] /\ balanced (bmem s) (bmem s')
  | Some p => (bpos s' < 2 ^ 48 -> exists h, root_rep (bt_file s') root' h l) /\
      ((root' = root /\ balanced (bmem s) (bmem s')) \/
       (np_reduce_value p = red l /\ exists n, p.(np_block) = Block n /\ grown (bmem s) (bmem s') [n]))
  end.

(** The new root is copied. *)
Lemma root_end_run s0 s1 root l x : root_old c0 root -> st_ok s1 -> fr s0 s1 ->
  x.1 = COUCHSTORE_SUCCESS -> match x.2 with None => l = [] | Some p => exists h', pointer_ok s1 h' p l end ->
  runs (if same_pointer x.2 root then mret x else c ← copy_node_pointer x.2; mret (x.1, c)) s1
    (fun y s' => y.1 = COUCHSTORE_SUCCESS /\ s'.(bt_user) = s1.(bt_user) /\ result_ok s0 root l y.2 s').
Proof.
  intros Ho Hs1 (F1 & F2 & _) He Hx. destruct x as [e [p|]]; cbn [fst snd] in *; subst e.
  - destruct Hx as (h & (E1 & E2 & E3) & Ht & k & Hk & Hk'). rewrite (not_same p k) by done. run. eapply runs_mono; [by eapply copy_run|].
    intros c s' (n & -> & G1 & G2 & G3). run. cbn [fst snd]. split; [done|]. split; [done|]. split; [by eapply grows_trans|]. split.
    + intros Hl. pose proof G1 as (_ & L1 & L2). destruct (Ht ltac:(lia)) as [Hf Htr]. exists h. split; [done|]. by eapply tree_mono.
    + right. split; [done|]. exists n. split; [done|]. apply (balanced_grown _ _ _ _ F2 G2).
  - assert (Hend : runs (mret (COUCHSTORE_SUCCESS, None)) s1 (fun y s' => y.1 = COUCHSTORE_SUCCESS /\ s'.(bt_user) = s1.(bt_user) /\ result_ok s0 root l y.2 s')) by (by run).
    destruct (same_pointer None root); [done|]. unfold copy_node_pointer. run. done.
Qed.
End run.

(** Every tree that could be read can still be read. *)
Lemma root_rep_mono f f' root h l : grows f f' -> root_rep f root h l -> root_rep f' root h l.
Proof. intros (_ & L1 & L2). destruct root as [p|]; [|done]. intros [Hf Ht]. split; [done|]. by eapply tree_mono. Qed.

(** What a request needs: a tree with sorted contents, sorted actions, and new contents that
    fit. *)
Record request_ok s (root : option node_pointer) (h : nat) l (fuel : nat) : Prop := {
  ro_file : ops_ok (tf_handle (bt_file s)) /\ 0 <= bpos s;
  ro_mem : mem_ok (bmem s);
  ro_purging : s.(bt_purging) = false;
  ro_root : root_rep (bt_file s) root h l /\ root_old (m_calls (bmem s)) root;
  ro_sorted : sorted cmp l;
  ro_acts : acts_ok cmp rq.(rq_actions);
  ro_good : good (apply_actions cmp rq.(rq_actions) l);
  ro_fuel : (h + length (apply_actions cmp rq.(rq_actions) l) < fuel)%nat
}.

Lemma request_grow s s' root h l fuel : grows (bt_file s) (bt_file s') -> mem_ok (bmem s') -> s'.(bt_purging) = s.(bt_purging) ->
  (m_calls (bmem s) <= m_calls (bmem s'))%nat -> request_ok s root h l fuel -> request_ok s' root h l fuel.
Proof.
  intros F1 F2 F3 F4 [[Ho Hp] Hm Hpu [Hrep Hold] Hso Hok Hg Hf]. pose proof F1 as (G1 & G2 & _). constructor; try done.
  - split; [done|lia].
  - congruence.
  - split; [by eapply root_rep_mono|]. intros p Hpr. destruct (Hold p Hpr) as (k & Hk & Hk'). exists k. split; [done|lia].
Qed.

Lemma request_mono s s' root h l fuel : fr s s' -> request_ok s root h l fuel -> request_ok s' root h l fuel.
Proof. intros (F1 & [F2 _] & F3 & F4). by apply request_grow. Qed.

(** The old root comes back. *)
Lemma kept_ok s s' root h l : fr s s' -> root_rep (bt_file s) root h l -> result_ok s root l root s'.
Proof.
  intros (F1 & F2 & _) Hrep. split; [done|]. pose proof (root_rep_mono _ _ _ _ _ F1 Hrep) as Hrep'. destruct root as [p|]; [|done].
  split; [by exists h|by left].
Qed.

(** What the modification of the nodes gives to the root. *)
Lemma nodes_run s root h l fuel c0 dst : root_old c0 root -> request_ok s root h l fuel -> st_ok (c0 := c0) s ->
  (forall h', mr_ok (red := red) (c0 := c0) s (Some h') dst []) -> dst.(mr_modified) = false ->
  runs (modify_node rq fuel root rq.(rq_actions) dst) s (fun x s' => fr s s' /\
    s'.(bt_user) = fetches cmp rq.(rq_fetch_callback) rq.(rq_actions) l s.(bt_user) /\ x.1 = COUCHSTORE_SUCCESS /\
    (x.2.(mr_modified) = false -> Forall is_fetch rq.(rq_actions)) /\
    (x.2.(mr_modified) = true -> exists h', mr_ok (red := red) (c0 := c0) s' (Some h') x.2 (apply_actions cmp rq.(rq_actions) l))).
Proof.
  intros Hold [_ _ Hp [Hrep _] Hso Hok Hg Hf] Hs Hd Hm. destruct (decide (rq.(rq_actions) = [])) as [Hn|Hne].
  { rewrite Hn in *. destruct fuel as [|fuel]; [lia|]. cbn [modify_node]. rewrite bool_decide_eq_true_2 by done. run. split; [by eapply fr_refl|].
    do 2 (split; [done|]). cbn [fst snd]. rewrite Hm. by split. }
  destruct root as [p|]; cbn [root_rep] in Hrep.
  - destruct Hrep as [Hfit Ht]. destruct (Hold p eq_refl) as (k & Hk & Hk').
    eapply runs_mono; [eapply (modify_node_run h fuel s p l rq.(rq_actions) dst []); try done; [lia| |by right]|].
    + intros (k2 & Hk2 & Hk2'). rewrite Hk in Hk2. injection Hk2 as ->. lia.
    + intros x s' (G1 & G2 & G3 & G4 & G5). do 3 (split; [done|]). split; [by intros Hx; destruct (G4 Hx)|]. intros Hx. exists h. apply G5. by right.
  - subst l. eapply runs_mono; [eapply (modify_none_run fuel s rq.(rq_actions) dst); try done; lia|].
    intros x s' (G1 & G2 & G3 & G4 & G5). do 3 (split; [done|]). split; [by rewrite G4|]. intros _. by exists 0%nat.
Qed.

Lemma modify_in_arena_run s root h l fuel : request_ok s root h l fuel ->
  runs (modify_in_arena rq fuel root) s (fun x s' => x.1 = COUCHSTORE_SUCCESS /\
    s'.(bt_user) = fetches cmp rq.(rq_fetch_callback) rq.(rq_actions) l s.(bt_user) /\
    result_ok s root (apply_actions cmp rq.(rq_actions) l) x.2 s').
Proof.
  intros Hrq. pose proof Hrq as [[Ho Hp] Hm Hpu [Hrep Hold] Hso Hok Hg Hf]. set (c0 := m_calls (bmem s)) in *.
  assert (Hs : st_ok (c0 := c0) s) by done.
  unfold modify_in_arena. run. eapply modres_run; [exact Hs|]. intros r0 s1 F1 U1 M1 R1 _.
  run. eapply runs_mono; [eapply (nodes_run s1 root h l fuel c0); [done|by eapply request_mono|by eapply fr_ok|intros h'; exact (R1 (Some h'))|done]|].
  intros [e r1] s2 (G1 & G2 & -> & G4 & G5). cbn [fst snd] in *. rewrite decide_True by done. pose proof (fr_trans _ _ _ F1 G1) as F2.
  destruct (mr_modified r1) eqn:Hmod.
  - destruct (G5 eq_refl) as (h' & Hr). rewrite (forget_modified _ _ _ _ _ Hr Hold), Hmod. pose proof (fr_ok _ _ F2 Hs) as Hs2.
    run. eapply runs_mono; [eapply top_run; [exact Hs2|exact Hr|done..|lia]|]. intros x s3 (K1 & K2 & K3 & K4).
    eapply runs_mono; [eapply (root_end_run s s3 root _ x Hold); [by eapply fr_ok|by eapply fr_trans|done|exact K4]|].
    intros y s4 (L1 & L2 & L3). split; [done|]. split; [congruence|done].
  - assert (Hfl : mr_modified (forget_root root r1) = false).
    { unfold forget_root. destruct (same_pointer _ _); [|done]. by destruct (last (mr_values r1)). }
    rewrite Hfl. run. assert (Hsame : same_pointer root root = true) by (destruct root; [by apply bool_decide_eq_true_2|done]). cbn [fst snd]. rewrite Hsame.
    run. split; [done|]. split; [congruence|]. rewrite (apply_fetches _ _ _ (G4 eq_refl)). by eapply kept_ok.
Qed.

(** The arena is given back, the new root stays. *)
Lemma arena_end_run s s1 s2 n root l x : grown (bmem s) (bmem s1) [n] -> grows (bt_file s) (bt_file s1) -> result_ok s1 root l x s2 ->
  runs (in_mem (free (Block n))) s2 (fun _ s3 => s3.(bt_user) = s2.(bt_user) /\ result_ok s root l x s3).
Proof.
  intros Hn Hg [R1 R2]. assert (Hfree : forall bs, grown (bmem s) (bmem s2) (n :: bs) ->
    runs (in_mem (free (Block n))) s2 (fun _ s3 => s3.(bt_user) = s2.(bt_user) /\ grown (bmem s) (bmem s3) bs /\ bpos s3 = bpos s2 /\ tf_handle (bt_file s3) = tf_handle (bt_file s2))).
  { intros bs Hb. apply runs_in_file, runs_mem. eapply (free_block_run n bs); [exact Hb|]. intros m Hm. done. }
  assert (Hgr : forall s3, bpos s3 = bpos s2 -> tf_handle (bt_file s3) = tf_handle (bt_file s2) -> grows (bt_file s) (bt_file s3)).
  { intros s3 Hp Hh. eapply grows_trans; [exact Hg|]. unfold grows in *. by rewrite Hp, Hh. }
  destruct x as [p|].
  - destruct R2 as [R2 R3]. assert (Hrep : forall s3, bpos s3 = bpos s2 -> tf_handle (bt_file s3) = tf_handle (bt_file s2) -> bpos s3 < 2 ^ 48 -> exists h, root_rep (bt_file s3) (Some p) h l).
    { intros s3 Hp Hh Hl. unfold root_rep in *. rewrite Hp, Hh in *. by apply R2. }
    destruct R3 as [[R3 R4]|(R3 & k & R4 & R5)].
    + eapply runs_mono; [apply (Hfree []); by eapply grown_balanced|]. intros [] s3 (G1 & G2 & G3 & G4). split; [done|]. split; [by apply Hgr|]. split; [by apply Hrep|]. left.
      split; [done|]. by apply grown_nil.
    + eapply runs_mono; [apply (Hfree [k]); exact (grown_trans _ _ _ _ _ Hn R5)|]. intros [] s3 (G1 & G2 & G3 & G4). split; [done|]. split; [by apply Hgr|].
      split; [by apply Hrep|]. right. split; [done|]. by exists k.
  - destruct R2 as [-> R2]. eapply runs_mono; [apply (Hfree []); by eapply grown_balanced|]. intros [] s3 (G1 & G2 & G3 & G4). split; [done|]. split; [by apply Hgr|].
    split; [done|]. by apply grown_nil.
Qed.

Lemma modify_btree_run s root h l fuel : request_ok s root h l fuel ->
  runs (modify_btree rq fuel root) s (fun x s' => x.1 = COUCHSTORE_SUCCESS /\
    s'.(bt_user) = fetches cmp rq.(rq_fetch_callback) rq.(rq_actions) l s.(bt_user) /\
    result_ok s root (apply_actions cmp rq.(rq_actions) l) x.2 s' /\
    (forall root0 h0 l0, root_rep (bt_file s) root0 h0 l0 -> root_rep (bt_file s') root0 h0 l0)).
Proof.
  intros Hrq. pose proof Hrq as [[Ho Hp] Hm _ _ _ _ _ _]. unfold modify_btree. apply runs_bind, runs_in_file, runs_mem.
  eapply runs_mono; [by apply (malloc_fresh (rq := rq))|]. intros b m (n & -> & Hn & Hc). apply runs_bind, runs_cassert; [done|]. set (s1 := mk_bt _ _ _).
  assert (Hg1 : grows (bt_file s) (bt_file s1)) by (split; [done|]; by split; [|apply agree_refl]).
  apply runs_bind. eapply runs_mono; [eapply (modify_in_arena_run s1); eapply request_grow; [exact Hg1|apply Hn|done|exact Hc|exact Hrq]|].
  intros x s2 (G1 & G2 & G3). apply runs_bind. eapply runs_mono; [exact (arena_end_run s s1 s2 n root _ x.2 Hn Hg1 G3)|]. intros [] s3 (K1 & K2). apply runs_ret. split; [done|]. split; [by rewrite K1|].
  split; [done|]. intros root0 h0 l0. apply root_rep_mono. apply K2.
Qed.

Lemma result_start s s1 s2 l x : fr s s1 -> result_ok s1 None l x s2 -> result_ok s None l x s2.
Proof.
  intros (F1 & F2 & _) [R1 R2]. split; [by eapply grows_trans|]. destruct x as [p|].
  - destruct R2 as [R2 [[? _]|(R3 & n & R4 & R5)]]; [done|]. split; [done|]. right. split; [done|]. exists n. split; [done|]. by eapply balanced_grown.
  - destruct R2 as [-> R2]. split; [done|]. destruct F2 as [_ F2], R2 as [R2 R3]. split; [done|congruence].
Qed.

(** ** New trees *)

(** The compactor pushes items one after the other. *)
Fixpoint push_all (l : list kv) r : M (btree F U) (couchstore_error_t * couchfile_modify_result) :=
  match l with
  | [] => mret (COUCHSTORE_SUCCESS, r)
  | x :: l' => y ← mr_push_item rq x.1 x.2 r; if decide (y.1 = COUCHSTORE_SUCCESS) then push_all l' y.2 else mret y
  end.

Lemma push_all_run c0 m : forall s r l, st_ok (c0 := c0) s -> mr_ok (red := red) (c0 := c0) s None r l -> good (l ++ m) ->
  runs (push_all m r) s (fun x s' => fr s s' /\ s'.(bt_user) = s.(bt_user) /\ x.1 = COUCHSTORE_SUCCESS /\
    mr_ok (red := red) (c0 := c0) s' None x.2 (l ++ m) /\ x.2.(mr_modified) = r.(mr_modified)).
Proof.
  induction m as [|[k v] m IH]; intros s r l Hs Hr Hg; cbn [push_all].
  { run. rewrite app_nil_r. split; [by eapply fr_refl|]. done. }
  replace (l ++ (k, v) :: m) with ((l ++ [(k, v)]) ++ m) in * by (by rewrite <- app_assoc). run.
  eapply runs_mono; [eapply push_item_run; [exact Hs|exact Hr|by destruct (good_app _ _ Hg)]|]. intros [e r1] s1 (G1 & G2 & -> & G4 & G5 & _). cbn [fst snd] in *.
  rewrite decide_True by done. eapply runs_mono; [apply (IH s1 r1 (l ++ [(k, v)])); [by eapply fr_ok|done|done]|].
  intros x s2 (K1 & K2 & K3 & K4 & K5). split; [by eapply fr_trans|]. split; [congruence|]. split; [done|]. split; [done|congruence].
Qed.

(** A whole tree is built from its items. *)
Definition build_btree (fuel : nat) (l : list kv) : M (btree F U) (couchstore_error_t * option node_pointer) :=
  mr ← new_btree_modres;
  match mr with
  | None => mret (COUCHSTORE_ERROR_ALLOC_FAIL, None)
  | Some mr =>
      r ← push_all l mr;
      if decide (r.1 = COUCHSTORE_SUCCESS) then complete_new_btree rq fuel r.2 else mret (r.1, None)
  end.

Lemma complete_run c0 fuel s r l : st_ok (c0 := c0) s -> mr_ok (red := red) (c0 := c0) s None r l -> r.(mr_modified) = true -> good l -> (length l <= fuel)%nat ->
  runs (complete_new_btree rq fuel r) s (fun x s' => x.1 = COUCHSTORE_SUCCESS /\ s'.(bt_user) = s.(bt_user) /\ result_ok s None l x.2 s').
Proof.
  intros Hs Hr Hm Hg Hf. unfold complete_new_btree. run. eapply runs_mono; [eapply flush_mr_run; [exact Hs|exact Hr|done]|].
  intros [e r1] s1 (G1 & G2 & -> & G4 & G5 & G6). cbn [fst snd] in *. rewrite decide_True by done. pose proof (fr_ok _ _ G1 Hs) as Hs1.
  run. eapply modres_run; [exact Hs1|]. intros t s2 F2 U2 _ T2 _. run. pose proof (fr_trans _ _ _ G1 F2) as F02. pose proof (fr_ok _ _ F02 Hs) as Hs2.
  eapply runs_mono; [eapply (move_all_run s2 None r1 l _ []); [exact Hs2|exact (mr_mono _ _ _ _ _ F2 G4)|by eapply flushed_empty|apply (modified_ok _ _ _ _ true (T2 (Some 0%nat)))|done]|].
  intros [[e' r2] t2] s3 (K1 & K2 & -> & K4 & K5 & _). cbn [fst snd app] in *. rewrite decide_True by done. pose proof (fr_trans _ _ _ F02 K1) as F03. pose proof (fr_ok _ _ F03 Hs) as Hs3.
  assert (Htop : runs (if (1 <? mr_count t2) || negb (bool_decide (mr_pointers t2 = [])) then finish_root rq fuel t2 else mret (COUCHSTORE_SUCCESS, last_pointer t2)) s3
    (fun x s' => fr s3 s' /\ s'.(bt_user) = s3.(bt_user) /\ x.1 = COUCHSTORE_SUCCESS /\
       match x.2 with None => l = [] | Some p => exists h', pointer_ok (red := red) (c0 := c0) s' h' p l end)).
  { destruct (top_run fuel s3 0%nat t2 l Hs3 K4 K5 Hg Hf) as (x & s4 & Hx & L). exists x, s4. split; [|exact L]. destruct (_ || _); [|done].
    apply run_bind_Some in Hx as (y & s5 & Hy & [= <- <-]). rewrite Hy. destruct (decide (y.1 = COUCHSTORE_SUCCESS)) as [?|Hne]; [done|].
    cbn [fst snd] in L. by destruct L as (_ & _ & L & _). }
  run. eapply runs_mono; [exact Htop|]. intros [e2 [p|]] s4 (L1 & L2 & L3 & L4); cbn [fst snd] in *; subst e2; rewrite decide_True by done; pose proof (fr_trans _ _ _ F03 L1) as F04.
  - run. eapply runs_mono; [eapply copy_run; by eapply fr_ok|]. intros c s5 (n & -> & M1 & M2 & M3). run. cbn [fst snd]. split; [done|]. split; [congruence|].
    destruct L4 as (h & (E1 & E2 & E3) & Ht & _). destruct F04 as (F1 & F2' & _). split; [by eapply grows_trans|]. split.
    + intros Hl. pose proof M1 as (_ & Q1 & Q2). destruct (Ht ltac:(lia)) as [Hfit Htr]. exists h. split; [done|]. by eapply tree_mono.
    + right. split; [done|]. exists n. split; [done|]. apply (balanced_grown _ _ _ _ F2' M2).
  - run. split; [done|]. split; [congruence|]. destruct F04 as (F1 & F2' & _). by split.
Qed.
End correct.
