(* ===== verification/Reduces.v ===== *)
(** * Comparisons and reductions of the database trees ([couchstore/src/util.cc],
      [reduces.cc])

    A database has a tree by document id and a tree by sequence number. They compare keys
    as byte strings and as numbers, and their nodes carry the number of documents below
    them. *)
From Stdlib Require Import ZArith Lia.
From stdpp Require Import strings gmap prelude.
From S2P Require Import Prelude Bitfield ViewCodec NodeTypes Btree BtreeSpec BtreeRep.

#[local] Set Warnings "-clear-no-such-hyp".

(** ** Comparisons *)

(** The first [n] bytes; only the sign of the result is specified. *)
Fixpoint memcmp (a b : list Z) (n : nat) : Z :=
  match n, a, b with
  | S n', x :: a', y :: b' => if x <? y then -1 else if y <? x then 1 else memcmp a' b' n'
  | _, _, _ => 0
  end.

Definition ebin_cmp (e1 e2 : list Z) : Z :=
  let size := if len e2 <? len e1 then len e2 else len e1 in
  let cmp := memcmp e1 e2 (Z.to_nat size) in
  if cmp =? 0 then
    if size <? len e2 then -1 else if size <? len e1 then 1 else cmp
  else cmp.

Definition seq_cmp (k1 k2 : list Z) : Z :=
  let e1val := decode_sequence_key k1 in
  let e2val := decode_sequence_key k2 in
  if e1val =? e2val then 0 else if e1val <? e2val then -1 else 1.

(** ** Reductions *)

(** The structures are [raw_by_seq_reduce] and [raw_by_id_reduce]. *)
Definition by_seq_reduce (leaflist : list nodelist) (count : Z) : couchstore_error_t + list Z := inr (couchstore_encode_raw40 count).

(** A loop over the first [count] items that adds to a [uint64_t]. All items of an inner
    node have pointers. *)
Fixpoint sum_items (f : nodelist -> Z) (items : list nodelist) (count : Z) (total : Z) : Z :=
  match items with
  | i :: items' => if 0 <? count then sum_items f items' (count - 1) (u64 (total + f i)) else total
  | [] => total
  end.

Definition reduce_value (i : nodelist) : list Z := match i.(nl_pointer) with Some p => p.(np_reduce_value) | None => [] end.

Definition by_seq_rereduce (ptrlist : list nodelist) (count : Z) : couchstore_error_t + list Z :=
  inr (couchstore_encode_raw40 (sum_items (fun i => couchstore_decode_raw40p (take 5 (reduce_value i))) ptrlist count 0)).

Definition encode_by_id_reduce (notdeleted deleted size : Z) : list Z :=
  couchstore_encode_raw40 notdeleted ++ couchstore_encode_raw40 deleted ++ couchstore_encode_raw48 size.

Definition BP_DELETED_FLAG : Z := 0x800000000000.

(** The fields [bp] and [size] of a [raw_id_index_value]: a sequence number of six bytes,
    the size in four, the position with the flag in six. *)
Definition deleted_doc (value : list Z) : bool :=
  negb (Z.land (couchstore_decode_raw48p (take 6 (drop 10 value))) BP_DELETED_FLAG =? 0).
Definition doc_size (value : list Z) : Z := couchstore_decode_raw32 (take 4 (drop 6 value)).

Definition by_id_reduce (leaflist : list nodelist) (count : Z) : couchstore_error_t + list Z :=
  inr (encode_by_id_reduce
         (sum_items (fun i => if deleted_doc i.(nl_data) then 0 else 1) leaflist count 0)
         (sum_items (fun i => if deleted_doc i.(nl_data) then 1 else 0) leaflist count 0)
         (sum_items (fun i => doc_size i.(nl_data)) leaflist count 0)).

Definition by_id_rereduce (ptrlist : list nodelist) (count : Z) : couchstore_error_t + list Z :=
  inr (encode_by_id_reduce
         (sum_items (fun i => couchstore_decode_raw40p (take 5 (reduce_value i))) ptrlist count 0)
         (sum_items (fun i => couchstore_decode_raw40p (take 5 (drop 5 (reduce_value i)))) ptrlist count 0)
         (sum_items (fun i => couchstore_decode_raw48p (take 6 (drop 10 (reduce_value i)))) ptrlist count 0)).

(** * Properties *)

(** ** The comparisons are orders *)

(** Byte strings in the order of dictionaries. *)
Fixpoint lex (a b : list Z) : Z :=
  match a, b with
  | [], [] => 0
  | [], _ => -1
  | _, [] => 1
  | x :: a', y :: b' => if x <? y then -1 else if y <? x then 1 else lex a' b'
  end.

Lemma ebin_cmp_lex a b : ebin_cmp a b = lex a b.
Proof.
  revert b. induction a as [|x a IH]; intros [|y b]; [done| | |].
  - unfold ebin_cmp, len. cbn [length]. change (Z.of_nat 0) with 0. rewrite (proj2 (Z.ltb_ge (Z.of_nat (S (length b))) 0)) by lia.
    by rewrite (proj2 (Z.ltb_lt 0 (Z.of_nat (S (length b))))) by lia.
  - unfold ebin_cmp, len. cbn [length]. change (Z.of_nat 0) with 0. by rewrite (proj2 (Z.ltb_lt 0 (Z.of_nat (S (length a))))) by lia.
  - cbn [lex]. rewrite <- IH. unfold ebin_cmp.
    assert (Hl : forall (z : Z) c, len (z :: c) = len c + 1) by (intros; unfold len; cbn [length]; lia). rewrite !Hl.
    replace (len b + 1 <? len a + 1) with (len b <? len a) by (destruct (Z.ltb_spec (len b) (len a)); symmetry; [apply Z.ltb_lt|apply Z.ltb_ge]; lia).
    set (n := if len b <? len a then len b else len a). replace (if len b <? len a then len b + 1 else len a + 1) with (n + 1) by (subst n; by destruct (_ <? _)).
    assert (Hn : 0 <= n) by (subst n; unfold len; destruct (_ <? _); lia). rewrite Z2Nat.inj_add, Nat.add_1_r by lia. cbn [memcmp].
    destruct (x <? y); [done|]. destruct (y <? x); [done|]. destruct (memcmp a b (Z.to_nat n) =? 0); [|done].
    replace (n + 1 <? len b + 1) with (n <? len b) by (destruct (Z.ltb_spec n (len b)); symmetry; [apply Z.ltb_lt|apply Z.ltb_ge]; lia).
    by replace (n + 1 <? len a + 1) with (n <? len a) by (destruct (Z.ltb_spec n (len a)); symmetry; [apply Z.ltb_lt|apply Z.ltb_ge]; lia).
Qed.

Lemma lex_refl a : lex a a = 0.
Proof. induction a as [|x a IH]; [done|]. cbn. by rewrite Z.ltb_irrefl. Qed.

Lemma lex_opp a b : lex b a = - lex a b.
Proof.
  revert b. induction a as [|x a IH]; intros [|y b]; [done..|]. cbn. rewrite IH.
  destruct (Z.ltb_spec x y), (Z.ltb_spec y x); (done || lia).
Qed.

Lemma lex_trans a b c : lex a b <= 0 -> lex b c <= 0 -> lex a c <= 0.
Proof.
  revert b c. induction a as [|x a IH]; intros [|y b] [|z c]; try (simpl; lia). cbn.
  destruct (Z.ltb_spec x y), (Z.ltb_spec y x), (Z.ltb_spec y z), (Z.ltb_spec z y), (Z.ltb_spec x z), (Z.ltb_spec z x); try lia. apply IH.
Qed.

#[global] Instance ebin_cmp_ok : CompareOk ebin_cmp.
Proof.
  constructor; intros *; rewrite ?ebin_cmp_lex; [apply lex_refl|rewrite (lex_opp a b); lia|apply lex_trans].
Qed.

#[global] Instance seq_cmp_ok : CompareOk seq_cmp.
Proof.
  assert (Hc : forall a b, (seq_cmp a b = -1 /\ decode_sequence_key a < decode_sequence_key b) \/ (seq_cmp a b = 0 /\ decode_sequence_key a = decode_sequence_key b) \/
                           (seq_cmp a b = 1 /\ decode_sequence_key b < decode_sequence_key a)).
  { intros a b. unfold seq_cmp. destruct (Z.eqb_spec (decode_sequence_key a) (decode_sequence_key b)); [lia|]. destruct (Z.ltb_spec (decode_sequence_key a) (decode_sequence_key b)); lia. }
  constructor.
  - intros a. pose proof (Hc a a). lia.
  - intros a b. pose proof (Hc a b). pose proof (Hc b a). lia.
  - intros a b c. pose proof (Hc a b). pose proof (Hc b c). pose proof (Hc a c). lia.
Qed.

(** ** The reductions count *)

Definition total {A} (f : A -> Z) (l : list A) : Z := foldr (fun x n => f x + n) 0 l.

Lemma total_app {A} (f : A -> Z) l m : total f (l ++ m) = total f l + total f m.
Proof. induction l as [|x l IH]; [done|]. simpl in *. lia. Qed.

Lemma total_ext {A B} (f : A -> Z) (g : B -> Z) (h : A -> B) l : (forall x, f x = g (h x)) -> total f l = total g (map h l).
Proof. intros He. induction l as [|x l IH]; [done|]. simpl. rewrite He. lia. Qed.

Lemma sum_items_total f its n t : (n <= length its)%nat -> sum_items f its (Z.of_nat n) t mod 2 ^ 64 = (t + total f (take n its)) mod 2 ^ 64.
Proof.
  revert n t. induction its as [|i its IH]; intros n t Hn; [simpl in Hn; replace n with 0%nat by lia; cbn; by rewrite Z.add_0_r|].
  destruct n as [|n]; [cbn; by rewrite Z.add_0_r|]. cbn [sum_items take]. rewrite (proj2 (Z.ltb_lt _ _)) by lia.
  replace (Z.of_nat (S n) - 1) with (Z.of_nat n) by lia. rewrite IH by (simpl in Hn; lia). unfold u64, wrap. rewrite Z.add_mod_idemp_l by lia. f_equal. simpl. lia.
Qed.

Lemma mod_mod_le a b k : a mod 2 ^ 64 = b mod 2 ^ 64 -> 0 <= k <= 64 -> a mod 2 ^ k = b mod 2 ^ k.
Proof.
  intros He Hk. assert (Hd : (2 ^ k | 2 ^ 64)) by (exists (2 ^ (64 - k)); rewrite <- Z.pow_add_r by lia; f_equal; lia).
  by rewrite <- (Z.mod_mod_divide a _ _ Hd), He, (Z.mod_mod_divide b _ _ Hd).
Qed.

Lemma encode40_mod a b : a mod 2 ^ 40 = b mod 2 ^ 40 -> couchstore_encode_raw40 a = couchstore_encode_raw40 b.
Proof.
  intros He. rewrite !encode40. rewrite (Z.div_mod a (2 ^ 40)), (Z.div_mod b (2 ^ 40)) by lia. rewrite He, !(Z.mul_comm (2 ^ 40)).
  by rewrite !(be_bytes_add_high 5 5) by lia.
Qed.

Lemma encode48_mod a b : a mod 2 ^ 48 = b mod 2 ^ 48 -> couchstore_encode_raw48 a = couchstore_encode_raw48 b.
Proof.
  intros He. unfold couchstore_encode_raw48. rewrite !ENCODE_RAW_bytes by lia. rewrite (Z.div_mod a (2 ^ 48)), (Z.div_mod b (2 ^ 48)) by lia. rewrite He, !(Z.mul_comm (2 ^ 48)).
  by rewrite !(be_bytes_add_high 6 6) by lia.
Qed.

(** The number of contents in a reduction of the tree by sequence. *)
Definition seq_reduction (l : list kv) : list Z := couchstore_encode_raw40 (Z.of_nat (length l)).

(** Live documents, deleted documents and the size of all documents, in a reduction of the
    tree by id. *)
Definition id_reduction (l : list kv) : list Z :=
  encode_by_id_reduce (total (fun x => if deleted_doc x.2 then 0 else 1) l) (total (fun x => if deleted_doc x.2 then 1 else 0) l)
    (total (fun x => doc_size x.2) l).

Lemma decode40_mod v rest : couchstore_decode_raw40p (take 5 (couchstore_encode_raw40 v ++ rest)) = v mod 2 ^ 40.
Proof.
  rewrite encode40, take_app_length' by (by rewrite be_bytes_length). unfold couchstore_decode_raw40p. by rewrite DECODE_RAW_val, be_val_bytes.
Qed.

Lemma decode48_mod v rest : couchstore_decode_raw48p (take 6 (couchstore_encode_raw48 v ++ rest)) = v mod 2 ^ 48.
Proof.
  unfold couchstore_encode_raw48, couchstore_decode_raw48p. rewrite ENCODE_RAW_bytes by lia. rewrite take_app_length' by (by rewrite be_bytes_length).
  by rewrite DECODE_RAW_val, be_val_bytes.
Qed.

(** Sums of parts that were cut to [k] bits agree in [k] bits with the sum of all. *)
Lemma rereduce_total (get : list Z -> Z) (red : list kv -> list Z) (f : kv -> Z) k its ls n : 0 <= k <= 64 ->
  (forall l, get (red l) = total f l mod 2 ^ k) -> (n <= length its)%nat ->
  Forall2 (fun i l => exists p, i.(nl_pointer) = Some p /\ p.(np_reduce_value) = red l) (take n its) ls ->
  sum_items (fun i => get (reduce_value i)) its (Z.of_nat n) 0 mod 2 ^ k = total f (concat ls) mod 2 ^ k.
Proof.
  intros Hk Hget Hn Hls. pose proof (sum_items_total (fun i => get (reduce_value i)) its n 0 Hn) as Hs. rewrite (mod_mod_le _ _ k Hs Hk), Z.add_0_l.
  clear Hs Hn. induction Hls as [|i l its' ls' (p & Hp & Hr) _ IH]; [done|]. simpl. rewrite total_app. unfold reduce_value at 1. rewrite Hp, Hr, Hget.
  rewrite Z.add_mod_idemp_l by (apply Z.pow_nonzero; lia). rewrite Z.add_mod, IH, <- Z.add_mod by (apply Z.pow_nonzero; lia). done.
Qed.

Lemma length_total {A} (l : list A) : Z.of_nat (length l) = total (fun _ => 1) l.
Proof. induction l as [|x l IH]; [done|]. simpl in *. lia. Qed.

#[global] Instance by_seq_reduce_ok {U} (rq : couchfile_modify_request U) :
  rq.(rq_reduce) = Some by_seq_reduce -> rq.(rq_rereduce) = Some by_seq_rereduce -> ReduceOk rq seq_reduction 5.
Proof.
  intros H1 H2. constructor.
  - intros l. unfold seq_reduction. rewrite encode40. unfold len. by rewrite be_bytes_length.
  - done.
  - intros res n Ht Hn. unfold reduce_node. rewrite Ht, H1. cbn. unfold by_seq_reduce, seq_reduction. by rewrite length_map, length_take, Nat.min_l by done.
  - intros res n ls Ht Hn Hls. unfold reduce_node. rewrite Ht, H2. cbn. unfold by_seq_rereduce. f_equal. apply encode40_mod.
    rewrite length_total. apply (rereduce_total (fun r => couchstore_decode_raw40p (take 5 r)) seq_reduction (fun _ => 1) 40); [lia| |done..].
    intros l. unfold seq_reduction. rewrite <- (app_nil_r (couchstore_encode_raw40 _)), decode40_mod. by rewrite length_total.
Qed.

#[global] Instance by_id_reduce_ok {U} (rq : couchfile_modify_request U) :
  rq.(rq_reduce) = Some by_id_reduce -> rq.(rq_rereduce) = Some by_id_rereduce -> ReduceOk rq id_reduction 16.
Proof.
  assert (L5 : forall v, length (couchstore_encode_raw40 v) = 5%nat) by (intros v; by rewrite encode40, be_bytes_length).
  assert (L6 : forall v, length (couchstore_encode_raw48 v) = 6%nat) by (intros v; unfold couchstore_encode_raw48; rewrite ENCODE_RAW_bytes by lia; by rewrite be_bytes_length).
  assert (Hsum : forall f its n k, (n <= length its)%nat -> 0 <= k <= 64 -> sum_items (fun i => f i.(nl_data)) its (Z.of_nat n) 0 mod 2 ^ k =
            total (fun x : kv => f x.2) (map (fun i => (i.(nl_key), i.(nl_data))) (take n its)) mod 2 ^ k).
  { intros f its n k Hn Hk. rewrite (mod_mod_le _ _ k (sum_items_total _ _ _ 0 Hn) Hk), Z.add_0_l. f_equal. by apply total_ext. }
  intros H1 H2. constructor.
  - intros l. unfold id_reduction, encode_by_id_reduce. rewrite !len_app. unfold len. by rewrite !L5, L6.
  - done.
  - intros res n Ht Hn. unfold reduce_node. rewrite Ht, H1. cbn [Z.eqb]. change (KV_NODE =? KV_NODE) with true. cbv iota. unfold by_id_reduce, id_reduction, encode_by_id_reduce. do 2 f_equal; [|f_equal].
    + apply encode40_mod. apply (Hsum (fun d => if deleted_doc d then 0 else 1)); [done|lia].
    + apply encode40_mod. apply (Hsum (fun d => if deleted_doc d then 1 else 0)); [done|lia].
    + apply encode48_mod. apply (Hsum doc_size); [done|lia].
  - intros res n ls Ht Hn Hls. unfold reduce_node. rewrite Ht, H2. change (KP_NODE =? KV_NODE) with false. cbv iota. unfold by_id_rereduce, id_reduction at 1, encode_by_id_reduce. do 2 f_equal; [|f_equal].
    + apply encode40_mod. apply (rereduce_total (fun r => couchstore_decode_raw40p (take 5 r)) id_reduction); [lia| |done..].
      intros l. unfold id_reduction, encode_by_id_reduce. by rewrite decode40_mod.
    + apply encode40_mod. apply (rereduce_total (fun r => couchstore_decode_raw40p (take 5 (drop 5 r))) id_reduction); [lia| |done..].
      intros l. unfold id_reduction, encode_by_id_reduce. rewrite drop_app_length' by (by rewrite L5). by rewrite decode40_mod.
    + apply encode48_mod. apply (rereduce_total (fun r => couchstore_decode_raw48p (take 6 (drop 10 r))) id_reduction); [lia| |done..].
      intros l. unfold id_reduction, encode_by_id_reduce. rewrite app_assoc, drop_app_length' by (by rewrite length_app, !L5).
      by rewrite <- (app_nil_r (couchstore_encode_raw48 _)), decode48_mod.
Qed.
