(* ===== verification/BtreeLookup.v ===== *)
(** * Lookups in B+trees

    A lookup of one key calls the callback with the item of the tree that has the key, or
    with none; a fold from a key calls it with all items from the key on, in order, until
    it returns an error. *)
From Stdlib Require Import ZArith Lia Sorted.
From stdpp Require Import strings gmap prelude sorting.
From S2P Require Import Prelude Bitfield ViewCodec Snappy NodeTypes Crc CouchFile Btree BtreeSpec BtreeRep BtreeWrite BtreeModify.

#[local] Set Warnings "-clear-no-such-hyp".

Section answer.
Context {U : Type} (rq : couchfile_lookup_request U).
Implicit Types (l m : list kv) (u : U).

(** The callback for all items of a list, until it fails. *)
Fixpoint fold_items l u : couchstore_error_t * U :=
  match l with
  | [] => (COUCHSTORE_SUCCESS, u)
  | x :: l' =>
      let '(e, u') := rq.(lk_fetch_callback) x.1 (Some x.2) u in
      if decide (e = COUCHSTORE_SUCCESS) then fold_items l' u' else (e, u')
  end.

(** The items from a key on. *)
Definition from (k : list Z) l : list kv := filter (fun x => 0 <= lookup_compare rq x.1 k) l.

(** The callback for the item with the key. *)
Definition lookup_item (k : list Z) l u : couchstore_error_t * U :=
  match List.find (fun x => lookup_compare rq x.1 k =? 0) l with
  | Some x => rq.(lk_fetch_callback) x.1 (Some x.2) u
  | None => rq.(lk_fetch_callback) k None u
  end.

(** What a request with one key gives, with and without the flag [fold]. *)
Definition answer (fold : bool) (k : list Z) l u : couchstore_error_t * U :=
  if fold then fold_items (from k l) u else lookup_item k l u.

Context `{COK : !CompareOk rq.(lk_compare)}.
Abbreviation cmp := (lk_compare rq).

(** Keys in the tree are not empty. *)
Definition has_key (x : kv) : Prop := x.1 <> [].

Lemma nonempty_len (z : list Z) : z <> [] -> (len z =? 0) = false.
Proof. destruct z as [|z0 z]; [done|]. intros _. apply Z.eqb_neq. unfold len. cbn [length]. lia. Qed.

Lemma above_key k x y : x <> [] -> y <> [] -> klt cmp x y -> 0 <= lookup_compare rq x k -> 0 < lookup_compare rq y k.
Proof.
  intros Hx Hy Hlt. unfold lookup_compare. rewrite (nonempty_len x), (nonempty_len y) by done. cbn [orb]. destruct (len k =? 0); [simpl; lia|]. intros Hc.
  apply cmp_antisym. apply (kle_lt_trans cmp _ x); [|done]. destruct (kle_lt_dec cmp k x) as [?|Hlt']; [done|]. unfold klt in Hlt'. lia.
Qed.

Lemma below_key k x y : x <> [] -> y <> [] -> klt cmp x y \/ x = y -> lookup_compare rq y k < 0 -> lookup_compare rq x k < 0.
Proof.
  intros Hx Hy [Hlt| ->]; [|done]. intros Hc. destruct (Z.lt_ge_cases (lookup_compare rq x k) 0) as [?|Hge]; [done|].
  pose proof (above_key k x y Hx Hy Hlt Hge). lia.
Qed.

(** ** Lists that are put together *)

Lemma fold_items_app l m u : fold_items (l ++ m) u =
  let '(e, u') := fold_items l u in if decide (e = COUCHSTORE_SUCCESS) then fold_items m u' else (e, u').
Proof.
  revert u. induction l as [|x l IH]; intros u; [done|]. cbn [app fold_items]. destruct (lk_fetch_callback rq x.1 (Some x.2) u) as [e u'] eqn:He.
  destruct (decide (e = COUCHSTORE_SUCCESS)); [apply IH|]. by rewrite decide_False.
Qed.

Lemma answer_below fold k l m u : Forall (fun x => lookup_compare rq x.1 k < 0) l -> answer fold k (l ++ m) u = answer fold k m u.
Proof.
  intros Hl. unfold answer. destruct fold.
  - unfold from. rewrite filter_app. assert (Hn : filter (fun x : kv => 0 <= lookup_compare rq x.1 k) l = []); [|by rewrite Hn].
    induction Hl as [|x l Hx _ IH]; [done|]. rewrite filter_cons, decide_False by lia. done.
  - unfold lookup_item. induction Hl as [|x l Hx _ IH]; [done|]. cbn [app List.find]. by rewrite (proj2 (Z.eqb_neq _ _)) by lia.
Qed.

(** The item with the key is not behind the first one that is not below it. *)
Lemma lookup_item_app k l m u : Forall (fun x => 0 < lookup_compare rq x.1 k) m -> lookup_item k (l ++ m) u = lookup_item k l u.
Proof.
  intros Hm. unfold lookup_item. assert (Hn : List.find (fun x : kv => lookup_compare rq x.1 k =? 0) m = None).
  { induction Hm as [|x m Hx _ IH]; [done|]. cbn [List.find]. by rewrite (proj2 (Z.eqb_neq _ _)) by lia. }
  induction l as [|x l IH]; cbn [app List.find]; [by rewrite Hn|]. by destruct (_ =? 0).
Qed.
End answer.

Section lookup.
Context {F U : Type} `{FileOpsOk F} `{Alloc} `{Snappy} {SOK : SnappyOk}.
Context {V : Type} {rqm : couchfile_modify_request V} {red : list kv -> list Z} {rmax : Z} {ROK : ReduceOk rqm red rmax}.
Context {rq : couchfile_lookup_request U} `{COK : !CompareOk rq.(lk_compare)}.
Context (Hrel : ops_reliable) (Hmal : malloc_total).
Context {k : list Z} (Hkeys : rq.(lk_keys) = [k]) (Hnode : rq.(lk_node_callback) = None).
Implicit Types (s : lookup_state F U) (l m : list kv).

Abbreviation cmp := (lk_compare rq).
Abbreviation ldata s := (ops_data (tf_handle (ls_file s))).
Abbreviation lpos s := (tf_pos (ls_file s)).
Abbreviation lmem s := (tf_mem (ls_file s)).

Definition ls_ok s : Prop := ops_ok (tf_handle (ls_file s)) /\ mem_ok (lmem s).

(** The file is unchanged and nothing was leaked. *)
Definition lr s s' : Prop := reads (ls_file s) (ls_file s') /\ balanced (lmem s) (lmem s').

Lemma lr_refl s : ls_ok s -> lr s s.
Proof. intros [Ho Hm]. split; [done|by apply balanced_refl]. Qed.

Lemma lr_trans s s' s'' : lr s s' -> lr s' s'' -> lr s s''.
Proof.
  intros [(R1 & R2 & R3) [_ B2]] [(R4 & R5 & R6) [B3 B4]]. split; [split; [done|split; congruence]|]. split; [done|congruence].
Qed.

Lemma lr_ok s s' : lr s s' -> ls_ok s'.
Proof. intros [(R & _) [B _]]. by split. Qed.

(** The flags of a request: without [fold] it is never in a fold. *)
Definition flags (fold : bool) s : Prop := s.(ls_fold) = fold /\ (fold = false -> s.(ls_in_fold) = false).

(** The callback was called as it should be for the contents [l]. *)
Definition answered (fold : bool) s l (e : couchstore_error_t) s' : Prop :=
  lr s s' /\ (e, s'.(ls_user)) = answer rq fold k l s.(ls_user) /\
  (e = COUCHSTORE_SUCCESS -> flags fold s' /\ (s.(ls_in_fold) = true -> s'.(ls_in_fold) = true)).

(** What follows the loop over a node. *)
Abbreviation rest := (fun r : couchstore_error_t * Z => if decide (r.1 = COUCHSTORE_SUCCESS) then lookup_rest rq 1 r.2 1 else mret r.1).

Lemma callback_run (f : U -> couchstore_error_t * U) s (Q : couchstore_error_t -> lookup_state F U -> Prop) :
  Q (f s.(ls_user)).1 (mk_ls s.(ls_file) (f s.(ls_user)).2 s.(ls_fold) s.(ls_in_fold)) -> runs (callback f) s Q.
Proof. intros HQ. unfold callback. destruct (f (ls_user s)) as [e u] eqn:He. eexists _, _. split; [by rewrite He|]. exact HQ. Qed.

Lemma key_at_run s (Q : list Z -> lookup_state F U -> Prop) : Q k s -> runs (key_at rq 0) s Q.
Proof. intros HQ. unfold key_at. rewrite Hkeys. by run. Qed.

Lemma user_lr s u b1 b2 : ls_ok s -> lr s (mk_ls s.(ls_file) u b1 b2).
Proof. intros Hs. by apply lr_refl in Hs. Qed.

(** No item is left: the key is not in the tree. *)
Lemma rest_none_run fold s : ls_ok s -> flags fold s -> runs (rest (COUCHSTORE_SUCCESS, 0)) s (fun e s' => answered fold s [] e s').
Proof.
  intros Hs [Hf Hi]. cbn [fst snd]. rewrite decide_True by done. cbn [lookup_rest]. run. rewrite Hf. change (1 <=? 0) with false. cbn [orb]. destruct fold.
  - run. split; [by apply lr_refl|]. done.
  - run. apply key_at_run. run. apply callback_run. set (r := lk_fetch_callback rq k None (ls_user s)). set (s1 := mk_ls _ _ _ _).
    assert (Ha : answered false s [] r.1 s1).
    { split; [by apply user_lr|]. split; [unfold answer, lookup_item; cbn [List.find]; apply eq_sym, surjective_pairing|]. intros _. by split. }
    destruct (decide (r.1 = COUCHSTORE_SUCCESS)) as [He|He]; [|by run]. run. rewrite Z.leb_refl. cbn [orb]. run. by rewrite <- He.
Qed.

(** The request is answered: nothing follows. *)
Lemma rest_done_run s e (Q : couchstore_error_t -> lookup_state F U -> Prop) : Q e s -> runs (rest (e, 1)) s Q.
Proof. intros HQ. cbn [fst snd]. destruct (decide (e = _)) as [->|?]; [|by run]. cbn [lookup_rest]. run. cbn. by run. Qed.

(** ** Leaves *)

(** An item below the key is passed over. *)
Lemma answered_below fold s m l e s' : Forall (fun x => lookup_compare rq x.1 k < 0) m -> answered fold s l e s' -> answered fold s (m ++ l) e s'.
Proof. intros Hx (A1 & A2 & A3). split; [done|]. split; [|done]. by rewrite answer_below. Qed.

(** The first item that is not below the key ends a lookup without [fold]. *)
Lemma answered_item s x l (e : couchstore_error_t) u : has_key x -> Forall has_key l -> Forall (fun y => klt cmp x.1 y.1) l ->
  0 <= lookup_compare rq x.1 k ->
  (e, u) = (if lookup_compare rq x.1 k =? 0 then rq.(lk_fetch_callback) x.1 (Some x.2) s.(ls_user) else rq.(lk_fetch_callback) k None s.(ls_user)) ->
  ls_ok s -> flags false s -> answered false s (x :: l) e (mk_ls s.(ls_file) u s.(ls_fold) s.(ls_in_fold)).
Proof.
  intros Hx Hl Hlt Hge He Hs [Hf Hi]. split; [by apply user_lr|]. cbn [ls_user]. split; [|done]. rewrite He. unfold answer, lookup_item. cbn [List.find].
  destruct (lookup_compare rq x.1 k =? 0) eqn:Hz; [done|]. assert (Hn : List.find (fun y : kv => lookup_compare rq y.1 k =? 0) l = None); [|by rewrite Hn].
  clear -Hx Hl Hlt Hge COK. induction l as [|y l IH]; [done|]. apply Forall_cons in Hl as [Hy Hl]. apply Forall_cons in Hlt as [Hxy Hlt]. cbn [List.find].
  pose proof (above_key rq k _ _ Hx Hy Hxy Hge). rewrite (proj2 (Z.eqb_neq _ _)) by lia. by apply IH.
Qed.

(** An item in a fold. *)
Lemma answered_fold s s1 x l (e : couchstore_error_t) u : 0 <= lookup_compare rq x.1 k -> lr s s1 -> s1.(ls_user) = s.(ls_user) ->
  (e, u) = rq.(lk_fetch_callback) x.1 (Some x.2) s.(ls_user) ->
  (e <> COUCHSTORE_SUCCESS -> answered true s (x :: l) e (mk_ls s1.(ls_file) u s1.(ls_fold) s1.(ls_in_fold))) /\
  (e = COUCHSTORE_SUCCESS -> (s.(ls_in_fold) = true -> s1.(ls_in_fold) = true) -> forall e' s2,
     answered true (mk_ls s1.(ls_file) u s1.(ls_fold) s1.(ls_in_fold)) l e' s2 -> answered true s (x :: l) e' s2).
Proof.
  intros Hge Hlr Hu He. assert (Ha : answer rq true k (x :: l) (ls_user s) = if decide (e = COUCHSTORE_SUCCESS) then answer rq true k l u else (e, u)).
  { unfold answer, from. rewrite filter_cons, decide_True by done. cbn [fold_items]. by rewrite <- He. }
  split.
  - intros Hne. rewrite decide_False in Ha by done. split; [done|]. by rewrite Ha.
  - intros Hs Hin e' s2 (A1 & A2 & A3). rewrite decide_True in Ha by done. split; [by eapply lr_trans|]. split; [by rewrite Ha|]. intros He'. destruct (A3 He') as [A4 A5].
    split; [done|]. intros Hi. by apply A5, Hin.
Qed.

Lemma leaf_lookup_run fold l : forall fuel s kv0, (length (kv_bytes l) <= fuel)%nat -> ls_ok s -> flags fold s -> Forall kv_ok l -> Forall has_key l -> sorted cmp l ->
  runs (lookup_kv rq fuel (kv_bytes l) true kv0 0 1) s (fun r s' => runs (rest r) s' (fun e s2 => answered fold s l e s2)).
Proof.
  induction l as [|x l IH]; intros fuel s kv0 Hfu Hs Hfl Hk Hh Hso.
  { destruct fuel; cbn [lookup_kv kv_bytes map concat]; rewrite bool_decide_eq_true_2 by done; cbn [orb]; run; by apply rest_none_run. }
  destruct (kv_bytes_cons x l) as (b & bs & Hb & Hlen). apply Forall_cons in Hk as [Hk1 Hk]. apply Forall_cons in Hh as [Hh1 Hh]. apply StronglySorted_inv in Hso as [Hso Hlt].
  destruct (read_kv_step x l Hk1) as [Hr Hd]. destruct fuel as [|fuel]; [rewrite Hb in Hfu; simpl in Hfu; lia|]. cbn [lookup_kv].
  rewrite (bool_decide_eq_false_2 (kv_bytes (x :: l) = [])) by (by rewrite Hb). cbn [orb]. change (1 <=? 0) with false. cbv iota. run; [exact Hr|]. cbn [fst snd]. rewrite Hd.
  apply key_at_run. run. unfold id. change (0 + 1 <? 1) with false. rewrite andb_false_r. destruct x as [xk xv]. cbn [fst snd] in *.
  assert (Hfuel : (length (kv_bytes l) <= fuel)%nat) by lia. destruct Hfl as [Hf Hi].
  destruct (Z.leb_spec 0 (lookup_compare rq xk k)) as [Hge|Hneg]; cbn [andb].
  2:{ run. eapply runs_mono; [by apply IH|]. intros r s1 G. eapply runs_mono; [exact G|]. intros e s2 A. by apply (answered_below fold s [(xk, xv)] l); [constructor|]. }
  destruct fold; rewrite Hf; cbn [andb].
  - assert (Hgo : forall s1, lr s s1 -> s1.(ls_user) = s.(ls_user) -> s1.(ls_fold) = true -> s1.(ls_in_fold) = true ->
      runs (in_fold ← gets ls_in_fold; errcode ← (if (lookup_compare rq xk k =? 0) || in_fold then fetch_callback rq xk (Some xv) else key ← key_at rq 0; fetch_callback rq key None);
            if decide (errcode = COUCHSTORE_SUCCESS) then if negb in_fold then lookup_kv rq fuel (kv_bytes l) (lookup_compare rq xk k =? 0) (xk, xv) (0 + 1) 1
            else lookup_kv rq fuel (kv_bytes l) true (xk, xv) 0 1 else mret (errcode, 0)) s1
        (fun r s' => runs (rest r) s' (fun e s2 => answered true s ((xk, xv) :: l) e s2))).
    { intros s1 Hlr Hu Hf1 Hi1. run. rewrite Hi1, orb_true_r. run. apply callback_run. rewrite Hu. destruct (lk_fetch_callback rq xk (Some xv) (ls_user s)) as [e u] eqn:He. cbn [fst snd].
      destruct (answered_fold s s1 (xk, xv) l e u Hge Hlr Hu (eq_sym He)) as [Aerr Aok]. destruct (decide (e = COUCHSTORE_SUCCESS)) as [He'|He'].
      - eapply runs_mono; [apply IH; [done| | |done..]|].
        + by apply (lr_ok s).
        + by split.
        + intros r s2 G. eapply runs_mono; [exact G|]. intros e2 s3 A. by apply Aok.
      - run. cbn [fst snd]. rewrite decide_False by done. run. by apply Aerr. }
    destruct (ls_in_fold s) eqn:Hin; cbn [negb andb].
    + apply runs_ret. by apply Hgo; [apply lr_refl|..].
    + apply runs_bind, runs_modify, runs_ret. by apply Hgo; [apply user_lr|..].
  - run. rewrite Hi by done. rewrite orb_false_r. cbn [negb].
    destruct (if lookup_compare rq xk k =? 0 then lk_fetch_callback rq xk (Some xv) (ls_user s) else lk_fetch_callback rq k None (ls_user s)) as [e u] eqn:He.
    pose proof (answered_item s (xk, xv) l e u Hh1 Hh Hlt Hge (eq_sym He) Hs (conj Hf Hi)) as Ha.
    assert (Hend : runs (if decide (e = COUCHSTORE_SUCCESS) then lookup_kv rq fuel (kv_bytes l) (lookup_compare rq xk k =? 0) (xk, xv) (0 + 1) 1 else mret (e, 0))
      (mk_ls s.(ls_file) u s.(ls_fold) s.(ls_in_fold)) (fun r s' => runs (rest r) s' (fun e s2 => answered false s ((xk, xv) :: l) e s2))).
    { destruct (decide (e = COUCHSTORE_SUCCESS)) as [->|He'].
      - destruct fuel; cbn [lookup_kv]; change (1 <=? 0 + 1) with true; rewrite orb_true_r; run; by apply rest_done_run.
      - run. cbn [fst snd]. rewrite decide_False by done. by run. }
    destruct (lookup_compare rq xk k =? 0); run.
    + apply callback_run. rewrite He. exact Hend.
    + apply key_at_run. run. apply callback_run. rewrite He. exact Hend.
Qed.

(** ** Inner nodes *)

Abbreviation child_ok := (child_ok (red := red)).

Lemma answered_app s m l e s1 : answered true s m e s1 ->
  (e <> COUCHSTORE_SUCCESS -> answered true s (m ++ l) e s1) /\
  (e = COUCHSTORE_SUCCESS -> forall e' s2, answered true s1 l e' s2 -> answered true s (m ++ l) e' s2).
Proof.
  intros (A1 & A2 & A3). assert (Ha : answer rq true k (m ++ l) (ls_user s) = if decide (e = COUCHSTORE_SUCCESS) then answer rq true k l (ls_user s1) else (e, ls_user s1)).
  { unfold answer, from in *. by rewrite filter_app, fold_items_app, <- A2. }
  split.
  - intros He. rewrite decide_False in Ha by done. split; [done|]. by rewrite Ha.
  - intros He e' s2 (K1 & K2 & K3). rewrite decide_True in Ha by done. destruct (A3 He) as [_ A4]. split; [by eapply lr_trans|]. split; [by rewrite Ha|].
    intros He'. destruct (K3 He') as [K4 K5]. split; [done|]. intros Hi. by apply K5, A4.
Qed.

(** All keys of a child are below the key when its last one is. *)
Lemma child_below m l key : sorted cmp (m ++ l) -> ends m key -> Forall has_key m -> lookup_compare rq key k < 0 -> Forall (fun x => lookup_compare rq x.1 k < 0) m.
Proof.
  intros Hso (m' & v & ->)%ends_last Hh Hlt. apply sorted_app in Hso as (Hso & _ & _). apply sorted_app in Hso as (_ & _ & Hm).
  apply Forall_app in Hh as [Hh1 Hh2]. apply Forall_cons in Hh2 as [Hh2 _]. apply Forall_app. split; [|by constructor].
  rewrite Forall_forall in *. intros x Hx. eapply (below_key rq k x.1 key); [by apply Hh1|done| |done]. left. specialize (Hm x Hx). by apply Forall_cons in Hm as [Hm _].
Qed.

Lemma child_above m l key : sorted cmp (m ++ l) -> ends m key -> Forall has_key m -> Forall has_key l -> 0 <= lookup_compare rq key k ->
  Forall (fun x => 0 < lookup_compare rq x.1 k) l.
Proof.
  intros Hso He Hm Hl Hge. destruct (ends_bounds m l key Hso He) as [_ Hb]. apply ends_last in He as (m' & v & ->). apply Forall_app in Hm as [_ Hm]. apply Forall_cons in Hm as [Hm _].
  rewrite Forall_forall in *. intros x Hx. apply (above_key rq k key); [done|by apply Hl|by apply Hb|done].
Qed.

Lemma lookup_child_run inner p s (Q : couchstore_error_t -> lookup_state F U -> Prop) : fits48 p.(np_pointer) ->
  runs (inner p.(np_pointer) 0 1) s Q -> runs (lookup_child rq inner (raw_node_pointer p) 0 1) s Q.
Proof.
  intros Hf HQ. unfold lookup_child, node_callback. rewrite Hnode. cbv zeta. run; [|done|].
  - apply Z.leb_le. rewrite raw_pointer_length. unfold sizeof_raw_node_pointer, len. lia.
  - rewrite decide_True by done. unfold raw_node_pointer. by rewrite decode48.
Qed.

Lemma last_item_run key s (Q : Z -> lookup_state F U -> Prop) : Q 1 s -> runs (last_item_loop rq (Z.to_nat 1) key (0 + 1) 1) s Q.
Proof. intros HQ. by apply runs_ret. Qed.

Lemma inner_lookup_run fold inner cs d lim h : (forall c s1, c ∈ cs -> ls_ok s1 -> flags fold s1 -> ldata s1 = d -> lpos s1 = lim -> sorted cmp c.2 -> Forall has_key c.2 ->
      child_ok d lim h c -> runs (inner c.1.(np_pointer) 0 1) s1 (fun e s2 => answered fold s1 c.2 e s2)) ->
  forall fuel s, (length (kp_bytes (map fst cs)) <= fuel)%nat -> ls_ok s -> flags fold s -> ldata s = d -> lpos s = lim -> Forall (child_ok d lim h) cs ->
    Forall has_key (concat (map snd cs)) -> sorted cmp (concat (map snd cs)) ->
    runs (lookup_kp rq inner fuel (kp_bytes (map fst cs)) 0 1) s (fun r s' => runs (rest r) s' (fun e s2 => answered fold s (concat (map snd cs)) e s2)).
Proof.
  intros Hin. induction cs as [|[p m] cs IH]; intros fuel s Hfu Hs Hfl Hd Hlim Hcs Hh Hso.
  { destruct fuel; cbn [lookup_kp kp_bytes map concat]; rewrite bool_decide_eq_true_2 by done; cbn [orb]; run; by apply rest_none_run. }
  apply Forall_cons in Hcs as [Hc Hcs]. pose proof Hc as (He & Hf1 & _ & _). cbn [map fst snd concat] in *.
  destruct (read_kp_step p (map fst cs) m He) as [Hr Hdr]. destruct (kp_bytes_cons p (map fst cs)) as (b & bs & Hb & Hlen).
  destruct fuel as [|fuel]; [rewrite Hb in Hfu; simpl in Hfu; lia|]. cbn [lookup_kp]. rewrite (bool_decide_eq_false_2 (kp_bytes _ = [])) by (by rewrite Hb). cbn [orb].
  change (1 <=? 0) with false. cbv iota. run; [exact Hr|]. apply key_at_run. cbn [fst snd]. rewrite Hdr. apply Forall_app in Hh as [Hh1 Hh2].
  pose proof Hso as (So1 & So2 & _)%sorted_app. assert (Hfuel : (length (kp_bytes (map fst cs)) <= fuel)%nat) by lia.
  assert (Hrest : forall s1, lr s s1 -> flags fold s1 -> runs (lookup_kp rq inner fuel (kp_bytes (map fst cs)) 0 1) s1 (fun r s' => runs (rest r) s' (fun e s2 => answered fold s1 (concat (map snd cs)) e s2))).
  { intros s1 Hlr Hfl1. pose proof Hlr as [(_ & R2 & R3) _]. apply IH; [|done|by eapply lr_ok|done|congruence|congruence|done..].
    intros c s2 Hc2. apply Hin. by right. }
  destruct (Z.leb_spec 0 (lookup_compare rq (np_key p) k)) as [Hge|Hneg].
  2:{ eapply runs_mono; [by apply Hrest; [apply lr_refl|]|]. intros r s1 G. eapply runs_mono; [exact G|]. intros e s2 A. apply answered_below; [|done]. eapply child_below; [exact Hso|apply He|done..]. }
  run. destruct Hfl as [Hf Hi]. unfold id. rewrite Hf.
  assert (Hgo : forall s1, lr s s1 -> flags fold s1 -> s1.(ls_user) = s.(ls_user) -> s1.(ls_in_fold) = fold ->
    runs (last_item ← last_item_loop rq (Z.to_nat 1) (np_key p) (0 + 1) 1; errcode ← lookup_child rq inner (raw_node_pointer p) 0 last_item;
          if decide (errcode = COUCHSTORE_SUCCESS) then
            in_fold ← gets ls_in_fold; let current := if (in_fold : bool) then 0 else last_item in
            errcode ← node_callback rq 0 None; if decide (errcode = COUCHSTORE_SUCCESS) then lookup_kp rq inner fuel (kp_bytes (map fst cs)) current 1 else mret (errcode, current)
          else mret (errcode, 0)) s1 (fun r s' => runs (rest r) s' (fun e s2 => answered fold s (m ++ concat (map snd cs)) e s2))).
  { intros s1 Hlr Hfl1 Hu1 Hi1. pose proof Hlr as [(_ & R2 & R3) _]. apply runs_bind, last_item_run, runs_bind, lookup_child_run; [done|].
    eapply runs_mono; [apply (Hin (p, m) s1); [by left|by eapply lr_ok|done|congruence|congruence|done..]|]. cbn [fst snd].
    intros e s2 A. assert (A' : answered fold s m e s2).
    { destruct A as (A1 & A2 & A3). split; [by eapply lr_trans|]. split; [by rewrite A2, Hu1|]. intros He'. destruct (A3 He') as [A4 A5]. split; [done|].
      intros Hsi. apply A5. rewrite Hi1. destruct fold; [done|]. rewrite Hi in Hsi by done. done. }
    destruct fold.
    - destruct (answered_app s m (concat (map snd cs)) e s2 A') as [Aerr Aok]. destruct (decide (e = COUCHSTORE_SUCCESS)) as [He'|He'].
      + destruct A as (A1 & _ & A3). destruct (A3 He') as [A4 A5]. run. rewrite (A5 Hi1). unfold node_callback. rewrite Hnode. run. rewrite decide_True by done.
        eapply runs_mono; [apply Hrest; [by eapply lr_trans|done]|]. intros r s3 G. eapply runs_mono; [exact G|]. intros e2 s4 K. by apply Aok.
      + run. cbn [fst snd]. rewrite decide_False by done. run. by apply Aerr.
    - assert (Aall : answered false s (m ++ concat (map snd cs)) e s2).
      { destruct A' as (A1 & A2 & A3). split; [done|]. split; [|done]. rewrite A2. unfold answer. symmetry. apply lookup_item_app. eapply child_above; [exact Hso|apply He|done..]. }
      destruct (decide (e = COUCHSTORE_SUCCESS)) as [He'|He'].
      + destruct A as (A1 & _ & A3). destruct (A3 He') as [[_ A4] _]. run. rewrite (A4 eq_refl). unfold node_callback. rewrite Hnode. run. rewrite decide_True by done.
        destruct fuel; cbn [lookup_kp]; change (1 <=? 1) with true; rewrite orb_true_r; run; apply rest_done_run; by subst e.
      + run. cbn [fst snd]. rewrite decide_False by done. by run. }
  destruct fold.
  - apply runs_modify. by apply Hgo; [apply user_lr|..].
  - apply runs_ret. apply Hgo; [by apply lr_refl|done..|by apply Hi].
Qed.

(** ** Nodes *)

Lemma runs_from_file {A} (m : M (tree_file F) A) s (Q : A -> lookup_state F U -> Prop) :
  runs m s.(ls_file) (fun a f => Q a (mk_ls f s.(ls_user) s.(ls_fold) s.(ls_in_fold))) -> runs (from_file m) s Q.
Proof. intros (a & f & Hm & HQ). exists a. eexists. split; [unfold from_file; by rewrite Hm|exact HQ]. Qed.

(** The loop over a node and what follows it. *)
Abbreviation node_loop fuel bytes := (fun type : Z =>
  if type =? 0 then lookup_kp rq (btree_lookup_inner rq fuel) (length bytes) (tail bytes) 0 1
  else if type =? 1 then lookup_kv rq (length bytes + Z.to_nat 1) (tail bytes) true ([], []) 0 1
  else mret (COUCHSTORE_SUCCESS, 0)).

(** A node is read, looked through, and its buffer freed. *)
Lemma lookup_node_run fold fuel s pos type bytes l q : ls_ok s -> flags fold s -> node_at (ldata s) pos (type :: bytes) q ->
  (forall s1, ls_ok s1 -> flags fold s1 -> ldata s1 = ldata s -> lpos s1 = lpos s ->
     runs (node_loop fuel (type :: bytes) type) s1 (fun r s' => runs (rest r) s' (fun e s2 => answered fold s1 l e s2))) ->
  runs (btree_lookup_inner rq (S fuel) pos 0 1) s (fun e s' => answered fold s l e s').
Proof.
  intros [Ho Hm] Hfl Hn Hrun. cbn [btree_lookup_inner]. change (0 =? 1) with false. cbv iota. apply runs_bind, runs_from_file.
  eapply runs_mono; [by eapply pread_compressed_run|]. intros [e|[b bs]] f1 (R & G); [destruct G as (_ & G & _); by destruct (G Hrel Hmal)|]. destruct G as (-> & n & -> & G).
  apply runs_bind. eapply runs_of_option; [done|]. set (s1 := mk_ls f1 _ _ _). pose proof R as (R1 & R2 & R3).
  apply runs_bind. eapply runs_mono; [apply Hrun; [split; [done|apply G]|done..]|]. intros r s2 K. apply runs_bind. eapply runs_mono; [exact K|].
  intros e s3 ([(S1 & S2 & S3) B] & A2 & A3). apply runs_bind, runs_from_file, runs_mem. eapply (free_block_run n [] (lmem s)); [exact (grown_balanced _ _ _ _ G B)|].
  intros m Hb%grown_nil. apply runs_ret. split; [|done]. split; [|done]. split; [done|]. cbn [ls_file tf_handle tf_pos tf_mem s1] in *. split; congruence.
Qed.

Lemma lookup_inner_run fold h : forall fuel s pos l, (h < fuel)%nat -> ls_ok s -> flags fold s -> tree red (ldata s) (lpos s) h pos l -> sorted cmp l -> Forall has_key l ->
  runs (btree_lookup_inner rq fuel pos 0 1) s (fun e s' => answered fold s l e s').
Proof.
  induction h as [|h IH]; intros fuel s pos l Hfu Hs Hfl Ht Hso Hh; (destruct fuel as [|fuel]; [lia|]).
  - destruct Ht as (_ & Hk & Hn). eapply lookup_node_run; [done..|]. intros s1 Hs1 Hf1 _ _. apply leaf_lookup_run; [cbn [length]; lia|done..].
  - destruct Ht as (cs & _ & -> & Hn & Hcs). eapply lookup_node_run; [done..|]. intros s1 Hs1 Hf1 Hd Hp.
    eapply (inner_lookup_run fold _ cs (ldata s) (lpos s) h); [|cbn [length]; lia|done..].
    intros c s2 _ Hs2 Hf2 Hd2 Hp2 Hso2 Hh2 (_ & _ & _ & Htc). apply IH; [lia|done..| |done|done]. by rewrite Hd2, Hp2.
Qed.

Lemma btree_lookup_run fold h fuel s pos l : (h < fuel)%nat -> ls_ok s -> s.(ls_fold) = fold -> tree red (ldata s) (lpos s) h pos l -> sorted cmp l -> Forall has_key l ->
  runs (btree_lookup rq fuel pos) s (fun e s' => lr s s' /\ (e, s'.(ls_user)) = answer rq fold k l s.(ls_user)).
Proof.
  intros Hfu Hs Hf Ht Hso Hh. unfold btree_lookup. rewrite Hkeys. apply runs_bind, runs_gets, runs_bind, runs_modify.
  eapply runs_mono; [apply (lookup_inner_run fold h); [done|done|by split|done..]|]. intros e s' (A1 & A2 & _). by split.
Qed.
End lookup.
