(* ===== verification/BtreeDb.v ===== *)
(** * The trees of a database

    Modification, construction and lookup of B+trees together, with the comparisons and
    reductions that databases use. *)
From Stdlib Require Import ZArith Lia Sorted.
From stdpp Require Import strings gmap prelude sorting.
From S2P Require Import Prelude Bitfield ViewCodec Snappy NodeTypes Crc CouchFile Btree BtreeSpec BtreeRep BtreeWrite BtreeModify BtreeRoot BtreeCorrect Reduces BtreeLookup.

#[local] Set Warnings "-clear-no-such-hyp".

(** ** What a list has for a key after actions *)

Section after.
Context {cmp : list Z -> list Z -> Z} `{COK : !CompareOk cmp}.

Lemma cmp_zero_l a b c : cmp a b = 0 -> (cmp a c =? 0) = (cmp b c =? 0).
Proof.
  intros Hab. pose proof (cmp_eq_sym _ _ _ Hab) as Hba. assert (Hz : forall x y z, cmp x y = 0 -> cmp y z = 0 -> cmp x z = 0).
  { intros x y z Hxy Hyz. pose proof (cmp_trans (cmp := cmp) x y z ltac:(lia) ltac:(lia)). pose proof (cmp_eq_sym _ _ _ Hxy). pose proof (cmp_eq_sym _ _ _ Hyz).
    pose proof (cmp_trans (cmp := cmp) z y x ltac:(lia) ltac:(lia)). destruct (Z.eq_dec (cmp x z) 0); [done|]. assert (Hlt : cmp x z < 0) by lia. apply cmp_antisym in Hlt. lia. }
  destruct (Z.eqb_spec (cmp a c) 0) as [H1|H1], (Z.eqb_spec (cmp b c) 0) as [H2|H2]; try done; exfalso; eauto.
Qed.

Lemma cmp_sym_eqb a b : (cmp a b =? 0) = (cmp b a =? 0).
Proof. destruct (Z.eqb_spec (cmp a b) 0) as [H1|H1]; [by rewrite cmp_eq_sym|]. symmetry. apply Z.eqb_neq. intros H2. apply H1. by apply cmp_eq_sym. Qed.

Lemma find_none k l : Forall (fun x => klt cmp k x.1) l -> find cmp k l = None.
Proof. intros Hl. pose proof (find_above cmp k [] l Hl) as He. exact He. Qed.

Lemma find_put k k' v l : sorted cmp l -> find cmp k (put cmp k' v l) = if cmp k' k =? 0 then Some v else find cmp k l.
Proof.
  induction 1 as [|x l Hs IH Hx]; cbn [put find]; [done|]. destruct (Z.ltb_spec (cmp x.1 k') 0) as [Hlt|Hge]; cbn [find].
  - rewrite IH. destruct (Z.eqb_spec (cmp x.1 k) 0) as [Hz|]; [|done]. destruct (Z.eqb_spec (cmp k' k) 0) as [Hz'|]; [|done]. exfalso.
    pose proof (cmp_trans (cmp := cmp) k' k x.1 ltac:(lia) (Z.eq_le_incl _ _ (cmp_eq_sym _ _ _ Hz))). apply cmp_antisym in Hlt. lia.
  - destruct (Z.ltb_spec 0 (cmp x.1 k')) as [Hgt|Hle]; cbn [find]; [done|]. assert (Hz : cmp x.1 k' = 0) by lia.
    cbn [fst snd]. destruct (cmp k' k =? 0) eqn:He; [done|]. by rewrite (cmp_zero_l _ _ k Hz), He.
Qed.

Lemma find_del k k' l : sorted cmp l -> find cmp k (del cmp k' l) = if cmp k' k =? 0 then None else find cmp k l.
Proof.
  induction 1 as [|x l Hs IH Hx]; cbn [del find]; [by destruct (_ =? 0)|]. destruct (Z.eqb_spec (cmp x.1 k') 0) as [Hz|Hn]; cbn [find].
  - rewrite (cmp_zero_l _ _ k Hz). destruct (Z.eqb_spec (cmp k' k) 0) as [Hz'|]; [|done]. apply find_none. eapply Forall_impl; [exact Hx|]. intros y Hy.
    apply (kle_lt_trans cmp _ x.1); [|done]. rewrite (proj1 (Z.eqb_eq (cmp k x.1) 0)); [done|]. rewrite cmp_sym_eqb, (cmp_zero_l _ _ k Hz). by apply Z.eqb_eq.
  - rewrite IH. destruct (Z.eqb_spec (cmp k' k) 0) as [Hz'|]; [|done]. destruct (Z.eqb_spec (cmp x.1 k) 0) as [Hz|]; [|done]. exfalso. apply Hn.
    apply Z.eqb_eq. rewrite cmp_sym_eqb, (cmp_zero_l _ _ x.1 Hz'), cmp_sym_eqb. by apply Z.eqb_eq.
Qed.

(** The value of a key after the actions: that of the change for the key, or the old one. *)
Fixpoint value_after (k : list Z) (acts : list couchfile_modify_action) (l : list kv) : option (list Z) :=
  match acts with
  | [] => find cmp k l
  | a :: acts' =>
      match a.(act_type) with
      | ACTION_INSERT data => if cmp a.(act_key) k =? 0 then Some data else value_after k acts' l
      | ACTION_REMOVE => if cmp a.(act_key) k =? 0 then None else value_after k acts' l
      | ACTION_FETCH _ => value_after k acts' l
      end
  end.

Lemma value_after_ext k acts l m : find cmp k l = find cmp k m -> value_after k acts l = value_after k acts m.
Proof. intros He. induction acts as [|a acts IH]; [done|]. cbn [value_after]. rewrite IH. done. Qed.

Lemma value_after_above k acts l : Forall (fun a => klt cmp k a.(act_key)) acts -> value_after k acts l = find cmp k l.
Proof.
  induction 1 as [|a acts Ha _ IH]; [done|]. cbn [value_after]. rewrite IH. destruct (cmp_neq_lt _ _ _ Ha) as [_ Hn]. rewrite (proj2 (Z.eqb_neq _ _) Hn). by destruct (act_type a).
Qed.

Lemma find_apply k acts l : sorted cmp l -> acts_ok cmp acts -> find cmp k (apply_actions cmp acts l) = value_after k acts l.
Proof.
  intros Hs Hok. revert l Hs. induction Hok as [|a acts Hok IH Ha]; intros l Hs; [done|]. unfold apply_actions. cbn [foldl value_after]. fold (apply_actions cmp acts (apply_action cmp l a)).
  assert (Habove : ~ is_fetch a -> cmp a.(act_key) k = 0 -> Forall (fun b => klt cmp k b.(act_key)) acts).
  { intros Hf Hz. eapply Forall_impl; [exact Ha|]. intros b [Hb|[_ Hb]]; [|done]. apply (kle_lt_trans cmp _ a.(act_key)); [|done]. by rewrite cmp_eq_sym. }
  rewrite IH by (apply apply_sorted with (acts := [a]); done). unfold apply_action. destruct (act_type a) as [arg| |data] eqn:Ht; [done|..].
  - pose proof (find_del k (act_key a) l Hs) as Hd. destruct (Z.eqb_spec (cmp (act_key a) k) 0) as [Hz|Hn].
    + rewrite value_after_above, Hd; [done|]. apply Habove; [|done]. intros (arg & Hb). congruence.
    + by apply value_after_ext.
  - pose proof (find_put k (act_key a) data l Hs) as Hd. destruct (Z.eqb_spec (cmp (act_key a) k) 0) as [Hz|Hn].
    + rewrite value_after_above, Hd; [done|]. apply Habove; [|done]. intros (arg & Hb). congruence.
    + by apply value_after_ext.
Qed.
End after.

(** ** Byte strings *)

Lemma lex_eq a b : lex a b = 0 -> a = b.
Proof.
  revert b. induction a as [|x a IH]; intros [|y b]; [done..|]. cbn. destruct (Z.ltb_spec x y); [done|]. destruct (Z.ltb_spec y x); [done|].
  intros He. rewrite (IH b He). f_equal. lia.
Qed.

(** With byte strings the callback gets the key of the request. *)
Lemma lookup_item_find {U} (rq : couchfile_lookup_request U) k l u : rq.(lk_compare) = ebin_cmp -> k <> [] -> Forall has_key l ->
  lookup_item rq k l u = rq.(lk_fetch_callback) k (find ebin_cmp k l) u.
Proof.
  intros Hc Hk Hl. unfold lookup_item. induction Hl as [|x l Hx _ IH]; [done|]. cbn [List.find find].
  assert (He : lookup_compare rq x.1 k = ebin_cmp x.1 k) by (unfold lookup_compare; rewrite !nonempty_len by done; by rewrite Hc). rewrite He.
  destruct (Z.eqb_spec (ebin_cmp x.1 k) 0) as [Hz|]; [|done]. rewrite ebin_cmp_lex in Hz. by rewrite (lex_eq _ _ Hz).
Qed.

(** * Theorems *)

Section trees.
Context {F U : Type} `{FileOpsOk F} `{Alloc} `{Snappy} {SOK : SnappyOk}.
Context {rq : couchfile_modify_request U} {red : list kv -> list Z} {rmax : Z} {ROK : ReduceOk rq red rmax} {TE : TreeEnv rq}.
Context `{COK : !CompareOk rq.(rq_compare)}.
Implicit Types (s : btree F U) (l : list kv).

Abbreviation bpos s := (tf_pos (bt_file s)).
Abbreviation bmem s := (tf_mem (bt_file s)).
Abbreviation cmp := (rq_compare rq).
Abbreviation request_ok := (request_ok (rq := rq) (red := red) (rmax := rmax)).
Abbreviation result_ok := (result_ok (red := red)).
Abbreviation root_rep := (root_rep (red := red)).

(** C7: a modification always succeeds when reads, writes and allocations do. The root it
    returns is that of a tree whose contents are what the actions, applied one after the
    other, make of the old contents: there is no root when nothing is left, and otherwise,
    as long as file positions fit into the 48 bits of pointers, the file holds the
    tree. The fetch callback was called for the fetches, in order, with what the old tree has
    for their keys. The file only grew: every tree that could be read before can be read
    after, and no memory is kept but that of the returned root, which carries the reduction
    of all contents. *)
Theorem modify_btree_correct s root h l fuel : request_ok s root h l fuel ->
  runs (modify_btree rq fuel root) s (fun x s' => x.1 = COUCHSTORE_SUCCESS /\
    s'.(bt_user) = fetches cmp rq.(rq_fetch_callback) rq.(rq_actions) l s.(bt_user) /\
    result_ok s root (apply_actions cmp rq.(rq_actions) l) x.2 s' /\
    (forall root0 h0 l0, root_rep (bt_file s) root0 h0 l0 -> root_rep (bt_file s') root0 h0 l0)).
Proof. apply modify_btree_run. Qed.

(** C19: a tree that is built from a list of items, as the compactor does it (a new result, a
    push for every item, [complete_new_btree]), always has these items as its contents when
    reads, writes and allocations succeed: levels are added until one node is left, an empty
    list gives no root, nothing of the old file is changed, and the root carries the
    reduction of all items. *)
Theorem build_btree_correct fuel s l :
  ops_ok (tf_handle (bt_file s)) -> 0 <= bpos s -> mem_ok (bmem s) -> good (rmax := rmax) l -> (length l <= fuel)%nat ->
  runs (build_btree (rq := rq) fuel l) s (fun x s' => x.1 = COUCHSTORE_SUCCESS /\ s'.(bt_user) = s.(bt_user) /\ result_ok s None l x.2 s').
Proof.
  intros Ho Hp Hm Hg Hf. set (c0 := m_calls (bmem s)). assert (Hs : st_ok (c0 := c0) s) by done. unfold build_btree, new_btree_modres. run.
  eapply arena_run; [exact Hs|]. intros n s1 F1 U1 _. run; [done|]. pose proof (fr_ok _ _ F1 Hs) as Hs1. eapply modres_run; [exact Hs1|]. intros r s2 F2 U2 _ R2 _. run.
  pose proof (fr_trans _ _ _ F1 F2) as F02. eapply runs_mono; [eapply (push_all_run c0 l s2 _ []); [by eapply fr_ok|apply (modified_ok _ _ _ _ true (R2 None))|done]|].
  intros [e r1] s3 (G1 & G2 & -> & G4 & G5). cbn [fst snd app] in *. rewrite decide_True by done. pose proof (fr_trans _ _ _ F02 G1) as F03.
  eapply runs_mono; [eapply (complete_run c0 fuel s3 r1 l); [by eapply fr_ok|done|done|done|done]|].
  intros x s4 (K1 & K2 & K3). split; [done|]. split; [congruence|]. by eapply result_start.
Qed.

(** C18: a lookup of one key reads the whole way from the root to the right leaf: when reads
    and allocations succeed, the callback is called exactly once, with the item that has the
    key or, when there is none, with the key and no value. With the flag [fold] it is called
    with all items from the key on, in order (from the first one when the key is empty),
    until it returns an error. The result of the lookup is the result of the callback; the
    file is unchanged and all memory is given back. *)
Theorem btree_lookup_correct {V} (rql : couchfile_lookup_request V) (k : list Z) (fold : bool) fuel (t : lookup_state F V) h pos l :
  rql.(lk_compare) = cmp -> rql.(lk_keys) = [k] -> rql.(lk_node_callback) = None -> ls_ok t -> t.(ls_fold) = fold -> (h < fuel)%nat ->
  tree red (ops_data (tf_handle (ls_file t))) (tf_pos (ls_file t)) h pos l -> sorted cmp l -> Forall has_key l ->
  runs (btree_lookup rql fuel pos) t (fun e t' => lr t t' /\
    (e, t'.(ls_user)) = if fold then fold_items rql (from rql k l) t.(ls_user) else lookup_item rql k l t.(ls_user)).
Proof.
  intros Hc Hk Hn Hs Hf Hfu Ht Hso Hh. assert (COK' : CompareOk (lk_compare rql)) by (by rewrite Hc). rewrite <- Hc in Hso.
  by apply (btree_lookup_run (rqm := rq) (red := red) (rmax := rmax) te_reliable te_malloc Hk Hn fold h).
Qed.

(** C8: what a modification of a tree by document id stores is what a lookup finds: after
    [modify_btree] (with reads, writes and allocations that succeed, and positions of 48
    bits) the lookup of a key calls the callback with the data that was inserted for it, with
    nothing when it was removed, and else with what the old tree had for it. *)
Theorem modify_then_lookup {V} (rql : couchfile_lookup_request V) (k : list Z) fuel s root h l :
  cmp = ebin_cmp -> request_ok s root h l fuel -> Forall has_key l -> Forall (fun a => a.(act_key) <> []) rq.(rq_actions) ->
  rql.(lk_compare) = ebin_cmp -> rql.(lk_keys) = [k] -> rql.(lk_node_callback) = None -> k <> [] ->
  runs (modify_btree rq fuel root) s (fun x s' => bpos s' < 2 ^ 48 ->
    match x.2 with
    | None => value_after (cmp := cmp) k rq.(rq_actions) l = None
    | Some p => exists h', forall fuel' (u : V), (h' < fuel')%nat ->
        runs (btree_lookup rql fuel' p.(np_pointer)) (mk_ls (bt_file s') u false false)
          (fun e t => (e, t.(ls_user)) = rql.(lk_fetch_callback) k (value_after (cmp := cmp) k rq.(rq_actions) l) u)
    end).
Proof.
  intros Hc Hrq Hh Ha Hcl Hkl Hnl Hk. pose proof Hrq as [_ _ _ _ Hso Hok _ _]. eapply runs_mono; [by eapply modify_btree_run|].
  intros [e0 root'] s' (_ & _ & [(G1 & G2 & _) R] & _) Hlim. cbn [snd] in *. rewrite <- find_apply by done. destruct root' as [p|]; [|by destruct R as [-> _]].
  destruct R as [R R2]. destruct (R Hlim) as (h' & _ & Ht). exists h'. intros fuel' u Hfu.
  assert (COK' : CompareOk (lk_compare rql)) by (rewrite Hcl; apply _). assert (Hm : mem_ok (tf_mem (bt_file s'))) by (destruct R2 as [[_ [R2 _]]|(_ & n & _ & R2 & _)]; done).
  assert (Hnew : Forall has_key (apply_actions cmp (rq_actions rq) l)) by (by apply (apply_keys cmp _ _ (fun y => y <> []))).
  eapply runs_mono; [eapply (btree_lookup_run (rqm := rq) (red := red) (rmax := rmax) te_reliable te_malloc Hkl Hnl false h'); [done|done|done|exact Ht| |done]|].
  - rewrite Hcl, <- Hc. by apply apply_sorted.
  - intros e t [_ A]. rewrite A. cbn [ls_user]. rewrite <- Hc in Hcl. rewrite Hc in *. by apply lookup_item_find.
Qed.
End trees.

(** ** Witnesses *)

(** Documents are put into a new tree by id, in chunks so small that it has several levels. *)
Definition demo_actions : list couchfile_modify_action :=
  map (fun k => mk_action (ACTION_INSERT (replicate 17 k)) [k]) [1; 2; 3; 4; 5; 6; 7; 8; 9].

Definition demo_request : couchfile_modify_request (list Z) :=
  mk_rq ebin_cmp demo_actions None (Some by_id_reduce) (Some by_id_rereduce) None None false 30 30.

Definition demo_items : list kv := apply_actions ebin_cmp demo_actions [].

Definition demo_state : btree (list Z) (list Z) := mk_bt new_file [] false.

#[global] Instance demo_reduce : ReduceOk demo_request id_reduction 16.
Proof. by apply by_id_reduce_ok. Qed.

#[global] Instance demo_env : TreeEnv demo_request.
Proof. constructor; [apply plain_snappy_max|exact I|done|done..]. Qed.

#[global] Instance demo_compare : CompareOk (rq_compare demo_request).
Proof. apply ebin_cmp_ok. Qed.

Lemma kv_ok_all l : forallb (fun x : kv => (len x.1 <? 2 ^ 12) && (len x.2 <? 2 ^ 28)) l = true -> Forall kv_ok l.
Proof.
  rewrite forallb_forall, Forall_forall. intros Hl x Hx. apply list_elem_of_In in Hx. specialize (Hl x Hx). rewrite andb_true_iff, !Z.ltb_lt in Hl. exact Hl.
Qed.

Lemma demo_good : good (rmax := 16) demo_items.
Proof. split; [vm_compute; reflexivity|]. apply kv_ok_all. vm_compute. reflexivity. Qed.

Lemma demo_request_ok : request_ok (rq := demo_request) (red := id_reduction) (rmax := 16) demo_state None 0 [] 20.
Proof.
  constructor.
  - split; [exact I|done].
  - exact new_mem_ok.
  - done.
  - split; [done|by intros p].
  - constructor.
  - cbn. repeat constructor.
  - exact demo_good.
  - apply Nat.ltb_lt. vm_compute. reflexivity.
Qed.

Lemma modify_btree_correct_witness :
  runs (modify_btree demo_request 20 None) demo_state (fun x s' => x.1 = COUCHSTORE_SUCCESS /\ result_ok (red := id_reduction) demo_state None demo_items x.2 s').
Proof.
  eapply runs_mono; [exact (modify_btree_correct demo_state None 0 [] 20 demo_request_ok)|]. intros x s' (H1 & _ & H2 & _). exact (conj H1 H2).
Defined.

Lemma build_btree_correct_witness :
  runs (build_btree (rq := demo_request) 20 demo_items) demo_state (fun x s' => x.1 = COUCHSTORE_SUCCESS /\ s'.(bt_user) = [] /\ result_ok (red := id_reduction) demo_state None demo_items x.2 s').
Proof.
  apply (build_btree_correct 20 demo_state demo_items); [exact I|done|exact new_mem_ok|exact demo_good|].
  apply Nat.leb_le. vm_compute. reflexivity.
Defined.

Definition demo_lookup : couchfile_lookup_request (list (list Z * option (list Z))) :=
  mk_lk ebin_cmp [[5]] (fun k v u => (COUCHSTORE_SUCCESS, u ++ [(k, v)])) None.

Lemma modify_then_lookup_witness :
  runs (modify_btree demo_request 20 None) demo_state (fun x s' => tf_pos (bt_file s') < 2 ^ 48 ->
    match x.2 with
    | None => Some (replicate 17 5) = None
    | Some p => exists h', forall fuel' u, (h' < fuel')%nat ->
        runs (btree_lookup demo_lookup fuel' p.(np_pointer)) (mk_ls (bt_file s') u false false)
          (fun e t => (e, t.(ls_user)) = (COUCHSTORE_SUCCESS, u ++ [([5], Some (replicate 17 5))]))
    end).
Proof.
  refine (modify_then_lookup demo_lookup [5] 20 demo_state None 0 [] eq_refl demo_request_ok _ _ eq_refl eq_refl eq_refl _).
  - constructor.
  - repeat constructor; discriminate.
  - discriminate.
Defined.

(** A file with one leaf. *)
Definition leaf_file (l : list kv) : tree_file (list Z) :=
  match db_write_buf_compressed (KV_NODE :: kv_bytes l) new_file with Some (_, f) => f | None => new_file end.

Lemma leaf_tree red l : l <> [] -> Forall kv_ok l -> len (KV_NODE :: kv_bytes l) < 2 ^ 30 ->
  tree red (ops_data (tf_handle (leaf_file l))) (tf_pos (leaf_file l)) 0 0 l.
Proof.
  intros Hne Hk Hl. split; [done|]. split; [done|].
  pose proof (write_compressed_run plain_snappy_max (KV_NODE :: kv_bytes l) new_file I new_mem_ok ltac:(done) Hl) as (r & f & He & _ & _ & Hr).
  unfold leaf_file. rewrite He. destruct r as [e|[p n]]; [destruct Hr as [_ Hr]; by destruct (Hr I ltac:(done))|]. by destruct Hr as [-> Hr].
Qed.

Definition leaf_items : list kv := [([1], [10]); ([3], [30])].

Lemma leaf_items_tree red : tree red (ops_data (tf_handle (leaf_file leaf_items))) (tf_pos (leaf_file leaf_items)) 0 0 leaf_items.
Proof. apply leaf_tree; [done|apply kv_ok_all; vm_compute; reflexivity|vm_compute; reflexivity]. Qed.

Lemma btree_lookup_correct_witness :
  runs (btree_lookup demo_lookup 1 0) (mk_ls (leaf_file leaf_items) [] false false) (fun e t' => (e, t'.(ls_user)) = (COUCHSTORE_SUCCESS, [([5], None)])).
Proof.
  eapply runs_mono; [refine (btree_lookup_correct (rq := demo_request) (red := id_reduction) (rmax := 16) demo_lookup [5] false 1 (mk_ls (leaf_file leaf_items) [] false false) 0 0 leaf_items eq_refl eq_refl eq_refl _ eq_refl _ (leaf_items_tree _) _ _)|].
  - split; [exact I|]. intros n Hn. vm_compute in Hn. by destruct n.
  - apply Nat.ltb_lt. reflexivity.
  - repeat constructor.
  - repeat constructor; discriminate.
  - intros e t' [_ A]. exact A.
Defined.
