(* ===== verification/BtreeAppend.v ===== *)
(** * B+trees are append-only

    An operation on a tree that returns, with whatever result and whichever reads, writes,
    callbacks and allocations failed, has not changed a byte below the position at which
    it started to write: a reader that holds an older root is not disturbed. Nothing is
    said of a run that does not return; in the model these are the runs that read outside
    a node whose lengths are corrupt and the runs that need more fuel ([BtreeDb] shows that
    the operations return on trees that are not corrupt). *)
From Stdlib Require Import ZArith Lia.
From stdpp Require Import strings gmap prelude.
From S2P Require Import Prelude Bitfield ViewCodec Snappy NodeTypes Crc CouchFile Btree BtreeSpec BtreeRep.

#[local] Set Warnings "-clear-no-such-hyp".

Section append.
Context {F U : Type} `{FileOpsOk F} `{Alloc} `{Snappy}.
(** A read leaves the file as it is, at every offset. *)
Context (read_only : forall h n off r h', ops_ok h -> ops_pread n off h = Some (r, h') -> ops_ok h' /\ ops_data h' = ops_data h).
Context (rq : couchfile_modify_request U).

Abbreviation sound f := (ops_ok (tf_handle f) /\ 0 <= tf_pos f).

(** ** The file layer *)

Definition fappends {A} (m : M (tree_file F) A) : Prop := forall f a f', sound f -> m f = Some (a, f') -> grows f f'.

Lemma grows_same f : sound f -> grows f f.
Proof. intros [Ho Hp]. split; [done|]. split; [done|apply agree_refl]. Qed.

Lemma grows_sound f f' : sound f -> grows f f' -> sound f'.
Proof. intros [_ Hp] (G1 & G2 & _). split; [done|lia]. Qed.

Lemma fappends_ret {A} (a : A) : fappends (mret a).
Proof. intros f x f' Hf [= _ <-]. by apply grows_same. Qed.

Lemma fappends_bind {A B} (m : M (tree_file F) A) (k : A -> M (tree_file F) B) : fappends m -> (forall a, fappends (k a)) -> fappends (mbind k m).
Proof.
  intros Hm Hk f b f' Hf (a & f1 & E1 & E2)%run_bind_Some. pose proof (Hm _ _ _ Hf E1) as G1. eapply grows_trans; [exact G1|].
  eapply (Hk a f1 b f'); [by apply (grows_sound f)|done].
Qed.

Lemma fappends_mem {A} (m : M mem A) : fappends (on_mem m).
Proof.
  intros f a f' [Ho Hp] He. unfold on_mem in He. destruct (m _) as [[]|]; [|done]. injection He as _ <-. split; [done|]. by split; [|apply agree_refl].
Qed.

Lemma fappends_option {A} (o : option A) : fappends (of_option o).
Proof. intros f a f' Hf He. destruct o; [|done]. injection He as _ <-. by apply grows_same. Qed.

Lemma fappends_assert b : fappends (cassert b : M (tree_file F) unit).
Proof. intros f a f' Hf He. destruct b; [|done]. injection He as _ <-. by apply grows_same. Qed.

Lemma fappends_read_loop fuel p n dst : fappends (read_loop fuel p n dst).
Proof.
  revert p n dst. induction fuel as [|fuel IH]; intros p n dst; cbn [read_loop]; (destruct (n <=? 0); [apply fappends_ret|]); [by intros f a f' _|].
  cbv zeta. apply fappends_bind; [|intros [e|[|x b]]; [apply fappends_ret..|apply IH]].
  intros f a f' [Ho Hp] He. unfold on_handle in He. destruct (ops_pread _ _ _) as [[r h']|] eqn:Hr; [|done]. injection He as _ <-.
  destruct (read_only _ _ _ _ _ Ho Hr) as [G1 G2]. split; [done|]. split; [done|]. cbn [tf_handle]. rewrite G2. apply agree_refl.
Qed.

Lemma fappends_read pos : fappends (pread_compressed pos).
Proof.
  assert (Hfree : forall p {A} (x : A), fappends (on_mem (free p);; mret x)) by (intros p A x; apply fappends_bind; [apply fappends_mem|intros _; apply fappends_ret]).
  unfold pread_compressed, pread_bin_internal, read_skipping_prefixes. apply fappends_bind.
  - apply fappends_bind; [apply fappends_read_loop|]. intros [e|[q info]]; [apply fappends_ret|]. cbv zeta. destruct (_ && _); [apply fappends_ret|].
    apply fappends_bind; [apply fappends_mem|]. intros p. destruct (decide (p = Null)) as [?|?]; [apply fappends_ret|]. apply fappends_bind; [apply fappends_read_loop|].
    intros [e|[q' b]]; [apply Hfree|]. destruct (_ && _); [apply Hfree|apply fappends_ret].
  - intros [e|[p b]]; [apply fappends_ret|]. destruct (snappy_uncompressed_length b (len b)) as [n|]; [|apply Hfree].
    apply fappends_bind; [apply fappends_mem|]. intros q. destruct (decide (q = Null)) as [?|?]; [apply Hfree|].
    destruct (snappy_uncompress b n); (apply fappends_bind; [apply fappends_mem|]; intros _); [|apply Hfree].
    apply fappends_bind; [apply fappends_assert|]. intros _. apply fappends_ret.
Qed.

(** A chunk goes behind everything that was written. *)
Lemma fappends_write_buf buf : fappends (db_write_buf buf).
Proof.
  intros f a f' [Ho Hp] He. unfold db_write_buf in He. apply run_bind_Some in He as (q & f1 & [= <- <-] & He).
  set (hdr := be_bytes 4 _ ++ be_bytes 4 _) in He. apply run_bind_Some in He as (w & f1 & E1 & He).
  pose proof (runs_Some _ _ _ _ _ (raw_write_run hdr (tf_pos f) f Ho Hp) E1) as (O1 & [S1 _] & A1 & W1).
  destruct w as [e|n]; [injection He as _ <-; split; [done|]; rewrite S1; by split|]. destruct W1 as [W1 _]. pose proof (after_ge (tf_pos f) (length hdr)) as L1.
  apply run_bind_Some in He as (w & f2 & E2 & He). pose proof (runs_Some _ _ _ _ _ (raw_write_run buf (tf_pos f + n) f1 O1 ltac:(lia)) E2) as (O2 & [S2 _] & A2 & W2).
  assert (A12 : agree (tf_pos f) (ops_data (tf_handle f)) (ops_data (tf_handle f2))) by (eapply (agree_trans _ (tf_pos f + n)); [lia|done|done]).
  destruct w as [e|n2]; [injection He as _ <-; split; [done|]; split; [lia|done]|]. destruct W2 as [W2 _]. pose proof (after_ge (tf_pos f + n) (length buf)) as L2.
  injection He as _ <-. split; [done|]. split; [cbn [tf_pos]; lia|done].
Qed.

Lemma fappends_write buf : fappends (db_write_buf_compressed buf).
Proof.
  unfold db_write_buf_compressed. apply fappends_bind; [apply fappends_mem|]. intros p. destruct (decide (p = Null)); [apply fappends_ret|].
  apply fappends_bind; [apply fappends_option|]. intros c. apply fappends_bind; [apply fappends_assert|]. intros _. apply fappends_bind; [apply fappends_write_buf|].
  intros r. apply fappends_bind; [apply fappends_mem|]. intros _. apply fappends_ret.
Qed.

(** ** Trees *)

Definition appends {A} (m : M (btree F U) A) : Prop := forall s a s', sound (bt_file s) -> m s = Some (a, s') -> grows (bt_file s) (bt_file s').

Lemma appends_ret {A} (a : A) : appends (mret a).
Proof. intros s x s' Hs [= _ <-]. by apply grows_same. Qed.

Lemma appends_bind {A B} (m : M (btree F U) A) (k : A -> M (btree F U) B) : appends m -> (forall a, appends (k a)) -> appends (mbind k m).
Proof.
  intros Hm Hk s b s' Hs (a & s1 & E1 & E2)%run_bind_Some. pose proof (Hm _ _ _ Hs E1) as G1. eapply grows_trans; [exact G1|].
  eapply (Hk a s1 b s'); [by apply (grows_sound (bt_file s))|done].
Qed.

Lemma appends_file {A} (m : M (tree_file F) A) : fappends m -> appends (in_file m).
Proof. intros Hm s a s' Hs He. unfold in_file in He. destruct (m _) as [[]|] eqn:E; [|done]. injection He as _ <-. by eapply Hm. Qed.

Lemma appends_mem {A} (m : M mem A) : appends (in_mem m).
Proof. apply appends_file, fappends_mem. Qed.

Lemma appends_gets {A} (g : btree F U -> A) : appends (gets g).
Proof. intros s a s' Hs [= _ <-]. by apply grows_same. Qed.

Lemma appends_user u : appends (set_user u : M (btree F U) unit).
Proof. intros s a s' Hs [= _ <-]. by apply grows_same. Qed.

Lemma appends_purging b : appends (set_purging b : M (btree F U) unit).
Proof. intros s a s' Hs [= _ <-]. by apply grows_same. Qed.

Lemma appends_option {A} (o : option A) : appends (of_option o).
Proof. intros s a s' Hs He. destruct o; [|done]. injection He as _ <-. by apply grows_same. Qed.

Lemma appends_assert b : appends (cassert b : M (btree F U) unit).
Proof. intros s a s' Hs He. destruct b; [|done]. injection He as _ <-. by apply grows_same. Qed.

Lemma appends_crash {A} : appends (crash : M (btree F U) A).
Proof. by intros s a s' _. Qed.

Lemma appends_read pos : appends (in_file (pread_compressed pos)).
Proof. apply appends_file, fappends_read. Qed.

Lemma appends_write buf : appends (in_file (db_write_buf_compressed buf)).
Proof. apply appends_file, fappends_write. Qed.
End append.

Create HintDb append discriminated.
#[export] Hint Resolve appends_ret appends_mem appends_gets appends_user appends_purging appends_option appends_assert appends_crash
  appends_read appends_write : append.

(** A computation appends when all its steps do. *)
Ltac appends :=
  repeat (cbv zeta beta; lazymatch goal with
  | |- appends (mbind _ _) => apply appends_bind; [|intros ?]
  | |- appends (match ?x with _ => _ end) => destruct x
  | |- appends (let '(_, _) := ?x in _) => destruct x
  | |- _ => solve [eauto with append]
  end).

Section trees.
Context {F U : Type} `{FileOpsOk F} `{Alloc} `{Snappy}.
Context (read_only : forall h n off r h', ops_ok h -> ops_pread n off h = Some (r, h') -> ops_ok h' /\ ops_data h' = ops_data h).
Context (rq : couchfile_modify_request U).
Abbreviation appends := (appends (F := F) (U := U)).

Lemma appends_nodelist n : appends (make_nodelist n).
Proof. unfold make_nodelist. appends. Qed.
Hint Resolve appends_nodelist : append.

Lemma appends_modres : appends make_modres.
Proof. unfold make_modres. appends. Qed.
Hint Resolve appends_modres : append.

Lemma appends_encode p : appends (encode_pointer p).
Proof. unfold encode_pointer. appends. Qed.
Hint Resolve appends_encode : append.

Lemma appends_read_pointer k b : appends (read_pointer k b).
Proof. unfold read_pointer. appends. Qed.
Hint Resolve appends_read_pointer : append.

Lemma appends_flush_partial r q : appends (flush_mr_partial rq r q).
Proof. unfold flush_mr_partial. appends. Qed.
Hint Resolve appends_flush_partial : append.

Lemma appends_flush r : appends (flush_mr rq r).
Proof. apply appends_flush_partial. Qed.
Hint Resolve appends_flush : append.

Lemma appends_maybe_flush r : appends (maybe_flush rq r).
Proof. unfold maybe_flush. appends. Qed.
Hint Resolve appends_maybe_flush : append.

Lemma appends_push k v r : appends (mr_push_item rq k v r).
Proof. unfold mr_push_item. appends. Qed.

Lemma appends_push_pointer p r : appends (mr_push_pointerinfo rq p r).
Proof. unfold mr_push_pointerinfo. appends. Qed.
Hint Resolve appends_push appends_push_pointer : append.

Lemma appends_move src dst : appends (mr_move_pointers rq src dst).
Proof.
  unfold mr_move_pointers. assert (Hl : forall ptrs dst, appends (move_loop rq ptrs dst)); [|appends].
  induction ptrs as [|p ptrs IH]; intros d; cbn [move_loop]; appends.
Qed.
Hint Resolve appends_move : append.

Lemma appends_purgekv k v r : appends (maybe_purgekv rq k v r).
Proof. unfold maybe_purgekv. appends. Qed.
Hint Resolve appends_purgekv : append.

Lemma appends_purgekp pn p r : (forall p r, appends (pn p r)) -> appends (maybe_purgekp rq pn p r).
Proof. intros Hp. unfold maybe_purgekp. appends. Qed.

Lemma appends_purge_kv_loop fuel : forall buf r, appends (purge_kv_loop rq fuel buf r).
Proof. induction fuel as [|fuel IH]; intros [|b buf] r; cbn [purge_kv_loop]; appends. Qed.

Lemma appends_purge_kp_loop pn fuel : (forall p r, appends (pn p r)) -> forall buf r, appends (purge_kp_loop rq pn fuel buf r).
Proof. intros Hp. pose proof (fun p r => appends_purgekp pn p r Hp). induction fuel as [|fuel IH]; intros [|b buf] r; cbn [purge_kp_loop]; appends. Qed.
Hint Resolve appends_purge_kv_loop : append.

Lemma appends_purge_node fuel : forall p r, appends (purge_node rq fuel p r).
Proof.
  induction fuel as [|fuel IH]; intros p r; cbn [purge_node]; [by apply appends_crash|]. pose proof (appends_purge_kp_loop (purge_node rq fuel)) as Hl. appends.
Qed.
Hint Resolve appends_purge_node : append.

Lemma appends_fetch k v arg : appends (fetch rq k v arg).
Proof. unfold fetch. appends. Qed.
Hint Resolve appends_fetch : append.

Lemma appends_absent a r : appends (absent_action rq a r).
Proof. unfold absent_action. appends. Qed.
Hint Resolve appends_absent : append.

Lemma appends_item k v acts : forall r, appends (item_loop rq k v acts r).
Proof. induction acts as [|a acts IH]; intros r; cbn [item_loop]; appends. Qed.
Hint Resolve appends_item : append.

Lemma appends_kv_loop fuel : forall buf acts r, appends (kv_loop rq fuel buf acts r).
Proof. induction fuel as [|fuel IH]; intros [|b buf] acts r; cbn [kv_loop]; appends. Qed.

Lemma appends_rest acts : forall r, appends (rest_loop rq acts r).
Proof. induction acts as [|a acts IH]; intros r; cbn [rest_loop]; appends. Qed.
Hint Resolve appends_kv_loop appends_rest : append.

Lemma appends_kp_loop mn pn fuel : (forall p acts r, appends (mn p acts r)) -> (forall p r, appends (pn p r)) ->
  forall buf acts r, appends (kp_loop rq mn pn fuel buf acts r).
Proof.
  intros Hm Hp. pose proof (fun p r => appends_purgekp pn p r Hp). induction fuel as [|fuel IH]; intros [|b buf] acts r; cbn [kp_loop]; appends.
Qed.

Lemma appends_contents mn pn bytes acts r : (forall p acts r, appends (mn p acts r)) -> (forall p r, appends (pn p r)) ->
  appends (modify_contents rq mn pn bytes acts r).
Proof. intros Hm Hp. pose proof (fun fuel => appends_kp_loop mn pn fuel Hm Hp). unfold modify_contents. appends. Qed.

Lemma appends_give_back p r dst : appends (give_back rq p r dst).
Proof. unfold give_back. appends. Qed.
Hint Resolve appends_give_back : append.

Lemma appends_modify_node fuel : forall p acts r, appends (modify_node rq fuel p acts r).
Proof.
  induction fuel as [|fuel IH]; intros p acts r; cbn [modify_node]; [by apply appends_crash|].
  pose proof (fun bytes acts r => appends_contents (fun n => modify_node rq fuel (Some n)) (purge_node rq fuel) bytes acts r (fun n => IH (Some n)) (appends_purge_node fuel)). appends.
Qed.
Hint Resolve appends_modify_node : append.

Lemma appends_finish_root fuel r : appends (finish_root rq fuel r).
Proof.
  unfold finish_root. assert (Hl : forall r c, appends (root_loop rq fuel r c)); [|appends].
  induction fuel as [|fuel IH]; intros r1 c; cbn [root_loop]; appends.
Qed.

Lemma appends_copy p : appends (copy_node_pointer p).
Proof. unfold copy_node_pointer. appends. Qed.
Hint Resolve appends_finish_root appends_copy : append.




End trees.

(** ** Witness *)



