(* ===== verification/BtreeFaults.v ===== *)
(** * Where the B+tree code does not do what it says

    The quota of a partial flush, lookups of several keys, and folds with a high key. *)
From Stdlib Require Import ZArith Lia Sorted.
From stdpp Require Import strings gmap prelude.
From S2P Require Import Prelude Bitfield ViewCodec Snappy NodeTypes Crc CouchFile Btree BtreeSpec BtreeRep BtreeModify Reduces BtreeLookup BtreeDb.

#[local] Set Warnings "-clear-no-such-hyp".

(** ** The quota of a partial flush *)

(** The quota is unsigned: it is only used up by items whose sizes add up to it exactly. A
    flush of two thirds of a chunk is otherwise a flush of everything. *)
Lemma partial_flush_takes_all ty its q n b st fk : 0 < q < 2 ^ 64 ->
  (forall j, (1 <= j < length its)%nat -> sizes (take j its) mod 2 ^ 64 <> q) -> (fill_node ty its q n b st fk).2 = [].
Proof.
  revert q n b st fk. induction its as [|i its IH]; intros q n b st fk Hq Hne; cbn [fill_node]; [done|].
  rewrite (proj2 (Z.ltb_lt 0 q)) by lia. cbn [orb]. destruct its as [|i' its]; [done|].
  assert (Hu : 0 < u64 (q - item_size i) < 2 ^ 64).
  { unfold u64, wrap. pose proof (Z.mod_pos_bound (q - item_size i) (2 ^ 64) ltac:(lia)). split; [|lia].
    destruct (Z.eq_dec ((q - item_size i) mod 2 ^ 64) 0) as [Hz|]; [|lia]. exfalso. apply (Hne 1%nat); [cbn [length]; lia|]. cbn [take sizes foldr]. rewrite Z.add_0_r.
    rewrite <- (Z.mod_small q (2 ^ 64)) by lia. symmetry. apply Z.mod_divide in Hz as (c & Hc); [|lia]. replace q with (item_size i + c * 2 ^ 64) by lia. apply Z.mod_add. lia. }
  apply IH; [done|]. intros j Hj He. apply (Hne (S j)); [cbn [length] in *; lia|]. cbn [take sizes foldr]. fold (sizes (take j (i' :: its))).
  rewrite Z.add_mod, He by lia. unfold u64, wrap. rewrite Z.add_mod_idemp_r by lia. rewrite Z.add_mod_idemp_l by lia.
  replace (item_size i + (q - item_size i)) with q by lia. apply Z.mod_small. lia.
Qed.

(** ** Lookups of several keys *)

Section several.
Context {F U : Type} `{FileOpsOk F} `{Alloc} `{Snappy} {SOK : SnappyOk}.

Context (rq : couchfile_lookup_request U) (k : list Z) (x : kv) (Hk : rq.(lk_keys) = [k; x.1]) (Hc : 0 < lookup_compare rq x.1 k)
  (Hcb : forall k v u, (rq.(lk_fetch_callback) k v u).1 = COUCHSTORE_SUCCESS).
Implicit Types s : lookup_state F U.

(** The state after a call of the callback for a missing key. *)
Definition missed (k' : list Z) s : lookup_state F U := mk_ls s.(ls_file) (rq.(lk_fetch_callback) k' None s.(ls_user)).2 s.(ls_fold) s.(ls_in_fold).

Lemma missed_run k' s (Q : couchstore_error_t -> lookup_state F U -> Prop) : Q COUCHSTORE_SUCCESS (missed k' s) -> runs (fetch_callback rq k' None) s Q.
Proof. intros HQ. apply callback_run. by rewrite Hcb. Qed.

Lemma missed_leaf_run n s (Q : couchstore_error_t * Z -> lookup_state F U -> Prop) : kv_ok x -> s.(ls_fold) = false -> s.(ls_in_fold) = false ->
  Q (COUCHSTORE_SUCCESS, 1) (missed k s) -> runs (lookup_kv rq (S n) (kv_bytes [x]) true ([], []) 0 2) s Q.
Proof.
  intros Hkv Hf Hi HQ. destruct (read_kv_step x [] Hkv) as [Hr Hd]. destruct (kv_bytes_cons x []) as (b0 & bs0 & Hb & _). cbn [lookup_kv].
  rewrite (bool_decide_eq_false_2 (kv_bytes [x] = [])) by (by rewrite Hb). cbn [orb]. change (2 <=? 0) with false. cbv iota. run; [exact Hr|]. cbn [fst snd]. rewrite Hd.
  unfold key_at. rewrite Hk. run; [reflexivity|]. unfold id. rewrite Hf, Hi. rewrite andb_false_r. cbn [andb]. run. rewrite (proj2 (Z.leb_le _ _)) by lia. run. rewrite Hi.
  rewrite (proj2 (Z.eqb_neq _ _)) by lia. cbn [orb]. run; [reflexivity|]. apply missed_run. rewrite decide_True by done. cbn [negb].
  destruct n; cbn [lookup_kv kv_bytes map concat]; rewrite bool_decide_eq_true_2 by done; cbn [orb]; by apply runs_ret.
Qed.

Lemma missed_rest_run s (Q : couchstore_error_t -> lookup_state F U -> Prop) : s.(ls_fold) = false -> Q COUCHSTORE_SUCCESS (missed x.1 s) -> runs (lookup_rest rq 2 1 2) s Q.
Proof.
  intros Hf HQ. cbn [lookup_rest]. run. rewrite Hf. change (2 <=? 1) with false. cbn [orb]. run. unfold key_at. rewrite Hk. run; [reflexivity|]. apply missed_run.
  rewrite decide_True by done. run. change (2 <=? 1 + 1) with true. cbn [orb]. by run.
Qed.

(** C35: a lookup of two keys in a tree of one item, where the first key is missing and
    below the item and the second is the key of the item, reports the second key as missing
    too: the loop over a leaf ends when all its bytes are read, although the last item has
    still to be compared with the next key. *)
Theorem lookup_misses_key red pos fuel s :
  ops_reliable -> malloc_total -> ls_ok s -> s.(ls_fold) = false ->
  tree red (ops_data (tf_handle (ls_file s))) (tf_pos (ls_file s)) 0 pos [x] -> (0 < fuel)%nat ->
  runs (btree_lookup rq fuel pos) s (fun e s' => e = COUCHSTORE_SUCCESS /\
    s'.(ls_user) = (rq.(lk_fetch_callback) x.1 None (rq.(lk_fetch_callback) k None s.(ls_user)).2).2).
Proof.
  intros Hrel Hmal [Ho Hm] Hf (_ & Hkv & Hn) Hfu. unfold btree_lookup. rewrite Hk. destruct fuel as [|fuel]; [lia|]. cbn [length]. change (Z.of_nat 2) with 2.
  cbn [btree_lookup_inner]. change (0 =? 2) with false. cbv iota. apply runs_bind, runs_gets, runs_bind, runs_modify, runs_bind, runs_from_file.
  eapply runs_mono; [by eapply pread_compressed_run|]. intros [e|[b bs]] f1 (R & G); [destruct G as (_ & G & _); by destruct (G Hrel Hmal)|]. destruct G as (-> & n & -> & G).
  apply runs_bind. eapply runs_of_option; [done|]. change (KV_NODE =? 0) with false. change (KV_NODE =? 1) with true. cbv iota. apply Forall_cons in Hkv as [Hkv _].
  apply runs_bind. cbn [tail length Nat.add]. apply missed_leaf_run; [done|exact Hf|done|]. cbn [fst snd]. rewrite decide_True by done. apply runs_bind, missed_rest_run; [exact Hf|].
  apply runs_bind, runs_from_file, runs_mem. eapply (free_block_run n [] (tf_mem (ls_file s))); [exact G|]. intros m _. by apply runs_ret.
Qed.
End several.

Definition one_item : kv := ([3], [30]).

Definition two_keys (k1 k2 : list Z) : couchfile_lookup_request (list (list Z * option (list Z))) :=
  mk_lk ebin_cmp [k1; k2] (fun k v u => (COUCHSTORE_SUCCESS, u ++ [(k, v)])) None.

Lemma lookup_misses_key_witness :
  runs (btree_lookup (two_keys [2] [3]) 1 0) (mk_ls (leaf_file [one_item]) [] false false)
    (fun e s' => e = COUCHSTORE_SUCCESS /\ s'.(ls_user) = [([2], None); ([3], None)]).
Proof.
  refine (lookup_misses_key (two_keys [2] [3]) [2] one_item eq_refl _ _ id_reduction 0 1 (mk_ls (leaf_file [one_item]) [] false false) I _ _ eq_refl _ _).
  - vm_compute. reflexivity.
  - intros k v u. reflexivity.
  - intros n z. reflexivity.
  - split; [exact I|]. intros n Hn. vm_compute in Hn. by destruct n.
  - apply leaf_tree; [discriminate|repeat constructor; vm_compute; reflexivity|vm_compute; reflexivity].
  - apply Nat.ltb_lt. reflexivity.
Defined.

(** A fold to a high key: the first item behind the range makes the code read an element
    behind the array of keys. *)
Example bounded_fold_overruns : btree_lookup (two_keys [1] [2]) 1 0 (mk_ls (leaf_file leaf_items) [] true false) = None.
Proof. vm_compute. reflexivity. Qed.

(** ** Errors that are not passed on *)

(** When one node of the top level was written and the next one cannot be, [finish_root]
    returns the first as the root of the tree, without an error: everything behind it is
    lost. *)
Lemma finish_root_ignores_error {F U : Type} `{FileOps F} `{Alloc} `{Snappy} (rq : couchfile_modify_request U) fuel s s1 s2 c r r' i e :
  make_modres s = Some (Some c, s1) -> flush_mr rq r s1 = Some ((e, r'), s2) -> r'.(mr_pointers) = [i] ->
  finish_root rq (S fuel) r s = Some ((COUCHSTORE_SUCCESS, i.(nl_pointer)), s2).
Proof.
  intros E1 E2 Hi. unfold finish_root. apply run_bind_Some. eexists _, _. split; [exact E1|]. cbv iota. apply run_bind_Some. eexists _, _. split; [exact E2|].
  cbn [snd root_loop]. by rewrite Hi.
Qed.
